(* ===== verification/_CoqProject ===== *)
-Q . S2P
Prelude.v
Refs.v
Heap.v
Swap.v
Pmm.v
Seccomp.v
Flock.v
Clock.v
Pty.v
Vmm.v
VmmOps.v
Spaces.v
Tlb.v
Signal.v
Timer.v
Fs.v
FsTree.v
FsOps.v
FsSpec.v
FsPath.v
TreeLock.v
Wq.v
WqSpec.v
WqRun.v
Inotify.v
InotifySpec.v
Pipe.v
PipeSpec.v
PipeLife.v
Pcache.v
PcacheSpec.v
PcacheRun.v
Str.v
StrSpec.v
Part.v
PartSpec.v
Fat.v
FatSpec.v
Ns.v
NsSpec.v
NsRun.v
NsLife.v
NsFork.v
NsPids.v
NsKill.v
NsMain.v
