(* ===== verification/Prelude.v ===== *)
(** * SamaraOS kernel verification

    SamaraOS is a kernel for x86-64 PCs, written in C, that runs Linux programs.
    This library models the parts of it that keep the machine's resources and the
    promises made to processes, and proves that they are correct.  Paths below are
    under [src/].

    ** The parts and how they work together

    Memory.  The kernel heap ([src/core/heap.c]) serves every [kmalloc].  The frame
    pool ([src/core/vmm.c]) counts references to physical frames; page tables and
    address spaces (same file) are built from frames of the pool; the page cache
    ([src/core/pcache.c]) keeps pages of files in frames that address spaces share;
    pages that are not in memory are slots of the swap areas ([src/core/swap.c]).

    Files.  Every file is a node of one tree in memory ([src/fs/fs.c]), which readers
    may walk without the kernel lock; the tree tells the page cache and the volumes
    what changes, and inotify ([src/proc/inotify.c]) tells processes.  Advisory locks
    are in [src/proc/flock.c], pseudo-terminals in [src/proc/pty.c], pipes and
    socket pairs in [src/proc/file.c].  The partitions of a disk are found by
    [src/fs/part.c]; a read-only reader of FAT volumes is [src/fs/fat.c].

    Processes.  Signals ([src/proc/signal.c]), alarms and timers
    ([src/proc/timer.c], with the sending of signals in [src/proc/proc.c]), system
    call filters ([src/proc/seccomp.c]), namespaces ([src/proc/ns.c]), the wait
    queues that every blocking call sleeps on ([src/core/wq.c]) and the clock
    ([src/core/clock.c]).

    ** Files of the library

    - [Prelude]: integers of fixed width, arrays, loops, the tactics and the lemmas
      that everything shares.  [Refs]: counts that stick at 254 against the list of
      references held, the abstract side of both swap slots and frames.
    - [Heap]: [heap.c].  The block headers are a map from addresses; the two arenas,
      the next-fit pointer and the counters are the record [heap]; [kmalloc],
      [kmalloc_big], [kfree], [kgrow], the check and the self test.
    - [Swap]: [swap.c].  A table of four areas with a byte per slot.
    - [Pmm]: the [pmm_] functions of [vmm.c], with the contents of the frames.
    - [Vmm]: the [vmm_] functions of [vmm.c] over [Pmm]: four levels of tables in
      frames, copy on write, reserved pages, fork, swap clock.  What a page that is
      not present stands for is the class [Backing] with the laws [BackingLaws];
      [Spaces] gives the instance of the areas of [Swap].  [VmmOps] has the lemmas on
      ranges and pages, [Spaces] the contract, [Tlb] the order of shootdowns.
    - [Seccomp]: [seccomp.c].  [Flock]: [flock.c].  [Clock]: [clock.c].
      [Pty]: [pty.c].  [Signal]: [signal.c], on the page tables of [Vmm].
      [Timer]: [timer.c], with [proc_check_alarm] and [send_sig].
    - [Fs]: [fs.c] but for the readers' counters.  [FsTree]: the invariant of the
      tree.  [FsOps]: the operations keep it.  [FsSpec]: the contract.  [FsPath]:
      paths lead back to their nodes.  [TreeLock]: the counters of the readers.
    - [Wq]: [wq.c] with its two pools.  [WqSpec]: the contract.  [WqRun]: wait loops,
      producers, timeouts and kills in any order.
    - [Inotify]: [inotify.c] with its rings.  [InotifySpec]: the contract.
    - [Pipe]: pipes, named pipes, socket pairs, event and timer descriptors of
      [file.c].  [PipeSpec]: the stream of bytes under any interleaving.
      [PipeLife]: who holds a pipe, and when it is freed.
    - [Pcache]: [pcache.c] on the nodes of [Fs] and the frames of [Pmm].
      [PcacheSpec]: the invariant and the operations.  [PcacheRun]: any sequence of
      the cache's operations and the rest of the kernel's.
    - [Str]: [string.c], memory as a map of bytes.  [StrSpec]: copying, comparing,
      strings, numbers.  [Part]: [part.c] with the table of partitions of
      [drivers/ata.c].  [PartSpec]: what a scan finds.  [Fat]: [fat.c].  [FatSpec]:
      files are the bytes of their chains.
    - [Ns]: [ns.c], with what [do_fork], [proc_clone] and [teardown] of [proc.c] do for it.
      [NsSpec]: counts and trees of namespaces.  [NsRun]: unshare and setns.
      [NsLife], [NsFork]: exit and fork.  [NsPids]: pids are told apart.  [NsKill]:
      who dies with whom.  [NsMain]: runs and the theorems.

    ** How C becomes Rocq

    A C integer is a [Z] in its range, and what the code stores at a width goes
    through [u8] ... [i64] (but for the counts of references of [Ns], which have no
    limit here).  A pointer is an address, 0 is NULL.  Definitions are in
    the option monad: [None] is an access out of the bounds of an array or to an
    object that is not there, or a loop that does not end; errors of the code are
    ordinary results.  So a theorem that an operation is [Some] says that it ends
    and stays inside its memory.  A section under a lock is one step; where the
    order of steps matters (swap areas, frame pool, locks, tree readers, wait loops,
    pipes, page cache) the steps form a relation or a run, and the theorems are on every
    run.  Memory is sequentially consistent.  [task_ready], which holds no lock of the
    scheduler, is two steps.

    References that the code leaves behind for good, as a fork that fails late or an
    open with both access bits set does, are kept in a list beside the state, so
    that counts are stated with them.

    Code of the hardware and of parts that are not modelled is an argument: the disk
    driver, whether [kmalloc] finds room and where, user memory, the CMOS registers,
    the uptime, ptrace stops.  What is assumed of an argument is a hypothesis of the
    theorem (a new address is not in use, for instance), and each theorem with
    hypotheses has a witness on a concrete state.

    ** What is proved

    - Heap: any sequence of calls on payloads in use keeps the chains of blocks and
      the counters right and payloads disjoint; what each call does, freeing undoes
      allocating.  A size is at most 2^64 - 16, above which the rounding wraps.
    - Swap slots and frames: counts equal the references held in every run; a run of
      frames is found when there is one.
    - Address spaces: each range operation refines its specification on pages;
      copied pages are private; faults are served; no frame is given back before the
      other processors forgot it, on the paths that defer the giving back.
    - Page cache: references and counters are right in every run, and the contents of
      pages of files that own their bytes; each operation does what it promises;
      reclaiming takes only idle pages.
    - Filters: accepted programs run to a return, the strictest answer counts,
      filters are freed exactly with their last user, those a failed fork lost apart.
    - Locks: never two that conflict; a granted request changes exactly its bytes;
      sleeping closes no circle of waits.
    - Clock: the calendar is the Gregorian one, setting and reading the CMOS agree.
    - Terminals: the counts are the open ends, arrays stay in bounds, output is a queue, canonical lines arrive as
      edited.
    - Signals: [rt_sigreturn] undoes delivery, SIGKILL and SIGSTOP are never blocked.
      Timers: a tick serves what is due and has somebody to tell.
    - File tree: each operation refines its specification on names and contents;
      lookups end; paths lead back; readers and writers exclude each other.
    - Pipes: what is read is what was written, in order, whatever interleaves; no
      call touches a freed pipe and pipes are freed with their last file, as long as
      no end is shut down.
    - Namespaces: counts are the processes, the lost references and the namespaces below
      in every run of processes without threads; pids translate there and back; the
      end of the first process of a pid namespace ends exactly those inside, unless
      the process on the processor is one of them.
    - Memory and strings: [memmove] is exact for every overlap, [memcmp] by words is
      [memcmp] by bytes, [memset], [strlen], [strcmp]; [atoi] reads what [itoa] wrote.
    - Disks: a scan for partitions ends inside its buffers and makes only partitions
      on the disk; a file of a FAT volume is read as its clusters in order, if the
      chains end.
    - Wait queues: refinement of the pools to waiters and queues, and no wake-up is
      lost, as long as no kill falls between the two steps of [task_ready]
      ([kill_undone] shows what happens then).  Inotify: refinement of the rings and the table to queues of records.

    Some theorems and lemmas show where the code falls short: a lock lost when memory
    runs out, nodes left dangling by the removal of a directory, a path that overruns
    the stack buffer of [fs_path], a socket pair freed under its open end
    ([shutdown_frees_early]), a named pipe that is never freed ([both_bits_leak]), a process that kills the first of its pid namespace and
    dies in its place ([killer_dies]), logical partitions behind the end of the disk
    ([logical_outside]), a FAT directory that never ends ([cyclic_root_hangs]).

    ** Bounds and fuel

    Loops over arrays and lists are structural.  Where the code follows pointers the
    fuel is the number of objects there are (blocks in [search], entries of the pool
    in [Wq], filters in [put_loop], watches in [sweep]), which the invariants show to
    be enough.  [Seccomp.loop] has a turn per instruction, since jumps go forward
    only.  [resolve_n] has one more than the nine symbolic links the code allows,
    [pc_reclaim] the bound on steps of the code itself.  [Ns.put], [inside] and [view]
    have 32 turns, the size of the table, [teardown] 5, for pid namespaces nest three
    deep.  Loops over the pages of a range use [while 52]: up to 2^52 turns, the pages
    of a 64-bit address space.

    ** Not modelled

    The scheduler's context switch, the processor set-up and the drivers are assembly
    and hardware.  The desktop, the applications, the shell, the doom port and the
    user programs are not kernel logic.  System calls, open files but for pipes,
    io_uring, ptrace, procfs, the console terminal, the network stack, the writable
    volumes (ext2, FAT), exec and the balance of memory ([mem.c]) are left: most
    of what they do is to copy between user memory, hardware and the parts that are
    modelled.  Namespaces are without [ns_pivot] and the text of the id maps, pipes
    without descriptors in flight.  In the parts that are modelled, printed reports
    ([heap_report], [flk_text]), the KDEBUG build of the heap, [vmm_copy_to],
    [mmio_map], [vmm_flush] and the page table half of [pc_map] are left out. *)

From Stdlib Require Export ZArith Lia Bool.
From stdpp Require Export base numbers strings gmap option list.

#[global] Open Scope Z_scope.

(** ** Machine integers

    A C integer of width [w] is the [Z] in its range.  Every arithmetic result
    that the C code stores at a given width goes through one of these. *)

Definition u8 (x : Z) : Z := x mod 2 ^ 8.
Definition u16 (x : Z) : Z := x mod 2 ^ 16.
Definition u32 (x : Z) : Z := x mod 2 ^ 32.
Definition u64 (x : Z) : Z := x mod 2 ^ 64.
Definition i32 (x : Z) : Z := (x + 2 ^ 31) mod 2 ^ 32 - 2 ^ 31.
Definition i64 (x : Z) : Z := (x + 2 ^ 63) mod 2 ^ 64 - 2 ^ 63.

(** The C truth value of an integer, and the integer of a truth value. *)
Definition nz (x : Z) : bool := negb (x =? 0).
Definition b2z (b : bool) : Z := if b then 1 else 0.

(** ** C arrays

    A C array is a list; an access outside of it is undefined behaviour and is
    [None], so that a definition that runs to [Some] never left its arrays. *)

Definition arr_get {A} (l : list A) (i : Z) : option A :=
  if 0 <=? i then l !! Z.to_nat i else None.

Definition arr_set {A} (l : list A) (i : Z) (x : A) : option (list A) :=
  if (0 <=? i) && (i <? Z.of_nat (length l)) then Some (<[Z.to_nat i := x]> l) else None.

Arguments arr_get : simpl never.
Arguments arr_set : simpl never.

(** The index range of a [for (i = 0; i < n; i++)] loop. *)
Definition upto (n : Z) : list Z := seqZ 0 n.

Declare Scope c_scope.
Delimit Scope c_scope with c.
Notation "l .[ i ]" := (arr_get l i) (at level 1, left associativity, format "l .[ i ]") : c_scope.
Notation "l .[ i <- x ]" := (arr_set l i x) (at level 1, left associativity, format "l .[ i  <-  x ]") : c_scope.
#[global] Open Scope c_scope.

(** A [for] loop that stops at the first index on which [f] answers. *)
Fixpoint first_some {A B} (f : A → option B) (l : list A) : option B :=
  match l with
  | [] => None
  | x :: l' => match f x with Some y => Some y | None => first_some f l' end
  end.

(** The index at which a search loop over an array stops, counted from [i]. *)
Fixpoint find_from {A} (i : Z) (f : A → bool) (l : list A) : option Z :=
  match l with
  | [] => None
  | x :: l' => if f x then Some i else find_from (i + 1) f l'
  end.

(** How many entries of an array satisfy a test. *)
Fixpoint countb {A} (f : A → bool) (l : list A) : Z :=
  match l with [] => 0 | x :: l' => b2z (f x) + countb f l' end.

(** A loop of up to [2 ^ k] turns; a turn ends the loop or goes on. *)
Fixpoint while2 {S R} (k : nat) (turn : S → option (R + S)) (s : S) : option (R + S) :=
  match k with
  | O => turn s
  | Datatypes.S k =>
      o ← while2 k turn s;
      match o with inl r => Some (inl r) | inr s => while2 k turn s end
  end.

(** The loop that is sure to end. *)
Definition while {S R} (k : nat) (turn : S → option (R + S)) (s : S) : option R :=
  o ← while2 k turn s; match o with inl r => Some r | inr _ => None end.

(** A loop over an array that changes a state. *)
Fixpoint each {S} (f : Z → S → option S) (ks : list Z) (s : S) : option S :=
  match ks with [] => Some s | k :: ks => s ← f k s; each f ks s end.

(** The [n] bytes of an integer in memory, and back. *)
Fixpoint le_bytes (n : nat) (x : Z) : list Z :=
  match n with O => [] | S n => u8 x :: le_bytes n (Z.shiftr x 8) end.

Fixpoint le_val (l : list Z) : Z :=
  match l with [] => 0 | b :: l => b + 256 * le_val l end.

(** ** Automation *)

(** Boolean tests in hypotheses and goal become propositions. *)
Ltac bools :=
  repeat match goal with
  | H : (_ && _) = true |- _ => apply andb_true_iff in H; destruct H
  | H : (_ || _) = false |- _ => apply orb_false_iff in H; destruct H
  | H : (_ && _) = false |- _ => apply andb_false_iff in H
  | H : (_ || _) = true |- _ => apply orb_true_iff in H
  | H : negb _ = true |- _ => apply negb_true_iff in H
  | H : negb _ = false |- _ => apply negb_false_iff in H
  | H : (_ =? _) = true |- _ => apply Z.eqb_eq in H
  | H : (_ =? _) = false |- _ => apply Z.eqb_neq in H
  | H : (_ <? _) = true |- _ => apply Z.ltb_lt in H
  | H : (_ <? _) = false |- _ => apply Z.ltb_ge in H
  | H : (_ <=? _) = true |- _ => apply Z.leb_le in H
  | H : (_ <=? _) = false |- _ => apply Z.leb_gt in H
  | H : nz _ = true |- _ => unfold nz in H
  | H : nz _ = false |- _ => unfold nz in H
  end.

(** Case split on every test of an [if] on comparisons in the goal. *)
Ltac split_ifs :=
  repeat match goal with
  | |- context [if ?b then _ else _] => let E := fresh "E" in destruct b eqn:E; bools
  end.

(** Open an option-monad hypothesis step by step. *)
Ltac inv_some :=
  repeat match goal with
  | H : Some _ = Some _ |- _ => injection H; clear H; intros; subst
  | H : None = Some _ |- _ => discriminate H
  | H : Some _ = None |- _ => discriminate H
  | H : _ ≫= _ = Some _ |- _ =>
      let x := fresh "x" in let E := fresh "E" in
      apply bind_Some in H; destruct H as (x & E & H)
  | H : match ?p with (_, _) => _ end = Some _ |- _ => destruct p
  end.

(** ** Lemmas shared by the components *)

Create HintDb samara.

Lemma u8_range x : 0 ≤ u8 x < 256.
Proof. apply Z.mod_pos_bound. lia. Qed.

Lemma u16_range x : 0 ≤ u16 x < 65536.
Proof. apply Z.mod_pos_bound. lia. Qed.

Lemma u32_range x : 0 ≤ u32 x < 2 ^ 32.
Proof. apply Z.mod_pos_bound. lia. Qed.

Lemma u64_range x : 0 ≤ u64 x < 2 ^ 64.
Proof. apply Z.mod_pos_bound. lia. Qed.

Lemma u8_small x : 0 ≤ x < 256 → u8 x = x.
Proof. intros. by apply Z.mod_small. Qed.

Lemma u16_small x : 0 ≤ x < 65536 → u16 x = x.
Proof. intros. by apply Z.mod_small. Qed.

Lemma u32_small x : 0 ≤ x < 2 ^ 32 → u32 x = x.
Proof. intros. by apply Z.mod_small. Qed.

Lemma u64_small x : 0 ≤ x < 2 ^ 64 → u64 x = x.
Proof. intros. by apply Z.mod_small. Qed.

Lemma i32_range x : - 2 ^ 31 ≤ i32 x < 2 ^ 31.
Proof. unfold i32. pose proof (Z.mod_pos_bound (x + 2 ^ 31) (2 ^ 32)). lia. Qed.

Lemma i32_small x : - 2 ^ 31 ≤ x < 2 ^ 31 → i32 x = x.
Proof. intros. unfold i32. rewrite Z.mod_small; lia. Qed.

Lemma i64_small x : - 2 ^ 63 ≤ x < 2 ^ 63 → i64 x = x.
Proof. intros. unfold i64. rewrite Z.mod_small; lia. Qed.

#[export] Hint Resolve u8_range u16_range u32_range u64_range i32_range : samara.

(** A step that succeeds. *)
Lemma bind_some {A B} (x : A) (f : A → option B) : Some x ≫= f = f x.
Proof. done. Qed.

Lemma nz_pos x : 0 < x → nz x = true.
Proof. intros. unfold nz. rewrite (proj2 (Z.eqb_neq x 0)) by lia. done. Qed.

Lemma nz_true x : nz x = true ↔ x ≠ 0.
Proof. unfold nz. rewrite negb_true_iff, Z.eqb_neq. done. Qed.

Lemma nz_false x : nz x = false ↔ x = 0.
Proof. unfold nz. rewrite negb_false_iff, Z.eqb_eq. done. Qed.

Section arrays.
Context {A : Type}.
Implicit Types (l : list A) (x y : A) (i j : Z).

Lemma arr_get_Some l i x : l.[i] = Some x ↔ 0 ≤ i ∧ l !! Z.to_nat i = Some x.
Proof. unfold arr_get. split_ifs; naive_solver lia. Qed.

Lemma arr_get_range l i x : l.[i] = Some x → 0 ≤ i < Z.of_nat (length l).
Proof.
  intros [Hi Hl]%arr_get_Some. apply lookup_lt_Some in Hl. lia.
Qed.

Lemma arr_get_is_Some l i : 0 ≤ i < Z.of_nat (length l) → is_Some (l.[i]).
Proof.
  intros Hi. unfold arr_get. split_ifs; [|lia].
  apply lookup_lt_is_Some. lia.
Qed.

Lemma arr_set_Some l i x l' :
  l.[i <- x] = Some l' ↔ 0 ≤ i < Z.of_nat (length l) ∧ l' = <[Z.to_nat i := x]> l.
Proof. unfold arr_set. split_ifs; bools; naive_solver lia. Qed.

Lemma arr_set_length l i x l' : l.[i <- x] = Some l' → length l' = length l.
Proof. intros [? ->]%arr_set_Some. apply length_insert. Qed.

Lemma arr_get_set l i x l' j :
  l.[i <- x] = Some l' → l'.[j] = if decide (j = i) then Some x else l.[j].
Proof.
  intros [Hi ->]%arr_set_Some. unfold arr_get. case_decide as Hij.
  - subst j. split_ifs; [|lia]. apply list_lookup_insert_eq. lia.
  - split_ifs; [|done]. apply list_lookup_insert_ne. lia.
Qed.
Lemma arr_get_elem l i x : l.[i] = Some x → x ∈ l.
Proof. intros [_ H]%arr_get_Some. by eapply list_elem_of_lookup_2. Qed.

Lemma arr_set_elem l i x l' y : l.[i <- x] = Some l' → y ∈ l' → y = x ∨ y ∈ l.
Proof.
  intros [Hi ->]%arr_set_Some [j Hj]%list_elem_of_lookup.
  destruct (decide (j = Z.to_nat i)) as [->|].
  - rewrite list_lookup_insert_eq in Hj by lia. left. congruence.
  - rewrite list_lookup_insert_ne in Hj by done. right. by eapply list_elem_of_lookup_2.
Qed.
End arrays.

Section counting.
Context {A : Type} (f : A → bool).
Implicit Types (l : list A) (x y : A).

Lemma countb_range l : 0 ≤ countb f l ≤ Z.of_nat (length l).
Proof. induction l as [|x l IH]; simpl; [lia|]. destruct (f x); simpl; lia. Qed.

Lemma countb_insert l i x y :
  l !! i = Some x → countb f (<[i := y]> l) = countb f l - b2z (f x) + b2z (f y).
Proof.
  revert i. induction l as [|z l IH]; intros [|i] Hi; simplify_eq/=; [lia|].
  rewrite (IH _ Hi). lia.
Qed.

Lemma countb_full l : countb f l = Z.of_nat (length l) ↔ Forall (λ x, f x = true) l.
Proof.
  induction l as [|x l IH]; simpl; [naive_solver|]. rewrite Forall_cons, <- IH.
  pose proof (countb_range l). destruct (f x); simpl; intuition (congruence || lia).
Qed.

Lemma countb_none l : countb f l = 0 ↔ Forall (λ x, f x = false) l.
Proof.
  induction l as [|x l IH]; simpl; [naive_solver|]. rewrite Forall_cons, <- IH.
  pose proof (countb_range l). destruct (f x); simpl; intuition (congruence || lia).
Qed.

Lemma countb_pos l : countb f l ≠ 0 → ∃ x, x ∈ l ∧ f x = true.
Proof.
  induction l as [|x l IH]; simpl; [done|]. intros H. destruct (f x) eqn:E.
  - exists x. split; [by left|done].
  - simpl in H. destruct (IH H) as (y & ? & ?). exists y. split; [by right|done].
Qed.

Lemma find_from_Some l i j :
  find_from i f l = Some j →
  ∃ x, i ≤ j ∧ l !! Z.to_nat (j - i) = Some x ∧ f x = true.
Proof.
  revert i. induction l as [|x l IH]; intros i; simpl; [done|].
  destruct (f x) eqn:E; intros H.
  - inv_some. exists x. rewrite Z.sub_diag. split_and!; [lia|done|done].
  - destruct (IH _ H) as (y & ? & ? & ?). exists y. split_and!; [lia| |done].
    replace (Z.to_nat (j - i)) with (S (Z.to_nat (j - (i + 1)))) by lia. done.
Qed.

Lemma find_from_None l i : find_from i f l = None ↔ Forall (λ x, f x = false) l.
Proof.
  revert i. induction l as [|x l IH]; intros i; simpl; [naive_solver|].
  rewrite Forall_cons. destruct (f x); naive_solver.
Qed.
End counting.

Lemma countb_app {A} (f : A → bool) l k : countb f (l ++ k) = countb f l + countb f k.
Proof. induction l as [|x l IH]; simpl; [done|]. rewrite IH. lia. Qed.

Lemma countb_perm {A} (f : A → bool) l k : l ≡ₚ k → countb f l = countb f k.
Proof. induction 1; simpl; lia. Qed.

Lemma countb_elem {A} (f : A → bool) l x : x ∈ l → f x = true → 0 < countb f l.
Proof.
  intros (k & Hk)%elem_of_Permutation Hf. rewrite (countb_perm _ _ _ Hk). simpl. rewrite Hf.
  pose proof (countb_range f k). simpl. lia.
Qed.

Lemma countb_ext {A} (f g : A → bool) l :
  Forall (λ x, f x = g x) l → countb f l = countb g l.
Proof. induction 1 as [|x l E _ IH]; simpl; [done|]. by rewrite E, IH. Qed.

(** A field or-ed in below a shifted one. *)
Lemma lor_shiftl_add a n i : 0 ≤ n → 0 ≤ i < 2 ^ n → Z.lor (Z.shiftl a n) i = a * 2 ^ n + i.
Proof.
  intros Hn Hi. rewrite <- Z.shiftl_mul_pow2 by done.
  assert (Z.land (Z.shiftl a n) i = 0) as H0.
  { apply Z.bits_inj'. intros k Hk. rewrite Z.land_spec, Z.bits_0, Z.shiftl_spec by done.
    destruct (Z.lt_ge_cases k n); [by rewrite Z.testbit_neg_r by lia|].
    destruct (Z.eq_dec i 0) as [->|]; [by rewrite Z.bits_0, andb_false_r|].
    rewrite (Z.bits_above_log2 i k), andb_false_r; [done|lia|]. apply Z.log2_lt_pow2; [lia|].
    apply Z.lt_le_trans with (2 ^ n); [lia|]. by apply Z.pow_le_mono_r. }
  pose proof (Z.add_lor_land (Z.shiftl a n) i). lia.
Qed.

(** Arrays of bytes, decided. *)
Definition byteb (x : Z) : bool := (0 <=? x) && (x <? 256).

Lemma bytes_decided l : forallb byteb l = true → Forall (λ x, 0 ≤ x < 256) l.
Proof.
  induction l as [|x l IH]; simpl; intros H; constructor; unfold byteb in H; bools; [lia|auto].
Qed.

Lemma set_total {A} (l : list A) i x y : l.[i] = Some x → ∃ l', l.[i <- y] = Some l'.
Proof.
  intros H%arr_get_range. exists (<[Z.to_nat i := y]> l). by apply arr_set_Some.
Qed.

(** Bit operations stay within the width. *)
Section widths.
Context (w x y : Z) (Hw : 0 ≤ w) (Hx : 0 ≤ x < 2 ^ w) (Hy : 0 ≤ y < 2 ^ w).

Lemma lor_range : 0 ≤ Z.lor x y < 2 ^ w.
Proof using Hw Hx Hy.
  assert (0 ≤ Z.lor x y) by (apply Z.lor_nonneg; lia). split; [done|].
  apply Z.bounded_iff_bits_nonneg; [done|done|]. intros l Hl. rewrite Z.lor_spec.
  pose proof (proj1 (Z.bounded_iff_bits_nonneg w x Hw ltac:(lia)) ltac:(lia) l Hl) as ->.
  by pose proof (proj1 (Z.bounded_iff_bits_nonneg w y Hw ltac:(lia)) ltac:(lia) l Hl) as ->.
Qed.

Lemma lxor_range : 0 ≤ Z.lxor x y < 2 ^ w.
Proof using Hw Hx Hy.
  assert (0 ≤ Z.lxor x y) by (apply Z.lxor_nonneg; lia). split; [done|].
  apply Z.bounded_iff_bits_nonneg; [done|done|]. intros l Hl. rewrite Z.lxor_spec.
  pose proof (proj1 (Z.bounded_iff_bits_nonneg w x Hw ltac:(lia)) ltac:(lia) l Hl) as ->.
  by pose proof (proj1 (Z.bounded_iff_bits_nonneg w y Hw ltac:(lia)) ltac:(lia) l Hl) as ->.
Qed.

Lemma land_range : 0 ≤ Z.land x y < 2 ^ w.
Proof using Hw Hx.
  assert (0 ≤ Z.land x y) by (apply Z.land_nonneg; lia). split; [done|].
  apply Z.bounded_iff_bits_nonneg; [done|done|]. intros l Hl. rewrite Z.land_spec.
  by pose proof (proj1 (Z.bounded_iff_bits_nonneg w x Hw ltac:(lia)) ltac:(lia) l Hl) as ->.
Qed.

Lemma shiftr_range n : 0 ≤ n → 0 ≤ Z.shiftr x n < 2 ^ w.
Proof using Hw Hx.
  intros Hn. rewrite Z.shiftr_div_pow2 by done. assert (0 < 2 ^ n) by (by apply Z.pow_pos_nonneg).
  split; [apply Z.div_pos; lia|]. apply Z.div_lt_upper_bound; [lia|]. nia.
Qed.
End widths.

(** ** Loops *)

(** A loop with an invariant and a measure ends, with the measure for the turns. *)
Section loops.
Context {S R : Type} (I : S → Prop) (Q : R → Prop) (m : S → Z) (turn : S → option (R + S)).
Hypothesis Hturn : ∀ s, I s → ∃ o, turn s = Some o ∧
  match o with inl r => Q r | inr s' => I s' ∧ 0 ≤ m s' < m s end.

Lemma while2_spec k s : I s → ∃ o, while2 k turn s = Some o ∧
  match o with inl r => Q r | inr s' => I s' ∧ 0 ≤ m s' ≤ m s - 2 ^ Z.of_nat k end.
Proof using Hturn.
  revert s. induction k as [|k IH]; intros s Hs; cbn [while2].
  - destruct (Hturn s Hs) as (o & -> & Ho). exists o. split; [done|]. destruct o as [r|s']; [done|].
    destruct Ho. split; [done|]. change (2 ^ Z.of_nat 0) with 1. lia.
  - destruct (IH s Hs) as (o & -> & Ho). cbn [mbind option_bind]. destruct o as [r|s']; [by eexists|].
    destruct Ho as [Hs' Hm]. destruct (IH s' Hs') as (o & -> & Ho). exists o. split; [done|].
    destruct o as [r|s'']; [done|]. destruct Ho. split; [done|].
    rewrite Nat2Z.inj_succ, Z.pow_succ_r by lia. lia.
Qed.

Lemma while_spec k s : I s → m s < 2 ^ Z.of_nat k → ∃ r, while k turn s = Some r ∧ Q r.
Proof using Hturn.
  intros Hs Hm. unfold while. destruct (while2_spec k s Hs) as ([r|s'] & -> & Ho); [by exists r|]. lia.
Qed.
End loops.

(** What every turn keeps holds at the end. *)
Lemma while2_inv {S R} (I : S → Prop) (Q : R → Prop) (turn : S → option (R + S)) k s o :
  (∀ s o, I s → turn s = Some o → match o with inl r => Q r | inr s' => I s' end) →
  I s → while2 k turn s = Some o → match o with inl r => Q r | inr s' => I s' end.
Proof.
  intros Ht. revert s o. induction k as [|k IH]; intros s o Hs E; cbn [while2] in E; [by eapply Ht|].
  destruct (while2 k turn s) as [[r|s1]|] eqn:E1; cbn in E; [| |done].
  - injection E as <-. by specialize (IH _ _ Hs E1).
  - eapply IH; [|exact E]. by specialize (IH _ _ Hs E1).
Qed.

Lemma while_inv {S R} (I : S → Prop) (Q : R → Prop) (turn : S → option (R + S)) k s r :
  (∀ s o, I s → turn s = Some o → match o with inl r => Q r | inr s' => I s' end) →
  I s → while k turn s = Some r → Q r.
Proof.
  intros Ht Hs E. unfold while in E. destruct (while2 k turn s) as [o|] eqn:E1; [|done]. cbn in E.
  pose proof (while2_inv I Q turn k s o Ht Hs E1) as H. destruct o; [by injection E as <-|done].
Qed.

(** ** Loops over arrays *)

Lemma each_spec {S} (f : Z → S → option S) (P : list Z → S → Prop) ks : ∀ don s,
  (∀ don k s, k ∈ ks → P don s → ∃ s', f k s = Some s' ∧ P (don ++ [k]) s') →
  P don s → ∃ s', each f ks s = Some s' ∧ P (don ++ ks) s'.
Proof.
  induction ks as [|k ks IH]; intros don s Hf Hs; cbn [each].
  { exists s. split; [done|]. by rewrite app_nil_r. }
  destruct (Hf don k s ltac:(by left) Hs) as (s1 & -> & H1). cbn [mbind option_bind].
  destruct (IH (don ++ [k]) s1) as (s2 & E & H2); [|done|].
  - intros d x s' Hx. apply Hf. by right.
  - exists s2. split; [done|]. by rewrite <- app_assoc in H2.
Qed.

Lemma upto_elem n k : k ∈ upto n ↔ 0 ≤ k < n.
Proof. unfold upto. rewrite elem_of_seqZ. lia. Qed.

Lemma le_bytes_ok n x : length (le_bytes n x) = n ∧ Forall (λ b, 0 ≤ b < 256) (le_bytes n x).
Proof.
  revert x. induction n as [|n IH]; intros x; [done|]. cbn. destruct (IH (Z.shiftr x 8)).
  split; [congruence|]. constructor; [apply u8_range|done].
Qed.

Lemma le_val_bytes n x : le_val (le_bytes n x) = x mod 2 ^ (8 * Z.of_nat n).
Proof.
  revert x. induction n as [|n IH]; intros x; [cbn; by rewrite Z.mod_1_r|]. cbn [le_bytes le_val]. rewrite IH, Z.shiftr_div_pow2 by lia. unfold u8.
  replace (2 ^ (8 * Z.of_nat (S n))) with (2 ^ 8 * 2 ^ (8 * Z.of_nat n)) by (rewrite <- Z.pow_add_r by lia; f_equal; lia).
  rewrite (Z.rem_mul_r x (2 ^ 8)); [lia..|apply Z.pow_pos_nonneg; lia].
Qed.
