(* ===== verification/Refs.v ===== *)
(** * Counted references with a sticky maximum

    Swap slots and physical frames are both counted in a byte that sticks at 254.
    This is the abstract side of the two: what an operation does to the counts
    and to the list of references the rest of the kernel holds, and the relation
    between the two that every operation keeps. *)

From S2P Require Import Prelude.

(** How often an object is held. *)
Definition occ (t : Z) (h : list Z) : Z := countb (Z.eqb t) h.

Definition raise (x : Z) : Z := Z.min 254 (x + 1).
Definition lower (x : Z) : Z := if x =? 254 then 254 else x - 1.

(** One operation, on the counts [r] and on the references held. *)
Inductive effect (r r' : Z → Z) : list Z → list Z → Prop :=
  | quiet h : (∀ u, r' u = r u) → effect r r' h h
  | take h ts :
      NoDup ts → (∀ t, t ∈ ts → r t = 0) →
      (∀ u, r' u = if decide (u ∈ ts) then 1 else r u) → effect r r' h (ts ++ h)
  | dup h t :
      t ∈ h → (∀ u, r' u = if decide (u = t) then raise (r t) else r u) → effect r r' h (t :: h)
  | put h h' t :
      h ≡ₚ t :: h' → (∀ u, r' u = if decide (u = t) then lower (r t) else r u) → effect r r' h h'
  | forget h (P : Z → Prop) `{!∀ u, Decision (P u)} :
      (∀ t, t ∈ h → ¬ P t) → (∀ u, r' u = if decide (P u) then 0 else r u) → effect r r' h h.

(** Every count is the number of holders, unless it stuck. *)
Definition link (r : Z → Z) (h : list Z) : Prop := ∀ t, r t = 254 ∨ r t = occ t h.

Lemma occ_cons t x h : occ t (x :: h) = b2z (t =? x) + occ t h.
Proof. done. Qed.

Lemma occ_app t h k : occ t (h ++ k) = occ t h + occ t k.
Proof. induction h as [|x h IH]; [done|]. cbn [app]. rewrite !occ_cons, IH. lia. Qed.

Lemma occ_zero t h : occ t h = 0 ↔ t ∉ h.
Proof.
  unfold occ. rewrite countb_none, Forall_forall. split.
  - intros H Hin. by specialize (H t Hin); rewrite Z.eqb_refl in H.
  - intros H x Hx. apply Z.eqb_neq. by intros ->.
Qed.

Lemma occ_NoDup t h : NoDup h → occ t h = if decide (t ∈ h) then 1 else 0.
Proof.
  induction 1 as [|x h Hx _ IH]; [done|]. rewrite occ_cons, IH.
  destruct (decide (t = x)) as [->|].
  - rewrite Z.eqb_refl, decide_False, decide_True; [done|by left|done].
  - rewrite (proj2 (Z.eqb_neq _ _)) by done. simpl.
    destruct (decide (t ∈ h)); [rewrite decide_True|rewrite decide_False]; set_solver.
Qed.

Lemma occ_perm t h k : h ≡ₚ k → occ t h = occ t k.
Proof. apply countb_perm. Qed.

Lemma occ_pos t h : t ∈ h → 0 < occ t h.
Proof. intros H. by apply (countb_elem _ _ t), Z.eqb_refl. Qed.

(** A held object is counted. *)
Lemma link_held r h t : link r h → t ∈ h → 0 < r t.
Proof. intros H Ht%occ_pos. destruct (H t); lia. Qed.

(** A free object is not held. *)
Lemma link_free r h t : link r h → r t = 0 → t ∉ h.
Proof. intros H Ht. apply occ_zero. destruct (H t); lia. Qed.

Theorem effect_link r r' h h' : effect r r' h h' → link r h → link r' h'.
Proof.
  intros He Hl u. specialize (Hl u) as Hu. inversion He as
    [? E|? ts Hn Hz E|? t Ht E|? ? t Hp E|? P ? Hh E]; subst; rewrite E.
  - done.
  - rewrite occ_app, occ_NoDup by done. case_decide as Hd; [|done].
    specialize (Hz u Hd). right. lia.
  - rewrite occ_cons. unfold raise. case_decide; subst.
    + rewrite Z.eqb_refl. simpl. lia.
    + by rewrite (proj2 (Z.eqb_neq _ _)).
  - rewrite (occ_perm _ _ _ Hp), occ_cons in Hu. unfold lower. case_decide; subst.
    + rewrite Z.eqb_refl in Hu. simpl in Hu. destruct (r t =? 254) eqn:E0; bools; lia.
    + by rewrite (proj2 (Z.eqb_neq _ _)) in Hu.
  - case_decide as Hd; [|done]. right. symmetry. apply occ_zero. by intros ?%Hh.
Qed.
