(* ===== verification/Heap.v ===== *)
(** * The kernel heap (src/src/core/heap.c)

    A next-fit allocator over two arenas.  Block headers sit in front of their
    payload and are chained in address order by [next] and [prev].  The memory
    that holds the headers is a map from addresses to headers, shared by both
    arenas, as in the kernel; a read of an address that holds no header is
    undefined behaviour and is [None].  Stale headers (of swallowed blocks) stay
    in memory, as they do in the kernel, which is what the double free check
    relies on.  The build modelled is the one without KDEBUG. *)

From S2P Require Import Prelude.

Module Heap.

(** sizeof(block_t): 8 + 8 + 8 + 4 + 4, aligned to 16. *)
Definition HDR : Z := 32.
Definition MG_USED : Z := 0x5a11c0de.
Definition MG_FREE : Z := 0xf4eeb10c.

(** A pointer is its address, NULL is 0. *)
Record block_t := Block { size : Z; next : Z; prev : Z; free : bool; mg : Z }.

Record arena_t := Arena { base : Z; asize : Z; head : Z; rover : Z; used : Z }.

(** What [say_blk] and [say] put in the report. *)
Inductive report : Type :=
  | double_free (b : Z) | bad_free (b : Z)
  | bad_link (b : Z) | bad_magic (b : Z) | bad_size (b : Z) | unmerged (b : Z)
  | used_mismatch (arena : Z) (used counted : Z).

Record heap := mkHeap {
  mem : gmap Z block_t;
  low : arena_t;
  big : arena_t;
  rep : list report;
  nerr : Z;
  nchk : Z
}.

Definition ALIGN8 (x : Z) : Z := Z.ldiff (u64 (x + 15)) 15.

Definition arena_init (m : gmap Z block_t) (bs sz : Z) : gmap Z block_t * arena_t :=
  (<[bs := Block (u64 (sz - HDR)) 0 0 true MG_FREE]> m, Arena bs sz bs bs 0).

(** Write one field of the header at [b]. *)
Definition set_prev (m : gmap Z block_t) (b p : Z) : option (gmap Z block_t) :=
  x ← m !! b; Some (<[b := {| x with prev := p |}]> m).

Definition split_at (m : gmap Z block_t) (b n : Z) : option (gmap Z block_t) :=
  x ← m !! b;
  let split := b + HDR + n in
  let m := <[split := Block (u64 (size x - n - HDR)) (next x) b true MG_FREE]> m in
  m ← (if nz (next x) then set_prev m (next x) split else Some m);
  x ← m !! b;
  Some (<[b := {| x with size := n; next := split |}]> m).

(** [b] swallows the block after it. *)
Definition merge_next (m : gmap Z block_t) (a : arena_t) (b : Z)
    : option (gmap Z block_t * arena_t) :=
  x ← m !! b;
  let nx := next x in
  y ← m !! nx;
  let m := <[b := {| x with size := u64 (size x + HDR + size y); next := next y |}]> m in
  m ← (if nz (next y) then set_prev m (next y) b else Some m);
  Some (m, if rover a =? nx then {| a with rover := b |} else a).

(** The do-while search of [arena_alloc]: the first fitting block from [b] round
    to [start], 0 when there is none. *)
Fixpoint search (fuel : nat) (m : gmap Z block_t) (hd n start b : Z) : option Z :=
  match fuel with
  | O => None
  | S fuel =>
      x ← m !! b;
      if free x && (n <=? size x) then Some b
      else
        let b' := if nz (next x) then next x else hd in
        if b' =? start then Some 0 else search fuel m hd n start b'
  end.

Definition arena_alloc (m : gmap Z block_t) (a : arena_t) (n : Z)
    : option (Z * gmap Z block_t * arena_t) :=
  if (n =? 0) || (head a =? 0) then Some (0, m, a)
  else
    let n := ALIGN8 n in
    let start := if nz (rover a) then rover a else head a in
    b ← search (S (base.size m)) m (head a) n start start;
    if b =? 0 then Some (0, m, a)
    else
      x ← m !! b;
      m ← (if u64 (n + HDR + 16) <=? size x then split_at m b n else Some m);
      x ← m !! b;
      let m := <[b := {| x with free := false; mg := MG_USED |}]> m in
      Some (b + HDR, m,
            {| a with used := u64 (used a + size x + HDR);
                      rover := if nz (next x) then next x else head a |}).

Definition heap_init (h : heap) (bs sz : Z) : heap :=
  let '(m, a) := arena_init (mem h) bs sz in {| h with mem := m; low := a |}.

Definition heap_add_big (h : heap) (bs sz : Z) : heap :=
  let '(m, a) := arena_init (mem h) bs sz in {| h with mem := m; big := a |}.

(** [low] and [big] are passed by address: [true] is [&big]. *)
Definition arena_at (h : heap) (k : bool) : arena_t := if k then big h else low h.

Definition put_arena (h : heap) (k : bool) (m : gmap Z block_t) (a : arena_t) : heap :=
  if k then {| h with mem := m; big := a |} else {| h with mem := m; low := a |}.

Definition alloc_in (h : heap) (k : bool) (n : Z) : option (Z * heap) :=
  '(p, m, a) ← arena_alloc (mem h) (arena_at h k) n;
  Some (p, put_arena h k m a).

Definition kmalloc (h : heap) (n : Z) : option (Z * heap) := alloc_in h false n.

(** [heap_reclaim] is a hook that other components install; [None] is the null
    pointer. *)
Definition kmalloc_big (heap_reclaim : option (heap → Z → heap)) (h : heap) (n : Z)
    : option (Z * heap) :=
  '(p, h) ← alloc_in h true n;
  '(p, h) ← (if (p =? 0) && nz (head (big h))
             then match heap_reclaim with
                  | Some f => alloc_in (f h n) true n
                  | None => Some (p, h)
                  end
             else Some (p, h));
  if (p =? 0) && ((head (big h) =? 0)
                  || (u64 (n + Z.shiftl 24 20) <? u64 (asize (low h) - used (low h))))
  then alloc_in h false n
  else Some (p, h).

Definition arena_of (h : heap) (p : Z) : bool :=
  nz (head (big h)) && (base (big h) <=? p) && (p <? base (big h) + asize (big h)).

Definition say_blk (h : heap) (r : report) : heap :=
  {| h with rep := rep h ++ [r]; nerr := nerr h + 1 |}.

(** The part of [free_locked] after the magic check: [x] is the header at [b]. *)
Definition release_block (m : gmap Z block_t) (a : arena_t) (b : Z) (x : block_t)
    : option (gmap Z block_t * arena_t) :=
  let m := <[b := {| x with free := true; mg := MG_FREE |}]> m in
  let a := {| a with used := u64 (used a - (size x + HDR)) |} in
  '(m, a) ← (if nz (next x)
             then y ← m !! next x; if free y then merge_next m a b else Some (m, a)
             else Some (m, a));
  if nz (prev x)
  then y ← m !! prev x; if free y then merge_next m a (prev x) else Some (m, a)
  else Some (m, a).

Definition free_locked (h : heap) (p : Z) : option heap :=
  let k := arena_of h p in
  let a := arena_at h k in
  let b := p - HDR in
  x ← mem h !! b;
  if negb (mg x =? MG_USED)
  then Some (say_blk h (if mg x =? MG_FREE then double_free b else bad_free b))
  else
    '(m, a) ← release_block (mem h) a b x;
    Some (put_arena h k m a).

Definition kfree (h : heap) (p : Z) : option heap :=
  if p =? 0 then Some h else free_locked h p.

Definition kgrow (h : heap) (p n : Z) : option (bool * heap) :=
  if p =? 0 then Some (false, h)
  else
    let k := arena_of h p in
    let a := arena_at h k in
    let b := p - HDR in
    let n := ALIGN8 n in
    x ← mem h !! b;
    if n <=? size x then Some (true, h)
    else if next x =? 0 then Some (false, h)
    else
      y ← mem h !! next x;
      if free y && (n <=? u64 (size x + HDR + size y))
      then
        let a := {| a with used := u64 (used a - (size x + HDR)) |} in
        '(m, a) ← merge_next (mem h) a b;
        x ← m !! b;
        m ← (if u64 (n + HDR + 16) <=? size x then split_at m b n else Some m);
        x ← m !! b;
        Some (true, put_arena h k m {| a with used := u64 (used a + size x + HDR) |})
      else Some (false, h).

Definition heap_used (h : heap) : Z := used (low h).
Definition heap_total (h : heap) : Z := asize (low h).
Definition heap_big_used (h : heap) : Z := used (big h).
Definition heap_big_total (h : heap) : Z := asize (big h).

(** The block walk of [heap_check_locked] over one arena: the heap with its
    reports and the bytes counted as used. *)
Fixpoint check_walk (fuel : nat) (h : heap) (a : arena_t) (pv b cnt : Z) : option (heap * Z) :=
  match fuel with
  | O => None
  | S fuel =>
      if b =? 0 then Some (h, cnt)
      else
        x ← (if (b <? base a) || (base a + asize a <=? b) then Some None
             else Some <$> mem h !! b);
        match x with
        | None => Some (say_blk h (bad_link b), cnt)
        | Some x =>
            if negb (prev x =? pv) then Some (say_blk h (bad_link b), cnt)
            else if negb (mg x =? (if free x then MG_FREE else MG_USED))
            then Some (say_blk h (bad_magic b), cnt)
            else if nz (next x) && negb (b + HDR + size x =? next x)
            then Some (say_blk h (bad_size b), cnt)
            else
              pfree ← (if nz pv then free <$> mem h !! pv else Some false);
              let h := if pfree && free x then say_blk h (unmerged b) else h in
              let cnt := if free x then cnt else u64 (cnt + size x + HDR) in
              if 20 <? nerr h then Some (h, cnt) else check_walk fuel h a b (next x) cnt
        end
  end.

Definition check_arena (h : heap) (k : bool) : option heap :=
  let a := arena_at h k in
  if head a =? 0 then Some h
  else
    '(h, cnt) ← check_walk (S (S (base.size (mem h)))) h a 0 (head a) 0;
    Some (if cnt =? used a then h
          else {| h with rep := rep h ++ [used_mismatch (b2z k) (used a) cnt] |}).

Definition heap_check_locked (h : heap) : option heap :=
  h ← check_arena {| h with nchk := nchk h + 1 |} false;
  check_arena h true.

(** Plants a double free under the lock and forgets the report: (hits, heap). *)
Definition heap_selftest (h : heap) : option (Z * heap) :=
  '(p, h1) ← alloc_in h false 40;
  h2 ← free_locked h1 p;
  h3 ← free_locked h2 p;
  Some (b2z (nerr h <? nerr h3), {| h3 with rep := rep h; nerr := nerr h |}).

(** ** The chain of blocks as a list

    The abstract arena is the list of its blocks in address order, each a size
    and a free flag: the address of a block is fixed by the sizes before it. *)

Abbreviation blk := (Z * bool)%type.

Definition mgof (f : bool) : Z := if f then MG_FREE else MG_USED.

(** Address after the last block, and address of the last block. *)
Fixpoint endof (b : Z) (l : list blk) : Z :=
  match l with [] => b | (s, _) :: l' => endof (b + HDR + s) l' end.

Fixpoint lastof (pv b : Z) (l : list blk) : Z :=
  match l with [] => pv | (s, _) :: l' => lastof b (b + HDR + s) l' end.

Definition nexta (b : Z) (l : list blk) (e : Z) : Z :=
  match l with [] => e | _ :: _ => b end.

(** [l] is laid out in [m] from [b] on; [pv] precedes it and [e] follows it. *)
Fixpoint seg (m : gmap Z block_t) (pv b : Z) (l : list blk) (e : Z) : Prop :=
  match l with
  | [] => True
  | (s, f) :: l' =>
      m !! b = Some (Block s (nexta (b + HDR + s) l' e) pv f (mgof f))
      ∧ 0 ≤ s ∧ b mod 16 = 0 ∧ seg m b (b + HDR + s) l' e
  end.

Fixpoint addrs (b : Z) (l : list blk) : list Z :=
  match l with [] => [] | (s, _) :: l' => b :: addrs (b + HDR + s) l' end.

Fixpoint usum (l : list blk) : Z :=
  match l with [] => 0 | (s, f) :: l' => (if f then 0 else s + HDR) + usum l' end.

(** No two free blocks next to each other; [p] is the flag of the block before. *)
Fixpoint noadj (p : bool) (l : list blk) : Prop :=
  match l with [] => True | (_, f) :: l' => p && f = false ∧ noadj f l' end.

Fixpoint lastf (p : bool) (l : list blk) : bool :=
  match l with [] => p | (_, f) :: l' => lastf f l' end.

(** The arena is the chain [l]. *)
Record core (m : gmap Z block_t) (a : arena_t) (l : list blk) : Prop := {
  core_base : 64 ≤ base a;
  core_seg : seg m 0 (base a) l 0;
  core_end : endof (base a) l = base a + asize a;
  core_fits : base a + asize a ≤ 2 ^ 64;
  core_head : head a = base a;
  core_rover : rover a ∈ addrs (base a) l
}.

(** Well formed: also the accounting is right and free neighbours are merged. *)
Record wf (m : gmap Z block_t) (a : arena_t) (l : list blk) : Prop := {
  wf_core : core m a l;
  wf_used : used a = usum l;
  wf_noadj : noadj false l;
  wf_sizes : Forall (λ x, 16 ≤ x.1) l
}.

(** The payloads handed out: address and size of every used block. *)
Fixpoint live (b : Z) (l : list blk) : list (Z * Z) :=
  match l with
  | [] => []
  | (s, f) :: l' => (if f then [] else [(b + HDR, s)]) ++ live (b + HDR + s) l'
  end.

(** ** Lemmas on the list view *)

Lemma endof_app b l1 l2 : endof b (l1 ++ l2) = endof (endof b l1) l2.
Proof. revert b. induction l1 as [|[s f] l1 IH]; intros b; simpl; auto. Qed.

Lemma addrs_app b l1 l2 : addrs b (l1 ++ l2) = addrs b l1 ++ addrs (endof b l1) l2.
Proof.
  revert b. induction l1 as [|[s f] l1 IH]; intros b; simpl; [done|]. by rewrite IH.
Qed.

Lemma live_app b l1 l2 : live b (l1 ++ l2) = live b l1 ++ live (endof b l1) l2.
Proof.
  revert b. induction l1 as [|[s f] l1 IH]; intros b; simpl; [done|].
  by rewrite IH, app_assoc.
Qed.

Lemma usum_app l1 l2 : usum (l1 ++ l2) = usum l1 + usum l2.
Proof. induction l1 as [|[s f] l1 IH]; simpl; lia. Qed.

Lemma noadj_app p l1 l2 : noadj p (l1 ++ l2) ↔ noadj p l1 ∧ noadj (lastf p l1) l2.
Proof.
  revert p. induction l1 as [|[s f] l1 IH]; intros p; simpl; [naive_solver|].
  rewrite IH. naive_solver.
Qed.

Lemma nexta_app b l1 l2 e :
  nexta b (l1 ++ l2) e = nexta b l1 (nexta b l2 e).
Proof. by destruct l1. Qed.

Lemma seg_app m pv b l1 l2 e :
  seg m pv b (l1 ++ l2) e ↔
  seg m pv b l1 (nexta (endof b l1) l2 e) ∧ seg m (lastof pv b l1) (endof b l1) l2 e.
Proof.
  revert pv b. induction l1 as [|[s f] l1 IH]; intros pv b; simpl; [naive_solver|].
  rewrite IH. destruct l1; simpl; naive_solver.
Qed.

Lemma seg_sizes m pv b l e : seg m pv b l e → Forall (λ x, 0 ≤ x.1) l.
Proof.
  revert pv b. induction l as [|[s f] l IH]; intros pv b; simpl; [done|].
  intros (_ & ? & _ & ?). constructor; eauto.
Qed.

Lemma endof_ge b l : Forall (λ x, 0 ≤ x.1) l → b ≤ endof b l.
Proof.
  intros H. revert b. induction H as [|[s f] l Hs H IH]; intros b; simpl in *; [lia|].
  specialize (IH (b + HDR + s)). unfold HDR in *. lia.
Qed.

Lemma seg_end m pv b l e : seg m pv b l e → b ≤ endof b l.
Proof. intros H%seg_sizes. by apply endof_ge. Qed.

Lemma seg_frame m m' pv b l e :
  seg m pv b l e → (∀ x, b ≤ x < endof b l → m' !! x = m !! x) → seg m' pv b l e.
Proof.
  revert pv b. induction l as [|[s f] l IH]; intros pv b; simpl; [done|].
  intros (Hb & Hs & Ha & Hl) Hm. pose proof (seg_end _ _ _ _ _ Hl). unfold HDR in *.
  split_and!; [|done|done|].
  - rewrite Hm by lia. done.
  - apply IH; [done|]. intros x Hx. apply Hm. lia.
Qed.

Lemma seg_addrs_range m pv b l e x :
  seg m pv b l e → x ∈ addrs b l → b ≤ x < endof b l ∧ x mod 16 = 0.
Proof.
  revert pv b. induction l as [|[s f] l IH]; intros pv b; simpl; [by intros ? ?%elem_of_nil|].
  intros (_ & Hs & Ha & Hl) [->|Hx]%elem_of_cons; pose proof (seg_end _ _ _ _ _ Hl);
    unfold HDR in *; [lia|].
  destruct (IH _ _ Hl Hx). lia.
Qed.

Lemma addrs_split b l x :
  x ∈ addrs b l → ∃ l1 s f l2, l = l1 ++ (s, f) :: l2 ∧ x = endof b l1.
Proof.
  revert b. induction l as [|[s f] l IH]; intros b; simpl; [by intros ?%elem_of_nil|].
  intros [->|Hx]%elem_of_cons.
  - by exists [], s, f, l.
  - destruct (IH _ Hx) as (l1 & s' & f' & l2 & -> & ->).
    by exists ((s, f) :: l1), s', f', l2.
Qed.

Lemma addrs_middle b l1 s f l2 : endof b l1 ∈ addrs b (l1 ++ (s, f) :: l2).
Proof. rewrite addrs_app. simpl. apply elem_of_app. right. by left. Qed.

(** ** What each header operation does to the list *)

Lemma seg_cons m pv b s f l e :
  seg m pv b ((s, f) :: l) e ↔
  m !! b = Some (Block s (nexta (b + HDR + s) l e) pv f (mgof f))
  ∧ 0 ≤ s ∧ b mod 16 = 0 ∧ seg m b (b + HDR + s) l e.
Proof. done. Qed.

#[local] Arguments seg : simpl never.

Lemma nz_nexta b l : 0 < b → nz (nexta b l 0) = match l with [] => false | _ => true end.
Proof. destruct l; simpl; [done|]. apply nz_pos. Qed.

Ltac hlia := unfold HDR in *; first [lia | simpl in *; lia].

(** Re-point the [prev] of the block after [b], if there is one. *)
Lemma relink m pv b l p :
  0 < b → seg m pv b l 0 →
  ∃ m', (if nz (nexta b l 0) then set_prev m (nexta b l 0) p else Some m) = Some m'
      ∧ seg m' p b l 0 ∧ (∀ x, x < b ∨ endof b l ≤ x → m' !! x = m !! x).
Proof.
  intros Hb Hs. rewrite nz_nexta by done. destruct l as [|[s f] l]; [by exists m|].
  apply seg_cons in Hs as (Hh & H0 & Ha & Hl). unfold set_prev. simpl nexta. rewrite Hh. simpl.
  pose proof (seg_end _ _ _ _ _ Hl).
  eexists. split; [done|]. split; [|intros x Hx; rewrite lookup_insert_ne; [done|hlia]].
  apply seg_cons. split; [by rewrite lookup_insert_eq|]. split; [done|]. split; [done|].
  eapply seg_frame; [done|]. intros x Hx. rewrite lookup_insert_ne; [done|]. hlia.
Qed.

(** A write to the header at [b] that keeps its size. *)
Lemma seg_write m pv b s f f' l e :
  seg m pv b ((s, f) :: l) e →
  seg (<[b := Block s (nexta (b + HDR + s) l e) pv f' (mgof f')]> m) pv b ((s, f') :: l) e.
Proof.
  intros (Hh & H0 & Ha & Hl)%seg_cons. apply seg_cons.
  split; [by rewrite lookup_insert_eq|]. split; [done|]. split; [done|].
  eapply seg_frame; [done|]. intros x Hx. rewrite lookup_insert_ne; [done|]. hlia.
Qed.

Lemma split_at_seg m pv b s f l n :
  0 < b → seg m pv b ((s, f) :: l) 0 → 0 ≤ n → n mod 16 = 0 → n + HDR ≤ s < 2 ^ 64 →
  ∃ m', split_at m b n = Some m'
      ∧ seg m' pv b ((n, f) :: (s - n - HDR, true) :: l) 0
      ∧ (∀ x, x < b ∨ endof b ((s, f) :: l) ≤ x → m' !! x = m !! x).
Proof.
  intros Hb Hs Hn Hn16 Hsz. apply seg_cons in Hs as (Hh & H0 & Ha & Hl).
  pose proof (seg_end _ _ _ _ _ Hl) as Hend.
  unfold split_at. rewrite Hh. simpl. rewrite u64_small by hlia.
  set (m1 := <[b + HDR + n := _]> m).
  assert (seg m1 b (b + HDR + s) l 0) as Hl1.
  { eapply seg_frame; [done|]. intros x Hx. unfold m1. rewrite lookup_insert_ne; [done|]. hlia. }
  destruct (relink m1 b (b + HDR + s) l (b + HDR + n)) as (m2 & -> & Hl2 & Hm2); [hlia|done|].
  assert (m2 !! b = m !! b) as Hb2.
  { rewrite Hm2 by hlia. unfold m1. rewrite lookup_insert_ne by hlia. done. }
  simpl. rewrite Hb2, Hh. simpl. eexists. split; [done|]. split.
  - apply seg_cons. split; [by rewrite lookup_insert_eq|]. split; [done|]. split; [done|].
    apply seg_cons. replace (b + HDR + n + HDR + (s - n - HDR)) with (b + HDR + s) by lia.
    split; [|split; [lia|split]].
    + rewrite lookup_insert_ne by hlia. rewrite Hm2 by hlia. unfold m1. by rewrite lookup_insert_eq.
    + unfold HDR. rewrite Z.add_mod, (Z.add_mod b) by lia. by rewrite Ha, Hn16.
    + eapply seg_frame; [done|]. intros x Hx. rewrite lookup_insert_ne; [done|]. hlia.
  - intros x Hx. rewrite lookup_insert_ne by hlia. rewrite Hm2 by hlia. unfold m1.
    rewrite lookup_insert_ne; [done|]. hlia.
Qed.

Lemma merge_next_seg m a pv b s f s2 f2 l :
  0 < b → seg m pv b ((s, f) :: (s2, f2) :: l) 0 → s + HDR + s2 < 2 ^ 64 →
  ∃ m', merge_next m a b =
          Some (m', if rover a =? b + HDR + s then {| a with rover := b |} else a)
      ∧ seg m' pv b ((s + HDR + s2, f) :: l) 0
      ∧ (∀ x, x < b ∨ endof b ((s, f) :: (s2, f2) :: l) ≤ x → m' !! x = m !! x).
Proof.
  intros Hb Hs Hsz. apply seg_cons in Hs as (Hh & H0 & Ha & Hs).
  apply seg_cons in Hs as (Hh2 & H02 & Ha2 & Hl). pose proof (seg_end _ _ _ _ _ Hl) as Hend.
  unfold merge_next. rewrite Hh. simpl. rewrite Hh2. simpl. rewrite u64_small by hlia.
  set (m1 := <[b := _]> m).
  set (E := b + HDR + s + HDR + s2) in *.
  assert (seg m1 (b + HDR + s) E l 0) as Hl1.
  { eapply seg_frame; [done|]. intros x Hx. unfold m1. rewrite lookup_insert_ne; [done|].
    unfold E in *. hlia. }
  destruct (relink m1 (b + HDR + s) E l b) as (m2 & -> & Hl2 & Hm2); [unfold E; hlia|done|].
  simpl. eexists. split; [done|]. split.
  - apply seg_cons. replace (b + HDR + (s + HDR + s2)) with E by (unfold E; lia).
    split; [|split; [hlia|split; done]].
    rewrite Hm2 by (unfold E in *; hlia). unfold m1. by rewrite lookup_insert_eq.
  - intros x Hx. rewrite Hm2 by (unfold E in *; hlia). unfold m1.
    rewrite lookup_insert_ne; [done|]. unfold E in *. hlia.
Qed.

(** ** The search *)

Definition small (n : Z) (l : list blk) : Prop := Forall (λ x, x.2 = true → x.1 < n) l.

Definition fits (n : Z) (l : list blk) (l1 : list blk) (s : Z) (l2 : list blk) : Prop :=
  l = l1 ++ (s, true) :: l2 ∧ n ≤ s.

Lemma fits_cons x n l l1 s l2 : fits n l l1 s l2 → fits n (x :: l) (x :: l1) s l2.
Proof. intros [-> ?]. by split. Qed.

Lemma fits_app l0 n l l1 s l2 : fits n l l1 s l2 → fits n (l0 ++ l) (l0 ++ l1) s l2.
Proof. intros [-> ?]. split; [|done]. by rewrite <- app_assoc. Qed.

(** One pass over a segment: it stops at the first fit or runs on behind it. *)
Lemma search_walk m hd n start l : ∀ fuel pv b e,
  0 < b → l ≠ [] → seg m pv b l e → start ∉ tail (addrs b l) → (length l ≤ fuel)%nat →
  (∃ l1 s l2, fits n l l1 s l2 ∧ search fuel m hd n start b = Some (endof b l1))
  ∨ (small n l ∧
     search fuel m hd n start b =
       let b' := if nz e then e else hd in
       if b' =? start then Some 0 else search (fuel - length l) m hd n start b').
Proof.
  induction l as [|[s f] l IH]; intros fuel pv b e Hb Hne Hs Hst Hf; [done|].
  destruct fuel as [|fuel]; simpl in Hf; [lia|].
  apply seg_cons in Hs as (Hh & H0 & Ha & Hl). simpl search. rewrite Hh. simpl.
  destruct (f && (n <=? s)) eqn:Hfit; bools.
  { left. exists [], s, l. subst f. split; [by split|done]. }
  assert (f = true → s < n) as Hsm by (intros ->; destruct Hfit; bools; [done|lia]).
  destruct l as [|[s' f'] l']; simpl nexta.
  { right. split; [by repeat constructor|]. by rewrite Nat.sub_0_r. }
  rewrite nz_pos by hlia.
  destruct (b + HDR + s =? start) eqn:Hns; bools.
  { destruct Hst. subst start. simpl. by left. }
  destruct (IH fuel b (b + HDR + s) e) as [(l1 & t & l2 & Hfi & Hse)|[Hsm' Hse]];
    [hlia|done|done| |simpl in *; lia| |].
  { intros Hin. apply Hst. simpl. right. exact Hin. }
  - left. exists ((s, f) :: l1), t, l2. split; [by apply fits_cons|done].
  - right. split; [by constructor|]. done.
Qed.

Lemma addrs_length b l : length (addrs b l) = length l.
Proof. revert b. induction l as [|[s f] l IH]; intros b; simpl; auto. Qed.

Lemma addrs_NoDup m pv b l e : seg m pv b l e → NoDup (addrs b l).
Proof.
  revert pv b. induction l as [|[s f] l IH]; intros pv b Hs; simpl; [constructor|].
  apply seg_cons in Hs as (_ & H0 & _ & Hl). constructor; [|by eapply IH].
  intros Hin. destruct (seg_addrs_range _ _ _ _ _ _ Hl Hin). hlia.
Qed.

Lemma seg_lookup m pv b l e x : seg m pv b l e → x ∈ addrs b l → is_Some (m !! x).
Proof.
  revert pv b. induction l as [|[s f] l IH]; intros pv b Hs; simpl; [by intros ?%elem_of_nil|].
  apply seg_cons in Hs as (Hh & _ & _ & Hl). intros [->|Hx]%elem_of_cons; [by rewrite Hh|eauto].
Qed.

(** There are at least as many headers in memory as blocks in a chain. *)
Lemma seg_count m pv b l e : seg m pv b l e → (length l ≤ base.size m)%nat.
Proof.
  intros Hs. rewrite <- (addrs_length b), <- size_dom.
  rewrite <- (size_list_to_set (C := gset Z) (addrs b l)) by by eapply addrs_NoDup.
  apply subseteq_size. intros x Hx%elem_of_list_to_set. apply elem_of_dom.
  by eapply seg_lookup.
Qed.

(** Next fit from any block of the chain finds a fitting block if there is one,
    and goes round at most once. *)
Lemma search_correct m l bs n start :
  0 < bs → seg m 0 bs l 0 → start ∈ addrs bs l →
  (∃ l1 s l2, fits n l l1 s l2 ∧
     search (S (base.size m)) m bs n start start = Some (endof bs l1))
  ∨ (small n l ∧ search (S (base.size m)) m bs n start start = Some 0).
Proof.
  intros Hbs Hs Hst. pose proof (seg_count _ _ _ _ _ Hs) as Hcnt.
  pose proof (addrs_NoDup _ _ _ _ _ Hs) as Hnd.
  destruct (addrs_split _ _ _ Hst) as (l1 & s & f & l2 & -> & ->).
  apply seg_app in Hs as [Hs1 Hs2]. simpl nexta in Hs1. rewrite length_app in Hcnt; simpl in Hcnt.
  rewrite addrs_app in Hnd. simpl in Hnd. apply NoDup_app in Hnd as (Hnd1 & Hnd12 & Hnd2).
  apply NoDup_cons in Hnd2 as [Hnotin _]. pose proof (seg_end _ _ _ _ _ Hs1) as Hend.
  destruct (search_walk m bs n (endof bs l1) ((s, f) :: l2) (S (base.size m))
    (lastof 0 bs l1) (endof bs l1) 0) as [(k1 & t & k2 & Hfi & Hse)|[Hsm Hse]];
    [lia|done|done|done|simpl; lia| |].
  { left. exists (l1 ++ k1), t, k2. rewrite endof_app. split; [by apply fits_app|done]. }
  rewrite Hse. cbv zeta. change (nz 0) with false. cbv iota.
  destruct l1 as [|x1 l1].
  { right. simpl. rewrite Z.eqb_refl. done. }
  destruct (bs =? endof bs (x1 :: l1)) eqn:E; bools.
  { exfalso. apply (Hnd12 bs); [destruct x1; simpl; by left|]. rewrite E at 1. simpl. by left. }
  destruct (search_walk m bs n (endof bs (x1 :: l1)) (x1 :: l1)
    (S (base.size m) - length ((s, f) :: l2)) 0 bs (endof bs (x1 :: l1)))
    as [(k1 & t & k2 & Hfi & Hse')|[Hsm' Hse']]; [done|done|done| |simpl in *; lia| |].
  - intros Hin. apply (Hnd12 (endof bs (x1 :: l1))); [|by left].
    destruct x1; simpl in *. by right.
  - left. exists k1, t, (k2 ++ (s, f) :: l2). rewrite Hse'. split; [|done].
    destruct Hfi as [-> ?]. split; [|done]. by rewrite <- app_assoc.
  - right. split; [by apply Forall_app|]. rewrite Hse'. cbv zeta.
    rewrite nz_pos by lia. by rewrite Z.eqb_refl.
Qed.

(** ** Allocation *)

Lemma ALIGN8_spec n :
  0 ≤ n ≤ 2 ^ 64 - 16 → n ≤ ALIGN8 n < n + 16 ∧ ALIGN8 n mod 16 = 0.
Proof.
  intros Hn. unfold ALIGN8. rewrite u64_small by lia.
  change 15 with (Z.ones 4) at 2 4 6.
  rewrite Z.ldiff_ones_r, Z.shiftl_mul_pow2, Z.shiftr_div_pow2 by lia.
  change (2 ^ 4) with 16. rewrite Z.mod_mul by lia.
  pose proof (Z.div_mod (n + 15) 16). pose proof (Z.mod_pos_bound (n + 15) 16). lia.
Qed.

Lemma ALIGN8_pos n : 0 < n ≤ 2 ^ 64 - 16 → 16 ≤ ALIGN8 n.
Proof.
  intros Hn. destruct (ALIGN8_spec n) as [? Hm]; [lia|]. Z.div_mod_to_equations. lia.
Qed.

(** Replace the tail [r] of a chain by [r']. *)
Lemma seg_splice m m' pv b l1 r r' e :
  seg m pv b (l1 ++ r) e → r ≠ [] → r' ≠ [] →
  seg m' (lastof pv b l1) (endof b l1) r' e →
  (∀ x, x < endof b l1 → m' !! x = m !! x) →
  seg m' pv b (l1 ++ r') e.
Proof.
  intros [Hs1 Hs2]%seg_app Hr Hr' Hs' Hfr. apply seg_app. split; [|done].
  destruct r, r'; try done. simpl nexta in *. eapply seg_frame; [done|].
  intros x Hx. apply Hfr. lia.
Qed.

(** The blocks a free block of [s] bytes turns into when [n] of them are taken. *)
Definition carve (n s : Z) : list blk :=
  if n + HDR + 16 <=? s then [(n, false); (s - n - HDR, true)] else [(s, false)].

Lemma carve_end n s b : endof b (carve n s) = b + HDR + s.
Proof. unfold carve. destruct (n + HDR + 16 <=? s); simpl; lia. Qed.

Lemma noadj_weaken p l : noadj p l → noadj false l.
Proof. destruct l as [|[s f] l]; simpl; [done|]. naive_solver. Qed.

Lemma carve_noadj n s l1 l2 :
  noadj false (l1 ++ (s, true) :: l2) → noadj false (l1 ++ carve n s ++ l2).
Proof.
  rewrite !noadj_app. unfold carve. intros [H1 H2]. simpl in H2. split; [done|].
  split_ifs; simpl; rewrite andb_false_r; [naive_solver|].
  split; [done|]. eapply noadj_weaken. apply H2.
Qed.

Lemma carve_sizes n s l1 l2 :
  16 ≤ n → Forall (λ x, 16 ≤ x.1) (l1 ++ (s, true) :: l2) →
  Forall (λ x, 16 ≤ x.1) (l1 ++ carve n s ++ l2).
Proof.
  intros Hn. rewrite !Forall_app, Forall_cons. intros (? & ? & ?). split_and!; [done| |done].
  unfold carve. split_ifs; repeat constructor; simpl in *; lia.
Qed.

Lemma lookup_seg_middle m pv b l1 s f l2 e :
  seg m pv b (l1 ++ (s, f) :: l2) e →
  m !! endof b l1 =
    Some (Block s (nexta (endof b l1 + HDR + s) l2 e) (lastof pv b l1) f (mgof f))
  ∧ 0 ≤ s ∧ endof b l1 mod 16 = 0.
Proof. intros [_ (? & ? & ? & _)%seg_cons]%seg_app. done. Qed.

Lemma seg_block_end m pv b l1 s f l2 e :
  seg m pv b (l1 ++ (s, f) :: l2) e →
  b ≤ endof b l1 ∧ 0 ≤ s ∧ endof b l1 + HDR + s ≤ endof b (l1 ++ (s, f) :: l2).
Proof.
  intros [H1%seg_end (_ & ? & _ & H2%seg_end)%seg_cons]%seg_app.
  rewrite endof_app. simpl. lia.
Qed.

Lemma usum_bound m pv b l e : seg m pv b l e → 0 ≤ usum l ≤ endof b l - b.
Proof.
  revert pv b. induction l as [|[s f] l IH]; intros pv b Hs; simpl; [lia|].
  apply seg_cons in Hs as (_ & H0 & _ & Hl). apply IH in Hl. destruct f; hlia.
Qed.

(** The split-or-keep choice that [arena_alloc] and [kgrow] make on the block
    [(s, f)] at [b]: what is left is [carve n s], with the flag not yet written. *)
Lemma split_or_keep m pv b s f l n :
  64 ≤ b → seg m pv b ((s, f) :: l) 0 → endof b ((s, f) :: l) ≤ 2 ^ 64 →
  0 ≤ n ≤ s → n mod 16 = 0 →
  ∃ m1 s1 k,
    (if u64 (n + HDR + 16) <=? s then split_at m b n else Some m) = Some m1
    ∧ carve n s = (s1, false) :: k
    ∧ usum (carve n s) = s1 + HDR
    ∧ seg m1 pv b ((s1, f) :: k ++ l) 0
    ∧ (∀ y, y < b ∨ endof b ((s, f) :: l) ≤ y → m1 !! y = m !! y).
Proof.
  intros Hb Hs Hfit Hn Hn16. pose proof Hs as (_ & H0 & _ & Hl%seg_end)%seg_cons. simpl in Hfit.
  rewrite u64_small by hlia. unfold carve. destruct (n + HDR + 16 <=? s) eqn:Ec; bools.
  - destruct (split_at_seg m pv b s f l n) as (m' & -> & Hs' & Hfr); [lia|done|lia|done|hlia|].
    exists m', n, [(s - n - HDR, true)]. simpl. split_and!; [done|done|lia|done|done].
  - exists m, s, []. simpl. split_and!; [done|done|lia|done|done].
Qed.

Theorem arena_alloc_refines m a l n :
  wf m a l → 0 < n ≤ 2 ^ 64 - 16 →
  (small (ALIGN8 n) l ∧ arena_alloc m a n = Some (0, m, a))
  ∨ (∃ l1 s l2 m' a',
       fits (ALIGN8 n) l l1 s l2
       ∧ arena_alloc m a n = Some (endof (base a) l1 + HDR, m', a')
       ∧ wf m' a' (l1 ++ carve (ALIGN8 n) s ++ l2)
       ∧ base a' = base a ∧ asize a' = asize a
       ∧ (∀ y, y < base a ∨ base a + asize a ≤ y → m' !! y = m !! y)).
Proof.
  intros [[Hbase Hseg Hend Hfit Hhead Hrov] Hused Hadj Hsizes] Hn.
  destruct (ALIGN8_spec n) as [Hal Hal16]; [lia|].
  unfold arena_alloc. rewrite (proj2 (Z.eqb_neq n 0)), Hhead, (proj2 (Z.eqb_neq (base a) 0)) by lia.
  cbn [orb]. destruct (seg_addrs_range _ _ _ _ _ _ Hseg Hrov) as [Hrr _].
  rewrite (nz_pos (rover a)) by lia.
  destruct (search_correct m l (base a) (ALIGN8 n) (rover a)) as
    [(l1 & s & l2 & [-> Hns] & Hse)|[Hsm Hse]]; [lia|done|done| |].
  2: { left. split; [done|]. rewrite Hse. done. }
  right. exists l1, s, l2. rewrite Hse. cbn [mbind option_bind].
  set (B := endof (base a) l1) in *. set (n' := ALIGN8 n) in *.
  destruct (seg_block_end _ _ _ _ _ _ _ _ Hseg) as (HB & Hs0 & HE). fold B in HB, HE. rewrite Hend in HE.
  destruct (lookup_seg_middle _ _ _ _ _ _ _ _ Hseg) as (Hx & _ & HB16). fold B in Hx, HB16.
  pose proof Hseg as [Hs1 Hs2]%seg_app. fold B in Hs2.
  assert (endof B ((s, true) :: l2) = base a + asize a) as HendB
    by (rewrite <- Hend, endof_app; done).
  rewrite (proj2 (Z.eqb_neq B 0)), Hx by lia. cbn [mbind option_bind size].
  destruct (split_or_keep m (lastof 0 (base a) l1) B s true l2 n')
    as (m1 & s1 & k & -> & Hcv & Hus & Hm1 & Hfr1); [lia|done|lia|lia|done|].
  rewrite HendB in Hfr1. cbn [mbind option_bind].
  pose proof Hm1 as (Hx1 & Hs10 & _ & Hk)%seg_cons. rewrite Hx1. cbn [mbind option_bind].
  eexists _, _. split; [done|]. split; [done|]. cbn [base asize]. split; [|split_and!; [done|done|]].
  2: { intros y Hy. rewrite lookup_insert_ne by hlia. apply Hfr1. lia. }
  assert (endof (base a) (l1 ++ carve n' s ++ l2) = base a + asize a) as Hend'.
  { rewrite !endof_app, carve_end. fold B. rewrite <- HendB. done. }
  set (m2 := <[B := _]> m1).
  assert (seg m2 0 (base a) (l1 ++ carve n' s ++ l2) 0) as Hseg'.
  { eapply seg_splice; [exact Hseg|done|by rewrite Hcv| |].
    - rewrite Hcv. simpl app. exact (seg_write _ _ _ _ true false _ _ Hm1).
    - fold B. intros y Hy. unfold m2. rewrite lookup_insert_ne by hlia. apply Hfr1. lia. }
  split; cbn; [split; cbn; [done|done|done|done|done|]| |by apply carve_noadj
    |apply carve_sizes; [by apply ALIGN8_pos|done]].
  - rewrite Hcv. simpl app. destruct (k ++ l2) as [|[s2 f2] l2'] eqn:Ek; simpl nexta.
    + change (nz 0) with false. cbv iota. destruct l1 as [|[? ?] ?]; simpl; by left.
    + rewrite nz_pos by hlia. rewrite addrs_app. simpl. fold B.
      apply elem_of_app. right. right. by left.
  - apply usum_bound in Hseg'. rewrite Hend', !usum_app, Hus in Hseg'.
    rewrite Hused, !usum_app, Hus. simpl. rewrite u64_small by lia. lia.
Qed.

(** ** Freeing *)

Lemma merge_core m a l1 s f s2 f2 l2 :
  core m a (l1 ++ (s, f) :: (s2, f2) :: l2) →
  ∃ m' a', merge_next m a (endof (base a) l1) = Some (m', a')
    ∧ core m' a' (l1 ++ (s + HDR + s2, f) :: l2)
    ∧ used a' = used a ∧ base a' = base a ∧ asize a' = asize a
    ∧ (∀ y, y < base a ∨ base a + asize a ≤ y → m' !! y = m !! y).
Proof.
  intros [Hbase Hseg Hend Hfit Hhead Hrov]. set (B := endof (base a) l1) in *.
  destruct (seg_block_end _ _ _ _ _ _ _ _ Hseg) as (HB & Hs0 & _). fold B in HB.
  pose proof Hseg as [Hs1 Hs2]%seg_app. fold B in Hs2.
  assert (endof B ((s, f) :: (s2, f2) :: l2) = base a + asize a) as HendB
    by (rewrite <- Hend, endof_app; done).
  pose proof Hs2 as (_ & _ & _ & (_ & Hs20 & _ & Hl%seg_end)%seg_cons)%seg_cons. simpl in HendB.
  destruct (merge_next_seg m a (lastof 0 (base a) l1) B s f s2 f2 l2)
    as (m' & -> & Hm' & Hfr); [lia|done|hlia|].
  eexists m', _. split; [done|].
  assert (core m' (if rover a =? B + HDR + s then {| a with rover := B |} else a)
    (l1 ++ (s + HDR + s2, f) :: l2)) as Hc.
  2: { split; [done|]. destruct (rover a =? B + HDR + s); cbn; split_and!; try done;
       intros y Hy; apply Hfr; simpl; lia. }
  assert (seg m' 0 (base a) (l1 ++ (s + HDR + s2, f) :: l2) 0).
  { eapply seg_splice; [exact Hseg|done|done|done|]. intros y Hy. apply Hfr. fold B in Hy. lia. }
  assert (endof (base a) (l1 ++ (s + HDR + s2, f) :: l2) = base a + asize a).
  { rewrite endof_app. simpl. rewrite <- HendB. fold B. f_equal. lia. }
  destruct (rover a =? B + HDR + s) eqn:Er; bools; split; cbn; try done.
  - apply addrs_middle.
  - rewrite addrs_app in *. apply elem_of_app in Hrov as [?|Hr]; apply elem_of_app; [by left|right].
    simpl in *. fold B in Hr |- *. rewrite !elem_of_cons in Hr. rewrite elem_of_cons.
    replace (B + HDR + (s + HDR + s2)) with (B + HDR + s + HDR + s2) by lia. naive_solver.
Qed.

(** What freeing the block between [l1] and [l2] leaves: the next block is
    swallowed if free, then the previous one swallows the result. *)
Definition join_next (s : Z) (l2 : list blk) : Z * list blk :=
  match l2 with (s2, true) :: l2' => (s + HDR + s2, l2') | _ => (s, l2) end.

Definition freed (l1 : list blk) (s : Z) (l2 : list blk) : list blk :=
  let '(s', l2') := join_next s l2 in
  match reverse l1 with
  | (s0, true) :: r => reverse r ++ (s0 + HDR + s', true) :: l2'
  | _ => l1 ++ (s', true) :: l2'
  end.

Lemma lastf_snoc p l s f : lastf p (l ++ [(s, f)]) = f.
Proof. revert p. induction l as [|[s' f'] l IH]; intros p; simpl; auto. Qed.

Lemma lastof_snoc pv b l s f : lastof pv b (l ++ [(s, f)]) = endof b l.
Proof. revert pv b. induction l as [|[s' f'] l IH]; intros pv b; simpl; auto. Qed.

Lemma freed_snoc l s0 s l2 :
  freed (l ++ [(s0, true)]) s l2 =
    l ++ (s0 + HDR + (join_next s l2).1, true) :: (join_next s l2).2.
Proof.
  unfold freed. destruct (join_next s l2). by rewrite reverse_snoc, reverse_involutive.
Qed.

Lemma freed_keep l1 s l2 :
  lastf false l1 = false → freed l1 s l2 = l1 ++ ((join_next s l2).1, true) :: (join_next s l2).2.
Proof.
  intros Hf. unfold freed. destruct (join_next s l2). simpl.
  destruct l1 as [|[s0 f0] l1' _] using rev_ind; [done|].
  rewrite lastf_snoc in Hf. by rewrite reverse_snoc, Hf.
Qed.

Lemma freed_noadj l1 s l2 :
  noadj false (l1 ++ (s, false) :: l2) → noadj false (freed l1 s l2).
Proof.
  rewrite noadj_app. simpl. intros (H1 & _ & H2).
  assert (noadj true (join_next s l2).2) as Hj.
  { unfold join_next. destruct l2 as [|[s2 [|]] l2']; simpl in *; naive_solver. }
  destruct (lastf false l1) eqn:Hf.
  - destruct l1 as [|[s0 f0] l1' _] using rev_ind; [done|]. rewrite lastf_snoc in Hf. subst f0.
    rewrite freed_snoc, noadj_app. rewrite noadj_app in H1. simpl in *. naive_solver.
  - rewrite freed_keep by done. rewrite noadj_app. simpl. by rewrite Hf.
Qed.

Lemma freed_usum l1 s l2 : usum (freed l1 s l2) = usum l1 + usum l2.
Proof.
  assert (usum (join_next s l2).2 = usum l2) as Hj
    by (unfold join_next; destruct l2 as [|[s2 [|]] ?]; simpl; lia).
  destruct (lastf false l1) eqn:Hf.
  - destruct l1 as [|[s0 f0] l1' _] using rev_ind; [done|]. rewrite lastf_snoc in Hf. subst f0.
    rewrite freed_snoc, !usum_app. simpl. lia.
  - rewrite freed_keep by done. rewrite usum_app. simpl. lia.
Qed.

Lemma freed_sizes l1 s l2 :
  Forall (λ x, 16 ≤ x.1) (l1 ++ (s, false) :: l2) → Forall (λ x, 16 ≤ x.1) (freed l1 s l2).
Proof.
  rewrite Forall_app, Forall_cons. simpl. intros (H1 & H & H2).
  assert (16 ≤ (join_next s l2).1 ∧ Forall (λ x, 16 ≤ x.1) (join_next s l2).2) as [Hj1 Hj2].
  { unfold join_next. destruct H2 as [|[s2 [|]] l2 Hs2 H2]; simpl in *; split; auto; hlia. }
  destruct (lastf false l1) eqn:Hf.
  - destruct l1 as [|[s0 f0] l1' _] using rev_ind; [done|]. rewrite lastf_snoc in Hf. subst f0.
    apply Forall_app in H1 as [H1 [H0 _]%Forall_cons]. simpl in H0.
    rewrite freed_snoc. apply Forall_app. split; [done|]. constructor; [simpl; hlia|done].
  - rewrite freed_keep by done. apply Forall_app. split; [done|]. by constructor.
Qed.

Definition same_range (a a' : arena_t) : Prop := base a' = base a ∧ asize a' = asize a.

(** Headers outside of the arena are not touched. *)
Definition untouched (a : arena_t) (m m' : gmap Z block_t) : Prop :=
  ∀ y, y < base a ∨ base a + asize a ≤ y → m' !! y = m !! y.

Lemma free_next m a l1 s l2 :
  core m a (l1 ++ (s, true) :: l2) →
  let B := endof (base a) l1 in
  let nx := nexta (B + HDR + s) l2 0 in
  ∃ m' a',
    (if nz nx then y ← m !! nx; if free y then merge_next m a B else Some (m, a)
     else Some (m, a)) = Some (m', a')
    ∧ core m' a' (l1 ++ ((join_next s l2).1, true) :: (join_next s l2).2)
    ∧ used a' = used a ∧ same_range a a' ∧ untouched a m m'.
Proof.
  intros Hc B nx. pose proof Hc as [Hbase Hseg Hend Hfit Hhead Hrov].
  destruct (seg_block_end _ _ _ _ _ _ _ _ Hseg) as (HB & Hs0 & _). fold B in HB.
  assert (core m a (l1 ++ (s, true) :: l2) → ∃ m' a', Some (m, a) = Some (m', a')
    ∧ core m' a' (l1 ++ (s, true) :: l2) ∧ used a' = used a ∧ same_range a a' ∧ untouched a m m')
    as Hkeep by (intros; by exists m, a).
  unfold nx. rewrite nz_nexta by hlia. destruct l2 as [|[s2 f2] l2]; [by apply Hkeep|].
  pose proof Hseg as [_ (_ & _ & _ & (Hy & _)%seg_cons)%seg_cons]%seg_app. fold B in Hy.
  simpl nexta. rewrite Hy. simpl. destruct f2; [|by apply Hkeep].
  destruct (merge_core _ _ _ _ _ _ _ _ Hc) as (m' & a' & Hm & ? & ? & ? & ? & ?).
  by exists m', a'.
Qed.

Lemma free_prev m a l1 s l2 :
  core m a (l1 ++ (s, true) :: l2) →
  let pv := lastof 0 (base a) l1 in
  ∃ m' a',
    (if nz pv then y ← m !! pv; if free y then merge_next m a pv else Some (m, a)
     else Some (m, a)) = Some (m', a')
    ∧ core m' a' (match reverse l1 with
                  | (s0, true) :: r => reverse r ++ (s0 + HDR + s, true) :: l2
                  | _ => l1 ++ (s, true) :: l2
                  end)
    ∧ used a' = used a ∧ same_range a a' ∧ untouched a m m'.
Proof.
  intros Hc pv. pose proof Hc as [Hbase Hseg Hend Hfit Hhead Hrov]. unfold pv.
  destruct l1 as [|[s0 f0] l1 _] using rev_ind; [by exists m, a|].
  rewrite lastof_snoc, reverse_snoc. rewrite <- app_assoc in Hc, Hseg. simpl in Hc, Hseg.
  destruct (lookup_seg_middle _ _ _ _ _ _ _ _ Hseg) as (Hx & _ & _).
  destruct (seg_block_end _ _ _ _ _ _ _ _ Hseg) as (HB & _ & _).
  rewrite nz_pos by lia. rewrite Hx. simpl. destruct f0.
  - destruct (merge_core _ _ _ _ _ _ _ _ Hc) as (m' & a' & -> & ? & ? & ? & ? & ?).
    exists m', a'. by rewrite reverse_involutive.
  - exists m, a. rewrite <- app_assoc. done.
Qed.

Theorem release_refines m a l1 s l2 x :
  wf m a (l1 ++ (s, false) :: l2) → m !! endof (base a) l1 = Some x →
  ∃ m' a', release_block m a (endof (base a) l1) x = Some (m', a')
    ∧ wf m' a' (freed l1 s l2) ∧ same_range a a' ∧ untouched a m m'.
Proof.
  intros [[Hbase Hseg Hend Hfit Hhead Hrov] Hused Hadj Hsizes] Hx.
  destruct (lookup_seg_middle _ _ _ _ _ _ _ _ Hseg) as (Hx' & Hs0 & _).
  rewrite Hx' in Hx. injection Hx as <-. set (B := endof (base a) l1) in *.
  destruct (seg_block_end _ _ _ _ _ _ _ _ Hseg) as (HB & _ & HE). fold B in HB, HE.
  unfold release_block. cbn [size next prev free mg].
  set (m0 := <[B := _]> m). set (a0 := Arena _ _ _ _ _).
  assert (core m0 a0 (l1 ++ (s, true) :: l2)) as Hc0.
  { split; cbn; try done.
    - eapply seg_splice; [exact Hseg|done|done| |].
      + apply seg_app in Hseg as [_ Hs2]. exact (seg_write _ _ _ _ false true _ _ Hs2).
      + intros y Hy. unfold m0. rewrite lookup_insert_ne by (fold B in Hy; lia). done.
    - rewrite <- Hend, !endof_app. done.
    - rewrite addrs_app in *. done. }
  assert (untouched a m m0) as Hfr0.
  { intros y Hy. unfold m0. apply lookup_insert_ne. hlia. }
  destruct (free_next _ _ _ _ _ Hc0) as (m1 & a1 & H1 & Hc1 & Hu1 & [Hb1 Hz1] & Hfr1).
  cbn [base] in H1. fold B in H1. change (base a0) with (base a) in H1. fold B in H1.
  rewrite H1. cbn [mbind option_bind]. 
  destruct (free_prev _ _ _ _ _ Hc1) as (m2 & a2 & H2 & Hc2 & Hu2 & [Hb2 Hz2] & Hfr2).
  rewrite Hb1 in H2. change (base a0) with (base a) in H2. rewrite H2.
  exists m2, a2. split; [done|]. split; [|split].
  - split; [|rewrite Hu2, Hu1; cbn|by apply freed_noadj|by apply freed_sizes].
    + unfold freed. destruct (join_next s l2). done.
    + pose proof (usum_bound _ _ _ _ _ Hseg) as Hub. rewrite freed_usum.
      rewrite Hused, usum_app. rewrite usum_app in Hub. cbn [usum] in *. rewrite u64_small; [lia|].
      pose proof Hseg as [H1s%usum_bound (_ & _ & _ & H2s%usum_bound)%seg_cons]%seg_app.
      rewrite Hend in Hub. hlia.
  - split; [by rewrite Hb2, Hb1|by rewrite Hz2, Hz1].
  - intros y Hy. change (base a0) with (base a) in *. change (asize a0) with (asize a) in *.
    rewrite Hfr2 by (rewrite Hb1, Hz1; done). rewrite Hfr1 by done. by apply Hfr0.
Qed.

(** ** Both arenas *)

(** The block lists of the two arenas: [false] is [low], [true] is [big]. *)
Definition upd (L : bool → list blk) (k : bool) (l : list blk) : bool → list blk :=
  λ k', if Bool.eqb k k' then l else L k'.

Definition active (h : heap) (k : bool) : Prop := k = true → head (big h) ≠ 0.

Definition apart (a a' : arena_t) : Prop :=
  base a + asize a ≤ base a' ∨ base a' + asize a' ≤ base a.

Record heap_ok (h : heap) (L : bool → list blk) : Prop := {
  ok_wf : ∀ k, active h k → wf (mem h) (arena_at h k) (L k);
  ok_apart : head (big h) ≠ 0 → apart (low h) (big h);
  ok_none : head (big h) = 0 → L true = []
}.

(** Every payload in use, of both arenas. *)
Definition allocated (h : heap) (L : bool → list blk) : list (Z * Z) :=
  live (base (low h)) (L false) ++ live (base (big h)) (L true).

Definition disj (r r' : Z * Z) : Prop := r.1 + r.2 ≤ r'.1 ∨ r'.1 + r'.2 ≤ r.1.

Lemma wf_frame m m' a a' l :
  wf m a l → apart a a' → untouched a' m m' → wf m' a l.
Proof.
  intros [[? Hseg Hend ? ? ?] ? ? ?] Hap Hfr. split; [|done..]. split; try done.
  eapply seg_frame; [done|]. intros y Hy. apply Hfr. rewrite Hend in Hy.
  destruct Hap; lia.
Qed.

Lemma ok_put h L k m' a' l' :
  heap_ok h L → active h k → wf m' a' l' →
  same_range (arena_at h k) a' → untouched (arena_at h k) (mem h) m' →
  heap_ok (put_arena h k m' a') (upd L k l').
Proof.
  intros [Hwf Hap Hno] Hk Hw [Hb Hz] Hfr.
  destruct k; simpl in *.
  - specialize (Hk eq_refl). pose proof (Hap Hk) as Hap'.
    split; cbn.
    + intros [] Hk'; simpl; [done|]. eapply wf_frame; [by apply (Hwf false)|exact Hap'|done].
    + intros _. unfold apart in *. rewrite Hb, Hz. done.
    + intros Hh. exfalso. destruct Hw as [[? _ _ _ ? _] _ _ _]. lia.
  - split; cbn.
    + intros [] Hk'; simpl; [|done]. specialize (Hk' eq_refl). cbn in Hk'.
      eapply wf_frame; [apply (Hwf true); intros _; exact Hk'| |exact Hfr].
      specialize (Hap Hk'). unfold apart in *. simpl. lia.
    + intros Hh. specialize (Hap Hh). unfold apart in *. rewrite Hb, Hz. done.
    + done.
Qed.

Lemma live_range m pv b l e p s :
  seg m pv b l e → (p, s) ∈ live b l →
  b + HDR ≤ p ∧ 0 ≤ s ∧ p + s ≤ endof b l ∧ p mod 16 = 0.
Proof.
  revert pv b. induction l as [|[s' f] l IH]; intros pv b Hs; simpl; [by intros ?%elem_of_nil|].
  apply seg_cons in Hs as (_ & H0 & Ha & Hl). pose proof (seg_end _ _ _ _ _ Hl).
  intros [Hin|Hin]%elem_of_app.
  - destruct f; [by apply elem_of_nil in Hin|]. apply list_elem_of_singleton in Hin.
    injection Hin as -> ->. split_and!; try hlia.
    unfold HDR. by rewrite <- Z.add_mod_idemp_l, Ha by lia.
  - destruct (IH _ _ Hl Hin). hlia.
Qed.

Lemma live_split b l p s :
  (p, s) ∈ live b l → ∃ l1 l2, l = l1 ++ (s, false) :: l2 ∧ p = endof b l1 + HDR.
Proof.
  revert b. induction l as [|[s' f] l IH]; intros b; simpl; [by intros ?%elem_of_nil|].
  intros [Hin|Hin]%elem_of_app.
  - destruct f; [by apply elem_of_nil in Hin|]. apply list_elem_of_singleton in Hin.
    injection Hin as -> ->. by exists [], l.
  - destruct (IH _ Hin) as (l1 & l2 & -> & ->). by exists ((s', f) :: l1), l2.
Qed.

Lemma live_middle b l1 s l2 :
  live b (l1 ++ (s, false) :: l2) ≡ₚ (endof b l1 + HDR, s) :: live b (l1 ++ (s, true) :: l2).
Proof. rewrite !live_app. simpl. by rewrite Permutation_middle. Qed.

(** The payloads of a chain never overlap. *)
Lemma live_disj m pv b l1 s l2 e r :
  seg m pv b (l1 ++ (s, false) :: l2) e → r ∈ live b (l1 ++ (s, true) :: l2) →
  disj (endof b l1 + HDR, s) r.
Proof.
  intros [H1 (_ & H0 & _ & H2)%seg_cons]%seg_app. rewrite live_app. simpl.
  destruct r as [p t]. unfold disj. simpl.
  intros [Hin|Hin]%elem_of_app.
  - destruct (live_range _ _ _ _ _ _ _ H1 Hin) as (? & ? & ? & _). hlia.
  - destruct (live_range _ _ _ _ _ _ _ H2 Hin) as (? & ? & ? & _). hlia.
Qed.

Lemma live_size b l p s : Forall (λ x, 16 ≤ x.1) l → (p, s) ∈ live b l → 16 ≤ s.
Proof.
  intros H (l1 & l2 & -> & _)%live_split. apply Forall_app in H as [_ [H _]%Forall_cons]. done.
Qed.

Lemma arena_of_live h L k p s :
  heap_ok h L → active h k → (p, s) ∈ live (base (arena_at h k)) (L k) → arena_of h p = k.
Proof.
  intros Hok Hk Hin. destruct (ok_wf _ _ Hok k Hk) as [[Hb Hseg Hend ? Hh ?] _ _ Hsz].
  destruct (live_range _ _ _ _ _ _ _ Hseg Hin) as (? & _ & ? & _).
  pose proof (live_size _ _ _ _ Hsz Hin). rewrite Hend in *.
  unfold arena_of. destruct k; simpl in *.
  - rewrite nz_pos by lia. rewrite (proj2 (Z.leb_le _ _)), (proj2 (Z.ltb_lt _ _)) by hlia. done.
  - destruct (nz (head (big h))) eqn:Hnz; [|done].
    apply nz_true in Hnz. destruct (ok_apart _ _ Hok Hnz); simpl.
    + by rewrite (proj2 (Z.leb_gt _ _)) by hlia.
    + rewrite (proj2 (Z.ltb_ge p _)) by hlia. apply andb_false_r.
Qed.

(** ** What the allocator promises *)

Lemma freed_live b l1 s l2 : live b (freed l1 s l2) = live b (l1 ++ (s, true) :: l2).
Proof.
  assert (∀ c, live (c + HDR + (join_next s l2).1) (join_next s l2).2 = live (c + HDR + s) l2) as Hj.
  { intros c. unfold join_next. destruct l2 as [|[s2 [|]] l2']; simpl; try done. f_equal. lia. }
  destruct (lastf false l1) eqn:Hf.
  - destruct l1 as [|[s0 f0] l1' _] using rev_ind; [done|]. rewrite lastf_snoc in Hf. subst f0.
    rewrite freed_snoc, <- app_assoc, !live_app. simpl. f_equal. rewrite <- Hj. f_equal. lia.
  - rewrite freed_keep by done. rewrite !live_app. simpl. by rewrite Hj.
Qed.

Lemma allocated_upd h L k m' a' l' rest :
  heap_ok h L → active h k → same_range (arena_at h k) a' →
  live (base (arena_at h k)) l' ≡ₚ rest →
  allocated (put_arena h k m' a') (upd L k l') ≡ₚ
    rest ++ live (base (arena_at h (negb k))) (L (negb k)).
Proof.
  intros Hok Hk [Hb _] Hl. unfold allocated. destruct k; simpl in *; rewrite Hb, Hl; [|done].
  by rewrite Permutation_app_comm.
Qed.

Lemma allocated_at h L k :
  allocated h L ≡ₚ live (base (arena_at h k)) (L k) ++ live (base (arena_at h (negb k))) (L (negb k)).
Proof. unfold allocated. destruct k; simpl; [by rewrite Permutation_app_comm|done]. Qed.

(** Payloads of the other arena are out of the range of this one. *)
Lemma other_disj h L k p s r :
  heap_ok h L → active h k → base (arena_at h k) ≤ p →
  p + s ≤ base (arena_at h k) + asize (arena_at h k) →
  r ∈ live (base (arena_at h (negb k))) (L (negb k)) → disj (p, s) r.
Proof.
  intros Hok Hk Hp Hs Hr. destruct r as [q t]. unfold disj. simpl.
  destruct (decide (head (big h) = 0)) as [Hz|Hz].
  - destruct k; [by destruct Hk|]. simpl in Hr. rewrite (ok_none _ _ Hok Hz) in Hr.
    by apply elem_of_nil in Hr.
  - assert (active h (negb k)) as Hk' by by intros _.
    destruct (ok_wf _ _ Hok _ Hk') as [[Hb Hseg Hend _ _ _] _ _ _].
    destruct (live_range _ _ _ _ _ _ _ Hseg Hr) as (? & ? & ? & _). rewrite Hend in *.
    destruct (ok_apart _ _ Hok Hz); destruct k; simpl in *; hlia.
Qed.

Lemma alloc_in_spec h L k n :
  heap_ok h L → active h k → 0 < n ≤ 2 ^ 64 - 16 →
  (alloc_in h k n = Some (0, h) ∧ small (ALIGN8 n) (L k))
  ∨ (∃ l1 s0 l2 h' s,
       fits (ALIGN8 n) (L k) l1 s0 l2
       ∧ let p := endof (base (arena_at h k)) l1 + HDR in
         alloc_in h k n = Some (p, h')
         ∧ heap_ok h' (upd L k (l1 ++ carve (ALIGN8 n) s0 ++ l2))
         ∧ allocated h' (upd L k (l1 ++ carve (ALIGN8 n) s0 ++ l2)) ≡ₚ (p, s) :: allocated h L
         ∧ n ≤ s ∧ p mod 16 = 0 ∧ base (arena_at h k) + HDR ≤ p
         ∧ p + s ≤ base (arena_at h k) + asize (arena_at h k)
         ∧ Forall (disj (p, s)) (allocated h L)
         ∧ head (big h') = head (big h)
         ∧ same_range (low h) (low h') ∧ same_range (big h) (big h')).
Proof.
  intros Hok Hk Hn. unfold alloc_in. pose proof (ok_wf _ _ Hok k Hk) as Hw.
  destruct (arena_alloc_refines _ _ _ n Hw Hn) as
    [[Hsm ->]|(l1 & s0 & l2 & m' & a' & [HL Hfit] & -> & Hw' & Hb & Hz & Hfr)].
  { left. split; [|done]. by destruct h, k. }
  right. assert (∃ s k2, carve (ALIGN8 n) s0 = (s, false) :: k2 ∧ ALIGN8 n ≤ s ∧ (k2 = [] ∨ ∃ t, k2 = [(t, true)]))
    as (s & k2 & Hcv & Hs & Hk2).
  { unfold carve. destruct (ALIGN8 n + HDR + 16 <=? s0); eexists _, _; eauto using Z.le_refl. }
  destruct (ALIGN8_spec n) as [Hal _]; [lia|].
  exists l1, s0, l2, (put_arena h k m' a'), s. cbv zeta.
  set (p := endof (base (arena_at h k)) l1 + HDR). split; [by split|].
  pose proof (wf_core _ _ _ Hw') as [_ Hseg' Hend' _ _ _]. rewrite Hb, Hz in *.
  assert (live (base (arena_at h k)) (l1 ++ carve (ALIGN8 n) s0 ++ l2) ≡ₚ
    (p, s) :: live (base (arena_at h k)) (L k)) as Hlive.
  { pose proof (carve_end (ALIGN8 n) s0 (endof (base (arena_at h k)) l1)) as Hce.
    rewrite HL, !live_app, Hce, Hcv. simpl.
    destruct Hk2 as [->|[t ->]]; simpl; by rewrite Permutation_middle. }
  assert ((p, s) ∈ live (base (arena_at h k)) (l1 ++ carve (ALIGN8 n) s0 ++ l2)) as Hin
    by (rewrite Hlive; by left).
  destruct (live_range _ _ _ _ _ _ _ Hseg' Hin) as (Hp1 & Hp2 & Hp3 & Hp4). rewrite Hend' in Hp3.
  assert (allocated (put_arena h k m' a') (upd L k (l1 ++ carve (ALIGN8 n) s0 ++ l2)) ≡ₚ
    (p, s) :: allocated h L) as Hall.
  { rewrite (allocated_upd _ _ _ _ _ _ _ Hok Hk (conj Hb Hz) Hlive), (allocated_at h L k). done. }
  split; [done|]. split; [by apply ok_put|]. split; [done|]. split; [lia|]. split; [done|].
  split; [lia|]. split; [done|]. split; [|split; [|by destruct k]].
  2: { destruct k; [|done]. simpl in *. rewrite (core_head _ _ _ (wf_core _ _ _ Hw')), Hb.
       by rewrite (core_head _ _ _ (wf_core _ _ _ Hw)). }
  apply Forall_forall. intros r Hr. rewrite (allocated_at h L k) in Hr.
  apply elem_of_app in Hr as [Hr|Hr]; [|by eapply other_disj; eauto; hlia].
  assert (r ∈ live (base (arena_at h k)) (l1 ++ (s, true) :: k2 ++ l2)) as Hr'.
  { rewrite HL, !live_app in Hr. rewrite live_app. simpl.
    pose proof (carve_end (ALIGN8 n) s0 (endof (base (arena_at h k)) l1)) as Hce.
    rewrite Hcv in Hce. simpl in Hce, Hr.
    destruct Hk2 as [->|[t ->]]; simpl in *; by rewrite ?Hce. }
  rewrite Hcv in Hseg'. exact (live_disj _ _ _ _ _ _ _ _ Hseg' Hr').
Qed.

Lemma kmalloc_spec h L n :
  heap_ok h L → 0 ≤ n ≤ 2 ^ 64 - 16 →
  ∃ p h', kmalloc h n = Some (p, h') ∧
    ((p = 0 ∧ h' = h ∧ (n = 0 ∨ small (ALIGN8 n) (L false)))
     ∨ (n ≠ 0 ∧ ∃ L' s, heap_ok h' L' ∧ allocated h' L' ≡ₚ (p, s) :: allocated h L
          ∧ n ≤ s ∧ p mod 16 = 0 ∧ base (low h) ≤ p ∧ p + s ≤ base (low h) + asize (low h)
          ∧ Forall (disj (p, s)) (allocated h L))).
Proof.
  intros Hok Hn. unfold kmalloc. destruct (decide (n = 0)) as [->|Hn0].
  { exists 0, h. split; [|by left; auto]. by destruct h. }
  destruct (alloc_in_spec h L false n) as [[-> Hsm]|(l1 & s0 & l2 & h' & s & _ & -> & Hs)];
    [done|done|lia| |].
  - exists 0, h. auto 6.
  - destruct Hs as (? & ? & ? & ? & Hp & ? & ? & _). eexists _, h'. split; [done|]. right.
    split; [done|]. eexists _, s. split_and!; try done. simpl in Hp. hlia.
Qed.

(** C2: for a size of at most 2^64 - 16 (beyond it the rounding wraps, see
    [kmalloc_wraps]) [kmalloc] never touches memory outside the heap.  It answers
    NULL, with the heap unchanged, only when the size is 0 or no free block of the
    kernel arena holds the size rounded up to 16; otherwise the payload it hands out
    holds at least the bytes asked for, is 16-byte aligned, lies inside the arena and
    overlaps none of the payloads in use, which all stay in use, and the heap is well
    formed again. *)
Theorem kmalloc_sound h L n :
  heap_ok h L → 0 ≤ n ≤ 2 ^ 64 - 16 →
  ∃ p h', kmalloc h n = Some (p, h') ∧
    ((p = 0 ∧ h' = h ∧ (n = 0 ∨ small (ALIGN8 n) (L false)))
     ∨ (n ≠ 0 ∧ ∃ L' s, heap_ok h' L' ∧ allocated h' L' ≡ₚ (p, s) :: allocated h L
          ∧ n ≤ s ∧ p mod 16 = 0 ∧ base (low h) ≤ p ∧ p + s ≤ base (low h) + asize (low h)
          ∧ Forall (disj (p, s)) (allocated h L))).
Proof. apply kmalloc_spec. Qed.

(** Freeing the used block between [l1] and [l2] of arena [k]. *)
Lemma free_at h L k l1 s l2 :
  heap_ok h L → active h k → L k = l1 ++ (s, false) :: l2 →
  let p := endof (base (arena_at h k)) l1 + HDR in
  ∃ x m' a', let h' := put_arena h k m' a' in
    mem h !! (p - HDR) = Some x
    ∧ release_block (mem h) (arena_at h k) (p - HDR) x = Some (m', a')
    ∧ kfree h p = Some h'
    ∧ heap_ok h' (upd L k (freed l1 s l2))
    ∧ allocated h L ≡ₚ (p, s) :: allocated h' (upd L k (freed l1 s l2)).
Proof.
  intros Hok Hk HL p. pose proof (ok_wf _ _ Hok k Hk) as Hw. pose proof Hw as Hw0. rewrite HL in Hw.
  pose proof (wf_core _ _ _ Hw) as [Hb Hseg _ _ _ _].
  destruct (lookup_seg_middle _ _ _ _ _ _ _ _ Hseg) as (Hx & _ & _).
  destruct (seg_block_end _ _ _ _ _ _ _ _ Hseg) as (HB & _ & _).
  destruct (release_refines _ _ _ _ _ _ Hw Hx) as (m' & a' & Hrel & Hw' & Hsr & Hfr).
  set (B := endof (base (arena_at h k)) l1) in *. assert (p - HDR = B) as Hp by (unfold p; lia).
  assert (arena_of h p = k) as Hao.
  { eapply (arena_of_live h L k p s); [done|done|]. rewrite HL, live_middle. by left. }
  eexists _, m', a'. cbv zeta. rewrite Hp. split_and!; [done|done| |by apply ok_put|].
  - unfold kfree, free_locked. rewrite (proj2 (Z.eqb_neq p 0)) by (unfold p; hlia).
    rewrite Hao, Hp, Hx. cbn [mbind option_bind mg].
    change (mgof false =? MG_USED) with true. cbn [negb]. by rewrite Hrel.
  - rewrite (allocated_at h L k), HL, live_middle. simpl. apply perm_skip.
    symmetry. apply allocated_upd; [done|done|done|]. by rewrite freed_live.
Qed.

Lemma allocated_split h L p s :
  heap_ok h L → (p, s) ∈ allocated h L →
  ∃ k l1 l2, active h k ∧ L k = l1 ++ (s, false) :: l2
    ∧ p = endof (base (arena_at h k)) l1 + HDR.
Proof.
  intros Hok Hin. assert (∃ k, active h k ∧ (p, s) ∈ live (base (arena_at h k)) (L k))
    as (k & Hk & (l1 & l2 & HL & ->)%live_split); [|by exists k, l1, l2].
  unfold allocated in Hin. apply elem_of_app in Hin as [?|Hb]; [by exists false|].
  exists true. split; [|done]. intros _ Hz. rewrite (ok_none _ _ Hok Hz) in Hb.
  by apply elem_of_nil in Hb.
Qed.

Lemma kfree_spec h L p s :
  heap_ok h L → (p, s) ∈ allocated h L →
  ∃ h' L', kfree h p = Some h' ∧ heap_ok h' L' ∧ allocated h L ≡ₚ (p, s) :: allocated h' L'.
Proof.
  intros Hok Hin. destruct (allocated_split _ _ _ _ Hok Hin) as (k & l1 & l2 & Hk & HL & ->).
  destruct (free_at _ _ _ _ _ _ Hok Hk HL) as (x & m' & a' & _ & _ & Hfree & Hok' & Hperm).
  eauto.
Qed.

(** C3: freeing a payload in use succeeds, takes exactly that payload out of use
    and leaves the heap well formed: the accounting is exact and no two free blocks
    are neighbours. *)
Theorem kfree_sound h L p s :
  heap_ok h L → (p, s) ∈ allocated h L →
  ∃ h' L', kfree h p = Some h' ∧ heap_ok h' L' ∧ allocated h L ≡ₚ (p, s) :: allocated h' L'.
Proof. apply kfree_spec. Qed.

(** Merging never changes a header's magic. *)
Lemma merge_next_mg m a b m' a' y x :
  merge_next m a b = Some (m', a') → m !! y = Some x →
  ∃ x', m' !! y = Some x' ∧ mg x' = mg x.
Proof.
  unfold merge_next, set_prev. intros H Hy. inv_some.
  assert (∃ x', (<[b := {| x0 with size := u64 (size x0 + HDR + size x1); next := next x1 |}]> m) !! y
    = Some x' ∧ mg x' = mg x) as (x' & Hx' & Hmg).
  { rewrite lookup_insert. case_decide as Hby; [|eauto]. subst y. rewrite Hy in E. injection E as <-.
    eexists. split; [done|]. done. }
  destruct (nz (next x1)); inv_some; [|eauto].
  rewrite lookup_insert. case_decide as Hny; [|eauto].
  subst y. match goal with Hq : _ !! next x1 = Some _ |- _ => rewrite Hx' in Hq; injection Hq as <- end.
  eexists. split; [done|]. done.
Qed.

Lemma release_mg m a b x m' a' :
  release_block m a b x = Some (m', a') → ∃ x', m' !! b = Some x' ∧ mg x' = MG_FREE.
Proof.
  unfold release_block. intros H. apply bind_Some in H as ([m1 a1] & H1 & H2).
  set (m0 := <[b := _]> m) in H1.
  assert (m0 !! b = Some {| x with free := true; mg := MG_FREE |}) as H0 by apply lookup_insert_eq.
  assert (∃ x', m1 !! b = Some x' ∧ mg x' = MG_FREE) as (x1 & Hx1 & Hmg1).
  { destruct (nz (next x)); inv_some; [|eauto]. destruct (free _); inv_some; [|eauto].
    exact (merge_next_mg _ _ _ _ _ _ _ H1 H0). }
  destruct (nz (prev x)); inv_some; [|eauto]. destruct (free _); inv_some; [|eauto].
  destruct (merge_next_mg _ _ _ _ _ _ _ H2 Hx1) as (x' & ? & ?). exists x'. split; [done|]. congruence.
Qed.

Lemma free_report h k m' a' p x :
  release_block (mem h) (arena_at h k) (p - HDR) x = Some (m', a') →
  free_locked (put_arena h k m' a') p =
    Some (say_blk (put_arena h k m' a') (double_free (p - HDR))).
Proof.
  intros Hrel. destruct (release_mg _ _ _ _ _ _ Hrel) as (x' & Hx' & Hmg).
  unfold free_locked. replace (mem (put_arena h k m' a')) with m' by by destruct k.
  rewrite Hx'. cbn [mbind option_bind]. by rewrite Hmg.
Qed.

(** A payload that is freed twice in a row is caught: the second call reports a
    double free of that block, counts one error and changes nothing else. *)
Theorem double_free_caught h L p s :
  heap_ok h L → (p, s) ∈ allocated h L →
  ∃ h', kfree h p = Some h' ∧ kfree h' p = Some (say_blk h' (double_free (p - HDR))).
Proof.
  intros Hok Hin. destruct (allocated_split _ _ _ _ Hok Hin) as (k & l1 & l2 & Hk & HL & ->).
  destruct (free_at _ _ _ _ _ _ Hok Hk HL) as (x & m' & a' & Hx & Hrel & Hfree & _).
  eexists. split; [exact Hfree|]. revert Hfree. unfold kfree. destruct (_ =? 0) eqn:E0; bools.
  { destruct (ok_wf _ _ Hok k Hk) as [[? Hseg _ _ _ _] _ _ _]. rewrite HL in Hseg.
    destruct (seg_block_end _ _ _ _ _ _ _ _ Hseg) as (? & _ & _). hlia. }
  intros _. by apply (free_report h k _ _ _ x).
Qed.

Lemma heap_ok_ext h L L' : (∀ k, L k = L' k) → heap_ok h L → heap_ok h L'.
Proof. intros HL [H1 H2 H3]. split; intros; rewrite <- ?HL; auto. Qed.

Lemma carve_freed n s l1 l2 :
  noadj false (l1 ++ (s, true) :: l2) →
  ∃ s1 k, carve n s = (s1, false) :: k ∧ freed l1 s1 (k ++ l2) = l1 ++ (s, true) :: l2.
Proof.
  rewrite noadj_app. simpl. intros (_ & Hl & H2). rewrite andb_true_r in Hl. unfold carve.
  split_ifs; eexists _, _; (split; [done|]); rewrite freed_keep by done; simpl.
  - by replace (n + HDR + (s - n - HDR)) with s by lia.
  - destruct l2 as [|[s2 [|]] l2]; simpl in *; naive_solver.
Qed.

(** An allocation from the kernel arena and the two frees after it. *)
Lemma alloc_free h L n p h1 :
  heap_ok h L → 0 < n ≤ 2 ^ 64 - 16 → alloc_in h false n = Some (p, h1) → p ≠ 0 →
  ∃ h2, free_locked h1 p = Some h2 ∧ heap_ok h2 L
    ∧ free_locked h2 p = Some (say_blk h2 (double_free (p - HDR)))
    ∧ rep h2 = rep h ∧ nerr h2 = nerr h.
Proof.
  intros Hok Hn Hm Hp. pose proof Hm as Hm'.
  destruct (alloc_in_spec h L false n) as [[Heq _]|(l1 & s0 & l2 & h' & s & [HL _] & Heq & Hok1 & Hr)];
    [done|done|done|congruence|]. rewrite Heq in Hm. injection Hm as <- <-.
  destruct (carve_freed (ALIGN8 n) s0 l1 l2) as (s1 & k & Hcv & Hfr).
  { rewrite <- HL. by apply (ok_wf _ _ Hok false). }
  set (L1 := upd L false _) in Hok1.
  destruct (free_at h' L1 false l1 s1 (k ++ l2)) as (x & m' & a' & _ & Hrel & Hfree & Hok2 & _);
    [done|done|unfold L1, upd; simpl; by rewrite Hcv|].
  assert (base (low h') = base (low h)) as Hb.
  { by destruct Hr as (_ & _ & _ & _ & _ & _ & _ & [? _] & _). }
  simpl in Hfree, Hrel. rewrite Hb in Hfree, Hrel.
  unfold kfree in Hfree. rewrite (proj2 (Z.eqb_neq _ 0)) in Hfree by done.
  eexists. split; [exact Hfree|]. split; [|split; [by apply (free_report h' false _ _ _ x)|]].
  - eapply heap_ok_ext; [|exact Hok2]. intros []; unfold upd; simpl; [done|]. by rewrite Hfr.
  - unfold alloc_in in Hm'. inv_some. done.
Qed.

(** Freeing what [kmalloc] just returned gives back the same two chains of
    blocks: nothing stays behind of the split. *)
Theorem kmalloc_kfree h L n p h1 :
  heap_ok h L → 0 < n ≤ 2 ^ 64 - 16 → kmalloc h n = Some (p, h1) → p ≠ 0 →
  ∃ h2, kfree h1 p = Some h2 ∧ heap_ok h2 L.
Proof.
  intros Hok Hn Hm Hp. destruct (alloc_free h L n p h1 Hok Hn Hm Hp) as (h2 & Hf & Hok2 & _).
  exists h2. unfold kfree. by rewrite (proj2 (Z.eqb_neq p 0)).
Qed.

(** ** Growing in place *)

Lemma addrs_carve b l1 s f l2 n x :
  x ∈ addrs b (l1 ++ (s, f) :: l2) → x ∈ addrs b (l1 ++ carve n s ++ l2).
Proof.
  rewrite !addrs_app, carve_end. intros [?|Hx]%elem_of_app; apply elem_of_app; [by left|right].
  simpl in Hx. apply elem_of_app. apply elem_of_cons in Hx as [->|?]; [left|by right].
  unfold carve. split_ifs; simpl; by left.
Qed.

(** Swallowing the free block [(s2, true)] and giving back what is over [n]. *)
Lemma grow_refines m a l1 s s2 l2 n :
  wf m a (l1 ++ (s, false) :: (s2, true) :: l2) → s < n ≤ s + HDR + s2 → n mod 16 = 0 →
  let B := endof (base a) l1 in
  let a0 := {| a with used := u64 (used a - (s + HDR)) |} in
  ∃ m1 a1 x1 m2 x2,
    merge_next m a0 B = Some (m1, a1)
    ∧ m1 !! B = Some x1
    ∧ (if u64 (n + HDR + 16) <=? size x1 then split_at m1 B n else Some m1) = Some m2
    ∧ m2 !! B = Some x2
    ∧ wf m2 {| a1 with used := u64 (used a1 + size x2 + HDR) |} (l1 ++ carve n (s + HDR + s2) ++ l2)
    ∧ same_range a a1 ∧ untouched a m m2.
Proof.
  intros [Hc Hused Hadj Hsizes] Hn Hn16 B a0.
  assert (core m a0 (l1 ++ (s, false) :: (s2, true) :: l2)) as Hc0 by by destruct Hc.
  destruct (merge_core _ _ _ _ _ _ _ _ Hc0) as (m1 & a1 & Hm & Hc1 & Hu1 & Hb1 & Hz1 & Hfr1).
  change (base a0) with (base a) in *. change (asize a0) with (asize a) in *. fold B in Hm.
  pose proof Hc1 as [Hbase Hseg Hend Hfit Hhead Hrov]. rewrite Hb1, Hz1 in *.
  destruct (lookup_seg_middle _ _ _ _ _ _ _ _ Hseg) as (Hx1 & HS & _). fold B in Hx1.
  destruct (seg_block_end _ _ _ _ _ _ _ _ Hseg) as (HB & _ & HE). fold B in HB, HE.
  rewrite Hend in HE. pose proof Hseg as [Hs1 Hs2]%seg_app. fold B in Hs2.
  assert (endof B ((s + HDR + s2, false) :: l2) = base a + asize a) as HendB
    by (rewrite <- Hend, endof_app; done).
  assert (0 ≤ s) as Hs0 by (apply (Forall_app _) in Hsizes as [_ [? _]%Forall_cons]; simpl in *; lia).
  destruct (split_or_keep m1 (lastof 0 (base a) l1) B (s + HDR + s2) false l2 n)
    as (m2 & s1 & k & Hsp & Hcv & Hus & Hm2 & Hfr2); [lia|done|lia|lia|done|].
  rewrite HendB in Hfr2. pose proof Hm2 as (Hx2 & Hs10 & _)%seg_cons.
  exists m1, a1; eexists _, m2, _. split; [done|]. split; [done|]. split; [done|]. split; [done|].
  cbn [size]. set (K := carve n (s + HDR + s2)) in *.
  assert (seg m2 0 (base a) (l1 ++ K ++ l2) 0) as Hseg2.
  { eapply seg_splice; [exact Hseg|done|by rewrite Hcv|by rewrite Hcv|].
    intros y Hy. apply Hfr2. fold B in Hy. lia. }
  assert (endof (base a) (l1 ++ K ++ l2) = base a + asize a) as Hend2.
  { rewrite !endof_app. unfold K. rewrite carve_end. fold B. rewrite <- HendB. done. }
  split; [|split; [by split|]].
  2: { intros y Hy. rewrite Hfr2 by lia. apply Hfr1. lia. }
  split; cbn; rewrite ?Hb1, ?Hz1.
  - split; cbn; rewrite ?Hb1, ?Hz1; try done. unfold K. by eapply addrs_carve.
  - pose proof (usum_bound _ _ _ _ _ Hseg2) as Hub. rewrite Hend2, !usum_app in Hub.
    rewrite Hu1. cbn. rewrite Hused, !usum_app. cbn [usum].
    pose proof (usum_bound _ _ _ _ _ Hs1). pose proof (usum_bound _ _ _ _ _ (proj2 (proj2 (proj2 Hs2)))).
    rewrite Hus in *. rewrite (u64_small (_ - _)) by hlia. rewrite u64_small by hlia. lia.
  - revert Hadj. rewrite !noadj_app. simpl. intros (? & _ & _ & Hl2). split; [done|].
    unfold K, carve. split_ifs; simpl; rewrite andb_false_r; [done|].
    split; [done|]. by eapply noadj_weaken.
  - apply Forall_app in Hsizes as [? [? [? ?]%Forall_cons]%Forall_cons]. simpl in *.
    rewrite !Forall_app. split_and!; [done| |done]. unfold K, carve.
    split_ifs; repeat constructor; simpl; hlia.
Qed.

Lemma live_carve l1 s s2 l2 n :
  s < n ≤ s + HDR + s2 →
  ∃ s', n ≤ s' ∧ ∀ c, live c (l1 ++ carve n (s + HDR + s2) ++ l2) ≡ₚ
                      (endof c l1 + HDR, s') :: live c (l1 ++ (s, true) :: (s2, true) :: l2).
Proof.
  intros Hn. unfold carve. destruct (n + HDR + 16 <=? s + HDR + s2) eqn:Ec;
    [exists n|exists (s + HDR + s2)]; (split; [lia|]); intros c; rewrite !live_app; simpl;
    rewrite <- Permutation_middle; apply perm_skip, Permutation_app_head, reflexive_eq;
    f_equal; lia.
Qed.

Lemma kgrow_spec h L p s n :
  heap_ok h L → (p, s) ∈ allocated h L → 0 ≤ n ≤ 2 ^ 64 - 16 →
  ∃ ok h', kgrow h p n = Some (ok, h') ∧
    if ok
    then ∃ L' s' rest, heap_ok h' L' ∧ n ≤ s' ∧ s ≤ s'
           ∧ allocated h L ≡ₚ (p, s) :: rest ∧ allocated h' L' ≡ₚ (p, s') :: rest
    else h' = h ∧ s < ALIGN8 n
         ∧ ∃ k l1 l2, L k = l1 ++ (s, false) :: l2 ∧ p = endof (base (arena_at h k)) l1 + HDR
           ∧ ¬ ∃ s2 l3, l2 = (s2, true) :: l3 ∧ ALIGN8 n ≤ s + HDR + s2.
Proof.
  intros Hok Hin Hn. destruct (allocated_split _ _ _ _ Hok Hin) as (k & l1 & l2 & Hk & HL & Hp).
  pose proof (ok_wf _ _ Hok k Hk) as Hw. rewrite HL in Hw.
  pose proof (wf_core _ _ _ Hw) as [Hb Hseg Hend Hfit _ _].
  destruct (lookup_seg_middle _ _ _ _ _ _ _ _ Hseg) as (Hx & _ & _).
  destruct (seg_block_end _ _ _ _ _ _ _ _ Hseg) as (HB & Hs0 & _).
  destruct (ALIGN8_spec n Hn) as [Hal Hal16].
  set (B := endof (base (arena_at h k)) l1) in *. assert (p - HDR = B) as HpB by lia.
  assert (arena_of h p = k) as Hao.
  { eapply (arena_of_live h L k p s); [done|done|]. rewrite HL, live_middle. subst p. by left. }
  unfold kgrow. rewrite (proj2 (Z.eqb_neq p 0)) by hlia. rewrite Hao, HpB, Hx.
  cbn [mbind option_bind size next].
  destruct (ALIGN8 n <=? s) eqn:Efit; bools.
  { exists true, h. split; [done|].
    destruct (elem_of_Permutation (allocated h L) (p, s)) as [[rest Hrest] _]; [done|].
    exists L, s, rest. split_and!; try done; lia. }
  assert (¬ (∃ s2 l3, l2 = (s2, true) :: l3 ∧ ALIGN8 n ≤ s + HDR + s2) →
    ∃ ok h', Some (false, h) = Some (ok, h') ∧ ok = false ∧ h' = h ∧ s < ALIGN8 n ∧
      ∃ k l1 l2, L k = l1 ++ (s, false) :: l2 ∧ p = endof (base (arena_at h k)) l1 + HDR
           ∧ ¬ ∃ s2 l3, l2 = (s2, true) :: l3 ∧ ALIGN8 n ≤ s + HDR + s2) as Hno.
  { intros Hno. exists false, h. split_and!; try done. by exists k, l1, l2. }
  destruct l2 as [|[s2 f2] l2]; simpl nexta.
  { change (0 =? 0) with true. cbv iota. destruct Hno as (? & ? & ? & -> & ?); [naive_solver|eauto]. }
  rewrite (proj2 (Z.eqb_neq _ 0)) by hlia.
  pose proof Hseg as [_ (_ & _ & _ & (Hy & Hs2 & _ & Hl2%seg_end)%seg_cons)%seg_cons]%seg_app.
  fold B in Hy, Hl2. rewrite Hy. cbn [mbind option_bind size free].
  assert (endof B ((s, false) :: (s2, f2) :: l2) = base (arena_at h k) + asize (arena_at h k)) as HendB
    by (rewrite <- Hend, endof_app; done). simpl in HendB.
  rewrite u64_small by hlia.
  destruct (f2 && (ALIGN8 n <=? s + HDR + s2)) eqn:Eg; bools.
  2: { destruct Hno as (? & ? & ? & -> & ?); [|eauto]. intros (t & l3 & Heq & Ht).
       injection Heq as -> -> ->. destruct Eg; bools; [done|lia]. }
  subst f2. destruct (grow_refines _ _ _ _ _ _ _ Hw (conj Efit H0) Hal16)
    as (m1 & a1 & x1 & m2 & x2 & E1 & E2 & E3 & E4 & Hw' & Hsr & Hfr).
  fold B in E1, E2, E3, E4. rewrite E1. cbn [mbind option_bind]. rewrite E2. cbn [mbind option_bind].
  rewrite E3. cbn [mbind option_bind]. rewrite E4. cbn [mbind option_bind].
  eexists true, _. split; [done|].
  destruct (live_carve l1 s s2 l2 (ALIGN8 n)) as (s' & Hs' & Hlive); [lia|].
  eexists (upd L k _), s', (live (base (arena_at h k)) (l1 ++ (s, true) :: (s2, true) :: l2)
    ++ live (base (arena_at h (negb k))) (L (negb k))).
  split; [apply ok_put; [done|done|exact Hw'|done|done]|]. split; [lia|]. split; [lia|]. split.
  - rewrite (allocated_at h L k), HL, live_middle. subst p. done.
  - rewrite allocated_upd; [|done|done|exact Hsr|apply Hlive]. subst p. fold B. simpl.
    done.
Qed.

(** [kgrow] on a payload in use either leaves the heap as it is and answers
    false, which it does only when the payload is too small and the next block is
    not a free one with enough room, or answers true and the payload, at the same
    address, now holds the bytes asked for while every other payload is unchanged. *)
Theorem kgrow_sound h L p s n :
  heap_ok h L → (p, s) ∈ allocated h L → 0 ≤ n ≤ 2 ^ 64 - 16 →
  ∃ ok h', kgrow h p n = Some (ok, h') ∧
    if ok
    then ∃ L' s' rest, heap_ok h' L' ∧ n ≤ s' ∧ s ≤ s'
           ∧ allocated h L ≡ₚ (p, s) :: rest ∧ allocated h' L' ≡ₚ (p, s') :: rest
    else h' = h ∧ s < ALIGN8 n
         ∧ ∃ k l1 l2, L k = l1 ++ (s, false) :: l2 ∧ p = endof (base (arena_at h k)) l1 + HDR
           ∧ ¬ ∃ s2 l3, l2 = (s2, true) :: l3 ∧ ALIGN8 n ≤ s + HDR + s2.
Proof. apply kgrow_spec. Qed.

(** ** The consistency check *)

Lemma check_walk_seg h a l : ∀ fuel pv b cnt p,
  seg (mem h) pv b l 0 → (length l < fuel)%nat → 0 < b → base a ≤ b →
  endof b l ≤ base a + asize a →
  (if nz pv then free <$> mem h !! pv else Some false) = Some p → noadj p l →
  nerr h ≤ 20 → 0 ≤ cnt → cnt + usum l < 2 ^ 64 →
  check_walk fuel h a pv (nexta b l 0) cnt = Some (h, cnt + usum l).
Proof.
  induction l as [|[s f] l IH]; intros fuel pv b cnt p Hs Hf Hb Hba He Hp Hadj Hn Hc Hcu.
  { destruct fuel; simpl in *; [lia|]. do 2 f_equal. lia. }
  destruct fuel as [|fuel]; [simpl in Hf; lia|].
  pose proof (usum_bound _ _ _ _ _ Hs) as _.
  pose proof Hs as (Hx & H0 & _ & Hl)%seg_cons. pose proof (seg_end _ _ _ _ _ Hl).
  pose proof (usum_bound _ _ _ _ _ Hl). cbn [nexta check_walk]. simpl in He, Hcu, Hf.
  rewrite (proj2 (Z.eqb_neq b 0)) by lia.
  rewrite (proj2 (Z.ltb_ge b (base a))), (proj2 (Z.leb_gt (base a + asize a) b)) by hlia.
  cbn [orb]. rewrite Hx. cbn [fmap option_fmap option_map mbind option_bind prev mg free next size].
  rewrite Z.eqb_refl. cbn [negb]. fold (mgof f). rewrite Z.eqb_refl. cbn [negb].
  assert (nz (nexta (b + HDR + s) l 0) && negb (b + HDR + s =? nexta (b + HDR + s) l 0) = false) as ->.
  { destruct l; [done|]. simpl. by rewrite Z.eqb_refl, andb_false_r. }
  rewrite Hp. cbn [mbind option_bind]. destruct Hadj as [-> Hadj].
  rewrite (proj2 (Z.ltb_ge 20 (nerr h))) by lia.
  rewrite (IH fuel b (b + HDR + s) _ f); [|done|lia|hlia|hlia|done| |done|done|..].
  - do 2 f_equal. simpl. destruct f; [lia|]. rewrite u64_small by hlia. lia.
  - rewrite nz_pos by done. by rewrite Hx.
  - destruct f; [done|]. apply u64_range.
  - destruct f; [hlia|]. rewrite u64_small by hlia. hlia.
Qed.

Lemma check_arena_ok h L k :
  heap_ok h L → nerr h ≤ 20 → check_arena h k = Some h.
Proof.
  intros Hok Hn. unfold check_arena. destruct (head (arena_at h k) =? 0) eqn:Hh; [done|]; bools.
  assert (active h k) as Hk by (intros ->; done).
  destruct (ok_wf _ _ Hok k Hk) as [[Hb Hseg Hend Hfit Hhd Hrov] Hused Hadj _].
  pose proof (usum_bound _ _ _ _ _ Hseg) as Hub. pose proof (seg_count _ _ _ _ _ Hseg).
  rewrite Hhd. assert (nexta (base (arena_at h k)) (L k) 0 = base (arena_at h k)) as Hnx.
  { destruct (L k); [by apply elem_of_nil in Hrov|done]. }
  rewrite <- Hnx at 1.
  rewrite (check_walk_seg _ _ _ _ _ _ _ false Hseg); [|lia|lia|lia|lia|done|done|done|lia|lia].
  cbn [mbind option_bind]. rewrite Hused. by rewrite Z.eqb_refl.
Qed.

(** The heap check runs through both arenas of a well-formed heap without a
    report: it only counts the check. *)
Theorem heap_check_clean h L :
  heap_ok h L → nerr h ≤ 20 →
  heap_check_locked h = Some {| h with nchk := nchk h + 1 |}.
Proof.
  intros Hok Hn. unfold heap_check_locked.
  assert (heap_ok {| h with nchk := nchk h + 1 |} L) as Hok' by by destruct Hok.
  rewrite (check_arena_ok _ L) by done. cbn [mbind option_bind]. by apply (check_arena_ok _ L).
Qed.

(** ** Sequences of calls *)

Lemma arena_init_wf m bs sz :
  64 ≤ bs → bs mod 16 = 0 → 48 ≤ sz → bs + sz ≤ 2 ^ 64 →
  let '(m', a) := arena_init m bs sz in wf m' a [(sz - HDR, true)] ∧ untouched a m m'.
Proof.
  intros Hb Ha Hs Hf. unfold arena_init. rewrite u64_small by hlia. split.
  - split; [|done|done|repeat constructor; simpl; hlia]. split; simpl; try done; [|lia|by left].
    apply seg_cons. split; [by rewrite lookup_insert_eq|]. split; [hlia|]. split; done.
  - intros y Hy. apply lookup_insert_ne. simpl in Hy. lia.
Qed.

(** No two payloads overlap. *)
Fixpoint pdisj (u : list (Z * Z)) : Prop :=
  match u with [] => True | r :: u' => Forall (disj r) u' ∧ pdisj u' end.

Lemma pdisj_app u v :
  pdisj (u ++ v) ↔ pdisj u ∧ pdisj v ∧ ∀ r r', r ∈ u → r' ∈ v → disj r r'.
Proof.
  induction u as [|r u IH]; simpl.
  { split; [intros ?; split_and!; [done|done|by intros ? ? ?%elem_of_nil]|tauto]. }
  rewrite IH, Forall_app. setoid_rewrite elem_of_cons. setoid_rewrite Forall_forall at 2.
  naive_solver.
Qed.

Lemma pdisj_perm u v : u ≡ₚ v → pdisj u → pdisj v.
Proof.
  induction 1 as [|r u v Hp IH|r r' u|]; simpl; [done| | |auto].
  - intros [H ?]. split; [by rewrite <- Hp|auto].
  - rewrite !Forall_cons. intros ((Hd & ?) & ? & ?). unfold disj in *. tauto.
Qed.

Lemma live_pdisj m pv b l e : seg m pv b l e → pdisj (live b l).
Proof.
  revert pv b. induction l as [|[s f] l IH]; intros pv b Hs; simpl; [done|].
  apply seg_cons in Hs as (_ & H0 & _ & Hl). apply pdisj_app. split_and!; [|eauto|].
  - by destruct f.
  - intros r [p t] Hr Hin. destruct f; [by apply elem_of_nil in Hr|].
    apply list_elem_of_singleton in Hr as ->.
    destruct (live_range _ _ _ _ _ _ _ Hl Hin) as (? & ? & ? & _). unfold disj. simpl. hlia.
Qed.

Lemma allocated_pdisj h L : heap_ok h L → pdisj (allocated h L).
Proof.
  intros Hok. destruct (ok_wf _ _ Hok false) as [[_ Hseg Hend _ _ _] _ _ _]; [done|].
  apply pdisj_app. split_and!; [by eapply live_pdisj| |].
  - destruct (decide (head (big h) = 0)) as [Hz|Hz].
    + by rewrite (ok_none _ _ Hok Hz).
    + destruct (ok_wf _ _ Hok true) as [[_ Hseg' _ _ _ _] _ _ _]; [by intros _|]. by eapply live_pdisj.
  - intros [p s] r' Hr Hr'. destruct (live_range _ _ _ _ _ _ _ Hseg Hr) as (? & ? & ? & _).
    rewrite Hend in *. simpl in *. eapply (other_disj h L false); [done|done| | |done]; simpl; hlia.
Qed.

(** The states that boot and legal calls lead to; [u] are the payloads the callers
    hold, each with the number of bytes they may use.  Sizes asked for are at most
    2^64 - 16, as for larger ones the rounding wraps ([kmalloc_wraps]). *)
Inductive reach : heap → list (Z * Z) → Prop :=
  | reach_boot h bs sz :
      head (big h) = 0 → 64 ≤ bs → bs mod 16 = 0 → 48 ≤ sz → bs + sz ≤ 2 ^ 64 →
      reach (heap_init h bs sz) []
  | reach_add_big h u bs sz :
      reach h u → head (big h) = 0 → 64 ≤ bs → bs mod 16 = 0 → 48 ≤ sz → bs + sz ≤ 2 ^ 64 →
      apart (low h) (Arena bs sz bs bs 0) →
      reach (heap_add_big h bs sz) u
  | reach_kmalloc h u n p h' :
      reach h u → 0 ≤ n ≤ 2 ^ 64 - 16 → kmalloc h n = Some (p, h') →
      reach h' (if p =? 0 then u else (p, n) :: u)
  | reach_kfree h u p n u' h' :
      reach h u → u ≡ₚ (p, n) :: u' → kfree h p = Some h' → reach h' u'
  | reach_kgrow h u p n u' n' ok h' :
      reach h u → u ≡ₚ (p, n) :: u' → 0 ≤ n' ≤ 2 ^ 64 - 16 → kgrow h p n' = Some (ok, h') →
      reach h' ((p, if ok then Z.max n n' else n) :: u').

(** The held payloads are exactly the used blocks, each within its block. *)
Definition holds (u v : list (Z * Z)) : Prop :=
  ∃ w, v ≡ₚ w ∧ Forall2 (λ r b, r.1 = b.1 ∧ r.2 ≤ b.2) u w.

Lemma holds_cons p n s u v : n ≤ s → holds u v → holds ((p, n) :: u) ((p, s) :: v).
Proof. intros Hn (w & Hw & Hu). exists ((p, s) :: w). split; [by rewrite Hw|]. by constructor. Qed.

Lemma holds_inv p n u u' v :
  u ≡ₚ (p, n) :: u' → holds u v → ∃ s v', n ≤ s ∧ v ≡ₚ (p, s) :: v' ∧ holds u' v'.
Proof.
  intros Hu (w & Hw & Huw). assert (∃ w', w ≡ₚ w' ∧ Forall2 (λ r b : Z * Z, r.1 = b.1 ∧ r.2 ≤ b.2) ((p, n) :: u') w')
    as (w' & Hww & Hu').
  { destruct (Permutation_Forall2 Hu Huw) as (w' & ? & ?). eauto. }
  inversion Hu' as [|? [q s] ? v' [Hq Hs] Hr]; subst. simpl in *. subst q.
  exists s, v'. split_and!; [done|by rewrite Hw, Hww|]. by exists v'.
Qed.

Lemma holds_pdisj u v : holds u v → pdisj v → pdisj u.
Proof.
  intros (w & Hw & Hu) Hv. eapply pdisj_perm in Hv; [|done]. clear Hw v.
  induction Hu as [|[p n] [q s] u w [Hp Hn] Hu IH]; simpl in *; [done|].
  destruct Hv as [H1 H2]. split; [|auto]. clear IH H2. subst q.
  induction Hu as [|[p' n'] [q' s'] u w [Hp' Hn'] Hu IH]; simpl in *; [done|].
  apply Forall_cons in H1 as [Hd H1]. subst q'. constructor; [|auto].
  unfold disj in *. simpl in *. lia.
Qed.

(** C1: in every state that booting the heap and any sequence of calls of
    [kmalloc], [kfree] and [kgrow] lead to, with sizes of at most 2^64 - 16 bytes
    and freeing and growing only payloads that are held, the heap is well formed,
    every held payload is one used block of at least the size asked for, no block is
    leaked, and no two held payloads overlap. *)
Theorem heap_safe h u :
  reach h u → pdisj u ∧ ∃ L, heap_ok h L ∧ holds u (allocated h L).
Proof.
  intros Hr. assert (∃ L, heap_ok h L ∧ holds u (allocated h L)) as (L & Hok & Hh).
  2: { split; [|eauto]. eapply holds_pdisj; [done|]. by apply allocated_pdisj. }
  induction Hr as [h bs sz Hz Hb Ha Hs Hf|h u bs sz Hr (L & Hok & Hh) Hz Hb Ha Hs Hf Hap
    |h u n p h' Hr (L & Hok & Hh) Hn Hm|h u p n u' h' Hr (L & Hok & Hh) Hu Hm
    |h u p n u' n' ok h' Hr (L & Hok & Hh) Hu Hn Hm].
  - exists (λ k : bool, if k then [] else [(sz - HDR, true)]). unfold heap_init.
    destruct (arena_init_wf (mem h) bs sz) as [Hw _]; [done..|].
    split; [split; simpl|].
    + intros [] Hk; [by destruct Hk|done].
    + done.
    + done.
    + exists []. by split.
  - exists (upd L true [(sz - HDR, true)]). unfold heap_add_big.
    destruct (arena_init_wf (mem h) bs sz) as [Hw Hfr]; [done..|].
    split; [split; simpl|].
    + intros [] Hk; simpl; [done|]. eapply wf_frame; [by apply (ok_wf _ _ Hok false)| |exact Hfr]. done.
    + done.
    + lia.
    + unfold allocated in *. simpl. rewrite (ok_none _ _ Hok Hz) in Hh. done.
  - destruct (kmalloc_spec h L n Hok Hn) as (p' & h'' & Heq & Hcase).
    rewrite Heq in Hm. injection Hm as -> ->.
    destruct Hcase as [(-> & -> & _)|(_ & L' & s & Hok' & Hall & Hns & _ & Hp & _)]; [eauto|].
    exists L'. split; [done|]. destruct (ok_wf _ _ Hok false) as [[? _ _ _ _ _] _ _ _]; [done|].
    simpl in *. rewrite (proj2 (Z.eqb_neq p 0)) by lia.
    destruct (holds_cons p n s _ _ Hns Hh) as (w & Hw & HF). exists w. by rewrite Hall.
  - destruct (holds_inv _ _ _ _ _ Hu Hh) as (s & v' & _ & Hv & (w & Hw & HF)).
    destruct (kfree_spec h L p s Hok) as (h'' & L' & Heq & Hok' & Hall); [rewrite Hv; by left|].
    rewrite Heq in Hm. injection Hm as ->. exists L'. split; [done|]. exists w.
    rewrite Hv in Hall. apply Permutation_cons_inv in Hall. by rewrite <- Hall.
  - destruct (holds_inv _ _ _ _ _ Hu Hh) as (s & v' & Hns & Hv & Hv').
    destruct (kgrow_spec h L p s n' Hok) as (ok' & h'' & Heq & Hcase); [rewrite Hv; by left|done|].
    rewrite Heq in Hm. injection Hm as -> ->. destruct ok.
    + destruct Hcase as (L' & s' & rest & Hok' & Hns' & Hss & Hall & Hall'). exists L'.
      split; [done|]. rewrite Hv in Hall. apply Permutation_cons_inv in Hall.
      destruct (holds_cons p (Z.max n n') s' _ _ ltac:(lia) Hv') as (w & Hw & HF).
      exists w. by rewrite Hall', <- Hall.
    + destruct Hcase as (-> & _). exists L. split; [done|].
      destruct (holds_cons p n s _ _ Hns Hv') as (w & Hw & HF). exists w. by rewrite Hv.
Qed.

(** ** File data *)

(** What [kmalloc_big] asks of the installed reclaim hook: it gives back payloads
    and keeps the heap well formed. *)
Definition reclaim_ok (f : heap → Z → heap) : Prop :=
  ∀ h L n, heap_ok h L →
    ∃ L' gone, heap_ok (f h n) L' ∧ allocated h L ≡ₚ gone ++ allocated (f h n) L'
      ∧ same_range (low h) (low (f h n)) ∧ head (big (f h n)) = head (big h).

Lemma alloc_in_some h L k n :
  heap_ok h L → 0 < n ≤ 2 ^ 64 - 16 →
  ∃ p h', alloc_in h k n = Some (p, h') ∧
    ((p = 0 ∧ h' = h)
     ∨ (p ≠ 0 ∧ active h k ∧ ∃ L' s, heap_ok h' L'
          ∧ allocated h' L' ≡ₚ (p, s) :: allocated h L ∧ n ≤ s
          ∧ base (arena_at h k) + HDR ≤ p ∧ p + s ≤ base (arena_at h k) + asize (arena_at h k)
          ∧ Forall (disj (p, s)) (allocated h L))).
Proof.
  intros Hok Hn. destruct (decide (k = true ∧ head (big h) = 0)) as [[-> Hz]|Hk].
  { exists 0, h. split; [|by left]. unfold alloc_in, arena_alloc. simpl. rewrite Hz, orb_true_r.
    simpl. by destruct h. }
  assert (active h k) as Hk' by (intros ->; naive_solver).
  destruct (alloc_in_spec h L k n Hok Hk' Hn) as
    [[-> _]|(l1 & s0 & l2 & h' & s & _ & -> & ? & ? & ? & _ & ? & ? & ? & _)];
    [exists 0, h; auto|].
  eexists _, h'. split; [done|]. right.
  destruct (ok_wf _ _ Hok k Hk') as [[? _ _ _ _ _] _ _ _].
  split; [hlia|]. split; [done|]. eexists _, s. done.
Qed.

(** The allocation handed out in [h'], starting from [h0]. *)
Definition handed (h0 : heap) (L0 : bool → list blk) (n p : Z) (h' : heap) (L' : bool → list blk)
    : Prop :=
  heap_ok h' L' ∧
  if p =? 0 then allocated h' L' ≡ₚ allocated h0 L0
  else ∃ s, n ≤ s ∧ allocated h' L' ≡ₚ (p, s) :: allocated h0 L0
            ∧ Forall (disj (p, s)) (allocated h0 L0).

Lemma alloc_handed h L k n p h' :
  heap_ok h L → 0 < n ≤ 2 ^ 64 - 16 → alloc_in h k n = Some (p, h') →
  (∃ L', handed h L n p h' L') ∧
  (p ≠ 0 → active h k ∧ base (arena_at h k) ≤ p < base (arena_at h k) + asize (arena_at h k))
  ∧ (p = 0 → h' = h).
Proof.
  intros Hok Hn Heq. destruct (alloc_in_some h L k n Hok Hn) as (p' & h'' & Heq' & Hc).
  rewrite Heq in Heq'. injection Heq' as <- <-.
  destruct Hc as [[-> ->]|(Hp & Hk & L' & s & Hok' & Hall & Hns & Hb & He & Hd)].
  - split; [|done]. exists L. split; [done|]. rewrite Z.eqb_refl. reflexivity.
  - split; [|split; [intros _; split; [done|hlia]|done]]. exists L'. split; [done|].
    rewrite (proj2 (Z.eqb_neq p 0)) by done. eauto.
Qed.

(** [kmalloc_big] keeps the heap well formed whatever a well-behaved reclaim
    hook does; it answers NULL or a payload that overlaps none of those still in
    use; and when there is a file arena, file data goes into the kernel arena only
    if more than the bytes asked for plus 24 MiB were free there. *)
Theorem kmalloc_big_sound hook h L n :
  heap_ok h L → 0 < n ≤ 2 ^ 62 → (∀ f, hook = Some f → reclaim_ok f) →
  asize (low h) < 2 ^ 62 →
  ∃ p h' h0 L0 L', kmalloc_big hook h n = Some (p, h')
    ∧ heap_ok h0 L0 ∧ (∃ gone, allocated h L ≡ₚ gone ++ allocated h0 L0)
    ∧ handed h0 L0 n p h' L'
    ∧ (p ≠ 0 → head (big h) ≠ 0 → base (low h) ≤ p < base (low h) + asize (low h) →
       n + 24 * 2 ^ 20 < asize (low h0) - used (low h0)).
Proof.
  intros Hok Hn Hhook Hsz. unfold kmalloc_big.
  assert (∃ p h1 h0 L0,
    ('(p, h1) ← alloc_in h true n;
     if (p =? 0) && nz (head (big h1))
     then match hook with Some f => alloc_in (f h1 n) true n | None => Some (p, h1) end
     else Some (p, h1)) = Some (p, h1)
    ∧ heap_ok h0 L0 ∧ (∃ gone, allocated h L ≡ₚ gone ++ allocated h0 L0)
    ∧ same_range (low h) (low h0) ∧ head (big h0) = head (big h)
    ∧ (p = 0 → h1 = h0) ∧ alloc_in h0 true n = Some (p, h1))
    as (p & h1 & h0 & L0 & H1 & Hok0 & Hgone & [Hb0 Hz0] & Hh0 & Hp0 & Hal).
  { destruct (alloc_in_some h L true n Hok ltac:(lia)) as (p & h1 & Heq & Hc). rewrite Heq.
    cbn [mbind option_bind]. destruct (decide (p = 0)) as [->|Hp].
    2: { rewrite (proj2 (Z.eqb_neq p 0)) by done. exists p, h1, h, L. split_and!; try done. by exists []. }
    destruct Hc as [[_ ->]|[? _]]; [|done]. simpl.
    destruct (nz (head (big h))); [|exists 0, h, h, L; split_and!; try done; by exists []].
    destruct hook as [f|]; [|exists 0, h, h, L; split_and!; try done; by exists []].
    destruct (Hhook f eq_refl h L n Hok) as (L' & gone & Hok' & Hg & Hsr & Hh).
    destruct (alloc_in_some (f h n) L' true n Hok' ltac:(lia)) as (p & h1 & Heq' & Hc).
    exists p, h1, (f h n), L'. split_and!; try done; [eauto|]. intros ->.
    by destruct Hc as [[_ ?]|[? _]]. }
  apply bind_Some in H1 as ([p1 h2] & -> & H1). cbn [mbind option_bind]. rewrite H1. clear H1.
  cbn [mbind option_bind]. destruct (alloc_handed h0 L0 true n p h1 Hok0 ltac:(lia) Hal) as ([L1 Hh1] & Hr1 & _).
  destruct (decide (p = 0)) as [->|Hp].
  2: { rewrite (proj2 (Z.eqb_neq p 0)) by done. simpl. exists p, h1, h0, L0, L1.
       split_and!; try done. intros _ Hbig Hlow. destruct (Hr1 Hp) as [_ Hr].
       rewrite <- Hh0 in Hbig. destruct (ok_apart _ _ Hok0 Hbig); simpl in Hr; lia. }
  specialize (Hp0 eq_refl). subst h1. simpl.
  destruct ((head (big h0) =? 0) || _) eqn:Ec.
  2: { exists 0, h0, h0, L0, L1. split_and!; done. }
  destruct (alloc_in_some h0 L0 false n Hok0 ltac:(lia)) as (p & h' & Heq & _). rewrite Heq.
  destruct (alloc_handed h0 L0 false n p h' Hok0 ltac:(lia) Heq) as ([L' Hh'] & _ & _).
  exists p, h', h0, L0, L'. split_and!; try done. intros _ Hbig _. rewrite <- Hh0 in Hbig.
  bools. destruct Ec as [Ec|Ec]; bools; [done|].
  destruct (ok_wf _ _ Hok0 false) as [[? Hseg Hend ? _ _] Hus _ _]; [done|].
  pose proof (usum_bound _ _ _ _ _ Hseg) as Hub. rewrite Hend, <- Hus in Hub.
  cbn [arena_at] in *. change (Z.shiftl 24 20) with 25165824 in *.
  rewrite !u64_small in Ec by lia. lia.
Qed.

(** ** Concrete heaps *)

(** A kernel arena of 1 KiB at 4096, and the same after one allocation of 40. *)
Definition null_arena : arena_t := Arena 0 0 0 0 0.
Definition boot : heap :=
  heap_init (mkHeap ∅ null_arena null_arena [] 0 0) 4096 1024.
Definition boot1 : heap := match kmalloc boot 40 with Some (_, h) => h | None => boot end.

Definition boot_L (k : bool) : list blk := if k then [] else [(992, true)].
Definition boot1_L (k : bool) : list blk := if k then [] else [(48, false); (912, true)].

Lemma boot_ok : heap_ok boot boot_L.
Proof.
  split; [intros [] Hk; [by destruct Hk|]|done|done].
  apply (arena_init_wf ∅ 4096 1024); [lia|done|lia|lia].
Qed.

Lemma boot1_ok : heap_ok boot1 boot1_L.
Proof.
  split; [intros [] Hk; [by destruct Hk|]|done|done].
  split; [|done|done|repeat constructor; vm_compute; discriminate].
  split; [vm_compute; discriminate| |done|vm_compute; discriminate|done|vm_compute; right; left].
  repeat (apply seg_cons; split; [done|split; [vm_compute; discriminate|split; [done|]]]). done.
Qed.

Lemma boot1_live : (4128, 48) ∈ allocated boot1 boot1_L.
Proof. vm_compute. left. Qed.

Lemma kmalloc_sound_witness :
  ∃ p h', kmalloc boot 40 = Some (p, h') ∧ p = 4128 ∧
    ((p = 0 ∧ h' = boot ∧ (40 = 0 ∨ small (ALIGN8 40) (boot_L false)))
     ∨ (40 ≠ 0 ∧ ∃ L' s, heap_ok h' L' ∧ allocated h' L' ≡ₚ (p, s) :: allocated boot boot_L
          ∧ 40 ≤ s ∧ p mod 16 = 0 ∧ base (low boot) ≤ p ∧ p + s ≤ base (low boot) + asize (low boot)
          ∧ Forall (disj (p, s)) (allocated boot boot_L))).
Proof.
  destruct (kmalloc_sound boot boot_L 40 boot_ok) as (p & h' & Heq & Hc); [lia|].
  exists p, h'. split; [exact Heq|]. split; [|exact Hc]. vm_compute in Heq. congruence.
Defined.

Lemma kfree_sound_witness :
  ∃ h' L', kfree boot1 4128 = Some h' ∧ heap_ok h' L'
    ∧ allocated boot1 boot1_L ≡ₚ (4128, 48) :: allocated h' L'.
Proof. apply (kfree_sound boot1 boot1_L 4128 48 boot1_ok boot1_live). Defined.

Lemma double_free_caught_witness :
  ∃ h', kfree boot1 4128 = Some h'
    ∧ kfree h' 4128 = Some (say_blk h' (double_free 4096)).
Proof. apply (double_free_caught boot1 boot1_L 4128 48 boot1_ok boot1_live). Defined.

Lemma kmalloc_kfree_witness :
  kmalloc boot 40 = Some (4128, boot1) ∧ ∃ h2, kfree boot1 4128 = Some h2 ∧ heap_ok h2 boot_L.
Proof.
  assert (kmalloc boot 40 = Some (4128, boot1)) as H by (vm_compute; reflexivity).
  split; [exact H|]. apply (kmalloc_kfree boot boot_L 40 4128 boot1 boot_ok); [lia|exact H|lia].
Defined.

Lemma kgrow_sound_witness :
  (∃ h', kgrow boot1 4128 100 = Some (true, h')) ∧
  ∃ ok h', kgrow boot1 4128 100 = Some (ok, h') ∧
    if ok
    then ∃ L' s' rest, heap_ok h' L' ∧ 100 ≤ s' ∧ 48 ≤ s'
           ∧ allocated boot1 boot1_L ≡ₚ (4128, 48) :: rest ∧ allocated h' L' ≡ₚ (4128, s') :: rest
    else h' = boot1 ∧ 48 < ALIGN8 100
         ∧ ∃ k l1 l2, boot1_L k = l1 ++ (48, false) :: l2
           ∧ 4128 = endof (base (arena_at boot1 k)) l1 + HDR
           ∧ ¬ ∃ s2 l3, l2 = (s2, true) :: l3 ∧ ALIGN8 100 ≤ 48 + HDR + s2.
Proof.
  split; [eexists; vm_compute; reflexivity|].
  apply (kgrow_sound boot1 boot1_L 4128 48 100 boot1_ok boot1_live). lia.
Defined.

Lemma heap_check_clean_witness :
  heap_check_locked boot1 = Some {| boot1 with nchk := nchk boot1 + 1 |}.
Proof. apply (heap_check_clean boot1 boot1_L boot1_ok). vm_compute. discriminate. Defined.

Lemma reach_boot1 : reach boot1 [(4128, 40)].
Proof.
  apply (reach_kmalloc boot [] 40 4128 boot1); [|lia|vm_compute; reflexivity].
  apply reach_boot; [done|lia|done|lia|lia].
Qed.

Lemma heap_safe_witness :
  pdisj [(4128, 40)] ∧ ∃ L, heap_ok boot1 L ∧ holds [(4128, 40)] (allocated boot1 L).
Proof. apply (heap_safe boot1 [(4128, 40)] reach_boot1). Defined.

Lemma reclaim_nothing_ok : reclaim_ok (λ h _, h).
Proof. intros h L n Hok. exists L, []. by split_and!. Qed.

Lemma kmalloc_big_sound_witness :
  ∃ p h' h0 L0 L', kmalloc_big (Some (λ h _, h)) boot 40 = Some (p, h')
    ∧ heap_ok h0 L0 ∧ (∃ gone, allocated boot boot_L ≡ₚ gone ++ allocated h0 L0)
    ∧ handed h0 L0 40 p h' L'
    ∧ (p ≠ 0 → head (big boot) ≠ 0 → base (low boot) ≤ p < base (low boot) + asize (low boot) →
       40 + 24 * 2 ^ 20 < asize (low h0) - used (low h0)).
Proof.
  apply (kmalloc_big_sound (Some (λ h _, h)) boot boot_L 40 boot_ok); [lia| |vm_compute; reflexivity].
  intros f [= <-]. apply reclaim_nothing_ok.
Defined.

(** The rounding of the size wraps: a request for the last 15 sizes below
    2^64 is rounded to 0 bytes, and [kmalloc] answers with a payload of 0 bytes
    instead of NULL. *)
Theorem kmalloc_wraps :
  ∃ h', kmalloc boot (2 ^ 64 - 1) = Some (4128, h')
    ∧ size <$> mem h' !! 4096 = Some 0 ∧ (mg <$> mem h' !! 4096) = Some MG_USED.
Proof. eexists. split; [vm_compute; reflexivity|]. by split. Qed.

(** The self test of the heap catches the double free it plants, and leaves the
    error count and the reports as they were. *)
Theorem heap_selftest_catches h L :
  heap_ok h L → (∃ l1 s l2, fits 48 (L false) l1 s l2) →
  ∃ h', heap_selftest h = Some (1, h') ∧ heap_ok h' L ∧ rep h' = rep h ∧ nerr h' = nerr h.
Proof.
  intros Hok (l1 & s & l2 & HL & Hs). unfold heap_selftest.
  assert (∃ p h1, alloc_in h false 40 = Some (p, h1) ∧ p ≠ 0) as (p & h1 & Heq & Hp).
  { destruct (alloc_in_spec h L false 40) as
      [[_ Hsm]|(k1 & t & k2 & h' & s' & _ & Heq & _ & _ & _ & _ & Hb & _)]; [done|done|lia| |].
    - unfold small in Hsm. rewrite HL in Hsm. apply Forall_app in Hsm as [_ [Hsm _]%Forall_cons].
      specialize (Hsm eq_refl). change (ALIGN8 40) with 48 in Hsm. simpl in Hsm. lia.
    - eexists _, h'. split; [exact Heq|].
      destruct (ok_wf _ _ Hok false) as [[? _ _ _ _ _] _ _ _]; [done|]. hlia. }
  rewrite Heq. cbn [mbind option_bind].
  destruct (alloc_free h L 40 p h1 Hok ltac:(lia) Heq Hp) as (h2 & Hf & Hok2 & Hf2 & Hrep & Hnerr).
  rewrite Hf. cbn [mbind option_bind]. rewrite Hf2. cbn [mbind option_bind].
  eexists. split; [simpl; rewrite Hnerr; by rewrite (proj2 (Z.ltb_lt _ _)) by lia|].
  split; [|done]. by destruct Hok2.
Qed.

Lemma heap_selftest_catches_witness :
  ∃ h', heap_selftest boot = Some (1, h') ∧ heap_ok h' boot_L ∧ rep h' = rep boot ∧ nerr h' = nerr boot.
Proof.
  apply (heap_selftest_catches boot boot_L boot_ok). exists [], 992, []. split; [done|lia].
Defined.

End Heap.
