(* ===== verification/Swap.v ===== *)
(** * Swap areas (src/src/core/swap.c)

    Up to four swap disks, each with a byte of references per page: 0 is free,
    255 the header or a bad page, 254 is sticky.  The disks behind
    [ata_drive_present], [ata_read] and [ata_drive_sectors], and whether
    [kmalloc] finds room, are parameters. *)

From S2P Require Import Prelude Refs.

Module Swap.

Definition SWAP_AREAS : Z := 4.

(** [map] is [None] when the pointer is NULL. *)
Record area_t := Area {
  on : bool; disk : Z; prio : Z; pages : Z; used : Z; next : Z;
  map : option (list Z)
}.

(** [static area_t ar[SWAP_AREAS]] *)
Abbreviation areas := (list area_t).

Definition area0 : area_t := Area false 0 0 0 0 0 None.
Definition boot : areas := replicate 4 area0.

(** The little endian word at [i] of a buffer. *)
Definition le32 (p : list Z) (i : Z) : option Z :=
  a ← p.[i]; b ← p.[i + 1]; c ← p.[i + 2]; d ← p.[i + 3];
  Some (Z.lor (Z.lor (Z.lor a (Z.shiftl b 8)) (Z.shiftl c 16)) (Z.shiftl d 24)).

Definition swap_area_of (ar : areas) (d : Z) : Z :=
  default (-1) (find_from 0 (λ s, on s && (disk s =? d)) ar).

(** "SWAPSPACE2" *)
Definition SWAPSPACE2 : list Z := [83; 87; 65; 80; 83; 80; 65; 67; 69; 50].

(** The loop that marks the [badpages] of the header. *)
Fixpoint mark_bad (hdr : list Z) (last : Z) (ks : list Z) (m : list Z) : option (list Z) :=
  match ks with
  | [] => Some m
  | i :: ks' =>
      b ← le32 hdr (1536 + i * 4);
      m ← (if nz b && (b <=? last) then m.[b <- 255] else Some m);
      mark_bad hdr last ks' m
  end.

Section disks.
Context (ata_drive_present : Z → bool).
(** [ata_read disk lba count] is the return code and the bytes read. *)
Context (ata_read : Z → Z → Z → Z * list Z).
Context (ata_drive_sectors : Z → Z).
(** Whether [kmalloc n] finds room. *)
Context (room : Z → bool).

Definition swap_on (ar : areas) (d pr : Z) : option (Z * areas) :=
  if negb (ata_drive_present d) then Some (-19, ar)
  else if 0 <=? swap_area_of ar d then Some (-16, ar)
  else
    match find_from 0 (λ s, negb (on s) && bool_decide (map s = None)) ar with
    | None => Some (-24, ar)
    | Some a =>
        let '(r, hdr) := ata_read d 0 8 in
        if r <? 0 then Some (-5, ar)
        else
          version ← le32 hdr 1024;
          if negb (bool_decide (firstn 10 (drop (Z.to_nat (4096 - 10)) hdr) = SWAPSPACE2))
             || negb (version =? 1)
          then Some (-22, ar)
          else
            last ← le32 hdr 1028;
            let dpages := u64 (ata_drive_sectors d) / 8 in
            let last := if dpages <? u32 (last + 1) then u32 (dpages - 1) else last in
            if last <? 10 then Some (-22, ar)
            else
              let n := u32 (last + 1) in
              if (n =? 0) || negb (room n) then Some (-12, ar)
              else
                m ← (replicate (Z.to_nat n) 0).[0 <- 255];
                nbad ← le32 hdr 1032;
                m ← mark_bad hdr last (upto (Z.min nbad 512)) m;
                ar ← ar.[a <- Area true d pr n 0 1 (Some m)];
                Some (0, ar)
    end.

End disks.

(** [swap_off] up to the call of [vmm_swap_drain]: the area it works on. *)
Definition swap_off_begin (ar : areas) (d : Z) : option (option Z * areas) :=
  let a := swap_area_of ar d in
  if a <? 0 then Some (None, ar)
  else s ← ar.[a]; ar ← ar.[a <- {| s with on := false |}]; Some (Some a, ar).

(** [swap_off] after [vmm_swap_drain] returned [r]. *)
Definition swap_off_end (ar : areas) (a r : Z) : option (Z * areas) :=
  s ← ar.[a];
  if r <? 0
  then ar ← ar.[a <- {| s with on := true |}]; Some (-12, ar)
  else ar ← ar.[a <- {| s with map := None |}]; Some (0, ar).

(** [drain] is [vmm_swap_drain]: it brings the pages of an area back, releasing
    their slots. *)
Definition swap_off (drain : Z → areas → option (Z * areas)) (ar : areas) (d : Z)
    : option (Z * areas) :=
  '(a, ar) ← swap_off_begin ar d;
  match a with
  | None => Some (-22, ar)
  | Some a => '(r, ar) ← drain a ar; swap_off_end ar a r
  end.

Definition swap_active (ar : areas) : Z := countb on ar.

(** The choice of the area: the loop over [i] with [best] so far. *)
Fixpoint best_area (best : option (Z * area_t)) (i : Z) (ar : areas) : option (Z * area_t) :=
  match ar with
  | [] => best
  | s :: ar' =>
      let better :=
        on s && (used s <? u32 (pages s - 1))
        && match best with None => true | Some (_, b) => prio b <? prio s end in
      best_area (if better then Some (i, s) else best) (i + 1) ar'
  end.

(** The next-fit loop over [n]: the page it stops at. *)
Fixpoint next_fit (s : area_t) (m : list Z) (ns : list Z) : option (option Z) :=
  match ns with
  | [] => Some None
  | n :: ns' =>
      let i := u32 (next s + n) mod pages s in
      x ← m.[i];
      if nz x then next_fit s m ns' else Some (Some i)
  end.

Definition swap_alloc (ar : areas) : option (Z * areas) :=
  match best_area None 0 ar with
  | None => Some (-1, ar)
  | Some (best, s) =>
      m ← map s;
      i ← next_fit s m (upto (pages s));
      match i with
      | None => Some (-1, ar)
      | Some i =>
          m ← m.[i <- 1];
          ar ← ar.[best <- {| s with map := Some m; used := u32 (used s + 1); next := u32 (i + 1) |}];
          Some (i32 (Z.lor (Z.shiftl best 28) i), ar)
      end
  end.

(** A slot id is (area << 28) | page. *)
Definition area_of (slot : Z) : Z := Z.shiftr slot 28.
Definition page_of (slot : Z) : Z := Z.land slot 0xFFFFFFF.
Arguments area_of : simpl never.
Arguments page_of : simpl never.

Definition swap_dup (ar : areas) (slot : Z) : option areas :=
  s ← ar.[area_of slot];
  let i := page_of slot in
  match map s with
  | None => Some ar
  | Some m =>
      if i <? pages s
      then
        x ← m.[i];
        if nz x && (x <? 254)
        then m ← m.[i <- u8 (x + 1)]; ar.[area_of slot <- {| s with map := Some m |}]
        else Some ar
      else Some ar
  end.

Definition swap_put (ar : areas) (slot : Z) : option areas :=
  s ← ar.[area_of slot];
  let i := page_of slot in
  match map s with
  | None => Some ar
  | Some m =>
      if i <? pages s
      then
        x ← m.[i];
        if nz x && (x <? 254)
        then
          m ← m.[i <- u8 (x - 1)];
          let s := {| s with map := Some m |} in
          ar.[area_of slot <- if u8 (x - 1) =? 0 then {| s with used := u32 (used s - 1) |} else s]
        else Some ar
      else Some ar
  end.

(** The disk, the first sector and the number of sectors of a transfer. *)
Definition swap_write (ar : areas) (slot n : Z) : option (Z * Z * Z) :=
  s ← ar.[area_of slot]; Some (disk s, u32 (page_of slot * 8), i32 (n * 8)).
Definition swap_read (ar : areas) (slot : Z) : option (Z * Z * Z) :=
  s ← ar.[area_of slot]; Some (disk s, u32 (page_of slot * 8), 8).

Fixpoint swap_total (ar : areas) : Z :=
  match ar with
  | [] => 0
  | s :: ar' => (if on s then u32 (pages s - 1) else 0) + swap_total ar'
  end.

Fixpoint swap_free (ar : areas) : Z :=
  match ar with
  | [] => 0
  | s :: ar' => (if on s then u32 (pages s - 1 - used s) else 0) + swap_free ar'
  end.

(** (size, used, prio) of an active area, sizes in kB; the disk's name aside. *)
Definition swap_info (ar : areas) (i : Z) : option (Z * Z * Z * Z) :=
  if (i <? 0) || (SWAP_AREAS <=? i) then None
  else
    s ← ar.[i];
    if on s then Some (disk s, u32 (pages s - 1) * 4, used s * 4, prio s) else None.

(** ** References and the invariant *)

(** The references a map byte stands for. *)
Definition cnt (x : Z) : Z := if x =? 255 then 0 else x.
Definition isref (x : Z) : bool := nz x && (x <? 255).

(** The references on a slot. *)
Definition refs (ar : areas) (slot : Z) : Z :=
  default 0 (s ← ar.[area_of slot]; m ← map s; x ← m.[page_of slot]; Some (cnt x)).

Record map_ok (s : area_t) (m : list Z) : Prop := {
  mo_pages : 2 ≤ pages s ≤ 2 ^ 28;
  mo_length : Z.of_nat (length m) = pages s;
  mo_bytes : Forall (λ x, 0 ≤ x ≤ 255) m;
  mo_hdr : m.[0] = Some 255;
  mo_used : used s = countb isref m;
  mo_next : 1 ≤ next s ≤ pages s
}.

Definition area_ok (s : area_t) : Prop :=
  match map s with None => on s = false | Some m => map_ok s m end.

Definition swap_inv (ar : areas) : Prop := length ar = 4%nat ∧ Forall area_ok ar.

(** ** Slot ids *)

Lemma slot_id a i :
  0 ≤ a < 4 → 0 ≤ i < 2 ^ 28 →
  let slot := i32 (Z.lor (Z.shiftl a 28) i) in
  slot = a * 2 ^ 28 + i ∧ area_of slot = a ∧ page_of slot = i ∧ 0 ≤ slot.
Proof.
  intros Ha Hi slot. assert (slot = a * 2 ^ 28 + i) as E.
  { unfold slot. rewrite lor_shiftl_add by lia. apply i32_small. lia. }
  rewrite E. unfold area_of, page_of. split_and!; [done| | |lia].
  - rewrite Z.shiftr_div_pow2 by lia. Z.div_mod_to_equations; lia.
  - change 0xFFFFFFF with (Z.ones 28). rewrite Z.land_ones by lia.
    Z.div_mod_to_equations; lia.
Qed.

Lemma page_of_range slot : 0 ≤ page_of slot < 2 ^ 28.
Proof.
  unfold page_of. change 0xFFFFFFF with (Z.ones 28). rewrite Z.land_ones by lia.
  apply Z.mod_pos_bound. lia.
Qed.

Lemma slot_eta slot : slot = area_of slot * 2 ^ 28 + page_of slot.
Proof.
  unfold area_of, page_of. change 0xFFFFFFF with (Z.ones 28).
  rewrite Z.land_ones, Z.shiftr_div_pow2 by lia. Z.div_mod_to_equations; lia.
Qed.

(** ** One byte of one map changes *)

Lemma inv_area ar a s : swap_inv ar → ar.[a] = Some s → area_ok s.
Proof. intros [_ H] [_ Hs]%arr_get_Some. by eapply Forall_lookup_1 in H. Qed.

Lemma inv_set ar a s ar' : swap_inv ar → area_ok s → ar.[a <- s] = Some ar' → swap_inv ar'.
Proof.
  intros [Hl H] Hs E. pose proof (arr_set_length _ _ _ _ E).
  apply arr_set_Some in E as [? ->]. split; [congruence|]. by apply Forall_insert.
Qed.

Lemma map_ok_set s m m' i x v nx :
  map_ok s m → m.[i] = Some x → x ≠ 255 → 0 ≤ v ≤ 254 → m.[i <- v] = Some m' →
  1 ≤ nx ≤ pages s →
  map_ok {| s with map := Some m'; used := used s - b2z (isref x) + b2z (isref v); next := nx |} m'.
Proof.
  intros H Hx ? Hv Hm Hnx. pose proof (arr_set_length _ _ _ _ Hm) as Hl.
  assert (i ≠ 0) by (intros ->; rewrite (mo_hdr _ _ H) in Hx; congruence).
  pose proof (arr_get_set _ _ _ _ 0 Hm) as Hh. rewrite decide_False in Hh by done.
  apply arr_set_Some in Hm as [_ ->]. apply arr_get_Some in Hx as [_ Hx].
  split; simpl.
  - apply (mo_pages _ _ H).
  - rewrite Hl. apply (mo_length _ _ H).
  - apply Forall_insert; [apply (mo_bytes _ _ H)|lia].
  - rewrite Hh. apply (mo_hdr _ _ H).
  - rewrite (countb_insert _ _ _ _ _ Hx), (mo_used _ _ H). done.
  - done.
Qed.

Lemma refs_set ar a s m i v m' s' ar' slot :
  ar.[a] = Some s → map s = Some m → m.[i <- v] = Some m' →
  ar.[a <- s'] = Some ar' → map s' = Some m' →
  refs ar' slot = if decide (area_of slot = a ∧ page_of slot = i) then cnt v else refs ar slot.
Proof.
  intros Hs Hm Hv E Hs'. unfold refs. rewrite (arr_get_set _ _ _ _ (area_of slot) E).
  destruct (decide (area_of slot = a)) as [Ea|].
  - cbn [mbind option_bind]. rewrite Hs'. cbn [mbind option_bind].
    rewrite (arr_get_set _ _ _ _ _ Hv).
    destruct (decide (page_of slot = i)) as [Ei|].
    + rewrite decide_True by done. done.
    + rewrite decide_False by tauto. rewrite Ea, Hs. cbn [mbind option_bind]. rewrite Hm. done.
  - rewrite decide_False by tauto. done.
Qed.

Lemma map_ok_get s m i : map_ok s m → 0 ≤ i < pages s → ∃ x, m.[i] = Some x ∧ 0 ≤ x ≤ 255.
Proof.
  intros H Hi. destruct (arr_get_is_Some m i) as [x Hx].
  { rewrite (mo_length _ _ H). lia. }
  exists x. split; [done|]. apply arr_get_Some in Hx as [_ Hx].
  pose proof (mo_bytes _ _ H) as Hb. by eapply Forall_lookup_1 in Hb.
Qed.

Lemma inv_lookup ar a : swap_inv ar → 0 ≤ a < 4 → ∃ s, ar.[a] = Some s.
Proof. intros [Hl _] Ha. apply arr_get_is_Some. rewrite Hl. lia. Qed.

Lemma area_of_range ar slot s : ar.[area_of slot] = Some s → swap_inv ar → 0 ≤ area_of slot < 4.
Proof. intros Hs [Hl _]. apply arr_get_range in Hs. rewrite Hl in Hs. lia. Qed.

(** ** swap_alloc *)

Lemma best_area_spec best i ar a s :
  best_area best i ar = Some (a, s) →
  best = Some (a, s) ∨
  (i ≤ a ∧ ar !! Z.to_nat (a - i) = Some s ∧ on s = true ∧ used s < u32 (pages s - 1)).
Proof.
  revert best i. induction ar as [|s0 ar IH]; intros best i; simpl; [by left|].
  intros H. destruct (IH _ _ H) as [E|(? & E & ? & ?)].
  - destruct (on s0 && (used s0 <? _)) eqn:Ec; simpl in E; [|by left].
    bools. destruct best as [[? b]|]; [destruct (prio b <? prio s0)|]; simplify_eq; auto;
      right; rewrite Z.sub_diag; auto with lia.
  - right. replace (Z.to_nat (a - i)) with (S (Z.to_nat (a - (i + 1)))) by lia.
    split_and!; auto; lia.
Qed.

Lemma best_area_None best i ar :
  best_area best i ar = None ↔
  best = None ∧ Forall (λ s, on s = true → u32 (pages s - 1) ≤ used s) ar.
Proof.
  revert best i. induction ar as [|s ar IH]; intros best i; simpl; [naive_solver|].
  rewrite IH, Forall_cons. destruct (on s) eqn:Eo; simpl; [|naive_solver].
  destruct (used s <? u32 (pages s - 1)) eqn:E; bools; simpl.
  - destruct best as [[? b]|]; [destruct (prio b <? prio s)|]; naive_solver lia.
  - naive_solver lia.
Qed.

(** The pages in the order of the search. *)
Definition probe (s : area_t) (n : Z) : Z := u32 (next s + n) mod pages s.

Lemma next_fit_spec s m ns :
  map_ok s m →
  ∃ o, next_fit s m ns = Some o ∧
    match o with
    | Some i => m.[i] = Some 0 ∧ 0 ≤ i < pages s
    | None => ∀ n, n ∈ ns → ∃ x, m.[probe s n] = Some x ∧ x ≠ 0
    end.
Proof.
  intros H. induction ns as [|n ns (o & IH1 & IH2)]; simpl.
  { exists None. split; [done|]. intros n Hn. by apply elem_of_nil in Hn. }
  fold (probe s n). assert (0 ≤ probe s n < pages s) as Hp.
  { apply Z.mod_pos_bound. pose proof (mo_pages _ _ H). lia. }
  destruct (map_ok_get s m _ H Hp) as (x & Hx & ?). rewrite Hx. simpl.
  destruct (nz x) eqn:E.
  - exists o. split; [done|]. destruct o; [done|]. intros k [->|Hk]%elem_of_cons; [|auto].
    exists x. by apply nz_true in E.
  - apply nz_false in E as ->. exists (Some (probe s n)). done.
Qed.

Lemma probe_surj s m i :
  map_ok s m → 0 ≤ i < pages s → ∃ n, n ∈ upto (pages s) ∧ probe s n = i.
Proof.
  intros H Hi. pose proof (mo_pages _ _ H). pose proof (mo_next _ _ H).
  exists ((i - next s) mod pages s). unfold probe, upto.
  pose proof (Z.mod_pos_bound (i - next s) (pages s)). split.
  - apply elem_of_seqZ. lia.
  - rewrite u32_small by lia.
    rewrite Z.add_mod_idemp_r by lia. replace (next s + (i - next s)) with i by lia.
    by apply Z.mod_small.
Qed.

(** What an allocation did: either nothing, or one free page got one reference. *)
Lemma swap_alloc_spec ar :
  swap_inv ar →
  ∃ r ar', swap_alloc ar = Some (r, ar') ∧ swap_inv ar' ∧
    ((r = -1 ∧ ar' = ar) ∨
     (0 ≤ r ∧ refs ar r = 0 ∧ ∀ t, refs ar' t = if decide (t = r) then 1 else refs ar t)).
Proof.
  intros Hi. unfold swap_alloc. destruct (best_area None 0 ar) as [[a s]|] eqn:Eb.
  2:{ exists (-1), ar. auto. }
  apply best_area_spec in Eb as [|(Ha & Hs & Hon & Hu)]; [done|].
  rewrite Z.sub_0_r in Hs. assert (ar.[a] = Some s) as Hs' by (by apply arr_get_Some).
  pose proof (arr_get_range _ _ _ Hs') as Hr. destruct Hi as [Hl HF]. rewrite Hl in Hr.
  assert (swap_inv ar) as Hi by done.
  pose proof (inv_area _ _ _ Hi Hs') as Hok. unfold area_ok in Hok.
  destruct (map s) as [m|] eqn:Em; [|congruence]. simpl.
  destruct (next_fit_spec s m (upto (pages s)) Hok) as (o & -> & Ho). simpl.
  destruct o as [i|]; [|by exists (-1), ar; auto]. destruct Ho as [Hx Hri].
  pose proof (mo_pages _ _ Hok). pose proof (countb_range isref m).
  pose proof (mo_used _ _ Hok). pose proof (mo_length _ _ Hok).
  destruct (set_total _ _ _ 1 Hx) as [m' Hm']. rewrite Hm'. simpl.
  set (s' := {| s with map := Some m'; used := u32 (used s + 1); next := u32 (i + 1) |}).
  destruct (set_total _ _ _ s' Hs') as [ar' Har]. rewrite Har. simpl.
  destruct (slot_id a i) as (_ & Ea & Ei & ?); [lia..|].
  set (r := i32 (Z.lor (Z.shiftl a 28) i)) in *.
  eexists r, ar'. split; [done|]. split.
  - eapply inv_set; [done| |exact Har]. unfold area_ok, s'. cbn [map].
    rewrite u32_small by (rewrite u32_small in Hu; lia). rewrite u32_small by lia.
    pose proof (map_ok_set s m m' i 0 1 (i + 1) Hok Hx ltac:(lia) ltac:(lia) Hm' ltac:(lia)) as Hn.
    cbn in Hn. by rewrite Z.sub_0_r in Hn.
  - right. split; [done|]. split.
    + unfold refs. rewrite Ea, Ei, Hs'. simpl. rewrite Em. simpl. rewrite Hx. done.
    + intros t. rewrite (refs_set _ _ _ _ _ _ _ _ _ t Hs' Em Hm' Har eq_refl).
      destruct (decide (t = r)) as [->|Hne].
      * rewrite decide_True by done. done.
      * rewrite decide_False; [done|]. intros [Ht1 Ht2]. apply Hne.
        rewrite (slot_eta t), (slot_eta r). congruence.
Qed.

(** ** swap_dup and swap_put *)

(** The byte of a slot whose area has a map, and the change of that byte. *)
Lemma slot_cell ar slot :
  swap_inv ar → 0 < refs ar slot →
  ∃ s m x, ar.[area_of slot] = Some s ∧ map s = Some m ∧ m.[page_of slot] = Some x ∧
    map_ok s m ∧ 0 < x ≤ 254 ∧ refs ar slot = x ∧ page_of slot < pages s.
Proof.
  intros Hi. unfold refs. destruct (ar.[area_of slot]) as [s|] eqn:Hs; [|simpl; lia].
  cbn [mbind option_bind]. destruct (map s) as [m|] eqn:Hm; [|simpl; lia].
  cbn [mbind option_bind]. destruct (m.[page_of slot]) as [x|] eqn:Hx; [|simpl; lia].
  cbn [mbind option_bind default]. unfold cnt. intros H. exists s, m, x.
  pose proof (inv_area _ _ _ Hi Hs) as Hok. unfold area_ok in Hok. rewrite Hm in Hok.
  pose proof (arr_get_range _ _ _ Hx) as Hr. rewrite (mo_length _ _ Hok) in Hr.
  destruct (map_ok_get _ _ _ Hok Hr) as (y & Hy & Hb). simplify_eq.
  destruct (x =? 255) eqn:E; bools; [simpl in H; lia|]. simpl in H. split_and!; auto; lia.
Qed.

(** A slot whose area is there gets the byte [v], [k] more pages in use. *)
Lemma cell_update ar slot s m x v k :
  swap_inv ar → ar.[area_of slot] = Some s → map s = Some m → m.[page_of slot] = Some x →
  x ≠ 255 → 0 ≤ v ≤ 254 → map_ok s m → k = used s - b2z (isref x) + b2z (isref v) →
  ∃ m' ar', m.[page_of slot <- v] = Some m' ∧
    ar.[area_of slot <- {| s with map := Some m'; used := k |}] = Some ar' ∧
    swap_inv ar' ∧ ∀ t, refs ar' t = if decide (t = slot) then v else refs ar t.
Proof.
  intros Hi Hs Hm Hx Hne Hv Hok ->.
  destruct (set_total _ _ _ v Hx) as [m' Hm'].
  destruct (set_total _ _ _ {| s with map := Some m'; used := used s - b2z (isref x) + b2z (isref v) |} Hs)
    as [ar' Har].
  exists m', ar'. split_and!; [done|exact Har| |].
  - eapply inv_set; [done| |exact Har]. unfold area_ok. cbn [map].
    exact (map_ok_set s m m' _ x v (next s) Hok Hx Hne Hv Hm' (mo_next _ _ Hok)).
  - intros t. rewrite (refs_set _ _ _ _ _ _ _ _ _ t Hs Hm Hm' Har eq_refl).
    destruct (decide (t = slot)) as [->|Hd].
    + rewrite decide_True by done. unfold cnt. destruct (v =? 255) eqn:E; bools; lia.
    + rewrite decide_False; [done|]. intros [H1 H2]. apply Hd.
      rewrite (slot_eta t), (slot_eta slot). congruence.
Qed.

Lemma swap_dup_spec ar slot :
  swap_inv ar → 0 < refs ar slot →
  ∃ ar', swap_dup ar slot = Some ar' ∧ swap_inv ar' ∧
    ∀ t, refs ar' t = if decide (t = slot) then raise (refs ar slot) else refs ar t.
Proof.
  intros Hi Hp. destruct (slot_cell _ _ Hi Hp) as (s & m & x & Hs & Hm & Hx & Hok & Hr & -> & Hlt).
  unfold raise, swap_dup. rewrite Hs. cbn [mbind option_bind]. rewrite Hm.
  rewrite (proj2 (Z.ltb_lt _ _) Hlt), Hx. cbn [mbind option_bind]. rewrite nz_pos by lia. simpl andb.
  destruct (x <? 254) eqn:E; bools.
  - rewrite u8_small by lia.
    destruct (cell_update ar slot s m x (x + 1) (used s) Hi Hs Hm Hx) as (m' & ar' & -> & Ha & ? & Ht);
      [lia|lia|done| |].
    { unfold isref. rewrite !nz_pos by lia. rewrite !(proj2 (Z.ltb_lt _ _)) by lia. simpl. lia. }
    cbn [mbind option_bind]. exists ar'. split; [exact Ha|]. split; [done|]. intros t. rewrite Ht.
    case_decide; lia.
  - exists ar. split_and!; [done|done|]. intros t. case_decide as Hd; [|done]. subst.
    assert (refs ar slot = x) as ->; [|lia].
    unfold refs. rewrite Hs. cbn [mbind option_bind]. rewrite Hm. cbn [mbind option_bind]. rewrite Hx.
    unfold cnt. cbn. destruct (x =? 255) eqn:E'; bools; lia.
Qed.

Lemma swap_put_spec ar slot :
  swap_inv ar → 0 < refs ar slot →
  ∃ ar', swap_put ar slot = Some ar' ∧ swap_inv ar' ∧
    ∀ t, refs ar' t = if decide (t = slot)
                      then lower (refs ar slot) else refs ar t.
Proof.
  intros Hi Hp. destruct (slot_cell _ _ Hi Hp) as (s & m & x & Hs & Hm & Hx & Hok & Hr & Hx' & Hlt).
  rewrite Hx'. unfold lower, swap_put. rewrite Hs. cbn [mbind option_bind]. rewrite Hm.
  rewrite (proj2 (Z.ltb_lt _ _) Hlt), Hx. cbn [mbind option_bind]. rewrite nz_pos by lia. simpl andb.
  destruct (x <? 254) eqn:E; bools.
  - rewrite u8_small by lia.
    pose proof (countb_range isref m). pose proof (mo_length _ _ Hok). pose proof (mo_pages _ _ Hok).
    assert (1 ≤ used s) as Hu.
    { rewrite (mo_used _ _ Hok). apply arr_get_Some in Hx as [_ Hx].
      pose proof (countb_insert isref _ _ _ 0 Hx) as Hc.
      pose proof (countb_range isref (<[Z.to_nat (page_of slot):=0]> m)).
      unfold isref in Hc at 3 4. rewrite nz_pos, (proj2 (Z.ltb_lt _ _)) in Hc by lia. simpl in Hc. lia. }
    destruct (cell_update ar slot s m x (x - 1) (if x - 1 =? 0 then u32 (used s - 1) else used s) Hi Hs Hm Hx)
      as (m' & ar' & -> & Ha & ? & Ht); [lia|lia|done| |].
    { unfold isref. rewrite (nz_pos x), !(proj2 (Z.ltb_lt _ _)) by lia. unfold nz.
      destruct (x - 1 =? 0) eqn:E1; simpl; bools; [|lia].
      rewrite u32_small; [lia|]. pose proof (mo_used _ _ Hok). lia. }
    cbn [mbind option_bind]. exists ar'. split; [|split; [done|]].
    + rewrite <- Ha. destruct (x - 1 =? 0); done.
    + intros t. rewrite Ht. case_decide; [|done]. destruct (x =? 254) eqn:E2; bools; lia.
  - exists ar. split_and!; [done|done|]. intros t. case_decide as Hd; [|done]. subst t.
    rewrite (proj2 (Z.eqb_eq x 254)) by lia. lia.
Qed.

(** ** swap_on *)

Lemma le32_spec p i a b c d :
  p.[i] = Some a → p.[i + 1] = Some b → p.[i + 2] = Some c → p.[i + 3] = Some d →
  0 ≤ a < 256 → 0 ≤ b < 256 → 0 ≤ c < 256 → 0 ≤ d < 256 →
  le32 p i = Some (a + b * 2 ^ 8 + c * 2 ^ 16 + d * 2 ^ 24).
Proof.
  intros Ha Hb Hc Hd ????. unfold le32. rewrite Ha, Hb, Hc, Hd. cbn [mbind option_bind]. f_equal.
  rewrite (Z.lor_comm a), lor_shiftl_add by lia.
  rewrite (Z.lor_comm (_ + _) (Z.shiftl c 16)), lor_shiftl_add by lia.
  rewrite (Z.lor_comm (_ + _) (Z.shiftl d 24)), lor_shiftl_add by lia. lia.
Qed.

Definition is_page (hdr : list Z) : Prop :=
  length hdr = 4096%nat ∧ Forall (λ x, 0 ≤ x < 256) hdr.

Lemma le32_total hdr i : is_page hdr → 0 ≤ i ≤ 4092 → ∃ x, le32 hdr i = Some x ∧ 0 ≤ x < 2 ^ 32.
Proof.
  intros [Hl HF] Hi.
  assert (∀ k, 0 ≤ k < 4096 → ∃ x, hdr.[k] = Some x ∧ 0 ≤ x < 256) as Hk.
  { intros k ?. destruct (arr_get_is_Some hdr k) as [x Hx]; [lia|]. exists x. split; [done|].
    apply arr_get_Some in Hx as [_ Hx]. by eapply Forall_lookup_1 in HF. }
  destruct (Hk i) as (a & ? & ?); [lia|]. destruct (Hk (i + 1)) as (b & ? & ?); [lia|].
  destruct (Hk (i + 2)) as (c & ? & ?); [lia|]. destruct (Hk (i + 3)) as (d & ? & ?); [lia|].
  eexists. split; [by apply le32_spec|]. lia.
Qed.

(** What the map of a new area looks like. *)
Record fresh_map (n : Z) (m : list Z) : Prop := {
  fm_length : Z.of_nat (length m) = n;
  fm_hdr : m.[0] = Some 255;
  fm_bytes : Forall (λ x, x = 0 ∨ x = 255) m
}.

Lemma fresh_map_set n m i :
  fresh_map n m → 0 ≤ i < n → ∃ m', m.[i <- 255] = Some m' ∧ fresh_map n m'.
Proof.
  intros H Hi. exists (<[Z.to_nat i := 255]> m). destruct H as [Hl H0 HF].
  assert (m.[i <- 255] = Some (<[Z.to_nat i := 255]> m)) as E by (apply arr_set_Some; split; [lia|done]).
  split; [done|]. split.
  - by rewrite length_insert.
  - rewrite (arr_get_set _ _ _ _ 0 E). case_decide; done.
  - apply Forall_insert; auto.
Qed.

Lemma fresh_map_init n :
  1 ≤ n → ∃ m, (replicate (Z.to_nat n) 0).[0 <- 255] = Some m ∧ fresh_map n m.
Proof.
  intros Hn. destruct (set_total (replicate (Z.to_nat n) 0) 0 0 255) as [m Hm].
  { apply arr_get_Some. split; [lia|]. apply lookup_replicate. lia. }
  exists m. split; [done|]. split.
  - rewrite (arr_set_length _ _ _ _ Hm), length_replicate. lia.
  - rewrite (arr_get_set _ _ _ _ 0 Hm). done.
  - apply arr_set_Some in Hm as [_ ->]. apply Forall_insert; [|auto]. apply Forall_replicate. auto.
Qed.

Lemma fresh_map_refs n m i :
  fresh_map n m → default 0 (x ← m.[i]; Some (cnt x)) = 0.
Proof.
  intros [_ _ HF]. destruct (m.[i]) as [x|] eqn:Hx; [|done]. apply arr_get_Some in Hx as [_ Hx].
  eapply Forall_lookup_1 in HF; [|exact Hx]. by destruct HF as [-> | ->].
Qed.

Lemma mark_bad_spec hdr last ks m :
  is_page hdr → Forall (λ i, 0 ≤ i < 512) ks → fresh_map (last + 1) m →
  ∃ m', mark_bad hdr last ks m = Some m' ∧ fresh_map (last + 1) m'.
Proof.
  intros Hp HF. revert m. induction HF as [|i ks Hi _ IH]; intros m Hm; simpl; [by exists m|].
  destruct (le32_total hdr (1536 + i * 4) Hp) as (b & -> & Hb); [lia|]. cbn [mbind option_bind].
  destruct (nz b && (b <=? last)) eqn:E; bools; [|by apply IH].
  destruct (fresh_map_set _ _ b Hm) as (m' & -> & Hm'); [lia|]. by apply IH.
Qed.

Lemma fresh_map_ok n d pr m :
  fresh_map n m → 2 ≤ n ≤ 2 ^ 28 → area_ok (Area true d pr n 0 1 (Some m)).
Proof.
  intros [Hl H0 HF] Hn. split; simpl; [done|done| |done| |lia].
  - eapply Forall_impl; [exact HF|]. simpl. lia.
  - symmetry. apply countb_none. eapply Forall_impl; [exact HF|]. simpl. by intros x [-> | ->].
Qed.

Section disk_facts.
Context (ata_drive_present : Z → bool) (ata_read : Z → Z → Z → Z * list Z).
Context (ata_drive_sectors : Z → Z) (room : Z → bool).
(** A read of 8 sectors that succeeds fills the page. *)
Hypothesis read_page : ∀ d r hdr, ata_read d 0 8 = (r, hdr) → 0 ≤ r → is_page hdr.
(** Disks of up to 1 TiB. *)
Hypothesis disk_size : ∀ d, 0 ≤ ata_drive_sectors d ≤ 2 ^ 31.

Lemma swap_on_spec ar d pr :
  swap_inv ar →
  ∃ r ar', swap_on ata_drive_present ata_read ata_drive_sectors room ar d pr = Some (r, ar') ∧
    swap_inv ar' ∧ (∀ t, refs ar' t = refs ar t) ∧ (r < 0 → ar' = ar).
Proof.
  intros Hi. unfold swap_on.
  destruct (negb _); [by exists (-19), ar|]. destruct (0 <=? _); [by exists (-16), ar|].
  destruct (find_from _ _ ar) as [a|] eqn:Ef; [|by exists (-24), ar].
  apply find_from_Some in Ef as (s & Ha & Hs & Hf). rewrite Z.sub_0_r in Hs. bools.
  apply bool_decide_eq_true in H0.
  destruct (ata_read d 0 8) as [r hdr] eqn:Er. destruct (r <? 0) eqn:E0; bools; [by exists (-5), ar|].
  pose proof (read_page _ _ _ Er E0) as Hp.
  destruct (le32_total hdr 1024 Hp) as (ver & -> & _); [lia|]. cbn [mbind option_bind].
  destruct (_ || _); [by exists (-22), ar|].
  destruct (le32_total hdr 1028 Hp) as (last & -> & Hlast); [lia|]. cbn [mbind option_bind].
  pose proof (disk_size d). rewrite (u64_small (ata_drive_sectors d)) by lia.
  set (dp := ata_drive_sectors d / 8). assert (0 ≤ dp ≤ 2 ^ 28) by (unfold dp; Z.div_mod_to_equations; lia).
  set (last' := if dp <? u32 (last + 1) then u32 (dp - 1) else last).
  destruct (last' <? 10) eqn:E1; bools; [by exists (-22), ar|].
  destruct ((u32 (last' + 1) =? 0) || _) eqn:E2; [by exists (-12), ar|]. bools.
  assert (u32 (last' + 1) = last' + 1 ∧ last' + 1 ≤ 2 ^ 28) as [En Hn].
  { unfold last' in *. destruct (dp <? u32 (last + 1)) eqn:E3; bools.
    - destruct (Z.eq_dec dp 0) as [Hz|]; [rewrite Hz in *; done|].
      rewrite (u32_small (dp - 1)) in * by lia. rewrite u32_small; lia.
    - destruct (Z.eq_dec last (2 ^ 32 - 1)) as [Hz|]; [rewrite Hz in *; done|].
      rewrite (u32_small (last + 1)) in * by lia. lia. }
  rewrite En. destruct (fresh_map_init (last' + 1)) as (m & -> & Hm); [lia|]. cbn [mbind option_bind].
  destruct (le32_total hdr 1032 Hp) as (nbad & -> & ?); [lia|]. cbn [mbind option_bind].
  destruct (mark_bad_spec hdr last' (upto (Z.min nbad 512)) m Hp) as (m' & -> & Hm'); [|done|].
  { apply Forall_forall. intros i Hu%elem_of_seqZ. lia. }
  cbn [mbind option_bind].
  assert (ar.[a] = Some s) as Hs' by (by apply arr_get_Some).
  destruct (set_total _ _ _ (Area true d pr (last' + 1) 0 1 (Some m')) Hs') as [ar' Har].
  rewrite Har. cbn [mbind option_bind]. exists 0, ar'. split_and!; [done| | |lia].
  - eapply inv_set; [done| |exact Har]. apply fresh_map_ok; [done|lia].
  - intros t. unfold refs. rewrite (arr_get_set _ _ _ _ (area_of t) Har).
    destruct (decide (area_of t = a)) as [->|]; [|done]. rewrite Hs'. cbn [mbind option_bind].
    rewrite H0. cbn [mbind option_bind default map]. apply (fresh_map_refs _ _ _ Hm').
Qed.

(** ** Runs

    The references the rest of the kernel holds (page table entries) are a list.
    A slot is released or duplicated only by a holder.  [swap_off] is the two
    steps around [vmm_swap_drain], so that anything may run in between; an area
    that is off and still has its map is one whose drain is under way, and a
    drain that succeeds has found and released every reference to the area. *)

Inductive step : areas * list Z → areas * list Z → Prop :=
  | s_on ar h d pr r ar' :
      swap_on ata_drive_present ata_read ata_drive_sectors room ar d pr = Some (r, ar') →
      step (ar, h) (ar', h)
  | s_alloc ar h r ar' :
      swap_alloc ar = Some (r, ar') → step (ar, h) (ar', if 0 <=? r then r :: h else h)
  | s_dup ar h t ar' :
      t ∈ h → swap_dup ar t = Some ar' → step (ar, h) (ar', t :: h)
  | s_put ar h t h' ar' :
      h ≡ₚ t :: h' → swap_put ar t = Some ar' → step (ar, h) (ar', h')
  | s_off_begin ar h d a ar' :
      swap_off_begin ar d = Some (a, ar') → step (ar, h) (ar', h)
  | s_off_end ar h a s r x ar' :
      ar.[a] = Some s → on s = false → map s ≠ None →
      (0 ≤ r → ∀ t, t ∈ h → area_of t ≠ a) →
      swap_off_end ar a r = Some (x, ar') → step (ar, h) (ar', h).

(** The counts of the maps are the references held. *)
Definition linked (ar : areas) (h : list Z) : Prop := swap_inv ar ∧ link (refs ar) h.

(** Only [on] of one area changes. *)
Lemma set_on_spec ar a s b ar' :
  swap_inv ar → ar.[a] = Some s → (b = true → map s ≠ None) →
  ar.[a <- {| s with on := b |}] = Some ar' →
  swap_inv ar' ∧ ∀ t, refs ar' t = refs ar t.
Proof.
  intros Hi Hs Hb Har. pose proof (inv_area _ _ _ Hi Hs) as Hok. split.
  - eapply inv_set; [done| |exact Har]. unfold area_ok in *. cbn [map on].
    destruct (map s) as [m|]; [by destruct Hok; split|]. destruct b; [|done]. by destruct Hb.
  - intros t. unfold refs. rewrite (arr_get_set _ _ _ _ (area_of t) Har).
    destruct (decide (area_of t = a)) as [->|]; [|done]. by rewrite Hs.
Qed.

Lemma step_effect ar h ar' h' :
  step (ar, h) (ar', h') → linked ar h → swap_inv ar' ∧ effect (refs ar) (refs ar') h h'.
Proof.
  intros Hst [Hi Hr].
  inversion Hst as [? ? d pr r ? Hop|? ? r ? Hop|? ? t ? Hin Hop|? ? t ? ? Hp Hop|? ? d a ? Hop
                   |? ? a s r ? ? Hs Hoff Hm Hdr Hop]; subst; clear Hst.
  - destruct (swap_on_spec ar d pr Hi) as (? & ? & ? & ? & Ht & _). simplify_eq.
    split; [done|by apply quiet].
  - destruct (swap_alloc_spec ar Hi) as (r1 & ar1 & Hop' & Hi' & Hc).
    rewrite Hop in Hop'. simplify_eq. split; [done|].
    destruct Hc as [[-> ->]|(Hge & Hz & Ht)]; [by apply quiet|].
    rewrite (proj2 (Z.leb_le _ _) Hge). apply (take _ _ h [r1]); [apply NoDup_singleton|set_solver|].
    intros u. rewrite Ht. by do 2 case_decide; try set_solver.
  - destruct (swap_dup_spec ar t Hi) as (? & ? & Hi' & Ht); [by eapply link_held|]. simplify_eq.
    split; [done|by apply dup].
  - destruct (swap_put_spec ar t Hi) as (? & ? & Hi' & Ht).
    { eapply link_held; [done|]. rewrite Hp. by left. }
    simplify_eq. split; [done|by eapply put].
  - unfold swap_off_begin in Hop. destruct (swap_area_of ar d <? 0) eqn:E; simplify_eq.
    { split; [done|by apply quiet]. }
    inv_some. destruct (set_on_spec _ _ _ false _ Hi E0 ltac:(discriminate) E1) as [? Ht].
    split; [done|by apply quiet].
  - unfold swap_off_end in Hop. rewrite Hs in Hop. cbn [mbind option_bind] in Hop.
    destruct (r <? 0) eqn:E; inv_some.
    + destruct (set_on_spec _ _ _ true _ Hi Hs (λ _, Hm) E0) as [? Ht]. split; [done|by apply quiet].
    + bools. split; [refine (inv_set _ _ _ _ Hi _ E0); exact Hoff|].
      apply (forget _ _ _ (λ u, area_of u = a)); [by apply Hdr|]. intros u. unfold refs.
      rewrite (arr_get_set _ _ _ _ (area_of u) E0). by destruct (decide (area_of u = a)).
Qed.

Lemma step_linked ar h ar' h' : step (ar, h) (ar', h') → linked ar h → linked ar' h'.
Proof.
  intros Hst Hl. destruct (step_effect _ _ _ _ Hst Hl) as [? He]. split; [done|].
  eapply effect_link; [exact He|apply Hl].
Qed.

Lemma boot_linked : linked boot [].
Proof.
  split; [split; [done|by repeat constructor]|]. intros t. right. unfold refs, boot, arr_get.
  destruct (0 <=? area_of t); [|done].
  destruct (replicate 4 area0 !! _) eqn:E; [|done]. by apply lookup_replicate in E as [-> _].
Qed.

Lemma run_linked ar h : rtc step (boot, []) (ar, h) → linked ar h.
Proof.
  intros H. remember (boot, []) as x eqn:Ex. remember (ar, h) as y eqn:Ey.
  assert (linked x.1 x.2) as Hx by (subst; apply boot_linked). clear Ex. revert ar h Ey.
  induction H as [x|x [ar1 h1] z Hst _ IH]; intros; subst; [done|].
  destruct x as [ar0 h0]. eapply IH; [|done]. by eapply step_linked.
Qed.

Lemma swap_off_begin_total ar d : is_Some (swap_off_begin ar d).
Proof.
  unfold swap_off_begin, swap_area_of. destruct (find_from _ _ ar) as [a|] eqn:Ef; [|by eexists].
  simpl. apply find_from_Some in Ef as (s & Ha & Hs & _). rewrite Z.sub_0_r in Hs.
  assert (ar.[a] = Some s) as Hs' by (by apply arr_get_Some).
  rewrite (proj2 (Z.ltb_ge a 0)) by lia. rewrite Hs'. cbn [mbind option_bind].
  destruct (set_total _ _ _ {| s with on := false |} Hs') as [ar' ->]. by eexists.
Qed.

Lemma swap_off_end_total ar a r : is_Some (ar.[a]) → is_Some (swap_off_end ar a r).
Proof.
  intros [s Hs]. unfold swap_off_end. rewrite Hs. cbn [mbind option_bind].
  destruct (r <? 0).
  - destruct (set_total _ _ _ {| s with on := true |} Hs) as [ar' ->]. by eexists.
  - destruct (set_total _ _ _ {| s with map := None |} Hs) as [ar' ->]. by eexists.
Qed.

(** C4: on disks of at most 2^31 sectors (1 TiB, where a page number still fits
    in a slot), whatever sequence of swapon, swapoff, slot allocations, duplications
    and releases runs, with releases and duplications only by holders and the drain
    of a swapoff that reports success having found every reference to its area:
    every map stays well formed (page 0 never handed out, [used] exact), a slot that
    is held keeps a reference and can be duplicated and released, an allocation
    never returns a slot that somebody still holds, a swapon that fails changes
    nothing, and every further swapon, allocation and both halves of every swapoff
    are defined. *)
Theorem swap_safe ar h :
  rtc step (boot, []) (ar, h) →
  swap_inv ar ∧ (∀ t, t ∈ h → 0 < refs ar t ∧ is_Some (swap_dup ar t) ∧ is_Some (swap_put ar t)) ∧
  (∃ r ar', swap_alloc ar = Some (r, ar') ∧ (r = -1 ∨ 0 ≤ r ∧ r ∉ h)) ∧
  (∀ d pr, ∃ r ar', swap_on ata_drive_present ata_read ata_drive_sectors room ar d pr = Some (r, ar')
     ∧ (r < 0 → ar' = ar)) ∧
  (∀ d, is_Some (swap_off_begin ar d)) ∧
  (∀ a r, is_Some (ar.[a]) → is_Some (swap_off_end ar a r)).
Proof.
  intros H%run_linked. pose proof H as [Hi Hr]. split; [done|]. split; [|split; [|split; [|split]]].
  - intros t Ht. pose proof (link_held _ _ _ Hr Ht) as Hp. split; [done|].
    destruct (swap_dup_spec ar t Hi Hp) as (? & -> & _).
    destruct (swap_put_spec ar t Hi Hp) as (? & -> & _). eauto.
  - destruct (swap_alloc_spec ar Hi) as (r & ar' & E & _ & Hc). exists r, ar'. split; [done|].
    destruct Hc as [[-> _]|(? & Hz & _)]; [by left|right]. split; [done|]. by apply (link_free _ _ _ Hr).
  - intros d pr. destruct (swap_on_spec ar d pr Hi) as (r & ar' & ? & _ & _ & ?). eauto.
  - apply swap_off_begin_total.
  - apply swap_off_end_total.
Qed.

End disk_facts.

(** A swap header for 20 pages, page 5 of them bad. *)
Definition hdr20 : list Z :=
  replicate 1024 0 ++ [1; 0; 0; 0] ++ [19; 0; 0; 0] ++ [1; 0; 0; 0] ++ replicate 500 0
  ++ [5; 0; 0; 0] ++ replicate 2546 0 ++ SWAPSPACE2.

Lemma hdr20_page d r hdr : (λ _ _ _ : Z, (8, hdr20)) d 0 8 = (r, hdr) → 0 ≤ r → is_page hdr.
Proof. intros [= <- <-] _. split; [reflexivity|]. apply bytes_decided. vm_compute. reflexivity. Qed.

Lemma swap_safe_witness :
  let on := swap_on (λ _, true) (λ _ _ _, (8, hdr20)) (λ _, 400) (λ _, true) in
  ∃ ar, on boot 3 7 ≫= (λ '(_, ar), swap_alloc ar) = Some (1, ar) ∧ swap_inv ar.
Proof.
  intros on. eexists. split; [vm_compute; reflexivity|].
  apply (swap_safe (λ _, true) (λ _ _ _, (8, hdr20)) (λ _, 400) (λ _, true) hdr20_page
            ltac:(intros; lia) _ [1]).
  eapply rtc_l; [eapply (s_on _ _ _ _ boot [] 3 7); vm_compute; reflexivity|].
  eapply rtc_l; [eapply s_alloc; vm_compute; reflexivity|]. apply rtc_refl.
Defined.

(** ** When the areas are full *)

(** No page but the header is marked bad. *)
Definition no_bad (ar : areas) : Prop :=
  Forall (λ s, ∀ m, map s = Some m → countb (Z.eqb 255) m = 1) ar.

Definition free_pages (s : area_t) : Z :=
  match map s with Some m => countb (Z.eqb 0) m | None => 0 end.

Fixpoint total_free (ar : areas) : Z :=
  match ar with [] => 0 | s :: ar' => (if on s then free_pages s else 0) + total_free ar' end.

Lemma bytes_split m :
  Forall (λ x, 0 ≤ x ≤ 255) m →
  countb (Z.eqb 0) m + countb isref m + countb (Z.eqb 255) m = Z.of_nat (length m).
Proof.
  induction 1 as [|x m Hx _ IH]; [done|]. cbn [countb length].
  assert (b2z (0 =? x) + b2z (isref x) + b2z (255 =? x) = 1); [|lia].
  unfold isref, nz. destruct (0 =? x) eqn:E0, (x =? 0) eqn:E1, (x <? 255) eqn:E2, (255 =? x) eqn:E3;
    bools; simpl; lia.
Qed.

(** Without bad pages an active area has as many free pages as [used] leaves. *)
Lemma free_pages_exact s :
  area_ok s → (∀ m, map s = Some m → countb (Z.eqb 255) m = 1) → on s = true →
  free_pages s = u32 (pages s - 1 - used s) ∧ free_pages s = u32 (pages s - 1) - used s ∧ 0 ≤ free_pages s.
Proof.
  intros Hs Hb Ho. unfold area_ok in Hs. unfold free_pages.
  destruct (map s) as [m|] eqn:Em; [|congruence]. pose proof (Hb m eq_refl) as Hbm.
  destruct Hs as [? Hl Hby _ Hu _]. pose proof (bytes_split _ Hby).
  pose proof (countb_range (Z.eqb 0) m). pose proof (countb_range isref m).
  rewrite !u32_small; lia.
Qed.

Lemma swap_free_exact ar : swap_inv ar → no_bad ar → swap_free ar = total_free ar.
Proof.
  intros [_ HF] HB. induction HF as [|s ar Hs HF IH]; [done|]. apply Forall_cons in HB as [Hb HB].
  simpl. rewrite IH by done. f_equal. destruct (on s) eqn:Eo; [|done].
  by destruct (free_pages_exact s Hs Hb Eo) as [-> _].
Qed.

Lemma best_none_full ar :
  swap_inv ar → no_bad ar → (best_area None 0 ar = None ↔ total_free ar = 0).
Proof.
  intros [_ HF] HB. rewrite best_area_None.
  assert (0 ≤ total_free ar ∧
          (Forall (λ s, on s = true → u32 (pages s - 1) ≤ used s) ar ↔ total_free ar = 0)); [|naive_solver].
  induction HF as [|s ar Hs HF IH]; [by simpl|]. apply Forall_cons in HB as [Hb HB].
  destruct (IH HB) as [? Hiff]. rewrite Forall_cons, Hiff. simpl. destruct (on s) eqn:Eo.
  - destruct (free_pages_exact s Hs Hb Eo) as (_ & -> & ?). intuition lia.
  - split; [lia|]. rewrite Z.add_0_l. naive_solver.
Qed.

(** The search over a map with a free page finds one. *)
Lemma next_fit_finds s m :
  map_ok s m → 0 < countb (Z.eqb 0) m → ∃ i, next_fit s m (upto (pages s)) = Some (Some i) ∧ 0 ≤ i < pages s.
Proof.
  intros Hok Hc. destruct (next_fit_spec s m (upto (pages s)) Hok) as ([i|] & E & H).
  { exists i. by destruct H. }
  exfalso. assert (countb (Z.eqb 0) m = 0); [|lia]. apply countb_none, Forall_lookup.
  intros k x Hk. pose proof (lookup_lt_Some _ _ _ Hk). pose proof (mo_length _ _ Hok).
  destruct (probe_surj s m (Z.of_nat k) Hok) as (n & Hn & Hp); [lia|].
  destruct (H n Hn) as (y & Hy & ?). rewrite Hp in Hy. apply arr_get_Some in Hy as [_ Hy].
  rewrite Nat2Z.id in Hy. simplify_eq. apply Z.eqb_neq. lia.
Qed.

(** When no area has bad pages, [swap_free] counts exactly the free pages of
    the active areas, and [swap_alloc] answers -1 just when there is none. *)
Theorem swap_alloc_full ar r ar' :
  swap_inv ar → no_bad ar → swap_alloc ar = Some (r, ar') →
  swap_free ar = total_free ar ∧ (r = -1 ↔ swap_free ar = 0).
Proof.
  intros Hi HB E. split; [by apply swap_free_exact|]. rewrite swap_free_exact by done.
  rewrite <- best_none_full by done. pose proof E as E0. unfold swap_alloc in E.
  destruct (best_area None 0 ar) as [[a s]|] eqn:Eb; [|naive_solver].
  apply best_area_spec in Eb as [|(Ha & Hs & Hon & Hu)]; [done|]. rewrite Z.sub_0_r in Hs.
  pose proof (proj1 (Forall_lookup _ _) (proj2 Hi) _ _ Hs) as Hok.
  pose proof (proj1 (Forall_lookup _ _) HB _ _ Hs) as Hb. simpl in Hb.
  destruct (free_pages_exact s Hok Hb Hon) as (_ & Hf & _). unfold free_pages in Hf.
  unfold area_ok in Hok. destruct (map s) as [m|] eqn:Em; [|congruence].
  destruct (next_fit_finds s m Hok) as (i & Hn & Hri); [lia|]. simpl in E. rewrite Hn in E.
  cbn [mbind option_bind] in E. inv_some. pose proof (lookup_lt_Some _ _ _ Hs). destruct Hi as [Hl _].
  pose proof (mo_pages _ _ Hok). destruct (slot_id a i) as (_ & _ & _ & Hge); [lia|lia|].
  cbv zeta in Hge. split; [|done]. intros Hm. rewrite Hm in Hge. lia.
Qed.

(** Two areas of three and four pages, the first full and the second with room. *)
Definition two_areas (bad : Z) : areas :=
  [Area true 0 5 3 (if bad =? 255 then 1 else 2) 3 (Some [255; 1; bad]);
   Area true 1 2 4 0 1 (Some [255; 0; 0; 0]); area0; area0].

Lemma two_areas_inv bad : bad = 1 ∨ bad = 255 → swap_inv (two_areas bad).
Proof. intros [-> | ->]; (split; [done|]); repeat constructor; simpl; done || lia. Qed.

Lemma swap_alloc_full_witness : ∃ r ar', swap_alloc (two_areas 1) = Some (r, ar') ∧ r ≠ -1.
Proof.
  do 2 eexists. split; [vm_compute; reflexivity|].
  intros H. apply (swap_alloc_full (two_areas 1) _ _ (two_areas_inv 1 ltac:(auto))
    ltac:(repeat constructor; intros ? [= <-]; reflexivity) eq_refl) in H. vm_compute in H. discriminate.
Defined.

(** Bad pages are not counted as used, so an area whose good pages are all
    taken still looks to have room: here the area of the highest priority has one
    good page, taken, and one bad page, and [swap_alloc] answers -1 although
    three pages of the other area are free, and [swap_free] counts the bad page. *)
Theorem swap_alloc_bad_pages :
  swap_inv (two_areas 255) ∧ swap_alloc (two_areas 255) = Some (-1, two_areas 255) ∧
  total_free (two_areas 255) = 3 ∧ swap_free (two_areas 255) = 4.
Proof. split; [apply two_areas_inv; auto|]. vm_compute. done. Qed.

End Swap.
