(* ===== verification/Pmm.v ===== *)
(** * The physical frame pool (src/src/core/vmm.c, first part)

    One byte of references per frame of RAM: 0 is free, 255 not ours (kernel,
    holes, devices), 254 sticky.  [ram] is what the frames hold, 512 words of 64
    bits each, seen through the direct map ([P2V]). *)

From S2P Require Import Prelude Refs.

Module Pmm.

Definition PAGE_SIZE : Z := 4096.
Definition zero_page : list Z := replicate 512 0.

Record pmm := mkPmm {
  refcnt : list Z; max_pfn : Z; pool_frames : Z; pool_free : Z; hint : Z;
  ram : gmap Z (list Z)
}.

(** [room] says whether [kmalloc] finds [max_pfn] bytes; filling NULL is
    undefined behaviour. *)
Definition pmm_init (room : bool) (m : gmap Z (list Z)) (top : Z) : option pmm :=
  let max_pfn := Z.shiftr top 12 in
  if room then Some (mkPmm (replicate (Z.to_nat max_pfn) 255) max_pfn 0 0 0 m) else None.

(** The loop of [pmm_add]; every turn moves [a] up by a page. *)
Fixpoint add_loop (fuel : nat) (p : pmm) (a e : Z) : option pmm :=
  match fuel with
  | O => Some p
  | S fuel =>
      if (a <? e) && (Z.shiftr a 12 <? max_pfn p)
      then
        rc ← (refcnt p).[Z.shiftr a 12 <- 0];
        add_loop fuel {| p with refcnt := rc; pool_frames := u64 (pool_frames p + 1);
                                pool_free := u64 (pool_free p + 1) |} (a + PAGE_SIZE) e
      else Some p
  end.

Definition pmm_add (p : pmm) (start e : Z) : option pmm :=
  let start := Z.ldiff (u64 (start + PAGE_SIZE - 1)) 4095 in
  let e := Z.ldiff e 4095 in
  add_loop (Z.to_nat (e - start)) p start e.

Definition pmm_free_frames (p : pmm) : Z := pool_free p.
Definition pmm_total_frames (p : pmm) : Z := pool_frames p.

(** The search loop of [pmm_alloc]: the free frame number it stops at. *)
Fixpoint scan (p : pmm) (ns : list Z) : option (option Z) :=
  match ns with
  | [] => Some None
  | n :: ns' =>
      let i := u64 (hint p + n) mod max_pfn p in
      x ← (refcnt p).[i];
      if nz x then scan p ns' else Some (Some i)
  end.

Definition pmm_alloc (p : pmm) : option (Z * pmm) :=
  i ← scan p (upto (max_pfn p));
  match i with
  | None => Some (0, p)
  | Some i =>
      rc ← (refcnt p).[i <- 1];
      let frame := u64 (Z.shiftl i 12) in
      let p := {| p with refcnt := rc; pool_free := u64 (pool_free p - 1); hint := u64 (i + 1) |} in
      Some (frame, if nz frame then {| p with ram := <[frame := zero_page]> (ram p) |} else p)
  end.

(** The search of [pmm_alloc_run] over the bytes from frame [i] on: where the
    first run of [n] free frames starts. *)
Fixpoint run_scan (rc : list Z) (n i run : Z) : option Z :=
  match rc with
  | [] => None
  | x :: rc' =>
      let run := if nz x then 0 else run + 1 in
      if run <? n then run_scan rc' n (i + 1) run else Some (u64 (i + 1 - n))
  end.

(** [for (k = 0; k < n; k++) refcnt[s + k] = 1] *)
Fixpoint fill (rc : list Z) (s : Z) (ks : list Z) : option (list Z) :=
  match ks with
  | [] => Some rc
  | k :: ks' => rc ← rc.[s + k <- 1]; fill rc s ks'
  end.

(** [memset(P2V(base), 0, n * PAGE_SIZE)] *)
Definition zero_frames (m : gmap Z (list Z)) (base n : Z) : gmap Z (list Z) :=
  foldr (λ k m, <[base + k * PAGE_SIZE := zero_page]> m) m (upto n).

Definition pmm_alloc_run (p : pmm) (n : Z) : option (Z * pmm) :=
  match run_scan (refcnt p) n 0 0 with
  | None => Some (0, p)
  | Some s =>
      rc ← fill (refcnt p) s (upto n);
      let base := u64 (Z.shiftl s 12) in
      let p := {| p with refcnt := rc; pool_free := u64 (pool_free p - n) |} in
      Some (base, if nz base then {| p with ram := zero_frames (ram p) base n |} else p)
  end.

Definition ours (p : pmm) (frame : Z) : option bool :=
  let i := Z.shiftr frame 12 in
  if i <? max_pfn p then x ← (refcnt p).[i]; Some (negb (x =? 255)) else Some false.

Definition pmm_refcnt (p : pmm) (frame : Z) : option Z :=
  o ← ours p frame; if o : bool then (refcnt p).[Z.shiftr frame 12] else Some 0.

Definition pmm_ref (p : pmm) (frame : Z) : option pmm :=
  o ← ours p frame;
  if o : bool
  then
    x ← (refcnt p).[Z.shiftr frame 12];
    if x <? 254
    then rc ← (refcnt p).[Z.shiftr frame 12 <- u8 (x + 1)]; Some {| p with refcnt := rc |}
    else Some p
  else Some p.

Definition pmm_unref (p : pmm) (frame : Z) : option pmm :=
  o ← ours p frame;
  if o : bool
  then
    x ← (refcnt p).[Z.shiftr frame 12];
    if nz x && negb (x =? 254)
    then
      rc ← (refcnt p).[Z.shiftr frame 12 <- u8 (x - 1)];
      let p := {| p with refcnt := rc |} in
      Some (if u8 (x - 1) =? 0 then {| p with pool_free := u64 (pool_free p + 1) |} else p)
    else Some p
  else Some p.

(** ** References and the invariant *)

Definition cnt (x : Z) : Z := if x =? 255 then 0 else x.
Definition mine (x : Z) : bool := x <? 255.

(** A frame is named by its address; only page addresses name frames. *)
Definition refs (p : pmm) (frame : Z) : Z :=
  if frame mod PAGE_SIZE =? 0 then default 0 (cnt <$> (refcnt p).[Z.shiftr frame 12]) else 0.

Record pool_inv (p : pmm) : Prop := {
  pi_max : 0 ≤ max_pfn p ≤ 2 ^ 40;
  pi_length : Z.of_nat (length (refcnt p)) = max_pfn p;
  pi_bytes : Forall (λ x, 0 ≤ x ≤ 255) (refcnt p);
  pi_zero : ∀ x, (refcnt p).[0] = Some x → x = 255;
  pi_free : pool_free p = countb (Z.eqb 0) (refcnt p);
  pi_frames : pool_frames p = countb mine (refcnt p);
  pi_hint : 0 ≤ hint p ≤ max_pfn p
}.

Lemma frame_eta frame : frame mod PAGE_SIZE = 0 → frame = Z.shiftl (Z.shiftr frame 12) 12.
Proof.
  unfold PAGE_SIZE. rewrite Z.shiftl_mul_pow2, Z.shiftr_div_pow2 by lia. intros.
  Z.div_mod_to_equations; lia.
Qed.

Lemma frame_of i : 0 ≤ i < 2 ^ 52 →
  u64 (Z.shiftl i 12) = i * 4096 ∧ Z.shiftr (i * 4096) 12 = i ∧ (i * 4096) mod PAGE_SIZE = 0.
Proof.
  intros Hi. unfold PAGE_SIZE. rewrite Z.shiftl_mul_pow2, Z.shiftr_div_pow2 by lia.
  rewrite u64_small by lia. split_and!; [done| |]; Z.div_mod_to_equations; lia.
Qed.

Lemma byte_at p i : pool_inv p → 0 ≤ i < max_pfn p → ∃ x, (refcnt p).[i] = Some x ∧ 0 ≤ x ≤ 255.
Proof.
  intros H Hi. destruct (arr_get_is_Some (refcnt p) i) as [x Hx].
  { rewrite (pi_length _ H). lia. }
  exists x. split; [done|]. apply arr_get_Some in Hx as [_ Hx].
  pose proof (pi_bytes _ H) as Hb. by eapply Forall_lookup_1 in Hb.
Qed.

(** ** One byte changes *)

Lemma count_set rc p i v p' u :
  (refcnt p).[i <- v] = Some rc → refcnt p' = rc →
  refs p' u = if decide (u mod PAGE_SIZE = 0 ∧ Z.shiftr u 12 = i) then cnt v else refs p u.
Proof.
  intros Hs <-. unfold refs. rewrite (arr_get_set _ _ _ _ (Z.shiftr u 12) Hs).
  destruct (u mod PAGE_SIZE =? 0) eqn:E; bools.
  - destruct (decide (Z.shiftr u 12 = i)); [rewrite decide_True by done|rewrite decide_False by tauto]; done.
  - rewrite decide_False by tauto. done.
Qed.

Lemma pool_set p i x v rc h f m :
  pool_inv p → (refcnt p).[i] = Some x → x ≠ 255 → 0 ≤ v ≤ 254 → (refcnt p).[i <- v] = Some rc →
  0 ≤ h ≤ max_pfn p → f = pool_free p - b2z (0 =? x) + b2z (0 =? v) →
  pool_inv (mkPmm rc (max_pfn p) (pool_frames p) f h m).
Proof.
  intros H Hx Hne Hv Hs Hh ->. pose proof (arr_set_length _ _ _ _ Hs) as Hl.
  assert (i ≠ 0) by (intros ->; apply Hne, (pi_zero _ H _ Hx)).
  pose proof (arr_get_set _ _ _ _ 0 Hs) as Hz. rewrite decide_False in Hz by done.
  apply arr_set_Some in Hs as [_ ->]. apply arr_get_Some in Hx as [_ Hx]. split; simpl.
  - apply (pi_max _ H).
  - rewrite Hl. apply (pi_length _ H).
  - apply Forall_insert; [apply (pi_bytes _ H)|lia].
  - rewrite Hz. apply (pi_zero _ H).
  - rewrite (countb_insert _ _ _ _ _ Hx), (pi_free _ H). done.
  - rewrite (countb_insert _ _ _ _ _ Hx), (pi_frames _ H).
    assert (0 ≤ x ≤ 255) by (pose proof (pi_bytes _ H) as Hb; by eapply Forall_lookup_1 in Hb).
    unfold mine. rewrite !(proj2 (Z.ltb_lt _ _)) by lia. simpl. lia.
  - done.
Qed.

(** ** pmm_alloc *)

Lemma scan_spec p ns :
  pool_inv p →
  (ns = [] ∨ 0 < max_pfn p) →
  ∃ o, scan p ns = Some o ∧
    match o with
    | Some i => (refcnt p).[i] = Some 0 ∧ 0 ≤ i < max_pfn p
    | None => ∀ n, n ∈ ns → ∃ x, (refcnt p).[u64 (hint p + n) mod max_pfn p] = Some x ∧ x ≠ 0
    end.
Proof.
  intros H Hpos. induction ns as [|n ns IH].
  { exists None. split; [done|]. intros n Hn. by apply elem_of_nil in Hn. }
  destruct Hpos as [|Hpos]; [done|]. destruct (IH (or_intror Hpos)) as (o & IH1 & IH2).
  cbn [scan]. pose proof (Z.mod_pos_bound (u64 (hint p + n)) (max_pfn p) Hpos) as Hp.
  destruct (byte_at p _ H Hp) as (x & Hx & ?). rewrite Hx. cbn [mbind option_bind].
  destruct (nz x) eqn:E.
  - exists o. split; [done|]. destruct o; [done|]. intros k [->|Hk]%elem_of_cons; [|auto].
    exists x. by apply nz_true in E.
  - apply nz_false in E as ->. by eexists (Some _).
Qed.

Lemma scan_none_full p :
  pool_inv p → scan p (upto (max_pfn p)) = Some None → pool_free p = 0.
Proof.
  intros H E. rewrite (pi_free _ H). apply countb_none, Forall_lookup. intros k x Hk.
  pose proof (lookup_lt_Some _ _ _ Hk). pose proof (pi_length _ H). pose proof (pi_max _ H).
  pose proof (pi_hint _ H). destruct (scan_spec p (upto (max_pfn p)) H) as (o & E' & Ho); [lia|].
  rewrite E in E'. simplify_eq.
  pose proof (Z.mod_pos_bound (Z.of_nat k - hint p) (max_pfn p)).
  destruct (Ho ((Z.of_nat k - hint p) mod max_pfn p)) as (y & Hy & ?); [apply elem_of_seqZ; lia|].
  rewrite u64_small, Z.add_mod_idemp_r in Hy by lia.
  replace (hint p + (Z.of_nat k - hint p)) with (Z.of_nat k) in Hy by lia.
  rewrite Z.mod_small in Hy by lia. apply arr_get_Some in Hy as [_ Hy].
  rewrite Nat2Z.id in Hy. simplify_eq. apply Z.eqb_neq. lia.
Qed.

Lemma free_pos p i : pool_inv p → (refcnt p).[i] = Some 0 → 1 ≤ pool_free p ≤ 2 ^ 40.
Proof.
  intros H [_ Hx]%arr_get_Some. rewrite (pi_free _ H).
  pose proof (countb_range (Z.eqb 0) (refcnt p)). pose proof (pi_length _ H). pose proof (pi_max _ H).
  pose proof (countb_elem (Z.eqb 0) (refcnt p) 0 (list_elem_of_lookup_2 _ _ _ Hx) eq_refl). lia.
Qed.

(** The frame number of a frame that is counted or free. *)
Lemma pfn_pos p i x : pool_inv p → (refcnt p).[i] = Some x → x ≠ 255 → 0 < i < max_pfn p.
Proof.
  intros H Hx Hne. pose proof (arr_get_range _ _ _ Hx). pose proof (pi_length _ H).
  destruct (decide (i = 0)) as [->|]; [|lia]. by destruct (Hne (pi_zero _ H _ Hx)).
Qed.

Lemma pmm_alloc_spec p :
  pool_inv p →
  ∃ fr p', pmm_alloc p = Some (fr, p') ∧ pool_inv p' ∧
    ((fr = 0 ∧ p' = p ∧ pool_free p = 0) ∨
     (0 < fr ∧ fr mod PAGE_SIZE = 0 ∧ Z.shiftr fr 12 < max_pfn p ∧ refs p fr = 0 ∧
      (refcnt p).[Z.shiftr fr 12] = Some 0 ∧
      ram p' = <[fr := zero_page]> (ram p) ∧ pool_free p' = pool_free p - 1 ∧
      pool_frames p' = pool_frames p ∧ max_pfn p' = max_pfn p ∧
      refcnt p' = <[Z.to_nat (Z.shiftr fr 12) := 1]> (refcnt p) ∧
      ∀ u, refs p' u = if decide (u = fr) then 1 else refs p u)).
Proof.
  intros H. unfold pmm_alloc. pose proof (pi_max _ H). pose proof (pi_hint _ H).
  destruct (scan_spec p (upto (max_pfn p)) H) as (o & E & Ho).
  { destruct (decide (max_pfn p = 0)) as [->|]; [by left|right; lia]. }
  rewrite E. cbn [mbind option_bind]. destruct o as [i|].
  2:{ exists 0, p. split_and!; [done|done|]. left. split_and!; [done|done|]. by apply scan_none_full. }
  destruct Ho as [Hx Hi]. destruct (set_total _ _ _ 1 Hx) as [rc Hs]. rewrite Hs. cbn [mbind option_bind].
  pose proof (pfn_pos _ _ _ H Hx ltac:(lia)). pose proof (free_pos _ _ H Hx).
  destruct (frame_of i) as (-> & Ei & Em); [lia|]. rewrite nz_pos by lia. cbn [ram].
  eexists _, _. split; [done|]. rewrite !u64_small by lia. split.
  - cbn. apply (pool_set p i 0 1); [done|exact Hx|lia|lia|exact Hs|lia|simpl; lia].
  - right. cbn [ram pool_free pool_frames max_pfn refcnt]. rewrite Ei. split_and!; try done; try lia.
    + unfold refs. rewrite Ei, Hx, Em. done.
    + by apply arr_set_Some in Hs as [_ ->].
    + intros u. rewrite (count_set rc p i 1 _ u Hs) by done. destruct (decide (u = i * 4096)) as [->|Hu].
      * rewrite decide_True by done. done.
      * rewrite decide_False; [done|]. intros [Hm Hsh]. apply Hu. rewrite (frame_eta _ Hm), Hsh.
        rewrite Z.shiftl_mul_pow2 by lia. lia.
Qed.

(** ** pmm_ref and pmm_unref *)

Lemma frame_cell p fr :
  pool_inv p → 0 < refs p fr →
  ∃ x, (refcnt p).[Z.shiftr fr 12] = Some x ∧ 0 < x ≤ 254 ∧ refs p fr = x ∧
    fr mod PAGE_SIZE = 0 ∧ ours p fr = Some true.
Proof.
  intros H. unfold refs. destruct (fr mod PAGE_SIZE =? 0) eqn:Em; [|lia]. bools.
  destruct ((refcnt p).[Z.shiftr fr 12]) as [x|] eqn:Hx; [|simpl; lia].
  cbn. intros Hc. pose proof (arr_get_range _ _ _ Hx) as Hr. rewrite (pi_length _ H) in Hr.
  destruct (byte_at _ _ H Hr) as (y & Hy & ?). simplify_eq. exists x. unfold cnt in *.
  destruct (x =? 255) eqn:E; [lia|]. bools. split_and!; try done; try lia.
  unfold ours. rewrite (proj2 (Z.ltb_lt _ _)), Hx by lia. cbn. by rewrite (proj2 (Z.eqb_neq _ _)).
Qed.

Lemma refs_set_frame rc p fr v p' :
  (refcnt p).[Z.shiftr fr 12 <- v] = Some rc → fr mod PAGE_SIZE = 0 → refcnt p' = rc → v ≠ 255 →
  ∀ u, refs p' u = if decide (u = fr) then v else refs p u.
Proof.
  intros Hs Hm Hp Hv u. rewrite (count_set rc p _ v p' u Hs Hp). unfold cnt.
  rewrite (proj2 (Z.eqb_neq _ _)) by done. destruct (decide (u = fr)) as [->|Hu].
  - by rewrite decide_True.
  - rewrite decide_False; [done|]. intros [Hm' Hsh]. apply Hu.
    by rewrite (frame_eta _ Hm), (frame_eta _ Hm'), Hsh.
Qed.

Lemma pmm_ref_spec p fr :
  pool_inv p → 0 < refs p fr →
  ∃ p', pmm_ref p fr = Some p' ∧ pool_inv p' ∧ ram p' = ram p ∧
    ∀ u, refs p' u = if decide (u = fr) then raise (refs p fr) else refs p u.
Proof.
  intros H Hp. destruct (frame_cell _ _ H Hp) as (x & Hx & Hr & Ex & Hm & Ho).
  unfold pmm_ref. rewrite Ho. cbn [mbind option_bind]. rewrite Hx. cbn [mbind option_bind].
  unfold raise. rewrite Ex. destruct (x <? 254) eqn:E; bools.
  - rewrite u8_small by lia. destruct (set_total _ _ _ (x + 1) Hx) as [rc Hs]. rewrite Hs.
    cbn [mbind option_bind]. eexists. split; [done|]. split; [|split; [done|]].
    + eapply pool_set; [done|exact Hx|lia| |exact Hs|apply (pi_hint _ H)|]; [lia|].
      rewrite !(proj2 (Z.eqb_neq _ _)) by lia. simpl. lia.
    + rewrite Z.min_r by lia. by eapply refs_set_frame; [exact Hs|..]; [|done|lia].
  - exists p. split_and!; [done|done|done|]. intros u. case_decide; subst; lia.
Qed.

Lemma pmm_unref_spec p fr :
  pool_inv p → 0 < refs p fr →
  ∃ p', pmm_unref p fr = Some p' ∧ pool_inv p' ∧ ram p' = ram p ∧
    ∀ u, refs p' u = if decide (u = fr) then lower (refs p fr) else refs p u.
Proof.
  intros H Hp. destruct (frame_cell _ _ H Hp) as (x & Hx & Hr & Ex & Hm & Ho).
  unfold pmm_unref. rewrite Ho. cbn [mbind option_bind]. rewrite Hx. cbn [mbind option_bind].
  unfold lower. rewrite Ex, nz_pos by lia. destruct (x =? 254) eqn:E; cbn [negb andb]; bools.
  - exists p. split_and!; [done|done|done|]. intros u. case_decide; subst; lia.
  - rewrite u8_small by lia. destruct (set_total _ _ _ (x - 1) Hx) as [rc Hs]. rewrite Hs.
    cbn [mbind option_bind]. pose proof (countb_range (Z.eqb 0) (refcnt p)). pose proof (pi_length _ H).
    pose proof (pi_max _ H). pose proof (pi_free _ H).
    destruct (x - 1 =? 0) eqn:E1; bools; (eexists; split; [done|]; split; [|split; [done|]]).
    + apply (pool_set p (Z.shiftr fr 12) x (x - 1)); [done|exact Hx|lia|lia|exact Hs|apply (pi_hint _ H)|].
      cbn [pool_free].
      rewrite u64_small by lia. rewrite (proj2 (Z.eqb_neq _ _)), (proj2 (Z.eqb_eq _ _)) by lia. simpl. lia.
    + by eapply refs_set_frame; [exact Hs|..]; [|done|lia].
    + apply (pool_set p (Z.shiftr fr 12) x (x - 1)); [done|exact Hx|lia|lia|exact Hs|apply (pi_hint _ H)|].
      cbn [pool_free].
      rewrite !(proj2 (Z.eqb_neq _ _)) by lia. simpl. lia.
    + by eapply refs_set_frame; [exact Hs|..]; [|done|lia].
Qed.

(** Frames that are not ours are left alone. *)
Lemma pmm_foreign p fr :
  ours p fr = Some false → pmm_ref p fr = Some p ∧ pmm_unref p fr = Some p ∧ pmm_refcnt p fr = Some 0.
Proof. intros E. unfold pmm_ref, pmm_unref, pmm_refcnt. by rewrite E. Qed.

(** ** pmm_alloc_run *)

(** [n] free frames in a row from frame number [s] on. *)
(** Which frames are ours never changes. *)
Lemma ours_set p p' i x v :
  (refcnt p).[i] = Some x → x ≠ 255 → v ≠ 255 → (refcnt p).[i <- v] = Some (refcnt p') → max_pfn p' = max_pfn p →
  ∀ f, ours p' f = ours p f.
Proof.
  intros Hx H1 H2 Hs Hm f. unfold ours. rewrite Hm. destruct (_ <? _); [|done].
  rewrite (arr_get_set _ _ _ _ _ Hs). case_decide as E; [|done]. rewrite E, Hx. cbn.
  by rewrite !(proj2 (Z.eqb_neq _ _)).
Qed.

Lemma ours_byte p f x : ours p f = Some true → (refcnt p).[Z.shiftr f 12] = Some x → x ≠ 255.
Proof. unfold ours. destruct (_ <? _); [|done]. intros E Hx. rewrite Hx in E. cbn in E. injection E as E. bools. done. Qed.

Lemma pmm_alloc_ours p fr p' : pmm_alloc p = Some (fr, p') → pool_inv p → ∀ f, ours p' f = ours p f.
Proof.
  intros E H f. destruct (pmm_alloc_spec p H) as (fr1 & p1 & E1 & _ & Hc). rewrite E in E1. injection E1 as <- <-.
  destruct Hc as [(_ & -> & _)|(_ & _ & _ & _ & Hx & _ & _ & _ & Hm & Hr & _)]; [done|].
  eapply (ours_set p p' _ 0 1 Hx); [done|done| |done]. rewrite Hr. apply arr_set_Some.
  split; [by eapply arr_get_range|done].
Qed.

Lemma pmm_ref_ours p fr p' : pmm_ref p fr = Some p' → pool_inv p → ∀ f, ours p' f = ours p f.
Proof.
  unfold pmm_ref. intros E H. destruct (ours p fr) as [[]|] eqn:Eo; cbn [mbind option_bind] in E; [|by injection E as <-|done].
  destruct ((refcnt p).[Z.shiftr fr 12]) as [x|] eqn:Ex; cbn [mbind option_bind] in E; [|done].
  destruct (x <? 254) eqn:El; [|by injection E as <-]. bools.
  destruct ((refcnt p).[Z.shiftr fr 12 <- u8 (x + 1)]) as [rc|] eqn:Es; cbn [mbind option_bind] in E; [|done].
  injection E as <-. pose proof (arr_get_range _ _ _ Ex) as Hr. rewrite (pi_length _ H) in Hr.
  destruct (byte_at _ _ H Hr) as (y & Hy & ?). rewrite Ex in Hy. injection Hy as <-.
  eapply (ours_set p _ _ x _ Ex); [lia| |exact Es|done]. rewrite u8_small; lia.
Qed.

Lemma pmm_unref_ours p fr p' : pmm_unref p fr = Some p' → pool_inv p → ∀ f, ours p' f = ours p f.
Proof.
  unfold pmm_unref. intros E H. destruct (ours p fr) as [[]|] eqn:Eo; cbn [mbind option_bind] in E; [|by injection E as <-|done].
  destruct ((refcnt p).[Z.shiftr fr 12]) as [x|] eqn:Ex; cbn [mbind option_bind] in E; [|done].
  destruct (nz x && negb (x =? 254)) eqn:El; [|by injection E as <-]. bools.
  destruct ((refcnt p).[Z.shiftr fr 12 <- u8 (x - 1)]) as [rc|] eqn:Es; cbn [mbind option_bind] in E; [|done].
  pose proof (arr_get_range _ _ _ Ex) as Hr. rewrite (pi_length _ H) in Hr.
  destruct (byte_at _ _ H Hr) as (y & Hy & ?). rewrite Ex in Hy. injection Hy as <-.
  pose proof (ours_byte _ _ _ Eo Ex). rewrite u8_small in * by lia.
  injection E as <-. eapply (ours_set p _ _ x (x - 1) Ex); [lia|lia| |by destruct (_ =? _)]. by destruct (_ =? _).
Qed.

Lemma pmm_unref_free p fr p' : pmm_unref p fr = Some p' → pool_inv p → pool_free p ≤ pool_free p'.
Proof.
  unfold pmm_unref. intros E H. pose proof (countb_range (Z.eqb 0) (refcnt p)). pose proof (pi_free _ H).
  pose proof (pi_length _ H). pose proof (pi_max _ H). inv_some. destruct x; [|by inv_some]. inv_some.
  destruct (nz x && negb (x =? 254)); [|by inv_some]. inv_some. destruct (_ =? _); cbn; [|lia]. rewrite u64_small; lia.
Qed.

Definition free_run (rc : list Z) (s n : Z) : Prop :=
  0 ≤ s ∧ ∀ k, s ≤ k < s + n → rc.[k] = Some 0.

Lemma run_scan_spec rc pre l n run :
  rc = pre ++ l → 1 ≤ n → 0 ≤ run < n → Z.of_nat (length rc) ≤ 2 ^ 40 →
  let i := Z.of_nat (length pre) in
  free_run rc (i - run) run →
  (∀ s, s ≤ i → free_run rc s (i - s) → i - s ≤ run) →
  match run_scan l n i run with
  | Some s => free_run rc s n
  | None => ∀ s, free_run rc s n → s + n ≤ i
  end.
Proof.
  revert pre run. induction l as [|x l IH]; intros pre run Hrc Hn Hrun Hlen i Hfree Hmax; cbn [run_scan].
  { intros s [Hs Hz]. subst rc. rewrite app_nil_r in *. destruct (decide (s + n ≤ i)); [done|].
    pose proof (arr_get_range _ _ _ (Hz (s + n - 1) ltac:(lia))). lia. }
  assert (rc.[i] = Some x) as Hi.
  { apply arr_get_Some. subst rc i. rewrite Nat2Z.id. split; [lia|]. by rewrite lookup_app_r, Nat.sub_diag. }
  set (run' := if nz x then 0 else run + 1).
  assert (0 ≤ run' ≤ run + 1 ∧ free_run rc (i + 1 - run') run') as [Hr' Hf'].
  { unfold run'. destruct (nz x) eqn:E; [split; [lia|split; lia]|]. apply nz_false in E as ->.
    split; [lia|]. destruct Hfree as [? Hz]. split; [lia|]. intros k Hk.
    destruct (decide (k = i)) as [->|]; [done|]. apply Hz. lia. }
  assert (∀ s, s ≤ i + 1 → free_run rc s (i + 1 - s) → i + 1 - s ≤ run') as Hm'.
  { intros s Hs [H0 Hz]. destruct (decide (s = i + 1)) as [->|]; [lia|]. unfold run'.
    assert (x = 0) as ->. { pose proof (Hz i ltac:(lia)). simplify_eq. done. }
    cbn. enough (i - s ≤ run) by lia. apply Hmax; [lia|]. split; [done|]. intros; apply Hz; lia. }
  destruct (run' <? n) eqn:E; bools.
  - specialize (IH (pre ++ [x]) run'). rewrite length_app in IH. cbn [length] in IH.
    replace (Z.of_nat (length pre + 1)) with (i + 1) in IH by lia.
    assert (rc = (pre ++ [x]) ++ l) as Hrc' by (by rewrite <- app_assoc).
    specialize (IH Hrc' Hn (conj (proj1 Hr') E) Hlen Hf' Hm').
    destruct (run_scan l n (i + 1) run'); [done|]. intros s Hs. specialize (IH s Hs).
    destruct (decide (s + n = i + 1)); [|lia]. destruct Hs as [? Hz].
    assert (i + 1 - s ≤ run'); [|lia]. apply Hm'; [lia|]. split; [done|]. intros; apply Hz; lia.
  - assert (run' = n) as -> by lia. rewrite u64_small; [done|]. destruct Hf' as [? _].
    assert (i < Z.of_nat (length rc)); [|lia]. subst rc i. rewrite length_app. cbn. lia.
Qed.

Definition frames (s : Z) (ks : list Z) : list Z := (λ k, (s + k) * 4096) <$> ks.

(** The pool with [ks] frames less. *)
Definition taken (p : pmm) (rc : list Z) (ks : list Z) : pmm :=
  {| p with refcnt := rc; pool_free := pool_free p - Z.of_nat (length ks) |}.

Lemma fill_spec p s ks :
  pool_inv p → NoDup ks → (∀ k, k ∈ ks → (refcnt p).[s + k] = Some 0) →
  ∃ rc, fill (refcnt p) s ks = Some rc ∧ pool_inv (taken p rc ks) ∧
    ∀ u, refs (taken p rc ks) u = if decide (u ∈ frames s ks) then 1 else refs p u.
Proof.
  intros H Hnd. revert p H. induction Hnd as [|k ks Hk _ IH]; intros p H Hz.
  { exists (refcnt p). split; [done|]. unfold taken. cbn. rewrite Z.sub_0_r.
    split; [by destruct p|]. intros u. by rewrite decide_False by apply not_elem_of_nil. }
  pose proof (Hz k ltac:(by left)) as Hx. destruct (set_total _ _ _ 1 Hx) as [rc1 Hs].
  cbn [fill]. rewrite Hs. cbn [mbind option_bind]. set (p1 := taken p rc1 [k]).
  assert (pool_inv p1) as H1.
  { apply (pool_set p (s + k) 0 1); [done|done|lia|lia|done|apply (pi_hint _ H)|]. simpl. lia. }
  pose proof (pfn_pos _ _ _ H Hx ltac:(lia)) as Hr. pose proof (pi_max _ H).
  destruct (frame_of (s + k)) as (_ & Esh & Emod); [lia|].
  assert (∀ u, refs p1 u = if decide (u = (s + k) * 4096) then 1 else refs p u) as Hr1.
  { apply (refs_set_frame rc1); [by rewrite Esh|done|done|lia]. }
  destruct (IH p1 H1) as (rc & Hf & Hi & Hr2).
  { intros j Hj. cbn [refcnt p1 taken]. rewrite (arr_get_set _ _ _ _ (s + j) Hs), decide_False.
    - apply Hz. by right.
    - intros Heq. assert (j = k) by lia. by subst. }
  assert (taken p1 rc ks = taken p rc (k :: ks)) as Et.
  { unfold p1, taken. cbn. f_equal. lia. }
  exists rc. rewrite Et in *. split; [exact Hf|]. split; [done|]. intros u. rewrite Hr2, Hr1.
  unfold frames. rewrite fmap_cons.
  destruct (decide (u ∈ (λ k0, (s + k0) * 4096) <$> ks)); [rewrite decide_True; [done|by right]|].
  destruct (decide (u = (s + k) * 4096)) as [->|]; [rewrite decide_True; [done|by left]|].
  rewrite decide_False; [done|]. by rewrite not_elem_of_cons.
Qed.

Lemma zero_frames_lookup m b n u :
  zero_frames m b n !! u = if decide (u ∈ (λ k, b + k * 4096) <$> upto n) then Some zero_page else m !! u.
Proof.
  unfold zero_frames. induction (upto n) as [|k ks IH]; [done|]. cbn [foldr]. rewrite fmap_cons.
  destruct (decide (u = b + k * PAGE_SIZE)) as [->|Hne].
  - rewrite lookup_insert_eq, decide_True; [done|by left].
  - rewrite lookup_insert_ne by done. rewrite IH.
    destruct (decide (u ∈ (λ k0, b + k0 * 4096) <$> ks)).
    + rewrite decide_True; [done|by right].
    + rewrite decide_False; [done|]. by rewrite not_elem_of_cons.
Qed.

Lemma pmm_alloc_run_spec p n :
  pool_inv p → 1 ≤ n →
  ∃ b p', pmm_alloc_run p n = Some (b, p') ∧ pool_inv p' ∧
    ((b = 0 ∧ p' = p ∧ ∀ s, ¬ free_run (refcnt p) s n) ∨
     (0 < b ∧ b mod PAGE_SIZE = 0 ∧ free_run (refcnt p) (b / 4096) n ∧
      (∀ u, refs p' u = if decide (u ∈ frames (b / 4096) (upto n)) then 1 else refs p u) ∧
      ∀ u, ram p' !! u = if decide (u ∈ frames (b / 4096) (upto n)) then Some zero_page else ram p !! u)).
Proof.
  intros H Hn. unfold pmm_alloc_run. pose proof (pi_length _ H). pose proof (pi_max _ H).
  pose proof (run_scan_spec (refcnt p) [] (refcnt p) n 0 eq_refl Hn ltac:(lia) ltac:(lia)) as Hrs.
  change (Z.of_nat (length [])) with 0 in Hrs. cbv zeta in Hrs. specialize (Hrs ltac:(split; lia) ltac:(intros s ? [? _]; lia)).
  destruct (run_scan (refcnt p) n 0 0) as [s|].
  2:{ exists 0, p. split_and!; [done|done|]. left. split_and!; [done|done|]. intros s Hs.
      pose proof (Hrs s Hs). destruct Hs. lia. }
  destruct Hrs as [Hs0 Hz]. pose proof (Hz s ltac:(lia)) as Hzs.
  pose proof (pfn_pos _ _ _ H Hzs ltac:(lia)).
  destruct (fill_spec p s (upto n) H (NoDup_seqZ _ _)) as (rc & -> & Hi & Hr).
  { intros k Hk%elem_of_seqZ. apply Hz. lia. }
  cbn [mbind option_bind]. destruct (frame_of s) as (-> & Esh & Emod); [lia|]. rewrite nz_pos by lia.
  assert (Z.of_nat (length (upto n)) = n) as Hl by (unfold upto; rewrite length_seqZ; lia).
  pose proof (pi_free _ Hi) as Hpf. cbn [taken pool_free refcnt] in Hpf. rewrite Hl in Hpf.
  pose proof (countb_range (Z.eqb 0) rc). pose proof (pi_length _ Hi) as Hlr. cbn in Hlr.
  rewrite u64_small by lia. eexists _, _. split; [done|].
  rewrite Z.div_mul by done. split; [|right; split_and!; [lia|done|done| |]].
  - destruct Hi as [? ? ? ? Hf ? ?]. unfold taken in *. rewrite Hl in *. by split.
  - unfold taken in Hr. rewrite Hl in Hr. exact Hr.
  - intros u. cbn [ram]. rewrite zero_frames_lookup. unfold frames.
    assert ((λ k, s * 4096 + k * 4096) <$> upto n = (λ k, (s + k) * 4096) <$> upto n) as ->; [|done].
    apply list_fmap_ext. intros. lia.
Qed.

(** ** pmm_init and pmm_add *)

Lemma pmm_init_spec m top p :
  0 ≤ top ≤ 2 ^ 52 → pmm_init true m top = Some p → pool_inv p ∧ (∀ u, refs p u = 0) ∧ ram p = m.
Proof.
  intros Ht [= <-]. assert (0 ≤ Z.shiftr top 12 ≤ 2 ^ 40) as Hm.
  { rewrite Z.shiftr_div_pow2 by lia. Z.div_mod_to_equations; lia. }
  assert (∀ i x, (replicate (Z.to_nat (Z.shiftr top 12)) 255).[i] = Some x → x = 255) as Hx.
  { intros i x [_ Hl]%arr_get_Some. by apply lookup_replicate in Hl as [-> _]. }
  split; [split; cbn|split; [|done]].
  - done.
  - rewrite length_replicate. lia.
  - by apply Forall_replicate.
  - exact (Hx 0).
  - symmetry. apply countb_none. by apply Forall_replicate.
  - symmetry. apply countb_none. by apply Forall_replicate.
  - lia.
  - intros u. unfold refs. cbn. destruct (u mod PAGE_SIZE =? 0); [|done].
    destruct (_.[Z.shiftr u 12]) as [x|] eqn:E; [|done]. by apply Hx in E as ->.
Qed.

(** None of the frames from [a] up to [e] is ours yet. *)
Definition not_ours (p : pmm) (a e : Z) : Prop :=
  ∀ i x, a ≤ i * 4096 < e → (refcnt p).[i] = Some x → x = 255.

Lemma add_loop_spec fuel p a e :
  pool_inv p → 0 < a → a mod 4096 = 0 → not_ours p a e →
  ∃ p', add_loop fuel p a e = Some p' ∧ pool_inv p' ∧ (∀ u, refs p' u = refs p u) ∧ ram p' = ram p.
Proof.
  revert p a. induction fuel as [|fuel IH]; intros p a H Ha Hm Hno; cbn [add_loop]; [by exists p|].
  destruct ((a <? e) && (Z.shiftr a 12 <? max_pfn p)) eqn:E; [|by exists p]. bools.
  assert (Z.shiftr a 12 * 4096 = a) as Hsh.
  { rewrite Z.shiftr_div_pow2 by lia. Z.div_mod_to_equations; lia. }
  destruct (byte_at p (Z.shiftr a 12) H) as (x & Hx & _); [lia|].
  assert (x = 255) as -> by (apply (Hno (Z.shiftr a 12) x ltac:(lia) Hx)).
  destruct (set_total _ _ _ 0 Hx) as [rc Hs]. rewrite Hs. cbn [mbind option_bind].
  pose proof (pi_max _ H). pose proof (pi_length _ H) as Hl. pose proof (arr_set_length _ _ _ _ Hs) as Hl'.
  set (p1 := {| p with refcnt := rc; pool_frames := _; pool_free := _ |}).
  assert (pool_inv p1 ∧ ∀ u, refs p1 u = refs p u) as [Hi1 Hr1].
  { split.
    - pose proof Hs as [_ Hrc]%arr_set_Some. apply arr_get_Some in Hx as [_ Hx].
      pose proof (countb_insert (Z.eqb 0) _ _ _ 0 Hx) as Hc0. rewrite <- Hrc in Hc0. cbn in Hc0.
      pose proof (countb_insert mine _ _ _ 0 Hx) as Hc1. rewrite <- Hrc in Hc1. cbn in Hc1.
      pose proof (countb_range (Z.eqb 0) rc). pose proof (countb_range mine rc).
      pose proof (pi_free _ H). pose proof (pi_frames _ H).
      unfold p1. rewrite !u64_small by lia. split; cbn; try lia.
      + rewrite Hrc. apply Forall_insert; [apply (pi_bytes _ H)|lia].
      + rewrite (arr_get_set _ _ _ _ 0 Hs), decide_False by lia. apply (pi_zero _ H).
      + apply (pi_hint _ H).
    - intros u. rewrite (count_set rc p _ 0 p1 u Hs eq_refl). case_decide as Hd; [|done].
      destruct Hd as [Hu Hd]. unfold refs. rewrite Hd, Hx, Hu. done. }
  destruct (IH p1 (a + PAGE_SIZE)) as (p' & Hp' & Hi & Hr & Hram).
  - done.
  - unfold PAGE_SIZE. lia.
  - unfold PAGE_SIZE. Z.div_mod_to_equations; lia.
  - intros i x Hi Hix. cbn [p1 refcnt] in Hix. unfold PAGE_SIZE in Hi.
    rewrite (arr_get_set _ _ _ _ i Hs), decide_False in Hix by lia. by eapply Hno; [|done]; lia.
  - exists p'. split_and!; [done|done| |done]. intros u. by rewrite Hr.
Qed.

Lemma page_up x : 0 < x → x < 2 ^ 63 →
  0 < Z.ldiff (u64 (x + PAGE_SIZE - 1)) 4095 ∧ Z.ldiff (u64 (x + PAGE_SIZE - 1)) 4095 mod 4096 = 0.
Proof.
  intros ??. unfold PAGE_SIZE. rewrite u64_small by lia. change 4095 with (Z.ones 12).
  rewrite Z.ldiff_ones_r, Z.shiftl_mul_pow2, Z.shiftr_div_pow2 by lia.
  split; Z.div_mod_to_equations; lia.
Qed.

(** ** Runs

    The pool from boot on: ranges that were not in it are added, frames are
    allocated, alone or in a row, and shared and released by their holders.
    References to frames outside of the pool (device memory) come and go too. *)

Inductive step : pmm * list Z → pmm * list Z → Prop :=
  | p_add p h start e p' :
      0 < start < 2 ^ 63 →
      not_ours p (Z.ldiff (u64 (start + PAGE_SIZE - 1)) 4095) (Z.ldiff e 4095) →
      pmm_add p start e = Some p' → step (p, h) (p', h)
  | p_alloc p h fr p' :
      pmm_alloc p = Some (fr, p') → step (p, h) (p', if nz fr then fr :: h else h)
  | p_run p h n b p' :
      1 ≤ n → pmm_alloc_run p n = Some (b, p') →
      step (p, h) (p', if nz b then frames (b / 4096) (upto n) ++ h else h)
  | p_ref p h fr p' : fr ∈ h → pmm_ref p fr = Some p' → step (p, h) (p', fr :: h)
  | p_unref p h fr h' p' : h ≡ₚ fr :: h' → pmm_unref p fr = Some p' → step (p, h) (p', h')
  | p_foreign p h fr p' :
      ours p fr = Some false → pmm_ref p fr = Some p' ∨ pmm_unref p fr = Some p' →
      step (p, h) (p', h).

Definition linked (p : pmm) (h : list Z) : Prop := pool_inv p ∧ link (refs p) h.

Lemma frames_NoDup s n : NoDup (frames s (upto n)).
Proof. unfold frames. apply NoDup_fmap_2_strong; [intros; lia|apply NoDup_seqZ]. Qed.

Lemma pool_step_effect p h p' h' :
  step (p, h) (p', h') → linked p h → pool_inv p' ∧ effect (refs p) (refs p') h h'.
Proof.
  intros Hst [Hi Hr].
  inversion Hst as [? ? st e ? Hs Hno Hop|? ? fr ? Hop|? ? n b ? Hn Hop|? ? fr ? Hin Hop
                   |? ? fr ? ? Hp Hop|? ? fr ? Ho Hop]; subst; clear Hst.
  - destruct (page_up st) as [??]; [lia|lia|]. unfold pmm_add in Hop.
    destruct (add_loop_spec (Z.to_nat (Z.ldiff e 4095 - Z.ldiff (u64 (st + PAGE_SIZE - 1)) 4095))
                p _ (Z.ldiff e 4095) Hi ltac:(eassumption) ltac:(eassumption) Hno)
      as (? & Hop' & ? & ? & _). rewrite Hop in Hop'. simplify_eq. split; [done|by apply quiet].
  - destruct (pmm_alloc_spec p Hi) as (r1 & p1 & Hop' & Hi' & Hc). rewrite Hop in Hop'. simplify_eq.
    split; [done|]. destruct Hc as [(-> & -> & _)|(Hp & _ & _ & Hz & _ & _ & _ & _ & _ & _ & Ht)]; [by apply quiet|].
    rewrite nz_pos by done. apply (take _ _ h [r1]); [apply NoDup_singleton|set_solver|].
    intros u. rewrite Ht. by do 2 case_decide; try set_solver.
  - destruct (pmm_alloc_run_spec p n Hi Hn) as (b1 & p1 & Hop' & Hi' & Hc). rewrite Hop in Hop'. simplify_eq.
    split; [done|]. destruct Hc as [(-> & -> & _)|(Hp & Hm & Hz & Ht & _)]; [by apply quiet|].
    rewrite nz_pos by done. apply take; [apply frames_NoDup| |done].
    intros t (k & -> & Hk%elem_of_seqZ)%list_elem_of_fmap. destruct Hz as [Hs0 Hz].
    pose proof (Hz (b1 / 4096 + k) ltac:(lia)) as Hx.
    pose proof (pfn_pos _ _ _ Hi Hx ltac:(lia)). pose proof (pi_max _ Hi).
    destruct (frame_of (b1 / 4096 + k)) as (_ & Esh & Emod); [lia|].
    unfold refs. rewrite Esh, Emod, Hx. done.
  - destruct (pmm_ref_spec p fr Hi) as (? & ? & ? & _ & Ht); [by eapply link_held|]. simplify_eq.
    split; [done|by apply dup].
  - destruct (pmm_unref_spec p fr Hi) as (? & ? & ? & _ & Ht).
    { eapply link_held; [done|]. rewrite Hp. by left. }
    simplify_eq. split; [done|by eapply put].
  - destruct (pmm_foreign _ _ Ho) as (E1 & E2 & _).
    assert (p' = p) as -> by (destruct Hop; congruence). split; [done|by apply quiet].
Qed.

Lemma pool_run_linked p0 p h : linked p0 [] → rtc step (p0, []) (p, h) → linked p h.
Proof.
  intros H0 H. remember (p0, []) as x eqn:Ex. remember (p, h) as y eqn:Ey.
  assert (linked x.1 x.2) as Hx by (by subst). clear Ex H0. revert p h Ey.
  induction H as [x|x [p1 h1] z Hst _ IH]; intros; subst; [done|]. destruct x as [p2 h2].
  eapply IH; [|done]. destruct (pool_step_effect _ _ _ _ Hst Hx) as [? He].
  split; [done|]. eapply effect_link; [exact He|apply Hx].
Qed.

(** C5: In any run of the frame pool from boot on the pool stays well formed,
    with [pool_free] exactly the number of free frames; a frame that is held
    keeps a reference; and [pmm_alloc] answers 0 just when no frame is free, and
    otherwise a page address that nobody holds, whose frame is zeroed. *)
Theorem pmm_safe m top p0 p h :
  0 ≤ top ≤ 2 ^ 52 → pmm_init true m top = Some p0 → rtc step (p0, []) (p, h) →
  pool_inv p ∧ pmm_free_frames p = countb (Z.eqb 0) (refcnt p) ∧
  (∀ fr, fr ∈ h → ∃ n, pmm_refcnt p fr = Some n ∧ 0 < n ≤ 254 ∧ (n = 254 ∨ n = occ fr h)) ∧
  ∃ fr p', pmm_alloc p = Some (fr, p') ∧
    (fr = 0 ↔ pmm_free_frames p = 0) ∧
    (fr ≠ 0 → fr mod PAGE_SIZE = 0 ∧ (fr ∉ h) ∧ ram p' !! fr = Some zero_page).
Proof.
  intros Ht Hp0 Hrun. destruct (pmm_init_spec _ _ _ Ht Hp0) as (H0 & Hz & _).
  destruct (pool_run_linked p0 p h) as [Hi Hl]; [|done|].
  { split; [done|]. intros u. right. by rewrite Hz. }
  split; [done|]. split; [apply (pi_free _ Hi)|]. split.
  - intros fr Hin. pose proof (link_held _ _ _ Hl Hin) as Hp.
    destruct (frame_cell _ _ Hi Hp) as (x & Hx & ? & Ex & _ & Ho). exists x.
    unfold pmm_refcnt. rewrite Ho. split; [done|]. rewrite <- Ex. split; [lia|apply Hl].
  - destruct (pmm_alloc_spec p Hi) as (fr & p' & E & Hi' & Hc). exists fr, p'. split; [done|].
    unfold pmm_free_frames.
    destruct Hc as [(-> & -> & ?)|(Hp & Hm & _ & Hr & _ & Hram & Hf & _)]; [done|]. split.
    + pose proof (pi_free _ Hi'). pose proof (countb_range (Z.eqb 0) (refcnt p')). lia.
    + intros _. split_and!; [done|by eapply link_free|]. rewrite Hram. apply lookup_insert_eq.
Qed.

(** Four frames of RAM, three of them in the pool. *)
Definition small_pool : pmm := mkPmm [255; 0; 0; 0] 4 3 3 0 ∅.

Lemma small_start p0 :
  p0 = mkPmm [255; 255; 255; 255] 4 0 0 0 ∅ → step (p0, []) (small_pool, []).
Proof.
  intros ->. apply (p_add _ _ 0x1000 0x4000); [lia| |vm_compute; reflexivity].
  intros i x _ [_ Hx]%arr_get_Some. cbn [refcnt] in Hx.
  change [255; 255; 255; 255] with (replicate 4 255) in Hx. by apply lookup_replicate in Hx as [-> _].
Qed.

Lemma pmm_safe_witness :
  pmm_init true ∅ 0x4000 ≫= (λ p, pmm_add p 0x1000 0x4000) = Some small_pool ∧
  ∃ fr p', pmm_alloc small_pool = Some (fr, p') ∧ (fr = 0 ↔ pmm_free_frames small_pool = 0).
Proof.
  split; [vm_compute; reflexivity|].
  destruct (pmm_safe ∅ 0x4000 (mkPmm [255; 255; 255; 255] 4 0 0 0 ∅) small_pool [] ltac:(lia) eq_refl)
    as (_ & _ & _ & fr & p' & E & Hz & _).
  - eapply rtc_l; [|apply rtc_refl]. by apply small_start.
  - exists fr, p'. split; [exact E|exact Hz].
Defined.

(** C6: [pmm_alloc_run] for one frame or more answers 0, changing nothing, just
    when the pool has no run of that many free frames; otherwise the address of a
    run of free frames, which are then held once each and zeroed, while the
    counts and the contents of all other frames stay. *)
Theorem pmm_run_sound p n :
  pool_inv p → 1 ≤ n →
  ∃ b p', pmm_alloc_run p n = Some (b, p') ∧ pool_inv p' ∧
    ((b = 0 ∧ p' = p ∧ ∀ s, ¬ free_run (refcnt p) s n) ∨
     (0 < b ∧ b mod PAGE_SIZE = 0 ∧ free_run (refcnt p) (b / 4096) n ∧
      (∀ u, refs p' u = if decide (u ∈ frames (b / 4096) (upto n)) then 1 else refs p u) ∧
      ∀ u, ram p' !! u = if decide (u ∈ frames (b / 4096) (upto n)) then Some zero_page else ram p !! u)).
Proof. apply pmm_alloc_run_spec. Qed.

Lemma small_pool_inv : pool_inv small_pool.
Proof.
  split; cbn; try lia; [repeat constructor; lia|]. intros x [_ Hx]%arr_get_Some. change (Some 255 = Some x) in Hx. congruence.
Qed.

Lemma pmm_run_sound_witness :
  pool_inv small_pool ∧ ∃ b p', pmm_alloc_run small_pool 2 = Some (b, p') ∧ pool_inv p'.
Proof.
  split; [exact small_pool_inv|].
  destruct (pmm_run_sound small_pool 2 small_pool_inv ltac:(lia)) as (b & p' & E & Hi & _).
  exists b, p'. split; [exact E|exact Hi].
Defined.

End Pmm.
