(* ===== verification/Seccomp.v ===== *)
(** * System call filters (src/src/proc/seccomp.c)

    Classic BPF programs over the 64 bytes of [seccomp_data], checked by [valid]
    when they are loaded and run at every system call; the chain of filters of a
    process is shared with its children and counted.  User memory ([user_ok] and
    the bytes behind it) and the addresses [kmalloc] returns are parameters. *)

From S2P Require Import Prelude.

Module Seccomp.

Record sock_filter := Insn { code : Z; jt : Z; jf : Z; k : Z }.

(** [insn] points at [len] instructions of its own. *)
Record sfilt := Filt { refs : Z; len : Z; prev : Z; insn : list sock_filter }.

Definition RET_KILL_PROC : Z := 0x80000000.
Definition RET_KILL : Z := 0.
Definition RET_TRAP : Z := 0x00030000.
Definition RET_ERRNO : Z := 0x00050000.
Definition RET_USER_NOTIF : Z := 0x7fc00000.
Definition RET_TRACE : Z := 0x7ff00000.
Definition RET_LOG : Z := 0x7ffc0000.
Definition RET_ALLOW : Z := 0x7fff0000.

Definition EFAULT : Z := 14.
Definition EINVAL : Z := 22.
Definition ENOMEM : Z := 12.
Definition ENOSYS : Z := 38.

(** The class of an instruction, [c & 7]. *)
Inductive class := LD | LDX | ST | STX | ALU | JMP | RET | MISC.
#[global] Instance class_eq : EqDecision class.
Proof. solve_decision. Defined.

Definition class_of (c : Z) : class :=
  match Z.land c 7 with
  | 0 => LD | 1 => LDX | 2 => ST | 3 => STX | 4 => ALU | 5 => JMP | 6 => RET | _ => MISC
  end.

(** The fields of [code]: addressing mode, operation, source bit, size, return
    value, misc operation. *)
Definition mode (c : Z) : Z := Z.land c 0xe0.
Definition op (c : Z) : Z := Z.land c 0xf0.
Definition src_x (c : Z) : bool := nz (Z.land c 8).

(** ** Validation *)

(** The body of the loop of [valid]: instruction [f] at [i] of [n] is fine. *)
Definition valid_insn (n i : Z) (f : sock_filter) : bool :=
  let c := code f in
  match class_of c with
  | LD =>
      negb ((mode c =? 0x40) || (mode c =? 0xa0))
      && negb ((mode c =? 0x20) && (64 <=? k f))
      && negb ((mode c =? 0x60) && (16 <=? k f))
  | LDX => negb ((mode c =? 0x60) && (16 <=? k f))
  | ST | STX => negb (16 <=? k f)
  | ALU =>
      negb ((op c =? 0x30) && negb (src_x c) && (k f =? 0))
      && negb ((op c =? 0x90) && negb (src_x c) && (k f =? 0))
  | JMP =>
      if op c =? 0 then negb (u32 (n - i - 1) <=? k f)
      else negb ((n <=? i + 1 + jt f) || (n <=? i + 1 + jf f))
  | RET | MISC => true
  end.

Fixpoint valid_from (n i : Z) (f : list sock_filter) : bool :=
  match f with [] => true | x :: f' => valid_insn n i x && valid_from n (i + 1) f' end.

Definition valid (f : list sock_filter) (n : Z) : option bool :=
  if valid_from n 0 (take (Z.to_nat n) f)
  then x ← f.[n - 1]; Some (bool_decide (class_of (code x) = RET))
  else Some false.

(** ** The interpreter *)

(** The registers of a running program. *)
Record vm := Vm { pc : Z; A : Z; X : Z; M : list Z }.

Inductive outcome := Go (m : vm) | Ret (v : Z).

(** [sz] bytes of [d] from [i] on, host order. *)
Fixpoint load_bytes (d : list Z) (i b : Z) (sz : nat) : option Z :=
  match sz with
  | O => Some 0
  | S sz =>
      x ← d.[u32 (i + b)]; y ← load_bytes d i (b + 1) sz;
      Some (Z.lor (u32 (Z.shiftl x (8 * b))) y)
  end.

Definition size_of (c : Z) : nat :=
  if Z.land c 0x18 =? 0 then 4 else if Z.land c 0x18 =? 8 then 2 else 1.

Definition exec_ld (d : list Z) (m : vm) (c kk : Z) : option outcome :=
  match mode c with
  | 0x20 =>
      if 64 <? u32 (kk + Z.of_nat (size_of c)) then Some (Ret RET_KILL)
      else a ← load_bytes d kk 0 (size_of c); Some (Go {| m with A := a |})
  | 0x00 => Some (Go {| m with A := kk |})
  | 0x60 => a ← (M m).[Z.land kk 15]; Some (Go {| m with A := a |})
  | 0x80 => Some (Go {| m with A := 64 |})
  | _ => Some (Ret RET_KILL)
  end.

Definition exec_ldx (m : vm) (c kk : Z) : option outcome :=
  match mode c with
  | 0x00 => Some (Go {| m with X := kk |})
  | 0x60 => x ← (M m).[Z.land kk 15]; Some (Go {| m with X := x |})
  | 0x80 => Some (Go {| m with X := 64 |})
  | _ => Some (Ret RET_KILL)
  end.

(** The new [A] of an ALU instruction, [None] where the filter answers KILL. *)
Definition alu (c a s : Z) : option Z :=
  match op c with
  | 0x00 => Some (u32 (a + s))
  | 0x10 => Some (u32 (a - s))
  | 0x20 => Some (u32 (a * s))
  | 0x30 => if s =? 0 then None else Some (a / s)
  | 0x40 => Some (Z.lor a s)
  | 0x50 => Some (Z.land a s)
  | 0x60 => Some (u32 (Z.shiftl a (Z.land s 31)))
  | 0x70 => Some (Z.shiftr a (Z.land s 31))
  | 0x80 => Some (u32 (- a))
  | 0x90 => if s =? 0 then None else Some (a mod s)
  | 0xa0 => Some (Z.lxor a s)
  | _ => None
  end.

(** How far a jump goes, [None] where the filter answers KILL. *)
Definition jump (f : sock_filter) (a s : Z) : option Z :=
  match op (code f) with
  | 0x00 => Some (k f)
  | 0x10 => Some (if a =? s then jt f else jf f)
  | 0x20 => Some (if s <? a then jt f else jf f)
  | 0x30 => Some (if s <=? a then jt f else jf f)
  | 0x40 => Some (if nz (Z.land a s) then jt f else jf f)
  | _ => None
  end.

(** One instruction; [pc] is still its own. *)
Definition exec (d : list Z) (f : sock_filter) (m : vm) : option outcome :=
  let c := code f in
  let s := if src_x c then X m else k f in
  match class_of c with
  | LD => exec_ld d m c (k f)
  | LDX => exec_ldx m c (k f)
  | ST => M' ← (M m).[Z.land (k f) 15 <- A m]; Some (Go {| m with M := M' |})
  | STX => M' ← (M m).[Z.land (k f) 15 <- X m]; Some (Go {| m with M := M' |})
  | ALU => Some (match alu c (A m) s with Some a => Go {| m with A := a |} | None => Ret RET_KILL end)
  | JMP => Some (match jump f (A m) s with
                 | Some j => Go {| m with pc := i32 (pc m + j) |}
                 | None => Ret RET_KILL
                 end)
  | RET => Some (Ret (if Z.land c 0x18 =? 0x10 then A m else k f))
  | MISC => Some (Go (if Z.land c 0xf8 =? 0 then {| m with X := A m |} else {| m with A := X m |}))
  end.

(** How the loop of [run] ends: at a return, or behind the last instruction. *)
Inductive exit := Returned (v : Z) | FellOff.

Fixpoint loop (fuel : nat) (f : list sock_filter) (n : Z) (d : list Z) (m : vm) : option exit :=
  match fuel with
  | O => None
  | S fuel =>
      if pc m <? n
      then
        i ← f.[pc m];
        o ← exec d i m;
        match o with
        | Ret v => Some (Returned v)
        | Go m => loop fuel f n d {| m with pc := pc m + 1 |}
        end
      else Some FellOff
  end.

Definition vm0 : vm := Vm 0 0 0 (replicate 16 0).

Definition run (sf : sfilt) (d : list Z) : option Z :=
  e ← loop (S (Z.to_nat (len sf))) (insn sf) (len sf) d vm0;
  Some (match e with Returned v => v | FellOff => RET_KILL end).

(** ** The check at a system call *)

Record regs_t := Regs { rax : Z; rip : Z; rdi : Z; rsi : Z; rdx : Z; r10 : Z; r8 : Z; r9 : Z }.

(** What the component uses of a process. *)
Record proc_t := Proc {
  alive : bool; tgid : Z; sc_mode : Z; nnp : bool; sf : Z;
  sys_nr : Z; sys_ip : Z; sys_err : Z; sys_sig : bool;
  sig_mask : Z; sig_pending : Z
}.

Definition seccomp_data (r : regs_t) : list Z :=
  le_bytes 4 (rax r) ++ le_bytes 4 0xC000003E ++ le_bytes 8 (rip r)
  ++ le_bytes 8 (rdi r) ++ le_bytes 8 (rsi r) ++ le_bytes 8 (rdx r)
  ++ le_bytes 8 (r10 r) ++ le_bytes 8 (r8 r) ++ le_bytes 8 (r9 r).

(** (int32_t)(v & 0xffff0000) *)
Definition action (v : Z) : Z := i32 (Z.land v 0xffff0000).

(** The filters of a chain, newest first. *)
Fixpoint chain (fuel : nat) (fs : gmap Z sfilt) (f : Z) : option (list sfilt) :=
  match fuel with
  | O => None
  | S fuel => if f =? 0 then Some [] else x ← fs !! f; l ← chain fuel fs (prev x); Some (x :: l)
  end.

(** The verdict of a chain: the loop over [f] with [best] so far. *)
Fixpoint verdict (l : list sfilt) (d : list Z) (best : Z) : option Z :=
  match l with
  | [] => Some best
  | f :: l' => v ← run f d; verdict l' d (if action v <? action best then v else best)
  end.

Definition sc_check (fs : gmap Z sfilt) (p : proc_t) (r : regs_t) : option (Z * regs_t * proc_t) :=
  let nr := rax r in
  if sc_mode p =? 1
  then Some (if (nr =? 0) || (nr =? 1) || (nr =? 60) || (nr =? 231) || (nr =? 15) then 0 else 3, r, p)
  else
    l ← chain (S (size fs)) fs (sf p);
    best ← verdict l (seccomp_data r) RET_ALLOW;
    let act := Z.land best 0xffff0000 in
    let data := Z.land best 0xffff in
    if (act =? RET_ALLOW) || (act =? RET_LOG) then Some (0, r, p)
    else if act =? RET_ERRNO
    then Some (1, {| r with rax := u64 (- (if 4095 <? data then 4095 else data)) |}, p)
    else if act =? RET_TRAP
    then Some (2, r, {| p with sys_nr := i32 nr; sys_ip := rip r; sys_err := data |})
    else if (act =? RET_KILL) || (act =? RET_KILL_PROC) then Some (3, r, p)
    else Some (1, {| r with rax := u64 (- ENOSYS) |}, p).

(** [sc_trap]: [None] is [proc_exit(31)]; otherwise the signal is left to
    [proc_deliver_signal].  [handler] is the process's SIGSYS handler. *)
Definition sc_trap (handler : Z) (r : regs_t) (p : proc_t) : regs_t * option proc_t :=
  let r := {| r with rax := u64 (- ENOSYS) |} in
  let mask := Z.ldiff (sig_mask p) (Z.shiftl 1 30) in
  (r, if handler <=? 1 then None
      else Some {| p with sig_mask := mask; sys_sig := true;
                          sig_pending := Z.lor (sig_pending p) (Z.shiftl 1 30) |}).

(** ** Loading and sharing filters *)

Definition sc_dup (fs : gmap Z sfilt) (f : Z) : option (Z * gmap Z sfilt) :=
  if f =? 0 then Some (0, fs)
  else x ← fs !! f; Some (f, <[f := {| x with refs := i32 (refs x + 1) |}]> fs).

Fixpoint put_loop (fuel : nat) (fs : gmap Z sfilt) (f : Z) : option (gmap Z sfilt) :=
  match fuel with
  | O => None
  | S fuel =>
      if f =? 0 then Some fs
      else
        x ← fs !! f;
        let r := i32 (refs x - 1) in
        if r =? 0 then put_loop fuel (delete f fs) (prev x)
        else Some (<[f := {| x with refs := r |}]> fs)
  end.

Definition sc_put (fs : gmap Z sfilt) (f : Z) : option (gmap Z sfilt) :=
  put_loop (S (size fs)) fs f.

Record state := St { fs : gmap Z sfilt; procs : list (option proc_t) }.

Section user.
Context (user_ok : Z → Z → bool) (umem : Z → Z).

(** [n] bytes of user memory as an integer. *)
Fixpoint uword (n : nat) (a : Z) : Z :=
  match n with O => 0 | S n => umem a + 256 * uword n (a + 1) end.

Definition uinsn (a : Z) : sock_filter :=
  Insn (uword 2 a) (umem (a + 2)) (umem (a + 3)) (uword 4 (a + 4)).

(** [nf] is the address of the new filter, [None] when one of the two [kmalloc]
    calls fails; the sum is the error or the filter made. *)
Definition load (nf : option Z) (uprog : Z) : option (Z + Z * sfilt) :=
  if negb (user_ok uprog 16) then Some (inl (- EFAULT))
  else
    let n := uword 2 uprog in
    let up := uword 8 (uprog + 8) in
    if (n =? 0) || (4096 <? n) then Some (inl (- EINVAL))
    else if negb (user_ok up (n * 8)) then Some (inl (- EFAULT))
    else
      match nf with
      | None => Some (inl (- ENOMEM))
      | Some a =>
          let f := (λ i, uinsn (up + 8 * i)) <$> upto n in
          v ← valid f n;
          Some (if v : bool then inr (a, Filt 1 n 0 f) else inl (- EINVAL))
      end.

(** One turn of the TSYNC loop: thread [i] of the group of [me] runs [nf] too. *)
Definition tsync_one (me : Z) (tg nf : Z) (s : state) (i : Z) : option state :=
  q ← (procs s).[i];
  match q with
  | None => Some s
  | Some q =>
      if (i =? me) || negb (alive q) || negb (tgid q =? tg) then Some s
      else
        '(f, fs1) ← sc_dup (fs s) nf;
        fs1 ← sc_put fs1 (sf q);
        ps ← (procs s).[i <- Some {| q with sf := f; sc_mode := 2; nnp := true |}];
        Some (St fs1 ps)
  end.

Fixpoint tsync (me tg nf : Z) (ks : list Z) (s : state) : option state :=
  match ks with
  | [] => Some s
  | i :: ks' => s ← tsync_one me tg nf s i; tsync me tg nf ks' s
  end.

Definition known_action (a : Z) : bool :=
  (a =? RET_KILL_PROC) || (a =? RET_KILL) || (a =? RET_TRAP) || (a =? RET_ERRNO)
  || (a =? RET_TRACE) || (a =? RET_LOG) || (a =? RET_ALLOW).

(** [me] is the index of the current process. *)
Definition sc_seccomp (nf : option Z) (s : state) (me o fl uargs : Z) : option (Z * state) :=
  p ← (procs s).[me];
  p ← p;
  if o =? 0
  then
    if nz fl then Some (- EINVAL, s)
    else ps ← (procs s).[me <- Some {| p with sc_mode := 1 |}]; Some (0, St (fs s) ps)
  else if o =? 2
  then Some (if negb (user_ok uargs 4) then - EFAULT
             else if known_action (uword 4 uargs) then 0 else - EINVAL, s)
  else if negb (o =? 1) then Some (- EINVAL, s)
  else if nz (Z.ldiff fl 0x1f) then Some (- EINVAL, s)
  else if nz (Z.land fl 8) then Some (- EINVAL, s)
  else if sc_mode p =? 1 then Some (- EINVAL, s)
  else
    l ← load nf uargs;
    match l with
    | inl e => Some (e, s)
    | inr (a, x) =>
        ps ← (procs s).[me <- Some {| p with sf := a; sc_mode := 2 |}];
        let s := St (<[a := {| x with prev := sf p |}]> (fs s)) ps in
        s ← (if nz (Z.land fl 1) then tsync me (tgid p) a (upto (Z.of_nat (length ps))) s else Some s);
        Some (0, s)
    end.

Definition sc_prctl (nf : option Z) (s : state) (me o a b : Z) : option (Z * state) :=
  p ← (procs s).[me];
  p ← p;
  match o with
  | 38 => ps ← (procs s).[me <- Some {| p with nnp := true |}]; Some (0, St (fs s) ps)
  | 39 => Some (b2z (nnp p), s)
  | 21 => Some (sc_mode p, s)
  | 22 => if a =? 1 then sc_seccomp nf s me 0 0 0
          else if a =? 2 then sc_seccomp nf s me 1 0 b
          else Some (- EINVAL, s)
  | _ => Some (0, s)
  end.

End user.

(** What fork and exit do with the filters (proc.c); a slot in state P_FREE is
    [None].  [started] says whether [start_task] had a stack and a task for the
    child; when it had not the slot is free again, and nothing puts the filter. *)
Definition fork_filters (s : state) (parent child : proc_t) (i : Z) (started : bool) : option state :=
  '(f, fs1) ← sc_dup (fs s) (sf parent);
  ps ← (procs s).[i <- Some {| child with nnp := nnp parent; sc_mode := sc_mode parent; sf := f |}];
  ps ← (if started then Some ps else ps.[i <- None]);
  Some (St fs1 ps).

Definition exit_filters (s : state) (i : Z) : option state :=
  p ← (procs s).[i];
  p ← p;
  fs1 ← sc_put (fs s) (sf p);
  ps ← (procs s).[i <- Some {| p with sf := 0 |}];
  Some (St fs1 ps).

(** ** A validated program runs to a return *)

Definition is_data (d : list Z) : Prop := length d = 64%nat ∧ Forall (λ x, 0 ≤ x < 256) d.

(** Fields at their widths. *)
Definition insn_ok (f : sock_filter) : Prop :=
  0 ≤ code f < 2 ^ 16 ∧ 0 ≤ jt f < 256 ∧ 0 ≤ jf f < 256 ∧ 0 ≤ k f < 2 ^ 32.

Record vm_ok (m : vm) : Prop := {
  vo_A : 0 ≤ A m < 2 ^ 32;
  vo_X : 0 ≤ X m < 2 ^ 32;
  vo_len : length (M m) = 16%nat;
  vo_M : Forall (λ x, 0 ≤ x < 2 ^ 32) (M m)
}.

Lemma land15 x : 0 ≤ Z.land x 15 < 16.
Proof. change 15 with (Z.ones 4). rewrite Z.land_ones by lia. apply Z.mod_pos_bound. lia. Qed.

Lemma M_get m x : vm_ok m → ∃ y, (M m).[Z.land x 15] = Some y ∧ 0 ≤ y < 2 ^ 32.
Proof.
  intros H. pose proof (land15 x). destruct (arr_get_is_Some (M m) (Z.land x 15)) as [y Hy].
  { rewrite (vo_len _ H). lia. }
  exists y. split; [done|]. apply arr_get_Some in Hy as [_ Hy].
  pose proof (vo_M _ H) as HF. by eapply Forall_lookup_1 in HF.
Qed.

Lemma M_set m x v :
  vm_ok m → 0 ≤ v < 2 ^ 32 →
  ∃ M', (M m).[Z.land x 15 <- v] = Some M' ∧ vm_ok {| m with M := M' |}.
Proof.
  intros H Hv. destruct (M_get m x H) as (y & Hy & _). destruct (set_total _ _ _ v Hy) as [M' HM].
  exists M'. split; [done|]. destruct H as [? ? Hl HF]. split; [done|done| |]; cbn.
  - by rewrite (arr_set_length _ _ _ _ HM).
  - apply arr_set_Some in HM as [_ ->]. by apply Forall_insert.
Qed.

Lemma load_bytes_spec d i b sz :
  is_data d → 0 ≤ i → 0 ≤ b → i + b + Z.of_nat sz ≤ 64 →
  ∃ v, load_bytes d i b sz = Some v ∧ 0 ≤ v < 2 ^ 32.
Proof.
  intros [Hl HF]. revert b. induction sz as [|sz IH]; intros b ???; cbn [load_bytes].
  { exists 0. split; [done|lia]. }
  rewrite u32_small by lia. destruct (arr_get_is_Some d (i + b)) as [x ->]; [lia|].
  destruct (IH (b + 1)) as (v & -> & Hv); [lia..|]. cbn [mbind option_bind].
  eexists. split; [done|]. apply lor_range; [lia|apply u32_range|done].
Qed.

(** An instruction that goes on to the next one, or kills. *)
Definition stays (m : vm) (o : outcome) : Prop :=
  match o with Ret v => v = RET_KILL | Go m' => vm_ok m' ∧ pc m' = pc m end.

Definition stays_opt (m : vm) (o : option outcome) : Prop := ∃ o', o = Some o' ∧ stays m o'.

Lemma stays_kill m : stays_opt m (Some (Ret RET_KILL)).
Proof. by eexists. Qed.

Lemma stays_go m m' : vm_ok m' → pc m' = pc m → stays_opt m (Some (Go m')).
Proof. intros. by eexists. Qed.

Lemma stays_A m a : vm_ok m → 0 ≤ a < 2 ^ 32 → stays_opt m (Some (Go {| m with A := a |})).
Proof. intros [] ?. apply stays_go; [by split|done]. Qed.

Lemma stays_X m x : vm_ok m → 0 ≤ x < 2 ^ 32 → stays_opt m (Some (Go {| m with X := x |})).
Proof. intros [] ?. apply stays_go; [by split|done]. Qed.

Lemma exec_ld_ok d m c kk :
  is_data d → vm_ok m → 0 ≤ kk < 2 ^ 32 → (mode c = 0x20 → kk < 64) → stays_opt m (exec_ld d m c kk).
Proof.
  intros Hd Hm Hk Habs. unfold exec_ld. destruct (decide (mode c = 0x20)) as [Em|Hne].
  - rewrite Em. specialize (Habs Em). pose proof (Nat2Z.is_nonneg (size_of c)).
    assert (Z.of_nat (size_of c) ≤ 4) by (unfold size_of; split_ifs; lia).
    rewrite u32_small by lia. destruct (64 <? _) eqn:E; bools; [apply stays_kill|].
    destruct (load_bytes_spec d kk 0 (size_of c)) as (a & -> & Ha); [done|lia..|]. by apply stays_A.
  - destruct (M_get m kk Hm) as (y & -> & Hyr). cbn [mbind option_bind].
    repeat case_match; try done; try apply stays_kill; apply stays_A; done || lia.
Qed.

Lemma exec_ldx_ok m c kk : vm_ok m → 0 ≤ kk < 2 ^ 32 → stays_opt m (exec_ldx m c kk).
Proof.
  intros Hm Hk. unfold exec_ldx. destruct (M_get m kk Hm) as (y & -> & Hyr). cbn [mbind option_bind].
  repeat case_match; try apply stays_kill; apply stays_X; done || lia.
Qed.

Lemma alu_range c a s v :
  0 ≤ a < 2 ^ 32 → 0 ≤ s < 2 ^ 32 → alu c a s = Some v → 0 ≤ v < 2 ^ 32.
Proof.
  intros Ha Hs. unfold alu.
  assert (0 ≤ Z.land s 31) by (apply Z.land_nonneg; lia).
  assert (s ≠ 0 → 0 ≤ a / s < 2 ^ 32) by (intros; split; [apply Z.div_pos|apply Z.div_lt_upper_bound]; nia).
  assert (s ≠ 0 → 0 ≤ a mod s < 2 ^ 32) by (intros; pose proof (Z.mod_pos_bound a s); lia).
  pose proof (lor_range 32 a s ltac:(lia) Ha Hs). pose proof (lxor_range 32 a s ltac:(lia) Ha Hs).
  pose proof (land_range 32 a s ltac:(lia) Ha).
  pose proof (shiftr_range 32 a ltac:(lia) Ha (Z.land s 31) ltac:(done)).
  repeat case_match; intros; simplify_eq; bools; auto using u32_range.
Qed.

Lemma jump_cases f a s j : jump f a s = Some j →
  (op (code f) = 0 ∧ j = k f) ∨ (op (code f) ≠ 0 ∧ (j = jt f ∨ j = jf f)).
Proof.
  unfold jump. repeat case_match; intros; simplify_eq; auto; right; (split; [congruence|auto]).
Qed.

(** A checked instruction of a program of [n] runs, and leaves the program
    counter, after the increment, inside the program unless it was the last. *)
Lemma exec_ok d f m n :
  is_data d → insn_ok f → vm_ok m → 0 ≤ pc m < n → n ≤ 4096 → valid_insn n (pc m) f = true →
  ∃ o, exec d f m = Some o ∧
    match o with
    | Ret v => 0 ≤ v < 2 ^ 32
    | Go m' => vm_ok m' ∧ class_of (code f) ≠ RET ∧
        (pc m' = pc m ∨ (pc m ≤ pc m' ∧ pc m' + 1 < n))
    end.
Proof.
  intros Hd (Hc & Hjt & Hjf & Hk) Hm Hpc Hn Hv. unfold exec, valid_insn in *.
  set (s := if src_x (code f) then X m else k f).
  assert (0 ≤ s < 2 ^ 32) as Hs by (unfold s; pose proof (vo_X _ Hm); by destruct (src_x _)).
  assert (∀ o, stays_opt m o → class_of (code f) ≠ RET → ∃ o', o = Some o' ∧
    match o' with
    | Ret v => 0 ≤ v < 2 ^ 32
    | Go m' => vm_ok m' ∧ class_of (code f) ≠ RET ∧ (pc m' = pc m ∨ (pc m ≤ pc m' ∧ pc m' + 1 < n))
    end) as Hst.
  { intros o (o' & -> & Ho) Hr. exists o'. split; [done|]. destruct o'; [naive_solver|]. simpl in Ho. subst. done. }
  destruct (class_of (code f)) eqn:Ec.
  - apply Hst; [|done]. apply exec_ld_ok; [done..|]. intros Em. rewrite Em in Hv. cbn in Hv. bools. lia.
  - apply Hst; [|done]. by apply exec_ldx_ok.
  - apply Hst; [|done]. destruct (M_set m (k f) (A m) Hm (vo_A _ Hm)) as (M' & -> & ?). by apply stays_go.
  - apply Hst; [|done]. destruct (M_set m (k f) (X m) Hm (vo_X _ Hm)) as (M' & -> & ?). by apply stays_go.
  - apply Hst; [|done]. destruct (alu (code f) (A m) s) as [a|] eqn:Ea; [|apply stays_kill].
    apply stays_A; [done|]. eapply alu_range; [..|exact Ea]; [apply (vo_A _ Hm)|done].
  - destruct (jump f (A m) s) as [j|] eqn:Ej; [|by eexists (Ret _)]. eexists (Go _). split; [done|].
    cbn [pc]. split; [by destruct Hm; split|]. split; [done|].
    destruct (jump_cases _ _ _ _ Ej) as [[Eo ->]|[Eo Hj]].
    + rewrite Eo in Hv. cbn in Hv. bools. rewrite u32_small in Hv by lia. rewrite i32_small by lia. lia.
    + rewrite (proj2 (Z.eqb_neq _ _)) in Hv by done. bools. rewrite i32_small by lia. destruct Hj; subst; lia.
  - eexists (Ret _). split; [done|]. pose proof (vo_A _ Hm). by destruct (_ =? 0x10).
  - apply Hst; [|done]. pose proof (vo_A _ Hm). pose proof (vo_X _ Hm).
    destruct (_ =? 0); apply stays_go; try done; by destruct Hm; split.
Qed.


Lemma valid_from_lookup n i f j x :
  valid_from n i f = true → f !! j = Some x → valid_insn n (i + Z.of_nat j) x = true.
Proof.
  revert i j. induction f as [|y f IH]; intros i j; [done|]. cbn [valid_from]. intros H Hj. bools.
  destruct j as [|j]; simplify_eq/=; [by rewrite Z.add_0_r|].
  replace (i + Z.of_nat (S j)) with (i + 1 + Z.of_nat j) by lia. by apply IH.
Qed.

(** A filter as [load] makes it. *)
Record filter_ok (x : sfilt) : Prop := {
  fo_len : 1 ≤ len x ≤ 4096;
  fo_length : Z.of_nat (length (insn x)) = len x;
  fo_insn : Forall insn_ok (insn x);
  fo_valid : valid (insn x) (len x) = Some true
}.

Lemma filter_insn x i :
  filter_ok x → 0 ≤ i < len x →
  ∃ f, (insn x).[i] = Some f ∧ insn_ok f ∧ valid_insn (len x) i f = true ∧
    (i = len x - 1 → class_of (code f) = RET).
Proof.
  intros [Hl Hn HF Hv] Hi. destruct (arr_get_is_Some (insn x) i) as [f Hf]; [lia|].
  exists f. split; [done|]. pose proof Hf as [_ Hf']%arr_get_Some. unfold valid in Hv.
  rewrite take_ge in Hv by lia. destruct (valid_from _ _ _) eqn:Ev; [|done].
  split; [by eapply Forall_lookup_1 in HF|]. split.
  - pose proof (valid_from_lookup _ _ _ _ _ Ev Hf') as H. by rewrite Z.add_0_l, Z2Nat.id in H by lia.
  - intros ->. rewrite Hf in Hv. cbn in Hv. injection Hv as Hv. by apply bool_decide_eq_true in Hv.
Qed.

Lemma loop_ok x d fuel m :
  filter_ok x → is_data d → vm_ok m → 0 ≤ pc m < len x → len x - pc m < Z.of_nat fuel →
  ∃ v, loop fuel (insn x) (len x) d m = Some (Returned v) ∧ 0 ≤ v < 2 ^ 32.
Proof.
  intros Hx Hd. revert m. induction fuel as [|fuel IH]; intros m Hm Hpc Hf; [lia|]. cbn [loop].
  rewrite (proj2 (Z.ltb_lt _ _)) by lia.
  destruct (filter_insn x (pc m) Hx Hpc) as (f & -> & Hok & Hval & Hlast). cbn [mbind option_bind].
  destruct (exec_ok d f m (len x) Hd Hok Hm Hpc) as (o & -> & Ho); [apply (fo_len _ Hx)|done|].
  cbn [mbind option_bind]. destruct o as [m'|v]; [|by exists v]. destruct Ho as (Hm' & Hc & Hp).
  apply IH; cbn [pc].
  - by destruct Hm'; split.
  - destruct (decide (pc m = len x - 1)); [by destruct (Hc (Hlast e))|]. lia.
  - lia.
Qed.

Lemma run_ok x d :
  filter_ok x → is_data d →
  ∃ v, loop (S (Z.to_nat (len x))) (insn x) (len x) d vm0 = Some (Returned v) ∧
    run x d = Some v ∧ 0 ≤ v < 2 ^ 32.
Proof.
  intros Hx Hd. pose proof (fo_len _ Hx).
  destruct (loop_ok x d (S (Z.to_nat (len x))) vm0 Hx Hd) as (v & E & Hv); [|cbn; lia|cbn; lia|].
  { split; [cbn; lia|cbn; lia|done|]. apply Forall_replicate. lia. }
  exists v. split; [done|]. split; [|done]. unfold run. by rewrite E.
Qed.

(** C11: A program that [valid] accepts, of at most 4096 instructions, runs to a
    return instruction or an explicit kill on every input: the interpreter leaves
    neither the program, the 64 bytes of data nor the 16 words of scratch memory,
    ends within as many turns as there are instructions, and never falls off the
    end. *)
Theorem bpf_valid_runs x d :
  1 ≤ len x ≤ 4096 → Z.of_nat (length (insn x)) = len x → Forall insn_ok (insn x) →
  valid (insn x) (len x) = Some true → is_data d →
  ∃ v, loop (S (Z.to_nat (len x))) (insn x) (len x) d vm0 = Some (Returned v) ∧
    run x d = Some v ∧ 0 ≤ v < 2 ^ 32.
Proof. intros. by apply run_ok. Qed.

(** The filter "ld [0]; jeq 59, 0, 1; ret ERRNO|1; ret ALLOW". *)
Definition no_exec : list sock_filter :=
  [Insn 0x20 0 0 0; Insn 0x15 0 1 59; Insn 0x06 0 0 0x50001; Insn 0x06 0 0 0x7fff0000].

Lemma bpf_valid_runs_witness :
  ∃ v, run (Filt 1 4 0 no_exec) (seccomp_data (Regs 59 0 0 0 0 0 0 0)) = Some v ∧ 0 ≤ v < 2 ^ 32.
Proof.
  destruct (bpf_valid_runs (Filt 1 4 0 no_exec) (seccomp_data (Regs 59 0 0 0 0 0 0 0)))
    as (v & _ & E & Hv).
  - cbn. lia.
  - reflexivity.
  - repeat constructor; cbn; lia.
  - vm_compute. reflexivity.
  - split; [vm_compute; reflexivity|]. apply bytes_decided. vm_compute. reflexivity.
  - exists v. split; [exact E|exact Hv].
Defined.

(** ** The verdict of a chain *)

Lemma seccomp_data_ok r : is_data (seccomp_data r).
Proof.
  unfold seccomp_data. split.
  - rewrite !length_app, !(proj1 (le_bytes_ok _ _)). done.
  - rewrite !Forall_app. repeat split; apply le_bytes_ok.
Qed.

(** [best] is the first of the strictest answers among [vs], where the newest filter
    comes first; a call that no filter looks at is allowed. *)
Definition picked (vs : list Z) (best : Z) : Prop :=
  ∃ v1 v2, vs = v1 ++ best :: v2 ∧ Forall (λ v, action best < action v) v1 ∧ Forall (λ v, action best ≤ action v) v2.
Definition strictest (vs : list Z) (best : Z) : Prop := picked (RET_ALLOW :: vs) best.

Lemma verdict_spec l d b0 :
  Forall filter_ok l → is_data d →
  ∃ vs best, Forall2 (λ f v, run f d = Some v ∧ 0 ≤ v < 2 ^ 32) l vs ∧ verdict l d b0 = Some best ∧
    picked (b0 :: vs) best.
Proof.
  intros HF Hd. revert b0. induction HF as [|f l Hf HF IH]; intros b0.
  { exists [], b0. split_and!; [constructor|done|]. exists [], []. by repeat constructor. }
  destruct (run_ok f d Hf Hd) as (v & _ & Hv & Hr). cbn [verdict]. rewrite Hv. cbn [mbind option_bind].
  destruct (IH (if action v <? action b0 then v else b0)) as (vs & best & H2 & -> & v1 & v2 & E & H1 & H3).
  exists (v :: vs), best. split; [by constructor|]. split; [done|].
  destruct (action v <? action b0) eqn:Eb; bools.
  - exists (b0 :: v1), v2. split; [by rewrite E|]. split; [|done]. constructor; [|done].
    assert (action best ≤ action v); [|lia]. destruct v1 as [|u v1]; cbn in E; injection E as <- _; [lia|].
    apply Forall_cons in H1 as [? _]. lia.
  - destruct v1 as [|u v1]; cbn in E; injection E as <- ->.
    + exists [], (v :: v2). split; [done|]. split; [done|]. by constructor.
    + apply Forall_cons in H1 as [? H1]. exists (b0 :: v :: v1), v2. split; [done|]. split; [|done].
      constructor; [done|]. constructor; [lia|done].
Qed.

Lemma strictest_min vs best : strictest vs best →
  (best ∈ RET_ALLOW :: vs) ∧ ∀ v, v ∈ RET_ALLOW :: vs → action best ≤ action v.
Proof.
  intros (v1 & v2 & -> & H1 & H2). rewrite Forall_forall in H1, H2. split; [set_solver|].
  intros v [Hv|[->|Hv]%elem_of_cons]%elem_of_app; [specialize (H1 v Hv); cbn in H1; lia|lia|by apply H2].
Qed.

(** The action part of a verdict. *)
Definition act (v : Z) : Z := Z.land v 0xffff0000.
Definition lets (v : Z) : Prop := act v = RET_ALLOW ∨ act v = RET_LOG.
Definition kills (v : Z) : Prop := act v = RET_KILL ∨ act v = RET_KILL_PROC.

Lemma known_cases a : known_action a = true →
  a ∈ [RET_KILL_PROC; RET_KILL; RET_TRAP; RET_ERRNO; RET_TRACE; RET_LOG; RET_ALLOW].
Proof. unfold known_action. rewrite !orb_true_iff, !Z.eqb_eq. set_solver. Qed.

(** The known actions are ordered as their meaning asks. *)
Lemma known_order v : known_action (act v) = true →
  (lets v ↔ action RET_LOG ≤ action v) ∧ (kills v ↔ action v ≤ action RET_KILL).
Proof.
  intros H%known_cases. unfold lets, kills, action. fold (act v). fold (act RET_LOG). fold (act RET_KILL).
  generalize dependent (act v). intros a Ha.
  repeat (apply elem_of_cons in Ha as [->|Ha]; [vm_compute; intuition congruence|]).
  by apply elem_of_nil in Ha.
Qed.

Lemma strictest_lets vs best :
  Forall (λ v, known_action (act v) = true) vs → strictest vs best →
  (lets best ↔ Forall lets vs) ∧ (kills best ↔ Exists kills vs).
Proof.
  intros HF [Hin Hmin]%strictest_min.
  assert (∀ v, v ∈ RET_ALLOW :: vs → known_action (act v) = true) as Hk.
  { intros v [->|Hv]%elem_of_cons; [done|]. rewrite Forall_forall in HF. auto. }
  destruct (known_order best (Hk _ Hin)) as [HL HK]. rewrite HL, HK. split.
  - rewrite Forall_forall. split.
    + intros H v Hv. apply known_order; [apply Hk; by right|].
      specialize (Hmin v ltac:(by right)). lia.
    + intros H. apply elem_of_cons in Hin as [->|Hin]; [by vm_compute|].
      apply known_order; [apply Hk; by right|auto].
  - rewrite Exists_exists. split.
    + intros H. apply elem_of_cons in Hin as [->|Hin]; [by vm_compute in H|].
      exists best. split; [done|]. apply known_order; [apply Hk; by right|done].
    + intros (v & Hv & Hkv). apply known_order in Hkv; [|apply Hk; by right].
      specialize (Hmin v ltac:(by right)). lia.
Qed.

(** What a verdict means for the call: it runs; it fails with the error in the
    verdict; SIGSYS; the process dies; or, for a tracer or listener that does not
    exist and for actions that are not known, it fails with ENOSYS. *)
Inductive answers (r : regs_t) (p : proc_t) (v : Z) : Z * regs_t * proc_t → Prop :=
  | a_run : lets v → answers r p v (0, r, p)
  | a_errno : act v = RET_ERRNO →
      answers r p v (1, {| r with rax := u64 (- Z.min 4095 (Z.land v 0xffff)) |}, p)
  | a_trap : act v = RET_TRAP →
      answers r p v (2, r, {| p with sys_nr := i32 (rax r); sys_ip := rip r; sys_err := Z.land v 0xffff |})
  | a_kill : kills v → answers r p v (3, r, p)
  | a_other : act v ∉ [RET_ALLOW; RET_LOG; RET_ERRNO; RET_TRAP; RET_KILL; RET_KILL_PROC] →
      answers r p v (1, {| r with rax := u64 (- ENOSYS) |}, p).

Lemma sc_check_filtered fs p r l best :
  sc_mode p ≠ 1 → chain (S (size fs)) fs (sf p) = Some l → verdict l (seccomp_data r) RET_ALLOW = Some best →
  ∃ o, sc_check fs p r = Some o ∧ answers r p best o.
Proof.
  intros Hm Hc Hv. unfold sc_check. rewrite (proj2 (Z.eqb_neq _ _)), Hc by done. cbn [mbind option_bind].
  rewrite Hv. cbn [mbind option_bind]. fold (act best).
  destruct ((act best =? RET_ALLOW) || (act best =? RET_LOG)) eqn:E1; bools.
  { eexists. split; [done|]. apply a_run. unfold lets. destruct E1; bools; auto. }
  destruct (act best =? RET_ERRNO) eqn:E2; bools.
  { eexists. split; [done|]. replace (if 4095 <? _ then _ else _) with (Z.min 4095 (Z.land best 0xffff)); [by apply a_errno|].
    destruct (4095 <? Z.land best 0xffff) eqn:E; bools; lia. }
  destruct (act best =? RET_TRAP) eqn:E3; bools; [eexists; split; [done|]; by apply a_trap|].
  destruct ((act best =? RET_KILL) || (act best =? RET_KILL_PROC)) eqn:E4; bools.
  { eexists. split; [done|]. apply a_kill. unfold kills. destruct E4; bools; auto. }
  eexists. split; [done|]. apply a_other. set_solver.
Qed.

Lemma answers_code r p v o : answers r p v o → (o.1.1 = 0 ↔ lets v) ∧ (o.1.1 = 3 ↔ kills v).
Proof.
  unfold lets, kills. intros Ho. destruct Ho as [Ho|E|E|Ho|H]; cbn [fst].
  - split; [done|]. unfold lets in Ho. unfold RET_ALLOW, RET_LOG, RET_KILL, RET_KILL_PROC in *. lia.
  - rewrite E. vm_compute. intuition discriminate.
  - rewrite E. vm_compute. intuition discriminate.
  - split; [|done]. unfold kills in Ho. unfold RET_ALLOW, RET_LOG, RET_KILL, RET_KILL_PROC in *. lia.
  - rewrite !not_elem_of_cons in H. lia.
Qed.

(** C13: in strict mode (1) a system call runs just when it is read, write, exit,
    exit_group or rt_sigreturn, and the process dies otherwise, whatever filters it
    has.  In the other modes every filter of the chain runs to an answer, and the
    call is treated as the strictest of the answers says, the newest filter's among
    equally strict ones: it runs, fails with the error given, traps, kills, or fails
    with ENOSYS.  If all answers are known actions the call runs just when every
    filter allows it (or asks to log it), and the process dies just when one filter
    asks for that. *)
Theorem sc_check_strictest fs p r l :
  chain (S (size fs)) fs (sf p) = Some l → Forall filter_ok l →
  ∃ vs o, Forall2 (λ f v, run f (seccomp_data r) = Some v) l vs ∧ sc_check fs p r = Some o ∧
    if sc_mode p =? 1 then o = (if decide (rax r ∈ [0; 1; 15; 60; 231]) then 0 else 3, r, p)
    else ∃ best, strictest vs best ∧ answers r p best o ∧
      (Forall (λ v, known_action (act v) = true) vs →
       (o.1.1 = 0 ↔ Forall lets vs) ∧ (o.1.1 = 3 ↔ Exists kills vs)).
Proof.
  intros Hc HF. destruct (verdict_spec l (seccomp_data r) RET_ALLOW HF (seccomp_data_ok r))
    as (vs & best & H2 & Ev & Hst).
  assert (Forall2 (λ f v, run f (seccomp_data r) = Some v) l vs) as H2'.
  { eapply Forall2_impl; [exact H2|]. naive_solver. }
  exists vs. destruct (sc_mode p =? 1) eqn:Em.
  { eexists. split; [done|]. unfold sc_check. rewrite Em. split; [done|]. repeat f_equal.
    assert ((rax r =? 0) || (rax r =? 1) || (rax r =? 60) || (rax r =? 231) || (rax r =? 15) = true
      ↔ rax r ∈ [0; 1; 15; 60; 231]) as Hd by (rewrite !orb_true_iff, !Z.eqb_eq; set_solver).
    case_decide as Hin; [by rewrite (proj2 Hd Hin)|].
    destruct (_ || _); [by destruct Hin; apply Hd|done]. }
  bools. destruct (sc_check_filtered fs p r l best Em Hc Ev) as (o & Eo & Ho).
  exists o. split; [done|]. split; [done|]. exists best. split; [done|]. split; [done|]. intros Hk.
  destruct (answers_code _ _ _ _ Ho) as [-> ->]. by apply strictest_lets.
Qed.

Definition one_filter : gmap Z sfilt := {[ 4096 := Filt 1 4 0 no_exec ]}.
Definition proc1 (m f : Z) : proc_t := Proc true 7 m false f 0 0 0 false 0 0.

Lemma no_exec_ok n a : filter_ok (Filt n 4 a no_exec).
Proof. split; [cbn; lia|done| |vm_compute; done]. repeat constructor; cbn; lia. Qed.

Lemma sc_check_strictest_witness :
  ∃ vs o best, sc_check one_filter (proc1 2 4096) (Regs 59 0 0 0 0 0 0 0) = Some o ∧
    strictest vs best ∧ answers (Regs 59 0 0 0 0 0 0 0) (proc1 2 4096) best o.
Proof.
  destruct (sc_check_strictest one_filter (proc1 2 4096) (Regs 59 0 0 0 0 0 0 0)
              [Filt 1 4 0 no_exec]) as (vs & o & _ & E & best & Hs & Ha & _).
  - vm_compute. reflexivity.
  - by apply Forall_singleton, no_exec_ok.
  - exists vs, o, best. split; [exact E|]. by split.
Defined.

(** Strict mode sheds the filters: a process whose filter kills every system
    call but seccomp (317) may switch to strict mode, which nothing refuses, and
    then its writes, which the filter would have killed, run. *)
Theorem strict_mode_sheds_filters :
  let deny := [Insn 0x20 0 0 0; Insn 0x15 0 1 317; Insn 0x06 0 0 RET_ALLOW; Insn 0x06 0 0 RET_KILL_PROC] in
  let s := St {[ 4096 := Filt 1 4 0 deny ]} [Some (proc1 2 4096)] in
  let write := Regs 1 0 0 0 0 0 0 0 in
  filter_ok (Filt 1 4 0 deny) ∧
  (fst ∘ fst <$> sc_check (fs s) (proc1 2 4096) write) = Some 3 ∧
  (fst ∘ fst <$> sc_check (fs s) (proc1 2 4096) (Regs 317 0 0 0 0 0 0 0)) = Some 0 ∧
  ∃ p, sc_seccomp (λ _ _, false) (λ _, 0) None s 0 0 0 0 = Some (0, St (fs s) [Some p]) ∧
    sf p = 4096 ∧ (fst ∘ fst <$> sc_check (fs s) p write) = Some 0.
Proof.
  cbv zeta. split; [|split; [vm_compute; reflexivity|split; [vm_compute; reflexivity|]]].
  - split; [cbn; lia|done| |vm_compute; done]. unfold insn_ok, RET_ALLOW, RET_KILL_PROC. cbn.
    repeat (apply Forall_cons; split; [cbn; lia|]). apply Forall_nil_2.
  - eexists. split; [vm_compute; reflexivity|]. split; vm_compute; reflexivity.
Qed.

(** ** The filters are counted right *)

Definition psf (o : option proc_t) : Z := match o with Some p => sf p | None => 0 end.

(** How many processes and how many filters point at [f]. *)
Definition from_procs (ps : list (option proc_t)) (f : Z) : Z := countb (λ o, psf o =? f) ps.
Definition from_filters (m : gmap Z sfilt) (f : Z) : Z := countb (λ kx, prev kx.2 =? f) (map_to_list m).

Lemma from_filters_insert m a x f :
  m !! a = None → from_filters (<[a := x]> m) f = b2z (prev x =? f) + from_filters m f.
Proof.
  intros H. unfold from_filters. by rewrite (countb_perm _ _ _ (map_to_list_insert m a x H)).
Qed.

Lemma from_filters_delete m a x f :
  m !! a = Some x → from_filters (delete a m) f = from_filters m f - b2z (prev x =? f).
Proof.
  intros H. rewrite <- (insert_delete_id m a x H) at 2.
  rewrite from_filters_insert by apply lookup_delete_eq. lia.
Qed.

Lemma from_filters_update m a x y f :
  m !! a = Some x → prev y = prev x → from_filters (<[a := y]> m) f = from_filters m f.
Proof.
  intros H E. rewrite <- insert_delete_eq, from_filters_insert by apply lookup_delete_eq.
  rewrite (from_filters_delete _ _ x) by done. rewrite E. lia.
Qed.

Lemma from_procs_set ps i o o' ps' f :
  ps.[i] = Some o → ps.[i <- o'] = Some ps' →
  from_procs ps' f = from_procs ps f - b2z (psf o =? f) + b2z (psf o' =? f).
Proof.
  intros [_ Ho]%arr_get_Some [_ ->]%arr_set_Some. unfold from_procs.
  apply (countb_insert (λ o, psf o =? f) _ _ _ _ Ho).
Qed.

(** A pointer to a filter, or NULL. *)
Definition points (m : gmap Z sfilt) (f : Z) : Prop := f = 0 ∨ is_Some (m !! f).

(** [pend] is one more reference, held by the code that runs (0 when none);
    [rk] orders the filters so that [prev] goes down. *)
Record refs_inv (rk : Z → nat) (m : gmap Z sfilt) (ps : list (option proc_t)) (pend : Z) : Prop := {
  ri_null : m !! 0 = None;
  ri_count f x : m !! f = Some x →
    refs x = from_procs ps f + from_filters m f + b2z (pend =? f) ∧ 1 ≤ refs x;
  ri_prev f x : m !! f = Some x → points m (prev x) ∧ (prev x ≠ 0 → (rk (prev x) < rk f)%nat);
  ri_procs o : o ∈ ps → points m (psf o);
  ri_pend : points m pend;
  ri_ok f x : m !! f = Some x → filter_ok x
}.

(** Room for all counts in an int. *)
Definition fits (m : gmap Z sfilt) (ps : list (option proc_t)) : Prop :=
  Z.of_nat (size m) + Z.of_nat (length ps) + 2 < 2 ^ 31.

Lemma refs_bound rk m ps pend f x :
  refs_inv rk m ps pend → fits m ps → m !! f = Some x → 1 ≤ refs x < 2 ^ 31 - 1.
Proof.
  intros H Hf Hx. destruct (ri_count _ _ _ _ H f x Hx) as [E ?]. split; [done|].
  pose proof (countb_range (λ o, psf o =? f) ps). unfold fits in Hf.
  pose proof (countb_range (λ kx : Z * sfilt, prev kx.2 =? f) (map_to_list m)) as Hm.
  rewrite length_map_to_list in Hm. unfold from_procs, from_filters in E.
  destruct (pend =? f); simpl in E; lia.
Qed.

Lemma filter_ok_ext x y : filter_ok x → insn y = insn x → len y = len x → filter_ok y.
Proof. intros [] E1 E2. split; rewrite ?E1, ?E2; done. Qed.

(** A change of one count. *)
Lemma points_update m f x y g : m !! f = Some x → points m g → points (<[f := y]> m) g.
Proof.
  intros Hx [->|H]; [by left|right]. destruct (decide (g = f)) as [->|].
  - rewrite lookup_insert_eq. eauto.
  - by rewrite lookup_insert_ne.
Qed.

Lemma from_filters_zero m f g y : from_filters m f = 0 → m !! g = Some y → prev y ≠ f.
Proof.
  unfold from_filters. rewrite countb_none, Forall_forall. intros H Hg E.
  specialize (H (g, y) (proj2 (elem_of_map_to_list _ _ _) Hg)). cbn in H. bools. done.
Qed.

Lemma from_procs_zero ps f o : from_procs ps f = 0 → o ∈ ps → psf o ≠ f.
Proof.
  unfold from_procs. rewrite countb_none, Forall_forall. intros H Ho E. specialize (H o Ho).
  cbn in H. bools. done.
Qed.

Lemma from_nonneg m ps f : 0 ≤ from_filters m f ∧ 0 ≤ from_procs ps f.
Proof.
  pose proof (countb_range (λ o, psf o =? f) ps).
  pose proof (countb_range (λ kx : Z * sfilt, prev kx.2 =? f) (map_to_list m)).
  unfold from_filters, from_procs. lia.
Qed.

(** One count changes by what moves between the code and the processes. *)
Lemma refs_inv_update rk m ps pend ps' pend' f x y :
  refs_inv rk m ps pend → m !! f = Some x →
  prev y = prev x → insn y = insn x → len y = len x →
  refs y = from_procs ps' f + from_filters m f + b2z (pend' =? f) → 1 ≤ refs y →
  (∀ g, g ≠ f → g ≠ 0 → from_procs ps' g + b2z (pend' =? g) = from_procs ps g + b2z (pend =? g)) →
  (∀ o, o ∈ ps' → points m (psf o)) → points m pend' →
  refs_inv rk (<[f := y]> m) ps' pend'.
Proof.
  intros H Hx Ep Ei El Hr Hr1 Hg Hps Hpd.
  assert (f ≠ 0) by (intros ->; rewrite (ri_null _ _ _ _ H) in Hx; done). split.
  - rewrite lookup_insert_ne by done. apply (ri_null _ _ _ _ H).
  - intros g z Hz. rewrite (from_filters_update m f x y g Hx Ep).
    destruct (decide (g = f)) as [->|Hne].
    + rewrite lookup_insert_eq in Hz. by simplify_eq.
    + rewrite lookup_insert_ne in Hz by done. destruct (ri_count _ _ _ _ H g z Hz) as [E ?].
      assert (g ≠ 0) by (intros ->; rewrite (ri_null _ _ _ _ H) in Hz; done).
      specialize (Hg g Hne ltac:(done)). lia.
  - intros g z Hz. destruct (decide (g = f)) as [->|Hne].
    + rewrite lookup_insert_eq in Hz. simplify_eq. rewrite Ep. destruct (ri_prev _ _ _ _ H f x Hx).
      split; [by eapply points_update|done].
    + rewrite lookup_insert_ne in Hz by done. destruct (ri_prev _ _ _ _ H g z Hz).
      split; [by eapply points_update|done].
  - intros o Ho. eapply points_update; eauto.
  - by eapply points_update.
  - intros g z Hz. destruct (decide (g = f)) as [->|Hne].
    + rewrite lookup_insert_eq in Hz. simplify_eq. eapply filter_ok_ext; [apply (ri_ok _ _ _ _ H f x Hx)|done..].
    + rewrite lookup_insert_ne in Hz by done. by apply (ri_ok _ _ _ _ H g).
Qed.

(** The filter behind the last reference goes, its own reference is released next. *)
Lemma refs_inv_delete rk m ps f x :
  refs_inv rk m ps f → m !! f = Some x → refs x = 1 → refs_inv rk (delete f m) ps (prev x).
Proof.
  intros H Hx Hr. destruct (ri_count _ _ _ _ H f x Hx) as [E _]. rewrite Z.eqb_refl in E. simpl in E.
  pose proof (from_nonneg m ps f). assert (from_filters m f = 0 ∧ from_procs ps f = 0) as [Hf Hp] by lia.
  assert (f ≠ 0) by (intros ->; rewrite (ri_null _ _ _ _ H) in Hx; done).
  assert (∀ g, points m g → g ≠ f → points (delete f m) g) as Hpt.
  { intros g [->|Hg] Hne; [by left|right]. by rewrite lookup_delete_ne. }
  destruct (ri_prev _ _ _ _ H f x Hx) as [Hpp Hrk]. split.
  - rewrite lookup_delete_ne by done. apply (ri_null _ _ _ _ H).
  - intros g z [Hne Hz]%lookup_delete_Some. rewrite (from_filters_delete _ _ _ _ Hx).
    destruct (ri_count _ _ _ _ H g z Hz) as [Eg ?]. rewrite (proj2 (Z.eqb_neq f g)) in Eg by done.
    simpl in Eg. lia.
  - intros g z [Hne Hz]%lookup_delete_Some. destruct (ri_prev _ _ _ _ H g z Hz) as [? ?].
    split; [|done]. apply Hpt; [done|]. by eapply from_filters_zero.
  - intros o Ho. apply Hpt; [by apply (ri_procs _ _ _ _ H)|by eapply from_procs_zero].
  - apply Hpt; [done|]. intros Heq. specialize (Hrk ltac:(lia)). rewrite Heq in Hrk. lia.
  - intros g z [_ Hz]%lookup_delete_Some. by apply (ri_ok _ _ _ _ H g).
Qed.

Lemma put_loop_inv rk ps fuel m f :
  refs_inv rk m ps f → fits m ps → (size m < fuel)%nat →
  ∃ m', put_loop fuel m f = Some m' ∧ refs_inv rk m' ps 0 ∧ (size m' ≤ size m)%nat.
Proof.
  revert m f. induction fuel as [|fuel IH]; intros m f H Hf Hfuel; [lia|]. cbn [put_loop].
  destruct (f =? 0) eqn:E0; bools; [subst; by exists m|].
  destruct (ri_pend _ _ _ _ H) as [|[x Hx]]; [done|]. rewrite Hx. cbn [mbind option_bind].
  pose proof (refs_bound _ _ _ _ _ _ H Hf Hx). rewrite i32_small by lia.
  destruct (refs x - 1 =? 0) eqn:E1; bools.
  - pose proof (map_size_delete_Some f m (mk_is_Some _ _ Hx)) as Hs.
    assert (size m ≠ 0%nat) by (intros Hz%map_size_empty_inv; by subst).
    destruct (IH (delete f m) (prev x)) as (m' & -> & Hi & Hle).
    + apply refs_inv_delete; [done|done|lia].
    + unfold fits in *. lia.
    + lia.
    + exists m'. split_and!; [done|done|lia].
  - eexists. split; [done|]. split.
    + destruct (ri_count _ _ _ _ H f x Hx) as [E _]. rewrite Z.eqb_refl in E. simpl in E.
      eapply (refs_inv_update rk m ps f ps 0); [done|exact Hx|done|done|done| |cbn; lia| |apply (ri_procs _ _ _ _ H)|by left].
      * cbn [refs]. rewrite (proj2 (Z.eqb_neq 0 f)) by lia. simpl. lia.
      * intros g ??. rewrite !(proj2 (Z.eqb_neq _ g)) by done. lia.
    + rewrite map_size_insert_Some by eauto. done.
Qed.

Lemma sc_put_inv rk ps m f :
  refs_inv rk m ps f → fits m ps →
  ∃ m', sc_put m f = Some m' ∧ refs_inv rk m' ps 0 ∧ (size m' ≤ size m)%nat.
Proof. intros. apply put_loop_inv; [done|done|lia]. Qed.

(** A process slot is made to point at [f]; what it pointed at is left to release. *)
Lemma repoint rk m ps i o o' ps' :
  refs_inv rk m ps 0 → fits m ps → ps.[i] = Some o → ps.[i <- o'] = Some ps' → points m (psf o') →
  ∃ m', sc_dup m (psf o') = Some (psf o', m') ∧ refs_inv rk m' ps' (psf o) ∧ size m' = size m.
Proof.
  intros H Hf Ho Hps Hpt.
  assert (∀ q, q ∈ ps' → points m (psf q)) as Hq.
  { intros q [->|Hq]%(arr_set_elem _ _ _ _ _ Hps); [done|]. by apply (ri_procs _ _ _ _ H). }
  assert (points m (psf o)) as Hpo.
  { by apply (ri_procs _ _ _ _ H), (arr_get_elem _ _ _ Ho). }
  unfold sc_dup. destruct (psf o' =? 0) eqn:E0; bools.
  - exists m. rewrite E0 in *. split_and!; [done| |done]. destruct H as [Hn Hc Hp _ _ Hk]. split; try done.
    intros f x Hx. rewrite (from_procs_set _ _ _ _ _ f Ho Hps). destruct (Hc f x Hx) as [E ?].
    assert (f ≠ 0) by (intros ->; congruence). rewrite E0. rewrite (proj2 (Z.eqb_neq 0 f)) in * by done.
    simpl in *. lia.
  - destruct Hpt as [|[x Hx]]; [done|]. rewrite Hx. cbn [mbind option_bind].
    pose proof (refs_bound _ _ _ _ _ _ H Hf Hx). rewrite i32_small by lia.
    eexists. split; [done|]. split; [|by rewrite map_size_insert_Some by eauto].
    eapply (refs_inv_update rk m ps 0 ps' (psf o)); [done|exact Hx|done|done|done| |cbn; lia| |done|done].
    + cbn [refs]. destruct (ri_count _ _ _ _ H _ _ Hx) as [E _]. rewrite (from_procs_set _ _ _ _ _ _ Ho Hps).
      rewrite (proj2 (Z.eqb_neq 0 _)) in E by lia. rewrite Z.eqb_refl. simpl in *. lia.
    + intros g Hg Hg0. rewrite (from_procs_set _ _ _ _ _ _ Ho Hps).
      rewrite (proj2 (Z.eqb_neq (psf o') g)), (proj2 (Z.eqb_neq 0 g)) by congruence. simpl. lia.
Qed.

(** References that nothing will put: those of children that were not started.
    They count like processes that never end. *)
Definition ghost (f : Z) : option proc_t := Some (Proc false 0 0 false f 0 0 0 false 0 0).
Definition users (s : state) (lost : list Z) : list (option proc_t) := procs s ++ (ghost <$> lost).

Definition state_inv (lost : list Z) (s : state) : Prop := ∃ rk, refs_inv rk (fs s) (users s lost) 0.
Definition room (lost : list Z) (s : state) : Prop := fits (fs s) (users s lost).

(** Room for one filter and one reference more. *)
Definition spare (lost : list Z) (s : state) : Prop :=
  Z.of_nat (size (fs s)) + Z.of_nat (length (procs s)) + Z.of_nat (length lost) + 4 < 2 ^ 31.

Lemma users_length s lost : length (users s lost) = (length (procs s) + length lost)%nat.
Proof. unfold users. by rewrite length_app, length_fmap. Qed.

Lemma spare_room lost s : spare lost s → room lost s.
Proof. unfold spare, room, fits. rewrite users_length. lia. Qed.

Lemma users_get s lost i o : (procs s).[i] = Some o → (users s lost).[i] = Some o.
Proof.
  rewrite !arr_get_Some. intros [? H]. split; [done|]. by apply lookup_app_l_Some.
Qed.

Lemma filter_users_set s lost i o ps m :
  (procs s).[i <- o] = Some ps → (users s lost).[i <- o] = Some (users (St m ps) lost).
Proof.
  rewrite !arr_set_Some. intros [Hi ->]. rewrite users_length. split; [lia|].
  unfold users. cbn [procs]. symmetry. apply insert_app_l. lia.
Qed.

Lemma points_sf lost s i p : state_inv lost s → (procs s).[i] = Some (Some p) → points (fs s) (sf p).
Proof.
  intros [rk H] Hp. apply (ri_procs _ _ _ _ H (Some p)), (arr_get_elem _ _ _ (users_get _ _ _ _ Hp)).
Qed.

Lemma users_count s lost f :
  from_procs (users s lost) f = from_procs (procs s) f + countb (Z.eqb f) lost.
Proof.
  unfold from_procs, users. rewrite countb_app. f_equal.
  induction lost as [|g lost IH]; [done|]. cbn [fmap list_fmap countb]. rewrite IH.
  cbn [ghost psf sf]. by rewrite Z.eqb_sym.
Qed.

(** The users may be listed in another way. *)
Lemma refs_inv_ext rk m ps ps' :
  refs_inv rk m ps 0 → (∀ f, f ≠ 0 → from_procs ps' f = from_procs ps f) →
  (∀ o, o ∈ ps' → points m (psf o)) → refs_inv rk m ps' 0.
Proof.
  intros [Hn Hc Hp _ Hpd Hk] E Hq. split; try done. intros f x Hx. rewrite E; [by apply Hc|].
  intros ->. congruence.
Qed.

(** What a process change that keeps [sf] does. *)
Lemma same_sf_inv lost s i p p' ps :
  state_inv lost s → (procs s).[i] = Some (Some p) → sf p' = sf p → (procs s).[i <- Some p'] = Some ps →
  state_inv lost (St (fs s) ps).
Proof.
  intros [rk [Hn Hc Hp Hps Hpd Hk]] Hi%(users_get _ lost) Hsf Hs%(filter_users_set _ lost _ _ _ (fs s)).
  exists rk. split; try done; cbn [fs].
  - intros f x Hx. rewrite (from_procs_set _ _ _ _ _ f Hi Hs). cbn [psf]. rewrite Hsf.
    destruct (Hc f x Hx). lia.
  - intros o [->|Ho]%(arr_set_elem _ _ _ _ _ Hs); [|by apply Hps]. cbn. rewrite Hsf.
    apply (Hps (Some p)), (arr_get_elem _ _ _ Hi).
Qed.

Lemma fork_filters_inv lost s pi parent child i o started :
  state_inv lost s → room lost s → (procs s).[pi] = Some (Some parent) → (procs s).[i] = Some o → psf o = 0 →
  ∃ s', fork_filters s parent child i started = Some s' ∧
    state_inv (if started then lost else sf parent :: lost) s'.
Proof.
  intros Hi Hr Hp Ho H0. pose proof (points_sf _ _ _ _ Hi Hp) as Hpt. destruct Hi as [rk H].
  set (o' := Some {| child with nnp := nnp parent; sc_mode := sc_mode parent; sf := sf parent |}).
  destruct (set_total _ _ _ o' Ho) as [ps Hps]. pose proof (users_get _ lost _ _ Ho) as Ho'.
  assert (∀ m, (users s lost).[i <- o'] = Some (users (St m ps) lost)) as Hps' by (intros; by apply filter_users_set).
  destruct (repoint rk (fs s) (users s lost) i o o' _ H Hr Ho' (Hps' (fs s)) Hpt) as (m & Hd & Hm & _).
  cbn [o' psf sf] in Hd. unfold fork_filters. rewrite Hd. cbn [mbind option_bind].
  unfold o' in Hps. rewrite Hps. cbn [mbind option_bind]. rewrite H0 in Hm.
  destruct started; cbn [mbind option_bind]; [eexists; split; [done|]; by exists rk|].
  assert (ps.[i] = Some o') as Hi' by (by rewrite (arr_get_set _ _ _ _ i Hps), decide_True).
  destruct (set_total _ _ _ None Hi') as [ps2 Hps2]. rewrite Hps2. cbn [mbind option_bind].
  eexists. split; [done|]. exists rk. cbn [fs]. eapply refs_inv_ext; [exact Hm| |].
  - intros f Hf. unfold users, from_procs. cbn [procs]. rewrite !countb_app. cbn [fmap list_fmap countb].
    change (countb (λ o, psf o =? f) ps2) with (from_procs ps2 f).
    rewrite (from_procs_set _ _ _ _ _ f Hi' Hps2). unfold from_procs. cbn [o' psf sf ghost].
    rewrite (proj2 (Z.eqb_neq 0 f)) by done. simpl. lia.
  - intros q Hq. unfold users in Hq. cbn [procs] in Hq. apply elem_of_app in Hq as [Hq|Hq].
    + apply (arr_set_elem _ _ _ _ _ Hps2) in Hq as [->|Hq]; [by left|].
      apply (ri_procs _ _ _ _ Hm). unfold users. cbn [procs]. apply elem_of_app. by left.
    + cbn [fmap list_fmap] in Hq. apply elem_of_cons in Hq as [->|Hq].
      * change (psf (ghost (sf parent))) with (psf o'). apply (ri_procs _ _ _ _ Hm).
        unfold users. cbn [procs]. apply elem_of_app. left. apply (arr_get_elem _ _ _ Hi').
      * apply (ri_procs _ _ _ _ Hm). unfold users. apply elem_of_app. by right.
Qed.

Lemma exit_filters_inv lost s i p :
  state_inv lost s → room lost s → (procs s).[i] = Some (Some p) →
  ∃ s', exit_filters s i = Some s' ∧ state_inv lost s'.
Proof.
  intros [rk H] Hr Hp. unfold exit_filters. rewrite Hp. cbn [mbind option_bind].
  set (o' := Some {| p with sf := 0 |}). destruct (set_total _ _ _ o' Hp) as [ps Hps].
  pose proof (filter_users_set _ lost _ _ _ (fs s) Hps) as Hps'.
  destruct (repoint rk (fs s) _ i _ o' _ H Hr (users_get _ lost _ _ Hp) Hps' ltac:(by left)) as (m & Hd & Hm & Hsz).
  injection Hd as <-. cbn [psf] in Hm.
  destruct (sc_put_inv rk _ (fs s) (sf p) Hm) as (m' & -> & Hm' & _).
  { unfold room, fits in *. by rewrite (arr_set_length _ _ _ _ Hps'). }
  cbn [mbind option_bind]. rewrite Hps. eexists. split; [done|]. by exists rk.
Qed.

Lemma tsync_one_inv lost me p tg s i o :
  state_inv lost s → room lost s → (procs s).[me] = Some (Some p) → (procs s).[i] = Some o →
  ∃ s', tsync_one me tg (sf p) s i = Some s' ∧ state_inv lost s' ∧ room lost s' ∧
    (procs s').[me] = Some (Some p) ∧ length (procs s') = length (procs s).
Proof.
  intros Hi Hr Hme Ho. pose proof (points_sf _ _ _ _ Hi Hme) as Hpt. unfold tsync_one. rewrite Ho.
  cbn [mbind option_bind]. destruct o as [q|]; [|by exists s].
  destruct ((i =? me) || _ || _) eqn:E; [by exists s|]. bools. destruct Hi as [rk Hinv].
  set (o' := Some {| q with sf := sf p; sc_mode := 2; nnp := true |}).
  destruct (set_total _ _ _ o' Ho) as [ps Hps]. pose proof (filter_users_set _ lost _ _ _ (fs s) Hps) as Hps'.
  destruct (repoint rk (fs s) _ i _ o' _ Hinv Hr (users_get _ lost _ _ Ho) Hps' Hpt) as (m & Hd & Hm & Hsz).
  cbn [o' psf sf] in Hd, Hm. rewrite Hd. cbn [mbind option_bind]. pose proof (arr_set_length _ _ _ _ Hps) as Hl.
  assert (∀ m', (size m' ≤ size (fs s))%nat → room lost (St m' ps)) as Hf.
  { unfold room, fits in *. intros m' Hle. rewrite !users_length in *. cbn [fs procs]. lia. }
  destruct (sc_put_inv rk _ m (sf q) Hm) as (m' & -> & Hm' & Hle); [by apply (Hf m); lia|].
  cbn [mbind option_bind]. unfold o' in Hps. rewrite Hps. eexists. split; [done|]. split; [by exists rk|]. cbn [procs].
  split; [apply Hf; lia|]. split; [|done].
  rewrite (arr_get_set _ _ _ _ me Hps), decide_False by done. done.
Qed.

Lemma tsync_inv lost me p tg ks s :
  state_inv lost s → room lost s → (procs s).[me] = Some (Some p) →
  Forall (λ i, 0 ≤ i < Z.of_nat (length (procs s))) ks →
  ∃ s', tsync me tg (sf p) ks s = Some s' ∧ state_inv lost s'.
Proof.
  revert s. induction ks as [|i ks IH]; intros s Hi Hr Hme HF; [by exists s|]. cbn [tsync].
  apply Forall_cons in HF as [Hri HF]. destruct (arr_get_is_Some (procs s) i Hri) as [o Ho].
  destruct (tsync_one_inv lost me p tg s i o Hi Hr Hme Ho) as (s1 & -> & Hi1 & Hr1 & Hme1 & Hl).
  cbn [mbind option_bind]. apply IH; try done. by rewrite Hl.
Qed.

(** A new filter on top of the chain of [me]. *)
Lemma install_inv lost s me p p' a x ps :
  state_inv lost s → (procs s).[me] = Some (Some p) → a ≠ 0 → fs s !! a = None →
  filter_ok x → refs x = 1 → prev x = sf p → sf p' = a → (procs s).[me <- Some p'] = Some ps →
  state_inv lost (St (<[a := x]> (fs s)) ps).
Proof.
  intros Hi Hme Ha Hfr Hok Hr1 Hpx Hsf Hps. pose proof (points_sf _ _ _ _ Hi Hme) as Hpp.
  apply (users_get _ lost) in Hme. apply (filter_users_set _ lost _ _ _ (<[a := x]> (fs s))) in Hps.
  destruct Hi as [rk H].
  assert (∀ g, points (fs s) g → g ≠ a) as Hne by (intros g [->|[? Hg]]; congruence).
  assert (∀ g, points (fs s) g → points (<[a := x]> (fs s)) g) as Hpt.
  { intros g Hg. pose proof (Hne g Hg). destruct Hg as [->|Hg]; [by left|right]. by rewrite lookup_insert_ne. }
  assert (from_procs (users s lost) a = 0) as Hp0.
  { apply countb_none, Forall_forall. intros o Ho. apply Z.eqb_neq, Hne, (ri_procs _ _ _ _ H _ Ho). }
  assert (from_filters (fs s) a = 0) as Hf0.
  { apply countb_none, Forall_forall. intros [g z] Hg%elem_of_map_to_list.
    apply Z.eqb_neq, Hne, (ri_prev _ _ _ _ H g z Hg). }
  exists (λ g, if decide (g = a) then S (rk (sf p)) else rk g). split; cbn [fs].
  - rewrite lookup_insert_ne by done. apply (ri_null _ _ _ _ H).
  - intros f z Hz. rewrite from_filters_insert, (from_procs_set _ _ _ _ _ f Hme Hps) by done.
    cbn [psf]. rewrite Hsf, Hpx. destruct (decide (f = a)) as [->|Hfa].
    + rewrite lookup_insert_eq in Hz. simplify_eq. rewrite Hp0, Hf0, Z.eqb_refl.
      rewrite (proj2 (Z.eqb_neq (sf p) _)), (proj2 (Z.eqb_neq 0 _)) by auto. simpl. lia.
    + rewrite lookup_insert_ne in Hz by done. destruct (ri_count _ _ _ _ H f z Hz) as [E ?].
      rewrite (proj2 (Z.eqb_neq a f)) by done. change (b2z false) with 0. lia.
  - intros f z Hz. destruct (decide (f = a)) as [->|Hfa].
    + rewrite lookup_insert_eq in Hz. simplify_eq. rewrite Hpx. split; [by apply Hpt|]. intros _.
      rewrite decide_False by auto. lia.
    + rewrite lookup_insert_ne in Hz by done. destruct (ri_prev _ _ _ _ H f z Hz) as [? Hrk].
      split; [by apply Hpt|]. intros. rewrite decide_False by auto. auto.
  - intros o [->|Ho]%(arr_set_elem _ _ _ _ _ Hps); [|by apply Hpt, (ri_procs _ _ _ _ H)].
    cbn. rewrite Hsf. right. rewrite lookup_insert_eq. eauto.
  - by left.
  - intros f z Hz. destruct (decide (f = a)) as [->|].
    + rewrite lookup_insert_eq in Hz. by simplify_eq.
    + rewrite lookup_insert_ne in Hz by done. by apply (ri_ok _ _ _ _ H f).
Qed.

(** ** Chains are finite *)

(** The addresses of a chain. *)
Inductive linked (m : gmap Z sfilt) : Z → list Z → list sfilt → Prop :=
  | linked_nil : linked m 0 [] []
  | linked_cons f x ks l :
      f ≠ 0 → m !! f = Some x → linked m (prev x) ks l → linked m f (f :: ks) (x :: l).

Lemma linked_exists rk m ps f :
  refs_inv rk m ps 0 → points m f →
  ∃ ks l, linked m f ks l ∧ Forall filter_ok l ∧ NoDup ks ∧
    Forall (λ g, is_Some (m !! g) ∧ (rk g ≤ rk f)%nat) ks.
Proof.
  intros H. remember (rk f) as n eqn:En. revert f En.
  induction (lt_wf n) as [n _ IH]. intros f -> [->|[x Hx]].
  { exists [], []. by repeat constructor. }
  assert (f ≠ 0) as Hf0 by (intros ->; rewrite (ri_null _ _ _ _ H) in Hx; done).
  destruct (ri_prev _ _ _ _ H f x Hx) as [Hpp Hlt].
  destruct (decide (prev x = 0)) as [E0|E0].
  - exists [f], [x]. split_and!.
    + constructor; [done|done|]. rewrite E0. constructor.
    + apply Forall_singleton, (ri_ok _ _ _ _ H f x Hx).
    + apply NoDup_singleton.
    + apply Forall_singleton. eauto.
  - destruct (IH (rk (prev x)) (Hlt E0) (prev x) eq_refl Hpp) as (ks & l & Hl & HF & Hn & Hk).
    exists (f :: ks), (x :: l). specialize (Hlt E0). split_and!.
    + by constructor.
    + constructor; [apply (ri_ok _ _ _ _ H f x Hx)|done].
    + constructor; [|done]. intros Hin. rewrite Forall_forall in Hk. destruct (Hk f Hin). lia.
    + constructor; [eauto|]. eapply Forall_impl; [exact Hk|]. cbn. intros g [? ?]. split; [done|lia].
Qed.

Lemma linked_chain m f ks l fuel : linked m f ks l → (length ks < fuel)%nat → chain fuel m f = Some l.
Proof.
  intros H. revert fuel. induction H as [|f x ks l Hf Hx _ IH]; intros [|fuel] Hn; cbn [chain]; try (cbn in Hn; lia).
  - done.
  - rewrite (proj2 (Z.eqb_neq _ _)), Hx by done. cbn in *. rewrite IH by lia. done.
Qed.

Lemma chain_total lost s f :
  state_inv lost s → points (fs s) f → ∃ l, chain (S (size (fs s))) (fs s) f = Some l ∧ Forall filter_ok l.
Proof.
  intros [rk H] Hp. destruct (linked_exists _ _ _ _ H Hp) as (ks & l & Hl & HF & Hn & Hk).
  exists l. split; [|done]. apply (linked_chain _ _ ks); [done|].
  assert (length ks ≤ size (fs s))%nat; [|lia]. rewrite <- size_dom.
  rewrite <- (size_list_to_set (C := gset Z) ks Hn). apply subseteq_size.
  intros g Hg%elem_of_list_to_set. rewrite Forall_forall in Hk. by apply elem_of_dom, Hk.
Qed.

Section user_facts.
Context (user_ok : Z → Z → bool) (umem : Z → Z).
(** User memory holds bytes. *)
Hypothesis umem_bytes : ∀ a, 0 ≤ umem a < 256.

Lemma uword_range n a : 0 ≤ uword umem n a < 256 ^ Z.of_nat n.
Proof.
  revert a. induction n as [|n IH]; intros a; [done|]. cbn [uword].
  rewrite Nat2Z.inj_succ, Z.pow_succ_r by lia. specialize (IH (a + 1)). pose proof (umem_bytes a). lia.
Qed.

Lemma load_spec nf uprog :
  ∃ r, load user_ok umem nf uprog = Some r ∧
    match r with inl e => e < 0 | inr (a, x) => nf = Some a ∧ filter_ok x ∧ refs x = 1 end.
Proof.
  unfold load. destruct (negb _); [by eexists (inl _)|].
  pose proof (uword_range 2 uprog) as Hn. set (n := uword umem 2 uprog) in *.
  destruct ((n =? 0) || (4096 <? n)) eqn:E; [by eexists (inl _)|]. bools.
  destruct (negb _); [by eexists (inl _)|]. destruct nf as [a|]; [|by eexists (inl _)].
  set (up := uword umem 8 (uprog + 8)). set (f := (λ i, uinsn umem (up + 8 * i)) <$> upto n).
  assert (Z.of_nat (length f) = n) as Hl.
  { unfold f, upto. rewrite length_fmap, length_seqZ. lia. }
  assert (Forall insn_ok f) as HF.
  { apply Forall_fmap, Forall_true. intros i. unfold insn_ok, uinsn. cbn [code jt jf k compose].
    pose proof (uword_range 2 (up + 8 * i)). pose proof (uword_range 4 (up + 8 * i + 4)).
    pose proof (umem_bytes (up + 8 * i + 2)). pose proof (umem_bytes (up + 8 * i + 3)). lia. }
  assert (∃ v, valid f n = Some v) as [v Hv].
  { unfold valid. destruct (valid_from _ _ _); [|eauto].
    destruct (arr_get_is_Some f (n - 1)) as [x ->]; [lia|]. cbn. eauto. }
  rewrite Hv. cbn [mbind option_bind]. destruct v; [|by eexists (inl _)].
  eexists (inr (_, _)). split; [done|]. split; [done|]. split; [|done]. by split; [cbn [len]; lia|..].
Qed.

(** The address of a new filter is a new one. *)
Definition fresh (s : state) (nf : option Z) : Prop := ∀ a, nf = Some a → a ≠ 0 ∧ fs s !! a = None.

Lemma sc_seccomp_inv lost nf s me o fl uargs p :
  state_inv lost s → spare lost s → fresh s nf → (procs s).[me] = Some (Some p) →
  ∃ r s', sc_seccomp user_ok umem nf s me o fl uargs = Some (r, s') ∧ state_inv lost s'.
Proof.
  intros Hi Hr Hfr Hme. unfold sc_seccomp. rewrite Hme. cbn [mbind option_bind].
  destruct (o =? 0).
  { destruct (nz fl); [by eexists _, s|]. destruct (set_total _ _ _ (Some {| p with sc_mode := 1 |}) Hme) as [ps Hps].
    rewrite Hps. eexists _, _. split; [done|]. exact (same_sf_inv _ _ _ _ {| p with sc_mode := 1 |} _ Hi Hme eq_refl Hps). }
  destruct (o =? 2); [by eexists _, s|]. destruct (negb (o =? 1)); [by eexists _, s|].
  destruct (nz (Z.ldiff fl 31)); [by eexists _, s|]. destruct (nz (Z.land fl 8)); [by eexists _, s|].
  destruct (sc_mode p =? 1); [by eexists _, s|].
  destruct (load_spec nf uargs) as ([e|[a x]] & -> & Hl); cbn [mbind option_bind]; [by eexists _, s|].
  destruct Hl as (-> & Hok & Hr1). destruct (Hfr a eq_refl) as [Ha Hna].
  set (p' := {| p with sf := a; sc_mode := 2 |}). destruct (set_total _ _ _ (Some p') Hme) as [ps Hps].
  rewrite Hps. cbn [mbind option_bind]. set (x' := {| x with prev := sf p |}).
  assert (state_inv lost (St (<[a := x']> (fs s)) ps)) as Hi'.
  { refine (install_inv lost s me p p' a x' ps Hi Hme Ha Hna _ Hr1 eq_refl eq_refl Hps).
    by eapply filter_ok_ext. }
  destruct (nz (Z.land fl 1)); cbn [mbind option_bind]; [|by eexists _, _].
  destruct (tsync_inv lost me p' (tgid p) (upto (Z.of_nat (length ps))) (St (<[a := x']> (fs s)) ps)) as (s' & E & Hs').
  - done.
  - unfold room, spare, fits in *. cbn [fs procs]. rewrite map_size_insert_None by done.
    rewrite users_length in *. cbn [procs]. rewrite (arr_set_length _ _ _ _ Hps). lia.
  - cbn [procs]. rewrite (arr_get_set _ _ _ _ me Hps). by rewrite decide_True.
  - apply Forall_forall. intros i Hiu%elem_of_seqZ. cbn [procs]. lia.
  - cbn [p' sf] in E. rewrite E. cbn [mbind option_bind]. by eexists _, _.
Qed.

Lemma sc_prctl_inv lost nf s me o a b p :
  state_inv lost s → spare lost s → fresh s nf → (procs s).[me] = Some (Some p) →
  ∃ r s', sc_prctl user_ok umem nf s me o a b = Some (r, s') ∧ state_inv lost s'.
Proof.
  intros Hi Hr Hfr Hme. unfold sc_prctl. rewrite Hme. cbn [mbind option_bind].
  pose proof (sc_seccomp_inv lost nf s me) as Hsc.
  destruct (set_total _ _ _ (Some {| p with nnp := true |}) Hme) as [ps Hps]. rewrite Hps. cbn [mbind option_bind].
  assert (state_inv lost (St (fs s) ps)) as H38 by exact (same_sf_inv _ _ _ _ {| p with nnp := true |} _ Hi Hme eq_refl Hps).
  repeat case_match; eauto.
Qed.

(** ** Runs: any process calls seccomp or prctl, forks into a free slot, or exits.
    The list beside the state has the filters of the children that could not be
    started; counts are ints, so that there is room for one more. *)

Inductive step : state * list Z → state * list Z → Prop :=
  | s_seccomp s L nf me o fl uargs r s' :
      spare L s → fresh s nf → sc_seccomp user_ok umem nf s me o fl uargs = Some (r, s') → step (s, L) (s', L)
  | s_prctl s L nf me o a b r s' :
      spare L s → fresh s nf → sc_prctl user_ok umem nf s me o a b = Some (r, s') → step (s, L) (s', L)
  | s_fork s L pi parent child i x started s' :
      spare L s → (procs s).[pi] = Some (Some parent) → (procs s).[i] = Some x → psf x = 0 →
      fork_filters s parent child i started = Some s' →
      step (s, L) (s', if started then L else sf parent :: L)
  | s_exit s L i s' : spare L s → exit_filters s i = Some s' → step (s, L) (s', L).

Lemma filters_step_inv x y : step x y → state_inv x.2 x.1 → state_inv y.2 y.1.
Proof.
  intros Hst Hi.
  destruct Hst as [s L nf me o fl u r s' Hr Hf E|s L nf me o a b r s' Hr Hf E
    |s L pi pa c i x st s' Hr Hp Hx H0 E|s L i s' Hr E]; cbn [fst snd] in *.
  - pose proof E as E'. unfold sc_seccomp in E'. apply bind_Some in E' as ([p|] & Hp & E'); [|done].
    destruct (sc_seccomp_inv L nf s me o fl u p Hi Hr Hf Hp) as (? & ? & ? & ?). congruence.
  - pose proof E as E'. unfold sc_prctl in E'. apply bind_Some in E' as ([p|] & Hp & E'); [|done].
    destruct (sc_prctl_inv L nf s me o a b p Hi Hr Hf Hp) as (? & ? & ? & ?). congruence.
  - destruct (fork_filters_inv L s pi pa c i x st Hi (spare_room _ _ Hr) Hp Hx H0) as (? & ? & ?). congruence.
  - pose proof E as E'. unfold exit_filters in E'. apply bind_Some in E' as ([p|] & Hp & E'); [|done].
    destruct (exit_filters_inv L s i p Hi (spare_room _ _ Hr) Hp) as (? & ? & ?). congruence.
Qed.

Lemma filters_run_inv x y : rtc step x y → state_inv x.2 x.1 → state_inv y.2 y.1.
Proof. induction 1; eauto using filters_step_inv. Qed.

(** No process has a filter and there are none. *)
Definition start (s : state) : Prop := fs s = ∅ ∧ Forall (λ o, psf o = 0) (procs s).

Lemma start_inv s : start s → state_inv [] s.
Proof.
  intros [E HF]. exists (λ _, O). rewrite E. split; try (intros ? ? H; by rewrite lookup_empty in H).
  - apply lookup_empty.
  - rewrite Forall_forall in HF. intros o Ho. left. apply HF. unfold users in Ho. by rewrite app_nil_r in Ho.
  - by left.
Qed.

(** With no process left that has a filter and nothing lost, no filter is left. *)
Lemma no_leak s : state_inv [] s → Forall (λ o, psf o = 0) (procs s) → fs s = ∅.
Proof.
  intros [rk H] HF. unfold users in H. rewrite app_nil_r in H. apply map_empty. intros f0. apply eq_None_not_Some. intros Hsome.
  assert (∀ n, ∃ f, is_Some (fs s !! f) ∧ (n ≤ rk f)%nat) as Hup.
  { induction n as [|n (f & [x Hx] & Hn)]; [exists f0; split; [done|lia]|].
    destruct (ri_count _ _ _ _ H f x Hx) as [E ?].
    assert (f ≠ 0) by (intros ->; rewrite (ri_null _ _ _ _ H) in Hx; done).
    assert (from_procs (procs s) f = 0) as Hp.
    { apply countb_none. eapply Forall_impl; [exact HF|]. cbn. intros o ->. by apply Z.eqb_neq. }
    rewrite (proj2 (Z.eqb_neq 0 f)) in E by done. simpl in E.
    destruct (countb_pos (λ kx : Z * sfilt, prev kx.2 =? f) (map_to_list (fs s))) as ([g y] & Hg & Hy).
    { unfold from_filters in E. lia. }
    apply elem_of_map_to_list in Hg. cbn in Hy. bools. subst f. exists g. split; [eauto|].
    destruct (ri_prev _ _ _ _ H g y Hg) as [_ Hrk]. specialize (Hrk ltac:(done)). lia. }
  assert (∃ B, ∀ f, is_Some (fs s !! f) → (rk f ≤ B)%nat) as [B HB].
  { exists (max_list (rk <$> (map_to_list (fs s)).*1)). intros f [x Hx].
    apply max_list_elem_of_le, list_elem_of_fmap_2, list_elem_of_fmap. exists (f, x).
    split; [done|by apply elem_of_map_to_list]. }
  destruct (Hup (S B)) as (f & Hf & Hlt). specialize (HB f Hf). lia.
Qed.

(** C12: through any sequence of seccomp and prctl calls (TSYNC included), forks,
    those included whose child cannot be started, and exits, every filter's count is
    exactly the number of processes and filters that point at it and of the
    references that children which could not be started left behind ([L]; the code
    never puts those).  So no chain ever leads to a freed filter, and while every
    child could be started no filter outlives its last user; every chain is finite
    and made of validated programs, and the check at a system call always runs. *)
Theorem filters_safe s0 s L :
  start s0 → rtc step (s0, []) (s, L) →
  (∀ f x, fs s !! f = Some x →
     refs x = from_procs (procs s) f + from_filters (fs s) f + countb (Z.eqb f) L ∧ 1 ≤ refs x) ∧
  (L = [] → Forall (λ o, psf o = 0) (procs s) → fs s = ∅) ∧
  ∀ i p r, (procs s).[i] = Some (Some p) →
    (∃ l, chain (S (size (fs s))) (fs s) (sf p) = Some l ∧ Forall filter_ok l) ∧
    is_Some (sc_check (fs s) p r).
Proof.
  intros H0%start_inv Hrun. pose proof (filters_run_inv _ _ Hrun H0) as Hi. cbn [fst snd] in Hi.
  split; [|split; [intros ->; by apply no_leak|]].
  - destruct Hi as [rk H]. intros f x Hx. destruct (ri_count _ _ _ _ H f x Hx) as [E ?].
    assert (f ≠ 0) by (intros ->; rewrite (ri_null _ _ _ _ H) in Hx; done).
    rewrite (proj2 (Z.eqb_neq 0 f)) in E by done. rewrite users_count in E. simpl in E. lia.
  - intros i p r Hp. destruct (chain_total L s (sf p) Hi (points_sf _ _ _ _ Hi Hp)) as (l & Hc & HF).
    split; [eauto|]. unfold sc_check. destruct (sc_mode p =? 1); [eauto|]. rewrite Hc. cbn [mbind option_bind].
    destruct (verdict_spec l (seccomp_data r) RET_ALLOW HF (seccomp_data_ok r)) as (? & best & _ & -> & _).
    cbn [mbind option_bind]. repeat case_match; eauto.
Qed.

End user_facts.

(** User memory that holds a one instruction program ("ret ALLOW") at 0x1000. *)
Definition uprog1 (a : Z) : Z :=
  default 0 (list_to_map (M := gmap Z Z)
    [(0x1000, 1); (0x1009, 0x20); (0x2000, 0x06); (0x2006, 0xff); (0x2007, 0x7f)] !! a).

Definition two_threads : state := St ∅ [Some (proc1 0 0); Some (proc1 0 0); None].

Lemma uprog1_bytes a : 0 ≤ uprog1 a < 256.
Proof.
  unfold uprog1. destruct (_ !! a) as [x|] eqn:E; [|cbn; lia].
  apply elem_of_list_to_map_2 in E. cbn. set_solver by lia.
Qed.

Lemma filters_safe_witness :
  ∃ s' s2, sc_seccomp (λ _ _, true) uprog1 (Some 4096) two_threads 0 1 1 0x1000 = Some (0, s') ∧
    fork_filters s' (proc1 2 4096) (proc1 0 0) 2 false = Some s2 ∧
    (∀ f x, fs s2 !! f = Some x →
       refs x = from_procs (procs s2) f + from_filters (fs s2) f + countb (Z.eqb f) [4096] ∧ 1 ≤ refs x) ∧
    from_procs (procs s2) 4096 = 2 ∧ (refs <$> fs s2 !! 4096) = Some 3.
Proof.
  eexists _, _. split; [vm_compute; reflexivity|]. split; [vm_compute; reflexivity|].
  split; [|split; vm_compute; reflexivity].
  apply (filters_safe (λ _ _, true) uprog1 uprog1_bytes two_threads _ [4096]).
  - split; [reflexivity|]. apply Forall_cons; split; [reflexivity|].
    apply Forall_cons; split; [reflexivity|]. by apply Forall_singleton.
  - eapply rtc_l; [eapply (s_seccomp _ _ _ [] (Some 4096) 0 1 1 0x1000 0)|].
    + vm_compute. reflexivity.
    + intros a [= <-]. split; [lia|reflexivity].
    + vm_compute. reflexivity.
    + eapply rtc_l; [eapply (s_fork _ _ _ [] 0 (proc1 2 4096) (proc1 0 0) 2 None false)|apply rtc_refl]; vm_compute; reflexivity.
Defined.

End Seccomp.
