(* ===== verification/Flock.v ===== *)
(** * Advisory file locks (src/src/proc/flock.c)

    flock, fcntl record and open file description locks in one list, newest
    first, and the table of who waits for whom.  Waiting is a loop that sleeps;
    a turn of it is atomic (the big kernel lock), so a request is a value that is
    tried again at every wake-up.  Whether [kmalloc] finds room is an argument. *)

From S2P Require Import Prelude.

Module Flock.

Definition EAGAIN : Z := 11.
Definition EBADF : Z := 9.
Definition EINVAL : Z := 22.
Definition EINTR : Z := 4.
Definition ENOMEM : Z := 12.
Definition EDEADLK : Z := 35.

(** ~0ull: to the end of the file. *)
Definition EOF : Z := 2 ^ 64 - 1.

(** [node] and [own] are addresses; [s] and [e] the first and last byte; type 0 is
    a read lock.  kind 0: flock, 1: fcntl, 2: open file description. *)
Record flk_t := Flk { node : Z; own : Z; kind : Z; type : Z; pid : Z; s : Z; e : Z }.

Record waiter := Wt { w_own : Z; w_on : Z }.

Definition clash (a : flk_t) (kd ow ty st en : Z) : bool :=
  if own a =? ow then false
  else if negb (Bool.eqb (kind a =? 0) (kd =? 0)) then false
  else if (type a =? 0) && (ty =? 0) then false
  else (s a <=? en) && (st <=? e a).

Fixpoint find_clash (locks : list flk_t) (n kd ow ty st en : Z) : option flk_t :=
  match locks with
  | [] => None
  | l :: ls => if (node l =? n) && clash l kd ow ty st en then Some l else find_clash ls n kd ow ty st en
  end.

(** Is [l] one of the locks [cut] works on? *)
Definition concerned (l : flk_t) (n kd ow st en : Z) : bool :=
  (node l =? n) && (own l =? ow) && (kind l =? kd) && (s l <=? en) && (st <=? e l).

Fixpoint cut (room : bool) (locks : list flk_t) (n kd ow st en : Z) : Z * list flk_t :=
  match locks with
  | [] => (0, [])
  | l :: ls =>
      let rest := cut room ls n kd ow st en in
      if negb (concerned l n kd ow st en) then (rest.1, l :: rest.2)
      else if (s l <? st) && (en <? e l)
      then
        if room
        then (0, {| l with e := u64 (st - 1) |} :: {| l with s := u64 (en + 1) |} :: ls)
        else (- ENOMEM, l :: ls)
      else if s l <? st then (rest.1, {| l with e := u64 (st - 1) |} :: rest.2)
      else if en <? e l then (rest.1, {| l with s := u64 (en + 1) |} :: rest.2)
      else rest
  end.

(** [tg] is the thread group of the current process, 0 without one. *)
Definition add (room : bool) (locks : list flk_t) (tg n kd ow ty st en : Z) : Z * list flk_t :=
  if room then (0, Flk n ow kd ty tg st en :: locks) else (- ENOMEM, locks).

(** The loop of [wait_set]: the entry of [ow] gets [o], or the first free entry
    does. *)
Fixpoint wait_find (wt : list waiter) (i : Z) (fr : option Z) (ow : Z) : option Z :=
  match wt with
  | [] => fr
  | w :: wt' =>
      if w_own w =? ow then Some i
      else wait_find wt' (i + 1) (if (w_own w =? 0) && bool_decide (fr = None) then Some i else fr) ow
  end.

Definition wait_set (wt : list waiter) (ow o : Z) : list waiter :=
  match wait_find wt 0 None ow with
  | Some i => <[Z.to_nat i := Wt ow o]> wt
  | None => wt
  end.

Definition wait_clr (wt : list waiter) (ow : Z) : list waiter :=
  (λ w, if w_own w =? ow then {| w with w_own := 0 |} else w) <$> wt.

(** What [on] waits for: the last entry counts; 0 is NULL. *)
Fixpoint waits_for (wt : list waiter) (on nx : Z) : Z :=
  match wt with [] => nx | w :: wt' => waits_for wt' on (if w_own w =? on then w_on w else nx) end.

Fixpoint deadlock_from (d : nat) (wt : list waiter) (me on : Z) : bool :=
  match d with
  | O => false
  | S d =>
      if on =? 0 then false
      else if on =? me then true
      else deadlock_from d wt me (waits_for wt on 0)
  end.

Definition deadlock (wt : list waiter) (me on : Z) : bool := deadlock_from 16 wt me on.

(** One turn of the loop of [flk_wait]. *)
Inductive turn := Go (wt : list waiter) | Fail (r : Z) (wt : list waiter) | Sleep (wt : list waiter).

Definition flk_wait (locks : list flk_t) (wt : list waiter) (interrupted : bool)
    (n kd ow ty st en : Z) (wait : bool) : turn :=
  match find_clash locks n kd ow ty st en with
  | None => Go (wait_clr wt ow)
  | Some c =>
      if negb wait then Fail (- EAGAIN) wt
      else if (kd =? 1) && deadlock wt ow (own c) then Fail (- EDEADLK) (wait_clr wt ow)
      else
        let wt := wait_set wt ow (own c) in
        if interrupted then Fail (- EINTR) (wait_clr wt ow) else Sleep wt
  end.

Record state := St { locks : list flk_t; wt : list waiter }.

(** A request for a lock on its way through [flk_wait]. *)
Record req := Req { r_node : Z; r_kind : Z; r_own : Z; r_type : Z; r_s : Z; r_e : Z; r_wait : bool; r_tg : Z }.

(** What a call has come to: an answer, or asleep with its request. *)
Inductive answer := Done (r : Z) | Asleep (q : req).

(** What follows [flk_wait] in [flk_flock] and [flk_fcntl]: the owner's old locks
    on the range go, the new one comes.  [room1] and [room2] are the allocations
    of [cut] and [add]; only flk_fcntl looks at the answer of [cut]. *)
Definition take_lock (room1 room2 : bool) (ls : list flk_t) (q : req) : Z * list flk_t :=
  let '(r, ls) := cut room1 ls (r_node q) (r_kind q) (r_own q) (r_s q) (r_e q) in
  if negb (r_kind q =? 0) && (r <? 0) then (r, ls)
  else add room2 ls (r_tg q) (r_node q) (r_kind q) (r_own q) (r_type q) (r_s q) (r_e q).

(** A turn of a request: from the call, or from a wake-up. *)
Definition attempt (room1 room2 interrupted : bool) (st : state) (q : req) : answer * state :=
  match flk_wait (locks st) (wt st) interrupted (r_node q) (r_kind q) (r_own q) (r_type q) (r_s q) (r_e q) (r_wait q) with
  | Go w => let '(r, ls) := take_lock room1 room2 (locks st) q in (Done r, St ls w)
  | Fail r w => (Done r, St (locks st) w)
  | Sleep w => (Asleep q, St (locks st) w)
  end.

(** What the locks use of an open file: [faddr] is its address. *)
Record file_t := File { is_node : bool; faddr : Z; fnode : Z; foff : Z; fsize : Z; fflags : Z }.

Definition flk_flock (room1 room2 interrupted : bool) (tg : Z) (st : state) (f : file_t) (op : Z) : answer * state :=
  if negb (is_node f) then (Done 0, st)
  else
    let t := Z.ldiff op 4 in
    if t =? 8
    then let '(r, ls) := cut room1 (locks st) (fnode f) 0 (faddr f) 0 EOF in (Done r, St ls (wt st))
    else if negb (t =? 1) && negb (t =? 2) then (Done (- EINVAL), st)
    else attempt room1 room2 interrupted st
           (Req (fnode f) 0 (faddr f) (b2z (t =? 2)) 0 EOF (Z.land op 4 =? 0) tg).

(** struct flock as the user passes it. *)
Record uflock := UFlock { l_type : Z; l_whence : Z; l_start : Z; l_len : Z; l_pid : Z }.

(** The range a request names: (start, end) or an error. *)
Definition range_of (f : file_t) (u : uflock) : Z + Z * Z :=
  let base := if l_whence u =? 1 then Some (i64 (foff f))
              else if l_whence u =? 2 then Some (i64 (fsize f))
              else if l_whence u =? 0 then Some 0 else None in
  match base with
  | None => inl (- EINVAL)
  | Some b =>
      let st := i64 (l_start u + b) in
      let len := l_len u in
      if (len <? 0) && (i64 (st + len) <? 0) then inl (- EINVAL)
      else if st <? 0 then inl (- EINVAL)
      else if len <? 0 then inr (u64 (st + len), u64 (st - 1))
      else inr (st, if nz len then u64 (st + len - 1) else EOF)
  end.

(** [sh] is the descriptor table of the current process. *)
Definition flk_fcntl (room1 room2 interrupted : bool) (tg sh : Z) (st : state) (f : file_t) (cmd : Z)
    (u : uflock) : answer * state * uflock :=
  if negb (is_node f) then (Done (- EBADF), st, u)
  else
    let ofd := 36 <=? cmd in
    let kd := if ofd then 2 else 1 in
    let ow := if ofd then faddr f else sh in
    let ty := l_type u in
    if (ty <? 0) || (2 <? ty) then (Done (- EINVAL), st, u)
    else if ofd && nz (l_pid u) then (Done (- EINVAL), st, u)
    else
      match range_of f u with
      | inl r => (Done r, st, u)
      | inr (a, b) =>
          if (cmd =? 5) || (cmd =? 12) || (cmd =? 36)
          then
            match (if ty =? 2 then None else find_clash (locks st) (fnode f) kd ow ty a b) with
            | None => (Done 0, st, {| u with l_type := 2 |})
            | Some c =>
                (Done 0, st, UFlock (type c) 0 (i64 (s c))
                               (if e c =? EOF then 0 else i64 (u64 (e c - s c + 1)))
                               (if kind c =? 2 then -1 else pid c))
            end
          else if ty =? 2
          then let '(r, ls) := cut room1 (locks st) (fnode f) kd ow a b in (Done r, St ls (wt st), u)
          else if (ty =? 0) && (Z.land (fflags f) 3 =? 1) then (Done (- EBADF), st, u)
          else if (ty =? 1) && (Z.land (fflags f) 3 =? 0) then (Done (- EBADF), st, u)
          else
            let '(r, st) := attempt room1 room2 interrupted st
                              (Req (fnode f) kd ow ty a b ((cmd =? 7) || (cmd =? 14) || (cmd =? 38)) tg) in
            (r, st, u)
      end.

Definition flk_close (st : state) (sh : Z) (f : option file_t) : state :=
  match f with
  | Some f =>
      if bool_decide (locks st = []) || negb (is_node f) then st
      else St (cut true (locks st) (fnode f) 1 sh 0 EOF).2 (wt st)
  | None => st
  end.

Definition flk_exit (st : state) (sh : Z) : state := St (locks st) (wait_clr (wt st) sh).

Definition flk_release (st : state) (f : Z) : state :=
  St (filter (λ l, own l ≠ f) (locks st)) (wt st).

(** ** What the lock list promises *)

(** The classes that see each other. *)
Definition same_class (a b : flk_t) : bool := Bool.eqb (kind a =? 0) (kind b =? 0).
Definition overlap (a b : flk_t) : Prop := s a ≤ e b ∧ s b ≤ e a.
Definition same_key (a b : flk_t) : Prop := node a = node b ∧ own a = own b ∧ kind a = kind b.

(** Two locks that may stand side by side: locks of one owner and kind on a file
    do not overlap; locks of two owners overlap only when both read or their
    kinds do not see each other. *)
Definition compat (a b : flk_t) : Prop :=
  node a = node b → overlap a b →
  ¬ same_key a b ∧ (own a = own b ∨ same_class a b = false ∨ (type a = 0 ∧ type b = 0)).

Definition range_ok (a : flk_t) : Prop := 0 ≤ s a ∧ s a ≤ e a ∧ e a < 2 ^ 64.

Fixpoint pairwise (l : list flk_t) : Prop :=
  match l with [] => True | a :: l' => Forall (compat a) l' ∧ pairwise l' end.

Definition locks_ok (l : list flk_t) : Prop := Forall range_ok l ∧ pairwise l.

(** [b] is [a] or a part of it. *)
Definition part (b a : flk_t) : Prop :=
  node b = node a ∧ own b = own a ∧ kind b = kind a ∧ type b = type a ∧ s a ≤ s b ∧ e b ≤ e a.

Lemma part_refl a : part a a.
Proof. unfold part. auto with lia. Qed.

Lemma compat_part a b a' b' : part a' a → part b' b → compat a b → compat a' b'.
Proof.
  intros (En & Eo & Ek & Et & ? & ?) (En' & Eo' & Ek' & Et' & ? & ?) Hc Hn Hov.
  destruct Hov as [? ?]. destruct (Hc ltac:(congruence) ltac:(unfold overlap; lia)) as [Hk Ho]. split.
  - intros (? & ? & ?). apply Hk. split_and!; congruence.
  - unfold same_class in *. by rewrite Eo, Eo', Ek, Ek', Et, Et'.
Qed.

Lemma compat_sym a b : compat a b → compat b a.
Proof.
  intros H Hn [? ?]. destruct (H (eq_sym Hn) ltac:(unfold overlap; lia)) as [Hk Ho]. split.
  - intros (? & ? & ?). apply Hk. unfold same_key. auto.
  - destruct Ho as [->|[Hc|[? ?]]]; auto. right. left. unfold same_class in *.
    by destruct (kind a =? 0), (kind b =? 0).
Qed.

(** Every lock of [l'] is part of one of [l]. *)
Definition shrinks (l' l : list flk_t) : Prop := ∀ b, b ∈ l' → ∃ a, a ∈ l ∧ part b a.

Lemma shrinks_compat x x' l l' : part x' x → shrinks l' l → Forall (compat x) l → Forall (compat x') l'.
Proof.
  intros Hx Hl HF. apply Forall_forall. intros b Hb. destruct (Hl b Hb) as (a & Ha & Hp).
  rewrite Forall_forall in HF. by eapply compat_part; [..|apply HF].
Qed.

(** ** cut *)

Section cut.
Context (room : bool) (n kd ow st en : Z).

(** The owner's locks that touch the range. *)
Definition hit (l : flk_t) : Prop := node l = n ∧ own l = ow ∧ kind l = kd ∧ s l ≤ en ∧ st ≤ e l.

Lemma concerned_spec l : concerned l n kd ow st en = true ↔ hit l.
Proof. unfold concerned, hit. rewrite !andb_true_iff, !Z.eqb_eq, !Z.leb_le. tauto. Qed.

Hypothesis Hst : 0 ≤ st ≤ en.
Hypothesis Hen : en < 2 ^ 64.

Lemma left_part l : range_ok l → s l < st → st ≤ e l →
  range_ok {| l with e := u64 (st - 1) |} ∧ part {| l with e := u64 (st - 1) |} l ∧
  ¬ hit {| l with e := u64 (st - 1) |}.
Proof.
  intros (? & ? & ?) ? ?. rewrite u64_small by lia. unfold range_ok, part, hit. cbn.
  split_and!; done || lia.
Qed.

Lemma right_part l : range_ok l → s l ≤ en → en < e l →
  range_ok {| l with s := u64 (en + 1) |} ∧ part {| l with s := u64 (en + 1) |} l ∧
  ¬ hit {| l with s := u64 (en + 1) |}.
Proof.
  intros (? & ? & ?) ? ?. rewrite u64_small by lia. unfold range_ok, part, hit. cbn.
  split_and!; done || lia.
Qed.

Lemma cut_shrinks ls : Forall range_ok ls → shrinks (cut room ls n kd ow st en).2 ls.
Proof.
  induction 1 as [|l ls Hl _ IH]; intros b; cbn [cut]; [by intros ?%elem_of_nil|].
  assert (∀ b, b ∈ ls → ∃ a, a ∈ l :: ls ∧ part b a) as Hls.
  { intros x Hx. exists x. split; [by right|apply part_refl]. }
  assert (∀ b, b ∈ (cut room ls n kd ow st en).2 → ∃ a, a ∈ l :: ls ∧ part b a) as Hrest.
  { intros x Hx. destruct (IH x Hx) as (a & ? & ?). exists a. split; [by right|done]. }
  assert (∀ x, part x l → ∃ a, a ∈ l :: ls ∧ part x a) as Hhd.
  { intros x Hx. exists l. split; [by left|done]. }
  destruct (concerned l n kd ow st en) eqn:Ec; cbn [negb].
  2:{ intros [->|Hb]%elem_of_cons; [apply Hhd, part_refl|auto]. }
  apply concerned_spec in Ec as (? & ? & ? & ? & ?).
  destruct ((s l <? st) && (en <? e l)) eqn:E1; bools.
  { destruct (left_part l Hl) as (_ & ? & _); [lia..|]. destruct (right_part l Hl) as (_ & ? & _); [lia..|].
    destruct room; cbn [snd].
    - intros [->|[->|Hb]%elem_of_cons]%elem_of_cons; auto.
    - intros [->|Hb]%elem_of_cons; auto using part_refl. }
  destruct (s l <? st) eqn:E2; bools.
  { destruct (left_part l Hl) as (_ & ? & _); [lia..|]. intros [->|Hb]%elem_of_cons; auto. }
  destruct (en <? e l) eqn:E3; bools; [|auto].
  destruct (right_part l Hl) as (_ & ? & _); [lia..|]. intros [->|Hb]%elem_of_cons; auto.
Qed.

Lemma cut_ok ls : locks_ok ls → locks_ok (cut room ls n kd ow st en).2.
Proof.
  intros [HF HP]. induction HF as [|l ls Hl HF IH]; [done|]. destruct HP as [Hc HP].
  specialize (IH HP). pose proof (cut_shrinks ls HF) as Hs. destruct IH as [HF' HP'].
  cbn [cut]. destruct (concerned l n kd ow st en) eqn:Ec; cbn [negb].
  2:{ split; [by constructor|]. split; [|done]. eapply shrinks_compat; [apply part_refl|done|done]. }
  apply concerned_spec in Ec as (? & ? & ? & ? & ?).
  destruct ((s l <? st) && (en <? e l)) eqn:E1; bools.
  { destruct (left_part l Hl) as (Hl1 & Hp1 & _); [lia..|]. destruct (right_part l Hl) as (Hl2 & Hp2 & _); [lia..|].
    destruct room; cbn [snd]; [|by split; constructor].
    assert (shrinks ls ls) as Hrefl by (intros x Hx; exists x; split; [done|apply part_refl]).
    split; [constructor; [done|by constructor]|]. split; [constructor|split; [|done]].
    - intros _ [? ?]. exfalso. destruct Hl1 as (? & ? & ?), Hl2 as (? & ? & ?). cbn in *.
      rewrite !u64_small in * by (destruct Hl as (? & ? & ?); lia). lia.
    - by eapply shrinks_compat.
    - by eapply shrinks_compat. }
  destruct (s l <? st) eqn:E2; bools.
  { destruct (left_part l Hl) as (? & ? & _); [lia..|].
    split; [by constructor|]. split; [|done]. by eapply shrinks_compat. }
  destruct (en <? e l) eqn:E3; bools; [|by split].
  destruct (right_part l Hl) as (? & ? & _); [lia..|].
  split; [by constructor|]. split; [|done]. by eapply shrinks_compat.
Qed.

(** Two locks of one owner on a file, one of them over the whole range. *)
Lemma whole_covers l ls :
  hit l → s l < st → en < e l → Forall (compat l) ls → Forall (λ x, ¬ hit x) ls.
Proof.
  intros (Hn & Ho & Hk & ? & ?) ? ? HF. eapply Forall_impl; [exact HF|].
  intros x Hx (? & ? & ? & ? & ?). destruct (Hx ltac:(congruence) ltac:(unfold overlap; lia)) as [Hkey _].
  apply Hkey. unfold same_key. split_and!; congruence.
Qed.

Lemma cut_clears ls :
  locks_ok ls → (cut room ls n kd ow st en).1 = 0 → Forall (λ x, ¬ hit x) (cut room ls n kd ow st en).2.
Proof.
  intros [HF HP]. induction HF as [|l ls Hl HF IH]; [by constructor|]. destruct HP as [Hc HP].
  specialize (IH HP). cbn [cut]. destruct (concerned l n kd ow st en) eqn:Ec; cbn [negb].
  2:{ cbn. intros Hr. constructor; [|auto]. intros Hh%concerned_spec. congruence. }
  apply concerned_spec in Ec. pose proof Ec as (? & ? & ? & ? & ?).
  destruct ((s l <? st) && (en <? e l)) eqn:E1; bools.
  { destruct (left_part l Hl) as (_ & _ & ?); [lia..|]. destruct (right_part l Hl) as (_ & _ & ?); [lia..|].
    destruct room; [|done]. intros _. repeat constructor; try done. by eapply whole_covers. }
  destruct (s l <? st) eqn:E2; bools.
  { destruct (left_part l Hl) as (_ & _ & ?); [lia..|]. cbn. intros Hr. constructor; auto. }
  destruct (en <? e l) eqn:E3; bools; [|done].
  destruct (right_part l Hl) as (_ & _ & ?); [lia..|]. cbn. intros Hr. constructor; auto.
Qed.

End cut.

(** A cut of the whole file never splits a lock, so it needs no memory. *)
Lemma cut_whole room ls n kd ow : Forall range_ok ls → (cut room ls n kd ow 0 EOF).1 = 0.
Proof.
  induction 1 as [|l ls (? & ? & ?) _ IH]; [done|]. cbn [cut].
  rewrite (proj2 (Z.ltb_ge (s l) 0)) by lia. destruct (negb _); [done|]. cbn [andb].
  by destruct (EOF <? e l).
Qed.

(** ** Taking a lock *)

Lemma find_clash_None ls n kd ow ty st en :
  find_clash ls n kd ow ty st en = None ↔ Forall (λ l, node l = n → clash l kd ow ty st en = false) ls.
Proof.
  induction ls as [|l ls IH]; [done|]. cbn [find_clash]. rewrite Forall_cons, <- IH.
  destruct (node l =? n) eqn:E; bools; cbn [andb]; [|naive_solver].
  destruct (clash l kd ow ty st en) eqn:Ec; naive_solver.
Qed.

Lemma clash_false l kd ow ty st en :
  clash l kd ow ty st en = false →
  own l = ow ∨ Bool.eqb (kind l =? 0) (kd =? 0) = false ∨ (type l = 0 ∧ ty = 0) ∨ e l < st ∨ en < s l.
Proof.
  unfold clash. destruct (own l =? ow) eqn:E1; bools; [auto|].
  destruct (Bool.eqb _ _); cbn [negb]; [|auto].
  destruct (type l =? 0) eqn:E2, (ty =? 0) eqn:E3; cbn [andb]; intros; bools; auto with lia; lia.
Qed.

Lemma compat_new ls l tg n kd ow ty st en :
  Forall (λ l, node l = n → clash l kd ow ty st en = false) ls → l ∈ ls →
  ∀ b, part b l → ¬ hit n kd ow st en b → compat (Flk n ow kd ty tg st en) b.
Proof.
  intros HF Hl b (En & Eo & Ek & Et & ? & ?) Hh Hn [? ?]. cbn in *. split.
  - intros (_ & Ho & Hk). cbn in *. apply Hh. unfold hit. split_and!; congruence || lia.
  - rewrite Forall_forall in HF.
    destruct (clash_false _ _ _ _ _ _ (HF l Hl ltac:(congruence))) as [|[Hc|[[? ?]|?]]].
    + left. cbn. congruence.
    + right. left. unfold same_class. cbn. rewrite Ek. by destruct (kind l =? 0), (kd =? 0).
    + right. right. cbn. split; congruence.
    + lia.
Qed.

Record req_ok (q : req) : Prop := {
  ro_range : 0 ≤ r_s q ≤ r_e q ∧ r_e q < 2 ^ 64;
  ro_flock : r_kind q = 0 → r_s q = 0 ∧ r_e q = EOF
}.

(** What [take_lock] does when nothing clashes: it runs out of memory, or the new
    lock is in front of what [cut] left of the others. *)
Lemma take_lock_cases room1 room2 ls q r ls' :
  locks_ok ls → req_ok q → take_lock room1 room2 ls q = (r, ls') →
  let c := cut room1 ls (r_node q) (r_kind q) (r_own q) (r_s q) (r_e q) in
  (r = - ENOMEM ∧ ls' = c.2) ∨
  (r = 0 ∧ c.1 = 0 ∧ ls' = Flk (r_node q) (r_own q) (r_kind q) (r_type q) (r_tg q) (r_s q) (r_e q) :: c.2).
Proof.
  intros Hok Hq. unfold take_lock. destruct (cut _ _ _ _ _ _ _) as [r0 l0] eqn:Ec. cbn.
  assert (r0 = 0 ∨ r0 = - ENOMEM) as Hr0.
  { clear -Ec. revert r0 l0 Ec. induction ls as [|l ls IH]; cbn [cut]; intros r0 l0; [naive_solver|].
    destruct (cut room1 ls _ _ _ _ _) as [r1 l1]. specialize (IH r1 l1 eq_refl). cbn.
    repeat case_match; naive_solver. }
  assert (r_kind q = 0 → r0 = 0) as Hk0.
  { intros Hk. destruct (ro_flock _ Hq Hk) as [E1 E2]. rewrite E1, E2 in Ec.
    pose proof (cut_whole room1 ls (r_node q) (r_kind q) (r_own q) (proj1 Hok)) as Hw.
    by rewrite Ec in Hw. }
  destruct (negb (r_kind q =? 0) && (r0 <? 0)) eqn:E; bools.
  - intros [= <- <-]. left. destruct Hr0; [lia|done].
  - assert (r0 = 0) as ->.
    { destruct E; bools; [auto|]. destruct Hr0; [done|]. unfold ENOMEM in *. lia. }
    unfold add. destruct room2; intros [= <- <-]; auto.
Qed.

Lemma take_lock_ok room1 room2 ls q r ls' :
  locks_ok ls → req_ok q →
  find_clash ls (r_node q) (r_kind q) (r_own q) (r_type q) (r_s q) (r_e q) = None →
  take_lock room1 room2 ls q = (r, ls') → locks_ok ls'.
Proof.
  intros Hok Hq Hfc%find_clash_None Ht. destruct (ro_range _ Hq) as [? ?].
  pose proof (cut_ok room1 (r_node q) (r_kind q) (r_own q) (r_s q) (r_e q) ltac:(lia) ltac:(lia) ls Hok) as Hc.
  destruct (take_lock_cases _ _ _ _ _ _ Hok Hq Ht) as [[_ ->]|(_ & Hz & ->)]; [done|].
  destruct Hc as [HF HP]. split; [constructor; [unfold range_ok; cbn; lia|done]|]. split; [|done].
  pose proof (cut_clears room1 (r_node q) (r_kind q) (r_own q) (r_s q) (r_e q) ltac:(lia) ltac:(lia) ls Hok Hz) as Hcl.
  pose proof (cut_shrinks room1 (r_node q) (r_kind q) (r_own q) (r_s q) (r_e q) ltac:(lia) ltac:(lia) ls (proj1 Hok)) as Hsh.
  apply Forall_forall. intros b Hb. destruct (Hsh b Hb) as (l & Hl & Hp).
  rewrite Forall_forall in Hcl. by eapply compat_new; [exact Hfc|..]; eauto.
Qed.

Lemma attempt_ok room1 room2 intr st q a st' :
  locks_ok (locks st) → req_ok q → attempt room1 room2 intr st q = (a, st') →
  locks_ok (locks st') ∧ (∀ q', a = Asleep q' → q' = q).
Proof.
  intros Hok Hq. unfold attempt, flk_wait.
  destruct (find_clash _ _ _ _ _ _ _) as [c|] eqn:Ec.
  - destruct (negb (r_wait q)); [intros [= <- <-]; done|].
    destruct (_ && deadlock _ _ _); [intros [= <- <-]; done|].
    destruct intr; intros [= <- <-]; split; try done. by intros ? [= ->].
  - destruct (take_lock room1 room2 (locks st) q) as [r ls'] eqn:Et. intros [= <- <-].
    split; [|done]. by eapply take_lock_ok.
Qed.

(** ** Ranges *)

(** The fields the code reads as 64 bit integers are such. *)
Definition uflock_ok (u : uflock) : Prop := - 2 ^ 63 ≤ l_len u < 2 ^ 63.

Lemma range_of_ok f u a b : uflock_ok u → range_of f u = inr (a, b) → 0 ≤ a ≤ b ∧ b < 2 ^ 64.
Proof.
  unfold uflock_ok, range_of. intros Hu.
  destruct (if l_whence u =? 1 then _ else _) as [base|]; [|done].
  assert (- 2 ^ 63 ≤ i64 (l_start u + base) < 2 ^ 63) as Hst.
  { unfold i64. pose proof (Z.mod_pos_bound (l_start u + base + 2 ^ 63) (2 ^ 64)). lia. }
  set (st := i64 (l_start u + base)) in *.
  destruct ((l_len u <? 0) && (i64 (st + l_len u) <? 0)) eqn:E1; [done|].
  destruct (st <? 0) eqn:E2; [done|]. bools. destruct (l_len u <? 0) eqn:E3; bools.
  - destruct E1 as [?|E1]; [lia|]. bools. rewrite i64_small in E1 by lia.
    rewrite !u64_small by lia. intros [= <- <-]. lia.
  - unfold EOF. destruct (nz (l_len u)) eqn:E4; intros [= <- <-]; [|lia].
    apply nz_true in E4. rewrite u64_small; lia.
Qed.

(** ** The locks as a map from bytes

    What an owner holds on a byte of a file: the abstract view a request acts on. *)

Definition covers (n kd ow x : Z) (l : flk_t) : bool :=
  (node l =? n) && (own l =? ow) && (kind l =? kd) && (s l <=? x) && (x <=? e l).

Definition held (ls : list flk_t) (n kd ow x : Z) : option Z :=
  first_some (λ l, if covers n kd ow x l then Some (type l) else None) ls.

Lemma held_cons l ls n kd ow x :
  held (l :: ls) n kd ow x = if covers n kd ow x l then Some (type l) else held ls n kd ow x.
Proof. unfold held. cbn. by destruct (covers n kd ow x l). Qed.

Lemma covers_spec n kd ow x l : covers n kd ow x l = true ↔
  node l = n ∧ own l = ow ∧ kind l = kd ∧ s l ≤ x ≤ e l.
Proof. unfold covers. rewrite !andb_true_iff, !Z.eqb_eq, !Z.leb_le. tauto. Qed.

Lemma covers_same n kd ow x l l' :
  node l' = node l → own l' = own l → kind l' = kind l →
  (node l = n → own l = ow → kind l = kd → (s l' ≤ x ≤ e l' ↔ s l ≤ x ≤ e l)) →
  covers n kd ow x l' = covers n kd ow x l.
Proof.
  intros En Eo Ek H. apply eq_bool_prop_intro. rewrite !Is_true_true, !covers_spec, En, Eo, Ek. naive_solver.
Qed.

(** The bytes a cut takes away. *)
Definition in_cut (n kd ow st en n' kd' ow' x : Z) : bool :=
  (n' =? n) && (kd' =? kd) && (ow' =? ow) && (st <=? x) && (x <=? en).

Lemma in_cut_spec n kd ow st en n' kd' ow' x : in_cut n kd ow st en n' kd' ow' x = true ↔
  n' = n ∧ kd' = kd ∧ ow' = ow ∧ st ≤ x ≤ en.
Proof. unfold in_cut. rewrite !andb_true_iff, !Z.eqb_eq, !Z.leb_le. tauto. Qed.

Lemma held_cut_outside room ls n kd ow st en n' kd' ow' x :
  0 ≤ st ≤ en → en < 2 ^ 64 → Forall range_ok ls → in_cut n kd ow st en n' kd' ow' x = false →
  held (cut room ls n kd ow st en).2 n' kd' ow' x = held ls n' kd' ow' x.
Proof.
  intros Hst Hen HF Hin. assert (¬ (n' = n ∧ kd' = kd ∧ ow' = ow ∧ st ≤ x ≤ en)) as Hout.
  { rewrite <- in_cut_spec. congruence. }
  induction HF as [|l ls (? & ? & ?) HF IH]; [done|]. cbn [cut].
  destruct (concerned l n kd ow st en) eqn:Ec; cbn [negb snd]; [|by rewrite !held_cons, IH].
  apply concerned_spec in Ec as (? & ? & ? & ? & ?).
  destruct ((s l <? st) && (en <? e l)) eqn:E1; bools.
  { destruct room; [|done]. cbn [snd]. rewrite !held_cons, !u64_small by lia. cbn [type].
    destruct (covers n' kd' ow' x l) eqn:El.
    - apply covers_spec in El as (? & ? & ? & ?). destruct (covers n' kd' ow' x _) eqn:E2; [done|].
      destruct (covers n' kd' ow' x {| l with s := en + 1 |}) eqn:E3; [done|]. exfalso.
      apply not_true_iff_false in E2, E3. rewrite covers_spec in E2, E3. cbn in *. lia.
    - apply not_true_iff_false in El. rewrite covers_spec in El.
      destruct (covers n' kd' ow' x _) eqn:E2; [apply covers_spec in E2; cbn in E2; lia|].
      destruct (covers n' kd' ow' x {| l with s := en + 1 |}) eqn:E3; [apply covers_spec in E3; cbn in E3; lia|].
      done. }
  destruct (s l <? st) eqn:E2; bools.
  { cbn [snd]. rewrite !held_cons, IH, u64_small by lia. cbn [type].
    rewrite (covers_same n' kd' ow' x l); [done|done|done|done|]. cbn. lia. }
  destruct (en <? e l) eqn:E3; bools.
  { cbn [snd]. rewrite !held_cons, IH, u64_small by lia. cbn [type].
    rewrite (covers_same n' kd' ow' x l); [done|done|done|done|]. cbn. lia. }
  rewrite held_cons, IH. destruct (covers n' kd' ow' x l) eqn:El; [|done].
  apply covers_spec in El as (? & ? & ? & ?). exfalso. apply Hout. split_and!; congruence || lia.
Qed.

Lemma held_none ls n kd ow st en x :
  Forall (λ l, ¬ hit n kd ow st en l) ls → st ≤ x ≤ en → held ls n kd ow x = None.
Proof.
  intros HF Hx. induction HF as [|l ls Hl _ IH]; [done|]. rewrite held_cons, IH.
  destruct (covers n kd ow x l) eqn:E; [|done]. apply covers_spec in E. exfalso. apply Hl.
  unfold hit. split_and!; lia || tauto.
Qed.

Lemma held_cut room ls n kd ow st en n' kd' ow' x :
  locks_ok ls → 0 ≤ st ≤ en → en < 2 ^ 64 → (cut room ls n kd ow st en).1 = 0 →
  held (cut room ls n kd ow st en).2 n' kd' ow' x =
    if in_cut n kd ow st en n' kd' ow' x then None else held ls n' kd' ow' x.
Proof.
  intros Hok ? ? H0. destruct (in_cut n kd ow st en n' kd' ow' x) eqn:E.
  - apply in_cut_spec in E as (-> & -> & -> & ?). eapply held_none; [|done]. by apply cut_clears.
  - by apply held_cut_outside; [..|apply Hok|].
Qed.

Lemma held_take room1 room2 ls q ls' n kd ow x :
  locks_ok ls → req_ok q → take_lock room1 room2 ls q = (0, ls') →
  held ls' n kd ow x =
    if in_cut (r_node q) (r_kind q) (r_own q) (r_s q) (r_e q) n kd ow x then Some (r_type q)
    else held ls n kd ow x.
Proof.
  intros Hok Hq Ht. destruct (take_lock_cases _ _ _ _ _ _ Hok Hq Ht) as [[? _]|(_ & Hz & ->)]; [done|].
  destruct (ro_range _ Hq). rewrite held_cons, held_cut by done.
  assert (covers n kd ow x (Flk (r_node q) (r_own q) (r_kind q) (r_type q) (r_tg q) (r_s q) (r_e q))
          = in_cut (r_node q) (r_kind q) (r_own q) (r_s q) (r_e q) n kd ow x) as ->.
  { apply eq_bool_prop_intro. rewrite !Is_true_true, covers_spec, in_cut_spec. cbn. intuition lia. }
  by destruct (in_cut _ _ _ _ _ _ _ _ _).
Qed.

(** ** The wait table *)

(** An owner waits in at most one entry. *)
Definition wt_ok (w : list waiter) : Prop :=
  ∀ i j a b, w !! i = Some a → w !! j = Some b → w_own a = w_own b → w_own a ≠ 0 → i = j.

Definition absent (ow : Z) (w : list waiter) : Prop := Forall (λ a, w_own a ≠ ow) w.

Lemma wait_find_Some w i fr ow j :
  wait_find w i fr ow = Some j →
  (fr = Some j ∧ absent ow w) ∨
  ∃ a, i ≤ j ∧ w !! Z.to_nat (j - i) = Some a ∧ (w_own a = ow ∨ (w_own a = 0 ∧ absent ow w)).
Proof.
  revert i fr. induction w as [|a w IH]; intros i fr; cbn [wait_find].
  { intros ->. left. split; [done|constructor]. }
  destruct (w_own a =? ow) eqn:E; bools.
  { intros [= <-]. right. exists a. rewrite Z.sub_diag. split_and!; [lia|done|auto]. }
  intros H. destruct (IH _ _ H) as [[Hfr Hab]|(b & ? & Hb & Hc)].
  - assert (absent ow (a :: w)) as Hab' by (by constructor).
    destruct ((w_own a =? 0) && bool_decide (fr = None)) eqn:E0; [|auto]. bools. right. exists a.
    injection Hfr as <-. rewrite Z.sub_diag. split_and!; [lia|done|auto].
  - right. exists b. replace (Z.to_nat (j - i)) with (S (Z.to_nat (j - (i + 1)))) by lia.
    split_and!; [lia|done|]. destruct Hc as [|[? Hab]]; [auto|right]. split; [done|by constructor].
Qed.

Lemma wait_find_None w i fr ow : wait_find w i fr ow = None → fr = None ∧ absent ow w.
Proof.
  revert i fr. induction w as [|a w IH]; intros i fr; cbn [wait_find].
  { intros ->. split; [done|constructor]. }
  destruct (w_own a =? ow) eqn:E; [done|]. bools. intros H. destruct (IH _ _ H) as [Hfr Hab].
  split; [|by constructor]. by destruct (_ && _).
Qed.

(** What [wait_set] did: nothing when the table is full, or the one entry of [ow]. *)
Lemma wait_set_cases w ow o :
  wt_ok w →
  (wait_set w ow o = w ∧ absent ow w) ∨
  ∃ i a, w !! i = Some a ∧ wait_set w ow o = <[i := Wt ow o]> w ∧ (w_own a = ow ∨ w_own a = 0) ∧
    (ow ≠ 0 → ∀ j b, j ≠ i → w !! j = Some b → w_own b ≠ ow).
Proof.
  intros Hw. unfold wait_set. destruct (wait_find w 0 None ow) as [i|] eqn:E.
  - apply wait_find_Some in E as [[? _]|(a & Hi & Ha & Hc)]; [done|]. rewrite Z.sub_0_r in Ha.
    right. exists (Z.to_nat i), a. split_and!; [done|done|naive_solver|]. intros Hne j b Hj Hb Hbo.
    destruct Hc as [Hao|[_ Hab]].
    + apply Hj. by eapply Hw; [exact Hb|exact Ha|congruence..].
    + by eapply Forall_lookup_1 in Hab.
  - left. split; [done|]. by apply wait_find_None in E as [_ ?].
Qed.

Lemma wait_set_wt_ok w ow o : wt_ok w → wt_ok (wait_set w ow o).
Proof.
  intros Hw. destruct (wait_set_cases w ow o Hw) as [[-> _]|(i & a & Ha & -> & _ & Hu)]; [done|].
  pose proof (lookup_lt_Some _ _ _ Ha) as Hlt. intros j k b c Hj Hk Hbc Hb0.
  destruct (decide (j = i)) as [->|Hji], (decide (k = i)) as [->|Hki]; [done| | |].
  - rewrite list_lookup_insert_eq in Hj by done. rewrite list_lookup_insert_ne in Hk by done. simplify_eq/=.
    by destruct (Hu Hb0 k c Hki Hk).
  - rewrite list_lookup_insert_ne in Hj by done. rewrite list_lookup_insert_eq in Hk by done. simplify_eq/=.
    destruct (Hu ltac:(congruence) j b Hji Hj). congruence.
  - rewrite list_lookup_insert_ne in Hj, Hk by done. by eapply Hw.
Qed.

Lemma wait_clr_wt_ok w ow : wt_ok w → wt_ok (wait_clr w ow).
Proof.
  intros Hw j k b c Hj Hk Hbc Hb0. unfold wait_clr in *.
  apply list_lookup_fmap_Some in Hj as (b' & Eb & Hj). apply list_lookup_fmap_Some in Hk as (c' & Ec & Hk).
  destruct (w_own b' =? ow); [by subst|]. destruct (w_own c' =? ow); [subst; cbn in *; congruence|].
  subst. by eapply Hw.
Qed.

Lemma waits_for_absent w x nx : absent x w → waits_for w x nx = nx.
Proof.
  intros H. revert nx. induction H as [|a w Ha _ IH]; intros nx; [done|]. cbn.
  by rewrite (proj2 (Z.eqb_neq _ _)).
Qed.

Lemma waits_for_other w i a b x nx :
  w !! i = Some a → w_own a ≠ x → w_own b ≠ x → waits_for (<[i := b]> w) x nx = waits_for w x nx.
Proof.
  revert i nx. induction w as [|c w IH]; intros [|i] nx Hi Ha Hb; simplify_eq/=.
  - by rewrite !(proj2 (Z.eqb_neq _ _)).
  - by apply IH.
Qed.

Lemma waits_for_self w i o x nx :
  (i < length w)%nat → (∀ j b, j ≠ i → w !! j = Some b → w_own b ≠ x) →
  waits_for (<[i := Wt x o]> w) x nx = o.
Proof.
  revert i nx. induction w as [|c w IH]; intros [|i] nx Hi Hu; cbn in *; [lia|lia| |].
  - rewrite Z.eqb_refl. apply waits_for_absent, Forall_lookup. intros j b Hj. by apply (Hu (S j) b).
  - apply IH; [lia|]. intros j b Hj Hb. apply (Hu (S j) b); [congruence|done].
Qed.

(** Where [d] waits lead from [x]; 0 when somebody on the way waits for nobody. *)
Fixpoint reach (d : nat) (w : list waiter) (x : Z) : Z :=
  match d with O => x | S d => if x =? 0 then 0 else reach d w (waits_for w x 0) end.

Lemma reach_null d w : reach d w 0 = 0.
Proof. by destruct d. Qed.

Lemma deadlock_from_exact d w me on :
  me ≠ 0 → deadlock_from d w me on = true ↔ ∃ j, (j < d)%nat ∧ reach j w on = me.
Proof.
  intros Hme. revert on. induction d as [|d IH]; intros on; cbn [deadlock_from].
  { split; [done|]. intros (? & ? & _). lia. }
  destruct (on =? 0) eqn:E0; bools.
  { subst. split; [done|]. intros (j & _ & Hj). by rewrite reach_null in Hj. }
  destruct (on =? me) eqn:E1; bools.
  { subst. split; [|done]. intros _. exists O. split; [lia|done]. }
  rewrite IH. split.
  - intros (j & ? & Hj). exists (S j). split; [lia|]. cbn. by rewrite (proj2 (Z.eqb_neq _ _)).
  - intros ([|j] & ? & Hj); [done|]. exists j. split; [lia|]. cbn in Hj.
    by rewrite (proj2 (Z.eqb_neq _ _)) in Hj.
Qed.

(** A new wait of [ow] changes no path that does not come by [ow]. *)
Lemma reach_set w ow o d x :
  wt_ok w → ow ≠ 0 → (∀ j, (j < d)%nat → reach j w x ≠ ow) →
  reach d (wait_set w ow o) x = reach d w x.
Proof.
  intros Hw Ho. revert x. induction d as [|d IH]; intros x Hx; [done|]. cbn [reach].
  destruct (x =? 0) eqn:E; [done|]. bools. pose proof (Hx O ltac:(lia)) as Hx0. cbn in Hx0.
  assert (waits_for (wait_set w ow o) x 0 = waits_for w x 0) as ->.
  { destruct (wait_set_cases w ow o Hw) as [[-> _]|(i & a & Ha & -> & Hao & _)]; [done|].
    eapply waits_for_other; [exact Ha| |cbn; congruence]. destruct Hao; congruence. }
  apply IH. intros j Hj. specialize (Hx (S j) ltac:(lia)). cbn [reach] in Hx.
  by rewrite (proj2 (Z.eqb_neq _ _)) in Hx.
Qed.

Lemma sleep_no_cycle w ow o d :
  wt_ok w → ow ≠ 0 → deadlock w ow o = false → (1 ≤ d ≤ 16)%nat →
  reach d (wait_set w ow o) ow ≠ ow.
Proof.
  intros Hw Ho Hd Hr. destruct d as [|d]; [lia|]. cbn [reach]. rewrite (proj2 (Z.eqb_neq _ _)) by done.
  assert (∀ j, (j < 16)%nat → reach j w o ≠ ow) as Hno.
  { intros j Hj Hre. assert (deadlock w ow o = true); [|congruence].
    apply deadlock_from_exact; [done|eauto]. }
  destruct (wait_set_cases w ow o Hw) as [[-> Hab]|(i & a & Ha & E & _ & Hu)].
  - rewrite waits_for_absent by done. rewrite reach_null. congruence.
  - rewrite E at 2. rewrite waits_for_self; [|by eapply lookup_lt_Some|by apply Hu].
    rewrite reach_set; [apply Hno; lia|done|done|]. intros j ?. apply Hno. lia.
Qed.

(** ** Runs

    The locks, the wait table and the requests that sleep; files are any. *)

Record system := Sys { sys : state; asleep : list req }.

Definition sleepers (a : answer) (l : list req) : list req :=
  match a with Done _ => l | Asleep q => q :: l end.

Inductive step : system → system → Prop :=
  | l_flock st l r1 r2 i tg f op a st' :
      flk_flock r1 r2 i tg st f op = (a, st') → step (Sys st l) (Sys st' (sleepers a l))
  | l_fcntl st l r1 r2 i tg sh f cmd u a st' u' :
      uflock_ok u → flk_fcntl r1 r2 i tg sh st f cmd u = (a, st', u') →
      step (Sys st l) (Sys st' (sleepers a l))
  | l_wake st l q l' r1 r2 i a st' :
      l ≡ₚ q :: l' → attempt r1 r2 i st q = (a, st') → step (Sys st l) (Sys st' (sleepers a l'))
  | l_close st l sh f : step (Sys st l) (Sys (flk_close st sh f) l)
  | l_exit st l sh : step (Sys st l) (Sys (flk_exit st sh) l)
  | l_release st l f : step (Sys st l) (Sys (flk_release st f) l).

Definition st_ok (st : state) : Prop := locks_ok (locks st) ∧ wt_ok (wt st).

Definition sys_ok (y : system) : Prop := st_ok (sys y) ∧ Forall req_ok (asleep y).

Lemma attempt_wt_ok r1 r2 i st q a st' :
  wt_ok (wt st) → attempt r1 r2 i st q = (a, st') → wt_ok (wt st').
Proof.
  intros Hw. unfold attempt, flk_wait. destruct (find_clash _ _ _ _ _ _ _) as [c|].
  - destruct (negb (r_wait q)); [by intros [= <- <-]|].
    destruct (_ && deadlock _ _ _); [intros [= <- <-]; by apply wait_clr_wt_ok|].
    destruct i; intros [= <- <-]; [apply wait_clr_wt_ok|]; by apply wait_set_wt_ok.
  - destruct (take_lock _ _ _ _). intros [= <- <-]. by apply wait_clr_wt_ok.
Qed.

Lemma attempt_sys r1 r2 i st q a st' l :
  st_ok st → req_ok q → Forall req_ok l → attempt r1 r2 i st q = (a, st') →
  sys_ok (Sys st' (sleepers a l)).
Proof.
  intros [Hok Hw] Hq HF E. destruct (attempt_ok _ _ _ _ _ _ _ Hok Hq E) as [? Ha].
  split; [split; [done|by eapply attempt_wt_ok]|]. destruct a as [r|q']; [done|]. cbn. rewrite (Ha q' eq_refl). by constructor.
Qed.

Lemma flk_flock_sys r1 r2 i tg st f op a st' l :
  st_ok st → Forall req_ok l → flk_flock r1 r2 i tg st f op = (a, st') →
  sys_ok (Sys st' (sleepers a l)).
Proof.
  intros Hok HF. unfold flk_flock. destruct (negb (is_node f)); [intros [= <- <-]; done|].
  destruct (_ =? 8).
  - pose proof (cut_ok r1 (fnode f) 0 (faddr f) 0 EOF ltac:(unfold EOF; lia) ltac:(unfold EOF; lia) _ (proj1 Hok)) as Hc.
    destruct (cut r1 (locks st) _ _ _ _ _) as [r ls]. intros [= <- <-]. split; [split; [done|apply Hok]|done].
  - destruct (negb _ && negb _); [intros [= <- <-]; done|]. intros E.
    eapply attempt_sys; [done| |done|exact E]. split; cbn; unfold EOF; [lia|done].
Qed.

Lemma flk_fcntl_sys r1 r2 i tg sh st f cmd u a st' u' l :
  st_ok st → Forall req_ok l → uflock_ok u → flk_fcntl r1 r2 i tg sh st f cmd u = (a, st', u') →
  sys_ok (Sys st' (sleepers a l)).
Proof.
  intros Hok HF Hu. unfold flk_fcntl. destruct (negb (is_node f)); [intros [= <- <- <-]; done|].
  destruct (_ || _); [intros [= <- <- <-]; done|]. destruct (_ && _); [intros [= <- <- <-]; done|].
  destruct (range_of f u) as [r|[a0 b0]] eqn:Er; [intros [= <- <- <-]; done|].
  destruct (range_of_ok _ _ _ _ Hu Er) as [? ?].
  destruct (_ || _ || _).
  { destruct (if l_type u =? 2 then _ else _); intros [= <- <- <-]; done. }
  set (kd := if 36 <=? cmd then 2 else 1). set (ow := if 36 <=? cmd then faddr f else sh).
  destruct (l_type u =? 2).
  { pose proof (cut_ok r1 (fnode f) kd ow a0 b0 ltac:(lia) ltac:(lia) _ (proj1 Hok)) as Hc.
    destruct (cut r1 (locks st) _ _ _ _ _) as [r ls]. intros [= <- <- <-]. split; [split; [done|apply Hok]|done]. }
  destruct (_ && _); [intros [= <- <- <-]; done|]. destruct (_ && _); [intros [= <- <- <-]; done|].
  destruct (attempt _ _ _ _ _) as [a1 st1] eqn:E. intros [= <- <- <-].
  eapply attempt_sys; [done| |done|exact E]. split; cbn; [lia|]. unfold kd. by destruct (36 <=? cmd).
Qed.

Lemma filter_locks_ok (P : flk_t → Prop) `{!∀ x, Decision (P x)} ls : locks_ok ls → locks_ok (filter P ls).
Proof.
  intros [HF HP]. split.
  - apply Forall_forall. intros x [_ Hx]%list_elem_of_filter. rewrite Forall_forall in HF. auto.
  - clear HF. induction ls as [|l ls IH]; [done|]. destruct HP as [Hc HP]. rewrite filter_cons.
    case_decide; [|by apply IH]. split; [|by apply IH].
    apply Forall_forall. intros x [_ Hx]%list_elem_of_filter. rewrite Forall_forall in Hc. auto.
Qed.

Lemma locks_step_ok y y' : step y y' → sys_ok y → sys_ok y'.
Proof.
  intros Hst [Hok HF].
  destruct Hst as [st l r1 r2 i tg f op a st' E|st l r1 r2 i tg sh f cmd u a st' u' Hu E
    |st l q l' r1 r2 i a st' Hp E|st l sh f|st l sh|st l f]; cbn in *.
  - by eapply flk_flock_sys.
  - by eapply flk_fcntl_sys.
  - rewrite Hp in HF. apply Forall_cons in HF as [? ?]. by eapply attempt_sys.
  - split; [|done]. cbn. unfold flk_close. destruct f as [f|]; [|done].
    destruct (_ || _); [done|]. split; [|apply Hok]. apply cut_ok; [unfold EOF; lia..|apply Hok].
  - split; [|done]. split; [apply Hok|]. by apply wait_clr_wt_ok, Hok.
  - split; [|done]. split; [|apply Hok]. by apply filter_locks_ok, Hok.
Qed.

Lemma locks_run_ok y0 y : rtc step y0 y → sys_ok y0 → sys_ok y.
Proof. induction 1; eauto using locks_step_ok. Qed.

Lemma pairwise_lookup ls i j a b :
  pairwise ls → i ≠ j → ls !! i = Some a → ls !! j = Some b → compat a b.
Proof.
  revert i j. induction ls as [|l ls IH]; intros [|i] [|j] HP Hij Hi Hj; simplify_eq/=; destruct HP as [HF HP].
  - eapply Forall_lookup_1; eauto.
  - apply compat_sym. eapply Forall_lookup_1; eauto.
  - eapply IH; [done| |done..]. congruence.
Qed.

(** At boot there are no locks and nobody waits. *)
Definition boot (y : system) : Prop :=
  locks (sys y) = [] ∧ asleep y = [] ∧ wt (sys y) = replicate 32 (Wt 0 0).

Lemma locks_boot_ok y : boot y → sys_ok y.
Proof.
  intros (E1 & E2 & E3). split; [split|]; rewrite ?E1, ?E2, ?E3; [by split| |done].
  intros i j a b [-> _]%lookup_replicate. done.
Qed.

(** C14: Whatever flock and fcntl calls, wake-ups, closes, exits and releases run:
    two locks in the list that share a byte of a file never belong to the same
    owner and kind, and when their owners differ and their kinds see each other
    they are both read locks.  An exclusive lock is exclusive. *)
Theorem locks_exclusive y0 y i j a b x :
  boot y0 → rtc step y0 y →
  locks (sys y) !! i = Some a → locks (sys y) !! j = Some b → i ≠ j →
  node a = node b → s a ≤ x ≤ e a → s b ≤ x ≤ e b →
  ¬ same_key a b ∧ (own a ≠ own b → same_class a b = true → type a = 0 ∧ type b = 0).
Proof.
  intros H0 Hrun Ha Hb Hij Hn ? ?. destruct (locks_run_ok _ _ Hrun (locks_boot_ok _ H0)) as [[[_ HP] _] _].
  destruct (pairwise_lookup _ _ _ _ _ HP Hij Ha Hb Hn ltac:(unfold overlap; lia)) as [Hk Ho].
  split; [done|]. intros Hne Hc. destruct Ho as [|[|]]; [done|congruence|done].
Qed.

(** C15: A lock request that is granted (in a well-formed list) gives its owner
    exactly the bytes asked for with the type asked for, replacing what the owner
    had there; every other byte, owner, kind and file keeps its lock. *)
Theorem lock_granted r1 r2 i st q st' n kd ow x :
  locks_ok (locks st) → req_ok q → attempt r1 r2 i st q = (Done 0, st') →
  held (locks st') n kd ow x =
    if in_cut (r_node q) (r_kind q) (r_own q) (r_s q) (r_e q) n kd ow x then Some (r_type q)
    else held (locks st) n kd ow x.
Proof.
  intros Hok Hq. unfold attempt, flk_wait. destruct (find_clash _ _ _ _ _ _ _) as [c|].
  - destruct (negb (r_wait q)); [done|]. destruct (_ && deadlock _ _ _); [done|]. by destruct i.
  - destruct (take_lock r1 r2 (locks st) q) as [r ls'] eqn:Et. intros [= -> <-]. by eapply held_take.
Qed.

(** An fcntl lock request that goes to sleep closes no circle: after it, no
    chain of at most 16 recorded waits leads from its owner back to its owner.
    Where one would, the request is refused with EDEADLK instead. *)
Theorem lock_sleeps_safely y0 y r1 r2 i q q' st' d :
  boot y0 → rtc step y0 y → r_kind q = 1 → r_own q ≠ 0 →
  attempt r1 r2 i (sys y) q = (Asleep q', st') → (1 ≤ d ≤ 16)%nat →
  reach d (wt st') (r_own q) ≠ r_own q.
Proof.
  intros H0 Hrun Hk Ho. destruct (locks_run_ok _ _ Hrun (locks_boot_ok _ H0)) as [[_ Hw] _].
  unfold attempt, flk_wait. destruct (find_clash _ _ _ _ _ _ _) as [c|]; [|by destruct (take_lock _ _ _ _)].
  destruct (negb (r_wait q)); [done|]. rewrite Hk. cbn [Z.eqb andb].
  destruct (deadlock _ _ _) eqn:Ed; [done|]. destruct i; [done|]. intros [= _ <-] Hd. by apply sleep_no_cycle.
Qed.

(** ** Witnesses *)

Definition sys0 : system := Sys (St [] (replicate 32 (Wt 0 0))) [].

Definition file1 : file_t := File true 0x5000 0x100 0 4096 2.
Definition wlock (a n : Z) : uflock := UFlock 1 0 a n 0.

(** Process 0x10 locks bytes 0 to 99, process 0x20 bytes 200 to 299; then 0x10
    asks for the bytes of 0x20 and sleeps. *)
Definition sys1 : state :=
  St [Flk 0x100 0x20 1 1 2 200 299; Flk 0x100 0x10 1 1 1 0 99] (replicate 32 (Wt 0 0)).

Lemma sys1_run : rtc step sys0 (Sys sys1 []).
Proof.
  eapply rtc_l; [eapply (l_fcntl _ [] true true false 1 0x10 file1 7 (wlock 0 100) (Done 0)); [|vm_compute; reflexivity]|].
  { vm_compute. split; congruence. }
  eapply rtc_l; [eapply (l_fcntl _ [] true true false 2 0x20 file1 7 (wlock 200 100) (Done 0)); [|vm_compute; reflexivity]|].
  { vm_compute. split; congruence. }
  apply rtc_refl.
Qed.

Definition req1 (wait : bool) : req := Req 0x100 1 0x10 1 200 299 wait 1.

Lemma locks_exclusive_witness :
  ¬ same_key (Flk 0x100 0x30 1 0 3 0 9) (Flk 0x100 0x40 1 0 4 0 9) ∧
  ∃ y, rtc step sys0 y ∧ locks (sys y) = [Flk 0x100 0x40 1 0 4 0 9; Flk 0x100 0x30 1 0 3 0 9].
Proof.
  assert (rtc step sys0 (Sys (St [Flk 0x100 0x40 1 0 4 0 9; Flk 0x100 0x30 1 0 3 0 9] (replicate 32 (Wt 0 0))) [])) as Hrun.
  { eapply rtc_l; [eapply (l_fcntl _ [] true true false 3 0x30 file1 7 (UFlock 0 0 0 10 0) (Done 0)); [|vm_compute; reflexivity]|].
    { vm_compute. split; congruence. }
    eapply rtc_l; [eapply (l_fcntl _ [] true true false 4 0x40 file1 7 (UFlock 0 0 0 10 0) (Done 0)); [|vm_compute; reflexivity]|].
    { vm_compute. split; congruence. }
    apply rtc_refl. }
  split; [|eexists; split; [exact Hrun|reflexivity]].
  refine (proj1 (locks_exclusive sys0 _ 1 0 _ _ 5 _ Hrun eq_refl eq_refl _ eq_refl _ _)); try (cbn; lia).
  split_and!; reflexivity.
Defined.

Lemma sys1_ok : locks_ok (locks sys1).
Proof. apply (locks_run_ok _ _ sys1_run). apply locks_boot_ok. done. Qed.

Lemma lock_granted_witness :
  ∃ st', attempt true true false sys1 (Req 0x100 1 0x10 0 50 59 false 1) = (Done 0, st') ∧
    held (locks st') 0x100 1 0x10 55 = Some 0 ∧ held (locks st') 0x100 1 0x10 70 = Some 1.
Proof.
  eexists. split; [vm_compute; reflexivity|]. split.
  - apply (lock_granted true true false sys1 (Req 0x100 1 0x10 0 50 59 false 1) _ 0x100 1 0x10 55 sys1_ok).
    + split; cbn; [lia|congruence].
    + vm_compute. reflexivity.
  - apply (lock_granted true true false sys1 (Req 0x100 1 0x10 0 50 59 false 1) _ 0x100 1 0x10 70 sys1_ok).
    + split; cbn; [lia|congruence].
    + vm_compute. reflexivity.
Defined.

Lemma lock_sleeps_safely_witness :
  ∃ st', attempt true true false sys1 (req1 true) = (Asleep (req1 true), st') ∧
    reach 1 (wt st') 0x10 = 0x20 ∧ reach 2 (wt st') 0x10 ≠ 0x10.
Proof.
  eexists. split; [vm_compute; reflexivity|]. split; [vm_compute; reflexivity|].
  refine (lock_sleeps_safely sys0 (Sys sys1 []) true true false (req1 true) (req1 true) _ 2
            _ sys1_run eq_refl _ _ _).
  - split_and!; reflexivity.
  - cbn. lia.
  - vm_compute. reflexivity.
  - lia.
Defined.

(** An fcntl request that runs out of memory at the last step has already
    given up the old lock: an owner that asks to turn its read lock into a write
    lock is told ENOMEM and holds nothing afterwards. *)
Theorem lock_lost_on_enomem :
  let st := St [Flk 0x100 0x10 1 0 1 0 99] [] in
  let q := Req 0x100 1 0x10 1 0 99 false 1 in
  held (locks st) 0x100 1 0x10 5 = Some 0 ∧
  ∃ st', attempt true false false st q = (Done (- ENOMEM), st') ∧ held (locks st') 0x100 1 0x10 5 = None.
Proof. split; [vm_compute; done|]. eexists. split; [vm_compute; reflexivity|vm_compute; reflexivity]. Qed.

End Flock.
