(* ===== verification/Clock.v ===== *)
(** * Wall clock and real time clock (src/src/core/clock.c)

    The conversion between day numbers and civil dates, the CMOS clock behind
    ports 0x70 and 0x71, and the wall clock, which is the uptime plus an offset.
    The CMOS is its 128 registers, which stand still while the lock is held; the
    uptime counters are arguments.  C's division truncates: [Z.quot], [Z.rem]. *)

From S2P Require Import Prelude.

Module Clock.

Abbreviation quot := Z.quot.
Abbreviation rem := Z.rem.

Definition bcd (v : Z) : Z := Z.shiftr v 4 * 10 + Z.land v 0x0F.

Definition days_from_civil (y m d : Z) : Z :=
  let y := y - b2z (m <=? 2) in
  let era := quot y 400 in
  let yoe := y - era * 400 in
  let doy := quot (153 * (m + (if 2 <? m then -3 else 9)) + 2) 5 + d - 1 in
  let doe := yoe * 365 + quot yoe 4 - quot yoe 100 + doy in
  u32 (era * 146097 + doe - 719468).

Definition civil_days (y m d : Z) : Z := days_from_civil y m d.

(** (year, month, day) of a day number. *)
Definition civil_from_days (z : Z) : Z * Z * Z :=
  let zz := z + 719468 in
  let era := quot zz 146097 in
  let doe := zz - era * 146097 in
  let yoe := quot (doe - quot doe 1460 + quot doe 36524 - quot doe 146096) 365 in
  let doy := doe - (365 * yoe + quot yoe 4 - quot yoe 100) in
  let mp := quot (5 * doy + 2) 153 in
  let d := doy - quot (153 * mp + 2) 5 + 1 in
  let m := if mp <? 10 then mp + 3 else mp - 9 in
  (yoe + era * 400 + b2z (m <=? 2), m, d).

(** ** The CMOS clock *)

Abbreviation cmos := (list Z).

Definition rtc_read_epoch (c : cmos) : option Z :=
  s ← c.[0x00]; mi ← c.[0x02]; h ← c.[0x04];
  d ← c.[0x07]; mo ← c.[0x08]; y ← c.[0x09];
  regb ← c.[0x0B];
  let pm := nz (Z.land h 0x80) in
  let h := Z.land h 0x7F in
  let un x := if Z.land regb 0x04 =? 0 then bcd x else x in
  let h := un h in
  let h := if Z.land regb 0x02 =? 0 then rem h 12 + (if pm then 12 else 0) else h in
  Some (u32 (civil_days (2000 + un y) (un mo) (un d) * 86400 + (h * 3600 + un mi * 60 + un s))).

Definition outb (c : cmos) (reg v : Z) : option cmos := c.[reg <- u8 v].

(** The loop that writes the six registers. *)
Fixpoint write_regs (c : cmos) (rv : list (Z * Z)) : option cmos :=
  match rv with [] => Some c | (r, v) :: rv' => c ← outb c r v; write_regs c rv' end.

(** Two decimal digits as the CMOS has them, unless register B says binary. *)
Definition pack (x : Z) : Z := Z.lor (Z.shiftl (quot x 10) 4) (rem x 10).
Definition encode (regb x : Z) : Z := if Z.land regb 0x04 =? 0 then pack x else x.

Definition rtc_write_epoch (c : cmos) (t : Z) : option cmos :=
  let '(y, mo, d) := civil_from_days (quot t 86400) in
  let h := quot (rem t 86400) 3600 in
  let mi := quot (rem t 3600) 60 in
  let s := rem t 60 in
  regb ← c.[0x0B];
  c ← (if Z.land regb 0x02 =? 0 then outb c 0x0B (Z.lor regb 2) else Some c);
  b ← c.[0x0B];
  c ← outb c 0x0B (Z.lor b 0x80);
  c ← write_regs c [(0x00, encode regb s); (0x02, encode regb mi); (0x04, encode regb h);
                    (0x07, encode regb d); (0x08, encode regb mo); (0x09, encode regb (rem y 100))];
  b ← c.[0x0B];
  outb c 0x0B (Z.ldiff b 0x80).

(** ** The wall clock *)

Record clock := Clk { wall_off : Z; rtc_ups : Z; rtc_uie : bool; irq8 : bool; regs : cmos }.

(** Uptime in microseconds: the time stamp counter, or the timer while there is none. *)
Definition uptime (tsc_us pit_ms : Z) : Z := if tsc_us =? 0 then pit_ms * 1000 else tsc_us.

Definition now_us (k : clock) (tsc pit : Z) : Z := u64 (uptime tsc pit + wall_off k).

Definition clock_init (k : clock) (tsc pit : Z) : option clock :=
  e ← rtc_read_epoch (regs k);
  Some {| k with wall_off := i64 (e * 1000000 - uptime tsc pit) |}.

(** [c] is what register 0x0C held, the causes of the interrupt. *)
Definition rtc_isr (k : clock) (c : Z) : clock :=
  if nz (Z.land c 0x10) then {| k with rtc_ups := u32 (rtc_ups k + 1) |} else k.

Definition clock_rtc_uie (k : clock) (on : bool) : option clock :=
  b ← (regs k).[0x0B];
  c ← outb (regs k) 0x0B (if on then Z.lor b 0x10 else Z.ldiff b 0x10);
  let irq8 := if on && negb (rtc_uie k) then true else if negb on then false else irq8 k in
  Some (Clk (wall_off k) (rtc_ups k) on irq8 c).

Definition clock_rtc_ups (k : clock) : Z := rtc_ups k.

(** struct rtc_time as nine ints. *)
Definition clock_rtc_get (k : clock) : option (list Z) :=
  t ← rtc_read_epoch (regs k);
  let '(y, mo, d) := civil_from_days (quot t 86400) in
  Some [rem t 60; quot (rem t 3600) 60; quot (rem t 86400) 3600; d; mo - 1; y - 1900;
        rem (quot t 86400 + 4) 7; i32 (u32 (civil_days y mo d - civil_days y 1 1)); 0].

Definition clock_rtc_set (k : clock) (tm0 tm1 tm2 tm3 tm4 tm5 : Z) : option (Z * clock) :=
  if (tm0 <? 0) || (59 <? tm0) || (tm1 <? 0) || (59 <? tm1) || (tm2 <? 0) || (23 <? tm2)
     || (tm3 <? 1) || (31 <? tm3) || (tm4 <? 0) || (11 <? tm4) || (tm5 <? 100) || (199 <? tm5)
  then Some (-1, k)
  else
    let t := u32 (civil_days (tm5 + 1900) (tm4 + 1) tm3 * 86400 + tm2 * 3600 + tm1 * 60 + tm0) in
    c ← rtc_write_epoch (regs k) t;
    Some (0, {| k with regs := c |}).

Definition clock_set (k : clock) (tsc pit sec nsec : Z) : option clock :=
  c ← rtc_write_epoch (regs k) sec;
  Some {| k with wall_off := i64 (sec * 1000000 + quot nsec 1000 - uptime tsc pit); regs := c |}.

Definition clock_now (k : clock) (tsc pit : Z) : Z * Z :=
  let us := now_us k tsc pit in (u32 (quot us 1000000), u32 (u32 (rem us 1000000) * 1000)).

Definition clock_now_us (k : clock) (tsc pit : Z) : Z * Z :=
  let us := now_us k tsc pit in (u32 (quot us 1000000), u32 (rem us 1000000)).

Definition clock_epoch (k : clock) (tsc pit : Z) : Z := u32 (quot (now_us k tsc pit) 1000000).

(** ** The calendar *)

Definition leap (y : Z) : bool := (y mod 4 =? 0) && negb (y mod 100 =? 0) || (y mod 400 =? 0).

Definition month_days (y m : Z) : Z :=
  if m =? 2 then if leap y then 29 else 28
  else if (m =? 4) || (m =? 6) || (m =? 9) || (m =? 11) then 30 else 31.

Definition valid_date (ymd : Z * Z * Z) : bool :=
  let '(y, m, d) := ymd in (1 <=? m) && (m <=? 12) && (1 <=? d) && (d <=? month_days y m).

(** The day after. *)
Definition next_day (ymd : Z * Z * Z) : Z * Z * Z :=
  let '(y, m, d) := ymd in
  if d <? month_days y m then (y, m, d + 1)
  else if m <? 12 then (y, m + 1, 1) else (y + 1, 1, 1).

Definition shift_years (k : Z) (ymd : Z * Z * Z) : Z * Z * Z := let '(y, m, d) := ymd in (y + k, m, d).

(** The pieces of the two conversions, within a cycle of 400 years that start on
    1 March: the year of a day of the cycle, the first day of a year, month and
    day of a day of the year, and back. *)
Definition yoe_of (doe : Z) : Z := quot (doe - quot doe 1460 + quot doe 36524 - quot doe 146096) 365.
Definition year_start (y : Z) : Z := 365 * y + quot y 4 - quot y 100.
Definition year_end (y : Z) : Z := if y =? 399 then 146097 else year_start (y + 1).
Definition mp_of (doy : Z) : Z := quot (5 * doy + 2) 153.
Definition m_of (doy : Z) : Z := if mp_of doy <? 10 then mp_of doy + 3 else mp_of doy - 9.
Definition d_of (doy : Z) : Z := doy - quot (153 * mp_of doy + 2) 5 + 1.
Definition doy_of (m d : Z) : Z := quot (153 * (m + (if 2 <? m then -3 else 9)) + 2) 5 + d - 1.
Definition date_in (y doy : Z) : Z * Z * Z := (y + b2z (m_of doy <=? 2), m_of doy, d_of doy).

(** A test on [n] numbers from [i] on. *)
Fixpoint all_from (n : nat) (i : Z) (f : Z → bool) : bool :=
  match n with O => true | S n => if f i then all_from n (i + 1) f else false end.

Lemma all_from_spec n i f j : all_from n i f = true → i ≤ j < i + Z.of_nat n → f j = true.
Proof.
  revert i. induction n as [|n IH]; intros i H Hj; [lia|]. cbn in H. destruct (f i) eqn:E; [|done].
  destruct (decide (j = i)) as [->|]; [done|]. apply (IH (i + 1)); [done|lia].
Qed.

Definition year_days (y : Z) : Z := if leap (y + 1) then 366 else 365.

(** The first and the last day of each of the 400 years. *)
Lemma years_ok : all_from 400 0 (λ y, (yoe_of (year_start y) =? y) && (yoe_of (year_end y - 1) =? y)
  && (year_end y - year_start y =? year_days y) && (0 <=? year_start y) && (year_end y <=? 146097)) = true.
Proof. vm_compute. reflexivity. Qed.

Lemma year_ok y : 0 ≤ y < 400 →
  yoe_of (year_start y) = y ∧ yoe_of (year_end y - 1) = y ∧ year_end y = year_start y + year_days y ∧
  0 ≤ year_start y ∧ year_end y ≤ 146097.
Proof.
  intros Hy. pose proof (all_from_spec _ _ _ y years_ok ltac:(lia)) as H. cbv beta in H. bools.
  split_and!; lia.
Qed.

Lemma year_days_pos y : 365 ≤ year_days y ≤ 366.
Proof. unfold year_days. destruct (leap _); lia. Qed.

Lemma yoe_mono a b : 0 ≤ a ≤ b → b < 146097 → yoe_of a ≤ yoe_of b.
Proof.
  intros ??. unfold yoe_of. rewrite !(Z.quot_div_nonneg _ 1460), !(Z.quot_div_nonneg _ 36524),
    !(Z.quot_div_nonneg _ 146096) by lia.
  rewrite !Z.quot_div_nonneg by (Z.div_mod_to_equations; lia).
  apply Z.div_le_mono; [lia|]. Z.div_mod_to_equations; lia.
Qed.

Lemma yoe_range doe : 0 ≤ doe < 146097 → 0 ≤ yoe_of doe < 400.
Proof.
  intros H. pose proof (yoe_mono 0 doe ltac:(lia) ltac:(lia)). pose proof (yoe_mono doe 146096 ltac:(lia) ltac:(lia)).
  change (yoe_of 0) with 0 in *. change (yoe_of 146096) with 399 in *. lia.
Qed.

Lemma year_end_next y : 0 ≤ y < 399 → year_end y = year_start (y + 1).
Proof. intros. unfold year_end. by rewrite (proj2 (Z.eqb_neq _ _)) by lia. Qed.

(** The year of a day is the one between whose ends it lies. *)
Lemma yoe_spec doe : 0 ≤ doe < 146097 → year_start (yoe_of doe) ≤ doe < year_end (yoe_of doe).
Proof.
  intros H. pose proof (yoe_range doe H) as Hy. set (y := yoe_of doe) in *.
  destruct (year_ok y Hy) as (E1 & E2 & E3 & ? & ?). pose proof (year_days_pos y). split.
  - destruct (decide (year_start y ≤ doe)); [done|]. exfalso.
    destruct (decide (y = 0)) as [Hy0|]; [rewrite Hy0 in *; change (year_start 0) with 0 in *; lia|].
    destruct (year_ok (y - 1) ltac:(lia)) as (_ & E & _). rewrite year_end_next in E by lia.
    replace (y - 1 + 1) with y in E by lia.
    pose proof (yoe_mono doe (year_start y - 1) ltac:(lia) ltac:(lia)). unfold y in *. lia.
  - destruct (decide (doe < year_end y)); [done|]. exfalso.
    destruct (decide (y = 399)) as [Hy0|]; [rewrite Hy0 in *; change (year_end 399) with 146097 in *; lia|].
    rewrite year_end_next in * by lia. destruct (year_ok (y + 1) ltac:(lia)) as (E & _).
    pose proof (yoe_mono (year_start (y + 1)) doe ltac:(lia) ltac:(lia)). unfold y in *. lia.
Qed.

Lemma yoe_unique y doe : 0 ≤ y < 400 → year_start y ≤ doe < year_end y → yoe_of doe = y.
Proof.
  intros Hy Hd. destruct (year_ok y Hy) as (E1 & E2 & E3 & ? & ?). pose proof (year_days_pos y).
  pose proof (yoe_mono (year_start y) doe ltac:(lia) ltac:(lia)).
  pose proof (yoe_mono doe (year_end y - 1) ltac:(lia) ltac:(lia)). lia.
Qed.

(** ** Within a year: year 0 of the cycle is a common one, year 3 a leap year *)

Definition date_eqb (a b : Z * Z * Z) : bool :=
  (a.1.1 =? b.1.1) && (a.1.2 =? b.1.2) && (a.2 =? b.2).

Lemma date_eqb_eq a b : date_eqb a b = true → a = b.
Proof. destruct a as [[? ?] ?], b as [[? ?] ?]. unfold date_eqb. cbn. intros. bools. congruence. Qed.

Definition day_ok (y doy : Z) : bool :=
  valid_date (date_in y doy)
  && date_eqb (next_day (date_in y doy)) (if doy + 1 <? year_days y then date_in y (doy + 1) else date_in (y + 1) 0)
  && (doy_of (m_of doy) (d_of doy) =? doy) && (1 <=? m_of doy) && (m_of doy <=? 12).

Lemma days_ok : all_from 365 0 (day_ok 0) && all_from 366 0 (day_ok 3) = true.
Proof. vm_compute. reflexivity. Qed.

Definition dates_ok (y m : Z) : bool :=
  all_from (Z.to_nat (month_days (y + b2z (m <=? 2)) m)) 1
    (λ d, (m_of (doy_of m d) =? m) && (d_of (doy_of m d) =? d) && (0 <=? doy_of m d) && (doy_of m d <? year_days y)).

Lemma months_ok : all_from 12 1 (dates_ok 0) && all_from 12 1 (dates_ok 3) = true.
Proof. vm_compute. reflexivity. Qed.

Lemma month_days_ext y y' m : leap (y + 1) = leap (y' + 1) →
  month_days (y + b2z (m <=? 2)) m = month_days (y' + b2z (m <=? 2)) m.
Proof.
  intros H. unfold month_days. destruct (m =? 2) eqn:E; [|done]. bools. subst. cbn. by rewrite H.
Qed.

Lemma in_year_shift y y' doy :
  leap (y + 1) = leap (y' + 1) →
  valid_date (date_in y doy) = valid_date (date_in y' doy) ∧
  next_day (date_in y doy) = shift_years (y - y') (next_day (date_in y' doy)).
Proof.
  intros H. unfold date_in, valid_date, next_day. rewrite (month_days_ext y y') by done. split; [done|].
  destruct (d_of doy <? _); [unfold shift_years; f_equal; f_equal; lia|].
  destruct (m_of doy <? 12); unfold shift_years; f_equal; f_equal; lia.
Qed.

Lemma shift_date k y doy : shift_years k (date_in y doy) = date_in (y + k) doy.
Proof. unfold shift_years, date_in. f_equal. f_equal. lia. Qed.

(** A day of any year: the date is valid, the next day follows, and back. *)
Lemma day_spec y doy : 0 ≤ doy < year_days y →
  valid_date (date_in y doy) = true ∧
  next_day (date_in y doy) = (if doy + 1 <? year_days y then date_in y (doy + 1) else date_in (y + 1) 0) ∧
  doy_of (m_of doy) (d_of doy) = doy.
Proof.
  intros Hd. pose proof days_ok as [Hok0 Hok3]%andb_true_iff.
  set (y' := if leap (y + 1) then 3 else 0).
  assert (leap (y + 1) = leap (y' + 1) ∧ year_days y = year_days y') as [Hl Hyd].
  { unfold y', year_days. destruct (leap (y + 1)); split; reflexivity. }
  assert (day_ok y' doy = true) as Hday.
  { rewrite Hyd in Hd. pose proof (year_days_pos y'). unfold y' in *. destruct (leap (y + 1)).
    - apply (all_from_spec _ _ _ doy Hok3). change (year_days 3) with 366 in Hd. lia.
    - apply (all_from_spec _ _ _ doy Hok0). change (year_days 0) with 365 in Hd. lia. }
  unfold day_ok in Hday. bools. destruct (in_year_shift y y' doy Hl) as [-> ->].
  split_and!; [done| |lia].
  match goal with H : date_eqb _ _ = true |- _ => rewrite (date_eqb_eq _ _ H), <- Hyd end.
  destruct (doy + 1 <? year_days y); rewrite shift_date; f_equal; lia.
Qed.

Lemma date_spec y m d : 1 ≤ m ≤ 12 → 1 ≤ d ≤ month_days (y + b2z (m <=? 2)) m →
  m_of (doy_of m d) = m ∧ d_of (doy_of m d) = d ∧ 0 ≤ doy_of m d < year_days y.
Proof.
  intros Hm Hd. pose proof months_ok as [Hok0 Hok3]%andb_true_iff.
  set (y' := if leap (y + 1) then 3 else 0).
  assert (leap (y + 1) = leap (y' + 1) ∧ year_days y = year_days y') as [Hl Hyd].
  { unfold y', year_days. destruct (leap (y + 1)); split; reflexivity. }
  assert (dates_ok y' m = true) as Hdt.
  { unfold y'. destruct (leap (y + 1)).
    - apply (all_from_spec _ _ _ m Hok3). lia.
    - apply (all_from_spec _ _ _ m Hok0). lia. }
  rewrite (month_days_ext y y') in Hd by done. unfold dates_ok in Hdt.
  apply (all_from_spec _ _ _ d) in Hdt; [|lia]. cbv beta in Hdt. bools. rewrite Hyd. split_and!; lia.
Qed.

(** ** The conversions *)

(** A day number as cycle, year of the cycle and day of the year. *)
Lemma civil_split z : 0 ≤ z → ∃ era y doy,
  0 ≤ era ∧ 0 ≤ y < 400 ∧ 0 ≤ doy < year_days y ∧ z + 719468 = era * 146097 + year_start y + doy ∧
  civil_from_days z = date_in (y + era * 400) doy.
Proof.
  intros Hz. set (zz := z + 719468). exists (zz / 146097). set (doe := zz - zz / 146097 * 146097).
  assert (0 ≤ doe < 146097) as Hd by (unfold doe; Z.div_mod_to_equations; lia).
  exists (yoe_of doe), (doe - year_start (yoe_of doe)).
  pose proof (yoe_range doe Hd) as Hy. pose proof (yoe_spec doe Hd) as Hs.
  destruct (year_ok _ Hy) as (_ & _ & E3 & _ & _). split_and!; try lia.
  unfold civil_from_days. fold zz. rewrite (Z.quot_div_nonneg zz) by (unfold zz; lia). fold doe.
  fold (yoe_of doe). fold (year_start (yoe_of doe)). done.
Qed.

(** The first day of a year, and the day after the last of a year. *)
Lemma civil_join era y doy :
  0 ≤ era → 0 ≤ y < 400 → 0 ≤ doy < year_days y →
  civil_from_days (era * 146097 + year_start y + doy - 719468) = date_in (y + era * 400) doy.
Proof.
  intros He Hy Hd. destruct (year_ok y Hy) as (_ & _ & E3 & ? & ?).
  unfold civil_from_days. replace (_ - 719468 + 719468) with (year_start y + doy + era * 146097) by lia.
  rewrite (Z.quot_div_nonneg (year_start y + doy + era * 146097)) by lia.
  rewrite Z.div_add, Z.div_small by lia.
  replace (year_start y + doy + era * 146097 - (0 + era) * 146097) with (year_start y + doy) by lia.
  fold (yoe_of (year_start y + doy)). rewrite (yoe_unique y) by lia. fold (year_start y).
  replace (year_start y + doy - year_start y) with doy by lia. done.
Qed.

Lemma leap_400 y k : leap (y + k * 400) = leap y.
Proof.
  unfold leap. replace (y + k * 400) with (y + k * 100 * 4) at 1 by lia. rewrite Z.mod_add by lia.
  replace (y + k * 400) with (y + k * 4 * 100) at 1 by lia. rewrite Z.mod_add by lia.
  by rewrite Z.mod_add by lia.
Qed.

Lemma year_days_400 y k : year_days (y + k * 400) = year_days y.
Proof. unfold year_days. replace (y + k * 400 + 1) with (y + 1 + k * 400) by lia. by rewrite leap_400. Qed.

Lemma days_from_civil_in era y doy :
  0 ≤ era → 0 ≤ y < 400 → 0 ≤ doy < year_days y →
  (let '(yy, m, d) := date_in (y + era * 400) doy in days_from_civil yy m d)
  = u32 (era * 146097 + year_start y + doy - 719468).
Proof.
  intros He Hy Hd. destruct (day_spec y doy Hd) as (_ & _ & Hb).
  unfold date_in, days_from_civil. fold (doy_of (m_of doy) (d_of doy)). rewrite Hb.
  replace (y + era * 400 + b2z (m_of doy <=? 2) - b2z (m_of doy <=? 2)) with (y + era * 400) by lia.
  rewrite (Z.quot_div_nonneg (y + era * 400)) by lia. rewrite Z.div_add, Z.div_small by lia.
  replace (y + era * 400 - (0 + era) * 400) with y by lia. f_equal. unfold year_start. lia.
Qed.

Lemma civil_next z : 0 ≤ z → civil_from_days (z + 1) = next_day (civil_from_days z).
Proof.
  intros Hz. destruct (civil_split z Hz) as (era & y & doy & He & Hy & Hd & Ez & ->).
  destruct (day_spec (y + era * 400) doy) as (_ & -> & _); [by rewrite year_days_400|].
  destruct (year_ok y Hy) as (_ & _ & E3 & _ & _). rewrite year_days_400.
  destruct (doy + 1 <? year_days y) eqn:E; bools.
  - rewrite <- civil_join by lia. f_equal. lia.
  - replace (z + 1) with (era * 146097 + year_end y + 0 - 719468) by lia.
    destruct (decide (y = 399)) as [->|].
    + change (year_end 399) with 146097.
      replace (era * 146097 + 146097 + 0 - 719468) with ((era + 1) * 146097 + year_start 0 + 0 - 719468)
        by (change (year_start 0) with 0; lia).
      rewrite civil_join; [f_equal; lia|lia|lia|]. change (year_days 0) with 365. lia.
    + rewrite year_end_next by lia. pose proof (year_days_pos (y + 1)).
      rewrite civil_join by lia. f_equal. lia.
Qed.

Lemma civil_back z : 0 ≤ z < 2 ^ 32 →
  let '(y, m, d) := civil_from_days z in days_from_civil y m d = z.
Proof.
  intros Hz. destruct (civil_split z) as (era & y & doy & He & Hy & Hd & Ez & ->); [lia|].
  pose proof (days_from_civil_in era y doy He Hy Hd) as H.
  destruct (date_in _ _) as [[yy m] d]. rewrite H, u32_small; lia.
Qed.

Lemma civil_valid z : 0 ≤ z → valid_date (civil_from_days z) = true.
Proof.
  intros Hz. destruct (civil_split z Hz) as (era & y & doy & He & Hy & Hd & Ez & ->).
  apply day_spec. by rewrite year_days_400.
Qed.

(** The pieces of a date from 1970 on. *)
Lemma days_split y m d :
  1970 ≤ y < 5000000 → valid_date (y, m, d) = true →
  ∃ era yoe, 4 ≤ era ≤ 12500 ∧ 0 ≤ yoe < 400 ∧ y = yoe + era * 400 + b2z (m <=? 2) ∧
    0 ≤ doy_of m d < year_days yoe ∧ date_in (yoe + era * 400) (doy_of m d) = (y, m, d) ∧
    days_from_civil y m d = era * 146097 + year_start yoe + doy_of m d - 719468 ∧
    0 ≤ days_from_civil y m d < 2 ^ 31.
Proof.
  intros Hy Hv. unfold valid_date in Hv. bools.
  set (y' := y - b2z (m <=? 2)). assert (y' + b2z (m <=? 2) = y ∧ 1969 ≤ y' < 5000000) as [Ey Hy'].
  { unfold y'. destruct (m <=? 2); simpl; lia. }
  destruct (date_spec y' m d) as (Em & Ed & Hdoy); [lia|rewrite Ey; lia|].
  set (doy := doy_of m d) in *. set (yoe := y' - y' / 400 * 400).
  assert (0 ≤ yoe < 400 ∧ y' = yoe + y' / 400 * 400 ∧ 4 ≤ y' / 400 ≤ 12500) as (Hyoe & Eyoe & Hera).
  { unfold yoe. Z.div_mod_to_equations; lia. }
  assert (year_days y' = year_days yoe) as Eyd by (rewrite Eyoe at 1; apply year_days_400).
  assert (date_in (yoe + y' / 400 * 400) doy = (y, m, d)) as Edate.
  { rewrite <- Eyoe. unfold date_in. by rewrite Em, Ed, Ey. }
  pose proof (days_from_civil_in (y' / 400) yoe doy ltac:(lia) Hyoe ltac:(lia)) as Hdays.
  rewrite Edate in Hdays. destruct (year_ok yoe Hyoe) as (_ & _ & E3 & ? & ?).
  assert (719468 ≤ y' / 400 * 146097 + year_start yoe + doy) as Hge.
  { assert (y' = 1969 → 306 ≤ doy) as H69.
    { intros E. unfold y' in E. destruct (m <=? 2) eqn:Em2; simpl in E; [|lia]. bools.
      unfold doy, doy_of. rewrite (proj2 (Z.ltb_ge 2 m)) by lia.
      rewrite Z.quot_div_nonneg by lia. Z.div_mod_to_equations; lia. }
    unfold year_start. rewrite !Z.quot_div_nonneg by lia. Z.div_mod_to_equations; lia. }
  rewrite u32_small in Hdays by lia. exists (y' / 400), yoe. split_and!; try done; try lia.
Qed.

(** A date from 1970 on leads to its day and back. *)
Lemma civil_forth y m d :
  1970 ≤ y < 5000000 → valid_date (y, m, d) = true →
  civil_from_days (days_from_civil y m d) = (y, m, d).
Proof.
  intros Hy Hv. destruct (days_split y m d Hy Hv) as (era & yoe & ? & ? & _ & ? & <- & -> & _).
  by apply civil_join; lia.
Qed.

(** C16: The conversions follow the Gregorian calendar: day 0 is 1 January 1970,
    the day after every day is the next day of the calendar with its leap years,
    and dates and day numbers lead back to each other. *)
Theorem civil_calendar :
  civil_from_days 0 = (1970, 1, 1) ∧
  (∀ z, 0 ≤ z → valid_date (civil_from_days z) = true ∧
                civil_from_days (z + 1) = next_day (civil_from_days z)) ∧
  (∀ z, 0 ≤ z < 2 ^ 32 → let '(y, m, d) := civil_from_days z in days_from_civil y m d = z) ∧
  (∀ y m d, 1970 ≤ y < 5000000 → valid_date (y, m, d) = true →
            civil_from_days (days_from_civil y m d) = (y, m, d)).
Proof.
  split_and!; [reflexivity| |exact civil_back|].
  - intros z Hz. split; [by apply civil_valid|by apply civil_next].
  - exact civil_forth.
Qed.

(** ** The CMOS registers *)

Lemma bcd_ok : all_from 100 0 (λ x, (bcd (u8 (pack x)) =? x) && (u8 x =? x)
  && ((23 <? x) || ((Z.land (u8 (pack x)) 0x7F =? u8 (pack x)) && (Z.land (u8 (pack x)) 0x80 =? 0)
                    && (Z.land x 0x7F =? x) && (Z.land x 0x80 =? 0)))) = true.
Proof. vm_compute. reflexivity. Qed.

(** What becomes of register B. *)
Definition regb' (b : Z) : Z :=
  u8 (Z.ldiff (u8 (Z.lor (if Z.land b 0x02 =? 0 then u8 (Z.lor b 2) else b) 0x80)) 0x80).

Lemma regb_ok : all_from 256 0 (λ b, (Z.land (regb' b) 0x04 =? Z.land b 0x04)
  && negb (Z.land (regb' b) 0x02 =? 0)) = true.
Proof. vm_compute. reflexivity. Qed.

Lemma bcd_spec x : 0 ≤ x ≤ 99 →
  bcd (u8 (pack x)) = x ∧ u8 x = x ∧
  (x ≤ 23 → Z.land (u8 (pack x)) 0x7F = u8 (pack x) ∧ Z.land (u8 (pack x)) 0x80 = 0 ∧
            Z.land x 0x7F = x ∧ Z.land x 0x80 = 0).
Proof.
  intros Hx. pose proof (all_from_spec _ _ _ x bcd_ok ltac:(lia)) as H. cbv beta in H. bools.
  split_and!; [done|done|]. intros ?.
  match goal with H : _ ∨ _ |- _ => destruct H as [H|H]; bools; [lia|done] end.
Qed.

Lemma outb_spec c r v : length c = 128%nat → 0 ≤ r < 128 →
  ∃ c', outb c r v = Some c' ∧ length c' = 128%nat ∧
    ∀ j, c'.[j] = if decide (j = r) then Some (u8 v) else c.[j].
Proof.
  intros Hl Hr. destruct (arr_get_is_Some c r) as [x Hx]; [lia|].
  destruct (set_total _ _ _ (u8 v) Hx) as [c' Hc]. exists c'. split; [done|]. split.
  - by rewrite (arr_set_length _ _ _ _ Hc).
  - intros j. apply (arr_get_set _ _ _ _ j Hc).
Qed.

(** Dates the two digits of the year can hold. *)
Lemma year_2000 z : 10957 ≤ z ≤ 47481 → 2000 ≤ (civil_from_days z).1.1 ≤ 2099.
Proof.
  intros Hz. destruct (civil_split z) as (era & y & doy & He & Hy & Hd & Ez & ->); [lia|].
  pose proof (year_days_pos y). unfold year_start in Ez.
  rewrite !(Z.quot_div_nonneg y) in Ez by lia. cbn [date_in fst].
  assert ((m_of doy <=? 2) = (306 <=? doy)) as ->.
  { unfold m_of, mp_of. rewrite Z.quot_div_nonneg by lia.
    destruct (_ <? 10) eqn:E1, (306 <=? doy) eqn:E2; bools;
      [exfalso|apply Z.leb_gt|apply Z.leb_le|exfalso]; Z.div_mod_to_equations; lia. }
  destruct (306 <=? doy) eqn:E; bools; simpl; Z.div_mod_to_equations; lia.
Qed.

Lemma rtc_write_spec c t regb :
  length c = 128%nat → c.[0x0B] = Some regb → 
  let '(y, mo, d) := civil_from_days (quot t 86400) in
  let en := encode regb in
  ∃ c', rtc_write_epoch c t = Some c' ∧ length c' = 128%nat ∧
    c'.[0x00] = Some (u8 (en (rem t 60))) ∧ c'.[0x02] = Some (u8 (en (quot (rem t 3600) 60))) ∧
    c'.[0x04] = Some (u8 (en (quot (rem t 86400) 3600))) ∧ c'.[0x07] = Some (u8 (en d)) ∧
    c'.[0x08] = Some (u8 (en mo)) ∧ c'.[0x09] = Some (u8 (en (rem y 100))) ∧ c'.[0x0B] = Some (regb' regb).
Proof.
  intros Hl Hb. unfold rtc_write_epoch. destruct (civil_from_days _) as [[y mo] d]. rewrite Hb.
  cbn [mbind option_bind]. cbv zeta. set (en := encode regb).
  set (b1 := if Z.land regb 2 =? 0 then u8 (Z.lor regb 2) else regb).
  assert (∃ c1, (if Z.land regb 2 =? 0 then outb c 0x0B (Z.lor regb 2) else Some c) = Some c1 ∧
            length c1 = 128%nat ∧ c1.[0x0B] = Some b1) as (c1 & -> & Hl1 & Hb1).
  { unfold b1. destruct (Z.land regb 2 =? 0); [|by exists c].
    destruct (outb_spec c 0x0B (Z.lor regb 2) Hl) as (c1 & ? & ? & Hg); [lia|].
    exists c1. rewrite Hg. done. }
  cbn [mbind option_bind]. rewrite Hb1. cbn [mbind option_bind].
  destruct (outb_spec c1 0x0B (Z.lor b1 0x80) Hl1) as (c2 & -> & Hl2 & Hg2); [lia|]. cbn [mbind option_bind write_regs].
  destruct (outb_spec c2 0x00 (en (rem t 60)) Hl2) as (c3 & -> & Hl3 & Hg3); [lia|]. cbn [mbind option_bind].
  destruct (outb_spec c3 0x02 (en (quot (rem t 3600) 60)) Hl3) as (c4 & -> & Hl4 & Hg4); [lia|]. cbn [mbind option_bind].
  destruct (outb_spec c4 0x04 (en (quot (rem t 86400) 3600)) Hl4) as (c5 & -> & Hl5 & Hg5); [lia|]. cbn [mbind option_bind].
  destruct (outb_spec c5 0x07 (en d) Hl5) as (c6 & -> & Hl6 & Hg6); [lia|]. cbn [mbind option_bind].
  destruct (outb_spec c6 0x08 (en mo) Hl6) as (c7 & -> & Hl7 & Hg7); [lia|]. cbn [mbind option_bind].
  destruct (outb_spec c7 0x09 (en (rem y 100)) Hl7) as (c8 & -> & Hl8 & Hg8); [lia|]. cbn [mbind option_bind].
  assert (c8.[0x0B] = Some (u8 (Z.lor b1 0x80))) as Hb8.
  { rewrite Hg8, Hg7, Hg6, Hg5, Hg4, Hg3, Hg2. done. }
  rewrite Hb8. cbn [mbind option_bind].
  destruct (outb_spec c8 0x0B (Z.ldiff (u8 (Z.lor b1 0x80)) 0x80) Hl8) as (c9 & -> & Hl9 & Hg9); [lia|].
  exists c9. rewrite !Hg9, !Hg8, !Hg7, !Hg6, !Hg5, !Hg4, !Hg3. split_and!; done.
Qed.

(** 1 January 2000 to 31 December 2099. *)
Definition rtc_time (t : Z) : Prop := 946684800 ≤ t < 4102444800.

Lemma rtc_roundtrip c t :
  length c = 128%nat → Forall (λ x, 0 ≤ x < 256) c → rtc_time t →
  ∃ c', rtc_write_epoch c t = Some c' ∧ rtc_read_epoch c' = Some t ∧ length c' = 128%nat.
Proof.
  intros Hl HF Ht. destruct (arr_get_is_Some c 0x0B) as [regb Hb]; [lia|].
  assert (0 ≤ regb < 256) as Hr by (rewrite Forall_forall in HF; apply HF, (arr_get_elem _ _ _ Hb)).
  pose proof (rtc_write_spec c t regb Hl Hb) as Hw. unfold rtc_time in Ht.
  rewrite !Z.rem_mod_nonneg in Hw by lia. rewrite !Z.quot_div_nonneg in Hw by (Z.div_mod_to_equations; lia).
  assert (10957 ≤ t / 86400 ≤ 47481) as Hz by (Z.div_mod_to_equations; lia).
  pose proof (year_2000 _ Hz) as Hy. pose proof (civil_back (t / 86400) ltac:(lia)) as Hback.
  pose proof (civil_valid (t / 86400) ltac:(lia)) as Hv.
  destruct (civil_from_days (t / 86400)) as [[y mo] d]. cbn in Hy. unfold valid_date in Hv. bools.
  assert (month_days y mo ≤ 31) by (unfold month_days; split_ifs; lia).
  destruct Hw as (c' & Hw & Hl' & G0 & G2 & G4 & G7 & G8 & G9 & GB).
  exists c'. split; [done|]. split; [|done]. unfold rtc_read_epoch.
  rewrite G0, G2, G4, G7, G8, G9, GB. cbn [mbind option_bind].
  pose proof (all_from_spec _ _ _ regb regb_ok ltac:(lia)) as Hrb. cbv beta in Hrb. bools.
  match goal with H : Z.land (regb' regb) 4 = _ |- _ => rewrite H end.
  rewrite (proj2 (Z.eqb_neq (Z.land (regb' regb) 2) 0)) by done.
  rewrite Z.rem_mod_nonneg by lia.
  assert (y mod 100 = y - 2000) as Ey by (Z.div_mod_to_equations; lia). rewrite Ey.
  destruct (bcd_spec (t mod 60)) as (S1 & S2 & _); [Z.div_mod_to_equations; lia|].
  destruct (bcd_spec (t mod 3600 / 60)) as (I1 & I2 & _); [Z.div_mod_to_equations; lia|].
  destruct (bcd_spec (t mod 86400 / 3600)) as (H1' & H2' & H3'); [Z.div_mod_to_equations; lia|].
  destruct H3' as (P1 & P2 & P3 & P4); [Z.div_mod_to_equations; lia|].
  destruct (bcd_spec d) as (D1 & D2 & _); [lia|]. destruct (bcd_spec mo) as (M1 & M2 & _); [lia|].
  destruct (bcd_spec (y - 2000)) as (Y1 & Y2 & _); [lia|].
  unfold civil_days, encode. destruct (Z.land regb 4 =? 0).
  - rewrite P1, S1, I1, H1', D1, M1, Y1. replace (2000 + (y - 2000)) with y by lia. rewrite Hback.
    f_equal. rewrite u32_small; Z.div_mod_to_equations; lia.
  - rewrite S2, I2, H2', P3, D2, M2, Y2. replace (2000 + (y - 2000)) with y by lia. rewrite Hback.
    f_equal. rewrite u32_small; Z.div_mod_to_equations; lia.
Qed.

Record clock_ok (k : clock) : Prop := {
  co_length : length (regs k) = 128%nat;
  co_bytes : Forall (λ x, 0 ≤ x < 256) (regs k)
}.

(** The seconds of a date and time. *)
Definition epoch (y mo d h mi s : Z) : Z := days_from_civil y mo d * 86400 + h * 3600 + mi * 60 + s.

(** In January and February the year that starts in March is the one before. *)
Lemma doy_jan m d : 1 ≤ m ≤ 12 → 1 ≤ d → ((m <=? 2) = true → 306 ≤ doy_of m d) ∧
  ((m <=? 2) = false → d ≤ 31 → 0 ≤ doy_of m d ≤ 305).
Proof.
  intros Hm Hd. unfold doy_of. split; intros E; bools.
  - rewrite (proj2 (Z.ltb_ge 2 m)), Z.quot_div_nonneg by lia. Z.div_mod_to_equations; lia.
  - intros ?. rewrite (proj2 (Z.ltb_lt 2 m)), Z.quot_div_nonneg by lia. Z.div_mod_to_equations; lia.
Qed.

Lemma valid_ranges y m d : valid_date (y, m, d) = true → 1 ≤ m ≤ 12 ∧ 1 ≤ d ≤ 31.
Proof.
  intros Hv. unfold valid_date in Hv. bools.
  assert (month_days y m ≤ 31) by (unfold month_days; split_ifs; lia). lia.
Qed.

(** The days of 2000 to 2099, and 1 January is the first of its year. *)
Lemma days_2000 y mo d :
  2000 ≤ y ≤ 2099 → valid_date (y, mo, d) = true →
  10957 ≤ days_from_civil y 1 1 ≤ days_from_civil y mo d ∧ days_from_civil y mo d ≤ 47481.
Proof.
  intros Hy Hv. destruct (valid_ranges _ _ _ Hv) as [Hm Hd].
  destruct (days_split y mo d ltac:(lia) Hv) as (era & yoe & He & Hyo & Ey & Hdoy & _ & -> & _).
  destruct (days_split y 1 1 ltac:(lia) eq_refl) as (era' & yoe' & He' & Hyo' & Ey' & Hdoy' & _ & -> & _).
  change (doy_of 1 1) with 306 in *. change (b2z (1 <=? 2)) with 1 in *.
  destruct (doy_jan mo d ltac:(lia) ltac:(lia)) as [HJ HM].
  pose proof (year_days_pos yoe). unfold year_start.
  rewrite !(Z.quot_div_nonneg yoe), !(Z.quot_div_nonneg yoe') by lia.
  destruct (mo <=? 2); [specialize (HJ eq_refl)|specialize (HM eq_refl ltac:(lia))]; simpl in Ey;
    Z.div_mod_to_equations; lia.
Qed.

(** C17: For every valid date and time of the years 2000 to 2099, in binary or BCD
    mode and from 12 or 24 hour mode, [clock_rtc_set] answers 0 and
    [clock_rtc_get] then reads back exactly that time, with the right weekday and
    day of the year. *)
Theorem rtc_set_get k s mi h d mo y :
  clock_ok k → 0 ≤ s ≤ 59 → 0 ≤ mi ≤ 59 → 0 ≤ h ≤ 23 → 2000 ≤ y ≤ 2099 → valid_date (y, mo, d) = true →
  ∃ k', clock_rtc_set k s mi h d (mo - 1) (y - 1900) = Some (0, k') ∧
    clock_rtc_get k' = Some [s; mi; h; d; mo - 1; y - 1900; (days_from_civil y mo d + 4) mod 7;
                             days_from_civil y mo d - days_from_civil y 1 1; 0].
Proof.
  intros [Hl HF] Hs Hmi Hh Hy Hv. pose proof (days_2000 y mo d Hy Hv) as Hdays.
  pose proof (civil_forth y mo d ltac:(lia) Hv) as Eciv. destruct (valid_ranges _ _ _ Hv) as [Hmo Hd].
  unfold clock_rtc_set. repeat (rewrite (proj2 (Z.ltb_ge _ _)) by lia). cbn [orb].
  unfold civil_days. replace (y - 1900 + 1900) with y by lia. replace (mo - 1 + 1) with mo by lia.
  set (z := days_from_civil y mo d) in *. set (t := z * 86400 + h * 3600 + mi * 60 + s).
  assert (rtc_time t) as Ht by (unfold t, rtc_time; lia). rewrite u32_small by (unfold rtc_time in Ht; lia).
  destruct (rtc_roundtrip (regs k) t Hl HF Ht) as (c & -> & Hr & _). cbn [mbind option_bind].
  eexists. split; [done|]. unfold clock_rtc_get. cbn [regs]. rewrite Hr. cbn [mbind option_bind].
  rewrite !Z.rem_mod_nonneg, !Z.quot_div_nonneg by (unfold t; try (Z.div_mod_to_equations; lia); lia).
  assert (t / 86400 = z) as -> by (unfold t; Z.div_mod_to_equations; lia). rewrite Eciv.
  unfold civil_days. fold z. rewrite u32_small, i32_small, !Z.rem_mod_nonneg by lia.
  repeat f_equal; unfold t; Z.div_mod_to_equations; lia.
Qed.

(** After [clock_set] at one uptime, [clock_now], [clock_now_us] and
    [clock_epoch] at any later uptime answer the time that was set plus the time
    that went by, to the microsecond, as long as the seconds fit 32 bits; and the
    CMOS clock holds the seconds that were set when it can. *)
Theorem clock_set_now k tsc0 pit0 tsc1 pit1 sec nsec :
  clock_ok k → 0 ≤ sec < 2 ^ 32 → 0 ≤ nsec < 2 ^ 32 →
  0 ≤ uptime tsc0 pit0 ≤ uptime tsc1 pit1 → uptime tsc1 pit1 < 2 ^ 62 →
  let T := sec * 1000000 + nsec / 1000 + (uptime tsc1 pit1 - uptime tsc0 pit0) in
  T < 2 ^ 32 * 1000000 →
  ∃ k', clock_set k tsc0 pit0 sec nsec = Some k' ∧
    clock_now k' tsc1 pit1 = (T / 1000000, T mod 1000000 * 1000) ∧
    clock_now_us k' tsc1 pit1 = (T / 1000000, T mod 1000000) ∧
    clock_epoch k' tsc1 pit1 = T / 1000000 ∧
    (rtc_time sec → rtc_read_epoch (regs k') = Some sec).
Proof.
  intros [Hl HF] Hsec Hns Hup Hup1 T HT. unfold clock_set.
  assert (∃ c, rtc_write_epoch (regs k) sec = Some c ∧ (rtc_time sec → rtc_read_epoch c = Some sec)) as (c & -> & Hr).
  { destruct (arr_get_is_Some (regs k) 0x0B) as [regb Hb]; [lia|].
    pose proof (rtc_write_spec (regs k) sec regb Hl Hb) as Hw.
    destruct (civil_from_days _) as [[y mo] d]. destruct Hw as (c & Hw & _). exists c. split; [done|].
    intros Ht. destruct (rtc_roundtrip (regs k) sec Hl HF Ht) as (c' & Hw' & ? & _). congruence. }
  cbn [mbind option_bind]. eexists. split; [done|]. unfold clock_now, clock_now_us, clock_epoch, now_us.
  cbn [wall_off regs]. rewrite (Z.quot_div_nonneg nsec) by lia.
  assert (0 ≤ nsec / 1000 < 2 ^ 32) by (Z.div_mod_to_equations; lia).
  rewrite i64_small by lia. replace (uptime tsc1 pit1 + _) with T by (unfold T; lia).
  assert (0 ≤ T) by (unfold T; lia).
  rewrite (u64_small T) by lia. rewrite Z.quot_div_nonneg, Z.rem_mod_nonneg by lia.
  assert (0 ≤ T / 1000000 < 2 ^ 32 ∧ 0 ≤ T mod 1000000 < 1000000) as [? ?] by (Z.div_mod_to_equations; lia).
  rewrite !(u32_small (T / 1000000)), !(u32_small (T mod 1000000)), u32_small by lia. done.
Qed.

Definition clock0 : clock := Clk 0 0 false false (replicate 128 0).

Lemma clock0_ok : clock_ok clock0.
Proof. split; [done|]. apply bytes_decided. reflexivity. Qed.

Lemma rtc_set_get_witness :
  ∃ k', clock_rtc_set clock0 59 30 23 29 1 124 = Some (0, k') ∧
    clock_rtc_get k' = Some [59; 30; 23; 29; 1; 124; 4; 59; 0].
Proof.
  refine (rtc_set_get clock0 59 30 23 29 2 2024 clock0_ok _ _ _ _ _); try lia; reflexivity.
Defined.

Lemma clock_set_now_witness :
  ∃ k', clock_set clock0 5000000 0 1700000000 500000000 = Some k' ∧
    clock_now k' 6600000 0 = (1700000002, 100000000).
Proof.
  destruct (clock_set_now clock0 5000000 0 6600000 0 1700000000 500000000 clock0_ok)
    as (k' & E & Hn & _).
  - lia.
  - lia.
  - vm_compute. split; congruence.
  - vm_compute. reflexivity.
  - vm_compute. reflexivity.
  - exists k'. split; [exact E|exact Hn].
Defined.

(** [clock_rtc_set] checks the day against 31 whatever the month: 31 February
    2024 is accepted and the clock then shows 2 March. *)
Theorem rtc_set_bad_day :
  valid_date (2024, 2, 31) = false ∧
  ∃ k', clock_rtc_set clock0 0 0 12 31 1 124 = Some (0, k') ∧
    clock_rtc_get k' = Some [0; 0; 12; 2; 2; 124; 6; 61; 0].
Proof. split; [reflexivity|]. eexists. split; [vm_compute; reflexivity|vm_compute; reflexivity]. Qed.

(** The CMOS year has two digits that are read as 20xx: the epoch itself, written
    by [clock_set], is read back as 1 January 2070. *)
Lemma rtc_before_2000 :
  (rtc_write_epoch (regs clock0) 0 ≫= rtc_read_epoch) = Some 3155760000.
Proof. vm_compute. reflexivity. Qed.

End Clock.
