(* ===== verification/Pty.v ===== *)
(** * Pseudo-terminals (src/src/proc/pty.c)

    A pair of bounded queues with a line discipline in between.  Characters are
    bytes.  The loops that sleep (in [pty_read] and [pty_write]) are modelled by
    one turn each, which is atomic (interrupts are off) and says what it returns
    or that it waits; the state is whatever it is when the sleeper is woken.
    Signals sent to process groups are logged in [sigs]. *)

From S2P Require Import Prelude.

Module Pty.

Definition EIO : Z := 5.
Definition ENXIO : Z := 6.
Definition EAGAIN : Z := 11.
Definition EFAULT : Z := 14.
Definition EBUSY : Z := 16.
Definition EINVAL : Z := 22.
Definition ENOTTY : Z := 25.
Definition EINTR : Z := 4.
Definition ENOSPC : Z := 28.

Definition NPTY : Z := 16.
Definition PTY_BUF : Z := 4096.

Record ring_t := Ring { b : list Z; h : Z; t : Z; n : Z }.

Definition ring0 : ring_t := Ring (replicate 4096 0) 0 0 0.

Record ktermios_t := Tio { c_iflag : Z; c_oflag : Z; c_cflag : Z; c_lflag : Z; c_cc : list Z }.

Definition TTY_ISIG : Z := 0x0001.
Definition TTY_ICANON : Z := 0x0002.
Definition TTY_ECHO : Z := 0x0008.
Definition TTY_ECHOE : Z := 0x0010.
Definition TTY_ICRNL : Z := 0x0100.
Definition TTY_OPOST : Z := 0x0001.
Definition TTY_ONLCR : Z := 0x0004.
Definition I_INLCR : Z := 0x0040.
Definition I_IGNCR : Z := 0x0080.
Definition L_ECHOK : Z := 0x0020.
Definition L_ECHOCTL : Z := 0x0200.
Definition L_IEXTEN : Z := 0x8000.
Definition VINTR : Z := 0.
Definition VQUIT : Z := 1.
Definition VERASE : Z := 2.
Definition VKILL : Z := 3.
Definition VEOF : Z := 4.
Definition VTIME : Z := 5.
Definition VMIN : Z := 6.

(** Is a flag set? *)
Definition has (flags bit : Z) : bool := nz (Z.land flags bit).

Record pty_t := Pt {
  used : bool; locked : bool; mrefs : Z; srefs : Z; slave_seen : bool;
  inq : ring_t; outq : ring_t; line : list Z; llen : Z; eof : Z;
  tio : ktermios_t; rows : Z; cols : Z; pgrp : Z; sid : Z; node : Z;
  sigs : list (Z * Z)
}.

Definition tio0 : ktermios_t := Tio 0 0 0 0 (replicate 19 0).

(** All bytes zero. *)
Definition pty0 : pty_t :=
  Pt false false 0 0 false ring0 ring0 (replicate 256 0) 0 0 tio0 0 0 0 0 0 [].

Definition NL : Z := 10.
Definition CR : Z := 13.
Definition BS : Z := 8.
Definition TAB : Z := 9.
Definition SP : Z := 32.

(** ** Rings *)

Definition ring_space (r : ring_t) : Z := PTY_BUF - n r.

Definition ring_put (r : ring_t) (c : Z) : option ring_t :=
  if n r =? PTY_BUF then Some r
  else b' ← (b r).[h r <- c]; Some (Ring b' (Z.rem (h r + 1) PTY_BUF) (t r) (n r + 1)).

Definition ring_get (r : ring_t) : option (Z * ring_t) :=
  c ← (b r).[t r]; Some (c, Ring (b r) (h r) (Z.rem (t r + 1) PTY_BUF) (n r - 1)).

(** ** Line discipline *)

Definition put_out (p : pty_t) (c : Z) : option pty_t :=
  r ← ring_put (outq p) c; Some {| p with outq := r |}.
Definition put_in (p : pty_t) (c : Z) : option pty_t :=
  r ← ring_put (inq p) c; Some {| p with inq := r |}.

Definition out_char (p : pty_t) (c : Z) : option pty_t :=
  p ← (if has (c_oflag (tio p)) TTY_OPOST && has (c_oflag (tio p)) TTY_ONLCR && (c =? NL)
       then put_out p CR else Some p);
  put_out p c.

Definition echo_char (p : pty_t) (c : Z) : option pty_t :=
  if has (c_lflag (tio p)) L_ECHOCTL && (c <? 0x20) && negb (c =? NL) && negb (c =? TAB) && negb (c =? CR)
  then p ← out_char p 94; out_char p (u8 (c + 64))
  else out_char p c.

Definition signal_fg (p : pty_t) (sig : Z) : pty_t :=
  if nz (pgrp p) then {| p with sigs := sigs p ++ [(pgrp p, sig)] |} else p.

(** [for (k = 0; k < llen; k++) ring_put(&in, line[k])] *)
Fixpoint flush_from (p : pty_t) (ks : list Z) : option pty_t :=
  match ks with
  | [] => Some p
  | k :: ks' => c ← (line p).[k]; p ← put_in p c; flush_from p ks'
  end.

Definition flush_line (p : pty_t) : option pty_t :=
  p ← flush_from p (upto (llen p)); Some {| p with llen := 0 |}.

(** The echo of a rubout. *)
Definition rubout (p : pty_t) : option pty_t :=
  if has (c_lflag (tio p)) TTY_ECHO
  then p ← out_char p BS; p ← out_char p SP; out_char p BS
  else Some p.

(** The loop of VKILL. *)
Fixpoint kill_line (fuel : nat) (p : pty_t) : option pty_t :=
  match fuel with
  | O => Some p
  | S fuel =>
      if 0 <? llen p then p ← rubout {| p with llen := llen p - 1 |}; kill_line fuel p
      else Some p
  end.

Definition append_line (p : pty_t) (c : Z) : option pty_t :=
  l ← (line p).[llen p <- c]; Some {| p with line := l; llen := llen p + 1 |}.

(** The character after the CR and NL mapping; [None] when it is dropped. *)
Definition map_input (t : ktermios_t) (c : Z) : option Z :=
  if (c =? CR) && has (c_iflag t) I_IGNCR then None
  else if (c =? CR) && has (c_iflag t) TTY_ICRNL then Some NL
  else if (c =? NL) && has (c_iflag t) I_INLCR then Some CR
  else Some c.

(** The signal a character stands for, 0 for none. *)
Definition signal_of (t : ktermios_t) (c : Z) : option Z :=
  i ← (c_cc t).[VINTR]; q ← (c_cc t).[VQUIT];
  Some (if c =? i then 2 else if c =? q then 3 else if c =? 0x1A then 20 else 0).

(** Canonical editing: the last part of [input_char]. *)
Definition canon_char (p : pty_t) (c : Z) : option pty_t :=
  let t := tio p in
  let echo := has (c_lflag t) TTY_ECHO in
  erase ← (c_cc t).[VERASE]; kill ← (c_cc t).[VKILL]; veof ← (c_cc t).[VEOF];
  if (c =? erase) || (c =? BS)
  then if 0 <? llen p then rubout {| p with llen := llen p - 1 |} else Some p
  else if c =? kill then kill_line (Z.to_nat (llen p)) p
  else if c =? veof
  then if nz (llen p) then flush_line p else Some {| p with eof := eof p + 1 |}
  else if c =? NL
  then
    p ← (if llen p <? 256 then append_line p c else Some p);
    p ← (if echo then out_char p NL else Some p);
    flush_line p
  else if llen p <? 255
  then p ← append_line p c; if echo then echo_char p c else Some p
  else Some p.

Definition input_char (p : pty_t) (c : Z) : option pty_t :=
  match map_input (tio p) c with
  | None => Some p
  | Some c =>
      let lf := c_lflag (tio p) in
      sig ← (if has lf TTY_ISIG then signal_of (tio p) c else Some 0);
      if nz sig && nz c
      then
        p ← (if has lf TTY_ECHO then p ← echo_char p c; out_char p NL else Some p);
        let p := {| p with llen := 0 |} in
        Some (if sig =? 20 then p else signal_fg p sig)
      else if negb (has lf TTY_ICANON)
      then p ← put_in p c; if has lf TTY_ECHO then echo_char p c else Some p
      else canon_char p c
  end.

(** ** Lifetime *)

(** The table, and the pty of an index that is in use. *)
Abbreviation table := (list pty_t).

Definition get (ptys : table) (i : Z) : option pty_t :=
  if (0 <=? i) && (i <? NPTY)
  then match ptys.[i] with Some p => if used p then Some p else None | None => None end
  else None.

Definition set_default_termios : ktermios_t :=
  Tio TTY_ICRNL (Z.lor TTY_OPOST TTY_ONLCR) 0x04BF
    (Z.lor (Z.lor (Z.lor (Z.lor (Z.lor (Z.lor TTY_ISIG TTY_ICANON) TTY_ECHO) TTY_ECHOE) L_ECHOK) L_ECHOCTL) L_IEXTEN)
    ([3; 0x1C; 0x7F; 0x15; 4; 0; 1] ++ replicate 12 0).

Definition release (p : pty_t) : pty_t :=
  if (0 <? mrefs p) || (0 <? srefs p) then p else pty0.

(** [nd] is the node [fs_create] makes for /dev/pts/N. *)
Definition pty_alloc (ptys : table) (nd : Z) : option (Z * table) :=
  match find_from 0 (λ p, negb (used p)) ptys with
  | None => Some (- ENOSPC, ptys)
  | Some i =>
      ptys ← ptys.[i <- {| pty0 with used := true; locked := true; mrefs := 1; rows := 25; cols := 80;
                                     tio := set_default_termios; node := nd |}];
      Some (i, ptys)
  end.

Definition pty_master_close (ptys : table) (i : Z) : option table :=
  match get ptys i with
  | None => Some ptys
  | Some p =>
      let p := {| p with mrefs := mrefs p - 1 |} in
      let p := if mrefs p <=? 0
               then
                 let p := signal_fg {| p with mrefs := 0 |} 1 in
                 if nz (sid p) then {| p with sigs := sigs p ++ [(sid p, 1)] |} else p
               else p in
      ptys.[i <- release p]
  end.

(** What the terminal uses of the current process. *)
Record proc_t := Proc { p_tgid : Z; p_sid : Z; p_pgid : Z; p_ctty : Z }.

Definition pty_slave_open (ptys : table) (me : option proc_t) (i flags : Z)
    : option (Z * table * option proc_t) :=
  match get ptys i with
  | None => Some (- ENXIO, ptys, me)
  | Some p =>
      if mrefs p <=? 0 then Some (- ENXIO, ptys, me)
      else if locked p then Some (- EIO, ptys, me)
      else
        let p := {| p with srefs := i32 (srefs p + 1); slave_seen := true |} in
        let '(p, me) :=
          match me with
          | Some m =>
              if (p_tgid m =? p_sid m) && (p_ctty m <? 0) && (Z.land flags 0x100 =? 0) && (sid p =? 0)
              then ({| p with sid := p_sid m; pgrp := p_pgid m |}, Some {| m with p_ctty := i + 1 |})
              else (p, me)
          | None => (p, me)
          end in
        ptys ← ptys.[i <- p];
        Some (0, ptys, me)
  end.

Definition pty_slave_close (ptys : table) (i : Z) : option table :=
  match get ptys i with
  | None => Some ptys
  | Some p =>
      let s := if srefs p - 1 <? 0 then 0 else srefs p - 1 in
      let p := {| p with srefs := s |} in
      let p := if s =? 0 then {| p with sid := 0; pgrp := 0 |} else p in
      ptys.[i <- release p]
  end.

(** ** Data *)

Definition slave_input_ready (p : pty_t) : bool :=
  if mrefs p <=? 0 then true
  else if 0 <? n (inq p) then true
  else has (c_lflag (tio p)) TTY_ICANON && (0 <? eof p).

Definition pty_readable (ptys : table) (i : Z) (master : bool) : bool :=
  match get ptys i with
  | None => true
  | Some p => if master then (0 <? n (outq p)) || (slave_seen p && (srefs p <=? 0)) else slave_input_ready p
  end.

Definition pty_writable (ptys : table) (i : Z) (master : bool) : bool :=
  match get ptys i with
  | None => true
  | Some p => if master then 64 <? ring_space (inq p) else 0 <? ring_space (outq p)
  end.

Definition pty_pending (ptys : table) (i : Z) (master : bool) : Z :=
  match get ptys i with Some p => if master then n (outq p) else n (inq p) | None => 0 end.

(** The copying loops: up to [k] bytes, in canonical mode no further than a newline. *)
Fixpoint drain (k : nat) (canon : bool) (r : ring_t) : option (list Z * ring_t) :=
  match k with
  | O => Some ([], r)
  | S k =>
      if 0 <? n r
      then
        '(c, r) ← ring_get r;
        if canon && (c =? NL) then Some ([c], r)
        else '(cs, r) ← drain k canon r; Some (c :: cs, r)
      else Some ([], r)
  end.

(** What a turn of a blocking call came to. *)
Inductive outcome := Got (cs : list Z) | Err (r : Z) | Wait.

(** A turn of [pty_read]; [late] says that the VTIME timeout is over. *)
Definition pty_read (p : pty_t) (master : bool) (len : Z) (nonblock interrupted late : bool)
    : option (outcome * pty_t) :=
  if len <=? 0 then Some (Got [], p)
  else if master
  then
    if 0 <? n (outq p)
    then '(cs, r) ← drain (Z.to_nat len) false (outq p); Some (Got cs, {| p with outq := r |})
    else if slave_seen p && (srefs p <=? 0) then Some (Err (- EIO), p)
    else if nonblock then Some (Err (- EAGAIN), p)
    else if interrupted then Some (Err (- EINTR), p)
    else Some (Wait, p)
  else
    let canon := has (c_lflag (tio p)) TTY_ICANON in
    if 0 <? n (inq p)
    then '(cs, r) ← drain (Z.to_nat len) canon (inq p); Some (Got cs, {| p with inq := r |})
    else if canon && (0 <? eof p) then Some (Got [], {| p with eof := eof p - 1 |})
    else if mrefs p <=? 0 then Some (Got [], p)
    else if nonblock then Some (Err (- EAGAIN), p)
    else
      vmin ← (c_cc (tio p)).[VMIN];
      if negb canon && (vmin =? 0) && late then Some (Got [], p)
      else if interrupted then Some (Err (- EINTR), p)
      else Some (Wait, p).

(** The feeding loops of [pty_write]: the bytes not taken, and the pty. *)
Fixpoint feed (master : bool) (p : pty_t) (buf : list Z) : option (list Z * pty_t) :=
  match buf with
  | [] => Some ([], p)
  | c :: buf' =>
      if 2 <? ring_space (if master then inq p else outq p)
      then p ← (if master then input_char p c else out_char p c); feed master p buf'
      else Some (buf, p)
  end.

Inductive written := Wrote (k : Z) | WErr (r : Z) | WWait (rest : list Z).

(** A turn of [pty_write] with [done] bytes behind it and [buf] to go. *)
Definition pty_write (p : pty_t) (master : bool) (done : Z) (buf : list Z) (nonblock interrupted : bool)
    : option (written * pty_t) :=
  let fin e := if nz done then Wrote done else WErr (- e) in
  if bool_decide (buf = []) then Some (Wrote done, p)
  else if (if master then slave_seen p && (srefs p <=? 0) else mrefs p <=? 0) then Some (fin EIO, p)
  else
    '(rest, p) ← feed master p buf;
    let done := done + Z.of_nat (length buf - length rest)%nat in
    let fin e := if nz done then Wrote done else WErr (- e) in
    if bool_decide (rest = []) then Some (Wrote done, p)
    else if nonblock then Some (fin EAGAIN, p)
    else if interrupted then Some (fin EINTR, p)
    else Some (WWait rest, p).

Definition pty_unlock (p : pty_t) : pty_t := {| p with locked := false |}.

Definition pty_set_size (p : pty_t) (r c : Z) : pty_t :=
  if (rows p =? r) && (cols p =? c) then p
  else signal_fg {| p with rows := u16 r; cols := u16 c |} 28.

(** ** ioctl *)

Definition USER_BASE : Z := 0x10000.
Definition USER_TOP : Z := 0x800000000000.

Definition uptr (a len : Z) : bool := (USER_BASE <=? a) && (a <? USER_TOP) && (len <=? USER_TOP - a).

(** What the user memory behind [arg] holds: a termios, two 16 bit words, an int. *)
Record uarg := UArg { u_tio : ktermios_t; u_w0 : Z; u_w1 : Z; u_int : Z }.

(** What is written back. *)
Inductive reply := Nothing | RTio (t : ktermios_t) | RWin (r c : Z) | RInt (x : Z).

Definition flush_input (p : pty_t) : pty_t :=
  {| p with inq := Ring (b (inq p)) 0 0 0; llen := 0 |}.
Definition flush_output (p : pty_t) : pty_t := {| p with outq := Ring (b (outq p)) 0 0 0 |}.

(** The answer, the reply, the pty and the current process. *)
Definition pty_ioctl (p : pty_t) (me : option proc_t) (i : Z) (master : bool) (req arg : Z) (u : uarg)
    : option (Z * reply * pty_t * option proc_t) :=
  let efault := Some (- EFAULT, Nothing, p, me) in
  if req =? 0x5401 then if uptr arg 36 then Some (0, RTio (tio p), p, me) else efault
  else if (req =? 0x5402) || (req =? 0x5403) || (req =? 0x5404)
  then
    if negb (uptr arg 36) then efault
    else
      let was_canon := has (c_lflag (tio p)) TTY_ICANON in
      let p := {| p with tio := u_tio u |} in
      let p := if req =? 0x5404 then flush_input p else p in
      p ← (if was_canon && negb (has (c_lflag (tio p)) TTY_ICANON) then flush_line p else Some p);
      Some (0, Nothing, p, me)
  else if req =? 0x5413 then if uptr arg 8 then Some (0, RWin (rows p) (cols p), p, me) else efault
  else if req =? 0x5414
  then
    if negb (uptr arg 8) then efault
    else Some (0, Nothing,
               (if negb (u_w0 u =? rows p) || negb (u_w1 u =? cols p)
                then signal_fg {| p with rows := u_w0 u; cols := u_w1 u |} 28 else p), me)
  else if req =? 0x540F
  then
    if negb (uptr arg 4) then efault
    else Some (0, RInt (if nz (pgrp p) then pgrp p else match me with Some m => p_pgid m | None => 0 end), p, me)
  else if req =? 0x5410
  then if uptr arg 4 then Some (0, Nothing, {| p with pgrp := u_int u |}, me) else efault
  else if req =? 0x5429
  then
    if negb (uptr arg 4) then efault
    else if sid p =? 0 then Some (- ENOTTY, Nothing, p, me)
    else Some (0, RInt (sid p), p, me)
  else if req =? 0x540E
  then
    match me with
    | None => Some (- EINVAL, Nothing, p, me)
    | Some m =>
        if master then Some (- EINVAL, Nothing, p, me)
        else if nz (sid p) && negb (sid p =? p_sid m) && (arg =? 0) then Some (- EBUSY, Nothing, p, me)
        else Some (0, Nothing, {| p with sid := p_sid m; pgrp := p_pgid m |}, Some {| m with p_ctty := i + 1 |})
    end
  else if req =? 0x5422
  then
    Some (0, Nothing, p,
          match me with
          | Some m => Some (if p_ctty m =? i + 1 then {| m with p_ctty := -1 |} else m)
          | None => None
          end)
  else if req =? 0x80045430
  then
    if negb master then Some (- ENOTTY, Nothing, p, me)
    else if uptr arg 4 then Some (0, RInt i, p, me) else efault
  else if req =? 0x40045431
  then
    if negb master then Some (- ENOTTY, Nothing, p, me)
    else if uptr arg 4 then Some (0, Nothing, {| p with locked := nz (u_int u) |}, me) else efault
  else if req =? 0x540B
  then
    let p := if (arg =? 0) || (arg =? 2) then flush_input p else p in
    let p := if (arg =? 1) || (arg =? 2) then flush_output p else p in
    Some (0, Nothing, p, me)
  else if (req =? 0x5409) || (req =? 0x540A) || (req =? 0x5425) || (req =? 0x5427) || (req =? 0x5428)
  then Some (0, Nothing, p, me)
  else Some (- EINVAL, Nothing, p, me).

(** ** The entry points, on the table *)

(** Each looks the index up first. *)
Definition on_pty {A} (ptys : table) (i : Z) (no : A) (f : pty_t → option (A * pty_t)) : option (A * table) :=
  match get ptys i with
  | None => Some (no, ptys)
  | Some p => '(a, p) ← f p; ptys ← ptys.[i <- p]; Some (a, ptys)
  end.

Inductive pty_op :=
  | OAlloc (nd : Z)
  | OMasterClose (i : Z)
  | OSlaveOpen (me : option proc_t) (i flags : Z)
  | OSlaveClose (i : Z)
  | ORead (i : Z) (master : bool) (len : Z) (nonblock interrupted late : bool)
  | OWrite (i : Z) (master : bool) (done : Z) (buf : list Z) (nonblock interrupted : bool)
  | OIoctl (me : option proc_t) (i : Z) (master : bool) (req arg : Z) (u : uarg)
  | OUnlock (i : Z)
  | OSetSize (i r c : Z).

Definition pty_step (ptys : table) (o : pty_op) : option table :=
  match o with
  | OAlloc nd => snd <$> pty_alloc ptys nd
  | OMasterClose i => pty_master_close ptys i
  | OSlaveOpen me i flags => '(_, ptys, _) ← pty_slave_open ptys me i flags; Some ptys
  | OSlaveClose i => pty_slave_close ptys i
  | ORead i m len nb intr late => snd <$> on_pty ptys i (Err (- EIO)) (λ p, pty_read p m len nb intr late)
  | OWrite i m done buf nb intr => snd <$> on_pty ptys i (WErr (- EIO)) (λ p, pty_write p m done buf nb intr)
  | OIoctl me i m req arg u =>
      snd <$> on_pty ptys i (- EIO, Nothing, me)
        (λ p, '(r, rep, p, me) ← pty_ioctl p me i m req arg u; Some (r, rep, me, p))
  | OUnlock i => snd <$> on_pty ptys i () (λ p, Some ((), pty_unlock p))
  | OSetSize i r c => snd <$> on_pty ptys i () (λ p, Some ((), pty_set_size p r c))
  end.

Definition ptys0 : table := replicate 16 pty0.

(** ** A ring is a bounded queue *)

Record ring_ok (r : ring_t) : Prop := {
  rk_length : length (b r) = 4096%nat;
  rk_tail : 0 ≤ t r < 4096;
  rk_count : 0 ≤ n r ≤ 4096;
  rk_head : h r = (t r + n r) mod 4096
}.

(** The queue, oldest first. *)
Definition items (r : ring_t) : list Z :=
  (λ k, default 0 ((b r).[(t r + k) mod 4096])) <$> upto (n r).

Lemma items_length r : ring_ok r → Z.of_nat (length (items r)) = n r.
Proof. intros H. unfold items, upto. rewrite length_fmap, length_seqZ. pose proof (rk_count _ H). lia. Qed.

Lemma upto_snoc k : 0 ≤ k → upto (k + 1) = upto k ++ [k].
Proof. intros Hk. unfold upto. rewrite (seqZ_app 0 k 1) by lia. done. Qed.

Lemma mod_ne x k j : 0 ≤ k < 4096 → 0 ≤ j < 4096 → k ≠ j → (x + k) mod 4096 ≠ (x + j) mod 4096.
Proof. intros. Z.div_mod_to_equations; lia. Qed.

Lemma ring_put_spec r c :
  ring_ok r →
  ∃ r', ring_put r c = Some r' ∧ ring_ok r' ∧
    items r' = (if n r =? 4096 then items r else items r ++ [c]).
Proof.
  intros H. unfold ring_put, PTY_BUF. destruct (n r =? 4096) eqn:E; [by exists r|]. bools.
  destruct H as [Hl Ht Hn Hh]. assert (0 ≤ h r < 4096) by (rewrite Hh; apply Z.mod_pos_bound; lia).
  destruct (arr_get_is_Some (b r) (h r)) as [x Hx]; [lia|].
  destruct (set_total _ _ _ c Hx) as [b' Hb]. rewrite Hb. cbn [mbind option_bind].
  eexists. split; [done|]. split.
  - split; cbn; [by rewrite (arr_set_length _ _ _ _ Hb)|done|lia|].
    rewrite Z.rem_mod_nonneg, Hh, Z.add_mod_idemp_l by lia. f_equal. lia.
  - unfold items. cbn [b t n]. rewrite upto_snoc, fmap_app by lia. f_equal.
    + apply list_fmap_ext. intros j k Hk. apply list_elem_of_lookup_2, elem_of_seqZ in Hk.
      rewrite (arr_get_set _ _ _ _ _ Hb), decide_False; [done|]. rewrite Hh. apply mod_ne; lia.
    + cbn. rewrite (arr_get_set _ _ _ _ _ Hb), decide_True by done. done.
Qed.

Lemma ring_get_spec r :
  ring_ok r → 0 < n r →
  ∃ c r', ring_get r = Some (c, r') ∧ ring_ok r' ∧ items r = c :: items r'.
Proof.
  intros [Hl Ht Hn Hh] Hpos. unfold ring_get, PTY_BUF.
  destruct (arr_get_is_Some (b r) (t r)) as [c Hc]; [lia|]. rewrite Hc. cbn [mbind option_bind].
  eexists _, _. split; [done|]. split.
  - split; cbn; [done| |lia|].
    + rewrite Z.rem_mod_nonneg by lia. apply Z.mod_pos_bound. lia.
    + rewrite Z.rem_mod_nonneg, Hh, Z.add_mod_idemp_l by lia. f_equal. lia.
  - unfold items, upto. cbn [b t n]. rewrite seqZ_cons by lia. cbn [fmap list_fmap]. f_equal.
    + rewrite Z.add_0_r, Z.mod_small, Hc by lia. done.
    + replace (Z.succ 0) with (1 + 0) by lia. rewrite <- fmap_add_seqZ, <- list_fmap_compose.
      replace (Z.pred (n r)) with (n r - 1) by lia. apply list_fmap_ext. intros j k _. cbn.
      rewrite Z.rem_mod_nonneg, Z.add_mod_idemp_l by lia. do 3 f_equal. lia.
Qed.

(** ** A terminal in good order *)

Record pty_ok (p : pty_t) : Prop := {
  po_in : ring_ok (inq p);
  po_out : ring_ok (outq p);
  po_line : length (line p) = 256%nat;
  po_llen : 0 ≤ llen p ≤ 255;
  po_cc : length (c_cc (tio p)) = 19%nat
}.

(** The line being edited. *)
Definition edited (p : pty_t) : list Z := take (Z.to_nat (llen p)) (line p).

(** A queue takes a character unless it is full. *)
Definition push (q : list Z) (c : Z) : list Z := if Z.of_nat (length q) =? 4096 then q else q ++ [c].

(** [o] runs, changes only the output queue, and that to [q]. *)
Definition out_only (p : pty_t) (o : option pty_t) (q : list Z) : Prop :=
  ∃ r, o = Some {| p with outq := r |} ∧ ring_ok r ∧ items r = q.

Lemma put_out_spec p c : ring_ok (outq p) → out_only p (put_out p c) (push (items (outq p)) c).
Proof.
  intros H. destruct (ring_put_spec (outq p) c H) as (r & E & Hr & Hi). exists r. unfold put_out. rewrite E.
  split; [done|]. split; [done|]. unfold push. by rewrite items_length.
Qed.

(** One after the other. *)
Lemma out_only_bind p o q f q' :
  out_only p o q → (∀ r, ring_ok r → items r = q → out_only {| p with outq := r |} (f {| p with outq := r |}) q') →
  out_only p (o ≫= f) q'.
Proof.
  intros (r & -> & Hr & Hi) Hf. cbn. destruct (Hf r Hr Hi) as (r' & -> & ? & ?). by exists r'.
Qed.

(** The bytes a character becomes on output. *)
Definition onlcr (t : ktermios_t) (c : Z) : list Z :=
  (if has (c_oflag t) TTY_OPOST && has (c_oflag t) TTY_ONLCR && (c =? NL) then [CR] else []) ++ [c].

Definition push_all (q cs : list Z) : list Z := foldl push q cs.

Lemma out_char_spec p c : ring_ok (outq p) → out_only p (out_char p c) (push_all (items (outq p)) (onlcr (tio p) c)).
Proof.
  intros H. unfold out_char, onlcr, push_all. destruct (_ && _ && _); cbn [app foldl].
  - eapply out_only_bind; [by apply put_out_spec|]. intros r Hr <-. by apply (put_out_spec {| p with outq := r |}).
  - by apply put_out_spec.
Qed.

(** What the echo of a character, or of a rubout, adds. *)
Definition echo_bytes (t : ktermios_t) (c : Z) : list Z :=
  if has (c_lflag t) L_ECHOCTL && (c <? 0x20) && negb (c =? NL) && negb (c =? TAB) && negb (c =? CR)
  then onlcr t 94 ++ onlcr t (u8 (c + 64)) else onlcr t c.

Lemma push_all_app q a c : push_all q (a ++ c) = push_all (push_all q a) c.
Proof. apply foldl_app. Qed.

Lemma echo_char_spec p c : ring_ok (outq p) → out_only p (echo_char p c) (push_all (items (outq p)) (echo_bytes (tio p) c)).
Proof.
  intros H. unfold echo_char, echo_bytes. destruct (_ && _ && _ && _ && _); [|by apply out_char_spec].
  rewrite push_all_app. eapply out_only_bind; [by apply out_char_spec|]. intros r Hr <-.
  by apply (out_char_spec {| p with outq := r |}).
Qed.

Definition rub_bytes (t : ktermios_t) : list Z := onlcr t BS ++ onlcr t SP ++ onlcr t BS.

Lemma rubout_spec p : ring_ok (outq p) →
  out_only p (rubout p) (if has (c_lflag (tio p)) TTY_ECHO then push_all (items (outq p)) (rub_bytes (tio p)) else items (outq p)).
Proof.
  intros H. unfold rubout, rub_bytes. destruct (has _ _).
  - rewrite !push_all_app. eapply out_only_bind; [by apply out_char_spec|]. intros r Hr <-.
    eapply out_only_bind; [by apply (out_char_spec {| p with outq := r |})|]. intros r' Hr' Hi'.
    cbn [outq tio] in Hi'. rewrite <- Hi'.
    by apply (out_char_spec {| p with outq := r' |}).
  - exists (outq p). by destruct p.
Qed.

(** [o] runs and leaves everything but the output queue as in [p']. *)
Definition but_out (p' : pty_t) (o : option pty_t) : Prop :=
  ∃ r, o = Some {| p' with outq := r |} ∧ ring_ok r.

Lemma out_only_but p o q : out_only p o q → but_out p o.
Proof. intros (r & ? & ? & _). by exists r. Qed.

Lemma but_out_refl p : ring_ok (outq p) → but_out p (Some p).
Proof. intros. exists (outq p). by destruct p. Qed.

Lemma but_out_ok p p' o : but_out p' o → o = Some p → pty_ok p' → pty_ok p.
Proof. intros (r & -> & ?) [= <-] []. by split. Qed.

(** ** Line editing *)

Lemma append_line_spec p c :
  pty_ok p → llen p < 256 →
  ∃ l, append_line p c = Some {| p with line := l; llen := llen p + 1 |} ∧ length l = 256%nat ∧
    take (Z.to_nat (llen p + 1)) l = edited p ++ [c].
Proof.
  intros H Hlt. pose proof (po_llen _ H). pose proof (po_line _ H). unfold append_line.
  destruct (arr_get_is_Some (line p) (llen p)) as [x Hx]; [lia|]. destruct (set_total _ _ _ c Hx) as [l Hl].
  rewrite Hl. exists l. split; [done|]. split; [by rewrite (arr_set_length _ _ _ _ Hl)|].
  apply arr_set_Some in Hl as [_ ->]. unfold edited.
  replace (Z.to_nat (llen p + 1)) with (S (Z.to_nat (llen p))) by lia.
  rewrite (take_S_r _ _ c); [|apply list_lookup_insert_eq; lia]. f_equal. apply take_insert_ge. lia.
Qed.

Lemma flush_from_spec p (m : nat) k :
  ring_ok (inq p) → length (line p) = 256%nat → 0 ≤ k → k + Z.of_nat m ≤ 256 →
  ∃ r, flush_from p (seqZ k (Z.of_nat m)) = Some {| p with inq := r |} ∧ ring_ok r ∧
    items r = push_all (items (inq p)) (take m (drop (Z.to_nat k) (line p))).
Proof.
  revert p k. induction m as [|m IH]; intros p k Hr Hl Hk Hm.
  { exists (inq p). split; [by destruct p|]. by rewrite take_0. }
  rewrite seqZ_cons by lia. cbn [flush_from]. destruct (arr_get_is_Some (line p) k) as [c Hc]; [lia|].
  rewrite Hc. cbn [mbind option_bind]. destruct (ring_put_spec (inq p) c Hr) as (r1 & E1 & Hr1 & Hi1).
  unfold put_in. rewrite E1. cbn [mbind option_bind].
  replace (Z.pred (Z.of_nat (S m))) with (Z.of_nat m) by lia.
  destruct (IH {| p with inq := r1 |} (Z.succ k) Hr1 Hl) as (r & -> & Hr' & Hi'); [lia|lia|].
  exists r. split; [done|]. split; [done|]. rewrite Hi'. cbn [inq line].
  apply arr_get_Some in Hc as [_ Hc]. rewrite (drop_S _ _ _ Hc).
  replace (Z.to_nat (Z.succ k)) with (S (Z.to_nat k)) by lia. cbn [take push_all foldl]. f_equal.
  rewrite Hi1. unfold push. by rewrite items_length.
Qed.

Lemma flush_line_spec p :
  ring_ok (inq p) → length (line p) = 256%nat → 0 ≤ llen p ≤ 256 →
  ∃ r, flush_line p = Some {| p with inq := r; llen := 0 |} ∧ ring_ok r ∧
    items r = push_all (items (inq p)) (edited p).
Proof.
  intros Hr Hl Hn. unfold flush_line, upto.
  replace (seqZ 0 (llen p)) with (seqZ 0 (Z.of_nat (Z.to_nat (llen p)))) by (f_equal; lia).
  destruct (flush_from_spec p (Z.to_nat (llen p)) 0 Hr Hl) as (r & -> & ? & Hi); [lia|lia|].
  exists r. split; [done|]. split; [done|]. by rewrite Hi.
Qed.

Lemma kill_line_spec fuel p :
  pty_ok p → llen p ≤ Z.of_nat fuel → but_out {| p with llen := 0 |} (kill_line fuel p).
Proof.
  revert p. induction fuel as [|fuel IH]; intros p H Hf; cbn [kill_line]; pose proof (po_llen _ H).
  - assert (llen p = 0) as E by lia. exists (outq p). split; [|apply H]. destruct p. cbn in *. by subst.
  - destruct (0 <? llen p) eqn:E; bools.
    + destruct (rubout_spec {| p with llen := llen p - 1 |} (po_out _ H)) as (r & -> & Hr & _). cbn [mbind option_bind].
      destruct (IH {| p with llen := llen p - 1; outq := r |}) as (r' & E' & ?).
      * destruct H. split; cbn; done || lia.
      * cbn. lia.
      * exists r'. split; [exact E'|done].
    + exists (outq p). split; [|apply H]. assert (llen p = 0) by lia. destruct p. cbn in *. by subst.
Qed.

(** What editing leaves alone. *)
Definition keeps (p p' : pty_t) : Prop :=
  tio p' = tio p ∧ mrefs p' = mrefs p ∧ srefs p' = srefs p ∧ slave_seen p' = slave_seen p ∧ used p' = used p.

Lemma keeps_trans p1 p2 p3 : keeps p1 p2 → keeps p2 p3 → keeps p1 p3.
Proof. unfold keeps. intuition congruence. Qed.

(** The control characters of a terminal. *)
Definition ctl (p : pty_t) (er ki ve : Z) : Prop :=
  (c_cc (tio p)).[VERASE] = Some er ∧ (c_cc (tio p)).[VKILL] = Some ki ∧ (c_cc (tio p)).[VEOF] = Some ve.

Lemma cc_total p i : pty_ok p → 0 ≤ i < 19 → ∃ x, (c_cc (tio p)).[i] = Some x.
Proof. intros H Hi. apply arr_get_is_Some. rewrite (po_cc _ H). lia. Qed.

Lemma ctl_total p : pty_ok p → ∃ er ki ve, ctl p er ki ve.
Proof.
  intros H. destruct (cc_total p VERASE H) as [er ?]; [by vm_compute|].
  destruct (cc_total p VKILL H) as [ki ?]; [by vm_compute|].
  destruct (cc_total p VEOF H) as [ve ?]; [by vm_compute|]. by exists er, ki, ve.
Qed.

(** The edit a character makes to the line. *)
Definition edit (er ki : Z) (l : list Z) (c : Z) : list Z :=
  if (c =? er) || (c =? BS) then take (length l - 1) l
  else if c =? ki then []
  else if Z.of_nat (length l) <? 255 then l ++ [c] else l.

Lemma edited_length p : pty_ok p → Z.of_nat (length (edited p)) = llen p.
Proof.
  intros H. unfold edited. rewrite length_take, (po_line _ H). pose proof (po_llen _ H). lia.
Qed.

(** A character that edits the line. *)
Lemma canon_edit p c er ki ve :
  pty_ok p → ctl p er ki ve → c ≠ NL → (c = er ∨ c = BS ∨ c = ki ∨ c ≠ ve) →
  ∃ p', canon_char p c = Some p' ∧ pty_ok p' ∧ inq p' = inq p ∧ eof p' = eof p ∧ keeps p p' ∧
    edited p' = edit er ki (edited p) c.
Proof.
  intros H (E1 & E2 & E3) Hnl Hve. unfold canon_char. rewrite E1, E2, E3. cbn [mbind option_bind].
  pose proof (po_llen _ H) as Hn. pose proof (po_line _ H) as Hl. unfold edit. rewrite edited_length by done.
  destruct ((c =? er) || (c =? BS)) eqn:Ee.
  - destruct (0 <? llen p) eqn:E0; bools.
    + destruct (rubout_spec {| p with llen := llen p - 1 |} (po_out _ H)) as (r & -> & Hr & _).
      eexists. split; [done|]. split; [destruct H; split; cbn; done || lia|].
      split_and!; [done|done|done|]. unfold edited. cbn [line llen]. rewrite length_take, take_take. f_equal. lia.
    + exists p. assert (llen p = 0) as E by lia. split_and!; try done. unfold edited. by rewrite E.
  - bools. destruct (c =? ki) eqn:Ek; bools.
    + destruct (kill_line_spec (Z.to_nat (llen p)) p H ltac:(lia)) as (r & -> & Hr).
      eexists. split; [done|]. split; [destruct H; split; cbn; done || lia|]. done.
    + rewrite (proj2 (Z.eqb_neq c ve)), (proj2 (Z.eqb_neq c NL)) by tauto.
      destruct (llen p <? 255) eqn:E5; bools; [|by exists p].
      destruct (append_line_spec p c H ltac:(lia)) as (l & -> & Hl' & Ht). cbn [mbind option_bind].
      set (p1 := {| p with line := l; llen := llen p + 1 |}).
      assert (but_out p1 (if has (c_lflag (tio p)) TTY_ECHO then echo_char p1 c else Some p1)) as (r & -> & Hr).
      { destruct (has _ _); [eapply out_only_but, echo_char_spec, H|apply but_out_refl, H]. }
      eexists. split; [done|]. split; [destruct H; split; cbn; done || lia|]. done.
Qed.

(** The end of the line. *)
Lemma canon_newline p er ki ve :
  pty_ok p → ctl p er ki ve → NL ≠ er → NL ≠ ki → NL ≠ ve →
  ∃ p', canon_char p NL = Some p' ∧ pty_ok p' ∧ eof p' = eof p ∧ keeps p p' ∧ edited p' = [] ∧
    items (inq p') = push_all (items (inq p)) (edited p ++ [NL]).
Proof.
  intros H (E1 & E2 & E3) N1 N2 N3. unfold canon_char. rewrite E1, E2, E3. cbn [mbind option_bind].
  pose proof (po_llen _ H) as Hn.
  rewrite (proj2 (Z.eqb_neq NL er)), (proj2 (Z.eqb_neq NL ki)), (proj2 (Z.eqb_neq NL ve)) by done.
  change (NL =? BS) with false. change (NL =? NL) with true. cbn [orb].
  rewrite (proj2 (Z.ltb_lt (llen p) 256)) by lia.
  destruct (append_line_spec p NL H ltac:(lia)) as (l & -> & Hl' & Ht). cbn [mbind option_bind].
  set (p1 := {| p with line := l; llen := llen p + 1 |}).
  assert (but_out p1 (if has (c_lflag (tio p)) TTY_ECHO then out_char p1 NL else Some p1)) as (r & -> & Hr).
  { destruct (has _ _); [eapply out_only_but, out_char_spec, H|apply but_out_refl, H]. }
  cbn [mbind option_bind].
  destruct (flush_line_spec {| p1 with outq := r |} (po_in _ H) Hl') as (r' & E & Hr' & Hi); [cbn; lia|].
  eexists. split; [exact E|]. split; [destruct H; split; cbn; done || lia|].
  split_and!; [done|done|done|]. cbn [inq p1] in *. rewrite Hi. unfold edited at 1. cbn. by rewrite Ht.
Qed.

(** The end of file character: the line goes to the reader as it is. *)
Lemma canon_total p c : pty_ok p → ∃ p', canon_char p c = Some p' ∧ pty_ok p' ∧ keeps p p'.
Proof.
  intros H. destruct (ctl_total p H) as (er & ki & ve & Hc).
  destruct (decide (c = er ∨ c = BS ∨ c = ki)) as [Hed|Hed].
  - assert (c ≠ NL ∨ c = NL ∧ (NL = er ∨ NL = ki)) as [Hn|[-> Hn]].
    { destruct (decide (c = NL)); [right|by left]. split; [done|]. subst. unfold NL, BS in *. lia. }
    + destruct (canon_edit p c er ki ve H Hc Hn) as (p' & ? & ? & _ & _ & ? & _); [tauto|]. by exists p'.
    + destruct Hc as (E1 & E2 & E3). unfold canon_char. rewrite E1, E2, E3. cbn [mbind option_bind].
      destruct ((NL =? er) || (NL =? BS)) eqn:Ee.
      * destruct (0 <? llen p) eqn:E0; bools; [|by exists p].
        destruct (rubout_spec {| p with llen := llen p - 1 |} (po_out _ H)) as (r & -> & Hr & _).
        pose proof (po_llen _ H). eexists. split; [done|]. split; [destruct H; split; cbn; done || lia|done].
      * bools. rewrite (proj2 (Z.eqb_eq NL ki)) by naive_solver.
        destruct (kill_line_spec (Z.to_nat (llen p)) p H ltac:(lia)) as (r & -> & Hr).
        eexists. split; [done|]. split; [destruct H; split; cbn; done || lia|]. done.
  - destruct (decide (c = ve)) as [->|Hve].
    + destruct Hc as (E1 & E2 & E3). unfold canon_char. rewrite E1, E2, E3. cbn [mbind option_bind].
      rewrite (proj2 (Z.eqb_neq ve er)), (proj2 (Z.eqb_neq ve BS)), (proj2 (Z.eqb_neq ve ki)), Z.eqb_refl by tauto.
      cbn [orb]. pose proof (po_llen _ H). destruct (nz (llen p)).
      * destruct (flush_line_spec p (po_in _ H) (po_line _ H)) as (r & -> & Hr & _); [lia|].
        eexists. split; [done|]. split; [destruct H; split; cbn; done || lia|done].
      * eexists. split; [done|]. split; [by destruct H; split|done].
    + destruct (decide (c = NL)) as [->|Hn].
      * destruct (canon_newline p er ki ve H Hc) as (p' & ? & ? & _ & ? & _); [tauto..|done|]. by exists p'.
      * destruct (canon_edit p c er ki ve H Hc Hn) as (p' & ? & ? & _ & _ & ? & _); [tauto|]. by exists p'.
Qed.

Lemma signal_fg_ok p sig : pty_ok p → pty_ok (signal_fg p sig) ∧ keeps p (signal_fg p sig).
Proof. intros []. unfold signal_fg. destruct (nz _); split; try done; by split. Qed.

(** Any character, on any settings, is taken without leaving the buffers. *)
Lemma input_char_total p c : pty_ok p → ∃ p', input_char p c = Some p' ∧ pty_ok p' ∧ keeps p p'.
Proof.
  intros H. unfold input_char. destruct (map_input (tio p) c) as [c'|]; [|by exists p].
  assert (∃ sig, (if has (c_lflag (tio p)) TTY_ISIG then signal_of (tio p) c' else Some 0) = Some sig) as [sig ->].
  { destruct (has _ _); [|eauto]. unfold signal_of.
    destruct (cc_total p VINTR H) as [i ->]; [by vm_compute|].
    destruct (cc_total p VQUIT H) as [q ->]; [by vm_compute|]. cbn. eauto. }
  cbn [mbind option_bind]. destruct (nz sig && nz c').
  - assert (but_out p (if has (c_lflag (tio p)) TTY_ECHO then p ← echo_char p c'; out_char p NL else Some p)) as (r & -> & Hr).
    { destruct (has _ _); [|apply but_out_refl, H].
      destruct (echo_char_spec p c' (po_out _ H)) as (r & -> & Hr & _). cbn.
      destruct (out_char_spec {| p with outq := r |} NL Hr) as (r' & -> & Hr' & _). by exists r'. }
    cbn [mbind option_bind]. set (p1 := {| p with outq := r; llen := 0 |}).
    assert (pty_ok p1 ∧ keeps p p1) as [Hp1 Hk1] by (destruct H; split; [by split|done]).
    destruct (sig =? 20); [by exists p1|]. exists (signal_fg p1 sig). split; [done|].
    destruct (signal_fg_ok p1 sig Hp1). split; [done|by eapply keeps_trans].
  - destruct (negb _); [|by apply canon_total].
    destruct (ring_put_spec (inq p) c' (po_in _ H)) as (r & E & Hr & _). unfold put_in. rewrite E. cbn [mbind option_bind].
    set (p1 := {| p with inq := r |}). assert (pty_ok p1 ∧ keeps p p1) as [Hp1 Hk1] by (destruct H; split; [by split|done]).
    destruct (has _ _); [|by exists p1]. destruct (echo_char_spec p1 c' (po_out _ Hp1)) as (r' & -> & ? & _).
    eexists. split; [done|]. split; [by destruct Hp1; split|done].
Qed.

(** ** Reading and writing *)

(** The counts of a terminal are as they were. *)
Definition same_refs (p p' : pty_t) : Prop := mrefs p' = mrefs p ∧ srefs p' = srefs p ∧ used p' = used p.

Lemma keeps_refs p p' : keeps p p' → same_refs p p'.
Proof. unfold keeps, same_refs. tauto. Qed.

Lemma out_char_total p c : pty_ok p → ∃ p', out_char p c = Some p' ∧ pty_ok p' ∧ keeps p p' ∧ inq p' = inq p ∧
  items (outq p') = push_all (items (outq p)) (onlcr (tio p) c).
Proof.
  intros H. destruct (out_char_spec p c (po_out _ H)) as (r & -> & Hr & Hi). eexists. split; [done|].
  split; [by destruct H; split|]. done.
Qed.

Lemma feed_total master p buf :
  pty_ok p → ∃ rest p', feed master p buf = Some (rest, p') ∧ pty_ok p' ∧ keeps p p' ∧
    ∃ k, rest = drop k buf ∧ (k ≤ length buf)%nat.
Proof.
  revert p. induction buf as [|c buf IH]; intros p H; cbn [feed].
  { exists [], p. split_and!; try done. by exists O. }
  destruct (2 <? _); [|exists (c :: buf), p; split_and!; try done; exists O; split; [done|lia]].
  assert (∃ p1, (if master then input_char p c else out_char p c) = Some p1 ∧ pty_ok p1 ∧ keeps p p1) as (p1 & -> & H1 & K1).
  { destruct master; [by apply input_char_total|]. destruct (out_char_total p c H) as (p1 & ? & ? & ? & _). by exists p1. }
  cbn [mbind option_bind]. destruct (IH p1 H1) as (rest & p' & -> & H' & K' & k & -> & Hk).
  eexists _, p'. split; [done|]. split; [done|]. split; [by eapply keeps_trans|].
  exists (S k). split; [done|cbn; lia].
Qed.

Lemma drain_spec k canon r :
  ring_ok r → ∃ cs r', drain k canon r = Some (cs, r') ∧ ring_ok r' ∧ items r = cs ++ items r' ∧
    (length cs ≤ k)%nat ∧
    (canon = false → length cs = Nat.min k (length (items r))) ∧
    (canon = true → ∀ l rest, items r = l ++ NL :: rest → (NL ∉ l) → (length l < k)%nat → cs = l ++ [NL]).
Proof.
  revert r. induction k as [|k IH]; intros r H; cbn [drain].
  { exists [], r. split_and!; try done. intros. lia. }
  pose proof (items_length r H) as Hl. destruct (0 <? n r) eqn:E; bools.
  - destruct (ring_get_spec r H E) as (c & r1 & -> & H1 & Hi). cbn [mbind option_bind].
    destruct (canon && (c =? NL)) eqn:Ec; bools.
    + subst. exists [NL], r1. split_and!; try done; [cbn; lia|]. intros _ l rest Hr Hn _.
      rewrite Hi in Hr. destruct l as [|x l]; [done|]. injection Hr as <- _. set_solver.
    + destruct (IH r1 H1) as (cs & r' & -> & H' & Hi' & Hle & Hf & Ht). cbn [mbind option_bind].
      exists (c :: cs), r'. split_and!; [done|done|by rewrite Hi, Hi'|cbn; lia| |].
      * intros Hc. rewrite Hi. cbn. by rewrite (Hf Hc).
      * intros Hc l rest Hr Hn Hlt. rewrite Hi in Hr. destruct l as [|x l].
        { injection Hr as -> _. destruct Ec as [|Ec]; [congruence|]. by bools. }
        injection Hr as <- Hr. cbn. f_equal. eapply Ht; [done|exact Hr|set_solver|cbn in Hlt; lia].
  - assert (items r = []) as Hnil.
    { apply nil_length_inv. pose proof (rk_count _ H). lia. }
    exists [], r. rewrite Hnil. split_and!; first [done|cbn; lia|idtac].
    intros _ l rest Hr. by destruct l.
Qed.

Lemma drain_ok k canon r : ring_ok r → ∃ cs r', drain k canon r = Some (cs, r') ∧ ring_ok r' ∧ items r = cs ++ items r'.
Proof. intros H. destruct (drain_spec k canon r H) as (cs & r' & ? & ? & ? & _). by exists cs, r'. Qed.

Lemma pty_read_total p m len nb intr late :
  pty_ok p → ∃ o p', pty_read p m len nb intr late = Some (o, p') ∧ pty_ok p' ∧ same_refs p p'.
Proof.
  intros H. unfold pty_read. destruct (len <=? 0); [by eexists _, p|]. destruct m.
  - destruct (0 <? n (outq p)).
    + destruct (drain_ok (Z.to_nat len) false (outq p) (po_out _ H)) as (cs & r & -> & Hr & _).
      eexists _, _. split; [done|]. split; [by destruct H; split|done].
    + destruct (_ && _); [by eexists _, p|]. destruct nb; [by eexists _, p|]. destruct intr; by eexists _, p.
  - destruct (0 <? n (inq p)).
    + destruct (drain_ok (Z.to_nat len) (has (c_lflag (tio p)) TTY_ICANON) (inq p) (po_in _ H)) as (cs & r & -> & Hr & _).
      eexists _, _. split; [done|]. split; [by destruct H; split|done].
    + destruct (_ && (0 <? eof p)); [eexists _, _; split; [done|split; [by destruct H; split|done]]|].
      destruct (mrefs p <=? 0); [by eexists _, p|]. destruct nb; [by eexists _, p|].
      destruct (cc_total p VMIN H) as [v ->]; [by vm_compute|]. cbn [mbind option_bind].
      destruct (_ && late); [by eexists _, p|]. destruct intr; by eexists _, p.
Qed.

Lemma pty_write_total p m done buf nb intr :
  pty_ok p → ∃ o p', pty_write p m done buf nb intr = Some (o, p') ∧ pty_ok p' ∧ same_refs p p'.
Proof.
  intros H. unfold pty_write. destruct (bool_decide _); [by eexists _, p|].
  destruct (if m then _ else _); [by eexists _, p|].
  destruct (feed_total m p buf H) as (rest & p' & -> & H' & K & _). apply keeps_refs in K. cbn [mbind option_bind].
  destruct (bool_decide _); [by eexists _, p'|]. destruct nb; [by eexists _, p'|]. destruct intr; by eexists _, p'.
Qed.

Lemma flush_ring_ok r : ring_ok r → ring_ok (Ring (b r) 0 0 0).
Proof. intros []. split; cbn; done || lia. Qed.

Lemma pty_ioctl_total p me i m req arg u :
  pty_ok p → length (c_cc (u_tio u)) = 19%nat →
  ∃ r rep p' me', pty_ioctl p me i m req arg u = Some (r, rep, p', me') ∧ pty_ok p' ∧ same_refs p p'.
Proof.
  intros H Hu. pose proof (signal_fg_ok p 28 H) as [Hs _].
  assert (pty_ok (flush_input p)) as Hfi.
  { destruct H. split; cbn; first [done|by apply flush_ring_ok|lia]. }
  assert (∀ q, pty_ok q → pty_ok (flush_output q)) as Hfo.
  { intros q []. split; cbn; try done. by apply flush_ring_ok. }
  assert (pty_ok (signal_fg {| p with rows := u_w0 u; cols := u_w1 u |} 28) ∧
    same_refs p (signal_fg {| p with rows := u_w0 u; cols := u_w1 u |} 28)) as [Hw Hw'].
  { split; [|by unfold signal_fg; destruct (nz _)]. apply signal_fg_ok. by destruct H; split. }
  assert (∀ q : pty_t, pty_ok q → ∃ q', (if has (c_lflag (tio p)) TTY_ICANON && negb (has (c_lflag (tio q)) TTY_ICANON)
    then flush_line q else Some q) = Some q' ∧ pty_ok q' ∧ same_refs q q') as Hfl.
  { intros q Hq. destruct (_ && _); [|by exists q]. pose proof (po_llen _ Hq).
    destruct (flush_line_spec q (po_in _ Hq) (po_line _ Hq)) as (r & -> & Hr & _); [lia|].
    eexists. split; [done|]. split; [destruct Hq; split; cbn; done || lia|done]. }
  unfold pty_ioctl. cbv zeta.
  repeat match goal with
    | |- context [if ?c then _ else _] => lazymatch c with has _ _ && _ => fail | _ => destruct c end
    | |- context [match me with _ => _ end] => destruct me
    end; try (eexists _, _, _, _; split; [reflexivity|]; split;
      [first [done|by destruct H; split|by apply Hfo]|done]).
  all: match goal with |- context [flush_line ?q] =>
    destruct (Hfl q) as (q' & -> & Hq' & Hs'); [first [by destruct H; split|by destruct Hfi; split]|] end.
  all: by eexists _, _, _, _.
Qed.

(** ** The table *)

(** A slot in use is held by someone; a slot that is not is blank. *)
Record slot_ok (p : pty_t) : Prop := {
  so_ok : pty_ok p;
  so_mrefs : 0 ≤ mrefs p;
  so_srefs : 0 ≤ srefs p;
  so_used : used p = true → 0 < mrefs p ∨ 0 < srefs p;
  so_free : used p = false → p = pty0
}.

Definition table_ok (ptys : table) : Prop := length ptys = 16%nat ∧ Forall slot_ok ptys.

Lemma ring0_ok : ring_ok ring0.
Proof. by split. Qed.

Lemma pty0_ok : pty_ok pty0.
Proof. split; [apply ring0_ok|apply ring0_ok|done..]. Qed.

Lemma slot0_ok : slot_ok pty0.
Proof. split; [apply pty0_ok|done..]. Qed.

Lemma get_ok ptys i p : table_ok ptys → get ptys i = Some p → slot_ok p ∧ used p = true ∧ is_Some (ptys.[i]).
Proof.
  intros [_ H] E. unfold get in E. destruct (_ && _); [|done]. destruct (ptys.[i]) as [q|] eqn:Eq; [|done].
  destruct (used q) eqn:Eu; [|done]. injection E as <-. split_and!; [|done|done].
  rewrite Forall_forall in H. apply H. by eapply arr_get_elem.
Qed.

(** Slot [i] is another one, with so many masters and slaves more. *)
Definition changed (ptys : table) (i dm ds : Z) (ptys' : table) : Prop :=
  ∃ p p', ptys.[i] = Some p ∧ ptys.[i <- p'] = Some ptys' ∧ slot_ok p' ∧
    mrefs p' = mrefs p + dm ∧ srefs p' = srefs p + ds.

Lemma table_changed_ok ptys i dm ds ptys' : table_ok ptys → changed ptys i dm ds ptys' → table_ok ptys'.
Proof.
  intros [Hl H] (p & p' & _ & E & Hp & _). split; [by rewrite (arr_set_length _ _ _ _ E)|].
  apply arr_set_Some in E as [_ ->]. by apply Forall_insert.
Qed.

Lemma get_slot ptys i p : get ptys i = Some p → ptys.[i] = Some p.
Proof.
  unfold get. destruct (_ && _); [|done]. destruct (ptys.[i]) as [q|]; [|done]. destruct (used q); congruence.
Qed.

Lemma change ptys i p p' dm ds :
  ptys.[i] = Some p → slot_ok p' → mrefs p' = mrefs p + dm → srefs p' = srefs p + ds →
  ∃ ptys', ptys.[i <- p'] = Some ptys' ∧ changed ptys i dm ds ptys'.
Proof. intros Hp Hp' ??. destruct (set_total _ _ _ p' Hp) as [l Hl]. exists l. split; [done|]. by exists p, p'. Qed.

Lemma release_ok p : pty_ok p → 0 ≤ mrefs p → 0 ≤ srefs p → used p = true →
  slot_ok (release p) ∧ mrefs (release p) = mrefs p ∧ srefs (release p) = srefs p.
Proof.
  intros H Hm Hs Hu. unfold release. destruct (_ || _) eqn:E.
  - split; [|done]. split; [done..| |congruence]. intros _. apply orb_true_iff in E as [E|E]; bools; lia.
  - apply orb_false_iff in E as [??]. bools. split; [apply slot0_ok|]. cbn. lia.
Qed.

Lemma on_pty_ok {A} ptys i (no : A) f :
  table_ok ptys → (∀ p, pty_ok p → ∃ a p', f p = Some (a, p') ∧ pty_ok p' ∧ same_refs p p') →
  ∃ ptys', snd <$> on_pty ptys i no f = Some ptys' ∧ (ptys' = ptys ∨ ∃ j, changed ptys j 0 0 ptys').
Proof.
  intros H Hf. unfold on_pty. destruct (get ptys i) as [p|] eqn:E; [|exists ptys; auto].
  destruct (get_ok _ _ _ H E) as (Hp & Hu & Hi). destruct (Hf p (so_ok _ Hp)) as (a & p' & -> & Hp' & E1 & E2 & E3).
  cbn [mbind option_bind].
  destruct (change ptys i p p' 0 0 (get_slot _ _ _ E)) as (l & -> & Hl); [|lia|lia|exists l; eauto].
  destruct Hp. split; rewrite ?E1, ?E2, ?E3; done || congruence.
Qed.

Lemma pty_alloc_ok ptys nd : table_ok ptys → ∃ r ptys', pty_alloc ptys nd = Some (r, ptys') ∧
  (r < 0 ∧ ptys' = ptys ∨ 0 ≤ r ∧ changed ptys r 1 0 ptys').
Proof.
  intros H. unfold pty_alloc. destruct (find_from _ _ _) as [i|] eqn:E; [|by eexists _, ptys; split; [done|left]].
  apply find_from_Some in E as (x & Hi & Hx & Hu). rewrite Z.sub_0_r in Hx. apply negb_true_iff in Hu.
  assert (ptys.[i] = Some x) as Hx' by (by apply arr_get_Some).
  assert (x = pty0) as ->.
  { destruct H as [_ H]. rewrite Forall_forall in H. by apply (so_free _ (H x (arr_get_elem _ _ _ Hx'))). }
  edestruct (change ptys i pty0) as (l & -> & Hl); [exact Hx'| | | |eexists _, l; split; [done|]; right; split; [done|exact Hl]];
    [|done|done].
  split; [|cbn; first [done|by left]..]. split; [apply ring0_ok|apply ring0_ok|done..].
Qed.

Lemma master_close_ok ptys i : table_ok ptys → ∃ ptys', pty_master_close ptys i = Some ptys' ∧
  match get ptys i with
  | None => ptys' = ptys
  | Some p => changed ptys i (if 0 <? mrefs p then -1 else 0) 0 ptys'
  end.
Proof.
  intros H. unfold pty_master_close. destruct (get ptys i) as [p|] eqn:E; [|by exists ptys].
  destruct (get_ok _ _ _ H E) as ([Hp Hm Hs _ _] & Hu & Hi). cbv zeta. cbn [mrefs].
  assert (∀ q, pty_ok q → mrefs q = mrefs p + (if 0 <? mrefs p then -1 else 0) → srefs q = srefs p → used q = used p →
    ∃ ptys', ptys.[i <- release q] = Some ptys' ∧ changed ptys i (if 0 <? mrefs p then -1 else 0) 0 ptys') as Hq.
  { intros q Hok E1 E2 E3. destruct (release_ok q Hok) as (R1 & R2 & R3);
      [destruct (0 <? mrefs p) eqn:?; bools; lia|lia|congruence|].
    apply (change _ _ p); [by apply get_slot|done|lia|lia]. }
  destruct (mrefs p - 1 <=? 0) eqn:E0; bools.
  - set (p0 := {| p with mrefs := 0 |}). assert (pty_ok p0) as Hp0 by (by destruct Hp; split).
    destruct (signal_fg_ok p0 1 Hp0) as [H1 (E1 & E2 & E3 & E4 & E5)]. cbn [p0 mrefs srefs used] in E2, E3, E5.
    change (signal_fg _ 1) with (signal_fg p0 1).
    destruct (nz _); (apply Hq; cbn [mrefs srefs used]; [by destruct H1; split| |congruence|congruence]);
      rewrite E2; destruct (0 <? mrefs p) eqn:?; bools; lia.
  - apply Hq; cbn; try done; [by destruct Hp; split|]. rewrite (proj2 (Z.ltb_lt _ _)) by lia. lia.
Qed.

Lemma slave_close_ok ptys i : table_ok ptys → ∃ ptys', pty_slave_close ptys i = Some ptys' ∧
  match get ptys i with
  | None => ptys' = ptys
  | Some p => changed ptys i 0 (if 0 <? srefs p then -1 else 0) ptys'
  end.
Proof.
  intros H. unfold pty_slave_close. destruct (get ptys i) as [p|] eqn:E; [|by exists ptys].
  destruct (get_ok _ _ _ H E) as ([Hp Hm Hs _ _] & Hu & Hi). cbv zeta.
  assert (∀ q, pty_ok q → srefs q = srefs p + (if 0 <? srefs p then -1 else 0) → mrefs q = mrefs p → used q = used p →
    ∃ ptys', ptys.[i <- release q] = Some ptys' ∧ changed ptys i 0 (if 0 <? srefs p then -1 else 0) ptys') as Hq.
  { intros q Hok E1 E2 E3. destruct (release_ok q Hok) as (R1 & R2 & R3);
      [lia|destruct (0 <? srefs p) eqn:?; bools; lia|congruence|].
    apply (change _ _ p); [by apply get_slot|done|lia|lia]. }
  destruct (srefs p - 1 <? 0) eqn:E0; bools; [|destruct (_ =? 0)];
    (apply Hq; cbn; [by destruct Hp; split| |done|done]; destruct (0 <? srefs p) eqn:?; bools; lia).
Qed.

Lemma slave_open_ok ptys me i flags : table_ok ptys →
  ∃ r ptys' me', pty_slave_open ptys me i flags = Some (r, ptys', me') ∧
    (r < 0 ∧ ptys' = ptys ∨
     r = 0 ∧ ∃ p, ptys.[i] = Some p ∧ (srefs p < 2 ^ 31 - 1 → changed ptys i 0 1 ptys')).
Proof.
  intros H. unfold pty_slave_open. destruct (get ptys i) as [p|] eqn:E; [|by eexists _, ptys, _; split; [done|left]].
  destruct (get_ok _ _ _ H E) as ([Hp Hm Hs _ _] & Hu & Hi). pose proof (get_slot _ _ _ E) as Hg.
  destruct (mrefs p <=? 0) eqn:E0; [by eexists _, ptys, _; split; [done|left]|].
  destruct (locked p); [by eexists _, ptys, _; split; [done|left]|]. bools.
  assert (∀ q, pty_ok q → srefs q = i32 (srefs p + 1) → mrefs q = mrefs p → used q = used p →
    ∃ l, ptys.[i <- q] = Some l ∧ (srefs p < 2 ^ 31 - 1 → changed ptys i 0 1 l)) as Hq.
  { intros q Hok E1 E2 E3. destruct (set_total _ _ _ q Hg) as [l Hl]. exists l. split; [done|]. intros Hb.
    rewrite i32_small in E1 by lia. exists p, q. split; [done|]. split; [done|]. split; [|lia].
    split; [done|lia|lia|intros _; lia|congruence]. }
  destruct me as [m|]; [destruct (_ && _)|];
    (edestruct Hq as (l & El & Hl); [| | | |cbv zeta iota; rewrite El; eexists _, l, _; split; [done|]; right; eauto];
     cbn; first [by destruct Hp; split|done]).
Qed.

(** The settings a program hands to TCSETS are 19 control characters long. *)
Definition op_ok (o : pty_op) : Prop :=
  match o with OIoctl _ _ _ _ _ u => length (c_cc (u_tio u)) = 19%nat | _ => True end.

(** Operations that neither open nor close. *)
Definition plain (o : pty_op) : bool :=
  match o with OAlloc _ | OMasterClose _ | OSlaveOpen _ _ _ | OSlaveClose _ => false | _ => true end.

Lemma plain_ok ptys o : table_ok ptys → op_ok o → plain o = true →
  ∃ ptys', pty_step ptys o = Some ptys' ∧ (ptys' = ptys ∨ ∃ i, changed ptys i 0 0 ptys').
Proof.
  intros H Ho Hpl. destruct o; try done; cbn [pty_step]; (apply on_pty_ok; [done|]); intros p Hp.
  - by apply pty_read_total.
  - by apply pty_write_total.
  - destruct (pty_ioctl_total p me i master req arg u Hp Ho) as (r & rep & p' & me' & -> & ?). by eexists _, p'.
  - eexists _, _. split; [done|]. split; [by destruct Hp; split|done].
  - eexists _, _. split; [done|]. unfold pty_set_size, signal_fg.
    destruct (_ && _); [done|]. cbn [pgrp]. destruct (nz _); (split; [by destruct Hp; split|done]).
Qed.

Lemma pty_step_total ptys o : table_ok ptys → op_ok o → is_Some (pty_step ptys o).
Proof.
  intros H Ho. destruct (plain o) eqn:Hpl; [destruct (plain_ok ptys o H Ho Hpl) as (l & -> & _); by eexists|].
  destruct o; try done; cbn [pty_step].
  - destruct (pty_alloc_ok ptys nd H) as (r & l & -> & ?). by eexists.
  - destruct (master_close_ok ptys i H) as (l & -> & ?). by eexists.
  - destruct (slave_open_ok ptys me i flags H) as (r & l & me' & -> & ?). by eexists.
  - destruct (slave_close_ok ptys i H) as (l & -> & ?). by eexists.
Qed.

(** *** Runs, with the open ends

    Beside the table there is the list of the ends that are open: (slot, master?).
    Allocating a terminal opens its master, opening /dev/pts/N a slave, and each end
    is closed once, by whoever has it; the rest may be called with any index at any
    time.  An open end is an object in memory: there are less than 2^31. *)
Abbreviation ends := (list (Z * bool)).

Inductive term_step : table * ends → table * ends → Prop :=
  | t_alloc ptys E nd r ptys' :
      pty_alloc ptys nd = Some (r, ptys') → term_step (ptys, E) (ptys', if 0 <=? r then (r, true) :: E else E)
  | t_open ptys E me i flags r ptys' me' :
      Z.of_nat (length E) < 2 ^ 31 - 1 →
      pty_slave_open ptys me i flags = Some (r, ptys', me') →
      term_step (ptys, E) (ptys', if 0 <=? r then (i, false) :: E else E)
  | t_master_close ptys E i E' ptys' :
      E ≡ₚ (i, true) :: E' → pty_master_close ptys i = Some ptys' → term_step (ptys, E) (ptys', E')
  | t_slave_close ptys E i E' ptys' :
      E ≡ₚ (i, false) :: E' → pty_slave_close ptys i = Some ptys' → term_step (ptys, E) (ptys', E')
  | t_plain ptys E o ptys' :
      op_ok o → plain o = true → pty_step ptys o = Some ptys' → term_step (ptys, E) (ptys', E).

(** How many ends of one kind are open. *)
Definition opened (E : ends) (i : Z) (m : bool) : Z := countb (λ h, bool_decide (h = (i, m))) E.

Lemma opened_cons h E i m : opened (h :: E) i m = b2z (bool_decide (h = (i, m))) + opened E i m.
Proof. done. Qed.

Lemma opened_perm E E' i m : E ≡ₚ E' → opened E i m = opened E' i m.
Proof. apply countb_perm. Qed.

Record counted (ptys : table) (E : ends) : Prop := {
  co_table : table_ok ptys;
  co_ends i m : (i, m) ∈ E → is_Some (ptys.[i]);
  co_master i p : ptys.[i] = Some p → mrefs p = opened E i true;
  co_slave i p : ptys.[i] = Some p → srefs p = opened E i false
}.

Lemma counted_changed ptys E i dm ds ptys' E' :
  counted ptys E → changed ptys i dm ds ptys' →
  (∀ j m, opened E' j m = opened E j m + (if decide (j = i) then if m : bool then dm else ds else 0)) →
  (∀ j m, (j, m) ∈ E' → (j, m) ∈ E ∨ j = i) → counted ptys' E'.
Proof.
  intros [Ht He Hm Hs] Hc Ho Hin. pose proof (table_changed_ok _ _ _ _ _ Ht Hc) as Ht'.
  destruct Hc as (p & p' & Hp & Hp' & Hsl & E1 & E2).
  split; [done| | |].
  - intros j m Hj. rewrite (arr_get_set _ _ _ _ j Hp'). case_decide; [by eexists|].
    destruct (Hin j m Hj) as [Hj'|]; [by eapply He|done].
  - intros j q. rewrite (arr_get_set _ _ _ _ j Hp'), Ho. case_decide as Hd; [|intros Hq; rewrite (Hm j q Hq); lia].
    intros [= <-]. subst j. rewrite E1, (Hm i p Hp). done.
  - intros j q. rewrite (arr_get_set _ _ _ _ j Hp'), Ho. case_decide as Hd; [|intros Hq; rewrite (Hs j q Hq); lia].
    intros [= <-]. subst j. rewrite E2, (Hs i p Hp). done.
Qed.

Lemma opened_le E i m : 0 ≤ opened E i m ≤ Z.of_nat (length E).
Proof. apply countb_range. Qed.

Lemma opened_here h E : 0 < opened (h :: E) h.1 h.2.
Proof. rewrite opened_cons, bool_decide_eq_true_2 by by destruct h. pose proof (opened_le E h.1 h.2). cbn. lia. Qed.

(** One end more, one end less. *)
Lemma counted_more ptys E i m ptys' :
  counted ptys E → changed ptys i (b2z m) (b2z (negb m)) ptys' → counted ptys' ((i, m) :: E).
Proof.
  intros H Hc. eapply counted_changed; [done|exact Hc| |].
  - intros j m'. rewrite opened_cons. case_decide as Hd; subst; destruct m, m'; cbn [b2z negb];
      first [rewrite bool_decide_eq_true_2 by done|rewrite bool_decide_eq_false_2 by congruence]; cbn; lia.
  - intros j m' [[= -> ->]|?]%elem_of_cons; auto.
Qed.

Lemma counted_less ptys E i m E' ptys' :
  counted ptys E → E ≡ₚ (i, m) :: E' → changed ptys i (- b2z m) (- b2z (negb m)) ptys' → counted ptys' E'.
Proof.
  intros H HE Hc. eapply counted_changed; [done|exact Hc| |].
  - intros j m'. rewrite (opened_perm _ _ _ _ HE), opened_cons. case_decide as Hd; subst; destruct m, m'; cbn [b2z negb];
      first [rewrite bool_decide_eq_true_2 by done|rewrite bool_decide_eq_false_2 by congruence]; cbn; lia.
  - intros j m' Hj. left. rewrite HE. by right.
Qed.

(** An end that is open is of a slot in use. *)
Lemma open_get ptys E i m E' :
  counted ptys E → E ≡ₚ (i, m) :: E' → ∃ p, get ptys i = Some p ∧ 0 < if m then mrefs p else srefs p.
Proof.
  intros [[Hl Ht] He Hm Hs] HE. destruct (He i m) as [p Hp]; [rewrite HE; by left|].
  pose proof (opened_here (i, m) E') as Ho. cbn [fst snd] in Ho. rewrite <- (opened_perm _ _ _ _ HE) in Ho.
  assert (0 < if m then mrefs p else srefs p) as Hpos by (destruct m; [rewrite (Hm _ _ Hp)|rewrite (Hs _ _ Hp)]; done).
  exists p. split; [|done]. unfold get. pose proof (arr_get_range _ _ _ Hp). rewrite Hl in *.
  rewrite (proj2 (Z.leb_le _ _)), (proj2 (Z.ltb_lt _ _)) by (unfold NPTY; lia). cbn [andb]. rewrite Hp.
  destruct (used p) eqn:Eu; [done|]. rewrite Forall_forall in Ht.
  rewrite (so_free _ (Ht p (arr_get_elem _ _ _ Hp)) Eu) in Hpos. by destruct m.
Qed.

Lemma counted_step x y : term_step x y → counted x.1 x.2 → counted y.1 y.2.
Proof.
  intros Hst H. pose proof (co_table _ _ H) as Ht.
  destruct Hst as [ptys E nd r ptys' Eop|ptys E me i flags r ptys' me' Hb Eop|ptys E i E' ptys' HE Eop
    |ptys E i E' ptys' HE Eop|ptys E o ptys' Ho Hpl Eop]; cbn [fst snd] in *.
  - destruct (pty_alloc_ok ptys nd Ht) as (? & ? & Eq & Hc). rewrite Eq in Eop. injection Eop as -> ->.
    destruct Hc as [[Hr ->]|[Hr Hc]]; [by rewrite (proj2 (Z.leb_gt _ _))|].
    rewrite (proj2 (Z.leb_le _ _)) by done. by apply (counted_more ptys E r true).
  - destruct (slave_open_ok ptys me i flags Ht) as (? & ? & ? & Eq & Hc). rewrite Eq in Eop. injection Eop as -> -> ->.
    destruct Hc as [[Hr ->]|(-> & p & Hp & Hc)]; [by rewrite (proj2 (Z.leb_gt _ _))|].
    cbn. apply (counted_more ptys E i false); [done|]. apply Hc. rewrite (co_slave _ _ H _ _ Hp).
    pose proof (opened_le E i false). lia.
  - destruct (master_close_ok ptys i Ht) as (? & Eq & Hc). rewrite Eq in Eop. injection Eop as ->.
    destruct (open_get _ _ _ _ _ H HE) as (p & Hg & Hpos). rewrite Hg in Hc. rewrite (proj2 (Z.ltb_lt _ _) Hpos) in Hc.
    by apply (counted_less ptys E i true).
  - destruct (slave_close_ok ptys i Ht) as (? & Eq & Hc). rewrite Eq in Eop. injection Eop as ->.
    destruct (open_get _ _ _ _ _ H HE) as (p & Hg & Hpos). rewrite Hg in Hc. rewrite (proj2 (Z.ltb_lt _ _) Hpos) in Hc.
    by apply (counted_less ptys E i false).
  - destruct (plain_ok ptys o Ht Ho Hpl) as (? & Eq & Hc). rewrite Eq in Eop. injection Eop as ->.
    destruct Hc as [->|[i Hc]]; [done|]. eapply counted_changed; [done|exact Hc| |auto].
    intros j m. destruct m; case_decide; lia.
Qed.

Lemma counted_run x y : rtc term_step x y → counted x.1 x.2 → counted y.1 y.2.
Proof. induction 1; eauto using counted_step. Qed.

Lemma counted_start : counted ptys0 [].
Proof.
  assert (∀ i p, ptys0.[i] = Some p → p = pty0) as H0.
  { intros i p [_ Hp]%arr_get_Some. by apply lookup_replicate in Hp as [-> _]. }
  split.
  - split; [done|]. apply Forall_replicate, slot0_ok.
  - by intros i m ?%elem_of_nil.
  - by intros i p ->%H0.
  - by intros i p ->%H0.
Qed.

(** C18: in any run of the sixteen terminals, in which ends are closed only by
    those who have them and everything else is called at will, the counts of a slot
    are the ends of it that are open, a slot is in use exactly while one of its ends
    is open (and blank otherwise), rings and line buffers are consistent, and every
    further operation, closes by anybody included, runs without a read or write
    outside its arrays. *)
Theorem ptys_safe ptys E :
  rtc term_step (ptys0, []) (ptys, E) →
  length ptys = 16%nat ∧
  (∀ i p, ptys.[i] = Some p →
     pty_ok p ∧ mrefs p = opened E i true ∧ srefs p = opened E i false ∧
     (used p = true ↔ ∃ m, (i, m) ∈ E) ∧ (used p = false → p = pty0)) ∧
  (∀ i m, (i, m) ∈ E → is_Some (get ptys i)) ∧
  (∀ o, op_ok o → is_Some (pty_step ptys o)).
Proof.
  intros H%counted_run; [|apply counted_start]. cbn [fst snd] in H.
  assert (∀ i m, (i, m) ∈ E → ∃ p, get ptys i = Some p) as Hget.
  { intros i m (E' & HE)%elem_of_Permutation. destruct (open_get _ _ _ _ _ H HE) as (p & ? & _). eauto. }
  pose proof H as [[Hl Ht] He Hm Hs]. split; [done|]. split; [|split; [apply Hget|]].
  - intros i p Hp. rewrite Forall_forall in Ht. destruct (Ht p (arr_get_elem _ _ _ Hp)) as [Hok _ _ Hu Hf].
    split; [done|]. split; [by apply Hm|]. split; [by apply Hs|]. split; [|done]. split.
    + intros Hus. rewrite (Hm i p Hp), (Hs i p Hp) in Hu.
      destruct (Hu Hus) as [Hpos|Hpos];
        [destruct (countb_pos (λ h, bool_decide (h = (i, true))) E) as (h & Hh & Eh)
        |destruct (countb_pos (λ h, bool_decide (h = (i, false))) E) as (h & Hh & Eh)];
        try (unfold opened in Hpos; lia); apply bool_decide_eq_true in Eh; subst h; eauto.
    + intros [m Hm']. destruct (Hget i m Hm') as [q Hq]. pose proof (get_slot _ _ _ Hq).
      simplify_eq. unfold get in Hq. destruct (_ && _); [|done]. rewrite Hp in Hq. by destruct (used p).
  - intros o Ho. apply pty_step_total; [apply H|done].
Qed.

(** A terminal is allocated, unlocked and opened, and its master is closed. *)
Lemma ptys_safe_witness : ∃ ptys, rtc term_step (ptys0, []) (ptys, [(0, false)]) ∧
  (∀ o, op_ok o → is_Some (pty_step ptys o)) ∧ (used <$> ptys.[0]) = Some true ∧ (srefs <$> ptys.[0]) = Some 1.
Proof.
  eexists ?[t]. assert (rtc term_step (ptys0, []) (?t, [(0, false)])) as Hr.
  { eapply rtc_l; [eapply (t_alloc _ [] 7); vm_compute; reflexivity|].
    eapply rtc_l; [eapply (t_plain _ _ (OUnlock 0)); [done|done|vm_compute; reflexivity]|].
    eapply rtc_l; [eapply (t_open _ _ (Some (Proc 5 5 5 (-1))) 0 0); [done|vm_compute; reflexivity]|].
    eapply rtc_l; [eapply (t_master_close _ _ 0 [(0, false)]); [apply Permutation_swap|vm_compute; reflexivity]|].
    apply rtc_refl. }
  split; [exact Hr|]. split; [apply (ptys_safe _ _ Hr)|]. split; vm_compute; reflexivity.
Defined.

(** ** What a program writes, the master reads *)

Lemma push_all_fits q cs : Z.of_nat (length q + length cs) ≤ 4096 → push_all q cs = q ++ cs.
Proof.
  revert q. induction cs as [|c cs IH]; intros q Hq; cbn [push_all foldl]; [by rewrite app_nil_r|].
  cbn in Hq. unfold push at 2. rewrite (proj2 (Z.eqb_neq _ _)) by lia. fold (push_all (q ++ [c]) cs).
  rewrite IH, <- app_assoc; [done|]. rewrite length_app. cbn. lia.
Qed.

Lemma onlcr_length t c : (length (onlcr t c) ≤ 2)%nat.
Proof. unfold onlcr. destruct (_ && _); cbn; lia. Qed.

(** The loop of a slave's write stops at two free places, so that nothing is dropped. *)
Lemma feed_out p buf :
  pty_ok p → ∃ k p', feed false p buf = Some (drop k buf, p') ∧ (k ≤ length buf)%nat ∧ pty_ok p' ∧ keeps p p' ∧
    items (outq p') = items (outq p) ++ concat (onlcr (tio p) <$> take k buf) ∧
    (k = length buf ∨ ring_space (outq p') ≤ 2).
Proof.
  revert p. induction buf as [|c buf IH]; intros p H; cbn [feed].
  { exists O, p. split_and!; try done; [by rewrite app_nil_r|by left]. }
  destruct (2 <? ring_space (outq p)) eqn:E; bools.
  - destruct (out_char_total p c H) as (p1 & -> & H1 & K1 & _ & I1). cbn [mbind option_bind].
    destruct (IH p1 H1) as (k & p' & -> & Hk & H' & K' & I' & Hs).
    exists (S k), p'. split_and!; [done|cbn; lia|done|by eapply keeps_trans| |destruct Hs; [left; cbn; lia|by right]].
    rewrite I', I1, (proj1 K1), push_all_fits.
    + cbn [take fmap list_fmap concat]. by rewrite <- app_assoc.
    + unfold ring_space, PTY_BUF in E. pose proof (items_length _ (po_out _ H)). pose proof (onlcr_length (tio p) c). lia.
  - exists O, p. split_and!; try done; [cbn; lia|by rewrite app_nil_r|by right].
Qed.

(** A turn of a slave's write or of a master's read. *)
Inductive turn := SlaveWrites (buf : list Z) (nonblock interrupted : bool) | MasterReads (len : Z) (nonblock interrupted : bool).

(** The bytes of [buf] a write says it took. *)
Definition taken (buf : list Z) (w : written) : list Z :=
  match w with
  | Wrote k => take (Z.to_nat k) buf
  | WErr _ => []
  | WWait rest => take (length buf - length rest) buf
  end.

Definition received (o : outcome) : list Z := match o with Got cs => cs | _ => [] end.

(** The bytes taken and the bytes received over a sequence of turns. *)
Fixpoint turns (p : pty_t) (ts : list turn) : option (list Z * list Z * pty_t) :=
  match ts with
  | [] => Some ([], [], p)
  | SlaveWrites buf nb intr :: ts =>
      '(w, p) ← pty_write p false 0 buf nb intr; '(ws, rs, p) ← turns p ts; Some (taken buf w ++ ws, rs, p)
  | MasterReads len nb intr :: ts =>
      '(o, p) ← pty_read p true len nb intr false; '(ws, rs, p) ← turns p ts; Some (ws, received o ++ rs, p)
  end.

Lemma slave_write_spec p buf nb intr :
  pty_ok p → ∃ w p', pty_write p false 0 buf nb intr = Some (w, p') ∧ pty_ok p' ∧ keeps p p' ∧
    items (outq p') = items (outq p) ++ concat (onlcr (tio p) <$> taken buf w).
Proof.
  intros H. unfold pty_write. cbv zeta. case_bool_decide as Eb.
  { eexists _, p. split; [done|]. split_and!; try done. cbn. by rewrite app_nil_r. }
  destruct (mrefs p <=? 0). { eexists _, p. split; [done|]. split_and!; try done. cbn. by rewrite app_nil_r. }
  destruct (feed_out p buf H) as (k & p' & -> & Hk & H' & K' & I' & _). cbn [mbind option_bind].
  rewrite length_drop. replace (length buf - (length buf - k))%nat with k by lia. rewrite Z.add_0_l.
  assert (∀ e, taken buf (if nz (Z.of_nat k) then Wrote (Z.of_nat k) else WErr e) = take k buf) as Ht.
  { intros e. unfold nz. destruct (Z.of_nat k =? 0) eqn:E; bools; cbn [negb taken]; [by replace k with O by lia|by rewrite Nat2Z.id]. }
  case_bool_decide; [|destruct nb; [|destruct intr]]; eexists _, p'; (split; [done|]); split_and!; try done; rewrite I'.
  - cbn [taken]. by rewrite Nat2Z.id.
  - by rewrite Ht.
  - by rewrite Ht.
  - cbn. rewrite length_drop. by replace (length buf - (length buf - k))%nat with k by lia.
Qed.

Lemma master_read_spec p len nb intr :
  pty_ok p → ∃ o p', pty_read p true len nb intr false = Some (o, p') ∧ pty_ok p' ∧ tio p' = tio p ∧
    items (outq p) = received o ++ items (outq p').
Proof.
  intros H. unfold pty_read. destruct (len <=? 0); [by eexists _, p|]. destruct (0 <? n (outq p)).
  - destruct (drain_ok (Z.to_nat len) false (outq p) (po_out _ H)) as (cs & r & -> & Hr & Hi).
    eexists _, _. split; [done|]. split; [by destruct H; split|done].
  - destruct (_ && _); [by eexists _, p|]. destruct nb; [by eexists _, p|]. destruct intr; by eexists _, p.
Qed.

(** C19: over any interleaving of a program's writes and the master's reads,
    whatever the buffer sizes, the ring filling up or running dry, the master
    receives the bytes the writes say they took, each newline as CR NL if the
    settings ask for it, in order, none lost and none twice: what was received
    and what is still queued is what was queued and what was taken. *)
Theorem pty_output_fifo p ts :
  pty_ok p → ∃ ws rs p', turns p ts = Some (ws, rs, p') ∧ pty_ok p' ∧
    items (outq p) ++ concat (onlcr (tio p) <$> ws) = rs ++ items (outq p').
Proof.
  revert p. induction ts as [|[buf nb intr|len nb intr] ts IH]; intros p H; cbn [turns].
  - eexists _, _, p. split; [done|]. split; [done|]. by rewrite app_nil_r.
  - destruct (slave_write_spec p buf nb intr H) as (w & p1 & -> & H1 & K1 & I1). cbn [mbind option_bind].
    destruct (IH p1 H1) as (ws & rs & p' & -> & H' & E). cbn [mbind option_bind].
    eexists _, _, p'. split; [done|]. split; [done|]. rewrite <- E, I1, (proj1 K1), fmap_app, concat_app.
    by rewrite <- !app_assoc.
  - destruct (master_read_spec p len nb intr H) as (o & p1 & -> & H1 & K1 & I1). cbn [mbind option_bind].
    destruct (IH p1 H1) as (ws & rs & p' & -> & H' & E). cbn [mbind option_bind].
    eexists _, _, p'. split; [done|]. split; [done|]. rewrite I1, <- !app_assoc, <- E, K1. done.
Qed.

(** A terminal fresh from [pty_alloc]. *)
Definition fresh_pty : pty_t :=
  {| pty0 with used := true; mrefs := 1; srefs := 1; rows := 25; cols := 80; tio := set_default_termios |}.

Lemma fresh_pty_ok : pty_ok fresh_pty.
Proof. split; [apply ring0_ok|apply ring0_ok|done..]. Qed.

Lemma pty_output_fifo_witness : pty_ok fresh_pty ∧
  ∃ ws rs p', turns fresh_pty [SlaveWrites [104; 105; 10] true false; MasterReads 3 true false; MasterReads 9 true false]
      = Some (ws, rs, p') ∧ pty_ok p' ∧
    items (outq fresh_pty) ++ concat (onlcr (tio fresh_pty) <$> ws) = rs ++ items (outq p').
Proof. split; [apply fresh_pty_ok|]. apply pty_output_fifo. apply fresh_pty_ok. Defined.

Example turns_demo :
  (λ '(ws, rs, _), (ws, rs)) <$>
    turns fresh_pty [SlaveWrites [104; 105; 10] true false; MasterReads 3 true false; MasterReads 9 true false]
  = Some ([104; 105; 10], [104; 105; 13; 10]).
Proof. vm_compute. reflexivity. Qed.

(** ** Canonical input *)

(** A character the settings neither map, drop nor turn into a signal. *)
Definition literal (p : pty_t) (c : Z) : Prop :=
  map_input (tio p) c = Some c ∧ (has (c_lflag (tio p)) TTY_ISIG = true → signal_of (tio p) c = Some 0).

Lemma literal_char p c :
  literal p c → has (c_lflag (tio p)) TTY_ICANON = true → input_char p c = canon_char p c.
Proof.
  intros [Hm Hs] Hc. unfold input_char. rewrite Hm, Hc.
  assert ((if has (c_lflag (tio p)) TTY_ISIG then signal_of (tio p) c else Some 0) = Some 0) as ->.
  { destruct (has _ _); [by apply Hs|done]. }
  done.
Qed.

(** A character that edits the line: not the newline, not the end of file. *)
Definition editing (p : pty_t) (er ki ve c : Z) : Prop :=
  literal p c ∧ c ≠ NL ∧ (c = er ∨ c = BS ∨ c = ki ∨ c ≠ ve).

Lemma keeps_literal p p' c : keeps p p' → literal p c → literal p' c.
Proof. intros (E & _). unfold literal. by rewrite E. Qed.

Lemma feed_edit p cs rest er ki ve :
  pty_ok p → ctl p er ki ve → has (c_lflag (tio p)) TTY_ICANON = true → 2 < ring_space (inq p) →
  Forall (editing p er ki ve) cs →
  ∃ p', feed true p (cs ++ rest) = feed true p' rest ∧ pty_ok p' ∧ inq p' = inq p ∧ eof p' = eof p ∧ keeps p p' ∧
    edited p' = foldl (edit er ki) (edited p) cs.
Proof.
  intros H Hc Hcan Hsp Hcs. revert p H Hc Hcan Hsp Hcs.
  induction cs as [|c cs IH]; intros p H Hc Hcan Hsp Hcs; [by exists p|].
  apply Forall_cons in Hcs as [(Hl & Hn & He) Hcs]. cbn [app feed].
  rewrite (proj2 (Z.ltb_lt 2 _)) by done. rewrite literal_char by done.
  destruct (canon_edit p c er ki ve H Hc Hn He) as (p1 & -> & H1 & I1 & F1 & K1 & E1). cbn [mbind option_bind].
  destruct (IH p1) as (p' & -> & H' & I' & F' & K' & E'); [done|by unfold ctl; rewrite (proj1 K1)|by rewrite (proj1 K1)|by rewrite I1| |].
  - eapply Forall_impl; [exact Hcs|]. intros x (Hx & ? & ?). split; [by eapply keeps_literal|done].
  - exists p'. split_and!; [done|done|congruence|congruence|by eapply keeps_trans|]. cbn [foldl]. by rewrite E', E1.
Qed.

Lemma edit_length er ki l c : (length l ≤ 255)%nat → (length (edit er ki l c) ≤ 255)%nat.
Proof.
  intros Hl. unfold edit. destruct (_ || _); [rewrite length_take; lia|]. destruct (_ =? _); [cbn; lia|].
  destruct (_ <? 255) eqn:E; bools; [rewrite length_app; cbn; lia|done].
Qed.

Lemma edits_length er ki l cs : (length l ≤ 255)%nat → (length (foldl (edit er ki) l cs) ≤ 255)%nat.
Proof. revert l. induction cs as [|c cs IH]; intros l Hl; [done|]. apply IH, edit_length, Hl. Qed.

Lemma edit_no_nl er ki l c : NL ∉ l → c ≠ NL → NL ∉ edit er ki l c.
Proof.
  intros Hl Hc. unfold edit. destruct (_ || _).
  { intros Hin. apply Hl. eapply elem_of_sublist; [exact Hin|apply sublist_take]. }
  destruct (_ =? _); [set_solver|]. destruct (_ <? _); set_solver.
Qed.

Lemma edits_no_nl er ki l cs : NL ∉ l → NL ∉ cs → NL ∉ foldl (edit er ki) l cs.
Proof.
  revert l. induction cs as [|c cs IH]; intros l Hl Hcs; [done|]. cbn. apply IH; [|set_solver].
  apply edit_no_nl; set_solver.
Qed.

(** C20: In canonical mode, with nothing queued and no line begun, the master
    types characters and editing keys and then a newline: the write takes them
    all, and the program's read returns exactly the line as edited (erase takes
    the last character back, kill all of them, at most 255 are kept) with its
    newline, and leaves nothing behind.  The characters are such that the input flags
    do not map them and that raise no signal and do not end the file ([editing]); the
    program has the terminal open, and asks for 256 bytes or more. *)
Theorem canonical_line p cs er ki ve len :
  pty_ok p → ctl p er ki ve → has (c_lflag (tio p)) TTY_ICANON = true →
  items (inq p) = [] → llen p = 0 → (slave_seen p = true → 0 < srefs p) →
  Forall (editing p er ki ve) cs → literal p NL → NL ≠ er → NL ≠ ki → NL ≠ ve → 256 ≤ len →
  ∃ p' p'', pty_write p true 0 (cs ++ [NL]) true false = Some (Wrote (Z.of_nat (length cs + 1)), p') ∧
    pty_read p' false len true false false = Some (Got (foldl (edit er ki) [] cs ++ [NL]), p'') ∧
    pty_ok p'' ∧ items (inq p'') = [] ∧ llen p'' = 0.
Proof.
  intros H Hc Hcan Hin Hl0 Hs Hcs Hnl N1 N2 N3 Hlen.
  pose proof (items_length _ (po_in _ H)) as Hn. rewrite Hin in Hn. cbn in Hn.
  assert (edited p = []) as E0 by (unfold edited; by rewrite Hl0).
  destruct (feed_edit p cs [NL] er ki ve H Hc Hcan) as (p1 & F1 & H1 & I1 & _ & K1 & E1); [unfold ring_space, PTY_BUF; lia|done|].
  destruct (canon_newline p1 er ki ve H1) as (p2 & F2 & H2 & _ & K2 & E2 & I2); [by unfold ctl; rewrite (proj1 K1)|done..|].
  assert (feed true p (cs ++ [NL]) = Some ([], p2)) as F.
  { rewrite F1. cbn [feed]. rewrite I1. unfold ring_space, PTY_BUF. rewrite <- Hn. cbn [Z.sub Z.ltb].
    rewrite literal_char; [|by eapply keeps_literal|by rewrite (proj1 K1)]. by rewrite F2. }
  set (l := foldl (edit er ki) [] cs) in *. rewrite E0 in E1. fold l in E1.
  assert (length l ≤ 255)%nat as Hll by (apply edits_length; cbn; lia).
  assert (NL ∉ l) as Hnn.
  { apply edits_no_nl; [set_solver|]. intros Hi. rewrite Forall_forall in Hcs. destruct (Hcs NL Hi) as (_ & ? & _). done. }
  assert (items (inq p2) = l ++ [NL]) as Hi2.
  { rewrite I2, I1, Hin, E1. rewrite push_all_fits; [done|]. rewrite length_app. cbn. lia. }
  destruct (drain_spec (Z.to_nat len) true (inq p2) (po_in _ H2)) as (ds & r & D & Hr & Hi & _ & _ & Ht).
  assert (ds = l ++ [NL]) as -> by (eapply (Ht eq_refl l []); [done|done|lia]).
  exists p2, {| p2 with inq := r |}. split; [|split; [|split; [by destruct H2; split|]]].
  - unfold pty_write. cbv zeta. rewrite bool_decide_false by (by destruct cs).
    assert (slave_seen p && (srefs p <=? 0) = false) as ->.
    { destruct (slave_seen p); [|done]. cbn. apply Z.leb_gt. by apply Hs. }
    rewrite F. cbn [mbind option_bind length]. rewrite bool_decide_true by done.
    rewrite length_app. cbn [length]. do 3 f_equal. lia.
  - unfold pty_read. rewrite (proj2 (Z.leb_gt len 0)) by lia. cbv zeta.
    pose proof (items_length _ (po_in _ H2)) as Hn2. rewrite Hi2, length_app in Hn2. cbn [length] in Hn2.
    rewrite (proj2 (Z.ltb_lt 0 (n (inq p2)))) by lia.
    rewrite (proj1 K2), (proj1 K1), Hcan, D. done.
  - cbn [inq llen]. rewrite Hi2 in Hi. split.
    + apply (app_inv_head (l ++ [NL])). rewrite app_nil_r. by symmetry.
    + rewrite <- edited_length, E2 by done. done.
Qed.

(** [l x DEL s NL] gives [ls]. *)
Lemma canonical_line_witness :
  ∃ p' p'', pty_write fresh_pty true 0 ([108; 120; 127; 115] ++ [NL]) true false = Some (Wrote 5, p') ∧
    pty_read p' false 300 true false false = Some (Got [108; 115; 10], p'') ∧
    pty_ok p'' ∧ items (inq p'') = [] ∧ llen p'' = 0.
Proof.
  apply (canonical_line fresh_pty [108; 120; 127; 115] 0x7F 0x15 4 300); first [apply fresh_pty_ok|done|idtac].
  repeat constructor; first [done|cbn; lia].
Defined.

(** ** A full input queue *)

Lemma push_all_over q cs (k : nat) :
  Z.of_nat (length q + k) = 4096 → (k ≤ length cs)%nat → push_all q cs = q ++ take k cs.
Proof.
  intros Hq Hk. rewrite <- (take_drop k cs) at 1. rewrite push_all_app, (push_all_fits q) by (rewrite length_take; lia).
  assert (Z.of_nat (length (q ++ take k cs)) = 4096) as Hf by (rewrite length_app, length_take; lia).
  revert Hf. generalize (q ++ take k cs), (drop k cs). clear. intros q cs Hf.
  induction cs as [|c cs IH]; [done|]. cbn [push_all foldl]. unfold push at 2. by rewrite Hf.
Qed.

(** The master's write takes a newline whenever three places are free in
    the input queue, but a newline queues the whole line begun before it: of a
    line of three characters or more only what fits goes in, its tail and the
    newline are lost, and the write still says it took the byte. *)
Theorem pty_line_lost p er ki ve :
  pty_ok p → ctl p er ki ve → has (c_lflag (tio p)) TTY_ICANON = true → literal p NL →
  NL ≠ er → NL ≠ ki → NL ≠ ve → (slave_seen p = true → 0 < srefs p) →
  length (items (inq p)) = 4093%nat → 3 ≤ llen p →
  ∃ p', pty_write p true 0 [NL] true false = Some (Wrote 1, p') ∧
    items (inq p') = items (inq p) ++ take 3 (edited p) ∧ edited p' = [].
Proof.
  intros H Hc Hcan Hnl N1 N2 N3 Hs Hq Hl.
  destruct (canon_newline p er ki ve H Hc N1 N2 N3) as (p' & F & _ & _ & _ & E & I).
  exists p'. pose proof (items_length _ (po_in _ H)) as Hn. pose proof (edited_length _ H) as He. split; [|split; [|done]].
  - unfold pty_write. cbv zeta. rewrite bool_decide_false by done.
    assert (slave_seen p && (srefs p <=? 0) = false) as ->.
    { destruct (slave_seen p); [|done]. cbn. apply Z.leb_gt. by apply Hs. }
    cbn [feed]. unfold ring_space, PTY_BUF. rewrite (proj2 (Z.ltb_lt 2 (4096 - n (inq p)))) by lia.
    by rewrite literal_char, F.
  - rewrite I, (push_all_over _ _ 3); [|lia|rewrite length_app; lia]. f_equal. rewrite take_app_le by lia. done.
Qed.

(** 4093 bytes waiting, and the line [abcd] begun. *)
Definition full_pty : pty_t :=
  {| fresh_pty with inq := Ring (replicate 4096 120) 4093 0 4093; line := [97; 98; 99; 100] ++ replicate 252 0; llen := 4 |}.

Lemma pty_line_lost_witness :
  ∃ p', pty_write full_pty true 0 [NL] true false = Some (Wrote 1, p') ∧
    items (inq p') = items (inq full_pty) ++ [97; 98; 99] ∧ edited p' = [].
Proof.
  apply (pty_line_lost full_pty 0x7F 0x15 4); try done.
Defined.

End Pty.
