(* ===== verification/Vmm.v ===== *)
(** * Page tables (src/src/core/vmm.c, second part)

    Four levels of tables of 512 words, kept in frames of the pool of [Pmm].  A
    pointer to an entry is the table's address and an index.  What a page that is
    not present stands for (a swap slot, a page of a shared segment) is behind the
    interface [Backing].  A section that holds the lock of a space is one step.
    [log] records the invalidations, the shootdowns of other processors and the
    references dropped, in order. *)

From S2P Require Import Prelude Refs Pmm.
Import Pmm.

Module Vmm.

Definition USER_BASE : Z := 0x10000.
Definition USER_TOP : Z := 0x800000000000.
Definition PTE_P : Z := 0x001.
Definition PTE_RW : Z := 0x002.
Definition PTE_US : Z := 0x004.
Definition PTE_A : Z := 0x020.
Definition PTE_SWAP : Z := 0x100.
Definition PTE_SHARED : Z := 0x200.
Definition PTE_LAZY : Z := 0x400.
Definition PTE_COW : Z := 0x800.
Definition PTE_SHL : Z := Z.shiftl 1 62.
Definition PTE_USED : Z := Z.lor (Z.lor PTE_P PTE_LAZY) PTE_SWAP.
Definition PTE_ADDR : Z := 0x000FFFFFFFFFF000.

(** [e & m] as a condition. *)
Definition has (e m : Z) : bool := nz (Z.land e m).
Definition addr (e : Z) : Z := Z.land e PTE_ADDR.
Definition SLOT (e : Z) : Z := Z.shiftr (addr e) 12.
Definition PTE_WR (e : Z) : bool := has e (Z.lor PTE_RW PTE_COW).
Definition IDX (va lvl : Z) : Z := Z.land (Z.shiftr va (12 + 9 * lvl)) 0x1FF.
(** [(c ? m : 0)] *)
Definition opt (c : bool) (m : Z) : Z := if c then m else 0.

(** Swap slots and lazy pages of shared segments. *)
Class Backing (B : Type) := {
  swap_put : B → Z → option B;
  swap_dup : B → Z → option B;
  swap_alloc : B → option (Z * B);
  swap_read : B → Z → option (list Z);
  shm_lz_put : B → Z → option B;
  shm_lz_dup : B → Z → option B;
  shm_lz_frame : B → Z → Z → option (Z * B)
}.

Inductive ev := EInval (va : Z) | EShoot (pd : Z) | EUnref (fr : Z).

(** Where the last search for free addresses ended. *)
Record fc_t := Fc { fc_pd : Z; fc_lo : Z; fc_cache : Z }.

Section vmm.
Context {B : Type} `{!Backing B}.
(** More than one processor; the kernel's own top table. *)
Context (smp : bool) (kernel_cr3 : Z).

(** [dfr] are the frames that wait for the other processors, [sd_defer],
    [sd_need] and [sd_pd] the shootdown state of this one. *)
Record vs := Vs {
  pm : pmm; bk : B; fc : list fc_t; dfr : list Z;
  sd_defer : Z; sd_need : bool; sd_pd : Z; log : list ev
}.

(** ** Memory *)

Definition rd (s : vs) (p : Z * Z) : option Z := l ← ram (pm s) !! p.1; l.[p.2].

Definition set_ram (s : vs) (t : Z) (l : list Z) : vs :=
  let m := pm s in {| s with pm := {| m with ram := <[t := l]> (ram m) |} |}.

Definition wr (s : vs) (p : Z * Z) (v : Z) : option vs :=
  l ← ram (pm s) !! p.1; l ← l.[p.2 <- v]; Some (set_ram s p.1 l).

Definition alloc (s : vs) : option (Z * vs) := '(fr, m) ← pmm_alloc (pm s); Some (fr, {| s with pm := m |}).
Definition ref (s : vs) (fr : Z) : option vs := m ← pmm_ref (pm s) fr; Some {| s with pm := m |}.
Definition unref (s : vs) (fr : Z) : option vs :=
  m ← pmm_unref (pm s) fr; Some {| s with pm := m; log := log s ++ [EUnref fr] |}.

(** ** Invalidation *)

Definition tlb_inval (s : vs) (va : Z) : vs :=
  let s := {| s with log := log s ++ [EInval va] |} in
  if negb smp then s
  else if nz (sd_defer s) then {| s with sd_need := true |}
  else {| s with log := log s ++ [EShoot (sd_pd s)] |}.

Definition MMLOCK (s : vs) (pd : Z) : vs := {| s with sd_pd := pd |}.

Definition defer (s : vs) : vs := {| s with sd_defer := sd_defer s + 1 |}.

Definition sd_end (s : vs) : vs :=
  let s := {| s with sd_defer := sd_defer s - 1 |} in
  if (sd_defer s =? 0) && sd_need s
  then {| s with sd_need := false; log := log s ++ [EShoot (sd_pd s)] |} else s.

Definition pte_put (s : vs) (p : Z * Z) (va v : Z) : option vs :=
  old ← rd s p;
  if old =? v then Some s
  else
    s ← wr s p v;
    Some (if has old PTE_P then tlb_inval s va else {| s with log := log s ++ [EInval va] |}).

(** ** Walks *)

(** A fresh table hung into an entry. *)
Definition new_table (s : vs) (p : Z * Z) (page : list Z) : option (option Z * vs) :=
  '(n, s) ← alloc s;
  if n =? 0 then Some (None, s)
  else
    s ← wr (set_ram s n page) p (Z.lor (Z.lor (Z.lor n PTE_P) PTE_RW) PTE_US);
    Some (Some n, s).

(** From table [t] of level [lvl] down to the entry for [va]. *)
Fixpoint pte_walk (lvl : nat) (s : vs) (t va : Z) (create : bool) : option (option (Z * Z) * vs) :=
  match lvl with
  | O => Some (Some (t, IDX va 0), s)
  | S l =>
      let p := (t, IDX va (Z.of_nat lvl)) in
      e ← rd s p;
      if has e PTE_P then pte_walk l s (addr e) va create
      else if (Z.of_nat lvl =? 1) && has e PTE_LAZY
      then
        '(n, s) ← new_table s p (replicate 512 PTE_LAZY);
        match n with None => Some (None, s) | Some n => pte_walk l s n va create end
      else if negb create then Some (None, s)
      else
        '(n, s) ← new_table s p zero_page;
        match n with
        | None => Some (None, s)
        | Some n => pte_walk l s (addr (Z.lor (Z.lor (Z.lor n PTE_P) PTE_RW) PTE_US)) va create
        end
  end.

Definition pte_slot (s : vs) (pd va : Z) (create : bool) : option (option (Z * Z) * vs) :=
  pte_walk 3 s pd va create.

Definition uaddr (a : Z) : bool := (USER_BASE <=? a) && (a <? USER_TOP).

(** From table [t] of level [k + 1] down to the entry of level 1. *)
Fixpoint pde_walk (k : nat) (s : vs) (t va : Z) (create : bool) : option (option (Z * Z) * vs) :=
  match k with
  | O => Some (Some (t, IDX va 1), s)
  | S k' =>
      let p := (t, IDX va (Z.of_nat k + 1)) in
      e ← rd s p;
      if has e PTE_P then pde_walk k' s (addr e) va create
      else if negb create then Some (None, s)
      else
        '(n, s) ← new_table s p zero_page;
        match n with
        | None => Some (None, s)
        | Some n => pde_walk k' s (addr (Z.lor (Z.lor (Z.lor n PTE_P) PTE_RW) PTE_US)) va create
        end
  end.

Definition pde_slot (s : vs) (pd va : Z) (create : bool) : option (option (Z * Z) * vs) :=
  pde_walk 2 s pd va create.

Definition pde_res (s : vs) (pd va : Z) : option bool :=
  '(p, s) ← pde_slot s pd va false;
  match p with
  | None => Some false
  | Some p => e ← rd s p; Some (negb (has e PTE_P) && has e PTE_LAZY)
  end.

Definition vmm_pte (s : vs) (pd va : Z) : option (Z * vs) :=
  if negb (uaddr va) then Some (0, s)
  else
    '(p, s) ← pte_slot s pd va false;
    match p with None => Some (0, s) | Some p => e ← rd s p; Some (e, s) end.

(** The walk of [hole_at], from table [t] of level [lvl]. *)
Fixpoint hole_walk (lvl : nat) (s : vs) (t va : Z) : option Z :=
  match lvl with
  | O => Some 0
  | S l =>
      e ← rd s (t, IDX va (Z.of_nat lvl));
      if has e PTE_P then hole_walk l s (addr e) va
      else Some (if (Z.of_nat lvl =? 1) && has e PTE_LAZY then 0 else Z.shiftl 1 (12 + 9 * Z.of_nat lvl))
  end.

Definition hole_at (s : vs) (pd va : Z) : option Z := hole_walk 3 s pd va.

(** ** One page *)

Definition pte_rel (s : vs) (e : Z) : option vs :=
  if has e PTE_SWAP then b ← swap_put (bk s) (SLOT e); Some {| s with bk := b |}
  else if has e PTE_SHL then b ← shm_lz_put (bk s) e; Some {| s with bk := b |}
  else Some s.

(** What an entry that goes away held. *)
Definition pte_drop (s : vs) (e : Z) : option vs :=
  if has e PTE_P then unref s (addr e) else pte_rel s e.

Definition make_writable (s : vs) (p : Z * Z) (va : Z) : option vs :=
  e ← rd s p;
  held ← (if has e PTE_P && negb (has e PTE_SHARED)
          then o ← ours (pm s) (addr e);
               if o : bool then x ← (refcnt (pm s)).[Z.shiftr (addr e) 12]; Some (1 <? x) else Some false
          else Some false);
  if held : bool then pte_put s p va (Z.lor (Z.ldiff e PTE_RW) PTE_COW)
  else pte_put s p va (Z.lor (Z.ldiff e PTE_COW) PTE_RW).

Definition vmm_cow_nl (s : vs) (pd va : Z) : option (bool * vs) :=
  let va := Z.ldiff va 4095 in
  '(p, s) ← pte_slot s pd va false;
  match p with
  | None => Some (false, s)
  | Some p =>
      e ← rd s p;
      if negb (has e PTE_P) || negb (has e PTE_COW) then Some (false, s)
      else
        let fr := addr e in
        x ← (refcnt (pm s)).[Z.shiftr fr 12];
        if negb (x =? 1)
        then
          '(nf, s) ← alloc s;
          if nf =? 0 then Some (false, s)
          else
            l ← ram (pm s) !! fr;
            let s := set_ram s nf l in
            s ← pte_put s p va (Z.lor (Z.lor nf (Z.ldiff (Z.ldiff e PTE_ADDR) PTE_COW)) PTE_RW);
            s ← unref s fr;
            Some (true, s)
        else s ← pte_put s p va (Z.lor (Z.ldiff e PTE_COW) PTE_RW); Some (true, s)
  end.

Definition vmm_cow (s : vs) (pd va : Z) : option (bool * vs) := vmm_cow_nl (MMLOCK s pd) pd va.

Definition vmm_new_space (s : vs) : option (Z * vs) :=
  '(pd, s) ← alloc s;
  if pd =? 0 then Some (0, s)
  else
    k ← ram (pm s) !! kernel_cr3;
    d ← ram (pm s) !! pd;
    if Z.of_nat (length k) =? 512
    then Some (pd, set_ram s pd (firstn 256 d ++ skipn 256 k)) else None.

(** ** Ranges *)

(** [for (a = start; a < e; a += PAGE_SIZE)]; the body answers with what to
    return if it leaves the loop, and [a]. *)
Definition page_turn (body : Z → vs → option (option Z * Z * vs)) (e : Z) : Z * vs → option ((Z * vs) + (Z * vs)) :=
  λ '(a, s),
    if a <? e
    then
      '(out, a, s) ← body a s;
      Some (match out with Some r => inl (r, s) | None => inr (u64 (a + PAGE_SIZE), s) end)
    else Some (inl (0, s)).

Definition range_end (va len : Z) : Z := Z.ldiff (u64 (va + len + PAGE_SIZE - 1)) 4095.

(** There are 2^52 pages. *)
Definition on_pages (va len : Z) (body : Z → vs → option (option Z * Z * vs)) (s : vs) : option (Z * vs) :=
  while 52 (page_turn body (range_end va len)) (Z.ldiff va 4095, s).

Definition next (a : Z) (s : vs) : option (option Z * Z * vs) := Some (None, a, s).
Definition leave (r a : Z) (s : vs) : option (option Z * Z * vs) := Some (Some r, a, s).

(** The last page before the end of the hole, and of a reserved slot. *)
Definition skip_hole (a h : Z) : Z := u64 (Z.ldiff a (h - 1) + h - PAGE_SIZE).
Definition BIG : Z := 0x200000.
Definition skip_big (a : Z) : Z := u64 (a + BIG - PAGE_SIZE).
(** [!(a & 0x1FFFFF) && a + 0x200000 <= end] *)
Definition whole (a e : Z) : bool := (Z.land a 0x1FFFFF =? 0) && (u64 (a + BIG) <=? e).

Definition alloc_page (pd : Z) (writable : bool) (a : Z) (s : vs) : option (option Z * Z * vs) :=
  if negb (uaddr a) then leave (-1) a s
  else
    '(p, s) ← pte_slot s pd a true;
    match p with
    | None => leave (-1) a s
    | Some p =>
        e ← rd s p;
        if has e PTE_P then s ← (if writable then make_writable s p a else Some s); next a s
        else if has e PTE_SWAP
        then s ← (if writable then wr s p (Z.lor e PTE_RW) else Some s); next a s
        else
          '(fr, s) ← alloc s;
          if fr =? 0 then leave (-1) a s
          else
            e ← rd s p;
            s ← (if has e PTE_SHL then b ← shm_lz_put (bk s) e; Some {| s with bk := b |} else Some s);
            s ← pte_put s p a (Z.lor (Z.lor (Z.lor fr PTE_P) PTE_US) (opt writable PTE_RW));
            next a s
    end.

Definition vmm_alloc_range_nl (s : vs) (pd va len : Z) (writable : bool) : option (Z * vs) :=
  '(r, s) ← on_pages va len (alloc_page pd writable) (defer s); Some (r, sd_end s).

Definition vmm_alloc_range (s : vs) (pd va len : Z) (writable : bool) : option (Z * vs) :=
  vmm_alloc_range_nl (MMLOCK s pd) pd va len writable.

Definition writable_page (pd e : Z) (writable : bool) (a : Z) (s : vs) : option (option Z * Z * vs) :=
  h ← hole_at s pd a;
  if nz h then next (skip_hole a h) s
  else
    big ← (if negb writable && whole a e then pde_res s pd a else Some false);
    if big : bool then next (skip_big a) s
    else
      '(p, s) ← pte_slot s pd a false;
      match p with
      | None => next a s
      | Some p =>
          e ← rd s p;
          if negb (has e PTE_USED) then next a s
          else
            s ← (if negb writable then pte_put s p a (Z.ldiff e (Z.lor PTE_RW PTE_COW))
                 else if has e PTE_P then make_writable s p a
                 else pte_put s p a (Z.lor e PTE_RW));
            next a s
      end.

Definition vmm_set_writable (s : vs) (pd va len : Z) (writable : bool) : option vs :=
  '(_, s) ← on_pages va len (writable_page pd (range_end va len) writable) (defer (MMLOCK s pd)); Some (sd_end s).

Definition vmm_map_frame (s : vs) (pd va fr : Z) (rw : bool) : option (Z * vs) :=
  let s := MMLOCK s pd in
  '(p, s) ← pte_slot s pd va true;
  match p with
  | None => Some (-1, s)
  | Some p =>
      s ← ref s fr;
      e ← rd s p;
      s ← pte_drop s e;
      s ← pte_put s p va (Z.lor (Z.lor (Z.lor (Z.lor fr PTE_P) PTE_US) (opt rw PTE_RW)) PTE_SHARED);
      Some (0, s)
  end.

Definition vmm_map_cache (s : vs) (pd va fr : Z) (w shared : bool) : option (Z * vs) :=
  let s := MMLOCK s pd in
  '(p, s) ← pte_slot s pd va true;
  match p with
  | None => Some (-1, s)
  | Some p =>
      s ← ref s fr;
      e ← rd s p;
      s ← pte_drop s e;
      let fl := if shared then Z.lor PTE_SHARED (opt w PTE_RW) else opt w PTE_COW in
      s ← pte_put s p va (Z.lor (Z.lor (Z.lor fr PTE_P) PTE_US) fl);
      Some (0, s)
  end.

Definition lazy_page (pd e : Z) (rw user : bool) (a : Z) (s : vs) : option (option Z * Z * vs) :=
  if negb (uaddr a) then leave (-1) a s
  else
    '(big, s) ← (if negb rw && negb user && whole a e
                 then
                   '(p, s) ← pde_slot s pd a true;
                   match p with
                   | None => Some (false, s)
                   | Some p =>
                       x ← rd s p;
                       if (x =? 0) || (x =? PTE_LAZY) then s ← wr s p PTE_LAZY; Some (true, s)
                       else Some (false, s)
                   end
                 else Some (false, s));
    if big : bool then next (skip_big a) s
    else
      '(p, s) ← pte_slot s pd a true;
      match p with
      | None => leave (-1) a s
      | Some p =>
          x ← rd s p;
          s ← pte_drop s x;
          s ← pte_put s p a (Z.lor (Z.lor PTE_LAZY (opt rw PTE_RW)) (opt user PTE_US));
          next a s
      end.

Definition vmm_lazy_range_nl (s : vs) (pd va len : Z) (rw user : bool) : option (Z * vs) :=
  '(r, s) ← on_pages va len (lazy_page pd (range_end va len) rw user) (defer s); Some (r, sd_end s).

Definition vmm_lazy_range (s : vs) (pd va len : Z) (rw user : bool) : option (Z * vs) :=
  vmm_lazy_range_nl (MMLOCK s pd) pd va len rw user.

Fixpoint lazy_shm_loop (s : vs) (pd va : Z) (rw user : bool) (slot first : Z) (ks : list Z) : option (Z * vs) :=
  match ks with
  | [] => Some (0, s)
  | k :: ks =>
      let a := u64 (va + k * PAGE_SIZE) in
      '(p, s) ← pte_slot s pd a true;
      match p with
      | None => Some (-1, s)
      | Some p =>
          x ← rd s p;
          s ← pte_drop s x;
          let e := u64 (Z.lor (Z.lor (Z.lor (Z.lor (Z.lor PTE_LAZY PTE_SHL) (opt rw PTE_RW)) (opt user PTE_US))
                               (Z.shiftl slot 40)) (Z.shiftl (first + k) 12)) in
          b ← shm_lz_dup (bk s) e;
          s ← pte_put {| s with bk := b |} p a e;
          lazy_shm_loop s pd va rw user slot first ks
      end
  end.

Definition vmm_lazy_shm (s : vs) (pd va len : Z) (rw user : bool) (slot first : Z) : option (Z * vs) :=
  '(r, s) ← lazy_shm_loop (defer (MMLOCK s pd)) pd va rw user slot first (upto (len / PAGE_SIZE)); Some (r, sd_end s).

(** ** Faults *)

Definition cas (s : vs) (p : Z * Z) (old v : Z) : option (bool * vs) :=
  x ← rd s p; if x =? old then s ← wr s p v; Some (true, s) else Some (false, s).

(** One try of [vmm_swap_in]: the read of the disk is between two sections that
    hold the lock, [others] is what other threads do meanwhile.  [None] tries again. *)
Definition swap_in_try (others : vs → vs) (s : vs) (pd va : Z) : option (option bool * vs) :=
  '(p, s) ← pte_slot (MMLOCK s pd) pd va false;
  e ← match p with Some p => rd s p | None => Some 0 end;
  if has e PTE_P then Some (Some true, s)
  else if negb (has e PTE_SWAP) then Some (Some false, s)
  else
    '(fr, s) ← alloc s;
    if fr =? 0 then Some (Some false, s)
    else
      match swap_read (bk s) (SLOT e) with
      | None => s ← unref s fr; Some (Some false, s)
      | Some l =>
          '(p, s) ← pte_slot (MMLOCK (others (set_ram s fr l)) pd) pd va false;
          same ← match p with Some p => x ← rd s p; Some (x =? e) | None => Some false end;
          match p with
          | Some p =>
              if same : bool
              then
                s ← pte_put s p va (Z.lor (Z.lor fr PTE_P) (Z.land e (Z.lor PTE_RW PTE_US)));
                b ← swap_put (bk s) (SLOT e);
                Some (Some true, {| s with bk := b |})
              else s ← unref s fr; Some (None, s)
          | None => s ← unref s fr; Some (None, s)
          end
      end.

Fixpoint swap_in_loop (others : nat → vs → vs) (tries : nat) (s : vs) (pd va : Z) : option (bool * vs) :=
  match tries with
  | O => Some (false, s)
  | S k =>
      '(r, s) ← swap_in_try (others k) s pd va;
      match r with Some r => Some (r, s) | None => swap_in_loop others k s pd va end
  end.

Definition vmm_swap_in (others : nat → vs → vs) (s : vs) (pd va : Z) : option (bool * vs) :=
  swap_in_loop others 4 s pd (Z.ldiff va 4095).

(** The section of [vmm_fault_in] that holds the lock, with the spare frame
    [fr]: the answer, and the frame if it was not used. *)
Definition fault_in_nl (s : vs) (pd va fr : Z) : option (bool * bool * Z * vs) :=
  '(p, s) ← pte_slot s pd va false;
  match p with
  | None => Some (false, false, fr, s)
  | Some p =>
      old ← rd s p;
      let sw := Z.land old (Z.lor PTE_P PTE_SWAP) =? PTE_SWAP in
      if has old PTE_P then Some (true, sw, fr, s)
      else if has old PTE_SHL && nz fr
      then
        '(t, b) ← shm_lz_frame (bk s) old fr;
        s ← ref {| s with bk := b |} t;
        '(won, s) ← cas s p old
          (Z.lor (Z.lor (Z.lor (Z.lor t PTE_P) PTE_US) PTE_SHARED) (Z.land old PTE_RW));
        s ← (if won : bool then b ← shm_lz_put (bk s) old; Some {| s with bk := b |} else unref s t);
        Some (true, sw, (if t =? fr then 0 else fr), s)
      else if has old PTE_LAZY && nz fr
      then
        '(won, s) ← cas s p old (Z.lor (Z.lor fr PTE_P) (Z.land old (Z.lor PTE_RW PTE_US)));
        Some (true, sw, (if won : bool then 0 else fr), s)
      else Some (false, sw, fr, s)
  end.

Definition vmm_fault_in (others : nat → vs → vs) (s : vs) (pd va : Z) : option (bool * vs) :=
  let va := Z.ldiff va 4095 in
  '(fr, s) ← alloc s;
  '(r, sw, fr, s) ← fault_in_nl (MMLOCK s pd) pd va fr;
  s ← (if nz fr then unref s fr else Some s);
  if sw : bool then vmm_swap_in others s pd va else Some (r, s).

(** ** More ranges *)

Definition user_page (pd e : Z) (user : bool) (a : Z) (s : vs) : option (option Z * Z * vs) :=
  h ← hole_at s pd a;
  if nz h then next (skip_hole a h) s
  else
    big ← (if negb user && whole a e then pde_res s pd a else Some false);
    if big : bool then next (skip_big a) s
    else
      '(p, s) ← pte_slot s pd a false;
      match p with
      | None => next a s
      | Some p =>
          e ← rd s p;
          if negb (has e PTE_USED) then next a s
          else s ← pte_put s p a (if user then Z.lor e PTE_US else Z.ldiff e PTE_US); next a s
      end.

Definition vmm_set_user (s : vs) (pd va len : Z) (user : bool) : option vs :=
  '(_, s) ← on_pages va len (user_page pd (range_end va len) user) (defer (MMLOCK s pd)); Some (sd_end s).

Fixpoint unref_all (s : vs) (frs : list Z) : option vs :=
  match frs with [] => Some s | fr :: frs => s ← unref s fr; unref_all s frs end.

Definition dfr_flush (s : vs) : option vs :=
  let s := if sd_need s then {| s with sd_need := false; log := log s ++ [EShoot (sd_pd s)] |} else s in
  s ← unref_all s (dfr s);
  Some {| s with dfr := [] |}.

(** A frame of a mapping that goes away waits for the other processors. *)
Definition dfr_push (s : vs) (fr : Z) : option vs :=
  s ← (if Z.of_nat (length (dfr s)) =? 256 then dfr_flush s else Some s);
  Some {| s with dfr := dfr s ++ [fr] |}.

Definition free_page (pd e : Z) (dfl : bool) (a : Z) (s : vs) : option (option Z * Z * vs) :=
  if negb (uaddr a) then next a s
  else
    h ← hole_at s pd a;
    if nz h then next (skip_hole a h) s
    else
      big ← (if whole a e then pde_res s pd a else Some false);
      if big : bool
      then
        '(p, s) ← pde_slot s pd a false;
        match p with
        | None => None
        | Some p => s ← wr s p 0; next (skip_big a) s
        end
      else
        '(p, s) ← pte_slot s pd a false;
        match p with
        | None => next a s
        | Some p =>
            e ← rd s p;
            if negb (has e PTE_USED) then next a s
            else
              s ← (if has e PTE_P && dfl && smp then dfr_push s (addr e) else pte_drop s e);
              s ← pte_put s p a 0;
              next a s
        end.

(** Freed addresses below the cached one are searched again. *)
Definition fc_lower (s : vs) (pd va : Z) : option vs :=
  let h := Z.land (Z.shiftr pd 12) 15 in
  c ← (fc s).[h];
  if (fc_pd c =? pd) && (va <? fc_cache c)
  then l ← (fc s).[h <- {| c with fc_cache := Z.ldiff va 4095 |}]; Some {| s with fc := l |}
  else Some s.

Definition vmm_free_range_nl (s : vs) (pd va len : Z) (dfl : bool) : option vs :=
  s ← fc_lower s pd va;
  '(_, s) ← on_pages va len (free_page pd (range_end va len) dfl) (defer s);
  Some (if dfl then {| s with sd_defer := sd_defer s - 1 |} else sd_end s).

Definition vmm_free_range (s : vs) (pd va len : Z) : option vs :=
  s ← vmm_free_range_nl (MMLOCK s pd) pd va len true; dfr_flush s.

Definition discard_page (pd e : Z) (a : Z) (s : vs) : option (option Z * Z * vs) :=
  if negb (uaddr a) then next a s
  else
    h ← hole_at s pd a;
    if nz h then next (skip_hole a h) s
    else
      big ← (if whole a e then pde_res s pd a else Some false);
      if big : bool then next (skip_big a) s
      else
        '(p, s) ← pte_slot s pd a false;
        match p with
        | None => next a s
        | Some p =>
            e ← rd s p;
            if negb (Z.land e (Z.lor (Z.lor PTE_P PTE_RW) PTE_SHARED) =? Z.lor PTE_P PTE_RW) then next a s
            else
              s ← (if smp then dfr_push s (addr e) else unref s (addr e));
              s ← pte_put s p a (Z.lor (Z.lor PTE_LAZY PTE_RW) (Z.land e PTE_US));
              next a s
        end.

Definition vmm_discard (s : vs) (pd va len : Z) : option vs :=
  '(_, s) ← on_pages va len (discard_page pd (range_end va len)) (defer (MMLOCK s pd));
  dfr_flush {| s with sd_defer := sd_defer s - 1 |}.

(** [leave 1] is [return false]. *)
Definition unmapped_page (pd : Z) (a : Z) (s : vs) : option (option Z * Z * vs) :=
  h ← hole_at s pd a;
  if nz h then next (skip_hole a h) s
  else
    big ← pde_res s pd a;
    if big : bool then leave 1 a s
    else
      '(p, s) ← pte_slot s pd a false;
      match p with
      | None => next a s
      | Some p => e ← rd s p; if has e PTE_USED then leave 1 a s else next a s
      end.

Definition vmm_range_unmapped (s : vs) (pd va len : Z) : option (bool * vs) :=
  '(r, s) ← on_pages va len (unmapped_page pd) s; Some (r =? 0, s).

Definition vmm_alloc_free (s : vs) (pd va len : Z) (writable : bool) : option (Z * vs) :=
  '(free, s) ← vmm_range_unmapped (MMLOCK s pd) pd va len;
  if free : bool then vmm_alloc_range_nl s pd va len writable else Some (1, s).

(** ** Free addresses *)

(** A search is at [a] with [run] free bytes behind it, from [start] on. *)
Record search := Sr { sr_run : Z; sr_start : Z; sr_a : Z }.

(** [n] more free bytes: the start of the run if it is long enough. *)
Definition free_bytes (q : search) (nx len : Z) : Z + search :=
  let start := if nz (sr_run q) then sr_start q else sr_a q in
  let run := u64 (sr_run q + (nx - sr_a q)) in
  if len <=? run then inl start else inr (Sr run start nx).

(** The entries of a table of level 0 from index [j] on. *)
Fixpoint scan_pt (s : vs) (limit len t : Z) (js : list Z) (q : search) : option (Z + search) :=
  match js with
  | [] => Some (inr q)
  | j :: js =>
      if sr_a q <? limit
      then
        e ← rd s (t, j);
        if has e PTE_USED then scan_pt s limit len t js (Sr 0 (sr_start q) (u64 (sr_a q + PAGE_SIZE)))
        else
          match free_bytes q (u64 (sr_a q + PAGE_SIZE)) len with
          | inl r => Some (inl r)
          | inr q => scan_pt s limit len t js q
          end
      else Some (inr q)
  end.

(** [(a | m) + 1] *)
Definition up_to (a m : Z) : Z := u64 (Z.lor a m + 1).

(** The indices a loop from [i] to 511 takes. *)
Definition rest (i : Z) : list Z := seqZ i (512 - i).

Fixpoint scan_pd (s : vs) (limit len t : Z) (ks : list Z) (q : search) : option (Z + search) :=
  match ks with
  | [] => Some (inr q)
  | i :: ks =>
      if sr_a q <? limit
      then
        e ← rd s (t, i);
        if negb (has e PTE_P)
        then
          if has e PTE_LAZY then scan_pd s limit len t ks (Sr 0 (sr_start q) (up_to (sr_a q) 0x1FFFFF))
          else
            match free_bytes q (up_to (sr_a q) 0x1FFFFF) len with
            | inl r => Some (inl r)
            | inr q => scan_pd s limit len t ks q
            end
        else
          o ← scan_pt s limit len (addr e) (rest (IDX (sr_a q) 0)) q;
          match o with
          | inl r => Some (inl r)
          | inr q => scan_pd s limit len t ks q
          end
      else Some (inr q)
  end.

(** A turn of the outer loop moves [a] to the next gigabyte at least; there are
    2^34 of them. *)
Definition scan_turn (s : vs) (pd limit len : Z) (q : search) : option (Z + search) :=
  if sr_a q <? limit
  then
    e3 ← rd s (pd, IDX (sr_a q) 3);
    if negb (has e3 PTE_P) then Some (free_bytes q (up_to (sr_a q) 0x7FFFFFFFFF) len)
    else
      e2 ← rd s (addr e3, IDX (sr_a q) 2);
      if negb (has e2 PTE_P) then Some (free_bytes q (up_to (sr_a q) 0x3FFFFFFF) len)
      else
        let gb := up_to (sr_a q) 0x3FFFFFFF in
        o ← scan_pd s limit len (addr e2) (rest (IDX (sr_a q) 1)) q;
        Some (match o with inl r => inl r | inr q => inr {| q with sr_a := gb |} end)
  else Some (inl 0).

Definition scan_free (s : vs) (pd from limit len : Z) : option Z :=
  while 34 (scan_turn s pd limit len) (Sr 0 from from).

Definition find_free_nl (s : vs) (pd from limit len : Z) : option (Z * vs) :=
  let len := Z.ldiff (u64 (len + PAGE_SIZE - 1)) 4095 in
  let h := Z.land (Z.shiftr pd 12) 15 in
  c ← (fc s).[h];
  let c := if negb (fc_pd c =? pd) || negb (fc_lo c =? from) then Fc pd from from else c in
  r ← (if (from <? fc_cache c) && (fc_cache c <? limit) then scan_free s pd (fc_cache c) limit len else Some 0);
  r ← (if r =? 0 then scan_free s pd from limit len else Some r);
  let c := if nz r then {| c with fc_cache := u64 (r + len) |} else c in
  l ← (fc s).[h <- c];
  Some (r, {| s with fc := l |}).

Definition vmm_find_free (s : vs) (pd from limit len : Z) : option (Z * vs) :=
  find_free_nl (MMLOCK s pd) pd from limit len.

(** The address asked for if it is free, else one that is. *)
Definition choose (s : vs) (pd ad lo hi len : Z) : option (Z * vs) :=
  '(ok, s) ← (if nz ad && (Z.land ad 0xFFF =? 0) && (lo <=? ad) && (u64 (ad + len) <=? hi)
              then vmm_range_unmapped s pd ad len else Some (false, s));
  if ok : bool then Some (ad, s) else find_free_nl s pd lo hi len.

(** The claim of the range, undone if it fails. *)
Definition claim (s : vs) (pd ad len : Z) (rw user : bool) : option (Z * vs) :=
  if ad =? 0 then Some (0, s)
  else
    '(r, s) ← vmm_lazy_range_nl s pd ad len rw user;
    if r <? 0 then s ← vmm_free_range_nl s pd ad len false; Some (0, s) else Some (ad, s).

Definition vmm_map_anon (s : vs) (pd ad : Z) (fixed : bool) (lo hi len : Z) (rw user : bool) : option (Z * vs) :=
  let s := MMLOCK s pd in
  '(ad, s) ← (if fixed then s ← vmm_free_range_nl s pd ad len false; Some (ad, s) else choose s pd ad lo hi len);
  claim s pd ad len rw user.

Definition vmm_reserve (s : vs) (pd ad lo hi len : Z) : option (Z * vs) :=
  '(ad, s) ← choose (MMLOCK s pd) pd ad lo hi len; claim s pd ad len false false.

(** ** Whole spaces *)

Fixpoint for_entries (f : Z → vs → option vs) (ks : list Z) (s : vs) : option vs :=
  match ks with [] => Some s | i :: ks => s ← f i s; for_entries f ks s end.

Fixpoint free_tables (lvl : nat) (tbl : Z) (s : vs) : option vs :=
  s ← for_entries (λ i s,
        e ← rd s (tbl, i);
        if negb (has e PTE_P) then if bool_decide (lvl = O) then pte_rel s e else Some s
        else match lvl with O => unref s (addr e) | S l => free_tables l (addr e) s end) (upto 512) s;
  unref s tbl.

(** [tlb_unload] moves the other processors off the space. *)
Definition vmm_destroy_space (s : vs) (pd : Z) : option vs :=
  let s := if smp then {| s with log := log s ++ [EShoot pd] |} else s in
  let s := MMLOCK s pd in
  let h := Z.land (Z.shiftr pd 12) 15 in
  c ← (fc s).[h];
  s ← (if fc_pd c =? pd then l ← (fc s).[h <- {| c with fc_pd := 0 |}]; Some {| s with fc := l |} else Some s);
  s ← for_entries (λ i s,
        e ← rd s (pd, i);
        if has e PTE_P then s ← free_tables 2 (addr e) s; wr s (pd, i) 0 else Some s) (upto 256) s;
  unref s pd.

(** A loop over entries that stops when a frame is missing. *)
Fixpoint while_entries (f : Z → vs → option (bool * vs)) (ks : list Z) (s : vs) : option (bool * vs) :=
  match ks with
  | [] => Some (true, s)
  | i :: ks => '(ok, s) ← f i s; if ok : bool then while_entries f ks s else Some (false, s)
  end.

(** A page of the parent at [(src, i)], the same for the child at [(dst, i)]. *)
Definition clone_page (src dst base i : Z) (s : vs) : option (bool * vs) :=
  e ← rd s (src, i);
  if negb (has e PTE_P)
  then
    if has e PTE_LAZY
    then
      s ← (if has e PTE_SHL then b ← shm_lz_dup (bk s) e; Some {| s with bk := b |} else Some s);
      s ← wr s (dst, i) e; Some (true, s)
    else if has e PTE_SWAP
    then b ← swap_dup (bk s) (SLOT e); s ← wr {| s with bk := b |} (dst, i) e; Some (true, s)
    else Some (true, s)
  else
    let fr := addr e in
    o ← (if PTE_WR e then ours (pm s) fr else Some false);
    '(e, s) ← (if o && negb (has e PTE_SHARED)
               then
                 let e := Z.lor (Z.ldiff e PTE_RW) PTE_COW in
                 s ← wr s (src, i) e;
                 Some (e, tlb_inval s (Z.lor base (u64 (Z.shiftl i 12))))
               else Some (e, s));
    s ← ref s fr;
    s ← wr s (dst, i) e;
    Some (true, s).

Fixpoint clone_level (lvl : nat) (src dst base : Z) (s : vs) : option (bool * vs) :=
  while_entries (λ i s,
    match lvl with
    | O => clone_page src dst base i s
    | S l =>
        e ← rd s (src, i);
        if negb (has e PTE_P)
        then s ← (if bool_decide (lvl = 1%nat) && has e PTE_LAZY then wr s (dst, i) e else Some s); Some (true, s)
        else
          '(n, s) ← alloc s;
          if n =? 0 then Some (false, s)
          else
            s ← wr s (dst, i) (Z.lor n (Z.land e 0xFFF));
            clone_level l (addr e) n (Z.lor base (u64 (Z.shiftl i (12 + 9 * Z.of_nat lvl)))) s
    end) (upto 512) s.

Definition vmm_clone_space (s : vs) (pd : Z) : option (Z * vs) :=
  '(npd, s) ← vmm_new_space s;
  if npd =? 0 then Some (0, s)
  else
    '(ok, s) ← while_entries (λ i s,
        e ← rd s (pd, i);
        if negb (has e PTE_P) then Some (true, s)
        else
          '(n, s) ← alloc s;
          if n =? 0 then Some (false, s)
          else
            s ← wr s (npd, i) (Z.lor n (Z.land e 0xFFF));
            clone_level 2 (addr e) n (Z.shiftl i 39) s) (upto 256) (defer (MMLOCK s pd));
    let s := sd_end s in
    if ok : bool then Some (npd, s) else s ← vmm_destroy_space s npd; Some (0, s).

(** A sum over the entries of a table. *)
Fixpoint sum_entries (f : Z → option Z) (ks : list Z) : option Z :=
  match ks with [] => Some 0 | i :: ks => x ← f i; n ← sum_entries f ks; Some (u64 (x + n)) end.

Fixpoint count_level (lvl : nat) (s : vs) (tbl : Z) : option Z :=
  sum_entries (λ i,
    e ← rd s (tbl, i);
    if negb (has e PTE_P) then Some 0
    else match lvl with O => Some 1 | S l => count_level l s (addr e) end) (upto 512).

Fixpoint count_virt (lvl : nat) (s : vs) (tbl : Z) : option Z :=
  sum_entries (λ i,
    e ← rd s (tbl, i);
    match lvl with
    | O => Some (b2z (has e PTE_USED))
    | S l => if has e PTE_P then count_virt l s (addr e) else Some 0
    end) (upto 512).

Definition vmm_count_pages (s : vs) (pd : Z) : option Z :=
  sum_entries (λ i, e ← rd s (pd, i); if has e PTE_P then count_level 2 s (addr e) else Some 0) (upto 256).

Definition vmm_count_virt (s : vs) (pd : Z) : option Z :=
  sum_entries (λ i, e ← rd s (pd, i); if has e PTE_P then count_virt 2 s (addr e) else Some 0) (upto 256).

(** ** Swapping out *)

(** Down to the table of level 0 for [va], or the end of the hole it is in. *)
Fixpoint clock_walk (lvl : nat) (s : vs) (t va : Z) : option (Z + Z) :=
  match lvl with
  | O => Some (inr t)
  | S l =>
      e ← rd s (t, IDX va (Z.of_nat lvl));
      if has e PTE_P then clock_walk l s (addr e) va
      else let sz := Z.shiftl 1 (12 + 9 * Z.of_nat lvl) in Some (inl (u64 (Z.ldiff va (sz - 1) + sz)))
  end.

Record swb_t := Swb { b_pd : Z; b_va : Z; b_fr : Z; b_fl : Z; b_slot : Z }.
Definition SWB_MAX : Z := 16.

(** The pages of one table; the flag says that the swap is full. *)
Fixpoint clock_pages (s : vs) (pd t va budget : Z) (b : list swb_t) (ks : list Z)
    : option (Z * Z * list swb_t * bool * vs) :=
  match ks with
  | [] => Some (va, budget, b, false, s)
  | i :: ks =>
      if (0 <? budget) && (Z.of_nat (length b) <? SWB_MAX)
      then
        let va' := va + PAGE_SIZE in
        e ← rd s (t, i);
        if negb (Z.land e (Z.lor (Z.lor PTE_P PTE_US) PTE_SHARED) =? Z.lor PTE_P PTE_US) || negb (PTE_WR e)
        then clock_pages s pd t va' budget b ks
        else
          let fr := addr e in
          o ← ours (pm s) fr;
          one ← (if o : bool then x ← (refcnt (pm s)).[Z.shiftr fr 12]; Some (x =? 1) else Some false);
          if negb one then clock_pages s pd t va' budget b ks
          else if has e PTE_A
          then s ← wr s (t, i) (Z.ldiff e PTE_A); clock_pages (tlb_inval s va) pd t va' (budget - 1) b ks
          else
            '(sl, k) ← swap_alloc (bk s);
            let s := {| s with bk := k |} in
            if sl <? 0 then Some (va, budget - 1, b, true, s)
            else
              s ← ref s fr;
              s ← pte_put s (t, i) va (Z.lor (Z.ldiff e PTE_RW) PTE_COW);
              clock_pages s pd t va' (budget - 1) (b ++ [Swb pd va fr (Z.lor PTE_RW PTE_US) sl]) ks
      else Some (va, budget, b, false, s)
  end.

(** A turn passes an empty entry or a table, 2 MB at least, or is the last. *)
Definition clock_turn (pd : Z) : Z * Z * list swb_t * vs → option ((Z * list swb_t * vs) + (Z * Z * list swb_t * vs)) :=
  λ '(va, budget, b, s),
    if (va <? USER_TOP) && (0 <? budget) && (Z.of_nat (length b) <? SWB_MAX)
    then
      w ← clock_walk 3 s pd va;
      match w with
      | inl va => Some (inr (va, budget, b, s))
      | inr t =>
          '(va, budget, b, full, s) ← clock_pages s pd t va budget b (rest (IDX va 0));
          Some (if full : bool then inl (va, b, s) else inr (va, budget, b, s))
      end
    else Some (inl (va, b, s)).

(** The answer, the hand and the batch. *)
Definition vmm_swap_scan (s : vs) (pd hand budget : Z) (b : list swb_t) : option (bool * Z * list swb_t * vs) :=
  let va := if hand <? USER_BASE then USER_BASE else hand in
  '(va, b, s) ← while 27 (clock_turn pd) (va, budget, b, defer (MMLOCK s pd));
  Some (USER_TOP <=? va, va, b, sd_end s).

(** The pages of one space in the batch: which of them went. *)
Fixpoint commit_pages (s : vs) (pd : Z) (b : list swb_t) : option (list swb_t * list swb_t * vs) :=
  match b with
  | [] => Some ([], [], s)
  | x :: b' =>
      if negb (b_pd x =? pd) then Some ([], b, s)
      else
        '(p, s) ← pte_slot s pd (b_va x) false;
        '(x, s) ← match p with
                  | None => Some (x, s)
                  | Some p =>
                      e ← rd s p;
                      if has e PTE_P && (addr e =? b_fr x) && has e PTE_COW
                      then
                        s ← pte_put s p (b_va x) (Z.lor (Z.lor PTE_SWAP (b_fl x)) (u64 (Z.shiftl (b_slot x) 12)));
                        Some ({| x with b_slot := -1 |}, s)
                      else Some (x, s)
                  end;
        '(taken, b', s) ← commit_pages s pd b';
        Some (x :: taken, b', s)
  end.

Fixpoint commit_refs (s : vs) (b : list swb_t) : option (Z * vs) :=
  match b with
  | [] => Some (0, s)
  | x :: b =>
      '(k, s) ← (if b_slot x <? 0 then s ← unref s (b_fr x); Some (1, s)
                 else k ← swap_put (bk s) (b_slot x); Some (0, {| s with bk := k |}));
      s ← unref s (b_fr x);
      '(n, s) ← commit_refs s b;
      Some (k + n, s)
  end.

(** Every turn takes one space's pages off the batch. *)
Fixpoint commit_loop (fuel : nat) (s : vs) (b : list swb_t) : option (Z * vs) :=
  match b, fuel with
  | [], _ => Some (0, s)
  | _, O => None
  | x :: _, S fuel =>
      '(taken, b, s) ← commit_pages (defer (MMLOCK s (b_pd x))) (b_pd x) b;
      '(n, s) ← commit_refs (sd_end s) taken;
      '(m, s) ← commit_loop fuel s b;
      Some (n + m, s)
  end.

Definition vmm_swap_commit (s : vs) (b : list swb_t) : option (Z * vs) := commit_loop (length b) s b.

Fixpoint find_pages (s : vs) (t va area : Z) (ks : list Z) : option (Z + Z) :=
  match ks with
  | [] => Some (inr va)
  | i :: ks =>
      e ← rd s (t, i);
      if (Z.land e (Z.lor PTE_P PTE_SWAP) =? PTE_SWAP) && ((area <? 0) || (i32 (Z.shiftr (SLOT e) 28) =? area))
      then Some (inl va)
      else find_pages s t (va + PAGE_SIZE) area ks
  end.

Definition find_turn (s : vs) (pd area : Z) (va : Z) : option (Z + Z) :=
  if va <? USER_TOP
  then
    w ← clock_walk 3 s pd va;
    match w with
    | inl va => Some (inr va)
    | inr t => find_pages s t va area (rest (IDX va 0))
    end
  else Some (inl 0).

Definition vmm_swap_find (s : vs) (pd from area : Z) : option Z :=
  while 27 (find_turn s pd area) (if from <? USER_BASE then USER_BASE else from).

End vmm.

(** ** Bits of an entry *)

Lemma IDX_spec va lvl : 0 ≤ lvl → IDX va lvl = (va / 2 ^ (12 + 9 * lvl)) mod 512.
Proof.
  intros Hl. unfold IDX. change 0x1FF with (Z.ones 9). rewrite Z.land_ones by lia.
  by rewrite Z.shiftr_div_pow2 by lia.
Qed.

Lemma IDX_range va lvl : 0 ≤ lvl → 0 ≤ IDX va lvl < 512.
Proof. intros Hl. rewrite IDX_spec by done. apply Z.mod_pos_bound. lia. Qed.

(** The part of an address above the page of level [lvl]. *)
Definition pxl (va lvl : Z) : Z := va / 2 ^ (12 + 9 * lvl).

Lemma pxl_step va lvl : 0 ≤ lvl → pxl va lvl = pxl va (lvl + 1) * 512 + IDX va lvl.
Proof.
  intros Hl. rewrite IDX_spec by done. unfold pxl.
  replace (2 ^ (12 + 9 * (lvl + 1))) with (2 ^ (12 + 9 * lvl) * 512).
  2:{ replace (12 + 9 * (lvl + 1)) with (12 + 9 * lvl + 9) by lia. by rewrite (Z.pow_add_r 2 _ 9) by lia. }
  rewrite <- Z.div_div; [|lia|lia]. generalize (va / 2 ^ (12 + 9 * lvl)). intros x. Z.div_mod_to_equations. lia.
Qed.

Definition is_page (t : Z) : Prop := t mod 4096 = 0 ∧ 0 < t < 2 ^ 52.

(** A page address and low flags. *)
Lemma page_bits t fl k : is_page t → 0 ≤ fl < 4096 → 0 ≤ k →
  Z.testbit (Z.lor t fl) k = if decide (k < 12) then Z.testbit fl k else Z.testbit t k.
Proof.
  intros [Hm Ht] Hf Hk. rewrite Z.lor_spec. case_decide.
  - replace (Z.testbit t k) with false; [done|]. symmetry.
    rewrite <- (Z.mod_pow2_bits_low t 12 k) by lia. change (2 ^ 12) with 4096. by rewrite Hm, Z.bits_0.
  - destruct (decide (fl = 0)) as [->|]; [by rewrite Z.bits_0, orb_false_r|].
    rewrite (Z.bits_above_log2 fl k), orb_false_r; [done|lia|].
    apply Z.log2_lt_pow2; [lia|]. apply Z.lt_le_trans with (2 ^ 12); [lia|]. apply Z.pow_le_mono_r; lia.
Qed.

Lemma PTE_ADDR_spec : PTE_ADDR = Z.shiftl (Z.ones 40) 12.
Proof. done. Qed.

Lemma addr_bits e k : 0 ≤ k →
  Z.testbit (addr e) k = if decide (12 ≤ k < 52) then Z.testbit e k else false.
Proof.
  intros Hk. unfold addr. rewrite Z.land_spec, PTE_ADDR_spec, Z.shiftl_spec by done.
  case_decide; destruct (decide (k < 12)).
  - lia.
  - rewrite Z.ones_spec_low by lia. apply andb_true_r.
  - by rewrite (Z.testbit_neg_r _ (k - 12)), andb_false_r by lia.
  - by rewrite Z.ones_spec_high, andb_false_r by lia.
Qed.

Lemma page_high t k : is_page t → 52 ≤ k → Z.testbit t k = false.
Proof.
  intros [_ Ht] Hk. apply Z.bits_above_log2; [lia|]. apply Z.log2_lt_pow2; [lia|].
  apply Z.lt_le_trans with (2 ^ 52); [lia|]. apply Z.pow_le_mono_r; lia.
Qed.

Lemma page_low t k : is_page t → 0 ≤ k < 12 → Z.testbit t k = false.
Proof.
  intros [Hm _] Hk. rewrite <- (Z.mod_pow2_bits_low t 12 k) by lia.
  change (2 ^ 12) with 4096. by rewrite Hm, Z.bits_0.
Qed.

(** A page address with anything outside of the address bits. *)
Lemma addr_lor t x : is_page t → addr x = 0 → addr (Z.lor t x) = t.
Proof.
  intros Ht Hx. apply Z.bits_inj'. intros k Hk. rewrite addr_bits by done.
  pose proof (addr_bits x k Hk) as Hb. rewrite Hx, Z.bits_0 in Hb. case_decide.
  - by rewrite Z.lor_spec, <- Hb, orb_false_r.
  - destruct (decide (k < 12)); [by rewrite page_low by (done || lia)|by rewrite page_high by (done || lia)].
Qed.

Lemma has_lor t x m : is_page t → 0 ≤ m < 4096 → has (Z.lor t x) m = has x m.
Proof.
  intros Ht Hm. unfold has. f_equal. apply Z.bits_inj'. intros k Hk. rewrite !Z.land_spec, Z.lor_spec.
  destruct (decide (k < 12)); [by rewrite page_low by (done || lia)|].
  destruct (decide (m = 0)) as [->|]; [by rewrite !Z.bits_0, !andb_false_r|].
  rewrite (Z.bits_above_log2 m k), !andb_false_r; [done|lia|].
  apply Z.log2_lt_pow2; [lia|]. apply Z.lt_le_trans with (2 ^ 12); [lia|]. apply Z.pow_le_mono_r; lia.
Qed.

Lemma addr_low fl : 0 ≤ fl < 4096 → addr fl = 0.
Proof.
  intros Hf. apply Z.bits_inj'. intros k Hk. rewrite addr_bits, Z.bits_0 by done. case_decide; [|done].
  destruct (decide (fl = 0)) as [->|]; [by rewrite Z.bits_0|]. apply Z.bits_above_log2; [lia|].
  apply Z.log2_lt_pow2; [lia|]. apply Z.lt_le_trans with (2 ^ 12); [lia|]. apply Z.pow_le_mono_r; lia.
Qed.

Lemma addr_page e : 0 < addr e → is_page (addr e).
Proof.
  intros Hp. split.
  - change 4096 with (2 ^ 12). rewrite <- Z.land_ones by lia. apply Z.bits_inj'. intros k Hk.
    rewrite Z.land_spec, addr_bits, Z.bits_0 by done. case_decide; [|done].
    by rewrite Z.ones_spec_high, andb_false_r by lia.
  - split; [done|]. unfold addr in *. pose proof (Z.land_nonneg e PTE_ADDR).
    apply Z.bounded_iff_bits_nonneg; [lia|lia|]. intros k Hk. fold (addr e). rewrite addr_bits by lia.
    by rewrite decide_False by lia.
Qed.

(** ** The shape of the tables *)

(** A table belongs to a space, a level and a range of addresses. *)
Abbreviation place := (Z * nat * Z)%type.

(** What an entry of level 0 holds on to: a frame of the pool, a swap slot or a
    page of a shared segment. *)
Definition fr_of (pool : Z → bool) (e : Z) : option Z :=
  if has e PTE_P && pool (addr e) then Some (addr e) else None.
Definition bk_of (e : Z) : option (bool * Z) :=
  if has e PTE_P then None
  else if has e PTE_SWAP then Some (true, addr e)
  else if has e PTE_SHL then Some (false, addr e) else None.
Definition counted (pool : Z → bool) (e : Z) : bool :=
  bool_decide (is_Some (fr_of pool e)) || bool_decide (is_Some (bk_of e)).

Definition rdm (r : gmap Z (list Z)) (p : Z * Z) : option Z := l ← r !! p.1; l.[p.2].

Record shape (pool : Z → bool) (r : gmap Z (list Z)) (own : gmap Z place) (lf : gmap (Z * Z) Z) : Prop := {
  sh_table : ∀ t x, own !! t = Some x → is_page t ∧ ∃ l, r !! t = Some l ∧ length l = 512%nat;
  sh_inj : ∀ t t' x, own !! t = Some x → own !! t' = Some x → t = t';
  sh_node : ∀ t sp lvl px i e, own !! t = Some (sp, S lvl, px) → (lvl = 2%nat → i < 256) →
    rdm r (t, i) = Some e → has e PTE_P = true → own !! addr e = Some (sp, lvl, px * 512 + i);
  sh_up : ∀ t sp lvl px, own !! t = Some (sp, lvl, px) → (lvl < 3)%nat →
    ∃ t' px' i e, own !! t' = Some (sp, S lvl, px') ∧ px = px' * 512 + i ∧ 0 ≤ i < 512 ∧ (lvl = 2%nat → i < 256) ∧
      rdm r (t', i) = Some e ∧ has e PTE_P = true ∧ addr e = t;
  sh_level : ∀ t sp lvl px, own !! t = Some (sp, lvl, px) → (lvl ≤ 3)%nat;
  sh_root : ∀ t sp lvl px, own !! t = Some (sp, lvl, px) → own !! sp = Some (sp, 3%nat, 0);
  sh_leaf : ∀ p e, lf !! p = Some e ↔
    counted pool e = true ∧ rdm r p = Some e ∧ ∃ sp px, own !! p.1 = Some (sp, O, px)
}.

Lemma rdm_range r p e l : rdm r p = Some e → r !! p.1 = Some l → 0 ≤ p.2 < Z.of_nat (length l).
Proof. intros H Hl. unfold rdm in H. rewrite Hl in H. cbn in H. by apply arr_get_range in H. Qed.

(** Every entry of a table can be read and written. *)
Lemma shape_rd pool r own lf t x i : shape pool r own lf → own !! t = Some x → 0 ≤ i < 512 →
  ∃ e, rdm r (t, i) = Some e.
Proof.
  intros H Ht Hi. destruct (sh_table _ _ _ _ H _ _ Ht) as (_ & l & Hl & Hlen). unfold rdm. cbn. rewrite Hl. cbn.
  apply arr_get_is_Some. lia.
Qed.

(** Memory after a write. *)
Definition upd (r : gmap Z (list Z)) (p : Z * Z) (v : Z) : gmap Z (list Z) :=
  match r !! p.1 with Some l => <[p.1 := <[Z.to_nat p.2 := v]> l]> r | None => r end.

Lemma rdm_upd r p v e q : rdm r p = Some e → rdm (upd r p v) q = if decide (q = p) then Some v else rdm r q.
Proof.
  destruct p as [t i], q as [t' j]. unfold rdm, upd. cbn. intros H.
  destruct (r !! t) as [l|] eqn:El; [|done]. cbn in H. pose proof (arr_get_range _ _ _ H) as Hi.
  destruct (decide (t' = t)) as [->|Ht].
  - rewrite lookup_insert_eq, El. cbn. unfold arr_get. destruct (decide (j = i)) as [->|Hj].
    + rewrite decide_True by done. rewrite (proj2 (Z.leb_le _ _)) by lia. apply list_lookup_insert_eq. lia.
    + rewrite decide_False by congruence. destruct (0 <=? j) eqn:E; [|done]. bools.
      apply list_lookup_insert_ne. lia.
  - rewrite lookup_insert_ne, decide_False by congruence. done.
Qed.

Lemma upd_other r p v f : f ≠ p.1 → upd r p v !! f = r !! f.
Proof. intros Hf. unfold upd. destruct (r !! p.1); [by rewrite lookup_insert_ne|done]. Qed.

Lemma upd_length r p v f l : upd r p v !! f = Some l → ∃ l', r !! f = Some l' ∧ length l = length l'.
Proof.
  unfold upd. destruct (r !! p.1) as [l0|] eqn:E; [|by exists l].
  destruct (decide (f = p.1)) as [->|]; [|rewrite lookup_insert_ne by done; by exists l].
  rewrite lookup_insert_eq. intros [= <-]. exists l0. by rewrite length_insert.
Qed.

Lemma upd_table r p v f l' : r !! f = Some l' → ∃ l, upd r p v !! f = Some l ∧ length l = length l'.
Proof.
  intros Hf. unfold upd. destruct (r !! p.1) as [l0|] eqn:E; [|by exists l'].
  destruct (decide (f = p.1)) as [->|]; [|rewrite lookup_insert_ne by done; by exists l'].
  rewrite lookup_insert_eq. eexists. split; [done|]. rewrite length_insert. congruence.
Qed.

(** ** What a space maps *)

(** The entry for an address, from table [t] of level [lvl] down; 0 where there
    is no table, a lazy entry in a slot that is reserved as a whole. *)
Fixpoint vw (lvl : nat) (r : gmap Z (list Z)) (t va : Z) : option Z :=
  match lvl with
  | O => rdm r (t, IDX va 0)
  | S l =>
      e ← rdm r (t, IDX va (Z.of_nat lvl));
      if has e PTE_P then vw l r (addr e) va
      else Some (if (Z.of_nat lvl =? 1) && has e PTE_LAZY then PTE_LAZY else 0)
  end.

Definition user (va : Z) : Prop := 0 ≤ va < 2 ^ 47.

Lemma user_top va lvl : user va → lvl = 2%nat → IDX va (Z.of_nat (S lvl)) < 256.
Proof.
  intros Hu ->. change (Z.of_nat 3) with 3. rewrite IDX_spec by lia. unfold user in Hu.
  assert (va / 2 ^ (12 + 9 * 3) < 256) by (apply Z.div_lt_upper_bound; lia).
  assert (0 ≤ va / 2 ^ (12 + 9 * 3)) by (apply Z.div_pos; lia). rewrite Z.mod_small; lia.
Qed.

(** Table [t] is on the way to [va]. *)
Definition onway (own : gmap Z place) (sp va : Z) (lvl : nat) (t : Z) : Prop :=
  own !! t = Some (sp, lvl, pxl va (Z.of_nat lvl + 1)).

Section shapes.
Context {pool : Z → bool} {r : gmap Z (list Z)} {own : gmap Z place} {lf : gmap (Z * Z) Z}.
Hypothesis Hsh : shape pool r own lf.

Lemma way_rd sp va lvl t : onway own sp va lvl t → ∃ e, rdm r (t, IDX va (Z.of_nat lvl)) = Some e.
Proof using Hsh. intros H. eapply shape_rd; [exact Hsh|exact H|]. apply IDX_range. lia. Qed.

Lemma way_down sp va lvl t e :
  user va → onway own sp va (S lvl) t → rdm r (t, IDX va (Z.of_nat (S lvl))) = Some e → has e PTE_P = true →
  onway own sp va lvl (addr e).
Proof using Hsh.
  intros Hu Ht He Hp. unfold onway. rewrite pxl_step by lia.
  replace (Z.of_nat lvl + 1) with (Z.of_nat (S lvl)) by lia.
  eapply sh_node; [exact Hsh|exact Ht|by apply user_top|exact He|exact Hp].
Qed.

Lemma split_eq a b i j : 0 ≤ i < 512 → 0 ≤ j < 512 → a * 512 + i = b * 512 + j → a = b ∧ i = j.
Proof. lia. Qed.

Lemma way_up sp va lvl c :
  onway own sp va lvl c → (lvl < 3)%nat →
  ∃ t e, onway own sp va (S lvl) t ∧ rdm r (t, IDX va (Z.of_nat (S lvl))) = Some e ∧ has e PTE_P = true ∧ addr e = c.
Proof using Hsh.
  intros Hc Hl. destruct (sh_up _ _ _ _ Hsh _ _ _ _ Hc Hl) as (t & px & i & e & Ht & Hpx & Hi & _ & He & Hp & Ha).
  rewrite pxl_step in Hpx by lia. pose proof (IDX_range va (Z.of_nat lvl + 1) ltac:(lia)).
  destruct (split_eq (pxl va (Z.of_nat lvl + 1 + 1)) px (IDX va (Z.of_nat lvl + 1)) i) as [E1 E2]; [lia|lia|lia|].
  exists t, e. unfold onway. replace (Z.of_nat (S lvl)) with (Z.of_nat lvl + 1) by lia. by rewrite E1, E2.
Qed.

Lemma way_above sp va k lvl c : onway own sp va k c → (k ≤ lvl ≤ 3)%nat → ∃ t, onway own sp va lvl t.
Proof using Hsh.
  intros Hc [Hk Hl]. induction Hk as [|lvl Hk IH]; [by exists c|].
  destruct IH as [t Ht]; [lia|]. destruct (way_up _ _ _ _ Ht) as (t' & _ & Ht' & _); [lia|]. by exists t'.
Qed.

(** One entry of one table changes, and nothing else of the tables: a walk
    changes only below it. *)
Lemma vw_change r' sp0 k px0 t0 i0 e0 :
  own !! t0 = Some (sp0, k, px0) → 0 ≤ i0 < 512 → rdm r (t0, i0) = Some e0 → (k = O ∨ has e0 PTE_P = false) →
  (∀ t x i, own !! t = Some x → (t, i) ≠ (t0, i0) → rdm r' (t, i) = rdm r (t, i)) →
  ∀ lvl t sp va, user va → onway own sp va lvl t →
    vw lvl r' t va =
    if decide ((k ≤ lvl)%nat ∧ sp = sp0 ∧ pxl va (Z.of_nat k) = px0 * 512 + i0) then vw k r' t0 va else vw lvl r t va.
Proof using Hsh.
  intros Ht0 Hi0 He0 Hold Hr'. induction lvl as [|l IH]; intros t sp va Hu Ht.
  - assert (t = t0 → IDX va 0 = i0 → k = O ∧ sp = sp0 ∧ pxl va 0 = px0 * 512 + i0) as Hhit.
    { intros -> <-. unfold onway in Ht. rewrite Ht0 in Ht. injection Ht as <- -> ->. split_and!; [done|done|].
      by rewrite pxl_step by lia. }
    case_decide as Hc.
    + destruct Hc as (Hk & -> & Hpx). assert (k = O) as -> by lia. f_equal. change (Z.of_nat 0) with 0 in Hpx.
      rewrite pxl_step in Hpx by lia. pose proof (IDX_range va 0 ltac:(lia)).
      destruct (split_eq (pxl va (0 + 1)) px0 (IDX va 0) i0) as [E1 E2]; [lia|lia|lia|].
      eapply sh_inj; [exact Hsh|exact Ht|]. rewrite Ht0. by rewrite <- E1.
    + cbn [vw]. eapply Hr'; [exact Ht|]. intros [= E1 E2]. destruct (Hhit E1 E2) as (-> & ? & ?). by apply Hc.
  - destruct (decide (k = S l ∧ sp = sp0 ∧ pxl va (Z.of_nat k) = px0 * 512 + i0)) as [(-> & -> & Hpx)|Hne].
    + rewrite decide_True by done. f_equal. rewrite pxl_step in Hpx by lia.
      pose proof (IDX_range va (Z.of_nat (S l)) ltac:(lia)).
      destruct (split_eq (pxl va (Z.of_nat (S l) + 1)) px0 (IDX va (Z.of_nat (S l))) i0) as [E1 E2]; [lia|lia|lia|].
      eapply sh_inj; [exact Hsh|exact Ht|]. rewrite Ht0. by rewrite E1.
    + destruct (way_rd _ _ _ _ Ht) as [e He].
      assert (rdm r' (t, IDX va (Z.of_nat (S l))) = Some e) as He'.
      { rewrite <- He. eapply Hr'; [exact Ht|]. intros [= E1 E2]. subst t i0. unfold onway in Ht. rewrite Ht0 in Ht.
        injection Ht as <- -> ->. apply Hne. split_and!; [done|done|]. by rewrite pxl_step by lia. }
      cbn [vw]. rewrite He, He'. cbn [mbind option_bind]. destruct (has e PTE_P) eqn:Ep.
      * rewrite (IH _ sp va Hu (way_down _ _ _ _ _ Hu Ht He Ep)). apply decide_ext. split.
        -- intros (? & ? & ?). split_and!; [lia|done|done].
        -- intros (? & ? & ?). split_and!; [|done|done]. destruct (decide (k = S l)) as [E|]; [|lia]. by destruct Hne.
      * match goal with |- context [decide ?P] => destruct (decide P) as [Hc|]; [|done] end. exfalso. destruct Hc as (Hk & -> & Hpx).
        assert (k ≤ l)%nat by (destruct (decide (k = S l)) as [E|]; [by destruct Hne|lia]).
        pose proof (sh_level _ _ _ _ Hsh _ _ _ _ Ht).
        assert (onway own sp0 va k t0) as Hw.
        { unfold onway. rewrite Ht0. rewrite pxl_step in Hpx by lia. pose proof (IDX_range va (Z.of_nat k) ltac:(lia)).
          destruct (split_eq (pxl va (Z.of_nat k + 1)) px0 (IDX va (Z.of_nat k)) i0) as [E1 _]; [lia|lia|lia|].
          by rewrite E1. }
        destruct (way_above _ _ _ l _ Hw) as [c Hcw]; [lia|].
        destruct (way_up _ _ _ _ Hcw) as (t' & e' & Ht' & He1 & Hp1 & _); [lia|].
        assert (t' = t) as -> by (eapply sh_inj; [exact Hsh|exact Ht'|exact Ht]). congruence.
Qed.

Lemma vw_total lvl t sp va : user va → onway own sp va lvl t → ∃ e, vw lvl r t va = Some e.
Proof using Hsh.
  revert t. induction lvl as [|l IH]; intros t Hu Ht; cbn [vw]; [exact (way_rd sp va O t Ht)|].
  destruct (way_rd _ _ _ _ Ht) as [e He]. rewrite He. cbn. destruct (has e PTE_P) eqn:Ep; [|eauto].
  apply (IH _ Hu). by eapply way_down.
Qed.
Definition lfset (p : Z * Z) (v : Z) : gmap (Z * Z) Z := if counted pool v then <[p := v]> lf else delete p lf.

Lemma shape_leaf t i e v sp px :
  own !! t = Some (sp, O, px) → rdm r (t, i) = Some e → shape pool (upd r (t, i) v) own (lfset (t, i) v).
Proof using Hsh.
  intros Ht He. assert (∀ t' x j, own !! t' = Some (x, j) → x.2 ≠ O → ∀ k, rdm (upd r (t, i) v) (t', k) = rdm r (t', k)) as Hup.
  { intros t' x j Ht' Hx k. rewrite (rdm_upd _ _ _ _ _ He), decide_False; [done|]. intros [= -> ->].
    rewrite Ht in Ht'. injection Ht' as <- <-. done. }
  split.
  - intros t' x Ht'. destruct (sh_table _ _ _ _ Hsh _ _ Ht') as (? & l & Hl & Hlen). split; [done|].
    destruct (upd_table _ (t, i) v _ _ Hl) as (l' & ? & ?). exists l'. split; [done|]. congruence.
  - apply (sh_inj _ _ _ _ Hsh).
  - intros t' sp' lvl px' j x Ht' Hj Hx Hp. rewrite (Hup _ _ _ Ht') in Hx by done. by eapply sh_node.
  - intros t' sp' lvl px' Ht' Hl. destruct (sh_up _ _ _ _ Hsh _ _ _ _ Ht' Hl) as (u & pu & j & x & Hu & ? & ? & ? & Hx & ? & ?).
    exists u, pu, j, x. split_and!; try done; try lia. by rewrite (Hup _ _ _ Hu).
  - apply (sh_level _ _ _ _ Hsh).
  - apply (sh_root _ _ _ _ Hsh).
  - intros q x. rewrite (rdm_upd _ _ _ _ _ He). unfold lfset. destruct (decide (q = (t, i))) as [->|Hq].
    + destruct (counted pool v) eqn:Ec.
      * rewrite lookup_insert_eq. split; [intros [= <-]; split_and!; [done|done|by exists sp, px]|]. by intros (_ & [= <-] & _).
      * rewrite lookup_delete_eq. split; [done|]. intros (? & [= <-] & _). congruence.
    + assert ((if counted pool v then <[(t, i):=v]> lf else delete (t, i) lf) !! q = lf !! q) as ->.
      { destruct (counted pool v); [by rewrite lookup_insert_ne|by rewrite lookup_delete_ne]. }
      apply (sh_leaf _ _ _ _ Hsh).
Qed.

Lemma shape_node t i e v sp l px :
  own !! t = Some (sp, S l, px) → rdm r (t, i) = Some e → has e PTE_P = false → has v PTE_P = false →
  shape pool (upd r (t, i) v) own lf.
Proof using Hsh.
  intros Ht He Hp Hv. split.
  - intros t' x Ht'. destruct (sh_table _ _ _ _ Hsh _ _ Ht') as (? & l' & Hl & Hlen). split; [done|].
    destruct (upd_table _ (t, i) v _ _ Hl) as (l'' & ? & ?). exists l''. split; [done|]. congruence.
  - apply (sh_inj _ _ _ _ Hsh).
  - intros t' sp' lvl px' j x Ht' Hj Hx Hpx. rewrite (rdm_upd _ _ _ _ _ He) in Hx. case_decide; [congruence|].
    by eapply sh_node.
  - intros t' sp' lvl px' Ht' Hl. destruct (sh_up _ _ _ _ Hsh _ _ _ _ Ht' Hl) as (u & pu & j & x & Hu & ? & ? & ? & Hx & ? & ?).
    exists u, pu, j, x. split_and!; try done; try lia. rewrite (rdm_upd _ _ _ _ _ He), decide_False; [done|].
    intros [= -> ->]. congruence.
  - apply (sh_level _ _ _ _ Hsh).
  - apply (sh_root _ _ _ _ Hsh).
  - intros q x. rewrite (rdm_upd _ _ _ _ _ He). rewrite (sh_leaf _ _ _ _ Hsh). destruct (decide (q = (t, i))) as [->|]; [|done].
    cbn. rewrite Ht. naive_solver.
Qed.

Lemma shape_new n page t i e v sp l px :
  own !! n = None → is_page n → own !! t = Some (sp, S l, px) → 0 ≤ i < 512 → (l = 2%nat → i < 256) →
  rdm r (t, i) = Some e → has e PTE_P = false → length page = 512%nat →
  Forall (λ x, has x PTE_P = false ∧ counted pool x = false) page → has v PTE_P = true → addr v = n →
  shape pool (upd (<[n := page]> r) (t, i) v) (<[n := (sp, l, px * 512 + i)]> own) lf.
Proof using Hsh.
  intros Hn Hpage Ht Hi Hi2 He Hp Hlen Hall Hv Hav.
  assert (t ≠ n) as Htn by congruence.
  assert (∀ t' j, t' ≠ n → rdm (<[n := page]> r) (t', j) = rdm r (t', j)) as Hr1.
  { intros t' j Hne. unfold rdm. cbn. by rewrite lookup_insert_ne. }
  assert (rdm (<[n := page]> r) (t, i) = Some e) as He1 by (by rewrite Hr1).
  assert (∀ j x, rdm (<[n := page]> r) (n, j) = Some x → has x PTE_P = false ∧ counted pool x = false) as Hnp.
  { intros j x. unfold rdm. cbn. rewrite lookup_insert_eq. cbn. intros Hx%arr_get_elem. by rewrite Forall_forall in Hall; apply Hall. }
  assert (∀ u x, own !! u = Some x → <[n := (sp, l, px * 512 + i)]> own !! u = Some x) as Hown.
  { intros u x Hu. rewrite lookup_insert_ne; [done|congruence]. }
  split.
  - intros t' x. destruct (decide (t' = n)) as [->|Hne].
    + intros _. split; [done|]. destruct (upd_table (<[n := page]> r) (t, i) v n page) as (l' & ? & ?).
      * by rewrite lookup_insert_eq.
      * exists l'. split; [done|]. congruence.
    + rewrite lookup_insert_ne by done. intros Ht'. destruct (sh_table _ _ _ _ Hsh _ _ Ht') as (? & l' & Hl & Hlen'). split; [done|].
      destruct (upd_table (<[n := page]> r) (t, i) v t' l') as (l'' & ? & ?); [by rewrite lookup_insert_ne|].
      exists l''. split; [done|]. congruence.
  - assert (∀ u, own !! u = Some (sp, l, px * 512 + i) → False) as Hnew.
    { intros u Hu. pose proof (sh_level _ _ _ _ Hsh _ _ _ _ Ht).
      destruct (sh_up _ _ _ _ Hsh _ _ _ _ Hu) as (t' & px' & j & x & Ht' & Hpx & Hj & _ & Hx & Hxp & _); [lia|].
      destruct (split_eq px px' i j Hi Hj Hpx) as [<- <-].
      assert (t' = t) as -> by (eapply sh_inj; [exact Hsh|exact Ht'|exact Ht]). congruence. }
    intros u u' x. destruct (decide (u = n)) as [->|], (decide (u' = n)) as [->|];
      rewrite ?lookup_insert_eq, ?lookup_insert_ne by done; intros E1 E2; try done.
    + injection E1 as <-. by destruct (Hnew _ E2).
    + injection E2 as <-. by destruct (Hnew _ E1).
    + by eapply sh_inj.
  - intros t' sp' lvl px' j x. destruct (decide (t' = n)) as [->|Hne].
    + intros _ _ Hx Hxp. rewrite (rdm_upd _ _ _ _ _ He1), decide_False in Hx by congruence. destruct (Hnp _ _ Hx). congruence.
    + rewrite lookup_insert_ne by done. intros Ht' Hj Hx Hxp. rewrite (rdm_upd _ _ _ _ _ He1) in Hx. case_decide as Hd.
      * injection Hx as <-. injection Hd as -> ->. rewrite Ht in Ht'. injection Ht' as <- <- <-. by rewrite Hav, lookup_insert_eq.
      * rewrite Hr1 in Hx by done. apply Hown. by eapply sh_node.
  - intros t' sp' lvl px'. destruct (decide (t' = n)) as [->|Hne].
    + rewrite lookup_insert_eq. intros [= <- <- <-] _. exists t, px, i, v. split_and!; try done; try lia.
      * by apply Hown.
      * by rewrite (rdm_upd _ _ _ _ _ He1), decide_True.
    + rewrite lookup_insert_ne by done. intros Ht' Hl.
      destruct (sh_up _ _ _ _ Hsh _ _ _ _ Ht' Hl) as (u & pu & j & x & Hu & ? & ? & ? & Hx & ? & ?).
      exists u, pu, j, x. split_and!; try done; try lia; [by apply Hown|].
      rewrite (rdm_upd _ _ _ _ _ He1), decide_False; [|intros [= -> ->]; congruence].
      rewrite Hr1; [done|congruence].
  - intros t' sp' lvl px'. destruct (decide (t' = n)) as [->|Hne].
    + rewrite lookup_insert_eq. intros [= <- <- <-]. pose proof (sh_level _ _ _ _ Hsh _ _ _ _ Ht). lia.
    + rewrite lookup_insert_ne by done. apply (sh_level _ _ _ _ Hsh).
  - intros t' sp' lvl px'. destruct (decide (t' = n)) as [->|Hne].
    + rewrite lookup_insert_eq. intros [= <- <- <-]. eapply Hown, sh_root; [exact Hsh|exact Ht].
    + rewrite lookup_insert_ne by done. intros Ht'. eapply Hown, sh_root; [exact Hsh|exact Ht'].
  - intros q x. rewrite (rdm_upd _ _ _ _ _ He1), (sh_leaf _ _ _ _ Hsh). destruct (decide (q = (t, i))) as [->|Hq].
    { cbn. rewrite Ht, lookup_insert_ne, Ht by done. naive_solver. }
    destruct q as [u j]. cbn [fst]. destruct (decide (u = n)) as [->|Hu].
    + rewrite Hn. split; [naive_solver|]. intros (Hc & Hx & _). destruct (Hnp _ _ Hx). congruence.
    + by rewrite Hr1, lookup_insert_ne.
Qed.
End shapes.

(** Memory that agrees on the tables has the same shape. *)
Lemma shape_other pool r r' own lf :
  shape pool r own lf → (∀ t x, own !! t = Some x → r' !! t = r !! t) → shape pool r' own lf.
Proof.
  intros H Hr. assert (∀ t x i, own !! t = Some x → rdm r' (t, i) = rdm r (t, i)) as Hrd.
  { intros t x i Ht. unfold rdm. cbn. by rewrite (Hr _ _ Ht). }
  split; try apply H.
  - intros t x Ht. rewrite (Hr _ _ Ht). by eapply sh_table.
  - intros t sp lvl px i e Ht Hi He Hp. rewrite (Hrd _ _ _ Ht) in He. by eapply sh_node.
  - intros t sp lvl px Ht Hl. destruct (sh_up _ _ _ _ H _ _ _ _ Ht Hl) as (u & pu & j & x & Hu & ? & ? & ? & Hx & ? & ?).
    exists u, pu, j, x. split_and!; try done; try lia. by rewrite (Hrd _ _ _ Hu).
  - intros [t i] e. rewrite (sh_leaf _ _ _ _ H). cbn. split; intros (Hc & He & sp & px & Ht).
    + split_and!; [done|by rewrite (Hrd _ _ _ Ht)|by exists sp, px].
    + split_and!; [done|by rewrite <- (Hrd _ _ _ Ht)|by exists sp, px].
Qed.

Lemma vw_other r r' own lf pool lvl t sp va :
  shape pool r own lf → (∀ t x, own !! t = Some x → r' !! t = r !! t) → user va → onway own sp va lvl t →
  vw lvl r' t va = vw lvl r t va.
Proof.
  intros H Hr Hu. revert t. induction lvl as [|l IH]; intros t Ht; cbn [vw].
  - unfold rdm. cbn. by rewrite (Hr _ _ Ht).
  - destruct (way_rd H _ _ _ _ Ht) as [e He].
    assert (rdm r' (t, IDX va (Z.of_nat (S l))) = Some e) as He' by (rewrite <- He; unfold rdm; cbn; by rewrite (Hr _ _ Ht)).
    rewrite He, He'. cbn [mbind option_bind]. destruct (has e PTE_P) eqn:Ep; [|done].
    apply IH. by eapply (way_down H).
Qed.

Lemma upd_same r p v : rdm r p = Some v → upd r p v = r.
Proof.
  unfold rdm, upd. destruct (r !! p.1) as [l|] eqn:E; [|done]. cbn. intros [_ H]%arr_get_Some.
  rewrite list_insert_id by done. by apply insert_id.
Qed.

(** ** The invariant *)

(** The frames and the backing pages that the mapped entries hold. *)
Definition frames_of (pool : Z → bool) (lf : gmap (Z * Z) Z) : list Z := omap (fr_of pool) (map_to_list lf).*2.
Definition backs_of (lf : gmap (Z * Z) Z) : list (bool * Z) := omap bk_of (map_to_list lf).*2.

Lemma omap_perm {A C} (f : A → option C) l k : l ≡ₚ k → omap f l ≡ₚ omap f k.
Proof.
  induction 1 as [|x l k _ IH|x y l|l k m _ IH1 _ IH2]; cbn.
  - done.
  - destruct (f x); by rewrite IH.
  - destruct (f x), (f y); try done. constructor.
  - by rewrite IH1.
Qed.

(** An optional element, as a list. *)
Definition olist {A} (o : option A) : list A := match o with Some x => [x] | None => [] end.

Lemma omap_cons {A C} (f : A → option C) x l : omap f (x :: l) = olist (f x) ++ omap f l.
Proof. cbn. by destruct (f x). Qed.

(** One entry out, another in. *)
Lemma lf_entry {C} (f : Z → option C) pool r own lf t i e sp px :
  shape pool r own lf → own !! t = Some (sp, O, px) → rdm r (t, i) = Some e →
  (counted pool e = false → f e = None) →
  omap f (map_to_list lf).*2 ≡ₚ olist (f e) ++ omap f (map_to_list (delete (t, i) lf)).*2.
Proof.
  intros H Ht He Hf. destruct (counted pool e) eqn:Ec.
  - assert (lf !! (t, i) = Some e) as Hl by (apply (sh_leaf _ _ _ _ H); split_and!; [done|done|by exists sp, px]).
    pose proof (map_to_list_delete lf (t, i) e Hl) as Hp. apply (fmap_Permutation snd) in Hp. apply (omap_perm f) in Hp.
    rewrite <- Hp. rewrite fmap_cons, omap_cons. done.
  - rewrite Hf by done. cbn. rewrite delete_id; [done|].
    destruct (lf !! (t, i)) as [x|] eqn:El; [|done]. apply (sh_leaf _ _ _ _ H) in El as (? & ? & _). congruence.
Qed.

Lemma lf_set {C} (f : Z → option C) pool lf p v :
  (counted pool v = false → f v = None) →
  omap f (map_to_list (@lfset pool lf p v)).*2 ≡ₚ olist (f v) ++ omap f (map_to_list (delete p lf)).*2.
Proof.
  intros Hf. unfold lfset. destruct (counted pool v) eqn:Ec.
  - rewrite <- insert_delete_eq. rewrite map_to_list_insert by apply lookup_delete_eq. rewrite fmap_cons, omap_cons. done.
  - rewrite Hf by done. done.
Qed.

Lemma counted_fr pool e : counted pool e = false → fr_of pool e = None.
Proof. unfold counted. intros [H _]%orb_false_iff. apply bool_decide_eq_false in H. by apply eq_None_not_Some. Qed.

Lemma counted_bk pool e : counted pool e = false → bk_of e = None.
Proof. unfold counted. intros [_ H]%orb_false_iff. apply bool_decide_eq_false in H. by apply eq_None_not_Some. Qed.

(** What the backing store promises: a page that is held can be given back and
    shared. *)
Class BackingLaws (B : Type) `{!Backing B} := {
  held : B → list (bool * Z) → Prop;
  held_perm :: Proper ((=) ==> (≡ₚ) ==> iff) held;
  put_swap b a h : held b ((true, a) :: h) → ∃ b', swap_put b (Z.shiftr a 12) = Some b' ∧ held b' h;
  put_shm b e h : held b ((false, addr e) :: h) → ∃ b', shm_lz_put b e = Some b' ∧ held b' h;
  dup_swap b a h : (true, a) ∈ h → held b h → ∃ b', swap_dup b (Z.shiftr a 12) = Some b' ∧ held b' ((true, a) :: h);
  dup_shm b e h : (false, addr e) ∈ h → held b h → ∃ b', shm_lz_dup b e = Some b' ∧ held b' ((false, addr e) :: h)
}.

Record ghost := Gh { own : gmap Z place; lf : gmap (Z * Z) Z; ext : list Z }.

Section invariant.
Context {B : Type} `{!Backing B, !BackingLaws B}.
Context (pool : Z → bool).

Definition tables (o : gmap Z place) : list Z := (map_to_list o).*1.

(** Everybody that holds frames: the tables, the mapped pages, the frames that
    wait to be freed, the rest of the kernel. *)
Definition holders (s : @vs B) (g : ghost) : list Z :=
  tables (own g) ++ frames_of pool (lf g) ++ List.filter pool (dfr s) ++ ext g.

(** A writable page that is not shared is the only user of its frame. *)
Definition private (e : Z) : bool := has e PTE_RW && negb (has e PTE_SHARED).

(** Only frames of the pool are copied on a write. *)
Definition cow_ok (e : Z) : Prop := has e PTE_P = true → has e PTE_COW = true → pool (addr e) = true.

Record ok (s : @vs B) (g : ghost) : Prop := {
  ok_pool : pool_inv (pm s);
  ok_ours : ∀ fr, 0 ≤ fr → ours (pm s) fr = Some (pool fr);
  ok_shape : shape pool (ram (pm s)) (own g) (lf g);
  ok_link : link (refs (pm s)) (holders s g);
  ok_disj : ∀ t x, own g !! t = Some x → t ∉ frames_of pool (lf g) ++ List.filter pool (dfr s) ++ ext g;
  ok_back : held (bk s) (backs_of (lf g));
  ok_excl : ∀ p e fr, lf g !! p = Some e → fr_of pool e = Some fr → private e = true → refs (pm s) fr = 1;
  ok_wait : Forall (λ f, 0 ≤ f) (dfr s);
  ok_cow : ∀ t i sp px e, own g !! t = Some (sp, O, px) → rd s (t, i) = Some e → cow_ok e
}.
Implicit Types (s : @vs B) (g : ghost).

Lemma link_perm r h h' : link r h → h ≡ₚ h' → link r h'.
Proof. intros H Hp t. rewrite <- (occ_perm t _ _ Hp). apply H. Qed.

(** A frame that is held is in the pool and counted. *)
Lemma held_refs s g fr : ok s g → fr ∈ holders s g → 0 < refs (pm s) fr.
Proof. intros H Hin. eapply link_held; [apply H|done]. Qed.

Lemma refs_page s g fr : ok s g → 0 < refs (pm s) fr → is_page fr.
Proof.
  intros H Hp. destruct (frame_cell _ _ (ok_pool _ _ H) Hp) as (x & Hx & Hr & _ & Hm & _).
  pose proof (pfn_pos _ _ _ (ok_pool _ _ H) Hx ltac:(lia)) as Hi. pose proof (pi_max _ (ok_pool _ _ H)).
  split; [done|]. rewrite Z.shiftr_div_pow2 in Hi by lia. Z.div_mod_to_equations. lia.
Qed.

Lemma held_pool s g fr : ok s g → fr ∈ holders s g → pool fr = true ∧ is_page fr.
Proof.
  intros H Hin. pose proof (held_refs _ _ _ H Hin) as Hp. pose proof (refs_page _ _ _ H Hp) as Hpg. split; [|done].
  destruct (frame_cell _ _ (ok_pool _ _ H) Hp) as (x & _ & _ & _ & _ & Ho).
  pose proof (ok_ours _ _ H fr ltac:(unfold is_page in Hpg; lia)). congruence.
Qed.

Lemma free_not_held s g fr : ok s g → refs (pm s) fr = 0 → fr ∉ holders s g.
Proof. intros H. apply link_free, H. Qed.

Lemma own_held s g t x : ok s g → own g !! t = Some x → t ∈ holders s g.
Proof.
  intros H Ht. unfold holders, tables. apply elem_of_app. left. apply list_elem_of_fmap. exists (t, x).
  split; [done|]. by apply elem_of_map_to_list.
Qed.

(** ** The pool behind the tables *)

(** Only the pool changed. *)
Definition pool_only s s' : Prop :=
  bk s' = bk s ∧ fc s' = fc s ∧ dfr s' = dfr s ∧ sd_defer s' = sd_defer s ∧ sd_need s' = sd_need s ∧ sd_pd s' = sd_pd s.

Lemma alloc_ok s g : ok s g → ∃ fr s', alloc s = Some (fr, s') ∧ pool_only s s' ∧ log s' = log s ∧
  ((fr = 0 ∧ s' = s ∧ pool_free (pm s) = 0) ∨
   (is_page fr ∧ pool fr = true ∧ (fr ∉ holders s g) ∧ ram (pm s') = <[fr := zero_page]> (ram (pm s)) ∧
    refs (pm s') fr = 1 ∧ ok s' {| g with ext := fr :: ext g |})).
Proof.
  intros H. unfold alloc. destruct (pmm_alloc_spec (pm s) (ok_pool _ _ H)) as (fr & m & E & Hi & Hc). rewrite E.
  cbn [mbind option_bind]. exists fr, {| s with pm := m |}. split; [done|]. split; [done|]. split; [done|].
  destruct Hc as [(-> & -> & Hf)|(Hp & Hm & Hmax & Hz & Hx & Hram & _ & _ & _ & _ & Ht)].
  { left. split_and!; [done|by destruct s|done]. }
  right. pose proof (free_not_held _ _ _ H Hz) as Hnh.
  assert (is_page fr) as Hpg.
  { pose proof (pi_max _ (ok_pool _ _ H)). split; [done|]. split; [done|].
    rewrite Z.shiftr_div_pow2 in Hmax by lia. unfold PAGE_SIZE in Hm. Z.div_mod_to_equations. lia. }
  assert (∀ f, ours m f = ours (pm s) f) as Ho by (eapply pmm_alloc_ours; [exact E|apply H]).
  assert (pool fr = true) as Hpl.
  { pose proof (ok_ours _ _ H fr ltac:(lia)) as Hof. unfold ours in Hof. rewrite (proj2 (Z.ltb_lt _ _)), Hx in Hof by lia.
    cbn in Hof. congruence. }
  split_and!; [done|done|done|done|by cbn; rewrite Ht, decide_True|]. split; cbn [pm bk own lf ext].
  - done.
  - intros f Hf. rewrite Ho. by apply H.
  - rewrite Hram. eapply shape_other; [apply H|]. intros t x Hown. apply lookup_insert_ne.
    intros ->. apply Hnh. by eapply own_held.
  - eapply link_perm; [eapply effect_link; [|apply H]|].
    + apply (Refs.take _ _ _ [fr]); [apply NoDup_singleton|set_solver|]. intros u. rewrite Ht.
      by do 2 case_decide; try set_solver.
    + unfold holders. cbn [own lf ext dfr]. cbn [app]. rewrite !app_assoc. apply Permutation_middle.
  - intros t x Hown. pose proof (ok_disj _ _ H _ _ Hown) as Hd. cbn [dfr ext]. intros Hin. apply Hd.
    rewrite !elem_of_app, elem_of_cons in *. destruct Hin as [?|[?|[->|?]]]; try tauto.
    destruct Hnh. by eapply own_held.
  - apply H.
  - intros p e f Hl He Hpr. rewrite Ht, decide_False; [by eapply (ok_excl _ _ H)|]. intros ->.
    pose proof (ok_excl _ _ H _ _ _ Hl He Hpr). lia.
  - apply H.
  - intros t i sp px e Hown He. eapply (ok_cow _ _ H); [exact Hown|]. rewrite <- He. unfold rd. cbn [fst pm]. rewrite Hram.
    rewrite lookup_insert_ne; [done|]. intros ->. apply Hnh. by eapply own_held.
Qed.

Definition with_ram (m : pmm) (r : gmap Z (list Z)) : pmm := {| m with ram := r |}.

Lemma pool_inv_ram m r : pool_inv m → pool_inv (with_ram m r).
Proof. intros []. by split. Qed.

Lemma with_ram_id m : with_ram m (ram m) = m.
Proof. by destruct m. Qed.

(** A write, and a write that invalidates. *)
Lemma wr_spec s p e v : rd s p = Some e →
  wr s p v = Some {| s with pm := with_ram (pm s) (upd (ram (pm s)) p v) |}.
Proof.
  intros He. unfold wr, rd in *. destruct (ram (pm s) !! p.1) as [l|] eqn:El; [|done]. cbn [mbind option_bind] in *.
  pose proof (arr_get_range _ _ _ He) as Hr.
  destruct (l.[p.2 <- v]) as [l'|] eqn:Es; cbn [mbind option_bind].
  - apply arr_set_Some in Es as [_ ->]. unfold set_ram, upd, with_ram. by rewrite El.
  - unfold arr_set in Es. rewrite (proj2 (Z.leb_le _ _)), (proj2 (Z.ltb_lt _ _)) in Es by lia. done.
Qed.

(** The tables changed as given; what else [pte_put] touches is the log and the
    need of a shootdown. *)
Definition tables_only s s' m : Prop :=
  pm s' = m ∧ bk s' = bk s ∧ fc s' = fc s ∧ dfr s' = dfr s ∧ sd_defer s' = sd_defer s ∧ sd_pd s' = sd_pd s.

Context (smp : bool).

Lemma pte_put_spec s p va v e : rd s p = Some e →
  ∃ s', pte_put smp s p va v = Some s' ∧ tables_only s s' (with_ram (pm s) (upd (ram (pm s)) p v)).
Proof.
  intros He. unfold pte_put. rewrite He. cbn [mbind option_bind]. destruct (e =? v) eqn:E; bools.
  - subst e. exists s. split; [done|]. split_and!; try done. by rewrite upd_same, with_ram_id.
  - rewrite (wr_spec _ _ _ v He). cbn [mbind option_bind]. eexists. split; [done|].
    unfold tlb_inval. destruct (has _ _), smp; cbn; try done. by destruct (nz _).
Qed.

Lemma perm_mid {A} (a b c d : list A) : a ++ (b ++ c) ++ d ≡ₚ b ++ a ++ c ++ d.
Proof. rewrite <- !app_assoc. rewrite (app_assoc a b), (Permutation_app_comm a b), <- app_assoc. done. Qed.

Lemma occ_two fr h h' : h ≡ₚ fr :: h' → fr ∈ h' → 2 ≤ occ fr h.
Proof. intros Hp Hin. rewrite (occ_perm _ _ _ Hp), occ_cons, Z.eqb_refl. pose proof (occ_pos _ _ Hin). cbn. lia. Qed.

Lemma link_one r h fr h' : link r h → r fr = 1 → h ≡ₚ fr :: h' → fr ∉ h'.
Proof. intros Hl H1 Hp Hin. pose proof (occ_two _ _ _ Hp Hin). destruct (Hl fr); lia. Qed.

(** The references of an entry are given up. *)
Lemma drop_ok s g t i sp px e :
  ok s g → own g !! t = Some (sp, O, px) → rd s (t, i) = Some e →
  ∃ s', pte_drop s e = Some s' ∧ ram (pm s') = ram (pm s) ∧ pool_inv (pm s') ∧ (∀ f, ours (pm s') f = ours (pm s) f) ∧
    fc s' = fc s ∧ dfr s' = dfr s ∧ sd_defer s' = sd_defer s ∧ sd_pd s' = sd_pd s ∧
    (∀ u, refs (pm s') u = match fr_of pool e with Some fr => if decide (u = fr) then lower (refs (pm s) fr) else refs (pm s) u
                           | None => refs (pm s) u end) ∧
    held (bk s') (backs_of (delete (t, i) (lf g))) ∧ pool_free (pm s) ≤ pool_free (pm s').
Proof.
  intros H Ht He. assert (backs_of (lf g) ≡ₚ olist (bk_of e) ++ backs_of (delete (t, i) (lf g))) as Hb.
  { eapply lf_entry; [apply H|exact Ht|exact He|apply counted_bk]. }
  assert (frames_of pool (lf g) ≡ₚ olist (fr_of pool e) ++ frames_of pool (delete (t, i) (lf g))) as Hf.
  { eapply lf_entry; [apply H|exact Ht|exact He|apply counted_fr]. }
  pose proof (ok_back _ _ H) as Hback. rewrite Hb in Hback.
  generalize dependent (frames_of pool (delete (t, i) (lf g))). intros F0 Hf.
  unfold pte_drop, bk_of, fr_of in *. destruct (has e PTE_P) eqn:Ep.
  - cbn [olist app] in Hback. assert (0 ≤ addr e) as Ha by (unfold addr; apply Z.land_nonneg; right; done).
    unfold unref. destruct (pool (addr e)) eqn:Epl; cbn [andb].
    + destruct (pmm_unref_spec (pm s) (addr e) (ok_pool _ _ H)) as (m & Em & Hi & Hram & Hr).
      { eapply held_refs; [done|]. unfold holders. apply elem_of_app; right. apply elem_of_app; left.
        rewrite Hf. by left. }
      rewrite Em. cbn [mbind option_bind]. eexists. split; [done|]. cbn. split_and!; try done.
      * eapply pmm_unref_ours; [exact Em|apply H].
      * eapply pmm_unref_free; [exact Em|apply H].
    + pose proof (ok_ours _ _ H (addr e) Ha) as Ho. rewrite Epl in Ho.
      destruct (pmm_foreign _ _ Ho) as (_ & -> & _). cbn [mbind option_bind]. eexists. split; [done|]. cbn. split_and!; try done.
      apply H.
  - cbn [andb]. unfold pte_rel, SLOT. destruct (has e PTE_SWAP) eqn:Es; [|destruct (has e PTE_SHL) eqn:El].
    + destruct (put_swap _ _ _ Hback) as (b & -> & Hb'). eexists. split; [done|]. cbn. split_and!; try done. apply H.
    + destruct (put_shm _ e _ Hback) as (b & -> & Hb'). eexists. split; [done|]. cbn. split_and!; try done. apply H.
    + exists s. split_and!; try done. apply H.
Qed.

(** An entry gives way to another, whose frame was held from outside. *)
Lemma replace_ok s g t i sp px e v X s1 s2 :
  ok s g → own g !! t = Some (sp, O, px) → rd s (t, i) = Some e → bk_of v = None →
  ext g ≡ₚ olist (fr_of pool v) ++ X →
  (∀ fr, private v = true → fr_of pool v = Some fr → refs (pm s) fr = 1) → cow_ok v →
  pte_drop s e = Some s1 →
  pm s2 = with_ram (pm s1) (upd (ram (pm s)) (t, i) v) → bk s2 = bk s1 → dfr s2 = dfr s →
  ok s2 (Gh (own g) (@lfset pool (lf g) (t, i) v) X).
Proof.
  intros H Ht He Hbk Hext Hpr Hcow Hdrop E1 E2 E3.
  destruct (drop_ok _ _ _ _ _ _ _ H Ht He) as (s1' & Hd & Hram & Hi & Ho & _ & _ & _ & _ & Hr & Hheld & _).
  rewrite Hdrop in Hd. injection Hd as <-.
  assert (frames_of pool (lf g) ≡ₚ olist (fr_of pool e) ++ frames_of pool (delete (t, i) (lf g))) as Hf.
  { eapply lf_entry; [apply H|exact Ht|exact He|apply counted_fr]. }
  assert (frames_of pool (@lfset pool (lf g) (t, i) v) ≡ₚ olist (fr_of pool v) ++ frames_of pool (delete (t, i) (lf g))) as Hf'.
  { apply lf_set, counted_fr. }
  set (F0 := frames_of pool (delete (t, i) (lf g))) in *.
  assert (holders s g ≡ₚ olist (fr_of pool e) ++ tables (own g) ++ frames_of pool (@lfset pool (lf g) (t, i) v) ++ List.filter pool (dfr s) ++ X) as Hh.
  { unfold holders. rewrite Hf, Hf', Hext. rewrite perm_mid. apply Permutation_app_head, Permutation_app_head.
    rewrite !app_assoc. apply Permutation_app_tail. rewrite <- app_assoc, (Permutation_app_comm F0), <- app_assoc.
    rewrite (app_assoc (List.filter pool (dfr s))), (Permutation_app_comm (List.filter pool (dfr s)) (olist _)). rewrite <- !app_assoc. apply Permutation_app_head.
    by rewrite Permutation_app_comm. }
  assert (∀ u, refs (pm s2) u = refs (pm s1) u) as Hr2 by (intros u; by rewrite E1).
  assert (∀ fr h', fr_of pool e = Some fr → refs (pm s) fr = 1 → holders s g ≡ₚ fr :: h' → fr ∉ h') as Hone.
  { intros fr h' _ H1 Hp. eapply link_one; [apply H|done|done]. }
  split; cbn [own lf ext].
  - rewrite E1. by apply pool_inv_ram.
  - intros f Hfp. rewrite E1. change (ours (with_ram (pm s1) _) f) with (ours (pm s1) f). rewrite Ho. by apply H.
  - rewrite E1. cbn [ram with_ram]. eapply shape_leaf; [apply H|exact Ht|exact He].
  - unfold holders. cbn [own lf ext]. rewrite E3.
    assert (link (refs (pm s1)) (tables (own g) ++ frames_of pool (@lfset pool (lf g) (t, i) v) ++ List.filter pool (dfr s) ++ X)) as Hlk.
    { destruct (fr_of pool e) as [fr|] eqn:Ef; cbn [olist] in Hh.
      - eapply effect_link; [|apply H]. eapply put; [exact Hh|]. intros u. apply Hr.
      - apply (link_perm _ (holders s g)); [|exact Hh]. intros u. rewrite Hr. apply H. }
    intros u. rewrite Hr2. apply Hlk.
  - intros t' x Ht' Hin. apply (ok_disj _ _ H _ _ Ht'). rewrite E3 in Hin. rewrite Hf' in Hin. rewrite Hf, Hext.
    rewrite !elem_of_app in *. tauto.
  - rewrite E2. unfold backs_of. rewrite (lf_set bk_of pool (lf g) (t, i) v (counted_bk pool v)), Hbk. exact Hheld.
  - intros q x fr Hq Hx Hp. rewrite Hr2, Hr. destruct (decide (q = (t, i))) as [->|Hne].
    + assert (x = v) as ->.
      { unfold lfset in Hq. destruct (counted pool v); [rewrite lookup_insert_eq in Hq; congruence|by rewrite lookup_delete_eq in Hq]. }
      pose proof (Hpr _ Hp Hx) as H1. destruct (fr_of pool e) as [fe|] eqn:Ef; [|done]. rewrite decide_False; [done|]. intros ->.
      eapply (Hone fe); [done|done|exact Hh|]. rewrite Hf'. rewrite Hx. rewrite !elem_of_app. set_solver.
    + assert (lf g !! q = Some x) as Hq0.
      { unfold lfset in Hq. destruct (counted pool v); [by rewrite lookup_insert_ne in Hq|by rewrite lookup_delete_ne in Hq]. }
      pose proof (ok_excl _ _ H _ _ _ Hq0 Hx Hp) as H1. destruct (fr_of pool e) as [fe|] eqn:Ef; [|done].
      rewrite decide_False; [done|]. intros ->. eapply (Hone fe); [done|done|exact Hh|].
      rewrite Hf'. rewrite !elem_of_app. right. left. right. unfold F0, frames_of.
      apply list_elem_of_omap. exists x. split; [|done]. apply list_elem_of_fmap. exists (q, x). split; [done|].
      apply elem_of_map_to_list. by rewrite lookup_delete_ne.
  - rewrite E3. apply H.
  - intros t' j sp' px' x Ht' Hx. unfold rd in Hx. rewrite E1 in Hx. cbn [ram with_ram] in Hx.
    change (rdm (upd (ram (pm s)) (t, i) v) (t', j) = Some x) in Hx. rewrite (rdm_upd _ _ _ _ _ He) in Hx.
    case_decide; [by injection Hx as <-|]. by eapply (ok_cow _ _ H).
Qed.

(** The flags of an entry change, not what it holds. *)
Lemma mark_ok s g t i sp px e v s2 :
  ok s g → own g !! t = Some (sp, O, px) → rd s (t, i) = Some e → fr_of pool v = fr_of pool e → bk_of v = bk_of e →
  (∀ fr, private v = true → fr_of pool v = Some fr → refs (pm s) fr = 1) → cow_ok v →
  pm s2 = with_ram (pm s) (upd (ram (pm s)) (t, i) v) → bk s2 = bk s → dfr s2 = dfr s →
  ok s2 (Gh (own g) (@lfset pool (lf g) (t, i) v) (ext g)).
Proof.
  intros H Ht He Hfv Hbv Hpr Hcow E1 E2 E3.
  assert (frames_of pool (@lfset pool (lf g) (t, i) v) ≡ₚ frames_of pool (lf g)) as Hf.
  { unfold frames_of. rewrite (lf_set _ pool (lf g) (t, i) v (counted_fr pool v)), Hfv.
    by rewrite (lf_entry (fr_of pool) pool _ _ _ t i e sp px (ok_shape _ _ H) Ht He (counted_fr pool e)). }
  assert (backs_of (@lfset pool (lf g) (t, i) v) ≡ₚ backs_of (lf g)) as Hb.
  { unfold backs_of. rewrite (lf_set _ pool (lf g) (t, i) v (counted_bk pool v)), Hbv.
    by rewrite (lf_entry bk_of pool _ _ _ t i e sp px (ok_shape _ _ H) Ht He (counted_bk pool e)). }
  split; cbn [own lf ext].
  - rewrite E1. apply pool_inv_ram, H.
  - intros f Hfp. rewrite E1. by apply (ok_ours _ _ H).
  - rewrite E1. cbn [ram with_ram]. eapply shape_leaf; [apply H|exact Ht|exact He].
  - rewrite E1. apply (link_perm _ (holders s g)); [apply H|]. unfold holders. cbn [own lf ext]. by rewrite Hf, E3.
  - intros t' x Ht'. rewrite Hf, E3. by eapply (ok_disj _ _ H).
  - rewrite E2, Hb. apply H.
  - intros q x fr Hq Hx Hp. rewrite E1. change (refs (with_ram (pm s) _) fr) with (refs (pm s) fr).
    destruct (decide (q = (t, i))) as [->|Hne].
    + assert (x = v) as ->; [|by eapply Hpr].
      unfold lfset in Hq. destruct (counted pool v); [rewrite lookup_insert_eq in Hq; congruence|by rewrite lookup_delete_eq in Hq].
    + eapply (ok_excl _ _ H q x); [|done|done].
      unfold lfset in Hq. destruct (counted pool v); [by rewrite lookup_insert_ne in Hq|by rewrite lookup_delete_ne in Hq].
  - rewrite E3. apply H.
  - intros t' j sp' px' x Ht' Hx. unfold rd in Hx. rewrite E1 in Hx. cbn [ram with_ram] in Hx.
    change (rdm (upd (ram (pm s)) (t, i) v) (t', j) = Some x) in Hx. rewrite (rdm_upd _ _ _ _ _ He) in Hx.
    case_decide; [by injection Hx as <-|]. by eapply (ok_cow _ _ H).
Qed.

(** An entry of an upper table that is not present changes to another. *)
Lemma node_ok s g t i sp l px e v s2 :
  ok s g → own g !! t = Some (sp, S l, px) → rd s (t, i) = Some e → has e PTE_P = false → has v PTE_P = false →
  pm s2 = with_ram (pm s) (upd (ram (pm s)) (t, i) v) → bk s2 = bk s → dfr s2 = dfr s → ok s2 g.
Proof.
  intros H Ht He Hp Hv E1 E2 E3. split.
  - rewrite E1. apply pool_inv_ram, H.
  - intros f Hfp. rewrite E1. by apply (ok_ours _ _ H).
  - rewrite E1. cbn [ram with_ram]. eapply shape_node; [apply H|exact Ht|exact He|done|done].
  - rewrite E1. unfold holders. rewrite E3. apply H.
  - intros t' x Ht'. rewrite E3. by eapply (ok_disj _ _ H).
  - rewrite E2. apply H.
  - intros q x fr Hq Hx Hpr. rewrite E1. by eapply (ok_excl _ _ H).
  - rewrite E3. apply H.
  - intros t' j sp' px' x Ht' Hx. unfold rd in Hx. rewrite E1 in Hx. cbn [ram with_ram] in Hx.
    change (rdm (upd (ram (pm s)) (t, i) v) (t', j) = Some x) in Hx. rewrite (rdm_upd _ _ _ _ _ He) in Hx.
    case_decide; [congruence|]. by eapply (ok_cow _ _ H).
Qed.

Definition table_entry (n : Z) : Z := Z.lor (Z.lor (Z.lor n PTE_P) PTE_RW) PTE_US.

Lemma table_entry_spec n : is_page n → has (table_entry n) PTE_P = true ∧ addr (table_entry n) = n.
Proof.
  intros Hn. unfold table_entry. rewrite <- !Z.lor_assoc. split; [by rewrite has_lor|].
  by rewrite addr_lor by (done || by apply addr_low).
Qed.

(** A page with nothing mapped, and what a walk that ends in it sees. *)
Definition blank (page : list Z) : Prop :=
  length page = 512%nat ∧ Forall (λ x, has x PTE_P = false ∧ counted pool x = false) page.

Lemma blank_zero : blank zero_page.
Proof. split; [done|]. apply Forall_replicate. done. Qed.

Lemma blank_lazy : blank (replicate 512 PTE_LAZY).
Proof. split; [done|]. apply Forall_replicate. done. Qed.

Lemma new_table_ok s g t i sp l px e page :
  ok s g → own g !! t = Some (sp, S l, px) → 0 ≤ i < 512 → (l = 2%nat → i < 256) →
  rd s (t, i) = Some e → has e PTE_P = false → blank page →
  ∃ o s', new_table s (t, i) page = Some (o, s') ∧ pool_only s s' ∧ log s' = log s ∧
    match o with
    | None => s' = s ∧ pool_free (pm s) = 0
    | Some n => is_page n ∧ own g !! n = None ∧
        ram (pm s') = upd (<[n := page]> (ram (pm s))) (t, i) (table_entry n) ∧
        ok s' (Gh (<[n := (sp, l, px * 512 + i)]> (own g)) (lf g) (ext g))
    end.
Proof.
  intros H Ht Hi Hi2 He Hp [Hlen Hblank]. unfold new_table.
  destruct (alloc_ok s g H) as (n & s1 & -> & Hpo & Hlog & Hc). cbn [mbind option_bind].
  destruct Hc as [(-> & -> & Hf)|(Hpg & Hpl & Hnh & Hram & Href & H1)]; [by eexists _, s|].
  rewrite (proj2 (Z.eqb_neq n 0)) by (unfold is_page in Hpg; lia).
  assert (own g !! n = None) as Hno.
  { destruct (own g !! n) eqn:E; [|done]. destruct Hnh. by eapply own_held. }
  assert (t ≠ n) as Htn by congruence.
  set (s2 := set_ram s1 n page).
  assert (rd s2 (t, i) = Some e) as He2.
  { rewrite <- He. unfold rd, s2, set_ram. cbn. rewrite lookup_insert_ne by done. rewrite Hram. by rewrite lookup_insert_ne. }
  fold (table_entry n). rewrite (wr_spec _ _ _ (table_entry n) He2). cbn [mbind option_bind].
  eexists _, _. split; [done|]. split; [exact Hpo|]. split; [exact Hlog|].
  destruct (table_entry_spec n Hpg) as [Hv Hav].
  assert (ram (pm s2) = <[n := page]> (ram (pm s))) as Hram2.
  { unfold s2, set_ram. cbn. rewrite Hram. apply insert_insert_eq. }
  cbn [pm ram with_ram]. rewrite Hram2. split_and!; [done|done|done|]. split; cbn [own lf ext pm bk with_ram].
  - apply (pool_inv_ram (pm s2)). unfold s2, set_ram. cbn. apply (pool_inv_ram (pm s1)), H1.
  - intros f Hfp. by apply (ok_ours _ _ H1).
  - cbn [ram]. by eapply shape_new; [apply H|..].
  - apply (link_perm _ (holders s1 {| g with ext := n :: ext g |})); [apply H1|]. unfold holders, tables. cbn [own lf ext dfr].
    rewrite map_to_list_insert by done. cbn. rewrite !app_assoc. symmetry. apply Permutation_middle.
  - intros t' x Ht'. pose proof (proj1 (proj2 (proj2 Hpo))) as Hdf. change (dfr s2) with (dfr s1). rewrite Hdf.
    destruct (decide (t' = n)) as [->|Hne].
    + intros Hin. apply Hnh. unfold holders. apply elem_of_app. by right.
    + rewrite lookup_insert_ne in Ht' by done. by eapply (ok_disj _ _ H).
  - apply H1.
  - intros q x fr. apply (ok_excl _ _ H1).
  - apply H1.
  - intros t' j sp' px' x Ht' Hx.
    change (rdm (upd (<[n := page]> (ram (pm s))) (t, i) (table_entry n)) (t', j) = Some x) in Hx.
    assert (rdm (<[n := page]> (ram (pm s))) (t, i) = Some e) as He3 by (rewrite <- Hram2; exact He2).
    rewrite (rdm_upd _ _ _ _ _ He3) in Hx. destruct (decide (t' = n)) as [->|Hne].
    + rewrite decide_False in Hx by congruence. unfold rdm in Hx. cbn [fst snd] in Hx. rewrite lookup_insert_eq in Hx. cbn in Hx.
      apply arr_get_elem in Hx. rewrite Forall_forall in Hblank. destruct (Hblank x Hx) as [Hnp _]. intros Hxp. congruence.
    + rewrite lookup_insert_ne in Ht' by done. case_decide as Hd.
      * injection Hd as -> ->. rewrite Ht in Ht'. congruence.
      * eapply (ok_cow _ _ H); [exact Ht'|]. rewrite <- Hx. unfold rd, rdm. cbn [fst]. by rewrite lookup_insert_ne.
Qed.

(** ** Walks *)

(** No space maps anything else than before. *)
Definition keeps_view (r r' : gmap Z (list Z)) (o : gmap Z place) : Prop :=
  ∀ lvl t sp va, user va → onway o sp va lvl t → vw lvl r' t va = vw lvl r t va.

Lemma onway_mono o o' sp va lvl t : o ⊆ o' → onway o sp va lvl t → onway o' sp va lvl t.
Proof. intros Ho H. by eapply lookup_weaken. Qed.

Lemma keeps_view_trans r1 r2 r3 o o' :
  o ⊆ o' → keeps_view r1 r2 o → keeps_view r2 r3 o' → keeps_view r1 r3 o.
Proof.
  intros Ho H1 H2 lvl t sp va Hu Ht. rewrite (H2 lvl t sp va Hu); [by eapply H1|by eapply onway_mono].
Qed.

Lemma vw_blank r n l va x :
  r !! n = Some (replicate 512 x) → has x PTE_P = false → (x = 0 ∨ l = O) → vw l r n va = Some x.
Proof.
  intros Hn Hx Hc. assert (∀ lvl, 0 ≤ lvl → rdm r (n, IDX va lvl) = Some x) as Hrd.
  { intros lvl Hl. unfold rdm. cbn [fst snd]. rewrite Hn. cbn [mbind option_bind]. apply arr_get_Some. pose proof (IDX_range va lvl Hl).
    split; [lia|]. apply lookup_replicate. split; [done|]. lia. }
  destruct l as [|l]; cbn [vw]; rewrite Hrd by lia; [done|]. cbn [mbind option_bind]. rewrite Hx.
  destruct Hc as [->|]; [|done]. by rewrite andb_false_r.
Qed.

(** A table made on the way, which maps what its entry did. *)
Lemma new_table_view r o l0 t i sp l px e n x :
  shape pool r o l0 → o !! t = Some (sp, S l, px) → 0 ≤ i < 512 → rdm r (t, i) = Some e → has e PTE_P = false →
  o !! n = None → is_page n → has x PTE_P = false → (x = 0 ∨ l = O) →
  x = (if (Z.of_nat (S l) =? 1) && has e PTE_LAZY then PTE_LAZY else 0) →
  keeps_view r (upd (<[n := replicate 512 x]> r) (t, i) (table_entry n)) o.
Proof.
  intros H Ht Hi He Hp Hn Hpg Hx Hxl Hold lvl t' sp' va Hu Ht'. destruct (table_entry_spec n Hpg) as [Hv Hav].
  assert (t ≠ n) as Htn by congruence.
  assert (rdm (<[n := replicate 512 x]> r) (t, i) = Some e) as He1 by (unfold rdm in *; cbn in *; by rewrite lookup_insert_ne).
  rewrite (vw_change H (upd (<[n := replicate 512 x]> r) (t, i) (table_entry n)) sp (S l) px t i e Ht Hi He (or_intror Hp)) with (sp := sp'); [| |done|done].
  2:{ intros u y j Hu' Hne. rewrite (rdm_upd _ _ _ _ _ He1), decide_False by done. unfold rdm. cbn.
      rewrite lookup_insert_ne; [done|congruence]. }
  pose proof (vw_change H r sp (S l) px t i e Ht Hi He (or_intror Hp) (λ _ _ _ _ _, eq_refl) lvl t' sp' va Hu Ht') as Hsame.
  destruct (decide (_ ∧ _ ∧ _)) as [Hc|]; [|done]. rewrite Hsame.
  destruct Hc as (Hk & -> & Hpx). cbn [vw].
  assert (IDX va (Z.of_nat (S l)) = i) as ->.
  { rewrite pxl_step in Hpx by lia. pose proof (IDX_range va (Z.of_nat (S l)) ltac:(lia)). lia. }
  rewrite (rdm_upd _ _ _ _ _ He1), decide_True, He by done. cbn [mbind option_bind]. rewrite Hv, Hav, Hp, <- Hold.
  apply vw_blank; [|done|done]. rewrite upd_other by done. by rewrite lookup_insert_eq.
Qed.

(** What a walk promises. *)
Record walked s g s' g' : Prop := {
  wk_ok : ok s' g';
  wk_only : pool_only s s';
  wk_log : log s' = log s;
  wk_own : own g ⊆ own g';
  wk_lf : lf g' = lf g;
  wk_ext : ext g' = ext g;
  wk_view : keeps_view (ram (pm s)) (ram (pm s')) (own g);
  wk_ram : ∀ f, own g' !! f = None → ram (pm s') !! f = ram (pm s) !! f
}.

Lemma walked_refl s g : ok s g → walked s g s g.
Proof. intros H. by split. Qed.

Lemma walked_trans s1 g1 s2 g2 s3 g3 : walked s1 g1 s2 g2 → walked s2 g2 s3 g3 → walked s1 g1 s3 g3.
Proof.
  intros [K1 P1 L1 O1 F1 X1 V1 R1] [K2 P2 L2 O2 F2 X2 V2 R2]. split; [done| | | | | | |].
  - unfold pool_only in *. intuition congruence.
  - congruence.
  - by etrans.
  - congruence.
  - congruence.
  - by eapply keeps_view_trans.
  - intros f Hf. rewrite R2, R1; [done| |done]. by eapply lookup_weaken_None.
Qed.

Lemma new_table_walked s g t i sp l px e x :
  ok s g → own g !! t = Some (sp, S l, px) → 0 ≤ i < 512 → (l = 2%nat → i < 256) →
  rd s (t, i) = Some e → has e PTE_P = false → has x PTE_P = false → counted pool x = false → (x = 0 ∨ l = O) →
  x = (if (Z.of_nat (S l) =? 1) && has e PTE_LAZY then PTE_LAZY else 0) →
  ∃ o s', new_table s (t, i) (replicate 512 x) = Some (o, s') ∧
    match o with
    | None => s' = s ∧ pool_free (pm s) = 0
    | Some n => is_page n ∧ ∃ g', walked s g s' g' ∧ own g' !! n = Some (sp, l, px * 512 + i)
    end.
Proof.
  intros H Ht Hi Hi2 He Hp Hx Hc Hxl Hold.
  destruct (new_table_ok s g t i sp l px e (replicate 512 x) H Ht Hi Hi2 He Hp) as (o & s' & E & Hpo & Hlog & Ho).
  { split; [by rewrite length_replicate|]. by apply Forall_replicate. }
  exists o, s'. split; [done|]. destruct o as [n|]; [|done]. destruct Ho as (Hpg & Hno & Hram & Hok). split; [done|].
  eexists. split; [split; [exact Hok|done|done|by apply insert_subseteq|done|done| |]|apply lookup_insert_eq].
  - rewrite Hram. by eapply new_table_view; [apply H|..].
  - intros f Hf. cbn [own] in Hf. apply lookup_insert_None in Hf as [Hf Hfn]. rewrite Hram.
    rewrite upd_other; [by rewrite lookup_insert_ne|]. cbn. intros ->. congruence.
Qed.

Lemma pte_walk_ok lvl s g t sp va create :
  ok s g → user va → onway (own g) sp va lvl t →
  ∃ o s' g', pte_walk lvl s t va create = Some (o, s') ∧ walked s g s' g' ∧
    match o with
    | Some p => ∃ u, p = (u, IDX va 0) ∧ onway (own g') sp va 0 u
    | None => (create = false ∧ vw lvl (ram (pm s)) t va = Some 0) ∨
        (pool_free (pm s') = 0 ∧ (create = false → vw lvl (ram (pm s)) t va = Some PTE_LAZY ∧
           ∃ u e, onway (own g) sp va 1 u ∧ rd s (u, IDX va 1) = Some e ∧ has e PTE_P = false ∧ has e PTE_LAZY = true))
    end.
Proof.
  revert s g t. induction lvl as [|l IH]; intros s g t H Hu Ht; cbn [pte_walk].
  { eexists _, s, g. split; [done|]. split; [by apply walked_refl|]. by exists t. }
  destruct (way_rd (ok_shape _ _ H) _ _ _ _ Ht) as [e He]. change (rdm (ram (pm s))) with (rd s) in He. rewrite He. cbn [mbind option_bind].
  pose proof (IDX_range va (Z.of_nat (S l)) ltac:(lia)) as Hi.
  destruct (has e PTE_P) eqn:Ep.
  { pose proof (way_down (ok_shape _ _ H) _ _ _ _ _ Hu Ht He Ep) as Hdown.
    destruct (IH s g (addr e) H Hu Hdown) as (o & s' & g' & E & Hw & Ho).
    exists o, s', g'. split; [done|]. split; [done|]. destruct o; [done|]. cbn [vw].
    change (rdm (ram (pm s))) with (rd s). rewrite He. cbn [mbind option_bind]. by rewrite Ep. }
  assert (∀ x, (has x PTE_P = false) → counted pool x = false → (x = 0 ∨ l = O) →
    x = (if (Z.of_nat (S l) =? 1) && has e PTE_LAZY then PTE_LAZY else 0) →
    ∃ o s', new_table s (t, IDX va (Z.of_nat (S l))) (replicate 512 x) = Some (o, s') ∧
      match o with
      | None => s' = s ∧ pool_free (pm s) = 0
      | Some n => is_page n ∧ ∃ g', walked s g s' g' ∧ onway (own g') sp va l n
      end) as Hnew.
  { intros x H1 H2 H3 H4. destruct (new_table_walked s g t _ sp l _ e x H Ht Hi (user_top va l Hu) He Ep H1 H2 H3 H4) as (o & s' & E & Ho).
    exists o, s'. split; [done|]. destruct o as [n|]; [|done]. destruct Ho as (Hpg & g' & Hw & Hn). split; [done|].
    exists g'. split; [done|]. unfold onway. rewrite pxl_step by lia. by replace (Z.of_nat l + 1) with (Z.of_nat (S l)) by lia. }
  assert (∀ n, is_page n → addr (table_entry n) = n) as Hte by (intros n Hn; apply (table_entry_spec n Hn)).
  destruct ((Z.of_nat (S l) =? 1) && has e PTE_LAZY) eqn:Ez.
  - bools. assert (l = O) as -> by lia.
    destruct (Hnew PTE_LAZY) as (o & s1 & -> & Ho); [done|done|by right|done|]. cbn [mbind option_bind].
    destruct o as [n|].
    2:{ destruct Ho as [-> Hf]. eexists _, s, g. split; [done|]. split; [by apply walked_refl|]. right. split; [done|].
        match goal with Hz : has e PTE_LAZY = true |- _ => rename Hz into Hlz end.
        intros _. split; [|by exists t, e]. cbn [vw]. change (rdm (ram (pm s))) with (rd s). rewrite He. cbn [mbind option_bind].
        by rewrite Ep, Hlz. }
    destruct Ho as (Hpg & g1 & Hw1 & Hn1). cbn [pte_walk]. eexists _, s1, g1. split; [done|]. split; [done|]. by exists n.
  - destruct create; cbn [negb].
    + destruct (Hnew 0) as (o & s1 & E1 & Ho); [done|done|by left|done|]. unfold zero_page. rewrite E1. cbn [mbind option_bind].
      destruct o as [n|]; [|destruct Ho as [-> Hf]; eexists _, s, g; split; [done|]; split; [by apply walked_refl|by right]].
      destruct Ho as (Hpg & g1 & Hw1 & Hn1). fold (table_entry n). rewrite (Hte n Hpg).
      destruct (IH s1 g1 n (wk_ok _ _ _ _ Hw1) Hu Hn1) as (o & s' & g' & E & Hw & Ho).
      exists o, s', g'. split; [done|]. split; [by eapply walked_trans|]. destruct o; [done|].
      destruct Ho as [[? _]|[? _]]; [done|by right].
    + eexists _, s, g. split; [done|]. split; [by apply walked_refl|]. left. split; [done|]. cbn [vw].
      change (rdm (ram (pm s))) with (rd s). rewrite He. cbn [mbind option_bind]. by rewrite Ep, Ez.
Qed.

(** ** Pages *)

(** The entry of an address and what its frame holds. *)
Definition view s (sp va : Z) : Z := default 0 (vw 3 (ram (pm s)) sp va).
Definition page s (sp va : Z) : Z * option (list Z) :=
  let e := view s sp va in (e, if has e PTE_P then ram (pm s) !! addr e else None).

Definition rooted g (sp : Z) : Prop := own g !! sp = Some (sp, 3%nat, 0).

Lemma rooted_way g sp va : rooted g sp → user va → onway (own g) sp va 3 sp.
Proof.
  intros H Hu. unfold onway. rewrite H. unfold pxl, user in *. rewrite Z.div_small; [done|]. cbn. lia.
Qed.

(** A slot on the way to an address is what the space maps there. *)
Lemma vw_slot r o l0 lvl t sp va u :
  shape pool r o l0 → user va → onway o sp va lvl t → onway o sp va 0 u → vw lvl r t va = rdm r (u, IDX va 0).
Proof.
  intros H Hu Ht Hw. destruct (way_rd H _ _ _ _ Hw) as [e He]. change (Z.of_nat 0) with 0 in He.
  rewrite (vw_change H r sp O (pxl va 1) u (IDX va 0) e Hw (IDX_range va 0 ltac:(lia)) He (or_introl eq_refl)
             (λ _ _ _ _ _, eq_refl) lvl t sp va Hu Ht).
  rewrite decide_True; [done|]. split; [lia|]. split; [done|]. by rewrite pxl_step by lia.
Qed.

Lemma vw_present r o l0 lvl t sp va e :
  shape pool r o l0 → user va → onway o sp va lvl t → vw lvl r t va = Some e → has e PTE_P = true →
  ∃ u, onway o sp va 0 u ∧ rdm r (u, IDX va 0) = Some e.
Proof.
  intros H Hu. revert t. induction lvl as [|l IH]; intros t Ht Hv Hp; cbn [vw] in Hv; [by exists t|].
  destruct (way_rd H _ _ _ _ Ht) as [x Hx]. rewrite Hx in Hv. cbn [mbind option_bind] in Hv.
  destruct (has x PTE_P) eqn:Ex.
  - apply (IH (addr x)); [by eapply (way_down H)|done|done].
  - injection Hv as <-. by destruct (_ && _).
Qed.

Lemma view_total s g sp va : ok s g → rooted g sp → user va → vw 3 (ram (pm s)) sp va = Some (view s sp va).
Proof.
  intros H Hr Hu. destruct (vw_total (ok_shape _ _ H) 3 sp sp va Hu (rooted_way _ _ _ Hr Hu)) as [e He].
  unfold view. by rewrite He.
Qed.

Lemma addr_nonneg e : 0 ≤ addr e.
Proof. unfold addr. apply Z.land_nonneg. by right. Qed.

(** A mapped frame is no table, and no frame that is free. *)
Lemma mapped_frame s g sp va :
  ok s g → rooted g sp → user va → has (view s sp va) PTE_P = true →
  own g !! addr (view s sp va) = None ∧ (pool (addr (view s sp va)) = true → addr (view s sp va) ∈ frames_of pool (lf g)).
Proof.
  intros H Hr Hu Hp. pose proof (view_total _ _ _ _ H Hr Hu) as Hv.
  destruct (vw_present _ _ _ _ _ _ _ _ (ok_shape _ _ H) Hu (rooted_way _ _ _ Hr Hu) Hv Hp) as (u & Hw & He).
  set (e := view s sp va) in *.
  assert (pool (addr e) = true → addr e ∈ frames_of pool (lf g)) as Hf.
  { intros Hpl. unfold frames_of. apply list_elem_of_omap. exists e. unfold fr_of. rewrite Hp, Hpl. split; [|done].
    apply list_elem_of_fmap. exists ((u, IDX va 0), e). split; [done|]. apply elem_of_map_to_list.
    apply (sh_leaf _ _ _ _ (ok_shape _ _ H)). split_and!; [|done|by eexists _, _].
    unfold counted, fr_of. by rewrite Hp, Hpl. }
  split; [|done]. destruct (own g !! addr e) as [x|] eqn:Eo; [|done].
  destruct (held_pool _ _ _ H (own_held _ _ _ _ H Eo)) as [Hpl _].
  destruct (ok_disj _ _ H _ _ Eo). apply elem_of_app. left. by apply Hf.
Qed.

(** A walk keeps every page. *)
Lemma walked_page s g s' g' sp va : ok s g → walked s g s' g' → rooted g sp → user va → page s' sp va = page s sp va.
Proof.
  intros H Hw Hr Hu. unfold page. assert (view s' sp va = view s sp va) as E.
  { unfold view. rewrite (wk_view _ _ _ _ Hw 3%nat sp sp va Hu (rooted_way _ _ _ Hr Hu)). done. }
  cbv zeta. rewrite E. destruct (has (view s sp va) PTE_P) eqn:Ep; [|done]. f_equal.
  apply (wk_ram _ _ _ _ Hw). rewrite <- E. eapply mapped_frame; [apply Hw| |done|by rewrite E].
  eapply lookup_weaken; [exact Hr|apply Hw].
Qed.

(** The same page of the same space. *)
Definition same_page (sp va sp' va' : Z) : Prop := sp' = sp ∧ pxl va' 0 = pxl va 0.

(** One slot changes; a frame that nobody held may change too. *)
Lemma leaf_page s g s' sp va u v r1 :
  ok s g → user va → onway (own g) sp va 0 u →
  ram (pm s') = upd r1 (u, IDX va 0) v →
  (∀ f, r1 !! f ≠ ram (pm s) !! f → pool f = true ∧ f ∉ holders s g) →
  ∀ sp' va', rooted g sp' → user va' →
    if decide (same_page sp va sp' va') then view s' sp' va' = v else page s' sp' va' = page s sp' va'.
Proof.
  intros H Hu Hw Hram Hr1 sp' va' Hr' Hu'. pose proof (ok_shape _ _ H) as Hsh.
  destruct (way_rd Hsh _ _ _ _ Hw) as [e He]. change (Z.of_nat 0) with 0 in He.
  assert (∀ t x, own g !! t = Some x → r1 !! t = ram (pm s) !! t) as Hown.
  { intros t x Ht. destruct (decide (r1 !! t = ram (pm s) !! t)) as [|Hne]; [done|].
    destruct (Hr1 _ Hne) as [_ Hnh]. destruct Hnh. by eapply own_held. }
  assert (rdm r1 (u, IDX va 0) = Some e) as He1 by (rewrite <- He; unfold rdm; cbn; by rewrite (Hown _ _ Hw)).
  assert (vw 3 (ram (pm s')) sp' va' = if decide (same_page sp va sp' va') then Some v else vw 3 (ram (pm s)) sp' va') as Hvw.
  { rewrite (vw_change Hsh (ram (pm s')) sp O (pxl va 1) u (IDX va 0) e Hw (IDX_range va 0 ltac:(lia)) He (or_introl eq_refl))
      with (sp := sp'); [| |done|by apply rooted_way].
    - assert (((0 ≤ 3)%nat ∧ sp' = sp ∧ pxl va' (Z.of_nat 0) = pxl va 1 * 512 + IDX va 0) ↔ same_page sp va sp' va') as Hiff.
      { unfold same_page. change (Z.of_nat 0) with 0. rewrite (pxl_step va 0) by lia. change (0 + 1) with 1. split; [tauto|].
        intros [? ?]. split; [lia|done]. }
      destruct (decide (same_page _ _ _ _)) as [Hs|Hs].
      + rewrite decide_True by (by apply Hiff). cbn [vw]. destruct Hs as [-> Hs].
        assert (IDX va' 0 = IDX va 0) as ->.
        { rewrite !IDX_spec by lia. unfold pxl in Hs. change (12 + 9 * 0) with 12 in *. by rewrite Hs. }
        by rewrite Hram, (rdm_upd _ _ _ _ _ He1), decide_True.
      + rewrite decide_False; [done|]. by rewrite Hiff.
    - intros t x j Ht Hne. rewrite Hram, (rdm_upd _ _ _ _ _ He1), decide_False by done. unfold rdm. cbn. by rewrite (Hown _ _ Ht). }
  destruct (decide (same_page _ _ _ _)) as [Hs|Hs].
  - unfold view. by rewrite Hvw.
  - assert (view s' sp' va' = view s sp' va') as E by (unfold view; by rewrite Hvw).
    unfold page. cbv zeta. rewrite E. destruct (has (view s sp' va') PTE_P) eqn:Ep; [|done]. f_equal.
    destruct (mapped_frame _ _ _ _ H Hr' Hu' Ep) as [Hno Hin]. rewrite Hram, upd_other.
    + destruct (decide (r1 !! addr (view s sp' va') = ram (pm s) !! addr (view s sp' va'))) as [|Hne]; [done|].
      destruct (Hr1 _ Hne) as [Hpl Hnh]. destruct Hnh. unfold holders. rewrite !elem_of_app. right. left. by apply Hin.
    + cbn [fst]. intros Hx. unfold onway in Hw. rewrite Hx in Hno. congruence.
Qed.

(** ** Ranges *)

(** What an operation does to the pages of [lo, hi) of a space, as a relation
    between a page before and after; every other page of every space stays. *)
Record paged (R : Z * option (list Z) → Z * option (list Z) → Prop) (sp lo hi : Z) s g s' g' : Prop := {
  pg_ok : ok s' g';
  pg_own : own g ⊆ own g';
  pg_ext : ext g' = ext g;
  pg_out : ∀ sp' va, user va → rooted g sp' → ¬ (sp' = sp ∧ lo ≤ va < hi) → page s' sp' va = page s sp' va;
  pg_in : ∀ va, user va → lo ≤ va < hi → R (page s sp va) (page s' sp va)
}.

Lemma rooted_mono g g' sp : own g ⊆ own g' → rooted g sp → rooted g' sp.
Proof. intros H Hr. by eapply lookup_weaken. Qed.

Lemma paged_refl R sp lo hi s g : ok s g → hi ≤ lo → paged R sp lo hi s g s g.
Proof. intros H Hle. split; try done. intros. lia. Qed.

Lemma paged_trans R sp lo mid hi s g s1 g1 s2 g2 :
  rooted g sp → lo ≤ mid → mid ≤ hi →
  paged R sp lo mid s g s1 g1 → paged R sp mid hi s1 g1 s2 g2 → paged R sp lo hi s g s2 g2.
Proof.
  intros Hr Hl Hm [K1 O1 X1 P1 I1] [K2 O2 X2 P2 I2]. split; [done|by etrans|congruence| |].
  - intros sp' va Hu Hr' Hn. rewrite P2; [apply P1; [done|done|]|done|by eapply rooted_mono|]; intros [? ?]; apply Hn; split; done || lia.
  - intros va Hu Hva. destruct (decide (va < mid)).
    + rewrite (P2 sp va Hu); [apply I1; [done|lia]|by eapply rooted_mono|]. intros [_ ?]. lia.
    + rewrite <- (P1 sp va Hu Hr); [apply I2; [done|lia]|]. intros [_ ?]. lia.
Qed.

(** A walk before it. *)
Lemma paged_walked R sp lo hi s g s1 g1 s2 g2 :
  ok s g → rooted g sp → walked s g s1 g1 → paged R sp lo hi s1 g1 s2 g2 → paged R sp lo hi s g s2 g2.
Proof.
  intros H Hr Hw [K2 O2 X2 P2 I2]. pose proof (wk_own _ _ _ _ Hw) as Ho. split; [done|by etrans| | |].
  - rewrite X2. apply Hw.
  - intros sp' va Hu Hr' Hn. rewrite P2; [by eapply walked_page|done|by eapply rooted_mono|done].
  - intros va Hu Hva. rewrite <- (walked_page _ _ _ _ sp va H Hw Hr Hu). by apply I2.
Qed.

(** Pages that are as the relation wants them. *)
Lemma paged_still R sp lo hi s g s' g' :
  ok s g → rooted g sp → walked s g s' g' → (∀ va, user va → lo ≤ va < hi → R (page s sp va) (page s sp va)) →
  paged R sp lo hi s g s' g'.
Proof.
  intros H Hr Hw HR. split; [apply Hw|apply Hw|apply Hw| |].
  - intros sp' va Hu Hr' _. by eapply walked_page.
  - intros va Hu Hva. rewrite (walked_page _ _ _ _ sp va H Hw Hr Hu). by apply HR.
Qed.

Lemma paged_weaken (R R' : Z * option (list Z) → Z * option (list Z) → Prop) sp lo hi s g s' g' :
  (∀ x y, R x y → R' x y) → paged R sp lo hi s g s' g' → paged R' sp lo hi s g s' g'.
Proof. intros HR [K O X P I]. split; try done. intros va Hu Hva. by apply HR, I. Qed.

Definition aligned (a : Z) : Prop := a mod 4096 = 0.

Lemma page_of_aligned a va : aligned a → pxl va 0 = pxl a 0 ↔ a ≤ va < a + 4096.
Proof. intros Ha. unfold pxl, aligned in *. change (2 ^ (12 + 9 * 0)) with 4096. Z.div_mod_to_equations. lia. Qed.

(** One slot of one page, written. *)
Lemma leaf_paged R s g s' g' sp a u v r1 :
  ok s g → user a → aligned a → onway (own g) sp a 0 u → rooted g sp →
  ok s' g' → own g' = own g → ext g' = ext g →
  ram (pm s') = upd r1 (u, IDX a 0) v →
  (∀ f, r1 !! f ≠ ram (pm s) !! f → pool f = true ∧ f ∉ holders s g) →
  (∀ va, user va → a ≤ va < a + 4096 →
     R (page s sp va) (v, if has v PTE_P then ram (pm s') !! addr v else None)) →
  paged R sp a (a + 4096) s g s' g'.
Proof.
  intros H Hu Ha Hw Hr H' Ho Hx Hram Hr1 HR.
  pose proof (leaf_page _ _ s' sp a u v r1 H Hu Hw Hram Hr1) as Hpage.
  split; [done|by rewrite Ho|done| |].
  - intros sp' va Hva Hr' Hn. specialize (Hpage sp' va Hr' Hva). rewrite decide_False in Hpage; [done|].
    intros [-> Hs]. apply Hn. split; [done|]. by apply page_of_aligned.
  - intros va Hva Hin. specialize (Hpage sp va Hr Hva). rewrite decide_True in Hpage.
    + specialize (HR va Hva Hin). unfold page at 2. rewrite Hpage. exact HR.
    + split; [done|]. by apply page_of_aligned.
Qed.

Lemma aligned_next a : aligned a → aligned (a + 4096).
Proof. unfold aligned. intros. Z.div_mod_to_equations. lia. Qed.

(** What the body of a loop over pages promises: a turn passes pages that it
    leaves as the relation says; or it leaves the loop with [r], for a reason.
    [rich] bodies take a frame at most, and have one. *)
Definition turn_ok (rich : bool) (R : Z * option (list Z) → Z * option (list Z) → Prop) (L : Z → Z → @vs B → Prop)
    (sp e : Z) s g (a : Z) (res : option (option Z * Z * @vs B)) : Prop :=
  ∃ out a' s' g', res = Some (out, a', s') ∧
    match out with
    | None => aligned a' ∧ a ≤ a' ≤ 2 ^ 48 ∧ paged R sp a (Z.min (a' + 4096) e) s g s' g' ∧
        (rich = true → pool_free (pm s) - 1 ≤ pool_free (pm s'))
    | Some r => r ≠ 0 ∧ paged R sp a a s g s' g' ∧ L r a s'
    end.

Definition page_body (rich : bool) (R : Z * option (list Z) → Z * option (list Z) → Prop) (L : Z → Z → @vs B → Prop)
    (sp e : Z) (body : Z → @vs B → option (option Z * Z * @vs B)) : Prop :=
  ∀ a s g, ok s g → rooted g sp → aligned a → USER_BASE ≤ a < e → (rich = true → 0 < pool_free (pm s)) →
    turn_ok rich R L sp e s g a (body a s).

Lemma pages_left e b : aligned e → aligned b → b < e → 1 ≤ (e - b) / 4096.
Proof. unfold aligned. intros. Z.div_mod_to_equations. lia. Qed.

Lemma pages_less e b b' : b ≤ b' → (e - (b' + 4096)) / 4096 ≤ (e - b) / 4096 - 1.
Proof. intros. Z.div_mod_to_equations. lia. Qed.

Lemma for_pages_ok rich R L sp e body a s g :
  page_body rich R L sp e body → ok s g → rooted g sp → aligned a → USER_BASE ≤ a ≤ e → e ≤ 2 ^ 47 → aligned e →
  (rich = true → (e - a) / 4096 ≤ pool_free (pm s)) →
  ∃ r s' g' m, while 52 (page_turn body e) (a, s) = Some (r, s') ∧ a ≤ m ≤ e ∧ paged R sp a m s g s' g' ∧
    ((r = 0 ∧ m = e) ∨ (r ≠ 0 ∧ m < e ∧ L r m s')).
Proof.
  intros Hbody H Hr Ha Hae He Hea Hrich. assert (0 ≤ a) as Ha0 by (unfold USER_BASE in *; lia).
  destruct (while_spec
    (λ '(b, s1), ∃ g1, aligned b ∧ a ≤ b ≤ 2 ^ 49 ∧ paged R sp a (Z.min b e) s g s1 g1 ∧
       (rich = true → (e - b) / 4096 ≤ pool_free (pm s1)))
    (λ '(r, s1), ∃ g1 m, a ≤ m ≤ e ∧ paged R sp a m s g s1 g1 ∧ ((r = 0 ∧ m = e) ∨ (r ≠ 0 ∧ m < e ∧ L r m s1)))
    (λ '(b, _), Z.max 0 (e - b)) (page_turn body e)) with (k := 52%nat) (s := (a, s)) as ([r s'] & E & g' & m & Hm & Hp & Hc).
  - intros [b s1] (g1 & Hb & Hab & Hp & Hfree). cbn [page_turn]. pose proof (pg_own _ _ _ _ _ _ _ _ Hp) as Hown.
    destruct (b <? e) eqn:Eb; bools.
    + rewrite Z.min_l in Hp by lia.
      destruct (Hbody b s1 g1 (pg_ok _ _ _ _ _ _ _ _ Hp)) as (out & b' & s2 & g2 & -> & Hout);
        [by eapply rooted_mono|done|lia| |].
      { intros Hri. specialize (Hfree Hri). pose proof (pages_left e b Hea Hb Eb). lia. }
      cbn [mbind option_bind]. eexists. split; [done|].
      destruct out as [r|].
      * destruct Hout as (Hr0 & Hp2 & HL). exists g2, b. split; [lia|]. split; [|right; split_and!; [done|lia|done]].
        eapply paged_trans; [done| | |exact Hp|exact Hp2]; lia.
      * destruct Hout as (Hb' & Hbb & Hp2 & Hfr). rewrite u64_small by (unfold PAGE_SIZE; lia). unfold PAGE_SIZE. split; [|lia].
        exists g2. split; [by apply aligned_next|]. split; [lia|].
        split; [eapply paged_trans; [done| | |exact Hp|exact Hp2]; lia|].
        intros Hri. specialize (Hfree Hri). specialize (Hfr Hri). pose proof (pages_less e b b' ltac:(lia)). lia.
    + rewrite Z.min_r in Hp by lia. eexists. split; [done|]. exists g1, e. split; [lia|]. split; [done|by left].
  - exists g. split; [done|]. unfold USER_BASE in *. split; [lia|]. split; [apply paged_refl; [done|lia]|done].
  - cbn. unfold USER_BASE in *. lia.
  - exists r, s', g', m. done.
Qed.

Lemma ldiff_page x : Z.ldiff x 4095 = x - x mod 4096.
Proof.
  change 4095 with (Z.ones 12). rewrite Z.ldiff_ones_r, Z.shiftl_mul_pow2, Z.shiftr_div_pow2 by lia.
  change (2 ^ 12) with 4096. Z.div_mod_to_equations. lia.
Qed.

(** The range that is touched: whole pages. *)
Definition lo_of (va : Z) : Z := Z.ldiff va 4095.

Lemma lo_of_spec va : USER_BASE ≤ va → aligned (lo_of va) ∧ USER_BASE ≤ lo_of va ≤ va ∧ va < lo_of va + 4096.
Proof.
  intros Hva. unfold lo_of, aligned, USER_BASE in *. rewrite ldiff_page. Z.div_mod_to_equations. lia.
Qed.

Lemma range_end_spec va len : USER_BASE ≤ va → 0 ≤ len → va + len ≤ USER_TOP →
  aligned (range_end va len) ∧ lo_of va ≤ range_end va len ≤ 2 ^ 47 ∧ va + len ≤ range_end va len < va + len + 4096.
Proof.
  intros Hva Hl Ht. unfold range_end, lo_of, aligned, PAGE_SIZE, USER_BASE, USER_TOP in *. rewrite u64_small by lia.
  rewrite !ldiff_page. Z.div_mod_to_equations. lia.
Qed.

Lemma on_pages_ok rich R L sp body va len s g :
  page_body rich R L sp (range_end va len) body → ok s g → rooted g sp →
  USER_BASE ≤ va → 0 ≤ len → va + len ≤ USER_TOP →
  (rich = true → (range_end va len - lo_of va) / 4096 ≤ pool_free (pm s)) →
  ∃ r s' g' m, on_pages va len body s = Some (r, s') ∧ lo_of va ≤ m ≤ range_end va len ∧
    paged R sp (lo_of va) m s g s' g' ∧
    ((r = 0 ∧ m = range_end va len) ∨ (r ≠ 0 ∧ m < range_end va len ∧ L r m s')).
Proof.
  intros Hb H Hr Hva Hl Ht Hrich. destruct (lo_of_spec va Hva) as (? & ? & ?).
  destruct (range_end_spec va len Hva Hl Ht) as (? & ? & ?).
  apply (for_pages_ok rich R L sp (range_end va len) body (lo_of va) s g); try done; lia.
Qed.

End invariant.

End Vmm.
