(* ===== verification/VmmOps.v ===== *)
(** * Operations on address spaces (src/src/core/vmm.c)

    What the operations of [Vmm] on ranges and pages do to the pages that every
    space maps: the abstract side is a map from a space and an address to an entry
    and the contents of its frame, and an operation is a change of that map on the
    pages of a range. *)

From S2P Require Import Prelude Refs Pmm Vmm.
Import Pmm Vmm.

Module VmmOps.

Section ops.
Context {B : Type} `{!Backing B, !BackingLaws B}.
Context (smp : bool) (pool : Z → bool).
Implicit Types (s : @vs B) (g : ghost).
Abbreviation ok := (ok pool).
Abbreviation cow_ok := (cow_ok pool).
Abbreviation walked := (walked pool).
Abbreviation paged := (paged pool).
Abbreviation turn_ok := (turn_ok pool).
Abbreviation page_body := (page_body pool).

(** ** Walks that make nothing *)

Lemma new_table_free s p pg o s' :
  pool_inv (pm s) → new_table s p pg = Some (o, s') →
  (o = None → s' = s) ∧ pool_free (pm s) - 1 ≤ pool_free (pm s').
Proof.
  intros H E. unfold new_table, alloc in E.
  destruct (pmm_alloc_spec (pm s) H) as (fr & m & Em & _ & Hc). rewrite Em in E. cbn [mbind option_bind] in E.
  destruct Hc as [(-> & -> & _)|(Hp & _ & _ & _ & _ & _ & Hf & _)].
  - injection E as <- <-. split; [intros _; by destruct s|cbn; lia].
  - rewrite (proj2 (Z.eqb_neq fr 0)) in E by lia. inv_some. split; [done|].
    unfold wr, set_ram in *. cbn in *. inv_some. cbn. lia.
Qed.

Lemma pte_walk_free lvl s t va o s' :
  pool_inv (pm s) → pte_walk lvl s t va false = Some (o, s') →
  (o = None → s' = s) ∧ pool_free (pm s) - 1 ≤ pool_free (pm s').
Proof.
  intros H. revert t. induction lvl as [|l IH]; intros t E; cbn [pte_walk] in E.
  { injection E as <- <-. split; [done|lia]. }
  destruct (rd s _) as [e|] eqn:He; cbn [mbind option_bind] in E; [|done].
  destruct (has e PTE_P); [by eapply IH|].
  destruct ((Z.of_nat (S l) =? 1) && has e PTE_LAZY) eqn:Ez; cbn [negb] in E; [|injection E as <- <-; split; [done|lia]].
  bools. assert (l = O) as -> by lia.
  destruct (new_table s _ _) as [[n s1]|] eqn:En; cbn [mbind option_bind] in E; [|done].
  destruct (new_table_free _ _ _ _ _ H En) as [Hs Hf].
  destruct n as [n|]; [|injection E as <- <-; by split; [by intros _; apply Hs|]].
  cbn in E. injection E as <- <-. done.
Qed.

(** The counts of the frames that are held stay. *)
Lemma new_table_refs s p pg o s' u :
  pool_inv (pm s) → new_table s p pg = Some (o, s') → 0 < refs (pm s) u → refs (pm s') u = refs (pm s) u.
Proof.
  intros H E Hu. unfold new_table, alloc in E.
  destruct (pmm_alloc_spec (pm s) H) as (fr & m & Em & _ & Hc). rewrite Em in E. cbn [mbind option_bind] in E.
  destruct Hc as [(-> & -> & _)|(Hp & _ & _ & Hz & _ & _ & _ & _ & _ & _ & Ht)]; [by injection E as <- <-|].
  rewrite (proj2 (Z.eqb_neq fr 0)) in E by lia. inv_some. unfold wr, set_ram in *. cbn in *. inv_some. cbn.
  change (refs m u = refs (pm s) u). rewrite Ht, decide_False; [done|]. intros ->. lia.
Qed.

Lemma pte_walk_refs lvl s t va o s' u :
  pool_inv (pm s) → pte_walk lvl s t va false = Some (o, s') → 0 < refs (pm s) u → refs (pm s') u = refs (pm s) u.
Proof.
  intros H E Hu. revert t E. induction lvl as [|l IH]; intros t E; cbn [pte_walk] in E; [by injection E as <- <-|].
  destruct (rd s _) as [e|] eqn:He; cbn [mbind option_bind] in E; [|done].
  destruct (has e PTE_P); [by eapply IH|].
  destruct ((Z.of_nat (S l) =? 1) && has e PTE_LAZY) eqn:Ez; cbn [negb] in E; [|by injection E as <- <-].
  bools. assert (l = O) as -> by lia.
  destruct (new_table s _ _) as [[n s1]|] eqn:En; cbn [mbind option_bind] in E; [|done].
  pose proof (new_table_refs _ _ _ _ _ _ H En Hu). destruct n as [n|]; cbn in E; by injection E as <- <-.
Qed.

(** What a search for the slot of a page gives. *)
Lemma slot_ok s g sp va create :
  ok s g → rooted g sp → user va →
  ∃ o s' g', pte_slot s sp va create = Some (o, s') ∧ walked s g s' g' ∧
    (create = false → pool_free (pm s) - 1 ≤ pool_free (pm s')) ∧
    match o with
    | Some p => ∃ u, p = (u, IDX va 0) ∧ onway (own g') sp va 0 u ∧ rd s' p = Some (view s sp va)
    | None => (create = false ∧ s' = s ∧ (view s sp va = 0 ∨ (view s sp va = PTE_LAZY ∧ pool_free (pm s) = 0 ∧
        ∃ u e, onway (own g) sp va 1 u ∧ rd s (u, IDX va 1) = Some e ∧ has e PTE_P = false ∧ has e PTE_LAZY = true))) ∨
        (create = true ∧ pool_free (pm s') = 0)
    end.
Proof.
  intros H Hr Hu. pose proof (rooted_way _ _ _ Hr Hu) as Hw.
  destruct (pte_walk_ok pool 3 s g sp sp va create H Hu Hw) as (o & s' & g' & E & Hwk & Ho).
  exists o, s', g'. split; [exact E|]. split; [done|]. split.
  { intros ->. eapply pte_walk_free; [apply H|exact E]. }
  destruct o as [p|].
  - destruct Ho as (u & -> & Hon). exists u. split; [done|]. split; [done|].
    change (rd s' (u, IDX va 0)) with (rdm (ram (pm s')) (u, IDX va 0)).
    assert (rooted g' sp) as Hr' by (eapply rooted_mono; [apply Hwk|done]).
    rewrite <- (vw_slot pool (ram (pm s')) (own g') (lf g') 3 sp sp va u);
      [|apply Hwk|done|by apply rooted_way|done].
    rewrite (wk_view _ _ _ _ _ Hwk 3%nat sp sp va Hu Hw). by eapply view_total.
  - destruct create; [right; split; [done|]; by destruct Ho as [[? _]|[? _]]|].
    left. split; [done|]. destruct (pte_walk_free _ _ _ _ _ _ (ok_pool _ _ _ H) E) as [Hs _]. rewrite (Hs eq_refl) in *.
    split; [done|]. destruct Ho as [[_ Hv]|[? Hv]]; [left; unfold view; by rewrite Hv|].
    destruct (Hv eq_refl) as [Hvl Hres]. right. split; [unfold view; by rewrite Hvl|done].
Qed.

(** ** Holes *)

Lemma IDX_pxl va va' k lvl : 0 ≤ k ≤ lvl → pxl va' k = pxl va k → IDX va' lvl = IDX va lvl ∧ pxl va' lvl = pxl va lvl.
Proof.
  intros [Hk Hl] E. assert (pxl va' lvl = pxl va lvl) as E'.
  { unfold pxl in *. replace (12 + 9 * lvl) with ((12 + 9 * k) + (9 * (lvl - k))) by lia.
    rewrite Z.pow_add_r, <- !Z.div_div by lia. by rewrite E. }
  split; [|done]. rewrite !IDX_spec by lia. unfold pxl in E'. by rewrite E'.
Qed.

Lemma hole_walk_ok lvl s g t sp va :
  ok s g → user va → onway (own g) sp va lvl t →
  ∃ h, hole_walk lvl s t va = Some h ∧
    (h = 0 ∨ ∃ k, 1 ≤ k ≤ Z.of_nat lvl ∧ h = 2 ^ (12 + 9 * k) ∧
       ∀ va', pxl va' k = pxl va k → vw lvl (ram (pm s)) t va' = Some 0).
Proof.
  intros H Hu. revert t. induction lvl as [|l IH]; intros t Ht; cbn [hole_walk].
  { exists 0. split; [done|by left]. }
  destruct (way_rd (ok_shape _ _ _ H) _ _ _ _ Ht) as [e He]. change (rdm (ram (pm s))) with (rd s) in He.
  rewrite He. cbn [mbind option_bind]. destruct (has e PTE_P) eqn:Ep.
  - destruct (IH (addr e)) as (h & -> & Hh); [by eapply (way_down (ok_shape _ _ _ H))|]. exists h. split; [done|].
    destruct Hh as [->|(k & Hk & -> & Hv)]; [by left|]. right. exists k. split; [lia|]. split; [done|].
    intros va' E. cbn [vw]. destruct (IDX_pxl va va' k (Z.of_nat (S l)) ltac:(lia) E) as [-> _].
    change (rdm (ram (pm s))) with (rd s). rewrite He. cbn [mbind option_bind]. rewrite Ep. by apply Hv.
  - eexists. split; [done|]. destruct ((Z.of_nat (S l) =? 1) && has e PTE_LAZY) eqn:Ez; [by left|]. right.
    exists (Z.of_nat (S l)). split; [lia|]. split; [by rewrite Z.shiftl_1_l|]. intros va' E. cbn [vw].
    destruct (IDX_pxl va va' (Z.of_nat (S l)) (Z.of_nat (S l)) ltac:(lia) E) as [-> _].
    change (rdm (ram (pm s))) with (rd s). rewrite He. cbn [mbind option_bind]. by rewrite Ep, Ez.
Qed.

Lemma ldiff_pow a n : 0 ≤ n → Z.ldiff a (2 ^ n - 1) = a - a mod 2 ^ n.
Proof.
  intros Hn. replace (2 ^ n - 1) with (Z.ones n) by (rewrite Z.ones_equiv; lia).
  rewrite Z.ldiff_ones_r, Z.shiftl_mul_pow2, Z.shiftr_div_pow2 by done.
  assert (0 < 2 ^ n) by (by apply Z.pow_pos_nonneg). pose proof (Z.div_mod a (2 ^ n) ltac:(lia)). lia.
Qed.

(** A hole: the address to go on from, and nothing mapped up to there. *)
Lemma hole_ok s g sp a :
  ok s g → rooted g sp → aligned a → 0 ≤ a < 2 ^ 47 →
  ∃ h, hole_at s sp a = Some h ∧
    (h = 0 ∨ h ≠ 0 ∧ aligned (skip_hole a h) ∧ a ≤ skip_hole a h ≤ 2 ^ 48 ∧
       ∀ va, user va → a ≤ va < skip_hole a h + 4096 → view s sp va = 0).
Proof.
  intros H Hr Ha Hu. destruct (hole_walk_ok 3 s g sp sp a H Hu (rooted_way _ _ _ Hr Hu)) as (h & E & Hh).
  exists h. split; [done|]. destruct Hh as [->|(k & Hk & -> & Hv)]; [by left|right].
  assert (∃ c, 2 ^ (12 + 9 * k) = 4096 * c ∧ 1 ≤ c ≤ 2 ^ 27) as (c & Ec & Hc).
  { exists (2 ^ (9 * k)). rewrite Z.pow_add_r by lia. split; [done|]. split; [apply (Z.pow_le_mono_r 2 0); lia|].
    apply Z.pow_le_mono_r; lia. }
  assert (skip_hole a (2 ^ (12 + 9 * k)) = a - a mod 2 ^ (12 + 9 * k) + 2 ^ (12 + 9 * k) - 4096) as Es.
  { unfold skip_hole, PAGE_SIZE. rewrite ldiff_pow by lia. pose proof (Z.mod_pos_bound a (2 ^ (12 + 9 * k)) ltac:(lia)).
    pose proof (Z.mod_le a (2 ^ (12 + 9 * k)) ltac:(lia) ltac:(lia)).
    apply u64_small. lia. }
  rewrite Es. pose proof (Z.mod_pos_bound a (2 ^ (12 + 9 * k)) ltac:(lia)) as Hmod.
  pose proof (Z.mod_le a (2 ^ (12 + 9 * k)) ltac:(lia) ltac:(lia)) as Hle.
  assert (∃ q, a = 4096 * q) as [q ->] by (exists (a / 4096); unfold aligned in Ha; Z.div_mod_to_equations; lia).
  rewrite Ec in *. rewrite Z.mul_mod_distr_l in * by lia. pose proof (Z.mod_pos_bound q c ltac:(lia)).
  split; [lia|]. split; [|split; [lia|]].
  - unfold aligned. replace (4096 * q - 4096 * (q mod c) + 4096 * c - 4096) with ((q - q mod c + c - 1) * 4096) by lia.
    apply Z.mod_mul. lia.
  - intros va Hva Hin. unfold view. rewrite (Hv va); [done|]. unfold pxl. rewrite Ec.
    rewrite <- (Z.div_unique va (4096 * c) (q / c) (va - 4096 * (q - q mod c))).
    + apply Z.div_unique with (4096 * q - 4096 * (q - q mod c)); [lia|]. pose proof (Z.div_mod q c ltac:(lia)). nia.
    + lia.
    + pose proof (Z.div_mod q c ltac:(lia)). nia.
Qed.

(** ** Reserved slots *)

Lemma vw_through r o l0 lvl t sp va k u :
  shape pool r o l0 → onway o sp va lvl t → onway o sp va k u → (k ≤ lvl)%nat → vw lvl r t va = vw k r u va.
Proof.
  intros H Ht Hu Hk. revert t Ht. induction Hk as [|l Hk IH]; intros t Ht.
  { by rewrite (sh_inj _ _ _ _ H _ _ _ Ht Hu). }
  pose proof (sh_level _ _ _ _ H _ _ _ _ Ht). destruct (way_above H sp va k l u Hu) as [c Hc]; [lia|].
  destruct (way_up H _ _ _ _ Hc) as (t' & e & Ht' & He & Hp & Ha); [lia|].
  rewrite (sh_inj _ _ _ _ H _ _ _ Ht' Ht) in He. cbn [vw]. rewrite He. cbn [mbind option_bind]. rewrite Hp, Ha. by apply IH.
Qed.

Lemma vw_ext lvl r t va va' : pxl va' 0 = pxl va 0 → vw lvl r t va' = vw lvl r t va.
Proof.
  intros E. revert t. induction lvl as [|l IH]; intros t; cbn [vw].
  - by destruct (IDX_pxl va va' 0 0 ltac:(lia) E) as [-> _].
  - destruct (IDX_pxl va va' 0 (Z.of_nat (S l)) ltac:(lia) E) as [-> _]. destruct (rdm _ _) as [e|]; [|done].
    cbn [mbind option_bind]. by rewrite IH.
Qed.

Lemma page_ext s sp a va : aligned a → a ≤ va < a + 4096 → page s sp va = page s sp a.
Proof.
  intros Ha Hva. unfold page, view. by rewrite (vw_ext 3 _ sp a va) by (by apply page_of_aligned).
Qed.

Lemma pde_walk_ok k s g t sp va :
  ok s g → user va → onway (own g) sp va (S k) t →
  ∃ o, pde_walk k s t va false = Some (o, s) ∧
    match o with Some p => ∃ u, p = (u, IDX va 1) ∧ onway (own g) sp va 1 u | None => True end.
Proof.
  intros H Hu. revert t. induction k as [|k IH]; intros t Ht; cbn [pde_walk].
  { eexists. split; [done|]. by exists t. }
  destruct (way_rd (ok_shape _ _ _ H) _ _ _ _ Ht) as [e He]. change (rdm (ram (pm s))) with (rd s) in He.
  replace (Z.of_nat (S k) + 1) with (Z.of_nat (S (S k))) by lia. rewrite He. cbn [mbind option_bind].
  destruct (has e PTE_P) eqn:Ep; [|by eexists]. apply IH. by eapply (way_down (ok_shape _ _ _ H)).
Qed.

Lemma pde_res_ok s g sp va :
  ok s g → rooted g sp → user va →
  ∃ b, pde_res s sp va = Some b ∧
    (b = true → ∃ u e, pde_slot s sp va false = Some (Some (u, IDX va 1), s) ∧ onway (own g) sp va 1 u ∧
       rd s (u, IDX va 1) = Some e ∧ has e PTE_P = false ∧ has e PTE_LAZY = true).
Proof.
  intros H Hr Hu. destruct (pde_walk_ok 2 s g sp sp va H Hu (rooted_way _ _ _ Hr Hu)) as (o & E & Ho).
  unfold pde_res, pde_slot. rewrite E. cbn [mbind option_bind]. destruct o as [p|]; [|by exists false].
  destruct Ho as (u & -> & Hon). destruct (way_rd (ok_shape _ _ _ H) _ _ _ _ Hon) as [e He].
  change (Z.of_nat 1) with 1 in He. change (rdm (ram (pm s))) with (rd s) in He. rewrite He. cbn [mbind option_bind].
  eexists. split; [done|]. intros Hb. bools. by exists u, e.
Qed.

(** The page relation of an address of a reserved slot. *)
Lemma reserved_view s g sp a u e va :
  ok s g → rooted g sp → user a → user va → onway (own g) sp a 1 u → rd s (u, IDX a 1) = Some e →
  has e PTE_P = false → has e PTE_LAZY = true → pxl va 1 = pxl a 1 → page s sp va = (PTE_LAZY, None).
Proof.
  intros H Hr Ha Hu Hon He Hp Hl E. destruct (IDX_pxl a va 1 1 ltac:(lia) E) as [Ei _].
  destruct (IDX_pxl a va 1 2 ltac:(lia) E) as [_ E2].
  assert (onway (own g) sp va 1 u) as Hon' by (unfold onway in *; change (Z.of_nat 1 + 1) with 2 in *; by rewrite E2).
  assert (view s sp va = PTE_LAZY) as Ev.
  { unfold view. rewrite (vw_through _ _ _ 3 sp sp va 1 u (ok_shape _ _ _ H) (rooted_way _ _ _ Hr Hu) Hon') by lia.
    cbn [vw]. change (Z.of_nat 1) with 1. rewrite Ei. change (rdm (ram (pm s))) with (rd s). rewrite He.
    cbn [mbind option_bind]. by rewrite Hp, Hl. }
  unfold page. by rewrite Ev.
Qed.

Lemma whole_spec a e : 0 ≤ a < 2 ^ 47 → whole a e = true → a mod 2 ^ 21 = 0 ∧ a + 2 ^ 21 ≤ e.
Proof.
  intros Ha H. unfold whole, BIG in H. bools. change 0x1FFFFF with (Z.ones 21) in *. rewrite Z.land_ones in * by lia.
  rewrite u64_small in * by lia. split; [done|]. lia.
Qed.

Lemma big_page a va : a mod 2 ^ 21 = 0 → pxl va 1 = pxl a 1 ↔ a ≤ va < a + 2 ^ 21.
Proof. intros Ha. unfold pxl. change (12 + 9 * 1) with 21. Z.div_mod_to_equations. lia. Qed.

(** A reserved slot inside the range is passed as a whole. *)
Lemma big_ok s g sp a e :
  ok s g → rooted g sp → aligned a → 0 ≤ a < 2 ^ 47 → whole a e = true →
  ∃ b, pde_res s sp a = Some b ∧
    (b = true → aligned (skip_big a) ∧ a ≤ skip_big a ≤ 2 ^ 48 ∧ skip_big a + 4096 = a + 2 ^ 21 ∧ a + 2 ^ 21 ≤ e ∧
       (∀ va, user va → a ≤ va < a + 2 ^ 21 → page s sp va = (PTE_LAZY, None)) ∧
       ∃ u x, pde_slot s sp a false = Some (Some (u, IDX a 1), s) ∧ onway (own g) sp a 1 u ∧
         rd s (u, IDX a 1) = Some x ∧ has x PTE_P = false ∧ has x PTE_LAZY = true).
Proof.
  intros H Hr Ha Hu Hw. destruct (whole_spec a e Hu Hw) as [Hm He].
  destruct (pde_res_ok s g sp a H Hr Hu) as (b & Eb & Hb). exists b. split; [done|]. intros Ht.
  destruct (Hb Ht) as (u & x & E & Hon & Hx & Hp & Hl).
  assert (skip_big a = a + 2 ^ 21 - 4096) as Es by (unfold skip_big, BIG, PAGE_SIZE; rewrite u64_small; lia).
  rewrite Es. split; [|split; [lia|split; [lia|split; [done|split]]]].
  - unfold aligned in *. Z.div_mod_to_equations. lia.
  - intros va Hva Hin. eapply (reserved_view s g sp a u x va); try done. by apply big_page.
  - by exists u, x.
Qed.

(** ** One page *)

(** The flags of the page's entry change. *)
Lemma mark_state R s g s1 g1 s2 sp a u v e :
  ok s g → rooted g sp → aligned a → user a → walked s g s1 g1 → onway (own g1) sp a 0 u →
  e = view s sp a → rd s1 (u, IDX a 0) = Some e → fr_of pool v = fr_of pool e → bk_of v = bk_of e →
  (∀ fr, private v = true → fr_of pool v = Some fr → refs (pm s1) fr = 1) →
  has v PTE_P = has e PTE_P → addr v = addr e → cow_ok v →
  R (page s sp a) (v, (page s sp a).2) →
  pm s2 = with_ram (pm s1) (upd (ram (pm s1)) (u, IDX a 0) v) → bk s2 = bk s1 → dfr s2 = dfr s1 →
  ∃ g2, paged R sp a (a + 4096) s g s2 g2.
Proof.
  intros H Hr Ha Hu Hw Hon He Hrd Hf Hb Hpr HP Had Hcow HR Epm Ebk Edf. pose proof (wk_ok _ _ _ _ _ Hw) as H1.
  pose proof (mark_ok pool s1 g1 u _ sp _ e v s2 H1 Hon Hrd Hf Hb Hpr Hcow Epm Ebk Edf) as H2.
  eexists (Gh _ _ _). eapply paged_walked; [exact H|done|exact Hw|].
  assert (rooted g1 sp) as Hr1 by (eapply rooted_mono; [apply Hw|done]).
  eapply (leaf_paged pool R s1 g1 s2 _ sp a u v (ram (pm s1))); try done.
  - by rewrite Epm.
  - intros va Hva Hin. rewrite (page_ext s1 sp a va Ha Hin), (walked_page pool s g s1 g1 sp a H Hw Hr Hu).
    assert ((page s sp a).2 = if has v PTE_P then ram (pm s2) !! addr v else None) as <-; [|done].
    rewrite <- (walked_page pool s g s1 g1 sp a H Hw Hr Hu).
    assert (view s1 sp a = e) as Ev.
    { rewrite He. pose proof (walked_page pool s g s1 g1 sp a H Hw Hr Hu) as Hpg. unfold page in Hpg. by injection Hpg. }
    unfold page. cbn [snd]. rewrite Ev, HP, Had. destruct (has e PTE_P) eqn:Ep; [|done].
    rewrite Epm. cbn [ram with_ram]. rewrite upd_other; [done|]. cbn [fst]. intros Hx.
    destruct (mapped_frame pool s1 g1 sp a H1 Hr1 Hu) as [Hno _]; [by rewrite Ev|]. rewrite Ev, Hx in Hno.
    unfold onway in Hon. congruence.
Qed.

Lemma mark_paged R s g s1 g1 sp a u v e :
  ok s g → rooted g sp → aligned a → user a → walked s g s1 g1 → onway (own g1) sp a 0 u →
  e = view s sp a → rd s1 (u, IDX a 0) = Some e → fr_of pool v = fr_of pool e → bk_of v = bk_of e →
  (∀ fr, private v = true → fr_of pool v = Some fr → refs (pm s1) fr = 1) →
  has v PTE_P = has e PTE_P → addr v = addr e → cow_ok v →
  R (page s sp a) (v, (page s sp a).2) →
  ∃ s2 g2, pte_put smp s1 (u, IDX a 0) a v = Some s2 ∧ paged R sp a (a + 4096) s g s2 g2 ∧ pool_free (pm s2) = pool_free (pm s1).
Proof.
  intros H Hr Ha Hu Hw Hon He Hrd Hf Hb Hpr HP Had Hcow HR.
  destruct (pte_put_spec smp s1 (u, IDX a 0) a v e Hrd) as (s2 & E & Epm & Ebk & Efc & Edf & _).
  destruct (mark_state R s g s1 g1 s2 sp a u v e) as [g2 Hp]; try done.
  exists s2, g2. split; [done|]. split; [done|]. by rewrite Epm.
Qed.

(** The page's entry is dropped, and another takes its place. *)
Lemma replace_paged R s g s1 g1 s2 g2 sp a u v e :
  ok s g → rooted g sp → aligned a → user a → walked s g s1 g1 → onway (own g1) sp a 0 u →
  ok s2 g2 → own g2 = own g1 → ext g2 ≡ₚ olist (fr_of pool v) ++ ext g →
  (∀ f, ram (pm s2) !! f ≠ ram (pm s1) !! f → pool f = true ∧ f ∉ holders pool s1 g1) →
  rd s2 (u, IDX a 0) = Some e → bk_of v = None →
  (∀ fr, private v = true → fr_of pool v = Some fr → refs (pm s2) fr = 1) → cow_ok v →
  R (page s sp a) (v, if has v PTE_P then upd (ram (pm s2)) (u, IDX a 0) v !! addr v else None) →
  ∃ s3 s4 g4, pte_drop s2 e = Some s3 ∧ pte_put smp s3 (u, IDX a 0) a v = Some s4 ∧
    paged R sp a (a + 4096) s g s4 g4 ∧ pool_free (pm s2) ≤ pool_free (pm s4).
Proof.
  intros H Hr Ha Hu Hw Hon H2 Ho Hx Hram Hrd Hb Hpr Hcow HR.
  assert (own g2 !! u = Some (sp, O, pxl a 1)) as Hon2 by (rewrite Ho; exact Hon).
  destruct (drop_ok pool s2 g2 u _ sp _ e H2 Hon2 Hrd) as (s3 & E3 & R3 & _ & _ & _ & D3 & _ & _ & _ & _ & F3).
  assert (rd s3 (u, IDX a 0) = Some e) as Hrd3 by (unfold rd; rewrite R3; exact Hrd).
  destruct (pte_put_spec smp s3 (u, IDX a 0) a v e Hrd3) as (s4 & E4 & Epm & Ebk & _ & Edf & _).
  assert (ok s4 (Gh (own g2) (@lfset pool (lf g2) (u, IDX a 0) v) (ext g))) as H4.
  { eapply (replace_ok pool s2 g2 u _ sp _ e v (ext g) s3 s4); try done; [by rewrite Epm, R3|congruence]. }
  exists s3, s4, (Gh (own g2) (@lfset pool (lf g2) (u, IDX a 0) v) (ext g)). split; [done|]. split; [done|].
  split; [|rewrite Epm; exact F3].
  eapply paged_walked; [exact H|done|exact Hw|].
  assert (rooted g1 sp) as Hr1 by (eapply rooted_mono; [apply Hw|done]).
  assert (ram (pm s4) = upd (ram (pm s2)) (u, IDX a 0) v) as Hr4 by (by rewrite Epm, R3).
  eapply (leaf_paged pool R s1 g1 s4 _ sp a u v (ram (pm s2))); try done; [apply Hw| |].
  - cbn. symmetry. apply Hw.
  - intros va Hva Hin. rewrite (page_ext s1 sp a va Ha Hin), (walked_page pool s g s1 g1 sp a H Hw Hr Hu), Hr4. exact HR.
Qed.

(** The page's entry is dropped, and nothing takes its place. *)
Lemma clear_paged R s g s1 g1 sp a u v e :
  ok s g → rooted g sp → aligned a → user a → walked s g s1 g1 → onway (own g1) sp a 0 u →
  rd s1 (u, IDX a 0) = Some e → fr_of pool v = None → bk_of v = None → has v PTE_P = false → R (page s sp a) (v, None) →
  ∃ s2 s3 g3, pte_drop s1 e = Some s2 ∧ pte_put smp s2 (u, IDX a 0) a v = Some s3 ∧
    paged R sp a (a + 4096) s g s3 g3 ∧ pool_free (pm s1) ≤ pool_free (pm s3).
Proof.
  intros H Hr Ha Hu Hw Hon Hrd Hf Hb Hv HR.
  apply (replace_paged R s g s1 g1 s1 g1 sp a u v e); try done; [apply Hw|by rewrite (wk_ext _ _ _ _ _ Hw), Hf|congruence|intros ?; congruence|by rewrite Hv].
Qed.

(** ** Flags *)

Lemma has_lor_off e m k : Z.land m k = 0 → has (Z.lor e m) k = has e k.
Proof. intros H. unfold has. by rewrite Z.land_lor_distr_l, H, Z.lor_0_r. Qed.

Lemma land_ldiff_off e m k : Z.land m k = 0 → Z.land (Z.ldiff e m) k = Z.land e k.
Proof.
  intros H. apply Z.bits_inj'. intros n Hn. rewrite !Z.land_spec, Z.ldiff_spec.
  assert (Z.testbit m n && Z.testbit k n = false) as Hb by (by rewrite <- Z.land_spec, H, Z.bits_0).
  by destruct (Z.testbit e n), (Z.testbit m n), (Z.testbit k n).
Qed.

Lemma has_ldiff_off e m k : Z.land m k = 0 → has (Z.ldiff e m) k = has e k.
Proof. intros H. unfold has. by rewrite land_ldiff_off. Qed.

Lemma has_lor_on e m k : Z.land m k = k → k ≠ 0 → has (Z.lor e m) k = true.
Proof.
  intros H Hk. unfold has. apply nz_true. rewrite Z.land_lor_distr_l, H. intros E. apply Z.lor_eq_0_iff in E. by destruct E.
Qed.

Lemma has_ldiff_on e m k : Z.land m k = k → has (Z.ldiff e m) k = false.
Proof.
  intros H. unfold has. apply nz_false. apply Z.bits_inj'. intros n Hn. rewrite Z.land_spec, Z.ldiff_spec, Z.bits_0.
  assert (Z.testbit m n && Z.testbit k n = Z.testbit k n) as Hb by (by rewrite <- Z.land_spec, H).
  by destruct (Z.testbit e n), (Z.testbit m n), (Z.testbit k n).
Qed.

(** Two entries that hold the same thing. *)
Definition same_key (v e : Z) : Prop :=
  has v PTE_P = has e PTE_P ∧ has v PTE_SWAP = has e PTE_SWAP ∧ has v PTE_SHL = has e PTE_SHL ∧ addr v = addr e.

Lemma same_key_of v e : same_key v e → fr_of pool v = fr_of pool e ∧ bk_of v = bk_of e.
Proof. intros (E1 & E2 & E3 & E4). unfold fr_of, bk_of. by rewrite E1, E2, E3, E4. Qed.

(** The flags that do not name what an entry holds. *)
Definition free_flags (m : Z) : Prop :=
  Z.land m PTE_P = 0 ∧ Z.land m PTE_SWAP = 0 ∧ Z.land m PTE_SHL = 0 ∧ Z.land m PTE_ADDR = 0.

Lemma lor_key e m : free_flags m → same_key (Z.lor e m) e.
Proof.
  intros (H1 & H2 & H3 & H4). split_and!; [by apply has_lor_off..|].
  unfold addr. by rewrite Z.land_lor_distr_l, H4, Z.lor_0_r.
Qed.

Lemma ldiff_key e m : free_flags m → same_key (Z.ldiff e m) e.
Proof.
  intros (H1 & H2 & H3 & H4). split_and!; [by apply has_ldiff_off..|]. unfold addr. by apply land_ldiff_off.
Qed.

(** A slot's entry, and entries with the same frame and no more copying. *)
Lemma cow_slot s g t i sp px e v :
  ok s g → own g !! t = Some (sp, O, px) → rd s (t, i) = Some e → same_key v e →
  (has v PTE_COW = true → has e PTE_COW = true) → cow_ok v.
Proof.
  intros H Ht He (E1 & _ & _ & E4) Hc Hp Hv. rewrite E4. eapply (ok_cow _ _ _ H); [exact Ht|exact He|congruence|by apply Hc].
Qed.

Lemma same_key_trans a b c : same_key a b → same_key b c → same_key a c.
Proof. unfold same_key. intuition congruence. Qed.

Lemma excl_slot s g t i sp px e fr :
  ok s g → own g !! t = Some (sp, O, px) → rd s (t, i) = Some e → private e = true → fr_of pool e = Some fr →
  refs (pm s) fr = 1.
Proof.
  intros H Ht He Hp Hf. eapply (ok_excl _ _ _ H (t, i) e fr); [|done|done].
  apply (sh_leaf _ _ _ _ (ok_shape _ _ _ H)). split_and!; [|done|by exists sp, px]. unfold counted. by rewrite Hf.
Qed.

(** Turns of a loop that change nothing. *)
Lemma hole_turn R L rich sp e s g a h :
  ok s g → rooted g sp → hole_at s sp a = Some h → h ≠ 0 → aligned (skip_hole a h) → a ≤ skip_hole a h ≤ 2 ^ 48 →
  (∀ va, user va → a ≤ va < skip_hole a h + 4096 → view s sp va = 0) → R (0, None) (0, None) →
  turn_ok rich R L sp e s g a (next (skip_hole a h) s).
Proof.
  intros H Hr _ _ Hal Ha Hv HR.  eexists None, (skip_hole a h), s, g. split; [done|]. split; [done|]. split; [done|]. split; [|lia].
  apply paged_still; [done|done|by apply walked_refl|]. intros va Hu Hin.
  assert (page s sp va = (0, None)) as ->; [|done]. unfold page. by rewrite Hv by (done || lia).
Qed.

Lemma big_turn R L rich sp e s g a :
  ok s g → rooted g sp → aligned (skip_big a) → a ≤ skip_big a ≤ 2 ^ 48 → skip_big a + 4096 = a + 2 ^ 21 →
  (∀ va, user va → a ≤ va < a + 2 ^ 21 → page s sp va = (PTE_LAZY, None)) → R (PTE_LAZY, None) (PTE_LAZY, None) →
  turn_ok rich R L sp e s g a (next (skip_big a) s).
Proof.
  intros H Hr Hal Ha Hs Hv HR. eexists None, (skip_big a), s, g. split; [done|]. split; [done|]. split; [done|]. split; [|lia].
  apply paged_still; [done|done|by apply walked_refl|]. intros va Hu Hin. by rewrite Hv by (done || lia).
Qed.

(** A turn that stays on its page. *)
Lemma page_turn_ok R L (rich : bool) sp e s g a s' g' :
  aligned a → 0 ≤ a < e → e ≤ 2 ^ 47 → aligned e → paged R sp a (a + 4096) s g s' g' →
  (rich = true → pool_free (pm s) - 1 ≤ pool_free (pm s')) →
  turn_ok rich R L sp e s g a (next a s').
Proof.
  intros Ha Hae He Hea Hp Hf. eexists None, a, s', g'. split; [done|]. split; [done|]. split; [lia|]. split; [|done].
  pose proof (pages_left pool e a Hea Ha ltac:(lia)) as Hl. rewrite Z.min_l; [done|]. Z.div_mod_to_equations. lia.
Qed.

(** The frame that the loops over mapped pages share: holes are passed, reserved
    slots are treated as a whole if [c] says so, and the other slots one by one. *)
Lemma scaffold rich R L sp e s g a (c : bool) big (K : Z * Z → Z → @vs B → option (option Z * Z * @vs B)) :
  e ≤ 2 ^ 47 → aligned e → ok s g → rooted g sp → aligned a → USER_BASE ≤ a < e →
  (rich = true → 0 < pool_free (pm s)) →
  R (0, None) (0, None) → (rich = false → R (PTE_LAZY, None) (PTE_LAZY, None)) →
  (c = true → a mod 2 ^ 21 = 0 → aligned (skip_big a) → a ≤ skip_big a ≤ 2 ^ 48 → skip_big a + 4096 = a + 2 ^ 21 → a + 2 ^ 21 ≤ e →
     (∀ va, user va → a ≤ va < a + 2 ^ 21 → page s sp va = (PTE_LAZY, None)) →
     (∃ u x, pde_slot s sp a false = Some (Some (u, IDX a 1), s) ∧ onway (own g) sp a 1 u ∧
         rd s (u, IDX a 1) = Some x ∧ has x PTE_P = false ∧ has x PTE_LAZY = true) →
     turn_ok rich R L sp e s g a big) →
  (∀ s1 g1 u, walked s g s1 g1 → onway (own g1) sp a 0 u → rd s1 (u, IDX a 0) = Some (view s sp a) →
     pool_free (pm s) - 1 ≤ pool_free (pm s1) → turn_ok rich R L sp e s g a (K (u, IDX a 0) (view s sp a) s1)) →
  turn_ok rich R L sp e s g a
    (h ← hole_at s sp a;
     if nz h then next (skip_hole a h) s
     else
       b ← (if c && whole a e then pde_res s sp a else Some false);
       if b : bool then big
       else
         '(p, s1) ← pte_slot s sp a false;
         match p with None => next a s1 | Some p => x ← rd s1 p; K p x s1 end).
Proof.
  intros He Hea H Hr Ha Hae Hrich R0 RL HB HK. unfold USER_BASE in Hae. assert (user a) as Hu by (unfold user; lia).
  destruct (hole_ok s g sp a H Hr Ha ltac:(lia)) as (h & Eh & Hh). rewrite Eh. cbn [mbind option_bind].
  destruct Hh as [->|(Hh0 & Hal & Hsk & Hv)].
  2:{ rewrite (proj2 (nz_true h)) by done. by eapply hole_turn. }
  cbn [nz Z.eqb negb].
  assert (∃ b, (if c && whole a e then pde_res s sp a else Some false) = Some b ∧
    (b = true → c = true ∧ whole a e = true ∧ pde_res s sp a = Some true)) as (b & -> & Hb).
  { destruct c; cbn [andb]; [|by exists false]. destruct (whole a e) eqn:Ew; [|by exists false].
    destruct (big_ok s g sp a e H Hr Ha ltac:(lia) Ew) as (b & -> & _). exists b. split; [done|]. by intros ->. }
  cbn [mbind option_bind]. destruct b.
  { destruct (Hb eq_refl) as (-> & Hw & Eb). destruct (big_ok s g sp a e H Hr Ha ltac:(lia) Hw) as (b & Eb' & Hbig).
    rewrite Eb in Eb'. injection Eb' as <-. destruct (Hbig eq_refl) as (Hal & Hsk & Hs & Hse & Hv & Hx).
    destruct (whole_spec a e ltac:(lia) Hw). by apply HB. }
  destruct (slot_ok s g sp a false H Hr Hu) as (o & s1 & g1 & -> & Hw & Hfr & Ho). cbn [mbind option_bind]. specialize (Hfr eq_refl).
  destruct o as [p|].
  - destruct Ho as (u & -> & Hon & Hrd). rewrite Hrd. cbn [mbind option_bind]. by eapply HK.
  - destruct Ho as [(_ & -> & Hv)|[? _]]; [|done].
    eapply page_turn_ok; [done|lia|done|done| |lia]. apply paged_still; [done|done|by apply walked_refl|].
    intros va Hva Hin. rewrite (page_ext s sp a va Ha Hin). destruct Hv as [Hv|(Hv & Hf & _)].
    + unfold page. by rewrite Hv.
    + destruct rich; [specialize (Hrich eq_refl); lia|]. unfold page. rewrite Hv. by apply RL.
Qed.

(** A page that is left alone. *)
Lemma still_turn rich R L sp e s g a s1 g1 :
  e ≤ 2 ^ 47 → aligned e → ok s g → rooted g sp → aligned a → USER_BASE ≤ a < e →
  walked s g s1 g1 → pool_free (pm s) - 1 ≤ pool_free (pm s1) → R (page s sp a) (page s sp a) →
  turn_ok rich R L sp e s g a (next a s1).
Proof.
  intros He Hea H Hr Ha Hae Hw Hf HR. unfold USER_BASE in Hae. eapply page_turn_ok; [done|lia|done|done| |by intros _].
  apply paged_still; [done|done|exact Hw|]. intros va Hva Hin. by rewrite (page_ext s sp a va Ha Hin).
Qed.

(** A page whose flags change. *)
Lemma mark_turn rich R L sp e s g a s1 g1 u v :
  e ≤ 2 ^ 47 → aligned e → ok s g → rooted g sp → aligned a → USER_BASE ≤ a < e →
  walked s g s1 g1 → onway (own g1) sp a 0 u → rd s1 (u, IDX a 0) = Some (view s sp a) →
  pool_free (pm s) - 1 ≤ pool_free (pm s1) →
  same_key v (view s sp a) →
  (∀ fr, private v = true → fr_of pool v = Some fr → refs (pm s1) fr = 1) → cow_ok v →
  R (page s sp a) (v, (page s sp a).2) →
  turn_ok rich R L sp e s g a (s2 ← pte_put smp s1 (u, IDX a 0) a v; next a s2).
Proof.
  intros He Hea H Hr Ha Hae Hw Hon Hrd Hf Hk Hpr Hcow HR. unfold USER_BASE in Hae. assert (user a) as Hu by (unfold user; lia).
  destruct (same_key_of _ _ Hk) as [Hfk Hbk].
  destruct (mark_paged R s g s1 g1 sp a u v _ H Hr Ha Hu Hw Hon eq_refl Hrd Hfk Hbk Hpr) as (s2 & g2 & -> & Hp & Hpf);
    [apply Hk|apply Hk|done|done|].
  cbn [mbind option_bind]. eapply page_turn_ok; [done|lia|done|done|exact Hp|]. rewrite Hpf. by intros _.
Qed.

(** *** vmm_set_user *)

Definition user_rel (us rich : bool) (x y : Z * option (list Z)) : Prop :=
  y = (if has x.1 PTE_USED then if us then Z.lor x.1 PTE_US else Z.ldiff x.1 PTE_US else x.1, x.2) ∨
  (rich = false ∧ x = (PTE_LAZY, None) ∧ y = x).

Lemma user_page_ok rich us sp e :
  e ≤ 2 ^ 47 → aligned e → page_body rich (user_rel us rich) (λ _ _ _, False) sp e (user_page smp sp e us).
Proof.
  intros He Hea a s g H Hr Ha Hae Hrich. apply scaffold; try done.
  - by left.
  - by right.
  - intros Hc Ham Hal Hsk Hs Hse Hv _. destruct us; [done|]. eapply big_turn; try done. by left.
  - intros s1 g1 u Hw Hon Hrd Hf. cbv beta.
    destruct (has (view s sp a) PTE_USED) eqn:Eu; cbn [negb].
    + eapply mark_turn; try done.
      * destruct us; [by apply lor_key|by apply ldiff_key].
      * intros fr Hpr Hfv. eapply excl_slot; [apply Hw|exact Hon|exact Hrd| |].
        -- unfold private in *. destruct us; [by rewrite !has_lor_off in Hpr|by rewrite !has_ldiff_off in Hpr].
        -- rewrite <- Hfv. symmetry. apply same_key_of. destruct us; [by apply lor_key|by apply ldiff_key].
      * eapply (cow_slot s1 g1 u _ sp _ (view s sp a)); [apply Hw|exact Hon|exact Hrd|destruct us; [by apply lor_key|by apply ldiff_key]|].
        destruct us; [by rewrite has_lor_off|by rewrite has_ldiff_off].
      * left. unfold page. cbn [fst snd]. by rewrite Eu.
    + eapply still_turn; try done. left. unfold page. cbn [fst snd]. by rewrite Eu.
Qed.

(** *** vmm_set_writable *)

(** Written out for an entry that holds a frame: the write waits for the fault if
    somebody else holds the frame. *)
Definition writable_rel (w rich : bool) (x y : Z * option (list Z)) : Prop :=
  (y.2 = x.2 ∧
   if has x.1 PTE_USED
   then if w
        then y.1 = Z.lor (Z.ldiff x.1 PTE_COW) PTE_RW ∨ y.1 = Z.lor x.1 PTE_RW ∧ has x.1 PTE_P = false ∨
             y.1 = Z.lor (Z.ldiff x.1 PTE_RW) PTE_COW ∧ has x.1 PTE_P = true ∧ has x.1 PTE_SHARED = false
        else y.1 = Z.ldiff x.1 (Z.lor PTE_RW PTE_COW)
   else y.1 = x.1) ∨
  (rich = false ∧ x = (PTE_LAZY, None) ∧ y = x).

(** [make_writable] is a [pte_put] of one of two values. *)
Lemma make_writable_spec s g u i sp px va e :
  ok s g → own g !! u = Some (sp, O, px) → rd s (u, i) = Some e →
  ∃ v, make_writable smp s (u, i) va = pte_put smp s (u, i) va v ∧ same_key v e ∧
    (∀ fr, private v = true → fr_of pool v = Some fr → refs (pm s) fr = 1) ∧ cow_ok v ∧
    (v = Z.lor (Z.ldiff e PTE_COW) PTE_RW ∨
     v = Z.lor (Z.ldiff e PTE_RW) PTE_COW ∧ has e PTE_P = true ∧ has e PTE_SHARED = false).
Proof.
  intros H Ht He. unfold make_writable. rewrite He. cbn [mbind option_bind].
  set (v1 := Z.lor (Z.ldiff e PTE_COW) PTE_RW). set (v2 := Z.lor (Z.ldiff e PTE_RW) PTE_COW).
  assert (same_key v1 e) as K1 by (eapply same_key_trans; [by apply lor_key|by apply ldiff_key]).
  assert (same_key v2 e) as K2 by (eapply same_key_trans; [by apply lor_key|by apply ldiff_key]).
  assert (private v2 = false) as P2.
  { unfold private, v2. rewrite has_lor_off by done. by rewrite has_ldiff_on. }
  assert (cow_ok v1) as C1.
  { intros _ Hc. unfold v1 in Hc. rewrite has_lor_off in Hc by done. by rewrite has_ldiff_on in Hc. }
  assert (pool (addr e) = true → cow_ok v2) as C2 by (intros Hpl _ _; by rewrite (proj2 (proj2 (proj2 K2)))).
  assert (has v1 PTE_SHARED = has e PTE_SHARED) as S1 by (unfold v1; by rewrite has_lor_off, has_ldiff_off).
  destruct (has e PTE_P && negb (has e PTE_SHARED)) eqn:Ec.
  - bools. rewrite (ok_ours _ _ _ H (addr e) (addr_nonneg e)). cbn [mbind option_bind].
    destruct (pool (addr e)) eqn:Epl.
    + assert (addr e ∈ holders pool s g) as Hin.
      { unfold holders. apply elem_of_app; right. apply elem_of_app; left.
        unfold frames_of. apply list_elem_of_omap. exists e. unfold fr_of. rewrite Epl.
        match goal with Hp : has e PTE_P = true |- _ => rewrite Hp end. split; [|done].
        apply list_elem_of_fmap. exists ((u, i), e). split; [done|]. apply elem_of_map_to_list.
        apply (sh_leaf _ _ _ _ (ok_shape _ _ _ H)). split_and!; [|done|by exists sp, px]. unfold counted, fr_of.
        by rewrite Epl; match goal with Hp : has e PTE_P = true |- _ => rewrite Hp end. }
      destruct (frame_cell _ _ (ok_pool _ _ _ H) (held_refs _ _ _ _ H Hin)) as (x & Hx & Hxr & Ex & _ & _).
      rewrite Hx. cbn [mbind option_bind]. destruct (1 <? x) eqn:E1; bools.
      * exists v2. split; [done|]. split; [done|]. split; [congruence|]. split; [by apply C2|]. right. done.
      * exists v1. split; [done|]. split; [done|]. split; [|split; [done|by left]]. intros fr _ Hf.
        rewrite (proj1 (same_key_of _ _ K1)) in Hf. unfold fr_of in Hf. destruct (_ && _); [|done]. injection Hf as <-. lia.
    + exists v1. split; [done|]. split; [done|]. split; [|split; [done|by left]]. intros fr _ Hf.
      rewrite (proj1 (same_key_of _ _ K1)) in Hf. unfold fr_of in Hf. by rewrite Epl, andb_false_r in Hf.
  - cbn [mbind option_bind]. exists v1. split; [done|]. split; [done|]. split; [|split; [done|by left]]. intros fr Hp Hf.
    rewrite (proj1 (same_key_of _ _ K1)) in Hf. unfold fr_of in Hf. destruct (has e PTE_P); [|done]. cbn [andb] in Ec.
    unfold private in Hp. rewrite S1, Ec, andb_false_r in Hp. done.
Qed.

Lemma writable_page_ok rich w sp e :
  e ≤ 2 ^ 47 → aligned e → page_body rich (writable_rel w rich) (λ _ _ _, False) sp e (writable_page smp sp e w).
Proof.
  intros He Hea a s g H Hr Ha Hae Hrich. apply scaffold; try done.
  - left. by destruct w.
  - by right.
  - intros Hc Ham Hal Hsk Hs Hse Hv _. destruct w; [done|]. eapply big_turn; try done. left. by destruct rich.
  - intros s1 g1 u Hw Hon Hrd Hf. cbv beta.
    destruct (has (view s sp a) PTE_USED) eqn:Eu; cbn [negb].
    2:{ eapply still_turn; try done. left. unfold page. cbn [fst snd]. by rewrite Eu. }
    destruct w; cbn [negb].
    + destruct (has (view s sp a) PTE_P) eqn:Ep.
      * destruct (make_writable_spec s1 g1 u (IDX a 0) sp _ a _ (wk_ok _ _ _ _ _ Hw) Hon Hrd) as (v & -> & Hk & Hpr & Hcow & Hv).
        eapply mark_turn; try done. left. unfold page. cbn [fst snd]. rewrite Eu. split; [done|]. tauto.
      * eapply mark_turn; try done; [by apply lor_key| | |].
        -- intros fr _ Hfv. rewrite (proj1 (same_key_of _ _ (lor_key (view s sp a) PTE_RW ltac:(done)))) in Hfv.
           unfold fr_of in Hfv. by rewrite Ep in Hfv.
        -- intros Hp. by rewrite has_lor_off, Ep in Hp.
        -- left. unfold page. cbn [fst snd]. rewrite Eu, Ep. split; [done|]. right. by left.
    + eapply mark_turn; try done; [by apply ldiff_key| | |].
      * intros fr Hp _. unfold private in Hp. by rewrite has_ldiff_on in Hp.
      * intros _ Hc. by rewrite has_ldiff_on in Hc.
      * left. unfold page. cbn [fst snd]. by rewrite Eu.
Qed.

(** ** Frames that wait *)

Lemma unref_ext_ok s g fr X :
  ok s g → ext g ≡ₚ (if pool fr then [fr] else []) ++ X → 0 ≤ fr →
  ∃ s', unref s fr = Some s' ∧ ok s' (Gh (own g) (lf g) X) ∧ ram (pm s') = ram (pm s) ∧ bk s' = bk s ∧ fc s' = fc s ∧
    dfr s' = dfr s ∧ sd_pd s' = sd_pd s ∧ sd_defer s' = sd_defer s ∧ sd_need s' = sd_need s ∧
    log s' = log s ++ [EUnref fr] ∧ pool_free (pm s) ≤ pool_free (pm s').
Proof.
  intros H Hx H0. unfold unref. destruct (pool fr) eqn:Epl; cbn [app] in Hx.
  - assert (holders pool s g ≡ₚ fr :: tables (own g) ++ frames_of pool (lf g) ++ List.filter pool (dfr s) ++ X) as Hh.
    { unfold holders. rewrite Hx. rewrite !app_assoc. symmetry. apply Permutation_middle. }
    destruct (pmm_unref_spec (pm s) fr (ok_pool _ _ _ H)) as (m & Em & Hi & Hram & Hr).
    { eapply held_refs; [done|]. rewrite Hh. by left. }
    rewrite Em. cbn [mbind option_bind]. eexists. split; [done|]. cbn [pm ram bk fc dfr].
    split; [|split_and!; try done; eapply pmm_unref_free; [exact Em|apply H]]. split; cbn [own lf ext pm bk dfr].
    + done.
    + intros f Hf. rewrite (pmm_unref_ours _ _ _ Em (ok_pool _ _ _ H)). by apply H.
    + rewrite Hram. apply H.
    + eapply effect_link; [|apply H]. eapply put; [exact Hh|exact Hr].
    + intros t x Ht Hin. eapply (ok_disj _ _ _ H); [exact Ht|]. rewrite Hx. rewrite !elem_of_app in *. set_solver.
    + apply H.
    + intros q e f Hq He Hp. pose proof (ok_excl _ _ _ H _ _ _ Hq He Hp) as H1. rewrite Hr, decide_False; [done|]. intros ->.
      eapply (link_one _ _ fr); [apply H|exact H1|exact Hh|]. rewrite !elem_of_app. right. left.
      unfold frames_of. apply list_elem_of_omap. exists e. split; [|done]. apply list_elem_of_fmap. exists (q, e).
      split; [done|]. by apply elem_of_map_to_list.
    + apply H.
    + intros t i sp px e Ht He. eapply (ok_cow _ _ _ H); [exact Ht|]. rewrite <- He. unfold rd. cbn [pm]. by rewrite Hram.
  - pose proof (ok_ours _ _ _ H fr H0) as Ho. rewrite Epl in Ho. destruct (pmm_foreign _ _ Ho) as (_ & -> & _).
    cbn [mbind option_bind]. eexists. split; [done|]. split; [|split_and!; try done; cbn; lia]. destruct H as [A1 A2 A3 A4 A5 A6 A7 A8 A9]. split; try done.
    + cbn. eapply link_perm; [exact A4|]. unfold holders. cbn. by rewrite Hx.
    + intros t x Ht. cbn. rewrite <- Hx. by eapply A5.
Qed.

Lemma unref_all_ok s g frs X :
  ok s g → ext g ≡ₚ List.filter pool frs ++ X → Forall (λ f, 0 ≤ f) frs →
  ∃ s', unref_all s frs = Some s' ∧ ok s' (Gh (own g) (lf g) X) ∧ ram (pm s') = ram (pm s) ∧ bk s' = bk s ∧ fc s' = fc s ∧
    dfr s' = dfr s ∧ sd_pd s' = sd_pd s ∧ sd_defer s' = sd_defer s ∧ sd_need s' = sd_need s ∧
    log s' = log s ++ (EUnref <$> frs) ∧ pool_free (pm s) ≤ pool_free (pm s').
Proof.
  intros H Hx Hn. revert s g H Hx. induction Hn as [|fr frs H0 _ IH]; intros s g H Hx; cbn [unref_all].
  - exists s. split; [done|]. cbn [List.filter app] in Hx. split; [|split_and!; try done; by rewrite app_nil_r].
    destruct H as [A1 A2 A3 A4 A5 A6 A7 A8 A9]. split; try done.
    + eapply link_perm; [exact A4|]. unfold holders. cbn. by rewrite Hx.
    + intros t x Ht. cbn. rewrite <- Hx. by eapply A5.
  - destruct (unref_ext_ok s g fr (List.filter pool frs ++ X) H) as (s1 & -> & H1 & R1 & B1 & F1 & D1 & P1 & S1 & N1 & L1 & M1); [|done|].
    { rewrite Hx. cbn [List.filter]. by destruct (pool fr). }
    cbn [mbind option_bind]. destruct (IH s1 _ H1) as (s' & -> & H' & R' & B' & F' & D' & P' & S' & N' & L' & M'); [done|].
    exists s'. split; [done|]. split; [done|]. split_and!; try congruence; [|lia]. rewrite L', L1, <- app_assoc. done.
Qed.

Lemma unref_all_dfr frs s s' :
  unref_all {| s with dfr := [] |} frs = Some s' → ∃ s1, unref_all s frs = Some s1 ∧ {| s1 with dfr := [] |} = s'.
Proof.
  revert s. induction frs as [|fr frs IH]; intros s Eu; cbn [unref_all] in *.
  - eexists. split; [done|]. by injection Eu.
  - unfold unref in *. cbn [pm] in Eu. destruct (pmm_unref (pm s) fr) as [m|]; cbn [mbind option_bind] in *; [|done].
    apply (IH {| s with pm := m; log := log s ++ [EUnref fr] |}). exact Eu.
Qed.

Lemma dfr_flush_ok s g :
  ok s g → ∃ s', dfr_flush s = Some s' ∧ ok s' g ∧ ram (pm s') = ram (pm s) ∧ bk s' = bk s ∧ fc s' = fc s ∧
    dfr s' = [] ∧ sd_pd s' = sd_pd s ∧ sd_defer s' = sd_defer s ∧ sd_need s' = false ∧
    log s' = log s ++ (if sd_need s then [EShoot (sd_pd s)] else []) ++ (EUnref <$> dfr s) ∧
    pool_free (pm s) ≤ pool_free (pm s').
Proof.
  intros H. pose proof (ok_wait _ _ _ H) as Hn. unfold dfr_flush.
  set (s0 := if sd_need s then {| s with sd_need := false; log := log s ++ [EShoot (sd_pd s)] |} else s).
  assert (pm s0 = pm s ∧ bk s0 = bk s ∧ fc s0 = fc s ∧ dfr s0 = dfr s ∧ sd_pd s0 = sd_pd s ∧ sd_defer s0 = sd_defer s ∧
    sd_need s0 = false ∧ log s0 = log s ++ (if sd_need s then [EShoot (sd_pd s)] else [])) as (E1 & E2 & E3 & E4 & E5 & E6 & E7 & E8).
  { unfold s0. destruct (sd_need s) eqn:En; cbn; split_and!; try done. by rewrite app_nil_r. }
  set (s1 := {| s0 with dfr := [] |}).
  assert (ok s1 (Gh (own g) (lf g) (List.filter pool (dfr s) ++ ext g))) as H1.
  { destruct H as [A1 A2 A3 A4 A5 A6 A7 A8 A9]. split; cbn; rewrite ?E1, ?E2; try done.
    intros t i sp px e Ht He. eapply A9; [exact Ht|]. rewrite <- He. unfold rd. cbn. by rewrite E1. }
  destruct (unref_all_ok s1 _ (dfr s) (ext g) H1) as (s2 & Eu & H2 & R2 & B2 & F2 & D2 & P2 & S2 & N2 & L2 & M2); [done|done|].
  destruct (unref_all_dfr (dfr s) s0 s2 Eu) as (s3 & Eu3 & E3'). rewrite E4, Eu3. cbn [mbind option_bind]. exists s2. rewrite E3'. split; [done|]. split; [by destruct g|].
  cbn in R2, B2, F2, D2, P2, S2, N2, L2, M2. rewrite R2, B2, F2, D2, P2, S2, N2, L2, E1, E2, E3, E5, E6, E7, E8.
  rewrite E1 in M2. rewrite <- app_assoc. done.
Qed.

(** An entry goes, its frame waits. *)
Lemma defer_ok s g t i sp px e v s2 :
  ok s g → own g !! t = Some (sp, O, px) → rd s (t, i) = Some e → has e PTE_P = true →
  fr_of pool v = None → bk_of v = None → has v PTE_P = false →
  pm s2 = with_ram (pm s) (upd (ram (pm s)) (t, i) v) → bk s2 = bk s → dfr s2 = dfr s ++ [addr e] →
  ok s2 (Gh (own g) (@lfset pool (lf g) (t, i) v) (ext g)).
Proof.
  intros H Ht He Hp Hfv Hbv Hvp E1 E2 E3.
  assert (frames_of pool (lf g) ≡ₚ olist (fr_of pool e) ++ frames_of pool (delete (t, i) (lf g))) as Hf.
  { eapply lf_entry; [apply H|exact Ht|exact He|apply counted_fr]. }
  assert (frames_of pool (@lfset pool (lf g) (t, i) v) ≡ₚ frames_of pool (delete (t, i) (lf g))) as Hf'.
  { unfold frames_of. rewrite (lf_set _ pool (lf g) (t, i) v (counted_fr pool v)), Hfv. done. }
  assert (List.filter pool (dfr s2) = List.filter pool (dfr s) ++ olist (fr_of pool e)) as Hd.
  { rewrite E3, List.filter_app. f_equal. unfold fr_of. rewrite Hp. cbn. by destruct (pool (addr e)). }
  split; cbn [own lf ext].
  - rewrite E1. apply pool_inv_ram, H.
  - intros f Hfp. rewrite E1. by apply (ok_ours _ _ _ H).
  - rewrite E1. cbn [ram with_ram]. eapply shape_leaf; [apply H|exact Ht|exact He].
  - rewrite E1. apply (link_perm _ (holders pool s g)); [apply H|]. unfold holders. cbn [own lf ext].
    rewrite Hf, Hf', Hd. apply Permutation_app_head. rewrite (Permutation_app_comm (olist _)), <- !app_assoc.
    apply Permutation_app_head. rewrite !app_assoc. apply Permutation_app_tail, Permutation_app_comm.
  - intros t' x Ht' Hin. eapply (ok_disj _ _ _ H); [exact Ht'|]. rewrite Hf', Hd in Hin. rewrite Hf. rewrite !elem_of_app in *. tauto.
  - rewrite E2. unfold backs_of. rewrite (lf_set _ pool (lf g) (t, i) v (counted_bk pool v)), Hbv.
    pose proof (ok_back _ _ _ H) as Hb. unfold backs_of in Hb.
    rewrite (lf_entry bk_of pool _ _ _ t i e sp px (ok_shape _ _ _ H) Ht He (counted_bk pool e)) in Hb.
    assert (bk_of e = None) as Hbe by (unfold bk_of; by rewrite Hp). rewrite Hbe in Hb. exact Hb.
  - intros q x fr Hq Hx Hpr. rewrite E1. change (refs (with_ram (pm s) _) fr) with (refs (pm s) fr).
    destruct (decide (q = (t, i))) as [->|Hne].
    + exfalso. assert (x = v) as ->; [|congruence].
      unfold lfset in Hq. destruct (counted pool v); [rewrite lookup_insert_eq in Hq; congruence|by rewrite lookup_delete_eq in Hq].
    + eapply (ok_excl _ _ _ H q x); [|done|done].
      unfold lfset in Hq. destruct (counted pool v); [by rewrite lookup_insert_ne in Hq|by rewrite lookup_delete_ne in Hq].
  - rewrite E3. apply Forall_app. split; [apply H|]. constructor; [apply addr_nonneg|done].
  - intros t' j sp' px' x Ht' Hx. unfold rd in Hx. rewrite E1 in Hx. cbn [ram with_ram] in Hx.
    change (rdm (upd (ram (pm s)) (t, i) v) (t', j) = Some x) in Hx. rewrite (rdm_upd _ _ _ _ _ He) in Hx.
    case_decide; [injection Hx as <-; intros ?; congruence|]. by eapply (ok_cow _ _ _ H).
Qed.

(** ** Whole slots *)

(** A slot of 2 MB without a table changes from one marker to another. *)
Lemma node_paged (R : Z * option (list Z) → Z * option (list Z) → Prop) s g s' sp a u x v :
  ok s g → rooted g sp → user a → a mod 2 ^ 21 = 0 → onway (own g) sp a 1 u →
  rd s (u, IDX a 1) = Some x → has x PTE_P = false → has v PTE_P = false →
  pm s' = with_ram (pm s) (upd (ram (pm s)) (u, IDX a 1) v) → bk s' = bk s → dfr s' = dfr s →
  (∀ va, user va → a ≤ va < a + 2 ^ 21 → R (page s sp va) (if has v PTE_LAZY then PTE_LAZY else 0, None)) →
  paged R sp a (a + 2 ^ 21) s g s' g.
Proof.
  intros H Hr Hu Ha Hon Hx Hp Hv E1 E2 E3 HR. pose proof (ok_shape _ _ _ H) as Hsh.
  assert (ok s' g) as H' by (eapply node_ok; [exact H|exact Hon|exact Hx|done|done|done|done|done]).
  assert (∀ sp' va, rooted g sp' → user va → vw 3 (ram (pm s')) sp' va =
    if decide (sp' = sp ∧ pxl va 1 = pxl a 1) then Some (if has v PTE_LAZY then PTE_LAZY else 0) else vw 3 (ram (pm s)) sp' va) as Hvw.
  { intros sp' va Hr' Hva.
    rewrite (vw_change Hsh (ram (pm s')) sp 1 (pxl a 2) u (IDX a 1) x Hon (IDX_range a 1 ltac:(lia)) Hx (or_intror Hp))
      with (sp := sp'); [| |done|by apply rooted_way].
    - assert (((1 ≤ 3)%nat ∧ sp' = sp ∧ pxl va (Z.of_nat 1) = pxl a 2 * 512 + IDX a 1) ↔ sp' = sp ∧ pxl va 1 = pxl a 1) as Hiff.
      { change (Z.of_nat 1) with 1. rewrite (pxl_step a 1) by lia. change (1 + 1) with 2. split; [tauto|].
        intros [? ?]. split; [lia|done]. }
      destruct (decide (sp' = sp ∧ _)) as [Hc|Hc]; [rewrite decide_True by (by apply Hiff)|rewrite decide_False by (by rewrite Hiff); done].
      destruct Hc as [-> Hc]. cbn [vw]. change (Z.of_nat 1) with 1. destruct (IDX_pxl a va 1 1 ltac:(lia) Hc) as [-> _].
      rewrite E1. cbn [ram with_ram]. rewrite (rdm_upd _ _ _ _ _ Hx), decide_True by done. cbn [mbind option_bind]. by rewrite Hv.
    - intros t y j Ht Hne. rewrite E1. cbn [ram with_ram]. by rewrite (rdm_upd _ _ _ _ _ Hx), decide_False. }
  split; [done|done|done| |].
  - intros sp' va Hva Hr' Hn. assert (view s' sp' va = view s sp' va) as Ev.
    { unfold view. rewrite (Hvw sp' va Hr' Hva), decide_False; [done|]. intros [-> Hc]. apply Hn. split; [done|].
      by apply big_page. }
    unfold page. cbv zeta. rewrite Ev. destruct (has (view s sp' va) PTE_P) eqn:Ep; [|done]. f_equal.
    rewrite E1. cbn [ram with_ram]. rewrite upd_other; [done|]. cbn [fst]. intros He.
    destruct (mapped_frame pool s g sp' va H Hr' Hva Ep) as [Hno _]. rewrite He in Hno. unfold onway in Hon. congruence.
  - intros va Hva Hin. assert (view s' sp va = if has v PTE_LAZY then PTE_LAZY else 0) as Ev.
    { unfold view. rewrite (Hvw sp va Hr Hva), decide_True; [done|]. split; [done|]. by apply big_page. }
    specialize (HR va Hva Hin). unfold page at 2. rewrite Ev. by destruct (has v PTE_LAZY).
Qed.

(** *** vmm_free_range *)

Definition free_rel (rich : bool) (x y : Z * option (list Z)) : Prop :=
  y = (if has x.1 PTE_USED then (0, None) else x) ∨ (rich = false ∧ x = (PTE_LAZY, None) ∧ y = x).

Lemma deferred_paged (R : Z * option (list Z) → Z * option (list Z) → Prop) s g s1 g1 sp a u v e :
  ok s g → rooted g sp → aligned a → user a → walked s g s1 g1 → onway (own g1) sp a 0 u →
  rd s1 (u, IDX a 0) = Some e → has e PTE_P = true → fr_of pool v = None → bk_of v = None → has v PTE_P = false →
  R (page s sp a) (v, None) →
  ∃ s2 s3 g3, dfr_push s1 (addr e) = Some s2 ∧ pte_put smp s2 (u, IDX a 0) a v = Some s3 ∧
    paged R sp a (a + 4096) s g s3 g3 ∧ pool_free (pm s1) ≤ pool_free (pm s3).
Proof.
  intros H Hr Ha Hu Hw Hon Hrd Hp Hf Hb Hv HR. pose proof (wk_ok _ _ _ _ _ Hw) as H1. unfold dfr_push.
  assert (∃ s2, (if Z.of_nat (length (dfr s1)) =? 256 then dfr_flush s1 else Some s1) = Some s2 ∧ ok s2 g1 ∧
    ram (pm s2) = ram (pm s1) ∧ pool_free (pm s1) ≤ pool_free (pm s2)) as (s2 & -> & H2 & R2 & F2).
  { destruct (_ =? 256); [|by exists s1]. destruct (dfr_flush_ok s1 g1 H1) as (s2 & -> & H2 & R2 & _ & _ & _ & _ & _ & _ & _ & F2). by exists s2. }
  cbn [mbind option_bind]. set (s2' := {| s2 with dfr := dfr s2 ++ [addr e] |}).
  assert (rd s2 (u, IDX a 0) = Some e) as Hrd2 by (unfold rd; rewrite R2; exact Hrd).
  destruct (pte_put_spec smp s2' (u, IDX a 0) a v e Hrd2) as (s3 & E3 & Epm & Ebk & _ & Edf & _).
  exists s2', s3, (Gh (own g1) (@lfset pool (lf g1) (u, IDX a 0) v) (ext g1)). split; [done|]. split; [done|].
  split; [|rewrite Epm; exact F2].
  eapply paged_walked; [exact H|done|exact Hw|].
  assert (rooted g1 sp) as Hr1 by (eapply rooted_mono; [apply Hw|done]).
  assert (ram (pm s3) = upd (ram (pm s1)) (u, IDX a 0) v) as Hr3 by (rewrite Epm; cbn; by rewrite R2).
  eapply (leaf_paged pool R s1 g1 s3 _ sp a u v (ram (pm s1))); try done.
  - eapply (defer_ok s2 g1 u _ sp _ e v s3); try done.
  - intros va Hva Hin. rewrite (page_ext s1 sp a va Ha Hin), (walked_page pool s g s1 g1 sp a H Hw Hr Hu), Hv. exact HR.
Qed.

Lemma free_page_ok rich dfl sp e :
  e ≤ 2 ^ 47 → aligned e → page_body rich (free_rel rich) (λ _ _ _, False) sp e (free_page smp sp e dfl).
Proof.
  intros He Hea a s g H Hr Ha Hae Hrich. unfold free_page. unfold USER_BASE in Hae.
  assert (user a) as Hu by (unfold user; lia).
  assert (uaddr a = true) as ->.
  { unfold uaddr, USER_BASE, USER_TOP. rewrite (proj2 (Z.leb_le _ _)), (proj2 (Z.ltb_lt _ _)) by lia. done. }
  cbn [negb]. change (whole a e) with (true && whole a e). apply scaffold; try done.
  - by left.
  - by right.
  - intros _ Ham Hal Hsk Hs Hse Hv (u & x & E & Hon & Hx & Hp & Hl). rewrite E. cbn [mbind option_bind].
    rewrite (wr_spec s (u, IDX a 1) x 0 Hx). cbn [mbind option_bind].
    eexists None, _, _, g. split; [done|]. split; [done|]. split; [done|]. split; [|cbn; lia].
    rewrite Hs, Z.min_l by lia.
    eapply (node_paged (free_rel rich) s g _ sp a u x 0); try done. intros va Hva Hin. rewrite Hv by done. by left.
  - intros s1 g1 u Hw Hon Hrd Hf. cbv beta.
    destruct (has (view s sp a) PTE_USED) eqn:Eu; cbn [negb].
    2:{ eapply still_turn; try done. left. unfold page. cbn [fst snd]. by rewrite Eu. }
    destruct (has (view s sp a) PTE_P && dfl && smp) eqn:Ed.
    + bools.
      destruct (deferred_paged (free_rel rich) s g s1 g1 sp a u 0 _ H Hr Ha Hu Hw Hon Hrd) as (s2 & s3 & g3 & -> & E3 & Hp & Hpf); try done.
      { left. unfold page. cbn [fst snd]. by rewrite Eu. }
      cbn [mbind option_bind]. rewrite E3. cbn [mbind option_bind]. eapply page_turn_ok; [done|lia|done|done|exact Hp|lia].
    + destruct (clear_paged (free_rel rich) s g s1 g1 sp a u 0 (view s sp a) H Hr Ha Hu Hw Hon Hrd)
        as (s2 & s3 & g3 & -> & E3 & Hp & Hpf); try done.
      { left. unfold page. cbn [fst snd]. by rewrite Eu. }
      cbn [mbind option_bind]. rewrite E3. cbn [mbind option_bind]. eapply page_turn_ok; [done|lia|done|done|exact Hp|lia].
Qed.

(** *** vmm_range_unmapped *)

Lemma pde_walk_reach k s g t sp va u :
  ok s g → onway (own g) sp va (S k) t → onway (own g) sp va 1 u →
  pde_walk k s t va false = Some (Some (u, IDX va 1), s).
Proof.
  intros H Ht Hu. pose proof (ok_shape _ _ _ H) as Hsh. revert t Ht. induction k as [|k IH]; intros t Ht; cbn [pde_walk].
  { by rewrite (sh_inj _ _ _ _ Hsh _ _ _ Ht Hu). }
  pose proof (sh_level _ _ _ _ Hsh _ _ _ _ Ht). destruct (way_above Hsh sp va 1 (S k) u Hu) as [c Hc]; [lia|].
  destruct (way_up Hsh _ _ _ _ Hc) as (t' & e & Ht' & He & Hp & Ha); [lia|].
  rewrite (sh_inj _ _ _ _ Hsh _ _ _ Ht' Ht) in He. change (rdm (ram (pm s))) with (rd s) in He.
  replace (Z.of_nat (S k) + 1) with (Z.of_nat (S (S k))) by lia. rewrite He. cbn [mbind option_bind]. rewrite Hp, Ha. by apply IH.
Qed.

Lemma reserved_res s g sp va u e :
  ok s g → rooted g sp → user va → onway (own g) sp va 1 u → rd s (u, IDX va 1) = Some e →
  has e PTE_P = false → has e PTE_LAZY = true → pde_res s sp va = Some true.
Proof.
  intros H Hr Hu Hon He Hp Hl. unfold pde_res, pde_slot.
  rewrite (pde_walk_reach 2 s g sp sp va u H (rooted_way _ _ _ Hr Hu) Hon). cbn [mbind option_bind]. rewrite He.
  cbn [mbind option_bind]. by rewrite Hp, Hl.
Qed.

Definition unmapped_rel (x y : Z * option (list Z)) : Prop := y = x ∧ has x.1 PTE_USED = false.

Lemma unmapped_page_ok sp e :
  e ≤ 2 ^ 47 → aligned e →
  page_body false unmapped_rel (λ r a s, r = 1 ∧ has (view s sp a) PTE_USED = true) sp e (unmapped_page sp).
Proof.
  intros He Hea a s g H Hr Ha Hae _. unfold USER_BASE in Hae. assert (user a) as Hu by (unfold user; lia). unfold unmapped_page.
  destruct (hole_ok s g sp a H Hr Ha ltac:(lia)) as (h & Eh & Hh). rewrite Eh. cbn [mbind option_bind].
  destruct Hh as [->|(Hh0 & Hal & Hsk & Hv)].
  2:{ rewrite (proj2 (nz_true h)) by done. by eapply hole_turn. }
  cbn [nz Z.eqb negb].
  destruct (pde_res_ok s g sp a H Hr Hu) as (b & Eb & Hb). rewrite Eb. cbn [mbind option_bind]. destruct b.
  { destruct (Hb eq_refl) as (u & x & _ & Hon & Hx & Hp & Hl). eexists (Some 1), a, s, g. split; [done|]. split; [done|].
    split; [by apply paged_refl|]. split; [done|].
    pose proof (reserved_view s g sp a u x a H Hr Hu Hu Hon Hx Hp Hl eq_refl) as Hpg. unfold page in Hpg. injection Hpg as Hpg _.
    by rewrite Hpg. }
  destruct (slot_ok s g sp a false H Hr Hu) as (o & s1 & g1 & -> & Hw & Hfr & Ho). cbn [mbind option_bind]. specialize (Hfr eq_refl).
  destruct o as [p|].
  - destruct Ho as (u & -> & Hon & Hrd). rewrite Hrd. cbn [mbind option_bind].
    destruct (has (view s sp a) PTE_USED) eqn:Eu.
    + eexists (Some 1), a, s1, g1. split; [done|]. split; [done|]. split; [apply paged_still; try done; intros; lia|].
      split; [done|]. pose proof (walked_page pool s g s1 g1 sp a H Hw Hr Hu) as Hpg. unfold page in Hpg. injection Hpg as Hpg _.
      by rewrite Hpg.
    + eapply still_turn; try done.
  - destruct Ho as [(_ & -> & Hv)|[? _]]; [|done]. eapply still_turn; first [done|by apply walked_refl|lia|idtac].
    destruct Hv as [Hv|(_ & _ & u & x & Hon & Hx & Hp & Hl)]; [unfold unmapped_rel, page; by rewrite Hv|].
    rewrite (reserved_res s g sp a u x) in Eb by done. done.
Qed.

(** *** vmm_discard *)

Definition discard_rel (x y : Z * option (list Z)) : Prop :=
  y = (if Z.land x.1 (Z.lor (Z.lor PTE_P PTE_RW) PTE_SHARED) =? Z.lor PTE_P PTE_RW
       then (Z.lor (Z.lor PTE_LAZY PTE_RW) (Z.land x.1 PTE_US), None) else x).

(** A lazy entry: no frame, nothing behind it. *)
Definition lazy_entry (rw us : bool) : Z := Z.lor (Z.lor PTE_LAZY (opt rw PTE_RW)) (opt us PTE_US).

Lemma lazy_entry_spec rw us :
  fr_of pool (lazy_entry rw us) = None ∧ bk_of (lazy_entry rw us) = None ∧ has (lazy_entry rw us) PTE_P = false.
Proof. by destruct rw, us. Qed.

Lemma land_bit e k : 0 ≤ k → Z.land e (2 ^ k) = opt (has e (2 ^ k)) (2 ^ k).
Proof.
  intros Hk. assert (Z.land e (2 ^ k) = if Z.testbit e k then 2 ^ k else 0) as E.
  { apply Z.bits_inj'. intros n Hn. rewrite Z.land_spec, Z.pow2_bits_eqb by lia. destruct (k =? n) eqn:Ek; bools.
    - subst. rewrite andb_true_r. destruct (Z.testbit e n); [by rewrite Z.pow2_bits_true|by rewrite Z.bits_0].
    - rewrite andb_false_r. destruct (Z.testbit e k); [by rewrite Z.pow2_bits_false|by rewrite Z.bits_0]. }
  unfold has. rewrite E. destruct (Z.testbit e k); [|done]. unfold nz. rewrite (proj2 (Z.eqb_neq _ _)); [done|].
  pose proof (Z.pow_pos_nonneg 2 k). lia.
Qed.

Definition land_US e : Z.land e PTE_US = opt (has e PTE_US) PTE_US := land_bit e 2 (Z.le_0_2).
Definition land_RW e : Z.land e PTE_RW = opt (has e PTE_RW) PTE_RW := land_bit e 1 Z.le_0_1.


Lemma discard_page_ok sp e :
  e ≤ 2 ^ 47 → aligned e → page_body false discard_rel (λ _ _ _, False) sp e (discard_page smp sp e).
Proof.
  intros He Hea a s g H Hr Ha Hae Hrich. unfold discard_page. unfold USER_BASE in Hae.
  assert (user a) as Hu by (unfold user; lia).
  assert (uaddr a = true) as ->.
  { unfold uaddr, USER_BASE, USER_TOP. rewrite (proj2 (Z.leb_le _ _)), (proj2 (Z.ltb_lt _ _)) by lia. done. }
  cbn [negb]. change (whole a e) with (true && whole a e). apply scaffold; try done.
  - intros _ Ham Hal Hsk Hs Hse Hv _. by eapply big_turn.
  - intros s1 g1 u Hw Hon Hrd Hf. cbv beta. set (x := view s sp a) in *.
    destruct (Z.land x (Z.lor (Z.lor PTE_P PTE_RW) PTE_SHARED) =? Z.lor PTE_P PTE_RW) eqn:Em; cbn [negb].
    2:{ eapply still_turn; try done. unfold discard_rel, page. cbn [fst snd]. fold x. by rewrite Em. }
    assert (has x PTE_P = true) as Hp.
    { bools. unfold has. replace (Z.land x PTE_P) with (Z.land (Z.land x (Z.lor (Z.lor PTE_P PTE_RW) PTE_SHARED)) PTE_P).
      - by rewrite Em.
      - rewrite <- Z.land_assoc. done. }
    rewrite land_US. destruct (lazy_entry_spec true (has x PTE_US)) as (V1 & V2 & V3). unfold lazy_entry in V1, V2, V3. cbn [opt] in V1, V2, V3.
    assert (discard_rel (page s sp a) (Z.lor (Z.lor PTE_LAZY PTE_RW) (opt (has x PTE_US) PTE_US), None)) as HR.
    { unfold discard_rel, page. cbn [fst snd]. fold x. by rewrite Em, land_US. }
    destruct smp eqn:Esmp.
    + destruct (deferred_paged discard_rel s g s1 g1 sp a u _ x H Hr Ha Hu Hw Hon Hrd Hp V1 V2 V3 HR) as (s2 & s3 & g3 & -> & E3 & Hpg & Hpf).
      cbn [mbind option_bind]. rewrite Esmp in E3. rewrite E3. cbn [mbind option_bind]. eapply page_turn_ok; [done|lia|done|done|exact Hpg|done].
    + destruct (clear_paged discard_rel s g s1 g1 sp a u _ x H Hr Ha Hu Hw Hon Hrd V1 V2 V3 HR) as (s2 & s3 & g3 & E2 & E3 & Hpg & Hpf).
      unfold pte_drop in E2. rewrite Hp in E2. rewrite E2. cbn [mbind option_bind]. rewrite Esmp in E3. rewrite E3. cbn [mbind option_bind].
      eapply page_turn_ok; [done|lia|done|done|exact Hpg|done].
Qed.

(** *** vmm_lazy_range *)

Lemma uaddr_in a e : USER_BASE ≤ a < e → e ≤ 2 ^ 47 → uaddr a = true.
Proof.
  intros Ha He. unfold uaddr, USER_TOP. rewrite (proj2 (Z.leb_le _ _)), (proj2 (Z.ltb_lt _ _)) by (unfold USER_BASE in *; lia). done.
Qed.

Lemma pde_walk_make k s g t sp va :
  ok s g → user va → onway (own g) sp va (S k) t → (k ≤ 2)%nat →
  ∃ o s' g', pde_walk k s t va true = Some (o, s') ∧ walked s g s' g' ∧
    match o with Some p => ∃ u, p = (u, IDX va 1) ∧ onway (own g') sp va 1 u | None => pool_free (pm s') = 0 end.
Proof.
  revert s g t. induction k as [|k IH]; intros s g t H Hu Ht Hk; cbn [pde_walk].
  { eexists _, s, g. split; [done|]. split; [by apply walked_refl|]. by exists t. }
  destruct (way_rd (ok_shape _ _ _ H) _ _ _ _ Ht) as [e He]. change (rdm (ram (pm s))) with (rd s) in He.
  replace (Z.of_nat (S k) + 1) with (Z.of_nat (S (S k))) by lia. rewrite He. cbn [mbind option_bind].
  destruct (has e PTE_P) eqn:Ep; [apply IH; [done|done|by eapply (way_down (ok_shape _ _ _ H))|lia]|]. cbn [negb].
  destruct (new_table_walked pool s g t (IDX va (Z.of_nat (S (S k)))) sp (S k) _ e 0 H Ht) as (o & s1 & E1 & Ho);
    [apply IDX_range; lia|by apply user_top|done|done|done|done|by left| |].
  { rewrite (proj2 (Z.eqb_neq (Z.of_nat (S (S k))) 1)) by lia. done. }
  unfold zero_page. rewrite E1. cbn [mbind option_bind]. destruct o as [n|].
  - destruct Ho as (Hpg & g1 & Hw1 & Hn). destruct (table_entry_spec n Hpg) as [_ Hte]. fold (table_entry n). rewrite Hte.
    destruct (IH s1 g1 n (wk_ok _ _ _ _ _ Hw1) Hu) as (o & s' & g' & E & Hw & Ho); [|lia|].
    + unfold onway. rewrite pxl_step by lia. by replace (Z.of_nat (S k) + 1) with (Z.of_nat (S (S k))) by lia.
    + exists o, s', g'. split; [done|]. split; [by eapply walked_trans|done].
  - destruct Ho as [-> Hf]. eexists _, s, g. split; [done|]. split; [by apply walked_refl|done].
Qed.

Definition lazy_rel (rw us : bool) (x y : Z * option (list Z)) : Prop := y = (lazy_entry rw us, None).

(** What a loop that ran out of frames says. *)
Definition oom (r a : Z) s : Prop := r = -1 ∧ pool_free (pm s) = 0.

Lemma leave_turn R sp e s g a s1 g1 :
  ok s g → rooted g sp → walked s g s1 g1 → pool_free (pm s1) = 0 →
  turn_ok false R oom sp e s g a (leave (-1) a s1).
Proof.
  intros H Hr Hw Hf. eexists (Some (-1)), a, s1, g1. split; [done|]. split; [done|]. split; [|done].
  apply paged_still; [done|done|exact Hw|]. intros. lia.
Qed.

Lemma lazy_page_ok rw us sp e :
  e ≤ 2 ^ 47 → aligned e → page_body false (lazy_rel rw us) oom sp e (lazy_page smp sp e rw us).
Proof.
  intros He Hea a s g H Hr Ha Hae _. unfold lazy_page. rewrite (uaddr_in a e Hae He). cbn [negb].
  unfold USER_BASE in Hae. assert (user a) as Hu by (unfold user; lia).
  destruct (lazy_entry_spec rw us) as (V1 & V2 & V3).
  assert (∃ b s1 g1, (if negb rw && negb us && whole a e
     then '(p, s) ← pde_slot s sp a true;
          match p with
          | None => Some (false, s)
          | Some p => x ← rd s p; if (x =? 0) || (x =? PTE_LAZY) then s ← wr s p PTE_LAZY; Some (true, s) else Some (false, s)
          end
     else Some (false, s)) = Some (b, s1) ∧
     if b : bool then rw = false ∧ us = false ∧ whole a e = true ∧ paged (lazy_rel rw us) sp a (a + 2 ^ 21) s g s1 g1
     else walked s g s1 g1) as (b & s1 & g1 & -> & Hb).
  { destruct (negb rw && negb us && whole a e) eqn:Ec; [|exists false, s, g; split; [done|by apply walked_refl]]. bools.
    destruct (whole_spec a e ltac:(lia) ltac:(done)) as [Ham Hle].
    destruct (pde_walk_make 2 s g sp sp a H Hu (rooted_way _ _ _ Hr Hu)) as (o & s1 & g1 & E & Hw & Ho); [lia|].
    unfold pde_slot. rewrite E. cbn [mbind option_bind]. destruct o as [p|]; [|by exists false, s1, g1].
    destruct Ho as (u & -> & Hon). destruct (way_rd (ok_shape _ _ _ (wk_ok _ _ _ _ _ Hw)) _ _ _ _ Hon) as [x Hx].
    change (Z.of_nat 1) with 1 in Hx. change (rdm (ram (pm s1))) with (rd s1) in Hx. rewrite Hx. cbn [mbind option_bind].
    destruct ((x =? 0) || (x =? PTE_LAZY)) eqn:Ex; [|by exists false, s1, g1].
    rewrite (wr_spec s1 _ x PTE_LAZY Hx). cbn [mbind option_bind]. eexists true, _, g1. split; [done|]. split_and!; try done.
    eapply paged_walked; [exact H|done|exact Hw|].
    eapply (node_paged _ s1 g1 _ sp a u x PTE_LAZY); try done.
    - apply Hw.
    - eapply rooted_mono; [apply Hw|done].
    - apply orb_true_iff in Ex as [Ex|Ex]; bools; by subst.
    - intros va Hva Hin. cbn. unfold lazy_rel. by subst. }
  cbn [mbind option_bind]. destruct b.
  { destruct Hb as (-> & -> & Hwh & Hp). destruct (whole_spec a e ltac:(lia) Hwh) as [Ham Hle].
    assert (skip_big a = a + 2 ^ 21 - 4096) as Es by (unfold skip_big, BIG, PAGE_SIZE; rewrite u64_small; lia).
    eexists None, _, s1, g1. split; [done|]. rewrite Es. split; [unfold aligned in *; Z.div_mod_to_equations; lia|]. split; [lia|].
    split; [|done]. rewrite Z.min_l by lia. by replace (a + 2 ^ 21 - 4096 + 4096) with (a + 2 ^ 21) by lia. }
  assert (rooted g1 sp) as Hr1 by (eapply rooted_mono; [apply Hb|done]).
  destruct (slot_ok s1 g1 sp a true (wk_ok _ _ _ _ _ Hb) Hr1 Hu) as (o & s2 & g2 & -> & Hw2 & _ & Ho). cbn [mbind option_bind].
  pose proof (walked_trans _ _ _ _ _ _ _ Hb Hw2) as Hw.
  destruct o as [p|]; [|by eapply leave_turn; [done|done|exact Hw|destruct Ho as [[? _]|[_ ?]]]].
  destruct Ho as (u & -> & Hon & Hrd). rewrite Hrd. cbn [mbind option_bind].
  destruct (clear_paged (lazy_rel rw us) s g s2 g2 sp a u (lazy_entry rw us) _ H Hr Ha Hu Hw Hon Hrd V1 V2 V3 eq_refl)
    as (s3 & s4 & g4 & -> & E4 & Hp & _).
  cbn [mbind option_bind]. fold (lazy_entry rw us). rewrite E4. cbn [mbind option_bind].
  eapply page_turn_ok; [done|lia|done|done|exact Hp|done].
Qed.

(** *** vmm_alloc_range *)

(** An entry for a frame of the pool. *)
Lemma frame_entry fr fl : is_page fr → 0 ≤ fl < 4096 → has fl PTE_P = true →
  has (Z.lor fr fl) PTE_P = true ∧ addr (Z.lor fr fl) = fr ∧ bk_of (Z.lor fr fl) = None ∧
  (pool fr = true → fr_of pool (Z.lor fr fl) = Some fr) ∧ (pool fr = false → fr_of pool (Z.lor fr fl) = None) ∧
  ∀ m, 0 ≤ m < 4096 → has (Z.lor fr fl) m = has fl m.
Proof.
  intros Hp Hf Hfp. assert (has (Z.lor fr fl) PTE_P = true) as H1 by (by rewrite has_lor).
  assert (addr (Z.lor fr fl) = fr) as H2 by (apply addr_lor; [done|by apply addr_low]).
  split; [done|]. split; [done|]. split; [unfold bk_of; by rewrite H1|].
  split; [intros Hpl; unfold fr_of; by rewrite H1, H2, Hpl|].
  split; [intros Hpl; unfold fr_of; by rewrite H1, H2, Hpl|]. intros m Hm. by apply has_lor.
Qed.

Definition alloc_rel (w : bool) (x y : Z * option (list Z)) : Prop :=
  if has x.1 PTE_P
  then y.2 = x.2 ∧ if w then y.1 = Z.lor (Z.ldiff x.1 PTE_COW) PTE_RW ∨ y.1 = Z.lor (Z.ldiff x.1 PTE_RW) PTE_COW
                   else y.1 = x.1
  else if has x.1 PTE_SWAP then y = (if w then Z.lor x.1 PTE_RW else x.1, None)
  else has y.1 PTE_P = true ∧ has y.1 PTE_US = true ∧ has y.1 PTE_RW = w ∧ has y.1 PTE_SHARED = false ∧ y.2 = Some zero_page.

Lemma alloc_page_ok w sp e :
  e ≤ 2 ^ 47 → aligned e → page_body false (alloc_rel w) oom sp e (alloc_page smp sp w).
Proof.
  intros He Hea a s g H Hr Ha Hae _. unfold alloc_page. rewrite (uaddr_in a e Hae He). cbn [negb].
  pose proof Hae as Hae'. unfold USER_BASE in Hae'. assert (user a) as Hu by (unfold user; lia).
  destruct (slot_ok s g sp a true H Hr Hu) as (o & s1 & g1 & -> & Hw & _ & Ho). cbn [mbind option_bind].
  destruct o as [p|]; [|by eapply leave_turn; [done|done|exact Hw|destruct Ho as [[? _]|[_ ?]]]].
  destruct Ho as (u & -> & Hon & Hrd). rewrite Hrd. cbn [mbind option_bind]. set (x := view s sp a) in *.
  assert (page s sp a = (x, if has x PTE_P then ram (pm s) !! addr x else None)) as Epg by done.
  pose proof (wk_ok _ _ _ _ _ Hw) as H1.
  assert (∀ s3 g3, paged (alloc_rel w) sp a (a + 4096) s g s3 g3 → turn_ok false (alloc_rel w) oom sp e s g a (next a s3)) as Hturn.
  { intros s3 g3 Hp. eapply page_turn_ok; [done|lia|done|done|exact Hp|done]. }
  assert (∀ y, page s sp a = y → alloc_rel w y y → turn_ok false (alloc_rel w) oom sp e s g a (next a s1)) as Hstill.
  { intros y Ey Hy. apply (Hturn s1 g1). apply paged_still; [done|done|exact Hw|]. intros va Hva Hin.
    by rewrite (page_ext s sp a va Ha Hin), Ey. }
  destruct (has x PTE_P) eqn:Ep; [|destruct (has x PTE_SWAP) eqn:Es].
  - destruct w; cbn [mbind option_bind].
    + destruct (make_writable_spec s1 g1 u (IDX a 0) sp _ a _ H1 Hon Hrd) as (v & -> & Hk & Hpr & Hcow & Hv).
      destruct (same_key_of _ _ Hk) as [Hfk Hbk].
      destruct (mark_paged (alloc_rel true) s g s1 g1 sp a u v x H Hr Ha Hu Hw Hon eq_refl Hrd Hfk Hbk Hpr) as (s2 & g2 & -> & Hp & _);
        [apply Hk|apply Hk|done| |].
      * rewrite Epg. unfold alloc_rel. cbn [fst snd]. rewrite Ep. split; [done|]. tauto.
      * cbn [mbind option_bind]. by eapply Hturn.
    + eapply Hstill; [exact Epg|]. unfold alloc_rel. cbn [fst]. by rewrite Ep.
  - destruct w; cbn [mbind option_bind].
    + rewrite (wr_spec s1 _ _ _ Hrd). cbn [mbind option_bind].
      pose proof (lor_key x PTE_RW ltac:(done)) as Hk. destruct (same_key_of _ _ Hk) as [Hfk Hbk].
      match goal with |- turn_ok _ _ _ _ _ _ _ _ (next a ?t) => set (s2 := t) end.
      destruct (mark_state (alloc_rel true) s g s1 g1 s2 sp a u (Z.lor x PTE_RW) x) as [g2 Hp]; try done.
      * intros fr _ Hf. rewrite Hfk in Hf. unfold fr_of in Hf. by rewrite Ep in Hf.
      * apply Hk.
      * apply Hk.
      * intros Hp. by rewrite has_lor_off, Ep in Hp.
      * rewrite Epg. unfold alloc_rel. cbn [fst snd]. rewrite Ep, Es. done.
      * by eapply Hturn.
    + eapply Hstill; [exact Epg|]. unfold alloc_rel. cbn [fst]. by rewrite Ep, Es.
  - destruct (alloc_ok pool s1 g1 H1) as (fr & s2 & -> & Hpo & _ & Hc). cbn [mbind option_bind].
    destruct Hc as [(-> & -> & Hf)|(Hpg & Hpl & Hnh & Hram & Href & H2)]; [by eapply leave_turn|].
    rewrite (proj2 (Z.eqb_neq fr 0)) by (unfold is_page in Hpg; lia).
    assert (u ≠ fr) as Huf.
    { intros ->. apply Hnh. unfold onway in Hon. by eapply own_held. }
    assert (rd s2 (u, IDX a 0) = Some x) as Hrd2.
    { rewrite <- Hrd. unfold rd. cbn [fst]. rewrite Hram. by rewrite lookup_insert_ne. }
    rewrite Hrd2. cbn [mbind option_bind].
    rewrite <- !Z.lor_assoc. set (fl := Z.lor PTE_P (Z.lor PTE_US (opt w PTE_RW))).
    assert (0 ≤ fl < 4096 ∧ has fl PTE_P = true ∧ has fl PTE_US = true ∧ has fl PTE_RW = w ∧ has fl PTE_SHARED = false)
      as (Hfl & F1 & F2 & F3 & F4) by (by destruct w).
    destruct (frame_entry fr fl Hpg Hfl F1) as (V1 & V2 & V3 & V4 & _ & V5).
    destruct (replace_paged (alloc_rel w) s g s1 g1 s2 {| g1 with ext := fr :: ext g1 |} sp a u (Z.lor fr fl) x)
      as (s3 & s4 & g4 & E3 & E4 & Hp & _); try done.
    + rewrite (V4 Hpl). cbn. by rewrite (wk_ext _ _ _ _ _ Hw).
    + intros f Hf. rewrite Hram in Hf. destruct (decide (f = fr)) as [->|]; [done|]. by rewrite lookup_insert_ne in Hf.
    + intros f _ Hf. rewrite (V4 Hpl) in Hf. by injection Hf as <-.
    + intros _ _. by rewrite V2.
    + rewrite Epg, V1, V2. unfold alloc_rel. cbn [fst snd]. rewrite Ep, Es, !V5 by done. split_and!; try done.
      rewrite upd_other by (cbn; congruence). rewrite Hram. by rewrite lookup_insert_eq.
    + unfold pte_drop, pte_rel in E3. rewrite Ep, Es in E3. rewrite E3. cbn [mbind option_bind]. rewrite E4. cbn [mbind option_bind].
      by eapply Hturn.
Qed.

End ops.
End VmmOps.
