(* ===== verification/Spaces.v ===== *)
(** * Address spaces (src/src/core/vmm.c): the contract

    The theorems on the operations of [Vmm], on top of the lemmas of [VmmOps]: what
    each of them does to the pages of every space, that pages stay private, and
    the swap areas of [Swap] as the store behind pages that are not present. *)

From S2P Require Import Prelude Refs Swap Pmm Vmm VmmOps.
Import Pmm Vmm VmmOps.

Module Spaces.

(** A bind on a known value, without evaluating what follows. *)
Lemma bind_ok {A C} (x : A) (f : A → option C) : (Some x ≫= f) = f x.
Proof. done. Qed.

(** ** The swap areas are a backing store *)

#[export] Instance swap_backing : Backing Swap.areas := {|
  swap_put := Swap.swap_put;
  swap_dup := Swap.swap_dup;
  swap_alloc := Swap.swap_alloc;
  swap_read := λ _ _, None;
  shm_lz_put := λ _ _, None;
  shm_lz_dup := λ _ _, None;
  shm_lz_frame := λ _ _ _, None
|}.

Definition swap_held (ar : Swap.areas) (h : list (bool * Z)) : Prop :=
  Forall (λ k, k.1 = true) h ∧ Swap.linked ar ((λ k : bool * Z, Z.shiftr k.2 12) <$> h).

Lemma swap_held_perm ar h h' : h ≡ₚ h' → swap_held ar h → swap_held ar h'.
Proof.
  intros Hp (Hf & Hi & Hl). split; [by rewrite <- Hp|]. split; [done|].
  eapply link_perm; [exact Hl|]. by apply fmap_Permutation.
Qed.

Lemma swap_held_proper : Proper ((=) ==> (≡ₚ) ==> iff) swap_held.
Proof. intros ar ? <- h h' Hp. split; apply swap_held_perm; [done|by symmetry]. Qed.

Lemma swap_held_put ar a h :
  swap_held ar ((true, a) :: h) → ∃ ar', Swap.swap_put ar (Z.shiftr a 12) = Some ar' ∧ swap_held ar' h.
Proof.
  intros (Hf & Hi & Hl). apply Forall_cons in Hf as [_ Hf]. cbn in Hl.
  destruct (Swap.swap_put_spec ar (Z.shiftr a 12) Hi) as (ar' & E & Hi' & Ht); [eapply link_held; [done|by left]|].
  exists ar'. split; [done|]. split; [done|]. split; [done|].
  eapply effect_link; [eapply put; [reflexivity|exact Ht]|exact Hl].
Qed.

Lemma swap_held_dup ar a h :
  (true, a) ∈ h → swap_held ar h → ∃ ar', Swap.swap_dup ar (Z.shiftr a 12) = Some ar' ∧ swap_held ar' ((true, a) :: h).
Proof.
  intros Hin (Hf & Hi & Hl).
  assert (Z.shiftr a 12 ∈ (λ k : bool * Z, Z.shiftr k.2 12) <$> h) as Hin' by (apply list_elem_of_fmap; by exists (true, a)).
  destruct (Swap.swap_dup_spec ar (Z.shiftr a 12) Hi) as (ar' & E & Hi' & Ht); [by eapply link_held|].
  exists ar'. split; [done|]. split; [by constructor|]. split; [done|]. cbn.
  eapply effect_link; [by apply dup|exact Hl].
Qed.

(** Without shared segments nothing of them is held. *)
Lemma swap_held_shm ar x h : (false, x) ∈ h → ¬ swap_held ar h.
Proof. intros Hin (Hf & _). rewrite Forall_forall in Hf. by specialize (Hf _ Hin). Qed.

#[export] Instance swap_backing_laws : BackingLaws Swap.areas := {|
  held := swap_held;
  held_perm := swap_held_proper;
  put_swap := swap_held_put;
  put_shm ar e h H := False_ind _ (swap_held_shm ar (addr e) _ (list_elem_of_here _ _) H);
  dup_swap := swap_held_dup;
  dup_shm ar e h Hin H := False_ind _ (swap_held_shm ar (addr e) h Hin H)
|}.

Section spaces.
Context {B : Type} `{!Backing B, !BackingLaws B}.
Context (smp : bool) (kernel_cr3 : Z) (pool : Z → bool).
Implicit Types (s : @vs B) (g : ghost).
Abbreviation ok := (ok pool).
Abbreviation paged := (paged pool).

(** ** Locks and counters *)

(** The memory, the store and the waiting frames are the same. *)
Definition same_mem s s' : Prop := pm s' = pm s ∧ bk s' = bk s ∧ dfr s' = dfr s.

Lemma ok_same s s' g : same_mem s s' → ok s g → ok s' g.
Proof.
  intros (E1 & E2 & E3) [A1 A2 A3 A4 A5 A6 A7 A8 A9].
  split; unfold holders, rd in *; rewrite ?E1, ?E2, ?E3; done.
Qed.

Lemma page_same s s' sp va : same_mem s s' → page s' sp va = page s sp va.
Proof. intros (E1 & _). unfold page, view. by rewrite E1. Qed.

Lemma paged_same R sp lo hi s0 s1 s2 s3 g g' :
  same_mem s0 s1 → same_mem s2 s3 → paged R sp lo hi s1 g s2 g' → paged R sp lo hi s0 g s3 g'.
Proof.
  intros H1 H2 [K O X P I]. split; [by eapply ok_same|done|done| |].
  - intros sp' va Hu Hr Hn. rewrite (page_same s2 s3), <- (page_same s0 s1) by done. by apply P.
  - intros va Hu Hin. rewrite (page_same s2 s3), <- (page_same s0 s1) by done. by apply I.
Qed.

Lemma same_refl s : same_mem s s.
Proof. done. Qed.

Definition paged_end R sp lo hi s g s1 s2 g' (Hs : same_mem s1 s2) := paged_same R sp lo hi s s s1 s2 g g' (same_refl s) Hs.

Lemma same_lock s pd : same_mem s (defer (MMLOCK s pd)).
Proof. done. Qed.

Lemma same_end s : same_mem s (sd_end s).
Proof. unfold sd_end. cbv zeta. by destruct (_ && _). Qed.

(** ** The operations on ranges *)

Inductive range_op :=
  | OpAlloc (writable : bool)
  | OpUser (us : bool)
  | OpWritable (writable : bool)
  | OpFree
  | OpDiscard
  | OpLazy (rw us : bool).

Definition range_run (o : range_op) s (pd va len : Z) : option (Z * vs) :=
  match o with
  | OpAlloc w => vmm_alloc_range smp s pd va len w
  | OpUser us => s ← vmm_set_user smp s pd va len us; Some (0, s)
  | OpWritable w => s ← vmm_set_writable smp s pd va len w; Some (0, s)
  | OpFree => s ← vmm_free_range smp s pd va len; Some (0, s)
  | OpDiscard => s ← vmm_discard smp s pd va len; Some (0, s)
  | OpLazy rw us => vmm_lazy_range smp s pd va len rw us
  end.

(** The change of one page.  Pages reserved 2 MiB at a time have no table until one
    of them is treated apart; when there is no frame for it ([rich] false) such a
    page may stay as it is in the operations that cannot fail. *)
Definition range_rel (rich : bool) (o : range_op) : Z * option (list Z) → Z * option (list Z) → Prop :=
  match o with
  | OpAlloc w => alloc_rel w
  | OpUser us => user_rel us rich
  | OpWritable w => writable_rel w rich
  | OpFree => free_rel rich
  | OpDiscard => discard_rel
  | OpLazy rw us => lazy_rel rw us
  end.

(** The operations that need a frame for a page say so when there is none. *)
Definition may_fail (o : range_op) : bool := match o with OpAlloc _ | OpLazy _ _ => true | _ => false end.

(** There are as many free frames as pages in the range. *)
Definition enough s (va len : Z) : Prop := (range_end va len - lo_of va) / 4096 ≤ pool_free (pm s).

#[export] Instance enough_dec s va len : Decision (enough s va len).
Proof. unfold enough. apply _. Defined.

Lemma hash_range pd : 0 ≤ Z.land (Z.shiftr pd 12) 15 < 16.
Proof. change 15 with (Z.ones 4). rewrite Z.land_ones by lia. apply Z.mod_pos_bound. lia. Qed.

Lemma fc_lower_ok s pd va : length (fc s) = 16%nat → ∃ s1, fc_lower s pd va = Some s1 ∧ same_mem s s1 ∧ length (fc s1) = 16%nat.
Proof.
  intros Hfc. pose proof (hash_range pd) as Hh. unfold fc_lower. cbv zeta.
  destruct (arr_get_is_Some (fc s) (Z.land (Z.shiftr pd 12) 15)) as [c Hc]; [lia|]. rewrite Hc. cbn [mbind option_bind].
  destruct (_ && _); [|by exists s]. destruct (set_total _ _ _ {| c with fc_cache := Z.ldiff va 4095 |} Hc) as [l Hl].
  rewrite Hl. cbn [mbind option_bind]. eexists. split; [done|]. split; [done|]. cbn. by rewrite (arr_set_length _ _ _ _ Hl).
Qed.

Lemma free_range_nl_ok (rich : bool) s g pd va len dfl :
  ok s g → rooted g pd → length (fc s) = 16%nat → USER_BASE ≤ va → 0 ≤ len → va + len ≤ USER_TOP →
  (rich = true → enough s va len) →
  ∃ s' g', vmm_free_range_nl smp s pd va len dfl = Some s' ∧ paged (free_rel rich) pd (lo_of va) (range_end va len) s g s' g'.
Proof.
  intros H Hr Hfc Hva Hl Ht Hen. unfold vmm_free_range_nl.
  destruct (fc_lower_ok s pd va Hfc) as (s1 & -> & Hs1 & _). rewrite bind_ok.
  destruct (range_end_spec pool va len Hva Hl Ht) as (He1 & He2 & _).
  assert (same_mem s (defer s1)) as Hs2 by exact Hs1.
  destruct (on_pages_ok pool rich (free_rel rich) (λ _ _ _, False) pd (free_page smp pd (range_end va len) dfl) va len (defer s1) g)
    as (r & s' & g' & m & -> & Hm & Hp & Hc'); try done.
  - apply free_page_ok; [lia|done].
  - by eapply ok_same.
  - intros Ht'. specialize (Hen Ht'). unfold enough in Hen. by rewrite (proj1 Hs2).
  - rewrite bind_ok. destruct Hc' as [[-> ->]|(_ & _ & [])]. eexists _, g'. split; [done|].
    eapply paged_same; [exact Hs2| |exact Hp]. destruct dfl; [done|apply same_end].
Qed.

Lemma flush_paged R sp lo hi s g s1 g1 :
  paged R sp lo hi s g s1 g1 → ∃ s2, dfr_flush s1 = Some s2 ∧ paged R sp lo hi s g s2 g1.
Proof.
  intros [K O X P I]. destruct (dfr_flush_ok pool s1 g1 K) as (s2 & -> & H2 & R2 & _). exists s2. split; [done|].
  assert (∀ sp' va, page s2 sp' va = page s1 sp' va) as Hpg by (intros; unfold page, view; by rewrite R2).
  split; [done|done|done| |].
  - intros. rewrite Hpg. by apply P.
  - intros. rewrite Hpg. by apply I.
Qed.

Lemma range_run_ok (rich : bool) o s g pd va len :
  ok s g → rooted g pd → length (fc s) = 16%nat → USER_BASE ≤ va → 0 ≤ len → va + len ≤ USER_TOP →
  (rich = true → enough s va len) →
  ∃ r s' g' m, range_run o s pd va len = Some (r, s') ∧ lo_of va ≤ m ≤ range_end va len ∧
    paged (range_rel rich o) pd (lo_of va) m s g s' g' ∧
    ((r = 0 ∧ m = range_end va len) ∨ (may_fail o = true ∧ r = -1 ∧ m < range_end va len ∧ pool_free (pm s') = 0)).
Proof.
  intros H Hr Hfc Hva Hl Ht Hen. destruct (range_end_spec pool va len Hva Hl Ht) as (He1 & He2 & _).
  pose proof (same_lock s pd) as Hlk. pose proof (ok_same _ _ _ Hlk H) as H0.
  assert (∀ (rich' : bool) R L body, (rich' = true → rich = true) → page_body pool rich' R L pd (range_end va len) body →
    ∃ r s' g' m, on_pages va len body (defer (MMLOCK s pd)) = Some (r, s') ∧ lo_of va ≤ m ≤ range_end va len ∧
      paged R pd (lo_of va) m s g s' g' ∧
      ((r = 0 ∧ m = range_end va len) ∨ (r ≠ 0 ∧ m < range_end va len ∧ L r m s'))) as Hloop.
  { intros rich' R L body Hri Hb. destruct (on_pages_ok pool rich' R L pd body va len _ g Hb H0 Hr Hva Hl Ht) as (r & s' & g' & m & ? & ? & Hp & ?).
    - intros E'. exact (Hen (Hri E')).
    - exists r, s', g', m. split_and!; try done; try lia. eapply paged_same; [exact Hlk|done|exact Hp]. }
  destruct o as [w|us|w| | |rw us]; cbn [range_run range_rel may_fail].
  - destruct (Hloop false _ _ _ ltac:(done) (alloc_page_ok smp pool w pd (range_end va len) ltac:(lia) He1)) as (r & s' & g' & m & E & Hm & Hp & Hc).
    unfold vmm_alloc_range, vmm_alloc_range_nl. rewrite E. rewrite bind_ok. exists r, (sd_end s'), g', m. split; [done|]. split; [done|].
    split; [eapply paged_end; [apply same_end|exact Hp]|]. destruct (same_end s') as (-> & _). unfold oom in Hc. tauto.
  - destruct (Hloop rich _ _ _ (λ x, x) (user_page_ok smp pool rich us pd (range_end va len) ltac:(lia) He1)) as (r & s' & g' & m & E & Hm & Hp & Hc).
    unfold vmm_set_user. rewrite E. rewrite bind_ok. exists 0, (sd_end s'), g', m. split; [done|]. split; [done|].
    split; [eapply paged_end; [apply same_end|exact Hp]|]. tauto.
  - destruct (Hloop rich _ _ _ (λ x, x) (writable_page_ok smp pool rich w pd (range_end va len) ltac:(lia) He1)) as (r & s' & g' & m & E & Hm & Hp & Hc).
    unfold vmm_set_writable. rewrite E. rewrite bind_ok. exists 0, (sd_end s'), g', m. split; [done|]. split; [done|].
    split; [eapply paged_end; [apply same_end|exact Hp]|]. tauto.
  - unfold vmm_free_range. assert (same_mem s (MMLOCK s pd)) as Hmk by done. destruct (free_range_nl_ok rich (MMLOCK s pd) g pd va len true) as (s1 & g1 & E & Hp); try done; [by eapply ok_same; [exact Hmk|]|].
    rewrite E. rewrite bind_ok. destruct (flush_paged _ _ _ _ _ _ _ _ Hp) as (s2 & -> & Hp2). rewrite bind_ok.
    exists 0, s2, g1, (range_end va len). split; [done|]. split; [lia|]. split; [|by left]. eapply paged_same; [exact Hmk|done|exact Hp2].
  - destruct (Hloop false _ _ _ ltac:(done) (discard_page_ok smp pool pd (range_end va len) ltac:(lia) He1)) as (r & s' & g' & m & E & Hm & Hp & Hc).
    unfold vmm_discard. rewrite E. rewrite bind_ok.
    assert (paged discard_rel pd (lo_of va) m s g {| s' with sd_defer := sd_defer s' - 1 |} g') as Hp1 by (by eapply paged_end; [|exact Hp]).
    destruct (flush_paged _ _ _ _ _ _ _ _ Hp1) as (s2 & -> & Hp2). rewrite bind_ok.
    exists 0, s2, g', m. split; [done|]. split; [done|]. split; [done|]. tauto.
  - destruct (Hloop false _ _ _ ltac:(done) (lazy_page_ok smp pool rw us pd (range_end va len) ltac:(lia) He1)) as (r & s' & g' & m & E & Hm & Hp & Hc).
    unfold vmm_lazy_range, vmm_lazy_range_nl. rewrite E. rewrite bind_ok. exists r, (sd_end s'), g', m. split; [done|]. split; [done|].
    split; [eapply paged_end; [apply same_end|exact Hp]|]. destruct (same_end s') as (-> & _). unfold oom in Hc. tauto.
Qed.

(** ** A new space *)

Definition fresh_root (k : list Z) : list Z := firstn 256 zero_page ++ skipn 256 k.

Lemma root_user k i e : length k = 512%nat → (fresh_root k).[i] = Some e → i < 256 → e = 0.
Proof.
  intros Hk He Hi. unfold fresh_root in He. apply arr_get_Some in He as [Hi0 He].
  rewrite lookup_app_l in He by (rewrite length_firstn; cbn; lia). rewrite lookup_take in He.
  case_decide; [|done]. apply lookup_replicate in He as [-> _]. done.
Qed.

Lemma shape_root r o l0 pd k :
  shape pool r o l0 → o !! pd = None → is_page pd → length k = 512%nat →
  shape pool (<[pd := fresh_root k]> r) (<[pd := (pd, 3%nat, 0)]> o) l0.
Proof.
  intros Hsh Hn Hpg Hk. set (r' := <[pd := fresh_root k]> r).
  assert (∀ u x, o !! u = Some x → <[pd := (pd, 3%nat, 0)]> o !! u = Some x) as Hown.
  { intros u x Hu. rewrite lookup_insert_ne; [done|congruence]. }
  assert (shape pool r' o l0) as H'.
  { eapply shape_other; [exact Hsh|]. intros t x Ht. apply lookup_insert_ne. congruence. }
  assert (∀ i e, rdm r' (pd, i) = Some e → i < 256 → e = 0) as Hz.
  { intros i e He Hi. unfold rdm, r' in He. cbn [fst snd] in He. rewrite lookup_insert_eq in He. cbn in He. by eapply root_user. }
  assert (∀ t sp l px, o !! t = Some (sp, l, px) → sp ≠ pd) as Hsp.
  { intros t sp l px Ht ->. apply (sh_root _ _ _ _ Hsh) in Ht. congruence. }
  split.
  - intros t x. destruct (decide (t = pd)) as [->|Hne].
    + intros _. split; [done|]. exists (fresh_root k). unfold r'. rewrite lookup_insert_eq. split; [done|].
      unfold fresh_root. rewrite length_app, length_firstn, length_skipn, Hk. done.
    + rewrite lookup_insert_ne by done. apply (sh_table _ _ _ _ H').
  - intros t t' x. destruct (decide (t = pd)) as [->|], (decide (t' = pd)) as [->|];
      rewrite ?lookup_insert_eq, ?lookup_insert_ne by done; intros E1 E2; try done.
    + injection E1 as <-. by destruct (Hsp _ _ _ _ E2).
    + injection E2 as <-. by destruct (Hsp _ _ _ _ E1).
    + by eapply (sh_inj _ _ _ _ Hsh).
  - intros t sp lvl px i e. destruct (decide (t = pd)) as [->|Hne].
    + rewrite lookup_insert_eq. intros [= <- <- <-] Hi He Hp. rewrite (Hz i e He ltac:(auto)) in Hp. done.
    + rewrite lookup_insert_ne by done. intros Ht Hi He Hp. by eapply Hown, (sh_node _ _ _ _ H').
  - intros t sp lvl px. destruct (decide (t = pd)) as [->|Hne].
    + rewrite lookup_insert_eq. intros [= <- <- <-]. lia.
    + rewrite lookup_insert_ne by done. intros Ht Hl.
      destruct (sh_up _ _ _ _ H' _ _ _ _ Ht Hl) as (u & pu & j & x & Hu & ? & ? & ? & Hx & ? & ?).
      exists u, pu, j, x. split_and!; try done; try lia. by apply Hown.
  - intros t sp lvl px. destruct (decide (t = pd)) as [->|Hne].
    + rewrite lookup_insert_eq. intros [= <- <- <-]. lia.
    + rewrite lookup_insert_ne by done. apply (sh_level _ _ _ _ Hsh).
  - intros t sp lvl px. destruct (decide (t = pd)) as [->|Hne].
    + rewrite lookup_insert_eq. intros [= <- <- <-]. by rewrite lookup_insert_eq.
    + rewrite lookup_insert_ne by done. intros Ht. by eapply Hown, (sh_root _ _ _ _ Hsh).
  - intros [t i] e. rewrite (sh_leaf _ _ _ _ H'). cbn [fst]. destruct (decide (t = pd)) as [->|Hne].
    + rewrite Hn, lookup_insert_eq. naive_solver.
    + by rewrite lookup_insert_ne.
Qed.

Lemma view_fresh r o l0 pd k va :
  shape pool r o l0 → o !! pd = None → length k = 512%nat → user va → vw 3 (<[pd := fresh_root k]> r) pd va = Some 0.
Proof.
  intros Hsh Hn Hk Hu. cbn [vw]. pose proof (user_top va 2 Hu eq_refl) as Hi. pose proof (IDX_range va 3 ltac:(lia)) as Hr.
  unfold rdm. cbn [fst snd]. rewrite lookup_insert_eq. cbn [mbind option_bind].
  destruct (arr_get_is_Some (fresh_root k) (IDX va 3)) as [e He].
  { unfold fresh_root. rewrite length_app, length_firstn, length_skipn, Hk. cbn. lia. }
  change (Z.of_nat 3) with 3 in *. rewrite He. cbn [mbind option_bind].
  by rewrite (root_user k _ _ Hk He Hi).
Qed.

(** The frames the rest of the kernel holds do not matter to the pages. *)
Lemma page_other s s' g sp va :
  ok s g → rooted g sp → user va →
  (∀ t, t ∈ tables (own g) ++ frames_of pool (lf g) → ram (pm s') !! t = ram (pm s) !! t) →
  (∀ t, pool t = false → ram (pm s') !! t = ram (pm s) !! t) →
  page s' sp va = page s sp va.
Proof.
  intros H Hr Hu He Hf.
  assert (view s' sp va = view s sp va) as Hv.
  { unfold view. f_equal. eapply vw_other; [apply H| |done|by apply rooted_way].
    intros t x Ht. apply He, elem_of_app. left. apply list_elem_of_fmap. exists (t, x). split; [done|]. by apply elem_of_map_to_list. }
  unfold page. rewrite Hv. f_equal. destruct (has (view s sp va) PTE_P) eqn:Ep; [|done].
  destruct (mapped_frame _ _ _ _ _ H Hr Hu Ep) as [_ Hin].
  destruct (pool (addr (view s sp va))) eqn:Epl; [|by apply Hf]. apply He, elem_of_app. right. by apply Hin.
Qed.

Lemma new_space_ok s g k :
  ok s g → ram (pm s) !! kernel_cr3 = Some k → length k = 512%nat → pool kernel_cr3 = false →
  ∃ pd s', vmm_new_space kernel_cr3 s = Some (pd, s') ∧ pool_only s s' ∧
    ((pd = 0 ∧ s' = s ∧ pool_free (pm s) = 0) ∨
     (own g !! pd = None ∧ rooted (Gh (<[pd := (pd, 3%nat, 0)]> (own g)) (lf g) (ext g)) pd ∧
      ok s' (Gh (<[pd := (pd, 3%nat, 0)]> (own g)) (lf g) (ext g)) ∧
      (∀ sp va, user va → rooted g sp → page s' sp va = page s sp va) ∧
      (∀ va, user va → page s' pd va = (0, None)))).
Proof.
  intros H Hk Hlen Hker. unfold vmm_new_space.
  destruct (alloc_ok pool s g H) as (n & s1 & -> & Hpo & _ & Hc). cbn [mbind option_bind]. exists n.
  destruct Hc as [(-> & -> & Hf)|(Hpg & Hpl & Hnh & Hram & Href & H1)]; [exists s; split; [done|]; split; [done|by left]|].
  rewrite (proj2 (Z.eqb_neq n 0)) by (unfold is_page in Hpg; lia).
  assert (n ≠ kernel_cr3) as Hnk by congruence. rewrite Hram, (lookup_insert_ne _ n kernel_cr3) by done. rewrite Hk, lookup_insert_eq. cbn [mbind option_bind].
  rewrite Hlen. cbn [Z.eqb]. fold (fresh_root k). eexists. split; [done|]. split; [exact Hpo|]. right.
  assert (own g !! n = None) as Hno by (destruct (own g !! n) eqn:E; [|done]; destruct Hnh; by eapply own_held).
  assert (ram (pm (set_ram s1 n (fresh_root k))) = <[n := fresh_root k]> (ram (pm s))) as Hram2.
  { unfold set_ram. cbn. rewrite Hram. apply insert_insert_eq. }
  split; [done|]. split; [apply lookup_insert_eq|]. split; [split; cbn [own lf ext pm bk dfr set_ram]|].
  - apply (pool_inv_ram (pm s1)), H1.
  - intros f Hfp. by apply (ok_ours _ _ _ H1).
  - fold (set_ram s1 n (fresh_root k)). cbn [ram]. rewrite Hram, insert_insert_eq. by apply shape_root; [apply H|..].
  - apply (link_perm _ (holders pool s1 {| g with ext := n :: ext g |})); [apply H1|]. unfold holders, tables. cbn [own lf ext dfr].
    rewrite map_to_list_insert by done. cbn. rewrite !app_assoc. symmetry. apply Permutation_middle.
  - intros t' x Ht'. pose proof (proj1 (proj2 (proj2 Hpo))) as Hdf. rewrite Hdf.
    destruct (decide (t' = n)) as [->|Hne].
    + intros Hin. apply Hnh. unfold holders. apply elem_of_app. by right.
    + rewrite lookup_insert_ne in Ht' by done. by eapply (ok_disj _ _ _ H).
  - apply H1.
  - intros q x fr. apply (ok_excl _ _ _ H1).
  - apply H1.
  - intros t' j sp' px' x Ht' Hx. destruct (decide (t' = n)) as [->|Hne]; [by rewrite lookup_insert_eq in Ht'|].
    rewrite lookup_insert_ne in Ht' by done. eapply (ok_cow _ _ _ H1); [exact Ht'|]. rewrite <- Hx. unfold rd, set_ram. cbn.
    by rewrite lookup_insert_ne.
  - split.
    + intros sp va Hu Hr. eapply page_other; [done|done|done|..]; rewrite Hram2.
      * intros t Ht. apply lookup_insert_ne. intros ->. apply Hnh. unfold holders. rewrite !elem_of_app in *. tauto.
      * intros t Ht. apply lookup_insert_ne. congruence.
    + intros va Hu. unfold page, view. rewrite Hram2, (view_fresh _ _ _ _ _ _ (ok_shape _ _ _ H) Hno Hlen Hu). done.
Qed.

(** ** Private pages *)

Lemma page_slot s g sp va :
  ok s g → rooted g sp → user va → has (view s sp va) PTE_P = true → pool (addr (view s sp va)) = true →
  ∃ u, onway (own g) sp va 0 u ∧ lf g !! (u, IDX va 0) = Some (view s sp va) ∧
    fr_of pool (view s sp va) = Some (addr (view s sp va)).
Proof.
  intros H Hr Hu Hp Hpl.
  destruct (vw_present pool _ _ _ _ _ _ _ _ (ok_shape _ _ _ H) Hu (rooted_way _ _ _ Hr Hu) (view_total _ _ _ _ _ H Hr Hu) Hp) as (u & Hw & He).
  assert (fr_of pool (view s sp va) = Some (addr (view s sp va))) as Hf by (unfold fr_of; by rewrite Hp, Hpl).
  exists u. split; [done|]. split; [|done]. apply (sh_leaf _ _ _ _ (ok_shape _ _ _ H)).
  split_and!; [unfold counted; by rewrite Hf|done|by eexists _, _].
Qed.

(** The frame of a private page is mapped nowhere else, and nobody else holds it. *)
Lemma private_only s g sp va :
  ok s g → rooted g sp → user va → has (view s sp va) PTE_P = true → pool (addr (view s sp va)) = true →
  private (view s sp va) = true →
  (addr (view s sp va) ∉ ext g) ∧
  ∀ sp' va', rooted g sp' → user va' → has (view s sp' va') PTE_P = true →
    addr (view s sp' va') = addr (view s sp va) → same_page sp va sp' va'.
Proof.
  intros H Hr Hu Hp Hpl Hpr. destruct (page_slot s g sp va H Hr Hu Hp Hpl) as (u & Hw & Hl & Hf).
  pose proof (ok_excl _ _ _ H _ _ _ Hl Hf Hpr) as H1. set (fr := addr (view s sp va)) in *.
  assert (frames_of pool (lf g) ≡ₚ fr :: frames_of pool (delete (u, IDX va 0) (lf g))) as Hfo.
  { destruct (proj1 (sh_leaf _ _ _ _ (ok_shape _ _ _ H) _ _) Hl) as (_ & He & _).
    unfold frames_of. rewrite (lf_entry (fr_of pool) pool _ _ _ u _ _ _ _ (ok_shape _ _ _ H) Hw He (counted_fr pool _)), Hf. done. }
  assert (fr ∉ tables (own g) ++ frames_of pool (delete (u, IDX va 0) (lf g)) ++ List.filter pool (dfr s) ++ ext g) as Hno.
  { eapply link_one; [apply H|exact H1|]. unfold holders. rewrite Hfo. cbn [app]. symmetry. apply Permutation_middle. }
  split; [rewrite !elem_of_app in Hno; tauto|]. intros sp' va' Hr' Hu' Hp' Ha'.
  destruct (page_slot s g sp' va' H Hr' Hu' Hp') as (u' & Hw' & Hl' & Hf'); [by rewrite Ha'|].
  destruct (decide ((u', IDX va' 0) = (u, IDX va 0))) as [E|Hne].
  - injection E as -> Hi. unfold onway in *. rewrite Hw in Hw'. injection Hw' as -> Hx. split; [done|].
    rewrite (pxl_step va 0), (pxl_step va' 0), Hi by lia. change (Z.of_nat 0 + 1) with (0 + 1) in Hx. by rewrite Hx.
  - destruct Hno. rewrite !elem_of_app. right. left. unfold frames_of. apply list_elem_of_omap. eexists.
    split; [|rewrite Hf', Ha'; done]. apply list_elem_of_fmap. eexists (_, _). split; [done|]. apply elem_of_map_to_list.
    by rewrite lookup_delete_ne.
Qed.

(** Frames that are no tables can be written. *)
Lemma set_ram_ok s g f l : ok s g → own g !! f = None → ok (set_ram s f l) g.
Proof.
  intros H Hn. assert (∀ t x, own g !! t = Some x → ram (pm (set_ram s f l)) !! t = ram (pm s) !! t) as Hr.
  { intros t x Ht. unfold set_ram. cbn. apply lookup_insert_ne. congruence. }
  split; try apply H.
  - apply (pool_inv_ram (pm s)), H.
  - eapply shape_other; [apply H|exact Hr].
  - intros t i sp px e Ht He. eapply (ok_cow _ _ _ H); [exact Ht|]. rewrite <- He. unfold rd. cbn [fst]. by rewrite (Hr _ _ Ht).
Qed.

Lemma unref_ram m r fr : pmm_unref (with_ram m r) fr = (λ m', with_ram m' r) <$> pmm_unref m fr.
Proof.
  unfold pmm_unref. change (ours (with_ram m r) fr) with (ours m fr). change (refcnt (with_ram m r)) with (refcnt m).
  destruct (ours m fr) as [[]|]; [|done|done]. cbn [mbind option_bind]. destruct ((refcnt m).[_]) as [x|]; [|done]. cbn [mbind option_bind].
  destruct (_ && _); [|done]. destruct ((refcnt m).[_ <- _]); [|done]. cbn. by destruct (_ =? _).
Qed.

(** A present page replaced, the old frame dropped last. *)
Lemma replace_late R s g s1 g1 s2 g2 sp a u v e :
  ok s g → rooted g sp → aligned a → user a → walked pool s g s1 g1 → onway (own g1) sp a 0 u →
  ok s2 g2 → own g2 = own g1 → ext g2 ≡ₚ olist (fr_of pool v) ++ ext g →
  (∀ f, ram (pm s2) !! f ≠ ram (pm s1) !! f → pool f = true ∧ f ∉ holders pool s1 g1) →
  rd s2 (u, IDX a 0) = Some e → has e PTE_P = true → bk_of v = None →
  (∀ fr, private v = true → fr_of pool v = Some fr → refs (pm s2) fr = 1) → cow_ok pool v →
  R (page s sp a) (v, if has v PTE_P then upd (ram (pm s2)) (u, IDX a 0) v !! addr v else None) →
  ∃ s3 s4 g4, pte_put smp s2 (u, IDX a 0) a v = Some s3 ∧ unref s3 (addr e) = Some s4 ∧ paged R sp a (a + 4096) s g s4 g4.
Proof.
  intros H Hr Ha Hu Hw Hon H2 Ho Hx Hram Hrd Hep Hb Hpr Hcow HR.
  assert (own g2 !! u = Some (sp, O, pxl a 1)) as Hon2 by (rewrite Ho; exact Hon).
  destruct (drop_ok pool s2 g2 u _ sp _ e H2 Hon2 Hrd) as (s1' & E1 & R1 & _ & _ & _ & D1 & _).
  pose proof E1 as E1'. unfold pte_drop in E1. rewrite Hep in E1. unfold unref in E1.
  destruct (pmm_unref (pm s2) (addr e)) as [m|] eqn:Em; [|done]. cbn [mbind option_bind] in E1. injection E1 as E1.
  destruct (pte_put_spec smp s2 (u, IDX a 0) a v e Hrd) as (s3 & E3 & Epm & Ebk & _ & Edf & _).
  set (r := upd (ram (pm s2)) (u, IDX a 0) v).
  set (s4 := {| s3 with pm := with_ram m r; log := log s3 ++ [EUnref (addr e)] |}).
  assert (ok s4 (Gh (own g2) (@lfset pool (lf g2) (u, IDX a 0) v) (ext g))) as H4.
  { eapply (replace_ok pool s2 g2 u _ sp _ e v (ext g) s1' s4); try done; unfold s4; cbn; subst s1'; done. }
  exists s3, s4, (Gh (own g2) (@lfset pool (lf g2) (u, IDX a 0) v) (ext g)). split; [done|].
  split; [unfold unref; rewrite Epm, unref_ram, Em; done|].
  eapply paged_walked; [exact H|done|exact Hw|].
  assert (rooted g1 sp) as Hr1 by (eapply rooted_mono; [apply Hw|done]).
  eapply (leaf_paged pool R s1 g1 s4 _ sp a u v (ram (pm s2))); try done; [apply Hw| |].
  - cbn. symmetry. apply Hw.
  - intros va Hva Hin. rewrite (page_ext pool s1 sp a va Ha Hin), (walked_page pool s g s1 g1 sp a H Hw Hr Hu). exact HR.
Qed.

(** A write to a copy-on-write page: the entry is writable and nothing else of
    it changed but the frame, the contents are the same. *)
Definition cow_entry (e : Z) : Z := Z.ldiff (Z.lor (Z.ldiff e PTE_COW) PTE_RW) PTE_ADDR.

Definition cow_rel (x y : Z * option (list Z)) : Prop :=
  has y.1 PTE_P = true ∧ Z.ldiff y.1 PTE_ADDR = cow_entry x.1 ∧ y.2 = x.2 ∧ pool (addr y.1) = true.

Definition still (x y : Z * option (list Z)) : Prop := y = x.

Lemma flags_lor n fl : is_page n → addr fl = 0 → Z.ldiff (Z.lor n fl) PTE_ADDR = fl.
Proof.
  intros Hn Hf. apply Z.bits_inj'. intros k Hk. rewrite Z.ldiff_spec, Z.lor_spec.
  pose proof (f_equal (λ z, Z.testbit z k) Hf) as Hb. cbn beta in Hb. unfold addr in Hb. rewrite Z.land_spec, Z.bits_0 in Hb.
  rewrite PTE_ADDR_spec in *. rewrite Z.shiftl_spec in * by lia.
  destruct (decide (12 ≤ k < 52)).
  - rewrite Z.ones_spec_low in * by lia. rewrite andb_true_r in Hb. by rewrite Hb, andb_false_r.
  - assert (Z.testbit n k = false) as ->.
    { destruct (decide (k < 12)); [apply page_low; [done|lia]|apply page_high; [done|lia]]. }
    assert (Z.testbit (Z.ones 40) (k - 12) = false) as ->; [|apply andb_true_r].
    destruct (decide (k < 12)); [by apply Z.testbit_neg_r; lia|apply Z.ones_spec_high; lia].
Qed.

Lemma has_sub a b m : (∀ k, Z.testbit m k = true → Z.testbit a k = Z.testbit b k) → has a m = has b m.
Proof.
  intros Hk. unfold has. f_equal. apply Z.bits_inj'. intros k Hk0. rewrite !Z.land_spec.
  specialize (Hk k). destruct (Z.testbit m k); [by rewrite Hk|by rewrite !andb_false_r].
Qed.

Lemma has_flags e m : 0 ≤ m < 4096 → has (Z.ldiff e PTE_ADDR) m = has e m.
Proof. intros Hm. apply has_ldiff_off. rewrite Z.land_comm. by apply addr_low. Qed.

Lemma addr_flags e : addr (Z.ldiff e PTE_ADDR) = 0.
Proof. unfold addr. apply Z.bits_inj'. intros k Hk. rewrite Z.land_spec, Z.ldiff_spec, Z.bits_0. by destruct (Z.testbit PTE_ADDR k); rewrite ?andb_false_r. Qed.

Lemma cow_entry_flags e : has e PTE_P = true →
  has (cow_entry e) PTE_P = true ∧ has (cow_entry e) PTE_RW = true ∧ has (cow_entry e) PTE_COW = false ∧
  has (cow_entry e) PTE_SHARED = has e PTE_SHARED.
Proof.
  intros Hp. unfold cow_entry. rewrite !has_flags by done. split_and!.
  - by rewrite has_lor_off, has_ldiff_off.
  - by rewrite has_lor_on.
  - by rewrite has_lor_off, has_ldiff_on.
  - by rewrite has_lor_off, has_ldiff_off.
Qed.

(** The entry of the copy, as the code builds it. *)
Lemma cow_value nf e : is_page nf →
  let v := Z.lor (Z.lor nf (Z.ldiff (Z.ldiff e PTE_ADDR) PTE_COW)) PTE_RW in
  v = Z.lor nf (cow_entry e) ∧ addr v = nf ∧ Z.ldiff v PTE_ADDR = cow_entry e.
Proof.
  intros Hn v. assert (v = Z.lor nf (cow_entry e)) as Hv.
  { unfold v, cow_entry. rewrite <- Z.lor_assoc. f_equal. apply Z.bits_inj'. intros k Hk.
    rewrite !Z.lor_spec, !Z.ldiff_spec, Z.lor_spec, Z.ldiff_spec.
    assert (Z.testbit PTE_RW k = true → Z.testbit PTE_ADDR k = false) as Hq.
    { change PTE_RW with (2 ^ 1). rewrite Z.pow2_bits_eqb by lia. by intros <-%Z.eqb_eq. }
    destruct (Z.testbit e k), (Z.testbit PTE_ADDR k), (Z.testbit PTE_COW k), (Z.testbit PTE_RW k); try done; by discriminate Hq. }
  rewrite Hv. split; [done|]. split; [apply addr_lor|apply flags_lor]; done || apply addr_flags.
Qed.

Lemma still_walked s g s1 g1 sp a : ok s g → walked pool s g s1 g1 → rooted g sp → paged still sp a (a + 4096) s g s1 g1.
Proof. intros H Hw Hr. by apply paged_still. Qed.

Lemma cow_nl_ok s g pd a :
  ok s g → rooted g pd → user a → aligned a → (has (view s pd a) PTE_P = true → is_Some (page s pd a).2) →
  ∃ r s' g', vmm_cow_nl smp s pd a = Some (r, s') ∧
    if r : bool
    then has (view s pd a) PTE_P = true ∧ has (view s pd a) PTE_COW = true ∧ paged cow_rel pd a (a + 4096) s g s' g'
    else paged still pd a (a + 4096) s g s' g' ∧
      (has (view s pd a) PTE_P = true → has (view s pd a) PTE_COW = true → pool_free (pm s') = 0).
Proof.
  intros H Hr Hu Ha Hmem. unfold vmm_cow_nl. cbv zeta. rewrite (ldiff_page pool). unfold aligned in Ha. rewrite Ha, Z.sub_0_r.
  destruct (slot_ok pool s g pd a false H Hr Hu) as (o & s1 & g1 & -> & Hw & _ & Ho). cbn [mbind option_bind].
  pose proof (wk_ok _ _ _ _ _ Hw) as H1. set (e := view s pd a) in *.
  destruct o as [p|].
  2:{ exists false, s1, g1. split; [done|]. split; [by apply still_walked|]. intros Hp _.
      destruct Ho as [(_ & _ & [Hv|[Hv _]])|[? _]]; [by rewrite Hv in Hp|by rewrite Hv in Hp|done]. }
  destruct Ho as (u & -> & Hon & Hrd). rewrite Hrd. cbn [mbind option_bind].
  destruct (has e PTE_P) eqn:Ep; cbn [negb orb]; [|exists false, s1, g1; split; [done|]; split; [by apply still_walked|done]].
  destruct (has e PTE_COW) eqn:Ec; cbn [negb]; [|exists false, s1, g1; split; [done|]; split; [by apply still_walked|done]].
  pose proof (ok_cow _ _ _ H1 _ _ _ _ _ Hon Hrd Ep Ec) as Hpl.
  assert (fr_of pool e = Some (addr e)) as Hfr by (unfold fr_of; by rewrite Ep, Hpl).
  assert (addr e ∈ holders pool s1 g1) as Hin.
  { unfold holders. apply elem_of_app; right. apply elem_of_app; left. unfold frames_of. apply list_elem_of_omap. exists e.
    split; [|done]. apply list_elem_of_fmap. exists ((u, IDX a 0), e). split; [done|]. apply elem_of_map_to_list.
    apply (sh_leaf _ _ _ _ (ok_shape _ _ _ H1)). split_and!; [unfold counted; by rewrite Hfr|done|by eexists _, _]. }
  destruct (frame_cell _ _ (ok_pool _ _ _ H1) (held_refs _ _ _ _ H1 Hin)) as (x & Hx & _ & Ex & _ & _).
  rewrite Hx. cbn [mbind option_bind]. destruct (cow_entry_flags e Ep) as (F1 & F2 & F3 & F4).
  assert (ram (pm s1) !! addr e = (page s pd a).2) as Hct.
  { rewrite <- (walked_page pool s g s1 g1 pd a H Hw Hr Hu). unfold page. cbn [snd].
    pose proof (walked_page pool s g s1 g1 pd a H Hw Hr Hu) as Hpg. unfold page in Hpg. injection Hpg as -> _. by fold e; rewrite Ep. }
  destruct (x =? 1) eqn:E1; cbn [negb]; bools.
  - set (v := Z.lor (Z.ldiff e PTE_COW) PTE_RW).
    assert (same_key v e) as Hk by (eapply (same_key_trans pool); [by apply lor_key|by apply ldiff_key]).
    destruct (same_key_of pool _ _ Hk) as [Hfk Hbk].
    destruct (mark_paged smp pool cow_rel s g s1 g1 pd a u v e H Hr Ha Hu Hw Hon eq_refl Hrd Hfk Hbk) as (s2 & g2 & -> & Hp & _).
    + intros fr _ Hf. rewrite Hfk, Hfr in Hf. injection Hf as <-. lia.
    + apply Hk.
    + apply Hk.
    + intros _ Hv. unfold v in Hv. rewrite has_lor_off, has_ldiff_on in Hv by done. done.
    + unfold cow_rel, page. cbn [fst snd]. fold e. destruct Hk as (K1 & _ & _ & K4). rewrite K1, K4. done.
    + cbn [mbind option_bind]. exists true, s2, g2. done.
  - destruct (alloc_ok pool s1 g1 H1) as (nf & s2 & -> & Hpo & _ & Hc). cbn [mbind option_bind].
    destruct Hc as [(-> & -> & Hf)|(Hpg & Hpln & Hnh & Hram & Href & H2)].
    { exists false, s1, g1. split; [done|]. split; [by apply still_walked|done]. }
    rewrite (proj2 (Z.eqb_neq nf 0)) by (unfold is_page in Hpg; lia).
    assert (addr e ≠ nf) as Hne by (intros Hq; rewrite Hq in Hin; done).
    assert (u ≠ nf) as Hun by (intros ->; apply Hnh; unfold onway in Hon; by eapply own_held).
    assert (own g1 !! nf = None) as Hno by (destruct (own g1 !! nf) eqn:E; [|done]; destruct Hnh; by eapply own_held).
    rewrite Hram, lookup_insert_ne by done.
    assert (is_Some (ram (pm s1) !! addr e)) as [l Hl] by (rewrite Hct; by apply Hmem).
    rewrite Hl. cbn [mbind option_bind]. cbv zeta.
    destruct (cow_value nf e Hpg) as (Hv & Hva & Hvf). cbv zeta in Hv, Hva, Hvf. rewrite Hv in *.
    set (v := Z.lor nf (cow_entry e)) in *.
    assert (has v PTE_P = true) as V1 by (unfold v; by rewrite has_lor).
    assert (fr_of pool v = Some nf) as V2 by (unfold fr_of; by rewrite V1, Hva, Hpln).
    destruct (replace_late cow_rel s g s1 g1 (set_ram s2 nf l) {| g1 with ext := nf :: ext g1 |} pd a u v e) as (s3 & s4 & g4 & -> & E4 & Hp); try done.
    + by apply set_ram_ok.
    + rewrite V2. cbn. by rewrite (wk_ext _ _ _ _ _ Hw).
    + intros f Hf. unfold set_ram in Hf. cbn in Hf. destruct (decide (f = nf)) as [->|]; [done|].
      rewrite Hram, !lookup_insert_ne in Hf by done. done.
    + rewrite <- Hrd. unfold rd, set_ram. cbn. rewrite Hram, !lookup_insert_ne by done. done.
    + unfold bk_of. by rewrite V1.
    + intros fr _ Hf. rewrite V2 in Hf. injection Hf as <-. exact Href.
    + intros _ _. by rewrite Hva.
    + unfold cow_rel. cbn [fst snd]. rewrite V1, Hva. split_and!; try done.
      rewrite upd_other by (cbn; congruence). unfold set_ram. cbn. rewrite lookup_insert_eq. by rewrite <- Hl, Hct.
    + cbn [mbind option_bind]. rewrite E4. cbn [mbind option_bind]. by exists true, s4, g4.
Qed.

(** ** Frames mapped by the rest of the kernel *)

Lemma ref_ok s g fr :
  ok s g → 0 ≤ fr → (pool fr = true → fr ∈ ext g) →
  ∃ s', ref s fr = Some s' ∧ ok s' {| g with ext := (if pool fr then [fr] else []) ++ ext g |} ∧
    ram (pm s') = ram (pm s) ∧ pool_only s s' ∧ log s' = log s.
Proof.
  intros H H0 Hin. unfold ref. destruct (pool fr) eqn:Epl.
  - specialize (Hin eq_refl).
    assert (fr ∈ holders pool s g) as Hh by (unfold holders; rewrite !elem_of_app; tauto).
    destruct (pmm_ref_spec (pm s) fr (ok_pool _ _ _ H)) as (m & Em & Hi & Hram & Hr); [by eapply held_refs|].
    rewrite Em. cbn [mbind option_bind]. eexists. split; [done|]. cbn [pm ram]. split; [|done]. split; cbn [own lf ext pm bk dfr].
    + done.
    + intros f Hf. rewrite (pmm_ref_ours _ _ _ Em (ok_pool _ _ _ H)). by apply H.
    + rewrite Hram. apply H.
    + eapply link_perm; [eapply effect_link; [|apply H]|].
      * apply (dup _ _ _ fr); [exact Hh|exact Hr].
      * unfold holders. cbn [own lf ext dfr app]. rewrite !app_assoc. apply Permutation_middle.
    + intros t x Ht Hx. eapply (ok_disj _ _ _ H); [exact Ht|]. rewrite !elem_of_app in *. set_solver.
    + apply H.
    + intros q e f Hq He Hp. pose proof (ok_excl _ _ _ H _ _ _ Hq He Hp) as H1. rewrite Hr, decide_False; [done|]. intros ->.
      assert (fr ∈ frames_of pool (lf g)) as Hf.
      { unfold frames_of. apply list_elem_of_omap. exists e. split; [|done]. apply list_elem_of_fmap. exists (q, e).
        split; [done|]. by apply elem_of_map_to_list. }
      apply elem_of_Permutation in Hin as [X HX].
      eapply (link_one _ _ fr); [apply H|exact H1| |].
      * unfold holders. rewrite HX. rewrite !app_assoc. symmetry. apply Permutation_middle.
      * rewrite !elem_of_app. tauto.
    + apply H.
    + intros t i sp px e Ht He. eapply (ok_cow _ _ _ H); [exact Ht|]. rewrite <- He. unfold rd. cbn [pm]. by rewrite Hram.
  - pose proof (ok_ours _ _ _ H fr H0) as Ho. rewrite Epl in Ho. destruct (pmm_foreign _ _ Ho) as (E & _).
    rewrite E. cbn [mbind option_bind]. eexists. split; [done|]. split; [|done]. destruct H as [A1 A2 A3 A4 A5 A6 A7 A8 A9]. by split.
Qed.

(** The page is the frame, with the flags [fl]. *)
Definition map_rel (fr fl : Z) (c : option (list Z)) (x y : Z * option (list Z)) : Prop := y = (Z.lor fr fl, c).

(** What [vmm_map_frame] and [vmm_map_cache] do once they hold the lock. *)
Definition map_entry s (pd va fr v : Z) : option (Z * vs) :=
  '(p, s) ← pte_slot s pd va true;
  match p with
  | None => Some (-1, s)
  | Some p => s ← ref s fr; e ← rd s p; s ← pte_drop s e; s ← pte_put smp s p va v; Some (0, s)
  end.

Lemma map_entry_ok s g pd a fr fl :
  ok s g → rooted g pd → user a → aligned a → is_page fr → (pool fr = true → fr ∈ ext g) →
  0 ≤ fl < 4096 → has fl PTE_P = true → private fl = false → (has fl PTE_COW = true → pool fr = true) →
  ∃ r s' g', map_entry s pd a fr (Z.lor fr fl) = Some (r, s') ∧
    ((r = 0 ∧ paged (map_rel fr fl (ram (pm s) !! fr)) pd a (a + 4096) s g s' g') ∨
     (r = -1 ∧ pool_free (pm s') = 0 ∧ paged still pd a (a + 4096) s g s' g')).
Proof.
  intros H Hr Hu Ha Hpg Hin Hfl Fp Fpr Fc. unfold map_entry.
  destruct (slot_ok pool s g pd a true H Hr Hu) as (o & s1 & g1 & -> & Hw & _ & Ho). cbn [mbind option_bind].
  pose proof (wk_ok _ _ _ _ _ Hw) as H1.
  destruct o as [p|].
  2:{ exists (-1), s1, g1. split; [done|]. right. destruct Ho as [[? _]|[_ Hz]]; [done|]. split; [done|]. split; [done|]. by apply still_walked. }
  destruct Ho as (u & -> & Hon & Hrd).
  destruct (ref_ok s1 g1 fr H1) as (s2 & -> & H2 & Hram & _ & _); [unfold is_page in Hpg; lia|by rewrite (wk_ext _ _ _ _ _ Hw)|].
  cbn [mbind option_bind]. assert (rd s2 (u, IDX a 0) = Some (view s pd a)) as Hrd2 by (unfold rd; rewrite Hram; exact Hrd).
  rewrite Hrd2. cbn [mbind option_bind].
  destruct (frame_entry pool fr fl Hpg Hfl Fp) as (V1 & V2 & V3 & V4 & V5 & V6).
  assert (own g1 !! fr = None) as Hno1.
  { destruct (own g1 !! fr) eqn:E; [|done]. exfalso. destruct (pool fr) eqn:Epl.
    - eapply (ok_disj _ _ _ H1); [exact E|]. rewrite !elem_of_app, (wk_ext _ _ _ _ _ Hw). right. right. by apply Hin.
    - destruct (held_pool _ _ _ _ H1 (own_held _ _ _ _ _ H1 E)). congruence. }
  destruct (replace_paged smp pool (map_rel fr fl (ram (pm s) !! fr)) s g s1 g1 s2 {| g1 with ext := (if pool fr then [fr] else []) ++ ext g1 |} pd a u
    (Z.lor fr fl) (view s pd a)) as (s3 & s4 & g4 & -> & E4 & Hp & _); try done.
  - cbn [ext]. rewrite (wk_ext _ _ _ _ _ Hw). destruct (pool fr) eqn:Epl; [by rewrite (V4 eq_refl)|by rewrite (V5 eq_refl)].
  - intros f Hf. by rewrite Hram in Hf.
  - intros f Hpr _. unfold private in *. rewrite !V6, Fpr in Hpr by done. done.
  - intros _ Hc. rewrite V6 in Hc by done. rewrite V2. by apply Fc.
  - unfold map_rel. rewrite V1, V2. f_equal. rewrite upd_other by (cbn; intros ->; unfold onway in Hon; congruence).
    rewrite Hram. apply (wk_ram _ _ _ _ _ Hw). exact Hno1.
  - cbn [mbind option_bind]. rewrite E4. cbn [mbind option_bind]. exists 0, s4, g4. split; [done|]. by left.
Qed.

(** ** Pages that were reserved *)

Lemma alloc_page_same s g fr s' sp va :
  ok s g → alloc s = Some (fr, s') → rooted g sp → user va → page s' sp va = page s sp va.
Proof.
  intros H E Hr Hu. destruct (alloc_ok pool s g H) as (fr' & s1 & E' & _ & _ & Hc). rewrite E in E'. injection E' as <- <-.
  destruct Hc as [(_ & -> & _)|(_ & Hpl & Hnh & Hram & _)]; [done|].
  eapply page_other; [done|done|done|..]; rewrite Hram.
  - intros t Ht. apply lookup_insert_ne. intros ->. apply Hnh. unfold holders. rewrite !elem_of_app in *. tauto.
  - intros t Ht. apply lookup_insert_ne. intros ->. congruence.
Qed.

(** A reserved page becomes a page of zeros with the same rights; a page that is
    there stays. *)
Definition fault_rel (x y : Z * option (list Z)) : Prop :=
  if has x.1 PTE_P then y = x
  else has y.1 PTE_P = true ∧ has y.1 PTE_RW = has x.1 PTE_RW ∧ has y.1 PTE_US = has x.1 PTE_US ∧
       has y.1 PTE_SHARED = false ∧ pool (addr y.1) = true ∧ y.2 = Some zero_page.

Lemma fault_flags e : let fl := Z.lor PTE_P (Z.land e (Z.lor PTE_RW PTE_US)) in
  0 ≤ fl < 4096 ∧ has fl PTE_P = true ∧ has fl PTE_RW = has e PTE_RW ∧ has fl PTE_US = has e PTE_US ∧
  has fl PTE_SHARED = false ∧ has fl PTE_COW = false.
Proof.
  cbv zeta. assert (Z.land e (Z.lor PTE_RW PTE_US) = Z.lor (opt (has e PTE_RW) PTE_RW) (opt (has e PTE_US) PTE_US)) as ->.
  { rewrite Z.land_lor_distr_r. by rewrite land_RW, land_US. }
  by destruct (has e PTE_RW), (has e PTE_US).
Qed.

(** The frame that was not needed goes back. *)
Lemma spare_ok s g fr X :
  ok s g → ext g ≡ₚ fr :: X → pool fr = true → is_page fr →
  ∃ s', unref s fr = Some s' ∧ ok s' (Gh (own g) (lf g) X) ∧ (∀ sp va, page s' sp va = page s sp va).
Proof.
  intros H Hx Hpl Hpg. destruct (unref_ext_ok pool s g fr X H) as (s' & E & H' & Hram & _).
  - by rewrite Hpl.
  - unfold is_page in Hpg. lia.
  - exists s'. split; [done|]. split; [done|]. intros sp va. unfold page, view. by rewrite Hram.
Qed.

Lemma used_of e m : Z.land PTE_USED m = m → has e m = true → has e PTE_USED = true.
Proof.
  unfold has. intros Em E. destruct (nz (Z.land e PTE_USED)) eqn:E2; [done|]. unfold nz in *. apply negb_false_iff, Z.eqb_eq in E2.
  assert (Z.land e m = 0) as E3; [|by rewrite E3 in E]. by rewrite <- Em, Z.land_assoc, E2.
Qed.

Lemma ok_ext_perm s g X : ok s g → ext g ≡ₚ X → ok s (Gh (own g) (lf g) X).
Proof.
  intros H Hx. split; try apply H.
  - eapply link_perm; [apply H|]. unfold holders. cbn [own lf ext]. by rewrite Hx.
  - intros t x Ht. cbn [own lf ext] in *. rewrite <- Hx. by eapply (ok_disj _ _ _ H).
Qed.

(** The section that holds the lock, with a spare frame or none. *)
Lemma fault_in_nl_ok s g pd a fr X :
  ok s g → rooted g pd → user a → aligned a →
  (fr = 0 ∧ ext g = X ∨ is_page fr ∧ pool fr = true ∧ refs (pm s) fr = 1 ∧ ext g ≡ₚ fr :: X ∧ ram (pm s) !! fr = Some zero_page) →
  let e := view s pd a in
  has e PTE_SWAP = false → has e PTE_SHL = false →
  ∃ r fr' s' g', fault_in_nl s pd a fr = Some (r, false, fr', s') ∧ ok s' g' ∧ own g ⊆ own g' ∧
    (∀ sp va, user va → rooted g sp → ¬ (sp = pd ∧ a ≤ va < a + 4096) → page s' sp va = page s sp va) ∧
    ((fr' = 0 ∧ fr ≠ 0 ∧ r = true ∧ has e PTE_USED = true ∧ ext g' ≡ₚ X ∧
      ∀ va, user va → a ≤ va < a + 4096 → fault_rel (page s pd va) (page s' pd va)) ∨
     (fr' = fr ∧ ext g' = ext g ∧ (∀ va, user va → page s' pd va = page s pd va) ∧
      (if r : bool then has e PTE_P = true
       else has e PTE_P = false ∧ (has e PTE_LAZY = true → fr = 0 ∨ pool_free (pm s) = 0)))).
Proof.
  intros H Hr Hu Ha Hfr e Hs Hl. unfold fault_in_nl.
  destruct (slot_ok pool s g pd a false H Hr Hu) as (o & s1 & g1 & Esl & Hw & _ & Ho). rewrite Esl. cbn [mbind option_bind].
  pose proof (wk_ok _ _ _ _ _ Hw) as H1.
  assert (∀ sp va, user va → rooted g sp → page s1 sp va = page s sp va) as P1 by (intros; by eapply walked_page).
  destruct o as [p|].
  2:{ exists false, fr, s1, g1. split; [done|]. split; [done|]. split; [apply Hw|]. split; [by intros; apply P1|]. right.
      split; [done|]. split; [apply Hw|]. split; [by intros; apply P1|]. fold e in Ho.
      destruct Ho as [(_ & _ & [Hv|(Hv & Hz & _)])|[? _]]; [by rewrite Hv|by rewrite Hv; auto|done]. }
  destruct Ho as (u & -> & Hon & Hrd). fold e in Hrd. rewrite Hrd. cbn [mbind option_bind]. cbv zeta.
  assert ((Z.land e (Z.lor PTE_P PTE_SWAP) =? PTE_SWAP) = false) as ->.
  { apply Z.eqb_neq. intros E. assert (has e PTE_SWAP = true); [|congruence]. unfold has.
    replace (Z.land e PTE_SWAP) with PTE_SWAP; [done|]. rewrite <- E at 1. rewrite <- E at 2.
    apply Z.bits_inj'. intros k Hk. rewrite !Z.land_spec. by destruct (Z.testbit e k), (Z.testbit (Z.lor _ _) k). }
  assert (∀ r, (if r : bool then has e PTE_P = true
       else has e PTE_P = false ∧ (has e PTE_LAZY = true → fr = 0 ∨ pool_free (pm s) = 0)) →
    ∃ r0 fr' s' g', Some (r, false, fr, s1) = Some (r0, false, fr', s') ∧ ok s' g' ∧ own g ⊆ own g' ∧
    (∀ sp va, user va → rooted g sp → ¬ (sp = pd ∧ a ≤ va < a + 4096) → page s' sp va = page s sp va) ∧
    ((fr' = 0 ∧ fr ≠ 0 ∧ r0 = true ∧ has e PTE_USED = true ∧ ext g' ≡ₚ X ∧
      ∀ va, user va → a ≤ va < a + 4096 → fault_rel (page s pd va) (page s' pd va)) ∨
     (fr' = fr ∧ ext g' = ext g ∧ (∀ va, user va → page s' pd va = page s pd va) ∧
      (if r0 : bool then has e PTE_P = true
       else has e PTE_P = false ∧ (has e PTE_LAZY = true → fr = 0 ∨ pool_free (pm s) = 0))))) as Hsame.
  { intros r Hc. exists r, fr, s1, g1. split; [done|]. split; [done|]. split; [apply Hw|]. split; [by intros; apply P1|]. right.
    split; [done|]. split; [apply Hw|]. split; [by intros; apply P1|done]. }
  destruct (has e PTE_P) eqn:Ep; [by apply Hsame|]. rewrite Hl. cbn [andb].
  destruct (has e PTE_LAZY) eqn:El; cbn [andb]; [|by apply Hsame].
  destruct Hfr as [[-> HX]|(Hpg & Hpl & Href & Hext & Hz)]; [by apply Hsame; auto|].
  assert (fr ≠ 0) as Hf0 by (unfold is_page in Hpg; lia).
  assert (nz fr = true) as -> by (unfold nz; by rewrite (proj2 (Z.eqb_neq _ _))).
  unfold cas. rewrite Hrd. cbn [mbind option_bind]. rewrite Z.eqb_refl.
  rewrite (wr_spec _ _ _ _ Hrd). cbn [mbind option_bind]. rewrite <- Z.lor_assoc.
  destruct (fault_flags e) as (F0 & F1 & F2 & F3 & F4 & F5). set (fl := Z.lor PTE_P (Z.land e (Z.lor PTE_RW PTE_US))) in *.
  destruct (frame_entry pool fr fl Hpg F0 F1) as (V1 & V2 & V3 & V4 & _ & V6).
  set (s2 := {| s1 with pm := with_ram (pm s1) (upd (ram (pm s1)) (u, IDX a 0) (Z.lor fr fl)) |}).
  assert (refs (pm s1) fr = 1) as Href1 by (rewrite <- Href; eapply pte_walk_refs; [apply H|exact Esl|lia]).
  assert (ok s2 (Gh (own g1) (@lfset pool (lf g1) (u, IDX a 0) (Z.lor fr fl)) X)) as H2.
  { eapply (replace_ok pool s1 g1 u _ pd _ e (Z.lor fr fl) X s1 s2); try done.
    - by rewrite (wk_ext _ _ _ _ _ Hw), (V4 Hpl).
    - intros f _ Hf. rewrite (V4 Hpl) in Hf. by injection Hf as <-.
    - intros _ Hc. rewrite V6 in Hc by done. congruence.
    - unfold pte_drop, pte_rel. by rewrite Ep, Hs, Hl. }
  assert (rooted g1 pd) as Hr1 by (eapply rooted_mono; [apply Hw|done]).
  pose proof (leaf_page pool s1 g1 s2 pd a u (Z.lor fr fl) (ram (pm s1)) H1 Hu Hon eq_refl ltac:(done)) as Hpage.
  exists true, 0, s2, (Gh (own g1) (@lfset pool (lf g1) (u, IDX a 0) (Z.lor fr fl)) X).
  split; [done|]. split; [done|]. split; [apply Hw|]. split.
  - intros sp va Hva Hsp Hn. assert (rooted g1 sp) as Hsp1 by (eapply rooted_mono; [apply Hw|done]).
    specialize (Hpage sp va Hsp1 Hva). rewrite decide_False in Hpage; [by rewrite Hpage, P1|].
    intros [-> Hq]. apply Hn. split; [done|]. by apply page_of_aligned.
  - left. split; [done|]. split; [done|]. split; [done|]. split; [by apply (used_of e PTE_LAZY)|]. split; [done|]. intros va Hva Hin.
    specialize (Hpage pd va Hr1 Hva). rewrite decide_True in Hpage by (split; [done|by apply page_of_aligned]).
    rewrite (page_ext pool s pd a va Ha Hin). unfold fault_rel, page. cbn [fst snd]. fold e. rewrite Ep, Hpage, V1, V2, !V6 by done.
    split_and!; try done. change (upd (ram (pm s1)) (u, IDX a 0) (Z.lor fr fl) !! fr = Some zero_page).
    assert (own g1 !! fr = None) as Hno.
    { destruct (own g1 !! fr) eqn:E; [|done]. destruct (ok_disj _ _ _ H1 _ _ E). rewrite !elem_of_app, (wk_ext _ _ _ _ _ Hw), Hext. set_solver. }
    rewrite upd_other by (cbn; intros ->; unfold onway in Hon; congruence). by rewrite (wk_ram _ _ _ _ _ Hw).
Qed.

Lemma used_cases e : has e PTE_USED = true → has e PTE_SWAP = false → has e PTE_P = false → has e PTE_LAZY = true.
Proof.
  unfold has, nz, PTE_USED. rewrite !Z.land_lor_distr_r, !negb_false_iff, !negb_true_iff, !Z.eqb_neq, !Z.eqb_eq.
  intros E E1 E2. rewrite E1, E2 in E. cbn in E. by rewrite Z.lor_0_r in E.
Qed.

Lemma fault_in_ok others s g pd a :
  ok s g → rooted g pd → user a → aligned a →
  has (view s pd a) PTE_SWAP = false → has (view s pd a) PTE_SHL = false →
  ∃ r s' g', vmm_fault_in smp others s pd a = Some (r, s') ∧
    if r : bool then has (view s pd a) PTE_USED = true ∧ paged fault_rel pd a (a + 4096) s g s' g'
    else paged still pd a (a + 4096) s g s' g' ∧ (has (view s pd a) PTE_USED = true → pool_free (pm s) ≤ 1).
Proof.
  intros H Hr Hu Ha Hs Hl. set (e := view s pd a) in *. unfold vmm_fault_in. cbv zeta.
  rewrite (ldiff_page pool). unfold aligned in Ha. rewrite Ha, Z.sub_0_r.
  destruct (alloc_ok pool s g H) as (fr & s1 & Eal & Hpo & _ & Hc). rewrite Eal. cbn [mbind option_bind].
  assert (∀ sp va, rooted g sp → user va → page (MMLOCK s1 pd) sp va = page s sp va) as P1.
  { intros. change (page s1 sp va = page s sp va). by eapply alloc_page_same. }
  assert (view (MMLOCK s1 pd) pd a = e) as Ev by (pose proof (P1 pd a Hr Hu) as Hq; unfold page in Hq; by injection Hq).
  assert (∃ g1, ok s1 g1 ∧ own g1 = own g ∧
    (fr = 0 ∧ s1 = s ∧ ext g1 = ext g ∧ pool_free (pm s) = 0 ∨
     is_page fr ∧ pool fr = true ∧ refs (pm s1) fr = 1 ∧ ext g1 ≡ₚ fr :: ext g ∧ ram (pm s1) !! fr = Some zero_page)) as (g1 & H1 & Hog & Hfr).
  { destruct Hc as [(-> & -> & Hf)|(Hpg & Hpl & Hnh & Hram & Href & H1)]; [exists g; by auto 10|].
    eexists. split; [exact H1|]. split; [done|]. right. cbn. by rewrite Hram, lookup_insert_eq. }
  assert (rooted g1 pd) as Hr1 by (unfold rooted; by rewrite Hog).
  destruct (fault_in_nl_ok (MMLOCK s1 pd) g1 pd a fr (ext g)) as (r & fr' & s2 & g2 & -> & H2 & Ho2 & Pout & Hc2); try done.
  { by eapply ok_same; [|exact H1]. }
  { destruct Hfr as [(? & _ & ? & _)|?]; [by left|by right]. }
  { by rewrite Ev. }
  { by rewrite Ev. }
  rewrite Ev in Hc2. cbn [mbind option_bind]. rewrite Hog in Ho2.
  assert (∀ sp va, user va → rooted g sp → ¬ (sp = pd ∧ a ≤ va < a + 4096) → page s2 sp va = page s sp va) as Pout'.
  { intros sp va Hva Hsp Hn. rewrite Pout, P1; try done. unfold rooted. by rewrite Hog. }
  destruct Hc2 as [(-> & Hf0 & -> & Hus & Hext & Pin)|(-> & Hext & Pin & Hr2)].
  - exists true, s2, (Gh (own g2) (lf g2) (ext g)). split; [done|]. split; [done|].
    split; cbn [own ext]; [by eapply ok_ext_perm|done|done|done|]. intros va Hva Hin. rewrite <- (P1 pd va Hr Hva). by apply Pin.
  - assert (∃ s3 g3, (if nz fr then unref s2 fr else Some s2) = Some s3 ∧ ok s3 g3 ∧ own g3 = own g2 ∧ ext g3 = ext g ∧
      ∀ sp va, page s3 sp va = page s2 sp va) as (s3 & g3 & -> & H3 & Ho3 & Hx3 & P3).
    { destruct Hfr as [(-> & _ & Hx & _)|(Hpg & Hpl & _ & Hx & _)]; [exists s2, g2; split_and!; try done; congruence|].
      assert (nz fr = true) as -> by (unfold nz, is_page in *; by rewrite (proj2 (Z.eqb_neq _ _)) by lia).
      destruct (spare_ok s2 g2 fr (ext g) H2) as (s3 & -> & H3 & P3); [by rewrite Hext|done|done|]. by eexists _, _. }
    assert (∀ sp va, user va → rooted g sp → page s3 sp va = page s sp va) as Pall.
    { intros sp va Hva Hsp. rewrite P3. destruct (decide (sp = pd)) as [->|Hne]; [by rewrite Pin, P1|]. apply Pout'; [done|done|]. by intros [? _]. }
    cbn [mbind option_bind]. exists r, s3, g3. split; [done|].
    assert (∀ R : _ → _ → Prop, (∀ va, user va → a ≤ va < a + 4096 → R (page s pd va) (page s pd va)) → paged R pd a (a + 4096) s g s3 g3) as Hpg.
    { intros R HR. split; [done|by rewrite Ho3|done|by intros; apply Pall|]. intros va Hva Hin. rewrite Pall by done. by apply HR. }
    destruct r.
    + split; [by apply (used_of e PTE_P)|]. apply Hpg. intros va Hva Hin. rewrite (page_ext pool s pd a va Ha Hin).
      unfold fault_rel, page. cbn [fst]. fold e. by rewrite Hr2.
    + split; [by apply Hpg|]. intros Hus. destruct Hr2 as [Hp Hlz]. specialize (Hlz (used_cases _ Hus Hs Hp)).
      destruct (pmm_alloc_spec (pm s) (ok_pool _ _ _ H)) as (fr0 & m & Em & _ & Hcm). unfold alloc in Eal. rewrite Em in Eal.
      cbn in Eal. injection Eal as <- <-. cbn in Hlz. destruct Hcm as [(_ & _ & ?)|(? & _ & _ & _ & _ & _ & ? & _)]; lia.
Qed.

(** ** The contract *)

(** C7: every operation on a range of user pages answers, keeps the invariant of
    frames, tables and backing store, does to each page of the range what its
    specification says and leaves every other page of every space as it was,
    however few frames are free.  Allocating and reserving may stop early, with -1,
    when there is no free frame; the pages before that are done.  The other
    operations have no way to report it: when fewer frames are free than the range
    has pages, a page that was reserved together with its 2 MiB and needs a table of
    its own may stay as it was, and no other page. *)
Theorem range_refines o s g pd va len :
  ok s g → rooted g pd → length (fc s) = 16%nat → USER_BASE ≤ va → 0 ≤ len → va + len ≤ USER_TOP →
  ∃ r s' g' m, range_run o s pd va len = Some (r, s') ∧ lo_of va ≤ m ≤ range_end va len ∧
    paged (range_rel (bool_decide (enough s va len)) o) pd (lo_of va) m s g s' g' ∧
    ((r = 0 ∧ m = range_end va len) ∨ (may_fail o = true ∧ r = -1 ∧ m < range_end va len ∧ pool_free (pm s') = 0)).
Proof. intros. apply range_run_ok; try done. apply bool_decide_eq_true_1. Qed.

Lemma page_of va : user va → aligned (lo_of va) ∧ user (lo_of va) ∧ lo_of va ≤ va < lo_of va + 4096.
Proof. unfold user, aligned, lo_of. rewrite (ldiff_page pool). intros. Z.div_mod_to_equations. lia. Qed.

Lemma view_lo s pd va : user va → view s pd va = view s pd (lo_of va).
Proof.
  intros Hu. destruct (page_of va Hu) as (Ha & _ & Hin). pose proof (page_ext pool s pd (lo_of va) va Ha Hin) as E.
  unfold page in E. by injection E.
Qed.

(** C8: a write to a copy-on-write page makes the page writable with the same
    contents, and leaves every other page of every space as it was; unless it is
    shared memory the frame is then mapped nowhere else.  The answer is no, and no
    page changes, if the page is not copy-on-write or there is no frame for the copy. *)
Theorem cow_private s g pd va :
  ok s g → rooted g pd → user va → (has (view s pd va) PTE_P = true → is_Some (page s pd va).2) →
  ∃ r s' g', vmm_cow smp s pd va = Some (r, s') ∧
    if r : bool
    then has (view s pd va) PTE_P = true ∧ has (view s pd va) PTE_COW = true ∧
      paged cow_rel pd (lo_of va) (lo_of va + 4096) s g s' g' ∧
      (has (view s pd va) PTE_SHARED = false →
       ∀ sp' va', rooted g' sp' → user va' → has (view s' sp' va') PTE_P = true →
         addr (view s' sp' va') = addr (view s' pd va) → same_page pd va sp' va')
    else paged still pd (lo_of va) (lo_of va + 4096) s g s' g' ∧
      (has (view s pd va) PTE_P = true → has (view s pd va) PTE_COW = true → pool_free (pm s') = 0).
Proof.
  intros H Hr Hu Hmem. destruct (page_of va Hu) as (Ha & Hul & Hin).
  assert (vmm_cow smp s pd va = vmm_cow_nl smp (MMLOCK s pd) pd (lo_of va)) as ->.
  { unfold vmm_cow, vmm_cow_nl. cbv zeta. fold (lo_of (lo_of va)) (lo_of va). unfold lo_of. rewrite !(ldiff_page pool).
    by rewrite Zminus_mod_idemp_r, Z.sub_diag, Z.sub_0_r. }
  assert (same_mem s (MMLOCK s pd)) as Hs by done. rewrite (page_ext pool s pd (lo_of va) va Ha Hin) in Hmem. rewrite (view_lo s pd va Hu) in *.
  destruct (cow_nl_ok (MMLOCK s pd) g pd (lo_of va)) as (r & s' & g' & -> & Hc); [by eapply ok_same|done|done|done|done|].
  exists r, s', g'. split; [done|]. change (view (MMLOCK s pd) pd (lo_of va)) with (view s pd (lo_of va)) in Hc.
  destruct r; [|destruct Hc as [Hp Hc]; split; [|done]; by eapply paged_same; [exact Hs|apply same_refl|]].
  destruct Hc as (Hp & Hcw & Hpg). split; [done|]. split; [done|].
  assert (paged cow_rel pd (lo_of va) (lo_of va + 4096) s g s' g') as Hpg' by (by eapply paged_same; [exact Hs|apply same_refl|]).
  split; [done|]. intros Hsh sp' va' Hr' Hu' Hp' Hav.
  pose proof (pg_in _ _ _ _ _ _ _ _ _ Hpg' va Hu Hin) as (C1 & C2 & _ & C4).
  change (page s' pd va).1 with (view s' pd va) in *. change (page s pd va).1 with (view s pd va) in C2. rewrite (view_lo s pd va Hu) in C2.
  destruct (cow_entry_flags _ Hp) as (_ & F2 & _ & F4). rewrite <- C2, has_flags in F2, F4 by done.
  eapply (private_only s' g' pd va); try done; [apply Hpg'|eapply rooted_mono; [apply Hpg'|done]|].
  unfold private. by rewrite F2, F4, Hsh.
Qed.

(** C9: a fault on a page that is there or reserved (and neither swapped out nor in
    a shared segment) leaves a present page, with zeros and the rights that were
    reserved if it was not there, and all other pages as they were; no is the
    answer on addresses not in use, and when at most one frame is free. *)
Theorem fault_serves others s g pd va :
  ok s g → rooted g pd → user va → aligned va →
  has (view s pd va) PTE_SWAP = false → has (view s pd va) PTE_SHL = false →
  ∃ r s' g', vmm_fault_in smp others s pd va = Some (r, s') ∧
    if r : bool then has (view s pd va) PTE_USED = true ∧ paged fault_rel pd va (va + 4096) s g s' g'
    else paged still pd va (va + 4096) s g s' g' ∧ (has (view s pd va) PTE_USED = true → pool_free (pm s) ≤ 1).
Proof. apply fault_in_ok. Qed.

End spaces.

(** ** An example *)

(** 15 free frames, no swap area, a table of the kernel outside the pool. *)
Definition pool16 (f : Z) : bool := (1 <=? Z.shiftr f 12) && (Z.shiftr f 12 <? 16).
Definition kcr3 : Z := 0x100000.
Definition st0 : @vs Swap.areas :=
  Vs (mkPmm (255 :: replicate 15 0) 16 15 15 0 {[kcr3 := zero_page]}) Swap.boot (replicate 16 (Fc 0 0 0)) [] 0 false 0 [].
Definition gh0 : ghost := Gh ∅ ∅ [].

Lemma st0_ok : ok pool16 st0 gh0.
Proof.
  split; cbn [own lf ext gh0 st0 pm bk dfr].
  - split; cbn; try lia; [repeat constructor; lia|]. intros x [_ Hx]%arr_get_Some. change (Some 255 = Some x) in Hx. congruence.
  - intros fr Hfr. unfold ours, pool16. cbn [max_pfn refcnt]. assert (0 ≤ Z.shiftr fr 12) as H0 by (by apply Z.shiftr_nonneg).
    set (i := Z.shiftr fr 12) in *. destruct (i <? 16) eqn:E; bools; [|by rewrite andb_false_r].
    destruct (decide (i = 0)) as [->|]; [done|]. rewrite (proj2 (Z.leb_le 1 i)) by lia. cbn [andb].
    assert ((255 :: replicate 15 0).[i] = Some 0) as ->; [|done]. apply arr_get_Some. split; [done|].
    replace (Z.to_nat i) with (S (Z.to_nat (i - 1))) by lia. cbn [lookup list_lookup]. apply lookup_replicate_2. lia.
  - split; try (intros; by rewrite lookup_empty in *). intros p e. rewrite lookup_empty. split; [done|].
    intros (_ & _ & sp & px & E). by rewrite lookup_empty in E.
  - intros t. right. unfold holders, tables, frames_of. cbn [own lf ext gh0]. rewrite !map_to_list_empty.
    change (refs (pm st0) t = 0). unfold refs. destruct (_ =? 0); [|done]. cbn [refcnt pm st0]. destruct ((255 :: replicate 15 0).[Z.shiftr t 12]) as [x|] eqn:E; [|done].
    apply arr_get_elem in E. apply elem_of_cons in E as [->|E]; [done|]. by apply elem_of_replicate_inv in E as ->.
  - intros t x E. by rewrite lookup_empty in E.
  - unfold backs_of. rewrite map_to_list_empty. change (swap_held Swap.boot []). split; [constructor|]. exact Swap.boot_linked.
  - intros p e fr E. by rewrite lookup_empty in E.
  - constructor.
  - intros t i sp px e E. by rewrite lookup_empty in E.
Qed.

(** A space with the second frame mapped copy-on-write at [EXVA]. *)
Definition EXVA : Z := 0x400000.
Definition ex_run : option (Z * Z * Z * vs) :=
  '(pd, s) ← vmm_new_space kcr3 st0;
  '(fr, s) ← alloc s;
  '(r, s) ← vmm_map_cache true s pd EXVA fr true false;
  Some (pd, fr, r, s).

Lemma ex_facts :
  (λ '(pd, fr, r, s), (pd, fr, r, view s pd EXVA, pool_free (pm s), Z.of_nat (length (fc s)), dfr s, sd_need s, sd_defer s)) <$> ex_run
    = Some (0x1000, 0x2000, 0, 0x2805, 10, 16, [], false, 0).
Proof. vm_compute. reflexivity. Qed.

Lemma map_cache_entry s pd va fr w :
  vmm_map_cache true s pd va fr w false = map_entry true (MMLOCK s pd) pd va fr (Z.lor fr (Z.lor PTE_P (Z.lor PTE_US (opt w PTE_COW)))).
Proof. unfold vmm_map_cache, map_entry. cbv zeta. by rewrite !Z.lor_assoc. Qed.

Lemma ex_ok : ∃ s g, ex_run = Some (0x1000, 0x2000, 0, s) ∧ ok pool16 s g ∧ rooted g 0x1000 ∧ 0x2000 ∈ ext g ∧
  page s 0x1000 EXVA = (0x2805, Some zero_page).
Proof.
  pose proof ex_facts as Hf. unfold ex_run in *.
  destruct (new_space_ok kcr3 pool16 st0 gh0 zero_page st0_ok) as (pd & s1 & E1 & _ & Hc1); [reflexivity..|].
  rewrite E1 in *. cbn [mbind option_bind] in *.
  destruct Hc1 as [(_ & _ & ?)|(_ & Hr & H1 & _)]; [done|].
  destruct (alloc_ok pool16 s1 _ H1) as (fr & s2 & E2 & _ & _ & Hc2). rewrite E2 in *. cbn [mbind option_bind] in *.
  destruct Hc2 as [(-> & -> & _)|(Hpg & Hpl & _ & Hram & _ & H2)].
  { destruct (vmm_map_cache _ _ _ _ _ _ _) as [[r s3]|]; [|done]. cbn in Hf. by injection Hf. }
  rewrite map_cache_entry in *.
  destruct (map_entry_ok true pool16 (MMLOCK s2 pd) _ pd EXVA fr (Z.lor PTE_P (Z.lor PTE_US (opt true PTE_COW))) (ok_same _ s2 (MMLOCK s2 pd) _ ltac:(done) H2))
    as (r & s3 & g3 & E3 & Hc3); try done; [by left|].
  rewrite E3 in *. cbn [mbind option_bind fmap option_fmap option_map] in *.
  injection Hf as -> -> -> Hv _ _ _ _ _. destruct Hc3 as [[_ Hp]|[? _]]; [|done]. exists s3, g3. split; [done|].
  split; [apply Hp|]. split; [eapply rooted_mono; [apply Hp|done]|]. split; [rewrite (pg_ext _ _ _ _ _ _ _ _ _ Hp); by left|].
  pose proof (pg_in _ _ _ _ _ _ _ _ _ Hp EXVA ltac:(unfold user, EXVA; lia) ltac:(lia)) as Hm. unfold map_rel in Hm. rewrite Hm.
  f_equal. change (ram (pm (MMLOCK s2 0x1000))) with (ram (pm s2)). by rewrite Hram, lookup_insert_eq.
Qed.

Lemma range_refines_witness : ∃ s g r s' g' m,
  ok pool16 s g ∧ rooted g 0x1000 ∧ range_run true OpFree s 0x1000 EXVA 0x2000 = Some (r, s') ∧
  paged pool16 (free_rel true) 0x1000 EXVA m s g s' g' ∧ r = 0 ∧ m = EXVA + 0x2000 ∧ page s' 0x1000 EXVA = (0, None).
Proof.
  destruct ex_ok as (s & g & Es & H & Hr & _ & Hpg). pose proof ex_facts as Hf. rewrite Es in Hf. clear Es. injection Hf as Hv Hfree Hfc _ _ _.
  destruct (range_refines true pool16 OpFree s g 0x1000 EXVA 0x2000 H Hr) as (r & s' & g' & m & E & Hm & Hp & Hc);
    [lia|done|done|done|].
  rewrite bool_decide_eq_true_2 in Hp by (unfold enough; rewrite Hfree; done).
  exists s, g, r, s', g', m. split; [exact H|]. split; [exact Hr|]. split; [exact E|]. clear E. split; [exact Hp|].
  destruct Hc as [[-> ->]|[Hc _]]; [|discriminate Hc]. split; [reflexivity|]. split; [reflexivity|].
  destruct (pg_in _ _ _ _ _ _ _ _ _ Hp EXVA) as [Hz|[Hz _]]; [done|done|by rewrite Hz, Hpg|done].
Defined.

Lemma cow_private_witness : ∃ s g r s' g',
  ok pool16 s g ∧ rooted g 0x1000 ∧ page s 0x1000 EXVA = (0x2805, Some zero_page) ∧
  vmm_cow true s 0x1000 (EXVA + 8) = Some (r, s') ∧
  (r = true → paged pool16 (cow_rel pool16) 0x1000 EXVA (EXVA + 4096) s g s' g').
Proof.
  destruct ex_ok as (s & g & _ & H & Hr & _ & Hpg). assert (page s 0x1000 (EXVA + 8) = page s 0x1000 EXVA) as Hp8 by (by apply (page_ext pool16)).
  destruct (cow_private true pool16 s g 0x1000 (EXVA + 8) H Hr) as (r & s' & g' & E & Hc); [done|by rewrite Hp8, Hpg|].
  exists s, g, r, s', g'. split_and!; [exact H|exact Hr|exact Hpg|exact E|]. intros ->. destruct Hc as (_ & _ & Hp & _). exact Hp.
Defined.

Lemma fault_serves_witness : ∃ s g r s' g',
  ok pool16 s g ∧ page s 0x1000 EXVA = (0x2805, Some zero_page) ∧ vmm_fault_in true (λ _ s, s) s 0x1000 EXVA = Some (r, s') ∧
  r = true ∧ paged pool16 (fault_rel pool16) 0x1000 EXVA (EXVA + 4096) s g s' g'.
Proof.
  destruct ex_ok as (s & g & Es & H & Hr & _ & Hpg). pose proof ex_facts as Hf. rewrite Es in Hf. clear Es. injection Hf as Hv Hfree _ _ _ _.
  destruct (fault_serves true pool16 (λ _ s, s) s g 0x1000 EXVA H Hr) as (r & s' & g' & E & Hc); [done|done|by rewrite Hv|by rewrite Hv|].
  exists s, g, r, s', g'. destruct r; [destruct Hc; split_and!; [exact H|exact Hpg|exact E|reflexivity|assumption]|]. destruct Hc as [_ Hc]. rewrite Hv, Hfree in Hc. by specialize (Hc eq_refl).
Defined.

End Spaces.
