(* ===== verification/Tlb.v ===== *)
(** * Shootdowns (src/src/core/vmm.c)

    With more than one processor, a frame whose mapping went away is only given
    back once the other processors have been told to forget the mapping.  The
    theorem is on the log of [Vmm]. *)

From S2P Require Import Prelude Refs Swap Pmm Vmm VmmOps Spaces.
Import Pmm Vmm VmmOps Spaces.

Module Tlb.

(** No reference is dropped while an invalidation waits for the processors that
    use [pd]; [clean] says that none waits. *)
Fixpoint ordered (pd : Z) (clean : bool) (l : list ev) : bool :=
  match l with
  | [] => true
  | EInval _ :: l => ordered pd false l
  | EShoot p :: l => ordered pd ((p =? pd) || clean) l
  | EUnref _ :: l => clean && ordered pd clean l
  end.

Fixpoint clean_after (pd : Z) (clean : bool) (l : list ev) : bool :=
  match l with
  | [] => clean
  | EInval _ :: l => clean_after pd false l
  | EShoot p :: l => clean_after pd ((p =? pd) || clean) l
  | EUnref _ :: l => clean_after pd clean l
  end.

Lemma ordered_app pd c l k : ordered pd c (l ++ k) = ordered pd c l && ordered pd (clean_after pd c l) k.
Proof. revert c. induction l as [|[] l IH]; intros c; cbn; [done|by rewrite IH..|by rewrite IH, andb_assoc]. Qed.

Section tlb.
Context {B : Type} `{!Backing B, !BackingLaws B}.
Implicit Types (s : @vs B).

(** The frames that wait come with an invalidation that does. *)
Record waiting (pd d : Z) (l0 : list ev) s : Prop := {
  w_log : ∃ L, log s = l0 ++ L ∧ ordered pd false L = true;
  w_pd : sd_pd s = pd;
  w_need : dfr s ≠ [] → sd_need s = true;
  w_defer : sd_defer s = d
}.

(** Steps that leave all of it. *)
Definition same_tlb s s' : Prop :=
  log s' = log s ∧ dfr s' = dfr s ∧ sd_defer s' = sd_defer s ∧ sd_need s' = sd_need s ∧ sd_pd s' = sd_pd s.

Lemma same_tlb_trans s1 s2 s3 : same_tlb s1 s2 → same_tlb s2 s3 → same_tlb s1 s3.
Proof. unfold same_tlb. intuition congruence. Qed.

Lemma waiting_same pd d l0 s s' : same_tlb s s' → waiting pd d l0 s → waiting pd d l0 s'.
Proof. intros (E1 & E2 & E3 & E4 & E5) []. split; rewrite ?E1, ?E2, ?E3, ?E4, ?E5; done. Qed.

Lemma alloc_tlb s fr s' : alloc s = Some (fr, s') → same_tlb s s'.
Proof. unfold alloc. intros E. inv_some. done. Qed.

Lemma wr_tlb s p v s' : wr s p v = Some s' → same_tlb s s'.
Proof. unfold wr. intros E. inv_some. done. Qed.

Lemma new_table_tlb s p pg o s' : new_table s p pg = Some (o, s') → same_tlb s s'.
Proof.
  unfold new_table. intros E. destruct (alloc s) as [[n s1]|] eqn:Ea; [|done]. cbn [mbind option_bind] in E.
  pose proof (alloc_tlb _ _ _ Ea) as H1. destruct (n =? 0); [by injection E as <- <-|].
  destruct (wr _ _ _) as [s2|] eqn:Ew; [|done]. cbn in E. injection E as <- <-. eapply same_tlb_trans; [exact H1|].
  by apply wr_tlb in Ew.
Qed.

Lemma pte_walk_tlb lvl s t va c o s' : pte_walk lvl s t va c = Some (o, s') → same_tlb s s'.
Proof.
  revert s t. induction lvl as [|l IH]; intros s t E; cbn [pte_walk] in E; [by injection E as <- <-|].
  destruct (rd s _) as [e|]; [|done]. cbn [mbind option_bind] in E. destruct (has e PTE_P); [by eapply IH|].
  destruct (_ && _).
  - destruct (new_table _ _ _) as [[n s1]|] eqn:En; [|done]. cbn [mbind option_bind] in E. apply new_table_tlb in En.
    destruct n; [|by injection E as <- <-]. eapply same_tlb_trans; [exact En|by eapply IH].
  - destruct (negb c); [by injection E as <- <-|].
    destruct (new_table _ _ _) as [[n s1]|] eqn:En; [|done]. cbn [mbind option_bind] in E. apply new_table_tlb in En.
    destruct n; [|by injection E as <- <-]. eapply same_tlb_trans; [exact En|by eapply IH].
Qed.

Lemma pde_walk_tlb k s t va c o s' : pde_walk k s t va c = Some (o, s') → same_tlb s s'.
Proof.
  revert s t. induction k as [|k IH]; intros s t E; cbn [pde_walk] in E; [by injection E as <- <-|].
  destruct (rd s _) as [e|]; [|done]. cbn [mbind option_bind] in E. destruct (has e PTE_P); [by eapply IH|].
  destruct (negb c); [by injection E as <- <-|].
  destruct (new_table _ _ _) as [[n s1]|] eqn:En; [|done]. cbn [mbind option_bind] in E. apply new_table_tlb in En.
  destruct n; [|by injection E as <- <-]. eapply same_tlb_trans; [exact En|by eapply IH].
Qed.

Lemma log_more pd d l0 s s' L :
  waiting pd d l0 s → log s' = log s ++ L → (∀ c, ordered pd c L = true) → sd_pd s' = pd → (dfr s' ≠ [] → sd_need s' = true) →
  sd_defer s' = d → waiting pd d l0 s'.
Proof.
  intros [(L0 & E0 & H0) _ _ _] E HL. split; try done. exists (L0 ++ L). rewrite E, E0, <- app_assoc. split; [done|].
  by rewrite ordered_app, H0, HL.
Qed.

(** A present entry that goes away. *)
Lemma put_tlb pd d l0 s p va v e s' fr :
  waiting pd d l0 s → 0 < d → rd s p = Some e → has e PTE_P = true → e ≠ v →
  pte_put true {| s with dfr := dfr s ++ [fr] |} p va v = Some s' → waiting pd d l0 s'.
Proof.
  intros Hw Hd He Hp Hne E. pose proof Hw as [_ Hpd Hneed Hdf]. unfold pte_put in E.
  change (rd {| s with dfr := dfr s ++ [fr] |} p) with (rd s p) in E. rewrite He in E. cbn [mbind option_bind] in E.
  rewrite (proj2 (Z.eqb_neq _ _) Hne) in E. destruct (wr _ p v) as [s1|] eqn:Ew; [|done]. cbn [mbind option_bind] in E.
  apply wr_tlb in Ew as (E1 & E2 & E3 & E4 & E5). cbn in E1, E2, E3, E4, E5. rewrite Hp in E. unfold tlb_inval in E. cbn [negb] in E.
  assert (nz (sd_defer s1) = true) as Hnz by (rewrite E3, Hdf; unfold nz; by rewrite (proj2 (Z.eqb_neq _ _)) by lia).
  cbn [sd_defer] in E. rewrite Hnz in E. injection E as <-.
  eapply (log_more _ _ _ s _ [EInval va]); [done|cbn; by rewrite E1|done|cbn; congruence|done|cbn; congruence].
Qed.

(** An entry that was not present goes away. *)
Lemma put_absent_tlb pd d l0 smp s p va v e s' :
  waiting pd d l0 s → rd s p = Some e → has e PTE_P = false → pte_put smp s p va v = Some s' → waiting pd d l0 s'.
Proof.
  intros Hw He Hp E. pose proof Hw as [_ Hpd Hneed Hdf]. unfold pte_put in E. rewrite He in E. cbn [mbind option_bind] in E.
  destruct (e =? v); [by injection E as <-|]. destruct (wr _ p v) as [s1|] eqn:Ew; [|done]. cbn [mbind option_bind] in E.
  apply wr_tlb in Ew as (E1 & E2 & E3 & E4 & E5). rewrite Hp in E. injection E as <-.
  eapply (log_more _ _ _ s _ [EInval va]); [done|cbn; by rewrite E1|done|cbn; congruence|cbn; by rewrite E2, E4|cbn; congruence].
Qed.

Lemma unref_all_tlb frs s s' :
  unref_all s frs = Some s' → log s' = log s ++ (EUnref <$> frs) ∧ sd_defer s' = sd_defer s ∧ sd_need s' = sd_need s ∧ sd_pd s' = sd_pd s.
Proof.
  revert s. induction frs as [|fr frs IH]; intros s E; cbn in E; [injection E as <-; by rewrite app_nil_r|].
  destruct (unref s fr) as [s1|] eqn:Eu; [|done]. cbn in E. apply IH in E as (-> & -> & -> & ->). unfold unref in Eu. inv_some. cbn.
  by rewrite <- app_assoc.
Qed.

Lemma unrefs_ordered pd frs : ordered pd true (EUnref <$> frs) = true.
Proof. induction frs; done. Qed.

Lemma flush_tlb pd d l0 s s' : waiting pd d l0 s → dfr_flush s = Some s' → waiting pd d l0 s' ∧ dfr s' = [].
Proof.
  intros Hw E. pose proof Hw as [_ Hpd Hneed Hdf]. unfold dfr_flush in E. cbv zeta in E.
  destruct (sd_need s) eqn:En.
  - destruct (unref_all _ _) as [s1|] eqn:Eu; [|done]. cbn in E. injection E as <-. apply unref_all_tlb in Eu as (E1 & E2 & E3 & E4).
    cbn in *. split; [|done]. eapply (log_more _ _ _ s _ (EShoot pd :: (EUnref <$> dfr s))); [done| | | | |]; cbn; try congruence.
    + by rewrite E1, Hpd, <- app_assoc.
    + intros c. rewrite Z.eqb_refl. apply unrefs_ordered.
  - destruct (dfr s) as [|f fs] eqn:Ed; [|by specialize (Hneed ltac:(done)); congruence]. cbn in E. injection E as <-. split; [|done].
    eapply waiting_same; [|exact Hw]. split_and!; try done; cbn; congruence.
Qed.

Lemma unref_rd s fr s' p : unref s fr = Some s' → rd s' p = rd s p.
Proof.
  unfold unref. destruct (pmm_unref (pm s) fr) as [m|] eqn:E; [|done]. cbn. intros [= <-]. unfold rd. cbn.
  assert (ram m = ram (pm s)) as ->; [|done]. unfold pmm_unref in E.
  destruct (ours _ _) as [[]|]; cbn in E; [|by injection E as <-|done]. inv_some.
  destruct (_ && _); inv_some; [|done]. by destruct (_ =? _).
Qed.

Lemma unref_all_rd frs s s' p : unref_all s frs = Some s' → rd s' p = rd s p.
Proof.
  revert s. induction frs as [|fr frs IH]; intros s E; cbn in E; [by injection E as <-|].
  destruct (unref s fr) as [s1|] eqn:Eu; [|done]. cbn in E. rewrite (IH _ E). by eapply unref_rd.
Qed.

Lemma flush_rd s s' p : dfr_flush s = Some s' → rd s' p = rd s p.
Proof.
  unfold dfr_flush. cbv zeta. destruct (sd_need s); intros E; destruct (unref_all _ _) as [s1|] eqn:Eu; try done;
    cbn in E; injection E as <-; change (rd {| s1 with dfr := [] |} p) with (rd s1 p); by rewrite (unref_all_rd _ _ _ _ Eu).
Qed.

Lemma push_tlb pd d l0 s fr s1 : waiting pd d l0 s → dfr_push s fr = Some s1 →
  ∃ s0, waiting pd d l0 s0 ∧ s1 = {| s0 with dfr := dfr s0 ++ [fr] |} ∧ ∀ p, rd s0 p = rd s p.
Proof.
  intros Hw. unfold dfr_push. destruct (_ =? 256).
  - destruct (dfr_flush s) as [s0|] eqn:E; [|done]. cbn. intros [= <-]. exists s0.
    destruct (flush_tlb _ _ _ _ _ Hw E). split; [done|]. split; [done|]. intros p. by eapply flush_rd.
  - cbn. intros [= <-]. by exists s.
Qed.

(** Turns of the loops over pages. *)
Definition keeps_waiting (pd d : Z) (l0 : list ev) (body : Z → vs → option (option Z * Z * vs)) : Prop :=
  ∀ a s o a' s', waiting pd d l0 s → body a s = Some (o, a', s') → waiting pd d l0 s'.

Lemma on_pages_eq va len body s :
  on_pages va len body s = while 52 (page_turn body (range_end va len)) (Z.ldiff va 4095, s).
Proof. reflexivity. Qed.

Lemma on_pages_tlb pd d l0 body va len s r s' :
  keeps_waiting pd d l0 body → waiting pd d l0 s → on_pages va len body s = Some (r, s') → waiting pd d l0 s'.
Proof.
  intros Hb Hs E. rewrite on_pages_eq in E.
  apply (while_inv (λ x : Z * vs, waiting pd d l0 x.2) (λ x : Z * vs, waiting pd d l0 x.2) _ _ _ _) in E; [done| |done].
  intros [a t] o Ht Et. unfold page_turn in Et. cbn in Ht. destruct (a <? range_end va len); [|by injection Et as <-].
  destruct (body a t) as [[[o1 a1] t1]|] eqn:Eb; [|done]. cbn in Et. injection Et as <-.
  pose proof (Hb _ _ _ _ _ Ht Eb). by destruct o1.
Qed.

(** A page that goes away, its frame deferred. *)
Lemma deferred_tlb pd d l0 s p a e v s1 s2 :
  waiting pd d l0 s → 0 < d → rd s p = Some e → has e PTE_P = true → e ≠ v →
  dfr_push s (addr e) = Some s1 → pte_put true s1 p a v = Some s2 → waiting pd d l0 s2.
Proof.
  intros Hw Hd He Hp Hne E1 E2. destruct (push_tlb _ _ _ _ _ _ Hw E1) as (s0 & H0 & -> & Hr).
  eapply put_tlb; [exact H0|done|by rewrite Hr|done|done|exact E2].
Qed.

Lemma rel_tlb s e s' : pte_rel s e = Some s' → same_tlb s s'.
Proof. unfold pte_rel. destruct (has e PTE_SWAP); [|destruct (has e PTE_SHL)]; intros E; inv_some; done. Qed.

Lemma rel_rd s e s' p : pte_rel s e = Some s' → rd s' p = rd s p.
Proof. unfold pte_rel. destruct (has e PTE_SWAP); [|destruct (has e PTE_SHL)]; intros E; inv_some; done. Qed.

Lemma free_page_tlb pd d l0 e : 0 < d → keeps_waiting pd d l0 (free_page true pd e true).
Proof.
  intros Hd a s o a' s' Hw E. unfold free_page, next in E. destruct (negb (uaddr a)); [by injection E as _ _ <-|].
  destruct (hole_at s pd a) as [h|]; [|done]. cbn [mbind option_bind] in E. destruct (nz h); [by injection E as _ _ <-|].
  destruct (if whole a e then _ else _) as [[]|]; [| |done]; cbn [mbind option_bind] in E.
  - destruct (pde_slot s pd a false) as [[p s1]|] eqn:Ep; [|done]. cbn [mbind option_bind] in E.
    apply pde_walk_tlb in Ep. destruct p as [p|]; [|done].
    destruct (wr s1 p 0) as [s2|] eqn:Ew; [|done]. cbn in E. injection E as _ _ <-. apply wr_tlb in Ew.
    eapply waiting_same; [|exact Hw]. by eapply same_tlb_trans.
  - destruct (pte_slot s pd a false) as [[p s1]|] eqn:Ep; [|done]. cbn [mbind option_bind] in E.
    apply pte_walk_tlb in Ep. pose proof (waiting_same _ _ _ _ _ Ep Hw) as Hw1. destruct p as [p|]; [|by injection E as _ _ <-].
    destruct (rd s1 p) as [x|] eqn:Ex; [|done]. cbn [mbind option_bind] in E.
    destruct (negb (has x PTE_USED)) eqn:Eu; [by injection E as _ _ <-|].
    destruct (has x PTE_P) eqn:Exp; cbn [andb] in E.
    + destruct (dfr_push s1 (addr x)) as [s2|] eqn:E2; [|done]. cbn [mbind option_bind] in E.
      destruct (pte_put true s2 p a 0) as [s3|] eqn:E3; [|done]. cbn in E. injection E as _ _ <-.
      eapply deferred_tlb; [exact Hw1|done|exact Ex|done| |exact E2|exact E3]. intros ->. done.
    + unfold pte_drop in E. rewrite Exp in E. destruct (pte_rel s1 x) as [s2|] eqn:E2; [|done]. cbn [mbind option_bind] in E.
      destruct (pte_put true s2 p a 0) as [s3|] eqn:E3; [|done]. cbn in E. injection E as _ _ <-.
      eapply put_absent_tlb; [|by rewrite (rel_rd _ _ _ _ E2)|exact Exp|exact E3].
      eapply waiting_same; [by eapply rel_tlb|exact Hw1].
Qed.

Lemma discard_page_tlb pd d l0 e : 0 < d → keeps_waiting pd d l0 (discard_page true pd e).
Proof.
  intros Hd a s o a' s' Hw E. unfold discard_page, next in E. destruct (negb (uaddr a)); [by injection E as _ _ <-|].
  destruct (hole_at s pd a) as [h|]; [|done]. cbn [mbind option_bind] in E. destruct (nz h); [by injection E as _ _ <-|].
  destruct (if whole a e then _ else _) as [[]|]; [| |done]; cbn [mbind option_bind] in E; [by injection E as _ _ <-|].
  destruct (pte_slot s pd a false) as [[p s1]|] eqn:Ep; [|done]. cbn [mbind option_bind] in E.
  apply pte_walk_tlb in Ep. pose proof (waiting_same _ _ _ _ _ Ep Hw) as Hw1. destruct p as [p|]; [|by injection E as _ _ <-].
  destruct (rd s1 p) as [x|] eqn:Ex; [|done]. cbn [mbind option_bind] in E.
  destruct (negb _) eqn:Eu; [by injection E as _ _ <-|]. apply negb_false_iff, Z.eqb_eq in Eu.
  assert (has x PTE_P = true) as Hp.
  { unfold has. replace (Z.land x PTE_P) with (Z.land (Z.land x (Z.lor (Z.lor PTE_P PTE_RW) PTE_SHARED)) PTE_P); [by rewrite Eu|].
    by rewrite <- Z.land_assoc. }
  destruct (dfr_push s1 (addr x)) as [s2|] eqn:E2; [|done]. cbn [mbind option_bind] in E.
  destruct (pte_put true s2 p a _) as [s3|] eqn:E3; [|done]. cbn in E. injection E as _ _ <-.
  eapply deferred_tlb; [exact Hw1|done|exact Ex|done| |exact E2|exact E3]. intros Hq. rewrite Hq in Hp.
  rewrite land_US in Hp. by destruct (has x PTE_US).
Qed.

Lemma start_tlb s pd d : dfr s = [] → sd_pd s = pd → sd_defer s = d → waiting pd d (log s) s.
Proof. intros Hd Hp Hf. split; [exists []; by rewrite app_nil_r|done|by rewrite Hd|done]. Qed.

Lemma fc_lower_tlb s pd va s' : fc_lower s pd va = Some s' → same_tlb s s'.
Proof. unfold fc_lower. intros E. inv_some. destruct (_ && _); inv_some; done. Qed.

Lemma waiting_defer pd d d' l0 s : waiting pd d l0 s → waiting pd d' l0 {| s with sd_defer := d' |}.
Proof. by intros []; split. Qed.

Lemma free_range_eq s pd va len :
  vmm_free_range true s pd va len = (vmm_free_range_nl true (MMLOCK s pd) pd va len true ≫= dfr_flush).
Proof. reflexivity. Qed.

Lemma free_range_nl_eq s pd va len :
  vmm_free_range_nl true s pd va len true =
    (fc_lower s pd va ≫= λ s, on_pages va len (free_page true pd (range_end va len) true) (defer s) ≫= λ p,
     Some (let s := p.2 in {| s with sd_defer := sd_defer s - 1 |})).
Proof. unfold vmm_free_range_nl. destruct (fc_lower s pd va); [|done]. rewrite !bind_ok. by destruct (on_pages _ _ _ _) as [[]|]. Qed.

Lemma discard_eq s pd va len :
  vmm_discard true s pd va len =
    (on_pages va len (discard_page true pd (range_end va len)) (defer (MMLOCK s pd)) ≫= λ p,
     dfr_flush (let s := p.2 in {| s with sd_defer := sd_defer s - 1 |})).
Proof. unfold vmm_discard. by destruct (on_pages _ _ _ _) as [[]|]. Qed.

Lemma free_range_tlb s pd va len s' :
  dfr s = [] → 0 ≤ sd_defer s → vmm_free_range true s pd va len = Some s' →
  ∃ L, log s' = log s ++ L ∧ ordered pd false L = true ∧ dfr s' = [].
Proof.
  intros Hd H0 E. rewrite free_range_eq, free_range_nl_eq in E.
  destruct (fc_lower (MMLOCK s pd) pd va) as [s1|] eqn:E1; [|done]. rewrite bind_ok in E. apply fc_lower_tlb in E1.
  destruct (on_pages _ _ _ _) as [[r s2]|] eqn:E2; [|done]. rewrite bind_ok in E.
  apply (on_pages_tlb pd (sd_defer s + 1) (log s)) in E2; [|apply free_page_tlb; lia|].
  - rewrite bind_ok in E. apply (flush_tlb pd (sd_defer s2 - 1) (log s)) in E as [[(L & ? & ?) _ _ _] ?]; [by exists L|].
    by eapply waiting_defer.
  - destruct E1 as (F1 & F2 & F3 & F4 & F5). cbn in F1, F2, F3, F4, F5. unfold defer. rewrite <- F1, <- F3.
    change (log s1) with (log {| s1 with sd_defer := sd_defer s1 + 1 |}). apply start_tlb; cbn; congruence.
Qed.

Lemma discard_tlb s pd va len s' :
  dfr s = [] → 0 ≤ sd_defer s → vmm_discard true s pd va len = Some s' →
  ∃ L, log s' = log s ++ L ∧ ordered pd false L = true ∧ dfr s' = [].
Proof.
  intros Hd H0 E. rewrite discard_eq in E.
  destruct (on_pages _ _ _ _) as [[r s2]|] eqn:E2; [|done]. rewrite bind_ok in E.
  apply (on_pages_tlb pd (sd_defer s + 1) (log s)) in E2; [|apply discard_page_tlb; lia|].
  - apply (flush_tlb pd (sd_defer s2 - 1) (log s)) in E as [[(L & ? & ?) _ _ _] ?]; [by exists L|]. by eapply waiting_defer.
  - change (log s) with (log (defer (MMLOCK s pd))). by apply start_tlb.
Qed.

Lemma run_free_eq s pd va len : range_run true OpFree s pd va len = (vmm_free_range true s pd va len ≫= λ s, Some (0, s)).
Proof. reflexivity. Qed.

Lemma run_discard_eq s pd va len : range_run true OpDiscard s pd va len = (vmm_discard true s pd va len ≫= λ s, Some (0, s)).
Proof. reflexivity. Qed.

Lemma bind_ret {A} (o : option A) (r : Z) x : (o ≫= λ y, Some (0, y)) = Some (r, x) → o = Some x.
Proof. destruct o; [|done]. cbn. by intros [= _ ->]. Qed.

Context (pool : Z → bool).

(** C10: when more than one processor runs, [vmm_free_range] and [vmm_discard], the
    operations that unmap with deferred frames (munmap, madvise), answer and give no
    frame back while an invalidation of the range still has to reach the processors
    that use the space: in the order of the log every dropped reference comes after
    a shootdown with no invalidation since.  No frame is left waiting at the end.
    The operations that replace a mapping without deferring ([vmm_free_range_nl] for
    MAP_FIXED, [vmm_lazy_range]) are outside this theorem. *)
Theorem shootdown_first o s g pd va len :
  ok pool s g → rooted g pd → length (fc s) = 16%nat → USER_BASE ≤ va → 0 ≤ len → va + len ≤ USER_TOP →
  dfr s = [] → 0 ≤ sd_defer s → (o = OpFree ∨ o = OpDiscard) →
  ∃ s' L, range_run true o s pd va len = Some (0, s') ∧ log s' = log s ++ L ∧ ordered pd false L = true ∧ dfr s' = [].
Proof.
  intros H Hr Hfc Hva Hl Ht Hd H0 Ho.
  destruct (range_run_ok true pool false o s g pd va len H Hr Hfc Hva Hl Ht ltac:(done)) as (r & s' & g' & m & E & _ & _ & Hc).
  assert (r = 0) as -> by (destruct Hc as [[-> _]|(? & _)]; [done|by destruct Ho as [-> | ->]]).
  assert (∃ L, log s' = log s ++ L ∧ ordered pd false L = true ∧ dfr s' = []) as (L & HL).
  { destruct Ho as [-> | ->].
    - apply (free_range_tlb s pd va len s' Hd H0). eapply bind_ret. rewrite <- run_free_eq. exact E.
    - apply (discard_tlb s pd va len s' Hd H0). eapply bind_ret. rewrite <- run_discard_eq. exact E. }
  exists s', L. split; [exact E|exact HL].
Qed.

End tlb.

Lemma shootdown_first_witness : ∃ s g s' L,
  ok pool16 s g ∧ range_run true OpFree s 0x1000 EXVA 0x2000 = Some (0, s') ∧ log s' = log s ++ L ∧ ordered 0x1000 false L = true.
Proof.
  destruct ex_ok as (s & g & Es & H & Hr & _ & Hpg). pose proof ex_facts as Hf. rewrite Es in Hf. clear Es.
  injection Hf as Hv Hfree Hfc Hd Hn Hdf.
  destruct (shootdown_first pool16 OpFree s g 0x1000 EXVA 0x2000 H Hr) as (s' & L & E & El & Ho & _);
    [lia|done|done|done|done|lia|by left|].
  exists s, g, s', L. split; [exact H|]. split; [exact E|]. split; [exact El|exact Ho].
Defined.

End Tlb.
