(* ===== verification/Signal.v ===== *)
(** * Signals (src/src/proc/signal.c)

    Delivery of a signal to a handler on the user stack, [rt_sigreturn], and the
    calls that set handlers, masks and the alternate stack.  User memory is a map
    from addresses to bytes.  What ptrace.c does to a process that stops is the
    parameter [pt_stop], what proc.c does with a signal sent to a process is
    [proc_send_signal].  [writable] is the answer of [user_writable] on a range,
    which is defined on the page tables of [Vmm]. *)

From S2P Require Import Prelude Refs Swap Pmm Vmm.

Module Signal.

(** ** User memory *)

Abbreviation mem := (Z → Z).

Definition upd1 (m : mem) (a v : Z) : mem := λ x, if x =? a then v else m x.

(** [n] bytes, the low ones first. *)
Fixpoint st (n : nat) (m : mem) (a v : Z) : mem :=
  match n with O => m | S n => upd1 (st n m (a + 1) (v / 256)) a (v mod 256) end.

Fixpoint ld (n : nat) (m : mem) (a : Z) : Z :=
  match n with O => 0 | S n => m a + 256 * ld n m (a + 1) end.

(** Stores at an offset from a base, in order. *)
Definition stores (m : mem) (b : Z) (l : list (Z * nat * Z)) : mem :=
  foldl (λ m '(o, n, v), st n m (b + o) v) m l.

(** ** Processes *)

Definition EINTR : Z := 4.
Definition EFAULT : Z := 14.
Definition EINVAL : Z := 22.
Definition NSIG_MAX : Z := 65.
Definition SA_RESTORER : Z := 0x04000000.
Definition SA_ONSTACK : Z := 0x08000000.
Definition SA_RESTART : Z := 0x10000000.
Definition SA_NODEFER : Z := 0x40000000.
Definition SA_RESETHAND : Z := 0x80000000.
Definition GDT_UDATA : Z := 0x23.
Definition GDT_UCODE : Z := 0x2B.

Record regs := Regs {
  r15 : Z; r14 : Z; r13 : Z; r12 : Z; r11 : Z; r10 : Z; r9 : Z; r8 : Z;
  rdi : Z; rsi : Z; rbp : Z; rbx : Z; rdx : Z; rcx : Z; rax : Z;
  vec : Z; err_code : Z; rip : Z; cs : Z; rflags : Z; rsp : Z; ss : Z
}.

Record sa_t := Sa { handler : Z; flags : Z; restorer : Z; mask : Z }.

(** The fields that signals use; [state] is true for a process that lives. *)
Record proc := Proc {
  state : bool; sa : list sa_t;
  sig_mask : Z; sig_pending : Z; saved_mask : Z; in_sigsuspend : bool;
  ss_sp : Z; ss_size : Z;
  sq_sig : Z; sq_tid : Z; sq_over : Z; sq_val : Z;
  sys_sig : bool; sys_nr : Z; sys_err : Z; sys_ip : Z;
  fault_sig : Z; fault_addr : Z; fault_trap : Z; fault_err : Z; dr6 : Z;
  tracer : Z; pt_state : Z; pt_inj : Z; pt_kind : Z; pt_isr_stop : bool; pt_intr : bool;
  pt_si : list (Z * nat * Z); pt_sival : bool; pt_orig : Z
}.

Definition SIGBIT (s : Z) : Z := Z.shiftl 1 (s - 1).
Definition UNBLOCKABLE : Z := Z.lor (SIGBIT 9) (SIGBIT 19).

(** [sig_pending & ~(sig_mask & ~UNBLOCKABLE)] *)
Definition ready (p : proc) : Z := Z.ldiff (sig_pending p) (Z.ldiff (sig_mask p) UNBLOCKABLE).

Definition proc_signal_deliverable (p : proc) : bool :=
  pt_intr p || (pt_isr_stop p && nz (pt_state p)) || nz (ready p).

(** The lowest signal in a set: [sig = 1; while (!(ready & SIGBIT(sig))) sig++]. *)
Definition first_sig (w : Z) : option Z := find (λ s, nz (Z.land w (SIGBIT s))) (seqZ 1 64).

(** ** Delivery *)

(** Offsets in the frame, from [base]: the context is 40 bytes into [uc]. *)
Definition UC : Z := 8.
Definition SC : Z := 48.
Definition INFO : Z := 312.

Definition save_context (r : regs) (fx oldmask : Z) : list (Z * nat * Z) :=
  ((λ '(o, v), (SC + o, 8%nat, v)) <$>
    [(0, r8 r); (8, r9 r); (16, r10 r); (24, r11 r); (32, r12 r); (40, r13 r); (48, r14 r); (56, r15 r);
     (64, rdi r); (72, rsi r); (80, rbp r); (88, rbx r); (96, rdx r); (104, rax r); (112, rcx r); (120, rsp r);
     (128, rip r); (136, rflags r)]) ++
  [(SC + 144, 2%nat, u16 (cs r)); (SC + 150, 2%nat, u16 (ss r)); (SC + 184, 8%nat, fx); (SC + 168, 8%nat, oldmask)].

(** The alternate stack is in use at [sp]. *)
Definition on_stack (p : proc) (sp : Z) : bool := nz (ss_size p) && (u64 (sp - ss_sp p) <=? ss_size p).

(** Where the frame goes. *)
Record place := Place { p_alt : bool; p_sp : Z; p_fx : Z; p_base : Z }.

Definition frame_place (p : proc) (fl : Z) (r : regs) : place :=
  let sp := u64 (rsp r - 128) in
  let on_alt := on_stack p sp in
  let sp := if nz (Z.land fl SA_ONSTACK) && nz (ss_size p) && negb on_alt then u64 (ss_sp p + ss_size p) else sp in
  let fx := Z.ldiff (u64 (sp - 512)) 15 in
  Place on_alt sp fx (u64 (Z.ldiff (u64 (fx - (8 + 304 + 128))) 15 - 8)).

(** The frame: FPU state, return address, ucontext, siginfo. *)
Definition frame (p : proc) (r : regs) (fpu sig oldmask rest : Z) (pl : place) : list (Z * nat * Z) :=
  [(p_fx pl - p_base pl, 512%nat, fpu); (0, 8%nat, rest); (UC, 432%nat, 0);
   (UC + 16, 8%nat, ss_sp p); (UC + 24, 8%nat, if nz (ss_size p) then b2z (p_alt pl) else 2); (UC + 32, 8%nat, ss_size p);
   (SC, 256%nat, 0)] ++
  save_context r (p_fx pl) oldmask ++
  [(SC + 256, 8%nat, oldmask); (INFO, 4%nat, u32 sig)] ++
  (if sig =? sq_sig p
   then [(INFO + 8, 4%nat, u32 (-2)); (INFO + 16, 4%nat, u32 (sq_tid p)); (INFO + 20, 4%nat, u32 (sq_over p)); (INFO + 24, 8%nat, sq_val p)]
   else []) ++
  (if (sig =? 31) && sys_sig p
   then [(INFO + 4, 4%nat, u32 (sys_err p)); (INFO + 8, 4%nat, 1); (INFO + 16, 8%nat, sys_ip p); (INFO + 24, 4%nat, u32 (sys_nr p));
         (INFO + 28, 4%nat, 0xC000003E)]
   else []) ++
  (if sig =? fault_sig p
   then [(INFO + 8, 4%nat, if fault_trap p =? 14 then if nz (Z.land (fault_err p) 1) then 2 else 1 else 1);
         (INFO + 16, 8%nat, if fault_trap p =? 14 then fault_addr p else rip r);
         (SC + 160, 8%nat, fault_trap p); (SC + 152, 8%nat, fault_err p); (SC + 176, 8%nat, fault_addr p)]
   else []).

(** How a delivery ends: the process goes on, or it exits with a status. *)
Inductive outcome := Goes (p : proc) (r : regs) (m : mem) | Exits (status : Z).

Section signals.
Context (pt_stop : proc → regs → Z → Z → Z → bool * proc * regs).
Context (writable : Z → Z → bool).
(** [None]: the signal ends the process. *)
Context (proc_send_signal : proc → Z → option proc).

(** The syscall is run again: back onto "syscall". *)
Definition again (r : regs) (nr : Z) : regs := {| r with rax := u64 nr; rip := u64 (rip r - 2) |}.

Definition set_sa (p : proc) (sig : Z) (x : sa_t) : option proc := l ← (sa p).[sig <- x]; Some {| p with sa := l |}.

Definition restarts (nr ret : Z) : bool := (0 <=? nr) && (ret =? - EINTR) && negb (nr =? 130) && negb (nr =? 34).

Definition no_suspend (p : proc) : proc := {| p with in_sigsuspend := false |}.

(** The process once the frame is there. *)
Definition handled (p : proc) (sig : Z) (h : sa_t) : proc :=
  {| p with sq_sig := if sig =? sq_sig p then 0 else sq_sig p;
            sys_sig := if (sig =? 31) && sys_sig p then false else sys_sig p;
            fault_sig := if sig =? fault_sig p then 0 else fault_sig p;
            sig_mask := Z.lor (if nz (Z.land (flags h) SA_NODEFER) then sig_mask p else Z.lor (sig_mask p) (SIGBIT sig)) (mask h) |}.

(** From label [have] on. *)
Definition deliver (p : proc) (r : regs) (m : mem) (fpu nr ret sig : Z) : option outcome :=
  h ← (sa p).[sig];
  if handler h =? 1 then Some (Goes p r m)
  else if handler h =? 0
  then
    if sig =? 19
    then Some (if negb (nz (tracer p)) then let '(_, p, r) := pt_stop p r 19 0 3 in Goes p r m else Goes p r m)
    else if (sig =? 17) || (sig =? 18) || (sig =? 23) || (sig =? 28) || ((20 <=? sig) && (sig <=? 22)) then Some (Goes p r m)
    else Some (Exits (Z.land sig 0x7F))
  else
    let fl := flags h in
    let r := if restarts nr ret && nz (Z.land fl SA_RESTART) then again r nr else r in
    let oldmask := if in_sigsuspend p then saved_mask p else sig_mask p in
    let p := no_suspend p in
    let rest := if nz (Z.land fl SA_RESTORER) then restorer h else 0 in
    let pl := frame_place p fl r in
    if negb (writable (p_base pl) (u64 (p_sp pl - p_base pl))) then Some (match proc_send_signal p 11 with Some p => Goes p r m | None => Exits 11 end)
    else
      let m := stores m (p_base pl) (frame p r fpu sig oldmask rest pl) in
      p ← (if nz (Z.land fl SA_RESETHAND) then set_sa (handled p sig h) sig {| h with handler := 0; flags := 0 |} else Some (handled p sig h));
      Some (Goes p {| r with rsp := p_base pl; rip := handler h; rdi := u64 sig; rsi := p_base pl + INFO; rdx := p_base pl + UC;
                             rax := 0; rflags := Z.ldiff (rflags r) 0x400; cs := GDT_UCODE; ss := GDT_UDATA |} m).

(** The tracer ate the signal: a sleeping syscall goes on. *)
Definition suppressed (p : proc) (r : regs) (m : mem) (nr ret : Z) : outcome :=
  Goes p (if restarts nr ret then again r nr else r) m.

(** What a tracer reads of a signal. *)
Definition tracer_info (p : proc) (sig : Z) : list (Z * nat * Z) :=
  [(0, 128%nat, 0); (0, 4%nat, u32 sig)] ++
  (if (sig =? 5) && (fault_sig p =? 5)
   then [(8, 4%nat, if fault_trap p =? 3 then 0x80 else if nz (Z.land (dr6 p) 15) then 4 else 2)]
   else if sig =? fault_sig p
   then [(8, 4%nat, if fault_trap p =? 14 then if nz (Z.land (fault_err p) 1) then 2 else 1 else 1)] else []) ++
  (if (sig =? fault_sig p) && (fault_trap p =? 14) then [(16, 8%nat, fault_addr p)] else []).

(** The next pending signal, shown to the tracer first. *)
Definition next_signal (p : proc) (r : regs) (m : mem) (fpu nr ret : Z) : option outcome :=
  match first_sig (ready p) with
  | None => Some (Goes p r m)
  | Some sig =>
      let p := {| p with sig_pending := Z.ldiff (sig_pending p) (SIGBIT sig) |} in
      if nz (tracer p)
      then
        let p := {| p with pt_si := tracer_info p sig; pt_sival := true; pt_orig := if 0 <=? nr then u64 nr else u64 (-1) |} in
        let '(ok, p, r) := pt_stop p r sig 0 1 in
        if negb ok then Some (Goes p r m)
        else if negb (nz (pt_inj p)) then Some (suppressed p r m nr ret)
        else deliver p r m fpu nr ret (pt_inj p)
      else deliver p r m fpu nr ret sig
  end.

(** [regs] of a process that returns to ring 3; [nr] is the syscall it returns
    from, -1 if none, [fpu] the FPU state. *)
Definition proc_deliver_signal (p : proc) (r : regs) (m : mem) (fpu nr ret : Z) : option outcome :=
  if negb (state p) || negb (Z.land (cs r) 3 =? 3) then Some (Goes p r m)
  else if pt_state p =? 1 then Some (Goes p r m)
  else if pt_isr_stop p && (pt_state p =? 2)
  then
    let p := {| p with pt_isr_stop := false; pt_state := 0 |} in
    if negb (pt_kind p =? 1) then Some (Goes p r m)
    else if negb (nz (pt_inj p)) then Some (suppressed p r m nr ret)
    else deliver p r m fpu nr ret (pt_inj p)
  else if pt_intr p
  then
    let '(ok, p, r) := pt_stop {| p with pt_intr := false |} r 5 128 2 in
    if negb ok then Some (Goes p r m) else next_signal p r m fpu nr ret
  else next_signal p r m fpu nr ret.

(** A fault of the processor in ring 3; false: nobody handles it. *)
Definition proc_fault_signal (p : proc) (r : regs) (m : mem) (fpu sig trap err ad : Z) : option (bool * outcome) :=
  if negb (state p) then Some (false, Goes p r m)
  else
    let q := {| p with fault_sig := sig; fault_trap := trap; fault_err := err; fault_addr := ad |} in
    if nz (tracer p)
    then
      let q := {| q with sig_pending := Z.lor (sig_pending q) (SIGBIT sig); sig_mask := Z.ldiff (sig_mask q) (SIGBIT sig) |} in
      o ← proc_deliver_signal q r m fpu (-1) 0;
      Some (true, match o with
                  | Goes q r m => Goes {| q with fault_sig := 0 |} r m
                  | Exits s => Exits s
                  end)
    else
      h ← (sa p).[sig];
      if (handler h <=? 1) || nz (Z.land (sig_mask p) (SIGBIT sig)) then Some (false, Goes p r m)
      else
        let other := sig_pending p in
        let q := {| q with sig_pending := SIGBIT sig |} in
        o ← proc_deliver_signal q r m fpu (-1) 0;
        match o with
        | Goes q r m =>
            h ← (sa q).[sig];
            let done := negb (nz (Z.land (sig_pending q) (SIGBIT sig))) && (rip r =? handler h) in
            let q := {| q with sig_pending := Z.lor (sig_pending q) other |} in
            Some (done, Goes (if done then q else {| q with fault_sig := 0 |}) r m)
        | Exits s => Some (false, Exits s)
        end.

End signals.

(** ** The way back *)

(** The registers, the process and the FPU state after [rt_sigreturn]. *)
Definition proc_sigreturn (p : proc) (r : regs) (m : mem) (fpu : Z) : Z * proc * regs * Z :=
  let f := u64 (rsp r - 8) in
  if (f <? Vmm.USER_BASE) || (Vmm.USER_TOP <? u64 (f + 8 + 304 + 128)) then (- EFAULT, p, r, fpu)
  else
    let w o := ld 8 m (f + SC + o) in
    let fx := w 184 in
    (0, {| p with sig_mask := Z.ldiff (ld 8 m (f + SC + 256)) UNBLOCKABLE |},
     {| r with r8 := w 0; r9 := w 8; r10 := w 16; r11 := w 24; r12 := w 32; r13 := w 40; r14 := w 48; r15 := w 56;
               rdi := w 64; rsi := w 72; rbp := w 80; rbx := w 88; rdx := w 96; rcx := w 112; rax := w 104;
               rip := w 128; rsp := w 120; rflags := Z.lor (Z.land (w 136) 0x0DD5) 0x202; cs := GDT_UCODE; ss := GDT_UDATA |},
     if (Vmm.USER_BASE <=? fx) && (u64 (fx + 512) <=? Vmm.USER_TOP) && (Z.land fx 15 =? 0) then ld 512 m fx else fpu).

(** ** Room for the frame *)

Section writable.
Context {B : Type} `{!Vmm.Backing B}.
Context (smp : bool) (others : nat → @Vmm.vs B → @Vmm.vs B).
Import Vmm.

Definition USER_STACK_TOP : Z := 0x7ffffffff000.
Definition USER_STACK_MAX : Z := 8 * 1024 * 1024.

Definition page_writable (s : vs) (pd a : Z) : option (bool * vs) :=
  '(pte, s) ← vmm_pte s pd a;
  if has pte PTE_P && has pte PTE_RW then Some (true, s)
  else if has pte PTE_P then if has pte PTE_COW then vmm_cow smp s pd a else Some (false, s)
  else if has pte PTE_SWAP then if has pte PTE_RW && has pte PTE_US then vmm_fault_in smp others s pd a else Some (false, s)
  else if has pte PTE_LAZY then if has pte PTE_RW && has pte PTE_US then vmm_fault_in smp others s pd a else Some (false, s)
  else if (a <? USER_STACK_TOP - USER_STACK_MAX) || (USER_STACK_TOP <=? a) then Some (false, s)
  else '(r, s) ← vmm_alloc_range smp s pd a 4096 true; Some (negb (r <? 0), s).

Definition user_writable (s : vs) (pd lo len : Z) : option (bool * vs) :=
  if (lo <? USER_BASE) || (USER_TOP <? u64 (lo + len)) || (u64 (lo + len) <? lo) then Some (false, s)
  else
    while 52 (λ '(a, s),
      if a <? lo + len
      then '(ok, s) ← page_writable s pd a; Some (if ok : bool then inr (a + 4096, s) else inl (false, s))
      else Some (inl (true, s))) (Z.ldiff lo 4095, s).

(** Ranges that can be written are user memory. *)
Lemma user_writable_bounds s pd lo len s' :
  0 ≤ lo → 0 ≤ len < 2 ^ 64 → user_writable s pd lo len = Some (true, s') → USER_BASE ≤ lo ∧ lo + len ≤ USER_TOP.
Proof.
  intros Hlo Hlen. unfold user_writable. destruct (lo <? USER_BASE) eqn:E1; [done|]. destruct (USER_TOP <? u64 (lo + len)) eqn:E2; [done|].
  destruct (u64 (lo + len) <? lo) eqn:E3; [done|]. intros _. bools. unfold u64, USER_TOP in *. split; [done|].
  Z.div_mod_to_equations. lia.
Qed.

End writable.

(** ** Handlers, masks, the alternate stack *)

(** The answer, the process and the action that was set. *)
Definition proc_sigaction (p : proc) (sig : Z) (act : option sa_t) : option (Z * proc * option sa_t) :=
  if (sig <=? 0) || (NSIG_MAX <=? sig) then Some (- EINVAL, p, None)
  else
    o ← (sa p).[sig];
    match act with
    | None => Some (0, p, Some o)
    | Some a =>
        if (sig =? 9) || (sig =? 19) then Some (- EINVAL, p, Some o)
        else
          let fl := u32 (flags a) in
          let fl := if handler a =? 0 then Z.ldiff fl 4 else fl in
          p ← set_sa p sig (Sa (handler a) fl (restorer a) (Z.ldiff (mask a) UNBLOCKABLE));
          Some (0, if handler a <=? 1 then {| p with sig_pending := Z.ldiff (sig_pending p) (SIGBIT sig) |} else p, Some o)
    end.

(** [stack_t] as its three words; the answer, the process, what it was. *)
Definition proc_sigaltstack (p : proc) (new : option (Z * Z * Z)) (sp : Z) : Z * proc * (Z * Z * Z) :=
  let on := on_stack p sp in
  let old := (ss_sp p, if nz (ss_size p) then b2z on else 2, ss_size p) in
  match new with
  | None => (0, p, old)
  | Some (s0, s1, s2) =>
      if on then (-1, p, old)
      else if nz (Z.land s1 2) then (0, {| p with ss_sp := 0; ss_size := 0 |}, old)
      else if nz (Z.land s1 0xFFFFFFFD) then (- EINVAL, p, old)
      else if s2 <? 2048 then (-12, p, old)
      else (0, {| p with ss_sp := s0; ss_size := s2 |}, old)
  end.

(** It sleeps until [proc_signal_deliverable], then answers -EINTR. *)
Definition proc_sigsuspend (p : proc) (new : Z) : proc :=
  {| p with saved_mask := sig_mask p; sig_mask := Z.ldiff new UNBLOCKABLE; in_sigsuspend := true |}.

(** ** Memory after stores *)

Lemma st_out n m a v x : ¬ (a ≤ x < a + Z.of_nat n) → st n m a v x = m x.
Proof.
  revert a v. induction n as [|n IH]; intros a v Hx; cbn [st]; [done|]. unfold upd1.
  rewrite (proj2 (Z.eqb_neq x a)) by lia. apply IH. lia.
Qed.

Lemma ld_ext n m m' a : (∀ x, a ≤ x < a + Z.of_nat n → m' x = m x) → ld n m' a = ld n m a.
Proof.
  revert a. induction n as [|n IH]; intros a Hx; cbn [ld]; [done|]. rewrite Hx by lia. f_equal. f_equal. apply IH. intros. apply Hx. lia.
Qed.

Lemma ld_st_other n k m a v b : b + Z.of_nat k ≤ a ∨ a + Z.of_nat n ≤ b → ld k (st n m a v) b = ld k m b.
Proof. intros Hd. apply ld_ext. intros x Hx. apply st_out. lia. Qed.

Lemma ld_st_same n m a v : 0 ≤ v < 256 ^ Z.of_nat n → ld n (st n m a v) a = v.
Proof.
  revert a v. induction n as [|n IH]; intros a v Hv; cbn [ld st].
  { change (256 ^ Z.of_nat 0) with 1 in Hv. lia. }
  rewrite Nat2Z.inj_succ, Z.pow_succ_r in Hv by lia. unfold upd1 at 1. rewrite Z.eqb_refl.
  rewrite (ld_ext n (st n m (a + 1) (v / 256))).
  - rewrite IH; [pose proof (Z.div_mod v 256); lia|]. split; [apply Z.div_pos; lia|]. apply Z.div_lt_upper_bound; lia.
  - intros x Hx. unfold upd1. by rewrite (proj2 (Z.eqb_neq x a)) by lia.
Qed.

(** The last store at an offset, if no other one since touches it. *)
Fixpoint wrote (o : Z) (n : nat) (l : list (Z * nat * Z)) (acc : option Z) : option Z :=
  match l with
  | [] => acc
  | (o', n', v) :: l =>
      wrote o n l (if (o' =? o) && Nat.eqb n' n then Some v
                   else if (o + Z.of_nat n <=? o') || (o' + Z.of_nat n' <=? o) then acc else None)
  end.

Lemma stores_cons m b x l : stores m b (x :: l) = stores (let '(o, n, v) := x in st n m (b + o) v) b l.
Proof. done. Qed.

Lemma wrote_ld o n l : ∀ acc m b v,
  wrote o n l acc = Some v → 0 ≤ v < 256 ^ Z.of_nat n → (acc = Some v → ld n m (b + o) = v) → ld n (stores m b l) (b + o) = v.
Proof.
  induction l as [|[[o' n'] v'] l IH]; intros acc m b v Hw Hv Hacc; cbn [wrote] in Hw; [by apply Hacc|].
  rewrite stores_cons. eapply IH; [exact Hw|done|]. destruct (_ && _) eqn:E.
  - intros [= ->]. apply andb_true_iff in E as [->%Z.eqb_eq ->%Nat.eqb_eq]. by apply ld_st_same.
  - destruct (_ || _) eqn:E2; [|done]. intros Ha. rewrite ld_st_other; [by apply Hacc|]. bools. destruct E2; bools; lia.
Qed.

Lemma stores_out b lo hi l : ∀ m x,
  Forall (λ '(o, n, _), lo ≤ b + o ∧ b + o + Z.of_nat n ≤ hi) l → ¬ (lo ≤ x < hi) → stores m b l x = m x.
Proof.
  induction l as [|[[o n] v] l IH]; intros m x Hl Hx; [done|]. apply Forall_cons in Hl as [Ho Hl].
  rewrite stores_cons, IH by done. apply st_out. lia.
Qed.

(** ** The frame *)

Definition u64b (x : Z) : Prop := 0 ≤ x < 2 ^ 64.

Definition wf_regs (r : regs) : Prop :=
  Forall u64b [r15 r; r14 r; r13 r; r12 r; r11 r; r10 r; r9 r; r8 r; rdi r; rsi r; rbp r; rbx r; rdx r; rcx r; rax r;
               rip r; rflags r; rsp r].

Lemma ldiff_16 x : Z.ldiff x 15 = x - x mod 16.
Proof.
  change 15 with (Z.ones 4). rewrite Z.ldiff_ones_r by lia. rewrite Z.shiftr_div_pow2, Z.shiftl_mul_pow2 by lia.
  change (2 ^ 4) with 16. pose proof (Z.div_mod x 16). lia.
Qed.

(** The parts of the frame lie one behind the other, below the stack pointer. *)
Lemma place_layout p fl r :
  let pl := frame_place p fl r in
  Vmm.USER_BASE ≤ p_base pl → p_base pl + u64 (p_sp pl - p_base pl) ≤ Vmm.USER_TOP →
  p_base pl + 448 ≤ p_fx pl ∧ p_fx pl + 512 ≤ p_sp pl ≤ Vmm.USER_TOP ∧ p_fx pl mod 16 = 0 ∧ p_base pl mod 16 = 8.
Proof.
  cbv zeta. unfold frame_place. cbn [p_base p_sp p_fx].
  set (sp := if _ && _ && _ then _ else _). assert (0 ≤ sp < 2 ^ 64) as Hsp by (unfold sp; destruct (_ && _); apply u64_range).
  clearbody sp. rewrite !ldiff_16. unfold u64, Vmm.USER_BASE, Vmm.USER_TOP.
  set (a := (sp - 512) mod 2 ^ 64). set (b := a - a mod 16). set (c := (b - (8 + 304 + 128)) mod 2 ^ 64).
  intros Hb Ht. assert (512 ≤ sp) as H5.
  { destruct (decide (512 ≤ sp)) as [|Hs]; [done|exfalso]. subst a b c. Z.div_mod_to_equations. lia. }
  assert (a = sp - 512) as Ha by (apply Z.mod_small; lia). clearbody a. subst b c. Z.div_mod_to_equations. lia.
Qed.

(** All but the FPU state. *)
Definition context (p : proc) (r : regs) (sig oldmask rest : Z) (pl : place) : list (Z * nat * Z) :=
  List.tl (frame p r 0 sig oldmask rest pl).

Lemma frame_split p r fpu sig om rest pl :
  frame p r fpu sig om rest pl = (p_fx pl - p_base pl, 512%nat, fpu) :: context p r sig om rest pl.
Proof. done. Qed.

Lemma context_bounds p r sig om rest pl :
  Forall (λ '(o, n, _), 0 ≤ o ∧ o + Z.of_nat n ≤ 440) (context p r sig om rest pl).
Proof.
  unfold context, frame. cbn [List.tl app]. destruct (sig =? sq_sig p), ((sig =? 31) && sys_sig p), (sig =? fault_sig p);
    repeat constructor; done.
Qed.

(** Where the registers, the mask and the place of the FPU state are. *)
Definition saved (r : regs) (fx om : Z) : list (Z * Z) :=
  [(0, r8 r); (8, r9 r); (16, r10 r); (24, r11 r); (32, r12 r); (40, r13 r); (48, r14 r); (56, r15 r);
   (64, rdi r); (72, rsi r); (80, rbp r); (88, rbx r); (96, rdx r); (104, rax r); (112, rcx r); (120, rsp r);
   (128, rip r); (136, rflags r); (184, fx); (256, om)].

Lemma context_saved p r sig om rest pl :
  Forall (λ '(o, v), wrote (SC + o) 8 (context p r sig om rest pl) None = Some v) (saved r (p_fx pl) om).
Proof.
  unfold context, frame. cbn [List.tl app]. destruct (sig =? sq_sig p), ((sig =? 31) && sys_sig p), (sig =? fault_sig p);
    repeat constructor.
Qed.

Section frames.
Context (p : proc) (r : regs) (m m2 : mem) (fpu sig om rest : Z) (pl : place).
Hypothesis Hlow : p_base pl + 448 ≤ p_fx pl.
Hypothesis Hfx : p_fx pl + 512 ≤ p_sp pl.
Hypothesis Hsame : ∀ x, p_base pl ≤ x < p_sp pl → m2 x = stores m (p_base pl) (frame p r fpu sig om rest pl) x.

Lemma saved_ld o v : (o, v) ∈ saved r (p_fx pl) om → 0 ≤ o ≤ 256 → u64b v → ld 8 m2 (p_base pl + SC + o) = v.
Proof using All.
  intros Hin Ho Hv. rewrite <- Z.add_assoc. rewrite (ld_ext 8 (stores m (p_base pl) (frame p r fpu sig om rest pl))).
  2:{ intros x Hx. apply Hsame. unfold SC in Hx. lia. }
  rewrite frame_split, stores_cons. apply (wrote_ld _ _ _ None); [|exact Hv|done].
  pose proof (context_saved p r sig om rest pl) as Hc. rewrite Forall_forall in Hc. exact (Hc _ Hin).
Qed.

Lemma saved_fpu : 0 ≤ fpu < 256 ^ 512 → ld 512 m2 (p_fx pl) = fpu.
Proof using All.
  intros Hf. rewrite (ld_ext 512 (stores m (p_base pl) (frame p r fpu sig om rest pl))) by (intros; apply Hsame; lia).
  rewrite frame_split, stores_cons. replace (p_base pl + (p_fx pl - p_base pl)) with (p_fx pl) by lia.
  rewrite (ld_ext 512 (st 512 m (p_fx pl) fpu)); [by apply ld_st_same|]. intros x Hx.
  apply (stores_out _ (p_base pl) (p_base pl + 440)); [|lia].
  eapply Forall_impl; [apply context_bounds|]. intros [[o n] v]. cbn. lia.
Qed.

Lemma frame_inside x : ¬ (p_base pl ≤ x < p_sp pl) → stores m (p_base pl) (frame p r fpu sig om rest pl) x = m x.
Proof using Hlow Hfx.
  apply stores_out. rewrite frame_split. constructor; [lia|].
  eapply Forall_impl; [apply context_bounds|]. intros [[o n] v]. cbn. lia.
Qed.
End frames.

(** ** Delivery and return *)

Lemma first_sig_range w sig : first_sig w = Some sig → 1 ≤ sig ≤ 64.
Proof. intros [Hin _]%find_some. apply list_elem_of_In, elem_of_seqZ in Hin. lia. Qed.


Lemma set_sa_total p sig h x : (sa p).[sig] = Some h → ∃ p', set_sa p sig x = Some p'.
Proof. intros Hh. unfold set_sa. destruct (set_total _ _ _ x Hh) as [l ->]. by eexists. Qed.

Lemma again_wf r nr : wf_regs r → wf_regs (again r nr).
Proof.
  unfold wf_regs. rewrite !Forall_cons. unfold again. cbn. pose proof (u64_range nr). pose proof (u64_range (rip r - 2)).
  unfold u64b. tauto.
Qed.

Lemma wf_saved r fx om : wf_regs r → u64b fx → u64b om → Forall (λ '(o, v), 0 ≤ o ≤ 256 ∧ u64b v) (saved r fx om).
Proof. unfold wf_regs, saved. rewrite !Forall_cons. intros. split_and!; try tauto; first [lia|constructor]. Qed.

(** Membership in a list that is written out. *)
Ltac in_list := unfold saved; repeat first [apply list_elem_of_here | apply list_elem_of_further].

(** The return from a frame that is intact. *)
Lemma sigreturn_frame p0 r m fpu sig om rest pl p2 r2 m2 fpu2 :
  wf_regs r → u64b om → 0 ≤ fpu < 256 ^ 512 →
  Vmm.USER_BASE ≤ p_base pl → p_base pl + 448 ≤ p_fx pl → p_fx pl + 512 ≤ p_sp pl ≤ Vmm.USER_TOP → p_fx pl mod 16 = 0 →
  rsp r2 = p_base pl + 8 →
  (∀ x, p_base pl ≤ x < p_sp pl → m2 x = stores m (p_base pl) (frame p0 r fpu sig om rest pl) x) →
  proc_sigreturn p2 r2 m2 fpu2 =
    (0, {| p2 with sig_mask := Z.ldiff om UNBLOCKABLE |},
     {| r with vec := vec r2; err_code := err_code r2; rflags := Z.lor (Z.land (rflags r) 0x0DD5) 0x202;
               cs := GDT_UCODE; ss := GDT_UDATA |}, fpu).
Proof.
  intros Hr Hom Hfpu Hb Hlow [Hfx Htop] H16 Hsp Hsame. unfold proc_sigreturn. rewrite Hsp. unfold Vmm.USER_BASE, Vmm.USER_TOP in *.
  replace (p_base pl + 8 - 8) with (p_base pl) by lia. rewrite (u64_small (p_base pl)) by lia.
  rewrite (u64_small (p_base pl + 8 + 304 + 128)) by lia.
  rewrite (proj2 (Z.ltb_ge _ _) Hb), (proj2 (Z.ltb_ge 0x800000000000 (p_base pl + 8 + 304 + 128))) by lia. cbn [orb].
  assert (u64b (p_fx pl)) as Hf64 by (unfold u64b; lia).
  pose proof (wf_saved r (p_fx pl) om Hr Hf64 Hom) as Hw.
  assert (∀ o v, (o, v) ∈ saved r (p_fx pl) om → ld 8 m2 (p_base pl + SC + o) = v) as Hld.
  { intros o v Hin. rewrite Forall_forall in Hw. destruct (Hw _ Hin). eapply saved_ld; done. }
  rewrite (Hld 184 (p_fx pl)) by in_list.
  rewrite (proj2 (Z.leb_le _ _)) by lia. rewrite (u64_small (p_fx pl + 512)) by lia.
  rewrite (proj2 (Z.leb_le (p_fx pl + 512) _)) by lia. change 15 with (Z.ones 4). rewrite Z.land_ones by lia. change (2 ^ 4) with 16.
  rewrite H16. cbn [Z.eqb andb]. rewrite (saved_fpu p0 r m m2 fpu sig om rest pl Hlow Hfx Hsame Hfpu).
  rewrite (Hld 256 om) by in_list.
  rewrite (Hld 0 (r8 r)), (Hld 8 (r9 r)), (Hld 16 (r10 r)), (Hld 24 (r11 r)), (Hld 32 (r12 r)), (Hld 40 (r13 r)), (Hld 48 (r14 r)),
    (Hld 56 (r15 r)), (Hld 64 (rdi r)), (Hld 72 (rsi r)), (Hld 80 (rbp r)), (Hld 88 (rbx r)), (Hld 96 (rdx r)), (Hld 104 (rax r)),
    (Hld 112 (rcx r)), (Hld 120 (rsp r)), (Hld 128 (rip r)), (Hld 136 (rflags r)) by in_list.
  done.
Qed.

Section delivery.
Context (pt_stop : proc → regs → Z → Z → Z → bool * proc * regs) (writable : Z → Z → bool).
Context (proc_send_signal : proc → Z → option proc).
Hypothesis writable_user : ∀ lo len, 0 ≤ lo → 0 ≤ len < 2 ^ 64 → writable lo len = true →
  Vmm.USER_BASE ≤ lo ∧ lo + len ≤ Vmm.USER_TOP.

(** Nobody traces the process, it is not stopped, and it returns to ring 3. *)
Definition plain (p : proc) (r : regs) : Prop :=
  state p = true ∧ Z.land (cs r) 3 = 3 ∧ pt_state p = 0 ∧ pt_isr_stop p = false ∧ pt_intr p = false ∧ tracer p = 0.

(** The registers the handler returns to. *)
Definition resumed (r : regs) (h : sa_t) (nr ret : Z) : regs :=
  if restarts nr ret && nz (Z.land (flags h) SA_RESTART) then again r nr else r.

(** C21: a signal with a handler is delivered in a frame that lies below the red zone
    or on the alternate stack and changes no other byte of memory, with the stack
    aligned as a call would leave it.  When the handler returns with the frame
    intact, [rt_sigreturn] restores every register (of the flags, those a process may
    set), the FPU state and the signal mask as they were, the system call that was
    interrupted being run again if the handler asked for it. *)
Theorem sigreturn_restores p r m fpu nr ret sig h :
  wf_regs r → u64b (sig_mask p) → u64b (saved_mask p) → 0 ≤ fpu < 256 ^ 512 → plain p r →
  first_sig (ready p) = Some sig → (sa p).[sig] = Some h → 1 < handler h →
  let r0 := resumed r h nr ret in
  let pl := frame_place p (flags h) r0 in
  let om := if in_sigsuspend p then saved_mask p else sig_mask p in
  writable (p_base pl) (u64 (p_sp pl - p_base pl)) = true →
  ∃ p' r' m', proc_deliver_signal pt_stop writable proc_send_signal p r m fpu nr ret = Some (Goes p' r' m') ∧
    rip r' = handler h ∧ rdi r' = sig ∧ rsp r' = p_base pl ∧ rsp r' mod 16 = 8 ∧
    (∀ x, ¬ (p_base pl ≤ x < p_sp pl) → m' x = m x) ∧
    ∀ p2 r2 m2 fpu2, rsp r2 = rsp r' + 8 → (∀ x, rsp r' ≤ x < p_sp pl → m2 x = m' x) →
      proc_sigreturn p2 r2 m2 fpu2 =
        (0, {| p2 with sig_mask := Z.ldiff om UNBLOCKABLE |},
         {| r0 with vec := vec r2; err_code := err_code r2; rflags := Z.lor (Z.land (rflags r0) 0x0DD5) 0x202;
                    cs := GDT_UCODE; ss := GDT_UDATA |}, fpu).
Proof using writable_user.
  intros Hr Hm1 Hm2 Hfpu (P1 & P2 & P3 & P4 & P5 & P6) Hsig Hh Hhd r0 pl om Hw.
  assert (0 ≤ p_base pl) as Hb0 by apply u64_range.
  destruct (writable_user _ _ Hb0 (u64_range _) Hw) as [Hb Ht].
  destruct (place_layout p (flags h) r0 Hb Ht) as (L1 & L2 & L3 & L4). fold pl in L1, L2, L3, L4.
  assert (wf_regs r0) as Hr0 by (unfold r0, resumed; destruct (_ && _); [by apply again_wf|done]).
  assert (u64b om) as Hom by (unfold om; by destruct (in_sigsuspend p)).
  unfold proc_deliver_signal. rewrite P1, P2, P3, P4, P5. cbn [negb orb andb Z.eqb]. unfold next_signal. rewrite Hsig. cbn [tracer].
  rewrite P6. cbn [nz Z.eqb negb]. unfold deliver. cbn [sa]. rewrite Hh. cbn [mbind option_bind].
  rewrite (proj2 (Z.eqb_neq _ 1)), (proj2 (Z.eqb_neq _ 0)) by lia. cbv zeta. fold (resumed r h nr ret). fold r0.
  change (frame_place _ (flags h) r0) with pl. rewrite Hw. cbn [negb].
  match goal with |- context [if nz (Z.land (flags h) SA_RESETHAND) then set_sa ?q ?g ?x else _] =>
    assert (∃ q', (if nz (Z.land (flags h) SA_RESETHAND) then set_sa q g x else Some q) = Some q') as [q' ->] end.
  { destruct (nz _); [eapply set_sa_total; exact Hh|eexists; reflexivity]. }
  cbn [mbind option_bind]. eexists _, _, _. split; [reflexivity|]. cbn [rip rdi rsp].
  split; [done|]. split; [by apply u64_small; apply first_sig_range in Hsig; lia|]. split; [done|]. split; [done|].
  split; [intros x Hx; apply frame_inside; [done|lia|done]|]. intros p2 r2 m2 fpu2 E2 Hsame.
  eapply (sigreturn_frame _ r0 m fpu sig om); done.
Qed.

End delivery.

(** ** SIGKILL and SIGSTOP *)

(** No bit of the two signals that cannot be blocked. *)
Definition clear_of (w : Z) : Prop := Z.land w UNBLOCKABLE = 0.

Record kill_ok (p : proc) : Prop := {
  k_mask : clear_of (sig_mask p);
  k_saved : clear_of (saved_mask p);
  k_sa : ∀ sig h, (sa p).[sig] = Some h → clear_of (mask h);
  k_dfl : ∀ sig h, sig = 9 ∨ sig = 19 → (sa p).[sig] = Some h → handler h = 0
}.

Lemma clear_lor a b : clear_of a → clear_of b → clear_of (Z.lor a b).
Proof. unfold clear_of. rewrite Z.land_lor_distr_l. by intros -> ->. Qed.

Lemma clear_ldiff a : clear_of (Z.ldiff a UNBLOCKABLE).
Proof.
  unfold clear_of. apply Z.bits_inj'. intros k Hk. rewrite Z.land_spec, Z.ldiff_spec, Z.bits_0.
  by destruct (Z.testbit UNBLOCKABLE k); rewrite ?andb_false_r.
Qed.

Lemma clear_ldiff_l a b : clear_of a → clear_of (Z.ldiff a b).
Proof.
  unfold clear_of. intros H. apply Z.bits_inj'. intros k Hk. rewrite Z.land_spec, Z.ldiff_spec, Z.bits_0.
  pose proof (f_equal (λ z, Z.testbit z k) H) as Hb. cbn beta in Hb. rewrite Z.land_spec, Z.bits_0 in Hb.
  destruct (Z.testbit UNBLOCKABLE k); [|by rewrite andb_false_r]. rewrite andb_true_r in *. by rewrite Hb.
Qed.

Lemma clear_bit sig : 1 ≤ sig → sig ≠ 9 → sig ≠ 19 → clear_of (SIGBIT sig).
Proof.
  intros H1 H9 H19. unfold clear_of, UNBLOCKABLE, SIGBIT. rewrite !Z.shiftl_1_l. apply Z.bits_inj'. intros k Hk.
  rewrite Z.land_spec, Z.lor_spec, Z.bits_0, !Z.pow2_bits_eqb by lia.
  destruct (sig - 1 =? k) eqn:E; bools; [|done]. rewrite (proj2 (Z.eqb_neq (9 - 1) k)), (proj2 (Z.eqb_neq (19 - 1) k)) by lia. done.
Qed.

(** An action changed at a signal that can be caught. *)
Lemma set_sa_kill p sig x p' :
  kill_ok p → set_sa p sig x = Some p' → clear_of (mask x) → (sig = 9 ∨ sig = 19 → handler x = 0) → kill_ok p'.
Proof.
  intros [K1 K2 K3 K4] E Hm Hh. unfold set_sa in E. inv_some. split; cbn; [done|done| |].
  - intros g h. rewrite (arr_get_set _ _ _ _ g E0). case_decide; [by intros [= <-]|by apply K3].
  - intros g h Hg. rewrite (arr_get_set _ _ _ _ g E0). case_decide; [|by apply K4]. intros [= <-]. apply Hh. by subst.
Qed.

Lemma kill_ok_ext p p' : sa p' = sa p → clear_of (sig_mask p') → saved_mask p' = saved_mask p → kill_ok p → kill_ok p'.
Proof. intros E1 E2 E3 []. split; rewrite ?E1, ?E3; done. Qed.

Section kill.
Context (pt_stop : proc → regs → Z → Z → Z → bool * proc * regs) (writable : Z → Z → bool).
Context (proc_send_signal : proc → Z → option proc).
(** ptrace.c and proc.c set no masks and no handlers. *)
Hypothesis pt_stop_kill : ∀ p r a b c, kill_ok p → kill_ok (pt_stop p r a b c).1.2.
Hypothesis send_kill : ∀ p g p', kill_ok p → proc_send_signal p g = Some p' → kill_ok p'.

Definition out_ok (o : outcome) : Prop := match o with Goes p _ _ => kill_ok p | Exits _ => True end.

Lemma deliver_kill p r m fpu nr ret sig o :
  kill_ok p → sig ≠ 0 → deliver pt_stop writable proc_send_signal p r m fpu nr ret sig = Some o → out_ok o.
Proof using pt_stop_kill send_kill.
  intros K H0 E. unfold deliver in E. destruct ((sa p).[sig]) as [h|] eqn:Eh; [|done].
  pose proof (arr_get_range _ _ _ Eh) as Hrg. cbn [mbind option_bind] in E.
  destruct (handler h =? 1) eqn:Eh1; [by injection E as <-|]. destruct (handler h =? 0) eqn:Eh0.
  { destruct (sig =? 19); [|by destruct (_ || _); injection E as <-]. destruct (negb _); [|by injection E as <-].
    pose proof (pt_stop_kill p r 19 0 3 K) as Hk. destruct (pt_stop p r 19 0 3) as [[? q] r']. by injection E as <-. }
  bools. cbv zeta in E. assert (kill_ok (no_suspend p)) as K0 by (by destruct K).
  destruct (negb (writable _ _)).
  { injection E as <-. destruct (proc_send_signal _ 11) as [q|] eqn:Eq; [|done]. by eapply send_kill. }
  assert (sig ≠ 9 ∧ sig ≠ 19) as [N9 N19] by (split; intros ->; apply Eh0; (eapply (k_dfl _ K); [|exact Eh]; auto)).
  assert (kill_ok (handled (no_suspend p) sig h)) as Kq.
  { eapply (kill_ok_ext p); [done| |done|done]. destruct K as [K1 _ K3 _]. unfold handled. cbn [sig_mask].
    apply clear_lor; [|by eapply K3]. destruct (nz (Z.land (flags h) SA_NODEFER)); [exact K1|]. apply clear_lor; [exact K1|]. apply clear_bit; [lia|done|done]. }
  destruct (if nz (Z.land (flags h) SA_RESETHAND) then _ else _) as [q'|] eqn:Es; [|done].
  cbn [mbind option_bind] in E. apply (inj Some) in E. rewrite <- E. clear E. cbn [out_ok].
  destruct (nz (Z.land (flags h) SA_RESETHAND)); [|apply (inj Some) in Es; rewrite <- Es; exact Kq].
  eapply set_sa_kill; [exact Kq|exact Es| |done]. exact (k_sa _ K sig h Eh).
Qed.

Lemma kill_pending p w : kill_ok p → kill_ok {| p with sig_pending := w |}.
Proof. by intros []. Qed.

Lemma next_kill p r m fpu nr ret o :
  kill_ok p → next_signal pt_stop writable proc_send_signal p r m fpu nr ret = Some o → out_ok o.
Proof using pt_stop_kill send_kill.
  intros K E. unfold next_signal in E. destruct (first_sig (ready p)) as [sig|] eqn:Es; [|by injection E as <-].
  apply first_sig_range in Es. cbv zeta in E. destruct (nz (tracer _)); [|eapply deliver_kill; [|..|exact E]; [by apply kill_pending|lia]].
  match type of E with (let '(_, _) := pt_stop ?q _ _ _ _ in _) = _ =>
    assert (kill_ok q) as Kq by (by destruct K); pose proof (pt_stop_kill q r sig 0 1 Kq) as Hk;
    destruct (pt_stop q r sig 0 1) as [[ok q'] r'] end. cbn [fst snd] in Hk.
  destruct (negb ok); [by injection E as <-|]. destruct (negb (nz (pt_inj q'))) eqn:En; [by injection E as <-|].
  eapply deliver_kill; [exact Hk| |exact E]. by apply negb_false_iff, nz_true in En.
Qed.

Lemma proc_deliver_kill p r m fpu nr ret o :
  kill_ok p → proc_deliver_signal pt_stop writable proc_send_signal p r m fpu nr ret = Some o → out_ok o.
Proof using pt_stop_kill send_kill.
  intros K E. unfold proc_deliver_signal in E. destruct (_ || _); [by injection E as <-|]. destruct (pt_state p =? 1); [by injection E as <-|].
  destruct (_ && _).
  - cbv zeta in E. assert (kill_ok {| p with pt_isr_stop := false; pt_state := 0 |}) as Kq by (by destruct K).
    cbn [pt_kind pt_inj] in E. destruct (negb (pt_kind p =? 1)); [by injection E as <-|].
    destruct (negb (nz (pt_inj p))) eqn:En; [by injection E as <-|]. eapply deliver_kill; [exact Kq| |exact E]. by apply negb_false_iff, nz_true in En.
  - destruct (pt_intr p); [|by eapply next_kill].
    match type of E with (let '(_, _) := pt_stop ?q _ _ _ _ in _) = _ =>
      assert (kill_ok q) as Kq by (by destruct K); pose proof (pt_stop_kill q r 5 128 2 Kq) as Hk;
      destruct (pt_stop q r 5 128 2) as [[ok q'] r'] end. cbn [fst snd] in Hk.
    destruct (negb ok); [by injection E as <-|]. by eapply next_kill.
Qed.

Lemma fault_kill p r m fpu sig trap e ad b o :
  kill_ok p → proc_fault_signal pt_stop writable proc_send_signal p r m fpu sig trap e ad = Some (b, o) → out_ok o.
Proof using pt_stop_kill send_kill.
  intros K E. unfold proc_fault_signal in E. destruct (negb (state p)); [by injection E as _ <-|]. cbv zeta in E.
  destruct (nz (tracer p)).
  - match type of E with (proc_deliver_signal _ _ _ ?q _ _ _ _ _) ≫= _ = _ =>
      assert (kill_ok q) as Kq by (destruct K; split; try done; cbn; by apply clear_ldiff_l);
      destruct (proc_deliver_signal pt_stop writable proc_send_signal q r m fpu (-1) 0) as [o'|] eqn:Eo; [|done] end.
    cbn [mbind option_bind] in E. injection E as _ <-. pose proof (proc_deliver_kill _ _ _ _ _ _ _ Kq Eo) as Ho.
    destruct o' as [q' r' m'|]; [|done]. by destruct Ho.
  - destruct ((sa p).[sig]) as [h|]; [|done]. cbn [mbind option_bind] in E. destruct (_ || _); [by injection E as _ <-|].
    match type of E with (proc_deliver_signal _ _ _ ?q _ _ _ _ _) ≫= _ = _ =>
      assert (kill_ok q) as Kq by (by destruct K);
      destruct (proc_deliver_signal pt_stop writable proc_send_signal q r m fpu (-1) 0) as [o'|] eqn:Eo; [|done] end.
    cbn [mbind option_bind] in E. pose proof (proc_deliver_kill _ _ _ _ _ _ _ Kq Eo) as Ho.
    destruct o' as [q' r' m'|]; [|by injection E as _ <-]. cbn [out_ok] in Ho.
    destruct ((sa q').[sig]) as [h'|]; [|done]. cbn [mbind option_bind] in E. injection E as _ <-. cbn [out_ok].
    destruct Ho. by destruct (_ && _).
Qed.

(** What a process or the kernel does to its signals. *)
Inductive sig_step : proc → proc → Prop :=
  | s_deliver p r m fpu nr ret p' r' m' :
      proc_deliver_signal pt_stop writable proc_send_signal p r m fpu nr ret = Some (Goes p' r' m') → sig_step p p'
  | s_fault p r m fpu sig trap e ad b p' r' m' :
      proc_fault_signal pt_stop writable proc_send_signal p r m fpu sig trap e ad = Some (b, Goes p' r' m') → sig_step p p'
  | s_return p r m fpu : sig_step p (proc_sigreturn p r m fpu).1.1.2
  | s_action p sig a x p' o : proc_sigaction p sig a = Some (x, p', o) → sig_step p p'
  | s_altstack p new sp : sig_step p (proc_sigaltstack p new sp).1.2
  | s_suspend p new : sig_step p (proc_sigsuspend p new).

Lemma sig_step_kill p p' : sig_step p p' → kill_ok p → kill_ok p'.
Proof using pt_stop_kill send_kill.
  intros [] K.
  - by apply (proc_deliver_kill _ _ _ _ _ _ _ K H).
  - by apply (fault_kill _ _ _ _ _ _ _ _ _ _ K H).
  - unfold proc_sigreturn. destruct (_ || _); [done|]. destruct K. split; try done. apply clear_ldiff.
  - unfold proc_sigaction in H. destruct (_ || _); [by injection H as _ <- _|]. destruct ((sa p0).[sig]); [|done]. cbn [mbind option_bind] in H.
    destruct a as [a|]; [|by injection H as _ <- _]. destruct ((sig =? 9) || (sig =? 19)) eqn:E9; [by injection H as _ <- _|].
    bools. destruct (set_sa _ _ _) as [q|] eqn:Es; [|done]. cbn [mbind option_bind] in H. injection H as _ <- _.
    assert (kill_ok q) as Kq by (eapply set_sa_kill; [exact K|exact Es|apply clear_ldiff|intros [?|?]; lia]).
    destruct (handler a <=? 1); [by apply kill_pending|done].
  - unfold proc_sigaltstack. destruct new as [[[s0 s1] s2]|]; [|done]. destruct (on_stack _ _); [done|].
    destruct (nz _); [by destruct K|]. destruct (nz _); [done|]. destruct (s2 <? 2048); [done|]. by destruct K.
  - destruct K. split; try done. apply clear_ldiff.
Qed.

(** C22: whatever a process does with handlers, masks, frames and stops, SIGKILL and
    SIGSTOP stay unblocked and without handler, and each of them is deliverable as
    soon as it is pending. *)
Theorem kill_not_blocked p p' sig :
  kill_ok p → rtc sig_step p p' → sig = 9 ∨ sig = 19 →
  kill_ok p' ∧ (∀ h, (sa p').[sig] = Some h → handler h = 0) ∧
  (Z.testbit (sig_pending p') (sig - 1) = true → proc_signal_deliverable p' = true).
Proof using pt_stop_kill send_kill.
  intros K Hs Hsig. assert (kill_ok p') as K' by (induction Hs; [done|]; by eauto using sig_step_kill).
  split; [done|]. split; [intros h; by eapply (k_dfl _ K')|]. intros Hp. unfold proc_signal_deliverable.
  assert (nz (ready p') = true) as ->; [|by rewrite orb_true_r]. apply nz_true. intros Hz.
  pose proof (f_equal (λ z, Z.testbit z (sig - 1)) Hz) as Hb. cbn beta in Hb. unfold ready in Hb.
  rewrite !Z.ldiff_spec, Z.bits_0, Hp in Hb. destruct Hsig as [-> | ->]; change (Z.testbit UNBLOCKABLE _) with true in Hb;
    by rewrite andb_false_r in Hb.
Qed.

End kill.

(** ** Examples *)

Definition no_stop (p : proc) (r : regs) (_ _ _ : Z) : bool * proc * regs := (true, p, r).
Definition user_range (lo len : Z) : bool := (Vmm.USER_BASE <=? lo) && (lo + len <=? Vmm.USER_TOP).
Definition sent (p : proc) (_ : Z) : option proc := Some p.

(** Signal 10 has a handler and is pending. *)
Definition sa10 : sa_t := Sa 0x401000 (Z.lor SA_RESTORER SA_RESTART) 0x402000 0.
Definition proc10 : proc :=
  Proc true (<[10%nat := sa10]> (replicate 65 (Sa 0 0 0 0))) 0 (SIGBIT 10) 0 false 0 0 0 0 0 0 false 0 0 0 0 0 0 0 0
    0 0 0 0 false false [] false 0.
(** A read, interrupted. *)
Definition regs10 : regs := Regs 15 14 13 12 11 10 9 8 3 4 5 6 7 2 0 0 0 0x400100 GDT_UCODE 0x246 0x7ffffffde000 GDT_UDATA.

Lemma user_range_ok lo len : 0 ≤ lo → 0 ≤ len < 2 ^ 64 → user_range lo len = true → Vmm.USER_BASE ≤ lo ∧ lo + len ≤ Vmm.USER_TOP.
Proof. unfold user_range. intros _ _ H. bools. lia. Qed.

Lemma wf_regs10 : wf_regs regs10.
Proof. unfold wf_regs, u64b. repeat constructor; cbn; lia. Qed.

Lemma sigreturn_restores_witness : ∃ p' r' m',
  proc_deliver_signal no_stop user_range sent proc10 regs10 (λ _, 0) 7 0 (-4) = Some (Goes p' r' m') ∧
  rip r' = 0x401000 ∧ rdi r' = 10 ∧
  let '(x, q, r, f) := proc_sigreturn p' {| r' with rsp := rsp r' + 8 |} m' 0 in
  x = 0 ∧ sig_mask q = 0 ∧ rip r = 0x4000fe ∧ rsp r = rsp regs10 ∧ rbx r = rbx regs10 ∧ rflags r = 0x246 ∧ f = 7.
Proof.
  destruct (sigreturn_restores no_stop user_range sent user_range_ok proc10 regs10 (λ _, 0) 7 0 (-4) 10 sa10 wf_regs10)
    as (p' & r' & m' & E & H1 & H2 & _ & _ & _ & H3); try (unfold u64b; cbn; lia); [repeat split|reflexivity..|].
  exists p', r', m'. split; [exact E|]. split; [exact H1|]. split; [exact H2|].
  rewrite (H3 p' {| r' with rsp := rsp r' + 8 |} m' 0 eq_refl (λ _ _, eq_refl)).
  repeat split.
Defined.

Lemma proc10_ok : kill_ok proc10.
Proof.
  assert (∀ g h, (sa proc10).[g] = Some h → h = sa10 ∨ h = Sa 0 0 0 0) as Hsa.
  { assert (Forall (λ h, h = sa10 ∨ h = Sa 0 0 0 0) (sa proc10)) as Hf by (apply Forall_insert; [apply Forall_replicate; by right|by left]).
    intros g h Hg%arr_get_elem. rewrite Forall_forall in Hf. by apply Hf. }
  split; [done|done| |].
  - intros g h Hg. by destruct (Hsa g h Hg) as [-> | ->].
  - intros g h [-> | ->] Hg; [change (Some (Sa 0 0 0 0) = Some h) in Hg|change (Some (Sa 0 0 0 0) = Some h) in Hg]; by injection Hg as <-.
Qed.

Lemma kill_not_blocked_witness : ∃ p',
  proc_sigaction proc10 9 (Some sa10) = Some (-22, p', Some (Sa 0 0 0 0)) ∧
  kill_ok (proc_sigsuspend p' (2 ^ 64 - 1)) ∧ clear_of (sig_mask (proc_sigsuspend p' (2 ^ 64 - 1))).
Proof.
  exists proc10. split; [reflexivity|].
  destruct (kill_not_blocked no_stop user_range sent (λ p r _ _ _ K, K) (λ p g p' K E, eq_ind p kill_ok K p' (inj Some _ _ E))
    proc10 (proc_sigsuspend proc10 (2 ^ 64 - 1)) 9 proc10_ok) as (K & _).
  - eapply rtc_l; [exact (s_action _ _ _ proc10 9 (Some sa10) (-22) proc10 (Some (Sa 0 0 0 0)) eq_refl)|].
    eapply rtc_l; [apply s_suspend|apply rtc_refl].
  - by left.
  - split; [exact K|apply (k_mask _ K)].
Defined.

End Signal.
