(* ===== verification/Timer.v ===== *)
(** * Alarms and timers (src/src/proc/timer.c)

    POSIX timers, interval timers and alarms of the process table, the tick that
    fires them and the hint that lets most ticks return at once; with
    [proc_check_alarm] of signal.c and [send_sig] of proc.c, which they use.
    Deadlines are 32-bit uptime milliseconds that wrap around. *)

From S2P Require Import Prelude Refs Swap Pmm Vmm Signal.

Module Timer.
Import Signal.

Definition ESRCH : Z := 3.
Definition EAGAIN : Z := 11.

Record ptimer := Pt {
  used : bool; armed : bool; clk : Z; signo : Z; notify : Z; tid : Z; val : Z; at_ : Z; iv : Z; over : Z
}.

Inductive pstate_t := P_FREE | P_ALIVE | P_ZOMBIE.

(** A process table entry; [t_sh] is the index of what its threads share. *)
Record tproc := Tp {
  t_state : pstate_t; t_pid : Z; t_tgid : Z; t_thread : bool; t_zleader : bool; t_sh : Z;
  t_mask : Z; t_pending : Z; t_tracer : Z;
  alarm_at : Z; alarm_interval : Z; itv_at : Z; itv_iv : Z; itp_at : Z; itp_iv : Z;
  q_sig : Z; q_tid : Z; q_over : Z; q_val : Z
}.

Record tsh := Ts { hs : list Z; tm : list ptimer }.

(** [woken] are the processes whose tasks were made ready, [dead] those that a
    signal ended, with the status. *)
Record state_t := St {
  procs : list tproc; shs : list tsh; tm_next : Z; tm_any : bool; woken : list Z; dead : list (Z * Z)
}.

Definition alive (p : tproc) : bool := match t_state p with P_ALIVE => true | _ => false end.
Definition taken (p : tproc) : bool := match t_state p with P_FREE => false | _ => true end.

Definition with_proc (s : state_t) (i : Z) (p : tproc) : option state_t :=
  l ← (procs s).[i <- p]; Some {| s with procs := l |}.

Definition ready_task_of (s : state_t) (i : Z) : state_t := {| s with woken := woken s ++ [i] |}.

Definition set_pending (s : state_t) (i sig : Z) : option state_t :=
  p ← (procs s).[i];
  s ← with_proc s i {| p with t_pending := Z.lor (t_pending p) (SIGBIT sig) |};
  Some (ready_task_of s i).

(** ** Sending *)

Definition blocks (q : tproc) (sig : Z) : bool := nz (Z.land (t_mask q) (SIGBIT sig)).

Definition pick_thread (s : state_t) (l : Z) (sig : Z) : option Z :=
  p ← (procs s).[l];
  let mine q := alive q && (t_sh q =? t_sh p) && negb (t_zleader q) in
  Some (match find_from 0 (λ q, mine q && negb (blocks q sig)) (procs s) with
        | Some i => i
        | None => default l (find_from 0 mine (procs s))
        end).

Definition sig_default_ignored (sig : Z) : bool :=
  (sig =? 17) || (sig =? 18) || (sig =? 23) || (sig =? 28) || (sig =? 19) || (sig =? 20) || (sig =? 21) || (sig =? 22).

(** SIGCONT wakes stopped processes and pokes init: ptrace.c. *)
Definition send_sig (cont : Z → state_t → state_t) (s : state_t) (i sig : Z) (exact : bool) : option (Z * state_t) :=
  p ← (procs s).[i];
  if negb (alive p) then Some (- ESRCH, s)
  else if sig =? 0 then Some (0, s)
  else if (sig <? 0) || (NSIG_MAX <=? sig) then Some (- EINVAL, s)
  else
    let s := if sig =? 18 then cont i s else s in
    let kill := Some (0, {| s with dead := dead s ++ [(i, Z.land sig 0x7F)] |}) in
    if negb (sig =? 9)
    then
      sh ← (shs s).[t_sh p];
      h ← (hs sh).[sig];
      d ← (if t_thread p || exact then Some i else pick_thread s i sig);
      q ← (procs s).[d];
      if nz (t_tracer q) || ((sig =? 19) && (h =? 0))
      then
        if (sig =? 19) && negb (nz (t_tracer q))
        then
          s ← each (λ k s, q ← (procs s).[k];
                 if alive q && (t_tgid q =? t_tgid p) && negb (t_zleader q) then set_pending s k 19 else Some s)
               (upto (Z.of_nat (length (procs s)))) s;
          Some (0, s)
        else s ← set_pending s d sig; Some (0, s)
      else if h =? 1 then Some (0, s)
      else if (1 <? h) || blocks q sig then s ← set_pending s d sig; Some (0, s)
      else if sig_default_ignored sig then Some (0, s)
      else kill
    else kill.

(** Queue a signal from the tick: nothing dies here. *)
Definition raise_sig (s : state_t) (i sig : Z) (exact : bool) : option state_t :=
  p ← (procs s).[i];
  if negb (alive p) || (sig <=? 0) || (NSIG_MAX <=? sig) then Some s
  else
    sh ← (shs s).[t_sh p];
    h ← (hs sh).[sig];
    if (h =? 1) && negb (nz (t_tracer p)) then Some s
    else
      let i := if negb exact && blocks p sig
               then default i (find_from 0 (λ q, alive q && (t_sh q =? t_sh p) && negb (t_zleader q) && negb (blocks q sig)) (procs s))
               else i in
      set_pending s i sig.

(** ** Times *)

(** A timespec in milliseconds, rounded up; only 0 is 0. *)
Definition ts_ms (sec nsec : Z) : Z :=
  if (sec =? 0) && (nsec =? 0) then 0
  else
    let ms := u64 (u64 sec * 1000 + Z.quot (nsec + 999999) 1000000) in
    if nz ms then if 0x7fffffff <? ms then 0x7fffffff else ms else 1.

Definition ms_ts (ms : Z) : Z * Z := (ms / 1000, (ms mod 1000) * 1000000).

Definition proc_timer_hint (s : state_t) (at' : Z) : state_t :=
  if negb (tm_any s) || (i32 (at' - tm_next s) <? 0) then {| s with tm_next := at'; tm_any := true |} else s.

(** ** Firing *)

Definition fire (s : state_t) (l : Z) (t : ptimer) (id : Z) : option state_t :=
  if notify t =? 1 then Some s
  else
    p ← (procs s).[l];
    let tg := if notify t =? 4
              then i ← find_from 0 (λ q, taken q && (t_pid q =? tid t)) (procs s);
                   q ← (procs s).[i]; if t_sh q =? t_sh p then Some i else None
              else Some l in
    match tg with
    | None => Some s
    | Some i =>
        q ← (procs s).[i];
        s ← with_proc s i {| q with q_sig := signo t; q_tid := id; q_val := val t; q_over := over t |};
        raise_sig s i (signo t) (notify t =? 4)
    end.

Definition proc_check_alarm (cont : Z → state_t → state_t) (s : state_t) (i now : Z) (from_irq : bool) : option state_t :=
  p ← (procs s).[i];
  if (alarm_at p =? 0) || (i32 (now - alarm_at p) <? 0) then Some s
  else
    sh ← (shs s).[t_sh p];
    h ← (hs sh).[14];
    if from_irq && (h <=? 1) then Some s
    else
      let a := if nz (alarm_interval p) then u32 (now + alarm_interval p) else 0 in
      s ← with_proc s i {| p with alarm_at := a |};
      let s := if nz a then proc_timer_hint s a else s in
      '(_, s) ← send_sig cont s i 14 false;
      Some s.

(** A timer that is due: the next deadline, and how many were missed. *)
Definition due (now : Z) (t : ptimer) : bool := used t && armed t && negb (i32 (now - at_ t) <? 0).

Definition rearm (now : Z) (t : ptimer) : ptimer :=
  if nz (iv t)
  then let o := i32 (u32 (now - at_ t) / iv t) in {| t with over := o; at_ := u32 (at_ t + iv t * (o + 1)) |}
  else {| t with over := 0; armed := false |}.

Definition with_timer (s : state_t) (j k : Z) (t : ptimer) : option state_t :=
  sh ← (shs s).[j]; l ← (tm sh).[k <- t]; m ← (shs s).[j <- {| sh with tm := l |}]; Some {| s with shs := m |}.

Definition tick_timer (now i j k : Z) (s : state_t) : option state_t :=
  sh ← (shs s).[j];
  t ← (tm sh).[k];
  if due now t
  then let t := rearm now t in s ← with_timer s j k t; fire s i t k
  else Some s.

Definition tick_proc (cont : Z → state_t → state_t) (now i : Z) (s : state_t) : option state_t :=
  p ← (procs s).[i];
  if negb (alive p) then Some s
  else
    s ← (if nz (alarm_at p) && negb (i32 (now - alarm_at p) <? 0) then proc_check_alarm cont s i now true else Some s);
    if t_thread p then Some s else each (tick_timer now i (t_sh p)) (upto 16) s.

(** The deadlines of one process go into the hint. *)
Definition hint_proc (i : Z) (s : state_t) : option state_t :=
  p ← (procs s).[i];
  if negb (alive p) then Some s
  else
    let s := if nz (alarm_at p) then proc_timer_hint s (alarm_at p) else s in
    if t_thread p then Some s
    else
      sh ← (shs s).[t_sh p];
      each (λ k s, t ← (tm sh).[k]; Some (if used t && armed t then proc_timer_hint s (at_ t) else s)) (upto 16) s.

Definition proc_timers_tick (cont : Z → state_t → state_t) (s : state_t) (now : Z) : option state_t :=
  if negb (tm_any s) || (i32 (now - tm_next s) <? 0) then Some s
  else
    let ks := upto (Z.of_nat (length (procs s))) in
    s ← each (tick_proc cont now) ks {| s with tm_any := false |};
    each hint_proc ks s.

(** Milliseconds until the first deadline. *)
Definition sooner (now best x : Z) : Z := if i32 (x - now) <? best then i32 (x - now) else best.

Definition next_proc (s : state_t) (now : Z) (i best : Z) : option Z :=
  p ← (procs s).[i];
  if negb (alive p) then Some best
  else
    let best := if nz (alarm_at p) then sooner now best (alarm_at p) else best in
    if t_thread p then Some best
    else
      sh ← (shs s).[t_sh p];
      each (λ k best, t ← (tm sh).[k]; Some (if used t && armed t then sooner now best (at_ t) else best)) (upto 16) best.

Definition proc_next_timer (s : state_t) (now : Z) : option Z :=
  best ← each (next_proc s now) (upto (Z.of_nat (length (procs s)))) 0x7fffffff;
  Some (if best <? 0 then 0 else best).

(** Processor time timers, every tick for the process that runs. *)
Definition proc_cpu_timers (s : state_t) (i : Z) (user : bool) : option state_t :=
  p ← (procs s).[i];
  s ← (if user && nz (itv_at p)
       then
         let left := u32 (itv_at p - 1) in
         s ← with_proc s i {| p with itv_at := if left =? 0 then itv_iv p else left |};
         if left =? 0 then raise_sig s i 26 true else Some s
       else Some s);
  p ← (procs s).[i];
  if nz (itp_at p)
  then
    let left := u32 (itp_at p - 1) in
    s ← with_proc s i {| p with itp_at := if left =? 0 then itp_iv p else left |};
    if left =? 0 then raise_sig s i 27 true else Some s
  else Some s.

(** ** The system calls *)

(** [it_interval] and [it_value] as timevals. *)
Definition tv4 (interval left : Z) : Z * Z * Z * Z :=
  let '(a, b) := ms_ts interval in let '(c, d) := ms_ts left in (a, b / 1000, c, d / 1000).

(** The deadline and the interval of an interval timer. *)
Definition it_get (p : tproc) (which : Z) : Z * Z :=
  if which =? 0 then (alarm_at p, alarm_interval p) else if which =? 1 then (itv_at p, itv_iv p) else (itp_at p, itp_iv p).

Definition it_set (p : tproc) (which a i : Z) : tproc :=
  if which =? 0 then {| p with alarm_at := a; alarm_interval := i |}
  else if which =? 1 then {| p with itv_at := a; itv_iv := i |} else {| p with itp_at := a; itp_iv := i |}.

(** The answer, what it was, and the state; [nv] are the four words of the new value. *)
Definition itimer (s : state_t) (me now which : Z) (nv : option (Z * Z * Z * Z)) : option (Z * (Z * Z * Z * Z) * state_t) :=
  p ← (procs s).[me];
  if negb ((0 <=? which) && (which <=? 2)) then Some (- EINVAL, (0, 0, 0, 0), s)
  else
    let '(a, i) := it_get p which in
    let left := if nz a then if nz which then a else u32 (a - now) else 0 in
    let left := if (which =? 0) && nz a && (i32 left <=? 0) then 1 else left in
    let old := tv4 i left in
    match nv with
    | None => Some (0, old, s)
    | Some (n0, n1, n2, n3) =>
        let i := ts_ms n0 (i64 (n1 * 1000)) in
        let v := ts_ms n2 (i64 (n3 * 1000)) in
        let a := if nz v then if nz which then v else u32 (now + v) else 0 in
        s ← with_proc s me (it_set p which a (if nz v then i else 0));
        Some (0, old, if nz v && (which =? 0) then proc_timer_hint s a else s)
    end.

(** A [sigevent]: value, signal, how to notify, thread. *)
Record sigev := Sev { ev_val : Z; ev_signo : Z; ev_notify : Z; ev_tid : Z }.

Definition free_timer (l : list ptimer) : Z := default 16 (find_from 0 (λ t, negb (used t)) l).

(** [c_ok] says that the pointer for the answer is good; [b] is the [sigevent] if
    there is one, [Some None] a bad pointer. *)
Definition timer_create (s : state_t) (me a : Z) (b : option (option sigev)) (c_ok : bool) : option (Z * option Z * state_t) :=
  p ← (procs s).[me];
  if negb c_ok then Some (- EFAULT, None, s)
  else if (7 <? i32 a) || (i32 a =? 2) || (i32 a =? 3) then Some (- EINVAL, None, s)
  else
    sh ← (shs s).[t_sh p];
    let id := free_timer (tm sh) in
    if id =? 16 then Some (- EAGAIN, None, s)
    else
      let t := Pt false false (i32 a) 14 0 0 id 0 0 0 in
      match b with
      | None => s ← with_timer s (t_sh p) id {| t with used := true |}; Some (0, Some id, s)
      | Some None => s ← with_timer s (t_sh p) id t; Some (- EFAULT, None, s)
      | Some (Some e) =>
          let t := {| t with val := ev_val e; signo := ev_signo e; notify := ev_notify e; tid := ev_tid e |} in
          let t := if notify t =? 2 then {| t with notify := 4; tid := t_pid p; signo := 32 |} else t in
          if negb (notify t =? 1) && ((signo t <=? 0) || (NSIG_MAX <=? signo t))
          then s ← with_timer s (t_sh p) id t; Some (- EINVAL, None, s)
          else
            let t := if (notify t =? 4) && (tid t =? 0) then {| t with tid := t_pid p |} else t in
            s ← with_timer s (t_sh p) id {| t with used := true |};
            Some (0, Some id, s)
      end.

(** The timer [a] of the process, if it is in use. *)
Definition my_timer (s : state_t) (me a : Z) : option (option (Z * ptimer)) :=
  p ← (procs s).[me];
  if 16 <=? a then Some None
  else sh ← (shs s).[t_sh p]; t ← (tm sh).[a]; Some (if used t then Some (t_sh p, t) else None).

(** What is left of a timer. *)
Definition timer_left (t : ptimer) (now : Z) : Z :=
  let left := if armed t then u32 (at_ t - now) else 0 in if 0x7fffffff <? left then 1 else left.

(** [cur] is the time of day in milliseconds; [nv] interval and value. *)
Definition timer_settime (s : state_t) (me a fl : Z) (nv : Z * Z * Z * Z) (ok : bool) (now cur : Z)
    : option (Z * option ((Z * Z) * (Z * Z)) * state_t) :=
  x ← my_timer s me a;
  match x with
  | None => Some (- EINVAL, None, s)
  | Some (j, t) =>
      if negb ok then Some (- EFAULT, None, s)
      else
        let '(n0, n1, n2, n3) := nv in
        let v := ts_ms n2 n3 in
        let i := ts_ms n0 n1 in
        let v := if nz v && nz (Z.land fl 1)
                 then
                   let want := u64 (u64 n2 * 1000 + Z.quot n3 1000000) in
                   let cur := if (clk t =? 0) || (clk t =? 5) || (clk t =? 8) then cur else now in
                   if cur <? want then u32 (want - cur) else 1
                 else v in
        let a' := u32 (now + v) in
        s ← with_timer s j a {| t with armed := nz v; at_ := a'; iv := if nz v then i else 0; over := 0 |};
        Some (0, Some (ms_ts (iv t), ms_ts (timer_left t now)), if nz v then proc_timer_hint s a' else s)
  end.

Definition timer_gettime (s : state_t) (me a : Z) (ok : bool) (now : Z) : option (Z * option ((Z * Z) * (Z * Z))) :=
  x ← my_timer s me a;
  match x with
  | None => Some (- EINVAL, None)
  | Some (_, t) => if negb ok then Some (- EFAULT, None) else Some (0, Some (ms_ts (iv t), ms_ts (timer_left t now)))
  end.

Definition timer_getoverrun (s : state_t) (me a : Z) : option Z :=
  x ← my_timer s me a; Some (match x with None => - EINVAL | Some (_, t) => over t end).

Definition timer_delete (s : state_t) (me a : Z) : option (Z * state_t) :=
  x ← my_timer s me a;
  match x with
  | None => Some (- EINVAL, s)
  | Some (j, t) => s ← with_timer s j a {| t with used := false; armed := false |}; Some (0, s)
  end.

(** alarm(2) *)
Definition alarm (s : state_t) (me a now : Z) : option (Z * state_t) :=
  p ← (procs s).[me];
  let left := if nz (alarm_at p) then u32 (alarm_at p - now + 999) / 1000 else 0 in
  let t := if nz a then u32 (now + a * 1000) else 0 in
  s ← with_proc s me {| p with alarm_at := t; alarm_interval := 0 |};
  Some (left, if nz a then proc_timer_hint s t else s).

(** ** Times that wrap around *)

Lemma i32_cong x y : (x - y) mod 2 ^ 32 = 0 → - 2 ^ 31 ≤ y < 2 ^ 31 → i32 x = y.
Proof. intros Hm Hy. unfold i32. Z.div_mod_to_equations. lia. Qed.

Lemma i32_mod x : (x - i32 x) mod 2 ^ 32 = 0.
Proof. unfold i32. Z.div_mod_to_equations. lia. Qed.

Lemma u32_mod x : (x - u32 x) mod 2 ^ 32 = 0.
Proof. unfold u32. Z.div_mod_to_equations. lia. Qed.

(** How far [x] is from [now]. *)
Definition dist (now x : Z) : Z := i32 (x - now).

(** Within twelve days. *)
Definition near (now x : Z) : Prop := - 2 ^ 30 ≤ dist now x < 2 ^ 30.

Lemma dist_sub now x y : near now x → near now y → i32 (x - y) = dist now x - dist now y.
Proof.
  intros Hx Hy. apply i32_cong; [|unfold near in *; lia].
  pose proof (i32_mod (x - now)) as H1. pose proof (i32_mod (y - now)) as H2. unfold dist.
  set (dx := i32 (x - now)) in *. set (dy := i32 (y - now)) in *. clearbody dx dy. Z.div_mod_to_equations. lia.
Qed.

Lemma dist_now now x : near now x → i32 (now - x) = - dist now x.
Proof.
  intros Hx. apply i32_cong; [|unfold near in *; lia]. pose proof (i32_mod (x - now)) as H1. unfold dist.
  set (dx := i32 (x - now)) in *. clearbody dx. Z.div_mod_to_equations. lia.
Qed.

Lemma dist_add now v : 0 ≤ v < 2 ^ 31 → dist now (u32 (now + v)) = v.
Proof. intros Hv. apply i32_cong; [|lia]. pose proof (u32_mod (now + v)). Z.div_mod_to_equations. lia. Qed.

(** The next deadline of a periodic timer is the first one after [now]. *)
Lemma rearm_dist now t :
  0 < iv t < 2 ^ 30 → near now (at_ t) → dist now (at_ t) ≤ 0 →
  0 < dist now (at_ (rearm now t)) ≤ iv t ∧ over (rearm now t) = - dist now (at_ t) / iv t ∧
  at_ (rearm now t) = u32 (at_ t + iv t * (over (rearm now t) + 1)).
Proof.
  intros Hi Hn Hd. unfold rearm. rewrite nz_pos by lia. cbn [over at_]. set (D := - dist now (at_ t)).
  assert (u32 (now - at_ t) = D) as ->.
  { pose proof (i32_mod (at_ t - now)) as H1. unfold near in Hn. unfold D, dist in *. set (dx := i32 (at_ t - now)) in *. clearbody dx.
    unfold u32. Z.div_mod_to_equations. lia. }
  assert (0 ≤ D < 2 ^ 31) as HD by (unfold near in Hn; lia).
  assert (0 ≤ D / iv t ≤ D) as Hq by (split; [apply Z.div_pos; lia|apply Z.div_le_upper_bound; nia]).
  rewrite (i32_small (D / iv t)) by lia. split; [|done].
  assert (dist now (u32 (at_ t + iv t * (D / iv t + 1))) = iv t * (D / iv t + 1) - D) as ->.
  { apply i32_cong.
    - pose proof (u32_mod (at_ t + iv t * (D / iv t + 1))) as H1. pose proof (i32_mod (at_ t - now)) as H2.
      set (w := u32 _) in *. set (q := iv t * (D / iv t + 1)) in *. unfold D, dist in *. set (dx := i32 (at_ t - now)) in *.
      clearbody w q dx. Z.div_mod_to_equations. lia.
    - pose proof (Z.div_mod D (iv t) ltac:(lia)) as H1. pose proof (Z.mod_pos_bound D (iv t) ltac:(lia)). lia. }
  pose proof (Z.div_mod D (iv t) ltac:(lia)). pose proof (Z.mod_pos_bound D (iv t) ltac:(lia)). lia.
Qed.

(** ** What sending a signal leaves alone *)

(** All of a process but its pending signals and the data of the last timer. *)
Definition core (p : tproc) : pstate_t * Z * Z * bool * bool * Z * Z * Z :=
  (t_state p, t_pid p, t_tgid p, t_thread p, t_zleader p, t_sh p, alarm_at p, alarm_interval p).

Record quiet (s s' : state_t) : Prop := {
  qt_len : length (procs s') = length (procs s);
  qt_proc : ∀ i p, (procs s).[i] = Some p → ∃ p', (procs s').[i] = Some p' ∧ core p' = core p ∧
    Z.land (t_pending p) (t_pending p') = t_pending p;
  qt_shs : shs s' = shs s;
  qt_next : tm_next s' = tm_next s;
  qt_any : tm_any s' = tm_any s
}.

Lemma quiet_refl s : quiet s s.
Proof. split; try done. intros i p Hp. exists p. split; [done|]. split; [done|]. apply Z.land_diag. Qed.

Lemma quiet_trans s1 s2 s3 : quiet s1 s2 → quiet s2 s3 → quiet s1 s3.
Proof.
  intros [A1 A2 A3 A4 A5] [B1 B2 B3 B4 B5]. split; try congruence. intros i p Hp.
  destruct (A2 i p Hp) as (p1 & H1 & C1 & L1). destruct (B2 i p1 H1) as (p2 & H2 & C2 & L2). exists p2.
  split; [done|]. split; [congruence|]. by rewrite <- L1, <- Z.land_assoc, L2.
Qed.

Lemma with_proc_quiet s i p p' s' :
  (procs s).[i] = Some p → core p' = core p → Z.land (t_pending p) (t_pending p') = t_pending p → with_proc s i p' = Some s' → quiet s s'.
Proof.
  intros Hp Hc Hl E. unfold with_proc in E. inv_some. split; cbn; try done; [by eapply arr_set_length|].
  intros k q Hk. rewrite (arr_get_set _ _ _ _ k E0). case_decide; [subst; exists p'; split; [done|]; by assert (q = p) as -> by congruence|].
  exists q. split; [done|]. split; [done|]. apply Z.land_diag.
Qed.

Lemma with_proc_total s i p p' : (procs s).[i] = Some p → ∃ s', with_proc s i p' = Some s'.
Proof. intros Hp. unfold with_proc. destruct (set_total _ _ _ p' Hp) as [l ->]. by eexists. Qed.

Lemma land_lor_absorb a b : Z.land a (Z.lor a b) = a.
Proof. apply Z.bits_inj'. intros k Hk. rewrite Z.land_spec, Z.lor_spec. by destruct (Z.testbit a k), (Z.testbit b k). Qed.

Lemma set_pending_ok s i p sig : (procs s).[i] = Some p → 1 ≤ sig →
  ∃ s' p', set_pending s i sig = Some s' ∧ quiet s s' ∧ (procs s').[i] = Some p' ∧ Z.testbit (t_pending p') (sig - 1) = true.
Proof.
  intros Hp Hs. unfold set_pending. rewrite Hp. cbn [mbind option_bind].
  set (p' := {| p with t_pending := Z.lor (t_pending p) (SIGBIT sig) |}).
  destruct (with_proc_total s i p p' Hp) as [s1 E]. rewrite E. cbn [mbind option_bind]. eexists _, p'. split; [done|].
  pose proof (with_proc_quiet s i p p' s1 Hp eq_refl (land_lor_absorb _ _) E) as Hq. unfold with_proc in E. inv_some. split; [|split].
  - by destruct Hq.
  - cbn. by rewrite (arr_get_set _ _ _ _ i E0), decide_True.
  - cbn. unfold SIGBIT. rewrite Z.lor_spec, Z.shiftl_1_l, Z.pow2_bits_true by lia. apply orb_true_r.
Qed.

(** The signal is pending for some thread of group [j]. *)
Definition has_sig (s : state_t) (j sig : Z) : Prop :=
  ∃ i p, (procs s).[i] = Some p ∧ alive p = true ∧ t_sh p = j ∧ Z.testbit (t_pending p) (sig - 1) = true.

Lemma core_eq p p' : core p' = core p →
  alive p' = alive p ∧ t_sh p' = t_sh p ∧ t_thread p' = t_thread p ∧ alarm_at p' = alarm_at p ∧ alarm_interval p' = alarm_interval p.
Proof. unfold core, alive. intros E. injection E as E1 E2 E3 E4 E5 E6 E7 E8. by rewrite E1, E4, E6, E7, E8. Qed.

Lemma has_sig_quiet s s' j sig : quiet s s' → has_sig s j sig → has_sig s' j sig.
Proof.
  intros Hq (i & p & Hp & Ha & Hj & Hb). destruct (qt_proc _ _ Hq i p Hp) as (p' & Hp' & Hc & Hl).
  destruct (core_eq _ _ Hc) as (E1 & E2 & _). exists i, p'. split_and!; [done|congruence|congruence|].
  rewrite <- Hl, Z.land_spec in Hb. by apply andb_true_iff in Hb as [_ ?].
Qed.

(** Living processes have their shared part, with an entry for each signal and timer. *)
Definition wf (s : state_t) : Prop :=
  ∀ i p, (procs s).[i] = Some p → alive p = true →
    ∃ sh, (shs s).[t_sh p] = Some sh ∧ length (hs sh) = 65%nat ∧ length (tm sh) = 16%nat.

Lemma wf_handler s i p sig : wf s → (procs s).[i] = Some p → alive p = true → 0 ≤ sig < 65 →
  ∃ sh h, (shs s).[t_sh p] = Some sh ∧ (hs sh).[sig] = Some h.
Proof.
  intros Hw Hp Ha Hs. destruct (Hw i p Hp Ha) as (sh & Hsh & Hl & _). exists sh.
  destruct (arr_get_is_Some (hs sh) sig) as [h Hh]; [lia|]. by exists h.
Qed.

Lemma find_from_get {A} (f : A → bool) l i : find_from 0 f l = Some i → ∃ x, l.[i] = Some x ∧ f x = true.
Proof.
  intros (x & Hi & Hx & Hf)%find_from_Some. exists x. split; [|done]. apply arr_get_Some. rewrite Z.sub_0_r in Hx. done.
Qed.

Lemma raise_sig_ok s i p sig exact : wf s → (procs s).[i] = Some p →
  ∃ s', raise_sig s i sig exact = Some s' ∧ quiet s s' ∧
    (alive p = true → 0 < sig < 65 → (∀ sh, (shs s).[t_sh p] = Some sh → (hs sh).[sig] ≠ Some 1) → has_sig s' (t_sh p) sig).
Proof.
  intros Hw Hp. unfold raise_sig. rewrite Hp. cbn [mbind option_bind].
  destruct (alive p) eqn:Ea; cbn [negb orb]; [|exists s; split; [done|]; split; [apply quiet_refl|done]].
  destruct ((sig <=? 0) || (NSIG_MAX <=? sig)) eqn:Es.
  { exists s. split; [done|]. split; [apply quiet_refl|]. intros _ ?. unfold NSIG_MAX in Es. bools. destruct Es; bools; lia. }
  unfold NSIG_MAX in Es. bools. destruct (wf_handler s i p sig Hw Hp Ea ltac:(lia)) as (sh & h & Hsh & Hh).
  rewrite Hsh. cbn [mbind option_bind]. rewrite Hh. cbn [mbind option_bind].
  destruct ((h =? 1) && negb (nz (t_tracer p))) eqn:Eh.
  { exists s. split; [done|]. split; [apply quiet_refl|]. intros _ _ Hno. bools. subst. by destruct (Hno sh eq_refl). }
  cbv zeta. match goal with |- context [set_pending s ?k sig] => assert (∃ q, (procs s).[k] = Some q ∧ alive q = true ∧ t_sh q = t_sh p) as (q & Hq & Hqa & Hqs) end.
  { destruct (negb exact && blocks p sig); [|by exists p]. destruct (find_from 0 _ (procs s)) as [k|] eqn:Ef; cbn; [|by exists p].
    destruct (find_from_get _ _ _ Ef) as (q & Hq & Hf). exists q. bools. done. }
  destruct (set_pending_ok s _ q sig Hq ltac:(lia)) as (s' & q' & -> & Hqt & Hq' & Hb). exists s'. split; [done|]. split; [done|]. intros _ _ _.
  destruct (qt_proc _ _ Hqt _ _ Hq) as (q2 & Hq2 & Hc & _). assert (q2 = q') as -> by congruence.
  destruct (core_eq _ _ Hc) as (E1 & E2 & _). eexists _, q'. split_and!; [exact Hq'|congruence|congruence|done].
Qed.

Lemma wf_quiet s s' : quiet s s' → wf s → wf s'.
Proof.
  intros Hq Hw i p' Hp' Ha. destruct (arr_get_is_Some (procs s) i) as [p Hp].
  { pose proof (arr_get_range _ _ _ Hp'). by rewrite <- (qt_len _ _ Hq). }
  destruct (qt_proc _ _ Hq i p Hp) as (p2 & Hp2 & Hc & _). assert (p2 = p') as -> by congruence.
  destruct (core_eq _ _ Hc) as (E1 & E2 & _). rewrite (qt_shs _ _ Hq), E2. apply (Hw i p Hp). congruence.
Qed.

(** The thread [x] is the first with its number, alive and in group [j]. *)
Definition thread_in (s : state_t) (j x : Z) : Prop :=
  ∃ i q, find_from 0 (λ q, taken q && (t_pid q =? x)) (procs s) = Some i ∧ (procs s).[i] = Some q ∧
    t_sh q = j ∧ alive q = true.

Lemma fire_ok s l p t id : wf s → (procs s).[l] = Some p → alive p = true →
  ∃ s', fire s l t id = Some s' ∧ quiet s s' ∧
    (notify t ≠ 1 → (notify t = 4 → thread_in s (t_sh p) (tid t)) → 0 < signo t < 65 → (∀ sh, (shs s).[t_sh p] = Some sh → (hs sh).[signo t] ≠ Some 1) →
     has_sig s' (t_sh p) (signo t)).
Proof.
  intros Hw Hp Ha. unfold fire. destruct (notify t =? 1) eqn:E1; bools; [exists s; split; [done|]; split; [apply quiet_refl|done]|].
  rewrite Hp. cbn [mbind option_bind]. cbv zeta.
  assert (∀ i q, (procs s).[i] = Some q → ∃ s', (s0 ← with_proc s i {| q with q_sig := signo t; q_tid := id; q_val := val t; q_over := over t |};
      raise_sig s0 i (signo t) (notify t =? 4)) = Some s' ∧ quiet s s' ∧
    (alive q = true → 0 < signo t < 65 → (∀ sh, (shs s).[t_sh q] = Some sh → (hs sh).[signo t] ≠ Some 1) → has_sig s' (t_sh q) (signo t))) as Hgo.
  { intros i q Hq. set (q' := {| q with q_sig := signo t; q_tid := id; q_val := val t; q_over := over t |}).
    destruct (with_proc_total s i q q' Hq) as [s1 E]. rewrite E. cbn [mbind option_bind].
    pose proof (with_proc_quiet s i q q' s1 Hq eq_refl (Z.land_diag _) E) as Hq1.
    assert ((procs s1).[i] = Some q') as Hi by (unfold with_proc in E; inv_some; cbn; by rewrite (arr_get_set _ _ _ _ i E0), decide_True).
    destruct (raise_sig_ok s1 i q' (signo t) (notify t =? 4) (wf_quiet _ _ Hq1 Hw) Hi) as (s2 & -> & Hq2 & Hh).
    exists s2. split; [done|]. split; [by eapply quiet_trans|]. rewrite (qt_shs _ _ Hq1) in Hh. exact Hh. }
  destruct (notify t =? 4) eqn:E4; bools.
  - destruct (find_from 0 _ (procs s)) as [i|] eqn:Ef; cbn [mbind option_bind].
    2:{ exists s. split; [done|]. split; [apply quiet_refl|]. intros _ H4. destruct (H4 E4) as (i & q & Hf & _). congruence. }
    destruct (find_from_get _ _ _ Ef) as (q & Hq & _). rewrite Hq. cbn [mbind option_bind].
    assert (∀ i' q', find_from 0 (λ q, taken q && (t_pid q =? tid t)) (procs s) = Some i' → (procs s).[i'] = Some q' → q' = q) as Hsame
      by (intros; congruence).
    destruct (t_sh q =? t_sh p) eqn:Eq; bools.
    2:{ exists s. split; [done|]. split; [apply quiet_refl|]. intros _ H4. destruct (H4 E4) as (i' & q' & Hf & Hq' & Hsh & _).
        rewrite (Hsame _ _ Hf Hq') in Hsh. congruence. }
    rewrite Hq. cbn [mbind option_bind]. destruct (Hgo i q Hq) as (s' & E & Hqt & Hh). exists s'. split; [exact E|]. split; [done|].
    rewrite Eq in Hh. intros _ H4. destruct (H4 E4) as (i' & q' & Hf & Hq' & _ & Hal). rewrite (Hsame _ _ Hf Hq') in Hal. auto.
  - rewrite Hp. cbn [mbind option_bind]. destruct (Hgo l p Hp) as (s' & E & Hqt & Hh). exists s'. split; [exact E|]. split; [done|]. auto.
Qed.

(** ** The tick *)

Definition timer (s : state_t) (j k : Z) : option ptimer := sh ← (shs s).[j]; (tm sh).[k].

(** The timer signals somebody: it asks for a signal (SIGEV_NONE is 1), if for a
    thread of its own (SIGEV_THREAD_ID is 4) that one is alive, and the signal is not
    ignored. *)
Definition loud (s : state_t) (j : Z) (t : ptimer) : Prop :=
  notify t ≠ 1 ∧ (notify t = 4 → thread_in s j (tid t)) ∧ 0 < signo t < 65 ∧ ∀ sh, (shs s).[j] = Some sh → (hs sh).[signo t] ≠ Some 1.

(** What a part of a tick may do. *)
Record ticked (now : Z) (s s' : state_t) : Prop := {
  tk_len : length (procs s') = length (procs s);
  tk_proc : ∀ i p, (procs s).[i] = Some p → ∃ p', (procs s').[i] = Some p' ∧ t_state p' = t_state p ∧ t_thread p' = t_thread p ∧
    t_sh p' = t_sh p ∧ alarm_interval p' = alarm_interval p ∧ Z.land (t_pending p) (t_pending p') = t_pending p ∧
    (alarm_at p' = alarm_at p ∨ ((alarm_at p' = 0 ∨ near now (alarm_at p')) ∧ has_sig s' (t_sh p) 14)) ∧
    t_pid p' = t_pid p;
  tk_timer : ∀ j k t, timer s j k = Some t → ∃ t', timer s' j k = Some t' ∧
    (t' = t ∨ (due now t = true ∧ t' = rearm now t ∧
      (∀ i p, (procs s).[i] = Some p → alive p = true → t_thread p = false → t_sh p = j → loud s j t → has_sig s' j (signo t))));
  tk_hs : ∀ j sh, (shs s).[j] = Some sh → ∃ sh', (shs s').[j] = Some sh' ∧ hs sh' = hs sh ∧ length (tm sh') = length (tm sh);
  tk_back : ∀ j sh, (shs s').[j] = Some sh → is_Some ((shs s).[j]);
  tk_next : (tm_any s = true → near now (tm_next s)) → tm_any s' = true → near now (tm_next s')
}.

(** The deadlines are near and the intervals short. *)
Record tame (now : Z) (s : state_t) : Prop := {
  tame_timer : ∀ j k t, timer s j k = Some t → 0 ≤ iv t < 2 ^ 30 ∧ (used t = true → armed t = true → near now (at_ t));
  tame_alarm : ∀ i p, (procs s).[i] = Some p → 0 ≤ alarm_interval p < 2 ^ 30 ∧ (alarm_at p ≠ 0 → near now (alarm_at p));
  tame_next : tm_any s = true → near now (tm_next s)
}.

Lemma due_spec now t : due now t = true → used t = true ∧ armed t = true ∧ 0 ≤ i32 (now - at_ t).
Proof. unfold due. intros. bools. done. Qed.

Lemma rearm_ok now t :
  0 ≤ iv t < 2 ^ 30 → near now (at_ t) → due now t = true →
  due now (rearm now t) = false ∧ iv (rearm now t) = iv t ∧ (armed (rearm now t) = true → near now (at_ (rearm now t))).
Proof.
  intros Hi Hn (Hu & Ha & Hd)%due_spec. rewrite (dist_now _ _ Hn) in Hd.
  destruct (decide (iv t = 0)) as [E|E].
  { unfold rearm. rewrite E. cbn. unfold due. cbn. by rewrite andb_false_r. }
  destruct (rearm_dist now t ltac:(lia) Hn ltac:(lia)) as ([H1 H2] & _ & _).
  assert (near now (at_ (rearm now t))) as Hn' by (unfold near; lia).
  split; [|split; [unfold rearm; by destruct (nz _)|done]]. unfold due. rewrite (dist_now _ _ Hn').
  rewrite (proj2 (Z.ltb_lt _ 0)) by lia. cbn. by rewrite andb_false_r.
Qed.

Lemma ticked_quiet now s s' : quiet s s' → ticked now s s'.
Proof.
  intros [A1 A2 A3 A4 A5]. split; [done| | | | |by rewrite A4, A5].
  - intros i p Hp. destruct (A2 i p Hp) as (p' & Hp' & Hc & Hl). exists p'. unfold core in Hc. injection Hc as E1 E2 E3 E4 E5 E6 E7 E8.
    split_and!; try done; by left.
  - intros j k t Ht. exists t. unfold timer in *. rewrite A3. split; [done|]. by left.
  - intros j sh Hj. exists sh. by rewrite A3.
  - intros j sh Hj. rewrite A3 in Hj. by eexists.
Qed.

Lemma find_from_ext {A} (f : A → bool) n l l' :
  Forall2 (λ x y, f x = f y) l l' → find_from n f l = find_from n f l'.
Proof. intros H. revert n. induction H as [|x y l l' E _ IH]; intros n; cbn; [done|]. by rewrite E, IH. Qed.

Lemma thread_ticked now s s' j x : ticked now s s' → thread_in s j x → thread_in s' j x.
Proof.
  intros Ht (i & q & Hf & Hq & Hj & Ha).
  destruct (tk_proc _ _ _ Ht i q Hq) as (q' & Hq' & E1 & _ & E3 & _). exists i, q'.
  split_and!; [|done|congruence|unfold alive in *; by rewrite E1]. rewrite <- Hf. symmetry. apply find_from_ext.
  apply Forall2_same_length_lookup_2; [symmetry; apply (tk_len _ _ _ Ht)|]. intros k p p' Hp Hp'.
  assert ((procs s).[Z.of_nat k] = Some p) as Hk by (apply arr_get_Some; rewrite Nat2Z.id; split; [lia|done]).
  destruct (tk_proc _ _ _ Ht _ _ Hk) as (p2 & Hp2 & F1 & _ & _ & _ & _ & _ & F2).
  apply arr_get_Some in Hp2 as [_ Hp2]. rewrite Nat2Z.id in Hp2. simplify_eq. unfold taken. by rewrite F1, F2.
Qed.

Lemma loud_ticked now s s' j t : ticked now s s' → loud s j t → loud s' j t.
Proof.
  intros Ht (H1 & H2 & H3 & H4). split_and!; try done; try lia; [intros E4; eapply thread_ticked; eauto|]. intros sh' Hj. destruct (tk_back _ _ _ Ht _ _ Hj) as [sh Hsh].
  destruct (tk_hs _ _ _ Ht _ _ Hsh) as (sh2 & Hj2 & Hh & _). assert (sh2 = sh') as -> by congruence. rewrite Hh. by apply H4.
Qed.

Lemma has_sig_ticked now s s' j sig : ticked now s s' → has_sig s j sig → has_sig s' j sig.
Proof.
  intros Ht (i & p & Hp & Ha & Hj & Hb). destruct (tk_proc _ _ _ Ht i p Hp) as (p' & Hp' & E1 & _ & E3 & _ & Hl & _).
  exists i, p'. split_and!; [done|unfold alive in *; by rewrite E1|congruence|].
  rewrite <- Hl, Z.land_spec in Hb. by apply andb_true_iff in Hb as [_ ?].
Qed.

Lemma tame_ticked now s s' : tame now s → ticked now s s' → tame now s'.
Proof.
  intros [T1 T2 T3] Ht. split.
  - intros j k t' Ht'. unfold timer in Ht'. destruct ((shs s').[j]) as [sh'|] eqn:Ej; [|done]. cbn in Ht'.
    destruct (tk_back _ _ _ Ht _ _ Ej) as [sh Hsh]. destruct (tk_hs _ _ _ Ht _ _ Hsh) as (sh2 & Hj2 & _ & Hl). rewrite Ej in Hj2. injection Hj2 as <-.
    destruct (arr_get_is_Some (tm sh) k) as [t Hk]; [rewrite <- Hl; by eapply arr_get_range|].
    assert (timer s j k = Some t) as Htm by (unfold timer; rewrite Hsh; exact Hk).
    destruct (tk_timer _ _ _ Ht _ _ _ Htm) as (t2 & Ht2 & Hc). assert (t2 = t') as -> by (unfold timer in Ht2; rewrite Ej in Ht2; cbn in Ht2; congruence).
    destruct (T1 _ _ _ Htm) as [Hi Hn]. destruct Hc as [->|(Hd & -> & _)]; [done|].
    destruct (due_spec _ _ Hd) as (Hu & Ha & _). destruct (rearm_ok now t Hi (Hn Hu Ha) Hd) as (_ & E & Hn'). rewrite E. split; [done|]. auto.
  - intros i p' Hp'. destruct (arr_get_is_Some (procs s) i) as [p Hp].
    { pose proof (arr_get_range _ _ _ Hp'). by rewrite <- (tk_len _ _ _ Ht). }
    destruct (tk_proc _ _ _ Ht i p Hp) as (p2 & Hp2 & _ & _ & _ & E & _ & Hal & _). assert (p2 = p') as -> by congruence.
    destruct (T2 i p Hp) as [Hi Hn]. rewrite E. split; [done|]. intros Hne. destruct Hal as [Hal|[[Hal|Hal] _]]; [rewrite Hal in *; auto|done|done].
  - by apply (tk_next _ _ _ Ht).
Qed.

Lemma ticked_refl now s : ticked now s s.
Proof. apply ticked_quiet, quiet_refl. Qed.

Lemma ticked_trans now s1 s2 s3 : tame now s1 → ticked now s1 s2 → ticked now s2 s3 → ticked now s1 s3.
Proof.
  intros Htm H12 H23. split.
  - rewrite (tk_len _ _ _ H23). apply H12.
  - intros i p Hp. destruct (tk_proc _ _ _ H12 i p Hp) as (p1 & Hp1 & E1 & E2 & E3 & E4 & L1 & A1 & N1).
    destruct (tk_proc _ _ _ H23 i p1 Hp1) as (p2 & Hp2 & F1 & F2 & F3 & F4 & L2 & A2 & N2). exists p2. split_and!; try congruence.
    + by rewrite <- L1, <- Z.land_assoc, L2.
    + destruct A2 as [->|[? ?]]; [|right; split; [done|congruence]]. destruct A1 as [->|[? Hs]]; [by left|].
      right. split; [done|]. by eapply has_sig_ticked.
  - intros j k t Ht. destruct (tk_timer _ _ _ H12 _ _ _ Ht) as (t1 & Ht1 & C1). destruct (tk_timer _ _ _ H23 _ _ _ Ht1) as (t2 & Ht2 & C2).
    exists t2. split; [done|]. destruct C1 as [->|(D1 & -> & S1)].
    + destruct C2 as [->|(D2 & -> & S2)]; [by left|]. right. split; [done|]. split; [done|]. intros i p Hp Ha Hth Hj Hl.
      destruct (tk_proc _ _ _ H12 i p Hp) as (p1 & Hp1 & E1 & E2 & E3 & _).
      eapply (S2 i p1 Hp1); [unfold alive in *; by rewrite E1|congruence|congruence|by eapply loud_ticked].
    + right. split; [done|]. destruct (tame_timer _ _ Htm _ _ _ Ht) as [Hi Hn]. destruct (due_spec _ _ D1) as (Hu & Ha & _).
      destruct (rearm_ok now t Hi (Hn Hu Ha) D1) as (Hnd & _). destruct C2 as [->|(D2 & _)]; [|congruence]. split; [done|].
      intros i p Hp Hal Hth Hj Hl. eapply has_sig_ticked; [exact H23|by eapply S1].
  - intros j sh Hj. destruct (tk_hs _ _ _ H12 _ _ Hj) as (sh1 & Hj1 & E1 & L1). destruct (tk_hs _ _ _ H23 _ _ Hj1) as (sh2 & Hj2 & E2 & L2).
    exists sh2. split_and!; [done|congruence|congruence].
  - intros j sh Hj. destruct (tk_back _ _ _ H23 _ _ Hj) as [sh2 Hj2]. by eapply (tk_back _ _ _ H12).
  - intros Hn. apply (tk_next _ _ _ H23). by apply (tk_next _ _ _ H12).
Qed.

Lemma wf_ticked now s s' : ticked now s s' → wf s → wf s'.
Proof.
  intros Ht Hw i p' Hp' Ha. destruct (arr_get_is_Some (procs s) i) as [p Hp].
  { pose proof (arr_get_range _ _ _ Hp'). by rewrite <- (tk_len _ _ _ Ht). }
  destruct (tk_proc _ _ _ Ht i p Hp) as (p2 & Hp2 & E1 & _ & E3 & _). assert (p2 = p') as -> by congruence.
  destruct (Hw i p Hp) as (sh & Hsh & L1 & L2); [unfold alive in *; by rewrite <- E1|].
  destruct (tk_hs _ _ _ Ht _ _ Hsh) as (sh' & Hsh' & Eh & El). exists sh'. rewrite E3, Eh, El. done.
Qed.

Lemma with_timer_ok s j k t t' : timer s j k = Some t →
  ∃ s', with_timer s j k t' = Some s' ∧ procs s' = procs s ∧ tm_next s' = tm_next s ∧ tm_any s' = tm_any s ∧
    (∀ j' k', timer s' j' k' = if decide (j' = j ∧ k' = k) then Some t' else timer s j' k') ∧
    (∀ j' sh, (shs s).[j'] = Some sh → ∃ sh', (shs s').[j'] = Some sh' ∧ hs sh' = hs sh ∧ length (tm sh') = length (tm sh)) ∧
    (∀ j' sh, (shs s').[j'] = Some sh → is_Some ((shs s).[j'])).
Proof.
  unfold timer, with_timer. destruct ((shs s).[j]) as [sh|] eqn:Ej; [|done]. cbn [mbind option_bind]. intros Hk.
  destruct (set_total _ _ _ t' Hk) as [l El]. rewrite El. cbn [mbind option_bind].
  destruct (set_total _ _ _ {| sh with tm := l |} Ej) as [m Em]. rewrite Em. cbn [mbind option_bind].
  eexists. split; [done|]. cbn. split_and!; try done.
  - intros j' k'. rewrite (arr_get_set _ _ _ _ j' Em). destruct (decide (j' = j)) as [->|].
    + cbn. rewrite (arr_get_set _ _ _ _ k' El), Ej. cbn. destruct (decide (k' = k)) as [->|]; [by rewrite decide_True|].
      rewrite decide_False; [done|]. by intros [_ ?].
    + rewrite decide_False; [done|]. by intros [? _].
  - intros j' x Hx. rewrite (arr_get_set _ _ _ _ j' Em). case_decide; [subst|by eexists]. rewrite Ej in Hx. injection Hx as <-.
    eexists. split; [done|]. split; [done|]. by eapply arr_set_length.
  - intros j' x. rewrite (arr_get_set _ _ _ _ j' Em). case_decide; [subst; by eexists|by eexists].
Qed.

Lemma tick_timer_ok now i j k s p t :
  wf s → tame now s → (procs s).[i] = Some p → alive p = true → t_thread p = false → t_sh p = j → timer s j k = Some t →
  ∃ s', tick_timer now i j k s = Some s' ∧ ticked now s s' ∧ timer s' j k = Some (if due now t then rearm now t else t).
Proof.
  intros Hw Htm Hp Ha Hth Hj Ht. unfold tick_timer. pose proof Ht as Ht'. unfold timer in Ht'. destruct ((shs s).[j]) as [sh|] eqn:Ej; [|done].
  cbn [mbind option_bind] in *. rewrite Ht'. cbn [mbind option_bind]. destruct (due now t) eqn:Ed.
  2:{ exists s. split; [done|]. split; [apply ticked_refl|done]. }
  cbv zeta. destruct (with_timer_ok s j k t (rearm now t) Ht) as (s1 & -> & P1 & P2 & P3 & P4 & P5 & P6). cbn [mbind option_bind].
  assert (wf s1) as Hw1.
  { intros i' p' Hp' Ha'. rewrite P1 in Hp'. destruct (Hw i' p' Hp' Ha') as (x & Hx & L1 & L2).
    destruct (P5 _ _ Hx) as (x' & Hx' & E1 & E2). exists x'. by rewrite E1, E2. }
  destruct (fire_ok s1 i p (rearm now t) k Hw1) as (s2 & -> & Hq & Hs); [by rewrite P1|done|].
  assert (∀ j' k', timer s2 j' k' = timer s1 j' k') as Htq by (intros; unfold timer; by rewrite (qt_shs _ _ Hq)).
  exists s2. split; [done|]. split; [|by rewrite Htq, P4, decide_True].
  assert (signo (rearm now t) = signo t ∧ notify (rearm now t) = notify t) as [Es En] by (unfold rearm; by destruct (nz _)).
  pose proof (ticked_quiet now _ _ Hq) as Hk. split.
  - rewrite (tk_len _ _ _ Hk). by rewrite P1.
  - intros i' p' Hp'. apply (tk_proc _ _ _ Hk). by rewrite P1.
  - intros j' k' t0 Ht0. rewrite Htq, P4. case_decide as Hd; [|by exists t0; auto]. destruct Hd as [-> ->].
    assert (t0 = t) as -> by congruence. exists (rearm now t). split; [done|]. right. split; [done|]. split; [done|].
    intros i0 p0 _ _ _ _ (L1 & L2 & L3 & L4). assert (tid (rearm now t) = tid t) as Ed' by (unfold rearm; by destruct (nz _)).
    rewrite Es, En, Ed' in Hs. rewrite Hj in Hs. apply Hs; try done.
    { intros E4. destruct (L2 E4) as (i1 & q1 & Hf1 & Hq1 & ?). exists i1, q1. by rewrite P1. }
    intros sh' Hsh'. destruct (P6 _ _ Hsh') as [x Hx]. destruct (P5 _ _ Hx) as (x' & Hx' & E1 & _). assert (x' = sh') as -> by congruence.
    rewrite E1. by apply L4.
  - intros j' x Hx. rewrite (qt_shs _ _ Hq). by apply P5.
  - intros j' x. rewrite (qt_shs _ _ Hq). apply P6.
  - rewrite (qt_any _ _ Hq), (qt_next _ _ Hq), P2, P3. done.
Qed.

(** The timers of one process. *)
Lemma tick_timers_ok now i j s p :
  wf s → tame now s → (procs s).[i] = Some p → alive p = true → t_thread p = false → t_sh p = j →
  ∃ s', each (tick_timer now i j) (upto 16) s = Some s' ∧ ticked now s s' ∧
    ∀ k t, timer s j k = Some t → timer s' j k = Some (if due now t then rearm now t else t).
Proof.
  intros Hw Htm Hp Ha Hth Hj. destruct (Hw i p Hp Ha) as (sh & Hsh & _ & Hl). rewrite Hj in Hsh.
  destruct (each_spec (tick_timer now i j) (λ don s', ticked now s s' ∧
    ∀ k t, timer s j k = Some t → k ∈ don → timer s' j k = Some (if due now t then rearm now t else t)) (upto 16) [] s) as (s' & -> & Hk & Hd).
  - intros don k s1 Hk [Ht1 Hd1]. apply upto_elem in Hk. destruct (arr_get_is_Some (tm sh) k) as [t Htk]; [lia|].
    assert (timer s j k = Some t) as Htm0 by (unfold timer; rewrite Hsh; exact Htk).
    destruct (tk_timer _ _ _ Ht1 _ _ _ Htm0) as (t1 & Ht1' & Hc).
    destruct (tk_proc _ _ _ Ht1 i p Hp) as (p1 & Hp1 & E1 & E2 & E3 & _).
    pose proof (tame_ticked _ _ _ Htm Ht1) as Htm1.
    destruct (tick_timer_ok now i j k s1 p1 t1) as (s2 & -> & Ht2 & Hs2);
      [by eapply wf_ticked|done|done|unfold alive in *; by rewrite E1|congruence|congruence|done|].
    exists s2. split; [done|]. split; [by eapply ticked_trans|]. intros k' t' Ht' Hin.
    assert (∀ x, timer s j k = Some x → timer s2 j k = Some (if due now x then rearm now x else x)) as Hnew.
    { intros x Hx. assert (x = t) as -> by congruence. rewrite Hs2. destruct (tame_timer _ _ Htm _ _ _ Htm0) as [Hi Hn].
      destruct Hc as [->|(D & -> & _)]; [done|]. destruct (due_spec _ _ D) as (Hu & Har & _).
      destruct (rearm_ok now t Hi (Hn Hu Har) D) as (-> & _). by rewrite D. }
    destruct (decide (k' = k)) as [->|Hne]; [by apply Hnew|]. apply elem_of_app in Hin as [Hin|Hin]; [|set_solver].
    pose proof (Hd1 k' t' Ht' Hin) as Hk1. destruct (tk_timer _ _ _ Ht2 _ _ _ Hk1) as (t2 & Ht2' & Hc2). rewrite Ht2'. f_equal.
    destruct Hc2 as [->|(D & _)]; [done|]. destruct (tame_timer _ _ Htm _ _ _ Ht') as [Hi Hn]. destruct (due now t') eqn:Ed; [|congruence].
    destruct (due_spec _ _ Ed) as (Hu & Har & _). destruct (rearm_ok now t' Hi (Hn Hu Har) Ed). congruence.
  - split; [apply ticked_refl|set_solver].
  - exists s'. split; [done|]. split; [done|]. intros k t Ht. apply Hd; [done|]. cbn. apply upto_elem.
    unfold timer in Ht. rewrite Hsh in Ht. cbn in Ht. apply arr_get_range in Ht. lia.
Qed.

(** ** The alarm *)

Lemma send14_ok cont s i p sh h :
  (procs s).[i] = Some p → alive p = true → (shs s).[t_sh p] = Some sh → (hs sh).[14] = Some h → 1 < h →
  ∃ s', send_sig cont s i 14 false = Some (0, s') ∧ quiet s s' ∧ has_sig s' (t_sh p) 14.
Proof.
  intros Hp Ha Hsh Hh Hgt. unfold send_sig. rewrite Hp. cbn [mbind option_bind]. rewrite Ha.
  change (14 =? 0) with false. change ((14 <? 0) || (NSIG_MAX <=? 14)) with false. change (14 =? 18) with false.
  change (14 =? 9) with false. change (14 =? 19) with false. cbn [negb andb orb]. cbv zeta. rewrite orb_false_r, Hsh.
  cbn [mbind option_bind]. rewrite Hh. cbn [mbind option_bind].
  assert (∃ d q, (if t_thread p then Some i else pick_thread s i 14) = Some d ∧ (procs s).[d] = Some q ∧ alive q = true ∧ t_sh q = t_sh p)
    as (d & q & -> & Hq & Hqa & Hqs).
  { destruct (t_thread p); [by exists i, p|]. unfold pick_thread. rewrite Hp. cbn [mbind option_bind]. cbv zeta.
    destruct (find_from 0 _ (procs s)) as [k|] eqn:E1.
    - destruct (find_from_get _ _ _ E1) as (q & Hq & Hf). exists k, q. bools. done.
    - destruct (find_from 0 _ (procs s)) as [k|] eqn:E2 in |- *; cbn; [|by exists i, p].
      destruct (find_from_get _ _ _ E2) as (q & Hq & Hf). exists k, q. bools. done. }
  cbn [mbind option_bind]. rewrite Hq. cbn [mbind option_bind].
  destruct (set_pending_ok s d q 14 Hq ltac:(lia)) as (s' & q' & E & Hqt & Hq' & Hb). exists s'.
  destruct (qt_proc _ _ Hqt _ _ Hq) as (q2 & Hq2 & Hc & _). assert (q2 = q') as -> by congruence. destruct (core_eq _ _ Hc) as (E1 & E2 & _).
  split_and!; [|done|exists d, q'; split_and!; [done|congruence|congruence|done]].
  rewrite orb_false_r, E. cbn [mbind option_bind]. destruct (nz (t_tracer q)); [done|].
  by rewrite (proj2 (Z.eqb_neq h 1)), (proj2 (Z.ltb_lt 1 h)) by lia.
Qed.

(** ** The hint *)

Definition hinted (now : Z) (s : state_t) (x : Z) : Prop := tm_any s = true ∧ dist now (tm_next s) ≤ dist now x.

Lemma hint_spec now s x (s' := proc_timer_hint s x) :
  (tm_any s = true → near now (tm_next s)) → near now x →
  procs s' = procs s ∧ shs s' = shs s ∧ (tm_any s' = true → near now (tm_next s')) ∧ hinted now s' x ∧ ∀ y, hinted now s y → hinted now s' y.
Proof.
  intros Hn Hx. unfold s', proc_timer_hint, hinted. destruct (tm_any s) eqn:Ea; cbn [negb orb].
  2:{ cbn. split_and!; try done. intros y [? _]. done. }
  rewrite (dist_sub now x (tm_next s) Hx (Hn eq_refl)). destruct (_ <? 0) eqn:El; bools; cbn; rewrite ?Ea; split_and!; auto; lia.
Qed.

Lemma check_alarm_ok cont now s i p :
  wf s → tame now s → (procs s).[i] = Some p → alive p = true →
  ∃ s', proc_check_alarm cont s i now true = Some s' ∧ ticked now s s' ∧
    (alarm_at p ≠ 0 → dist now (alarm_at p) ≤ 0 → (∀ sh h, (shs s).[t_sh p] = Some sh → (hs sh).[14] = Some h → 1 < h) → has_sig s' (t_sh p) 14).
Proof.
  intros Hw Htm Hp Ha. unfold proc_check_alarm. rewrite Hp. cbn [mbind option_bind].
  destruct (tame_alarm _ _ Htm i p Hp) as [Hiv Hnear].
  destruct ((alarm_at p =? 0) || _) eqn:E0.
  { exists s. split; [done|]. split; [apply ticked_refl|]. intros H1 H2 _. rewrite (dist_now _ _ (Hnear H1)) in E0.
    apply orb_true_iff in E0 as [E0|E0]; bools; lia. }
  bools. destruct (wf_handler s i p 14 Hw Hp Ha ltac:(lia)) as (sh & h & Hsh & Hh). rewrite Hsh. cbn [mbind option_bind]. rewrite Hh. cbn [mbind option_bind andb].
  destruct (h <=? 1) eqn:Eh; bools.
  { exists s. split; [done|]. split; [apply ticked_refl|]. intros _ _ Hl. specialize (Hl sh h eq_refl Hh). lia. }
  cbv zeta. set (a := if nz (alarm_interval p) then _ else 0). set (p1 := {| p with alarm_at := a |}).
  assert (a = 0 ∨ near now a) as Hna.
  { unfold a. destruct (nz (alarm_interval p)); [right|by left]. unfold near. rewrite dist_add; lia. }
  destruct (with_proc_total s i p p1 Hp) as [s1 E1]. rewrite E1. cbn [mbind option_bind]. unfold with_proc in E1. inv_some.
  rename x into l. set (s1 := {| s with procs := l |}) in *.
  set (s2 := if nz a then proc_timer_hint s1 a else s1).
  assert (procs s2 = l ∧ shs s2 = shs s ∧ ((tm_any s = true → near now (tm_next s)) → tm_any s2 = true → near now (tm_next s2))) as (P1 & P2 & P3).
  { unfold s2. destruct (nz a) eqn:Ea; [|done]. apply nz_true in Ea. destruct Hna as [?|Hna]; [done|].
    destruct (hint_spec now s1 a (tame_next _ _ Htm) Hna) as (H1 & H2 & H3 & _). split; [exact H1|]. split; [exact H2|]. intros _. exact H3. }
  assert ((procs s2).[i] = Some p1) as Hp1 by (rewrite P1, (arr_get_set _ _ _ _ i E); by rewrite decide_True).
  destruct (send14_ok cont s2 i p1 sh h Hp1 Ha) as (s3 & -> & Hq & Hs); [by rewrite P2|done|done|]. cbn [mbind option_bind].
  exists s3. split; [done|]. split; [|done]. pose proof (ticked_quiet now _ _ Hq) as Hk. split.
  - rewrite (tk_len _ _ _ Hk), P1. by eapply arr_set_length.
  - intros k q Hk'. destruct (decide (k = i)) as [->|Hne].
    + assert (q = p) as -> by congruence. destruct (tk_proc _ _ _ Hk i p1 Hp1) as (p' & Hp' & F1 & F2 & F3 & F4 & F5 & F6 & F7).
      exists p'. split_and!; try done. right. destruct F6 as [->|F6]; [by split|]. done.
    + assert ((procs s2).[k] = Some q) as Hq' by (rewrite P1, (arr_get_set _ _ _ _ k E), decide_False; done).
      destruct (tk_proc _ _ _ Hk k q Hq') as (p' & Hp' & F). by exists p'.
  - intros j k t Ht. exists t. unfold timer in *. rewrite (qt_shs _ _ Hq), P2. auto.
  - intros j x Hx. exists x. by rewrite (qt_shs _ _ Hq), P2.
  - intros j x. rewrite (qt_shs _ _ Hq), P2. by eexists.
  - intros Hn. rewrite (qt_any _ _ Hq), (qt_next _ _ Hq). by apply P3.
Qed.

(** ** One process *)

(** What the tick makes of a timer. *)
Definition tick_of (now : Z) (t : ptimer) : ptimer := if due now t then rearm now t else t.

Lemma tick_of_done now s j k t : tame now s → timer s j k = Some t → due now (tick_of now t) = false.
Proof.
  intros Htm Ht. unfold tick_of. destruct (due now t) eqn:E; [|done]. destruct (tame_timer _ _ Htm _ _ _ Ht) as [Hi Hn].
  destruct (due_spec _ _ E) as (Hu & Ha & _). by destruct (rearm_ok now t Hi (Hn Hu Ha) E).
Qed.

Definition served (now : Z) (s s' : state_t) (j : Z) : Prop :=
  ∀ k t, timer s j k = Some t → timer s' j k = Some (tick_of now t).

Lemma served_after now s s1 s2 j : tame now s → served now s s1 j → ticked now s1 s2 → served now s s2 j.
Proof.
  intros Htm Hs Ht k t Hk. destruct (tk_timer _ _ _ Ht _ _ _ (Hs k t Hk)) as (t' & Ht' & [->|(D & _)]); [done|].
  by rewrite (tick_of_done _ _ _ _ _ Htm Hk) in D.
Qed.

Lemma served_before now s s1 s2 j : tame now s → ticked now s s1 → served now s1 s2 j → served now s s2 j.
Proof.
  intros Htm Ht Hs k t Hk. destruct (tk_timer _ _ _ Ht _ _ _ Hk) as (t' & Ht' & Hc). rewrite (Hs k t' Ht'). f_equal.
  destruct Hc as [->|(D & -> & _)]; [done|]. pose proof (tick_of_done _ _ _ _ _ Htm Hk) as E. unfold tick_of in *. rewrite D in *. by rewrite E.
Qed.

(** The alarm of [p] is due, and the process handles SIGALRM. *)
Definition rings (now : Z) (s : state_t) (p : tproc) : Prop :=
  alarm_at p ≠ 0 ∧ dist now (alarm_at p) ≤ 0 ∧ ∀ sh h, (shs s).[t_sh p] = Some sh → (hs sh).[14] = Some h → 1 < h.

Lemma rings_ticked now s s' p p' :
  ticked now s s' → rings now s p → t_sh p' = t_sh p → alarm_at p' = alarm_at p → rings now s' p'.
Proof.
  intros Ht (H1 & H2 & H3) Es Ea. unfold rings. rewrite Es, Ea. split_and!; try done. intros sh' h Hj Hh.
  destruct (tk_back _ _ _ Ht _ _ Hj) as [sh Hsh]. destruct (tk_hs _ _ _ Ht _ _ Hsh) as (sh2 & Hj2 & E & _).
  assert (sh2 = sh') as -> by congruence. rewrite E in Hh. by eapply H3.
Qed.

Lemma tick_proc_ok cont now s i p :
  wf s → tame now s → (procs s).[i] = Some p →
  ∃ s', tick_proc cont now i s = Some s' ∧ ticked now s s' ∧
    (alive p = true → (t_thread p = false → served now s s' (t_sh p)) ∧ (rings now s p → has_sig s' (t_sh p) 14)).
Proof.
  intros Hw Htm Hp. unfold tick_proc. rewrite Hp. cbn [mbind option_bind].
  destruct (alive p) eqn:Ea; cbn [negb]; [|exists s; split; [done|]; split; [apply ticked_refl|done]].
  assert (∃ s1, (if nz (alarm_at p) && negb (i32 (now - alarm_at p) <? 0) then proc_check_alarm cont s i now true else Some s) = Some s1 ∧
    ticked now s s1 ∧ (rings now s p → has_sig s1 (t_sh p) 14)) as (s1 & -> & T1 & R1).
  { destruct (nz (alarm_at p) && _) eqn:E.
    - destruct (check_alarm_ok cont now s i p Hw Htm Hp Ea) as (s1 & E1 & T & R). exists s1. split; [done|]. split; [done|].
      intros (H1 & H2 & H3). by apply R.
    - exists s. split; [done|]. split; [apply ticked_refl|]. intros (H1 & H2 & H3). destruct (tame_alarm _ _ Htm i p Hp) as [_ Hn].
      rewrite (dist_now _ _ (Hn H1)), (proj2 (nz_true _) H1) in E. cbn in E. bools. lia. }
  cbn [mbind option_bind]. destruct (t_thread p) eqn:Eth.
  { exists s1. split; [done|]. split; [done|]. intros _. split; [done|exact R1]. }
  destruct (tk_proc _ _ _ T1 i p Hp) as (p1 & Hp1 & E1 & E2 & E3 & _).
  destruct (tick_timers_ok now i (t_sh p) s1 p1) as (s2 & E & T2 & S2);
    [by eapply wf_ticked|by eapply tame_ticked|done|unfold alive in *; by rewrite E1|congruence|congruence|].
  exists s2. split; [exact E|]. split; [by eapply ticked_trans|]. intros _. split.
  - intros _. by eapply served_before.
  - intros R. eapply has_sig_ticked; [exact T2|auto].
Qed.

(** Every living process, in the order of the table. *)
Definition all_served (now : Z) (s s' : state_t) (ids : list Z) : Prop :=
  ∀ i p, i ∈ ids → (procs s).[i] = Some p → alive p = true →
    (t_thread p = false → served now s s' (t_sh p)) ∧ (rings now s p → has_sig s' (t_sh p) 14).

Lemma tick_procs_ok cont now s :
  wf s → tame now s →
  ∃ s', each (tick_proc cont now) (upto (Z.of_nat (length (procs s)))) s = Some s' ∧ ticked now s s' ∧
    all_served now s s' (upto (Z.of_nat (length (procs s)))).
Proof.
  intros Hw Htm.
  destruct (each_spec (tick_proc cont now) (λ don s', ticked now s s' ∧ all_served now s s' don) (upto (Z.of_nat (length (procs s)))) [] s)
    as (s' & E & Ht & Hs); [|split; [apply ticked_refl|intros ? ? ?; set_solver]|by exists s'].
  intros don i s1 Hi [T1 A1]. apply upto_elem in Hi. destruct (arr_get_is_Some (procs s) i) as [p Hp]; [lia|].
  destruct (tk_proc _ _ _ T1 i p Hp) as (p1 & Hp1 & E1 & E2 & E3 & _ & _ & E6 & _).
  destruct (tick_proc_ok cont now s1 i p1) as (s2 & E & T2 & A2); [by eapply wf_ticked|by eapply tame_ticked|done|].
  exists s2. split; [exact E|]. split; [by eapply ticked_trans|]. intros i' q Hin Hq Hqa.
  apply elem_of_app in Hin as [Hin|Hin].
  - destruct (A1 i' q Hin Hq Hqa) as [B1 B2]. split; [intros; eapply served_after; eauto|].
    intros R. eapply has_sig_ticked; [exact T2|auto].
  - assert (i' = i) as -> by set_solver. assert (q = p) as -> by congruence.
    assert (alive p1 = true) as Ha1 by (unfold alive in *; by rewrite E1). destruct (A2 Ha1) as [B1 B2]. rewrite E2, E3 in B1. rewrite E3 in B2.
    split; [intros; eapply served_before; eauto|]. intros R. destruct E6 as [E6|[_ E6]]; [|by eapply has_sig_ticked].
    apply B2. by eapply rings_ticked.
Qed.

(** ** The hint again *)

Definition is_deadline (s : state_t) (x : Z) : Prop :=
  (∃ i p, (procs s).[i] = Some p ∧ alive p = true ∧ alarm_at p = x ∧ x ≠ 0) ∨
  (∃ i p k t, (procs s).[i] = Some p ∧ alive p = true ∧ t_thread p = false ∧ timer s (t_sh p) k = Some t ∧
     used t = true ∧ armed t = true ∧ at_ t = x).

(** The hint is not later than any deadline. *)
Definition hint_ok (now : Z) (s : state_t) : Prop := ∀ x, is_deadline s x → hinted now s x.

(** [s'] is [s] with a hint that is not later. *)
Record hints (now : Z) (s s' : state_t) : Prop := {
  hi_procs : procs s' = procs s;
  hi_shs : shs s' = shs s;
  hi_near : tm_any s' = true → near now (tm_next s');
  hi_keep : ∀ x, hinted now s x → hinted now s' x
}.

Lemma hints_trans now s1 s2 s3 : hints now s1 s2 → hints now s2 s3 → hints now s1 s3.
Proof. intros [A1 A2 A3 A4] [B1 B2 B3 B4]. split; try congruence; auto. Qed.

Lemma hints_refl now s : (tm_any s = true → near now (tm_next s)) → hints now s s.
Proof. by split. Qed.

Lemma hint_hints now s x : (tm_any s = true → near now (tm_next s)) → near now x →
  hints now s (proc_timer_hint s x) ∧ hinted now (proc_timer_hint s x) x.
Proof. intros Hn Hx. destruct (hint_spec now s x Hn Hx) as (H1 & H2 & H3 & H4 & H5). split; [by split|done]. Qed.

Lemma hint_timers_ok now s l :
  (tm_any s = true → near now (tm_next s)) → length l = 16%nat →
  (∀ k t, l.[k] = Some t → used t = true → armed t = true → near now (at_ t)) →
  ∃ s', each (λ k s, t ← l.[k]; Some (if used t && armed t then proc_timer_hint s (at_ t) else s)) (upto 16) s = Some s' ∧
    hints now s s' ∧ ∀ k t, l.[k] = Some t → used t = true → armed t = true → hinted now s' (at_ t).
Proof.
  intros Hn Hl Hnear.
  destruct (each_spec (λ k s, t ← l.[k]; Some (if used t && armed t then proc_timer_hint s (at_ t) else s))
    (λ don s', hints now s s' ∧ ∀ k t, k ∈ don → l.[k] = Some t → used t = true → armed t = true → hinted now s' (at_ t)) (upto 16) [] s)
    as (s' & E & Hh & Hd).
  - intros don k s1 Hk [H1 H2]. apply upto_elem in Hk. destruct (arr_get_is_Some l k) as [t Ht]; [lia|]. rewrite Ht. cbn [mbind option_bind].
    eexists. split; [done|]. destruct (used t && armed t) eqn:Eu; [apply andb_true_iff in Eu as [? ?]|].
    + destruct (hint_hints now s1 (at_ t) (hi_near _ _ _ H1)) as [H3 H4]; [by eapply Hnear|]. split; [by eapply hints_trans|].
      intros k' t' Hin Ht' Hu' Ha'. apply elem_of_app in Hin as [Hin|Hin]; [apply H3; by eapply H2|]. assert (k' = k) as -> by set_solver.
      by assert (t' = t) as -> by congruence.
    + split; [done|]. intros k' t' Hin Ht' Hu' Ha'. apply elem_of_app in Hin as [Hin|Hin]; [by eapply H2|]. assert (k' = k) as -> by set_solver.
      assert (t' = t) as -> by congruence. by rewrite Hu', Ha' in Eu.
  - split; [by apply hints_refl|]. set_solver.
  - exists s'. split; [exact E|]. split; [done|]. intros k t Hk. eapply Hd; [|done]. apply upto_elem. apply arr_get_range in Hk. lia.
Qed.

Lemma hint_proc_ok now s i p :
  wf s → tame now s → (procs s).[i] = Some p →
  ∃ s', hint_proc i s = Some s' ∧ hints now s s' ∧
    (alive p = true → (alarm_at p ≠ 0 → hinted now s' (alarm_at p)) ∧
      (t_thread p = false → ∀ k t, timer s (t_sh p) k = Some t → used t = true → armed t = true → hinted now s' (at_ t))).
Proof.
  intros Hw Htm Hp. unfold hint_proc. rewrite Hp. cbn [mbind option_bind].
  destruct (alive p) eqn:Ea; cbn [negb]; [|exists s; split; [done|]; split; [apply hints_refl, Htm|done]]. cbv zeta.
  set (s1 := if nz (alarm_at p) then _ else s).
  assert (hints now s s1 ∧ (alarm_at p ≠ 0 → hinted now s1 (alarm_at p))) as [H1 A1].
  { unfold s1. destruct (tame_alarm _ _ Htm i p Hp) as [_ Hn]. destruct (nz (alarm_at p)) eqn:E.
    - apply nz_true in E. destruct (hint_hints now s (alarm_at p) (tame_next _ _ Htm) (Hn E)) as [? ?]. done.
    - split; [apply hints_refl, Htm|]. intros Hne. by apply nz_false in E. }
  clearbody s1. destruct (t_thread p); [by exists s1|]. destruct (Hw i p Hp Ea) as (sh & Hsh & _ & Hl). rewrite (hi_shs _ _ _ H1), Hsh. cbn [mbind option_bind].
  assert (∀ k t, timer s (t_sh p) k = Some t ↔ (tm sh).[k] = Some t) as Htim by (intros; unfold timer; by rewrite Hsh).
  destruct (hint_timers_ok now s1 (tm sh) (hi_near _ _ _ H1) Hl) as (s2 & E & H2 & A2).
  { intros k t Hk. apply (tame_timer _ _ Htm (t_sh p) k). by apply Htim. }
  exists s2. split; [exact E|]. split; [by eapply hints_trans|]. intros _. split; [intros; apply H2; auto|]. intros _ k t Hk. apply (A2 k). by apply Htim.
Qed.

Lemma hint_procs_ok now s :
  wf s → tame now s → ∃ s', each hint_proc (upto (Z.of_nat (length (procs s)))) s = Some s' ∧ hints now s s' ∧ hint_ok now s'.
Proof.
  intros Hw Htm.
  destruct (each_spec hint_proc (λ don s', hints now s s' ∧ ∀ i p, i ∈ don → (procs s).[i] = Some p → alive p = true →
      (alarm_at p ≠ 0 → hinted now s' (alarm_at p)) ∧
      (t_thread p = false → ∀ k t, timer s (t_sh p) k = Some t → used t = true → armed t = true → hinted now s' (at_ t)))
    (upto (Z.of_nat (length (procs s)))) [] s) as (s' & E & Hh & Hd).
  - intros don i s1 Hi [H1 A1]. apply upto_elem in Hi. destruct (arr_get_is_Some (procs s) i) as [p Hp]; [lia|].
    assert (∀ j k, timer s1 j k = timer s j k) as Etm by (intros; unfold timer; by rewrite (hi_shs _ _ _ H1)).
    destruct (hint_proc_ok now s1 i p) as (s2 & E2 & H2 & A2).
    { intros i' q. rewrite (hi_procs _ _ _ H1), (hi_shs _ _ _ H1). apply Hw. }
    { split; [intros j k t; rewrite Etm; apply Htm|intros i' q; rewrite (hi_procs _ _ _ H1); apply Htm|apply H1]. }
    { by rewrite (hi_procs _ _ _ H1). }
    exists s2. split; [done|]. split; [by eapply hints_trans|]. intros i' q Hin Hq Hqa. apply elem_of_app in Hin as [Hin|Hin].
    + destruct (A1 i' q Hin Hq Hqa) as [B1 B2]. split; [intros; apply H2; auto|]. intros Hth k t Hk Hu Ha. apply H2. by eapply B2.
    + assert (i' = i) as -> by set_solver. assert (q = p) as -> by congruence. destruct (A2 Hqa) as [B1 B2]. split; [done|].
      intros Hth k t. rewrite <- Etm. by apply B2.
  - split; [apply hints_refl, Htm|set_solver].
  - exists s'. split; [done|]. split; [done|]. cbn in Hd. intros x Hx. unfold is_deadline, timer in Hx. rewrite (hi_procs _ _ _ Hh), (hi_shs _ _ _ Hh) in Hx.
    destruct Hx as [(i & p & Hp & Ha & <- & Hne)|(i & p & k & t & Hp & Ha & Hth & Hk & Hu & Har & <-)];
      (destruct (Hd i p) as [B1 B2]; [apply upto_elem; apply arr_get_range in Hp; lia|done|done|]); [auto|by eapply B2].
Qed.

(** ** The whole tick *)

(** What a tick at [now] owes the living process [p]. *)
Definition on_time (now : Z) (s s' : state_t) (p : tproc) : Prop :=
  (t_thread p = false → ∀ k t, timer s (t_sh p) k = Some t →
     timer s' (t_sh p) k = Some (tick_of now t) ∧
     (due now t = true → loud s (t_sh p) t → has_sig s' (t_sh p) (signo t)) ∧
     (due now t = true → 0 < iv t → 0 < dist now (at_ (tick_of now t)) ≤ iv t)) ∧
  (rings now s p → has_sig s' (t_sh p) 14).

Lemma on_time_full now s s' i p :
  tame now s → ticked now s s' → (procs s).[i] = Some p → alive p = true →
  (t_thread p = false → served now s s' (t_sh p)) → (rings now s p → has_sig s' (t_sh p) 14) → on_time now s s' p.
Proof.
  intros Htm Ht Hp Ha Hs Hr. split; [|done]. intros Hth k t Hk. specialize (Hs Hth k t Hk). split; [done|].
  destruct (tame_timer _ _ Htm _ _ _ Hk) as [Hi Hn]. pose proof (tick_of_done _ _ _ _ _ Htm Hk) as Hd. split.
  - intros Ed Hl. destruct (tk_timer _ _ _ Ht _ _ _ Hk) as (t' & Ht' & [->|(_ & _ & Hsig)]); [|by eapply Hsig].
    rewrite Hs in Ht'. injection Ht' as E. rewrite E in Hd. congruence.
  - intros Ed Hpos. unfold tick_of. rewrite Ed. destruct (due_spec _ _ Ed) as (Hu & Har & Hle). specialize (Hn Hu Har).
    rewrite (dist_now _ _ Hn) in Hle. apply rearm_dist; [lia|done|lia].
Qed.

(** A tick that the hint turns away owes nothing. *)
Lemma on_time_early now s i p :
  tame now s → hint_ok now s → negb (tm_any s) || (i32 (now - tm_next s) <? 0) = true →
  (procs s).[i] = Some p → alive p = true → on_time now s s p.
Proof.
  intros Htm Hh He Hp Ha.
  assert (∀ x, is_deadline s x → 0 < dist now x) as Hlate.
  { intros x [Hany Hle]%Hh. rewrite Hany in He. cbn in He. rewrite (dist_now _ _ (tame_next _ _ Htm Hany)) in He. bools. lia. }
  apply (on_time_full now s s i p); [done|apply ticked_refl|done|done| |].
  - intros Hth k t Hk. rewrite Hk. f_equal. unfold tick_of. destruct (due now t) eqn:Ed; [|done].
    destruct (due_spec _ _ Ed) as (Hu & Har & Hle). destruct (tame_timer _ _ Htm _ _ _ Hk) as [_ Hn].
    rewrite (dist_now _ _ (Hn Hu Har)) in Hle. assert (0 < dist now (at_ t)); [|lia]. apply Hlate. right. by exists i, p, k, t.
  - intros (H1 & H2 & _). assert (0 < dist now (alarm_at p)); [|lia]. apply Hlate. left. by exists i, p.
Qed.

Lemma on_time_hints now s s1 s2 p : hints now s1 s2 → on_time now s s1 p → on_time now s s2 p.
Proof.
  intros Hh [H1 H2].
  assert (∀ j sig, has_sig s1 j sig → has_sig s2 j sig) as Hs by (intros j sig; unfold has_sig; by rewrite (hi_procs _ _ _ Hh)).
  split; [|auto]. intros Hth k t Hk. destruct (H1 Hth k t Hk) as (E1 & E2 & E3).
  split; [unfold timer in *; by rewrite (hi_shs _ _ _ Hh)|]. split; auto.
Qed.

(** C23: while deadlines and intervals stay within 2^30 ms (twelve days) of the
    clock and the hint is not later than any of them, a tick completes, and it serves
    every living process: each timer that is due has its signal pending if it asks
    for one that is not ignored (and, where it names a thread, that thread is alive
    in the group), is set to its first deadline after now when it is periodic and
    disarmed otherwise, with the missed deadlines counted; every other timer is left
    alone; a due alarm has SIGALRM pending if the process has a handler for it (an
    alarm whose action is the default or to ignore is not served by the tick but when
    the process itself looks); and the hint is again not later than any deadline, so
    the ticks it turns away miss nothing. *)
Theorem tick_on_time cont s now :
  wf s → tame now s → hint_ok now s →
  ∃ s', proc_timers_tick cont s now = Some s' ∧ hint_ok now s' ∧
    ∀ i p, (procs s).[i] = Some p → alive p = true → on_time now s s' p.
Proof.
  intros Hw Htm Hh. unfold proc_timers_tick. destruct (negb (tm_any s) || _) eqn:Ee.
  { exists s. split; [done|]. split; [done|]. intros i p. by apply on_time_early. }
  set (s0 := {| s with tm_any := false |}).
  assert (tame now s0) as Htm0 by (split; [apply (tame_timer _ _ Htm)|apply (tame_alarm _ _ Htm)|done]).
  destruct (tick_procs_ok cont now s0 Hw Htm0) as (s1 & E1 & T1 & A1). cbv zeta. change (procs s) with (procs s0). rewrite E1. cbn [mbind option_bind].
  destruct (hint_procs_ok now s1) as (s2 & E2 & H2 & Hk2); [by eapply wf_ticked|by eapply tame_ticked|]. rewrite (tk_len _ _ _ T1) in E2.
  exists s2. split; [done|]. split; [done|]. intros i p Hp Ha. eapply on_time_hints; [exact H2|].
  destruct (A1 i p) as [B1 B2]; [apply upto_elem; apply arr_get_range in Hp; exact Hp|exact Hp|exact Ha|].
  by apply (on_time_full now s0 s1 i p).
Qed.

(** At 97 ms: a periodic timer of 10 ms that was due at 77 ms, and an alarm due at 90 ms. *)
Definition ex_timer : ptimer := Pt true true 1 34 0 0 0 77 10 0.
Definition ex_proc : tproc := Tp P_ALIVE 5 5 false false 0 0 0 0 90 0 0 0 0 0 0 0 0 0.
Definition ex_st : state_t :=
  St [ex_proc] [Ts (replicate 65 2) (ex_timer :: replicate 15 (Pt false false 0 0 0 0 0 0 0 0))] 77 true [] [].

Lemma arr_one {A} (x y : A) i : [x].[i] = Some y → i = 0 ∧ y = x.
Proof. intros H. pose proof (arr_get_range _ _ _ H) as Hr. cbn in Hr. assert (i = 0) as -> by lia. split; [done|]. by injection H as ->. Qed.

Lemma ex_timers j k t : timer ex_st j k = Some t → j = 0 ∧ (t = ex_timer ∨ used t = false) ∧ iv t ∈ [0; 10].
Proof.
  unfold timer. destruct ((shs ex_st).[j]) as [sh|] eqn:Ej; [|done]. cbn [mbind option_bind]. intros H. apply arr_one in Ej as [-> ->].
  split; [done|]. apply arr_get_Some in H as [_ H]. apply list_elem_of_lookup_2 in H. cbn [tm] in H.
  apply elem_of_cons in H as [->|H]; [split; [by left|set_solver]|]. apply elem_of_replicate in H as [-> _]. split; [by right|set_solver].
Qed.

Lemma tick_on_time_witness :
  ∃ s', proc_timers_tick (λ _ s, s) ex_st 97 = Some s' ∧ hint_ok 97 s' ∧
    ∀ i p, (procs ex_st).[i] = Some p → alive p = true → on_time 97 ex_st s' p.
Proof.
  apply (tick_on_time (λ _ s, s) ex_st 97).
  - intros i p Hp _. apply arr_one in Hp as [-> ->]. by eexists.
  - split.
    + intros j k t (-> & Ht & Hi)%ex_timers. split; [rewrite !elem_of_cons, elem_of_nil in Hi; lia|]. destruct Ht as [->|?]; [|congruence].
      intros _ _. split; vm_compute; congruence.
    + intros i p Hp. apply arr_one in Hp as [-> ->]. split; [cbn; lia|]. intros _. split; vm_compute; congruence.
    + intros _. split; vm_compute; congruence.
  - intros x [(i & p & Hp & _ & <- & _)|(i & p & k & t & Hp & _ & _ & Hk & Hu & _ & <-)]; apply arr_one in Hp as [-> ->].
    + split; [done|]. vm_compute. congruence.
    + apply ex_timers in Hk as (_ & [->|?] & _); [|congruence]. split; [done|]. vm_compute. congruence.
Defined.

Example ex_tick :
  (s ← proc_timers_tick (λ _ s, s) ex_st 97; Some (timer s 0 0, tm_next s, t_pending <$> procs s))
  = Some (Some {| ex_timer with at_ := 107; over := 2 |}, 107, [2 ^ 33 + 2 ^ 13]).
Proof. reflexivity. Qed.

End Timer.
