(* ===== verification/Fs.v ===== *)
(** * The file tree (src/src/fs/fs.c)

    Every file of the system is a node in memory; volumes are read into the tree
    and written back from it.  A pointer to a node is its address, 0 is NULL, and
    following a pointer to a node that is not there is [None], so that a
    definition that runs to [Some] never used freed memory and never left a
    buffer.  The chain of the children of a directory ([child], [next]) is the
    list [n_child], the chain of the extra names of a node ([hn]) the list [n_hn].

    What the tree asks of other parts is recorded as events: the page cache
    (pcache.c), the volumes (ext2.c, fat.c), the owner of shared memory. *)

From S2P Require Import Prelude.

Module Fs.

(** ** Bytes *)

Definition str (s : string) : list Z := (λ c, Z.of_N (Ascii.N_of_ascii c)) <$> String.list_ascii_of_string s.

(** The C string that starts a buffer. *)
Fixpoint cstr (l : list Z) : list Z :=
  match l with [] => [] | c :: l => if c =? 0 then [] else c :: cstr l end.

Definition SL : Z := 47.

Fixpoint skip_slashes (p : list Z) : list Z :=
  match p with c :: p' => if c =? SL then skip_slashes p' else p | [] => [] end.

Definition eqs (a b : list Z) : bool := bool_decide (a = b).
Definition nonempty {A} (l : list A) : bool := match l with [] => false | _ => true end.

(** ** Nodes *)

Definition FS_NAME_MAX : Z := 128.
Definition FS_DEV_DISK : Z := 16.
Definition NBT : Z := 768.

Inductive fs_type_t := FS_FILE | FS_DIR | FS_LINK.

#[export] Instance fs_type_eq : EqDecision fs_type_t.
Proof. solve_decision. Defined.

(** [n_data] is the buffer; with [n_cap] 0 it is borrowed. *)
Record fs_node := Node {
  n_name : list Z; n_type : fs_type_t; n_parent : Z; n_child : list Z;
  n_data : option (list Z); n_size : Z; n_cap : Z;
  n_mode : Z; n_dev : Z; n_unlinked : bool; n_refs : Z; n_mtime : Z;
  n_mount : Z; n_lazy : Z; n_hl : Z; n_hn : list Z; n_xl : Z; n_pc : bool; n_bnd : bool; n_shadow : Z
}.

(** A mount alias: in namespace [b_ns], [b_dst] stands for [b_src]. *)
Record bind_t := Bind { b_src : Z; b_dst : Z; b_ns : Z }.

Inductive ev :=
  | EPcChanged (n : Z) | EPcFree (n : Z) | EExt2Dirty (m : Z) | EDirtyHook (m : Z) | ELazyHook (n : Z) | EFreeHook (n : Z).

(** [sup] is what the allocator is going to answer, 0 for NULL. *)
Record fs_t := FsT {
  nodes : gmap Z fs_node; root_ : Z; bt : list bind_t; recent : list Z; recent_i : Z; sup : list Z; evs : list ev
}.

(** What the running process and the rest of the system say: its mount namespace
    and root, the time, the read-only volumes, the hooks that are set. *)
Record env := Env {
  proc_mntns : Z; proc_root : Z; fs_now : Z; mnt_ro_id : Z → bool;
  lazy_hook : bool; dirty_hook : bool; free_hook : bool
}.

Definition get (s : fs_t) (n : Z) : option fs_node := nodes s !! n.
Definition put (s : fs_t) (n : Z) (x : fs_node) : fs_t := {| s with nodes := <[n := x]> (nodes s) |}.
Definition upd (s : fs_t) (n : Z) (f : fs_node → fs_node) : option fs_t := x ← get s n; Some (put s n (f x)).
Definition log (s : fs_t) (e : ev) : fs_t := {| s with evs := evs s ++ [e] |}.

Definition kmalloc (s : fs_t) : Z * fs_t :=
  match sup s with [] => (0, s) | a :: r => (a, {| s with sup := r |}) end.

(** Giving back what is not there is an error. *)
Definition kfree (s : fs_t) (n : Z) : option fs_t :=
  _ ← get s n; Some {| s with nodes := delete n (nodes s) |}.

(** More turns than any chain of parents has. *)
Definition turns (s : fs_t) : nat := S (size (nodes s)).

Definition is_dir (x : fs_node) : bool := bool_decide (n_type x = FS_DIR).
Definition is_link (x : fs_node) : bool := bool_decide (n_type x = FS_LINK).

Section fs.
Context (E : env) (junk : Z → list Z).

(** 0755 and 0644 *)
Definition new_node (nm : list Z) (ty : fs_type_t) (par : Z) : fs_node :=
  Node (take 127 nm) ty par [] None 0 0 (if bool_decide (ty = FS_DIR) then 0x1ED else 0x1A4) 0 false 0 (fs_now E)
       0 0 0 [] 0 false false 0.

Definition node_new (s : fs_t) (nm : list Z) (ty : fs_type_t) (par : Z) : Z * fs_t :=
  let '(n, s) := kmalloc s in
  if n =? 0 then (0, s) else (n, put s n (new_node nm ty par)).

Definition link_child (s : fs_t) (dir c : Z) : option fs_t :=
  upd s dir (λ d, {| d with n_child := c :: n_child d |}).

(** ** Telling the volume *)

Fixpoint dirty_up (k : nat) (s : fs_t) (n : Z) : option fs_t :=
  if n =? 0 then Some s
  else
    match k with
    | O => None
    | S k =>
        x ← get s n;
        let m := n_mount x in
        if nz m
        then Some (if mnt_ro_id E m || (16 <=? m) then s
                   else if 8 <=? m then log s (EExt2Dirty m)
                   else if dirty_hook E then log s (EDirtyHook m) else s)
        else dirty_up k s (n_parent x)
    end.

Definition fs_dirty (s : fs_t) (n : Z) : option fs_t := dirty_up (turns s) s n.

Definition fs_touch (s : fs_t) (n : Z) : option fs_t :=
  s ← (if n =? 0 then Some s else x ← get s n; Some (if n_pc x then log s (EPcChanged n) else s));
  fs_dirty s n.

(** ** Children and aliases *)

Fixpoint chain_find (s : fs_t) (l : list Z) (nm : list Z) : option Z :=
  match l with
  | [] => Some 0
  | c :: l => x ← get s c; if eqs (n_name x) nm then Some c else chain_find s l nm
  end.

Definition find_child (s : fs_t) (dir : Z) (nm : list Z) : option Z :=
  if dir =? 0 then Some 0
  else
    d ← get s dir;
    if negb (is_dir d) then Some 0
    else if eqs nm (str ".") then Some dir
    else if eqs nm (str "..") then Some (if nz (n_parent d) then n_parent d else dir)
    else chain_find s (n_child d) nm.

Definition fs_child := find_child.

Definition is_alias (n ns : Z) (b : bind_t) : bool := (b_dst b =? n) && (b_ns b =? ns).

Definition alias_of (s : fs_t) (n ns : Z) : Z :=
  match find (is_alias n ns) (bt s) with Some b => b_src b | None => n end.

Definition fs_bind_ns (s : fs_t) (src dst ns : Z) : option (Z * fs_t) :=
  match find_from 0 (is_alias dst ns) (bt s) with
  | Some i => b ← (bt s).[i]; l ← (bt s).[i <- {| b with b_src := src |}]; Some (0, {| s with bt := l |})
  | None =>
      match find_from 0 (λ b, b_dst b =? 0) (bt s) with
      | None => Some (-1, s)
      | Some i =>
          l ← (bt s).[i <- Bind src dst (u8 ns)];
          s ← upd {| s with bt := l |} dst (λ d, {| d with n_bnd := true |});
          Some (0, s)
      end
  end.

Definition fs_alias (s : fs_t) (n : Z) : option Z :=
  x ← get s n; Some (if n_bnd x then alias_of s n (proc_mntns E) else n).

Definition fs_bind (s : fs_t) (src dst : Z) : option (Z * fs_t) := fs_bind_ns s src dst (proc_mntns E).

Definition fs_unbind (s : fs_t) (dst ns : Z) : fs_t :=
  {| s with bt := (λ b, if is_alias dst ns b then {| b with b_dst := 0 |} else b) <$> bt s |}.

Definition fs_bind_copy (s : fs_t) (from to : Z) : option fs_t :=
  each (λ i s, b ← (bt s).[i];
          if nz (b_dst b) && (b_ns b =? from) then '(_, s) ← fs_bind_ns s (b_src b) (b_dst b) to; Some s else Some s)
       (upto NBT) s.

(** The target, where to go on, the state. *)
Definition fs_bind_drop (s : fs_t) (ns from : Z) : option (Z * Z * fs_t) :=
  match find_from from (λ b, nz (b_dst b) && (b_ns b =? ns)) (drop (Z.to_nat from) (bt s)) with
  | None => Some (0, from, s)
  | Some i => b ← (bt s).[i]; l ← (bt s).[i <- {| b with b_dst := 0 |}]; Some (b_src b, i + 1, {| s with bt := l |})
  end.

Definition fs_new_file (s : fs_t) (nm : list Z) : Z * fs_t := node_new s nm FS_FILE 0.
Definition fs_new_dir (s : fs_t) (nm : list Z) (par : Z) : Z * fs_t := node_new s nm FS_DIR par.

(** ** Looking up a path *)

(** What a symbolic link puts in front of the rest: [char tmp[1024]]. *)
Definition link_path (x : fs_node) (rest : list Z) : option (list Z) :=
  d ← n_data x;
  if Z.of_nat (length d) <? Z.min (n_size x) 1000 then None
  else
    let t := take (Z.to_nat (Z.min (n_size x) 1000)) d in
    let t := if nonempty rest && (Z.of_nat (length t) <? 1000) then t ++ [SL] else t in
    Some (cstr (t ++ take (1022 - length t) rest)).

(** One name of a path, [p] is what follows: the end of the search, or the next
    directory.  [jump] resolves the path that a symbolic link gives. *)
Definition segment (jump : Z → list Z → option Z) (s : fs_t) (follow : bool) (depth : Z) (dent : bool) (rt : Z)
    (p part : list Z) (dir : Z) : option (Z + Z) :=
  cur ← (if (dir =? rt) && eqs part (str "..") then Some dir else find_child s dir part);
  if cur =? 0 then Some (inl 0)
  else
    x ← get s cur;
    let cur := if n_bnd x then alias_of s cur (proc_mntns E) else cur in
    let rest := skip_slashes p in
    x ← get s cur;
    let cur := if nz (n_hl x) && (nonempty rest || follow || negb dent) then n_hl x else cur in
    x ← get s cur;
    if is_link x && (nonempty rest || follow)
    then
      if (8 <? depth) || negb (bool_decide (is_Some (n_data x))) then Some (inl 0)
      else t ← link_path x rest; r ← jump dir t; Some (inl r)
    else Some (inr cur).

(** A name longer than its buffer loses its tail. *)
Definition push (part : list Z) (c : Z) : list Z :=
  if Z.of_nat (length part) <? FS_NAME_MAX - 1 then part ++ [c] else part.

Fixpoint walk (jump : Z → list Z → option Z) (s : fs_t) (follow : bool) (depth : Z) (dent : bool) (rt : Z)
    (p part : list Z) (cur : Z) : option Z :=
  match p with
  | [] =>
      if nonempty part
      then o ← segment jump s follow depth dent rt [] part cur; Some (match o with inl r => r | inr cur => cur end)
      else Some cur
  | c :: p' =>
      if c =? SL
      then
        if nonempty part
        then
          o ← segment jump s follow depth dent rt p part cur;
          match o with inl r => Some r | inr cur => walk jump s follow depth dent rt p' [] cur end
        else walk jump s follow depth dent rt p' [] cur
      else walk jump s follow depth dent rt p' (push part c) cur
  end.

Definition proc_rt (s : fs_t) : Z := if nz (proc_root E) then proc_root E else root_ s.

(** [fuel] bounds the symbolic links on the way: more than nine are refused. *)
Fixpoint resolve_n (fuel : nat) (s : fs_t) (cwd : Z) (path : list Z) (follow : bool) (depth : Z) (dent : bool) : option Z :=
  match fuel with
  | O => None
  | S fuel =>
      match path with
      | [] => Some cwd
      | c :: p =>
          walk (λ dir t, resolve_n fuel s dir t follow (depth + 1) false) s follow depth dent (proc_rt s)
            (if c =? SL then p else path) [] (if c =? SL then proc_rt s else cwd)
      end
  end.

Definition resolve (s : fs_t) (cwd : Z) (path : list Z) (follow dent : bool) : option Z :=
  resolve_n 10 s cwd path follow 0 dent.

Definition fs_need (s : fs_t) (n : Z) : option fs_t :=
  if n =? 0 then Some s
  else
    l ← (recent s).[Z.land (recent_i s) 7 <- n];
    let s := {| s with recent := l; recent_i := i32 (recent_i s + 1) |} in
    x ← get s n;
    Some (if nz (n_lazy x) && lazy_hook E then log s (ELazyHook n) else s).

Definition fs_recent (s : fs_t) (n : Z) : bool := existsb (Z.eqb n) (recent s).

(** A whole subtree; the children are read after the node. *)
Fixpoint need_tree (k : nat) (s : fs_t) (n : Z) : option fs_t :=
  match k with
  | O => None
  | S k =>
      s ← fs_need s n;
      x ← get s n;
      if is_dir x then each (λ c s, need_tree k s c) (n_child x) s else Some s
  end.

Definition fs_need_tree (s : fs_t) (n : Z) : option fs_t := need_tree (turns s) s n.

Fixpoint owner_up (k : nat) (s : fs_t) (n : Z) : option Z :=
  if n =? 0 then Some (root_ s)
  else
    match k with
    | O => None
    | S k => x ← get s n; if nz (n_mount x) || (n_parent x =? 0) then Some n else owner_up k s (n_parent x)
    end.

Definition fs_owner (s : fs_t) (n : Z) : option Z := owner_up (turns s) s n.

Definition fs_resolve (s : fs_t) (cwd : Z) (path : list Z) : option (Z * fs_t) :=
  n ← resolve s cwd path true false; s ← fs_need s n; Some (n, s).

Definition fs_resolve_nf (s : fs_t) (cwd : Z) (path : list Z) : option (Z * fs_t) :=
  n ← resolve s cwd path false false; s ← fs_need s n; Some (n, s).

Definition fs_peek (s : fs_t) (cwd : Z) (path : list Z) (follow : bool) : option Z := resolve s cwd path follow false.
Definition fs_peek_d (s : fs_t) (cwd : Z) (path : list Z) : option Z := resolve s cwd path false true.

(** ** Names *)

Definition alloc_ok (s : fs_t) : bool * fs_t := let '(a, s) := kmalloc s in (nz a, s).

Definition fs_symlink (s : fs_t) (dir : Z) (nm target : list Z) : option (Z * fs_t) :=
  if dir =? 0 then Some (0, s)
  else
    d ← get s dir;
    if negb (is_dir d) then Some (0, s)
    else
      c ← find_child s dir nm;
      if nz c then Some (0, s)
      else
        let '(n, s) := node_new s nm FS_LINK dir in
        if n =? 0 then Some (0, s)
        else
          let '(ok, s) := alloc_ok s in
          if negb ok then s ← kfree s n; Some (0, s)
          else
            let len := Z.of_nat (length target) in
            s ← upd s n (λ x, {| x with n_data := Some (target ++ [0]); n_size := len; n_cap := len + 1; n_mode := 0x1FF |});
            s ← link_child s dir n;
            s ← fs_touch s dir;
            Some (n, s).

(** The directory goes into 256 bytes, the last name into 128. *)
Fixpoint last_slash (i : Z) (p : list Z) : Z :=
  match p with
  | [] => -1
  | c :: p => let r := last_slash (i + 1) p in if 0 <=? r then r else if c =? SL then i else -1
  end.

Definition split_dir_base (path : list Z) : option (list Z * list Z) :=
  let slash := last_slash 0 path in
  if slash <? 0 then Some ([], take 127 path)
  else
    let base := take 127 (drop (S (Z.to_nat slash)) path) in
    if slash =? 0 then Some ([SL], base)
    else if 256 <=? slash then None
    else Some (take (Z.to_nat slash) path, base).

Definition fs_create (s : fs_t) (cwd : Z) (path : list Z) (ty : fs_type_t) : option (Z * fs_t) :=
  '(dir, base) ← split_dir_base path;
  '(par, s) ← (if nonempty dir then fs_resolve s cwd dir else Some (cwd, s));
  if par =? 0 then Some (0, s)
  else
    d ← get s par;
    if negb (is_dir d) then Some (0, s)
    else
      c ← find_child s par base;
      if nz c then Some (0, s)
      else
        let '(n, s) := node_new s base ty par in
        if n =? 0 then Some (0, s)
        else
          s ← link_child s par n;
          s ← fs_touch s par;
          Some (n, s).

Definition fs_hlink (s : fs_t) (t dir : Z) (nm : list Z) : option (Z * fs_t) :=
  x ← get s t;
  let '(a, s) := node_new s nm (n_type x) dir in
  if a =? 0 then Some (-1, s)
  else
    s ← upd s a (λ y, {| y with n_hl := t |});
    s ← upd s t (λ x, {| x with n_hn := a :: n_hn x; n_xl := u16 (n_xl x + 1) |});
    s ← link_child s dir a;
    s ← upd s t (λ x, {| x with n_mtime := fs_now E |});
    s ← upd s dir (λ d, {| d with n_mtime := fs_now E |});
    s ← fs_touch s dir;
    Some (0, s).

Definition unchain (n : Z) (l : list Z) : list Z :=
  match find_from 0 (Z.eqb n) l with Some i => delete (Z.to_nat i) l | None => l end.

Definition fs_detach (s : fs_t) (n : Z) : option fs_t :=
  x ← get s n;
  let p := n_parent x in
  if p =? 0 then Some s
  else
    s ← fs_touch s p;
    s ← upd s p (λ d, {| d with n_child := unchain n (n_child d) |});
    s ← upd s n (λ x, {| x with n_parent := 0 |});
    upd s p (λ d, {| d with n_mtime := fs_now E |}).

Definition fs_attach (s : fs_t) (dir n : Z) : option fs_t :=
  s ← upd s n (λ x, {| x with n_parent := dir |});
  s ← link_child s dir n;
  s ← upd s dir (λ d, {| d with n_mtime := fs_now E |});
  fs_touch s dir.

(** The part of rename(2) that moves the node. *)
Definition rename_to (s : fs_t) (n dir : Z) (nm : list Z) : option fs_t :=
  s ← fs_detach s n;
  s ← upd s n (λ x, {| x with n_name := take 127 nm |});
  fs_attach s dir n.

Definition fs_data_free (s : fs_t) (n : Z) : option fs_t :=
  upd s n (λ x, {| x with n_data := None; n_cap := 0; n_lazy := 0 |}).

Definition fs_drop_name (s : fs_t) (n : Z) : option fs_t :=
  x ← get s n;
  if nz (n_hl x)
  then
    s ← upd s (n_hl x) (λ t, {| t with n_hn := unchain n (n_hn t); n_xl := u16 (n_xl t - 1) |});
    s ← fs_detach s n;
    kfree s n
  else
    match n_hn x with
    | a :: rest =>
        y ← get s a;
        s ← upd s n (λ x, {| x with n_hn := rest; n_xl := u16 (n_xl x - 1) |});
        s ← fs_detach s a;
        s ← kfree s a;
        s ← fs_detach s n;
        s ← upd s n (λ x, {| x with n_name := n_name y |});
        fs_attach s (n_parent y) n
    | [] =>
        s ← fs_detach s n;
        if 0 <? n_refs x then upd s n (λ x, {| x with n_unlinked := true |})
        else s ← fs_data_free (log s (EPcFree n)) n; kfree s n
    end.

Definition fs_unlink (s : fs_t) (cwd : Z) (path : list Z) : option (Z * fs_t) :=
  n ← resolve s cwd path false true;
  if (n =? 0) || (n =? root_ s) then Some (-1, s)
  else
    x ← get s n;
    if is_dir x && nonempty (n_child x) then Some (-1, s)
    else s ← fs_drop_name s n; Some (0, s).

(** An open file description more. *)
Definition fs_ref (s : fs_t) (n : Z) : option fs_t := upd s n (λ x, {| x with n_refs := i32 (n_refs x + 1) |}).

Definition fs_release (s : fs_t) (n : Z) : option fs_t :=
  if n =? 0 then Some s
  else
    s ← upd s n (λ x, {| x with n_refs := i32 (n_refs x - 1) |});
    x ← get s n;
    if 0 <? n_refs x then Some s
    else if n_unlinked x
    then
      let s := if free_hook E then log s (EFreeHook n) else s in
      s ← fs_data_free (log s (EPcFree n)) n;
      kfree s n
    else Some s.

(** ** Contents *)

(** [memcpy] into a buffer. *)
Definition blit (buf : list Z) (at' : Z) (bytes : list Z) : option (list Z) :=
  if Z.of_nat (length buf) <? at' + Z.of_nat (length bytes) then None
  else Some (take (Z.to_nat at') buf ++ bytes ++ drop (Z.to_nat at' + length bytes) buf).

Definition fs_set_static (s : fs_t) (n : Z) (bytes : list Z) : option fs_t :=
  s ← fs_data_free s n;
  s ← upd s n (λ x, {| x with n_data := Some bytes; n_size := Z.of_nat (length bytes); n_cap := 0; n_mtime := fs_now E |});
  fs_touch s n.

Definition fs_write (s : fs_t) (f : Z) (bytes : list Z) : option (Z * fs_t) :=
  if f =? 0 then Some (-1, s)
  else
    x ← get s f;
    if negb (bool_decide (n_type x = FS_FILE)) then Some (-1, s)
    else
      let len := Z.of_nat (length bytes) in
      '(ok, s) ← (if n_cap x <? len + 1
                  then
                    s ← fs_data_free s f;
                    let '(ok, s) := alloc_ok s in
                    s ← upd s f (λ x, if ok : bool then {| x with n_data := Some (junk (len + 64)); n_cap := len + 64 |}
                                      else {| x with n_data := None; n_cap := 0; n_size := 0 |});
                    Some (ok, s)
                  else Some (true, s));
      if negb ok then Some (-1, s)
      else
        x ← get s f;
        d ← n_data x;
        d ← blit d 0 (bytes ++ [0]);
        let s := put s f {| x with n_data := Some d; n_size := len; n_mtime := fs_now E |} in
        s ← fs_touch s f;
        Some (i32 len, s).

Definition fs_append (s : fs_t) (f : Z) (bytes : list Z) : option (Z * fs_t) :=
  if f =? 0 then Some (-1, s)
  else
    x ← get s f;
    if negb (bool_decide (n_type x = FS_FILE)) then Some (-1, s)
    else
      let len := Z.of_nat (length bytes) in
      let need := n_size x + len + 1 in
      '(ok, s) ← (if n_cap x <? need
                  then
                    let '(ok, s) := alloc_ok s in
                    if negb ok then Some (false, s)
                    else
                      nb ← match n_data x with
                           | Some d => if Z.of_nat (length d) <? n_size x then None else blit (junk (need + 64)) 0 (take (Z.to_nat (n_size x)) d)
                           | None => Some (junk (need + 64))
                           end;
                      s ← fs_data_free s f;
                      s ← upd s f (λ x, {| x with n_data := Some nb; n_cap := need + 64 |});
                      Some (true, s)
                  else Some (true, s));
      if negb ok then Some (-1, s)
      else
        x ← get s f;
        d ← n_data x;
        d ← blit d (n_size x) (bytes ++ [0]);
        let s := put s f {| x with n_data := Some d; n_size := n_size x + len; n_mtime := fs_now E |} in
        s ← fs_touch s f;
        Some (i32 len, s).

(** ** Paths of nodes *)

(** Up the tree until [rt] or past the top. *)
Fixpoint up_until (k : nat) (s : fs_t) (a rt : Z) : option Z :=
  if (a =? 0) || (a =? rt) then Some a
  else match k with O => None | S k => x ← get s a; up_until k s (n_parent x) rt end.

(** The nodes from [c] up to below [rt], at most [room]. *)
Fixpoint parts_up (room : nat) (s : fs_t) (c rt : Z) : option (list Z) :=
  if (c =? 0) || (c =? rt) then Some []
  else
    match room with
    | O => Some []
    | S room => x ← get s c; l ← parts_up room s (n_parent x) rt; Some (c :: l)
    end.

(** [tmp] holds 256 bytes: the slash is written without a test. *)
Definition put_part (s : fs_t) (tmp : list Z) (c : Z) : option (list Z) :=
  if 256 <=? Z.of_nat (length tmp) then None
  else x ← get s c; Some (tmp ++ SL :: take (255 - S (length tmp)) (n_name x)).

Fixpoint put_parts (s : fs_t) (tmp : list Z) (l : list Z) : option (list Z) :=
  match l with [] => Some tmp | c :: l => tmp ← put_part s tmp c; put_parts s tmp l end.

(** An alias under our root that shows [c], the last in the table. *)
Fixpoint alias_seen (s : fs_t) (c : Z) (l : list bind_t) : option (option bind_t) :=
  match l with
  | [] => Some None
  | b :: l =>
      if negb (b_ns b =? proc_mntns E) || (b_dst b =? 0) || negb (b_src b =? c) || (b_dst b =? c) then alias_seen s c l
      else d ← up_until (turns s) s (b_dst b) (proc_root E); if d =? 0 then alias_seen s c l else Some (Some b)
  end.

Fixpoint top_up (k : nat) (s : fs_t) (c : Z) : option (option (Z * bind_t)) :=
  if c =? 0 then Some None
  else
    match k with
    | O => None
    | S k =>
        o ← alias_seen s c (rev (bt s));
        match o with Some b => Some (Some (c, b)) | None => x ← get s c; top_up k s (n_parent x) end
    end.

(** What [strncpy(out, tmp, cap); out[cap-1] = 0] leaves. *)
Definition copy_out (tmp : list Z) (cap : Z) : option (list Z) :=
  if cap <=? 0 then None else Some (take (Z.to_nat (cap - 1)) tmp).

(** The string in [out]; the path of an alias is not one of an alias again. *)
Fixpoint fs_path_n (fuel : nat) (s : fs_t) (n cap : Z) : option (list Z) :=
  match fuel with
  | O => None
  | S fuel =>
      if n =? 0 then Some []
      else
        let finish tmp l := tmp ← put_parts s tmp (rev l); if 256 <=? Z.of_nat (length tmp) then None else copy_out tmp cap in
        a ← up_until (turns s) s n (proc_root E);
        top ← (if (a =? 0) && nz (proc_mntns E) then top_up (turns s) s n else Some None);
        match top with
        | Some (c, b) =>
            tmp ← fs_path_n fuel s (b_dst b) 256;
            let tmp := if Z.of_nat (length tmp) =? 1 then [] else tmp in
            l ← parts_up 64 s n c;
            if negb (nonempty l) && negb (nonempty tmp) then (if cap <? 2 then None else Some [SL]) else finish tmp l
        | None =>
            let rt := if a =? 0 then root_ s else proc_root E in
            if n =? rt then copy_out [SL] cap
            else l ← parts_up 64 s n rt; finish [] l
        end
  end.

Definition fs_path (s : fs_t) (n cap : Z) : option (list Z) := fs_path_n 2 s n cap.

(** Decimal digits. *)
Fixpoint utoa_n (k : nat) (v : Z) : list Z :=
  match k with O => [] | S k => (if v <? 10 then [] else utoa_n k (v / 10)) ++ [48 + v mod 10] end.
Definition utoa (v : Z) : list Z := utoa_n 10 v.

(** One line of mountinfo for alias [i]. *)
Definition bt_line (s : fs_t) (i : Z) (b : bind_t) : option (list Z) :=
  p ← fs_path s (b_dst b) 256;
  let t := utoa (100 + i) in
  let l := t ++ str " 1 0:" ++ t ++ str " / " ++ p ++ str " rw,relatime - tmpfs none rw" ++ [10] in
  if 320 <=? Z.of_nat (length l) then None else Some l.

Fixpoint bt_lines (s : fs_t) (ns cap i : Z) (l : list bind_t) (out : list Z) : option (list Z) :=
  match l with
  | [] => Some out
  | b :: l =>
      if (b_dst b =? 0) || negb (b_ns b =? ns) then bt_lines s ns cap (i + 1) l out
      else
        x ← bt_line s i b;
        if cap <=? Z.of_nat (length out) + Z.of_nat (length x) then Some out else bt_lines s ns cap (i + 1) l (out ++ x)
  end.

Definition fs_bt_info (s : fs_t) (ns cap : Z) : option (list Z) :=
  let out := str "1 0 0:1 / / rw - rootfs rootfs rw" ++ [10] in
  if cap <=? Z.of_nat (length out) then None else bt_lines s ns cap 0 (bt s) out.

(** ** Mount points *)

Fixpoint take_part (k : nat) (p : list Z) : list Z :=
  match k, p with
  | S k, c :: p => if c =? SL then [] else c :: take_part k p
  | _, _ => []
  end.

(** A private first level of the directory that alias [dent] shows. *)
Definition copy_up (s : fs_t) (cur dent ns : Z) : option (Z * fs_t) :=
  d ← get s dent;
  let '(sh, s) := node_new s (n_name d) FS_DIR (n_parent d) in
  x ← get s cur;
  s ← upd s sh (λ y, {| y with n_shadow := 1; n_mode := n_mode x |});
  x ← get s cur;
  s ← each (λ c s,
         y ← get s c;
         if nz (n_hl y) then Some s
         else
           let '(k, s) := node_new s (n_name y) (n_type y) sh in
           s ← upd s k (λ z, {| z with n_mode := n_mode y; n_shadow := 1 |});
           s ← link_child s sh k;
           '(_, s) ← fs_bind_ns s (alias_of s c ns) k ns;
           Some s) (n_child x) s;
  '(_, s) ← fs_bind_ns s sh dent ns;
  Some (sh, s).

Fixpoint mp_go (k : nat) (s : fs_t) (cwd : Z) (path : list Z) (cp : bool) (p : list Z) (cur dent : Z) : option (Z * fs_t) :=
  match k with
  | O => None
  | S k =>
      let ns := proc_mntns E in
      let rt := proc_rt s in
      let p := skip_slashes p in
      if negb (nonempty p) then Some (if nz dent && (cur =? alias_of s dent ns) then dent else cur, s)
      else
        let part := take_part 127 p in
        let p := drop (length part) p in
        let last := forallb (Z.eqb SL) p in
        if eqs part (str ".") then mp_go k s cwd path cp p cur dent
        else if eqs part (str "..")
        then
          if cur =? rt then mp_go k s cwd path cp p cur dent
          else x ← get s cur; mp_go k s cwd path cp p (if nz (n_parent x) then n_parent x else cur) dent
        else
          nx ← find_child s cur part;
          if nx =? 0 then Some (0, s)
          else
            x ← get s nx;
            let nx := if nz (n_hl x) then n_hl x else nx in
            x ← get s nx;
            if last
            then
              if is_link x then fs_resolve s cwd path
              else if cp && nz dent && (cur =? alias_of s dent ns)
              then
                d ← get s dent;
                y ← get s cur;
                if is_dir d && negb (nz (n_shadow y))
                then
                  '(sh, s) ← copy_up s cur dent ns;
                  nx ← find_child s sh part;
                  if nz nx then Some (nx, s) else Some (node_new s part FS_DIR sh)
                else Some (nx, s)
              else Some (nx, s)
            else if is_link x
            then
              '(t, s) ← fs_resolve s cur part;
              if t =? 0 then Some (0, s) else mp_go k s cwd path cp p t 0
            else
              let a := if n_bnd x then alias_of s nx ns else nx in
              mp_go k s cwd path cp p a (if a =? nx then dent else nx)
  end.

Definition mp_walk (s : fs_t) (cwd : Z) (path : list Z) (cp : bool) (d0 : Z) : option (Z * fs_t) :=
  let abs := match path with c :: _ => c =? SL | [] => false end in
  let go := mp_go (S (length path)) s cwd path cp path in
  if nz d0 && negb abs then go (alias_of s d0 (proc_mntns E)) d0 else go (if abs then proc_rt s else cwd) 0.

Definition fs_mp (s : fs_t) (cwd : Z) (path : list Z) : option (Z * fs_t) := mp_walk s cwd path true 0.
Definition fs_dent (s : fs_t) (cwd : Z) (path : list Z) (d0 : Z) (cp : bool) : option (Z * fs_t) := mp_walk s cwd path cp d0.

(** ** The first tree *)

Definition devs : list (string * Z) :=
  [("null", 1); ("zero", 2); ("full", 2); ("tty", 3); ("console", 3); ("random", 4); ("urandom", 4);
   ("fb0", 5); ("input-all", 6); ("ptmx", 7); ("input-kbd", 9); ("input-mouse", 10); ("rtc0", 101); ("rtc", 101)]%string.

(** A node with [f] done to it, linked into its directory. *)
Definition mk (s : fs_t) (nm : list Z) (ty : fs_type_t) (dir : Z) (f : fs_node → fs_node) : option (Z * fs_t) :=
  let '(n, s) := node_new s nm ty dir in
  s ← upd s n f; s ← link_child s dir n; Some (n, s).

Fixpoint mk_devs (s : fs_t) (dev : Z) (l : list (string * Z)) : option fs_t :=
  match l with
  | [] => Some s
  | (nm, d) :: l => '(_, s) ← mk s (str nm) FS_FILE dev (λ x, {| x with n_dev := d; n_mode := 0x1B6 |}); mk_devs s dev l
  end.

Definition with_text (x : fs_node) (bytes : list Z) : fs_node :=
  let len := Z.of_nat (length bytes) in {| x with n_size := len; n_cap := len + 1; n_data := Some (bytes ++ [0]) |}.

Definition readme : list Z :=
  str "Welcome to SamaraOS!" ++ [10] ++ str "Try: help, neofetch, ls, cat README.txt, nano notes.txt" ++ [10].

Definition fs_init (supply : list Z) : option fs_t :=
  let s := FsT ∅ 0 (replicate 768 (Bind 0 0 0)) (replicate 8 0) 0 supply [] in
  let '(r, s) := node_new s (str "/") FS_DIR 0 in
  let s := {| s with root_ := r |} in
  let '(home, s) := node_new s (str "home") FS_DIR r in
  let '(etc, s) := node_new s (str "etc") FS_DIR r in
  let '(tmp, s) := node_new s (str "tmp") FS_DIR r in
  s ← link_child s r tmp;
  s ← link_child s r etc;
  s ← link_child s r home;
  '(dev, s) ← mk s (str "dev") FS_DIR r (λ x, x);
  s ← mk_devs s dev devs;
  '(_, s) ← mk s (str "pts") FS_DIR dev (λ x, x);
  '(_, s) ← mk s (str "shm") FS_DIR dev (λ x, x);
  '(user, s) ← mk s (str "user") FS_DIR home (λ x, x);
  let '(n, s) := node_new s (str "README.txt") FS_FILE user in
  let '(b, s) := kmalloc s in
  s ← (if b =? 0 then None else upd s n (λ x, with_text x readme));
  s ← link_child s user n;
  let '(n, s) := node_new s (str "hostname") FS_FILE etc in
  let '(b, s) := kmalloc s in
  s ← (if b =? 0 then None else upd s n (λ x, with_text x (str "samara" ++ [10])));
  link_child s etc n.

(** The disks that are there, each under its name; it stops when memory runs out. *)
Definition fs_add_disk_nodes (present : Z → bool) (dname : Z → list Z) (all : Z) (s : fs_t) : option fs_t :=
  '(dev, s) ← fs_resolve s (root_ s) (str "/dev");
  if dev =? 0 then Some s
  else
    '(_, s) ← each (λ i '(go, s),
        if negb go then Some (false, s)
        else if negb (present i) then Some (true, s)
        else
          c ← find_child s dev (dname i);
          if nz c then Some (true, s)
          else
            let '(d, s) := node_new s (dname i) FS_FILE dev in
            if d =? 0 then Some (false, s)
            else
              s ← upd s d (λ x, {| x with n_dev := u8 (FS_DEV_DISK + i); n_mode := 0x1B0 |});
              s ← link_child s dev d;
              Some (true, s)) (upto all) (true, s);
    Some s.

End fs.
End Fs.
