(* ===== verification/FsTree.v ===== *)
(** * The file tree keeps its shape

    The invariant of the tree of [Fs]: parents exist and lead to the top, the
    chains of children and of extra names match the nodes, names are unique in
    a directory, buffers hold what the sizes say.  Every operation completes and
    keeps it, and acts on the names and contents as its specification says. *)

From S2P Require Import Prelude Fs.

Module FsTree.
Import Fs.

(** ** The shape of the tree *)

Abbreviation tree := (gmap Z fs_node).

(** The way up from a node. *)
Inductive ups (m : tree) : Z → list Z → Prop :=
  | ups_top : ups m 0 []
  | ups_up n x l : n ≠ 0 → m !! n = Some x → ups m (n_parent x) l → ups m n (n :: l).

(** A buffer holds its size and, when owned, a NUL behind it. *)
Record data_ok (x : fs_node) : Prop := {
  d_size : 0 ≤ n_size x;
  d_data : ∀ d, n_data x = Some d → n_size x ≤ Z.of_nat (length d) ∧ (n_cap x ≠ 0 → Z.of_nat (length d) = n_cap x ∧ n_size x < n_cap x);
  d_cap : 0 ≤ n_cap x;
  d_none : n_data x = None → n_cap x = 0
}.

(** [o] is a node on its way between two places, 0 for none. *)
Record wf (o : Z) (m : tree) (root : Z) : Prop := {
  w_null : m !! 0 = None;
  w_root : ∃ r, m !! root = Some r ∧ is_dir r = true ∧ n_parent r = 0;
  w_ups : ∀ n x, m !! n = Some x → ∃ l, ups m n l;
  w_parent : ∀ n x, m !! n = Some x → n_parent x ≠ 0 → ∃ d, m !! n_parent x = Some d ∧ is_dir d = true;
  w_child : ∀ d x, m !! d = Some x → NoDup (n_child x) ∧ ∀ c, c ∈ n_child x ↔ ∃ y, m !! c = Some y ∧ n_parent y = d;
  w_uniq : ∀ a b x y, m !! a = Some x → m !! b = Some y → n_parent x ≠ 0 → n_parent y = n_parent x → n_name y = n_name x → a = b;
  w_hn : ∀ t x, m !! t = Some x → NoDup (n_hn x) ∧ n_xl x = Z.of_nat (length (n_hn x)) ∧ n_xl x < 2 ^ 16 ∧
    ∀ a, a ∈ n_hn x ↔ ∃ y, m !! a = Some y ∧ n_hl y = t;
  w_hl : ∀ n x, m !! n = Some x → n_hl x ≠ 0 → is_dir x = false ∧ n_refs x = 0 ∧ ∃ t, m !! n_hl x = Some t ∧ n_hl t = 0 ∧ n_type t = n_type x;
  w_data : ∀ n x, m !! n = Some x → data_ok x;
  w_refs : ∀ n x, m !! n = Some x → 0 ≤ n_refs x < 2 ^ 31;
  w_gone : ∀ n x, m !! n = Some x → n_parent x = 0 → n ≠ root → n ≠ o → n_unlinked x = true ∧ 0 < n_refs x ∧ n_hl x = 0 ∧ n_hn x = []
}.

(** ** Ways up *)

Lemma ups_det m n l : ups m n l → ∀ l', ups m n l' → l = l'.
Proof.
  induction 1 as [|n x l Hn Hx H IH]; intros l' H'; inversion H'; subst; try done. f_equal. apply IH.
  match goal with A : m !! n = Some ?y |- _ => assert (y = x) as -> by congruence end. done.
Qed.

Lemma ups_suffix m n l a : ups m n l → a ∈ l → ∃ l', ups m a l' ∧ (length l' ≤ length l)%nat.
Proof.
  induction 1 as [|n x l Hn Hx H IH]; intros Ha; [by apply not_elem_of_nil in Ha|]. apply elem_of_cons in Ha as [->|Ha].
  - exists (n :: l). split; [by econstructor|done].
  - destruct (IH Ha) as (l' & ? & ?). exists l'. split; [done|]. cbn. lia.
Qed.

Lemma ups_nodup m n l : ups m n l → NoDup l.
Proof.
  induction 1 as [|n x l Hn Hx H IH]; constructor; [|done]. intros Hin. destruct (ups_suffix _ _ _ _ H Hin) as (l' & H' & Hl).
  assert (l' = n :: l) as -> by (eapply ups_det; [exact H'|by econstructor]). cbn in Hl. lia.
Qed.

Lemma ups_elem m n l a : ups m n l → a ∈ l → is_Some (m !! a).
Proof.
  induction 1 as [|n x l Hn Hx H IH]; intros Ha; [by apply not_elem_of_nil in Ha|]. apply elem_of_cons in Ha as [->|Ha]; [by eexists|auto].
Qed.

Lemma ups_length m n l : ups m n l → (length l ≤ size m)%nat.
Proof.
  intros H. rewrite <- (size_dom (D := gset Z)). rewrite <- (size_list_to_set (C := gset Z) l) by (by eapply ups_nodup).
  apply subseteq_size. intros a Ha. apply elem_of_list_to_set in Ha. apply elem_of_dom. by eapply ups_elem.
Qed.

Lemma ups_inv m n x l : ups m n l → n ≠ 0 → m !! n = Some x → ∃ l', l = n :: l' ∧ ups m (n_parent x) l'.
Proof. intros H Hn Hx. inversion H; simplify_eq. eauto. Qed.

Lemma ups_no_self m n x l : n ≠ 0 → m !! n = Some x → ups m n l → n_parent x ≠ n.
Proof.
  intros Hn Hx Hl E. destruct (ups_inv _ _ _ _ Hl Hn Hx) as (l' & -> & Hl'). rewrite E in Hl'.
  pose proof (ups_det _ _ _ Hl _ Hl') as El. apply (f_equal length) in El. cbn in El. lia.
Qed.

(** Ways up in another tree. *)
Lemma ups_map m m' (P : Z → Prop) :
  (∀ k x, m !! k = Some x → P k → (∃ l, ups m' k l) ∨
    (∃ x', m' !! k = Some x' ∧ n_parent x' = n_parent x ∧ (n_parent x ≠ 0 → P (n_parent x)))) →
  ∀ n l, ups m n l → (n ≠ 0 → P n) → ∃ l', ups m' n l'.
Proof.
  intros Hm n l. induction 1 as [|n x l Hn Hx H IH]; intros HP; [exists []; constructor|].
  destruct (Hm n x Hx (HP Hn)) as [?|(x' & Hx' & E & HP')]; [done|]. destruct (IH HP') as [l' H']. exists (n :: l').
  econstructor; [done|done|]. by rewrite E.
Qed.

(** A loop up the tree has turns enough. *)
Lemma turns_up s n l : ups (nodes s) n l → (length l < turns s)%nat.
Proof. intros H%ups_length. unfold turns. lia. Qed.
(** ** Changes that keep the shape *)

(** Everything of a node that the shape speaks about. *)
Definition shape (x : fs_node) :=
  (n_name x, n_type x, n_parent x, n_child x, n_hl x, n_hn x, n_xl x).

Ltac shapes :=
  repeat match goal with H : shape ?x = shape ?y |- _ =>
    let E1 := fresh "Sn" in let E2 := fresh "St" in let E3 := fresh "Sp" in let E4 := fresh "Sc" in
    let E5 := fresh "Sl" in let E6 := fresh "Sh" in let E7 := fresh "Sx" in
    unfold shape in H; injection H as E1 E2 E3 E4 E5 E6 E7
  end.

(** What else may change in a node that keeps its shape. *)
Definition mild (o n : Z) (x x' : fs_node) : Prop :=
  shape x' = shape x ∧ data_ok x' ∧ 0 ≤ n_refs x' < 2 ^ 31 ∧ (n_hl x ≠ 0 → n_refs x' = n_refs x) ∧
  (n_parent x = 0 → n ≠ o → n_unlinked x = true → 0 < n_refs x → n_unlinked x' = true ∧ 0 < n_refs x').

Lemma is_dir_shape x y : shape x = shape y → is_dir x = is_dir y.
Proof. intros. shapes. unfold is_dir. by rewrite St. Qed.

Lemma lookup_mild o (m : tree) n x x' k y' :
  m !! n = Some x → mild o n x x' → <[n := x']> m !! k = Some y' →
  ∃ y, m !! k = Some y ∧ shape y' = shape y ∧ (y' = y ∨ (k = n ∧ y = x ∧ y' = x')).
Proof.
  intros Hx (Hs & _) Hk. destruct (decide (k = n)) as [->|Hne].
  - rewrite lookup_insert_eq in Hk. injection Hk as <-. exists x. split_and!; auto.
  - rewrite lookup_insert_ne in Hk by done. exists y'. auto.
Qed.

Lemma lookup_mild_rev o (m : tree) n x x' k y :
  m !! n = Some x → mild o n x x' → m !! k = Some y → ∃ y', <[n := x']> m !! k = Some y' ∧ shape y' = shape y.
Proof.
  intros Hx (Hs & _) Hk. destruct (decide (k = n)) as [->|Hne].
  - rewrite lookup_insert_eq. assert (y = x) as -> by congruence. by exists x'.
  - rewrite lookup_insert_ne by done. by exists y.
Qed.

Lemma wf_upd o m root n x x' : wf o m root → m !! n = Some x → mild o n x x' → wf o (<[n := x']> m) root.
Proof.
  intros W Hx M. pose proof (λ k y', lookup_mild o m n x x' k y' Hx M) as Hb. pose proof (λ k y, lookup_mild_rev o m n x x' k y Hx M) as Hf.
  split.
  - destruct (<[n := x']> m !! 0) as [y|] eqn:E; [|done]. destruct (Hb _ _ E) as (y0 & E0 & _). by rewrite (w_null _ _ _ W) in E0.
  - destruct (w_root _ _ _ W) as (r & Hr & Hd & Hp). destruct (Hf _ _ Hr) as (r' & Hr' & S). exists r'.
    rewrite (is_dir_shape _ _ S). shapes. by rewrite Sp.
  - intros k y Hk. destruct (Hb _ _ Hk) as (y0 & Hy0 & S). destruct (w_ups _ _ _ W _ _ Hy0) as [l Hl].
    eapply (ups_map m _ (λ _, True)); [|exact Hl|done]. intros k1 y1 Hk1 _. right. destruct (Hf _ _ Hk1) as (y2 & Hy2 & S2). exists y2. shapes. done.
  - intros k y Hk Hp. destruct (Hb _ _ Hk) as (y0 & Hy0 & S & _). shapes. rewrite Sp in *. destruct (w_parent _ _ _ W _ _ Hy0 Hp) as (d & Hd & Hdd).
    destruct (Hf _ _ Hd) as (d' & Hd' & S'). exists d'. rewrite (is_dir_shape _ _ S'). done.
  - intros d y Hd. destruct (Hb _ _ Hd) as (y0 & Hy0 & S & _). shapes. rewrite Sc. destruct (w_child _ _ _ W _ _ Hy0) as [H1 H2]. split; [done|].
    intros c. rewrite H2. split.
    + intros (z & Hz & E). destruct (Hf _ _ Hz) as (z' & Hz' & S'). exists z'. shapes. split; [done|congruence].
    + intros (z' & Hz' & E). destruct (Hb _ _ Hz') as (z & Hz & S' & _). exists z. shapes. split; [done|congruence].
  - intros a b y z Ha Hbb Hp E1 E2. destruct (Hb _ _ Ha) as (y0 & Hy0 & S1 & _). destruct (Hb _ _ Hbb) as (z0 & Hz0 & S2 & _). shapes.
    eapply (w_uniq _ _ _ W a b y0 z0); congruence.
  - intros k y Hk. destruct (Hb _ _ Hk) as (y0 & Hy0 & S & _). shapes. rewrite Sh, Sx. destruct (w_hn _ _ _ W _ _ Hy0) as (H1 & H2 & H3 & H4).
    split_and!; [done|done|done|]. intros a. rewrite H4. split.
    + intros (z & Hz & E). destruct (Hf _ _ Hz) as (z' & Hz' & S'). exists z'. shapes. split; [done|congruence].
    + intros (z' & Hz' & E). destruct (Hb _ _ Hz') as (z & Hz & S' & _). exists z. shapes. split; [done|congruence].
  - intros k y Hk Hhl. destruct (Hb _ _ Hk) as (y0 & Hy0 & S & Hor). pose proof (is_dir_shape _ _ S) as ->. shapes. rewrite Sl in *.
    destruct (w_hl _ _ _ W _ _ Hy0 Hhl) as (H1 & H2 & tt & H3 & H4 & H5). split_and!; [done| |].
    + destruct Hor as [->|(-> & -> & ->)]; [done|]. destruct M as (_ & _ & _ & Hr & _). rewrite Hr; done.
    + destruct (Hf _ _ H3) as (t' & Ht' & S'). exists t'. shapes. split_and!; congruence.
  - intros k y Hk. destruct (Hb _ _ Hk) as (y0 & Hy0 & S & [->|(-> & -> & ->)]); [by eapply w_data|apply M].
  - intros k y Hk. destruct (Hb _ _ Hk) as (y0 & Hy0 & S & [->|(-> & -> & ->)]); [by eapply w_refs|apply M].
  - intros k y Hk Hp Hr Ho. destruct (Hb _ _ Hk) as (y0 & Hy0 & S & Hor). shapes. rewrite Sp in Hp. rewrite Sl, Sh.
    destruct (w_gone _ _ _ W _ _ Hy0 Hp Hr Ho) as (G1 & G2 & G3 & G4).
    destruct Hor as [->|(-> & -> & ->)]; [done|]. destruct M as (_ & _ & _ & _ & Hg). destruct (Hg Hp Ho G1 G2). done.
Qed.

(** Only what the shape and the contents do not speak about. *)
Definition same (x x' : fs_node) : Prop :=
  shape x' = shape x ∧ n_data x' = n_data x ∧ n_size x' = n_size x ∧ n_cap x' = n_cap x ∧ n_refs x' = n_refs x ∧ n_unlinked x' = n_unlinked x.

Lemma same_mild o n x x' : same x x' → data_ok x → 0 ≤ n_refs x < 2 ^ 31 → mild o n x x'.
Proof.
  intros (S & E1 & E2 & E3 & E4 & E5) [D1 D2 D3 D4] Hr. split_and!; try done; rewrite ?E4, ?E5; try done; try lia.
  - split; rewrite ?E1, ?E2, ?E3; done.
Qed.

Lemma wf_same o m root n x x' : wf o m root → m !! n = Some x → same x x' → wf o (<[n := x']> m) root.
Proof. intros W Hx Hs. eapply wf_upd; [done|done|]. eapply same_mild; [done|by eapply w_data|by eapply w_refs]. Qed.

(** ** Telling the volume changes no node *)

Lemma dirty_up_ok E s n l k : ups (nodes s) n l → (length l ≤ k)%nat → ∃ e, dirty_up E k s n = Some {| s with evs := e |}.
Proof.
  intros H. revert k. induction H as [|n x l Hn Hx H IH]; intros k Hk.
  { exists (evs s). destruct k, s; done. }
  destruct k as [|k]; cbn in Hk; [lia|]. cbn [dirty_up]. rewrite (proj2 (Z.eqb_neq n 0)) by done. unfold get. rewrite Hx. cbn [mbind option_bind].
  destruct (nz (n_mount x)).
  - unfold log. destruct (_ || _); [exists (evs s); by destruct s|]. destruct (8 <=? _); [by eexists|]. destruct (dirty_hook E); [by eexists|exists (evs s); by destruct s].
  - apply IH. lia.
Qed.

Lemma touch_ok E s n l : ups (nodes s) n l → ∃ e, fs_touch E s n = Some {| s with evs := e |}.
Proof.
  intros H. unfold fs_touch, fs_dirty. inversion H as [|? x l' Hn Hx Hu]; subst.
  - exists (evs s). by destruct s.
  - rewrite (proj2 (Z.eqb_neq n 0)) by done. unfold get. rewrite Hx. cbn [mbind option_bind].
    destruct (n_pc x).
    + destruct (dirty_up_ok E (log s (EPcChanged n)) n (n :: l') (turns (log s (EPcChanged n)))) as [e He]; [exact H|unfold turns; apply ups_length in H; cbn in *; lia|].
      rewrite He. exists e. done.
    + apply (dirty_up_ok E s n (n :: l')); [done|]. unfold turns. apply ups_length in H. cbn in *. lia.
Qed.

(** ** A new leaf *)

(** A node fresh from [node_new] with data in it. *)
Record leaf (x : fs_node) : Prop := {
  lf_child : n_child x = []; lf_hl : n_hl x = 0; lf_hn : n_hn x = []; lf_xl : n_xl x = 0; lf_refs : n_refs x = 0; lf_data : data_ok x
}.

Definition with_child (d : fs_node) (l : list Z) : fs_node := {| d with n_child := l |}.

(** [nm] is not used in directory [d]. *)
Definition unused (m : tree) (d : Z) (nm : list Z) : Prop := ∀ k y, m !! k = Some y → n_parent y = d → n_name y ≠ nm.

Section add.
Context (m : tree) (root n par : Z) (x d : fs_node).
Hypothesis W : wf 0 m root.
Hypothesis Hfresh : m !! n = None.
Hypothesis Hn : n ≠ 0.
Hypothesis Hd : m !! par = Some d.
Hypothesis Hdir : is_dir d = true.
Hypothesis Hx : leaf x.
Hypothesis Hp : n_parent x = par.
Hypothesis Hu : unused m par (n_name x).

Let m' : tree := <[par := with_child d (n :: n_child d)]> (<[n := x]> m).

Lemma add_back k y' : m' !! k = Some y' → (k = n ∧ y' = x) ∨ (k = par ∧ y' = with_child d (n :: n_child d)) ∨ (k ≠ n ∧ k ≠ par ∧ m !! k = Some y').
Proof using Type.
  unfold m'. rewrite !lookup_insert. destruct (decide (par = k)) as [<-|]; [intros [= <-]; auto|].
  destruct (decide (n = k)) as [<-|]; [intros [= <-]; auto|]. intros H. right. right. auto.
Qed.

Lemma add_forw k y : m !! k = Some y → k ≠ n ∧ ((k = par ∧ y = d ∧ m' !! k = Some (with_child d (n :: n_child d))) ∨ (k ≠ par ∧ m' !! k = Some y)).
Proof using Hfresh Hd.
  intros Hk. assert (k ≠ n) as Hkn by congruence. split; [done|]. unfold m'. rewrite !lookup_insert.
  destruct (decide (par = k)) as [<-|]; [left; split_and!; [done|congruence|done]|]. rewrite decide_False by done. right. auto.
Qed.

Lemma add_new : m' !! n = Some x.
Proof using Hfresh Hd. unfold m'. rewrite lookup_insert_ne by congruence. apply lookup_insert_eq. Qed.

(** The other nodes are what they were, the directory but for its children. *)
Lemma add_old k y' : k ≠ n → m' !! k = Some y' → ∃ y, m !! k = Some y ∧ y' = (if decide (k = par) then with_child y (n :: n_child y) else y).
Proof using Hd.
  intros Hk [[-> _]|[[-> ->]|(_ & Hkp & Hy)]]%add_back; [done| |].
  - exists d. by rewrite decide_True.
  - exists y'. by rewrite decide_False.
Qed.

Lemma add_img k y : m !! k = Some y → m' !! k = Some (if decide (k = par) then with_child y (n :: n_child y) else y).
Proof using Hfresh Hd. intros [_ [(-> & -> & H)|[Hne H]]]%add_forw; [by rewrite decide_True|by rewrite decide_False]. Qed.

Lemma par_ne : par ≠ 0 ∧ par ≠ n.
Proof using W Hfresh Hd.
  split; intros E0; [|congruence]. pose proof (w_null _ _ _ W) as H0. rewrite E0 in Hd. congruence.
Qed.

Ltac old H := let y := fresh "y" in let Hy := fresh "Hy" in apply add_old in H as (y & Hy & ->); [|done].

Lemma add_ok : wf 0 m' root.
Proof using W Hfresh Hn Hd Hdir Hx Hp Hu.
  pose proof par_ne as [Hp0 Hpn]. pose proof add_new as Hnew.
  assert (∀ (P : fs_node → Prop) k y, P y → (∀ l, P y → P (with_child y l)) → P (if decide (k = par) then with_child y (n :: n_child y) else y)) as Hif
    by (intros P k y H1 H2; case_decide; auto).
  split.
  - destruct (m' !! 0) as [y|] eqn:E; [|done]. apply add_back in E as [[? _]|[[? _]|(_ & _ & E)]]; [done|done|]. by rewrite (w_null _ _ _ W) in E.
  - destruct (w_root _ _ _ W) as (r & Hr & H1 & H2). eexists. split; [by apply add_img|]. by case_decide.
  - assert (∀ k y, m !! k = Some y → ∃ l, ups m' k l) as Hold.
    { intros k y Hk. destruct (w_ups _ _ _ W _ _ Hk) as [l Hl]. eapply (ups_map m _ (λ _, True)); [|exact Hl|done].
      intros k1 y1 Hk1 _. right. eexists. split; [by apply add_img|]. by case_decide. }
    intros k y Hk. destruct (decide (k = n)) as [->|Hkn]; [|old Hk; by eapply Hold].
    assert (y = x) as -> by congruence. destruct (Hold _ _ Hd) as [l Hl]. exists (n :: l). econstructor; [done|done|]. by rewrite Hp.
  - intros k y Hk Hpk. destruct (decide (k = n)) as [->|Hkn].
    + assert (y = x) as -> by congruence. rewrite Hp. eexists. split; [by apply add_img|]. by case_decide.
    + old Hk. assert (n_parent y0 ≠ 0) as H0 by (revert Hpk; by case_decide). destruct (w_parent _ _ _ W _ _ Hy H0) as (dd & H1 & H2).
      replace (n_parent (if decide (k = par) then _ else _)) with (n_parent y0) by (by case_decide). eexists. split; [by apply add_img|]. clear Hpk. by case_decide.
  - intros k y Hk. destruct (decide (k = n)) as [->|Hkn].
    + assert (y = x) as -> by congruence. rewrite (lf_child _ Hx). split; [constructor|]. intros c. split; [by intros ?%not_elem_of_nil|].
      intros (z & Hz & Ez). destruct (decide (c = n)) as [->|Hcn]; [assert (z = x) as -> by congruence; congruence|]. old Hz.
      assert (n_parent y = n) as E by (revert Ez; by case_decide). destruct (w_parent _ _ _ W _ _ Hy) as (? & ? & _); congruence.
    + old Hk. destruct (w_child _ _ _ W _ _ Hy) as [H1 H2].
      assert (∀ c, (∃ z, m' !! c = Some z ∧ n_parent z = k) ↔ c ∈ n_child y0 ∨ (c = n ∧ k = par)) as Hc.
      { intros c. rewrite H2. split.
        - intros (z & Hz & Ez). destruct (decide (c = n)) as [->|Hcn]; [right; assert (z = x) as -> by congruence; split; congruence|]. left. old Hz.
          exists y. split; [done|]. revert Ez. by case_decide.
        - intros [(z & Hz & Ez)|[-> ->]]; [|by exists x]. eexists. split; [by apply add_img|]. by case_decide. }
      case_decide as Ek; cbn.
      * split; [constructor; [|done]; rewrite H2; intros (z & Hz & _); congruence|]. intros c. rewrite elem_of_cons, Hc. naive_solver.
      * split; [done|]. intros c. rewrite Hc. naive_solver.
  - intros a b y z Ha Hb Hpa Ep En. destruct (decide (a = n)) as [->|Han], (decide (b = n)) as [->|Hbn]; [done| | |].
    + assert (y = x) as -> by congruence. old Hb. destruct (Hu _ _ Hy); [revert Ep; case_decide; cbn; congruence|revert En; by case_decide].
    + assert (z = x) as -> by congruence. old Ha. destruct (Hu _ _ Hy); [revert Ep; case_decide; cbn; congruence|revert En; case_decide; cbn; congruence].
    + old Ha. old Hb. eapply (w_uniq _ _ _ W a b y0 y); try done; revert Hpa Ep En; repeat case_decide; done.
  - intros k y Hk. destruct (decide (k = n)) as [->|Hkn].
    + assert (y = x) as -> by congruence. rewrite (lf_hn _ Hx), (lf_xl _ Hx). split_and!; [constructor|done|done|]. intros a. split; [by intros ?%not_elem_of_nil|].
      intros (z & Hz & Ez). destruct (decide (a = n)) as [->|Hcn]; [assert (z = x) as -> by congruence; by rewrite (lf_hl _ Hx) in Ez|]. old Hz.
      assert (n_hl y = n) as E by (revert Ez; by case_decide). destruct (w_hl _ _ _ W _ _ Hy) as (_ & _ & ? & ? & _); congruence.
    + old Hk. destruct (w_hn _ _ _ W _ _ Hy) as (H1 & H2 & H3 & H4).
      assert (∀ a, (∃ z, m' !! a = Some z ∧ n_hl z = k) ↔ a ∈ n_hn y0) as Ha.
      { intros a. rewrite H4. split.
        - intros (z & Hz & Ez). destruct (decide (a = n)) as [->|Hcn].
          + assert (z = x) as -> by congruence. rewrite (lf_hl _ Hx) in Ez. subst k. by rewrite (w_null _ _ _ W) in Hy.
          + old Hz. exists y. split; [done|]. revert Ez. by case_decide.
        - intros (z & Hz & Ez). eexists. split; [by apply add_img|]. by case_decide. }
      case_decide; cbn; split_and!; try done; intros a; by rewrite Ha.
  - intros k y Hk Hhl. destruct (decide (k = n)) as [->|Hkn]; [assert (y = x) as -> by congruence; by rewrite (lf_hl _ Hx) in Hhl|]. old Hk.
    assert (n_hl y0 ≠ 0) as H0 by (revert Hhl; by case_decide). destruct (w_hl _ _ _ W _ _ Hy H0) as (H1 & H2 & tt & H3 & H4 & H5).
    apply Hif; [|done]. clear Hhl. split_and!; [done|done|]. eexists. split; [by apply add_img|]. by case_decide.
  - intros k y Hk. destruct (decide (k = n)) as [->|Hkn]; [assert (y = x) as -> by congruence; apply Hx|]. old Hk.
    pose proof (w_data _ _ _ W _ _ Hy). apply Hif; [done|]. by intros l [? ? ? ?].
  - intros k y Hk. destruct (decide (k = n)) as [->|Hkn]; [assert (y = x) as -> by congruence; rewrite (lf_refs _ Hx); lia|]. old Hk.
    pose proof (w_refs _ _ _ W _ _ Hy). by case_decide.
  - intros k y Hk H0 Hr Ho. destruct (decide (k = n)) as [->|Hkn]; [assert (y = x) as -> by congruence; congruence|]. old Hk.
    assert (n_parent y0 = 0) as H1 by (revert H0; by case_decide). pose proof (w_gone _ _ _ W _ _ Hy H1 Hr Ho). clear H0. by case_decide.
Qed.
End add.

(** ** Chains *)

Lemma unchain_Some n l : n ∈ l → ∃ k, unchain n l = k ∧ l ≡ₚ n :: k.
Proof.
  intros Hin. eexists. split; [done|]. unfold unchain. destruct (find_from 0 (Z.eqb n) l) as [i|] eqn:E.
  - apply find_from_Some in E as (x & Hi & Hx & Hf). bools. subst x. rewrite Z.sub_0_r in Hx. by apply delete_Permutation.
  - apply find_from_None in E. rewrite Forall_forall in E. specialize (E n Hin). cbn in E. by rewrite Z.eqb_refl in E.
Qed.

Lemma unchain_None n l : n ∉ l → unchain n l = l.
Proof.
  intros Hin. unfold unchain. destruct (find_from 0 (Z.eqb n) l) as [i|] eqn:E; [|done].
  apply find_from_Some in E as (x & Hi & Hx & Hf). bools. subst x. destruct Hin. by eapply list_elem_of_lookup_2.
Qed.

Lemma unchain_spec n l : NoDup l → NoDup (unchain n l) ∧ ∀ c, c ∈ unchain n l ↔ c ∈ l ∧ c ≠ n.
Proof.
  intros Hd. destruct (decide (n ∈ l)) as [Hin|Hin].
  - destruct (unchain_Some n l Hin) as (k & -> & Hk). rewrite Hk in Hd. apply NoDup_cons in Hd as [Hn Hd]. split; [done|].
    intros c. rewrite Hk, elem_of_cons. split; [intros Hc; split; [by right|congruence]|naive_solver].
  - rewrite (unchain_None n l Hin). split; [done|]. intros c. split; [intros Hc; split; [done|congruence]|naive_solver].
Qed.

(** ** Changes of the directories alone *)

(** What stays when a node moves. *)
Definition stays (x : fs_node) :=
  (n_type x, n_hl x, n_hn x, n_xl x, (n_data x, n_size x, n_cap x, n_refs x, n_unlinked x)).

Ltac stayed H :=
  let A1 := fresh "Kt" in let A2 := fresh "Kl" in let A3 := fresh "Kh" in let A4 := fresh "Kx" in let A5 := fresh "Kd" in
  let A6 := fresh "Ks" in let A7 := fresh "Kc" in let A8 := fresh "Kr" in let A9 := fresh "Ku" in
  unfold stays in H; injection H as A1 A2 A3 A4 A5 A6 A7 A8 A9.

Section relink.
Context (m m' : tree) (root o o' : Z) (chg : Z → fs_node → fs_node).
Hypothesis W : wf o m root.
Hypothesis Hm : ∀ k, m' !! k = chg k <$> m !! k.
Hypothesis Hs : ∀ k y, m !! k = Some y → stays (chg k y) = stays y.
Hypothesis Hroot : ∀ r, n_parent (chg root r) = n_parent r.

Lemma re_old k y' : m' !! k = Some y' → ∃ y, m !! k = Some y ∧ y' = chg k y ∧ stays y' = stays y.
Proof using Hm Hs. rewrite Hm. intros (y & Hy & ->)%fmap_Some. exists y. auto. Qed.

Lemma re_img k y : m !! k = Some y → m' !! k = Some (chg k y).
Proof using Hm. rewrite Hm. intros ->. done. Qed.

Lemma relink_ok :
  (∀ n x, m !! n = Some x → ∃ l, ups m' n l) →
  (∀ n x, m !! n = Some x → n_parent (chg n x) ≠ 0 → ∃ d, m !! n_parent (chg n x) = Some d ∧ is_dir d = true) →
  (∀ d x, m !! d = Some x → NoDup (n_child (chg d x)) ∧ ∀ c, c ∈ n_child (chg d x) ↔ ∃ y, m !! c = Some y ∧ n_parent (chg c y) = d) →
  (∀ a b x y, m !! a = Some x → m !! b = Some y → n_parent (chg a x) ≠ 0 → n_parent (chg b y) = n_parent (chg a x) →
     n_name (chg b y) = n_name (chg a x) → a = b) →
  (∀ n x, m !! n = Some x → n_parent (chg n x) = 0 → n ≠ root → n ≠ o' → n_parent x = 0 ∧ n ≠ o) →
  wf o' m' root.
Proof using W Hm Hs Hroot.
  intros P1 P2 P3 P4 P5. split.
  - destruct (m' !! 0) as [y|] eqn:E; [|done]. apply re_old in E as (z & E & _). by rewrite (w_null _ _ _ W) in E.
  - destruct (w_root _ _ _ W) as (r & Hr & H1 & H2). exists (chg root r). split; [by apply re_img|]. rewrite Hroot. split; [|done].
    specialize (Hs _ _ Hr). stayed Hs. unfold is_dir. by rewrite Kt.
  - intros n x' (x & Hx & _)%re_old. by eapply P1.
  - intros n x' (x & Hx & -> & _)%re_old Hp. destruct (P2 n x Hx Hp) as (d & Hd & Hdd). exists (chg (n_parent (chg n x)) d). split; [by apply re_img|].
    specialize (Hs _ _ Hd). stayed Hs. unfold is_dir. by rewrite Kt.
  - intros d x' (x & Hx & -> & _)%re_old. destruct (P3 d x Hx) as [H1 H2]. split; [done|]. intros c. rewrite H2. split.
    + intros (y & Hy & E). exists (chg c y). split; [by apply re_img|done].
    + intros (y' & (y & Hy & -> & _)%re_old & E). by exists y.
  - intros a b x' y' (x & Hx & -> & _)%re_old (y & Hy & -> & _)%re_old. by apply P4.
  - intros k x' (x & Hx & _ & Hst)%re_old. stayed Hst. rewrite Kh, Kx. destruct (w_hn _ _ _ W _ _ Hx) as (H1 & H2 & H3 & H4). split_and!; [done..|].
    intros a. rewrite H4. split.
    + intros (y & Hy & E). exists (chg a y). split; [by apply re_img|]. pose proof (Hs _ _ Hy) as Hst. stayed Hst. congruence.
    + intros (y' & (y & Hy & _ & Hst)%re_old & E). stayed Hst. exists y. split; [done|congruence].
  - intros n x' (x & Hx & _ & Hst)%re_old. stayed Hst. intros Hl. rewrite Kl in Hl. destruct (w_hl _ _ _ W _ _ Hx Hl) as (H1 & H2 & tt & H3 & H4 & H5).
    unfold is_dir in *. rewrite Kt, Kr, Kl. split_and!; [done|done|]. exists (chg (n_hl x) tt). split; [by apply re_img|].
    pose proof (Hs _ _ H3) as Hst. stayed Hst. split; congruence.
  - intros n x' (x & Hx & _ & Hst)%re_old. stayed Hst. destruct (w_data _ _ _ W _ _ Hx). split; rewrite ?Kd, ?Ks, ?Kc; done.
  - intros n x' (x & Hx & _ & Hst)%re_old. stayed Hst. rewrite Kr. by eapply w_refs.
  - intros n x' (x & Hx & -> & Hst)%re_old Hp Hr Ho. stayed Hst. rewrite Ku, Kr, Kl, Kh. destruct (P5 n x Hx Hp Hr Ho) as [H1 H2].
    by apply (w_gone _ _ _ W n x).
Qed.
End relink.

(** Out of the directory. *)
Definition out_of (n p t : Z) (k : Z) (y : fs_node) : fs_node :=
  if decide (k = n) then {| y with n_parent := 0 |}
  else if decide (k = p) then {| y with n_child := unchain n (n_child y); n_mtime := t |} else y.

(** Into the directory, under a name. *)
Definition into (n dir : Z) (nm : list Z) (t : Z) (k : Z) (y : fs_node) : fs_node :=
  if decide (k = n) then {| y with n_parent := dir; n_name := nm |}
  else if decide (k = dir) then {| y with n_child := n :: n_child y; n_mtime := t |} else y.

Lemma detach_ok m m' root n x p t :
  wf 0 m root → m !! n = Some x → n_parent x = p → p ≠ 0 →
  (∀ k, m' !! k = out_of n p t k <$> m !! k) → wf n m' root.
Proof.
  intros W Hx Hp Hp0 Hm.
  assert (n ≠ p) as Hnp.
  { intros E. destruct (w_ups _ _ _ W _ _ Hx) as [l Hl]. eapply ups_no_self; [|exact Hx|exact Hl|congruence]. congruence. }
  assert (n ≠ root) as Hnr.
  { intros ->. destruct (w_root _ _ _ W) as (r & Hr & _ & H0). congruence. }
  assert (∀ k y, n_parent (out_of n p t k y) = if decide (k = n) then 0 else n_parent y) as Epar.
  { intros k y. unfold out_of. repeat case_decide; done. }
  assert (∀ k y, n_name (out_of n p t k y) = n_name y) as Enm by (intros k y; unfold out_of; repeat case_decide; done).
  apply (relink_ok m m' root 0 n (out_of n p t)); [done|done| | | | | | |].
  - intros k y _. unfold out_of. repeat case_decide; done.
  - intros r. rewrite Epar, decide_False by done. done.
  - intros k y Hk. destruct (w_ups _ _ _ W _ _ Hk) as [l Hl]. eapply (ups_map m _ (λ _, True)); [|exact Hl|done].
    intros k1 y1 Hk1 _. destruct (decide (k1 = n)) as [->|Hne].
    + left. exists [n]. econstructor; [intros ->; by rewrite (w_null _ _ _ W) in Hx|by rewrite Hm, Hk1|]. cbn. rewrite Epar, decide_True by done. constructor.
    + right. eexists. split; [by rewrite Hm, Hk1|]. by rewrite Epar, decide_False.
  - intros k y Hk. rewrite Epar. case_decide; [done|]. exact (w_parent _ _ _ W _ _ Hk).
  - intros d y Hd. destruct (w_child _ _ _ W _ _ Hd) as [H1 H2].
    assert (∀ c, (∃ z, m !! c = Some z ∧ n_parent (out_of n p t c z) = d) ↔ c ∈ n_child y ∧ c ≠ n) as Hc.
    { intros c. rewrite H2. split.
      - intros (z & Hz & E). rewrite Epar in E. case_decide; [subst; by rewrite (w_null _ _ _ W) in Hd|]. split; [by exists z|done].
      - intros [(z & Hz & E) Hcn]. exists z. split; [done|]. by rewrite Epar, decide_False. }
    assert (d ≠ p → n ∉ n_child y) as Hni. { intros Hdp (z & Hz & E)%H2. congruence. }
    destruct (decide (d = p)) as [->|Hdp].
    + unfold out_of at 1 2. rewrite decide_False, decide_True by done. cbn. destruct (unchain_spec n _ H1) as [U1 U2]. split; [done|].
      intros c. rewrite U2, Hc. done.
    + assert (n_child (out_of n p t d y) = n_child y) as -> by (unfold out_of; repeat case_decide; done).
      split; [done|]. intros c. rewrite Hc. specialize (Hni Hdp). split; [|by intros [? _]]. intros Hin. split; [done|]. intros ->. done.
  - intros a b y z Ha Hb. rewrite !Epar, !Enm. repeat case_decide; try done; intros H1 H2; try congruence. by apply (w_uniq _ _ _ W a b y z).
  - intros k y Hk. rewrite Epar. case_decide; [done|]. intros H1 _ _. split; [done|]. intros ->. by rewrite (w_null _ _ _ W) in Hk.
Qed.

Lemma attach_ok m m' root n x d l dir nm t :
  wf n m root → n ≠ 0 → n ≠ root → m !! n = Some x → n_parent x = 0 → m !! dir = Some d → is_dir d = true → ups m dir l → n ∉ l → unused m dir nm →
  (∀ k, m' !! k = into n dir nm t k <$> m !! k) → wf 0 m' root.
Proof.
  intros W Hn0 Hnr Hx Hp Hd Hdir Hl Hnl Hu Hm.
  assert (dir ≠ 0) as Hd0 by (intros ->; by rewrite (w_null _ _ _ W) in Hd).
  assert (n ≠ dir) as Hnd by (intros ->; inversion Hl; subst; set_solver).
  assert (∀ k y, n_parent (into n dir nm t k y) = if decide (k = n) then dir else n_parent y) as Epar.
  { intros k y. unfold into. repeat case_decide; done. }
  assert (∀ k y, n_name (into n dir nm t k y) = if decide (k = n) then nm else n_name y) as Enm.
  { intros k y. unfold into. repeat case_decide; done. }
  apply (relink_ok m m' root n 0 (into n dir nm t)); [done|done| | | | | | |].
  - intros k y _. unfold into. repeat case_decide; done.
  - intros r. rewrite Epar, decide_False by done. done.
  - assert (∃ l', ups m' dir l') as [l' Hl'].
    { destruct (ups_map m m' (λ k, ∃ lk, ups m k lk ∧ n ∉ lk)) with (n := dir) (l := l) as [l' Hl']; [|done|by exists l|by exists l'].
      intros k y Hk (lk & Hlk & Hnk). right. destruct (ups_inv m k y lk Hlk) as (lk' & -> & Hlk'); [intros ->; by rewrite (w_null _ _ _ W) in Hk|done|].
      eexists. split; [by rewrite Hm, Hk|]. rewrite Epar, decide_False by set_solver. split; [done|].
      intros _. exists lk'. split; [done|set_solver]. }
    assert (ups m' n (n :: l')) as Hn'. { econstructor; [done|by rewrite Hm, Hx|]. cbn. by rewrite Epar, decide_True. }
    intros k y Hk. destruct (w_ups _ _ _ W _ _ Hk) as [lk Hlk]. eapply (ups_map m _ (λ _, True)); [|exact Hlk|done].
    intros k1 y1 Hk1 _. destruct (decide (k1 = n)) as [->|Hne]; [left; by eexists|]. right. eexists. split; [by rewrite Hm, Hk1|]. by rewrite Epar, decide_False.
  - intros k y Hk. rewrite Epar. case_decide; [by exists d|]. exact (w_parent _ _ _ W _ _ Hk).
  - intros e y He. destruct (w_child _ _ _ W _ _ He) as [H1 H2].
    assert (∀ c, (∃ z, m !! c = Some z ∧ n_parent (into n dir nm t c z) = e) ↔ c ∈ n_child y ∨ (c = n ∧ e = dir)) as Hc.
    { intros c. rewrite H2. split.
      - intros (z & Hz & E). rewrite Epar in E. case_decide; [by right|]. left. by exists z.
      - intros [(z & Hz & E)|[-> ->]].
        + exists z. split; [done|]. rewrite Epar. case_decide; [|done]. subst c. pose proof (w_null _ _ _ W). congruence.
        + exists x. by rewrite Epar, decide_True. }
    destruct (decide (e = dir)) as [->|Hne].
    + unfold into at 1 2. rewrite decide_False, decide_True by done. cbn. split.
      * constructor; [|done]. rewrite H2. intros (z & Hz & E). pose proof (w_null _ _ _ W). congruence.
      * intros c. rewrite elem_of_cons, Hc. naive_solver.
    + assert (n_child (into n dir nm t e y) = n_child y) as -> by (unfold into; repeat case_decide; done).
      split; [done|]. intros c. rewrite Hc. naive_solver.
  - intros a b y z Ha Hb. rewrite !Epar, !Enm. destruct (decide (a = n)) as [->|], (decide (b = n)) as [->|]; try done; intros H1 H2 H3.
    + by destruct (Hu b z Hb).
    + destruct (Hu a y Ha); [congruence|congruence].
    + by eapply (w_uniq _ _ _ W a b y z).
  - intros k y Hk. rewrite Epar. case_decide; done.
Qed.

(** ** The end of a node *)

(** Nobody is below a node with no children. *)
Lemma no_child o m root n x k y : wf o m root → m !! n = Some x → n_child x = [] → m !! k = Some y → n_parent y ≠ n.
Proof.
  intros W Hx Hc Hy E. destruct (w_child _ _ _ W _ _ Hx) as [_ H]. assert (k ∈ n_child x) as Hin by (apply H; eauto).
  rewrite Hc in Hin. by apply not_elem_of_nil in Hin.
Qed.

Lemma file_no_child o m root n x : wf o m root → m !! n = Some x → is_dir x = false → n_child x = [].
Proof.
  intros W Hx Hd. destruct (n_child x) as [|c l] eqn:E; [done|]. destruct (w_child _ _ _ W _ _ Hx) as [_ H].
  destruct (proj1 (H c)) as (y & Hy & Ep); [rewrite E; by left|]. destruct (w_parent _ _ _ W c y Hy) as (d & Hd' & Hdd).
  - rewrite Ep. intros ->. by rewrite (w_null _ _ _ W) in Hx.
  - congruence.
Qed.

(** A node in between that nobody needs, [f] is done to the node it named. *)
Lemma gone_ok m m' root n x (f : Z → fs_node → fs_node) :
  wf n m root → n ≠ root → m !! n = Some x → n_parent x = 0 → n_child x = [] → n_hn x = [] →
  (∀ k, m' !! k = if decide (k = n) then None else f k <$> m !! k) →
  (∀ k y, (n_name (f k y), n_type (f k y), n_parent (f k y), n_child (f k y), n_hl (f k y)) = (n_name y, n_type y, n_parent y, n_child y, n_hl y)) →
  (∀ k y, (n_data (f k y), n_size (f k y), n_cap (f k y), n_refs (f k y), n_unlinked (f k y)) = (n_data y, n_size y, n_cap y, n_refs y, n_unlinked y)) →
  (∀ k y, m !! k = Some y → k ≠ n → NoDup (n_hn (f k y)) ∧ n_xl (f k y) = Z.of_nat (length (n_hn (f k y))) ∧ n_xl (f k y) < 2 ^ 16 ∧
     ∀ a, a ∈ n_hn (f k y) ↔ a ∈ n_hn y ∧ a ≠ n) →
  wf 0 m' root.
Proof.
  intros W Hnr Hx Hp Hc Hh Hm Hs Hdat Hhn.
  assert (∀ k y', m' !! k = Some y' → ∃ y, m !! k = Some y ∧ y' = f k y ∧ k ≠ n) as Hb.
  { intros k y'. rewrite Hm. case_decide; [done|]. intros (y & Hy & ->)%fmap_Some. by exists y. }
  assert (∀ k y, m !! k = Some y → k ≠ n → m' !! k = Some (f k y)) as Hf by (intros k y Hk Hne; by rewrite Hm, decide_False, Hk).
  assert (∀ k y, n_name (f k y) = n_name y ∧ n_type (f k y) = n_type y ∧ n_parent (f k y) = n_parent y ∧ n_child (f k y) = n_child y ∧ n_hl (f k y) = n_hl y) as Hs'
    by (intros k y; specialize (Hs k y); injection Hs as -> -> -> -> ->; done). clear Hs. rename Hs' into Hs.
  assert (∀ k y, n_data (f k y) = n_data y ∧ n_size (f k y) = n_size y ∧ n_cap (f k y) = n_cap y ∧ n_refs (f k y) = n_refs y ∧ n_unlinked (f k y) = n_unlinked y) as Hd'
    by (intros k y; specialize (Hdat k y); injection Hdat as -> -> -> -> ->; done). clear Hdat.
  assert (∀ k y, m !! k = Some y → n_hl y ≠ n) as Hnl.
  { intros k y Hk E. destruct (w_hn _ _ _ W _ _ Hx) as (_ & _ & _ & H). assert (k ∈ n_hn x) as Hin by (apply H; eauto). rewrite Hh in Hin. by apply not_elem_of_nil in Hin. }
  split.
  - destruct (m' !! 0) as [y|] eqn:E; [|done]. destruct (Hb _ _ E) as (z & E0 & _). by rewrite (w_null _ _ _ W) in E0.
  - destruct (w_root _ _ _ W) as (r & Hr & H1 & H2). exists (f root r). destruct (Hs root r) as (_ & E2 & E3 & _). unfold is_dir in *. rewrite E2, E3. split; [by apply Hf|done].
  - intros k y' Hk. destruct (Hb _ _ Hk) as (y & Hy & -> & Hne). destruct (w_ups _ _ _ W _ _ Hy) as [l Hl].
    eapply (ups_map m m' (λ k, k ≠ n)); [|exact Hl|done]. intros k1 y1 Hk1 Hne1. right. exists (f k1 y1). destruct (Hs k1 y1) as (_ & _ & E3 & _).
    split; [by apply Hf|]. split; [done|]. intros _. by eapply (no_child n m root n x).
  - intros k y' Hk. destruct (Hb _ _ Hk) as (y & Hy & -> & Hne). destruct (Hs k y) as (_ & _ & -> & _). intros Hp0.
    destruct (w_parent _ _ _ W _ _ Hy Hp0) as (d & Hd & Hdd). exists (f (n_parent y) d). destruct (Hs (n_parent y) d) as (_ & E & _). unfold is_dir in *. rewrite E.
    split; [|done]. apply Hf; [done|]. by eapply (no_child n m root n x).
  - intros d y' Hk. destruct (Hb _ _ Hk) as (y & Hy & -> & Hne). destruct (Hs d y) as (_ & _ & _ & -> & _). destruct (w_child _ _ _ W _ _ Hy) as [H1 H2].
    split; [done|]. intros c. rewrite H2. split.
    + intros (z & Hz & E). exists (f c z). destruct (Hs c z) as (_ & _ & -> & _). split; [|done]. apply Hf; [done|]. intros ->.
      assert (z = x) as -> by congruence. rewrite Hp in E. subst d. by rewrite (w_null _ _ _ W) in Hy.
    + intros (z' & Hz' & E). destruct (Hb _ _ Hz') as (z & Hz & -> & _). exists z. destruct (Hs c z) as (_ & _ & E3 & _). split; [done|congruence].
  - intros a b y' z' Ha Hbb. destruct (Hb _ _ Ha) as (y & Hy & -> & _). destruct (Hb _ _ Hbb) as (z & Hz & -> & _).
    destruct (Hs a y) as (-> & _ & -> & _), (Hs b z) as (-> & _ & -> & _). by apply (w_uniq _ _ _ W).
  - intros k y' Hk. destruct (Hb _ _ Hk) as (y & Hy & -> & Hne). destruct (Hhn k y Hy Hne) as (H1 & H2 & H3 & H4). split_and!; try done.
    intros a. rewrite H4. destruct (w_hn _ _ _ W _ _ Hy) as (_ & _ & _ & H5). rewrite H5. split.
    + intros [(z & Hz & E) Han]. exists (f a z). destruct (Hs a z) as (_ & _ & _ & _ & ->). split; [by apply Hf|done].
    + intros (z' & Hz' & E). destruct (Hb _ _ Hz') as (z & Hz & -> & Han). destruct (Hs a z) as (_ & _ & _ & _ & E5). split; [exists z; split; [done|congruence]|done].
  - intros k y' Hk. destruct (Hb _ _ Hk) as (y & Hy & -> & Hne). destruct (Hs k y) as (_ & E2 & _ & _ & ->). intros Hl.
    destruct (w_hl _ _ _ W _ _ Hy Hl) as (H1 & H2 & tt & H3 & H4 & H5). destruct (Hd' k y) as (_ & _ & _ & -> & _). unfold is_dir in *. rewrite E2. split_and!; [done|done|].
    exists (f (n_hl y) tt). destruct (Hs (n_hl y) tt) as (_ & -> & _ & _ & ->). split; [|done]. apply Hf; [done|]. by eapply Hnl.
  - intros k y' Hk. destruct (Hb _ _ Hk) as (y & Hy & -> & Hne). destruct (Hd' k y) as (E1 & E2 & E3 & _). destruct (w_data _ _ _ W _ _ Hy). split; rewrite ?E1, ?E2, ?E3; done.
  - intros k y' Hk. destruct (Hb _ _ Hk) as (y & Hy & -> & Hne). destruct (Hd' k y) as (_ & _ & _ & -> & _). by eapply w_refs.
  - intros k y' Hk Hp0 Hr _. destruct (Hb _ _ Hk) as (y & Hy & -> & Hne). destruct (Hs k y) as (_ & _ & E3 & _ & ->). rewrite E3 in Hp0.
    destruct (Hd' k y) as (_ & _ & _ & -> & ->). destruct (w_gone _ _ _ W _ _ Hy Hp0 Hr Hne) as (G1 & G2 & G3 & G4). split_and!; try done.
    destruct (Hhn k y Hy Hne) as (_ & _ & _ & H4). destruct (n_hn (f k y)) as [|a l]; [done|]. destruct (proj1 (H4 a)) as [Hin _]; [by left|].
    rewrite G4 in Hin. by apply not_elem_of_nil in Hin.
Qed.

Lemma hn_of_name o m root n x : wf o m root → m !! n = Some x → n_hl x ≠ 0 → n_hn x = [].
Proof.
  intros W Hx Hl. destruct (n_hn x) as [|a l] eqn:E; [done|]. destruct (w_hn _ _ _ W _ _ Hx) as (_ & _ & _ & H).
  destruct (proj1 (H a)) as (y & Hy & Ey); [rewrite E; by left|].
  assert (n ≠ 0) as Hn by (intros ->; by rewrite (w_null _ _ _ W) in Hx).
  destruct (w_hl _ _ _ W a y Hy) as (_ & _ & tt & H1 & H2 & _); [congruence|]. rewrite Ey in H1. congruence.
Qed.

(** The last name of a node that nobody uses. *)
Lemma free_ok m root n x :
  wf n m root → n ≠ root → m !! n = Some x → n_parent x = 0 → n_child x = [] → n_hl x = 0 → n_hn x = [] → wf 0 (delete n m) root.
Proof.
  intros W Hnr Hx Hp Hc Hl Hh. apply (gone_ok m _ root n x (λ _ y, y)); try done.
  - intros k. rewrite lookup_delete. destruct (decide (n = k)) as [->|]; [by rewrite decide_True|]. rewrite decide_False by done. by destruct (m !! k).
  - intros k y Hk Hne. destruct (w_hn _ _ _ W _ _ Hk) as (H1 & H2 & H3 & H4). split_and!; try done. intros a. split; [|by intros [? _]].
    intros Ha. split; [done|]. intros ->. apply H4 in Ha as (z & Hz & E). assert (z = x) as -> by congruence. rewrite Hl in E. subst k. by rewrite (w_null _ _ _ W) in Hk.
Qed.

(** [n] is no longer a name of [t]. *)
Definition forget (t : fs_node) (n : Z) : fs_node := {| t with n_hn := unchain n (n_hn t); n_xl := u16 (n_xl t - 1) |}.

(** One name of several. *)
Lemma forget_ok m root n x t y :
  wf n m root → m !! n = Some x → n_parent x = 0 → n_hl x = t → t ≠ 0 → m !! t = Some y →
  wf 0 (delete n (<[t := forget y n]> m)) root.
Proof.
  intros W Hx Hp Hl Ht Hy. destruct (w_hl _ _ _ W _ _ Hx) as (Hdir & _ & tt & H1 & H2 & _); [congruence|].
  assert (tt = y) as -> by congruence. assert (t ≠ n) as Htn by (intros ->; congruence).
  assert (n ≠ root) as Hnr by (intros ->; destruct (w_root _ _ _ W) as (r & Hr & Hrd & _); congruence).
  apply (gone_ok m _ root n x (λ k y, if decide (k = t) then forget y n else y)); try done.
  - by eapply file_no_child.
  - eapply hn_of_name; [done|done|congruence].
  - intros k. rewrite lookup_delete. destruct (decide (n = k)) as [->|]; [by rewrite decide_True|]. rewrite decide_False by done.
    rewrite lookup_insert. destruct (decide (t = k)) as [<-|]; [rewrite Hy; cbn; by rewrite decide_True|]. destruct (m !! k); cbn; [|done]. by rewrite decide_False.
  - intros k z. by case_decide.
  - intros k z. by case_decide.
  - intros k z Hk Hne. destruct (w_hn _ _ _ W _ _ Hk) as (A1 & A2 & A3 & A4).
    destruct (decide (k = t)) as [->|Hkt].
    + assert (z = y) as -> by congruence. assert (n ∈ n_hn y) as Hin by (apply A4; eauto).
      destruct (unchain_spec n _ A1) as [U1 U2]. destruct (unchain_Some n _ Hin) as (l & El & Hperm). cbn. rewrite El in *.
      pose proof (Permutation_length Hperm) as Hlen. cbn in Hlen.
      assert (u16 (n_xl y - 1) = Z.of_nat (length l)) as -> by (rewrite u16_small; lia). split_and!; [done|done|lia|done].
    + split_and!; try done. intros a. split; [|by intros [? _]]. intros Ha. split; [done|]. intros ->.
      apply A4 in Ha as (w & Hw & E). congruence.
Qed.

(** ** A second name *)

(** The leaf [a] becomes a name of [t]. *)
Lemma namify_ok m root a x t y :
  wf 0 m root → m !! a = Some x → leaf x → n_parent x ≠ 0 → m !! t = Some y → n_hl y = 0 → n_parent y ≠ 0 → is_dir y = false → n_type x = n_type y → a ≠ t →
  n_xl y < 2 ^ 16 - 1 →
  wf 0 (<[t := {| y with n_hn := a :: n_hn y; n_xl := u16 (n_xl y + 1) |}]> (<[a := {| x with n_hl := t |}]> m)) root.
Proof.
  intros W Hx Hlf Hpx Hy Hly Hpy Hdy Hty Hat Hxl. set (y2 := {| y with n_hn := _; n_xl := _ |}). set (x2 := {| x with n_hl := t |}).
  assert (t ≠ 0) as Ht0 by (intros ->; by rewrite (w_null _ _ _ W) in Hy).
  set (f := λ k z, if decide (k = t) then y2 else if decide (k = a) then x2 else z : fs_node).
  set (m' := <[t := y2]> (<[a := x2]> m)).
  assert (∀ k, m' !! k = f k <$> m !! k) as Hm.
  { intros k. unfold m', f. rewrite !lookup_insert. destruct (decide (t = k)) as [<-|]; [by rewrite Hy; cbn; rewrite decide_True|].
    destruct (decide (a = k)) as [<-|]; [rewrite Hx; cbn; by rewrite decide_False, decide_True|].
    destruct (m !! k); cbn; [|done]. by rewrite !decide_False. }
  assert (∀ k z, m !! k = Some z → (n_name (f k z), n_type (f k z), n_parent (f k z), n_child (f k z)) = (n_name z, n_type z, n_parent z, n_child z) ∧
    (n_data (f k z), n_size (f k z), n_cap (f k z), n_refs (f k z), n_unlinked (f k z)) = (n_data z, n_size z, n_cap z, n_refs z, n_unlinked z)) as Hs.
  { intros k z Hk. unfold f. repeat case_decide; subst; simplify_eq; done. }
  assert (∀ k z, m !! k = Some z → n_name (f k z) = n_name z ∧ n_type (f k z) = n_type z ∧ n_parent (f k z) = n_parent z ∧ n_child (f k z) = n_child z) as Hs1.
  { intros k z Hk. destruct (Hs k z Hk) as [E _]. by injection E as -> -> -> ->. }
  assert (∀ k z, m !! k = Some z → n_data (f k z) = n_data z ∧ n_size (f k z) = n_size z ∧ n_cap (f k z) = n_cap z ∧ n_refs (f k z) = n_refs z ∧ n_unlinked (f k z) = n_unlinked z) as Hs2.
  { intros k z Hk. destruct (Hs k z Hk) as [_ E]. by injection E as -> -> -> -> ->. }
  assert (∀ k z, m !! k = Some z → n_hl (f k z) = if decide (k = a) then t else n_hl z) as Hl.
  { intros k z Hk. unfold f. repeat case_decide; subst; simplify_eq; done. }
  assert (∀ k z', m' !! k = Some z' → ∃ z, m !! k = Some z ∧ z' = f k z) as Hb by (intros k z'; rewrite Hm; intros (z & Hz & ->)%fmap_Some; by exists z).
  assert (∀ k z, m !! k = Some z → m' !! k = Some (f k z)) as Hf by (intros k z Hk; by rewrite Hm, Hk).
  split.
  - by rewrite Hm, (w_null _ _ _ W).
  - destruct (w_root _ _ _ W) as (r & Hr & H1 & H2). exists (f root r). destruct (Hs1 _ _ Hr) as (_ & E2 & -> & _). unfold is_dir in *. rewrite E2. auto.
  - intros k z' Hk. destruct (Hb _ _ Hk) as (z & Hz & ->). destruct (w_ups _ _ _ W _ _ Hz) as [l Hll]. eapply (ups_map m _ (λ _, True)); [|exact Hll|done].
    intros k1 z1 Hk1 _. right. exists (f k1 z1). destruct (Hs1 _ _ Hk1) as (_ & _ & -> & _). auto.
  - intros k z' Hk. destruct (Hb _ _ Hk) as (z & Hz & ->). destruct (Hs1 _ _ Hz) as (_ & _ & -> & _). intros H0. destruct (w_parent _ _ _ W _ _ Hz H0) as (d & Hd & Hdd).
    exists (f (n_parent z) d). destruct (Hs1 _ _ Hd) as (_ & E & _). unfold is_dir in *. rewrite E. auto.
  - intros d z' Hk. destruct (Hb _ _ Hk) as (z & Hz & ->). destruct (Hs1 _ _ Hz) as (_ & _ & _ & ->). destruct (w_child _ _ _ W _ _ Hz) as [H1 H2]. split; [done|].
    intros c. rewrite H2. split.
    + intros (w & Hw & E). exists (f c w). destruct (Hs1 _ _ Hw) as (_ & _ & -> & _). auto.
    + intros (w' & Hw' & E). destruct (Hb _ _ Hw') as (w & Hw & ->). destruct (Hs1 _ _ Hw) as (_ & _ & E3 & _). exists w. split; [done|congruence].
  - intros b c z' w' Hbb Hc. destruct (Hb _ _ Hbb) as (z & Hz & ->). destruct (Hb _ _ Hc) as (w & Hw & ->).
    destruct (Hs1 _ _ Hz) as (-> & _ & -> & _), (Hs1 _ _ Hw) as (-> & _ & -> & _). by apply (w_uniq _ _ _ W).
  - intros k z' Hk. destruct (Hb _ _ Hk) as (z & Hz & ->). destruct (w_hn _ _ _ W _ _ Hz) as (H1 & H2 & H3 & H4).
    assert (∀ c, (∃ w, m' !! c = Some w ∧ n_hl w = k) ↔ c ∈ n_hn z ∨ (c = a ∧ k = t)) as Hc.
    { intros c. rewrite H4. split.
      - intros (w' & Hw' & E). destruct (Hb _ _ Hw') as (w & Hw & ->). rewrite (Hl _ _ Hw) in E. case_decide; [by right|left; eauto].
      - intros [(w & Hw & E)|[-> ->]].
        + exists (f c w). split; [auto|]. rewrite (Hl _ _ Hw). case_decide; [|done]. subst c. assert (w = x) as -> by congruence.
          rewrite (lf_hl _ Hlf) in E. subst k. by rewrite (w_null _ _ _ W) in Hz.
        + exists (f a x). split; [auto|]. by rewrite (Hl _ _ Hx), decide_True. }
    destruct (decide (k = t)) as [->|Hkt].
    + assert (z = y) as -> by congruence. assert (f t y = y2) as -> by (unfold f; by rewrite decide_True). cbn.
      assert (u16 (n_xl y + 1) = Z.of_nat (S (length (n_hn y)))) as -> by (rewrite u16_small; lia). split_and!; [|done|lia|].
      * constructor; [|done]. rewrite H4. intros (w & Hw & E). assert (w = x) as -> by congruence. by rewrite (lf_hl _ Hlf) in E.
      * intros c. rewrite elem_of_cons, Hc. naive_solver.
    + assert (n_hn (f k z) = n_hn z ∧ n_xl (f k z) = n_xl z) as [-> ->] by (unfold f; repeat case_decide; subst; simplify_eq; done).
      split_and!; try done. intros c. rewrite Hc. naive_solver.
  - intros k z' Hk. destruct (Hb _ _ Hk) as (z & Hz & ->). rewrite (Hl _ _ Hz). destruct (Hs1 _ _ Hz) as (_ & E2 & _ & _), (Hs2 _ _ Hz) as (_ & _ & _ & -> & _).
    unfold is_dir in *. rewrite E2. destruct (decide (k = a)) as [Hka|Hka].
    + subst k. assert (z = x) as -> by congruence. intros _. rewrite Hty. split_and!; [done|by apply Hlf|]. exists y2. split_and!; try done.
      unfold m'. apply lookup_insert_eq.
    + intros Hne. destruct (w_hl _ _ _ W _ _ Hz Hne) as (A1 & A2 & tt & A3 & A4 & A5). split_and!; [exact A1|exact A2|]. exists (f (n_hl z) tt). split; [auto|].
      rewrite (Hl _ _ A3). destruct (Hs1 _ _ A3) as (_ & -> & _). split; [|congruence]. destruct (decide (n_hl z = a)); [|done]. exfalso.
      destruct (w_hn _ _ _ W _ _ Hx) as (_ & _ & _ & B4). assert (k ∈ n_hn x) as Hin by (apply B4; eauto). rewrite (lf_hn _ Hlf) in Hin. by apply not_elem_of_nil in Hin.
  - intros k z' Hk. destruct (Hb _ _ Hk) as (z & Hz & ->). destruct (Hs2 _ _ Hz) as (E1 & E2 & E3 & _). destruct (w_data _ _ _ W _ _ Hz). split; rewrite ?E1, ?E2, ?E3; done.
  - intros k z' Hk. destruct (Hb _ _ Hk) as (z & Hz & ->). destruct (Hs2 _ _ Hz) as (_ & _ & _ & -> & _). by eapply w_refs.
  - intros k z' Hk Hp Hr Ho. destruct (Hb _ _ Hk) as (z & Hz & ->). destruct (Hs1 _ _ Hz) as (_ & _ & E3 & _), (Hs2 _ _ Hz) as (_ & _ & _ & -> & ->).
    rewrite E3 in Hp. assert (k ≠ a) by congruence. assert (k ≠ t) by congruence. unfold f. rewrite !decide_False by done. by apply (w_gone _ _ _ W k z).
Qed.

End FsTree.
