(* ===== verification/FsOps.v ===== *)
(** * The operations of the file tree

    Lookups, creation, links, removal, renaming and writing on a well-formed tree:
    each completes, keeps the tree well-formed, and changes the names and the
    contents as its specification says. *)

From S2P Require Import Prelude Fs FsTree.

Module FsOps.
Import Fs FsTree.

(** ** Well-formed states *)

(** What the allocator is going to answer is free and each answer is new. *)
Fixpoint fresh_sup (m : tree) (l : list Z) : Prop :=
  match l with [] => True | a :: r => (a = 0 ∨ (m !! a = None ∧ a ∉ r)) ∧ fresh_sup m r end.

Lemma fresh_mono m m' l : (∀ a, a ∈ l → a ≠ 0 → m !! a = None → m' !! a = None) → fresh_sup m l → fresh_sup m' l.
Proof.
  induction l as [|a l IH]; intros Hm; [done|]. cbn. intros [H1 H2]. split; [|apply IH; [|done]; intros b Hb; apply Hm; by right].
  destruct H1 as [H1|[H1 H3]]; [by left|]. destruct (decide (a = 0)); [by left|]. right. split; [|done]. apply Hm; [by left|done|done].
Qed.

Record ok (s : fs_t) : Prop := {
  ok_wf : wf 0 (nodes s) (root_ s);
  ok_sup : fresh_sup (nodes s) (sup s);
  ok_recent : length (recent s) = 8%nat;
  ok_bt : ∀ b, b ∈ bt s → b_dst b ≠ 0 → is_Some (nodes s !! b_src b) ∧ is_Some (nodes s !! b_dst b);
  ok_unl : ∀ n x, nodes s !! n = Some x → n_unlinked x = true → n_parent x = 0
}.

(** A node, or NULL. *)
Definition ptr (s : fs_t) (n : Z) : Prop := n = 0 ∨ is_Some (nodes s !! n).

Definition env_ok (E : env) (s : fs_t) : Prop := ptr s (proc_root E).

(** ** Lookups *)

Section lookups.
Context (E : env) (s : fs_t).
Hypothesis Hok : ok s.
Hypothesis Henv : env_ok E s.

Lemma alive_ne n x : get s n = Some x → n ≠ 0.
Proof using Hok. intros H ->. unfold get in H. by rewrite (w_null _ _ _ (ok_wf _ Hok)) in H. Qed.

Lemma chain_find_ok l nm : (∀ c, c ∈ l → is_Some (nodes s !! c)) → ∃ c, chain_find s l nm = Some c ∧
  (c = 0 ∧ (∀ k x, k ∈ l → nodes s !! k = Some x → n_name x ≠ nm) ∨ c ∈ l ∧ ∃ x, nodes s !! c = Some x ∧ n_name x = nm).
Proof using Type.
  induction l as [|c l IH]; intros Hl; cbn [chain_find].
  { exists 0. split; [done|]. left. split; [done|]. by intros k x ?%not_elem_of_nil. }
  destruct (Hl c) as [x Hx]; [by left|]. unfold get, eqs. rewrite Hx. cbn [mbind option_bind]. case_bool_decide as En.
  { exists c. split; [done|]. right. split; [by left|by exists x]. }
  destruct IH as (c' & E' & Hc); [intros; apply Hl; by right|]. exists c'. split; [done|]. destruct Hc as [[-> Hno]|[Hin ?]].
  - left. split; [done|]. intros k y [->|Hk]%elem_of_cons Hy; [congruence|by eapply Hno].
  - right. split; [by right|done].
Qed.

(** A lookup in a directory finds the child of that name if there is one. *)
Lemma find_child_ok dir nm : ptr s dir → ∃ c, find_child s dir nm = Some c ∧ ptr s c ∧
  (nm ≠ str "." → nm ≠ str ".." → ∀ d, nodes s !! dir = Some d → is_dir d = true →
    (c = 0 ∧ unused (nodes s) dir nm) ∨ (∃ x, nodes s !! c = Some x ∧ n_parent x = dir ∧ n_name x = nm)).
Proof using Hok.
  intros [->|[d Hd]]; unfold find_child.
  { exists 0. split; [done|]. split; [by left|]. intros _ _ d Hd. by rewrite (w_null _ _ _ (ok_wf _ Hok)) in Hd. }
  rewrite (proj2 (Z.eqb_neq dir 0)) by (by eapply alive_ne). unfold get at 1. rewrite Hd. cbn [mbind option_bind].
  destruct (is_dir d) eqn:Edir; cbn [negb].
  2:{ exists 0. split; [done|]. split; [by left|]. intros _ _ d' Hd'. congruence. }
  unfold eqs. case_bool_decide; [exists dir; split; [done|]; split; [right; by eexists|done]|].
  case_bool_decide.
  { eexists. split; [done|]. split; [|done]. destruct (nz (n_parent d)) eqn:Ep; [|right; by eexists]. apply nz_true in Ep.
    destruct (w_parent _ _ _ (ok_wf _ Hok) _ _ Hd Ep) as (p & Hp & _). right. by eexists. }
  destruct (w_child _ _ _ (ok_wf _ Hok) _ _ Hd) as [_ Hc].
  destruct (chain_find_ok (n_child d) nm) as (c & -> & Hr); [intros c (y & Hy & _)%Hc; by eexists|].
  exists c. split; [done|]. destruct Hr as [[-> Hno]|(Hin & x & Hx & En)].
  - split; [by left|]. intros _ _ d' _ _. left. split; [done|]. intros k y Hk Hp. apply (Hno k y); [apply Hc; eauto|done].
  - split; [right; by eexists|]. intros _ _ d' _ _. right. exists x. split_and!; [done| |done]. apply Hc in Hin as (y & Hy & Ey). congruence.
Qed.

Lemma alias_ptr n ns x : nodes s !! n = Some x → is_Some (nodes s !! alias_of s n ns).
Proof using Hok.
  intros Hx. unfold alias_of. destruct (find _ (bt s)) as [b|] eqn:Ef; [|by eexists].
  apply find_some in Ef as [Hin Hf]. unfold is_alias in Hf. bools. apply list_elem_of_In in Hin.
  apply (ok_bt _ Hok b Hin). subst n. by eapply alive_ne.
Qed.

Lemma link_path_ok x n rest : nodes s !! n = Some x → is_Some (n_data x) → is_Some (link_path x rest).
Proof using Hok.
  intros Hx [d Hd]. unfold link_path. rewrite Hd. cbn [mbind option_bind].
  destruct (d_data _ (w_data _ _ _ (ok_wf _ Hok) _ _ Hx) d Hd) as [Hs _]. rewrite (proj2 (Z.ltb_ge _ _)) by lia. by eexists.
Qed.

Section walking.
Context (jump : Z → list Z → option Z) (follow : bool) (depth : Z) (dent : bool).
Hypothesis Hjump : depth ≤ 8 → ∀ dir t, is_Some (nodes s !! dir) → ∃ r, jump dir t = Some r ∧ ptr s r.

Lemma segment_ok rt p part dir : is_Some (nodes s !! dir) →
  ∃ o, segment E jump s follow depth dent rt p part dir = Some o ∧ match o with inl r => ptr s r | inr c => is_Some (nodes s !! c) end.
Proof using Hok Hjump.
  intros Hdir. unfold segment.
  assert (∃ c, (if (dir =? rt) && eqs part (str "..") then Some dir else find_child s dir part) = Some c ∧ ptr s c) as (c & -> & Hc).
  { destruct (_ && _); [exists dir; split; [done|by right]|]. destruct (find_child_ok dir part) as (c & ? & ? & _); [by right|]. by exists c. }
  cbn [mbind option_bind]. destruct (c =? 0) eqn:Ec; bools; [exists (inl 0); split; [done|by left]|].
  destruct Hc as [?|[x Hx]]; [done|]. unfold get. rewrite Hx. cbn [mbind option_bind]. cbv zeta.
  set (c1 := if n_bnd x then _ else c). assert (is_Some (nodes s !! c1)) as [x1 Hx1].
  { unfold c1. destruct (n_bnd x); [by eapply alias_ptr|by eexists]. }
  rewrite Hx1. cbn [mbind option_bind]. set (c2 := if nz (n_hl x1) && _ then _ else c1). assert (is_Some (nodes s !! c2)) as [x2 Hx2].
  { unfold c2. destruct (nz (n_hl x1)) eqn:El; cbn [andb]; [|by eexists]. destruct (_ || _); [|by eexists]. apply nz_true in El.
    destruct (w_hl _ _ _ (ok_wf _ Hok) _ _ Hx1 El) as (_ & _ & t & Ht & _). by eexists. }
  rewrite Hx2. cbn [mbind option_bind]. destruct (is_link x2 && _); [|exists (inr c2); split; [done|by eexists]].
  destruct ((8 <? depth) || _) eqn:Ed; [exists (inl 0); split; [done|by left]|]. bools. case_bool_decide; [|done].
  destruct (link_path_ok x2 c2 (skip_slashes p) Hx2) as [t ->]; [done|]. cbn [mbind option_bind].
  destruct (Hjump ltac:(lia) dir t Hdir) as (r & -> & Hr). cbn [mbind option_bind]. exists (inl r). done.
Qed.

Lemma walk_ok rt p : ∀ part cur, is_Some (nodes s !! cur) → ∃ r, walk E jump s follow depth dent rt p part cur = Some r ∧ ptr s r.
Proof using Hok Hjump.
  induction p as [|c p IH]; intros part cur Hcur; cbn [walk].
  - destruct (nonempty part); [|exists cur; split; [done|by right]].
    destruct (segment_ok rt [] part cur Hcur) as (o & -> & Ho). cbn [mbind option_bind]. eexists. split; [done|]. destruct o; [done|by right].
  - destruct (c =? SL); [|by apply IH]. destruct (nonempty part); [|by apply IH].
    destruct (segment_ok rt (c :: p) part cur Hcur) as (o & -> & Ho). cbn [mbind option_bind]. destruct o as [r|cur']; [by exists r|]. by apply IH.
Qed.
End walking.

Lemma proc_rt_ok : is_Some (nodes s !! proc_rt E s).
Proof using Hok Henv.
  unfold proc_rt. destruct (nz (proc_root E)) eqn:En; [|destruct (w_root _ _ _ (ok_wf _ Hok)) as (r & Hr & _); by eexists].
  apply nz_true in En. by destruct Henv.
Qed.

Lemma resolve_n_ok fuel : ∀ cwd path follow depth dent, 0 ≤ depth → 10 ≤ Z.of_nat fuel + depth → depth ≤ 9 → ptr s cwd →
  (path = [] ∨ is_Some (nodes s !! cwd)) →
  ∃ r, resolve_n E fuel s cwd path follow depth dent = Some r ∧ ptr s r.
Proof using Hok Henv.
  induction fuel as [|fuel IH]; intros cwd path follow depth dent Hd Hf Hd9 Hp Hcwd; [lia|]. cbn [resolve_n].
  destruct path as [|c p]; [by exists cwd|]. destruct Hcwd as [?|Hcwd]; [done|]. apply walk_ok.
  - intros Hd8 dir t Hdir. apply IH; [lia|lia|lia|by right|by right].
  - destruct (c =? SL); [apply proc_rt_ok|done].
Qed.

(** Every path from a node leads to a node or to NULL. *)
Lemma resolve_ok cwd path follow dent : is_Some (nodes s !! cwd) → ∃ r, resolve E s cwd path follow dent = Some r ∧ ptr s r.
Proof using Hok Henv. intros H. apply resolve_n_ok; [lia|lia|lia|by right|by right]. Qed.

Lemma fs_need_ok n : ptr s n → ∃ s', fs_need E s n = Some s' ∧ nodes s' = nodes s ∧ sup s' = sup s ∧ root_ s' = root_ s ∧ bt s' = bt s ∧ ok s'.
Proof using Hok.
  intros Hn. unfold fs_need. destruct (n =? 0) eqn:En; bools; [by exists s|]. destruct Hn as [?|[x Hx]]; [done|].
  destruct (arr_get_is_Some (recent s) (Z.land (recent_i s) 7)) as [y Hy].
  { rewrite (ok_recent _ Hok). change 7 with (Z.ones 3). rewrite Z.land_ones by lia. pose proof (Z.mod_pos_bound (recent_i s) (2 ^ 3)). lia. }
  destruct (set_total _ _ _ n Hy) as [l El]. rewrite El. cbn [mbind option_bind]. unfold get. cbn [nodes]. rewrite Hx. cbn [mbind option_bind].
  eexists. split; [done|]. pose proof (arr_set_length _ _ _ _ El) as Hl. rewrite (ok_recent _ Hok) in Hl. destruct Hok as [W1 W2 W3 W4 W5].
  destruct (_ && _); cbn; split_and!; try done; split; done.
Qed.

End lookups.

(** ** States with other nodes *)

Definition with_nodes (s : fs_t) (m : tree) (e : list ev) : fs_t := FsT m (root_ s) (bt s) (recent s) (recent_i s) (sup s) e.

Lemma ok_nodes s m e : ok s → wf 0 m (root_ s) → (∀ k, is_Some (m !! k) → is_Some (nodes s !! k)) →
  (∀ b, b ∈ bt s → b_dst b ≠ 0 → is_Some (m !! b_src b) ∧ is_Some (m !! b_dst b)) →
  (∀ n x, m !! n = Some x → n_unlinked x = true → n_parent x = 0) → ok (with_nodes s m e).
Proof.
  intros [W1 W2 W3 W4 W5] W Hsub Hbt Hunl. split; cbn; try done. eapply fresh_mono; [|exact W2]. intros a _ _ Ha.
  destruct (m !! a) as [x|] eqn:Ex; [|done]. destruct (Hsub a) as [y Hy]; [by eexists|]. congruence.
Qed.

(** A directory change node by node. *)
Definition relinked (chg : Z → fs_node → fs_node) (m : tree) : tree := map_imap (λ k y, Some (chg k y)) m.

Lemma relinked_lookup chg m k : relinked chg m !! k = chg k <$> m !! k.
Proof. unfold relinked. rewrite map_lookup_imap. by destruct (m !! k). Qed.

Lemma relinked_eq chg m m' : (∀ k, m' !! k = chg k <$> m !! k) → m' = relinked chg m.
Proof. intros H. apply map_eq. intros k. by rewrite H, relinked_lookup. Qed.

Lemma relinked_some chg m k : is_Some (relinked chg m !! k) ↔ is_Some (m !! k).
Proof. rewrite relinked_lookup. apply fmap_is_Some. Qed.

Lemma is_some_get s n x : nodes s !! n = Some x → get s n = Some x.
Proof. done. Qed.

Lemma unl_out n p t m :
  (∀ k y, m !! k = Some y → n_unlinked y = true → n_parent y = 0) →
  ∀ k y, relinked (out_of n p t) m !! k = Some y → n_unlinked y = true → n_parent y = 0.
Proof.
  intros H k y. rewrite relinked_lookup. intros (z & Hz & ->)%fmap_Some. specialize (H k z Hz). unfold out_of. repeat case_decide; done.
Qed.

Section ops.
Context (E : env).

(** Taking a node out of its directory. *)
Lemma detach_st s n x p d l :
  nodes s !! n = Some x → n_parent x = p → p ≠ 0 → n ≠ p → nodes s !! p = Some d → ups (nodes s) p l →
  ∃ e, fs_detach E s n = Some (with_nodes s (relinked (out_of n p (fs_now E)) (nodes s)) e).
Proof using Type.
  intros Hx Hp Hp0 Hnp Hd Hl. unfold fs_detach. rewrite (is_some_get _ _ _ Hx). cbn [mbind option_bind]. rewrite Hp.
  rewrite (proj2 (Z.eqb_neq p 0)) by done. destruct (touch_ok E s p l Hl) as [e ->]. cbn [mbind option_bind]. exists e.
  unfold upd, get. cbn [nodes]. rewrite Hd. cbn [mbind option_bind put nodes]. rewrite lookup_insert_ne by done. rewrite Hx.
  cbn [mbind option_bind put nodes]. rewrite lookup_insert_ne by done. rewrite lookup_insert_eq. cbn [mbind option_bind].
  unfold put, with_nodes. cbn. do 2 f_equal. apply relinked_eq. intros k. unfold out_of. rewrite !lookup_insert.
  destruct (decide (p = k)) as [<-|Hpk].
  { rewrite Hd. cbn. rewrite decide_False by done. by rewrite decide_True. }
  destruct (decide (n = k)) as [<-|Hnk]; [rewrite Hx; cbn; by rewrite decide_True|]. destruct (nodes s !! k); cbn; [|done]. by rewrite !decide_False.
Qed.

(** Putting it into one. *)
Lemma attach_st s n x dir d :
  nodes s !! n = Some x → n ≠ dir → nodes s !! dir = Some d →
  (∃ l, ups (relinked (into n dir (n_name x) (fs_now E)) (nodes s)) dir l) →
  ∃ e, fs_attach E s dir n = Some (with_nodes s (relinked (into n dir (n_name x) (fs_now E)) (nodes s)) e).
Proof using Type.
  intros Hx Hnd Hd [l Hl]. unfold fs_attach, link_child, upd, get. rewrite Hx. cbn [mbind option_bind put nodes].
  rewrite lookup_insert_ne by done. rewrite Hd. cbn [mbind option_bind put nodes]. rewrite lookup_insert_eq. cbn [mbind option_bind].
  unfold put. cbn [nodes root_ bt recent recent_i sup evs]. set (m' := <[dir := _]> _).
  assert (m' = relinked (into n dir (n_name x) (fs_now E)) (nodes s)) as Em.
  { apply relinked_eq. intros k. unfold m', into. rewrite !lookup_insert. destruct (decide (dir = k)) as [<-|Hpk].
    { rewrite Hd. cbn. rewrite decide_False by done. by rewrite decide_True. }
    destruct (decide (n = k)) as [<-|Hnk]; [rewrite Hx; cbn; by rewrite decide_True|]. destruct (nodes s !! k); cbn; [|done]. by rewrite !decide_False. }
  rewrite Em. match goal with |- ∃ e, fs_touch E ?s' dir = _ => destruct (touch_ok E s' dir l) as [e ->] end; [exact Hl|]. exists e. done.
Qed.

(** ** Names and contents *)

(** The file that a node stands for. *)
Definition inode (n : Z) (x : fs_node) : Z := if nz (n_hl x) then n_hl x else n.

(** Directory [d] has [nm] for file [i]. *)
Definition names (m : tree) (d : Z) (nm : list Z) (i : Z) : Prop :=
  ∃ c y, m !! c = Some y ∧ d ≠ 0 ∧ n_parent y = d ∧ n_name y = nm ∧ i = inode c y.

Definition body (x : fs_node) := (n_type x, n_data x, n_size x, n_cap x, n_mode x, n_dev x, n_refs x).

(** File [i] is still there, as it was. *)
Definition kept (m m' : tree) (i : Z) : Prop := ∀ x, m !! i = Some x → n_hl x = 0 → ∃ x', m' !! i = Some x' ∧ n_hl x' = 0 ∧ body x' = body x.

Lemma names_relinked chg m : (∀ k y, m !! k = Some y → n_hl (chg k y) = n_hl y) → ∀ d nm i,
  names (relinked chg m) d nm i ↔ ∃ c y, m !! c = Some y ∧ d ≠ 0 ∧ n_parent (chg c y) = d ∧ n_name (chg c y) = nm ∧ i = inode c y.
Proof using Type.
  intros Hs d nm i. unfold names, inode. split.
  - intros (c & y' & Hy' & Hd & H1 & H2 & H3). rewrite relinked_lookup in Hy'. apply fmap_Some in Hy' as (y & Hy & ->). exists c, y.
    rewrite (Hs _ _ Hy) in H3. done.
  - intros (c & y & Hy & Hd & H1 & H2 & H3). exists c, (chg c y). rewrite relinked_lookup, Hy, (Hs _ _ Hy). done.
Qed.

Lemma kept_relinked chg m i : (∀ k y, m !! k = Some y → n_hl (chg k y) = n_hl y ∧ body (chg k y) = body y) → kept m (relinked chg m) i.
Proof using Type. intros Hs x Hx Hl. exists (chg i x). rewrite relinked_lookup, Hx. destruct (Hs _ _ Hx) as [E1 E2]. split; [done|]. split; congruence. Qed.

Lemma kept_trans m1 m2 m3 i : kept m1 m2 i → kept m2 m3 i → kept m1 m3 i.
Proof using Type. intros H1 H2 x Hx Hl. destruct (H1 x Hx Hl) as (x2 & Hx2 & Hl2 & E2). destruct (H2 x2 Hx2 Hl2) as (x3 & ? & ? & ?). exists x3. split_and!; congruence. Qed.

Lemma out_of_keeps n p t k y : n_hl (out_of n p t k y) = n_hl y ∧ body (out_of n p t k y) = body y.
Proof using Type. unfold out_of. repeat case_decide; done. Qed.

Lemma into_keeps n d nm t k y : n_hl (into n d nm t k y) = n_hl y ∧ body (into n d nm t k y) = body y.
Proof using Type. unfold into. repeat case_decide; done. Qed.

Lemma names_out m root n x t : wf 0 m root → m !! n = Some x → n_parent x ≠ 0 → ∀ d nm i,
  names (relinked (out_of n (n_parent x) t) m) d nm i ↔ names m d nm i ∧ ¬ (d = n_parent x ∧ nm = n_name x).
Proof using Type.
  intros W Hx Hp d nm i. rewrite names_relinked by (intros; apply out_of_keeps). unfold names.
  assert (∀ c y, n_name (out_of n (n_parent x) t c y) = n_name y ∧ n_parent (out_of n (n_parent x) t c y) = if decide (c = n) then 0 else n_parent y) as Ec.
  { intros c y. unfold out_of. repeat case_decide; done. }
  split.
  - intros (c & y & Hy & Hd & H1 & H2 & H3). destruct (Ec c y) as [E1 E2]. rewrite E1 in H2. rewrite E2 in H1. case_decide as Hcn; [congruence|].
    split; [exists c, y; done|]. intros [-> ->]. apply Hcn. eapply (w_uniq _ _ _ W c n y x); try done; congruence.
  - intros [(c & y & Hy & Hd & H1 & H2 & H3) Hne]. exists c, y. destruct (Ec c y) as [E1 E2]. rewrite E1, E2. case_decide as Hcn; [|done].
    subst c. assert (y = x) as -> by congruence. by destruct Hne.
Qed.

Lemma names_into m n x dir nm0 t : m !! n = Some x → n_parent x = 0 → dir ≠ 0 → ∀ d nm i,
  names (relinked (into n dir nm0 t) m) d nm i ↔ names m d nm i ∨ (d = dir ∧ nm = nm0 ∧ i = inode n x).
Proof using Type.
  intros Hx Hp Hdir d nm i. rewrite names_relinked by (intros; apply into_keeps). unfold names.
  assert (∀ c y, n_name (into n dir nm0 t c y) = (if decide (c = n) then nm0 else n_name y) ∧ n_parent (into n dir nm0 t c y) = if decide (c = n) then dir else n_parent y) as Ec.
  { intros c y. unfold into. repeat case_decide; done. }
  split.
  - intros (c & y & Hy & Hd & H1 & H2 & H3). destruct (Ec c y) as [E1 E2]. rewrite E1 in H2. rewrite E2 in H1. destruct (decide (c = n)) as [->|Hcn].
    + right. assert (y = x) as -> by congruence. done.
    + left. exists c, y. done.
  - intros [(c & y & Hy & Hd & H1 & H2 & H3)|(-> & -> & ->)].
    + exists c, y. destruct (Ec c y) as [E1 E2]. rewrite E1, E2. rewrite !decide_False by (intros ->; congruence). done.
    + exists n, x. destruct (Ec n x) as [E1 E2]. rewrite E1, E2, !decide_True by done. done.
Qed.

(** A node without a place has no name. *)
Lemma names_delete m n x : m !! n = Some x → n_parent x = 0 → ∀ d nm i, names (delete n m) d nm i ↔ names m d nm i.
Proof using Type.
  intros Hx Hp d nm i. unfold names. split.
  - intros (c & y & Hy & H). apply lookup_delete_Some in Hy as [_ Hy]. by exists c, y.
  - intros (c & y & Hy & H0 & H1 & H). exists c, y. split; [|done]. apply lookup_delete_Some. split; [|done]. intros ->. congruence.
Qed.

(** Other fields of a node. *)
Lemma names_insert m n x x' : m !! n = Some x → n_parent x' = n_parent x → n_name x' = n_name x → n_hl x' = n_hl x → ∀ d nm i,
  names (<[n := x']> m) d nm i ↔ names m d nm i.
Proof using Type.
  intros Hx E1 E2 E3 d nm i. unfold names, inode. split.
  - intros (c & y & Hy & H). apply lookup_insert_Some in Hy as [[<- <-]|[_ Hy]]; [|by exists c, y]. exists n, x. rewrite <- E1, <- E2, <- E3. done.
  - intros (c & y & Hy & H). destruct (decide (c = n)) as [->|Hne].
    + assert (y = x) as -> by congruence. exists n, x'. rewrite lookup_insert_eq, E1, E2, E3. done.
    + exists c, y. by rewrite lookup_insert_ne.
Qed.

Lemma kept_insert m n x x' i : m !! n = Some x → n_hl x' = n_hl x → body x' = body x → kept m (<[n := x']> m) i.
Proof using Type.
  intros Hx E1 E2 y Hy Hl. destruct (decide (i = n)) as [->|Hne].
  - assert (y = x) as -> by congruence. exists x'. rewrite lookup_insert_eq, E1. done.
  - exists y. by rewrite lookup_insert_ne.
Qed.

Lemma kept_delete m n i : i ≠ n → kept m (delete n m) i.
Proof using Type. intros Hne x Hx Hl. exists x. by rewrite lookup_delete_ne. Qed.

(** ** Removing a name *)

Lemma ups_insert m n x x' k l : m !! n = Some x → n_parent x' = n_parent x → ups m k l → ups (<[n := x']> m) k l.
Proof using Type.
  intros Hx Ep. induction 1 as [|k y l Hk Hy H IH]; [constructor|]. destruct (decide (k = n)) as [->|Hne].
  - assert (y = x) as -> by congruence. econstructor; [done|apply lookup_insert_eq|by rewrite Ep].
  - econstructor; [done|by rewrite lookup_insert_ne|done].
Qed.

Lemma relinked_insert n p t m k z : k ≠ n → k ≠ p → relinked (out_of n p t) (<[k := z]> m) = <[k := z]> (relinked (out_of n p t) m).
Proof using Type.
  intros Hn Hp. apply map_eq. intros j. rewrite relinked_lookup, !lookup_insert, relinked_lookup. destruct (decide (k = j)) as [<-|]; [|done].
  cbn. unfold out_of. by rewrite !decide_False.
Qed.

(** The parent of a node is a directory with a way up. *)
Lemma parent_up m root n x : wf 0 m root → m !! n = Some x → n_parent x ≠ 0 →
  ∃ d l, m !! n_parent x = Some d ∧ is_dir d = true ∧ ups m (n_parent x) l ∧ n ≠ n_parent x ∧ n ≠ root.
Proof using Type.
  intros W Hx Hp. destruct (w_parent _ _ _ W _ _ Hx Hp) as (d & Hd & Hdir). destruct (w_ups _ _ _ W _ _ Hd) as [l Hl].
  assert (n ≠ 0) as Hn by (intros ->; by rewrite (w_null _ _ _ W) in Hx). destruct (w_ups _ _ _ W _ _ Hx) as [ln Hln].
  exists d, l. split_and!; try done; [intros Hn'; by apply (ups_no_self m n x ln Hn Hx Hln)|].
  intros ->. destruct (w_root _ _ _ W) as (r & Hr & _ & H0). congruence.
Qed.

(** A name that only names has a place. *)
Lemma name_placed m root n x : wf 0 m root → m !! n = Some x → n_hl x ≠ 0 → n_parent x ≠ 0.
Proof using Type.
  intros W Hx Hl Hp. destruct (w_hl _ _ _ W _ _ Hx Hl) as (Hd & _).
  destruct (w_gone _ _ _ W _ _ Hx Hp) as (_ & _ & H0 & _); [| |done].
  - intros ->. destruct (w_root _ _ _ W) as (r & Hr & Hrd & _). congruence.
  - intros ->. by rewrite (w_null _ _ _ W) in Hx.
Qed.

(** The names without one, and every file kept that is not [gone]. *)
Definition minus_name (m m' : tree) (d0 : Z) (nm0 : list Z) : Prop :=
  ∀ d nm i, names m' d nm i ↔ names m d nm i ∧ ¬ (d = d0 ∧ nm = nm0).

Lemma drop_extra_map m root n x y t :
  wf 0 m root → m !! n = Some x → n_hl x ≠ 0 → m !! n_hl x = Some y →
  let m' := delete n (relinked (out_of n (n_parent x) t) (<[n_hl x := forget y n]> m)) in
  wf 0 m' root ∧ minus_name m m' (n_parent x) (n_name x) ∧ ∀ i, kept m m' i.
Proof using Type.
  intros W Hx Hl Hy m'. pose proof (name_placed _ _ _ _ W Hx Hl) as Hp.
  destruct (parent_up _ _ _ _ W Hx Hp) as (d & l & Hd & Hdir & Hu & Hnp & Hnr).
  destruct (w_hl _ _ _ W _ _ Hx Hl) as (Hxd & Hxr & y' & Hy' & Hyl & Hyt). assert (y' = y) as -> by congruence. clear Hy'.
  assert (n_hl x ≠ n) as Htn by (intros E0; rewrite E0 in Hy; congruence).
  assert (n_hl x ≠ n_parent x) as Htp.
  { intros E0. rewrite E0 in Hy. assert (y = d) as -> by congruence. unfold is_dir in *. rewrite Hyt in Hdir. congruence. }
  set (md := relinked (out_of n (n_parent x) t) m).
  assert (wf n md root) as Wd by (eapply (detach_ok m md root n x); [done|done|done|done|intros k; apply relinked_lookup]).
  assert (md !! n = Some {| x with n_parent := 0 |}) as Hmn by (unfold md; rewrite relinked_lookup, Hx; cbn; unfold out_of; by rewrite decide_True).
  assert (md !! n_hl x = Some y) as Hmt by (unfold md; rewrite relinked_lookup, Hy; cbn; unfold out_of; by rewrite !decide_False).
  assert (m' = delete n (<[n_hl x := forget y n]> md)) as Em by (unfold m'; rewrite relinked_insert by done; done). rewrite Em.
  split; [|split].
  - eapply forget_ok; [done|exact Hmn|done|done|done|done].
  - intros d0 nm i. rewrite (names_delete _ n {| x with n_parent := 0 |}); [|rewrite lookup_insert_ne by done; exact Hmn|done].
    rewrite (names_insert md _ y); [|done..]. by apply (names_out m root).
  - intros i. intros z Hz Hzl. assert (i ≠ n) as Hin by (intros ->; congruence).
    destruct (kept_relinked (out_of n (n_parent x) t) m i (λ k y _, out_of_keeps n (n_parent x) t k y) z Hz Hzl) as (z1 & Hz1 & H1 & H2).
    destruct (kept_insert md (n_hl x) y (forget y n) i Hmt eq_refl eq_refl z1 Hz1 H1) as (z2 & Hz2 & H3 & H4).
    exists z2. rewrite lookup_delete_ne by done. split_and!; [done|done|congruence].
Qed.

(** No alias is about this node. *)
Definition unbound (s : fs_t) (n : Z) : Prop := ∀ b, b ∈ bt s → b_dst b ≠ 0 → b_src b ≠ n ∧ b_dst b ≠ n.

(** What removing a name does to the state. *)
Record dropped (s s' : fs_t) (n : Z) (x : fs_node) : Prop := {
  dr_names : minus_name (nodes s) (nodes s') (n_parent x) (n_name x);
  dr_files : ∀ i, kept (nodes s) (nodes s') i ∨
    (i = n ∧ n_hl x = 0 ∧ n_hn x = [] ∧ n_refs x ≤ 0 ∧ nodes s' !! n = None)
}.

Lemma some_relinked_delete chg m n k : is_Some (delete n (relinked chg m) !! k) ↔ k ≠ n ∧ is_Some (m !! k).
Proof using Type.
  rewrite lookup_delete. destruct (decide (n = k)) as [->|]; [split; [by intros [? ?]|by intros [? _]]|]. rewrite relinked_some. naive_solver.
Qed.

Lemma drop_extra_st s n x :
  ok s → nodes s !! n = Some x → n_hl x ≠ 0 → unbound s n →
  ∃ e y, nodes s !! n_hl x = Some y ∧
    let m' := delete n (relinked (out_of n (n_parent x) (fs_now E)) (<[n_hl x := forget y n]> (nodes s))) in
    (s1 ← upd s (n_hl x) (λ t, forget t n); s2 ← fs_detach E s1 n; kfree s2 n) = Some (with_nodes s m' e) ∧
    ok (with_nodes s m' e) ∧ minus_name (nodes s) m' (n_parent x) (n_name x) ∧ ∀ i, kept (nodes s) m' i.
Proof using Type.
  intros Hok Hx Hl Hun. pose proof (ok_wf _ Hok) as W. destruct (w_hl _ _ _ W _ _ Hx Hl) as (Hxd & Hxr & y & Hy & Hyl & Hyt).
  pose proof (name_placed _ _ _ _ W Hx Hl) as Hp. destruct (parent_up _ _ _ _ W Hx Hp) as (d & l & Hd & Hdir & Hu & Hnp & Hnr).
  assert (n_hl x ≠ n) as Htn by (intros E0; rewrite E0 in Hy; congruence).
  assert (n_hl x ≠ n_parent x) as Htp.
  { intros E0. rewrite E0 in Hy. assert (y = d) as -> by congruence. unfold is_dir in *. rewrite Hyt in Hdir. congruence. }
  unfold upd. rewrite (is_some_get _ _ _ Hy). cbn [mbind option_bind].
  destruct (detach_st (put s (n_hl x) (forget y n)) n x (n_parent x) d l) as [e He]; [cbn; by rewrite lookup_insert_ne|done|done|done|cbn; by rewrite lookup_insert_ne| |].
  { cbn. by eapply ups_insert. }
  rewrite He. cbn [mbind option_bind]. exists e, y. split; [done|]. cbv zeta.
  destruct (drop_extra_map (nodes s) (root_ s) n x y (fs_now E) W Hx Hl Hy) as (W' & Hnm & Hk). set (m' := delete n _) in *.
  split; [|split; [|done]].
  - unfold kfree, get. cbn [nodes with_nodes put]. rewrite relinked_lookup, lookup_insert_ne, Hx by done. done.
  - assert (∀ k, is_Some (m' !! k) ↔ k ≠ n ∧ is_Some (nodes s !! k)) as Hm.
    { intros k. unfold m'. rewrite some_relinked_delete, lookup_insert. destruct (decide (n_hl x = k)) as [<-|]; [|done]. split; intros [? _]; (split; [done|by eexists]). }
    apply ok_nodes; [done|done|intros k Hk'; by apply Hm| |].
    + intros b Hb Hb0. destruct (ok_bt _ Hok b Hb Hb0), (Hun b Hb Hb0). rewrite !Hm. done.
    + intros k z Hz. unfold m' in Hz. apply lookup_delete_Some in Hz as [_ Hz]. revert k z Hz. apply unl_out. intros k z Hz.
      apply lookup_insert_Some in Hz as [[<- <-]|[_ Hz]]; [|by apply (ok_unl _ Hok k z)]. intros Hu'. by apply (ok_unl _ Hok _ _ Hy).
Qed.

(** ** Moving a node *)

Lemma ups_out n p t m k l : ups m k l → n ∉ l → ups (relinked (out_of n p t) m) k l.
Proof using Type.
  induction 1 as [|k y l Hk Hy H IH]; [constructor|]. intros Hn. apply not_elem_of_cons in Hn as [Hne Hn].
  econstructor; [done|by rewrite relinked_lookup, Hy|]. unfold out_of. rewrite decide_False by done. case_decide; by apply IH.
Qed.

Lemma unused_out n p t m dir nm : dir ≠ 0 → unused m dir nm → unused (relinked (out_of n p t) m) dir nm.
Proof using Type.
  intros Hd Hu k y' Hk. rewrite relinked_lookup in Hk. apply fmap_Some in Hk as (y & Hy & ->). specialize (Hu k y Hy).
  unfold out_of. repeat case_decide; cbn; [congruence|done|done].
Qed.

(** The names without one and with another. *)
Definition moved_name (m m' : tree) (d0 : Z) (nm0 : list Z) (d1 : Z) (nm1 : list Z) (i1 : Z) : Prop :=
  ∀ d nm i, names m' d nm i ↔ (names m d nm i ∧ ¬ (d = d0 ∧ nm = nm0)) ∨ (d = d1 ∧ nm = nm1 ∧ i = i1).

Lemma move_st s n x dir d l nm :
  ok s → nodes s !! n = Some x → n_parent x ≠ 0 → nodes s !! dir = Some d → is_dir d = true → ups (nodes s) dir l → n ∉ l → unused (nodes s) dir nm →
  ∃ m' e, (s1 ← fs_detach E s n; s2 ← upd s1 n (λ x, {| x with n_name := nm |}); fs_attach E s2 dir n) = Some (with_nodes s m' e) ∧
    ok (with_nodes s m' e) ∧ moved_name (nodes s) m' (n_parent x) (n_name x) dir nm (inode n x) ∧ (∀ i, kept (nodes s) m' i) ∧
    (∀ k, is_Some (m' !! k) ↔ is_Some (nodes s !! k)).
Proof using Type.
  intros Hok Hx Hp Hd Hdir Hl Hnl Hu. pose proof (ok_wf _ Hok) as W.
  destruct (parent_up _ _ _ _ W Hx Hp) as (dp & lp & Hdp & _ & Hlp & Hnp & Hnr).
  destruct (detach_st s n x (n_parent x) dp lp Hx eq_refl Hp Hnp Hdp Hlp) as [e1 He1]. rewrite He1. cbn [mbind option_bind].
  set (m1 := relinked (out_of n (n_parent x) (fs_now E)) (nodes s)) in *.
  assert (wf n m1 (root_ s)) as W1 by (eapply (detach_ok (nodes s) m1); [done|done|done|done|intros k; apply relinked_lookup]).
  set (x1 := {| x with n_parent := 0 |}).
  assert (m1 !! n = Some x1) as Hx1 by (unfold m1; rewrite relinked_lookup, Hx; cbn; unfold out_of; by rewrite decide_True).
  unfold upd, get. cbn [with_nodes nodes]. rewrite Hx1. cbn [mbind option_bind]. set (x2 := {| x1 with n_name := nm |}).
  assert (dir ≠ 0) as Hd0 by (intros ->; by rewrite (w_null _ _ _ W) in Hd).
  assert (n ≠ dir) as Hnd by (intros ->; inversion Hl; subst; set_solver).
  assert (n ≠ 0) as Hn0 by (intros ->; by rewrite (w_null _ _ _ W) in Hx).
  set (s2 := put (with_nodes s m1 e1) n x2).
  assert (∃ d1, m1 !! dir = Some d1 ∧ is_dir d1 = true) as (d1 & Hd1 & Hd1d).
  { exists (out_of n (n_parent x) (fs_now E) dir d). unfold m1. rewrite relinked_lookup, Hd. split; [done|]. unfold out_of. repeat case_decide; done. }
  assert (relinked (into n dir nm (fs_now E)) (nodes s2) = relinked (into n dir nm (fs_now E)) m1) as Erel.
  { apply map_eq. intros k. rewrite !relinked_lookup. cbn. rewrite lookup_insert. destruct (decide (n = k)) as [<-|]; [|done]. rewrite Hx1. cbn.
    unfold into. by rewrite !decide_True. }
  set (m3 := relinked (into n dir nm (fs_now E)) m1).
  assert (wf 0 m3 (root_ s)) as W3.
  { eapply (attach_ok m1 m3 (root_ s) n x1 d1 l dir nm (fs_now E)); try done; [by apply ups_out|by apply unused_out|]. intros k. apply relinked_lookup. }
  destruct (attach_st s2 n x2 dir d1) as [e He].
  { cbn. apply lookup_insert_eq. } { done. } { cbn. by rewrite lookup_insert_ne. }
  { cbn [n_name x2]. rewrite Erel. assert (is_Some (m3 !! dir)) as [d3 Hd3] by (apply relinked_some; by eexists). by apply (w_ups _ _ _ W3 dir d3). }
  rewrite He. cbn [n_name x2]. rewrite Erel. exists m3, e. split; [done|].
  assert (∀ k, is_Some (m3 !! k) ↔ is_Some (nodes s !! k)) as Hm by (intros k; unfold m3, m1; by rewrite !relinked_some).
  split_and!; [| | |done].
  - apply ok_nodes; [done|done|intros k; apply Hm| |].
    + intros b Hb Hb0. rewrite !Hm. by apply (ok_bt _ Hok).
    + intros k y. unfold m3. rewrite relinked_lookup. intros (z & Hz & ->)%fmap_Some. destruct (decide (k = n)) as [->|Hne].
      * assert (z = x1) as -> by congruence. unfold into. rewrite decide_True by done. cbn. intros Hu'. by destruct (Hp (ok_unl _ Hok _ _ Hx Hu')).
      * pose proof (unl_out n (n_parent x) (fs_now E) (nodes s) (ok_unl _ Hok) k z Hz) as Hz'. unfold into. rewrite decide_False by done. case_decide; exact Hz'.
  - intros d' nm' i. unfold m3. rewrite (names_into m1 n x1) by done. unfold m1. rewrite (names_out _ (root_ s)) by done. done.
  - intros i. eapply kept_trans; apply kept_relinked; intros; [apply out_of_keeps|apply into_keeps].
Qed.

(** Every ancestor is a directory. *)
Lemma ups_dir m root k l a y : wf 0 m root → ups m k l → a ∈ l → a ≠ k → m !! a = Some y → is_dir y = true.
Proof using Type.
  intros W H. induction H as [|k x l Hk Hx H IH]; intros Ha Hne Hy; [by apply not_elem_of_nil in Ha|].
  apply elem_of_cons in Ha as [->|Ha]; [done|]. destruct (decide (a = n_parent x)) as [->|Hne']; [|by apply IH].
  destruct (w_parent _ _ _ W _ _ Hx) as (d & Hd & Hdd); [intros E0; rewrite E0 in Hy; by rewrite (w_null _ _ _ W) in Hy|]. congruence.
Qed.

(** ** Every way to remove a name *)

Lemma drop_last_st s n x :
  ok s → nodes s !! n = Some x → n_parent x ≠ 0 → n_hl x = 0 → n_hn x = [] → n_child x = [] → unbound s n →
  ∃ s', (s1 ← fs_detach E s n;
         if 0 <? n_refs x then upd s1 n (λ x, {| x with n_unlinked := true |})
         else s2 ← fs_data_free (log s1 (EPcFree n)) n; kfree s2 n) = Some s' ∧ ok s' ∧ dropped s s' n x.
Proof using Type.
  intros Hok Hx Hp Hl Hh Hc Hun. pose proof (ok_wf _ Hok) as W. destruct (parent_up _ _ _ _ W Hx Hp) as (d & l & Hd & Hdir & Hu & Hnp & Hnr).
  destruct (detach_st s n x (n_parent x) d l Hx eq_refl Hp Hnp Hd Hu) as [e He]. rewrite He. cbn [mbind option_bind].
  set (m1 := relinked (out_of n (n_parent x) (fs_now E)) (nodes s)) in *.
  assert (wf n m1 (root_ s)) as W1 by (eapply (detach_ok (nodes s) m1); [done|done|done|done|intros k; apply relinked_lookup]).
  set (x1 := {| x with n_parent := 0 |}).
  assert (m1 !! n = Some x1) as Hx1 by (unfold m1; rewrite relinked_lookup, Hx; cbn; unfold out_of; by rewrite decide_True).
  pose proof (names_out (nodes s) (root_ s) n x (fs_now E) W Hx Hp) as Hnm. fold m1 in Hnm.
  assert (∀ i, kept (nodes s) m1 i) as Hk1 by (intros i; apply kept_relinked; intros; apply out_of_keeps).
  destruct (0 <? n_refs x) eqn:Er; bools.
  - unfold upd, get. cbn [with_nodes nodes]. rewrite Hx1. cbn [mbind option_bind]. set (x2 := {| x1 with n_unlinked := true |}).
    eexists. split; [done|].
    assert (wf 0 (<[n := x2]> m1) (root_ s)) as W2.
    { assert (wf n (<[n := x2]> m1) (root_ s)) as [A1 A2 A3 A4 A5 A6 A7 A8 A9 A10 A11].
      { eapply wf_upd; [done|exact Hx1|]. pose proof (w_refs _ _ _ W _ _ Hx). split_and!; try done; try (cbn; lia).
        by destruct (w_data _ _ _ W _ _ Hx). }
      split; try done. intros k y Hk H0 Hr _. destruct (decide (k = n)) as [->|Hne]; [|by apply (A11 k y)].
      rewrite lookup_insert_eq in Hk. injection Hk as <-. done. }
    split.
    + apply (ok_nodes s (<[n := x2]> m1)); [done|done| | |].
      * intros k Hk. rewrite lookup_insert in Hk. destruct (decide (n = k)) as [<-|]; [by eexists|]. by apply relinked_some in Hk.
      * intros b Hb Hb0. destruct (ok_bt _ Hok b Hb Hb0), (Hun b Hb Hb0). rewrite !lookup_insert_ne by done. unfold m1. by rewrite !relinked_some.
      * intros k y Hk. apply lookup_insert_Some in Hk as [[<- <-]|[_ Hk]]; [done|]. revert k y Hk. apply unl_out, Hok.
    + split; cbn.
      * intros d' nm i. rewrite (names_insert m1 n x1) by done. apply Hnm.
      * intros i. left. eapply kept_trans; [apply Hk1|]. by eapply kept_insert.
  - unfold fs_data_free, upd, get. cbn [log with_nodes nodes]. rewrite Hx1. cbn [mbind option_bind]. unfold kfree, get, put. cbn [nodes].
    rewrite lookup_insert_eq. cbn [mbind option_bind]. eexists. split; [done|]. cbn. rewrite delete_insert_eq.
    split.
    + assert (∀ k, is_Some (delete n m1 !! k) ↔ k ≠ n ∧ is_Some (nodes s !! k)) as Hm by (intros k; apply some_relinked_delete).
      apply (ok_nodes s (delete n m1)); [done|eapply free_ok; done|intros k Hk; by apply Hm| |].
      * intros b Hb Hb0. destruct (ok_bt _ Hok b Hb Hb0), (Hun b Hb Hb0). rewrite !Hm. done.
      * intros k y Hk. apply lookup_delete_Some in Hk as [_ Hk]. revert k y Hk. apply unl_out, Hok.
    + split; cbn.
      * intros d' nm i. rewrite (names_delete m1 n x1) by done. apply Hnm.
      * intros i. destruct (decide (i = n)) as [->|Hin]; [right; split_and!; try done; apply lookup_delete_eq|]. left.
        eapply kept_trans; [apply Hk1|]. by apply kept_delete.
Qed.

Lemma unused_minus m m' d nm : d ≠ 0 → minus_name m m' d nm → unused m' d nm.
Proof using Type.
  intros Hd H k y Hk Hp Hn. destruct (proj1 (H d nm (inode k y))) as [_ Hno]; [|by apply Hno].
  exists k, y. split_and!; done.
Qed.

(** A name stands for one file. *)
Lemma names_inj m root a y i : wf 0 m root → m !! a = Some y → n_parent y ≠ 0 → names m (n_parent y) (n_name y) i ↔ i = inode a y.
Proof using Type.
  intros W Hy Hp. split.
  - intros (c & z & Hz & _ & H1 & H2 & ->). assert (a = c) as -> by (by apply (w_uniq _ _ _ W a c y z)). congruence.
  - intros ->. by exists a, y.
Qed.

Lemma drop_moved_st s n x a rest :
  ok s → nodes s !! n = Some x → n_parent x ≠ 0 → n_hl x = 0 → n_hn x = a :: rest → unbound s a →
  ∃ s', fs_drop_name E s n = Some s' ∧ ok s' ∧ dropped s s' n x.
Proof using Type.
  intros Hok Hx Hp Hl Hh Hun. pose proof (ok_wf _ Hok) as W.
  assert (n ≠ 0) as Hn0 by (intros ->; by rewrite (w_null _ _ _ W) in Hx).
  destruct (w_hn _ _ _ W _ _ Hx) as (_ & _ & _ & Ha). destruct (proj1 (Ha a)) as (y & Hy & Hyl); [rewrite Hh; by left|].
  assert (n_hl y ≠ 0) as Hyl0 by congruence. pose proof (name_placed _ _ _ _ W Hy Hyl0) as Hyp.
  destruct (w_hl _ _ _ W _ _ Hy Hyl0) as (Hyd & _ & x' & Hx' & _ & Hty). assert (x' = x) as -> by congruence. clear Hx'.
  assert (is_dir x = false) as Hxd by (unfold is_dir in *; by rewrite Hty).
  assert (n ≠ a) as Hna by (intros ->; congruence).
  destruct (drop_extra_st s a y Hok Hy Hyl0 Hun) as (e & x' & Hx' & H). rewrite Hyl in Hx'. assert (x' = x) as -> by congruence. clear Hx'.
  cbv zeta in H. rewrite Hyl in H. set (m1 := delete a _) in H. destruct H as (Hrun & Hok1 & Hnm1 & Hk1).
  unfold fs_drop_name. rewrite (is_some_get _ _ _ Hx). cbn [mbind option_bind]. rewrite (proj2 (nz_false _) Hl), Hh, (is_some_get _ _ _ Hy). cbn [mbind option_bind].
  assert (upd s n (λ x, {| x with n_hn := rest; n_xl := u16 (n_xl x - 1) |}) = upd s n (λ t, forget t a)) as ->.
  { unfold upd. rewrite (is_some_get _ _ _ Hx). cbn [mbind option_bind]. unfold forget, unchain. rewrite Hh. cbn [find_from]. by rewrite Z.eqb_refl. }
  apply bind_Some in Hrun as (s1 & -> & Hrun). apply bind_Some in Hrun as (s2 & Es2 & Hrun). cbn [mbind option_bind]. rewrite Es2. cbn [mbind option_bind].
  rewrite Hrun. cbn [mbind option_bind]. clear s1 s2 Es2 Hrun.
  destruct (w_parent _ _ _ W _ _ Hy Hyp) as (d & Hd & Hdd).
  assert (n ≠ n_parent y) as Hnd by (intros E0; rewrite <- E0 in Hd; congruence).
  assert (a ≠ n_parent y) as Had by (intros E0; rewrite <- E0 in Hd; congruence).
  assert (m1 !! n = Some (forget x a)) as Hx1.
  { unfold m1. rewrite lookup_delete_ne, relinked_lookup, lookup_insert_eq by done. cbn. unfold out_of. by rewrite !decide_False. }
  pose proof (ok_wf _ Hok1) as W1. cbn [with_nodes nodes root_] in W1.
  assert (is_Some (m1 !! n_parent y)) as [d1 Hd1].
  { unfold m1. apply some_relinked_delete. split; [done|]. rewrite lookup_insert_ne by done. by eexists. }
  assert (is_dir d1 = true) as Hd1d.
  { unfold m1 in Hd1. rewrite lookup_delete_ne, relinked_lookup, lookup_insert_ne, Hd in Hd1 by done. cbn in Hd1. injection Hd1 as <-.
    unfold out_of. repeat case_decide; done. }
  destruct (w_ups _ _ _ W1 _ _ Hd1) as [l Hl1].
  assert (n ∉ l) as Hnl. { intros Hin. pose proof (ups_dir _ _ _ _ n _ W1 Hl1 Hin Hnd Hx1) as Hdx. change (is_dir x = true) in Hdx. congruence. }
  destruct (move_st (with_nodes s m1 e) n (forget x a) (n_parent y) d1 l (n_name y) Hok1 Hx1 Hp Hd1 Hd1d Hl1 Hnl) as (m2 & e2 & Hrun & Hok2 & Hnm2 & Hk2 & _);
    [by apply (unused_minus (nodes s))|].
  rewrite Hrun. eexists. split; [done|]. split; [exact Hok2|]. split; cbn.
  - intros d' nm i. rewrite (Hnm2 d' nm i). cbn. rewrite (Hnm1 d' nm i).
    assert (inode n (forget x a) = n) as -> by (unfold inode; cbn; by rewrite (proj2 (nz_false _) Hl)).
    assert (inode a y = n) as Ei by (unfold inode; rewrite (proj2 (nz_true _) Hyl0); done).
    pose proof (λ i, names_inj (nodes s) (root_ s) a y i W Hy Hyp) as Hia. rewrite Ei in Hia.
    assert (¬ (n_parent y = n_parent x ∧ n_name y = n_name x)) as Hne.
    { intros [E1 E2]. apply Hna. symmetry. apply (w_uniq _ _ _ W a n y x); try done; congruence. }
    split.
    + intros [[[H1 H2] H3]|(-> & -> & ->)]; [done|]. split; [by apply Hia|done].
    + intros [H1 H2]. destruct (decide (d' = n_parent y ∧ nm = n_name y)) as [[-> ->]|]; [right; split_and!; try done; by apply Hia|]. left. done.
  - intros i. left. eapply kept_trans; [apply Hk1|apply Hk2].
Qed.

Lemma drop_name_ok s n x :
  ok s → nodes s !! n = Some x → n_parent x ≠ 0 → n_child x = [] → (∀ k y, nodes s !! k = Some y → k = n ∨ n_hl y = n → unbound s k) →
  ∃ s', fs_drop_name E s n = Some s' ∧ ok s' ∧ dropped s s' n x.
Proof using Type.
  intros Hok Hx Hp Hc Hun. destruct (decide (n_hl x = 0)) as [Hl|Hl].
  - destruct (n_hn x) as [|a rest] eqn:Hh.
    + unfold fs_drop_name. rewrite (is_some_get _ _ _ Hx). cbn [mbind option_bind]. rewrite (proj2 (nz_false _) Hl), Hh.
      apply drop_last_st; try done. apply (Hun n x Hx). by left.
    + eapply drop_moved_st; [done|done|done|done|exact Hh|].
      destruct (w_hn _ _ _ (ok_wf _ Hok) _ _ Hx) as (_ & _ & _ & Ha). destruct (proj1 (Ha a)) as (y & Hy & Hyl); [rewrite Hh; by left|].
      apply (Hun a y Hy). by right.
  - destruct (drop_extra_st s n x Hok Hx Hl) as (e & y & Hy & Hrun & Hok' & Hnm & Hk); [apply (Hun n x Hx); by left|].
    unfold fs_drop_name. rewrite (is_some_get _ _ _ Hx). cbn [mbind option_bind]. rewrite (proj2 (nz_true _) Hl).
    eexists. split; [exact Hrun|]. split; [exact Hok'|]. split; [exact Hnm|]. intros i. left. apply Hk.
Qed.

(** ** New names *)

(** The names and one more. *)
Definition plus_name (m m' : tree) (d0 : Z) (nm0 : list Z) (i0 : Z) : Prop :=
  ∀ d nm i, names m' d nm i ↔ names m d nm i ∨ (d = d0 ∧ nm = nm0 ∧ i = i0).

Lemma kmalloc_ok s a s' : ok s → kmalloc s = (a, s') →
  ok s' ∧ nodes s' = nodes s ∧ root_ s' = root_ s ∧ bt s' = bt s ∧ recent s' = recent s ∧ evs s' = evs s ∧ (a ≠ 0 → nodes s !! a = None ∧ a ∉ sup s').
Proof using Type.
  intros Hok. unfold kmalloc. destruct (sup s) as [|b r] eqn:Es; intros [= <- <-]; [done|].
  pose proof (ok_sup _ Hok) as Hf. rewrite Es in Hf. cbn in Hf. destruct Hf as [H1 H2]. cbn. split_and!; try done.
  - destruct Hok. split; cbn; done.
  - intros Hb. destruct H1 as [?|H1]; done.
Qed.

Lemma find_child_zero s dir d nm : ok s → nodes s !! dir = Some d → is_dir d = true → find_child s dir nm = Some 0 → unused (nodes s) dir nm.
Proof using Type.
  intros Hok Hd Hdir H0. assert (dir ≠ 0) as Hdn by (by eapply alive_ne).
  destruct (find_child_ok s Hok dir nm) as (c & Hc & _ & Hr); [right; by eexists|]. assert (c = 0) as -> by congruence.
  assert (nm ≠ str "." ∧ nm ≠ str "..") as [Hn1 Hn2].
  { unfold find_child in Hc. rewrite (proj2 (Z.eqb_neq dir 0)), (is_some_get _ _ _ Hd) in Hc by done. cbn [mbind option_bind] in Hc. rewrite Hdir in Hc.
    cbn [negb] in Hc. unfold eqs in Hc. case_bool_decide; [congruence|]. case_bool_decide; [|done]. destruct (nz (n_parent d)) eqn:Ep; [|congruence].
    apply nz_true in Ep. congruence. }
  destruct (Hr Hn1 Hn2 d Hd Hdir) as [[_ ?]|(x & Hx & _)]; [done|]. by rewrite (w_null _ _ _ (ok_wf _ Hok)) in Hx.
Qed.

Lemma names_add m root n par x d :
  wf 0 m root → m !! n = None → n ≠ 0 → m !! par = Some d → leaf x → n_parent x = par →
  plus_name m (<[par := with_child d (n :: n_child d)]> (<[n := x]> m)) par (n_name x) n.
Proof using Type.
  intros W Hf Hn Hd Hx Hp d' nm i. assert (par ≠ n) as Hpn by congruence. assert (par ≠ 0) as Hp0 by (intros ->; by rewrite (w_null _ _ _ W) in Hd).
  rewrite (names_insert _ par d); [|by rewrite lookup_insert_ne|done..]. unfold names, inode. split.
  - intros (c & y & Hy & H0 & H1 & H2 & H3). apply lookup_insert_Some in Hy as [[<- <-]|[_ Hy]].
    + right. rewrite (lf_hl _ Hx) in H3. cbn in H3. split_and!; congruence.
    + left. by exists c, y.
  - intros [(c & y & Hy & H)|(-> & -> & ->)].
    + exists c, y. rewrite lookup_insert_ne; [done|congruence].
    + exists n, x. rewrite lookup_insert_eq, (lf_hl _ Hx). done.
Qed.

(** A new leaf in a directory. *)
Lemma add_st s n par x d :
  ok s → nodes s !! n = None → n ≠ 0 → n ∉ sup s → nodes s !! par = Some d → is_dir d = true → leaf x → n_parent x = par → unused (nodes s) par (n_name x) → n_unlinked x = false →
  let m' := <[par := with_child d (n :: n_child d)]> (<[n := x]> (nodes s)) in
  ∃ e, (s1 ← link_child (put s n x) par n; fs_touch E s1 par) = Some (with_nodes s m' e) ∧ ok (with_nodes s m' e) ∧
    plus_name (nodes s) m' par (n_name x) n ∧ ∀ i, kept (nodes s) m' i.
Proof using Type.
  intros Hok Hf Hn Hns Hd Hdir Hx Hp Hu Hul m'. pose proof (ok_wf _ Hok) as W.
  pose proof (add_ok (nodes s) (root_ s) n par x d W Hf Hn Hd Hdir Hx Hp Hu) as W'. fold m' in W'.
  assert (par ≠ n) as Hpn by congruence.
  unfold link_child, upd, get. cbn [put nodes]. rewrite lookup_insert_ne, Hd by done. cbn [mbind option_bind].
  assert (is_Some (m' !! par)) as [d' Hd'] by (unfold m'; rewrite lookup_insert_eq; by eexists). destruct (w_ups _ _ _ W' _ _ Hd') as [l Hl].
  match goal with |- ∃ e, fs_touch E ?s1 par = _ ∧ _ => destruct (touch_ok E s1 par l Hl) as [e ->] end. exists e. split; [done|]. split_and!.
  - destruct Hok as [W1 W2 W3 W4 W5]. split; cbn; try done.
    + eapply fresh_mono; [|exact W2]. intros b Hb Hb0 Hnone. unfold m'. rewrite !lookup_insert_ne; congruence.
    + intros b Hb Hb0. destruct (W4 b Hb Hb0) as [[z1 Hz1] [z2 Hz2]]. unfold m'. rewrite !lookup_insert. repeat case_decide; split; by eexists.
    + intros k y Hk. apply lookup_insert_Some in Hk as [[<- <-]|[_ Hk]]; [exact (W5 _ _ Hd)|]. apply lookup_insert_Some in Hk as [[<- <-]|[_ Hk]]; [congruence|exact (W5 _ _ Hk)].
  - by apply (names_add _ (root_ s)).
  - intros i. eapply kept_trans; [|eapply (kept_insert _ par d); [by rewrite lookup_insert_ne|done|done]].
    intros y Hy Hyl. exists y. rewrite lookup_insert_ne; [done|congruence].
Qed.

Lemma new_leaf nm ty par : leaf (new_node E nm ty par).
Proof using Type. split; try done; split; cbn; done. Qed.

Lemma take_all {A} (l : list A) n : (length l ≤ n)%nat → take n l = l.
Proof using Type. apply firstn_all2. Qed.

Lemma split_len path dir base : split_dir_base path = Some (dir, base) → (length base ≤ 127)%nat.
Proof using Type.
  unfold split_dir_base. cbv zeta. repeat case_match; intros ?; simplify_eq; rewrite length_take; lia.
Qed.

Lemma fs_resolve_ok s cwd path : ok s → env_ok E s → is_Some (nodes s !! cwd) →
  ∃ n s', fs_resolve E s cwd path = Some (n, s') ∧ ptr s n ∧ nodes s' = nodes s ∧ sup s' = sup s ∧ root_ s' = root_ s ∧ bt s' = bt s ∧ ok s'.
Proof using Type.
  intros Hok He Hc. unfold fs_resolve. destruct (resolve_ok E s Hok He cwd path true false Hc) as (n & -> & Hn). cbn [mbind option_bind].
  destruct (fs_need_ok E s Hok n Hn) as (s' & -> & H). cbn [mbind option_bind]. by exists n, s'.
Qed.

(** The allocator's next answer is NULL. *)
Definition dry (s : fs_t) : Prop := (kmalloc s).1 = 0.

(** There can be no new name [nm] in [par]. *)
Definition no_place (s : fs_t) (par : Z) (nm : list Z) : Prop :=
  par = 0 ∨ (∃ d, nodes s !! par = Some d ∧ is_dir d = false) ∨ ¬ unused (nodes s) par nm ∨ nm = str "." ∨ nm = str "..".

(** The outcome of an operation that makes the name [nm] in [par], or nothing, and
    then only because there is no place for the name or no memory. *)
Definition made (short : Prop) (s s' : fs_t) (par : Z) (nm : list Z) (n : Z) : Prop :=
  (n = 0 ∧ nodes s' = nodes s ∧ (no_place s par nm ∨ short)) ∨
  (n ≠ 0 ∧ nodes s !! n = None ∧ unused (nodes s) par nm ∧ plus_name (nodes s) (nodes s') par nm n).

Lemma taken_place s par d nm c :
  ok s → nodes s !! par = Some d → is_dir d = true → find_child s par nm = Some c → c ≠ 0 → no_place s par nm.
Proof using Type.
  intros Hok Hd Hdir Hc Hn. destruct (find_child_ok s Hok par nm) as (c' & Hc' & _ & Hr); [right; by eexists|]. simplify_eq.
  destruct (decide (nm = str ".")) as [|N1]; [by do 3 right; left|]. destruct (decide (nm = str "..")) as [|N2]; [by do 4 right|].
  destruct (Hr N1 N2 d Hd Hdir) as [[? _]|(x & Hx & Hp & Hnm)]; [done|]. right; right; left. intros Hu. by apply (Hu c x).
Qed.

(** The directory a path leads to, the one of the process if there is none in it. *)
Definition parent_of (s : fs_t) (cwd : Z) (dir : list Z) : option Z :=
  if nonempty dir then resolve E s cwd dir true false else Some cwd.

Lemma create_ok s cwd path ty dir base :
  ok s → env_ok E s → is_Some (nodes s !! cwd) → split_dir_base path = Some (dir, base) →
  ∃ n s' par, fs_create E s cwd path ty = Some (n, s') ∧ ok s' ∧ parent_of s cwd dir = Some par ∧
    made (dry s) s s' par base n ∧ ∀ i, kept (nodes s) (nodes s') i.
Proof using Type.
  intros Hok He Hcwd Hsp. unfold fs_create. rewrite Hsp. cbn [mbind option_bind].
  assert (∃ par s1, (if nonempty dir then fs_resolve E s cwd dir else Some (cwd, s)) = Some (par, s1) ∧ parent_of s cwd dir = Some par ∧
    ptr s par ∧ nodes s1 = nodes s ∧ sup s1 = sup s ∧ ok s1) as (par & s1 & -> & Hpo & Hpar & En & Esup & Hok1).
  { unfold parent_of. destruct (nonempty dir); [|exists cwd, s; split_and!; try done; by right].
    destruct (fs_resolve_ok s cwd dir Hok He Hcwd) as (n & s' & H1 & H2 & H3 & H4 & _ & _ & H5).
    exists n, s'. split; [done|]. split; [|done]. unfold fs_resolve in H1. apply bind_Some in H1 as (n' & -> & H1).
    apply bind_Some in H1 as (? & _ & H1). congruence. }
  cbn [mbind option_bind]. assert (∀ i, kept (nodes s) (nodes s1) i) as Hk0 by (intros i; rewrite En; intros y Hy Hyl; by exists y).
  assert (no_place s1 par base → ∃ n s' par, Some (0, s1) = Some (n, s') ∧ ok s' ∧ parent_of s cwd dir = Some par ∧
    made (dry s) s s' par base n ∧ ∀ i, kept (nodes s) (nodes s') i) as Hno.
  { intros Hnp. exists 0, s1, par. split; [done|]. split; [done|]. split; [done|]. split; [|done]. left. split; [done|]. split; [done|].
    left. unfold no_place in *. by rewrite En in Hnp. }
  destruct (par =? 0) eqn:Ep; bools; [apply Hno; by left|].
  destruct Hpar as [?|[d Hd]]; [done|]. rewrite <- En in Hd. rewrite (is_some_get _ _ _ Hd). cbn [mbind option_bind].
  destruct (is_dir d) eqn:Edir; cbn [negb]; [|apply Hno; right; left; by exists d].
  destruct (find_child_ok s1 Hok1 par base) as (c & Hc & Hcp & _); [right; by eexists|]. rewrite Hc. cbn [mbind option_bind].
  destruct (nz c) eqn:Ec; [apply nz_true in Ec; apply Hno; by eapply taken_place|]. apply nz_false in Ec. subst c.
  pose proof (find_child_zero s1 par d base Hok1 Hd Edir Hc) as Hu. unfold node_new. destruct (kmalloc s1) as [n s2] eqn:Ek.
  assert ((kmalloc s).1 = n) as Ed.
  { unfold kmalloc in *. rewrite Esup in Ek. destruct (sup s); by injection Ek as <- _. }
  destruct (kmalloc_ok s1 n s2 Hok1 Ek) as (Hok2 & En2 & _ & _ & _ & _ & Hfr). destruct (n =? 0) eqn:E0; bools.
  { subst n. exists 0, s2, par. split; [done|]. split; [done|]. split; [done|]. unfold made. rewrite En2, En in *. split; [left|done].
    split; [done|]. split; [done|]. right. unfold dry. congruence. }
  destruct (Hfr E0) as [Hfr1 Hfr2]. rewrite (proj2 (Z.eqb_neq n 0)) by done.
  pose proof (split_len _ _ _ Hsp) as Hlen.
  destruct (add_st s2 n par (new_node E base ty par) d) as (e & Hrun & Hok3 & Hnm & Hk); try done; try (rewrite En2; done); try apply new_leaf.
  { rewrite En2. cbn. by rewrite take_all. }
  apply bind_Some in Hrun as (s3 & -> & Hrun). cbn [mbind option_bind]. rewrite Hrun. cbn [mbind option_bind].
  exists n, (with_nodes s2 (<[par := with_child d (n :: n_child d)]> (<[n := new_node E base ty par]> (nodes s2))) e), par.
  split; [done|]. split; [exact Hok3|]. split; [done|]. cbn [nodes with_nodes]. rewrite En2, En in *. split; [|exact Hk].
  right. cbn [nodes with_nodes]. split; [done|]. split; [done|]. split; [done|]. cbn [n_name new_node] in Hnm. rewrite take_all in Hnm by done. exact Hnm.
Qed.

Lemma kmalloc_put s n x a s' : kmalloc s = (a, s') → kmalloc (put s n x) = (a, put s' n x) ∧ ∀ k, k ∉ sup s → k ∉ sup s'.
Proof using Type.
  unfold kmalloc. cbn [sup put]. destruct (sup s) as [|b r] eqn:Es; intros [= <- <-]; (split; [done|]); cbn; rewrite ?Es; [done|].
  intros k [_ ?]%not_elem_of_cons. done.
Qed.

Lemma upd_put s n x f : upd (put s n x) n f = Some (put s n (f x)).
Proof using Type.
  unfold upd, get. cbn. rewrite lookup_insert_eq. cbn. unfold put. cbn. by rewrite insert_insert_eq.
Qed.

Lemma kfree_put s n x : nodes s !! n = None → kfree (put s n x) n = Some s.
Proof using Type.
  intros Hn. unfold kfree, get. cbn. rewrite lookup_insert_eq. cbn. rewrite delete_insert_id by done. by destruct s.
Qed.

(** A symbolic link fresh from [fs_symlink]. *)
Definition link_node (nm target : list Z) (dir : Z) : fs_node :=
  let len := Z.of_nat (length target) in
  let x := new_node E nm FS_LINK dir in
  {| x with n_data := Some (target ++ [0]); n_size := len; n_cap := len + 1; n_mode := 0x1FF |}.

Lemma link_leaf nm target dir : leaf (link_node nm target dir).
Proof using Type.
  split; try done. split; cbn; try lia; [|done]. intros d [= <-]. rewrite length_app. cbn. lia.
Qed.

Lemma kept_refl m i : kept m m i.
Proof using Type. intros x Hx Hl. by exists x. Qed.

Lemma symlink_ok s dir nm target :
  ok s → ptr s dir → (length nm ≤ 127)%nat →
  ∃ n s', fs_symlink E s dir nm target = Some (n, s') ∧ ok s' ∧ made (dry s ∨ dry (kmalloc s).2) s s' dir nm n ∧ (n ≠ 0 → nodes s' !! n = Some (link_node nm target dir)) ∧
    ∀ i, kept (nodes s) (nodes s') i.
Proof using Type.
  intros Hok Hdir Hlen. unfold fs_symlink.
  assert (∀ s', nodes s' = nodes s → ok s' → no_place s dir nm ∨ dry s ∨ dry (kmalloc s).2 →
    ∃ n s2, Some (0, s') = Some (n, s2) ∧ ok s2 ∧ made (dry s ∨ dry (kmalloc s).2) s s2 dir nm n ∧ (n ≠ 0 → nodes s2 !! n = Some (link_node nm target dir)) ∧
    ∀ i, kept (nodes s) (nodes s2) i) as Hno.
  { intros s' En Hok' Hwhy. exists 0, s'. split; [done|]. split; [done|]. split; [left; done|]. split; [done|]. intros i. rewrite En. apply kept_refl. }
  destruct (dir =? 0) eqn:E0; bools; [apply Hno; [done|done|left; by left]|]. destruct Hdir as [?|[d Hd]]; [done|]. rewrite (is_some_get _ _ _ Hd). cbn [mbind option_bind].
  destruct (is_dir d) eqn:Edir; cbn [negb]; [|apply Hno; [done|done|left; right; left; by exists d]].
  destruct (find_child_ok s Hok dir nm) as (c & Hc & _); [right; by eexists|]. rewrite Hc. cbn [mbind option_bind].
  destruct (nz c) eqn:Ec; [apply nz_true in Ec; apply Hno; [done|done|left; by eapply taken_place]|].
  apply nz_false in Ec. subst c. pose proof (find_child_zero s dir d nm Hok Hd Edir Hc) as Hu.
  unfold node_new. destruct (kmalloc s) as [n s2] eqn:Ek. destruct (kmalloc_ok s n s2 Hok Ek) as (Hok2 & En2 & _ & _ & _ & _ & Hfr).
  destruct (n =? 0) eqn:En0; bools; [subst n; apply Hno; [done|done|right; left; unfold dry; by rewrite Ek]|]. destruct (Hfr En0) as [Hf1 Hf2]. rewrite (proj2 (Z.eqb_neq n 0)) by done.
  unfold alloc_ok. destruct (kmalloc s2) as [a s3] eqn:Ek2. destruct (kmalloc_put s2 n (new_node E nm FS_LINK dir) a s3 Ek2) as [-> Hsub].
  destruct (kmalloc_ok s2 a s3 Hok2 Ek2) as (Hok3 & En3 & _). destruct (nz a) eqn:Ea; cbn [negb].
  2:{ apply nz_false in Ea. rewrite kfree_put by congruence. cbn [mbind option_bind]. apply Hno; [congruence|done|].
      right; right. unfold dry. rewrite ?Ek. cbn [snd]. by rewrite Ek2. }
  rewrite upd_put. cbn [mbind option_bind]. fold (link_node nm target dir).
  assert (n_name (link_node nm target dir) = nm) as Enm by (cbn; by apply take_all).
  destruct (add_st s3 n dir (link_node nm target dir) d) as (e & Hrun & Hok4 & Hnm & Hk); try done; try (rewrite En3, En2; done); try apply link_leaf; [auto| |].
  { by rewrite En3, En2, Enm. }
  apply bind_Some in Hrun as (s4 & E4 & Hrun). change (upd (put s3 n _) dir _) with (link_child (put s3 n (link_node nm target dir)) dir n). rewrite E4. cbn [mbind option_bind]. rewrite Hrun. cbn [mbind option_bind].
  rewrite En3, En2 in *. eexists n, _. split; [done|]. split; [exact Hok4|]. cbn [nodes with_nodes]. split; [|split; [|exact Hk]].
  - right. split; [done|]. split; [done|]. rewrite Enm in Hnm. done.
  - intros _. rewrite lookup_insert_ne by congruence. apply lookup_insert_eq.
Qed.

(** ** A second name for a file *)

Lemma hlink_ok s t x dir d nm :
  ok s → nodes s !! t = Some x → n_hl x = 0 → is_dir x = false → n_parent x ≠ 0 → n_xl x < 2 ^ 16 - 1 →
  nodes s !! dir = Some d → is_dir d = true → unused (nodes s) dir nm → (length nm ≤ 127)%nat →
  ∃ r s', fs_hlink E s t dir nm = Some (r, s') ∧ ok s' ∧ (∀ i, kept (nodes s) (nodes s') i) ∧
    ((r = -1 ∧ nodes s' = nodes s ∧ dry s) ∨ (r = 0 ∧ plus_name (nodes s) (nodes s') dir nm t)).
Proof using Type.
  intros Hok Ht Htl Htd Htp Hxl Hd Hdir Hu Hlen. pose proof (ok_wf _ Hok) as W. unfold fs_hlink. rewrite (is_some_get _ _ _ Ht). cbn [mbind option_bind].
  unfold node_new. destruct (kmalloc s) as [a s2] eqn:Ek. destruct (kmalloc_ok s a s2 Hok Ek) as (Hok2 & En2 & Er2 & Eb2 & _ & _ & Hfr).
  destruct (a =? 0) eqn:E0; bools.
  { exists (-1), s2. split; [done|]. split; [done|]. rewrite En2. split; [intros; apply kept_refl|left]. split; [done|]. split; [done|]. unfold dry. by rewrite Ek. }
  destruct (Hfr E0) as [Hf1 Hf2]. rewrite (proj2 (Z.eqb_neq a 0)) by done. set (y := new_node E nm (n_type x) dir).
  assert (t ≠ a) as Hta by congruence. assert (dir ≠ a) as Hda by congruence. assert (t ≠ dir) as Htdir by congruence.
  pose proof (alive_ne s Hok _ _ Ht) as Ht0. pose proof (alive_ne s Hok _ _ Hd) as Hdir0.
  rewrite upd_put. cbn [mbind option_bind]. set (y2 := {| y with n_hl := t |}).
  unfold link_child, upd, get. cbn [put nodes]. rewrite (lookup_insert_ne _ a t), En2, Ht by done. cbn [mbind option_bind put nodes].
  rewrite (lookup_insert_ne _ t dir), (lookup_insert_ne _ a dir), ?En2, Hd by done. cbn [mbind option_bind put nodes].
  rewrite (lookup_insert_ne _ dir t), lookup_insert_eq by done. cbn [mbind option_bind put nodes].
  rewrite (lookup_insert_ne _ t dir), lookup_insert_eq by done. cbn [mbind option_bind put nodes].
  set (x2 := {| x with n_hn := a :: n_hn x; n_xl := u16 (n_xl x + 1) |}).
  set (m1 := <[dir := with_child d (a :: n_child d)]> (<[a := y]> (nodes s))).
  set (m2 := <[t := x2]> (<[a := y2]> m1)).
  match goal with |- context [fs_touch E ?q dir] => set (s5 := q) end.
  assert (wf 0 m1 (root_ s)) as W1.
  { apply (add_ok (nodes s) (root_ s) a dir y d); try done. cbn. by rewrite take_all. }
  assert (m1 !! a = Some y) as Ha1 by (unfold m1; rewrite lookup_insert_ne by done; apply lookup_insert_eq).
  assert (m1 !! t = Some x) as Ht1 by (unfold m1; by rewrite !lookup_insert_ne).
  assert (wf 0 m2 (root_ s)) as W2 by (apply (namify_ok m1 (root_ s) a y t x); try done; try apply new_leaf).
  set (x3 := {| x2 with n_mtime := fs_now E |}). set (d2 := with_child d (a :: n_child d)). set (d3 := {| d2 with n_mtime := fs_now E |}).
  set (m4 := <[dir := d3]> (<[t := x3]> m2)).
  assert (m2 !! t = Some x2) as Ht2 by apply lookup_insert_eq.
  assert (m2 !! dir = Some (with_child d (a :: n_child d))) as Hd2 by (unfold m2, m1; rewrite !(lookup_insert_ne _ _ dir) by done; apply lookup_insert_eq).
  assert (wf 0 m4 (root_ s)) as W4.
  { eapply (wf_same 0 _ (root_ s) dir (with_child d (a :: n_child d))); [eapply (wf_same 0 _ (root_ s) t x2); done| |done]. by rewrite lookup_insert_ne. }
  assert (nodes s5 = m4) as E5.
  { cbn. unfold m4, m2, m1. apply map_eq. intros k. rewrite !lookup_insert, ?En2.
    destruct (decide (dir = k)); [done|]. destruct (decide (t = k)); [done|]. by destruct (decide (a = k)). }
  assert (is_Some (m4 !! dir)) as [dd Hdd] by (unfold m4; rewrite lookup_insert_eq; by eexists). destruct (w_ups _ _ _ W4 _ _ Hdd) as [l Hl].
  destruct (touch_ok E s5 dir l) as [e He]; [by rewrite E5|]. rewrite He. cbn [mbind option_bind].
  exists 0, (with_nodes s5 m4 e). split; [rewrite <- E5; done|]. cbn [nodes with_nodes].
  assert (plus_name (nodes s) m1 dir nm a) as Hp1.
  { pose proof (names_add (nodes s) (root_ s) a dir y d W Hf1 E0 Hd (new_leaf _ _ _) eq_refl) as H. cbn in H. rewrite take_all in H by done. exact H. }
  split_and!.
  - destruct Hok2 as [V1 V2 V3 V4 V5]. split; cbn; [congruence| |done| |].
    + eapply fresh_mono; [|exact V2]. intros b Hb Hb0 Hnone. rewrite En2 in Hnone. unfold m4, m2, m1. rewrite !lookup_insert_ne; congruence.
    + intros b Hb Hb0. destruct (V4 b Hb Hb0) as [[z1 Hz1] [z2 Hz2]]. rewrite En2 in *. unfold m4, m2, m1. rewrite !lookup_insert. repeat case_decide; split; by eexists.
    + intros k z Hk. repeat (apply lookup_insert_Some in Hk as [[<- <-]|[_ Hk]]); try done; try (exact (ok_unl _ Hok _ _ Hd)); try (exact (ok_unl _ Hok _ _ Ht)). exact (ok_unl _ Hok _ _ Hk).
  - intros i z Hz Hzl. assert (i ≠ a) by congruence. unfold m4, m2, m1. rewrite !lookup_insert.
    destruct (decide (dir = i)) as [<-|]; [eexists; split; [done|]; assert (z = d) as -> by congruence; done|].
    destruct (decide (t = i)) as [<-|]; [eexists; split; [done|]; assert (z = x) as -> by congruence; done|]. rewrite !decide_False by done. by exists z.
  - right. split; [done|]. intros d' nm' i. unfold m4. rewrite (names_insert _ dir (with_child d (a :: n_child d))); [|by rewrite lookup_insert_ne|done..].
    rewrite (names_insert m2 t x2); [|done..]. unfold m2. rewrite (names_insert _ t x); [|by rewrite lookup_insert_ne|done..].
    assert (n_parent y = dir ∧ n_name y = nm) as [Ey1 Ey2] by (split; [done|cbn; by apply take_all]).
    split.
    + intros (c & z & Hz & H0 & H1 & H2 & H3). apply lookup_insert_Some in Hz as [[<- <-]|[Hca Hz]].
      * right. change (n_parent y2) with (n_parent y) in H1. change (n_name y2) with (n_name y) in H2. unfold inode in H3. cbn [n_hl y2] in H3. rewrite (proj2 (nz_true _) Ht0) in H3. split_and!; congruence.
      * assert (names m1 d' nm' i) as Hn by (exists c, z; done). apply Hp1 in Hn as [?|(-> & -> & ->)]; [by left|]. exfalso.
        apply Hca. eapply (w_uniq _ _ _ W1 a c y z); try done; congruence.
    + intros [Hn|(-> & -> & ->)].
      * assert (names m1 d' nm' i) as (c & z & Hz & H) by (apply Hp1; by left). exists c, z. split; [|done]. rewrite lookup_insert_ne; [done|]. intros <-.
        assert (z = y) as -> by congruence. destruct H as (_ & H1 & H2 & _). destruct Hn as (c & w & Hw & _ & G1 & G2 & _). by apply (Hu c w Hw); congruence.
      * exists a, y2. rewrite lookup_insert_eq. split_and!; try done. unfold inode. cbn [n_hl y2]. by rewrite (proj2 (nz_true _) Ht0).
Qed.

(** ** Contents *)

(** The bytes of a file. *)
Definition content (x : fs_node) : option (list Z) := (λ d, take (Z.to_nat (n_size x)) d) <$> n_data x.

(** The same names, the same files but one. *)
Definition only_file (s s' : fs_t) (f : Z) : Prop :=
  (∀ d nm i, names (nodes s') d nm i ↔ names (nodes s) d nm i) ∧ ∀ i, i ≠ f → kept (nodes s) (nodes s') i.

Lemma put_st s f x x' :
  ok s → nodes s !! f = Some x → mild 0 f x x' → n_unlinked x' = n_unlinked x → ok (put s f x') ∧ only_file s (put s f x') f ∧
    ∃ e, fs_touch E (put s f x') f = Some (with_nodes s (<[f := x']> (nodes s)) e) ∧ ok (with_nodes s (<[f := x']> (nodes s)) e).
Proof using Type.
  intros Hok Hx M Eul. pose proof (wf_upd _ _ _ _ _ _ (ok_wf _ Hok) Hx M) as W. destruct M as (S & _). shapes.
  assert (∀ e, ok (with_nodes s (<[f := x']> (nodes s)) e)) as Hok'.
  { intros e. apply ok_nodes; [done|done| | |].
    - intros k Hk. rewrite lookup_insert in Hk. case_decide; [subst; by eexists|done].
    - intros b Hb Hb0. destruct (ok_bt _ Hok b Hb Hb0) as [H1 H2]. rewrite !lookup_insert. split; case_decide; by eauto.
    - intros k y Hk. apply lookup_insert_Some in Hk as [[<- <-]|[_ Hk]]; [|exact (ok_unl _ Hok _ _ Hk)]. rewrite Sp, Eul. exact (ok_unl _ Hok _ _ Hx). }
  split; [apply (Hok' (evs s))|]. split.
  - split; cbn; [by apply (names_insert _ f x)|]. intros i Hi z Hz Hzl. exists z. by rewrite lookup_insert_ne.
  - destruct (w_ups _ _ _ W f x') as [l Hl]; [apply lookup_insert_eq|]. destruct (touch_ok E (put s f x') f l Hl) as [e He]. exists e. split; [exact He|apply Hok'].
Qed.

Lemma upd_get s f x g : nodes s !! f = Some x → upd s f g = Some (put s f (g x)).
Proof using Type. intros Hx. unfold upd. by rewrite (is_some_get _ _ _ Hx). Qed.

Lemma put_put s f x x' : put (put s f x) f x' = put s f x'.
Proof using Type. unfold put. cbn. by rewrite insert_insert_eq. Qed.

(** Bytes and a NUL into a buffer. *)
Lemma blit_ok buf at' bytes : 0 ≤ at' → at' + Z.of_nat (length bytes) < Z.of_nat (length buf) →
  ∃ d, blit buf at' (bytes ++ [0]) = Some d ∧ length d = length buf ∧
    take (Z.to_nat (at' + Z.of_nat (length bytes))) d = take (Z.to_nat at') buf ++ bytes.
Proof using Type.
  intros Ha Hl. unfold blit. rewrite (proj2 (Z.ltb_ge _ _)) by (rewrite length_app; cbn; lia). eexists. split; [done|]. split.
  - rewrite !length_app, length_take, length_drop. cbn. lia.
  - rewrite <- app_assoc, app_assoc. rewrite take_app_le by (rewrite length_app, length_take; lia). apply take_all. rewrite length_app, length_take. lia.
Qed.

(** ** Open files *)

Lemma wf_weaken o m root : wf 0 m root → wf o m root.
Proof using Type.
  intros [A1 A2 A3 A4 A5 A6 A7 A8 A9 A10 A11]. split; try done. intros n x Hx Hp Hr _. apply (A11 n x); try done. intros ->. congruence.
Qed.

Lemma fs_ref_ok s n x : ok s → nodes s !! n = Some x → n_hl x = 0 → n_refs x < 2 ^ 31 - 1 →
  ∃ s', fs_ref s n = Some s' ∧ ok s' ∧ only_file s s' n ∧ nodes s' !! n = Some {| x with n_refs := n_refs x + 1 |}.
Proof using E.
  intros Hok Hx Hl Hr. pose proof (w_refs _ _ _ (ok_wf _ Hok) _ _ Hx). pose proof (w_data _ _ _ (ok_wf _ Hok) _ _ Hx) as [D1 D2 D3 D4].
  unfold fs_ref. rewrite (upd_get _ _ _ _ Hx). set (x' := {| x with n_refs := i32 (n_refs x + 1) |}).
  assert (i32 (n_refs x + 1) = n_refs x + 1) as Er by (apply i32_small; lia).
  assert (mild 0 n x x') as M. { split_and!; try done; cbn; rewrite Er; try lia; try done. intros. split; [done|lia]. }
  destruct (put_st s n x x' Hok Hx M eq_refl) as (Hok' & Ho & _). exists (put s n x'). split_and!; try done. cbn. rewrite lookup_insert_eq. unfold x'. by rewrite Er.
Qed.

(** The last description of a removed file frees it. *)
Lemma fs_release_ok s n x : ok s → nodes s !! n = Some x → n_hl x = 0 → 0 < n_refs x →
  (n_unlinked x = true → n_child x = [] ∧ unbound s n ∧ n ≠ root_ s) →
  ∃ s', fs_release E s n = Some s' ∧ ok s' ∧ only_file s s' n ∧
    nodes s' !! n = if n_unlinked x && (n_refs x =? 1) then None else Some {| x with n_refs := n_refs x - 1 |}.
Proof using Type.
  intros Hok Hx Hl Hr Hun. pose proof (w_refs _ _ _ (ok_wf _ Hok) _ _ Hx) as Hr2. pose proof (w_data _ _ _ (ok_wf _ Hok) _ _ Hx) as [D1 D2 D3 D4].
  pose proof (alive_ne s Hok _ _ Hx) as Hn. unfold fs_release. rewrite (proj2 (Z.eqb_neq n 0)), (upd_get _ _ _ _ Hx) by done. cbn [mbind option_bind].
  set (x' := {| x with n_refs := i32 (n_refs x - 1) |}). assert (i32 (n_refs x - 1) = n_refs x - 1) as Er by (apply i32_small; lia).
  unfold get at 1. cbn [put nodes]. rewrite lookup_insert_eq. cbn [mbind option_bind n_refs x']. rewrite Er.
  assert (n_unlinked x && (n_refs x =? 1) = false → ok (put s n x') ∧ only_file s (put s n x') n ∧ nodes (put s n x') !! n = Some {| x with n_refs := n_refs x - 1 |}) as Hkeep.
  { intros Hk. assert (mild 0 n x x') as M.
    { split_and!; try done; cbn; rewrite Er; try lia; try done.
      intros _ _ Hu' _. rewrite Hu' in Hk. cbn in Hk. bools. split; [done|lia]. }
    destruct (put_st s n x x' Hok Hx M eq_refl) as (Hok' & Ho & _). split_and!; try done. cbn. rewrite lookup_insert_eq. unfold x'. by rewrite Er. }
  destruct (0 <? n_refs x - 1) eqn:E1; bools.
  { rewrite (proj2 (Z.eqb_neq (n_refs x) 1)), andb_false_r in * by lia. eexists. split; [done|]. by apply Hkeep. }
  assert (n_refs x = 1) as Er1 by lia. rewrite Er1 in *. cbn [n_unlinked x']. destruct (n_unlinked x) eqn:Eu; cbn [andb Z.eqb Pos.eqb] in *; [|eexists; split; [done|]; by apply Hkeep].
  destruct (Hun eq_refl) as (Hc & Hub & Hroot). pose proof (ok_unl _ Hok _ _ Hx Eu) as Hp. pose proof (ok_wf _ Hok) as W.
  destruct (w_gone _ _ _ W _ _ Hx Hp Hroot Hn) as (_ & _ & _ & Hh).
  assert (wf 0 (delete n (nodes s)) (root_ s)) as W' by (eapply free_ok; [by apply wf_weaken|done..]).
  assert (∃ e, (let s0 := if free_hook E then log (put s n x') (EFreeHook n) else put s n x' in
      s1 ← fs_data_free (log s0 (EPcFree n)) n; kfree s1 n) = Some (with_nodes s (delete n (nodes s)) e)) as [e He].
  { cbv zeta. assert (∀ s0, nodes s0 = <[n := x']> (nodes s) → (root_ s0, bt s0, recent s0, recent_i s0, sup s0) = (root_ s, bt s, recent s, recent_i s, sup s) →
      (s1 ← fs_data_free (log s0 (EPcFree n)) n; kfree s1 n) = Some (with_nodes s (delete n (nodes s)) (evs s0 ++ [EPcFree n]))) as Hfree.
    { intros s0 En Es. injection Es as E2 E3 E4 E5 E6. unfold fs_data_free, upd, get. cbn [log nodes]. rewrite En, lookup_insert_eq. cbn [mbind option_bind]. unfold kfree, get, put. cbn [nodes log].
      rewrite lookup_insert_eq. cbn [mbind option_bind]. unfold with_nodes. rewrite En, insert_insert_eq, delete_insert_eq. unfold log. cbn [root_ bt recent recent_i sup evs]. by rewrite E2, E3, E4, E5, E6. }
    destruct (free_hook E); eexists; by apply Hfree. }
  eexists. split; [exact He|]. split; [|split; [split|]]; cbn.
  - apply ok_nodes; [done|done| | |].
    + intros k Hk. rewrite lookup_delete in Hk. case_decide; [by destruct Hk|done].
    + intros b Hb Hb0. destruct (ok_bt _ Hok b Hb Hb0), (Hub b Hb Hb0). by rewrite !lookup_delete_ne.
    + intros k y Hk. apply lookup_delete_Some in Hk as [_ Hk]. exact (ok_unl _ Hok _ _ Hk).
  - intros d nm i. by apply (names_delete _ n x).
  - intros i Hi. by apply kept_delete.
  - apply lookup_delete_eq.
Qed.

Section writing.
Context (junk : Z → list Z).
Hypothesis Hjunk : ∀ n, 0 ≤ n → Z.of_nat (length (junk n)) = n.

Definition file (x : fs_node) : Prop := n_type x = FS_FILE.

(** Bytes at an offset of a buffer with room, the rest of the node as it was. *)
Lemma store_st s s1 f x x1 d at' bytes :
  ok s1 → nodes s1 = nodes s → nodes s !! f = Some x → shape x1 = shape x → n_refs x1 = n_refs x → n_unlinked x1 = n_unlinked x →
  n_data x1 = Some d → 0 ≤ at' → at' + Z.of_nat (length bytes) < n_cap x1 → Z.of_nat (length d) = n_cap x1 →
  ∃ d2 e, let x2 := {| x1 with n_data := Some d2; n_size := at' + Z.of_nat (length bytes); n_mtime := fs_now E |} in
    let s' := with_nodes s1 (<[f := x2]> (nodes s1)) e in
    blit d at' (bytes ++ [0]) = Some d2 ∧ fs_touch E (put (put s1 f x1) f x2) f = Some s' ∧ ok s' ∧ only_file s s' f ∧ nodes s' !! f = Some x2 ∧
    shape x2 = shape x ∧ content x2 = Some (take (Z.to_nat at') d ++ bytes).
Proof using Type.
  intros Hok1 En Hx S Er Eu Ed Ha Hc Hl. destruct (blit_ok d at' bytes) as (d2 & -> & Hl2 & Ht2); [lia|lia|].
  set (x2 := {| x1 with n_data := Some d2; n_size := at' + Z.of_nat (length bytes); n_mtime := fs_now E |}).
  rewrite <- En in Hx. pose proof (w_refs _ _ _ (ok_wf _ Hok1) _ _ Hx) as Hr.
  assert (mild 0 f x x2) as M.
  { split_and!; try done; cbn; rewrite ?Er, ?Eu; try lia; [|auto..]. split; cbn; try lia; [|done]. intros d' [= <-]. lia. }
  destruct (put_st s1 f x x2 Hok1 Hx M Eu) as (_ & [Hn Hk] & e & He & Hok2). exists d2, e. cbv zeta. fold x2. rewrite put_put.
  split; [done|]. split; [exact He|]. split; [exact Hok2|]. unfold only_file. cbn [put nodes with_nodes] in *. rewrite En in *. split; [split; [exact Hn|exact Hk]|].
  rewrite lookup_insert_eq. split; [done|]. split; [exact S|]. unfold content. cbn. f_equal. exact Ht2.
Qed.

Lemma put_same s f x : nodes s !! f = Some x → put s f x = s.
Proof using Type. intros Hx. unfold put. rewrite insert_id by done. by destruct s. Qed.

Lemma write_ok s f x bytes :
  ok s → nodes s !! f = Some x → file x →
  ∃ r s' x', fs_write E junk s f bytes = Some (r, s') ∧ ok s' ∧ only_file s s' f ∧ nodes s' !! f = Some x' ∧ shape x' = shape x ∧
    ((r = i32 (Z.of_nat (length bytes)) ∧ content x' = Some bytes) ∨ (r = -1 ∧ content x' = None ∧ n_size x' = 0 ∧ n_cap x ≤ Z.of_nat (length bytes) ∧ dry s)).
Proof using Hjunk.
  intros Hok Hx Hf. pose proof (alive_ne s Hok _ _ Hx) as Hf0. unfold fs_write. rewrite (proj2 (Z.eqb_neq f 0)), (is_some_get _ _ _ Hx) by done.
  cbn [mbind option_bind]. rewrite bool_decide_eq_true_2 by done. cbn [negb]. cbv zeta. set (len := Z.of_nat (length bytes)).
  pose proof (w_data _ _ _ (ok_wf _ Hok) _ _ Hx) as [D1 D2 D3 D4]. pose proof (w_refs _ _ _ (ok_wf _ Hok) _ _ Hx) as Hr.
  destruct (n_cap x <? len + 1) eqn:Ec; bools.
  - unfold fs_data_free. rewrite (upd_get _ _ _ _ Hx). cbn [mbind option_bind]. unfold alloc_ok. destruct (kmalloc s) as [a s1] eqn:Ek.
    destruct (kmalloc_ok s a s1 Hok Ek) as (Hok1 & En & _). set (x0 := {| x with n_data := None; n_cap := 0; n_lazy := 0 |}).
    destruct (kmalloc_put s f x0 a s1 Ek) as [-> _]. rewrite upd_put. cbn [mbind option_bind]. destruct (nz a) eqn:Ea; cbn [negb].
    + set (x1 := {| x0 with n_data := Some (junk (len + 64)); n_cap := len + 64 |}).
      destruct (store_st s s1 f x x1 (junk (len + 64)) 0 bytes) as (d2 & e & Hb & Ht & Hok2 & Ho & Hf2 & S & Hc); try done; [cbn; unfold len; lia|cbn; apply Hjunk; unfold len; lia|].
      unfold get. cbn [put nodes]. rewrite lookup_insert_eq. cbn [mbind option_bind n_data x1]. rewrite Hb. cbn [mbind option_bind]. rewrite Z.add_0_l in Ht. fold len in Ht.
      rewrite Ht. cbn [mbind option_bind]. eexists _, _, _. split; [done|]. split; [exact Hok2|]. split; [exact Ho|]. split; [exact Hf2|]. split; [exact S|]. by left.
    + set (x2 := {| x0 with n_size := 0 |}). assert (mild 0 f x x2) as M by (split_and!; try done; cbn; lia).
      rewrite <- En in Hx. destruct (put_st s1 f x x2 Hok1 Hx M eq_refl) as (Hok2 & Ho & _). rewrite En in Hx. exists (-1), (put s1 f x2), x2. split; [done|].
      split; [done|]. split; [unfold only_file in *; by rewrite En in *|]. cbn. rewrite lookup_insert_eq. split_and!; try done. right. apply nz_false in Ea.
      split_and!; try done; [lia|]. unfold dry. by rewrite Ek.
  - cbn [mbind option_bind negb]. destruct (n_data x) as [d|] eqn:Ed; [|rewrite D4 in Ec by done; lia]. destruct (D2 d eq_refl) as [_ [D5 D6]]; [lia|].
    destruct (store_st s s f x x d 0 bytes) as (d2 & e & Hb & Ht & Hok2 & Ho & Hf2 & S & Hc); try done; [lia|].
    rewrite (is_some_get _ _ _ Hx). cbn [mbind option_bind]. rewrite Ed. cbn [mbind option_bind]. rewrite Hb. cbn [mbind option_bind]. rewrite Z.add_0_l in Ht. fold len in Ht.
    rewrite (put_same _ _ _ Hx) in Ht. rewrite Ht. cbn [mbind option_bind]. eexists _, _, _. split; [done|]. split; [exact Hok2|]. split; [exact Ho|]. split; [exact Hf2|]. split; [exact S|]. by left.
Qed.

(** A file that is not on disk only. *)
Lemma append_ok s f x bytes :
  ok s → nodes s !! f = Some x → file x → (n_data x = None → n_size x = 0) →
  ∃ r s' x', fs_append E junk s f bytes = Some (r, s') ∧ ok s' ∧ only_file s s' f ∧ nodes s' !! f = Some x' ∧ shape x' = shape x ∧
    ((r = i32 (Z.of_nat (length bytes)) ∧ content x' = Some (default [] (content x) ++ bytes)) ∨ (r = -1 ∧ x' = x ∧ n_cap x ≤ n_size x + Z.of_nat (length bytes) ∧ dry s)).
Proof using Hjunk.
  intros Hok Hx Hf Hlazy. pose proof (alive_ne s Hok _ _ Hx) as Hf0. unfold fs_append. rewrite (proj2 (Z.eqb_neq f 0)), (is_some_get _ _ _ Hx) by done.
  cbn [mbind option_bind]. rewrite bool_decide_eq_true_2 by done. cbn [negb]. cbv zeta. set (len := Z.of_nat (length bytes)). set (need := n_size x + len + 1).
  pose proof (w_data _ _ _ (ok_wf _ Hok) _ _ Hx) as [D1 D2 D3 D4]. assert (Z.of_nat (length (junk (need + 64))) = need + 64) as Hj by (apply Hjunk; lia).
  destruct (n_cap x <? need) eqn:Ec; bools.
  - unfold alloc_ok. destruct (kmalloc s) as [a s1] eqn:Ek. destruct (kmalloc_ok s a s1 Hok Ek) as (Hok1 & En & _). destruct (nz a) eqn:Ea; cbn [negb].
    2:{ apply nz_false in Ea. cbn [mbind option_bind negb]. exists (-1), s1, x. split; [done|]. split; [done|]. unfold only_file. rewrite En. split; [split; [done|intros; apply kept_refl]|].
        split_and!; try done. right. split_and!; try done; [lia|]. unfold dry. by rewrite Ek. }
    assert (∃ nb, match n_data x with
        | Some d => if Z.of_nat (length d) <? n_size x then None else blit (junk (need + 64)) 0 (take (Z.to_nat (n_size x)) d)
        | None => Some (junk (need + 64)) end = Some nb ∧ Z.of_nat (length nb) = need + 64 ∧ take (Z.to_nat (n_size x)) nb = default [] (content x)) as (nb & -> & Hnb & Hnt).
    { unfold content. destruct (n_data x) as [d|] eqn:Ed; cbn [fmap option_fmap option_map default].
      - destruct (D2 d eq_refl) as [D5 _]. rewrite (proj2 (Z.ltb_ge _ _)) by lia. unfold blit. rewrite length_take, (proj2 (Z.ltb_ge _ _)) by lia. eexists. split; [done|]. 
        change (take (Z.to_nat 0) (junk (need + 64))) with ([] : list Z). rewrite app_nil_l, length_app, length_take, length_drop. split; [lia|].
        rewrite take_app_le by (rewrite length_take; lia). by rewrite take_take, Nat.min_id.
      - rewrite Hlazy by done. by exists (junk (need + 64)). }
    cbn [mbind option_bind]. rewrite <- En in Hx. unfold fs_data_free. rewrite (upd_get _ _ _ _ Hx). rewrite En in Hx. cbn [mbind option_bind]. rewrite upd_put. cbn [mbind option_bind negb].
    match goal with |- context [put s1 f ?q] => set (x1 := q) end.
    destruct (store_st s s1 f x x1 nb (n_size x) bytes) as (d2 & e & Hb & Ht & Hok2 & Ho & Hf2 & S & Hc); try done; [cbn; lia|].
    unfold get. cbn [put nodes]. rewrite lookup_insert_eq. cbn [mbind option_bind n_data n_size x1]. rewrite Hb. cbn [mbind option_bind]. fold len in Ht.
    rewrite Ht. cbn [mbind option_bind]. eexists _, _, _. split; [done|]. split; [exact Hok2|]. split; [exact Ho|]. split; [exact Hf2|]. split; [exact S|]. left. by rewrite <- Hnt.
  - cbn [mbind option_bind negb]. destruct (n_data x) as [d|] eqn:Ed; [|rewrite D4 in Ec by done; lia]. destruct (D2 d eq_refl) as [D7 [D5 D6]]; [lia|].
    destruct (store_st s s f x x d (n_size x) bytes) as (d2 & e & Hb & Ht & Hok2 & Ho & Hf2 & S & Hc); try done; [lia|].
    rewrite (is_some_get _ _ _ Hx). cbn [mbind option_bind]. rewrite Ed. cbn [mbind option_bind]. rewrite Hb. cbn [mbind option_bind]. fold len in Ht.
    rewrite (put_same _ _ _ Hx) in Ht. rewrite Ht. cbn [mbind option_bind]. eexists _, _, _. split; [done|]. split; [exact Hok2|]. split; [exact Ho|]. split; [exact Hf2|]. split; [exact S|].
    left. split; [done|]. rewrite Hc. unfold content at 1. by rewrite Ed.
Qed.

End writing.
End ops.

End FsOps.
