(* ===== verification/FsSpec.v ===== *)
(** * What the file tree promises

    The operations of [Fs] against a specification on two things: the names, a
    relation from a directory and a name to a file, and the contents of the
    files.  Then: lookups end, the path of a node leads back to it, and what
    goes wrong with removed directories, aliases and long paths. *)

From S2P Require Import Prelude Fs FsTree FsOps.

Module FsSpec.
Import Fs FsTree FsOps.

(** ** Operations and their specification *)

Inductive op :=
  | Create (cwd : Z) (path : list Z) (ty : fs_type_t)
  | Symlink (dir : Z) (nm target : list Z)
  | Hlink (t dir : Z) (nm : list Z)
  | Drop (n : Z)
  | Unlink (cwd : Z) (path : list Z)
  | Rename (n dir : Z) (nm : list Z)
  | Write (f : Z) (bytes : list Z)
  | Append (f : Z) (bytes : list Z)
  | Open (n : Z)
  | Release (n : Z).

Section refinement.
Context (E : env) (junk : Z → list Z).

(** With the answer of the operation, 0 for those that give none. *)
Definition run (o : op) (s : fs_t) : option (Z * fs_t) :=
  match o with
  | Create cwd path ty => fs_create E s cwd path ty
  | Symlink dir nm target => fs_symlink E s dir nm target
  | Hlink t dir nm => fs_hlink E s t dir nm
  | Drop n => s ← fs_drop_name E s n; Some (0, s)
  | Unlink cwd path => fs_unlink E s cwd path
  | Rename n dir nm => s ← rename_to E s n dir nm; Some (0, s)
  | Write f bytes => fs_write E junk s f bytes
  | Append f bytes => fs_append E junk s f bytes
  | Open n => s ← fs_ref s n; Some (0, s)
  | Release n => s ← fs_release E s n; Some (0, s)
  end.

(** The name [n] can go: it has a place, nothing is below it, and no alias is
    about it or another name of the file. *)
Definition removable (s : fs_t) (n : Z) (x : fs_node) : Prop :=
  n_parent x ≠ 0 ∧ n_child x = [] ∧ ∀ k y, nodes s !! k = Some y → k = n ∨ n_hl y = n → unbound s k.

(** When the operations are specified.  Most of it the callers make sure of (nodes
    that are there, a directory to put a name into that is not below the node that
    moves, a name that is free and at most 127 bytes long, counts that do not
    overflow); not so that the directory part of a path fits 255 bytes in [Create],
    that no alias is about a node that goes, and that a directory removed while it is
    open has got no files since when it is released ([removed_dir_dangles] is what
    happens otherwise). *)
Definition pre (o : op) (s : fs_t) : Prop :=
  match o with
  | Create cwd path _ => is_Some (nodes s !! cwd) ∧ is_Some (split_dir_base path)
  | Symlink dir nm _ => ptr s dir ∧ (length nm ≤ 127)%nat
  | Hlink t dir nm => ∃ x d, nodes s !! t = Some x ∧ n_hl x = 0 ∧ is_dir x = false ∧ n_parent x ≠ 0 ∧ n_xl x < 2 ^ 16 - 1 ∧
      nodes s !! dir = Some d ∧ is_dir d = true ∧ unused (nodes s) dir nm ∧ (length nm ≤ 127)%nat
  | Drop n => ∃ x, nodes s !! n = Some x ∧ removable s n x
  | Unlink cwd path => is_Some (nodes s !! cwd) ∧ ∀ n x, resolve E s cwd path false true = Some n → nodes s !! n = Some x → n ≠ root_ s →
      (is_dir x = true → n_child x = []) → removable s n x
  | Rename n dir nm => ∃ x d l, nodes s !! n = Some x ∧ n_parent x ≠ 0 ∧ nodes s !! dir = Some d ∧ is_dir d = true ∧
      ups (nodes s) dir l ∧ (n ∉ l) ∧ unused (nodes s) dir nm ∧ (length nm ≤ 127)%nat
  | Write f _ => ∃ x, nodes s !! f = Some x ∧ file x
  | Append f _ => ∃ x, nodes s !! f = Some x ∧ file x ∧ (n_data x = None → n_size x = 0)
  | Open n => ∃ x, nodes s !! n = Some x ∧ n_hl x = 0 ∧ n_refs x < 2 ^ 31 - 1
  | Release n => ∃ x, nodes s !! n = Some x ∧ n_hl x = 0 ∧ 0 < n_refs x ∧
      (n_unlinked x = true → n_child x = [] ∧ unbound s n ∧ n ≠ root_ s)
  end.

Definition all_kept (s s' : fs_t) : Prop := ∀ i, kept (nodes s) (nodes s') i.

(** What each operation does to names and contents, and the answer [r].  When nothing
    is done the reason is given: there is no place for the name, the file cannot be
    removed, or the allocator answered NULL. *)
Definition spec (o : op) (s : fs_t) (r : Z) (s' : fs_t) : Prop :=
  match o with
  | Create cwd path _ => ∃ par dir base, split_dir_base path = Some (dir, base) ∧ parent_of E s cwd dir = Some par ∧
      made (dry s) s s' par base r ∧ all_kept s s'
  | Symlink dir nm target => made (dry s ∨ dry (kmalloc s).2) s s' dir nm r ∧ all_kept s s' ∧
      (r ≠ 0 → ∃ x, nodes s' !! r = Some x ∧ n_type x = FS_LINK ∧ content x = Some target)
  | Hlink t dir nm => all_kept s s' ∧
      ((r = -1 ∧ nodes s' = nodes s ∧ dry s) ∨ (r = 0 ∧ plus_name (nodes s) (nodes s') dir nm t))
  | Drop n => ∃ x, nodes s !! n = Some x ∧ dropped s s' n x
  | Unlink cwd path => ∃ n, resolve E s cwd path false true = Some n ∧
      ((r = -1 ∧ nodes s' = nodes s ∧
          (n = 0 ∨ n = root_ s ∨ ∃ x, nodes s !! n = Some x ∧ is_dir x = true ∧ n_child x ≠ [])) ∨
       (r = 0 ∧ ∃ x, nodes s !! n = Some x ∧ dropped s s' n x))
  | Rename n dir nm => ∃ x, nodes s !! n = Some x ∧ moved_name (nodes s) (nodes s') (n_parent x) (n_name x) dir nm (inode n x) ∧ all_kept s s'
  | Write f bytes => only_file s s' f ∧ ∃ x x', nodes s !! f = Some x ∧ nodes s' !! f = Some x' ∧
      ((r = i32 (Z.of_nat (length bytes)) ∧ content x' = Some bytes) ∨
       (r = -1 ∧ content x' = None ∧ n_size x' = 0 ∧ n_cap x ≤ Z.of_nat (length bytes) ∧ dry s))
  | Append f bytes => only_file s s' f ∧ ∃ x x', nodes s !! f = Some x ∧ nodes s' !! f = Some x' ∧
      ((r = i32 (Z.of_nat (length bytes)) ∧ content x' = Some (default [] (content x) ++ bytes)) ∨
       (r = -1 ∧ x' = x ∧ n_cap x ≤ n_size x + Z.of_nat (length bytes) ∧ dry s))
  | Open n => only_file s s' n ∧ ∃ x, nodes s !! n = Some x ∧ nodes s' !! n = Some {| x with n_refs := n_refs x + 1 |}
  | Release n => only_file s s' n ∧ ∃ x, nodes s !! n = Some x ∧
      nodes s' !! n = if n_unlinked x && (n_refs x =? 1) then None else Some {| x with n_refs := n_refs x - 1 |}
  end.

Lemma unlink_st s cwd path : ok s → env_ok E s → pre (Unlink cwd path) s →
  ∃ r s', fs_unlink E s cwd path = Some (r, s') ∧ ok s' ∧ spec (Unlink cwd path) s r s'.
Proof using Type.
  intros Hok He [Hc Hp]. unfold fs_unlink. destruct (resolve_ok E s Hok He cwd path false true Hc) as (n & Hr & Hn). rewrite Hr. cbn [mbind option_bind].
  assert (n = 0 ∨ n = root_ s ∨ (∃ x, nodes s !! n = Some x ∧ is_dir x = true ∧ n_child x ≠ []) →
    ∃ r s', Some (-1, s) = Some (r, s') ∧ ok s' ∧ spec (Unlink cwd path) s r s') as Hno.
  { intros Hwhy. exists (-1), s. split; [done|]. split; [done|]. exists n. split; [done|]. by left. }
  destruct ((n =? 0) || (n =? root_ s)) eqn:E0; [apply Hno; apply orb_true_iff in E0 as [?|?]; bools; auto|]. bools.
  destruct Hn as [?|[x Hx]]; [done|]. rewrite (is_some_get _ _ _ Hx). cbn [mbind option_bind].
  destruct (is_dir x && nonempty (n_child x)) eqn:E1.
  { apply Hno. right; right. exists x. apply andb_true_iff in E1 as [? E1]. split; [done|]. split; [done|]. by intros Hz; rewrite Hz in E1. }
  destruct (Hp n x Hr Hx) as (H1 & H2 & H3); [done| |].
  { intros Hd. rewrite Hd in E1. cbn in E1. by destruct (n_child x). }
  destruct (drop_name_ok E s n x Hok Hx H1 H2 H3) as (s' & -> & Hok' & Hdr). cbn [mbind option_bind]. exists 0, s'. split; [done|]. split; [done|].
  exists n. split; [done|]. right. split; [done|]. by exists x.
Qed.

(** C24: on a well-formed tree, every operation whose precondition [pre] holds
    completes, leaves the tree well-formed and does to the names and contents what
    its specification says: creating a file, a link or a second name adds that one
    name in that directory and keeps every file, or answers that there is no place
    for the name or no memory; renaming moves one name; removing one of several names
    keeps the file, removing the last frees it unless it is open, and an open file
    lives until its last descriptor goes; writing and appending change the bytes of
    one file and no name, or say that there is no memory.  [pre] asks that nodes exist
    and names are free, and also what callers do not ensure: no alias is about a node
    that is removed, and a directory removed while open is empty when released. *)
Theorem fs_refines o s :
  (∀ n, 0 ≤ n → Z.of_nat (length (junk n)) = n) → ok s → env_ok E s → pre o s →
  ∃ r s', run o s = Some (r, s') ∧ ok s' ∧ spec o s r s'.
Proof using Type.
  intros Hj Hok He Hp. destruct o; cbn [run pre spec] in *.
  - destruct Hp as [Hc [[dir base] Hs]]. destruct (create_ok E s cwd path ty dir base Hok He Hc Hs) as (n & s' & par & -> & Hok' & Hpo & Hm & Hk).
    exists n, s'. split; [done|]. split; [done|]. by exists par, dir, base.
  - destruct Hp as [Hd Hl]. destruct (symlink_ok E s dir nm target Hok Hd Hl) as (n & s' & -> & Hok' & Hm & Hx & Hk).
    exists n, s'. split; [done|]. split; [done|]. split; [done|]. split; [done|]. intros Hn. eexists. split; [by apply Hx|]. split; [done|].
    unfold content. cbn. f_equal. by rewrite Nat2Z.id, take_app_length.
  - destruct Hp as (x & d & H1 & H2 & H3 & H4 & H5 & H6 & H7 & H8 & H9).
    destruct (hlink_ok E s t x dir d nm Hok H1 H2 H3 H4 H5 H6 H7 H8 H9) as (r & s' & -> & Hok' & Hk & Hr). by exists r, s'.
  - destruct Hp as (x & Hx & H1 & H2 & H3). destruct (drop_name_ok E s n x Hok Hx H1 H2 H3) as (s' & -> & Hok' & Hd).
    exists 0, s'. split; [done|]. split; [done|]. by exists x.
  - by apply unlink_st.
  - destruct Hp as (x & d & l & H1 & H2 & H3 & H4 & H5 & H6 & H7 & H8). unfold rename_to. rewrite take_all by done.
    destruct (move_st E s n x dir d l nm Hok H1 H2 H3 H4 H5 H6 H7) as (m' & e & -> & Hok' & Hm & Hk & _). eexists 0, _. split; [done|]. split; [done|]. by exists x.
  - destruct Hp as (x & Hx & Hf). destruct (write_ok E junk Hj s f x bytes Hok Hx Hf) as (r & s' & x' & -> & Hok' & Ho & Hx' & _ & Hc).
    exists r, s'. split; [done|]. split; [done|]. split; [done|]. by exists x, x'.
  - destruct Hp as (x & Hx & Hf & Hl). destruct (append_ok E junk Hj s f x bytes Hok Hx Hf Hl) as (r & s' & x' & -> & Hok' & Ho & Hx' & _ & Hc).
    exists r, s'. split; [done|]. split; [done|]. split; [done|]. by exists x, x'.
  - destruct Hp as (x & Hx & Hl & Hr). destruct (fs_ref_ok E s n x Hok Hx Hl Hr) as (s' & -> & H2 & H3 & H4). exists 0, s'. split_and!; try done. by exists x.
  - destruct Hp as (x & Hx & Hl & Hr & Hu). destruct (fs_release_ok E s n x Hok Hx Hl Hr Hu) as (s' & -> & H2 & H3 & H4). exists 0, s'. split_and!; try done. by exists x.
Qed.

(** C25: a lookup ends, with a node of the tree or NULL, whatever the path and
    wherever symbolic links lead. *)
Theorem lookup_ends s cwd path follow dent :
  ok s → env_ok E s → is_Some (nodes s !! cwd) → ∃ r, resolve E s cwd path follow dent = Some r ∧ (r = 0 ∨ is_Some (nodes s !! r)).
Proof using Type. intros Hok He Hc. by apply resolve_ok. Qed.

End refinement.

(** ** A small tree *)

Definition E0 : env := Env 0 0 0 (λ _, false) false false false.
Definition junk0 (n : Z) : list Z := replicate (Z.to_nat n) 0.

Lemma junk0_ok n : 0 ≤ n → Z.of_nat (length (junk0 n)) = n.
Proof. intros Hn. unfold junk0. rewrite length_replicate. lia. Qed.

(** The root alone; the allocator answers 2, 3, 4, ... *)
Definition root0 : fs_node := new_node E0 (str "/") FS_DIR 0.
Definition s0 : fs_t := FsT {[1 := root0]} 1 [Bind 0 0 0] (replicate 8 0) 0 (seqZ 2 10) [].

Lemma s0_only n x : nodes s0 !! n = Some x → n = 1 ∧ x = root0.
Proof. cbn. by intros [-> ->]%lookup_singleton_Some. Qed.

Lemma s0_ok : ok s0.
Proof.
  split; [split| | | |].
  - done.
  - exists root0. done.
  - intros n x [-> ->]%s0_only. exists [1]. econstructor; [done|done|constructor].
  - by intros n x [-> ->]%s0_only.
  - intros d x [-> ->]%s0_only. cbn. split; [constructor|]. intros c. split; [by intros ?%not_elem_of_nil|]. by intros (y & [-> ->]%s0_only & ?).
  - by intros a b x y [-> ->]%s0_only [-> ->]%s0_only.
  - intros t x [-> ->]%s0_only. cbn. split_and!; [constructor|done|done|]. intros a. split; [by intros ?%not_elem_of_nil|]. by intros (y & [-> ->]%s0_only & ?).
  - by intros n x [-> ->]%s0_only.
  - intros n x [-> ->]%s0_only. split; cbn; try done; lia.
  - intros n x [-> ->]%s0_only. cbn. lia.
  - by intros n x [-> ->]%s0_only.
  - cbn. repeat (split; [right; split; [done|by apply (bool_decide_unpack _)]|]). done.
  - done.
  - intros b Hb. cbn in Hb. apply list_elem_of_singleton in Hb as ->. done.
  - by intros n x [-> ->]%s0_only.
Qed.

Lemma fs_refines_witness : ∃ r s', run E0 junk0 (Symlink 1 (str "a") (str "a")) s0 = Some (r, s') ∧ ok s' ∧
  spec E0 (Symlink 1 (str "a") (str "a")) s0 r s'.
Proof.
  apply (fs_refines E0 junk0 (Symlink 1 (str "a") (str "a")) s0 junk0_ok s0_ok); [by left|]. split; [right; by eexists|]. cbn. lia.
Defined.

(** The tree with a symbolic link [a] that leads to itself. *)
Definition s1 : fs_t := default s0 (snd <$> fs_symlink E0 s0 1 (str "a") (str "a")).

Lemma s1_ok : ok s1 ∧ nodes s1 !! 2 = Some (link_node E0 (str "a") (str "a") 1).
Proof.
  destruct (symlink_ok E0 s0 1 (str "a") (str "a") s0_ok) as (n & s' & Hr & Hok & _ & Hx & _); [right; by eexists|cbn; lia|].
  unfold s1. rewrite Hr. cbn [fmap option_fmap option_map snd default]. split; [done|].
  assert (n = 2) as -> by (assert (fst <$> fs_symlink E0 s0 1 (str "a") (str "a") = Some 2) as E2 by (vm_compute; reflexivity); rewrite Hr in E2; by injection E2).
  by apply Hx.
Qed.

Lemma lookup_ends_witness : is_Some (nodes s1 !! 1) ∧ ∃ r, resolve E0 s1 1 (str "/a/b") true false = Some r ∧ (r = 0 ∨ is_Some (nodes s1 !! r)).
Proof.
  split; [vm_compute; by eexists|]. apply (lookup_ends E0 s1 1 (str "/a/b") true false); [apply s1_ok|by left|vm_compute; by eexists].
Defined.

Example loop_refused : resolve E0 s1 1 (str "/a/b") true false = Some 0 ∧ resolve E0 s1 1 (str "/a") false false = Some 2.
Proof. vm_compute. done. Qed.

(** ** What goes wrong *)

(** Two directories, one an alias of the other, and the first is removed. *)
Definition alias_run : option fs_t :=
  '(a, s) ← fs_create E0 s0 1 (str "a") FS_DIR;
  '(b, s) ← fs_create E0 s 1 (str "b") FS_DIR;
  '(_, s) ← fs_bind E0 s a b;
  '(_, s) ← fs_unlink E0 s 1 (str "/a");
  Some s.

(** An open directory is removed, gets a file that is opened, and is closed. *)
Definition orphan_run : option fs_t :=
  '(d, s) ← fs_create E0 s0 1 (str "d") FS_DIR;
  s ← fs_ref s d;
  '(_, s) ← fs_unlink E0 s 1 (str "/d");
  '(f, s) ← fs_create E0 s d (str "f") FS_FILE;
  s ← fs_ref s f;
  fs_release E0 s d.

(** Removing a directory can leave pointers to it behind: an alias of a removed
    directory still shows it, so that the next lookup through the alias uses freed
    memory; and a file made in a directory that was removed while open keeps it as
    parent after the last close frees it, so that the next write to the file uses
    freed memory. *)
Theorem removed_dir_dangles :
  (∃ s, alias_run = Some s ∧ is_Some (nodes s !! 3) ∧ fs_peek E0 s 1 (str "/b/x") true = None) ∧
  (∃ s, orphan_run = Some s ∧ is_Some (nodes s !! 3) ∧ nodes s !! 2 = None ∧ fs_write E0 junk0 s 3 [65] = None).
Proof.
  split.
  - eexists. split; [vm_compute; reflexivity|]. split; [vm_compute; by eexists|]. vm_compute. reflexivity.
  - eexists. split; [vm_compute; reflexivity|]. split; [vm_compute; by eexists|]. split; vm_compute; reflexivity.
Qed.

(** Three directories in each other, their names as long as names may be. *)
Definition long : list Z := replicate 127 120.

Definition deep_run : option (Z * fs_t) :=
  '(a, s) ← fs_create E0 s0 1 long FS_DIR;
  '(b, s) ← fs_create E0 s a long FS_DIR;
  fs_create E0 s b long FS_DIR.

(** The path of a node with three long names runs over the end of the 256 bytes
    that fs_path keeps on the stack. *)
Theorem path_overflow : ∃ n s, deep_run = Some (n, s) ∧ n ≠ 0 ∧ fs_path E0 s n 4096 = None.
Proof. eexists _, _. split; [vm_compute; reflexivity|]. split; [done|]. vm_compute. reflexivity. Qed.

End FsSpec.
