(* ===== verification/FsPath.v ===== *)
(** * Paths of nodes lead back to them

    [fs_path] writes the names from the root of the process down to a node; a
    lookup of what it wrote finds the node. *)

From S2P Require Import Prelude Fs FsTree FsOps FsSpec.

Module FsPath.
Import Fs FsTree FsOps.

Section paths.
Context (E : env) (s : fs_t).

Definition name_of (k : Z) : list Z := default [] (n_name <$> nodes s !! k).

(** The path through [q], from the top. *)
Fixpoint path_of (q : list Z) : list Z := match q with [] => [] | c :: q => SL :: name_of c ++ path_of q end.

(** A name that a lookup can find. *)
Record plain (x : fs_node) : Prop := {
  pl_ne : n_name x ≠ []; pl_slash : SL ∉ n_name x; pl_dot : n_name x ≠ str "."; pl_dots : n_name x ≠ str ".."; pl_len : (length (n_name x) ≤ 127)%nat;
  pl_bnd : n_bnd x = false
}.

Lemma plain_ne x : plain x → nonempty (n_name x) = true.
Proof using Type. intros Hp. pose proof (pl_ne _ Hp). by destruct (n_name x). Qed.

(** From [cur] down through [q], each the child of the one before. *)
Fixpoint downs (cur : Z) (q : list Z) : Prop :=
  match q with [] => True | c :: q => (∃ x, nodes s !! c = Some x ∧ n_parent x = cur ∧ plain x) ∧ downs c q end.

Definition last_of (cur : Z) (q : list Z) : Z := default cur (last q).

Lemma last_of_cons cur c q : last_of cur (c :: q) = last_of c q.
Proof using Type. unfold last_of. rewrite last_cons. by destruct (last q). Qed.

Lemma downs_snoc cur q a : downs cur q → (∃ x, nodes s !! a = Some x ∧ n_parent x = last_of cur q ∧ plain x) → downs cur (q ++ [a]).
Proof using Type.
  revert cur. induction q as [|c q IH]; intros cur Hq Ha; [done|]. cbn in *. destruct Hq as [H1 H2]. split; [done|]. apply IH; [done|]. by rewrite last_of_cons in Ha.
Qed.

Lemma path_of_app q r : path_of (q ++ r) = path_of q ++ path_of r.
Proof using Type. induction q as [|c q IH]; [done|]. cbn. by rewrite IH, <- app_assoc. Qed.

Lemma ups_downs n l rt up : ups (nodes s) n (l ++ rt :: up) → (∀ k x, k ∈ l → nodes s !! k = Some x → plain x) → downs rt (rev l) ∧ last_of rt (rev l) = n.
Proof using Type.
  revert n. induction l as [|a l IH]; intros n Hu Hp; [inversion Hu; subst; done|]. inversion Hu as [|? x ? Hn Hx Hu' E1 E2]; subst.
  destruct (IH _ Hu') as [H1 H2]; [intros k y Hk; apply Hp; by right|]. cbn [rev]. split.
  - apply downs_snoc; [done|]. exists x. split_and!; [done|done|]. apply (Hp a x); [by left|done].
  - unfold last_of. by rewrite last_snoc.
Qed.

(** ** Writing the path *)

Lemma up_until_rt n l rt up k : ups (nodes s) n (l ++ rt :: up) → (length l ≤ k)%nat → up_until k s n rt = Some rt.
Proof using Type.
  revert n k. induction l as [|a l IH]; intros n k Hu Hk.
  - inversion Hu; subst. destruct k; cbn [up_until]; by rewrite Z.eqb_refl, orb_true_r.
  - pose proof (ups_nodup _ _ _ Hu) as Hd. apply NoDup_cons in Hd as [Hna _].
    inversion Hu as [|? x ? Hn Hx Hu' E1 E2]; subst. destruct k as [|k]; cbn in Hk; [lia|]. cbn [up_until].
    rewrite (proj2 (Z.eqb_neq a 0)), (proj2 (Z.eqb_neq a rt)) by (try done; intros ->; set_solver). cbn [orb]. unfold get. rewrite Hx. cbn [mbind option_bind]. apply IH; [done|lia].
Qed.

Lemma up_until_top n l k : ups (nodes s) n l → (length l ≤ k)%nat → up_until k s n 0 = Some 0.
Proof using Type.
  intros Hu. revert k. induction Hu as [|n x l Hn Hx H IH]; intros k Hk; [by destruct k|]. destruct k as [|k]; cbn in Hk; [lia|]. cbn [up_until].
  rewrite (proj2 (Z.eqb_neq n 0)) by done. cbn [orb]. unfold get. rewrite Hx. cbn [mbind option_bind]. apply IH. lia.
Qed.

Lemma parts_up_ok n l rt up room : ups (nodes s) n (l ++ rt :: up) → (length l ≤ room)%nat → parts_up room s n rt = Some l.
Proof using Type.
  revert n room. induction l as [|a l IH]; intros n k Hu Hk.
  - inversion Hu; subst. destruct k; cbn [parts_up]; by rewrite Z.eqb_refl, orb_true_r.
  - pose proof (ups_nodup _ _ _ Hu) as Hd. apply NoDup_cons in Hd as [Hna _].
    inversion Hu as [|? x ? Hn Hx Hu' E1 E2]; subst. destruct k as [|k]; cbn in Hk; [lia|]. cbn [parts_up].
    rewrite (proj2 (Z.eqb_neq a 0)), (proj2 (Z.eqb_neq a rt)) by (try done; intros ->; set_solver). cbn [orb]. unfold get. rewrite Hx. cbn [mbind option_bind].
    rewrite (IH _ k Hu') by lia. done.
Qed.

Lemma put_parts_ok q : ∀ cur tmp, downs cur q → (length tmp + length (path_of q) ≤ 255)%nat → put_parts s tmp q = Some (tmp ++ path_of q).
Proof using Type.
  induction q as [|c q IH]; intros cur tmp Hq Hl; cbn [put_parts path_of]; [by rewrite app_nil_r|]. destruct Hq as [(x & Hx & _ & Hp) Hq].
  assert (name_of c = n_name x) as En by (unfold name_of; by rewrite Hx).
  cbn [path_of length] in Hl. rewrite length_app, En in Hl. unfold put_part. rewrite (proj2 (Z.leb_gt _ _)) by lia. unfold get. rewrite Hx. cbn [mbind option_bind].
  rewrite En, take_all by lia. rewrite (IH c).
  - by rewrite <- app_assoc.
  - done.
  - rewrite length_app. cbn. lia.
Qed.

(** ** Reading it *)

Section reading.
Hypothesis Hok : ok s.
Context (jump : Z → list Z → option Z) (follow : bool) (depth : Z) (rt : Z).

Lemma push_all nm : ∀ p part cur, SL ∉ nm → (length part + length nm ≤ 127)%nat →
  walk E jump s follow depth false rt (nm ++ p) part cur = walk E jump s follow depth false rt p (part ++ nm) cur.
Proof using Type.
  induction nm as [|c nm IH]; intros p part cur Hs Hl; [by rewrite app_nil_r|]. apply not_elem_of_cons in Hs as [Hc Hs]. cbn in Hl.
  cbn [app walk]. rewrite (proj2 (Z.eqb_neq c SL)) by done. unfold push, FS_NAME_MAX. rewrite (proj2 (Z.ltb_lt _ _)) by lia. rewrite IH; [|done|rewrite length_app; cbn; lia].
  by rewrite <- app_assoc.
Qed.

Lemma segment_child p c x cur :
  nodes s !! c = Some x → n_parent x = cur → cur ≠ 0 → plain x → n_hl x = 0 → is_link x && (nonempty (skip_slashes p) || follow) = false →
  segment E jump s follow depth false rt p (n_name x) cur = Some (inr c).
Proof using Hok.
  intros Hx Hp Hc Hpl Hl Hk. unfold segment. unfold eqs at 1. rewrite bool_decide_eq_false_2 by apply Hpl. rewrite andb_false_r.
  rewrite <- Hp in Hc. destruct (w_parent _ _ _ (ok_wf _ Hok) _ _ Hx Hc) as (d & Hd & Hdir). rewrite Hp in *.
  destruct (find_child_ok s Hok cur (n_name x)) as (c' & -> & _ & Hr); [right; by eexists|]. cbn [mbind option_bind].
  assert (c' = c) as ->.
  { destruct (Hr (pl_dot _ Hpl) (pl_dots _ Hpl) d Hd Hdir) as [[_ Hno]|(y & Hy & Hyp & Hyn)]; [by destruct (Hno c x Hx Hp)|].
    eapply (w_uniq _ _ _ (ok_wf _ Hok) c' c y x); try done; congruence. }
  rewrite (proj2 (Z.eqb_neq c 0)) by (by eapply (alive_ne s Hok c x)). unfold get. rewrite Hx. cbn [mbind option_bind]. rewrite (pl_bnd _ Hpl), Hx. cbn [mbind option_bind].
  rewrite (proj2 (nz_false _) Hl). cbn [andb]. rewrite Hx. cbn [mbind option_bind]. by rewrite Hk.
Qed.

(** A node with something below it is a directory. *)
Lemma inner_dir c x k y : nodes s !! c = Some x → nodes s !! k = Some y → n_parent y = c → n_hl x = 0 ∧ is_link x = false.
Proof using Hok.
  intros Hx Hy Hp. pose proof (alive_ne s Hok c x Hx) as Hc. rewrite <- Hp in Hc.
  destruct (w_parent _ _ _ (ok_wf _ Hok) _ _ Hy Hc) as (d & Hd & Hdir). rewrite Hp in Hd. assert (d = x) as -> by congruence. split.
  - destruct (decide (n_hl x = 0)); [done|]. destruct (w_hl _ _ _ (ok_wf _ Hok) _ _ Hx) as (H1 & _); [done|]. congruence.
  - unfold is_dir, is_link in *. apply bool_decide_eq_true in Hdir. rewrite Hdir. done.
Qed.

Lemma walk_down q : ∀ cur c, cur ≠ 0 → downs cur (c :: q) →
  (∀ x, nodes s !! last_of c q = Some x → n_hl x = 0 ∧ is_link x && follow = false) →
  walk E jump s follow depth false rt (name_of c ++ path_of q) [] cur = Some (last_of c q).
Proof using Hok.
  induction q as [|c' q IH]; intros cur c Hcur [(x & Hx & Hp & Hpl) Hq] Hlast; unfold name_of; rewrite Hx; cbn [fmap option_fmap option_map default from_option]; unfold id.
  - rewrite push_all; [|apply Hpl|apply Hpl]. cbn [path_of walk app]. rewrite (plain_ne x Hpl).
    destruct (Hlast x Hx) as [Hl Hk]. rewrite (segment_child [] c x cur); try done; cbn; by destruct (is_link x), follow.
  - pose proof Hq as [(y & Hy & Hyp & _) _]. destruct (inner_dir c x c' y Hx Hy Hyp) as [Hl Hk].
    rewrite push_all; [|apply Hpl|apply Hpl]. cbn [path_of walk app]. rewrite Z.eqb_refl. rewrite (plain_ne x Hpl).
    rewrite (segment_child _ c x cur); try done; [|by rewrite Hk]. cbn [mbind option_bind]. rewrite last_of_cons in *. apply IH; [by eapply (alive_ne s Hok)|done|done].
Qed.
End reading.

(** C26: for a node below the root of the process, through at most 64 directories and
    with at most 255 bytes of names and slashes, fs_path writes the complete path
    into a buffer of at least 256 bytes, and a lookup of that path from any directory
    finds the node again.  This is so when no node on the way is the target of an
    alias (a bind mount shows something else there), the names on the way are
    ordinary ones, the node is neither a second name of a file (the lookup finds the
    file) nor a symbolic link that the lookup follows, and the process has a root of
    its own or is in the first mount namespace. *)
Theorem path_lookup n x l up cwd follow cap :
  ok s → env_ok E s → nodes s !! n = Some x → ups (nodes s) n (l ++ proc_rt E s :: up) → l ≠ [] →
  (length l ≤ 64)%nat → (length (path_of (rev l)) ≤ 255)%nat → 256 ≤ cap →
  (∀ k y, k ∈ l → nodes s !! k = Some y → plain y) → proc_root E ≠ 0 ∨ proc_mntns E = 0 →
  n_hl x = 0 → is_link x && follow = false →
  fs_path E s n cap = Some (path_of (rev l)) ∧ resolve E s cwd (path_of (rev l)) follow false = Some n.
Proof using Type.
  intros Hok He Hx Hu Hl Hd Hlen Hcap Hp Hmnt Hhl Hk. set (rt := proc_rt E s) in *. destruct (ups_downs n l rt up Hu Hp) as [Hdn Hlast].
  pose proof (alive_ne s Hok n x Hx) as Hn.
  assert (n ≠ rt) as Hnr.
  { destruct l as [|a l]; [done|]. inversion Hu as [|? ? ? ? ? ? E1 E2]; subst. pose proof (ups_nodup _ _ _ Hu) as Hnd. apply NoDup_cons in Hnd as [Hna _]. set_solver. }
  assert (rt ≠ 0) as Hr0. { destruct (proc_rt_ok E s Hok He) as [r Hr]. by eapply (alive_ne s Hok). }
  pose proof (ups_length _ _ _ Hu) as Hsz. rewrite length_app in Hsz. cbn in Hsz. split.
  - unfold fs_path. cbn [fs_path_n]. rewrite (proj2 (Z.eqb_neq n 0)) by done.
    assert (∃ a, up_until (turns s) s n (proc_root E) = Some a ∧ (a =? 0) && nz (proc_mntns E) = false ∧ (if a =? 0 then root_ s else proc_root E) = rt) as (a & -> & Ha & Ert).
    { unfold rt, proc_rt in *. destruct (nz (proc_root E)) eqn:Er.
      - apply nz_true in Er. exists (proc_root E). rewrite (proj2 (Z.eqb_neq (proc_root E) 0)) by done. split; [|done]. eapply up_until_rt; [exact Hu|]. unfold turns. lia.
      - apply nz_false in Er. exists 0. rewrite Er. split; [|split; [|done]].
        + eapply up_until_top; [exact Hu|]. rewrite length_app. unfold turns. cbn. lia.
        + destruct Hmnt as [?|Hm]; [done|]. by rewrite Hm. }
    cbn [mbind option_bind]. rewrite Ha. cbn [mbind option_bind]. cbv zeta. rewrite Ert, (proj2 (Z.eqb_neq n rt)) by done. rewrite (parts_up_ok n l rt up 64 Hu Hd). cbn [mbind option_bind].
    rewrite (put_parts_ok (rev l) rt []); [|done|cbn; lia]. cbn [mbind option_bind app]. rewrite (proj2 (Z.leb_gt _ _)) by lia.
    unfold copy_out. rewrite (proj2 (Z.leb_gt _ _)) by lia. rewrite take_all; [done|lia].
  - destruct (rev l) as [|c q] eqn:Er. { by destruct Hnr. }
    cbn [path_of]. unfold resolve. cbn [resolve_n]. rewrite Z.eqb_refl. fold rt. rewrite last_of_cons in Hlast. rewrite (walk_down Hok); [by rewrite Hlast|done|exact Hdn|].
    rewrite Hlast. intros y Hy. by assert (y = x) as -> by congruence.
Qed.

End paths.

(** The tree with one directory [d]. *)
Definition sd : fs_t := default FsSpec.s0 (snd <$> fs_create FsSpec.E0 FsSpec.s0 1 (str "d") FS_DIR).

Lemma sd_ok : ok sd.
Proof.
  destruct (create_ok FsSpec.E0 FsSpec.s0 1 (str "d") FS_DIR [] (str "d") FsSpec.s0_ok) as (n & s' & par & Hr & Hok & _); [by left|by eexists|done|].
  unfold sd. by rewrite Hr.
Qed.

Lemma path_lookup_witness : fs_path FsSpec.E0 sd 2 256 = Some (str "/d") ∧ resolve FsSpec.E0 sd 2 (str "/d") true false = Some 2.
Proof.
  assert (∃ x, nodes sd !! 2 = Some x ∧ n_parent x = 1 ∧ n_name x = str "d" ∧ n_hl x = 0 ∧ is_link x = false ∧ n_bnd x = false) as (x & Hx & H1 & H2 & H3 & H4 & H5)
    by (eexists; split; [vm_compute; reflexivity|]; done).
  assert (∃ r, nodes sd !! 1 = Some r ∧ n_parent r = 0) as (r & Hr & Hr0) by (eexists; split; [vm_compute; reflexivity|]; done).
  assert (path_of sd (rev [2]) = str "/d") as Hp by (vm_compute; reflexivity). rewrite <- Hp.
  apply (path_lookup FsSpec.E0 sd 2 x [2] [] 2 true 256 sd_ok); try done; rewrite ?Hp, ?H4; try (cbn; lia).
  - by left.
  - econstructor; [done|exact Hx|]. rewrite H1. econstructor; [done|exact Hr|]. rewrite Hr0. constructor.
  - intros k y Hk%list_elem_of_singleton Hy. subst k. assert (y = x) as -> by congruence. split; rewrite ?H2; try done; [|cbn; lia].
    by apply (bool_decide_unpack _).
Defined.

End FsPath.
