(* ===== verification/TreeLock.v ===== *)
(** * Readers of the tree without the big lock (src/src/fs/fs.c)

    [nb_tree_enter], [nb_tree_leave], [nb_tree_close] and [nb_tree_open]: system
    calls that only read the tree run on other processors without the kernel
    lock while nobody changes it.  A step is one atomic access to one of the two
    counters, threads interleave freely, accesses are sequentially consistent. *)

From S2P Require Import Prelude.

Module TreeLock.

(** Where a thread is: outside; in [nb_tree_enter] after the first look, counted,
    or about to go back; reading; in [nb_tree_close] announced; changing the tree. *)
Inductive pc := Idle | Looked | Counted | Back | Reading | Announced | Writing.

#[export] Instance pc_eq : EqDecision pc.
Proof. solve_decision. Defined.

Record st := St { nb_wr : Z; nb_rd : Z; threads : list pc }.

Definition nb_tree_enter (wr rd : Z) (p : pc) : option (pc * Z * Z) :=
  match p with
  | Idle => Some (if nz wr then Idle else Looked, wr, rd)
  | Looked => Some (Counted, wr, i32 (rd + 1))
  | Counted => Some (if nz wr then Back else Reading, wr, rd)
  | Back => Some (Idle, wr, i32 (rd - 1))
  | _ => None
  end.

Definition nb_tree_leave (wr rd : Z) (p : pc) : option (pc * Z * Z) :=
  match p with Reading => Some (Idle, wr, i32 (rd - 1)) | _ => None end.

Definition nb_tree_close (wr rd : Z) (p : pc) : option (pc * Z * Z) :=
  match p with
  | Idle => Some (Announced, i32 (wr + 1), rd)
  | Announced => Some (if nz rd then Announced else Writing, wr, rd)
  | _ => None
  end.

Definition nb_tree_open (wr rd : Z) (p : pc) : option (pc * Z * Z) :=
  match p with Writing => Some (Idle, i32 (wr - 1), rd) | _ => None end.

(** One step of thread [i]. *)
Inductive step : st → st → Prop :=
  | step_at s i p p' wr rd l :
      (threads s).[i] = Some p →
      (nb_tree_enter (nb_wr s) (nb_rd s) p = Some (p', wr, rd) ∨ nb_tree_leave (nb_wr s) (nb_rd s) p = Some (p', wr, rd) ∨
       nb_tree_close (nb_wr s) (nb_rd s) p = Some (p', wr, rd) ∨ nb_tree_open (nb_wr s) (nb_rd s) p = Some (p', wr, rd)) →
      (threads s).[i <- p'] = Some l → step s (St wr rd l).

Definition is_counted (p : pc) : bool := match p with Counted | Back | Reading => true | _ => false end.
Definition is_writer (p : pc) : bool := match p with Announced | Writing => true | _ => false end.

(** The counters count, and nobody reads while somebody writes. *)
Record inv (s : st) : Prop := {
  i_rd : nb_rd s = countb is_counted (threads s);
  i_wr : nb_wr s = countb is_writer (threads s);
  i_len : Z.of_nat (length (threads s)) < 2 ^ 31;
  i_excl : Writing ∈ threads s → Reading ∉ threads s
}.

Lemma count_at (f : pc → bool) l i p p' l' : l.[i] = Some p → l.[i <- p'] = Some l' → countb f l' = countb f l - b2z (f p) + b2z (f p').
Proof. intros [_ H1]%arr_get_Some [_ ->]%arr_set_Some. by apply countb_insert. Qed.

Lemma in_at (l l' : list pc) i p q : l.[i <- p] = Some l' → q ∈ l' → q = p ∨ q ∈ l.
Proof. apply arr_set_elem. Qed.

Lemma none_counted (f : pc → bool) l p : countb f l = 0 → f p = true → p ∉ l.
Proof. intros H0 Hf Hin. pose proof (countb_elem f l p Hin Hf). lia. Qed.

Lemma inv_step s s' : inv s → step s s' → inv s'.
Proof.
  intros [I1 I2 I3 I4] H. destruct H as [s i p p' wr rd l Hp Hs Hl]. pose proof (count_at is_counted _ _ _ _ _ Hp Hl) as C1. pose proof (count_at is_writer _ _ _ _ _ Hp Hl) as C2.
  pose proof (arr_set_length _ _ _ _ Hl) as Elen. pose proof (countb_range is_counted l) as R1. pose proof (countb_range is_writer l) as R2. rewrite Elen in *.
  assert (Hcases : (p' = Reading → nb_wr s = 0) ∧ (p' = Writing → nb_rd s = 0) ∧ rd = nb_rd s - b2z (is_counted p) + b2z (is_counted p') ∧ wr = nb_wr s - b2z (is_writer p) + b2z (is_writer p')).
  { destruct p; cbn in Hs; destruct Hs as [Hs|[Hs|[Hs|Hs]]]; try done; injection Hs as <- <- <-;
      try (destruct (nz _) eqn:En; [apply nz_true in En|apply nz_false in En]); cbn in *; rewrite ?i32_small by lia; split_and!; try done; lia. }
  destruct Hcases as (H1 & H2 & -> & ->). split; cbn; [lia|lia|lia|]. intros Hw Hr.
  destruct (in_at _ _ _ _ _ Hl Hw) as [Ew|Ew], (in_at _ _ _ _ _ Hl Hr) as [Er|Er].
  - congruence.
  - subst p'. apply (none_counted is_counted (threads s) Reading); [rewrite <- I1; auto|done|done].
  - subst p'. apply (none_counted is_writer (threads s) Writing); [rewrite <- I2; auto|done|done].
  - by apply I4.
Qed.

(** C27: with any number of threads, however their steps interleave, no thread is
    between nb_tree_enter and nb_tree_leave while another is between nb_tree_close
    and nb_tree_open: the tree never changes under a reader that holds no lock. *)
Theorem tree_readers_excluded n s :
  Z.of_nat n < 2 ^ 31 → rtc step (St 0 0 (replicate n Idle)) s → ¬ (Reading ∈ threads s ∧ Writing ∈ threads s).
Proof.
  intros Hn H. assert (inv (St 0 0 (replicate n Idle))) as I0.
  { split; cbn; [| |by rewrite length_replicate|].
    - symmetry. apply countb_none. by apply Forall_replicate.
    - symmetry. apply countb_none. by apply Forall_replicate.
    - intros [? _]%elem_of_replicate. done. }
  assert (inv s) as [_ _ _ I4] by (revert I0; clear Hn; induction H; [done|eauto using inv_step]). intros [Hr Hw]. by apply I4.
Qed.

(** A writer announces itself between the two looks of a reader, who goes back. *)
Lemma tree_readers_excluded_witness :
  rtc step (St 0 0 (replicate 2 Idle)) (St 1 1 [Back; Announced]) ∧ ¬ (Reading ∈ threads (St 1 1 [Back; Announced]) ∧ Writing ∈ threads (St 1 1 [Back; Announced])).
Proof.
  assert (rtc step (St 0 0 (replicate 2 Idle)) (St 1 1 [Back; Announced])) as H.
  { eapply (rtc_l _ _ (St 0 0 [Looked; Idle])); [apply (step_at (St 0 0 [Idle; Idle]) 0 Idle Looked); [done|by left|done]|].
    eapply (rtc_l _ _ (St 1 0 [Looked; Announced])); [apply (step_at (St 0 0 [Looked; Idle]) 1 Idle Announced); [done|right; right; by left|done]|].
    eapply (rtc_l _ _ (St 1 1 [Counted; Announced])); [apply (step_at (St 1 0 [Looked; Announced]) 0 Looked Counted); [done|by left|done]|].
    eapply (rtc_l _ _ (St 1 1 [Back; Announced])); [apply (step_at (St 1 1 [Counted; Announced]) 0 Counted Back); [done|by left|done]|]. apply rtc_refl. }
  split; [exact H|]. apply (tree_readers_excluded 2 _ ltac:(cbn; lia) H).
Defined.

End TreeLock.
