(* ===== verification/Wq.v ===== *)
(** * Wait queues (src/src/core/wq.c)

    A blocked task, or a callback, sits on the queue of the thing it waits for.
    Entries and waiters come from two static pools.  A pointer into a pool is the
    index of the element plus one, 0 is NULL; queues are the [wq_t]s inside other
    objects, at their addresses, and an access to a queue that is gone is [None],
    as is a loop that does not end within the size of the pool.  Every operation
    runs under the spin lock of the pool with interrupts off, so it is one step. *)

From S2P Require Import Prelude.

Module Wq.

Definition NENT : Z := 2048.
Definition NW : Z := 128.

Definition T_FREE : Z := 0.
Definition T_READY : Z := 1.
Definition T_BLOCKED : Z := 2.
Definition T_DEAD : Z := 3.

Record task := Task { t_id : Z; t_state : Z; t_wake : Z }.

Record wq_w := WqW { w_t : Z; w_fired : Z; w_used : bool; w_ents : Z }.

Record wq_ent := WqEnt {
  e_next : Z; e_prev : Z; e_wnext : Z; e_q : Z; e_w : Z; e_cb : Z; e_arg : Z; e_used : bool
}.

(** [called] lists the callbacks run, the latest first, with their arguments. *)
Record st := St {
  ents : gmap Z wq_ent; ws : gmap Z wq_w; heads : gmap Z Z; tasks : gmap Z task; called : list (Z * Z)
}.

Definition upd_ent (s : st) (e : Z) (f : wq_ent → wq_ent) : option st :=
  x ← ents s !! e; Some {| s with ents := <[e := f x]> (ents s) |}.

Definition upd_w (s : st) (w : Z) (f : wq_w → wq_w) : option st :=
  x ← ws s !! w; Some {| s with ws := <[w := f x]> (ws s) |}.

Definition set_head (s : st) (q h : Z) : option st :=
  _ ← heads s !! q; Some {| s with heads := <[q := h]> (heads s) |}.

Definition unlink (s : st) (e : Z) : option st :=
  x ← ents s !! e;
  if e_q x =? 0 then Some s else
  s ← (if nz (e_prev x) then upd_ent s (e_prev x) (λ y, {| y with e_next := e_next x |})
       else set_head s (e_q x) (e_next x));
  s ← (if nz (e_next x) then upd_ent s (e_next x) (λ y, {| y with e_prev := e_prev x |}) else Some s);
  upd_ent s e (λ y, {| y with e_q := 0 |}).

(** [for (e = w->ents; e; e = e->wnext) { unlink(e); e->used = false; }] *)
Fixpoint free_ents (fuel : nat) (s : st) (e : Z) : option st :=
  if e =? 0 then Some s else
  match fuel with
  | O => None
  | S fuel =>
      s ← unlink s e;
      s ← upd_ent s e (λ y, {| y with e_used := false |});
      x ← ents s !! e;
      free_ents fuel s (e_wnext x)
  end.

(** No list is longer than the pool. *)
Definition FUEL : nat := Z.to_nat NENT.

Definition wq_waiter_free (s : st) (w : Z) : option st :=
  x ← ws s !! w;
  s ← free_ents FUEL s (w_ents x);
  upd_w s w (λ y, {| y with w_ents := 0; w_used := false |}).

Definition gc_one (w : Z) (s : st) : option st :=
  x ← ws s !! w;
  if negb (w_used x) then Some s else
  t ← tasks s !! w_t x;
  if negb (t_state t =? T_FREE) && negb (t_state t =? T_DEAD) then Some s else wq_waiter_free s w.

Definition gc (s : st) : option st := each gc_one (seqZ 1 NW) s.

(** The two passes of a search, with a collection after one that finds nothing. *)
Definition search (find : st → option Z) (s : st) : option (Z * st) :=
  match find s with
  | Some r => Some (r, s)
  | None =>
      s ← gc s;
      match find s with
      | Some r => Some (r, s)
      | None => s ← gc s; Some (0, s)
      end
  end.

Definition free_w (s : st) : option Z :=
  first_some (λ w, match ws s !! w with Some x => if w_used x then None else Some w | None => None end) (seqZ 1 NW).

Definition free_e (s : st) : option Z :=
  first_some (λ e, match ents s !! e with Some x => if e_used x then None else Some e | None => None end) (seqZ 1 NENT).

(** [cur] is the current task. *)
Definition wq_waiter (s : st) (cur : Z) : option (Z * st) :=
  '(r, s) ← search free_w s;
  if r =? 0 then Some (0, s) else
  s ← upd_w s r (λ _, WqW cur 0 true 0);
  Some (r, s).

Definition ent_new (s : st) (q : Z) : option (Z * st) :=
  '(e, s) ← search free_e s;
  if e =? 0 then Some (0, s) else
  h ← heads s !! q;
  s ← upd_ent s e (λ y, {| y with e_used := true; e_q := q; e_prev := 0; e_next := h |});
  s ← (if nz h then upd_ent s h (λ y, {| y with e_prev := e |}) else Some s);
  s ← set_head s q e;
  Some (e, s).

Definition wq_add (s : st) (q w : Z) : option (Z * st) :=
  '(e, s) ← ent_new s q;
  if e =? 0 then Some (0, s) else
  x ← ws s !! w;
  s ← upd_ent s e (λ y, {| y with e_w := w; e_cb := 0; e_wnext := w_ents x |});
  s ← upd_w s w (λ y, {| y with w_ents := e |});
  Some (e, s).

Definition wq_add_cb (s : st) (q cb arg : Z) : option (Z * st) :=
  '(e, s) ← ent_new s q;
  if e =? 0 then Some (0, s) else
  s ← upd_ent s e (λ y, {| y with e_w := 0; e_cb := cb; e_arg := arg; e_wnext := 0 |});
  Some (e, s).

Definition wq_del (s : st) (e : Z) : option st :=
  x ← ents s !! e;
  if e_used x && (e_w x =? 0) then
    s ← unlink s e; upd_ent s e (λ y, {| y with e_used := false |})
  else Some s.

(** [task_ready] of task.c, a test and two stores; here without anything in between
    ([WqRun] takes them apart).  The idle processors it kicks are hardware. *)
Definition ready_store (t : task) : task := {| t with t_wake := 0; t_state := T_READY |}.
Definition ready (t : task) : task := if t_state t =? T_BLOCKED then ready_store t else t.

Definition task_ready (s : st) (t : Z) : option st :=
  x ← tasks s !! t; Some {| s with tasks := <[t := ready x]> (tasks s) |}.

(** What waking does to one entry. *)
Definition wake_ent (s : st) (x : wq_ent) : option st :=
  if nz (e_cb x) then Some {| s with called := (e_cb x, e_arg x) :: called s |} else
  s ← upd_w s (e_w x) (λ y, {| y with w_fired := 1 |});
  y ← ws s !! e_w x;
  task_ready s (w_t y).

Fixpoint wake_all (fuel : nat) (s : st) (e : Z) : option st :=
  if e =? 0 then Some s else
  match fuel with
  | O => None
  | S fuel => x ← ents s !! e; s ← wake_ent s x; x ← ents s !! e; wake_all fuel s (e_next x)
  end.

(** The look at the head comes before the lock; [wake_locked] is the rest. *)
Definition wake_locked (s : st) (q : Z) : option st :=
  h ← heads s !! q; wake_all FUEL s h.

Definition wq_waiting (s : st) (q : Z) : option bool := h ← heads s !! q; Some (nz h).

Definition wq_wake (s : st) (q : Z) : option st :=
  b ← wq_waiting s q; if b : bool then wake_locked s q else Some s.

Fixpoint drain_all (fuel : nat) (s : st) (e : Z) : option st :=
  if e =? 0 then Some s else
  match fuel with
  | O => None
  | S fuel =>
      x ← ents s !! e;
      s ← wake_ent s x;
      s ← upd_ent s e (λ y, {| y with e_q := 0 |});
      x ← ents s !! e;
      drain_all fuel s (e_next x)
  end.

Definition wq_drain (s : st) (q : Z) : option st :=
  h ← heads s !! q; s ← drain_all FUEL s h; set_head s q 0.

(** [wq_sleep] up to its loop: whether the task is now to wait until it is no
    longer blocked.  The task with id 0 never blocks: it yields once. *)
Definition sleep_ms (ms : Z) : Z := if (ms =? 0) || (500 <? ms) then 500 else ms.

Definition sleep_enter (s : st) (w now ms : Z) : option (bool * st) :=
  x ← ws s !! w;
  t ← tasks s !! w_t x;
  if t_id t =? 0 then Some (false, s) else
  if nz (w_fired x) then Some (false, s) else
  let t := {| t with t_wake := u32 (now + sleep_ms ms) |} in
  if t_state t =? T_READY
  then Some (true, {| s with tasks := <[w_t x := {| t with t_state := T_BLOCKED |}]> (tasks s) |})
  else Some (false, {| s with tasks := <[w_t x := t]> (tasks s) |}).

(** Its end. *)
Definition sleep_leave (s : st) (w : Z) : option st := upd_w s w (λ y, {| y with w_fired := 0 |}).

Definition wq_wfree (s : st) (wp : Z) : option st := if nz wp then wq_waiter_free s wp else Some s.

(** ** The shape of the pools *)

(** The entries of queue [q] from its head on. *)
Definition chain (m : gmap Z wq_ent) (q : Z) (l : list Z) : Prop :=
  NoDup l ∧ ∀ l1 e l2, l = l1 ++ e :: l2 → ∃ x, m !! e = Some x ∧ e_used x = true ∧ e_q x = q ∧
    e_prev x = default 0 (last l1) ∧ e_next x = hd 0 l2.

(** The entries of waiter [w]. *)
Definition wchain (m : gmap Z wq_ent) (w : Z) (l : list Z) : Prop :=
  NoDup l ∧ ∀ l1 e l2, l = l1 ++ e :: l2 → ∃ x, m !! e = Some x ∧ e_used x = true ∧ e_w x = w ∧ e_wnext x = hd 0 l2.

(** [Q] lists every queue, [WL] the entries of every waiter; the first entry of
    waiter [ex] is not looked at: it is the one being freed, or 0 for none. *)
Record rep (ex : Z) (s : st) (Q WL : gmap Z (list Z)) : Prop := {
  r_ents : ∀ e, is_Some (ents s !! e) ↔ 1 ≤ e ≤ NENT;
  r_ws : ∀ w, is_Some (ws s !! w) ↔ 1 ≤ w ≤ NW;
  r_heads : ∀ q, heads s !! q = hd 0 <$> Q !! q;
  r_queue : ∀ q l, Q !! q = Some l → q ≠ 0 ∧ chain (ents s) q l;
  r_in : ∀ e x, ents s !! e = Some x → e_q x ≠ 0 → ∃ l, Q !! e_q x = Some l ∧ e ∈ l;
  r_waiter : ∀ w y, ws s !! w = Some y → w_used y = true →
    is_Some (tasks s !! w_t y) ∧ ∃ l, WL !! w = Some l ∧ wchain (ents s) w l ∧ (w ≠ ex → w_ents y = hd 0 l);
  r_mine : ∀ e x, ents s !! e = Some x → e_used x = true → e_w x ≠ 0 →
    e_cb x = 0 ∧ ∃ y l, ws s !! e_w x = Some y ∧ w_used y = true ∧ WL !! e_w x = Some l ∧ e ∈ l;
  r_cb : ∀ e x, ents s !! e = Some x → e_used x = true → e_w x = 0 → e_cb x ≠ 0
}.

Definition wf (s : st) : Prop := ∃ Q WL, rep 0 s Q WL.

(** What an entry says apart from its links. *)
Definition sig (x : wq_ent) : bool * Z * Z * Z * Z := (e_used x, e_q x, e_w x, e_cb x, e_arg x).

(** Nothing changed but the links, the waiters in [D] and their entries. *)
Record frame (D : Z → Prop) (s s' : st) : Prop := {
  f_w : ∀ w, ¬ D w → ws s' !! w = ws s !! w;
  f_e : ∀ e x, ents s !! e = Some x → e_used x = true → ¬ D (e_w x) → ∃ x', ents s' !! e = Some x' ∧ sig x' = sig x;
  f_back : ∀ e x', ents s' !! e = Some x' → e_used x' = true → ∃ x, ents s !! e = Some x ∧ sig x = sig x';
  f_tasks : tasks s' = tasks s;
  f_called : called s' = called s;
  f_heads : ∀ q, is_Some (heads s' !! q) ↔ is_Some (heads s !! q)
}.

(** ** Lists *)

Lemma chain_elem m q l e : chain m q l → e ∈ l → ∃ x, m !! e = Some x ∧ e_used x = true ∧ e_q x = q.
Proof. intros [_ H] (l1 & l2 & ->)%list_elem_of_split. destruct (H l1 e l2 eq_refl) as (x & ? & ? & ? & _). by exists x. Qed.

Lemma wchain_elem m w l e : wchain m w l → e ∈ l → ∃ x, m !! e = Some x ∧ e_used x = true ∧ e_w x = w.
Proof. intros [_ H] (l1 & l2 & ->)%list_elem_of_split. destruct (H l1 e l2 eq_refl) as (x & ? & ? & ? & _). by exists x. Qed.

Lemma hd_elem (l : list Z) : hd 0 l ≠ 0 → hd 0 l ∈ l.
Proof. destruct l; cbn; [done|]. intros _. apply list_elem_of_here. Qed.

Lemma last0_elem (l : list Z) : default 0 (last l) ≠ 0 → default 0 (last l) ∈ l.
Proof. destruct (last l) as [a|] eqn:E; [|done]. cbn. intros _. apply last_Some in E as [l' ->]. set_solver. Qed.

Lemma last0_app (l1 l2 : list Z) : default 0 (last (l1 ++ l2)) = match last l2 with Some a => a | None => default 0 (last l1) end.
Proof. rewrite last_app. by destruct (last l2). Qed.

Lemma hd_app (l1 l2 : list Z) : hd 0 (l1 ++ l2) = match l1 with [] => hd 0 l2 | a :: _ => a end.
Proof. by destruct l1. Qed.

(** A chain depends on nothing but its own entries. *)
Lemma chain_frame m m' q l : chain m q l → (∀ e x, e ∈ l → m !! e = Some x → ∃ x', m' !! e = Some x' ∧ e_used x' = e_used x ∧
    e_q x' = e_q x ∧ e_prev x' = e_prev x ∧ e_next x' = e_next x) → chain m' q l.
Proof.
  intros [Hnd H] Hf. split; [done|]. intros l1 e l2 El. destruct (H l1 e l2 El) as (x & Hx & H1 & H2 & H3 & H4).
  destruct (Hf e x) as (x' & ? & ? & ? & ? & ?); [set_solver|done|]. exists x'. by split_and!; try congruence.
Qed.

Lemma wchain_frame m m' w l : wchain m w l → (∀ e x, e ∈ l → m !! e = Some x → ∃ x', m' !! e = Some x' ∧ e_used x' = e_used x ∧
    e_w x' = e_w x ∧ e_wnext x' = e_wnext x) → wchain m' w l.
Proof.
  intros [Hnd H] Hf. split; [done|]. intros l1 e l2 El. destruct (H l1 e l2 El) as (x & Hx & H1 & H2 & H3).
  destruct (Hf e x) as (x' & ? & ? & ? & ?); [set_solver|done|]. exists x'. by split_and!; try congruence.
Qed.

Lemma wchain_cons m w e l : wchain m w (e :: l) → wchain m w l ∧ (e ∉ l) ∧ ∃ x, m !! e = Some x ∧ e_used x = true ∧ e_w x = w ∧ e_wnext x = hd 0 l.
Proof.
  intros [Hnd H]. pose proof (NoDup_cons_1_1 _ _ Hnd). pose proof (NoDup_cons_1_2 _ _ Hnd).
  split; [split; [done|]|split; [done|exact (H [] e l eq_refl)]].
  intros l1 a l2 ->. exact (H (e :: l1) a l2 eq_refl).
Qed.

Lemma pool_length (m : gmap Z wq_ent) l : (∀ e, is_Some (m !! e) ↔ 1 ≤ e ≤ NENT) → NoDup l →
  (∀ e, e ∈ l → is_Some (m !! e)) → (length l ≤ FUEL)%nat.
Proof.
  intros Hd Hnd Hl. assert (l ⊆ seqZ 1 NENT) as Hs. { intros e He. apply elem_of_seqZ. apply Hl, Hd in He. lia. }
  pose proof (submseteq_length _ _ (NoDup_submseteq _ _ Hnd Hs)) as H. rewrite length_seqZ in H. done.
Qed.

(** ** Unlinking *)

Definition relink (p n e : Z) (y : wq_ent) : wq_ent :=
  {| y with e_next := if e =? p then n else e_next y; e_prev := if e =? n then p else e_prev y |}.

Lemma relink_id p n e y : e ≠ p → e ≠ n → relink p n e y = y.
Proof. intros. unfold relink. destruct y. cbn. by rewrite !(proj2 (Z.eqb_neq _ _)) by done. Qed.

Lemma relink_n p n y : n ≠ p → relink p n n y = {| y with e_prev := p |}.
Proof. intros. unfold relink. by rewrite Z.eqb_refl, (proj2 (Z.eqb_neq n p)) by done. Qed.

Lemma relink_p p n y : n ≠ p → relink p n p y = {| y with e_next := n |}.
Proof. intros. unfold relink. by rewrite Z.eqb_refl, (proj2 (Z.eqb_neq p n)) by done. Qed.

Lemma relink_sig p n e y : sig (relink p n e y) = sig y ∧ e_wnext (relink p n e y) = e_wnext y.
Proof. done. Qed.

Definition unq (y : wq_ent) : wq_ent := {| y with e_q := 0 |}.

(** The entries after [e] between [p] and [n] is taken out. *)
Definition taken_out (m m' : gmap Z wq_ent) (e p n : Z) (x : wq_ent) : Prop :=
  m' !! e = Some (unq x) ∧ ∀ e', e' ≠ e → m' !! e' = relink p n e' <$> m !! e'.

Lemma relink_map m e p n x : m !! e = Some x → m !! 0 = None → e ≠ p → e ≠ n → (p = n → p = 0) →
  (p ≠ 0 → is_Some (m !! p)) → (n ≠ 0 → is_Some (m !! n)) →
  ∃ m', taken_out m m' e p n x ∧
    ∀ s, ents s = m → (p = 0 → is_Some (heads s !! e_q x)) →
      e_prev x = p → e_next x = n → e_q x ≠ 0 →
      unlink s e = Some {| s with ents := m'; heads := if p =? 0 then <[e_q x := n]> (heads s) else heads s |}.
Proof.
  intros Hx H0 Hp Hn Hpn Sp Sn. exists (<[e := unq x]> (map_imap (λ k y, Some (relink p n k y)) m)). split.
  - split; [apply lookup_insert_eq|]. intros e' He'. rewrite lookup_insert_ne, map_lookup_imap by done. by destruct (m !! e').
  - intros s <- Hh E1 E2 Hq. unfold unlink. rewrite Hx. cbn [mbind option_bind]. rewrite (proj2 (Z.eqb_neq _ _) Hq), E1, E2. unfold nz.
    assert (∀ m1, (∀ k, k ≠ e → m1 !! k = relink p n k <$> ents s !! k) →
      <[e := unq x]> m1 = <[e := unq x]> (map_imap (λ k y, Some (relink p n k y)) (ents s))) as Hm.
    { intros m1 H1. apply map_eq. intros k. destruct (decide (k = e)) as [->|Hk]; [by rewrite !lookup_insert_eq|].
      rewrite !lookup_insert_ne, map_lookup_imap, H1 by done. by destruct (ents s !! k). }
    assert (∀ k, ents s !! k = None → relink p n k <$> ents s !! k = None) as HN by (by intros k ->).
    destruct (Z.eqb_spec p 0) as [E3|E3]; destruct (Z.eqb_spec n 0) as [E4|E4]; cbn [negb]; unfold upd_ent, set_head.
    + destruct (Hh E3) as [h Hh']. rewrite Hh'. cbn [mbind option_bind ents]. rewrite Hx. cbn. do 2 f_equal. apply Hm. intros k Hk.
      destruct (decide (k = 0)) as [->|]; [by rewrite HN|]. destruct (ents s !! k); [|done]. cbn. by rewrite relink_id by lia.
    + destruct (Hh E3) as [h Hh']. rewrite Hh'. cbn [mbind option_bind ents]. destruct (Sn E4) as [y Hy]. rewrite Hy. cbn [mbind option_bind ents].
      rewrite lookup_insert_ne, Hx by done. cbn. do 2 f_equal. apply Hm. intros k Hk.
      destruct (decide (k = n)) as [->|]; [rewrite lookup_insert_eq, Hy; cbn; by rewrite relink_n by lia|].
      rewrite lookup_insert_ne by done. destruct (decide (k = 0)) as [->|]; [by rewrite HN|]. destruct (ents s !! k); [|done]. cbn. by rewrite relink_id by lia.
    + destruct (Sp E3) as [y Hy]. rewrite Hy. cbn [mbind option_bind ents].
      rewrite lookup_insert_ne, Hx by done. cbn. do 2 f_equal. apply Hm. intros k Hk.
      destruct (decide (k = p)) as [->|]; [rewrite lookup_insert_eq, Hy; cbn; by rewrite relink_p by lia|].
      rewrite lookup_insert_ne by done. destruct (decide (k = 0)) as [->|]; [by rewrite HN|]. destruct (ents s !! k); [|done]. cbn. by rewrite relink_id by lia.
    + destruct (Sp E3) as [y Hy]. destruct (Sn E4) as [z Hz]. assert (p ≠ n) as Hne by tauto. rewrite Hy. cbn [mbind option_bind ents].
      rewrite lookup_insert_ne, Hz by done. cbn [mbind option_bind ents]. rewrite !lookup_insert_ne, Hx by done. cbn. do 2 f_equal. apply Hm. intros k Hk.
      destruct (decide (k = n)) as [->|]; [rewrite lookup_insert_eq, Hz; cbn; by rewrite relink_n by lia|].
      rewrite lookup_insert_ne by done.
      destruct (decide (k = p)) as [->|]; [rewrite lookup_insert_eq, Hy; cbn; by rewrite relink_p by lia|].
      rewrite lookup_insert_ne by done. destruct (ents s !! k); [|done]. cbn. by rewrite relink_id by lia.
Qed.

Lemma chain_ends m q l1 e l2 : m !! 0 = None → chain m q (l1 ++ e :: l2) →
  let p := default 0 (last l1) in let n := hd 0 l2 in
  e ≠ p ∧ e ≠ n ∧ (p = n → p = 0) ∧ (p ≠ 0 → p ∈ l1) ∧ (n ≠ 0 → n ∈ l2) ∧ (e ∉ l1) ∧ (e ∉ l2) ∧ (∀ a, a ∈ l1 → a ∉ l2).
Proof.
  intros H0 Hc p n. assert (e ≠ 0) as He. { intros ->. destruct (chain_elem _ _ _ 0 Hc) as (x & Hx & _); [set_solver|]. congruence. }
  destruct Hc as [Hnd _]. apply NoDup_app in Hnd as (_ & H1 & [H2 _]%NoDup_cons).
  assert (e ∉ l1) as H1' by (intros ?; eapply H1; [done|apply list_elem_of_here]).
  assert (∀ a, a ∈ l1 → a ∉ l2) as H3 by (intros a Ha ?; apply (H1 a Ha); by apply list_elem_of_further).
  assert (p ≠ 0 → p ∈ l1) as Hp by apply last0_elem. assert (n ≠ 0 → n ∈ l2) as Hn by apply hd_elem.
  split_and!; try done.
  - intros E. apply H1'. rewrite E. apply Hp. congruence.
  - intros E. apply H2. rewrite E. apply Hn. congruence.
  - intros E. destruct (decide (p = 0)) as [|Hp0]; [done|]. destruct (H3 p (Hp Hp0)). rewrite E. apply Hn. congruence.
Qed.

(** The queue of the entry that goes. *)
Lemma taken_chain m m' q l1 e l2 x : m !! 0 = None → m !! e = Some x → chain m q (l1 ++ e :: l2) →
  taken_out m m' e (default 0 (last l1)) (hd 0 l2) x → chain m' q (l1 ++ l2).
Proof.
  intros H0 Hx Hc [_ Ht]. pose proof (chain_ends m q l1 e l2 H0 Hc) as (Hep & Hen & Hpn & Hp & Hn & He1 & He2 & Hd). cbv zeta in *.
  set (p := default 0 (last l1)) in *. set (n := hd 0 l2) in *.
  destruct Hc as [Hnd Hc]. split. { apply NoDup_app. apply NoDup_app in Hnd as (? & _ & [_ ?]%NoDup_cons). done. }
  intros a y b E. apply app_eq_app in E as [k [[-> E]|[-> E]]].
  - destruct k as [|k0 k]; cbn in E.
    + subst l2. rewrite app_nil_r in *. assert (y ≠ e) as Hy by (intros ->; apply He2, list_elem_of_here).
      destruct (Hc (a ++ [e]) y b) as (z & Hz & H1 & H2 & H3 & H4); [by rewrite <- app_assoc|].
      exists (relink p n y z). rewrite Ht, Hz by done. split_and!; try done; unfold relink; cbn.
      * unfold n; cbn; rewrite (Z.eqb_refl y); unfold p; by rewrite app_nil_r.
      * destruct (Z.eqb_spec y p) as [E|]; [|done]. destruct (Hd y); [|apply list_elem_of_here]. rewrite E. apply Hp. intros E0. rewrite E0 in E. subst y. by rewrite H0 in Hz.
    + injection E as <- ->. assert (y ≠ e) as Hy by (intros ->; apply He1; set_solver).
      destruct (Hc a y (k ++ e :: l2)) as (z & Hz & H1 & H2 & H3 & H4); [by rewrite <- app_assoc|].
      assert (y ≠ 0) as Hy0 by (intros ->; congruence).
      exists (relink p n y z). rewrite Ht, Hz by done. split_and!; try done; unfold relink; cbn.
      * destruct (Z.eqb_spec y n) as [E|]; [|done]. destruct (Hd y); [set_solver|]. rewrite E. apply Hn. congruence.
      * rewrite hd_app. destruct k as [|k0 k]; cbn in *.
        { replace p with y; [by rewrite Z.eqb_refl|]. unfold p. by rewrite last_snoc. }
        destruct (Z.eqb_spec y p) as [E|]; [|done]. exfalso. apply NoDup_app in Hnd as (Hnd & _ & _). apply NoDup_app in Hnd as (_ & _ & [Hnk _]%NoDup_cons).
        apply Hnk. rewrite E. unfold p. rewrite last_app_cons, last_cons_cons. cbn. destruct (last (k0 :: k)) as [u|] eqn:Eu; [|by apply last_None in Eu].
        apply last_Some in Eu as [k' ->]. cbn. set_solver.
  - assert (y ≠ e) as Hy by (intros ->; apply He2; set_solver). assert (y ∈ l2) as Hyl by set_solver.
    destruct (Hc (l1 ++ e :: k) y b) as (z & Hz & H1 & H2 & H3 & H4); [subst l2; by rewrite <- app_assoc|].
    assert (y ≠ 0) as Hy0 by (intros ->; congruence).
    exists (relink p n y z). rewrite Ht, Hz by done. split_and!; try done; unfold relink; cbn.
    + rewrite last0_app in H3. rewrite last0_app. destruct k as [|k0 k].
      * cbn in *. unfold n. rewrite E. cbn. by rewrite (Z.eqb_refl y).
      * rewrite last_cons_cons in H3. destruct (Z.eqb_spec y n) as [E'|]; [|done]. exfalso. subst l2. cbn in n. subst n y.
        apply NoDup_app in Hnd as (_ & _ & [_ Hnd]%NoDup_cons). cbn in Hnd. apply NoDup_cons in Hnd as [Hnd _]. apply Hnd. set_solver.
    + destruct (Z.eqb_spec y p) as [E'|]; [|done]. destruct (Hd y); [|done]. rewrite E'. apply Hp. congruence.
Qed.

Lemma rep_0 ex s Q WL : rep ex s Q WL → ents s !! 0 = None.
Proof. intros H. destruct (ents s !! 0) eqn:E; [|done]. apply mk_is_Some, (r_ents _ _ _ _ H) in E. lia. Qed.

(** What an entry says to its waiter. *)
Definition wsig (x : wq_ent) : bool * Z * Z * Z := (e_used x, e_w x, e_cb x, e_wnext x).

(** Queues may change as long as the waiters keep their entries. *)
Lemma rep_queues ex s Q WL m h Q' : rep ex s Q WL →
  (∀ e, wsig <$> m !! e = wsig <$> ents s !! e) →
  (∀ q, h !! q = hd 0 <$> Q' !! q) → (∀ q l, Q' !! q = Some l → q ≠ 0 ∧ chain m q l) →
  (∀ e x, m !! e = Some x → e_q x ≠ 0 → ∃ l, Q' !! e_q x = Some l ∧ e ∈ l) →
  rep ex {| s with ents := m; heads := h |} Q' WL.
Proof.
  intros Hr Hm Hh HQ Hin.
  assert (∀ e x, m !! e = Some x → ∃ y, ents s !! e = Some y ∧ wsig x = wsig y) as Hb.
  { intros e x Hx. specialize (Hm e). rewrite Hx in Hm. destruct (ents s !! e) as [y|]; [|done]. exists y. cbn in Hm. by split; [|congruence]. }
  assert (∀ e y, ents s !! e = Some y → ∃ x, m !! e = Some x ∧ wsig x = wsig y) as Hf.
  { intros e y Hy. specialize (Hm e). rewrite Hy in Hm. destruct (m !! e) as [x|]; [|done]. exists x. cbn in Hm. by split; [|congruence]. }
  split; cbn; try done.
  - intros e. rewrite <- (r_ents _ _ _ _ Hr e). specialize (Hm e). split; intros [x Hx]; rewrite Hx in Hm; [by destruct (ents s !! e)|by destruct (m !! e)].
  - apply (r_ws _ _ _ _ Hr).
  - intros w y Hy Hu. destruct (r_waiter _ _ _ _ Hr w y Hy Hu) as (? & l & ? & Hc & ?). split; [done|]. exists l. split_and!; try done.
    apply (wchain_frame _ _ _ _ Hc). intros e x _ Hx. destruct (Hf e x Hx) as (x' & ? & Hs). exists x'. unfold wsig in Hs. by split_and!; try congruence.
  - intros e x Hx Hu Hw. destruct (Hb e x Hx) as (y & Hy & Hs). unfold wsig in Hs. injection Hs as E1 E2 E3 E4.
    rewrite E2 in *. rewrite E3. apply (r_mine _ _ _ _ Hr e y Hy); congruence.
  - intros e x Hx Hu Hw. destruct (Hb e x Hx) as (y & Hy & Hs). injection Hs as E1 E2 E3 E4. rewrite E3. apply (r_cb _ _ _ _ Hr e y Hy); congruence.
Qed.

(** Only entry [e] changed, and links. *)
Definition lone (e : Z) (s s' : st) : Prop :=
  ws s' = ws s ∧ tasks s' = tasks s ∧ called s' = called s ∧ (∀ q, is_Some (heads s' !! q) ↔ is_Some (heads s !! q)) ∧
  ∀ e', e' ≠ e → (λ y, (sig y, e_wnext y)) <$> ents s' !! e' = (λ y, (sig y, e_wnext y)) <$> ents s !! e'.

Lemma unlink_ok ex s Q WL e x : rep ex s Q WL → ents s !! e = Some x → ∃ s' Q' x',
  unlink s e = Some s' ∧ rep ex s' Q' WL ∧ lone e s s' ∧ ents s' !! e = Some x' ∧ sig x' = sig (unq x) ∧ e_wnext x' = e_wnext x.
Proof.
  intros Hr Hx. destruct (decide (e_q x = 0)) as [Hq|Hq].
  { exists s, Q, x. split_and!; try done; [unfold unlink; by rewrite Hx; cbn; rewrite Hq|unfold sig, unq; cbn; by rewrite Hq]. }
  destruct (r_in _ _ _ _ Hr e x Hx Hq) as (l & Hl & (l1 & l2 & ->)%list_elem_of_split).
  pose proof (rep_0 _ _ _ _ Hr) as H0. destruct (r_queue _ _ _ _ Hr _ _ Hl) as [_ Hc].
  pose proof (chain_ends _ _ _ _ _ H0 Hc) as (Hep & Hen & Hpn & Hp & Hn & He1 & He2 & Hd). cbv zeta in *.
  destruct (proj2 Hc l1 e l2 eq_refl) as (x0 & Hx0 & Hu & _ & Hpr & Hne). rewrite Hx in Hx0. injection Hx0 as <-.
  assert (∀ a, a ∈ l1 ++ l2 → is_Some (ents s !! a)) as Hi. { intros a Ha. destruct (chain_elem _ _ _ a Hc) as (? & ? & _); [set_solver|by eexists]. }
  destruct (relink_map (ents s) e (default 0 (last l1)) (hd 0 l2) x Hx H0 Hep Hen Hpn) as (m' & Ht & Hun);
    [intros ?; apply Hi; set_solver..|].
  assert (is_Some (heads s !! e_q x)) as Hhd. { rewrite (r_heads _ _ _ _ Hr), Hl. done. }
  rewrite (Hun s eq_refl (λ _, Hhd) Hpr Hne Hq). eexists _, (<[e_q x := l1 ++ l2]> Q), (unq x). split; [done|]. pose proof Ht as [Ht1 Ht2].
  assert (∀ e', wsig <$> m' !! e' = wsig <$> ents s !! e') as Hw.
  { intros e'. destruct (decide (e' = e)) as [->|]; [by rewrite Ht1, Hx|]. rewrite Ht2 by done. by destruct (ents s !! e'). }
  split; [apply (rep_queues _ _ _ _ _ _ _ Hr Hw)|]; [..|split; [unfold lone; split_and!|]; try done].
  - intros q. destruct (decide (q = e_q x)) as [->|Hqx]; [|rewrite lookup_insert_ne by done; case_match; rewrite ?lookup_insert_ne by done; apply (r_heads _ _ _ _ Hr)].
    rewrite lookup_insert_eq. cbn. rewrite hd_app. case_match; bools; [rewrite lookup_insert_eq|rewrite (r_heads _ _ _ _ Hr), Hl; cbn; rewrite hd_app].
    + destruct l1 as [|a l1] using rev_ind; [done|]. rewrite last_snoc in *. cbn in *. subst a. destruct (Hi 0) as [? ?]; [set_solver|congruence].
    + by destruct l1.
  - intros q l Hq'. destruct (decide (q = e_q x)) as [->|Hqx].
    + rewrite lookup_insert_eq in Hq'. injection Hq' as <-. split; [done|]. by apply (taken_chain (ents s) m' (e_q x) l1 e l2 x).
    + rewrite lookup_insert_ne in Hq' by done. destruct (r_queue _ _ _ _ Hr _ _ Hq') as [? Hc']. split; [done|].
      apply (chain_frame _ _ _ _ Hc'). intros a y Ha Hy. destruct (chain_elem _ _ _ a Hc' Ha) as (y' & Hy' & _ & Hyq). rewrite Hy in Hy'. injection Hy' as <-.
      assert (∀ b, b ∈ l1 ++ e :: l2 → a ≠ b) as Hab. { intros b Hb ->. destruct (chain_elem _ _ _ b Hc Hb) as (z & ? & _ & ?). congruence. }
      assert (a ≠ 0) by congruence. exists y. rewrite Ht2 by (apply Hab; set_solver). rewrite Hy. cbn. rewrite relink_id; [done|..].
      * intros E. apply (Hab a); [|done]. apply elem_of_app. left. rewrite E. apply Hp. congruence.
      * intros E. apply (Hab a); [|done]. apply elem_of_app. right. apply list_elem_of_further. rewrite E. apply Hn. congruence.
  - intros a y Ha Hyq. destruct (decide (a = e)) as [->|Hae]; [rewrite Ht1 in Ha; by injection Ha as <-|].
    rewrite Ht2 in Ha by done. destruct (ents s !! a) as [z|] eqn:Hz; [|done]. injection Ha as <-. destruct (r_in _ _ _ _ Hr a z Hz Hyq) as (l & Hlq & Hal).
    change (e_q (relink _ _ a z)) with (e_q z). destruct (decide (e_q z = e_q x)) as [E|]; [|exists l; by rewrite lookup_insert_ne].
    rewrite E in *. rewrite Hl in Hlq. injection Hlq as <-. rewrite lookup_insert_eq. eexists. split; [done|]. set_solver.
  - cbn. intros q. case_match; [|done]. destruct (decide (q = e_q x)) as [->|]; [rewrite lookup_insert_eq; split; [done|by eexists]|by rewrite lookup_insert_ne].
  - cbn. intros e' He'. rewrite Ht2 by done. by destruct (ents s !! e').
Qed.

(** ** Frames *)

Lemma frame_refl D s : frame D s s.
Proof. split; try done; intros e x Hx; [intros _ _|intros _]; by exists x. Qed.

Lemma frame_trans D s1 s2 s3 : frame D s1 s2 → frame D s2 s3 → frame D s1 s3.
Proof.
  intros [A1 A2 A6 A3 A4 A5] [B1 B2 B6 B3 B4 B5]. split; try congruence.
  - intros w Hw. by rewrite B1, A1.
  - intros e x Hx Hu Hn. destruct (A2 e x Hx Hu Hn) as (x' & Hx' & E). pose proof E as E'. injection E' as E1 _ E2 _ _.
    destruct (B2 e x' Hx') as (x'' & ? & ?); [by rewrite E1|by rewrite E2|]. exists x''. split; congruence.
  - intros e x Hx Hu. destruct (B6 e x Hx Hu) as (x1 & Hx1 & E). pose proof E as E'. injection E' as E1 _ _ _ _. destruct (A6 e x1 Hx1) as (x2 & ? & ?); [congruence|]. exists x2. split; congruence.
  - intros q. by rewrite B5.
Qed.

Lemma frame_weaken (D D' : Z → Prop) s s' : (∀ w, D w → D' w) → frame D s s' → frame D' s s'.
Proof. intros HD [A1 A2 A6 A3 A4 A5]. split; try done; [intros w Hw; apply A1; auto|]. intros e x Hx Hu Hn. apply A2; auto. Qed.

(** ** Freeing *)

Lemma rep_weaken ex s Q WL : rep 0 s Q WL → ex ≠ 0 → rep ex s Q WL.
Proof.
  intros [H1 H2 H3 H4 H5 H6 H7 H8] He. split; try done. intros w y Hy Hu. destruct (H6 w y Hy Hu) as (? & l & ? & ? & Hh). split; [done|].
  exists l. split_and!; try done. intros _. apply Hh. intros ->. apply mk_is_Some, H2 in Hy. lia.
Qed.

Lemma is_Some_insert_ents (m : gmap Z wq_ent) e x x' : m !! e = Some x → ∀ k, is_Some (<[e := x']> m !! k) ↔ is_Some (m !! k).
Proof. intros Hx k. destruct (decide (k = e)) as [->|]; [rewrite lookup_insert_eq, Hx; split; by eexists|by rewrite lookup_insert_ne]. Qed.

Lemma off_chain (m : gmap Z wq_ent) e x x' q l : m !! e = Some x → e_q x = 0 → q ≠ 0 → chain m q l → chain (<[e := x']> m) q l.
Proof.
  intros Hx Hq H0 Hc. apply (chain_frame _ _ _ _ Hc). intros a y Ha Hy. exists y. rewrite lookup_insert_ne; [done|].
  intros <-. destruct (chain_elem _ _ _ _ Hc Ha) as (z & ? & _ & ?). congruence.
Qed.

(** An entry out of its queue leaves the list of its waiter, and is free; [w] is 0
    for a callback. *)
Lemma mark_free w s Q WL e x l : rep w s Q WL → ents s !! e = Some x → e_used x = true → e_q x = 0 → e_w x = w →
  (w ≠ 0 → WL !! w = Some (e :: l)) →
  rep w {| s with ents := <[e := {| x with e_used := false |}]> (ents s) |} Q (if w =? 0 then WL else <[w := l]> WL).
Proof.
  intros Hr Hx Hu Hq Hw HW. assert (∀ v y, ws s !! v = Some y → v ≠ 0) as Hv0.
  { intros v y Hy ->. apply mk_is_Some, (r_ws _ _ _ _ Hr) in Hy. lia. }
  split; cbn.
  - intros k. rewrite (is_Some_insert_ents _ _ _ _ Hx). apply (r_ents _ _ _ _ Hr).
  - apply (r_ws _ _ _ _ Hr).
  - apply (r_heads _ _ _ _ Hr).
  - intros q l' Hl. destruct (r_queue _ _ _ _ Hr _ _ Hl). split; [done|]. by apply (off_chain _ _ x).
  - intros a y Ha Hy. destruct (decide (a = e)) as [->|]; [rewrite lookup_insert_eq in Ha; injection Ha as <-; done|].
    rewrite lookup_insert_ne in Ha by done. by apply (r_in _ _ _ _ Hr).
  - intros v y Hy Hyu. destruct (r_waiter _ _ _ _ Hr v y Hy Hyu) as (? & l' & Hl' & Hc & Hh). split; [done|]. pose proof (Hv0 v y Hy).
    destruct (decide (v = w)) as [->|Hvw].
    + rewrite HW in Hl' by done. injection Hl' as <-. rewrite (proj2 (Z.eqb_neq _ _)) by done. exists l. rewrite lookup_insert_eq.
      apply wchain_cons in Hc as (Hc & Hel & _). split_and!; try done. apply (wchain_frame _ _ _ _ Hc). intros a z Ha Hz. exists z. rewrite lookup_insert_ne; [done|]. by intros <-.
    + exists l'. split; [case_match; [done|by rewrite lookup_insert_ne]|]. split; [|done].
      apply (wchain_frame _ _ _ _ Hc). intros a z Ha Hz. exists z. rewrite lookup_insert_ne; [done|]. intros <-.
      destruct (wchain_elem _ _ _ _ Hc Ha) as (z' & ? & _ & ?). congruence.
  - intros a y Ha Hyu Hyw. destruct (decide (a = e)) as [->|Hae]; [rewrite lookup_insert_eq in Ha; by injection Ha as <-|].
    rewrite lookup_insert_ne in Ha by done. destruct (r_mine _ _ _ _ Hr a y Ha Hyu Hyw) as (? & z & l' & Hz & ? & Hl' & Hal). split; [done|].
    destruct (decide (e_w y = w)) as [E|].
    + rewrite E in *. rewrite HW in Hl' by done. injection Hl' as <-. exists z, l. rewrite (proj2 (Z.eqb_neq w 0)) by done. rewrite lookup_insert_eq. split_and!; try done. set_solver.
    + exists z, l'. split_and!; try done. case_match; [done|by rewrite lookup_insert_ne].
  - intros a y Ha Hyu Hyw. destruct (decide (a = e)) as [->|Hae]; [rewrite lookup_insert_eq in Ha; by injection Ha as <-|].
    rewrite lookup_insert_ne in Ha by done. by apply (r_cb _ _ _ _ Hr a y).
Qed.

(** Unlinking an entry and marking it free. *)
Lemma free_ent_ok w s Q WL e x l : rep w s Q WL → ents s !! e = Some x → e_used x = true → e_w x = w → (w ≠ 0 → WL !! w = Some (e :: l)) →
  ∃ s1 s2 Q' x', unlink s e = Some s1 ∧ upd_ent s1 e (λ y, {| y with e_used := false |}) = Some s2 ∧
    rep w s2 Q' (if w =? 0 then WL else <[w := l]> WL) ∧ lone e s s2 ∧ ents s2 !! e = Some x' ∧ e_used x' = false ∧ e_wnext x' = e_wnext x.
Proof.
  intros Hr Hx Hu Hw HW. destruct (unlink_ok _ _ _ _ _ _ Hr Hx) as (s1 & Q' & x1 & E1 & Hr1 & (H1 & H2 & H3 & H4 & H5) & Hx1 & Hs & Hn).
  unfold sig, unq in Hs. cbn in Hs. injection Hs as A1 A2 A3 A4 A5.
  exists s1. rewrite E1. unfold upd_ent. rewrite Hx1. cbn [mbind option_bind]. eexists _, Q', {| x1 with e_used := false |}. split; [done|]. split; [done|]. split_and!.
  - apply (mark_free w s1 Q' WL e x1 l Hr1 Hx1); first [done|congruence].
  - unfold lone. cbn. split_and!; try done. intros e' He. rewrite lookup_insert_ne by done. by apply H5.
  - cbn. apply lookup_insert_eq.
  - done.
  - done.
Qed.

Lemma lone_get e s s' e' y : lone e s s' → e' ≠ e → ents s !! e' = Some y → ∃ y', ents s' !! e' = Some y' ∧ sig y' = sig y ∧ e_wnext y' = e_wnext y.
Proof.
  intros (_ & _ & _ & _ & H5) He Hy. specialize (H5 e' He). rewrite Hy in H5. destruct (ents s' !! e') as [y'|]; [|done]. cbn in H5. exists y'. split; [done|]. split; congruence.
Qed.

Lemma lone_back e s s' e' y : lone e s s' → e' ≠ e → ents s' !! e' = Some y → ∃ y', ents s !! e' = Some y' ∧ sig y' = sig y.
Proof.
  intros (_ & _ & _ & _ & H5) He Hy. specialize (H5 e' He). rewrite Hy in H5. destruct (ents s !! e') as [y'|]; [|done]. cbn in H5. exists y'. split; [done|]. congruence.
Qed.

Lemma lone_frame w e s s' x x' : lone e s s' → ents s !! e = Some x → e_used x = true → e_w x = w → ents s' !! e = Some x' → e_used x' = false → frame (eq w) s s'.
Proof.
  intros Hl Hx Hu Hw Hx' Hu'. pose proof Hl as (H1 & H2 & H3 & H4 & _). split; try done; [by rewrite H1|intros e' y Hy _ Hn|intros e' y Hy Hyu]; destruct (decide (e' = e)) as [->|He].
  - destruct Hn. rewrite Hx in Hy. injection Hy as <-. done.
  - destruct (lone_get _ _ _ _ _ Hl He Hy) as (y' & ? & ? & _). by exists y'.
  - congruence.
  - by apply (lone_back _ _ _ _ _ Hl He).
Qed.

Lemma free_ents_ok l : ∀ fuel w s Q WL y, rep w s Q WL → ws s !! w = Some y → w_used y = true → WL !! w = Some l → (length l ≤ fuel)%nat →
  ∃ s' Q', free_ents fuel s (hd 0 l) = Some s' ∧ rep w s' Q' (<[w := []]> WL) ∧ frame (eq w) s s' ∧ ws s' = ws s.
Proof.
  induction l as [|e l IH]; intros fuel w s Q WL y Hr Hy Hyu HW Hf.
  - exists s, Q. cbn. rewrite insert_id by done. split; [by destruct fuel|]. split_and!; try done. apply frame_refl.
  - assert (w ≠ 0) as Hw0. { intros ->. apply mk_is_Some, (r_ws _ _ _ _ Hr) in Hy. lia. }
    destruct (r_waiter _ _ _ _ Hr w y Hy Hyu) as (_ & l' & Hl' & Hc & _). rewrite HW in Hl'. injection Hl' as <-.
    apply wchain_cons in Hc as (_ & _ & x & Hx & Hu & Hw & Hn). assert (e ≠ 0). { intros ->. by rewrite (rep_0 _ _ _ _ Hr) in Hx. }
    destruct fuel as [|fuel]; [cbn in Hf; lia|]. destruct (free_ent_ok w s Q WL e x l Hr Hx Hu Hw (λ _, HW)) as (s1 & s2 & Q' & x' & E1 & E2 & Hr2 & Hl & Hx' & Hu' & Hn').
    rewrite (proj2 (Z.eqb_neq w 0) Hw0) in Hr2. destruct (IH fuel w s2 Q' (<[w := l]> WL) y) as (s' & Q'' & E3 & Hr' & Hf' & Hws); [done|by rewrite (proj1 Hl)|done|by rewrite lookup_insert_eq|cbn in Hf; lia|].
    exists s', Q''. rewrite insert_insert_eq in Hr'. cbn [free_ents hd]. rewrite (proj2 (Z.eqb_neq e 0)) by done. rewrite E1. cbn [mbind option_bind].
    rewrite E2. cbn [mbind option_bind]. rewrite Hx'. cbn [mbind option_bind]. rewrite Hn', Hn. split; [done|]. split; [done|]. split.
    + apply (frame_trans _ _ s2); [|done]. by apply (lone_frame _ _ _ _ x x' Hl Hx).
    + rewrite Hws. apply Hl.
Qed.

Lemma rep_fuel s Q WL q l : rep 0 s Q WL → Q !! q = Some l → (length l ≤ FUEL)%nat.
Proof.
  intros Hr Hl. destruct (r_queue _ _ _ _ Hr _ _ Hl) as [_ Hc]. apply (pool_length (ents s)); [apply (r_ents _ _ _ _ Hr)|apply Hc|].
  intros e He. destruct (chain_elem _ _ _ _ Hc He) as (x & ? & _). by exists x.
Qed.

Lemma waiter_free_ok s w y : wf s → ws s !! w = Some y → w_used y = true → ∃ s', wq_waiter_free s w = Some s' ∧ wf s' ∧ frame (eq w) s s' ∧
  ws s' = <[w := {| y with w_ents := 0; w_used := false |}]> (ws s).
Proof.
  intros (Q & WL & Hr) Hy Hu. assert (w ≠ 0) as Hw0. { intros ->. apply mk_is_Some, (r_ws _ _ _ _ Hr) in Hy. lia. }
  destruct (r_waiter _ _ _ _ Hr w y Hy Hu) as (_ & l & Hl & Hc & Hh). specialize (Hh Hw0).
  assert (length l ≤ FUEL)%nat as Hf. { apply (pool_length (ents s)); [apply (r_ents _ _ _ _ Hr)|apply Hc|]. intros e He. destruct (wchain_elem _ _ _ _ Hc He) as (x & ? & _). by exists x. }
  destruct (free_ents_ok l FUEL w s Q WL y (rep_weaken w _ _ _ Hr Hw0) Hy Hu Hl Hf) as (s1 & Q' & E1 & Hr1 & Hfr & Hws).
  unfold wq_waiter_free. rewrite Hy. cbn [mbind option_bind]. rewrite Hh, E1. cbn [mbind option_bind]. unfold upd_w. rewrite Hws, Hy. cbn [mbind option_bind].
  eexists. split; [done|]. split; [exists Q', (<[w := []]> WL); destruct Hr1 as [H1 H2 H3 H4 H5 H6 H7 H8]; split; cbn; try done|split; [|done]].
  - intros v. rewrite <- H2, Hws. destruct (decide (v = w)) as [->|]; [rewrite lookup_insert_eq, Hy; split; by eexists|by rewrite lookup_insert_ne].
  - intros v z Hz Hzu. destruct (decide (v = w)) as [->|]; [rewrite lookup_insert_eq in Hz; by injection Hz as <-|]. rewrite lookup_insert_ne, <- Hws in Hz by done.
    destruct (H6 v z Hz Hzu) as (? & l' & ? & ? & ?). split; [done|]. exists l'. split_and!; auto.
  - intros e x Hx Hxu Hxw. destruct (H7 e x Hx Hxu Hxw) as (? & z & l' & ? & ? & Hl' & Hel). split; [done|].
    destruct (decide (e_w x = w)) as [E|]; [rewrite E, lookup_insert_eq in Hl'; injection Hl' as <-; by apply elem_of_nil in Hel|].
    exists z, l'. split_and!; try done. by rewrite lookup_insert_ne, <- Hws.
  - destruct Hfr as [A1 A2 A6 A3 A4 A5]. split; cbn; try done. intros v Hv. by rewrite lookup_insert_ne.
Qed.

(** ** Collecting *)

Definition dead_w (s : st) (w : Z) : bool :=
  match ws s !! w with
  | Some y => w_used y && match tasks s !! w_t y with Some t => (t_state t =? T_FREE) || (t_state t =? T_DEAD) | None => false end
  | None => false
  end.

(** Nothing but what belongs to dead tasks is touched. *)
Definition spared (s : st) : st → st → Prop := frame (λ w, dead_w s w = true).

Lemma gc_one_ok s w : wf s → 1 ≤ w ≤ NW → ∃ s', gc_one w s = Some s' ∧ wf s' ∧ spared s s s' ∧ (∀ v, dead_w s' v = true → dead_w s v = true).
Proof.
  intros Hwf Hw. pose proof Hwf as (Q & WL & Hr). destruct (proj2 (r_ws _ _ _ _ Hr w) Hw) as [y Hy]. unfold gc_one. rewrite Hy. cbn [mbind option_bind].
  destruct (w_used y) eqn:Hu; [|exists s; split_and!; try done; apply frame_refl]. cbn [negb].
  destruct (r_waiter _ _ _ _ Hr w y Hy Hu) as ([t Ht] & _). rewrite Ht. cbn [mbind option_bind].
  destruct (negb (t_state t =? T_FREE) && negb (t_state t =? T_DEAD)) eqn:E; [exists s; split_and!; try done; apply frame_refl|].
  destruct (waiter_free_ok s w y Hwf Hy Hu) as (s' & Hs' & Hwf' & Hf & Hws). exists s'. split_and!; try done.
  - apply (frame_weaken (eq w)); [|done]. intros v <-. unfold dead_w. rewrite Hy, Hu, Ht. cbn. apply andb_false_iff in E as [E|E]; apply negb_false_iff in E; rewrite E; [done|apply orb_true_r].
  - intros v. unfold dead_w. rewrite Hws, (f_tasks _ _ _ Hf). destruct (decide (v = w)) as [->|]; [by rewrite lookup_insert_eq|by rewrite lookup_insert_ne].
Qed.

Lemma gc_ok s : wf s → ∃ s', gc s = Some s' ∧ wf s' ∧ spared s s s' ∧ (∀ v, dead_w s' v = true → dead_w s v = true).
Proof.
  intros Hwf. unfold gc. destruct (each_spec gc_one (λ _ s', wf s' ∧ spared s s s' ∧ (∀ v, dead_w s' v = true → dead_w s v = true)) (seqZ 1 NW) [] s) as (s' & ? & ? & ? & ?).
  - intros _ w s1 Hw%elem_of_seqZ (H1 & H2 & H3). destruct (gc_one_ok s1 w H1 ltac:(lia)) as (s2 & ? & ? & ? & ?). exists s2. split_and!; auto.
    apply (frame_trans _ _ s1); [done|]. by apply (frame_weaken (λ v, dead_w s1 v = true)).
  - split_and!; try done. apply frame_refl.
  - by exists s'.
Qed.

Lemma search_ok find s : wf s → ∃ r s', search find s = Some (r, s') ∧ wf s' ∧ spared s s s' ∧ (r = 0 ∨ find s' = Some r).
Proof.
  intros Hwf. unfold search. destruct (find s) as [r|] eqn:E. { exists r, s. split_and!; try done; [apply frame_refl|by right]. }
  destruct (gc_ok s Hwf) as (s1 & -> & Hwf1 & Hf1 & Hd1). cbn [mbind option_bind]. destruct (find s1) as [r|] eqn:E1. { exists r, s1. split_and!; try done; by right. }
  destruct (gc_ok s1 Hwf1) as (s2 & -> & Hwf2 & Hf2 & Hd2). exists 0, s2. cbn. split_and!; try done; [|by left].
  apply (frame_trans _ _ s1); [done|]. by apply (frame_weaken (λ v, dead_w s1 v = true)).
Qed.

Lemma first_some_Some {A B} (f : A → option B) l y : first_some f l = Some y → ∃ x, x ∈ l ∧ f x = Some y.
Proof. induction l as [|x l IH]; cbn; [done|]. destruct (f x) as [z|] eqn:E; [intros [= ->]; exists x; set_solver|]. intros (x' & ? & ?)%IH. exists x'. set_solver. Qed.

Lemma free_w_Some s r : free_w s = Some r → ∃ y, ws s !! r = Some y ∧ w_used y = false ∧ r ≠ 0.
Proof.
  unfold free_w. intros (w & Hw%elem_of_seqZ & Hr)%first_some_Some. destruct (ws s !! w) as [y|] eqn:Hy; [|done]. destruct (w_used y) eqn:Hu; [done|].
  injection Hr as <-. exists y. split_and!; try done. lia.
Qed.

Lemma free_e_Some s r : free_e s = Some r → ∃ x, ents s !! r = Some x ∧ e_used x = false ∧ r ≠ 0.
Proof.
  unfold free_e. intros (w & Hw%elem_of_seqZ & Hr)%first_some_Some. destruct (ents s !! w) as [y|] eqn:Hy; [|done]. destruct (e_used y) eqn:Hu; [done|].
  injection Hr as <-. exists y. split_and!; try done. lia.
Qed.

(** ** Taking from the pools *)

(** The entries of living waiters, and of callbacks, stay, none but [n] is new; the
    tasks and queues stay. *)
Record keeps (n : Z) (s s' : st) : Prop := {
  k_e : ∀ e x, ents s !! e = Some x → e_used x = true → dead_w s (e_w x) = false → ∃ x', ents s' !! e = Some x' ∧ sig x' = sig x;
  k_back : ∀ e x', e ≠ n → ents s' !! e = Some x' → e_used x' = true → ∃ x, ents s !! e = Some x ∧ sig x = sig x';
  k_tasks : tasks s' = tasks s;
  k_called : called s' = called s;
  k_heads : ∀ q, is_Some (heads s' !! q) ↔ is_Some (heads s !! q)
}.

Lemma spared_keeps n s s' : spared s s s' → keeps n s s'.
Proof. intros [A1 A2 A6 A3 A4 A5]. split; try done; [|intros e x' _; apply A6]. intros e x Hx Hu Hd. apply A2; [done..|]. by rewrite Hd. Qed.

Lemma spared_w s s' w : spared s s s' → dead_w s w = false → ws s' !! w = ws s !! w.
Proof. intros [A1 _ _ _ _ _] Hd. apply A1. by rewrite Hd. Qed.

Lemma waiter_ok s cur : wf s → is_Some (tasks s !! cur) → ∃ r s', wq_waiter s cur = Some (r, s') ∧ wf s' ∧ keeps 0 s s' ∧
  (∀ w, dead_w s w = false → w ≠ r → ws s' !! w = ws s !! w) ∧
  (r ≠ 0 → ws s' !! r = Some (WqW cur 0 true 0) ∧ ∀ y, ws s !! r = Some y → w_used y = true → dead_w s r = true).
Proof.
  intros Hwf Hc. unfold wq_waiter. destruct (search_ok free_w s Hwf) as (r & s1 & -> & (Q & WL & Hr) & Hf & Hr0). cbn [mbind option_bind].
  destruct (r =? 0) eqn:E; bools.
  { exists r, s1. subst r. split; [done|]. split; [by exists Q, WL|]. split; [by apply spared_keeps|]. split; [|done]. intros w Hw _. by apply spared_w. }
  destruct Hr0 as [?|(y & Hy & Hu & _)%free_w_Some]; [done|]. unfold upd_w. rewrite Hy. cbn [mbind option_bind].
  eexists r, _. split; [done|]. split; [exists Q, (<[r := []]> WL); destruct Hr as [H1 H2 H3 H4 H5 H6 H7 H8]; split; cbn; try done|].
  - intros v. rewrite <- H2. destruct (decide (v = r)) as [->|]; [rewrite lookup_insert_eq, Hy; split; by eexists|by rewrite lookup_insert_ne].
  - intros v z Hz Hzu. destruct (decide (v = r)) as [->|].
    + rewrite lookup_insert_eq in Hz. injection Hz as <-. cbn. split; [by rewrite (f_tasks _ _ _ Hf)|]. exists []. rewrite lookup_insert_eq. split; [done|]. split; [|done].
      split; [apply NoDup_nil_2|]. intros l1 e l2. by destruct l1.
    + rewrite lookup_insert_ne in Hz by done. destruct (H6 v z Hz Hzu) as (? & l' & ? & ? & ?). split; [done|]. exists l'. by rewrite lookup_insert_ne.
  - intros e x Hx Hxu Hxw. destruct (H7 e x Hx Hxu Hxw) as (? & z & l' & Hz & ? & ? & ?). split; [done|].
    assert (e_w x ≠ r) by (intros E'; rewrite E' in Hz; congruence). exists z, l'. by rewrite !lookup_insert_ne.
  - split; [by destruct (spared_keeps 0 _ _ Hf)|]. split; [intros w Hw Hwr; cbn; rewrite lookup_insert_ne by done; by apply spared_w|].
    intros _. cbn. split; [apply lookup_insert_eq|]. intros y' Hy' Hu'. destruct (dead_w s r) eqn:Hd; [done|]. rewrite (spared_w _ _ _ Hf Hd) in Hy. congruence.
Qed.

(** A free entry becomes a callback, or the first entry of waiter [w], not yet on a
    queue. *)
Lemma claim_ok w s Q WL e x x' y l : rep 0 s Q WL → ents s !! e = Some x → e_used x = false → e_used x' = true → e_q x' = 0 → e_w x' = w →
  (if w =? 0 then e_cb x' ≠ 0 else e_cb x' = 0 ∧ ws s !! w = Some y ∧ w_used y = true ∧ WL !! w = Some l ∧ e_wnext x' = w_ents y) →
  rep 0 {| s with ents := <[e := x']> (ents s); ws := if w =? 0 then ws s else <[w := {| y with w_ents := e |}]> (ws s) |} Q
    (if w =? 0 then WL else <[w := e :: l]> WL).
Proof.
  intros Hr Hx Hu Hu' Hq' Hw' Hc. assert (e_q x = 0) as Hq.
  { destruct (decide (e_q x = 0)) as [|Hq]; [done|]. destruct (r_in _ _ _ _ Hr e x Hx Hq) as (l' & Hl' & He). destruct (r_queue _ _ _ _ Hr _ _ Hl') as [_ Hch].
    destruct (chain_elem _ _ _ _ Hch He) as (? & ? & ? & _). congruence. }
  assert (∀ v k, wchain (ents s) v k → e ∉ k) as Hek. { intros v k Hk He. destruct (wchain_elem _ _ _ _ Hk He) as (? & ? & ? & _). congruence. }
  assert (∀ v k, wchain (ents s) v k → wchain (<[e := x']> (ents s)) v k) as Hwk.
  { intros v k Hk. apply (wchain_frame _ _ _ _ Hk). intros a z Ha Hz. exists z. rewrite lookup_insert_ne; [done|]. intros <-. by apply (Hek v k). }
  destruct Hr as [H1 H2 H3 H4 H5 H6 H7 H8]. split; cbn; try done.
  - intros k. by rewrite (is_Some_insert_ents _ _ _ _ Hx).
  - intros v. rewrite <- H2. case_match; [done|]. destruct Hc as (_ & Hy & _). destruct (decide (v = w)) as [->|]; [rewrite lookup_insert_eq, Hy; split; by eexists|by rewrite lookup_insert_ne].
  - intros q k Hk. destruct (H4 q k Hk). split; [done|]. by apply (off_chain _ _ x).
  - intros a z Ha Hz. destruct (decide (a = e)) as [->|]; [rewrite lookup_insert_eq in Ha; by injection Ha as <-|]. rewrite lookup_insert_ne in Ha by done. by apply H5.
  - intros v z Hz Hzu. destruct (Z.eqb_spec w 0) as [E|E]; [destruct (H6 v z Hz Hzu) as (? & k & ? & ? & ?); split; [done|]; exists k; auto|].
    destruct Hc as (Hcb & Hy & Hyu & Hl & Hn). destruct (decide (v = w)) as [->|].
    + rewrite lookup_insert_eq in Hz. injection Hz as <-. cbn. destruct (H6 w y Hy Hyu) as (? & k & Hk & Hkc & Hh). rewrite Hl in Hk. injection Hk as <-. split; [done|].
      exists (e :: l). rewrite lookup_insert_eq. split; [done|]. split; [|done]. pose proof (Hek _ _ Hkc) as Hel. apply Hwk in Hkc as [Hnd Hkc]. split; [by apply NoDup_cons|].
      intros l1 a l2 El. destruct l1 as [|b l1]; cbn in El; injection El as <- E2; [|by apply (Hkc l1)]. subst l2. exists x'. rewrite lookup_insert_eq. split_and!; try done. rewrite Hn. by apply Hh.
    + rewrite lookup_insert_ne in Hz by done. destruct (H6 v z Hz Hzu) as (? & k & ? & ? & ?). split; [done|]. exists k. rewrite lookup_insert_ne by done. auto.
  - intros a z Ha Hzu Hzw. destruct (decide (a = e)) as [->|Hae].
    + rewrite lookup_insert_eq in Ha. injection Ha as <-. rewrite Hw' in *. rewrite (proj2 (Z.eqb_neq w 0)) in * by done. destruct Hc as (Hcb & Hy & Hyu & Hl & Hn). split; [done|].
      exists {| y with w_ents := e |}, (e :: l). rewrite !lookup_insert_eq. split_and!; try done. set_solver.
    + rewrite lookup_insert_ne in Ha by done. destruct (H7 a z Ha Hzu Hzw) as (? & v & k & Hv & ? & Hk & ?). split; [done|].
      destruct (Z.eqb_spec w 0) as [E|E]; [by exists v, k|]. destruct Hc as (Hcb & Hy & Hyu & Hl & Hn). destruct (decide (e_w z = w)) as [E'|]; [|exists v, k; by rewrite !lookup_insert_ne].
      rewrite E' in *. rewrite Hl in Hk. injection Hk as <-. exists {| y with w_ents := e |}, (e :: l). rewrite !lookup_insert_eq. split_and!; try done. set_solver.
  - intros a z Ha Hzu Hzw. destruct (decide (a = e)) as [->|Hae]; [|rewrite lookup_insert_ne in Ha by done; by apply (H8 a z)].
    rewrite lookup_insert_eq in Ha. injection Ha as <-. rewrite Hw' in Hzw. subst w. by rewrite Hzw in Hc.
Qed.

(** The entries after [e] was put before [h] on queue [q]. *)
Definition reprev (h e k : Z) (y : wq_ent) : wq_ent := if k =? h then {| y with e_prev := e |} else y.

Definition onto (q h : Z) (y : wq_ent) : wq_ent := {| y with e_q := q; e_prev := 0; e_next := h |}.

Definition pushed (m m' : gmap Z wq_ent) (e q h : Z) (x : wq_ent) : Prop :=
  m' !! e = Some (onto q h x) ∧ ∀ k, k ≠ e → m' !! k = reprev h e k <$> m !! k.

Lemma reprev_sig h e k y : sig (reprev h e k y) = sig y ∧ wsig (reprev h e k y) = wsig y ∧ e_next (reprev h e k y) = e_next y.
Proof. unfold reprev. by case_match. Qed.

Lemma push_ok s Q WL e x q l m' : rep 0 s Q WL → ents s !! e = Some x → e_used x = true → e_q x = 0 → Q !! q = Some l →
  pushed (ents s) m' e q (hd 0 l) x → rep 0 {| s with ents := m'; heads := <[q := e]> (heads s) |} (<[q := e :: l]> Q) WL.
Proof.
  intros Hr Hx Hu Hq Hl [Hm1 Hm2]. destruct (r_queue _ _ _ _ Hr _ _ Hl) as [Hq0 Hc]. pose proof (rep_0 _ _ _ _ Hr) as H0.
  assert (∀ q' l', q' ≠ 0 → chain (ents s) q' l' → e ∉ l') as Hnot. { intros q' l' Hq' Hc' He. destruct (chain_elem _ _ _ _ Hc' He) as (? & ? & _ & ?). congruence. }
  apply (rep_queues _ _ _ _ _ _ _ Hr).
  - intros k. destruct (decide (k = e)) as [->|]; [by rewrite Hm1, Hx|]. rewrite Hm2 by done. destruct (ents s !! k); [|done]. cbn. f_equal. apply reprev_sig.
  - intros q'. destruct (decide (q' = q)) as [->|]; [by rewrite !lookup_insert_eq|]. rewrite !lookup_insert_ne by done. apply (r_heads _ _ _ _ Hr).
  - intros q' l' Hl'. destruct (decide (q' = q)) as [->|Hqq].
    + rewrite lookup_insert_eq in Hl'. injection Hl' as <-. split; [done|]. pose proof (Hnot q l Hq0 Hc) as Hel. destruct Hc as [Hnd Hc]. split; [by apply NoDup_cons|].
      intros l1 a l2 El. destruct l1 as [|b l1]; cbn in El; injection El as <- E2. { subst l2. eexists. by rewrite Hm1. }
      destruct (Hc l1 a l2 E2) as (z & Hz & A1 & A2 & A3 & A4). assert (a ≠ e) as Hae by (intros ->; apply Hel; set_solver).
      exists (reprev (hd 0 l) e a z). rewrite Hm2, Hz by done. destruct (reprev_sig (hd 0 l) e a z) as (Es & _ & En). injection Es as B1 B2 B3 B4 B5.
      split_and!; try done; try congruence. unfold reprev. subst l. destruct l1 as [|b l1]; [by rewrite Z.eqb_refl|].
      change (hd 0 ((b :: l1) ++ a :: l2)) with b. rewrite last_cons_cons. destruct (Z.eqb_spec a b) as [->|]; [|done]. exfalso. cbn in Hnd. apply NoDup_cons in Hnd as [Hnd _]. apply Hnd. set_solver.
    + rewrite lookup_insert_ne in Hl' by done. destruct (r_queue _ _ _ _ Hr _ _ Hl') as [Hq'0 Hc']. split; [done|]. apply (chain_frame _ _ _ _ Hc').
      intros a z Ha Hz. assert (a ≠ e) by (intros ->; by apply (Hnot q' l')). exists z. rewrite Hm2, Hz by done. cbn. unfold reprev. rewrite (proj2 (Z.eqb_neq a (hd 0 l))); [done|].
      intros E. destruct (decide (hd 0 l = 0)) as [E0|E0]; [rewrite E0 in E; subst a; congruence|]. destruct (chain_elem _ _ _ _ Hc (hd_elem l E0)) as (z1 & Hz1 & _ & ?).
      destruct (chain_elem _ _ _ _ Hc' Ha) as (z2 & ? & _ & ?). rewrite <- E in Hz1. congruence.
  - intros a z Ha Hz. destruct (decide (a = e)) as [->|Hae].
    + rewrite Hm1 in Ha. injection Ha as <-. cbn. rewrite lookup_insert_eq. eexists. split; [done|]. set_solver.
    + rewrite Hm2 in Ha by done. destruct (ents s !! a) as [y|] eqn:Hy; [|done]. injection Ha as <-. destruct (reprev_sig (hd 0 l) e a y) as (Es & _ & En). injection Es as B1 B2 B3 B4 B5.
      rewrite B2 in *. destruct (r_in _ _ _ _ Hr a y Hy Hz) as (k & Hk & ?). destruct (decide (e_q y = q)) as [E|]; [|exists k; by rewrite lookup_insert_ne].
      rewrite E in *. rewrite Hl in Hk. injection Hk as <-. rewrite lookup_insert_eq. eexists. split; [done|]. set_solver.
Qed.

(** [ent_new] once it has found [e]. *)
Definition ent_link (s : st) (e q : Z) : option (Z * st) :=
  h ← heads s !! q;
  s ← upd_ent s e (λ y, {| y with e_used := true; e_q := q; e_prev := 0; e_next := h |});
  s ← (if nz h then upd_ent s h (λ y, {| y with e_prev := e |}) else Some s);
  s ← set_head s q e;
  Some (e, s).

Lemma ent_new_eq s q e s1 : search free_e s = Some (e, s1) → ent_new s q = if e =? 0 then Some (0, s1) else ent_link s1 e q.
Proof. intros H. unfold ent_new. by rewrite H. Qed.

Lemma ent_link_eq s Q WL e x q l : rep 0 s Q WL → ents s !! e = Some x → e_used x = false → Q !! q = Some l →
  ∃ m, ent_link s e q = Some (e, {| s with ents := m; heads := <[q := e]> (heads s) |}) ∧
    m !! e = Some (onto q (hd 0 l) {| x with e_used := true |}) ∧ ∀ k, k ≠ e → m !! k = reprev (hd 0 l) e k <$> ents s !! k.
Proof.
  intros Hr Hx Hu Hl. destruct (r_queue _ _ _ _ Hr _ _ Hl) as [Hq0 Hc]. pose proof (rep_0 _ _ _ _ Hr) as H0.
  unfold ent_link. rewrite (r_heads _ _ _ _ Hr), Hl. cbn [fmap option_fmap option_map mbind option_bind]. unfold upd_ent. rewrite Hx. cbn [mbind option_bind].
  assert (∀ m, set_head {| s with ents := m |} q e = Some {| s with ents := m; heads := <[q := e]> (heads s) |}) as Hsh.
  { intros m. unfold set_head. cbn. by rewrite (r_heads _ _ _ _ Hr), Hl. }
  unfold nz. destruct (Z.eqb_spec (hd 0 l) 0) as [E|E]; cbn [negb mbind option_bind].
  - rewrite Hsh. cbn [mbind option_bind]. eexists. split; [done|]. rewrite lookup_insert_eq. split; [done|]. intros k Hk. rewrite lookup_insert_ne by done.
    destruct (ents s !! k) eqn:Ek; [|done]. cbn. unfold reprev. rewrite (proj2 (Z.eqb_neq k (hd 0 l))); [done|]. rewrite E. congruence.
  - destruct (chain_elem _ _ _ _ Hc (hd_elem l E)) as (z & Hz & Hzu & _). assert (hd 0 l ≠ e) as Hhe by (intros E'; rewrite E' in Hz; congruence).
    cbn [ents]. rewrite lookup_insert_ne, Hz by done. cbn [mbind option_bind]. rewrite Hsh. cbn [mbind option_bind]. eexists. split; [done|].
    rewrite lookup_insert_ne, lookup_insert_eq by done. split; [done|]. intros k Hk. destruct (decide (k = hd 0 l)) as [->|].
    + rewrite lookup_insert_eq, Hz. cbn. unfold reprev. by rewrite Z.eqb_refl.
    + rewrite !lookup_insert_ne by done. destruct (ents s !! k); [|done]. cbn. unfold reprev. by rewrite (proj2 (Z.eqb_neq k (hd 0 l))).
Qed.

(** A new entry of waiter [w], or a callback, on queue [q]. *)
Lemma new_ok w s Q WL e x q y (f : wq_ent → wq_ent) cb (g : Z → Z) wn : rep 0 s Q WL → ents s !! e = Some x → e_used x = false → is_Some (heads s !! q) →
  (∀ z, f z = {| z with e_w := w; e_cb := cb; e_arg := g (e_arg z); e_wnext := wn |}) →
  (if w =? 0 then cb ≠ 0 else cb = 0 ∧ ws s !! w = Some y ∧ w_used y = true ∧ wn = w_ents y) →
  ∃ s1 s2, ent_link s e q = Some (e, s1) ∧ ws s1 = ws s ∧ upd_ent s1 e f = Some s2 ∧ ws s2 = ws s ∧
    let s3 := {| s2 with ws := if w =? 0 then ws s else <[w := {| y with w_ents := e |}]> (ws s) |} in
    wf s3 ∧ tasks s3 = tasks s ∧ called s3 = called s ∧ (∀ q, is_Some (heads s3 !! q) ↔ is_Some (heads s !! q)) ∧
    (∃ x', ents s3 !! e = Some x' ∧ sig x' = (true, q, w, cb, g (e_arg x))) ∧
    (∀ k z, ents s !! k = Some z → e_used z = true → ∃ z', ents s3 !! k = Some z' ∧ sig z' = sig z) ∧
    (∀ k z', k ≠ e → ents s3 !! k = Some z' → ∃ z, ents s !! k = Some z ∧ sig z = sig z').
Proof.
  intros Hr Hx Hu Hh Hf Hc. destruct (Q !! q) as [l|] eqn:Hl; [|rewrite (r_heads _ _ _ _ Hr), Hl in Hh; by destruct Hh].
  destruct (ent_link_eq s Q WL e x q l Hr Hx Hu Hl) as (m & -> & Hme & Hm). eexists _, _. split; [done|]. split; [done|].
  unfold upd_ent. cbn [ents]. rewrite Hme. cbn [mbind option_bind]. rewrite Hf. split; [done|]. split; [done|]. cbn.
  set (x0 := {| x with e_used := true; e_q := 0; e_w := w; e_cb := cb; e_arg := g (e_arg x); e_wnext := wn |}).
  assert (∃ l', if w =? 0 then True else WL !! w = Some l') as [l' Hl'].
  { destruct (w =? 0); [by exists []|]. destruct Hc as (_ & Hy & Hyu & _). destruct (r_waiter _ _ _ _ Hr w y Hy Hyu) as (_ & l' & ? & _). by exists l'. }
  assert (if w =? 0 then cb ≠ 0 else cb = 0 ∧ ws s !! w = Some y ∧ w_used y = true ∧ WL !! w = Some l' ∧ wn = w_ents y) as Hc'.
  { destruct (w =? 0); [done|]. by destruct Hc as (? & ? & ? & ?). }
  pose proof (claim_ok w s Q WL e x x0 y l' Hr Hx Hu eq_refl eq_refl eq_refl Hc') as Hr1.
  split_and!; try done.
  - eexists _, _. refine (push_ok _ _ _ e x0 q l (<[e := _]> m) Hr1 _ eq_refl eq_refl Hl _); cbn; [apply lookup_insert_eq|]. split; [by rewrite lookup_insert_eq|].
    intros k Hk. rewrite !lookup_insert_ne by done. by apply Hm.
  - intros q'. destruct (decide (q' = q)) as [->|]; [rewrite lookup_insert_eq; split; [done|by eexists]|by rewrite lookup_insert_ne].
  - eexists. rewrite lookup_insert_eq. done.
  - intros k z Hk Hz. assert (k ≠ e) by congruence. rewrite lookup_insert_ne, Hm, Hk by done. eexists. split; [done|]. apply reprev_sig.
  - intros k z' Hk. rewrite lookup_insert_ne, Hm by done. destruct (ents s !! k) as [z|]; [|done]. intros [= <-]. exists z. split; [done|]. symmetry. apply reprev_sig.
Qed.

Lemma wq_add_ok s q w y : wf s → is_Some (heads s !! q) → ws s !! w = Some y → w_used y = true → dead_w s w = false →
  ∃ e s', wq_add s q w = Some (e, s') ∧ wf s' ∧ keeps e s s' ∧ (∀ v, dead_w s v = false → v ≠ w → ws s' !! v = ws s !! v) ∧
    if e =? 0 then ws s' !! w = Some y else ws s' !! w = Some {| y with w_ents := e |} ∧ ∃ x, ents s' !! e = Some x ∧ e_used x = true ∧ e_q x = q ∧ e_w x = w.
Proof.
  intros Hwf Hh Hy Hu Hd. unfold wq_add. destruct (search_ok free_e s Hwf) as (e & s1 & Hse & Hwf1 & Hf & He). rewrite (ent_new_eq _ _ _ _ Hse).
  pose proof (spared_w _ _ _ Hf Hd) as Hw1. rewrite Hy in Hw1.
  destruct (Z.eqb_spec e 0) as [E|E].
  { exists 0, s1. split_and!; try done; [by apply spared_keeps|]. intros v Hv _. by apply spared_w. }
  destruct He as [?|(x & Hx & Hxu & _)%free_e_Some]; [done|]. pose proof Hwf1 as (Q & WL & Hr).
  assert (w ≠ 0) as Hw0. { intros ->. apply mk_is_Some, (r_ws _ _ _ _ Hr) in Hw1. lia. }
  assert (is_Some (heads s1 !! q)) as Hh1 by by apply (f_heads _ _ _ Hf).
  destruct (new_ok w s1 Q WL e x q y (λ z, {| z with e_w := w; e_cb := 0; e_wnext := w_ents y |}) 0 id (w_ents y) Hr Hx Hxu Hh1) as (s2 & s3 & E2 & W2 & E3 & W3 & HR); [done| |].
  { by rewrite (proj2 (Z.eqb_neq w 0)). }
  cbv zeta in HR. rewrite (proj2 (Z.eqb_neq w 0)) in HR by done. destruct HR as (R1 & R2 & R3 & R4 & (x' & R5 & R6) & R7 & R8).
  rewrite E2. cbn [mbind option_bind]. rewrite (proj2 (Z.eqb_neq e 0)), W2, Hw1 by done. cbn [mbind option_bind]. rewrite E3. cbn [mbind option_bind].
  unfold upd_w. rewrite W3, Hw1. cbn [mbind option_bind]. eexists e, _. split; [done|]. split; [done|]. injection R6 as B1 B2 B3 B4 B5.
  split; [|split]; [split| |].
  - intros k z Hk Hz Hzd. destruct (k_e _ _ _ (spared_keeps 0 _ _ Hf) k z Hk Hz Hzd) as (z1 & Hz1 & Es). destruct (R7 k z1 Hz1) as (z2 & ? & ?); [by injection Es as -> _|]. exists z2. split; [done|congruence].
  - intros k z Hk Hz Hzu. destruct (R8 k z Hk Hz) as (z1 & Hz1 & Es). pose proof Es as Es'. injection Es' as Eu _ _ _ _. destruct (f_back _ _ _ Hf k z1 Hz1) as (z2 & ? & ?); [congruence|]. exists z2. split; congruence.
  - rewrite R2. apply (f_tasks _ _ _ Hf).
  - rewrite R3. apply (f_called _ _ _ Hf).
  - intros q'. rewrite R4. apply (f_heads _ _ _ Hf).
  - intros v Hv Hvw. cbn. rewrite lookup_insert_ne by done. by apply spared_w.
  - rewrite (proj2 (Z.eqb_neq e 0)) by done. cbn. rewrite lookup_insert_eq. split; [done|]. by exists x'.
Qed.

Lemma add_cb_ok s q cb arg : wf s → is_Some (heads s !! q) → cb ≠ 0 →
  ∃ e s', wq_add_cb s q cb arg = Some (e, s') ∧ wf s' ∧ keeps e s s' ∧ (∀ v, dead_w s v = false → ws s' !! v = ws s !! v) ∧
    (e ≠ 0 → ∃ x, ents s' !! e = Some x ∧ sig x = (true, q, 0, cb, arg)).
Proof.
  intros Hwf Hh Hcb. unfold wq_add_cb. destruct (search_ok free_e s Hwf) as (e & s1 & Hse & Hwf1 & Hf & He). rewrite (ent_new_eq _ _ _ _ Hse).
  destruct (Z.eqb_spec e 0) as [E|E].
  { exists 0, s1. split_and!; try done; [by apply spared_keeps|]. intros v Hv. by apply spared_w. }
  destruct He as [?|(x & Hx & Hxu & _)%free_e_Some]; [done|]. pose proof Hwf1 as (Q & WL & Hr). assert (is_Some (heads s1 !! q)) as Hh1 by by apply (f_heads _ _ _ Hf).
  destruct (new_ok 0 s1 Q WL e x q (WqW 0 0 false 0) (λ z, {| z with e_w := 0; e_cb := cb; e_arg := arg; e_wnext := 0 |}) cb (λ _, arg) 0 Hr Hx Hxu Hh1) as (s2 & s3 & E2 & W2 & E3 & W3 & HR); [done..|].
  cbv zeta in HR. cbn [Z.eqb] in HR. destruct HR as (R1 & R2 & R3 & R4 & (x' & R5 & R6) & R7 & R8).
  rewrite E2. cbn [mbind option_bind]. rewrite (proj2 (Z.eqb_neq e 0)) by done. cbn [mbind option_bind]. rewrite E3. cbn [mbind option_bind].
  assert ({| s3 with ws := ws s1 |} = s3) as Es3 by (destruct s3; cbn in *; by rewrite W3). rewrite Es3 in *.
  exists e, s3. split; [done|]. split; [done|]. split; [split|split].
  - intros k z Hk Hz Hzd. destruct (k_e _ _ _ (spared_keeps 0 _ _ Hf) k z Hk Hz Hzd) as (z1 & Hz1 & Es). destruct (R7 k z1 Hz1) as (z2 & ? & ?); [by injection Es as -> _|]. exists z2. split; [done|congruence].
  - intros k z Hk Hz Hzu. destruct (R8 k z Hk Hz) as (z1 & Hz1 & Es). pose proof Es as Es'. injection Es' as Eu _ _ _ _. destruct (f_back _ _ _ Hf k z1 Hz1) as (z2 & ? & ?); [congruence|]. exists z2. split; congruence.
  - rewrite R2. apply (f_tasks _ _ _ Hf).
  - rewrite R3. apply (f_called _ _ _ Hf).
  - intros q'. rewrite R4. apply (f_heads _ _ _ Hf).
  - intros v Hv. rewrite W3. by apply spared_w.
  - intros _. by exists x'.
Qed.

Lemma del_ok s e x : wf s → ents s !! e = Some x → ∃ s', wq_del s e = Some s' ∧ wf s' ∧ ws s' = ws s ∧ tasks s' = tasks s ∧ called s' = called s ∧
  (∀ q, is_Some (heads s' !! q) ↔ is_Some (heads s !! q)) ∧
  (∀ k z, ents s !! k = Some z → k ≠ e ∨ e_w x ≠ 0 → ∃ z', ents s' !! k = Some z' ∧ sig z' = sig z) ∧
  (∀ k z', ents s' !! k = Some z' → e_used z' = true → ∃ z, ents s !! k = Some z ∧ sig z = sig z') ∧
  (e_w x = 0 → ∃ x', ents s' !! e = Some x' ∧ e_used x' = false).
Proof.
  intros Hwf Hx. unfold wq_del. rewrite Hx. cbn [mbind option_bind]. pose proof Hwf as (Q & WL & Hr).
  destruct (e_used x && (e_w x =? 0)) eqn:E; bools.
  - destruct (free_ent_ok 0 s Q WL e x [] Hr Hx) as (s1 & s2 & Q' & x' & E1 & E2 & Hr2 & HL & Hx' & Hu' & _); [done..|]. pose proof HL as (L1 & L2 & L3 & L4 & _).
    rewrite E1. cbn [mbind option_bind]. rewrite E2. exists s2. split; [done|]. split; [by exists Q', WL|]. split_and!; try done; [| |by exists x'].
    + intros k z Hk Hz. destruct (lone_get _ _ _ k z HL) as (z' & ? & ? & _); [naive_solver|done|]. by exists z'.
    + intros k z Hk Hz. apply (lone_back _ _ _ _ _ HL); [|done]. intros ->. congruence.
  - exists s. split_and!; try done; [intros k z Hk _; by exists z..|]. intros Hw. exists x. split; [done|]. destruct E as [E|E]; [done|]. by bools.
Qed.

(** ** Waking *)

Definition hits (s : st) (w e : Z) : bool :=
  match ents s !! e with Some x => (e_cb x =? 0) && (e_w x =? w) | None => false end.

Definition hits_t (s : st) (t e : Z) : bool :=
  match ents s !! e with
  | Some x => (e_cb x =? 0) && match ws s !! e_w x with Some y => w_t y =? t | None => false end
  | None => false
  end.

Definition calls (s : st) (l : list Z) : list (Z * Z) :=
  rev (omap (λ e, match ents s !! e with Some x => if e_cb x =? 0 then None else Some (e_cb x, e_arg x) | None => None end) l).

Definition fire (y : wq_w) : wq_w := {| y with w_fired := 1 |}.

(** [s'] is [s] after the entries [l] were woken. *)
Record woke (l : list Z) (s s' : st) : Prop := {
  k_ents : ents s' = ents s;
  k_qs : heads s' = heads s;
  k_w : ∀ w, ws s' !! w = (λ y, if existsb (hits s w) l then fire y else y) <$> ws s !! w;
  k_t : ∀ t, tasks s' !! t = (λ x, if existsb (hits_t s t) l then ready x else x) <$> tasks s !! t;
  k_calls : called s' = calls s l ++ called s
}.

Lemma ready_ready t : ready (ready t) = ready t.
Proof. unfold ready. destruct (t_state t =? T_BLOCKED) eqn:E; [done|]. by rewrite E. Qed.

Lemma woke_nil s : woke [] s s.
Proof. split; try done; intros k; cbn; [by destruct (ws s !! k)|by destruct (tasks s !! k)]. Qed.

Lemma woke_trans l1 l2 s1 s2 s3 : woke l1 s1 s2 → woke l2 s2 s3 → woke (l1 ++ l2) s1 s3.
Proof.
  intros [A1 A2 A3 A4 A5] [B1 B2 B3 B4 B5].
  assert (∀ w e, hits s2 w e = hits s1 w e) as Hh by (intros; unfold hits; by rewrite A1).
  assert (∀ t e, hits_t s2 t e = hits_t s1 t e) as Ht.
  { intros t e. unfold hits_t. rewrite A1. destruct (ents s1 !! e) as [x|]; [|done]. f_equal. rewrite A3. destruct (ws s1 !! e_w x); [|done]. cbn. by case_match. }
  assert (∀ {A} (f g : A → bool) l, (∀ a, f a = g a) → existsb f l = existsb g l) as He by (intros A f g l H; induction l; cbn; congruence).
  split; try congruence.
  - intros w. rewrite B3, A3, existsb_app, (He _ _ _ l2 (Hh w)). destruct (ws s1 !! w); [|done]. cbn. by destruct (existsb _ l1), (existsb _ l2).
  - intros t. rewrite B4, A4, existsb_app, (He _ _ _ l2 (Ht t)). destruct (tasks s1 !! t); [|done]. cbn. destruct (existsb _ l1), (existsb _ l2); cbn; by rewrite ?ready_ready.
  - rewrite B5, A5. unfold calls. rewrite A1, omap_app, rev_app_distr. by rewrite app_assoc.
Qed.

(** An entry that can be woken: a callback, or one of a waiter with a task. *)
Definition wakeable (s : st) (x : wq_ent) : Prop := e_cb x ≠ 0 ∨ ∃ y, ws s !! e_w x = Some y ∧ is_Some (tasks s !! w_t y).

Lemma wake_ent_ok s e x : ents s !! e = Some x → wakeable s x → ∃ s', wake_ent s x = Some s' ∧ woke [e] s s'.
Proof.
  intros Hx Hw. unfold wake_ent, nz. destruct (Z.eqb_spec (e_cb x) 0) as [E|E]; cbn [negb].
  - destruct Hw as [?|(y & Hy & t & Ht)]; [done|]. unfold upd_w. rewrite Hy. cbn [mbind option_bind ws]. rewrite lookup_insert_eq. cbn [mbind option_bind]. unfold task_ready. cbn [tasks w_t].
    rewrite Ht. cbn [mbind option_bind]. eexists. split; [done|]. split; try done; cbn.
    + intros w. unfold hits. rewrite Hx, E. cbn. rewrite orb_false_r. destruct (Z.eqb_spec (e_w x) w) as [<-|]; [by rewrite lookup_insert_eq, Hy|].
      rewrite lookup_insert_ne by done. by destruct (ws s !! w).
    + intros t'. unfold hits_t. rewrite Hx, E, Hy. cbn. rewrite orb_false_r. destruct (Z.eqb_spec (w_t y) t') as [<-|]; [by rewrite lookup_insert_eq, Ht|].
      rewrite lookup_insert_ne by done. by destruct (tasks s !! t').
    + unfold calls. cbn. by rewrite Hx, E.
  - eexists. split; [done|]. apply Z.eqb_neq in E. split; try done; cbn.
    + intros w. unfold hits. rewrite Hx, E. cbn. by destruct (ws s !! w).
    + intros t'. unfold hits_t. rewrite Hx, E. cbn. by destruct (tasks s !! t').
    + unfold calls. cbn. by rewrite Hx, E.
Qed.

Lemma woke_wakeable l s s' x : woke l s s' → wakeable s x → wakeable s' x.
Proof.
  intros [A1 A2 A3 A4 A5] [?|(y & Hy & t & Ht)]; [by left|]. right. rewrite A3, Hy. cbn. eexists. split; [done|].
  assert (w_t (if existsb (hits s (e_w x)) l then fire y else y) = w_t y) as -> by by case_match. rewrite A4, Ht. by eexists.
Qed.

(** The entries from one on, each leading to the next. *)
Fixpoint links (m : gmap Z wq_ent) (l : list Z) : Prop :=
  match l with [] => True | e :: l => e ≠ 0 ∧ (∃ x, m !! e = Some x ∧ e_next x = hd 0 l) ∧ links m l end.

Lemma chain_links m q l : m !! 0 = None → chain m q l → links m l.
Proof.
  intros H0 [_ Hc]. assert (∀ l1 e l2, l = l1 ++ e :: l2 → ∃ x, m !! e = Some x ∧ e_next x = hd 0 l2) as H.
  { intros l1 e l2 E. destruct (Hc l1 e l2 E) as (x & ? & _ & _ & _ & ?). by exists x. }
  clear Hc. induction l as [|e l IH]; cbn; [done|]. pose proof (H [] e l eq_refl) as Hx. split; [intros ->; destruct Hx as (? & ? & _); congruence|]. split; [done|].
  apply IH. intros l1 a l2 ->. by apply (H (e :: l1)).
Qed.

Lemma wake_all_ok l : ∀ fuel s, links (ents s) l → (∀ e x, e ∈ l → ents s !! e = Some x → wakeable s x) → (length l ≤ fuel)%nat →
  ∃ s', wake_all fuel s (hd 0 l) = Some s' ∧ woke l s s'.
Proof.
  induction l as [|e l IH]; intros fuel s Hl Hw Hf; [exists s; split; [by destruct fuel|apply woke_nil]|].
  destruct Hl as (He & (x & Hx & Hn) & Hl). destruct fuel as [|fuel]; [cbn in Hf; lia|]. cbn [wake_all hd]. rewrite (proj2 (Z.eqb_neq e 0) He), Hx. cbn [mbind option_bind].
  destruct (wake_ent_ok s e x Hx) as (s1 & -> & Hk); [apply (Hw e); [apply list_elem_of_here|done]|]. cbn [mbind option_bind]. rewrite (k_ents _ _ _ Hk), Hx. cbn [mbind option_bind]. rewrite Hn.
  destruct (IH fuel s1) as (s2 & -> & Hk2); [by rewrite (k_ents _ _ _ Hk)| |cbn in Hf; lia|].
  - intros e' x' He' Hx'. rewrite (k_ents _ _ _ Hk) in Hx'. apply (woke_wakeable _ _ _ _ Hk), (Hw e'); [by apply list_elem_of_further|done].
  - exists s2. split; [done|]. by apply (woke_trans [e] l s s1).
Qed.

(** Waking does not look at the queue of an entry. *)
Lemma woke_ents l s s' m : woke l s s' → (∀ e, (λ x, (e_cb x, e_w x, e_arg x)) <$> m !! e = (λ x, (e_cb x, e_w x, e_arg x)) <$> ents s !! e) →
  woke l {| s with ents := m |} {| s' with ents := m |}.
Proof.
  intros [A1 A2 A3 A4 A5] Hm. assert (∀ {A} (f g : A → bool) l, (∀ a, f a = g a) → existsb f l = existsb g l) as He by (intros A f g k H; induction k; cbn; congruence).
  split; try done; cbn.
  - intros w. rewrite A3. rewrite (He _ (hits {| s with ents := m |} w) (hits s w)); [done|]. intros e. unfold hits. cbn. specialize (Hm e).
    destruct (m !! e), (ents s !! e); try done. cbn in Hm. by injection Hm as -> -> _.
  - intros t. rewrite A4. rewrite (He _ (hits_t {| s with ents := m |} t) (hits_t s t)); [done|]. intros e. unfold hits_t. cbn. specialize (Hm e).
    destruct (m !! e), (ents s !! e); try done. cbn in Hm. by injection Hm as -> -> _.
  - rewrite A5. f_equal. unfold calls. f_equal. cbn. clear -Hm. induction l as [|e l IH]; [done|]. cbn. rewrite IH. specialize (Hm e).
    destruct (m !! e), (ents s !! e); cbn in Hm |- *; try done. by injection Hm as -> _ ->.
Qed.

Lemma drain_all_ok l : ∀ fuel s, NoDup l → links (ents s) l → (∀ e x, e ∈ l → ents s !! e = Some x → wakeable s x) → (length l ≤ fuel)%nat →
  ∃ s1 m, woke l s s1 ∧ drain_all fuel s (hd 0 l) = Some {| s1 with ents := m |} ∧
    ∀ e, m !! e = (λ x, if decide (e ∈ l) then unq x else x) <$> ents s !! e.
Proof.
  induction l as [|e l IH]; intros fuel s Hnd Hl Hw Hf.
  { exists s, (ents s). split; [apply woke_nil|]. split; [by destruct fuel, s|]. intros e. destruct (ents s !! e); [|done]. cbn. by rewrite decide_False by set_solver. }
  destruct Hl as (He & (x & Hx & Hn) & Hl). destruct fuel as [|fuel]; [cbn in Hf; lia|]. cbn [drain_all hd]. rewrite (proj2 (Z.eqb_neq e 0) He), Hx. cbn [mbind option_bind].
  destruct (wake_ent_ok s e x Hx) as (s1 & -> & Hk); [apply (Hw e); [apply list_elem_of_here|done]|]. cbn [mbind option_bind]. unfold upd_ent. pose proof (k_ents _ _ _ Hk) as He1. rewrite He1, Hx.
  cbn [mbind option_bind ents]. rewrite lookup_insert_eq. cbn [mbind option_bind e_next]. rewrite Hn. apply NoDup_cons in Hnd as [Hel Hnd].
  destruct (IH fuel {| s1 with ents := <[e := unq x]> (ents s) |}) as (s2 & m & Hk2 & E2 & Hm); [done| | |cbn in Hf; lia|].
  - clear -Hl Hel. cbn. induction l as [|a l IH]; [done|]. destruct Hl as (Ha & (y & Hy & Hn) & Hl). apply not_elem_of_cons in Hel as [Hea Hel]. cbn. split; [done|]. split; [|by apply IH].
    exists y. by rewrite lookup_insert_ne.
  - cbn. intros a y Ha Hy. assert (a ≠ e) by (intros ->; done). rewrite lookup_insert_ne in Hy by done. apply (woke_wakeable [e] s s1 y Hk). apply (Hw a); [by apply list_elem_of_further|done].
  - exists {| s2 with ents := ents s |}, m. split; [|split].
    + apply (woke_ents _ _ _ (ents s)) in Hk2; [|cbn; intros k; destruct (decide (k = e)) as [->|]; [by rewrite lookup_insert_eq, Hx|by rewrite lookup_insert_ne]].
      cbn in Hk2. rewrite <- He1 in Hk2. apply (woke_trans [e] l s s1); [done|]. rewrite <- He1. by destruct s1.
    + unfold unq in E2. rewrite Hn in E2. by rewrite E2.
    + intros k. rewrite Hm. cbn. destruct (decide (k = e)) as [->|Hk'].
      * rewrite lookup_insert_eq, Hx. cbn. rewrite decide_False, decide_True by set_solver. done.
      * rewrite lookup_insert_ne by done. destruct (ents s !! k); [|done]. cbn. f_equal. destruct (decide (k ∈ l)); [by rewrite decide_True by set_solver|by rewrite decide_False by set_solver].
Qed.

End Wq.
