(* ===== verification/WqSpec.v ===== *)
(** * What wait queues promise

    Seen from outside, the pools are a table of waiters, each with its task and
    whether it was woken, and the relation [member]: which waiter is on which
    queue.  Every operation of [Wq] does to them what [spec] says, and keeps the
    linked lists of the pools in shape. *)

From S2P Require Import Prelude Wq.

Module WqSpec.
Import Wq.

Definition member (s : st) (q w : Z) : Prop := ∃ e x, ents s !! e = Some x ∧ e_used x = true ∧ e_q x = q ∧ e_w x = w.

(** A waiter of a task that lives. *)
Definition alive (s : st) (w : Z) (y : wq_w) : Prop := ws s !! w = Some y ∧ w_used y = true ∧ dead_w s w = false.

Definition same_w (s s' : st) (w : Z) : Prop := ws s' !! w = ws s !! w ∧ ∀ q, member s' q w ↔ member s q w.

(** Living waiters other than [v] notice nothing. *)
Definition others (s s' : st) (v : Z) : Prop := ∀ w y, alive s w y → w ≠ v → same_w s s' w.

Definition waits_on (s : st) (q t : Z) : Prop := ∃ w y, member s q w ∧ ws s !! w = Some y ∧ w_t y = t.

(** Everybody on queue [q] is woken, nobody else. *)
Record woken (s s' : st) (q : Z) : Prop := {
  wk_w : ∀ w y, ws s !! w = Some y → (member s q w → ws s' !! w = Some (fire y)) ∧ (¬ member s q w → ws s' !! w = Some y);
  wk_t : ∀ t x, tasks s !! t = Some x → (waits_on s q t → tasks s' !! t = Some (ready x)) ∧ (¬ waits_on s q t → tasks s' !! t = Some x);
  wk_cb : ∃ l, NoDup l ∧ (∀ e, e ∈ l ↔ ∃ x, ents s !! e = Some x ∧ e_used x = true ∧ e_q x = q) ∧ called s' = calls s l ++ called s
}.

Inductive op :=
  | Waiter (cur : Z)
  | Free (w : Z)
  | Add (q w : Z)
  | AddCb (q cb arg : Z)
  | Del (e : Z)
  | Wake (q : Z)
  | Drain (q : Z)
  | Enter (w now ms : Z)
  | Leave (w : Z).

Definition void (o : option st) : option (Z * st) := s ← o; Some (0, s).

Definition run (o : op) (s : st) : option (Z * st) :=
  match o with
  | Waiter cur => wq_waiter s cur
  | Free w => void (wq_wfree s w)
  | Add q w => wq_add s q w
  | AddCb q cb arg => wq_add_cb s q cb arg
  | Del e => void (wq_del s e)
  | Wake q => void (wq_wake s q)
  | Drain q => void (wq_drain s q)
  | Enter w now ms => '(b, s) ← sleep_enter s w now ms; Some (b2z b, s)
  | Leave w => void (sleep_leave s w)
  end.

(** What a caller has to know: its queue is there, its waiter is its own. *)
Definition pre (o : op) (s : st) : Prop :=
  match o with
  | Waiter cur => is_Some (tasks s !! cur)
  | Free w => ∃ y, ws s !! w = Some y ∧ w_used y = true
  | Add q w => is_Some (heads s !! q) ∧ ∃ y, alive s w y
  | AddCb q cb _ => is_Some (heads s !! q) ∧ cb ≠ 0
  | Del e => is_Some (ents s !! e)
  | Wake q | Drain q => is_Some (heads s !! q)
  | Enter w _ _ | Leave w => ∃ y, alive s w y
  end.

Definition spec (o : op) (r : Z) (s s' : st) : Prop :=
  match o with
  | Waiter cur => others s s' r ∧ (r ≠ 0 → ws s' !! r = Some (WqW cur 0 true 0) ∧ (∀ y, ¬ alive s r y) ∧ ∀ q, ¬ member s' q r)
  | Free w => others s s' w ∧ (∀ q, ¬ member s' q w) ∧ ∃ y, ws s' !! w = Some y ∧ w_used y = false
  | Add q w => ∃ y, ws s !! w = Some y ∧ if r =? 0 then others s s' 0 else
      others s s' w ∧ ws s' !! w = Some {| y with w_ents := r |} ∧ ∀ q', member s' q' w ↔ member s q' w ∨ q' = q
  | AddCb q cb arg => others s s' 0 ∧ (r ≠ 0 → ∃ x, ents s' !! r = Some x ∧ sig x = (true, q, 0, cb, arg))
  | Del e => others s s' 0 ∧ ∀ x, ents s !! e = Some x → e_w x = 0 → ∃ x', ents s' !! e = Some x' ∧ e_used x' = false
  | Wake q => woken s s' q ∧ ∀ q' w, member s' q' w ↔ member s q' w
  | Drain q => woken s s' q ∧ ∀ q' w, w ≠ 0 → q' ≠ 0 → member s' q' w ↔ member s q' w ∧ q' ≠ q
  | Enter w now ms => ∃ y t, ws s !! w = Some y ∧ tasks s !! w_t y = Some t ∧ ws s' = ws s ∧ (∀ q v, member s' q v ↔ member s q v) ∧
      (r = 1 → w_fired y = 0 ∧ t_state t = T_READY ∧ tasks s' !! w_t y = Some (Task (t_id t) T_BLOCKED (u32 (now + sleep_ms ms)))) ∧
      (r ≠ 1 → ∃ t', tasks s' !! w_t y = Some t' ∧ t_state t' = t_state t)
  | Leave w => ∃ y, ws s !! w = Some y ∧ ws s' = <[w := {| y with w_fired := 0 |}]> (ws s) ∧ ∀ q v, member s' q v ↔ member s q v
  end.

(** ** Members *)

Lemma wf_0 s : wf s → ents s !! 0 = None.
Proof. intros (Q & WL & Hr). by apply (rep_0 _ _ _ _ Hr). Qed.

Lemma alive_ne0 s w y : wf s → alive s w y → w ≠ 0.
Proof. intros (Q & WL & Hr) (Hy & _) ->. apply mk_is_Some, (r_ws _ _ _ _ Hr) in Hy. lia. Qed.

Lemma keeps_member n s s' w q : keeps n s s' → (∀ x, ents s' !! n = Some x → e_used x = true → e_w x ≠ w) → dead_w s w = false → member s' q w ↔ member s q w.
Proof.
  intros Hk Hn Hd. split.
  - intros (e & x & Hx & Hu & Hq & Hw). destruct (decide (e = n)) as [->|He]; [by destruct (Hn x Hx Hu)|].
    destruct (k_back _ _ _ Hk e x He Hx Hu) as (x' & Hx' & Es). injection Es as E1 E2 E3 _ _. exists e, x'. split_and!; congruence.
  - intros (e & x & Hx & Hu & Hq & Hw). destruct (k_e _ _ _ Hk e x Hx Hu) as (x' & Hx' & Es); [by rewrite Hw|].
    injection Es as E1 E2 E3 _ _. exists e, x'. split_and!; congruence.
Qed.

Lemma member_ext s s' : (∀ k, sig <$> ents s' !! k = sig <$> ents s !! k) → ∀ q w, member s' q w ↔ member s q w.
Proof.
  intros He q w. split; intros (e & x & Hx & Hu & Hq & Hw); specialize (He e); rewrite Hx in He.
  - destruct (ents s !! e) as [x'|] eqn:E; [|done]. injection He as E1 E2 E3 _ _. exists e, x'. split_and!; congruence.
  - destruct (ents s' !! e) as [x'|] eqn:E; [|done]. injection He as E1 E2 E3 _ _. exists e, x'. split_and!; congruence.
Qed.

(** A waiter that is not in use, or has no first entry, is on no queue. *)
Lemma no_member s w : wf s → w ≠ 0 → (∀ y, ws s !! w = Some y → w_used y = true → w_ents y = 0) → ∀ q, ¬ member s q w.
Proof.
  intros (Q & WL & Hr) Hw0 Hy q (e & x & Hx & Hu & _ & Hw). destruct (r_mine _ _ _ _ Hr e x Hx Hu) as (_ & y & l & Hyw & Hyu & Hl & Hel); [by rewrite Hw|].
  rewrite Hw in *. destruct (r_waiter _ _ _ _ Hr w y Hyw Hyu) as (_ & l' & Hl' & Hc & Hh). rewrite Hl in Hl'. injection Hl' as <-. rewrite (Hy y Hyw Hyu) in Hh.
  destruct l as [|a l]; [by apply elem_of_nil in Hel|]. specialize (Hh Hw0). cbn in Hh. subst a. destruct (wchain_cons _ _ _ _ Hc) as (_ & _ & z & Hz & _). rewrite (rep_0 _ _ _ _ Hr) in Hz. done.
Qed.

(** ** Waking *)

Lemma queue_wakeable s Q WL q l e x : rep 0 s Q WL → Q !! q = Some l → e ∈ l → ents s !! e = Some x → wakeable s x.
Proof.
  intros Hr Hl He Hx. destruct (r_queue _ _ _ _ Hr _ _ Hl) as [_ Hc]. destruct (chain_elem _ _ _ _ Hc He) as (x' & Hx' & Hu & _). rewrite Hx in Hx'. injection Hx' as <-.
  destruct (decide (e_w x = 0)) as [Hw|Hw]; [left; by apply (r_cb _ _ _ _ Hr e)|]. right.
  destruct (r_mine _ _ _ _ Hr e x Hx Hu Hw) as (_ & y & _ & Hy & Hyu & _). exists y. split; [done|]. by destruct (r_waiter _ _ _ _ Hr _ y Hy Hyu).
Qed.

Lemma on_queue s Q WL q l e : rep 0 s Q WL → Q !! q = Some l → e ∈ l ↔ ∃ x, ents s !! e = Some x ∧ e_used x = true ∧ e_q x = q.
Proof.
  intros Hr Hl. destruct (r_queue _ _ _ _ Hr _ _ Hl) as [Hq Hc]. split; [by apply chain_elem|]. intros (x & Hx & _ & Eq).
  destruct (r_in _ _ _ _ Hr e x Hx) as (l' & Hl' & ?); [by rewrite Eq|]. rewrite Eq, Hl in Hl'. by injection Hl' as ->.
Qed.

Lemma hits_member s Q WL q l w : rep 0 s Q WL → Q !! q = Some l → is_Some (ws s !! w) → existsb (hits s w) l = true ↔ member s q w.
Proof.
  intros Hr Hl Hw. assert (w ≠ 0) as Hw0. { intros ->. apply (r_ws _ _ _ _ Hr) in Hw. lia. } rewrite existsb_exists. split.
  - intros (e & He%list_elem_of_In & Hh). apply (on_queue _ _ _ _ _ _ Hr Hl) in He as (x & Hx & Hu & Hq). unfold hits in Hh. rewrite Hx in Hh. bools. by exists e, x.
  - intros (e & x & Hx & Hu & Hq & Hxw). exists e. split; [apply list_elem_of_In, (on_queue _ _ _ _ _ _ Hr Hl); by exists x|]. unfold hits. rewrite Hx, Hxw, Z.eqb_refl.
    destruct (r_mine _ _ _ _ Hr e x Hx Hu) as (-> & _); [by rewrite Hxw|done].
Qed.

Lemma hits_t_waits s Q WL q l t : rep 0 s Q WL → Q !! q = Some l → existsb (hits_t s t) l = true ↔ waits_on s q t.
Proof.
  intros Hr Hl. rewrite existsb_exists. split.
  - intros (e & He%list_elem_of_In & Hh). apply (on_queue _ _ _ _ _ _ Hr Hl) in He as (x & Hx & Hu & Hq). unfold hits_t in Hh. rewrite Hx in Hh. bools.
    destruct (ws s !! e_w x) as [y|] eqn:Hy; [|done]. bools. exists (e_w x), y. split; [by exists e, x|done].
  - intros (w & y & Hm & Hy & Ht). apply (hits_member _ _ _ _ _ _ Hr Hl) in Hm; [|by exists y]. apply existsb_exists in Hm as (e & He & Hh). exists e. split; [done|].
    unfold hits in Hh. unfold hits_t. destruct (ents s !! e) as [x|]; [|done]. bools. subst. rewrite Hy, Z.eqb_refl. apply andb_true_iff. split; [by apply Z.eqb_eq|done].
Qed.

Lemma rep_wake ex l s s' Q WL : rep ex s Q WL → woke l s s' → rep ex s' Q WL.
Proof.
  intros [H1 H2 H3 H4 H5 H6 H7 H8] [A1 A2 A3 A4 A5].
  assert (∀ w y', ws s' !! w = Some y' → ∃ y, ws s !! w = Some y ∧ w_used y' = w_used y ∧ w_ents y' = w_ents y ∧ w_t y' = w_t y) as Hb.
  { intros w y'. rewrite A3. destruct (ws s !! w) as [y|]; [|done]. cbn. intros [= <-]. exists y. by case_match. }
  split; rewrite ?A1, ?A2; try done.
  - intros w. rewrite <- H2, A3. by rewrite fmap_is_Some.
  - intros w y' Hy' Hu. destruct (Hb w y' Hy') as (y & Hy & E1 & E2 & E3). destruct (H6 w y Hy) as (Ht & l' & ? & ? & ?); [congruence|]. split; [rewrite E3, A4; by rewrite fmap_is_Some|].
    exists l'. by rewrite E2.
  - intros e x Hx Hu Hw. destruct (H7 e x Hx Hu Hw) as (? & y & l' & Hy & Hyu & ? & ?). split; [done|]. rewrite A3, Hy. cbn. eexists _, l'. split; [done|]. split; [by case_match|done].
Qed.

Lemma woke_woken s s' s1 Q WL q l : rep 0 s Q WL → Q !! q = Some l → woke l s s1 → ws s' = ws s1 → tasks s' = tasks s1 → called s' = called s1 → woken s s' q.
Proof.
  intros Hr Hl [A1 A2 A3 A4 A5] E1 E2 E3. split.
  - intros w y Hy. pose proof (hits_member s Q WL q l w Hr Hl (mk_is_Some _ _ Hy)) as Hm. rewrite E1, A3, Hy. cbn. destruct (existsb (hits s w) l); split; [done|tauto|intros ?%Hm; done|done].
  - intros t x Hx. pose proof (hits_t_waits s Q WL q l t Hr Hl) as Hm. rewrite E2, A4, Hx. cbn. destruct (existsb (hits_t s t) l); split; [done|tauto|intros ?%Hm; done|done].
  - exists l. destruct (r_queue _ _ _ _ Hr _ _ Hl) as [_ [Hnd _]]. split; [done|]. split; [|by rewrite E3]. intros e. by apply (on_queue _ _ _ _ _ _ Hr).
Qed.

Lemma heads_queue s Q WL q h : rep 0 s Q WL → heads s !! q = Some h → ∃ l, Q !! q = Some l ∧ h = hd 0 l.
Proof. intros Hr. rewrite (r_heads _ _ _ _ Hr). destruct (Q !! q) as [l|]; [|done]. intros [= <-]. by exists l. Qed.

Lemma wake_all_st s Q WL q l : rep 0 s Q WL → Q !! q = Some l → ∃ s', wake_all FUEL s (hd 0 l) = Some s' ∧ woke l s s'.
Proof.
  intros Hr Hl. destruct (r_queue _ _ _ _ Hr _ _ Hl) as [_ Hc]. apply wake_all_ok.
  - by apply (chain_links _ q); [apply (rep_0 _ _ _ _ Hr)|].
  - intros e x He Hx. by apply (queue_wakeable s Q WL q l e).
  - by apply (rep_fuel s Q WL q).
Qed.

Lemma wake_ok s q h : wf s → heads s !! q = Some h → ∃ s', wake_locked s q = Some s' ∧ wf s' ∧ spec (Wake q) 0 s s' ∧ ents s' = ents s ∧ heads s' = heads s.
Proof.
  intros (Q & WL & Hr) Hh. destruct (heads_queue _ _ _ _ _ Hr Hh) as (l & Hl & ->). destruct (wake_all_st _ _ _ _ _ Hr Hl) as (s' & Hs' & Hk).
  exists s'. unfold wake_locked. rewrite Hh. cbn [mbind option_bind]. split; [done|]. split; [exists Q, WL; by apply (rep_wake 0 l s)|]. split; [split|].
  - by apply (woke_woken s s' s' Q WL q l).
  - apply member_ext. intros k. by rewrite (k_ents _ _ _ Hk).
  - split; [apply (k_ents _ _ _ Hk)|apply (k_qs _ _ _ Hk)].
Qed.

Lemma wq_wake_ok s q : wf s → is_Some (heads s !! q) → ∃ s', wq_wake s q = Some s' ∧ wf s' ∧ spec (Wake q) 0 s s'.
Proof.
  intros Hwf [h Hh]. destruct (wake_ok s q h Hwf Hh) as (s' & Hs' & Hwf' & Hsp & _). unfold wq_wake, wq_waiting. rewrite Hh. cbn [mbind option_bind].
  unfold nz. destruct (Z.eqb_spec h 0) as [->|]; cbn [negb]; [|by exists s']. exists s. split; [done|]. split; [done|].
  unfold wake_locked in Hs'. rewrite Hh in Hs'. cbn in Hs'. by injection Hs' as <-.
Qed.

Lemma wq_drain_ok s q : wf s → is_Some (heads s !! q) → ∃ s', wq_drain s q = Some s' ∧ wf s' ∧ spec (Drain q) 0 s s'.
Proof.
  intros (Q & WL & Hr) [h Hh]. destruct (heads_queue _ _ _ _ _ Hr Hh) as (l & Hl & ->). destruct (r_queue _ _ _ _ Hr _ _ Hl) as [Hq0 Hc].
  destruct (drain_all_ok l FUEL s) as (s1 & m & Hk & Hd & Hm).
  { apply Hc. } { by apply (chain_links _ q); [apply (rep_0 _ _ _ _ Hr)|]. } { intros e x He Hx. by apply (queue_wakeable s Q WL q l e). } { by apply (rep_fuel s Q WL q). }
  unfold wq_drain. rewrite Hh. cbn [mbind option_bind]. rewrite Hd. cbn [mbind option_bind]. unfold set_head. cbn [heads]. rewrite (k_qs _ _ _ Hk), Hh. cbn [mbind option_bind].
  pose proof (rep_wake 0 l s s1 Q WL Hr Hk) as Hr1. eexists. split; [done|]. split; [exists (<[q := []]> Q), WL; apply (rep_queues 0 s1 Q WL m (<[q := 0]> (heads s)) (<[q := []]> Q) Hr1)|].
  - intros e. rewrite Hm, (k_ents _ _ _ Hk). destruct (ents s !! e); [|done]. cbn. by case_match.
  - intros q'. destruct (decide (q' = q)) as [->|]; [by rewrite !lookup_insert_eq|]. rewrite !lookup_insert_ne by done. apply (r_heads _ _ _ _ Hr).
  - intros q' l' Hl'. destruct (decide (q' = q)) as [->|].
    + rewrite lookup_insert_eq in Hl'. injection Hl' as <-. split; [done|]. split; [apply NoDup_nil_2|]. intros l1 ? ?. by destruct l1.
    + rewrite lookup_insert_ne in Hl' by done. destruct (r_queue _ _ _ _ Hr _ _ Hl') as [Hq' Hc']. split; [done|]. apply (chain_frame _ _ _ _ Hc'). intros e x He Hx. exists x. rewrite Hm, Hx. cbn.
      rewrite decide_False; [done|]. intros He'. destruct (chain_elem _ _ _ _ Hc He') as (? & ? & _ & ?). destruct (chain_elem _ _ _ _ Hc' He) as (? & ? & _ & ?). congruence.
  - intros e x Hx Hq. rewrite Hm in Hx. destruct (ents s !! e) as [x0|] eqn:Hx0; [|done]. injection Hx as <-. destruct (decide (e ∈ l)) as [|He]; [done|].
    destruct (r_in _ _ _ _ Hr e x0 Hx0 Hq) as (l' & Hl' & ?). destruct (decide (e_q x0 = q)) as [E|]; [rewrite E, Hl in Hl'; congruence|]. exists l'. by rewrite lookup_insert_ne.
  - cbn. split; [by apply (woke_woken s _ s1 Q WL q l)|]. intros q' w Hw Hq'0. split.
    + intros (e & x & Hx & Hu & Hq & Hxw). cbn in Hx. rewrite Hm in Hx. destruct (ents s !! e) as [x0|] eqn:Hx0; [|done]. injection Hx as <-.
      destruct (decide (e ∈ l)) as [|He]; [by subst q'|]. split; [by exists e, x0|]. intros ->. apply He, (on_queue s Q WL q); [done..|]. by exists x0.
    + intros [(e & x & Hx & Hu & Hq & Hxw) Hne]. exists e, x. cbn. rewrite Hm, Hx. cbn. rewrite decide_False; [done|].
      intros He. apply (on_queue s Q WL q l e Hr Hl) in He as (? & ? & _ & ?). congruence.
Qed.

(** ** The other operations *)

Lemma waiter_st s cur : wf s → is_Some (tasks s !! cur) → ∃ r s', wq_waiter s cur = Some (r, s') ∧ wf s' ∧ spec (Waiter cur) r s s' ∧ tasks s' = tasks s ∧
  (∀ q, is_Some (heads s' !! q) ↔ is_Some (heads s !! q)).
Proof.
  intros Hwf Hc. destruct (waiter_ok s cur Hwf Hc) as (r & s' & Hs' & Hwf' & Hk & Ho & Hr). exists r, s'. split; [done|]. split; [done|].
  split; [|split; [apply (k_tasks _ _ _ Hk)|apply (k_heads _ _ _ Hk)]]. pose proof (wf_0 _ Hwf') as H0. split.
  - intros w y (Hy & Hu & Hd) Hw. split; [by apply Ho|]. intros q. apply (keeps_member 0); [done| |done]. intros x Hx. congruence.
  - intros Hr0. destruct (Hr Hr0) as [Hr1 Hr2]. split; [done|]. split.
    + intros y (Hy & Hu & Hd). rewrite (Hr2 y Hy Hu) in Hd. done.
    + apply no_member; [done..|]. intros y Hy _. rewrite Hr1 in Hy. by injection Hy as <-.
Qed.

Lemma frame_same v s s' w : frame (eq v) s s' → w ≠ v → same_w s s' w.
Proof.
  intros [A1 A2 A6 A3 A4 A5] Hw. split; [by apply A1; congruence|]. intros q. split; intros (e & x & Hx & Hu & Hq & Hxw).
  - destruct (A6 e x Hx Hu) as (x' & Hx' & Es). injection Es as E1 E2 E3 _ _. exists e, x'. split_and!; congruence.
  - destruct (A2 e x Hx Hu) as (x' & Hx' & Es); [congruence|]. injection Es as E1 E2 E3 _ _. exists e, x'. split_and!; congruence.
Qed.

Lemma free_st s w y : wf s → ws s !! w = Some y → w_used y = true → ∃ s', wq_wfree s w = Some s' ∧ wf s' ∧ spec (Free w) 0 s s' ∧ tasks s' = tasks s ∧
  (∀ q, is_Some (heads s' !! q) ↔ is_Some (heads s !! q)).
Proof.
  intros Hwf Hy Hu. destruct (waiter_free_ok s w y Hwf Hy Hu) as (s' & Hs' & Hwf' & Hf & Hws). exists s'.
  assert (w ≠ 0) as Hw0. { destruct Hwf as (Q & WL & Hr). intros ->. apply mk_is_Some, (r_ws _ _ _ _ Hr) in Hy. lia. }
  unfold wq_wfree, nz. rewrite (proj2 (Z.eqb_neq _ _) Hw0). split; [done|]. split; [done|]. split; [split_and!|split; [apply (f_tasks _ _ _ Hf)|apply (f_heads _ _ _ Hf)]].
  - intros v z _ Hv. by apply (frame_same w).
  - apply no_member; [done..|]. intros z Hz Hzu. rewrite Hws, lookup_insert_eq in Hz. by injection Hz as <-.
  - eexists. rewrite Hws, lookup_insert_eq. done.
Qed.

Lemma wq_add_st s q w y : wf s → is_Some (heads s !! q) → alive s w y → ∃ e s', wq_add s q w = Some (e, s') ∧ wf s' ∧ spec (Add q w) e s s' ∧ tasks s' = tasks s ∧
  (∀ q, is_Some (heads s' !! q) ↔ is_Some (heads s !! q)).
Proof.
  intros Hwf Hh (Hy & Hu & Hd). destruct (wq_add_ok s q w y Hwf Hh Hy Hu Hd) as (e & s' & Hs' & Hwf' & Hk & Ho & Hw). exists e, s'. split; [done|]. split; [done|].
  split; [|split; [apply (k_tasks _ _ _ Hk)|apply (k_heads _ _ _ Hk)]]. exists y. split; [done|]. pose proof (wf_0 _ Hwf') as H0. destruct (Z.eqb_spec e 0) as [->|He].
  - intros v z (Hz & Hzu & Hzd) _. split; [destruct (decide (v = w)) as [->|]; [congruence|by apply Ho]|]. intros q'. apply (keeps_member 0); [done| |done]. intros x Hx. congruence.
  - destruct Hw as (Hw & x & Hx & Hxu & Hxq & Hxw). split; [|split; [done|]].
    + intros v z (Hz & Hzu & Hzd) Hv. split; [by apply Ho|]. intros q'. apply (keeps_member e); [done| |done]. intros x' Hx' _. congruence.
    + intros q'. split.
      * intros (k & z & Hz & Hzu & Hzq & Hzw). destruct (decide (k = e)) as [->|Hke]; [right; congruence|]. left. destruct (k_back _ _ _ Hk k z Hke Hz Hzu) as (z' & Hz' & Es).
        injection Es as E1 E2 E3 _ _. exists k, z'. split_and!; congruence.
      * intros [(k & z & Hz & Hzu & Hzq & Hzw)| ->]; [|by exists e, x]. destruct (k_e _ _ _ Hk k z Hz Hzu) as (z' & Hz' & Es); [by rewrite Hzw|].
        injection Es as E1 E2 E3 _ _. exists k, z'. split_and!; congruence.
Qed.

Lemma add_cb_st s q cb arg : wf s → is_Some (heads s !! q) → cb ≠ 0 → ∃ e s', wq_add_cb s q cb arg = Some (e, s') ∧ wf s' ∧ spec (AddCb q cb arg) e s s' ∧ tasks s' = tasks s ∧
  (∀ q, is_Some (heads s' !! q) ↔ is_Some (heads s !! q)).
Proof.
  intros Hwf Hh Hcb. destruct (add_cb_ok s q cb arg Hwf Hh Hcb) as (e & s' & Hs' & Hwf' & Hk & Ho & He). exists e, s'. split; [done|]. split; [done|].
  split; [|split; [apply (k_tasks _ _ _ Hk)|apply (k_heads _ _ _ Hk)]]. split; [|done]. pose proof (wf_0 _ Hwf') as H0.
  intros v z Hv _. pose proof (alive_ne0 _ _ _ Hwf Hv) as Hv0. destruct Hv as (Hz & Hzu & Hzd). split; [by apply Ho|]. intros q'. apply (keeps_member e); [done| |done].
  intros x Hx Hxu Hxw. destruct (decide (e = 0)) as [->|He0]; [congruence|]. destruct (He He0) as (x' & Hx' & Es). injection Es as _ _ E3 _ _. congruence.
Qed.

Lemma del_st s e : wf s → is_Some (ents s !! e) → ∃ s', wq_del s e = Some s' ∧ wf s' ∧ spec (Del e) 0 s s' ∧ ws s' = ws s ∧ tasks s' = tasks s ∧
  (∀ q, is_Some (heads s' !! q) ↔ is_Some (heads s !! q)).
Proof.
  intros Hwf [x Hx]. destruct (del_ok s e x Hwf Hx) as (s' & Hs' & Hwf' & Hw & Ht & Hc & Hh & Hk & Hb & Hf). exists s'. split; [done|]. split; [done|]. split; [|done]. split.
  - intros v z Hv _. pose proof (alive_ne0 _ _ _ Hwf Hv) as Hv0. split; [by rewrite Hw|]. intros q. split.
    + intros (k & y & Hy & Hyu & Hyq & Hyw). destruct (Hb k y Hy Hyu) as (y' & Hy' & Es). injection Es as E1 E2 E3 _ _. exists k, y'. split_and!; congruence.
    + intros (k & y & Hy & Hyu & Hyq & Hyw). destruct (Hk k y Hy) as (y' & Hy' & Es).
      { destruct (decide (k = e)) as [->|]; [right|by left]. rewrite Hx in Hy. injection Hy as <-. congruence. }
      injection Es as E1 E2 E3 _ _. exists k, y'. split_and!; congruence.
  - intros x' Hx' Hxw. rewrite Hx in Hx'. injection Hx' as <-. by apply Hf.
Qed.

Lemma rep_tasks s Q WL (T : gmap Z task) : rep 0 s Q WL → (∀ t, is_Some (tasks s !! t) → is_Some (T !! t)) → rep 0 {| s with tasks := T |} Q WL.
Proof. intros [H1 H2 H3 H4 H5 H6 H7 H8] HT. split; cbn; try done. intros w y Hy Hu. destruct (H6 w y Hy Hu) as (? & ?). split; [auto|done]. Qed.

Lemma wf_tasks s (T : gmap Z task) : wf s → (∀ t, is_Some (tasks s !! t) → is_Some (T !! t)) → wf {| s with tasks := T |}.
Proof. intros (Q & WL & Hr) HT. exists Q, WL. by apply rep_tasks. Qed.

Lemma insert_tasks (T : gmap Z task) t x : ∀ k, is_Some (T !! k) → is_Some (<[t := x]> T !! k).
Proof. intros k Hk. destruct (decide (k = t)) as [->|]; [rewrite lookup_insert_eq; by eexists|by rewrite lookup_insert_ne]. Qed.

Lemma task_of s w y : wf s → ws s !! w = Some y → w_used y = true → is_Some (tasks s !! w_t y).
Proof. intros (Q & WL & Hr) Hy Hu. by destruct (r_waiter _ _ _ _ Hr w y Hy Hu). Qed.

Lemma enter_st s w y now ms : wf s → ws s !! w = Some y → w_used y = true → ∃ b T, sleep_enter s w now ms = Some (b, {| s with tasks := T |}) ∧
  wf {| s with tasks := T |} ∧ spec (Enter w now ms) (b2z b) s {| s with tasks := T |} ∧ (∀ t, t ≠ w_t y → T !! t = tasks s !! t).
Proof.
  intros Hwf Hy Hu. destruct (task_of s w y Hwf Hy Hu) as [t Ht]. unfold sleep_enter. rewrite Hy. cbn [mbind option_bind]. rewrite Ht. cbn [mbind option_bind].
  assert ({| s with tasks := tasks s |} = s) as Es by by destruct s.
  assert (∀ b T, spec (Enter w now ms) (b2z b) s {| s with tasks := T |} ↔ (b = true → w_fired y = 0 ∧ t_state t = T_READY ∧ T !! w_t y = Some (Task (t_id t) T_BLOCKED (u32 (now + sleep_ms ms)))) ∧
    (b = false → ∃ t', T !! w_t y = Some t' ∧ t_state t' = t_state t)) as Hsp.
  { intros b T. split; [intros (y' & t' & Hy' & Ht' & _ & _ & H1 & H2)|intros [H1 H2]; exists y, t; split_and!; try done].
    - rewrite Hy in Hy'. injection Hy' as <-. rewrite Ht in Ht'. injection Ht' as <-. split; intros ->; auto.
    - destruct b; cbn; [auto|done].
    - destruct b; cbn; [done|auto]. }
  destruct (t_id t =? 0). { exists false, (tasks s). rewrite Es. split_and!; try done. rewrite <- Es at 2. apply Hsp. split; [done|]. intros _. by exists t. }
  unfold nz. destruct (Z.eqb_spec (w_fired y) 0) as [Hf|Hf]; cbn [negb]; [|exists false, (tasks s); rewrite Es; split_and!; try done; rewrite <- Es at 2; apply Hsp; split; [done|]; intros _; by exists t].
  cbn [t_state]. destruct (Z.eqb_spec (t_state t) T_READY) as [E|E]; eexists _, _; (split; [done|]); split_and!.
  - apply wf_tasks; [done|]. apply insert_tasks.
  - apply Hsp. split; [|done]. intros _. split_and!; try done. by rewrite lookup_insert_eq.
  - intros k Hk. by rewrite lookup_insert_ne.
  - apply wf_tasks; [done|]. apply insert_tasks.
  - apply Hsp. split; [done|]. intros _. eexists. by rewrite lookup_insert_eq.
  - intros k Hk. by rewrite lookup_insert_ne.
Qed.

Lemma leave_st s w y : wf s → ws s !! w = Some y → ∃ s', sleep_leave s w = Some s' ∧ wf s' ∧ spec (Leave w) 0 s s' ∧ ents s' = ents s ∧ heads s' = heads s ∧ tasks s' = tasks s.
Proof.
  intros (Q & WL & Hr) Hy. unfold sleep_leave, upd_w. rewrite Hy. cbn [mbind option_bind]. eexists. split; [done|]. split; [|split; [by exists y|done]]. exists Q, WL.
  destruct Hr as [H1 H2 H3 H4 H5 H6 H7 H8]. split; cbn; try done.
  - intros v. rewrite <- H2. destruct (decide (v = w)) as [->|]; [rewrite lookup_insert_eq, Hy; split; by eexists|by rewrite lookup_insert_ne].
  - intros v z Hz Hzu. destruct (decide (v = w)) as [->|]; [rewrite lookup_insert_eq in Hz; injection Hz as <-; by apply (H6 w y)|]. rewrite lookup_insert_ne in Hz by done. by apply H6.
  - intros e x Hx Hu Hw. destruct (H7 e x Hx Hu Hw) as (? & z & l & Hz & ? & ? & ?). split; [done|].
    destruct (decide (e_w x = w)) as [E|]; [|exists z, l; by rewrite lookup_insert_ne]. rewrite E in *. rewrite Hy in Hz. injection Hz as <-. eexists _, l. by rewrite lookup_insert_eq.
Qed.

(** C28: whatever tasks wait for, every operation on the pools completes (no list
    leads to a queue or waiter that is gone, every walk ends), keeps the lists in
    shape, and does to waiters and queues what its specification says: taking a
    waiter finds one that nobody living uses; adding puts one waiter on one more
    queue or, with the pool full, changes nothing; waking marks exactly the waiters
    of that queue, makes exactly their tasks ready and runs exactly its callbacks;
    draining does that and leaves the queue empty; freeing takes the waiter off
    every queue.  The waiters of other living tasks notice nothing. *)
Theorem wq_refines o s : wf s → pre o s → ∃ r s', run o s = Some (r, s') ∧ wf s' ∧ spec o r s s'.
Proof.
  intros Hwf Hp. destruct o; cbn [run pre] in *; unfold void.
  - destruct (waiter_st s cur Hwf Hp) as (r & s' & ? & ? & ? & _). by exists r, s'.
  - destruct Hp as (y & Hy & Hu). destruct (free_st s w y Hwf Hy Hu) as (s' & -> & ? & ? & _). by exists 0, s'.
  - destruct Hp as [Hh [y Hy]]. destruct (wq_add_st s q w y Hwf Hh Hy) as (e & s' & ? & ? & ? & _). by exists e, s'.
  - destruct Hp as [Hh Hcb]. destruct (add_cb_st s q cb arg Hwf Hh Hcb) as (e & s' & ? & ? & ? & _). by exists e, s'.
  - destruct (del_st s e Hwf Hp) as (s' & -> & ? & ? & _). by exists 0, s'.
  - destruct (wq_wake_ok s q Hwf Hp) as (s' & -> & ? & ?). by exists 0, s'.
  - destruct (wq_drain_ok s q Hwf Hp) as (s' & -> & ? & ?). by exists 0, s'.
  - destruct Hp as (y & Hy & Hu & _). destruct (enter_st s w y now ms Hwf Hy Hu) as (b & T & -> & ? & ? & _). by exists (b2z b), {| s with tasks := T |}.
  - destruct Hp as (y & Hy & _). destruct (leave_st s w y Hwf Hy) as (s' & -> & ? & ? & _). by exists 0, s'.
Qed.

(** ** The pools at the start *)

Definition blank_ent : wq_ent := WqEnt 0 0 0 0 0 0 0 false.
Definition blank_w : wq_w := WqW 0 0 false 0.

(** Static memory is zero; [qs] are the queues of the objects, [T] the tasks. *)
Definition pools0 (qs : gset Z) (T : gmap Z task) : st :=
  St (gset_to_gmap blank_ent (list_to_set (seqZ 1 NENT))) (gset_to_gmap blank_w (list_to_set (seqZ 1 NW))) (gset_to_gmap 0 qs) T [].

Lemma gset_map_range {A} (x : A) n k : is_Some ((gset_to_gmap x (list_to_set (seqZ 1 n)) : gmap Z A) !! k) ↔ 1 ≤ k ≤ n.
Proof.
  rewrite lookup_gset_to_gmap. split.
  - intros [y Hy]. destruct (decide (k ∈ (list_to_set (seqZ 1 n) : gset Z))) as [Hk|]; [|by rewrite option_guard_False in Hy]. apply elem_of_list_to_set, elem_of_seqZ in Hk. lia.
  - intros Hk. rewrite option_guard_True; [by eexists|]. apply elem_of_list_to_set, elem_of_seqZ. lia.
Qed.

Lemma pools0_wf qs T : 0 ∉ qs → wf (pools0 qs T).
Proof.
  intros H0. exists (gset_to_gmap [] qs), ∅.
  assert (∀ e x, ents (pools0 qs T) !! e = Some x → x = blank_ent) as He. { intros e x. cbn. rewrite lookup_gset_to_gmap_Some. by intros [_ <-]. }
  split.
  - intros e. apply gset_map_range.
  - intros w. apply gset_map_range.
  - intros q. cbn. rewrite !lookup_gset_to_gmap. destruct (decide (q ∈ qs)); [by rewrite !option_guard_True|by rewrite !option_guard_False].
  - intros q l. rewrite lookup_gset_to_gmap_Some. intros [Hq <-]. split; [congruence|]. split; [apply NoDup_nil_2|]. intros l1 ? ?. by destruct l1.
  - intros e x Hx Hq. apply He in Hx. subst x. destruct (Hq eq_refl).
  - intros w y. cbn. rewrite lookup_gset_to_gmap_Some. by intros [_ <-].
  - intros e x Hx Hu. apply He in Hx. subst x. discriminate Hu.
  - intros e x Hx Hu. apply He in Hx. subst x. discriminate Hu.
Qed.

(** Two queues, three tasks. *)
Definition tasks3 : gmap Z task := {[1 := Task 1 T_READY 0; 2 := Task 2 T_READY 0; 3 := Task 3 T_READY 0]}.
Definition small0 : st := pools0 {[1000; 2000]} tasks3.

Lemma small0_wf : wf small0.
Proof. apply pools0_wf. intros [?%elem_of_singleton|?%elem_of_singleton]%elem_of_union; lia. Qed.

Lemma wq_refines_witness : ∃ r s', run (Waiter 2) small0 = Some (r, s') ∧ wf s' ∧ spec (Waiter 2) r small0 s'.
Proof. apply (wq_refines (Waiter 2) small0); [exact small0_wf|]. exists (Task 2 T_READY 0). vm_compute. reflexivity. Defined.

End WqSpec.
