(* ===== verification/WqRun.v ===== *)
(** * Waiting without losing a wake-up

    Threads that wait with [wq_wait] (src/src/core/wq.c) for conditions that
    producers make true and announce with [wq_wake].  Every lock section of the
    pools, every look at a condition and the look of [wq_wake] at the head of the
    queue before it takes the lock is one step; the test and the store of
    [task_ready] (src/src/core/task.c) are two, for a kill does not wait for the lock
    of the pools; threads, producers, timeouts, kills and other users of the pools
    interleave freely. *)

From S2P Require Import Prelude Wq WqSpec.

Module WqRun.
Import Wq WqSpec.

(** Where a thread is in its wait loop, with its waiter (0 for NULL): at the test
    of its condition; in [wq_wait] before [wq_waiter], before [wq_add], before
    [wq_waiter_free]; in [wq_sleep] before the lock, in its loop, before its end;
    done with the loop, [wq_wfree] comes next; out. *)
Inductive pc :=
  | Look (w : Z) | First | Queue (w : Z) | Undo (w : Z)
  | Entering (w : Z) | Asleep (w : Z) | Leaving (w : Z) | Done (w : Z) | Out.

(** The next step of [wq_wait], run by task [cur]. *)
Definition wq_wait (p : pc) (s : st) (cur q now ms : Z) : option (pc * st) :=
  match p with
  | First => '(w, s) ← wq_waiter s cur; Some (if w =? 0 then Look 0 else Queue w, s)
  | Queue w => '(e, s) ← wq_add s q w; Some (if e =? 0 then Undo w else Look w, s)
  | Undo w => s ← wq_waiter_free s w; Some (Look 0, s)
  | Entering w => '(go, s) ← sleep_enter s w now ms; Some (if go : bool then Asleep w else Leaving w, s)
  | Asleep w =>
      x ← ws s !! w; t ← tasks s !! w_t x;
      Some (if t_state t =? T_BLOCKED then Asleep w else Leaving w, s)
  | Leaving w => s ← sleep_leave s w; Some (Look w, s)
  | _ => None
  end.

(** Where a producer is in [wq_wake]: before the look at the head, before the lock. *)
Inductive ppc := Posted | Locking.

(** [cond] says which conditions hold, by queue; [thr] where each thread is and on
    which queue; [prods] the calls of [wq_wake] under way; [late] the tasks that a
    [task_ready] found blocked and has not stored T_READY to yet. *)
Record sys := Sys { pool : st; cond : gset Z; thr : gmap Z (Z * pc); prods : list (Z * ppc); late : list Z }.

#[export] Instance task_eq_dec : EqDecision task.
Proof. solve_decision. Defined.

(** The tasks that a section that went from [s] to [s'] made ready. *)
Definition stored (s s' : st) : list Z :=
  (filter (λ kx, tasks s' !! kx.1 ≠ Some kx.2) (map_to_list (tasks s))).*1.

Definition t_live (s : st) (t : Z) : Prop := ∃ x, tasks s !! t = Some x ∧ t_state x ≠ T_FREE ∧ t_state x ≠ T_DEAD.
Definition running (s : st) (t : Z) : Prop := ∃ x, tasks s !! t = Some x ∧ t_state x = T_READY.

Definition after_look (holds : bool) (w : Z) : pc := if holds then Done w else if w =? 0 then First else Entering w.

(** What [task_kill] of task.c, and the end of a task, mean to the pools.  It runs
    under the lock of the scheduler, which no other section here takes. *)
Definition task_kill (s : st) (t : Z) : option st :=
  x ← tasks s !! t; Some {| s with tasks := <[t := {| x with t_state := T_DEAD |}]> (tasks s) |}.

(** One step.  A dead or blocked thread takes none.  The stores that the loop of
    [wq_wake] makes are put off, one by one, to steps of their own; kills, and here
    also other sections, may come before them.  With [race] a store may come after
    the task was killed or freed; without, it does not. *)
Inductive step (race : bool) : sys → sys → Prop :=
  | s_start S t q : thr S !! t = None → running (pool S) t → is_Some (heads (pool S) !! q) →
      step race S {| S with thr := <[t := (q, Look 0)]> (thr S) |}
  | s_look S t q w : thr S !! t = Some (q, Look w) → running (pool S) t →
      step race S {| S with thr := <[t := (q, after_look (bool_decide (q ∈ cond S)) w)]> (thr S) |}
  | s_wait S t q p p' s' now ms : thr S !! t = Some (q, p) → running (pool S) t →
      wq_wait p (pool S) t q now ms = Some (p', s') → step race S {| S with pool := s'; thr := <[t := (q, p')]> (thr S) |}
  | s_done S t q w s' : thr S !! t = Some (q, Done w) → running (pool S) t → wq_wfree (pool S) w = Some s' →
      step race S {| S with pool := s'; thr := <[t := (q, Out)]> (thr S) |}
  | s_post S q : is_Some (heads (pool S) !! q) → step race S {| S with cond := {[q]} ∪ cond S; prods := (q, Posted) :: prods S |}
  | s_head S l1 l2 q h : prods S = l1 ++ (q, Posted) :: l2 → heads (pool S) !! q = Some h →
      step race S {| S with prods := if nz h then l1 ++ (q, Locking) :: l2 else l1 ++ l2 |}
  | s_lock S l1 l2 q s' : prods S = l1 ++ (q, Locking) :: l2 → wake_locked (pool S) q = Some s' →
      step race S {| S with pool := {| s' with tasks := tasks (pool S) |}; prods := l1 ++ l2; late := stored (pool S) s' ++ late S |}
  | s_consume S q : step race S {| S with cond := cond S ∖ {[q]} |}
  | s_test S t x : tasks (pool S) !! t = Some x → t_state x = T_BLOCKED → step race S {| S with late := t :: late S |}
  | s_store S l1 t l2 x s' : late S = l1 ++ t :: l2 → tasks (pool S) !! t = Some x → race = true ∨ t_live (pool S) t →
      s' = (let s := pool S in {| s with tasks := <[t := ready_store x]> (tasks s) |}) →
      step race S {| S with pool := s'; late := l1 ++ l2 |}
  | s_kill S t s' : task_kill (pool S) t = Some s' → step race S {| S with pool := s' |}
  | s_cb S q cb arg e s' : is_Some (heads (pool S) !! q) → cb ≠ 0 → wq_add_cb (pool S) q cb arg = Some (e, s') → step race S {| S with pool := s' |}
  | s_del S e s' : wq_del (pool S) e = Some s' → step race S {| S with pool := s' |}.

(** The waiter a thread holds, and whether it is on its queue. *)
Definition holds (p : pc) : Z :=
  match p with Look w | Queue w | Undo w | Entering w | Asleep w | Leaving w | Done w => w | First | Out => 0 end.
Definition queued (p : pc) : bool := match p with Queue _ | Undo _ => false | _ => true end.
Definition nodding (p : pc) : bool := match p with Entering _ | Asleep _ => true | _ => false end.

Definition pc_ok (p : pc) : Prop := match p with Look _ | First | Done _ | Out => True | _ => holds p ≠ 0 end.

Definition pending (S : sys) (q : Z) : Prop := ∃ p, (q, p) ∈ prods S.

(** A thread between the look at its condition and its sleep, or asleep, has been
    woken if its condition holds, or the producer that made it hold is on its way;
    and a sleeper that was woken is ready, or the store that makes it so is on its way. *)
Record thread_ok (S : sys) (t q : Z) (p : pc) (y : wq_w) : Prop := {
  o_used : w_used y = true;
  o_task : w_t y = t;
  o_member : queued p = true → member (pool S) q (holds p);
  o_wake : nodding p = true → q ∈ cond S → w_fired y ≠ 0 ∨ pending S q;
  o_up : p = Asleep (holds p) → w_fired y ≠ 0 → t ∈ late S ∨ ∀ x, tasks (pool S) !! t = Some x → t_state x ≠ T_BLOCKED
}.

Record inv (S : sys) : Prop := {
  i_wf : wf (pool S);
  i_q : ∀ t q p, thr S !! t = Some (q, p) → is_Some (heads (pool S) !! q) ∧ is_Some (tasks (pool S) !! t) ∧ pc_ok p;
  i_p : ∀ q p, (q, p) ∈ prods S → is_Some (heads (pool S) !! q);
  i_t : ∀ t q p, thr S !! t = Some (q, p) → t_live (pool S) t → holds p ≠ 0 → ∃ y, ws (pool S) !! holds p = Some y ∧ thread_ok S t q p y
}.

(** ** The invariant holds *)

Lemma live_alive S t q p y : thread_ok S t q p y → t_live (pool S) t → ws (pool S) !! holds p = Some y → alive (pool S) (holds p) y.
Proof.
  intros Ho (x & Hx & H1 & H2) Hy. split; [done|]. split; [apply (o_used _ _ _ _ _ Ho)|]. unfold dead_w. rewrite Hy, (o_used _ _ _ _ _ Ho), (o_task _ _ _ _ _ Ho), Hx. cbn.
  by rewrite !(proj2 (Z.eqb_neq _ _)).
Qed.

Lemma running_live s t : running s t → t_live s t.
Proof. intros (x & Hx & E). exists x. split; [done|]. by rewrite E. Qed.

(** Threads whose waiter a pool operation leaves alone. *)
Lemma others_ok S s' v C P L t q p y : alive (pool S) (holds p) y → thread_ok S t q p y → others (pool S) s' v → holds p ≠ v →
  (∀ x', tasks s' !! t = Some x' → t_state x' = T_BLOCKED → ∃ x, tasks (pool S) !! t = Some x ∧ t_state x = T_BLOCKED) →
  (nodding p = true → q ∈ C → q ∈ cond S) → (∀ a, (q, a) ∈ prods S → ∃ b, (q, b) ∈ P) → (t ∈ late S → t ∈ L) →
  ws s' !! holds p = Some y ∧ ∀ th, thread_ok (Sys s' C th P L) t q p y.
Proof.
  intros Hal [O1 O2 O3 O4 O5] Hot Hv Ht HC HP HL. destruct (Hot _ _ Hal Hv) as [Hw Hm]. destruct Hal as (Hy & _). split; [congruence|]. intros th. split; cbn; try done.
  - intros Hq. by apply Hm, O3.
  - intros Hn Hc. destruct (O4 Hn (HC Hn Hc)) as [?|[a Ha]]; [by left|]. right. destruct (HP a Ha) as [b Hb]. by exists b.
  - intros Hp Hf. destruct (O5 Hp Hf) as [Hl|O5']; [left; by apply HL|right]. intros x' Hx' Hb. destruct (Ht x' Hx' Hb) as (x & Hx & E). by apply (O5' x Hx).
Qed.

(** An operation of thread [t1] on the pools, after which it is at [p1]. *)
Lemma inv_pool S s' v t1 q0 p0 p1 : inv S → thr S !! t1 = Some (q0, p0) → wf s' → others (pool S) s' v → tasks s' = tasks (pool S) →
  (∀ q, is_Some (heads s' !! q) ↔ is_Some (heads (pool S) !! q)) →
  (∀ w y, alive (pool S) w y → w_t y ≠ t1 → w ≠ v) → pc_ok p1 →
  (t_live (pool S) t1 → holds p1 ≠ 0 → ∃ y, ws s' !! holds p1 = Some y ∧ ∀ th, thread_ok (Sys s' (cond S) th (prods S) (late S)) t1 q0 p1 y) →
  inv {| S with pool := s'; thr := <[t1 := (q0, p1)]> (thr S) |}.
Proof.
  intros [I1 I2 I3 I4] Ht1 Hwf Hot HT HH Hv Hp1 Hnew. split; cbn; try done.
  - intros t q p Hp. rewrite HH, HT. destruct (decide (t = t1)) as [->|Ht]; [|rewrite lookup_insert_ne in Hp by done; by apply (I2 t)].
    rewrite lookup_insert_eq in Hp. injection Hp as <- <-. destruct (I2 _ _ _ Ht1) as (? & ? & _). done.
  - intros q p Hp. rewrite HH. by apply (I3 q p).
  - intros t q p Hp Hl Hh. assert (t_live (pool S) t) as Hl' by (unfold t_live in *; by rewrite HT in Hl). destruct (decide (t = t1)) as [->|Ht].
    + rewrite lookup_insert_eq in Hp. injection Hp as <- <-. destruct (Hnew Hl' Hh) as (y & Hy & Ho). exists y. split; [done|]. apply Ho.
    + rewrite lookup_insert_ne in Hp by done. destruct (I4 t q p Hp Hl' Hh) as (y & Hy & Ho). pose proof (live_alive _ _ _ _ _ Ho Hl' Hy) as Hal.
      destruct (others_ok S s' v (cond S) (prods S) (late S) t q p y Hal Ho Hot) as [Hy' Ho']; try done.
      * apply (Hv _ y Hal). by rewrite (o_task _ _ _ _ _ Ho).
      * intros x. rewrite HT. by exists x.
      * intros a Ha. by exists a.
      * exists y. split; [done|]. apply Ho'.
Qed.

Lemma others_refl s v : others s s v.
Proof. intros w y _ _. by split. Qed.

Lemma same_pool S t1 q0 p0 p1 : inv S → thr S !! t1 = Some (q0, p0) → pc_ok p1 → holds p1 = 0 ∨ holds p1 = holds p0 ∧ queued p0 = true ∧
    (nodding p1 = true → q0 ∉ cond S ∨ nodding p0 = true) ∧ (p1 = Asleep (holds p1) → p0 = p1) →
  inv {| S with thr := <[t1 := (q0, p1)]> (thr S) |}.
Proof.
  intros HI Ht Hp Hh. pose proof (inv_pool S (pool S) 0 t1 q0 p0 p1 HI Ht) as H. destruct S as [s C th P L]. cbn in *. apply H; try done.
  - apply (i_wf _ HI).
  - intros w y Hal _. apply (alive_ne0 _ _ _ (i_wf _ HI) Hal).
  - intros Hl Hh1. destruct Hh as [?|(E & Eq & En & Ea)]; [done|]. destruct (i_t _ HI t1 q0 p0 Ht Hl) as (y & Hy & [O1 O2 O3 O4 O5]); [congruence|]. cbn in *.
    exists y. rewrite E. split; [done|]. intros th'. split; cbn; try done.
    + intros _. rewrite E. by apply O3.
    + intros Hn Hc. destruct (En Hn) as [|Hn0]; [done|]. by apply O4.
    + intros Hp1. rewrite <- (Ea Hp1) in Hp1. rewrite E in Ea. by apply O5.
Qed.

(** The wait loop keeps the invariant, and its next step is always there. *)
Lemma wait_step S t q p now ms : inv S → thr S !! t = Some (q, p) → running (pool S) t →
  match p with Look _ | Done _ | Out => True | _ =>
    ∃ p' s', wq_wait p (pool S) t q now ms = Some (p', s') ∧ inv {| S with pool := s'; thr := <[t := (q, p')]> (thr S) |} end.
Proof.
  intros HI Ht Hrun. pose proof (running_live _ _ Hrun) as Hlive. destruct (i_q _ HI t q p Ht) as (Hq & Htk & Hok). pose proof (i_wf _ HI) as Hwf. pose proof (i_t _ HI t q p Ht Hlive) as Hth.
  assert (holds p ≠ 0 → ∃ y, ws (pool S) !! holds p = Some y ∧ thread_ok S t q p y ∧ alive (pool S) (holds p) y ∧ ∀ w z, alive (pool S) w z → w_t z ≠ t → w ≠ holds p) as Hown.
  { intros Hh. destruct (Hth Hh) as (y & Hy & Ho). exists y. split; [done|]. split; [done|]. split; [by apply (live_alive S t q p)|]. intros w z (Hz & _) Hzt ->. rewrite Hy in Hz. injection Hz as <-.
    by apply Hzt, (o_task _ _ _ _ _ Ho). }
  destruct p; try done; cbn [wq_wait pc_ok holds] in *.
  - destruct (waiter_st (pool S) t Hwf Htk) as (r & s' & -> & Hwf' & [Hot Hr] & HT & HH). cbn [mbind option_bind]. eexists _, s'. split; [done|].
    apply (inv_pool S s' r t q First); try done.
    + intros w y Hal _ ->. destruct (Hr (alive_ne0 _ _ _ Hwf Hal)) as (_ & Hno & _). by apply (Hno y).
    + by case_match; cbn; bools.
    + intros _ Hh. destruct (Z.eqb_spec r 0) as [|Hr0]; [done|]. destruct (Hr Hr0) as (Hw & _ & _). cbn. eexists. split; [done|]. intros th. split; cbn; try done.
  - destruct (Hown Hok) as (y & Hy & Ho & Hal & Hne). destruct (wq_add_st (pool S) q w y Hwf Hq Hal) as (e & s' & -> & Hwf' & (y' & Hy' & Hsp) & HT & HH). cbn [mbind option_bind]. rewrite Hy in Hy'. injection Hy' as <-.
    eexists _, s'. split; [done|]. destruct (Z.eqb_spec e 0) as [He|He].
    + apply (inv_pool S s' 0 t q (Queue w)); try done; [intros v z Hv _; by apply (alive_ne0 _ _ _ Hwf Hv)|]. intros _ _. cbn. destruct (Hsp w y Hal Hok) as [Hw _]. exists y. split; [congruence|].
      intros th. destruct Ho as [O1 O2 O3 O4 O5]. by split.
    + destruct Hsp as (Hot & Hw & Hm). apply (inv_pool S s' w t q (Queue w)); try done. intros _ _. cbn. eexists. split; [done|]. intros th. destruct Ho as [O1 O2 O3 O4 O5]. split; cbn; try done.
      intros _. apply Hm. by right.
  - destruct (Hown Hok) as (y & Hy & Ho & Hal & Hne). destruct (free_st (pool S) w y Hwf Hy (o_used _ _ _ _ _ Ho)) as (s' & Hs' & Hwf' & (Hot & _ & _) & HT & HH).
    unfold wq_wfree, nz in Hs'. rewrite (proj2 (Z.eqb_neq _ _) Hok) in Hs'. cbn [negb] in Hs'. rewrite Hs'. cbn [mbind option_bind]. eexists _, s'. split; [done|]. by apply (inv_pool S s' w t q (Undo w)).
  - destruct (Hown Hok) as (y & Hy & Ho & Hal & Hne). destruct (enter_st (pool S) w y now ms Hwf Hy (o_used _ _ _ _ _ Ho)) as (b & T & -> & Hwf' & (y' & x & Hy' & Hx & _ & Hm & Hb1 & Hb0) & HT).
    cbn [mbind option_bind]. eexists _, _. split; [done|]. rewrite Hy in Hy'. injection Hy' as <-. destruct HI as [I1 I2 I3 I4]. rewrite (o_task _ _ _ _ _ Ho) in *.
    assert (∀ k, is_Some (tasks (pool S) !! k) → is_Some (T !! k)) as HTS.
    { intros k Hk. destruct (decide (k = t)) as [->|]; [|by rewrite HT]. destruct b; [destruct Hb1 as (_ & _ & Hb1); [done|]; cbn in Hb1; by rewrite Hb1|]. destruct Hb0 as (? & Hb0 & _); [done|]. cbn in Hb0. by rewrite Hb0. }
    split; cbn; try done.
    + intros k q' p Hp. destruct (decide (k = t)) as [->|Hk]; [rewrite lookup_insert_eq in Hp; injection Hp as <- <-; split; [done|]; split; [by apply HTS|by destruct b]|].
      rewrite lookup_insert_ne in Hp by done. destruct (I2 k q' p Hp) as (? & ? & ?). auto.
    + intros k q' p Hp Hl Hh. destruct (decide (k = t)) as [->|Hk].
      * rewrite lookup_insert_eq in Hp. injection Hp as <- <-. exists y. destruct Ho as [O1 O2 O3 O4 O5]. destruct b; cbn; (split; [done|]); split; cbn; try done.
        intros _ Hf. by destruct Hb1.
      * rewrite lookup_insert_ne in Hp by done. destruct (I4 k q' p Hp) as (z & Hz & [O1 O2 O3 O4 O5]); [unfold t_live in *; cbn in Hl; by rewrite HT in Hl|done|]. exists z. split; [done|]. split; cbn; try done.
        intros Hp' Hf. destruct (O5 Hp' Hf) as [?|O5']; [by left|right]. intros x'. rewrite HT by done. apply O5'.
  - destruct (Hown Hok) as (y & Hy & Ho & Hal & Hne). rewrite Hy. cbn [mbind option_bind]. rewrite (o_task _ _ _ _ _ Ho). destruct Htk as [x Hx]. rewrite Hx. cbn [mbind option_bind].
    eexists _, _. split; [done|]. pose proof (same_pool S t q (Asleep w) (if t_state x =? T_BLOCKED then Asleep w else Leaving w) HI Ht) as H. destruct S as [s0 C th P L]. destruct (t_state x =? T_BLOCKED); (apply H; [done|]; right; split_and!; try done; intros _; by right).
  - destruct (Hown Hok) as (y & Hy & Ho & Hal & Hne). destruct (leave_st (pool S) w y Hwf Hy) as (s' & -> & Hwf' & (y' & Hy' & Hws & Hm) & HE & HH & HT). rewrite Hy in Hy'. injection Hy' as <-.
    cbn [mbind option_bind]. eexists _, s'. split; [done|]. apply (inv_pool S s' w t q (Leaving w)); try done.
    + intros v z (Hz & _) Hv. split; [by rewrite Hws, lookup_insert_ne|]. intros q'. apply Hm.
    + intros q'. by rewrite HH.
    + intros _ _. cbn. rewrite Hws, lookup_insert_eq. eexists. split; [done|]. intros th. destruct Ho as [O1 O2 O3 O4 O5]. split; cbn; try done. intros _. by apply Hm, O3.
Qed.

Lemma member_head s q w h : wf s → member s q w → q ≠ 0 → heads s !! q = Some h → h ≠ 0.
Proof.
  intros (Q & WL & Hr) (e & x & Hx & Hu & Hq & _) Hq0 Hh. destruct (heads_queue _ _ _ _ _ Hr Hh) as (l & Hl & ->).
  assert (e ∈ l) as He by (apply (on_queue s Q WL q l e Hr Hl); by exists x). destruct l as [|a l]; [by apply elem_of_nil in He|]. cbn. intros ->.
  destruct (r_queue _ _ _ _ Hr _ _ Hl) as [_ Hc]. destruct (chain_elem _ _ _ 0 Hc) as (z & Hz & _); [apply list_elem_of_here|]. rewrite (rep_0 _ _ _ _ Hr) in Hz. done.
Qed.

Lemma queue_ne0 s q : wf s → is_Some (heads s !! q) → q ≠ 0.
Proof. intros (Q & WL & Hr) [h Hh]. destruct (heads_queue _ _ _ _ _ Hr Hh) as (l & Hl & _). by destruct (r_queue _ _ _ _ Hr _ _ Hl). Qed.

(** Steps of producers and consumers, which leave the pools alone. *)
Lemma inv_cond S C P : inv S → (∀ q p, (q, p) ∈ P → is_Some (heads (pool S) !! q)) →
  (∀ t q p y, thr S !! t = Some (q, p) → thread_ok S t q p y → nodding p = true → q ∈ C → (q ∈ C → q ∈ cond S → w_fired y ≠ 0 ∨ pending S q) → w_fired y ≠ 0 ∨ ∃ p, (q, p) ∈ P) →
  inv {| S with cond := C; prods := P |}.
Proof.
  intros [I1 I2 I3 I4] HP HC. split; cbn; try done. intros t q p Hp Hl Hh. destruct (I4 t q p Hp Hl Hh) as (y & Hy & Ho). exists y. split; [done|].
  pose proof (HC t q p y Hp Ho) as H. destruct Ho as [O1 O2 O3 O4 O5]. split; cbn; try done. intros Hn Hc. apply H; auto.
Qed.

(** Steps that change tasks only, and never block one. *)
Lemma inv_tasks S T : inv S → (∀ t, is_Some (tasks (pool S) !! t) → is_Some (T !! t)) →
  (∀ t x', T !! t = Some x' → ∃ x, tasks (pool S) !! t = Some x ∧ (t_state x' = T_BLOCKED → t_state x = T_BLOCKED) ∧
    (t_state x' ≠ T_FREE → t_state x' ≠ T_DEAD → t_state x ≠ T_FREE ∧ t_state x ≠ T_DEAD)) →
  ∀ s', s' = (let s := pool S in {| s with tasks := T |}) → inv {| S with pool := s' |}.
Proof.
  intros [I1 I2 I3 I4] HS HT s' ->. split; cbn; try done.
  - by apply wf_tasks.
  - intros t q p Hp. destruct (I2 t q p Hp) as (? & ? & ?). auto.
  - intros t q p Hp (x' & Hx' & H1 & H2) Hh. cbn in Hx'. destruct (HT t x' Hx') as (x & Hx & Hb & Hd). destruct (Hd H1 H2).
    destruct (I4 t q p Hp) as (y & Hy & [O1 O2 O3 O4 O5]); [by exists x|done|]. exists y. split; [done|]. split; cbn; try done.
    intros Hp' Hf. destruct (O5 Hp' Hf) as [?|O5']; [by left|right]. intros x'' Hx'' E. rewrite Hx' in Hx''. injection Hx'' as <-. by apply (O5' x Hx), Hb.
Qed.

Lemma ready_state x : (t_state (ready x) = T_BLOCKED → False) ∧ (t_state (ready x) ≠ T_FREE → t_state (ready x) ≠ T_DEAD → t_state x ≠ T_FREE ∧ t_state x ≠ T_DEAD).
Proof. unfold ready. destruct (Z.eqb_spec (t_state x) T_BLOCKED) as [E|E]; cbn; [rewrite E|]; done. Qed.

(** An operation of somebody else on the pools. *)
Lemma inv_others S s' : inv S → wf s' → others (pool S) s' 0 → tasks s' = tasks (pool S) →
  (∀ q, is_Some (heads s' !! q) ↔ is_Some (heads (pool S) !! q)) → inv {| S with pool := s' |}.
Proof.
  intros [I1 I2 I3 I4] Hwf Hot HT HH. split; cbn; try done.
  - intros t q p Hp. rewrite HH, HT. by apply (I2 t).
  - intros q p Hp. rewrite HH. by apply (I3 q p).
  - intros t q p Hp Hl Hh. assert (t_live (pool S) t) as Hl' by (unfold t_live in *; cbn in Hl; by rewrite HT in Hl). destruct (I4 t q p Hp Hl' Hh) as (y & Hy & Ho).
    destruct (others_ok S s' 0 (cond S) (prods S) (late S) t q p y (live_alive _ _ _ _ _ Ho Hl' Hy) Ho Hot) as [Hy' Ho']; try done.
    + intros x. rewrite HT. by exists x.
    + intros a Ha. by exists a.
    + exists y. split; [done|]. apply Ho'.
Qed.

Lemma stored_in s s' t x : tasks s !! t = Some x → tasks s' !! t ≠ Some x → t ∈ stored s s'.
Proof.
  intros Hx Hx'. apply list_elem_of_fmap. exists (t, x). split; [done|]. apply list_elem_of_filter. split; [done|]. by apply elem_of_map_to_list.
Qed.

(** More stores on their way. *)
Lemma inv_late S L : inv S → (∀ t, t ∈ late S → t ∈ L) → inv {| S with late := L |}.
Proof.
  intros [I1 I2 I3 I4] HL. split; cbn; try done. intros t q p Hp Hl Hh. destruct (I4 t q p Hp Hl Hh) as (y & Hy & [O1 O2 O3 O4 O5]). exists y. split; [done|]. split; cbn; try done.
  intros Hp' Hf. destruct (O5 Hp' Hf) as [?|?]; [left; by apply HL|by right].
Qed.

(** The store of T_READY to a task that is alive. *)
Lemma store_step S l1 t l2 x s' : inv S → late S = l1 ++ t :: l2 → tasks (pool S) !! t = Some x → t_live (pool S) t →
  s' = (let s := pool S in {| s with tasks := <[t := ready_store x]> (tasks s) |}) → inv {| S with pool := s'; late := l1 ++ l2 |}.
Proof.
  intros [I1 I2 I3 I4] HL Hx Ht ->. assert (∀ k, is_Some (tasks (pool S) !! k) → is_Some (<[t := ready_store x]> (tasks (pool S)) !! k)) as HS.
  { intros k Hk. rewrite lookup_insert. case_decide; [by eexists|done]. }
  split; cbn; try done.
  - by apply wf_tasks.
  - intros k q p Hp. destruct (I2 k q p Hp) as (? & ? & ?). auto.
  - intros k q p Hp (x' & Hx' & H1 & H2) Hh. cbn in Hx'. destruct (decide (k = t)) as [->|Hk].
    + destruct (I4 t q p Hp Ht Hh) as (y & Hy & [O1 O2 O3 O4 O5]). exists y. split; [done|]. split; cbn; try done.
      intros _ _. right. intros x2. rewrite lookup_insert_eq. by intros [= <-].
    + rewrite lookup_insert_ne in Hx' by done. destruct (I4 k q p Hp) as (y & Hy & [O1 O2 O3 O4 O5]); [by exists x'|done|]. exists y. split; [done|]. split; cbn; try done.
      intros Hp' Hf. rewrite lookup_insert_ne by done. destruct (O5 Hp' Hf) as [Hin|?]; [left|by right]. rewrite HL in Hin. set_solver.
Qed.

Lemma lock_step S l1 l2 q : inv S → prods S = l1 ++ (q, Locking) :: l2 → ∃ s', wake_locked (pool S) q = Some s' ∧
  inv {| S with pool := {| s' with tasks := tasks (pool S) |}; prods := l1 ++ l2; late := stored (pool S) s' ++ late S |}.
Proof.
  intros HI HP. pose proof HI as [I1 I2 I3 I4]. destruct (I3 q Locking) as [h Hh]; [rewrite HP; set_solver|].
  pose proof I1 as (Q & WL & Hr). destruct (heads_queue _ _ _ _ _ Hr Hh) as (l & Hl & ->). destruct (wake_all_st _ _ _ _ _ Hr Hl) as (s' & Hs' & Hk).
  exists s'. unfold wake_locked. rewrite Hh. cbn [mbind option_bind]. split; [exact Hs'|]. clear Hs'. pose proof (k_ents _ _ _ Hk) as HE. pose proof (k_qs _ _ _ Hk) as HH.
  assert (∀ q w, member s' q w ↔ member (pool S) q w) as Hm by (apply member_ext; by rewrite HE).
  assert (∀ t, is_Some (tasks s' !! t) ↔ is_Some (tasks (pool S) !! t)) as HT by (intros t; by rewrite (k_t _ _ _ Hk), fmap_is_Some).
  split; cbn; try done.
  - apply wf_tasks; [|intros t; apply HT]. exists Q, WL. by apply (rep_wake 0 l (pool S)).
  - intros t q' p Hp. rewrite HH. by apply (I2 t).
  - intros q' p Hp. rewrite HH. apply (I3 q' p). rewrite HP. set_solver.
  - intros t q' p Hp Hlv Hh'. destruct (I4 t q' p Hp Hlv Hh') as (y & Hy & [O1 O2 O3 O4 O5]). rewrite (k_w _ _ _ Hk), Hy. cbn [fmap option_fmap option_map]. eexists. split; [done|].
    pose proof (hits_member _ _ _ _ _ _ Hr Hl (mk_is_Some _ _ Hy)) as Hhit. destruct (existsb (hits (pool S) (holds p)) l) eqn:Eh; split; cbn; try done.
    + intros Hq. by apply Hm, O3.
    + by left.
    + intros _ _. destruct Hlv as (x & Hx & _). cbn in Hx. destruct (decide (t_state x = T_BLOCKED)) as [Eb|Eb]; [left|right; intros x2 Hx2; by simplify_eq].
      apply elem_of_app. left. apply (stored_in _ _ _ x Hx). rewrite (k_t _ _ _ Hk), Hx. cbn. assert (existsb (hits_t (pool S) t) l = true) as ->.
      { apply (hits_t_waits _ _ _ _ _ _ Hr Hl). exists (holds p), y. split; [by apply Hhit|done]. }
      unfold ready. rewrite (proj2 (Z.eqb_eq _ _) Eb). intros [= E]. by rewrite <- E in Eb.
    + intros Hq. by apply Hm, O3.
    + intros Hn Hc. destruct (O4 Hn Hc) as [?|[a Ha]]; [by left|]. right. exists a. cbn. rewrite HP in Ha. destruct (decide (q' = q)) as [->|]; [|set_solver].
      exfalso. assert (false = true) as [=]. apply Hhit, O3. by destruct p.
    + intros Hp' Hf. destruct (O5 Hp' Hf) as [?|?]; [left; apply elem_of_app; by right|by right].
Qed.

Lemma wq_inv_step S S' : inv S → step false S S' → inv S'.
Proof.
  intros HI Hs. pose proof HI as [I1 I2 I3 I4]. destruct Hs.
  - split; cbn; try done.
    + intros t' q' p Hp. destruct (decide (t' = t)) as [->|]; [|rewrite lookup_insert_ne in Hp by done; by apply (I2 t')]. rewrite lookup_insert_eq in Hp. injection Hp as <- <-.
      split; [done|]. split; [|done]. destruct H0 as (x & ? & _). by exists x.
    + intros t' q' p Hp Hl Hh. destruct (decide (t' = t)) as [->|]; [rewrite lookup_insert_eq in Hp; by injection Hp as <- <-|]. rewrite lookup_insert_ne in Hp by done.
      destruct (I4 t' q' p Hp Hl Hh) as (y & Hy & [O1 O2 O3 O4 O5]). exists y. split; [done|]. by split.
  - apply (same_pool S t q (Look w)); [done..| |]; unfold after_look; case_bool_decide; [done|by destruct (Z.eqb_spec w 0)| |].
    + right. by split_and!.
    + destruct (Z.eqb_spec w 0); [by left|]. right. split_and!; try done. intros _. by left.
  - pose proof (wait_step S t q p now ms HI H H0) as Hw. destruct p; try done; destruct Hw as (p1 & s1 & E & Hi); rewrite H1 in E; by injection E as -> ->.
  - destruct (Z.eqb_spec w 0) as [->|Hw].
    + cbn in H1. injection H1 as <-. pose proof (same_pool S t q (Done 0) Out HI H Logic.I (or_introl eq_refl)) as Hi. by destruct S.
    + destruct (I4 t q (Done w) H (running_live _ _ H0) Hw) as (y & Hy & Ho). cbn in Hy. destruct (free_st (pool S) w y I1 Hy (o_used _ _ _ _ _ Ho)) as (s1 & Hs1 & Hwf' & (Hot & _ & _) & HT & HH).
      rewrite H1 in Hs1. injection Hs1 as <-. apply (inv_pool S s' w t q (Done w)); try done. intros v z (Hz & _) Hzt ->. rewrite Hy in Hz. injection Hz as <-. by apply Hzt, (o_task _ _ _ _ _ Ho).
  - apply inv_cond; [done| |].
    + intros q' p [[= -> ->]|Hp]%elem_of_cons; [done|]. by apply (I3 q' p).
    + intros t q' p y _ _ _ Hc Hold. destruct (decide (q' = q)) as [->|Hq]; [right; exists Posted; apply list_elem_of_here|].
      destruct (Hold Hc) as [?|[a Ha]]; [set_solver|by left|]. right. exists a. by apply list_elem_of_further.
  - assert ({| S with cond := cond S |} = S) as Es by by destruct S. rewrite <- Es in HI.
    pose proof (inv_cond S (cond S) (if nz h then l1 ++ (q, Locking) :: l2 else l1 ++ l2)) as Hi. rewrite Es in HI. apply Hi; [done| |].
    + intros q' p Hp. destruct (decide (q' = q)) as [->|]; [by exists h|]. apply (I3 q' p). rewrite H. unfold nz in Hp. destruct (h =? 0); cbn in Hp; set_solver.
    + intros t q' p y Hp Ho Hn Hc Hold. destruct (Hold Hc Hc) as [?|[a Ha]]; [by left|]. right. rewrite H in Ha. unfold nz. destruct (Z.eqb_spec h 0) as [->|]; cbn [negb].
      * destruct (decide (q' = q)) as [->|]; [|exists a; set_solver]. exfalso. apply (member_head (pool S) q (holds p) 0); [done| |by apply (queue_ne0 (pool S))|done|done].
        apply (o_member _ _ _ _ _ Ho). by destruct p.
      * destruct (decide (q' = q)) as [->|]; [exists Locking; set_solver|exists a; set_solver].
  - destruct (lock_step S l1 l2 q HI H) as (s1 & E & Hi). rewrite H0 in E. by injection E as ->.
  - pose proof (inv_cond S (cond S ∖ {[q]}) (prods S) HI I3) as Hi. destruct S. apply Hi. intros t q' p y _ _ _ Hc Hold. apply Hold; [done|set_solver].
  - apply inv_late; [done|]. intros k Hk. by right.
  - apply (store_step S l1 t l2 x); try done. by destruct H1.
  - unfold task_kill in H. destruct (tasks (pool S) !! t) as [x|] eqn:Hx; [|done]. cbn in H. injection H as <-. apply (inv_tasks S (<[t := {| x with t_state := T_DEAD |}]> (tasks (pool S))) HI); [apply insert_tasks| |done].
    intros k x' Hx'. destruct (decide (k = t)) as [->|]; [|rewrite lookup_insert_ne in Hx' by done; by exists x']. rewrite lookup_insert_eq in Hx'. injection Hx' as <-. by exists x.
  - destruct (add_cb_st (pool S) q cb arg I1 H H0) as (e1 & s1 & Hs1 & Hwf' & [Hot _] & HT & HH). rewrite H1 in Hs1. injection Hs1 as <- <-. by apply inv_others.
  - assert (is_Some (ents (pool S) !! e)) as He. { unfold wq_del in H. destruct (ents (pool S) !! e); [by eexists|done]. }
    destruct (del_st (pool S) e I1 He) as (s1 & Hs1 & Hwf' & [Hot _] & _ & HT & HH). rewrite H in Hs1. injection Hs1 as <-. by apply inv_others.
Qed.

Lemma inv_reach qs T S : 0 ∉ qs → rtc (step false) (Sys (pools0 qs T) ∅ ∅ [] []) S → inv S.
Proof.
  intros H0 Hs. assert (inv (Sys (pools0 qs T) ∅ ∅ [] [])) as Hi; [|clear H0; induction Hs as [|S1 S2 S3 H12 _ IH]; [done|]; apply IH; by apply (wq_inv_step S1)].
  split; cbn; [by apply pools0_wf|..].
  - intros t q p Hp. by rewrite lookup_empty in Hp.
  - intros q p Hp. by apply elem_of_nil in Hp.
  - intros t q p Hp. by rewrite lookup_empty in Hp.
Qed.

(** C29: a wake-up is never lost.  However threads, producers, timeouts, kills and
    other users of the pools interleave, as long as no [task_ready] stores T_READY to
    a task that was killed between its test and its store ([kill_undone] is what
    happens otherwise): the next step of a waiting thread is always defined, and while
    a thread sleeps although its condition holds, either the store that makes it ready
    is on its way, or a call of [wq_wake] for its queue is that will see the queue not
    empty and, once it has the lock, make the thread ready. *)
Theorem no_lost_wakeup qs T S : 0 ∉ qs → rtc (step false) (Sys (pools0 qs T) ∅ ∅ [] []) S →
  (∀ t q p now ms, thr S !! t = Some (q, p) → running (pool S) t →
     match p with Look _ | Done _ | Out => True | _ => is_Some (wq_wait p (pool S) t q now ms) end) ∧
  (∀ t q w x, thr S !! t = Some (q, Asleep w) → tasks (pool S) !! t = Some x → t_state x = T_BLOCKED → q ∈ cond S →
     t ∈ late S ∨
     (∃ p, (q, p) ∈ prods S) ∧ (∃ h, heads (pool S) !! q = Some h ∧ h ≠ 0) ∧
     ∃ s', wake_locked (pool S) q = Some s' ∧ ∃ x', tasks s' !! t = Some x' ∧ t_state x' = T_READY).
Proof.
  intros H0 Hs. pose proof (inv_reach qs T S H0 Hs) as HI. split.
  - intros t q p now ms Hp Hrun. pose proof (wait_step S t q p now ms HI Hp Hrun) as H. destruct p; try done; destruct H as (p' & s' & -> & _); by eexists.
  - intros t q w x Hp Hx Hb Hc. destruct (i_q _ HI t q _ Hp) as ([h Hh] & _ & Hw). destruct (i_t _ HI t q _ Hp) as (y & Hy & [O1 O2 O3 O4 O5]); [exists x; by rewrite Hb|done|]. cbn in *.
    destruct (decide (t ∈ late S)) as [|Hnl]; [by left|right].
    assert (w_fired y = 0) as Hf. { destruct (decide (w_fired y = 0)) as [|Hf]; [done|]. destruct (O5 eq_refl Hf) as [?|O5']; [done|]. by destruct (O5' x Hx). }
    split; [|split].
    + destruct (O4 eq_refl Hc) as [?|Hpend]; [done|exact Hpend].
    + exists h. split; [done|]. apply (member_head (pool S) q w h (i_wf _ HI) (O3 eq_refl)); [|done]. by apply (queue_ne0 (pool S)); [apply (i_wf _ HI)|exists h].
    + destruct (wake_ok (pool S) q h (i_wf _ HI) Hh) as (s' & Hs' & _ & [[_ W2 _] _] & _). exists s'. split; [exact Hs'|]. exists (ready x). split; [apply (W2 t x Hx); exists w, y; split; [by apply O3|done]|].
      unfold ready. by rewrite Hb.
Qed.

(** A kill between the test and the store of a [task_ready] is undone: the dead task
    is ready again. *)
Lemma kill_undone s t x : tasks s !! t = Some x → t_state x = T_BLOCKED →
  ∃ s1 S, task_kill s t = Some s1 ∧ ¬ t_live s1 t ∧
    rtc (step true) (Sys s ∅ ∅ [] []) (Sys s1 ∅ ∅ [] [t]) ∧ step true (Sys s1 ∅ ∅ [] [t]) S ∧ running (pool S) t.
Proof.
  intros Hx Hb. set (T1 := <[t := {| x with t_state := T_DEAD |}]> (tasks s)). set (s1 := {| s with tasks := T1 |}).
  assert (task_kill s t = Some s1) as Hk by (unfold task_kill; by rewrite Hx).
  assert (tasks s1 !! t = Some {| x with t_state := T_DEAD |}) as H1 by apply lookup_insert_eq.
  eexists s1, _. split; [exact Hk|]. split; [|split; [|split]].
  - intros (y & Hy & _ & Hd). rewrite H1 in Hy. injection Hy as <-. by apply Hd.
  - eapply rtc_l; [apply (s_test _ _ t x); [exact Hx|exact Hb]|]. eapply rtc_l; [apply (s_kill _ _ t s1); exact Hk|]. apply rtc_refl.
  - eapply (s_store _ (Sys s1 ∅ ∅ [] [t]) [] t []); [reflexivity|exact H1|by left|reflexivity].
  - eexists. split; [apply lookup_insert_eq|]. done.
Qed.

(** ** A run: a thread goes to sleep, then its condition becomes true *)

Lemma free_w_1 s y : ws s !! 1 = Some y → w_used y = false → free_w s = Some 1.
Proof. intros Hy Hu. unfold free_w. rewrite (seqZ_cons 1 NW) by done. cbn [first_some]. by rewrite Hy, Hu. Qed.

Lemma free_e_1 s x : ents s !! 1 = Some x → e_used x = false → free_e s = Some 1.
Proof. intros Hy Hu. unfold free_e. rewrite (seqZ_cons 1 NENT) by done. cbn [first_some]. by rewrite Hy, Hu. Qed.

Lemma blank_at {A} (x : A) n k : 1 ≤ k ≤ n → (gset_to_gmap x (list_to_set (seqZ 1 n)) : gmap Z A) !! k = Some x.
Proof. intros Hk. apply lookup_gset_to_gmap_Some. split; [|done]. apply elem_of_list_to_set, elem_of_seqZ. lia. Qed.

Lemma step_look_no S t q w p : thr S !! t = Some (q, Look w) → running (pool S) t → (q ∉ cond S) → p = (if w =? 0 then First else Entering w) →
  step false S {| S with thr := <[t := (q, p)]> (thr S) |}.
Proof. intros H1 H2 H3 ->. pose proof (s_look false S t q w H1 H2) as H. unfold after_look in H. by rewrite bool_decide_eq_false_2 in H. Qed.

Lemma q1000 : 1000 ∈ ({[1000; 2000]} : gset Z).
Proof. apply elem_of_union_l, elem_of_singleton. reflexivity. Qed.

Lemma small_waiter : ∃ s, wq_waiter small0 1 = Some (1, s) ∧ ents s = ents small0 ∧ heads s = heads small0 ∧ tasks s = tasks small0 ∧ ws s !! 1 = Some (WqW 1 0 true 0).
Proof.
  assert (ws small0 !! 1 = Some blank_w) as Hw by (apply blank_at; unfold NW; lia).
  unfold wq_waiter, search. rewrite (free_w_1 small0 blank_w Hw eq_refl). cbn [mbind option_bind]. change (1 =? 0) with false. cbv iota. unfold upd_w. rewrite Hw. cbn [mbind option_bind].
  eexists. split; [reflexivity|]. cbn [ents heads tasks ws]. split_and!; [reflexivity..|apply lookup_insert_eq].
Qed.

Lemma small_add s : ents s = ents small0 → heads s = heads small0 → tasks s = tasks small0 → ws s !! 1 = Some (WqW 1 0 true 0) →
  ∃ s', wq_add s 1000 1 = Some (1, s') ∧ tasks s' = tasks small0 ∧ ws s' !! 1 = Some (WqW 1 0 true 1) ∧ is_Some (heads s' !! 1000).
Proof.
  intros He Hh Ht Hw. assert (ents s !! 1 = Some blank_ent) as Hb by (rewrite He; apply blank_at; unfold NENT; lia).
  assert (heads s !! 1000 = Some 0) as Hq by (rewrite Hh; apply lookup_gset_to_gmap_Some; split; [apply q1000|reflexivity]).
  unfold wq_add. rewrite (ent_new_eq s 1000 1 s) by (unfold search; by rewrite (free_e_1 s blank_ent Hb eq_refl)). change (1 =? 0) with false. cbv iota.
  unfold ent_link. rewrite Hq. cbn [mbind option_bind]. unfold upd_ent. rewrite Hb. cbn [mbind option_bind]. change (nz 0) with false. cbv iota. cbn [mbind option_bind].
  unfold set_head. cbn [heads]. rewrite Hq. cbn [mbind option_bind]. change (1 =? 0) with false. cbv iota. cbn [ws]. rewrite Hw. cbn [mbind option_bind]. cbn [ents]. rewrite lookup_insert_eq. cbn [mbind option_bind].
  unfold upd_w. cbn [ws]. rewrite Hw. cbn [mbind option_bind]. eexists. split; [reflexivity|]. cbn [tasks ws heads]. split; [exact Ht|]. rewrite !lookup_insert_eq. split; [reflexivity|]. by eexists.
Qed.

Lemma no_lost_wakeup_witness : ∃ S x s' x', rtc (step false) (Sys small0 ∅ ∅ [] []) S ∧ thr S !! 1 = Some (1000, Asleep 1) ∧
  tasks (pool S) !! 1 = Some x ∧ t_state x = T_BLOCKED ∧ 1000 ∈ cond S ∧ late S = [] ∧ wake_locked (pool S) 1000 = Some s' ∧ tasks s' !! 1 = Some x' ∧ t_state x' = T_READY.
Proof.
  assert (∃ S x, rtc (step false) (Sys small0 ∅ ∅ [] []) S ∧ thr S !! 1 = Some (1000, Asleep 1) ∧ tasks (pool S) !! 1 = Some x ∧ t_state x = T_BLOCKED ∧ 1000 ∈ cond S ∧ late S = []) as (S & x & H1 & H2 & H3 & H4 & H5 & H6).
  { destruct small_waiter as (sa & Ea & A1 & A2 & A3 & A4). destruct (small_add sa A1 A2 A3 A4) as (sb & Eb & B1 & B2 & B3).
    assert (tasks small0 !! 1 = Some (Task 1 T_READY 0)) as Ht by (vm_compute; reflexivity).
    assert (running small0 1) as R0 by (exists (Task 1 T_READY 0); done). assert (running sa 1) as Ra by (exists (Task 1 T_READY 0); by rewrite A3). assert (running sb 1) as Rb by (exists (Task 1 T_READY 0); by rewrite B1).
    assert (is_Some (heads small0 !! 1000)) as Hq by (exists 0; apply lookup_gset_to_gmap_Some; split; [apply q1000|reflexivity]).
    eexists _, (Task 1 T_BLOCKED 10). split.
    - eapply rtc_l; [apply (s_start _ _ 1 1000); [reflexivity|exact R0|exact Hq]|]. cbn [pool cond thr prods late].
      eapply rtc_l; [eapply (step_look_no _ 1 1000 0 First); [apply lookup_insert_eq|exact R0|apply not_elem_of_empty|reflexivity]|]. cbn [pool cond thr prods late].
      eapply rtc_l; [eapply (s_wait _ _ 1 1000 First _ _ 0 10); [apply lookup_insert_eq|exact R0|]; cbn [wq_wait pool]; rewrite Ea; reflexivity|]. cbn [pool cond thr prods late]. change (1 =? 0) with false. cbv iota.
      eapply rtc_l; [eapply (s_wait _ _ 1 1000 (Queue 1) _ _ 0 10); [apply lookup_insert_eq|exact Ra|]; cbn [wq_wait pool]; rewrite Eb; reflexivity|]. cbn [pool cond thr prods late]. change (1 =? 0) with false. cbv iota.
      eapply rtc_l; [eapply (step_look_no _ 1 1000 1 (Entering 1)); [apply lookup_insert_eq|exact Rb|apply not_elem_of_empty|reflexivity]|]. cbn [pool cond thr prods late].
      eapply rtc_l; [eapply (s_wait _ _ 1 1000 (Entering 1) _ _ 0 10); [apply lookup_insert_eq|exact Rb|]; cbn [wq_wait pool]; unfold sleep_enter; rewrite B2; cbn [mbind option_bind w_t]; rewrite B1, Ht; cbn; reflexivity|]. cbn [pool cond thr prods late].
      eapply rtc_l; [eapply (s_post _ _ 1000); exact B3|]. apply rtc_refl.
    - cbn [pool cond thr prods late tasks]. split; [apply lookup_insert_eq|]. split; [apply lookup_insert_eq|]. split; [reflexivity|]. split; [apply elem_of_union_l, elem_of_singleton; reflexivity|reflexivity]. }
  destruct (no_lost_wakeup {[1000; 2000]} tasks3 S) as [_ H].
  { intros [?%elem_of_singleton|?%elem_of_singleton]%elem_of_union; lia. } { exact H1. }
  destruct (H 1 1000 1 x H2 H3 H4 H5) as [Hl|(_ & _ & s' & Hs' & x' & Hx' & Hr)]; [rewrite H6 in Hl; by apply elem_of_nil in Hl|]. exists S, x, s', x'. split_and!; assumption.
Defined.

End WqRun.
