(* ===== verification/Inotify.v ===== *)
(** * File system events (src/src/proc/inotify.c)

    An instance is a file with a ring of bytes ([pipe_t], file.h) that holds whole
    records; a table of watches says which instance hears of which node.  Nodes are
    those of [Fs].  The buffer is a sparse array, a byte that was never written is
    0; [woken] counts the calls of [wq_wake] on the queue of the ring. *)

From S2P Require Import Prelude Fs.

Module Inotify.
Import Fs.

Definition PIPE_SZ : Z := 65536.
Definition IN_ISDIR : Z := 0x40000000.
Definition IN_IGNORED : Z := 0x8000.
Definition IN_ONESHOT : Z := 0x80000000.
Definition IN_Q_OVERFLOW : Z := 0x4000.
Definition MAXW : Z := 8192.
Definition EV_MAX : Z := 160.

Record pipe := Pipe { buf : gmap Z Z; head : Z; tail : Z; count : Z; woken : Z }.

(** Of [file_t] what the instance uses: the ring, where the last record starts
    (plus 1), the last watch descriptor, [O_NONBLOCK]. *)
Record file := File { fpipe : option pipe; cnt : Z; disk : Z; nonblock : bool }.

Record watch := Iw { w_f : Z; w_wd : Z; w_n : Z; w_mask : Z }.

(** [ws] is the part of the table in use, [nw] its length. *)
Record st := St { files : gmap Z file; ws : list watch }.

Definition nw (s : st) : Z := Z.of_nat (length (ws s)).

Definition key (m : gmap Z fs_node) (n : Z) : option Z :=
  x ← m !! n; Some (if nz (n_hl x) then n_hl x else n).

Definition rd (p : pipe) (off n : Z) : list Z :=
  (λ i, default 0 (buf p !! ((off + i) mod PIPE_SZ))) <$> upto n.

(** [for (i = 0; i < tot; i++) p->buf[(p->head + i) % PIPE_SZ] = ev[i]] *)
Fixpoint wr (b : gmap Z Z) (h i : Z) (ev : list Z) : gmap Z Z :=
  match ev with [] => b | x :: ev => wr (<[(h + i) mod PIPE_SZ := x]> b) h (i + 1) ev end.

(** The length of a record's name, with its NUL and padded to 16. *)
Definition name_len (name : option (list Z)) : Z :=
  match name with None => 0 | Some s => Z.land (Z.of_nat (length s) + 16) (Z.lnot 15) end.

(** The record, built in [ev\[160\]]. *)
Definition event (wd mask cookie : Z) (name : option (list Z)) : option (list Z) :=
  let nl := name_len name in
  let s := default [] name in
  if 16 + nl <=? EV_MAX then
    Some (le_bytes 4 wd ++ le_bytes 4 mask ++ le_bytes 4 cookie ++ le_bytes 4 nl ++ s ++ replicate (Z.to_nat nl - length s) 0)
  else None.

(** Is the record the same as the last one, and that one not yet read? *)
Definition same_last (p : pipe) (cnt : Z) (ev : list Z) : bool :=
  let tot := Z.of_nat (length ev) in
  nz cnt && ((head p - (cnt - 1) + PIPE_SZ) mod PIPE_SZ =? tot) && (tot <=? count p)
  && bool_decide (rd p (cnt - 1) tot = ev)
  && ((cnt - 1 - tail p + PIPE_SZ) mod PIPE_SZ <? count p).

Definition store (x : file) (p : pipe) (ev : list Z) : file :=
  let tot := Z.of_nat (length ev) in
  {| x with cnt := head p + 1;
     fpipe := Some (Pipe (wr (buf p) (head p) 0 ev) ((head p + tot) mod PIPE_SZ) (tail p) (count p + tot) (woken p + 1)) |}.

(** [put] on the instance itself; it calls itself at most once, for the overflow. *)
Fixpoint put_file (depth : nat) (x : file) (wd mask cookie : Z) (name : option (list Z)) : option file :=
  p ← fpipe x;
  ev ← event wd mask cookie name;
  if same_last p (cnt x) ev then Some x else
  if PIPE_SZ - (if mask =? IN_Q_OVERFLOW then 0 else 16) <? count p + Z.of_nat (length ev) then
    if mask =? IN_Q_OVERFLOW then Some x else
    match depth with O => None | S d => put_file d x (-1) IN_Q_OVERFLOW 0 None end
  else Some (store x p ev).

Definition put (s : st) (f wd mask cookie : Z) (name : option (list Z)) : option st :=
  x ← files s !! f;
  x ← put_file 1 x wd mask cookie name;
  Some {| s with files := <[f := x]> (files s) |}.

(** [ws\[i\] = ws\[--nw\]] *)
Definition drop_at (l : list watch) (i : Z) : option (list watch) :=
  x ← last l;
  l ← l.[i <- x];
  Some (take (length l - 1) l).

Definition drop_w (s : st) (i : Z) : option st := l ← drop_at (ws s) i; Some {| s with ws := l |}.

Definition hears (n mask : Z) (w : watch) : bool :=
  (w_n w =? n) && nz (Z.land (Z.land (w_mask w) mask) 0xFFF).

Definition oneshot (w : watch) : bool := nz (Z.land (w_mask w) IN_ONESHOT).

(** What a watch that hears an event does; [true]: it goes away. *)
Definition ev_one (s : st) (w : watch) (mask : Z) (name : option (list Z)) (cookie : Z) : option (bool * st) :=
  s ← put s (w_f w) (w_wd w) mask cookie name;
  if oneshot w then s ← put s (w_f w) (w_wd w) IN_IGNORED 0 None; Some (true, s) else Some (false, s).

(** The loops over the table that drop entries under their feet, from index [i];
    [act] says what an entry does: nothing, or something and whether it goes. *)
Fixpoint sweep (fuel : nat) (act : st → watch → option (bool * st)) (s : st) (i : Z) : option st :=
  if i <? nw s then
    match fuel with
    | O => None
    | S fuel =>
        w ← (ws s).[i];
        '(gone, s) ← act s w;
        if gone : bool then s ← drop_w s i; sweep fuel act s i else sweep fuel act s (i + 1)
    end
  else Some s.

Definition ino_ev (m : gmap Z fs_node) (s : st) (n mask : Z) (name : option (list Z)) (cookie : Z) : option st :=
  if (nw s =? 0) || (n =? 0) then Some s else
  n ← key m n;
  sweep (length (ws s)) (λ s w, if hears n mask w then ev_one s w mask name cookie else Some (false, s)) s 0.

Definition ino_any (s : st) : Z := nw s.

Definition ino_node (m : gmap Z fs_node) (s : st) (n mask : Z) : option st :=
  if (nw s =? 0) || (n =? 0) then Some s else
  x ← m !! n;
  let mask := if is_dir x then Z.lor mask IN_ISDIR else mask in
  s ← ino_ev m s n mask None 0;
  if nz (n_parent x) then ino_ev m s (n_parent x) mask (Some (n_name x)) 0 else Some s.

Definition ino_gone (m : gmap Z fs_node) (s : st) (n : Z) (self : bool) : option st :=
  if (nw s =? 0) || (n =? 0) then Some s else
  k ← key m n;
  s ← (if self then ino_ev m s k 0x400 None 0 else Some s);
  sweep (length (ws s)) (λ s w, if w_n w =? k then s ← put s (w_f w) (w_wd w) IN_IGNORED 0 None; Some (true, s) else Some (false, s)) s 0.

Definition ino_add (m : gmap Z fs_node) (s : st) (f n mask : Z) : option (Z * st) :=
  n ← key m n;
  match find_from 0 (λ w, (w_f w =? f) && (w_n w =? n)) (ws s) with
  | Some i =>
      w ← (ws s).[i];
      if nz (Z.land mask 0x10000000) then Some (-17, s) else
      l ← (ws s).[i <- {| w with w_mask := if nz (Z.land mask 0x20000000) then Z.lor (w_mask w) mask else mask |}];
      Some (w_wd w, {| s with ws := l |})
  | None =>
      if nw s =? MAXW then Some (-28, s) else
      x ← files s !! f;
      let wd := i32 (disk x + 1) in
      Some (wd, St (<[f := {| x with disk := wd |}]> (files s)) (ws s ++ [Iw f wd n mask]))
  end.

Definition ino_rm (s : st) (f wd : Z) : option (Z * st) :=
  match find_from 0 (λ w, (w_f w =? f) && (w_wd w =? wd)) (ws s) with
  | Some i => s ← put s f wd IN_IGNORED 0 None; s ← drop_w s i; Some (0, s)
  | None => Some (-22, s)
  end.

Definition ino_close (s : st) (f : Z) : option st :=
  s ← sweep (length (ws s)) (λ s w, Some (w_f w =? f, s)) s 0;
  x ← files s !! f;
  _ ← fpipe x;
  Some {| s with files := <[f := {| x with fpipe := None |}]> (files s) |}.

(** [f] is the address [file_new] got, 0 for none; [room] whether the ring was
    found. *)
Definition ino_new (s : st) (f : Z) (room : bool) (fl : Z) : Z * st :=
  if f =? 0 then (0, s) else
  if room then (f, {| s with files := <[f := File (Some (Pipe ∅ 0 0 0 0)) 0 0 (nz (Z.land fl 0x800))]> (files s) |}) else (0, s).

(** What [ino_read] comes to without sleeping. *)
Inductive rres := Ret (r : Z) (bytes : list Z) (p : pipe) | Sleep.

(** Its loop, with the bytes got so far. *)
Fixpoint read_loop (fuel : nat) (p : pipe) (block intr : bool) (n : Z) (got : list Z) : option rres :=
  let g := Z.of_nat (length got) in
  if count p =? 0 then
    Some (if 0 <? g then Ret g got p else if negb block then Ret (-11) [] p else if intr then Ret (-4) [] p else Sleep)
  else
    let len := le_val (rd p (tail p + 12) 4) in
    let tot := u32 (16 + len) in
    if n - g <? tot then Some (if 0 <? g then Ret g got p else Ret (-22) [] p) else
    if EV_MAX <? tot then None else
    match fuel with
    | O => None
    | S fuel =>
        read_loop fuel (Pipe (buf p) (head p) ((tail p + tot) mod PIPE_SZ) (count p - tot) (woken p)) block intr n (got ++ rd p (tail p) tot)
    end.

(** A record has 16 bytes at least. *)
Definition ino_read (s : st) (f : Z) (intr : bool) (n : Z) : option (rres * st) :=
  x ← files s !! f;
  p ← fpipe x;
  r ← read_loop (Z.to_nat (count p / 16)) p (negb (nonblock x)) intr n [];
  Some (r, match r with Ret _ _ p => {| s with files := <[f := {| x with fpipe := Some p |}]> (files s) |} | Sleep => s end).

(** ** The ring holds whole records *)

Definition len (l : list Z) : Z := Z.of_nat (length l).

Lemma mod_inj a b : a mod PIPE_SZ = b mod PIPE_SZ → - PIPE_SZ < a - b < PIPE_SZ → a = b.
Proof. unfold PIPE_SZ. intros H1 H2. pose proof (Z.div_mod a 65536). pose proof (Z.div_mod b 65536). lia. Qed.

Lemma rd_length p off n : length (rd p off n) = Z.to_nat n.
Proof. unfold rd, upto. by rewrite length_fmap, length_seqZ. Qed.

Lemma rd_app p off a b : 0 ≤ a → 0 ≤ b → rd p off (a + b) = rd p off a ++ rd p (off + a) b.
Proof.
  intros Ha Hb. unfold rd, upto. rewrite seqZ_app, fmap_app by lia. f_equal. replace (0 + a) with (a + 0) by lia. rewrite <- (fmap_add_seqZ a 0 b), <- list_fmap_compose.
  apply list_fmap_ext. intros i k _. cbn. do 3 f_equal. lia.
Qed.

Lemma rd_mod p off n : rd p (off mod PIPE_SZ) n = rd p off n.
Proof. unfold rd. apply list_fmap_ext. intros i k _. by rewrite Zplus_mod_idemp_l. Qed.

(** A part of a range. *)
Lemma rd_sub p off n a b : 0 ≤ a → 0 ≤ b → a + b ≤ n → rd p (off + a) b = take (Z.to_nat b) (skipn (Z.to_nat a) (rd p off n)).
Proof.
  intros Ha Hb Hn. replace n with (a + (b + (n - a - b))) by lia. rewrite (rd_app p off a), (rd_app p (off + a) b) by lia.
  rewrite drop_app_length' by (by rewrite rd_length). by rewrite take_app_length' by (by rewrite rd_length).
Qed.

Lemma wr_miss ev : ∀ b h i k, (∀ j, 0 ≤ j < len ev → k ≠ (h + i + j) mod PIPE_SZ) → wr b h i ev !! k = b !! k.
Proof.
  induction ev as [|x ev IH]; intros b h i k Hk; [done|]. unfold len in *. cbn [wr length] in *. rewrite IH.
  - rewrite lookup_insert_ne; [done|]. specialize (Hk 0). rewrite Z.add_0_r in Hk. intros E. apply Hk; [lia|congruence].
  - intros j Hj. replace (h + (i + 1) + j) with (h + i + (j + 1)) by lia. apply Hk. lia.
Qed.

Lemma wr_hit ev : ∀ b h i j, len ev ≤ PIPE_SZ → 0 ≤ j < len ev → wr b h i ev !! ((h + i + j) mod PIPE_SZ) = ev !! Z.to_nat j.
Proof.
  induction ev as [|x ev IH]; intros b h i j Hl Hj; unfold len in *; cbn [length] in *; [lia|]. cbn [wr]. destruct (decide (j = 0)) as [->|Hj0].
  - rewrite Z.add_0_r, wr_miss; [by rewrite lookup_insert_eq|]. intros k Hk E. unfold len in Hk. apply mod_inj in E; unfold PIPE_SZ in *; lia.
  - replace (h + i + j) with (h + (i + 1) + (j - 1)) by lia. rewrite IH by lia. replace (Z.to_nat j) with (S (Z.to_nat (j - 1))) by lia. done.
Qed.

Lemma rd_written p h ev w c t : len ev ≤ PIPE_SZ → rd (Pipe (wr (buf p) h 0 ev) w t c 0) h (len ev) = ev.
Proof.
  intros Hl. apply list_eq. intros i. destruct (decide (i < length ev)%nat) as [Hi|Hi].
  - unfold rd. rewrite list_lookup_fmap. unfold upto. rewrite (lookup_seqZ_lt 0 (len ev) i) by (unfold len; lia). cbn [fmap option_fmap option_map buf]. rewrite Z.add_0_l.
    replace (h + Z.of_nat i) with (h + 0 + Z.of_nat i) by lia. rewrite wr_hit by (unfold len in *; lia). rewrite Nat2Z.id. destruct (lookup_lt_is_Some_2 ev i Hi) as [x ->]. done.
  - rewrite (lookup_ge_None_2 ev) by lia. apply lookup_ge_None_2. rewrite rd_length. unfold len. lia.
Qed.

Lemma rd_kept p t c ev q : 0 ≤ c → c + len ev ≤ PIPE_SZ → buf q = wr (buf p) ((t + c) mod PIPE_SZ) 0 ev → rd q t c = rd p t c.
Proof.
  intros Hc Hl Hq. unfold rd. apply list_fmap_ext. intros i k Hk. apply list_elem_of_lookup_2, upto_elem in Hk. rewrite Hq, wr_miss; [done|].
  intros j Hj E. rewrite Z.add_0_r, Zplus_mod_idemp_l in E. apply mod_inj in E; unfold PIPE_SZ in *; lia.
Qed.

(** *** Records *)

Definition OVF : list Z := le_bytes 4 (-1) ++ le_bytes 4 IN_Q_OVERFLOW ++ le_bytes 4 0 ++ le_bytes 4 0.

(** A record says how long it is. *)
Definition good (r : list Z) : Prop := 16 ≤ len r ≤ EV_MAX ∧ le_val (take 4 (skipn 12 r)) = len r - 16.

Lemma name_len_ok name : 0 ≤ name_len name ∧ (∀ s, name = Some s → len s < name_len name).
Proof.
  destruct name as [s|]; cbn [name_len]; [|split; [lia|done]]. rewrite <- Z.ldiff_land. set (x := len s + 16).
  assert (Z.ldiff x 15 = x - x mod 16) as E. { change 15 with (Z.ones 4). rewrite Z.ldiff_ones_r by lia. rewrite Z.shiftr_div_pow2, Z.shiftl_mul_pow2 by lia. change (2 ^ 4) with 16. pose proof (Z.div_mod x 16 ltac:(lia)). lia. }
  unfold x, len in *. rewrite E. pose proof (Z.mod_pos_bound (Z.of_nat (length s) + 16) 16). split; [lia|]. intros s' [= <-]. lia.
Qed.

Lemma event_good wd mask cookie name ev : event wd mask cookie name = Some ev → good ev ∧ len ev = 16 + name_len name.
Proof.
  unfold event. destruct (16 + name_len name <=? EV_MAX) eqn:E; [|done]. bools. intros <-%(inj Some). destruct (name_len_ok name) as [H1 H2].
  assert (len (default [] name) ≤ name_len name) as H3. { destruct name as [s|]; [change (len s ≤ name_len (Some s)); specialize (H2 s eq_refl); lia|done]. }
  pose proof (le_bytes_ok 4 wd) as [L1 _]. pose proof (le_bytes_ok 4 mask) as [L2 _]. pose proof (le_bytes_ok 4 cookie) as [L3 _]. pose proof (le_bytes_ok 4 (name_len name)) as [L4 _].
  set (l1 := le_bytes 4 wd) in *. set (l2 := le_bytes 4 mask) in *. set (l3 := le_bytes 4 cookie) in *.
  match goal with |- good ?l ∧ _ => assert (len l = 16 + name_len name) as HL end.
  { unfold len in *. rewrite !length_app, L1, L2, L3, L4, length_replicate. lia. }
  split; [|done]. split; [rewrite HL; lia|]. rewrite HL. rewrite (app_assoc l1), (app_assoc (l1 ++ l2)), drop_app_length' by (rewrite !length_app, L1, L2, L3; lia). rewrite take_app_length' by done. rewrite le_val_bytes, Z.mod_small; [lia|]. unfold EV_MAX in *. lia.
Qed.

(** The ring of instance [x] holds the records [R], the oldest first. *)
Record ring_ok (x : file) (R : list (list Z)) (p : pipe) : Prop := {
  g_p : fpipe x = Some p;
  g_head : head p = (tail p + count p) mod PIPE_SZ;
  g_tail : 0 ≤ tail p < PIPE_SZ;
  g_count : count p = len (concat R);
  g_max : count p ≤ PIPE_SZ;
  g_room : last R ≠ Some OVF → count p ≤ PIPE_SZ - 16;
  g_bytes : rd p (tail p) (count p) = concat R;
  g_good : Forall good R;
  g_last : ∀ r, last R = Some r → cnt x = 1 + (head p - len r) mod PIPE_SZ
}.

Lemma len_app l k : len (l ++ k) = len l + len k.
Proof. unfold len. rewrite length_app. lia. Qed.

Lemma concat_snoc (R : list (list Z)) r : concat (R ++ [r]) = concat R ++ r.
Proof. rewrite concat_app. cbn. by rewrite app_nil_r. Qed.

Lemma same_last_spec x R p ev : ring_ok x R p → 16 ≤ len ev ≤ EV_MAX → same_last p (cnt x) ev = bool_decide (last R = Some ev).
Proof.
  intros [G1 G2 G3 G4 G5 G6 G7 G8 G9] Hl. unfold same_last. fold (len ev). destruct R as [|r R _] using rev_ind.
  { rewrite (bool_decide_eq_false_2 (last [] = Some ev)) by done. change (len (concat [])) with 0 in G4. rewrite (proj2 (Z.leb_gt (len ev) (count p))) by lia. by rewrite andb_false_r. }
  rewrite last_snoc in *. specialize (G9 r eq_refl). apply Forall_app in G8 as [_ [[Gr _] _]%Forall_cons]. rewrite concat_snoc, len_app in *. unfold EV_MAX, PIPE_SZ in *.
  set (c := (head p - len r) mod 65536) in *. pose proof (Z.mod_pos_bound (head p - len r) 65536 ltac:(lia)) as Hc. fold c in Hc. rewrite G9. replace (1 + c - 1) with c by lia.
  assert ((head p - c + 65536) mod 65536 = len r) as E1.
  { unfold c. rewrite <- (Z.mod_add (head p - _ + 65536) (-1) 65536) by lia. replace (head p - (head p - len r) mod 65536 + 65536 + -1 * 65536) with (head p - (head p - len r) mod 65536) by lia.
    rewrite Zminus_mod_idemp_r. replace (head p - (head p - len r)) with (len r) by lia. apply Z.mod_small. lia. }
  assert (0 ≤ len (concat R)) as HR by (unfold len; lia).
  assert (c = (tail p + len (concat R)) mod 65536) as Ec. { unfold c. rewrite G2, G4, Zminus_mod_idemp_l. f_equal. lia. }
  assert ((c - tail p + 65536) mod 65536 < count p) as E2.
  { rewrite Ec. rewrite <- (Z.mod_add (_ - tail p + 65536) (-1) 65536) by lia. replace ((tail p + len (concat R)) mod 65536 - tail p + 65536 + -1 * 65536) with ((tail p + len (concat R)) mod 65536 - tail p) by lia.
    rewrite Zminus_mod_idemp_l. replace (tail p + len (concat R) - tail p) with (len (concat R)) by lia. rewrite Z.mod_small; lia. }
  assert (rd p c (len r) = r) as E3.
  { change 65536 with PIPE_SZ in Ec. rewrite Ec, rd_mod, (rd_sub p (tail p) (count p)) by lia. rewrite G7. rewrite drop_app_length' by (unfold len; lia). apply take_ge. unfold len. lia. }
  rewrite E1, (proj2 (Z.ltb_lt _ _) E2), andb_true_r. unfold nz. rewrite (proj2 (Z.eqb_neq (1 + c) 0)) by lia. cbn [negb andb].
  destruct (Z.eqb_spec (len r) (len ev)) as [E|E]; cbn [andb]; [|symmetry; apply bool_decide_eq_false_2; congruence].
  rewrite (proj2 (Z.leb_le _ _)) by lia. cbn [andb]. apply bool_decide_ext. rewrite <- E, E3. split; congruence.
Qed.

Lemma ino_store_ok x R p ev : ring_ok x R p → good ev → count p + len ev ≤ PIPE_SZ → (ev ≠ OVF → count p + len ev ≤ PIPE_SZ - 16) →
  ∃ p', ring_ok (store x p ev) (R ++ [ev]) p'.
Proof.
  intros [G1 G2 G3 G4 G5 G6 G7 G8 G9] Hg Hf Hf'. assert (0 ≤ len ev) as H0 by (unfold len; lia). assert (0 ≤ len (concat R)) as HR by (unfold len; lia).
  eexists. split; [reflexivity|..]; cbn; fold (len ev).
  - rewrite G2, Zplus_mod_idemp_l. f_equal. lia.
  - done.
  - rewrite concat_snoc, len_app. lia.
  - done.
  - rewrite last_snoc. intros Hn. apply Hf'. intros ->. by apply Hn.
  - rewrite concat_snoc, rd_app by lia. f_equal.
    + rewrite (rd_kept p (tail p) (count p) ev); [done|lia|lia|cbn; by rewrite <- G2].
    + rewrite <- (rd_mod _ (tail p + count p)), <- G2. pose proof (rd_written p (head p) ev 0 0 0) as Hw. apply Hw. lia.
  - apply Forall_app. split; [done|]. by constructor.
  - intros r. rewrite last_snoc. intros [= <-]. fold (len ev). rewrite Zminus_mod_idemp_l. replace (head p + len ev - len ev) with (head p) by lia.
    rewrite Z.mod_small; [lia|]. rewrite G2. apply Z.mod_pos_bound. done.
Qed.

(** What an event does to the queue of an instance: nothing if it repeats the last
    record; otherwise it is added, or the mark of an overflow is. *)
Definition a_put (R : list (list Z)) (ev : list Z) : list (list Z) :=
  if bool_decide (last R = Some ev) then R else
  if len (concat R) + len ev <=? PIPE_SZ - 16 then R ++ [ev] else
  if bool_decide (last R = Some OVF) then R else R ++ [OVF].

Lemma put_file_eq d x wd mask cookie name p ev : fpipe x = Some p → event wd mask cookie name = Some ev →
  put_file d x wd mask cookie name = if same_last p (cnt x) ev then Some x else
    if PIPE_SZ - (if mask =? IN_Q_OVERFLOW then 0 else 16) <? count p + len ev then
      if mask =? IN_Q_OVERFLOW then Some x else match d with O => None | S d => put_file d x (-1) IN_Q_OVERFLOW 0 None end
    else Some (store x p ev).
Proof. intros H1 H2. destruct d; cbn [put_file]; rewrite H1; cbn [mbind option_bind]; rewrite H2; reflexivity. Qed.

Definition same_file (x x' : file) : Prop := disk x' = disk x ∧ nonblock x' = nonblock x.

Lemma put_file_ok x R p wd mask cookie name ev : ring_ok x R p → event wd mask cookie name = Some ev → mask ≠ IN_Q_OVERFLOW →
  ∃ x' p', put_file 1 x wd mask cookie name = Some x' ∧ ring_ok x' (a_put R ev) p' ∧ same_file x x'.
Proof.
  intros HR He Hm. destruct (event_good _ _ _ _ _ He) as [Hg _]. rewrite (put_file_eq _ _ _ _ _ _ _ _ (g_p _ _ _ HR) He), (same_last_spec x R p ev HR (proj1 Hg)). unfold a_put.
  destruct (bool_decide (last R = Some ev)) eqn:E1; [by exists x, p|]. rewrite (proj2 (Z.eqb_neq _ _) Hm). rewrite (g_count _ _ _ HR).
  destruct (Z.ltb_spec (PIPE_SZ - 16) (len (concat R) + len ev)) as [Hl|Hl].
  - rewrite (proj2 (Z.leb_gt _ _)) by lia. assert (good OVF) as Ho by (by apply (event_good (-1) IN_Q_OVERFLOW 0 None)).
    rewrite (put_file_eq 0 x (-1) IN_Q_OVERFLOW 0 None p OVF (g_p _ _ _ HR) eq_refl), (same_last_spec x R p OVF HR (proj1 Ho)).
    destruct (bool_decide (last R = Some OVF)) eqn:E2; [by exists x, p|]. apply bool_decide_eq_false in E2. pose proof (g_room _ _ _ HR E2). change (IN_Q_OVERFLOW =? IN_Q_OVERFLOW) with true. cbv iota.
    change (len OVF) with 16. rewrite (proj2 (Z.ltb_ge _ _)) by lia. destruct (ino_store_ok x R p OVF HR Ho) as [p' Hp']; [change (len OVF) with 16; lia|done|]. by exists (store x p OVF), p'.
  - rewrite (proj2 (Z.leb_le _ _)) by lia. destruct (ino_store_ok x R p ev HR Hg) as [p' Hp']; [rewrite (g_count _ _ _ HR); lia..|]. by exists (store x p ev), p'.
Qed.

(** The longest run of whole records that fit in [n] bytes, and the rest. *)
Fixpoint a_read (R : list (list Z)) (n : Z) : list (list Z) * list (list Z) :=
  match R with
  | [] => ([], [])
  | r :: R' => if len r <=? n then let '(a, b) := a_read R' (n - len r) in (r :: a, b) else ([], R)
  end.

Lemma read_one x r R p : ring_ok x (r :: R) p → le_val (rd p (tail p + 12) 4) = len r - 16 ∧ rd p (tail p) (len r) = r ∧ 16 ≤ len r ≤ EV_MAX ∧ len r ≤ count p ∧
  let p' := Pipe (buf p) (head p) ((tail p + len r) mod PIPE_SZ) (count p - len r) (woken p) in ring_ok {| x with fpipe := Some p' |} R p'.
Proof.
  intros [G1 G2 G3 G4 G5 G6 G7 G8 G9]. apply Forall_cons in G8 as [[Gr Gv] G8]. cbn [concat] in *. rewrite len_app in G4. assert (0 ≤ len (concat R)) as HR by (unfold len; lia). unfold EV_MAX in *.
  assert (rd p (tail p) (len r) = r) as E.
  { replace (tail p) with (tail p + 0) by lia. rewrite (rd_sub p (tail p) (count p)) by lia. rewrite G7. cbn [skipn]. apply take_app_length'. unfold len. lia. }
  split; [|split; [done|split; [done|split; [lia|]]]].
  - rewrite (rd_sub p (tail p) (len r)) by lia. by rewrite E.
  - cbv zeta. split; cbn.
    + done.
    + rewrite Zplus_mod_idemp_l, G2. f_equal. lia.
    + apply Z.mod_pos_bound. done.
    + lia.
    + lia.
    + intros Hn. destruct R as [|r' R]; [rewrite G4; change (len (concat [])) with 0; unfold PIPE_SZ; lia|]. rewrite last_cons_cons in G6. specialize (G6 Hn). lia.
    + pose proof (rd_app p (tail p) (len r) (count p - len r)) as Ha. replace (len r + (count p - len r)) with (count p) in Ha by lia. rewrite G7, E in Ha.
      pose proof (rd_mod (Pipe (buf p) (head p) ((tail p + len r) mod PIPE_SZ) (count p - len r) (woken p)) (tail p + len r) (count p - len r)) as Hm. rewrite Hm.
      symmetry. apply (app_inv_head r). apply Ha; lia.
    + done.
    + intros r' Hr'. apply G9. destruct R; [done|]. by rewrite last_cons_cons.
Qed.

(** What a read that finds no record answers. *)
Definition none_left (block intr : bool) (p : pipe) : rres := if negb block then Ret (-11) [] p else if intr then Ret (-4) [] p else Sleep.

Lemma read_loop_ok R : ∀ fuel x p block intr n got, ring_ok x R p → (length R ≤ fuel)%nat → len got ≤ n →
  let '(a, b) := a_read R (n - len got) in
  ∃ p', ring_ok {| x with fpipe := Some p' |} b p' ∧
    read_loop fuel p block intr n got = Some (match got ++ concat a with
      | [] => if bool_decide (R = []) then none_left block intr p else Ret (-22) [] p
      | bytes => Ret (len bytes) bytes p' end) ∧ (a = [] → p' = p).
Proof.
  induction R as [|r R IH]; intros fuel x p block intr n got HR Hf Hg; cbn [a_read].
  - exists p. split; [destruct x; cbn in *; rewrite <- (g_p _ _ _ HR); exact HR|]. split; [|done]. cbn [concat]. rewrite app_nil_r. pose proof (g_count _ _ _ HR) as Hc. change (len (concat [])) with 0 in Hc.
    destruct fuel; cbn [read_loop]; rewrite Hc; cbn [Z.eqb]; unfold len; destruct got; done.
  - destruct (read_one x r R p HR) as (E1 & E2 & Hr & Hc & HR'). cbv zeta in HR'. unfold EV_MAX in Hr.
    assert (count p ≠ 0) as Hc0 by lia. assert (u32 (16 + le_val (rd p (tail p + 12) 4)) = len r) as E3 by (rewrite E1, u32_small by lia; lia).
    assert (∀ f, read_loop f p block intr n got = if n - len got <? len r then Some (if 0 <? len got then Ret (len got) got p else Ret (-22) [] p) else
      match f with O => None | S f => read_loop f (Pipe (buf p) (head p) ((tail p + len r) mod PIPE_SZ) (count p - len r) (woken p)) block intr n (got ++ r) end) as Heq.
    { intros f. destruct f; cbn [read_loop]; rewrite (proj2 (Z.eqb_neq _ _) Hc0), E3; fold (len got); rewrite ?E2; unfold EV_MAX; rewrite (proj2 (Z.ltb_ge 160 (len r))) by lia; reflexivity. }
    rewrite Heq. destruct (Z.leb_spec (len r) (n - len got)) as [Hle|Hle].
    + rewrite (proj2 (Z.ltb_ge _ _)) by lia. destruct fuel as [|fuel]; [cbn in Hf; lia|].
      specialize (IH fuel _ _ block intr n (got ++ r) HR'). rewrite len_app in IH. replace (n - (len got + len r)) with (n - len got - len r) in IH by lia.
      destruct (a_read R (n - len got - len r)) as [a b]. destruct IH as (p' & HRb & E & Ea); [cbn in Hf; lia|lia|]. exists p'. split; [exact HRb|]. split; [|done]. rewrite E. cbn [concat].
      rewrite <- app_assoc. destruct r as [|r0 r]; [unfold len in Hr; cbn in Hr; lia|]. destruct got; done.
    + rewrite (proj2 (Z.ltb_lt _ _)) by lia. exists p. split; [destruct x; cbn in *; rewrite <- (g_p _ _ _ HR); exact HR|]. split; [|done]. cbn [concat]. rewrite app_nil_r. rewrite bool_decide_eq_false_2 by done.
      unfold len. destruct got; done.
Qed.

Lemma ring_records x R p : ring_ok x R p → (length R ≤ Z.to_nat (count p / 16))%nat.
Proof.
  intros HR. rewrite (g_count _ _ _ HR). pose proof (g_good _ _ _ HR) as Hg. clear HR. assert (16 * Z.of_nat (length R) ≤ len (concat R)) as H.
  { induction Hg as [|r R [Hr _] _ IH]; [done|]. cbn [concat length]. rewrite len_app. lia. }
  pose proof (Z.div_le_mono (16 * Z.of_nat (length R)) _ 16 ltac:(lia) H) as Hd. rewrite Z.mul_comm, Z.div_mul in Hd by lia. lia.
Qed.

(** ** Instances and watches *)

(** [Q] says what the ring of every open instance holds; every watch belongs to one. *)
Record rel (s : st) (Q : gmap Z (list (list Z))) : Prop := {
  l_ring : ∀ f R, Q !! f = Some R → ∃ x p, files s !! f = Some x ∧ ring_ok x R p;
  l_open : ∀ w, w ∈ ws s → is_Some (Q !! w_f w)
}.

(** A watch has a descriptor of its own, and an instance watches a node once. *)
Record tbl_ok (s : st) : Prop := {
  t_node : NoDup ((λ w, (w_f w, w_n w)) <$> ws s);
  t_wd : NoDup ((λ w, (w_f w, w_wd w)) <$> ws s);
  t_disk : ∀ w, w ∈ ws s → ∃ x, files s !! w_f w = Some x ∧ 0 < w_wd w ≤ disk x;
  t_max : nw s ≤ MAXW
}.

Definition deliver (Q : gmap Z (list (list Z))) (l : list (Z * list Z)) : gmap Z (list (list Z)) :=
  foldl (λ Q fe, alter (λ R, a_put R fe.2) fe.1 Q) Q l.

Lemma deliver_app Q l k : deliver Q (l ++ k) = deliver (deliver Q l) k.
Proof. apply foldl_app. Qed.

(** The instances keep their counters. *)
Definition same_files (s s' : st) : Prop := ∀ f, (λ x, (disk x, nonblock x)) <$> files s' !! f = (λ x, (disk x, nonblock x)) <$> files s !! f.

Lemma ino_put_ok s Q f wd mask cookie name ev : rel s Q → is_Some (Q !! f) → event wd mask cookie name = Some ev → mask ≠ IN_Q_OVERFLOW →
  ∃ s', put s f wd mask cookie name = Some s' ∧ rel s' (deliver Q [(f, ev)]) ∧ ws s' = ws s ∧ same_files s s'.
Proof.
  intros [L1 L2] [R HR] He Hm. destruct (L1 f R HR) as (x & p & Hx & Hok). destruct (put_file_ok x R p wd mask cookie name ev Hok He Hm) as (x' & p' & E & Hok' & Hs).
  unfold put. rewrite Hx. cbn [mbind option_bind]. rewrite E. cbn [mbind option_bind]. eexists. split; [done|]. split; [|split; [done|]].
  - split; cbn.
    + intros g R'. destruct (decide (g = f)) as [->|Hg].
      * rewrite lookup_alter_eq, HR. intros [= <-]. exists x', p'. by rewrite lookup_insert_eq.
      * rewrite lookup_alter_ne by done. intros HR'. rewrite lookup_insert_ne by done. by apply L1.
    + intros w Hw. rewrite lookup_alter. case_match; [|by apply L2]. rewrite fmap_is_Some. subst. by exists R.
  - intros g. cbn. destruct (decide (g = f)) as [->|]; [|by rewrite lookup_insert_ne]. rewrite lookup_insert_eq, Hx. cbn. destruct Hs as [-> ->]. done.
Qed.

(** A loop over the table visits every watch once, whatever it drops. *)
Lemma sweep_ok (act : st → watch → option (bool * st)) (gone : watch → bool) (evs : watch → list (Z * list Z)) :
  (∀ s Q w, rel s Q → w ∈ ws s → ∃ s', act s w = Some (gone w, s') ∧ rel s' (deliver Q (evs w)) ∧ ws s' = ws s ∧ same_files s s') →
  ∀ fuel s Q pre rest, rel s Q → ws s = pre ++ rest → (length rest ≤ fuel)%nat →
  ∃ s' l, sweep fuel act s (Z.of_nat (length pre)) = Some s' ∧ l ≡ₚ rest ∧ rel s' (deliver Q (l ≫= evs)) ∧
    ws s' ≡ₚ pre ++ filter (λ w, gone w = false) rest ∧ same_files s s'.
Proof.
  intros Hact. induction fuel as [|fuel IH]; intros s Q pre rest Hr Hw Hf.
  { destruct rest; [|cbn in Hf; lia]. exists s, []. cbn [sweep]. rewrite (proj2 (Z.ltb_ge _ _)) by (unfold nw; rewrite Hw, app_nil_r; lia). split_and!; try done. by rewrite Hw, filter_nil. }
  cbn [sweep]. destruct rest as [|w rest].
  { exists s, []. rewrite (proj2 (Z.ltb_ge _ _)) by (unfold nw; rewrite Hw, app_nil_r; lia). split_and!; try done. by rewrite Hw, filter_nil. }
  assert (Z.of_nat (length pre) < nw s) as Hlt by (unfold nw; rewrite Hw, length_app; cbn; lia). rewrite (proj2 (Z.ltb_lt _ _) Hlt).
  assert ((ws s).[Z.of_nat (length pre)] = Some w) as Eg. { unfold arr_get. rewrite (proj2 (Z.leb_le _ _)) by lia. rewrite Nat2Z.id, Hw. apply list_lookup_middle. done. }
  rewrite Eg. cbn [mbind option_bind]. destruct (Hact s Q w Hr) as (s1 & E1 & Hr1 & Hw1 & Hs1); [rewrite Hw; set_solver|]. rewrite E1. cbn [mbind option_bind]. destruct (gone w) eqn:Hg.
  - assert (∃ rest', drop_at (ws s) (Z.of_nat (length pre)) = Some (pre ++ rest') ∧ rest ≡ₚ rest') as (rest' & Ed & Hp).
    { unfold drop_at. rewrite Hw. unfold arr_set. destruct rest as [|z rest _] using rev_ind.
      - exists []. rewrite last_snoc. cbn [mbind option_bind]. rewrite (proj2 (Z.leb_le _ _)), (proj2 (Z.ltb_lt _ _)) by (rewrite ?length_app; cbn; lia). cbn [andb mbind option_bind].
        rewrite Nat2Z.id, insert_app_r_alt, Nat.sub_diag by lia. cbn. rewrite length_app, Nat.add_sub, take_app_length, app_nil_r. done.
      - exists (z :: rest). rewrite app_comm_cons, app_assoc, last_snoc. cbn [mbind option_bind]. rewrite (proj2 (Z.leb_le _ _)), (proj2 (Z.ltb_lt _ _)) by (rewrite ?length_app; cbn; rewrite ?length_app; cbn; lia). cbn [andb mbind option_bind].
        rewrite <- app_assoc, Nat2Z.id, insert_app_r_alt, Nat.sub_diag by lia. cbn. split; [|by rewrite Permutation_app_comm].
        rewrite length_app. cbn. rewrite length_app. cbn. replace (length pre + S (length rest + 1) - 1)%nat with (length (pre ++ z :: rest))%nat by (rewrite length_app; cbn; lia).
        rewrite app_comm_cons, app_assoc. by rewrite take_app_length. }
    unfold drop_w. rewrite Hw1, Ed. cbn [mbind option_bind]. assert (length rest' = length rest) as Hl by (by rewrite Hp).
    destruct (IH {| s1 with ws := pre ++ rest' |} (deliver Q (evs w)) pre rest') as (s' & l & E & Hpl & Hrel & Hws & Hsf); [|done|cbn in Hf; lia|].
    { destruct Hr1 as [L1 L2]. split; [done|]. cbn. intros v Hv. apply L2. rewrite Hw1, Hw. rewrite Hp. set_solver. }
    exists s', (w :: l). split; [exact E|]. split; [by rewrite Hpl, Hp|]. split; [cbn; by rewrite deliver_app|]. split.
    + rewrite Hws, filter_cons_False by congruence. by rewrite Hp.
    + intros f. rewrite Hsf. cbn. apply Hs1.
  - replace (Z.of_nat (length pre) + 1) with (Z.of_nat (length (pre ++ [w]))) by (rewrite length_app; cbn; lia).
    destruct (IH s1 (deliver Q (evs w)) (pre ++ [w]) rest) as (s' & l & E & Hpl & Hrel & Hws & Hsf); [done|by rewrite Hw1, Hw, <- app_assoc|cbn in Hf; lia|].
    exists s', (w :: l). split; [exact E|]. split; [by rewrite Hpl|]. split; [cbn; by rewrite deliver_app|]. split.
    + rewrite Hws, filter_cons_True by done. by rewrite <- app_assoc.
    + intros f. rewrite Hsf. apply Hs1.
Qed.

End Inotify.
