(* ===== verification/InotifySpec.v ===== *)
(** * What inotify promises

    Seen from outside, an instance is a queue of whole records and the watches are
    a set.  Every operation of [Inotify] does to them what [spec] says; the ring of
    bytes, the way the last record is recognised and the order of the table do not
    show. *)

From S2P Require Import Prelude Fs Inotify.

Module InotifySpec.
Import Fs Inotify.

Abbreviation queues := (gmap Z (list (list Z))).

(** The records of an event, and of the end of a watch. *)
Definition evb (mask cookie : Z) (name : option (list Z)) (w : watch) : Z * list Z := (w_f w, default [] (event (w_wd w) mask cookie name)).
Definition ign (w : watch) : Z * list Z := evb IN_IGNORED 0 None w.

Definition evs (k mask cookie : Z) (name : option (list Z)) (w : watch) : list (Z * list Z) :=
  if hears k mask w then evb mask cookie name w :: (if oneshot w then [ign w] else []) else [].

Definition spent (k mask : Z) (w : watch) : bool := hears k mask w && oneshot w.

(** An event at node [k]: every watch that hears it queues one record, in some
    order, and those that were for one event only go, with a last record. *)
Definition ev_spec (k mask cookie : Z) (name : option (list Z)) (Q : queues) (W : list watch) (Q' : queues) (W' : list watch) : Prop :=
  ∃ l, l ≡ₚ W ∧ Q' = deliver Q (l ≫= evs k mask cookie name) ∧ W' ≡ₚ filter (λ w, spent k mask w = false) W.

(** Node [k] goes away: its watches go, each with a last record. *)
Definition gone_spec (k : Z) (Q : queues) (W : list watch) (Q' : queues) (W' : list watch) : Prop :=
  ∃ l, l ≡ₚ W ∧ Q' = deliver Q (l ≫= λ w, if w_n w =? k then [ign w] else []) ∧ W' ≡ₚ filter (λ w, (w_n w =? k) = false) W.

Inductive op :=
  | Ev (n mask : Z) (name : option (list Z)) (cookie : Z)
  | Node (n mask : Z)
  | Gone (n : Z) (self : bool)
  | Add (f n mask : Z)
  | Rm (f wd : Z)
  | Close (f : Z)
  | New (f : Z) (room : bool) (fl : Z)
  | Read (f : Z) (intr : bool) (n : Z).

Inductive res := Int (r : Z) | Got (r : rres).

Section tree.
Context (m : gmap Z fs_node).

Definition run (o : op) (s : st) : option (res * st) :=
  match o with
  | Ev n mask name cookie => s ← ino_ev m s n mask name cookie; Some (Int 0, s)
  | Node n mask => s ← ino_node m s n mask; Some (Int 0, s)
  | Gone n self => s ← ino_gone m s n self; Some (Int 0, s)
  | Add f n mask => '(r, s) ← ino_add m s f n mask; Some (Int r, s)
  | Rm f wd => '(r, s) ← ino_rm s f wd; Some (Int r, s)
  | Close f => s ← ino_close s f; Some (Int 0, s)
  | New f room fl => let '(r, s) := ino_new s f room fl in Some (Int r, s)
  | Read f intr n => '(r, s) ← ino_read s f intr n; Some (Got r, s)
  end.

Definition plain (mask : Z) : Prop := Z.testbit mask 14 = false.
Definition short (name : option (list Z)) : Prop := 16 + name_len name ≤ EV_MAX.

(** What the callers see to: nodes are there, with names of at most 127 bytes; masks
    are those of events; instances are open, fresh ones at a free address. *)
Definition pre (o : op) (s : st) (Q : queues) : Prop :=
  match o with
  | Ev n mask name _ => (n ≠ 0 → is_Some (m !! n)) ∧ plain mask ∧ short name
  | Node n mask => plain mask ∧ ∀ x, n ≠ 0 → m !! n = Some x → short (Some (n_name x)) ∧ (n_parent x ≠ 0 → is_Some (m !! n_parent x))
  | Gone n _ => ∀ k, n ≠ 0 → key m n = Some k → key m k = Some k ∧ k ≠ 0
  | Add f n _ => is_Some (m !! n) ∧ is_Some (Q !! f) ∧ ∀ x, files s !! f = Some x → 0 ≤ disk x < 2 ^ 31 - 1
  | Rm f _ | Close f => is_Some (Q !! f)
  | New f _ _ => files s !! f = None
  | Read f _ n => is_Some (Q !! f) ∧ 0 ≤ n
  end ∧ match o with Node n _ | Gone n _ => n ≠ 0 → is_Some (m !! n) | _ => True end.

Definition node_mask (x : fs_node) (mask : Z) : Z := if is_dir x then Z.lor mask IN_ISDIR else mask.

Definition spec (o : op) (s : st) (Q : queues) (W : list watch) (r : res) (Q' : queues) (W' : list watch) : Prop :=
  match o with
  | Ev n mask name cookie => if n =? 0 then Q' = Q ∧ W' = W else ∃ k, key m n = Some k ∧ ev_spec k mask cookie name Q W Q' W'
  | Node n mask => if n =? 0 then Q' = Q ∧ W' = W else ∃ x k Q1 W1, m !! n = Some x ∧ key m n = Some k ∧ ev_spec k (node_mask x mask) 0 None Q W Q1 W1 ∧
      if n_parent x =? 0 then Q' = Q1 ∧ W' = W1 else ∃ kp, key m (n_parent x) = Some kp ∧ ev_spec kp (node_mask x mask) 0 (Some (n_name x)) Q1 W1 Q' W'
  | Gone n self => if n =? 0 then Q' = Q ∧ W' = W else ∃ k Q1 W1, key m n = Some k ∧
      (if self then ev_spec k 0x400 0 None Q W Q1 W1 else Q1 = Q ∧ W1 = W) ∧ gone_spec k Q1 W1 Q' W'
  | Add f n mask => ∃ k, key m n = Some k ∧ Q' = Q ∧
      ((∃ w l1 l2, W = l1 ++ w :: l2 ∧ w_f w = f ∧ w_n w = k ∧
          (if nz (Z.land mask 0x10000000) then r = Int (-17) ∧ W' = W
           else r = Int (w_wd w) ∧ W' = l1 ++ Iw f (w_wd w) k (if nz (Z.land mask 0x20000000) then Z.lor (w_mask w) mask else mask) :: l2)) ∨
       (∀ w, w ∈ W → (w_f w, w_n w) ≠ (f, k)) ∧
          (r = Int (-28) ∧ W' = W ∨ ∃ wd, r = Int wd ∧ W' = W ++ [Iw f wd k mask] ∧ ∀ w, w ∈ W → w_f w = f → w_wd w < wd))
  | Rm f wd =>
      (∃ w, w ∈ W ∧ w_f w = f ∧ w_wd w = wd ∧ r = Int 0 ∧ Q' = deliver Q [ign w] ∧ W ≡ₚ w :: W') ∨
      (∀ w, w ∈ W → (w_f w, w_wd w) ≠ (f, wd)) ∧ r = Int (-22) ∧ Q' = Q ∧ W' = W
  | Close f => Q' = delete f Q ∧ W' ≡ₚ filter (λ w, (w_f w =? f) = false) W
  | New f room _ => W' = W ∧ if (f =? 0) || negb room then r = Int 0 ∧ Q' = Q else r = Int f ∧ Q' = <[f := []]> Q
  | Read f intr n => W' = W ∧ ∃ R x p, Q !! f = Some R ∧ files s !! f = Some x ∧ fpipe x = Some p ∧ let '(a, b) := a_read R n in Q' = <[f := b]> Q ∧
      ∃ p', r = Got (match concat a with
        | [] => if bool_decide (R = []) then none_left (negb (nonblock x)) intr p else Ret (-22) [] p
        | bytes => Ret (len bytes) bytes p' end)
  end.

(** ** Each operation *)

Lemma event_some wd mask cookie name : short name → event wd mask cookie name = Some (default [] (event wd mask cookie name)).
Proof. unfold short, event. intros H. rewrite (proj2 (Z.leb_le _ _) H). reflexivity. Qed.

Lemma ino_plain_ne mask : plain mask → mask ≠ IN_Q_OVERFLOW.
Proof. unfold plain. intros H ->. by vm_compute in H. Qed.

Lemma ev_one_ok k mask cookie name s Q w : plain mask → short name → rel s Q → w ∈ ws s →
  ∃ s', (if hears k mask w then ev_one s w mask name cookie else Some (false, s)) = Some (spent k mask w, s') ∧
    rel s' (deliver Q (evs k mask cookie name w)) ∧ ws s' = ws s ∧ same_files s s'.
Proof using Type.
  intros Hm Hn Hr Hw. unfold spent, evs. destruct (hears k mask w); [|by exists s]. cbn [andb]. unfold ev_one.
  destruct (ino_put_ok s Q (w_f w) (w_wd w) mask cookie name _ Hr (l_open _ _ Hr w Hw) (event_some _ _ _ _ Hn) (ino_plain_ne _ Hm)) as (s1 & E1 & Hr1 & Hw1 & Hs1).
  rewrite E1. cbn [mbind option_bind]. destruct (oneshot w); [|by exists s1].
  destruct (ino_put_ok s1 _ (w_f w) (w_wd w) IN_IGNORED 0 None _ Hr1 (l_open _ _ Hr1 w ltac:(by rewrite Hw1)) (event_some _ _ _ None ltac:(done)) ltac:(done)) as (s2 & E2 & Hr2 & Hw2 & Hs2).
  rewrite E2. cbn [mbind option_bind]. exists s2. split; [done|]. split; [exact Hr2|]. split; [congruence|]. intros f. by rewrite Hs2, Hs1.
Qed.

Lemma ev_ok s Q n mask name cookie k : rel s Q → n ≠ 0 → key m n = Some k → plain mask → short name →
  ∃ s' Q', ino_ev m s n mask name cookie = Some s' ∧ rel s' Q' ∧ ev_spec k mask cookie name Q (ws s) Q' (ws s') ∧ same_files s s'.
Proof using Type.
  intros Hr Hn Hk Hm Hs. unfold ino_ev. rewrite (proj2 (Z.eqb_neq n 0) Hn), orb_false_r. destruct (Z.eqb_spec (nw s) 0) as [E|E].
  { exists s, Q. assert (ws s = []) as Ew by (unfold nw in E; destruct (ws s); [done|cbn in E; lia]). split_and!; try done. exists []. by rewrite Ew, filter_nil. }
  rewrite Hk. cbn [mbind option_bind].
  destruct (sweep_ok (λ s w, if hears k mask w then ev_one s w mask name cookie else Some (false, s)) (spent k mask) (evs k mask cookie name)) with (fuel := length (ws s)) (s := s) (Q := Q) (pre := @nil watch) (rest := ws s)
    as (s' & l & E' & Hp & Hr' & Hw & Hf); [|done..|].
  { intros s1 Q1 w Hr1 Hw1. by apply ev_one_ok. }
  exists s', (deliver Q (l ≫= evs k mask cookie name)). split; [exact E'|]. split; [done|]. split; [by exists l|done].
Qed.

(** The table stays in order when watches go. *)
Lemma tbl_filter s s' (P : watch → Prop) `{!∀ w, Decision (P w)} : tbl_ok s → ws s' ≡ₚ filter P (ws s) → same_files s s' → tbl_ok s'.
Proof using Type.
  intros [T1 T2 T3 T4] Hp Hf. assert (filter P (ws s) `sublist_of` ws s) as Hs by apply sublist_filter. split.
  - rewrite Hp. apply (sublist_NoDup _ _ T1). by apply fmap_sublist.
  - rewrite Hp. apply (sublist_NoDup _ _ T2). by apply fmap_sublist.
  - intros w. rewrite Hp. intros [_ Hw]%list_elem_of_filter. destruct (T3 w Hw) as (x & Hx & Hd). specialize (Hf (w_f w)). rewrite Hx in Hf.
    destruct (files s' !! w_f w) as [x'|]; [|done]. exists x'. split; [done|]. injection Hf as -> _. done.
  - unfold nw in *. rewrite Hp. apply sublist_length in Hs. lia.
Qed.

Lemma key_some n : is_Some (m !! n) → ∃ k, key m n = Some k.
Proof using Type. intros [x Hx]. unfold key. rewrite Hx. by eexists. Qed.

Lemma ino_gone_ok s Q n self k : rel s Q → tbl_ok s → n ≠ 0 → key m n = Some k → key m k = Some k → k ≠ 0 →
  ∃ s' Q' Q1 W1, ino_gone m s n self = Some s' ∧ rel s' Q' ∧ tbl_ok s' ∧
    (if self then ev_spec k 0x400 0 None Q (ws s) Q1 W1 else Q1 = Q ∧ W1 = ws s) ∧ gone_spec k Q1 W1 Q' (ws s').
Proof using Type.
  intros Hr Ht Hn Hk Hkk Hk0. unfold ino_gone. rewrite (proj2 (Z.eqb_neq n 0) Hn), orb_false_r. destruct (Z.eqb_spec (nw s) 0) as [E|E].
  { assert (ws s = []) as Ew by (unfold nw in E; destruct (ws s); [done|cbn in E; lia]). exists s, Q, Q, []. rewrite Ew. split_and!; try done; [|by exists []].
    destruct self; [|done]. by exists []. }
  rewrite Hk. cbn [mbind option_bind].
  assert (∃ s1 Q1, (if self then ino_ev m s k 0x400 None 0 else Some s) = Some s1 ∧ rel s1 Q1 ∧ tbl_ok s1 ∧ (if self then ev_spec k 0x400 0 None Q (ws s) Q1 (ws s1) else Q1 = Q ∧ ws s1 = ws s)) as (s1 & Q1 & E1 & Hr1 & Ht1 & Hs1).
  { destruct self; [|by exists s, Q]. destruct (ev_ok s Q k 0x400 None 0 k Hr Hk0 Hkk) as (s1 & Q1 & ? & ? & Hsp & Hf); [done..|]. exists s1, Q1. split_and!; try done.
    destruct Hsp as (l & _ & _ & Hw). by apply (tbl_filter s s1 _ Ht Hw). }
  rewrite E1. cbn [mbind option_bind].
  destruct (sweep_ok (λ s w, if w_n w =? k then s ← put s (w_f w) (w_wd w) IN_IGNORED 0 None; Some (true, s) else Some (false, s)) (λ w, w_n w =? k) (λ w, if w_n w =? k then [ign w] else []))
    with (fuel := length (ws s1)) (s := s1) (Q := Q1) (pre := @nil watch) (rest := ws s1) as (s' & l & E' & Hp & Hr' & Hw & Hf); [|done..|].
  { intros s2 Q2 w Hr2 Hw2. destruct (w_n w =? k); [|by exists s2].
    destruct (ino_put_ok s2 Q2 (w_f w) (w_wd w) IN_IGNORED 0 None _ Hr2 (l_open _ _ Hr2 w Hw2) (event_some _ _ _ None ltac:(done)) ltac:(done)) as (s3 & E3 & Hr3 & Hw3 & Hs3). rewrite E3. by exists s3. }
  eexists s', _, Q1, (ws s1). split; [exact E'|]. split; [exact Hr'|]. split; [by apply (tbl_filter s1 s' _ Ht1 Hw)|]. split; [done|]. by exists l.
Qed.

Lemma find_split (f : watch → bool) l i : find_from 0 f l = Some i → ∃ w l1 l2, l = l1 ++ w :: l2 ∧ f w = true ∧ i = Z.of_nat (length l1).
Proof using Type.
  intros H. assert (∀ l j, find_from j f l = Some i → ∃ w l1 l2, l = l1 ++ w :: l2 ∧ f w = true ∧ i = j + Z.of_nat (length l1)) as Hg.
  { clear. intros l. induction l as [|a l IH]; intros j; cbn; [done|]. destruct (f a) eqn:E; [intros [= ->]; exists a, [], l; split_and!; [done..|cbn; lia]|].
    intros (w & l1 & l2 & -> & Hw & Hi)%IH. exists w, (a :: l1), l2. split_and!; [done..|cbn; lia]. }
  apply (Hg l 0 H).
Qed.

Lemma find_none (f : watch → bool) l : find_from 0 f l = None → ∀ w, w ∈ l → f w = false.
Proof using Type. intros H%find_from_None w Hw. by apply (proj1 (Forall_forall _ _) H). Qed.

Lemma get_mid (l1 l2 : list watch) w : (l1 ++ w :: l2).[Z.of_nat (length l1)] = Some w.
Proof using Type. unfold arr_get. rewrite (proj2 (Z.leb_le _ _)), Nat2Z.id by lia. by apply list_lookup_middle. Qed.

Lemma set_mid (l1 l2 : list watch) w v : (l1 ++ w :: l2).[Z.of_nat (length l1) <- v] = Some (l1 ++ v :: l2).
Proof using Type.
  unfold arr_set. rewrite (proj2 (Z.leb_le _ _)), (proj2 (Z.ltb_lt _ _)) by (rewrite ?length_app; cbn; lia). cbn [andb]. rewrite Nat2Z.id, insert_app_r_alt, Nat.sub_diag by lia. done.
Qed.

Lemma add_watch_ok s Q f n mask : rel s Q → tbl_ok s → pre (Add f n mask) s Q →
  ∃ r s', ino_add m s f n mask = Some (r, s') ∧ rel s' Q ∧ tbl_ok s' ∧ spec (Add f n mask) s Q (ws s) (Int r) Q (ws s').
Proof using Type.
  intros Hr Ht [(Hn & Hq & Hd) _]. destruct (key_some n Hn) as [k Hk]. unfold ino_add. rewrite Hk. cbn [mbind option_bind].
  destruct (find_from 0 _ (ws s)) as [i|] eqn:Ef.
  - apply find_split in Ef as (w & l1 & l2 & Ew & Hfw & ->). bools. rewrite Ew, get_mid. cbn [mbind option_bind]. destruct (nz (Z.land mask 0x10000000)) eqn:Em.
    { exists (-17), s. split_and!; try done. exists k. split; [done|]. split; [done|]. left. exists w, l1, l2. by rewrite Em. }
    rewrite set_mid. cbn [mbind option_bind]. eexists _, _. split; [done|]. split; [|split].
    + destruct Hr as [L1 L2]. split; [done|]. cbn. intros v Hv. apply elem_of_app in Hv as [Hv|[->|Hv]%elem_of_cons]; [apply L2; rewrite Ew; set_solver| |apply L2; rewrite Ew; set_solver].
      cbn. apply L2. rewrite Ew. set_solver.
    + destruct Ht as [T1 T2 T3 T4]. rewrite Ew in *. split; cbn; try done.
      * by rewrite fmap_app, fmap_cons in T1 |- *.
      * by rewrite fmap_app, fmap_cons in T2 |- *.
      * intros v Hv. apply elem_of_app in Hv as [Hv|[->|Hv]%elem_of_cons]; [apply T3; set_solver|cbn; apply (T3 w); set_solver|apply T3; set_solver].
      * unfold nw in *. cbn. rewrite Ew in T4. rewrite length_app in *. done.
    + exists k. split; [done|]. split; [done|]. left. exists w, l1, l2. rewrite Em. subst f k. done.
  - pose proof (find_none _ _ Ef) as Hno. assert (∀ w, w ∈ ws s → (w_f w, w_n w) ≠ (f, k)) as Hno'. { intros w Hw [= E1 E2]. specialize (Hno w Hw). cbn in Hno. rewrite E1, E2, !Z.eqb_refl in Hno. done. }
    destruct (Z.eqb_spec (nw s) MAXW) as [E|E].
    { exists (-28), s. split_and!; try done. exists k. split; [done|]. split; [done|]. right. split; [done|]. by left. }
    destruct Hq as [R HR]. destruct (l_ring _ _ Hr f R HR) as (x & p & Hx & Hok). rewrite Hx. cbn [mbind option_bind]. specialize (Hd x Hx). rewrite i32_small by lia. eexists _, _. split; [done|].
    assert (∀ w, w ∈ ws s → w_f w = f → w_wd w < disk x + 1) as Hlt. { intros w Hw Hwf. destruct (t_disk _ Ht w Hw) as (x' & Hx' & ?). rewrite Hwf, Hx in Hx'. injection Hx' as <-. lia. }
    split; [|split].
    + destruct Hr as [L1 L2]. split; cbn.
      * intros g R' HR'. destruct (decide (g = f)) as [->|]; [|rewrite lookup_insert_ne by done; by apply L1]. rewrite lookup_insert_eq. rewrite HR in HR'. injection HR' as <-.
        eexists _, p. split; [done|]. by destruct Hok.
      * intros v [Hv| ->%list_elem_of_singleton]%elem_of_app; [by apply L2|by exists R].
    + destruct Ht as [T1 T2 T3 T4]. split; cbn.
      * rewrite fmap_app. apply NoDup_app. split; [done|]. split; [|apply NoDup_singleton]. intros v (w & -> & Hw)%list_elem_of_fmap Hv. apply list_elem_of_singleton in Hv. by apply (Hno' w Hw).
      * rewrite fmap_app. apply NoDup_app. split; [done|]. split; [|apply NoDup_singleton]. intros v (w & -> & Hw)%list_elem_of_fmap Hv. apply list_elem_of_singleton in Hv. injection Hv as E1 E2. specialize (Hlt w Hw E1). cbn in E2. lia.
      * intros v [Hv| ->%list_elem_of_singleton]%elem_of_app.
        { destruct (T3 v Hv) as (x' & Hx' & Hd'). destruct (decide (w_f v = f)) as [Ef'|]; [|exists x'; by rewrite lookup_insert_ne]. rewrite Ef' in *. rewrite Hx in Hx'. injection Hx' as <-. eexists. rewrite lookup_insert_eq. split; [done|]. cbn. lia. }
        eexists. cbn. rewrite lookup_insert_eq. split; [done|]. cbn. lia.
      * unfold nw in *. cbn. rewrite length_app. cbn. lia.
    + exists k. split; [done|]. split; [done|]. right. split; [done|]. right. by exists (disk x + 1).
Qed.

Lemma drop_at_mid (l1 l2 : list watch) w : ∃ l', drop_at (l1 ++ w :: l2) (Z.of_nat (length l1)) = Some l' ∧ l1 ++ w :: l2 ≡ₚ w :: l'.
Proof using Type.
  unfold drop_at. destruct l2 as [|z l2 _] using rev_ind.
  - rewrite last_snoc. cbn [mbind option_bind]. rewrite set_mid. cbn [mbind option_bind]. rewrite length_app. cbn [length]. rewrite Nat.add_sub, take_app_length. exists l1. split; [done|]. by rewrite Permutation_app_comm.
  - rewrite app_comm_cons, app_assoc, last_snoc, <- app_assoc. cbn [mbind option_bind app]. rewrite set_mid. cbn [mbind option_bind].
    exists (l1 ++ z :: l2). split; [|rewrite <- Permutation_middle; apply perm_skip, Permutation_app_head; by rewrite Permutation_app_comm].
    rewrite length_app. cbn [length]. rewrite length_app. cbn [length]. replace (length l1 + S (length l2 + 1) - 1)%nat with (length (l1 ++ z :: l2))%nat by (rewrite length_app; cbn; lia).
    rewrite app_comm_cons, app_assoc. by rewrite take_app_length.
Qed.

Lemma rm_ok s Q f wd : rel s Q → tbl_ok s → is_Some (Q !! f) → ∃ r s' Q', ino_rm s f wd = Some (r, s') ∧ rel s' Q' ∧ tbl_ok s' ∧ spec (Rm f wd) s Q (ws s) (Int r) Q' (ws s').
Proof using Type.
  intros Hr Ht Hq. unfold ino_rm. destruct (find_from 0 _ (ws s)) as [i|] eqn:Ef.
  - apply find_split in Ef as (w & l1 & l2 & Ew & Hfw & ->). bools.
    destruct (ino_put_ok s Q f wd IN_IGNORED 0 None _ Hr Hq (event_some _ _ _ None ltac:(done)) ltac:(done)) as (s1 & E1 & Hr1 & Hw1 & Hs1). rewrite E1. cbn [mbind option_bind].
    destruct (drop_at_mid l1 l2 w) as (l' & Ed & Hp). unfold drop_w. rewrite Hw1, Ew, Ed. cbn [mbind option_bind]. eexists _, _, _. split; [done|]. split; [|split].
    + destruct Hr1 as [L1 L2]. split; [exact L1|]. cbn. intros v Hv. apply L2. rewrite Hw1, Ew, Hp. set_solver.
    + destruct Ht as [T1 T2 T3 T4]. rewrite Ew in *. rewrite Hp in T1, T2. cbn in T1, T2. apply NoDup_cons in T1 as [_ T1]. apply NoDup_cons in T2 as [_ T2]. split; cbn; try done.
      * intros v Hv. destruct (T3 v) as (x & Hx & Hd); [rewrite Hp; set_solver|]. specialize (Hs1 (w_f v)). rewrite Hx in Hs1. destruct (files s1 !! w_f v) as [x'|]; [|done]. exists x'. split; [done|]. injection Hs1 as -> _. done.
      * unfold nw in *. rewrite Ew, Hp in T4. cbn in *. lia.
    + left. exists w. cbn. split; [set_solver|]. split; [done|]. split; [done|]. split; [done|]. subst f wd. done.
  - exists (-22), s, Q. split_and!; try done. right. split; [|done]. pose proof (find_none _ _ Ef) as Hno. intros w Hw [= E1 E2]. specialize (Hno w Hw). cbn in Hno. by rewrite E1, E2, !Z.eqb_refl in Hno.
Qed.

Lemma close_ok s Q f : rel s Q → tbl_ok s → is_Some (Q !! f) → ∃ s', ino_close s f = Some s' ∧ rel s' (delete f Q) ∧ tbl_ok s' ∧ ws s' ≡ₚ filter (λ w, (w_f w =? f) = false) (ws s).
Proof using Type.
  intros Hr Ht [R HR]. unfold ino_close.
  destruct (sweep_ok (λ s w, Some (w_f w =? f, s)) (λ w, w_f w =? f) (λ _, [])) with (fuel := length (ws s)) (s := s) (Q := Q) (pre := @nil watch) (rest := ws s) as (s1 & l & E' & Hp & Hr1 & Hw & Hf); [|done..|].
  { intros s2 Q2 w Hr2 Hw2. by exists s2. }
  cbn [length] in E'. change (Z.of_nat 0) with 0 in E'. rewrite E'. cbn [mbind option_bind]. assert (l ≫= (λ _ : watch, []) = ([] : list (Z * list Z))) as El by (clear; induction l; [done|by cbn]). rewrite El in Hr1. cbn in Hr1.
  pose proof (tbl_filter s s1 _ Ht Hw Hf) as Ht1. destruct (l_ring _ _ Hr1 f R HR) as (x & p & Hx & Hok). rewrite Hx. cbn [mbind option_bind]. rewrite (g_p _ _ _ Hok). cbn [mbind option_bind]. eexists. split; [done|].
  split; [|split].
  - destruct Hr1 as [L1 L2]. split; cbn.
    + intros g R' [Hg HR']%lookup_delete_Some. rewrite lookup_insert_ne by done. by apply L1.
    + intros w Hw'. pose proof Hw' as Hw''. rewrite Hw in Hw''. apply list_elem_of_filter in Hw'' as [Hwf _]. bools. rewrite lookup_delete_ne by done. by apply L2.
  - destruct Ht1 as [T1 T2 T3 T4]. split; cbn; try done. intros w Hw'. destruct (T3 w Hw') as (x' & Hx' & ?). pose proof Hw' as Hw''. rewrite Hw in Hw''. apply list_elem_of_filter in Hw'' as [Hwf _]. bools.
    exists x'. by rewrite lookup_insert_ne.
  - done.
Qed.

Lemma new_inst_ok s Q f room fl : rel s Q → tbl_ok s → files s !! f = None →
  ∃ s' Q', ino_new s f room fl = (if (f =? 0) || negb room then 0 else f, s') ∧ rel s' Q' ∧ tbl_ok s' ∧ ws s' = ws s ∧ Q' = if (f =? 0) || negb room then Q else <[f := []]> Q.
Proof using Type.
  intros Hr Ht Hf. unfold ino_new. destruct (f =? 0); [by exists s, Q|]. destruct room; cbn [negb orb]; [|by exists s, Q]. eexists _, _. split; [done|]. split; [|split; [|done]].
  - destruct Hr as [L1 L2]. split; cbn.
    + intros g R. destruct (decide (g = f)) as [->|]; [|rewrite !lookup_insert_ne by done; by apply L1]. rewrite !lookup_insert_eq. intros [= <-]. eexists _, _. split; [done|]. by split.
    + intros w Hw. destruct (decide (w_f w = f)) as [->|]; [by rewrite lookup_insert_eq|]. rewrite lookup_insert_ne by done. by apply L2.
  - destruct Ht as [T1 T2 T3 T4]. split; cbn; try done. intros w Hw. destruct (T3 w Hw) as (x & Hx & ?). exists x. rewrite lookup_insert_ne; [done|]. congruence.
Qed.

Lemma read_ok s Q f intr n R : rel s Q → tbl_ok s → Q !! f = Some R → 0 ≤ n →
  ∃ r s' Q', ino_read s f intr n = Some (r, s') ∧ rel s' Q' ∧ tbl_ok s' ∧ spec (Read f intr n) s Q (ws s) (Got r) Q' (ws s').
Proof using Type.
  intros Hr Ht HR Hn. destruct (l_ring _ _ Hr f R HR) as (x & p & Hx & Hok). unfold ino_read. rewrite Hx. cbn [mbind option_bind]. rewrite (g_p _ _ _ Hok). cbn [mbind option_bind].
  pose proof (read_loop_ok R (Z.to_nat (count p / 16)) x p (negb (nonblock x)) intr n [] Hok (ring_records _ _ _ Hok) ltac:(done)) as Hl. change (len []) with 0 in Hl. rewrite Z.sub_0_r in Hl.
  cbn [spec]. destruct (a_read R n) as [a b] eqn:Ea. destruct Hl as (p' & Hok' & E & Hsame). rewrite E. cbn [mbind option_bind app].
  assert (∀ s', (∀ g, g ≠ f → files s' !! g = files s !! g) → ws s' = ws s → (∃ q, files s' !! f = Some q ∧ disk q = disk x ∧ ring_ok q b p') → rel s' (<[f := b]> Q) ∧ tbl_ok s') as Hfin.
  { intros s' H1 H2 (q & Hq & Hdq & Hokq). split.
    - destruct Hr as [L1 L2]. split.
      + intros g R' HR'. destruct (decide (g = f)) as [->|]; [rewrite lookup_insert_eq in HR'; injection HR' as <-; by exists q, p'|]. rewrite lookup_insert_ne in HR' by done. rewrite H1 by done. by apply L1.
      + rewrite H2. intros w Hw. destruct (decide (w_f w = f)) as [->|]; [by rewrite lookup_insert_eq|]. rewrite lookup_insert_ne by done. by apply L2.
    - destruct Ht as [T1 T2 T3 T4]. unfold nw in *. split; unfold nw; rewrite ?H2; try done. intros w Hw. destruct (T3 w Hw) as (x' & Hx' & ?). destruct (decide (w_f w = f)) as [Ef|]; [|exists x'; by rewrite H1].
      rewrite Ef in *. rewrite Hx in Hx'. injection Hx' as <-. exists q. by rewrite Hdq. }
  assert (files s = files s ∧ {| x with fpipe := fpipe x |} = x) as [_ Ex] by (split; [done|by destruct x]).
  assert (concat a = [] → a = []) as Ha0.
  { destruct a as [|r a]; [done|]. intros Hc. exfalso. destruct R as [|r' R]; [done|]. cbn in Ea. destruct (len r' <=? n); [|done]. destruct (a_read R (n - len r')). injection Ea as <- <- <-.
    pose proof (g_good _ _ _ Hok) as [[Hg _] _]%Forall_cons. cbn in Hc. apply app_eq_nil in Hc as [-> _]. unfold len in Hg. cbn in Hg. lia. }
  destruct (concat a) as [|c0 cs] eqn:Ec.
  - specialize (Ha0 eq_refl). specialize (Hsame Ha0). subst p'.
    assert (b = R) as ->. { subst a. destruct R as [|r' R]; [by injection Ea|]. cbn in Ea. destruct (len r' <=? n); [destruct (a_read R (n - len r')); done|]. by injection Ea. }
    set (r := if bool_decide (R = []) then none_left (negb (nonblock x)) intr p else Ret (-22) [] p).
    assert (r = Sleep ∨ ∃ z, r = Ret z [] p) as Hrc. { unfold r, none_left. destruct (bool_decide (R = [])), (negb (negb (nonblock x))), intr; eauto. }
    assert (∃ s', (match r with Ret _ _ p0 => {| s with files := <[f := {| x with fpipe := Some p0 |}]> (files s) |} | Sleep => s end) = s' ∧ rel s' (<[f := R]> Q) ∧ tbl_ok s' ∧ ws s' = ws s) as (s' & Es & F1 & F2 & F3).
    { eexists. split; [done|]. destruct Hrc as [->|[z ->]]; (match goal with |- rel ?s' _ ∧ _ => destruct (Hfin s') as [F1 F2] end); cbn; try done; [exists x; split_and!; try done; by rewrite <- Ex, (g_p _ _ _ Hok)| |].
      - intros g Hg. by rewrite lookup_insert_ne.
      - eexists. rewrite lookup_insert_eq. done. }
    exists r, s', (<[f := R]> Q). rewrite Es. split; [done|]. split; [done|]. split; [done|]. split; [done|]. exists R, x, p. split; [done|]. split; [done|]. split; [apply (g_p _ _ _ Hok)|]. rewrite Ea, Ec. split; [done|]. by exists p.
  - destruct (Hfin {| s with files := <[f := {| x with fpipe := Some p' |}]> (files s) |}) as [F1 F2]; [intros g Hg; cbn; by rewrite lookup_insert_ne|done|eexists; cbn; rewrite lookup_insert_eq; done|].
    eexists _, _, _. split; [done|]. split; [exact F1|]. split; [exact F2|]. split; [done|]. exists R, x, p. split; [done|]. split; [done|]. split; [apply (g_p _ _ _ Hok)|]. rewrite Ea, Ec. split; [done|]. by exists p'.
Qed.

Lemma plain_node x mask : plain mask → plain (node_mask x mask).
Proof using Type. unfold plain, node_mask. intros H. destruct (is_dir x); [|done]. by rewrite Z.lor_spec, H. Qed.

Lemma ev_tbl s s' Q Q' k mask cookie name : tbl_ok s → ev_spec k mask cookie name Q (ws s) Q' (ws s') → same_files s s' → tbl_ok s'.
Proof using Type. intros Ht (l & _ & _ & Hw) Hf. by apply (tbl_filter s s' _ Ht Hw). Qed.

Lemma ino_node_ok s Q n mask : rel s Q → tbl_ok s → pre (Node n mask) s Q →
  ∃ s' Q', ino_node m s n mask = Some s' ∧ rel s' Q' ∧ tbl_ok s' ∧ spec (Node n mask) s Q (ws s) (Int 0) Q' (ws s').
Proof using Type.
  intros Hr Ht [[Hm Hx] Hn]. cbn [spec]. unfold ino_node. destruct (Z.eqb_spec n 0) as [->|Hn0]; [rewrite orb_true_r; by exists s, Q|]. rewrite orb_false_r.
  destruct (Hn Hn0) as [x Ex]. destruct (Hx x Hn0 Ex) as [Hsh Hpar]. destruct (key_some n (Hn Hn0)) as [k Hk]. pose proof (plain_node x mask Hm) as Hm'.
  destruct (Z.eqb_spec (nw s) 0) as [E|E].
  { assert (ws s = []) as Ew by (unfold nw in E; destruct (ws s); [done|cbn in E; lia]). exists s, Q. split_and!; try done. exists x, k, Q, []. rewrite Ew. split_and!; try done; [by exists []|].
    destruct (Z.eqb_spec (n_parent x) 0) as [|Hp]; [done|]. destruct (key_some _ (Hpar Hp)) as [kp Hkp]. exists kp. split; [done|]. by exists []. }
  rewrite Ex. cbn [mbind option_bind]. fold (node_mask x mask). destruct (ev_ok s Q n (node_mask x mask) None 0 k Hr Hn0 Hk Hm' ltac:(done)) as (s1 & Q1 & E1 & Hr1 & Hs1 & Hf1). rewrite E1. cbn [mbind option_bind].
  pose proof (ev_tbl _ _ _ _ _ _ _ _ Ht Hs1 Hf1) as Ht1. unfold nz. destruct (Z.eqb_spec (n_parent x) 0) as [Hp|Hp]; cbn [negb].
  - exists s1, Q1. split_and!; try done. exists x, k, Q1, (ws s1). by rewrite Hp.
  - destruct (key_some _ (Hpar Hp)) as [kp Hkp]. destruct (ev_ok s1 Q1 (n_parent x) (node_mask x mask) (Some (n_name x)) 0 kp Hr1 Hp Hkp Hm' Hsh) as (s2 & Q2 & E2 & Hr2 & Hs2 & Hf2).
    exists s2, Q2. rewrite E2. split_and!; try done; [by apply (ev_tbl _ _ _ _ _ _ _ _ Ht1 Hs2)|]. exists x, k, Q1, (ws s1). rewrite (proj2 (Z.eqb_neq _ _) Hp). split_and!; try done. by exists kp.
Qed.

(** C30: every operation of inotify completes, keeps every ring a sequence of whole
    records and the table in order, and does what its specification says: an event
    queues one record at every watch that hears it, once each although watches drop
    out of the table under the loop's feet, with a last record for those that end;
    a record equal to the last unread one is not repeated, and one that finds no
    room leaves the mark of an overflow instead, so that no loss goes unnoticed; a
    read takes the longest run of whole records that fits, in order, and fails
    rather than split one; a watch keeps its descriptor, and a new one is new. *)
Theorem ino_refines o s Q : rel s Q → tbl_ok s → pre o s Q →
  ∃ r s' Q', run o s = Some (r, s') ∧ rel s' Q' ∧ tbl_ok s' ∧ spec o s Q (ws s) r Q' (ws s').
Proof using Type.
  intros Hr Ht Hp. destruct o as [n mask name cookie|n mask|n self|f n mask|f wd|f|f room fl|f intr n]; cbn [run].
  - destruct Hp as [(Hn & Hm & Hs) _]. cbn [spec]. destruct (Z.eqb_spec n 0) as [->|Hn0].
    { exists (Int 0), s, Q. unfold ino_ev. by rewrite orb_true_r. }
    destruct (key_some n (Hn Hn0)) as [k Hk]. destruct (ev_ok s Q n mask name cookie k Hr Hn0 Hk Hm Hs) as (s' & Q' & -> & ? & Hsp & Hf). exists (Int 0), s', Q'.
    split; [done|]. split; [done|]. split; [by apply (ev_tbl _ _ _ _ _ _ _ _ Ht Hsp)|by exists k].
  - destruct (ino_node_ok s Q n mask Hr Ht Hp) as (s' & Q' & -> & ? & ? & ?). by exists (Int 0), s', Q'.
  - destruct Hp as [Hk Hn]. cbn [spec]. destruct (Z.eqb_spec n 0) as [->|Hn0].
    { exists (Int 0), s, Q. unfold ino_gone. by rewrite orb_true_r. }
    destruct (key_some n (Hn Hn0)) as [k Ek]. destruct (Hk k Hn0 Ek) as [Hkk Hk0]. destruct (ino_gone_ok s Q n self k Hr Ht Hn0 Ek Hkk Hk0) as (s' & Q' & Q1 & W1 & -> & ? & ? & ? & ?).
    exists (Int 0), s', Q'. split_and!; try done. by exists k, Q1, W1.
  - destruct (add_watch_ok s Q f n mask Hr Ht Hp) as (r & s' & -> & ? & ? & ?). by exists (Int r), s', Q.
  - destruct Hp as [Hq _]. destruct (rm_ok s Q f wd Hr Ht Hq) as (r & s' & Q' & -> & ? & ? & ?). by exists (Int r), s', Q'.
  - destruct Hp as [Hq _]. destruct (close_ok s Q f Hr Ht Hq) as (s' & -> & ? & ? & ?). by exists (Int 0), s', (delete f Q).
  - destruct Hp as [Hf _]. destruct (new_inst_ok s Q f room fl Hr Ht Hf) as (s' & Q' & -> & ? & ? & Hw & ->). eexists _, s', _. split; [done|]. split; [done|]. split; [done|]. split; [done|].
    destruct ((f =? 0) || negb room); done.
  - destruct Hp as [[[R HR] Hn] _]. destruct (read_ok s Q f intr n R Hr Ht HR Hn) as (r & s' & Q' & -> & ? & ? & ?). by exists (Got r), s', Q'.
Qed.

End tree.

(** An instance at 7 watches node 1; something is created in it. *)
Definition dir1 : fs_node := Fs.Node [47] FS_DIR 0 [] None 0 0 0x1ED 0 false 0 0 0 0 0 [] 0 false false 0.
Definition one_watch : st := St {[7 := File (Some (Pipe ∅ 0 0 0 0)) 0 1 true]} [Iw 7 1 1 0x100].

Lemma one_watch_ok : rel one_watch {[7 := []]} ∧ tbl_ok one_watch.
Proof.
  split; [split|split].
  - intros f R [<- <-]%lookup_singleton_Some. eexists _, _. split; [apply lookup_singleton_eq|]. by split.
  - intros w ->%list_elem_of_singleton. by eexists.
  - apply NoDup_singleton.
  - apply NoDup_singleton.
  - intros w ->%list_elem_of_singleton. eexists. split; [apply lookup_singleton_eq|done].
  - done.
Qed.

Lemma ino_refines_witness : ∃ r s' Q', run {[1 := dir1]} (Ev 1 0x100 (Some [97]) 0) one_watch = Some (r, s') ∧ rel s' Q' ∧ tbl_ok s' ∧
  spec {[1 := dir1]} (Ev 1 0x100 (Some [97]) 0) one_watch {[7 := []]} (ws one_watch) r Q' (ws s').
Proof.
  apply (ino_refines {[1 := dir1]} (Ev 1 0x100 (Some [97]) 0) one_watch {[7 := []]}); [apply one_watch_ok..|]. split; [|done]. split; [intros _; by eexists|]. split; [reflexivity|]. unfold short. vm_compute. discriminate.
Defined.

End InotifySpec.
