(* ===== verification/Pipe.v ===== *)
(** * Pipes, named pipes, socket pairs, event and timer descriptors (src/src/proc/file.c)

    The ring of bytes is the one of [Inotify]: both are the [pipe_t] of file.h.  A
    read or a write takes the lock of the pipe once per piece of at most 1024
    bytes; the section under the lock is a turn, which says what the call returns,
    that it sleeps, or which bytes it moved.  Open files and pipes are at their
    addresses, and an access to one that was freed is [None]; the addresses
    [kmalloc] gives are arguments, 0 is a failure. *)

From S2P Require Import Prelude Inotify.

Module Pipe.
Abbreviation PIPE_SZ := Inotify.PIPE_SZ.
Abbreviation rd := Inotify.rd.
Abbreviation wr := Inotify.wr.
Abbreviation ring_t := Inotify.pipe.
Abbreviation buf := Inotify.buf.
Abbreviation head := Inotify.head.
Abbreviation tail := Inotify.tail.
Abbreviation count := Inotify.count.
Abbreviation woken := Inotify.woken.
Abbreviation len := Inotify.len.

Definition O_ACCMODE : Z := 3.
Definition O_RDONLY : Z := 0.
Definition O_WRONLY : Z := 1.
Definition O_RDWR : Z := 2.
Definition O_NONBLOCK : Z := 0x800.
Definition EAGAIN : Z := 11.
Definition EINTR : Z := 4.
Definition EPIPE : Z := 32.
Definition ENOMEM : Z := 12.
Definition EBADF : Z := 9.

Record pipe_t := PipeT { ring : ring_t; readers : Z; writers : Z; rtot : Z; wtot : Z; wopens : Z; wgen : Z; gone : Z }.

Definition zero_pipe : pipe_t := PipeT (Inotify.Pipe ∅ 0 0 0 0) 0 0 0 0 0 0 0.

Definition pipe_wake (p : pipe_t) : pipe_t := let r := ring p in {| p with ring := {| r with Inotify.woken := woken r + 1 |} |}.

(** ** One turn of a read and of a write *)

(** [tmp] in the kernel stack. *)
Definition TMP : Z := 1024.

Inductive turn := Return (r : Z) | Sleep | Moved (b : list Z).

(** [memcpy] of [k] bytes from [buf + off]. *)
Definition from_buf (r : ring_t) (off k : Z) : option (list Z) :=
  if (0 <=? off) && (off + k <=? PIPE_SZ) then Some (rd r off k) else None.

(** [memcpy] of [b] to [buf + off]. *)
Definition to_buf (r : ring_t) (off : Z) (b : list Z) : option (gmap Z Z) :=
  if (0 <=? off) && (off + len b <=? PIPE_SZ) then Some (wr (buf r) off 0 b) else None.

(** [n - got] is what the caller still wants; [intr] is the answer of [proc_interrupted]. *)
Definition read_turn (p : pipe_t) (nb intr : bool) (n got : Z) : option (turn * pipe_t) :=
  let r := ring p in
  let intr := if nz got then false else intr in
  if count r =? 0 then
    Some (if nz got || (writers p <=? 0) then Return (i32 got)
          else if nb then Return (- EAGAIN) else if intr then Return (- EINTR) else Sleep, p)
  else
    let k := PIPE_SZ - tail r in
    let k := if count r <? k then count r else k in
    let k := if u32 (n - got) <? k then u32 (n - got) else k in
    let k := if TMP <? k then TMP else k in
    b ← from_buf r (tail r) k;
    Some (Moved b, pipe_wake {| p with
      ring := {| r with Inotify.tail := Z.rem (tail r + k) PIPE_SZ; Inotify.count := count r - k |}; rtot := u64 (rtot p + k) |}).

(** [rest] is [buf + put], [n - put] bytes; [true] asks for SIGPIPE. *)
Definition write_turn (p : pipe_t) (nb intr : bool) (n put : Z) (rest : list Z) : option (turn * bool * pipe_t) :=
  let r := ring p in
  let k := if u32 (n - put) <? TMP then u32 (n - put) else TMP in
  if len rest <? k then None else
  let tmp := firstn (Z.to_nat k) rest in
  if readers p <=? 0 then Some (Return (if nz put then i32 put else - EPIPE), true, p) else
  if count r =? PIPE_SZ then
    Some (if nb then Return (if nz put then i32 put else - EAGAIN)
          else if intr then Return (if nz put then i32 put else - EINTR) else Sleep, false, p)
  else
    let c := PIPE_SZ - head r in
    let room := PIPE_SZ - count r in
    let c := if room <? c then room else c in
    let c := if k <? c then k else c in
    let b := firstn (Z.to_nat c) tmp in
    m ← to_buf r (head r) b;
    Some (Moved b, false, pipe_wake {| p with
      ring := Inotify.Pipe m (Z.rem (head r + c) PIPE_SZ) (tail r) (count r + c) (woken r);
      wtot := u64 (wtot p + c); wgen := u32 (wgen p + 1) |}).

(** The loop of [pipe_tee] on the pipe it copies from. *)
Definition tee_turn (p : pipe_t) (nb intr : bool) (len : Z) : option turn :=
  let r := ring p in
  let len := if PIPE_SZ <? len then PIPE_SZ else len in
  if count r =? 0 then
    Some (if writers p <=? 0 then Return 0 else if nb then Return (- EAGAIN) else if intr then Return (- EINTR) else Sleep)
  else
    let k := if count r <? len then count r else len in
    let c1 := PIPE_SZ - tail r in
    let c1 := if k <? c1 then k else c1 in
    a ← from_buf r (tail r) c1;
    b ← from_buf r 0 (k - c1);
    Some (Moved (a ++ b)).

(** ** Open files *)

Inductive ftype := F_PIPE_R | F_PIPE_W | F_SPAIR | F_EVENTFD | F_TIMERFD.

#[export] Instance ftype_eq : EqDecision ftype.
Proof. solve_decision. Defined.

Record file := File {
  f_type : ftype; f_refs : Z; f_flags : Z; f_pipe : Z; f_pipe2 : Z; f_shut : Z; f_node : Z;
  f_cnt : Z; f_next : Z; f_int : Z
}.

(** [fifo] has the pointer [data] of the nodes that are named pipes, [nrefs] the
    references of open files on such nodes. *)
Record st := St { pipes : gmap Z pipe_t; files : gmap Z file; fifo : gmap Z Z; nrefs : gmap Z Z }.

Definition set_pipe (s : st) (p : Z) (x : pipe_t) : st := {| s with pipes := <[p := x]> (pipes s) |}.
Definition set_file (s : st) (f : Z) (x : file) : st := {| s with files := <[f := x]> (files s) |}.
Definition free_pipe (s : st) (p : Z) : st := {| s with pipes := delete p (pipes s) |}.
Definition free_file (s : st) (f : Z) : st := {| s with files := delete f (files s) |}.
Definition ref_node (s : st) (n d : Z) : st := {| s with nrefs := <[n := i32 (default 0 (nrefs s !! n) + d)]> (nrefs s) |}.

Definition file_new (s : st) (a : Z) (ty : ftype) (flags : Z) : Z * st :=
  if a =? 0 then (0, s) else (a, set_file s a (File ty 1 flags 0 0 0 0 0 0 0)).

Definition pipe_end (s : st) (p dr dw : Z) : option (bool * st) :=
  x ← pipes s !! p;
  let x := pipe_wake {| x with readers := i32 (readers x + dr); writers := i32 (writers x + dw) |} in
  Some ((readers x <=? 0) && (writers x <=? 0), set_pipe s p x).

Definition file_ref (s : st) (f : Z) : option st :=
  if f =? 0 then Some s else x ← files s !! f; Some (set_file s f {| x with f_refs := i32 (f_refs x + 1) |}).

Definition pipe_create (s : st) (pa ra wa : Z) : option (Z * st) :=
  if pa =? 0 then Some (- ENOMEM, s) else
  let s := set_pipe s pa zero_pipe in
  let '(r, s) := file_new s ra F_PIPE_R 0 in
  let '(w, s) := file_new s wa F_PIPE_W O_WRONLY in
  if (r =? 0) || (w =? 0) then
    let s := free_pipe s pa in
    let s := if nz r then free_file s r else s in
    Some (- ENOMEM, if nz w then free_file s w else s)
  else
    x ← files s !! r;
    let s := set_file s r {| x with f_pipe := pa |} in
    y ← files s !! w;
    let s := set_file s w {| y with f_pipe := pa |} in
    Some (0, set_pipe s pa {| zero_pipe with readers := 1; writers := 1 |}).

Definition spair_create (s : st) (p1 p2 a b : Z) : option (Z * st) :=
  let s := if nz p1 then set_pipe s p1 zero_pipe else s in
  let s := if nz p2 then set_pipe s p2 zero_pipe else s in
  let '(a, s) := file_new s a F_SPAIR 2 in
  let '(b, s) := file_new s b F_SPAIR 2 in
  if (p1 =? 0) || (p2 =? 0) || (a =? 0) || (b =? 0) then
    let s := if nz p1 then free_pipe s p1 else s in
    let s := if nz p2 then free_pipe s p2 else s in
    let s := if nz a then free_file s a else s in
    Some (- ENOMEM, if nz b then free_file s b else s)
  else
    x ← files s !! a;
    let s := set_file s a {| x with f_pipe := p1; f_pipe2 := p2 |} in
    y ← files s !! b;
    let s := set_file s b {| y with f_pipe := p2; f_pipe2 := p1 |} in
    let one := {| zero_pipe with readers := 1; writers := 1 |} in
    Some (0, set_pipe (set_pipe s p1 one) p2 one).

Definition spair_shutdown (s : st) (f how : Z) : option (Z * st) :=
  if (how <? 0) || (2 <? how) then Some (-22, s) else
  x ← files s !! f;
  s ← (if ((how =? 0) || (how =? 2)) && negb (Z.testbit (f_shut x) 0) then
         '(_, s) ← pipe_end (set_file s f {| x with f_shut := Z.lor (f_shut x) 1 |}) (f_pipe x) (-1) 0; Some s
       else Some s);
  x ← files s !! f;
  s ← (if ((how =? 1) || (how =? 2)) && negb (Z.testbit (f_shut x) 1) then
         '(_, s) ← pipe_end (set_file s f {| x with f_shut := Z.lor (f_shut x) 2 |}) (f_pipe2 x) 0 (-1); Some s
       else Some s);
  Some (0, s).

(** The turn of the loop in [file_close] for one pipe of a socket pair. *)
Definition spair_free (s : st) (q : Z) : option st :=
  x ← pipes s !! q;
  if (readers x <=? 0) && (writers x <=? 0) && (gone x =? 0) then Some (free_pipe s q) else Some s.

Definition file_close (s : st) (f : Z) : option st :=
  if f =? 0 then Some s else
  x ← files s !! f;
  let x := {| x with f_refs := i32 (f_refs x - 1) |} in
  let s := set_file s f x in
  if 0 <? f_refs x then Some s else
  s ← (if bool_decide (f_type x = F_SPAIR) then
         '(_, s) ← spair_shutdown s f 2;
         s ← spair_free s (f_pipe x);
         spair_free s (f_pipe2 x)
       else if nz (f_pipe x) then
         let rw := Z.land (f_flags x) O_ACCMODE =? O_RDWR in
         let r := bool_decide (f_type x = F_PIPE_R) in
         '(dead, s) ← pipe_end s (f_pipe x) (if r then -1 else 0) (if r then if rw then -1 else 0 else -1);
         let s := if dead : bool then free_pipe (if nz (f_node x) then {| s with fifo := delete (f_node x) (fifo s) |} else s) (f_pipe x) else s in
         Some (if nz (f_node x) then ref_node s (f_node x) (-1) else s)
       else Some s);
  Some (free_file s f).

(** [fifo_open] up to the wait for the other end: an error, or the new file and [wo]. *)
Definition fifo_open (s : st) (n flags pa fa : Z) : option ((Z + Z * Z) * st) :=
  let acc := Z.land flags O_ACCMODE in
  let p := default 0 (fifo s !! n) in
  rd ← (if nz p then x ← pipes s !! p; Some (readers x) else Some 0);
  if (acc =? O_WRONLY) && nz (Z.land flags O_NONBLOCK) && (rd <=? 0) then Some (inl (-6), s) else
  let made := if nz p then Some (p, s)
              else if pa =? 0 then None
              else Some (pa, set_pipe {| s with fifo := <[n := pa]> (fifo s) |} pa zero_pipe) in
  match made with
  | None => Some (inl (- ENOMEM), s)
  | Some (p, s) =>
      let '(f, s) := file_new s fa (if acc =? O_WRONLY then F_PIPE_W else F_PIPE_R) (Z.ldiff flags 0x80000) in
      if f =? 0 then Some (inl (- ENOMEM), s) else
      x ← files s !! f;
      let s := ref_node (set_file s f {| x with f_pipe := p; f_node := n |}) n 1 in
      y ← pipes s !! p;
      let y' := {| y with
        readers := if acc =? O_WRONLY then readers y else i32 (readers y + 1);
        writers := if acc =? O_RDONLY then writers y else i32 (writers y + 1);
        wopens := if acc =? O_RDONLY then wopens y else i32 (wopens y + 1) |} in
      Some (inr (f, wopens y), set_pipe s p (pipe_wake y'))
  end.

(** A turn of the wait: [None] is "sleep"; an interrupt closes the file. *)
Definition fifo_wait (s : st) (f flags wo : Z) (intr : bool) : option (option Z * st) :=
  let acc := Z.land flags O_ACCMODE in
  x ← files s !! f;
  y ← pipes s !! f_pipe x;
  if nz (Z.land flags O_NONBLOCK) || (acc =? O_RDWR) then Some (Some 0, s) else
  if (if acc =? O_RDONLY then (writers y <=? 0) && (wopens y =? wo) else readers y <=? 0) then
    if intr then s ← file_close s f; Some (Some (-4), s) else Some (None, s)
  else Some (Some 0, s).

(** ** Reading and writing through a file *)

(** Which pipe [file_read] and [file_write] use, or the answer. *)
Definition read_pipe (x : file) : Z + Z :=
  match f_type x with
  | F_PIPE_R => inr (f_pipe x)
  | F_SPAIR => if Z.testbit (f_shut x) 0 then inl 0 else inr (f_pipe x)
  | _ => inl (- EBADF)
  end.

Definition write_pipe (x : file) : Z + Z :=
  match f_type x with
  | F_PIPE_W => inr (f_pipe x)
  | F_SPAIR => if Z.testbit (f_shut x) 1 then inl (- EPIPE) else inr (f_pipe2 x)
  | _ => inl (- EBADF)
  end.

Definition file_readable (s : st) (now f : Z) : option bool :=
  x ← files s !! f;
  match f_type x with
  | F_PIPE_R => p ← pipes s !! f_pipe x; Some ((0 <? count (ring p)) || (writers p <=? 0))
  | F_PIPE_W => Some false
  | F_SPAIR => p ← pipes s !! f_pipe x; Some ((0 <? count (ring p)) || (writers p <=? 0) || Z.testbit (f_shut x) 0)
  | F_EVENTFD => Some (0 <? f_cnt x)
  | F_TIMERFD => Some (nz (f_next x) && (0 <=? i32 (now - f_next x)))
  end.

Definition file_writable (s : st) (f : Z) : option bool :=
  x ← files s !! f;
  match f_type x with
  | F_PIPE_W => p ← pipes s !! f_pipe x; Some ((count (ring p) <? PIPE_SZ) || (readers p <=? 0))
  | F_SPAIR =>
      if Z.testbit (f_shut x) 1 then Some true else
      p ← pipes s !! f_pipe2 x; Some ((count (ring p) <? PIPE_SZ) || (readers p <=? 0))
  | F_PIPE_R => Some false
  | _ => Some true
  end.

Definition file_gen (s : st) (f : Z) : option Z :=
  x ← files s !! f;
  match f_type x with
  | F_PIPE_R | F_PIPE_W => p ← pipes s !! f_pipe x; Some (wgen p)
  | F_SPAIR => p ← pipes s !! f_pipe x; q ← pipes s !! f_pipe2 x; Some (u32 (wgen p + wgen q))
  | _ => Some 0
  end.

(** ** Event and timer descriptors *)

Definition EFD_SEMAPHORE : Z := 0x10000000.

(** A turn of the read: the value handed out, or [None] for "nothing yet". *)
Definition eventfd_take (x : file) : option (Z * file) :=
  let cur := f_cnt x in
  if nz cur then
    let v := if nz (Z.land (f_flags x) EFD_SEMAPHORE) then 1 else cur in
    Some (v, {| x with f_cnt := u64 (cur - v) |})
  else None.

Definition timerfd_take (x : file) (now : Z) : option (Z * file) :=
  if nz (f_next x) && (0 <=? i32 (now - f_next x)) then
    if nz (f_int x) then
      let v := 1 + u32 (now - f_next x) / f_int x in
      Some (v, {| x with f_next := u32 (f_next x + u32 (u32 v * f_int x)) |})
    else Some (1, {| x with f_next := 0 |})
  else None.

Definition eventfd_write (x : file) (n v : Z) : Z * file :=
  if n <? 8 then (-22, x) else if v =? 2 ^ 64 - 1 then (-22, x) else (8, {| x with f_cnt := u64 (f_cnt x + v) |}).

End Pipe.
