(* ===== verification/PipeSpec.v ===== *)
(** * What goes into a pipe comes out of it

    Any number of threads read from and write to one pipe (src/src/proc/file.c,
    [pipe_read] and [pipe_write]); turns of their loops, openings, closings and
    interrupts come in any order.  The bytes moved are logged; what was written is
    at any time what was read followed by what the ring holds. *)

From S2P Require Import Prelude Inotify Pipe.

Module PipeSpec.
Import Pipe.

Definition content (p : pipe_t) : list Z := rd (ring p) (tail (ring p)) (count (ring p)).

Record ring_ok (r : ring_t) : Prop := {
  r_tail : 0 ≤ tail r < PIPE_SZ; r_count : 0 ≤ count r ≤ PIPE_SZ; r_head : head r = (tail r + count r) mod PIPE_SZ
}.

Lemma content_length p : ring_ok (ring p) → len (content p) = count (ring p).
Proof. intros []. unfold content, Inotify.len. rewrite Inotify.rd_length. lia. Qed.

(** How many bytes a read moves. *)
Definition read_size (p : pipe_t) (want : Z) : Z :=
  Z.min TMP (Z.min want (Z.min (count (ring p)) (PIPE_SZ - tail (ring p)))).

(** A turn of a read takes bytes from the front, or takes nothing and says why. *)
Lemma read_turn_ok p nb intr n got : ring_ok (ring p) → 0 ≤ got ≤ n → n < 2 ^ 32 →
  ∃ t p', read_turn p nb intr n got = Some (t, p') ∧ ring_ok (ring p') ∧ readers p' = readers p ∧ writers p' = writers p ∧
    match t with
    | Moved b => content p = b ++ content p' ∧ len b = read_size p (n - got) ∧ count (ring p) ≠ 0
    | Return v => p' = p ∧ content p = [] ∧ (v = i32 got ∧ (got ≠ 0 ∨ writers p ≤ 0) ∨ got = 0 ∧ 0 < writers p ∧ (v = - EAGAIN ∧ nb = true ∨ v = - EINTR ∧ intr = true))
    | Sleep => p' = p ∧ content p = [] ∧ got = 0 ∧ 0 < writers p ∧ nb = false
    end.
Proof.
  intros [Ht Hc Hh] Hg Hn. unfold read_turn. cbv zeta. destruct (Z.eqb_spec (count (ring p)) 0) as [E0|E0].
  - assert (content p = []) as Hcon by (unfold content; rewrite E0; done). eexists _, _. split; [reflexivity|]. split; [by split|]. split; [done|]. split; [done|].
    unfold nz. destruct (Z.eqb_spec got 0); cbn [negb orb]; [|split_and!; auto]. destruct (Z.leb_spec (writers p) 0); [split_and!; auto|]. destruct nb; [split_and!; auto 6|]. destruct intr; split_and!; auto 8.
  - unfold from_buf. rewrite (proj2 (Z.leb_le 0 (tail (ring p)))) by lia. rewrite u32_small by lia. set (k := if TMP <? _ then _ else _).
    assert (k = read_size p (n - got)) as Ek. { unfold k, read_size, TMP. repeat case_match; bools; lia. }
    assert (0 ≤ k ≤ count (ring p) ∧ tail (ring p) + k ≤ PIPE_SZ) as Hk by (rewrite Ek; unfold read_size, TMP; lia). rewrite (proj2 (Z.leb_le _ PIPE_SZ)) by lia. cbn [andb mbind option_bind].
    eexists _, _. split; [reflexivity|]. cbn. assert (Z.rem (tail (ring p) + k) PIPE_SZ = (tail (ring p) + k) mod PIPE_SZ) as Er by (apply Z.rem_mod_nonneg; unfold Inotify.PIPE_SZ in *; lia). rewrite Er.
    split; [split; cbn; [apply Z.mod_pos_bound; done|lia|]|]. { rewrite Hh, Zplus_mod_idemp_l. f_equal. lia. }
    split; [done|]. split; [done|]. split; [|split; [unfold Inotify.len; rewrite Inotify.rd_length; lia|done]].
    unfold content. cbn. change (rd _ ((tail (ring p) + k) mod PIPE_SZ)) with (rd (ring p) ((tail (ring p) + k) mod PIPE_SZ)). rewrite Inotify.rd_mod, <- Inotify.rd_app by lia. f_equal. lia.
Qed.

Definition write_size (p : pipe_t) (want : Z) : Z :=
  Z.min (Z.min TMP want) (Z.min (PIPE_SZ - count (ring p)) (PIPE_SZ - head (ring p))).

(** A turn of a write puts bytes at the end, or nothing and says why. *)
Lemma write_turn_ok p nb intr n put rest : ring_ok (ring p) → 0 ≤ put ≤ n → n < 2 ^ 32 → len rest = n - put →
  ∃ t sp p', write_turn p nb intr n put rest = Some (t, sp, p') ∧ ring_ok (ring p') ∧ readers p' = readers p ∧ writers p' = writers p ∧ (sp = true ↔ readers p ≤ 0) ∧
    match t with
    | Moved b => content p' = content p ++ b ∧ b = firstn (Z.to_nat (write_size p (n - put))) rest ∧ 0 ≤ write_size p (n - put) ≤ n - put ∧ 0 < readers p ∧ count (ring p) < PIPE_SZ
    | Return v => p' = p ∧ (readers p ≤ 0 ∨ count (ring p) = PIPE_SZ) ∧ (v = i32 put ∧ put ≠ 0 ∨ put = 0 ∧ (v = - EPIPE ∧ readers p ≤ 0 ∨ v = - EAGAIN ∧ nb = true ∨ v = - EINTR ∧ intr = true))
    | Sleep => p' = p ∧ 0 < readers p ∧ count (ring p) = PIPE_SZ ∧ nb = false
    end.
Proof.
  intros [Ht Hc Hh] Hp Hn Hl. unfold write_turn. cbv zeta. rewrite u32_small by lia. set (k := if _ <? TMP then _ else _). assert (k = Z.min TMP (n - put)) as Ek by (unfold k, TMP; case_match; bools; lia).
  rewrite (proj2 (Z.ltb_ge _ _)) by lia. destruct (Z.leb_spec (readers p) 0) as [Hr|Hr].
  { eexists _, _, _. split; [reflexivity|]. split; [by split|]. split_and!; try done. { by left. } unfold nz. destruct (Z.eqb_spec put 0); cbn [negb]; [right; auto|left; auto]. }
  destruct (Z.eqb_spec (count (ring p)) PIPE_SZ) as [Ef|Ef].
  { eexists _, _, _. split; [reflexivity|]. split; [by split|]. split; [done|]. split; [done|]. split; [split; [done|lia]|]. destruct nb; [|destruct intr; [|done]]; split_and!; auto; unfold nz; destruct (Z.eqb_spec put 0); cbn [negb]; auto 8. }
  set (c := if k <? _ then k else _). pose proof (Z.mod_pos_bound (tail (ring p) + count (ring p)) PIPE_SZ ltac:(done)) as Hhr. rewrite <- Hh in Hhr.
  assert (c = write_size p (n - put)) as Ec. { unfold c, write_size. rewrite Ek. unfold TMP. repeat case_match; bools; lia. }
  assert (0 ≤ c ≤ k ∧ c ≤ PIPE_SZ - count (ring p) ∧ c ≤ PIPE_SZ - head (ring p)) as Hcb by (rewrite Ec; unfold write_size, TMP in *; lia).
  rewrite take_take. replace (Z.to_nat c `min` Z.to_nat k)%nat with (Z.to_nat c) by lia. set (b := firstn (Z.to_nat c) rest). assert (len b = c) as Hb. { unfold b, Inotify.len in *. rewrite length_firstn. lia. }
  unfold to_buf. rewrite (proj2 (Z.leb_le 0 _)), (proj2 (Z.leb_le _ PIPE_SZ)) by lia. cbn [andb mbind option_bind]. eexists _, _, _. split; [reflexivity|]. cbn.
  assert (Z.rem (head (ring p) + c) PIPE_SZ = (head (ring p) + c) mod PIPE_SZ) as Er by (apply Z.rem_mod_nonneg; unfold Inotify.PIPE_SZ in *; lia). rewrite Er.
  split; [split; cbn; [done|lia|]|]. { rewrite Hh, Zplus_mod_idemp_l. f_equal. lia. }
  split; [done|]. split; [done|]. split; [split; [done|lia]|]. split; [|rewrite <- Ec; split_and!; try done; lia].
  unfold content. cbn. rewrite Inotify.rd_app by lia. f_equal.
  - eapply Inotify.rd_kept; [lia|rewrite Hb; lia|]. cbn. by rewrite <- Hh.
  - rewrite <- Inotify.rd_mod, <- Hh, <- Hb. apply (Inotify.rd_written (ring p) (head (ring p)) b 0 0 0). rewrite Hb. unfold Inotify.PIPE_SZ in *. lia.
Qed.

(** [tee] sees the front of the pipe, across the end of the ring. *)
Lemma tee_turn_ok p nb intr n : ring_ok (ring p) → 0 ≤ n →
  ∃ t, tee_turn p nb intr n = Some t ∧ match t with Moved b => b = firstn (Z.to_nat n) (content p) ∧ content p ≠ [] | _ => content p = [] end.
Proof.
  intros [Ht Hc Hh] Hn. unfold tee_turn. cbv zeta. destruct (Z.eqb_spec (count (ring p)) 0) as [E0|E0].
  { assert (content p = []) as Hcon by (unfold content; rewrite E0; done). eexists. split; [reflexivity|]. destruct (writers p <=? 0), nb, intr; done. }
  set (k := if count (ring p) <? _ then _ else _). set (c1 := if k <? _ then k else _). assert (k = Z.min n (count (ring p))) as Ek by (unfold k; repeat case_match; bools; lia).
  assert (0 ≤ c1 ≤ k ∧ c1 ≤ PIPE_SZ - tail (ring p) ∧ (c1 = k ∨ tail (ring p) + c1 = PIPE_SZ)) as Hk by (unfold c1; case_match; bools; lia).
  unfold from_buf. rewrite (proj2 (Z.leb_le 0 (tail _))), (proj2 (Z.leb_le (tail _ + c1) _)) by lia. cbn [andb mbind option_bind]. rewrite (proj2 (Z.leb_le (0 + _) _)) by lia. cbn [andb mbind option_bind].
  eexists. split; [reflexivity|]. split.
  - assert (rd (ring p) 0 (k - c1) = rd (ring p) (tail (ring p) + c1) (k - c1)) as ->. { destruct Hk as (_ & _ & [->|E]); [by rewrite Z.sub_diag|]. rewrite E, <- (Inotify.rd_mod _ PIPE_SZ), Z.mod_same by done. done. }
    rewrite <- Inotify.rd_app by lia. replace (c1 + (k - c1)) with k by lia. unfold content. replace (count (ring p)) with (k + (count (ring p) - k)) by lia. rewrite Inotify.rd_app by lia.
    destruct (decide (n ≤ count (ring p))); [rewrite take_app_length'; [done|rewrite Inotify.rd_length; lia]|]. replace (count (ring p) - k) with 0 by lia. change (rd _ _ 0) with (@nil Z). rewrite app_nil_r. symmetry. apply take_ge. rewrite Inotify.rd_length. lia.
  - intros E. apply (f_equal length) in E. unfold content in E. rewrite Inotify.rd_length in E. cbn in E. lia.
Qed.

(** ** Threads *)

Inductive thread :=
  | Reader (n : Z) (nb : bool) (got : list Z) (res : option Z)
  | Writer (nb : bool) (data : list Z) (put : Z) (res : option Z).

(** [wlog] and [rlog]: who put in and took out what, in order. *)
Record run := Run { rp : pipe_t; ths : list thread; wlog : list (nat * list Z); rlog : list (nat * list Z) }.

Inductive event := Turn (i : nat) (intr : bool) | Ends (dr dw : Z) | Start (t : thread).

(** The loop of [pipe_read] around a turn. *)
Definition read_step (r : run) (i : nat) (intr : bool) (n : Z) (nb : bool) (got : list Z) : option run :=
  '(t, p) ← read_turn (rp r) nb intr n (len got);
  let r := {| r with rp := p |} in
  Some (match t with
        | Return v => {| r with ths := <[i := Reader n nb got (Some v)]> (ths r) |}
        | Sleep => r
        | Moved b =>
            let got := got ++ b in
            {| r with ths := <[i := Reader n nb got (if n <=? len got then Some (i32 (len got)) else None)]> (ths r); rlog := rlog r ++ [(i, b)] |}
        end).

(** The loop of [pipe_write] around a turn. *)
Definition write_step (r : run) (i : nat) (intr nb : bool) (data : list Z) (put : Z) : option run :=
  if len data <=? put then Some {| r with ths := <[i := Writer nb data put (Some (i32 put))]> (ths r) |} else
  '(t, _, p) ← write_turn (rp r) nb intr (len data) put (skipn (Z.to_nat put) data);
  let r := {| r with rp := p |} in
  Some (match t with
        | Return v => {| r with ths := <[i := Writer nb data put (Some v)]> (ths r) |}
        | Sleep => r
        | Moved b => {| r with ths := <[i := Writer nb data (put + len b) None]> (ths r); wlog := wlog r ++ [(i, b)] |}
        end).

Definition step (e : event) (r : run) : option run :=
  match e with
  | Start t => Some {| r with ths := ths r ++ [t] |}
  | Ends dr dw => let p := rp r in Some {| r with rp := pipe_wake {| p with readers := i32 (readers p + dr); writers := i32 (writers p + dw) |} |}
  | Turn i intr =>
      match ths r !! i with
      | Some (Reader n nb got None) => read_step r i intr n nb got
      | Some (Writer nb data put None) => write_step r i intr nb data put
      | _ => Some r
      end
  end.

Fixpoint steps (es : list event) (r : run) : option run := match es with [] => Some r | e :: es => r ← step e r; steps es r end.

(** A call as it begins; its length is a [uint32_t]. *)
Definition starts (t : thread) : Prop :=
  match t with Reader n _ got res => 0 ≤ n < 2 ^ 32 ∧ got = [] ∧ res = None | Writer _ data put res => len data < 2 ^ 32 ∧ put = 0 ∧ res = None end.

Definition legal (e : event) : Prop := match e with Start t => starts t | _ => True end.

(** The bytes of a log, of all threads or of one. *)
Definition bytes (l : list (nat * list Z)) : list Z := l ≫= snd.
Definition bytes_of (i : nat) (l : list (nat * list Z)) : list Z := l ≫= λ e, if decide (e.1 = i) then e.2 else [].

(** A thread got, or put, what its log entries say, and its answer is that. *)
Definition told (r : run) (i : nat) (t : thread) : Prop :=
  match t with
  | Reader n nb got res => 0 ≤ n < 2 ^ 32 ∧ len got ≤ n ∧ bytes_of i (rlog r) = got ∧ bytes_of i (wlog r) = [] ∧ ∀ v, res = Some v → v = i32 (len got) ∨ got = [] ∧ v < 0
  | Writer nb data put res => len data < 2 ^ 32 ∧ 0 ≤ put ≤ len data ∧ bytes_of i (wlog r) = firstn (Z.to_nat put) data ∧ bytes_of i (rlog r) = [] ∧
      ∀ v, res = Some v → v = i32 put ∨ put = 0 ∧ v < 0
  end.

Record stream_ok (r : run) : Prop := {
  so_ring : ring_ok (ring (rp r));
  so_fifo : bytes (wlog r) = bytes (rlog r) ++ content (rp r);
  so_told : ∀ i t, ths r !! i = Some t → told r i t;
  so_new : ∀ i e, e ∈ wlog r ++ rlog r → e.1 = i → (i < length (ths r))%nat
}.

Lemma bytes_snoc l i b : bytes (l ++ [(i, b)]) = bytes l ++ b.
Proof. unfold bytes. rewrite bind_app. cbn. by rewrite app_nil_r. Qed.

Lemma bytes_of_snoc j l i b : bytes_of j (l ++ [(i, b)]) = bytes_of j l ++ (if decide (i = j) then b else []).
Proof. unfold bytes_of. rewrite bind_app. cbn. by rewrite app_nil_r. Qed.

Lemma bytes_of_new i l : (∀ e, e ∈ l → e.1 ≠ i) → bytes_of i l = [].
Proof. unfold bytes_of. induction l as [|e l IH]; intros H; [done|]. cbn. rewrite decide_False by (apply H, list_elem_of_here). apply IH. intros e' He'. apply H. by apply list_elem_of_further. Qed.

Lemma told_same r r' i t : bytes_of i (rlog r') = bytes_of i (rlog r) → bytes_of i (wlog r') = bytes_of i (wlog r) → told r i t → told r' i t.
Proof. intros H1 H2. destruct t; cbn; by rewrite H1, H2. Qed.

(** One thread changes. *)
Lemma stream_set r i t0 t p' wl rl : stream_ok r → ths r !! i = Some t0 → ring_ok (ring p') → bytes wl = bytes rl ++ content p' →
  (∀ j, j ≠ i → bytes_of j wl = bytes_of j (wlog r) ∧ bytes_of j rl = bytes_of j (rlog r)) → (∀ e, e ∈ wl ++ rl → e ∈ wlog r ++ rlog r ∨ e.1 = i) →
  told (Run p' (<[i := t]> (ths r)) wl rl) i t → stream_ok (Run p' (<[i := t]> (ths r)) wl rl).
Proof.
  intros [H1 H2 H3 H4] Hi Hr Hf Hj He Ht. split; cbn; [done..| |].
  - intros j t' Hjt. destruct (decide (j = i)) as [->|Hne]; [rewrite list_lookup_insert_eq in Hjt by (by apply lookup_lt_Some in Hi); by injection Hjt as <-|].
    rewrite list_lookup_insert_ne in Hjt by done. destruct (Hj j Hne). apply (told_same r); [done..|]. by apply H3.
  - intros j e Hin E. rewrite length_insert. destruct (He e Hin) as [Ho|Ho]; [by apply (H4 j e)|]. rewrite <- E, Ho. by apply lookup_lt_Some in Hi.
Qed.

(** Only the ring's bookkeeping changes. *)
Lemma stream_pipe r p' : stream_ok r → ring_ok (ring p') → content p' = content (rp r) → stream_ok {| r with rp := p' |}.
Proof. intros [H1 H2 H3 H4] Hr Hc. split; cbn; [done|by rewrite Hc| |done]. intros i t Ht. apply (told_same r); [done..|]. by apply H3. Qed.

Lemma i32_nonneg x : 0 ≤ x < 2 ^ 31 → i32 x = x.
Proof. intros H. unfold i32. rewrite Z.mod_small; lia. Qed.

Lemma read_step_ok r i intr n nb got : stream_ok r → ths r !! i = Some (Reader n nb got None) → ∃ r', read_step r i intr n nb got = Some r' ∧ stream_ok r'.
Proof.
  intros Hok Hi. destruct (so_told _ Hok _ _ Hi) as (Hn & Hg & Hb & Hw & _). assert (0 ≤ len got) as Hg0 by (unfold Inotify.len; lia).
  destruct (read_turn_ok (rp r) nb intr n (len got) (so_ring _ Hok) ltac:(lia) ltac:(lia)) as (t & p' & E & Hr & _ & _ & Ht). unfold read_step. rewrite E. cbn [mbind option_bind]. eexists. split; [reflexivity|].
  destruct t as [v| |b]; cbn.
  - destruct Ht as (-> & _ & Hv). apply (stream_set _ _ _ _ _ _ _ Hok Hi); try done; [apply (so_fifo _ Hok)|auto|]. cbn. split_and!; try done; try lia. intros v' [= <-]. destruct Hv as [[Hv _]|(Hv1 & _ & Hv2)]; [by left|]. right.
    split; [by destruct got|]. unfold EAGAIN, EINTR in Hv2. lia.
  - destruct Ht as (-> & _). by destruct r.
  - destruct Ht as (Hc & Hl & _). assert (len b ≤ n - len got) as Hlb by (rewrite Hl; unfold read_size, TMP; lia). apply (stream_set _ _ _ _ _ _ _ Hok Hi); try done.
    + rewrite bytes_snoc, <- app_assoc, <- Hc. apply (so_fifo _ Hok).
    + intros j Hj. split; [done|]. rewrite bytes_of_snoc, decide_False by done. apply app_nil_r.
    + intros e. rewrite app_assoc. intros [He|He]%elem_of_app; [by left|]. right. by apply list_elem_of_singleton in He as ->.
    + unfold told. cbn [rlog wlog]. rewrite bytes_of_snoc, decide_True, Hb by done. assert (len (got ++ b) ≤ n) by (unfold Inotify.len in *; rewrite length_app; lia). split_and!; try done; try lia. intros v. destruct (n <=? _); [|done]. intros [= <-]. by left.
Qed.

Lemma write_step_ok r i intr nb data put : stream_ok r → ths r !! i = Some (Writer nb data put None) → ∃ r', write_step r i intr nb data put = Some r' ∧ stream_ok r'.
Proof.
  intros Hok Hi. destruct (so_told _ Hok _ _ Hi) as (Hn & Hp & Hw & Hb & _). unfold write_step. destruct (Z.leb_spec (len data) put) as [Hd|Hd].
  { eexists. split; [reflexivity|]. apply (stream_set _ _ _ _ _ _ _ Hok Hi); try done; [apply (so_ring _ Hok)|apply (so_fifo _ Hok)|auto|]. cbn. split_and!; try done; try lia. intros v [= <-]. by left. }
  destruct (write_turn_ok (rp r) nb intr (len data) put (skipn (Z.to_nat put) data) (so_ring _ Hok) ltac:(lia) ltac:(lia)) as (t & sp & p' & E & Hr & _ & _ & _ & Ht); [unfold Inotify.len in *; rewrite length_skipn; lia|].
  rewrite E. cbn [mbind option_bind]. eexists. split; [reflexivity|]. destruct t as [v| |b]; cbn.
  - destruct Ht as (-> & _ & Hv). apply (stream_set _ _ _ _ _ _ _ Hok Hi); try done; [apply (so_fifo _ Hok)|auto|]. cbn. split_and!; try done; try lia. intros v' [= <-]. destruct Hv as [[Hv _]|(Hv1 & Hv2)]; [by left|]. right. split; [done|]. unfold EPIPE, EAGAIN, EINTR in Hv2. lia.
  - destruct Ht as (-> & _). by destruct r.
  - destruct Ht as (Hc & Eb & Hs & _). assert (len b = write_size (rp r) (len data - put)) as Hl. { rewrite Eb. unfold Inotify.len in *. rewrite length_firstn, length_skipn. lia. }
    apply (stream_set _ _ _ _ _ _ _ Hok Hi); try done.
    + rewrite bytes_snoc, Hc, app_assoc. f_equal. apply (so_fifo _ Hok).
    + intros j Hj. split; [|done]. rewrite bytes_of_snoc, decide_False by done. apply app_nil_r.
    + intros e [[He|He]%elem_of_app|He]%elem_of_app; [left; set_solver|right; by apply list_elem_of_singleton in He as ->|left; set_solver].
    + unfold told. cbn [rlog wlog]. rewrite bytes_of_snoc, decide_True, Hw by done. split_and!; try done; try lia. rewrite Hl, Eb, take_take_drop. f_equal. lia.
Qed.

Lemma step_ok e r : stream_ok r → legal e → ∃ r', step e r = Some r' ∧ stream_ok r'.
Proof.
  intros Hok Hl. destruct e as [i intr|dr dw|t]; cbn [step].
  - destruct (ths r !! i) as [[n nb got [v|]|nb data put [v|]]|] eqn:Hi; try (by exists r); [by apply read_step_ok|by apply write_step_ok].
  - eexists. split; [reflexivity|]. apply (stream_pipe r); [done| |done]. destruct (so_ring _ Hok). by split.
  - eexists. split; [reflexivity|]. destruct Hok as [H1 H2 H3 H4]. split; cbn; [done..| |].
    + intros i t' Hi. apply lookup_app_Some in Hi as [Hi|[Hi Ht]]; [apply (told_same r); [done..|by apply H3]|]. apply list_lookup_singleton_Some in Ht as [Hi0 ->]. assert (i = length (ths r)) as -> by lia.
      assert (∀ l, (∀ e, e ∈ l → e ∈ wlog r ++ rlog r) → bytes_of (length (ths r)) l = []) as Hnew. { intros l Hin. apply bytes_of_new. intros e He E. specialize (H4 _ e (Hin e He) E). lia. }
      assert (bytes_of (length (ths r)) (wlog r) = [] ∧ bytes_of (length (ths r)) (rlog r) = []) as [W R] by (split; apply Hnew; set_solver). destruct t' as [n nb got res|nb data put res]; destruct Hl as (Hl & -> & ->); unfold told; cbn [rlog wlog]; rewrite W, R; split_and!; try done; unfold Inotify.len in *; cbn; lia.
    + intros i e He E. rewrite length_app. specialize (H4 i e He E). lia.
Qed.

Lemma steps_ok es : ∀ r, stream_ok r → Forall legal es → ∃ r', steps es r = Some r' ∧ stream_ok r'.
Proof.
  induction es as [|e es IH]; intros r Hok Hl; [by exists r|]. apply Forall_cons in Hl as [Hl Hls]. destruct (step_ok e r Hok Hl) as (r1 & E & Hok1). cbn. rewrite E. cbn. by apply IH.
Qed.

Definition new_run (rs ws : Z) : run := Run {| zero_pipe with readers := rs; writers := ws |} [] [] [].

Lemma new_run_ok rs ws : stream_ok (new_run rs ws).
Proof. split; cbn; [split; cbn; done|done| |]. { intros i t Ht. by rewrite lookup_nil in Ht. } intros i e He. by apply elem_of_nil in He. Qed.

(** ** Timer and event descriptors *)

(** A read of a periodic timer hands out the expiries so far, and the next one is ahead. *)
Lemma timerfd_next x now v x' : 0 ≤ f_next x < 2 ^ 32 → 0 < f_int x ≤ 2 ^ 31 → 0 ≤ now < 2 ^ 32 → timerfd_take x now = Some (v, x') →
  let d := u32 (now - f_next x) in v = 1 + d / f_int x ∧ (v - 1) * f_int x ≤ d < v * f_int x ∧ i32 (now - f_next x') < 0.
Proof.
  intros Hn Hi Hnow. unfold timerfd_take. destruct (nz (f_next x) && (0 <=? i32 (now - f_next x))) eqn:E; [|done]. apply andb_true_iff in E as [_ E]. apply Z.leb_le in E. assert (nz (f_int x) = true) as -> by (unfold nz; by rewrite (proj2 (Z.eqb_neq _ 0)) by lia).
  intros [= <- <-]. cbn. set (d := u32 (now - f_next x)). assert (0 ≤ d < 2 ^ 31 ∧ ∃ k, now - f_next x = d + k * 2 ^ 32) as [Hd [k Hk]].
  { unfold d, u32, i32 in *. pose proof (Z.div_mod (now - f_next x) (2 ^ 32) ltac:(lia)). pose proof (Z.mod_pos_bound (now - f_next x) (2 ^ 32) ltac:(lia)). split; [|exists ((now - f_next x) / 2 ^ 32); lia]. split; [lia|].
    assert ((now - f_next x + 2 ^ 31) mod 2 ^ 32 = ((now - f_next x) mod 2 ^ 32 + 2 ^ 31) mod 2 ^ 32) as Em by (by rewrite Zplus_mod_idemp_l). rewrite Em in E. destruct (decide ((now - f_next x) mod 2 ^ 32 < 2 ^ 31)); [done|].
    rewrite <- (Z.mod_add _ (-1)) in E by lia. rewrite Z.mod_small in E by lia. lia. }
  pose proof (Z.div_mod d (f_int x) ltac:(lia)) as Hdm. pose proof (Z.mod_pos_bound d (f_int x) ltac:(lia)) as Hmb. pose proof (Z.div_pos d (f_int x) ltac:(lia) ltac:(lia)) as Hq. set (q := d / f_int x) in *. split; [done|]. split; [nia|].
  set (r := f_int x - d mod f_int x) in *. assert ((1 + q) * f_int x = d + r) as Hv by nia. assert (0 < r ≤ 2 ^ 31) as Hr by lia.
  assert (u32 (f_next x + u32 (u32 (1 + q) * f_int x)) = (now + r) mod 2 ^ 32) as ->. { unfold u32. rewrite Zplus_mod_idemp_r, <- (Zplus_mod_idemp_r (_ * _)), Zmult_mod_idemp_l, Zplus_mod_idemp_r, Hv. replace (f_next x + (d + r)) with (now + r + (- k) * 2 ^ 32) by lia. by rewrite Z.mod_add. }
  unfold i32. pose proof (Z.div_mod (now + r) (2 ^ 32) ltac:(lia)) as Hx. set (c := (now + r) / 2 ^ 32) in *. replace (now - (now + r) mod 2 ^ 32 + 2 ^ 31) with (2 ^ 31 - r + c * 2 ^ 32) by lia. rewrite Z.mod_add, Z.mod_small by lia. lia.
Qed.

(** The counter of an event descriptor wraps around: a write can empty it. *)
Lemma eventfd_wraps x : f_cnt x = 1 → let '(r, x1) := eventfd_write x 8 (2 ^ 64 - 2) in let '(r', x2) := eventfd_write x1 8 1 in r = 8 ∧ r' = 8 ∧ f_cnt x2 = 0 ∧ eventfd_take x2 = None.
Proof. intros H. unfold eventfd_write. cbn. rewrite H. by vm_compute. Qed.

(** C33: However the turns of any number of reads and writes on a pipe, its openings
    and closings and interrupts interleave, no turn leaves the ring, the bytes written
    are at any time the bytes read followed by the bytes in the ring, every reader got
    exactly the pieces it took, in order, every writer put in a prefix of its data in
    order, and a call's answer is that number of bytes or an error with none moved. *)
Theorem pipe_stream rs ws es : Forall legal es → ∃ r, steps es (new_run rs ws) = Some r ∧ stream_ok r.
Proof. intros Hl. apply steps_ok; [apply new_run_ok|done]. Qed.

Definition hello : list event :=
  [Start (Writer false [104; 105; 10] 0 None); Start (Reader 2 false [] None); Turn 1 false; Turn 0 false; Turn 1 false; Turn 0 false].

Lemma pipe_stream_witness : Forall legal hello ∧ ∃ r, steps hello (new_run 1 1) = Some r ∧ bytes (wlog r) = [104; 105; 10] ∧ content (rp r) = [10].
Proof.
  assert (Forall legal hello) as Hl by (repeat constructor; cbn; lia). split; [exact Hl|]. destruct (pipe_stream 1 1 hello Hl) as (r & E & Hok). exists r. split; [exact E|].
  assert (rlog r = [(1%nat, [104; 105])] ∧ wlog r = [(0%nat, [104; 105; 10])]) as [Er Ew] by (vm_compute in E; injection E as <-; split; reflexivity).
  pose proof (so_fifo _ Hok) as Hf. rewrite Er, Ew in *. split; [reflexivity|]. cbn in Hf. by injection Hf.
Defined.

End PipeSpec.
