(* ===== verification/PipeLife.v ===== *)
(** * Pipes live as long as somebody has them open

    The counts of readers and writers of a pipe are the open files that read and
    write it, and it is freed exactly with the last of them (src/src/proc/file.c).
    The calls run one after the other, under the kernel lock. *)

From S2P Require Import Prelude Refs Inotify Pipe PipeSpec.

Module PipeLife.
Import Pipe.

(** ** Sums over a table *)

Definition tot {A} (g : A → Z) (m : gmap Z A) : Z := foldr (λ kx, Z.add (g kx.2)) 0 (map_to_list m).

Lemma tot_perm {A} (g : A → Z) (l k : list (Z * A)) : l ≡ₚ k → foldr (λ kx, Z.add (g kx.2)) 0 l = foldr (λ kx, Z.add (g kx.2)) 0 k.
Proof. induction 1 as [|x l k _ IH|x y l|l1 l2 l3 _ IH1 _ IH2]; cbn; [done|by rewrite IH|lia|by rewrite IH1]. Qed.

Lemma tot_insert {A} (g : A → Z) m k x : tot g (<[k := x]> m) = g x + tot g (delete k m).
Proof. unfold tot. rewrite <- insert_delete_eq. rewrite (tot_perm g _ _ (map_to_list_insert (delete k m) k x (lookup_delete_eq m k))). done. Qed.

Lemma tot_delete {A} (g : A → Z) m k x : m !! k = Some x → tot g (delete k m) = tot g m - g x.
Proof. intros H. rewrite <- (insert_id m k x H) at 2. rewrite tot_insert. lia. Qed.

Lemma tot_nonneg {A} (g : A → Z) m : (∀ x, 0 ≤ g x) → 0 ≤ tot g m.
Proof. intros H. unfold tot. induction (map_to_list m) as [|[k x] l IH]; cbn; [lia|]. specialize (H x). lia. Qed.

Lemma tot_elem {A} (g : A → Z) m k x : (∀ x, 0 ≤ g x) → m !! k = Some x → g x ≤ tot g m.
Proof. intros Hg Hk. pose proof (tot_delete g m k x Hk). pose proof (tot_nonneg g (delete k m) Hg). lia. Qed.

(** ** Who has a pipe open *)

Definition reads (p : Z) (x : file) : Z :=
  match f_type x with
  | F_PIPE_R => b2z (f_pipe x =? p)
  | F_SPAIR => b2z ((f_pipe x =? p) && negb (Z.testbit (f_shut x) 0))
  | _ => 0
  end.

Definition is_rw (x : file) : bool := Z.land (f_flags x) O_ACCMODE =? O_RDWR.

Definition writes (p : Z) (x : file) : Z :=
  match f_type x with
  | F_PIPE_R => b2z ((f_pipe x =? p) && is_rw x)
  | F_PIPE_W => b2z (f_pipe x =? p)
  | F_SPAIR => b2z ((f_pipe2 x =? p) && negb (Z.testbit (f_shut x) 1))
  | _ => 0
  end.

Lemma reads_range p x : 0 ≤ reads p x ≤ 1.
Proof. unfold reads. destruct (f_type x); try lia; match goal with |- context [b2z ?b] => destruct b end; cbn; lia. Qed.

Lemma writes_range p x : 0 ≤ writes p x ≤ 1.
Proof. unfold writes. destruct (f_type x); try lia; match goal with |- context [b2z ?b] => destruct b end; cbn; lia. Qed.

(** A file whose pipes are there. *)
Definition file_fine (s : st) (x : file) : Prop :=
  1 ≤ f_refs x < 2 ^ 31 ∧ f_shut x = 0 ∧
  match f_type x with
  | F_PIPE_R | F_PIPE_W => f_pipe x ≠ 0 ∧ is_Some (pipes s !! f_pipe x) ∧ (if nz (f_node x) then fifo s !! f_node x = Some (f_pipe x) else ∀ n, fifo s !! n ≠ Some (f_pipe x))
  | F_SPAIR => f_pipe x ≠ f_pipe2 x ∧ is_Some (pipes s !! f_pipe x) ∧ is_Some (pipes s !! f_pipe2 x) ∧ ∀ n, fifo s !! n ≠ Some (f_pipe x) ∧ fifo s !! n ≠ Some (f_pipe2 x)
  | _ => f_pipe x = 0
  end.

(** [k] has a pipe once for each open with both access bits set: it counts a writer
    that no close takes back.  [b] are the pipes of named pipes whose first open
    failed after the pipe was made, as long as no other open has succeeded. *)
Record pipe_fine (s : st) (k b : list Z) (p : Z) (y : pipe_t) : Prop := {
  pf_addr : p ≠ 0;
  pf_ring : PipeSpec.ring_ok (ring y);
  pf_readers : readers y = tot (reads p) (files s);
  pf_writers : writers y = tot (writes p) (files s) + occ p k;
  pf_small : readers y < 2 ^ 31 ∧ writers y < 2 ^ 31;
  pf_gone : gone y = 0;
  pf_used : 0 < readers y + writers y ↔ p ∉ b
}.

Record life (s : st) (k b : list Z) : Prop := {
  l_file : ∀ f x, files s !! f = Some x → f ≠ 0 ∧ file_fine s x;
  l_pipe : ∀ p y, pipes s !! p = Some y → pipe_fine s k b p y;
  l_fifo : ∀ n p, fifo s !! n = Some p → n ≠ 0 ∧ is_Some (pipes s !! p);
  l_once : ∀ n m p, fifo s !! n = Some p → fifo s !! m = Some p → n = m;
  l_ghost : ∀ p, p ∈ k ∨ p ∈ b → ∃ n, fifo s !! n = Some p
}.

(** A file that has a pipe open is counted. *)
Lemma user_counted p x : f_shut x = 0 → (f_type x = F_PIPE_R ∨ f_type x = F_PIPE_W) ∧ f_pipe x = p ∨ f_type x = F_SPAIR ∧ (f_pipe x = p ∨ f_pipe2 x = p) → 0 < reads p x + writes p x.
Proof.
  intros Hs H. pose proof (reads_range p x). pose proof (writes_range p x). assert (reads p x = 1 ∨ writes p x = 1); [|lia].
  unfold reads, writes. rewrite Hs. destruct H as [[[E|E] H]|[E [H|H]]]; rewrite E, H, Z.eqb_refl; cbn; auto.
Qed.

(** The pipes of a file. *)
Definition uses (x : file) (p : Z) : Prop := (f_type x = F_PIPE_R ∨ f_type x = F_PIPE_W) ∧ f_pipe x = p ∨ f_type x = F_SPAIR ∧ (f_pipe x = p ∨ f_pipe2 x = p).

Lemma not_user p x : ¬ uses x p → reads p x = 0 ∧ writes p x = 0.
Proof.
  unfold uses, reads, writes. destruct (f_type x); intros H; try done.
  - rewrite (proj2 (Z.eqb_neq (f_pipe x) p)) by naive_solver. done.
  - rewrite (proj2 (Z.eqb_neq (f_pipe x) p)) by naive_solver. done.
  - rewrite (proj2 (Z.eqb_neq (f_pipe x) p)), (proj2 (Z.eqb_neq (f_pipe2 x) p)) by naive_solver. done.
Qed.

Lemma file_fine_uses s x p : file_fine s x → uses x p → is_Some (pipes s !! p).
Proof. intros (_ & _ & H) [[[E|E] <-]|[E [<- | <-]]]; rewrite E in H; naive_solver. Qed.

(** A file stays fine when its pipes and the named pipes stay. *)
Lemma file_fine_keep s s' x : file_fine s x → (∀ p, uses x p → is_Some (pipes s' !! p)) → (∀ n p, uses x p → fifo s' !! n = Some p ↔ fifo s !! n = Some p) → file_fine s' x.
Proof.
  intros (H1 & H2 & H3) Hp Hf. split; [done|]. split; [done|]. unfold uses in *. destruct (f_type x); try done.
  - destruct H3 as (H3 & _ & H4). split; [done|]. split; [apply Hp; auto|]. destruct (nz (f_node x)); [apply Hf; auto|]. intros n E. apply Hf in E; [by apply (H4 n)|auto].
  - destruct H3 as (H3 & _ & H4). split; [done|]. split; [apply Hp; auto|]. destruct (nz (f_node x)); [apply Hf; auto|]. intros n E. apply Hf in E; [by apply (H4 n)|auto].
  - destruct H3 as (H3 & _ & _ & H4). split; [done|]. split; [apply Hp; auto|]. split; [apply Hp; auto|]. intros n. destruct (H4 n) as [N1 N2]. split; intros E; apply Hf in E; auto.
Qed.

(** ** A file goes *)

Lemma occ_nonneg p k : 0 ≤ occ p k.
Proof. pose proof (countb_range (Z.eqb p) k). unfold occ. lia. Qed.

Lemma counts_left s k b f x p y : life s k b → files s !! f = Some x → pipes s !! p = Some y →
  tot (reads p) (delete f (files s)) = readers y - reads p x ∧ tot (writes p) (delete f (files s)) + occ p k = writers y - writes p x ∧
  0 ≤ readers y - reads p x < 2 ^ 31 ∧ occ p k ≤ writers y - writes p x < 2 ^ 31.
Proof.
  intros Hl Hf Hp. destruct (l_pipe _ _ _ Hl p y Hp) as [_ _ Hr Hw Hs _ _]. pose proof (tot_delete (reads p) _ _ _ Hf). pose proof (tot_delete (writes p) _ _ _ Hf).
  pose proof (tot_nonneg (reads p) (delete f (files s)) (λ z, proj1 (reads_range p z))). pose proof (tot_nonneg (writes p) (delete f (files s)) (λ z, proj1 (writes_range p z))).
  pose proof (reads_range p x). pose proof (writes_range p x). lia.
Qed.

(** A pipe with a file has no place in [b]. *)
Lemma user_not_bare s k b f x p : life s k b → files s !! f = Some x → uses x p → p ∉ b.
Proof.
  intros Hl Hf Hu. destruct (l_file _ _ _ Hl f x Hf) as [_ Hfine]. destruct (file_fine_uses s x p Hfine Hu) as [y Hy]. apply (pf_used _ _ _ _ _ (l_pipe _ _ _ Hl p y Hy)).
  destruct (counts_left s k b f x p y Hl Hf Hy) as (_ & _ & H1 & H2). pose proof (occ_nonneg p k). pose proof (user_counted p x (proj1 (proj2 Hfine)) Hu). lia.
Qed.

Lemma life_drop s k b s' f x : life s k b → files s !! f = Some x → files s' = delete f (files s) →
  (∀ p y', pipes s' !! p = Some y' → ∃ y, pipes s !! p = Some y ∧ PipeSpec.ring_ok (ring y') ∧ readers y' = readers y - reads p x ∧ writers y' = writers y - writes p x ∧
     gone y' = 0 ∧ (0 < readers y' + writers y' ↔ p ∉ b)) →
  (∀ p y, pipes s !! p = Some y → is_Some (pipes s' !! p) ∨ uses x p ∧ readers y - reads p x = 0 ∧ writers y - writes p x = 0) →
  (∀ n p, fifo s' !! n = Some p ↔ fifo s !! n = Some p ∧ is_Some (pipes s' !! p)) → life s' k b.
Proof.
  intros Hl Hf Hfs Hnew Hold Hff. split.
  - intros g z. rewrite Hfs. intros [Hg Hz]%lookup_delete_Some. destruct (l_file _ _ _ Hl g z Hz) as [Hg0 Hfine]. split; [done|].
    assert (∀ p, uses z p → is_Some (pipes s' !! p)) as Hkeep.
    { intros p Hu. destruct (file_fine_uses s z p Hfine Hu) as [y Hy]. destruct (Hold p y Hy) as [?|(_ & R & W)]; [done|]. exfalso. destruct (counts_left s k b f x p y Hl Hf Hy) as (TR & TW & _). pose proof (occ_nonneg p k).
      assert (delete f (files s) !! g = Some z) as Hz' by (by rewrite lookup_delete_ne). pose proof (tot_elem (reads p) _ g z (λ z, proj1 (reads_range p z)) Hz'). pose proof (tot_elem (writes p) _ g z (λ z, proj1 (writes_range p z)) Hz').
      pose proof (user_counted p z (proj1 (proj2 Hfine)) Hu). lia. }
    apply (file_fine_keep s); [done|done|]. intros n p Hu. rewrite Hff. split; [by intros [? _]|auto].
  - intros p y' Hy'. destruct (Hnew p y' Hy') as (y & Hy & Hr & HR & HW & Hg & Hu). destruct (counts_left s k b f x p y Hl Hf Hy) as (TR & TW & B1 & B2). destruct (l_pipe _ _ _ Hl p y Hy) as [Ha _ _ _ _ _ _]. split; try done; rewrite ?Hfs; lia.
  - intros n p [Hn Hp]%Hff. by destruct (l_fifo _ _ _ Hl n p Hn).
  - intros n m p [Hn _]%Hff [Hm _]%Hff. by apply (l_once _ _ _ Hl n m p).
  - intros p Hp. destruct (l_ghost _ _ _ Hl p Hp) as [n Hn]. exists n. apply Hff. split; [done|]. destruct (l_fifo _ _ _ Hl n p Hn) as [_ [y Hy]]. destruct (Hold p y Hy) as [?|(Hu & R & W)]; [done|]. exfalso.
    destruct (counts_left s k b f x p y Hl Hf Hy) as (_ & _ & B1 & B2). destruct Hp as [Hp|Hp]; [apply occ_pos in Hp; lia|]. by apply (user_not_bare s k b f x p Hl Hf Hu).
Qed.

(** Only the number of references of a file changes. *)
Lemma life_refs s k b f x r : life s k b → files s !! f = Some x → 1 ≤ r < 2 ^ 31 → life (set_file s f {| x with f_refs := r |}) k b.
Proof.
  intros Hl Hf Hr. set (x' := {| x with f_refs := r |}). assert (∀ p, tot (reads p) (<[f := x']> (files s)) = tot (reads p) (files s) ∧ tot (writes p) (<[f := x']> (files s)) = tot (writes p) (files s)) as Ht.
  { intros p. rewrite !tot_insert, !(tot_delete _ _ _ _ Hf). change (reads p x') with (reads p x). change (writes p x') with (writes p x). lia. }
  split; cbn; [|intros p y Hy; destruct (Ht p) as [T1 T2]; destruct (l_pipe _ _ _ Hl p y Hy) as [P1 P2 P3 P4 P5 P6 P7]; split; cbn; try done; by rewrite ?T1, ?T2|apply (l_fifo _ _ _ Hl)|apply (l_once _ _ _ Hl)|apply (l_ghost _ _ _ Hl)].
  intros g z Hz. destruct (decide (g = f)) as [->|]; [rewrite lookup_insert_eq in Hz; injection Hz as <-|rewrite lookup_insert_ne in Hz by done; by apply (l_file _ _ _ Hl)].
  destruct (l_file _ _ _ Hl f x Hf) as [H0 (_ & H2 & H3)]. split; [done|]. by split.
Qed.

Lemma wake_ring y : ring (pipe_wake y) = let r := ring y in {| r with Inotify.woken := woken r + 1 |}.
Proof. done. Qed.

Lemma ring_woken r w : PipeSpec.ring_ok r → PipeSpec.ring_ok {| r with Inotify.woken := w |}.
Proof. by intros []. Qed.

#[export] Instance uses_dec x p : Decision (uses x p).
Proof. unfold uses. apply _. Defined.

(** What becomes of a pipe that the file had open: it stays with the others, or nobody is left. *)
Definition left_by (x : file) (p : Z) (y : pipe_t) (o : option pipe_t) : Prop :=
  match o with
  | None => readers y - reads p x = 0 ∧ writers y - writes p x = 0
  | Some y' => PipeSpec.ring_ok (ring y') ∧ readers y' = readers y - reads p x ∧ writers y' = writers y - writes p x ∧ gone y' = 0 ∧ 0 < readers y' + writers y'
  end.

Lemma life_close s k b s' f x : life s k b → files s !! f = Some x → files s' = delete f (files s) →
  (∀ p y, uses x p → pipes s !! p = Some y → left_by x p y (pipes s' !! p)) → (∀ p, ¬ uses x p → pipes s' !! p = pipes s !! p) →
  (∀ n p, fifo s' !! n = Some p ↔ fifo s !! n = Some p ∧ is_Some (pipes s' !! p)) → life s' k b.
Proof.
  intros Hl Hf Hfs Huse Hnot Hff. destruct (l_file _ _ _ Hl f x Hf) as [_ Hfine]. apply (life_drop s k b s' f x Hl Hf Hfs); [| |done].
  - intros p y' Hy'. destruct (decide (uses x p)) as [Hu|Hu].
    + destruct (file_fine_uses s x p Hfine Hu) as [y Hy]. pose proof (Huse p y Hu Hy) as H. rewrite Hy' in H. destruct H as (H1 & H2 & H3 & H4 & H5). exists y. split_and!; auto. split; [|done]. intros _. by apply (user_not_bare s k b f x p).
    + rewrite (Hnot p Hu) in Hy'. exists y'. destruct (not_user p x Hu) as [-> ->]. destruct (l_pipe _ _ _ Hl p y' Hy') as [_ Q1 _ _ _ Q2 Q3]. rewrite !Z.sub_0_r. by split_and!.
  - intros p y Hy. destruct (decide (uses x p)) as [Hu|Hu]; [|left; by rewrite Hnot, Hy]. pose proof (Huse p y Hu Hy) as H. destruct (pipes s' !! p); [left; by eexists|by right].
Qed.

(** [pipe_end] for a file that goes. *)
Lemma end_left s k b f x p y dr dw : life s k b → files s !! f = Some x → pipes s !! p = Some y → dr = - reads p x → dw = - writes p x →
  let y' := pipe_wake {| y with readers := i32 (readers y + dr); writers := i32 (writers y + dw) |} in
  left_by x p y (if (readers y' <=? 0) && (writers y' <=? 0) then None else Some y').
Proof.
  intros Hl Hf Hy -> ->. destruct (counts_left s k b f x p y Hl Hf Hy) as (_ & _ & HR & HW). pose proof (occ_nonneg p k). destruct (l_pipe _ _ _ Hl p y Hy) as [_ Pring _ _ _ Pg _]. cbv zeta. unfold pipe_wake at 1 2. cbn [readers writers]. rewrite !i32_small by lia.
  destruct ((readers y + - reads p x <=? 0) && (writers y + - writes p x <=? 0)) eqn:E; bools; cbn; [lia|]. split_and!; try done; try lia. by apply ring_woken.
Qed.

(** The last reference on an end of a pipe. *)
Lemma close_end s k b f x : life s k b → files s !! f = Some x → f_type x = F_PIPE_R ∨ f_type x = F_PIPE_W → f_refs x = 1 → ∃ s', file_close s f = Some s' ∧ life s' k b ∧ files s' = delete f (files s).
Proof.
  intros Hl Hf Hty Hr. destruct (l_file _ _ _ Hl f x Hf) as [H0 Hfine]. destruct Hfine as (_ & Hsh & Hfine). assert (∀ p, uses x p ↔ p = f_pipe x) as Hu by (unfold uses; intros p; destruct Hty as [E|E]; rewrite E; naive_solver).
  assert (f_pipe x ≠ 0 ∧ is_Some (pipes s !! f_pipe x) ∧ (if nz (f_node x) then fifo s !! f_node x = Some (f_pipe x) else ∀ n, fifo s !! n ≠ Some (f_pipe x))) as (Hp0 & [y Hy] & Hnode) by (by destruct Hty as [E|E]; rewrite E in Hfine).
  unfold file_close. rewrite (proj2 (Z.eqb_neq f 0) H0), Hf. cbn [mbind option_bind]. cbv zeta. cbn [f_refs f_type f_pipe f_flags f_node]. rewrite Hr. change (0 <? i32 (1 - 1)) with false. cbv iota.
  rewrite bool_decide_eq_false_2 by (destruct Hty as [E|E]; by rewrite E). assert (nz (f_pipe x) = true) as -> by (unfold nz; by rewrite (proj2 (Z.eqb_neq _ _) Hp0)).
  set (dr := if bool_decide _ then -1 else 0). set (dw := if bool_decide _ then _ else _).
  assert (dr = - reads (f_pipe x) x ∧ dw = - writes (f_pipe x) x) as [Er Ew]. { unfold dr, dw, reads, writes, is_rw. destruct Hty as [E|E]; rewrite E, Z.eqb_refl; [rewrite bool_decide_eq_true_2 by done|rewrite bool_decide_eq_false_2 by done]; [|done]. cbn [andb]. by destruct (_ =? O_RDWR). }
  pose proof (end_left s k b f x _ y dr dw Hl Hf Hy Er Ew) as Hleft. cbv zeta in Hleft. unfold pipe_end. cbn [pipes set_file]. rewrite Hy. cbn [mbind option_bind]. cbv zeta. set (y' := pipe_wake _) in *. set (dead := _ && _) in *.
  eexists. split; [reflexivity|]. split; [|destruct dead, (nz (f_node x)); cbn; by rewrite delete_insert_eq].
  apply (life_close s k b _ f x Hl Hf).
  - destruct dead, (nz (f_node x)); cbn; by rewrite delete_insert_eq.
  - intros p z ->%Hu Hz. rewrite Hy in Hz. injection Hz as <-. destruct dead, (nz (f_node x)); cbn; by rewrite ?lookup_delete_eq, ?lookup_insert_eq.
  - intros p Hne. assert (p ≠ f_pipe x) by (by rewrite Hu in Hne). destruct dead, (nz (f_node x)); cbn; by rewrite ?lookup_delete_ne, ?lookup_insert_ne by done.
  - intros n p. pose proof (l_fifo _ _ _ Hl n p) as Hfifo. destruct dead; cbn.
    + destruct (nz (f_node x)) eqn:En; cbn; rewrite ?lookup_delete_Some.
      * split; [intros [Hn Hp]; split; [done|]|intros [Hp Hs]; split; [|done]; intros <-; rewrite Hnode in Hp; injection Hp as <-; rewrite lookup_delete_eq in Hs; by destruct Hs].
        assert (p ≠ f_pipe x) by (intros ->; apply Hn, (l_once _ _ _ Hl _ _ (f_pipe x)); done). rewrite lookup_delete_ne, lookup_insert_ne by done. by apply Hfifo.
      * split; [|by intros [? _]]. intros Hn. split; [done|]. assert (p ≠ f_pipe x) by (intros ->; by apply (Hnode n)). rewrite lookup_delete_ne, lookup_insert_ne by done. by apply Hfifo.
    + assert (fifo s !! n = Some p → is_Some (<[f_pipe x := y']> (pipes s) !! p)) by (intros E; destruct (decide (p = f_pipe x)) as [->|]; [by rewrite lookup_insert_eq|rewrite lookup_insert_ne by done; by apply Hfifo]). destruct (nz (f_node x)); cbn; naive_solver.
Qed.

(** [pipe_end] on a pipe that is there. *)
Lemma pipe_end_eq s p y dr dw : pipes s !! p = Some y →
  pipe_end s p dr dw = let y' := pipe_wake {| y with readers := i32 (readers y + dr); writers := i32 (writers y + dw) |} in Some ((readers y' <=? 0) && (writers y' <=? 0), set_pipe s p y').
Proof. intros H. unfold pipe_end. by rewrite H. Qed.

Lemma spair_free_eq s q y : pipes s !! q = Some y → gone y = 0 →
  spair_free s q = Some (if (readers y <=? 0) && (writers y <=? 0) then free_pipe s q else s).
Proof. intros H Hg. unfold spair_free. rewrite H. cbn [mbind option_bind]. rewrite Hg. change (0 =? 0) with true. rewrite andb_true_r. by destruct (_ && _). Qed.

(** Shutting down both directions of a fresh end. *)
Lemma shutdown_both s f x y1 y2 : files s !! f = Some x → f_shut x = 0 → f_pipe x ≠ f_pipe2 x → pipes s !! f_pipe x = Some y1 → pipes s !! f_pipe2 x = Some y2 →
  spair_shutdown s f 2 = Some (0, let s' := set_file s f {| x with f_shut := 3 |} in
    {| s' with pipes := <[f_pipe2 x := pipe_wake {| y2 with readers := i32 (readers y2 + 0); writers := i32 (writers y2 + -1) |}]> (<[f_pipe x := pipe_wake {| y1 with readers := i32 (readers y1 + -1); writers := i32 (writers y1 + 0) |}]> (pipes s)) |}).
Proof.
  intros Hf Hsh Hne H1 H2. unfold spair_shutdown. change ((2 <? 0) || (2 <? 2)) with false. cbv iota. rewrite Hf. cbn [mbind option_bind]. rewrite Hsh. change (((2 =? 0) || (2 =? 2)) && negb (Z.testbit 0 0)) with true. cbv iota.
  rewrite (pipe_end_eq _ _ y1) by done. cbv zeta. cbn [mbind option_bind]. unfold set_pipe, set_file. cbn [files]. rewrite lookup_insert_eq. cbn [mbind option_bind f_shut]. change (Z.lor 0 1) with 1. change (((2 =? 1) || (2 =? 2)) && negb (Z.testbit 1 1)) with true. cbv iota.
  rewrite (pipe_end_eq _ _ y2) by (cbn; by rewrite lookup_insert_ne). cbn [mbind option_bind]. unfold set_pipe. cbn. rewrite insert_insert_eq. done.
Qed.

(** The last reference on an end of a socket pair. *)
Lemma close_spair s k b f x : life s k b → files s !! f = Some x → f_type x = F_SPAIR → f_refs x = 1 → ∃ s', file_close s f = Some s' ∧ life s' k b ∧ files s' = delete f (files s).
Proof.
  intros Hl Hf Hty Hr. destruct (l_file _ _ _ Hl f x Hf) as [H0 (_ & Hsh & Hfine)]. rewrite Hty in Hfine. destruct Hfine as (Hne & [y1 H1] & [y2 H2] & Hff).
  assert (∀ p, uses x p ↔ p = f_pipe x ∨ p = f_pipe2 x) as Hu by (unfold uses; intros p; rewrite Hty; naive_solver).
  assert (reads (f_pipe x) x = 1 ∧ writes (f_pipe x) x = 0 ∧ reads (f_pipe2 x) x = 0 ∧ writes (f_pipe2 x) x = 1) as (R1 & W1 & R2 & W2).
  { unfold reads, writes. rewrite Hty, Hsh, !Z.eqb_refl, (proj2 (Z.eqb_neq (f_pipe x) (f_pipe2 x))), (proj2 (Z.eqb_neq (f_pipe2 x) (f_pipe x))) by done. done. }
  pose proof (end_left s k b f x _ y1 (-1) 0 Hl Hf H1 ltac:(lia) ltac:(lia)) as L1. pose proof (end_left s k b f x _ y2 0 (-1) Hl Hf H2 ltac:(lia) ltac:(lia)) as L2. cbv zeta in L1, L2.
  pose proof (pf_gone _ _ _ _ _ (l_pipe _ _ _ Hl _ _ H1)) as G1. pose proof (pf_gone _ _ _ _ _ (l_pipe _ _ _ Hl _ _ H2)) as G2.
  unfold file_close. rewrite (proj2 (Z.eqb_neq f 0) H0), Hf. cbn [mbind option_bind]. cbv zeta. cbn [f_refs f_type f_pipe f_pipe2]. rewrite Hr. change (0 <? i32 (1 - 1)) with false. cbv iota. rewrite bool_decide_eq_true_2 by done.
  rewrite (shutdown_both _ f {| x with f_refs := i32 (1 - 1) |} y1 y2); [|cbn; apply lookup_insert_eq|done..]. cbn [mbind option_bind f_pipe f_pipe2]. cbv zeta. set (z1 := pipe_wake {| y1 with readers := _; writers := _ |}) in *. set (z2 := pipe_wake {| y2 with readers := _; writers := _ |}) in *.
  rewrite (spair_free_eq _ _ z1); [|cbn; rewrite lookup_insert_ne by done; apply lookup_insert_eq|done]. cbn [mbind option_bind]. set (d1 := (readers z1 <=? 0) && (writers z1 <=? 0)) in *.
  rewrite (spair_free_eq _ _ z2); [|destruct d1; cbn; rewrite ?lookup_delete_ne by done; apply lookup_insert_eq|done]. cbn [mbind option_bind]. set (d2 := (readers z2 <=? 0) && (writers z2 <=? 0)) in *.
  eexists. split; [reflexivity|]. split; [|destruct d1, d2; cbn; by rewrite !delete_insert_eq]. apply (life_close s k b _ f x Hl Hf).
  - destruct d1, d2; cbn; by rewrite !delete_insert_eq.
  - intros p y [-> | ->]%Hu Hy.
    + rewrite H1 in Hy. injection Hy as <-. destruct d1, d2; cbn; by rewrite ?lookup_delete_ne, ?lookup_delete_eq, ?lookup_insert_ne, ?lookup_insert_eq by done.
    + rewrite H2 in Hy. injection Hy as <-. destruct d1, d2; cbn; rewrite ?lookup_delete_eq, ?lookup_delete_ne, ?lookup_insert_eq by done; done.
  - intros p Hnu. assert (p ≠ f_pipe x ∧ p ≠ f_pipe2 x) as [N1 N2] by (rewrite Hu in Hnu; naive_solver). destruct d1, d2; cbn; by rewrite ?lookup_delete_ne, ?lookup_insert_ne by done.
  - intros n p. assert (fifo s !! n = Some p → p ≠ f_pipe x ∧ p ≠ f_pipe2 x ∧ is_Some (pipes s !! p)) as Hn. { intros E. destruct (Hff n). destruct (l_fifo _ _ _ Hl n p E). split_and!; [congruence..|done]. }
    destruct d1, d2; cbn; (split; [|by intros [? _]]); intros E; destruct (Hn E) as (N1 & N2 & N3); (split; [done|]); by rewrite ?lookup_delete_ne, ?lookup_insert_ne by done.
Qed.

(** Closing, in every case. *)
Lemma close_file s k b f : life s k b → f = 0 ∨ is_Some (files s !! f) → ∃ s', file_close s f = Some s' ∧ life s' k b.
Proof.
  intros Hl Hf. destruct (decide (f = 0)) as [->|H0]; [by exists s|]. destruct Hf as [?|[x Hf]]; [done|]. destruct (l_file _ _ _ Hl f x Hf) as [_ Hfine]. destruct Hfine as (Hr & Hsh & Hfine). destruct (decide (f_refs x = 1)) as [E1|E1].
  - destruct (f_type x) eqn:Hty; [destruct (close_end s k b f x Hl Hf (or_introl Hty) E1) as (s' & ? & ? & _); by exists s'|destruct (close_end s k b f x Hl Hf (or_intror Hty) E1) as (s' & ? & ? & _); by exists s'|destruct (close_spair s k b f x Hl Hf Hty E1) as (s' & ? & ? & _); by exists s'|..].
    all: unfold file_close; rewrite (proj2 (Z.eqb_neq f 0) H0), Hf; cbn [mbind option_bind]; cbv zeta; cbn [f_refs f_type f_pipe]; rewrite E1, Hty, Hfine; change (0 <? i32 (1 - 1)) with false; cbv iota; rewrite bool_decide_eq_false_2 by done; change (nz 0) with false; cbv iota; cbn [mbind option_bind].
    all: eexists; (split; [reflexivity|]); apply (life_close s k b _ f x Hl Hf); cbn; [by rewrite delete_insert_eq| |done|].
    all: try (intros p y Hu; exfalso; unfold uses in Hu; rewrite Hty in Hu; naive_solver). all: intros n p; (split; [intros E; split; [done|]; by apply (l_fifo _ _ _ Hl n)|by intros [? _]]).
  - unfold file_close. rewrite (proj2 (Z.eqb_neq f 0) H0), Hf. cbn [mbind option_bind]. cbv zeta. cbn [f_refs]. rewrite i32_small by lia. rewrite (proj2 (Z.ltb_lt _ _)) by lia. eexists. split; [reflexivity|]. apply life_refs; [done..|lia].
Qed.

(** ** A file comes *)

Lemma tot_zero {A} (g : A → Z) (m : gmap Z A) : (∀ k x, m !! k = Some x → g x = 0) → tot g m = 0.
Proof.
  intros H. assert (∀ kx, kx ∈ map_to_list m → g kx.2 = 0) as H'. { intros [k x] Hk%elem_of_map_to_list. by apply (H k). } unfold tot. clear H. induction (map_to_list m) as [|[k x] l IH]; [done|]. cbn. pose proof (H' (k, x) (list_elem_of_here _ _)) as E. cbn in E. rewrite E. apply IH. intros kx Hk. apply H'. by apply list_elem_of_further.
Qed.

Lemma no_users s k b p : life s k b → pipes s !! p = None → tot (reads p) (files s) = 0 ∧ tot (writes p) (files s) = 0 ∧ occ p k = 0 ∧ p ∉ b.
Proof.
  intros Hl Hp. assert (∀ q, q ∈ k ∨ q ∈ b → q ≠ p) as Hne. { intros q Hq ->. destruct (l_ghost _ _ _ Hl p Hq) as [n Hn]. destruct (l_fifo _ _ _ Hl n p Hn) as [_ [y Hy]]. congruence. }
  split; [|split; [|split; [apply occ_zero|]; intros Hq; by apply (Hne p); auto]]. all: apply tot_zero; intros f x Hf; apply not_user; intros Hu; destruct (file_fine_uses s x p (proj2 (l_file _ _ _ Hl f x Hf)) Hu) as [y Hy]; congruence.
Qed.

(** A new file, with its pipes: those it uses count it, and [k'] may count a writer more. *)
Lemma life_open s k b k' b' s' a x : life s k b → a ≠ 0 → files s !! a = None → files s' = <[a := x]> (files s) → fifo s' = fifo s → file_fine s' x →
  (∀ p, ¬ uses x p → occ p k' = occ p k) → (∀ p, p ∈ b' ↔ p ∈ b ∧ ¬ uses x p) → (∀ p, p ∈ k' → p ∈ k ∨ ∃ n, fifo s !! n = Some p) →
  (∀ p y', uses x p → pipes s' !! p = Some y' → p ≠ 0 ∧ PipeSpec.ring_ok (ring y') ∧ gone y' = 0 ∧ readers y' < 2 ^ 31 ∧ writers y' < 2 ^ 31 ∧
     readers y' = default 0 (readers <$> pipes s !! p) + reads p x ∧ writers y' = default 0 (writers <$> pipes s !! p) + writes p x + (occ p k' - occ p k)) →
  (∀ p, ¬ uses x p → pipes s' !! p = pipes s !! p) → life s' k' b'.
Proof.
  intros Hl Ha0 Ha Hfs Hff Hx Hk Hb Hk' Huse Hnot. assert (∀ p, is_Some (pipes s !! p) → is_Some (pipes s' !! p)) as Hkeep.
  { intros p Hp. destruct (decide (uses x p)) as [Hu|Hu]; [by apply (file_fine_uses s' x p)|by rewrite Hnot]. }
  assert (∀ p, tot (reads p) (files s') = reads p x + tot (reads p) (files s) ∧ tot (writes p) (files s') = writes p x + tot (writes p) (files s)) as Ht by (intros p; by rewrite Hfs, !tot_insert, !delete_id by done).
  split.
  - intros f z. rewrite Hfs. intros Hz. destruct (decide (f = a)) as [->|]; [rewrite lookup_insert_eq in Hz; by injection Hz as <-|]. rewrite lookup_insert_ne in Hz by done. destruct (l_file _ _ _ Hl f z Hz) as [H0 Hf]. split; [done|].
    apply (file_fine_keep s); [done|intros p Hu; apply Hkeep; by apply (file_fine_uses s z)|intros m p _; by rewrite Hff].
  - intros p y' Hy'. destruct (Ht p) as [TR TW]. destruct (decide (uses x p)) as [Hu|Hu].
    + destruct (Huse p y' Hu Hy') as (H0 & H1 & H2 & HS1 & HS2 & H3 & H4). pose proof (user_counted p x (proj1 (proj2 Hx)) Hu) as Hc. assert (default 0 (readers <$> pipes s !! p) = tot (reads p) (files s) ∧ default 0 (writers <$> pipes s !! p) = tot (writes p) (files s) + occ p k) as [D1 D2].
      { destruct (pipes s !! p) as [y|] eqn:Hy; cbn; [by destruct (l_pipe _ _ _ Hl p y Hy)|]. destruct (no_users s k b p Hl Hy) as (-> & -> & -> & _). done. }
      pose proof (tot_nonneg (reads p) (files s) (λ z, proj1 (reads_range p z))). pose proof (tot_nonneg (writes p) (files s) (λ z, proj1 (writes_range p z))). pose proof (occ_nonneg p k'). split; try done; [lia|lia|]. rewrite Hb. split; [naive_solver|lia].
    + rewrite Hnot in Hy' by done. destruct (not_user p x Hu) as [U1 U2]. destruct (l_pipe _ _ _ Hl p y' Hy') as [P1 P2 P3 P4 P5 P6 P7]. rewrite <- (Hk p Hu) in P4. split; try done; [lia|lia|]. rewrite P7, Hb. naive_solver.
  - rewrite Hff. intros n p Hn. destruct (l_fifo _ _ _ Hl n p Hn). split; [done|]. by apply Hkeep.
  - rewrite Hff. apply (l_once _ _ _ Hl).
  - rewrite Hff. intros p [Hp|Hp]; [destruct (Hk' p Hp); [|done]; by apply (l_ghost _ _ _ Hl); left|]. apply Hb in Hp as [Hp _]. apply (l_ghost _ _ _ Hl). by right.
Qed.

(** The same without such a writer, when the pipes of the file are no named ones. *)
Lemma life_new s k b s' a x : life s k b → a ≠ 0 → files s !! a = None → files s' = <[a := x]> (files s) → fifo s' = fifo s → file_fine s' x →
  (∀ n p, fifo s !! n = Some p → ¬ uses x p) →
  (∀ p y', uses x p → pipes s' !! p = Some y' → p ≠ 0 ∧ PipeSpec.ring_ok (ring y') ∧ gone y' = 0 ∧ readers y' < 2 ^ 31 ∧ writers y' < 2 ^ 31 ∧
     readers y' = default 0 (readers <$> pipes s !! p) + reads p x ∧ writers y' = default 0 (writers <$> pipes s !! p) + writes p x) →
  (∀ p, ¬ uses x p → pipes s' !! p = pipes s !! p) → life s' k b.
Proof.
  intros Hl Ha0 Ha Hfs Hff Hx Hn Huse Hnot. apply (life_open s k b k b s' a x Hl Ha0 Ha Hfs Hff Hx); [done| |by left| |done].
  - intros p. split; [|by intros [? _]]. intros Hp. split; [done|]. destruct (l_ghost _ _ _ Hl p (or_intror Hp)) as [n E]. by apply (Hn n).
  - intros p y' Hu Hy'. rewrite Z.sub_diag, Z.add_0_r. by apply Huse.
Qed.

Lemma zero_ring : PipeSpec.ring_ok (ring zero_pipe).
Proof. by split. Qed.

(** A named pipe gets its pipe. *)
Lemma life_fifo s k b n p : life s k b → n ≠ 0 → p ≠ 0 → fifo s !! n = None → pipes s !! p = None → life (set_pipe {| s with fifo := <[n := p]> (fifo s) |} p zero_pipe) k (p :: b).
Proof.
  intros Hl Hn Hp Hf Hq. destruct (no_users s k b p Hl Hq) as (T1 & T2 & T3 & T4). split; cbn.
  - intros f x Hx. destruct (l_file _ _ _ Hl f x Hx) as [H0 Hfine]. split; [done|]. apply (file_fine_keep s); [done|..]; cbn.
    + intros q Hu. destruct (file_fine_uses s x q Hfine Hu) as [y Hy]. rewrite lookup_insert_ne; [by eexists|]. intros <-. congruence.
    + intros m q Hu. destruct (file_fine_uses s x q Hfine Hu) as [y Hy]. destruct (decide (m = n)) as [->|]; [|by rewrite lookup_insert_ne]. rewrite lookup_insert_eq, Hf. split; [intros [= <-]; congruence|done].
  - intros q y Hy. destruct (decide (q = p)) as [->|Hqp].
    + rewrite lookup_insert_eq in Hy. injection Hy as <-. split; cbn; try done; [lia|]. split; [lia|]. intros []. apply list_elem_of_here.
    + rewrite lookup_insert_ne in Hy by done. destruct (l_pipe _ _ _ Hl q y Hy) as [P1 P2 P3 P4 P5 P6 P7]. split; try done. rewrite P7, not_elem_of_cons. naive_solver.
  - intros m q. destruct (decide (m = n)) as [->|]; [rewrite lookup_insert_eq; intros [= <-]; rewrite lookup_insert_eq; split; [done|by eexists]|]. rewrite lookup_insert_ne by done. intros Hm. destruct (l_fifo _ _ _ Hl m q Hm) as [? [y Hy]]. split; [done|]. rewrite lookup_insert_ne; [by eexists|]. intros <-. congruence.
  - assert (∀ m, fifo s !! m ≠ Some p) as Hno. { intros m Hm. destruct (l_fifo _ _ _ Hl m p Hm) as [_ [y Hy]]. congruence. }
    intros a c q. destruct (decide (a = n)) as [->|], (decide (c = n)) as [->|]; rewrite ?lookup_insert_eq, ?lookup_insert_ne by done; [done|intros [= <-] Hb; by apply Hno in Hb|intros Ha [= <-]; by apply Hno in Ha|apply (l_once _ _ _ Hl)].
  - intros q Hq'. destruct (decide (q = p)) as [->|Hqp]; [exists n; apply lookup_insert_eq|]. destruct (l_ghost _ _ _ Hl q) as [m Hm]; [destruct Hq' as [?|[?|?]%elem_of_cons]; auto; done|]. exists m. rewrite lookup_insert_ne; [done|]. intros <-. congruence.
Qed.

(** Reading and writing leave the counts alone. *)
Lemma life_ring s k b p y y' : life s k b → pipes s !! p = Some y → PipeSpec.ring_ok (ring y') → readers y' = readers y → writers y' = writers y → gone y' = gone y → life (set_pipe s p y') k b.
Proof.
  intros Hl Hy Hr H1 H2 H3. assert (∀ q, is_Some (<[p := y']> (pipes s) !! q) ↔ is_Some (pipes s !! q)) as Hs. { intros q. destruct (decide (q = p)) as [->|]; [rewrite lookup_insert_eq, Hy; split; by eexists|by rewrite lookup_insert_ne]. }
  split; cbn.
  - intros f x Hx. destruct (l_file _ _ _ Hl f x Hx) as [H0 Hf]. split; [done|]. apply (file_fine_keep s); [done| |done]. intros q Hu. apply Hs. by apply (file_fine_uses s x).
  - intros q z Hz. destruct (decide (q = p)) as [->|]; [rewrite lookup_insert_eq in Hz; injection Hz as <-|rewrite lookup_insert_ne in Hz by done; by destruct (l_pipe _ _ _ Hl q z Hz)]. destruct (l_pipe _ _ _ Hl p y Hy) as [P1 P2 P3 P4 P5 P6 P7]. split; cbn; try done; congruence || by rewrite H1, H2.
  - intros n q Hn. rewrite Hs. by apply (l_fifo _ _ _ Hl).
  - apply (l_once _ _ _ Hl).
  - apply (l_ghost _ _ _ Hl).
Qed.

(** ** The calls *)

Definition unused {A} (m : gmap Z A) (a : Z) : Prop := a = 0 ∨ m !! a = None.

Lemma nz_ne x : x ≠ 0 → nz x = true.
Proof. intros H. unfold nz. by rewrite (proj2 (Z.eqb_neq x 0) H). Qed.

Lemma make_pipe s k b pa ra wa : life s k b → unused (pipes s) pa → unused (files s) ra → unused (files s) wa → ra ≠ wa ∨ ra = 0 →
  ∃ r s', pipe_create s pa ra wa = Some (r, s') ∧ life s' k b ∧ (r = 0 ∨ s' = s).
Proof.
  intros Hl Hp Hr Hw Hne. unfold pipe_create. destruct (Z.eqb_spec pa 0) as [->|P0]; [by exists (- ENOMEM), s; auto|]. destruct Hp as [?|Hp]; [done|]. unfold file_new.
  destruct (Z.eqb_spec ra 0) as [->|R0], (Z.eqb_spec wa 0) as [->|W0]; cbn [orb]; rewrite ?Z.eqb_refl; cbn [orb].
  1,2,3: change (nz 0) with false; rewrite ?(proj2 (Z.eqb_neq _ 0)), ?nz_ne by done; cbv iota; cbn [orb]; rewrite ?Z.eqb_refl; (eexists (- ENOMEM), s); split; [|by auto].
  1,2,3: destruct s; unfold free_file, free_pipe, set_file, set_pipe; cbn in *; destruct Hr as [?|Hr], Hw as [?|Hw]; try done; rewrite ?delete_insert_eq, ?delete_id by done; reflexivity.
  destruct Hr as [?|Hr]; [done|]. destruct Hw as [?|Hw]; [done|]. destruct Hne as [Hne|?]; [|done]. rewrite (proj2 (Z.eqb_neq _ 0) R0), (proj2 (Z.eqb_neq _ 0) W0). cbn [orb].
  unfold set_file, set_pipe. cbn [files pipes]. rewrite lookup_insert_ne, lookup_insert_eq by done. cbn [mbind option_bind]. rewrite lookup_insert_ne, lookup_insert_eq by done. cbn [mbind option_bind]. exists 0. eexists. split; [reflexivity|]. split; [|by left].
  assert (∀ n, fifo s !! n ≠ Some pa) as Hff. { intros n Hn. destruct (l_fifo _ _ _ Hl n pa Hn) as [_ [y Hy]]. congruence. }
  set (x := File F_PIPE_R 1 0 pa 0 0 0 0 0 0). set (z := File F_PIPE_W 1 O_WRONLY pa 0 0 0 0 0 0). set (s1 := St (<[pa := {| zero_pipe with readers := 1 |}]> (pipes s)) (<[ra := x]> (files s)) (fifo s) (nrefs s)).
  assert (life s1 k b) as Hl1.
  { apply (life_new s k b s1 ra x Hl R0 Hr); [done|done| | | |]; cbn.
    - split; [done|]. split; [done|]. cbn. split; [done|]. split; [rewrite lookup_insert_eq; by eexists|done].
    - intros n p Hn [[_ <-]|[? _]]; [|done]. by apply (Hff n).
    - intros p y' [[_ <-]|[? _]] Hy'; [|done]. cbn in *. rewrite lookup_insert_eq in Hy'. injection Hy' as <-. rewrite Hp. cbn. unfold reads, writes. cbn. rewrite Z.eqb_refl. by split_and!.
    - intros p Hu. apply lookup_insert_ne. intros <-. apply Hu. left. auto. }
  eapply (life_new s1 k b _ wa z Hl1 W0); cbn; [by rewrite lookup_insert_ne| |done|..].
  - apply map_eq. intros i. destruct (decide (i = wa)) as [->|]; [by rewrite !lookup_insert_eq|]. rewrite !(lookup_insert_ne _ wa) by done. destruct (decide (i = ra)) as [->|]; [by rewrite !lookup_insert_eq|by rewrite !lookup_insert_ne by done].
  - split; [done|]. split; [done|]. cbn. split; [done|]. split; [rewrite lookup_insert_eq; by eexists|done].
  - intros n p Hn [[_ <-]|[? _]]; [|done]. by apply (Hff n).
  - intros p y' [[_ <-]|[? _]] Hy'; [|done]. cbn in *. rewrite lookup_insert_eq in *. injection Hy' as <-. cbn. unfold reads, writes. cbn. rewrite Z.eqb_refl. by split_and!.
  - intros p Hu. assert (p ≠ pa) by (intros ->; apply Hu; left; auto). by rewrite !lookup_insert_ne by done.
Qed.

Lemma undo_two {A} (m : gmap Z A) p q x y : m !! p = None → m !! q = None → p ≠ q → delete q (delete p (<[q := x]> (<[p := y]> m))) = m.
Proof. intros Hp Hq Hne. rewrite (delete_insert_ne _ p q) by done. rewrite delete_insert_eq, delete_insert_eq. by rewrite (delete_id m p), (delete_id m q). Qed.

Lemma make_spair s k bs p1 p2 a b : life s k bs → unused (pipes s) p1 → unused (pipes s) p2 → p1 ≠ p2 ∨ p1 = 0 → unused (files s) a → unused (files s) b → a ≠ b ∨ a = 0 →
  ∃ r s', spair_create s p1 p2 a b = Some (r, s') ∧ life s' k bs ∧ (r = 0 ∨ s' = s).
Proof.
  intros Hl H1 H2 Hp Ha Hb Hab. unfold spair_create, file_new. destruct (decide (p1 = 0 ∨ p2 = 0 ∨ a = 0 ∨ b = 0)) as [Hz|Hz].
  - exists (- ENOMEM), s. split; [|by auto]. assert ((p1 =? 0) || (p2 =? 0) || (a =? 0) || (b =? 0) = true) as Ez by (apply orb_true_iff; rewrite orb_true_iff, orb_true_iff, !Z.eqb_eq; naive_solver). clear Hz. unfold nz.
    destruct s as [P F ff nr]. destruct (Z.eqb_spec a 0) as [->|A0], (Z.eqb_spec b 0) as [->|B0], (Z.eqb_spec p1 0) as [->|P1], (Z.eqb_spec p2 0) as [->|P2]; cbn [orb] in Ez; try discriminate Ez; rewrite ?Z.eqb_refl, ?(proj2 (Z.eqb_neq _ 0)) by done; cbn [orb negb].
    all: unfold free_file, free_pipe, set_file, set_pipe; cbn in *; destruct H1 as [?|H1], H2 as [?|H2], Ha as [?|Ha], Hb as [?|Hb], Hp as [Hp|?], Hab as [Hab|?]; try done; rewrite ?undo_two, ?delete_insert_eq, ?delete_id by done; reflexivity.
  - assert (p1 ≠ 0 ∧ p2 ≠ 0 ∧ a ≠ 0 ∧ b ≠ 0) as (P1 & P2 & A0 & B0) by naive_solver. rewrite !nz_ne, (proj2 (Z.eqb_neq a 0)), (proj2 (Z.eqb_neq b 0)) by done. rewrite (proj2 (Z.eqb_neq a 0)), (proj2 (Z.eqb_neq b 0)), (proj2 (Z.eqb_neq p1 0)), (proj2 (Z.eqb_neq p2 0)) by done. cbn [orb].
    destruct H1 as [?|H1]; [done|]. destruct H2 as [?|H2]; [done|]. destruct Hp as [Hp|?]; [|done]. destruct Ha as [?|Ha]; [done|]. destruct Hb as [?|Hb]; [done|]. destruct Hab as [Hab|?]; [|done].
    unfold set_file, set_pipe. cbn [files pipes]. rewrite lookup_insert_ne, lookup_insert_eq by done. cbn [mbind option_bind]. rewrite lookup_insert_ne, lookup_insert_eq by done. cbn [mbind option_bind]. exists 0. eexists. split; [reflexivity|]. split; [|by left].
    assert (∀ n, fifo s !! n ≠ Some p1 ∧ fifo s !! n ≠ Some p2) as Hff. { intros n. split; intros Hn; destruct (l_fifo _ _ _ Hl n _ Hn) as [_ [y Hy]]; congruence. }
    set (x := File F_SPAIR 1 2 p1 p2 0 0 0 0 0). set (z := File F_SPAIR 1 2 p2 p1 0 0 0 0 0). set (s1 := St (<[p2 := {| zero_pipe with writers := 1 |}]> (<[p1 := {| zero_pipe with readers := 1 |}]> (pipes s))) (<[a := x]> (files s)) (fifo s) (nrefs s)).
    assert (∀ p, uses x p ↔ p = p1 ∨ p = p2) as Ux by (unfold uses; cbn; naive_solver). assert (∀ p, uses z p ↔ p = p1 ∨ p = p2) as Uz by (unfold uses; cbn; naive_solver).
    assert (reads p1 x = 1 ∧ writes p1 x = 0 ∧ reads p2 x = 0 ∧ writes p2 x = 1 ∧ reads p1 z = 0 ∧ writes p1 z = 1 ∧ reads p2 z = 1 ∧ writes p2 z = 0) as (C1 & C2 & C3 & C4 & C5 & C6 & C7 & C8).
    { unfold reads, writes. cbn. rewrite !Z.eqb_refl, (proj2 (Z.eqb_neq p1 p2)), (proj2 (Z.eqb_neq p2 p1)) by done. done. }
    assert (life s1 k bs) as Hl1.
    { apply (life_new s k bs s1 a x Hl A0 Ha); [done|done| | | |].
      - split; [done|]. split; [done|]. cbn. split; [done|]. rewrite lookup_insert_eq, lookup_insert_ne, lookup_insert_eq by done. split_and!; try by eexists. done.
      - intros n p Hn [-> | ->]%Ux; by destruct (Hff n).
      - intros p y' [-> | ->]%Ux Hy'; cbn in Hy'; [rewrite lookup_insert_ne, lookup_insert_eq in Hy' by done; injection Hy' as <-; rewrite H1, C1, C2|rewrite lookup_insert_eq in Hy'; injection Hy' as <-; rewrite H2, C3, C4]; by split_and!.
      - intros p Hu. rewrite Ux in Hu. cbn. by rewrite !lookup_insert_ne by naive_solver. }
    eapply (life_new s1 k bs _ b z Hl1 B0); unfold s1; cbn [files pipes fifo]; [by rewrite lookup_insert_ne| |done|..].
    + apply map_eq. intros i. destruct (decide (i = b)) as [->|]; [by rewrite !lookup_insert_eq|]. rewrite !(lookup_insert_ne _ b) by done. destruct (decide (i = a)) as [->|]; [by rewrite !lookup_insert_eq|by rewrite !lookup_insert_ne by done].
    + split; [done|]. split; [done|]. cbn. split; [done|]. rewrite lookup_insert_eq, lookup_insert_ne, lookup_insert_eq by done. split_and!; try by eexists. intros n. destruct (Hff n). done.
    + intros n p Hn [-> | ->]%Uz; by destruct (Hff n).
    + intros p y' [-> | ->]%Uz Hy'; [rewrite lookup_insert_ne, lookup_insert_eq in Hy' by done; injection Hy' as <-; rewrite (lookup_insert_ne _ p2), lookup_insert_eq, C5, C6 by done|rewrite lookup_insert_eq in Hy'; injection Hy' as <-; rewrite lookup_insert_eq, C7, C8]; by split_and!.
    + intros p Hu. rewrite Uz in Hu. by rewrite !lookup_insert_ne by naive_solver.
Qed.

Lemma ref_file s k b f : life s k b → f = 0 ∨ (∃ x, files s !! f = Some x ∧ f_refs x < 2 ^ 31 - 1) → ∃ s', file_ref s f = Some s' ∧ life s' k b.
Proof.
  intros Hl Hf. unfold file_ref. destruct (Z.eqb_spec f 0); [by exists s|]. destruct Hf as [?|(x & Hf & Hlt)]; [done|]. rewrite Hf. cbn [mbind option_bind]. eexists. split; [reflexivity|]. destruct (l_file _ _ _ Hl f x Hf) as [_ [Hr _]]. rewrite i32_small by lia. apply life_refs; [done..|lia].
Qed.

Lemma access_kept flags : Z.land (Z.ldiff flags 0x80000) O_ACCMODE = Z.land flags O_ACCMODE.
Proof.
  apply Z.bits_inj'. intros k Hk. rewrite !Z.land_spec, Z.ldiff_spec. unfold O_ACCMODE. destruct (decide (k < 2)); [|rewrite (Z.bits_above_log2 3 k) by (cbn; lia); by rewrite !andb_false_r].
  assert (k = 0 ∨ k = 1) as [-> | ->] by lia; cbn; by rewrite andb_true_r.
Qed.

(** The pipe of a named pipe, made if need be. *)
Definition fifo_pipe (s : st) (n pa : Z) : option (Z * st) :=
  let p := default 0 (fifo s !! n) in
  if nz p then Some (p, s) else if pa =? 0 then None else Some (pa, set_pipe {| s with fifo := <[n := pa]> (fifo s) |} pa zero_pipe).

(** The pipes without a file once the pipe of [n] is there. *)
Definition with_new (s : st) (n p : Z) (b : list Z) : list Z := if decide (fifo s !! n = None) then p :: b else b.

Lemma fifo_pipe_ok s k b n pa : life s k b → n ≠ 0 → unused (pipes s) pa →
  match fifo_pipe s n pa with
  | None => fifo s !! n = None
  | Some (p, s1) => life s1 k (with_new s n p b) ∧ fifo s1 !! n = Some p ∧ p ≠ 0 ∧ files s1 = files s ∧ pipes s1 !! p = if decide (fifo s !! n = None) then Some zero_pipe else pipes s !! p
  end.
Proof.
  intros Hl Hn Hp. unfold fifo_pipe, with_new. destruct (fifo s !! n) as [p|] eqn:Hf; cbn [default].
  - destruct (l_fifo _ _ _ Hl n p Hf) as [_ [y Hy]]. pose proof (pf_addr _ _ _ _ _ (l_pipe _ _ _ Hl p y Hy)). change (default 0 (Some p)) with p. rewrite nz_ne by done. by rewrite !decide_False by done.
  - change (nz (default 0 None)) with false. cbv iota. destruct (Z.eqb_spec pa 0); [done|]. destruct Hp as [?|Hp]; [done|]. repeat case_decide; try done. split; [by apply life_fifo|]. cbn. by rewrite !lookup_insert_eq.
Qed.

(** Who is without a file, and who has a writer too many, after [fifo_open]. *)
Definition opened (n flags : Z) (r : Z + Z * Z) (s s' : st) (k b : list Z) : list Z * list Z :=
  match fifo s' !! n with
  | None => (k, b)
  | Some p =>
      match r with
      | inl _ => (k, with_new s n p b)
      | inr _ => (if Z.land flags O_ACCMODE =? 3 then p :: k else k, filter (λ q, q ≠ p) b)
      end
  end.

(** The counts of the named pipe [n] are not at their limit. *)
Definition room (s : st) (n : Z) : Prop := ∀ p y, fifo s !! n = Some p → pipes s !! p = Some y → readers y < 2 ^ 31 - 1 ∧ writers y < 2 ^ 31 - 1.

(** The new file of a named pipe counts itself; with both access bits, once too often. *)
Lemma counts_opened flags fa p n y : let acc := Z.land flags O_ACCMODE in let x := File (if acc =? O_WRONLY then F_PIPE_W else F_PIPE_R) 1 (Z.ldiff flags 0x80000) p 0 0 n 0 0 0 in
  0 ≤ readers y < 2 ^ 31 - 1 → 0 ≤ writers y < 2 ^ 31 - 1 → fa ≠ 0 →
  (if acc =? O_WRONLY then readers y else i32 (readers y + 1)) = readers y + reads p x ∧
  (if acc =? O_RDONLY then writers y else i32 (writers y + 1)) = writers y + writes p x + b2z (acc =? 3).
Proof.
  intros acc x HR HW _. rewrite !i32_small by lia. unfold reads, writes, is_rw, x. cbn. rewrite access_kept. fold acc. assert (acc = 0 ∨ acc = 1 ∨ acc = 2 ∨ acc = 3) as Ha. { assert (acc = flags mod 4) by apply (Z.land_ones flags 2 ltac:(lia)). pose proof (Z.mod_pos_bound flags 4 ltac:(lia)). lia. }
  destruct Ha as [-> | [-> | [-> | ->]]]; cbn; rewrite Z.eqb_refl; cbn; split; lia.
Qed.

Lemma open_fifo s k b n flags pa fa : life s k b → n ≠ 0 → room s n → unused (pipes s) pa → unused (files s) fa →
  ∃ r s', fifo_open s n flags pa fa = Some (r, s') ∧ (let '(k', b') := opened n flags r s s' k b in life s' k' b') ∧ (∀ f wo, r = inr (f, wo) → f = fa ∧ is_Some (files s' !! fa)).
Proof.
  intros Hl Hn Hroom Hp Hfa. unfold fifo_open. cbv zeta. assert (life s k b → let '(k', b') := opened n flags (inl 0) s s k b in life s k' b') as Hsame by (intros _; unfold opened, with_new; destruct (fifo s !! n); done).
  assert (∃ c, (if nz (default 0 (fifo s !! n)) then x ← pipes s !! default 0 (fifo s !! n); Some (readers x) else Some 0) = Some c) as [c ->].
  { destruct (fifo s !! n) as [p|] eqn:Hf; cbn; [|by eexists]. destruct (l_fifo _ _ _ Hl n p Hf) as [_ [y Hy]]. rewrite Hy. cbn. destruct (nz p); by eexists. }
  cbn [mbind option_bind]. destruct (_ && _ && _); [eexists _, s; split; [reflexivity|]; split; [by apply Hsame|]; by intros f wo [=]|].
  pose proof (fifo_pipe_ok s k b n pa Hl Hn Hp) as Hpipe. unfold fifo_pipe in Hpipe. cbv zeta in Hpipe. destruct (if nz _ then _ else _) as [[p s1]|] eqn:Em; [|eexists _, s; split; [reflexivity|]; split; [by apply Hsame|]; by intros f wo [=]].
  destruct Hpipe as (Hl1 & Hf1 & Hp0 & Hfs1 & Hpp). unfold file_new. destruct (Z.eqb_spec fa 0) as [->|Hfa0]; [change (0 =? 0) with true; cbv iota; eexists _, s1; split; [reflexivity|]; split; [unfold opened; by rewrite Hf1|]; by intros f wo [=]|].
  destruct (l_fifo _ _ _ Hl1 n p Hf1) as [_ [y Hy]]. rewrite (proj2 (Z.eqb_neq fa 0)) by done. destruct Hfa as [?|Hfa]; [done|]. rewrite <- Hfs1 in Hfa. unfold set_file, ref_node, set_pipe. cbn [files pipes]. rewrite lookup_insert_eq. cbn [mbind option_bind files pipes]. rewrite Hy. cbn [mbind option_bind].
  set (x := File (if Z.land flags O_ACCMODE =? O_WRONLY then F_PIPE_W else F_PIPE_R) 1 (Z.ldiff flags 0x80000) p 0 0 n 0 0 0). set (y' := pipe_wake _). eexists _, _. split; [reflexivity|]. split; [|intros f wo [= <- _]; split; [done|]; cbn; rewrite lookup_insert_eq; by eexists].
  unfold opened. cbn [fifo]. rewrite Hf1. cbv iota. assert (∀ q, uses x q ↔ q = p) as Hu by (unfold uses, x; cbn; intros q; destruct (_ =? O_WRONLY); naive_solver).
  destruct (l_pipe _ _ _ Hl1 p y Hy) as [_ Pr PR PW Ps Pg _]. pose proof (tot_nonneg (reads p) (files s1) (λ z, proj1 (reads_range p z))). pose proof (tot_nonneg (writes p) (files s1) (λ z, proj1 (writes_range p z))). pose proof (occ_nonneg p k).
  assert (readers y < 2 ^ 31 - 1 ∧ writers y < 2 ^ 31 - 1) as [B1 B2]. { destruct (decide (fifo s !! n = None)) as [E|E]; [rewrite Hy in Hpp; by injection Hpp as ->|]. rewrite Hy in Hpp. apply (Hroom p); [|done]. destruct (fifo s !! n) as [q|] eqn:Eq; [|done]. cbn in Em. destruct (l_fifo _ _ _ Hl n q Eq) as [_ [z Hz]]. rewrite nz_ne in Em by apply (pf_addr _ _ _ _ _ (l_pipe _ _ _ Hl q z Hz)). by injection Em as <- <-. }
  destruct (counts_opened flags fa p n y ltac:(lia) ltac:(lia) Hfa0) as [YR YW]. fold x in YR, YW. pose proof (reads_range p x). pose proof (writes_range p x).
  assert (∀ q, occ q (if Z.land flags O_ACCMODE =? 3 then p :: k else k) = occ q k + b2z (q =? p) * b2z (Z.land flags O_ACCMODE =? 3)) as Hocc by (intros q; destruct (_ =? 3); [rewrite occ_cons|]; destruct (q =? p); cbn; lia).
  assert (writes p x + b2z (Z.land flags O_ACCMODE =? 3) ≤ 1) as Hone.
  { unfold writes, is_rw, x. cbn. rewrite access_kept. destruct (Z.eqb_spec (Z.land flags O_ACCMODE) 3) as [->|]; cbn; [rewrite andb_false_r; cbn; lia|]. destruct (_ =? O_WRONLY); [destruct (p =? p)|destruct (_ && _)]; cbn; lia. }
  eapply (life_open s1 _ _ _ _ _ fa x Hl1 Hfa0 Hfa); cbn [files pipes fifo]; [by rewrite insert_insert_eq|done|..].
  - split; [done|]. split; [done|]. assert (p ≠ 0 ∧ is_Some (<[p := y']> (pipes s1) !! p) ∧ (if nz n then fifo s1 !! n = Some p else ∀ m, fifo s1 !! m ≠ Some p)) by (rewrite lookup_insert_eq, nz_ne by done; split_and!; try done; by eexists). unfold x. cbn. by destruct (_ =? O_WRONLY).
  - intros q Hq. rewrite Hocc. rewrite (proj2 (Z.eqb_neq q p)) by (by rewrite Hu in Hq). cbn. lia.
  - intros q. rewrite list_elem_of_filter, Hu. unfold with_new. case_decide; [rewrite elem_of_cons|]; naive_solver.
  - intros q. destruct (_ =? 3); [rewrite elem_of_cons|]; naive_solver.
  - intros q z ->%Hu Hz. rewrite lookup_insert_eq in Hz. injection Hz as <-. rewrite Hy. cbn [fmap option_fmap option_map default]. rewrite Hocc, Z.eqb_refl. unfold y', pipe_wake. cbn [readers writers gone ring]. rewrite YR, YW. cbn [default]. change (b2z true) with 1. split_and!; try done; try (cbn; lia). by apply ring_woken.
  - intros q Hq. apply lookup_insert_ne. intros <-. by apply Hq, Hu.
Qed.

Lemma wait_fifo s k b f flags wo intr : life s k b → (∃ x, files s !! f = Some x ∧ (f_type x = F_PIPE_R ∨ f_type x = F_PIPE_W)) → ∃ r s', fifo_wait s f flags wo intr = Some (r, s') ∧ life s' k b.
Proof.
  intros Hl (x & Hf & Hty). destruct (l_file _ _ _ Hl f x Hf) as [_ Hfine]. destruct (file_fine_uses s x (f_pipe x) Hfine) as [y Hy]; [by left|]. unfold fifo_wait. rewrite Hf. cbn [mbind option_bind]. rewrite Hy. cbn [mbind option_bind].
  destruct (_ || _); [by eexists _, s|]. destruct (if _ =? O_RDONLY then _ else _); [|by eexists _, s]. destruct intr; [|by eexists _, s]. destruct (close_file s k b f Hl) as (s' & -> & Hl'); [right; by eexists|]. by eexists _, s'.
Qed.

(** ** Runs *)

Inductive op :=
  | MkPipe (pa ra wa : Z) | MkPair (p1 p2 a b : Z) | OpenFifo (n flags pa fa : Z) | WaitFifo (f flags wo : Z) (intr : bool)
  | Ref (f : Z) | Close (f : Z) | Shutdown (f how : Z)
  | Read (f : Z) (intr : bool) (n got : Z) | WriteTo (f : Z) (intr : bool) (n sent : Z) (rest : list Z) | Poll (f now : Z).

Definition nonblock (x : file) : bool := nz (Z.land (f_flags x) O_NONBLOCK).

Definition call (o : op) (s : st) : option st :=
  match o with
  | MkPipe pa ra wa => snd <$> pipe_create s pa ra wa
  | MkPair p1 p2 a b => snd <$> spair_create s p1 p2 a b
  | OpenFifo n flags pa fa => snd <$> fifo_open s n flags pa fa
  | WaitFifo f flags wo intr => snd <$> fifo_wait s f flags wo intr
  | Ref f => file_ref s f
  | Close f => file_close s f
  | Shutdown f how => snd <$> spair_shutdown s f how
  | Read f intr n got =>
      x ← files s !! f;
      match read_pipe x with
      | inl _ => Some s
      | inr p => y ← pipes s !! p; '(_, y) ← read_turn y (nonblock x) intr n got; Some (set_pipe s p y)
      end
  | WriteTo f intr n sent rest =>
      x ← files s !! f;
      match write_pipe x with
      | inl _ => Some s
      | inr p => y ← pipes s !! p; '(_, _, y) ← write_turn y (nonblock x) intr n sent rest; Some (set_pipe s p y)
      end
  | Poll f now => _ ← file_readable s now f; _ ← file_writable s f; _ ← file_gen s f; Some s
  end.

(** A call, with what it does to [k] and [b]. *)
Definition exec (o : op) (w : st * list Z * list Z) : option (st * list Z * list Z) :=
  let '(s, k, b) := w in
  match o with
  | OpenFifo n flags pa fa => '(r, s') ← fifo_open s n flags pa fa; let '(k', b') := opened n flags r s s' k b in Some (s', k', b')
  | _ => s' ← call o s; Some (s', k, b)
  end.

(** [kmalloc] gives addresses not in use; the other calls are on open files; no count
    of references is at the limit of an [int] when it goes up; no direction of a
    socket pair is shut down but by closing it. *)
Definition legal (o : op) (s : st) : Prop :=
  match o with
  | MkPipe pa ra wa => unused (pipes s) pa ∧ unused (files s) ra ∧ unused (files s) wa ∧ (ra ≠ wa ∨ ra = 0)
  | MkPair p1 p2 a b => unused (pipes s) p1 ∧ unused (pipes s) p2 ∧ (p1 ≠ p2 ∨ p1 = 0) ∧ unused (files s) a ∧ unused (files s) b ∧ (a ≠ b ∨ a = 0)
  | OpenFifo n flags pa fa => n ≠ 0 ∧ room s n ∧ unused (pipes s) pa ∧ unused (files s) fa
  | WaitFifo f _ _ _ => ∃ x, files s !! f = Some x ∧ (f_type x = F_PIPE_R ∨ f_type x = F_PIPE_W)
  | Ref f => f = 0 ∨ ∃ x, files s !! f = Some x ∧ f_refs x < 2 ^ 31 - 1
  | Close f => f = 0 ∨ is_Some (files s !! f)
  | Shutdown f how => ¬ 0 ≤ how ≤ 2
  | Read f _ n got => is_Some (files s !! f) ∧ 0 ≤ got ≤ n ∧ n < 2 ^ 32
  | WriteTo f _ n sent rest => is_Some (files s !! f) ∧ 0 ≤ sent ≤ n ∧ n < 2 ^ 32 ∧ len rest = n - sent
  | Poll f _ => is_Some (files s !! f)
  end.

Lemma read_uses s x p : file_fine s x → read_pipe x = inr p ∨ write_pipe x = inr p → uses x p.
Proof.
  intros (_ & Hs & _) [H|H]; unfold read_pipe, write_pipe, uses in *; rewrite Hs in H; destruct (f_type x) eqn:E; try discriminate H; injection H as <-; auto.
Qed.

Definition fine (w : st * list Z * list Z) : Prop := let '(s, k, b) := w in life s k b.

Lemma life_call o s k b : life s k b → legal o s → (∀ n flags pa fa, o ≠ OpenFifo n flags pa fa) → ∃ s', call o s = Some s' ∧ life s' k b.
Proof.
  intros Hl Ho Hne. destruct o as [pa ra wa|p1 p2 a c|n flags pa fa|f flags wo intr|f|f|f how|f intr n got|f intr n sent rest|f now]; cbn [call legal] in *; [| |by destruct (Hne n flags pa fa)|..].
  - destruct Ho as (H1 & H2 & H3 & H4). destruct (make_pipe s k b pa ra wa Hl H1 H2 H3 H4) as (r & s' & -> & Hl' & _). by exists s'.
  - destruct Ho as (H1 & H2 & H3 & H4 & H5 & H6). destruct (make_spair s k b p1 p2 a c Hl H1 H2 H3 H4 H5 H6) as (r & s' & -> & Hl' & _). by exists s'.
  - destruct (wait_fifo s k b f flags wo intr Hl Ho) as (r & s' & -> & Hl'). by exists s'.
  - by apply ref_file.
  - by apply close_file.
  - exists s. split; [|done]. unfold spair_shutdown. destruct (how <? 0) eqn:E1, (2 <? how) eqn:E2; try done. bools. lia.
  - destruct Ho as ([x Hf] & Hg & Hn). rewrite Hf. cbn [mbind option_bind]. destruct (l_file _ _ _ Hl f x Hf) as [_ Hfine]. destruct (read_pipe x) as [v|p] eqn:E; [by exists s|]. destruct (file_fine_uses s x p Hfine) as [y Hy]; [by apply (read_uses s); auto|]. rewrite Hy. cbn [mbind option_bind].
    destruct (PipeSpec.read_turn_ok y (nonblock x) intr n got (pf_ring _ _ _ _ _ (l_pipe _ _ _ Hl p y Hy)) Hg Hn) as (t & y' & Et & Hr & HR & HW & _). assert (gone y' = gone y) as HG by (unfold read_turn in Et; cbv zeta in Et; destruct (_ =? 0); [by injection Et as _ <-|]; destruct (from_buf _ _ _); [by injection Et as _ <-|done]).
    rewrite Et. cbn [mbind option_bind]. eexists. split; [reflexivity|]. by apply (life_ring s k b p y).
  - destruct Ho as ([x Hf] & Hg & Hn & Hlen). rewrite Hf. cbn [mbind option_bind]. destruct (l_file _ _ _ Hl f x Hf) as [_ Hfine]. destruct (write_pipe x) as [v|p] eqn:E; [by exists s|]. destruct (file_fine_uses s x p Hfine) as [y Hy]; [by apply (read_uses s); auto|]. rewrite Hy. cbn [mbind option_bind].
    destruct (PipeSpec.write_turn_ok y (nonblock x) intr n sent rest (pf_ring _ _ _ _ _ (l_pipe _ _ _ Hl p y Hy)) Hg Hn Hlen) as (t & sp & y' & Et & Hr & HR & HW & _). assert (gone y' = gone y) as HG by (unfold write_turn in Et; cbv zeta in Et; destruct (_ <? _); [done|]; destruct (_ <=? 0); [by injection Et as _ _ <-|]; destruct (_ =? PIPE_SZ); [by injection Et as _ _ <-|]; destruct (to_buf _ _ _); [by injection Et as _ _ <-|done]).
    rewrite Et. cbn [mbind option_bind]. eexists. split; [reflexivity|]. by apply (life_ring s k b p y).
  - destruct Ho as [x Hf]. destruct (l_file _ _ _ Hl f x Hf) as [_ Hfine]. assert (∀ p, uses x p → is_Some (pipes s !! p)) as Hp by (intros p; by apply file_fine_uses). exists s. split; [|done]. destruct Hfine as (_ & Hs & _). unfold file_readable, file_writable, file_gen, uses in *. rewrite Hf. cbn [mbind option_bind]. rewrite Hs. change (Z.testbit 0 1) with false. cbv iota.
    destruct (f_type x); try done; destruct (Hp (f_pipe x)) as [y Hy]; auto; try (destruct (Hp (f_pipe2 x)) as [z Hz]; [by auto|]; rewrite Hz); rewrite Hy; done.
Qed.

Lemma life_exec o w : fine w → legal o w.1.1 → ∃ w', exec o w = Some w' ∧ fine w'.
Proof.
  destruct w as [[s k] b]. intros Hl Ho. assert ((∃ n flags pa fa, o = OpenFifo n flags pa fa) ∨ ∀ n flags pa fa, o ≠ OpenFifo n flags pa fa) as [(n & flags & pa & fa & ->)|Hne] by (destruct o; naive_solver).
  - destruct Ho as (H1 & H2 & H3 & H4). destruct (open_fifo s k b n flags pa fa Hl H1 H2 H3 H4) as (r & s' & E & Hl' & _). unfold exec. rewrite E. cbn [mbind option_bind]. destruct (opened n flags r s s' k b) as [k' b']. by eexists.
  - destruct (life_call o s k b Hl Ho Hne) as (s' & E & Hl'). exists (s', k, b). split; [|done]. unfold exec. rewrite E. destruct o; try done. by destruct (Hne n flags pa fa).
Qed.

Fixpoint run (os : list op) (w : st * list Z * list Z) : option (st * list Z * list Z) := match os with [] => Some w | o :: os => w ← exec o w; run os w end.

Fixpoint legal_run (os : list op) (w : st * list Z * list Z) : Prop := match os with [] => True | o :: os => legal o w.1.1 ∧ ∀ w', exec o w = Some w' → legal_run os w' end.

Lemma run_life os : ∀ w, fine w → legal_run os w → ∃ w', run os w = Some w' ∧ fine w'.
Proof. induction os as [|o os IH]; intros w Hl Hr; cbn in *; [by exists w|]. destruct Hr as [Ho Hr]. destruct (life_exec o w Hl Ho) as (w1 & E & Hl1). rewrite E. cbn. apply IH; [done|]. by apply Hr. Qed.

Definition boot : st * list Z * list Z := (St ∅ ∅ ∅ ∅, [], []).

Lemma boot_life : fine boot.
Proof. split; cbn; intros; try by rewrite lookup_empty in *. by destruct H as [H|H]; apply elem_of_nil in H. Qed.

(** C34: In any sequence of calls that make, open, share, read, write, poll and close
    pipes, named pipes and socket pairs, no call touches a pipe or a file that was
    freed; the readers of a pipe are the open files that read it, its writers those that
    write it and one more for each open of a named pipe with both access bits set
    ([k]), which no close takes back; and a pipe is freed with the last of them: the
    pipes without any are exactly those of named pipes whose open failed for lack of
    memory after the pipe was made ([b]), until an open succeeds.  Not in the
    sequence ([legal]): shutting down a direction of a socket pair, and a count of
    references above the range of an int. *)
Theorem pipe_life os : legal_run os boot → ∃ s k b, run os boot = Some (s, k, b) ∧ life s k b.
Proof. intros H. destruct (run_life os boot boot_life H) as ([[s k] b] & E & Hl). by exists s, k, b. Qed.

Lemma pipe_life_witness : ∃ s k b, run [MkPair 1 2 3 4; Poll 3 0; OpenFifo 9 O_RDWR 5 6; Close 3; Close 4; Close 6] boot = Some (s, k, b) ∧ life s k b ∧ pipes s = ∅.
Proof.
  destruct (pipe_life [MkPair 1 2 3 4; Poll 3 0; OpenFifo 9 O_RDWR 5 6; Close 3; Close 4; Close 6]) as (s & k & b & E & Hl).
  - split; [split_and!; try (by right); by left|]. intros w1 E1. vm_compute in E1. injection E1 as <-.
    split; [by eexists|]. intros w2 E2. vm_compute in E2. injection E2 as <-.
    split; [split_and!; try (by right); [done|intros p y [=]]|]. intros w3 E3. vm_compute in E3. injection E3 as <-.
    do 3 (split; [right; by eexists|]; intros ? Ew; vm_compute in Ew; injection Ew as <-). exact I.
  - exists s, k, b. split; [exact E|]. split; [exact Hl|]. vm_compute in E. injection E as <- _ _. reflexivity.
Defined.

(** A pipe of a socket pair is freed while an end is still open: when one end was
    shut down in both directions, closing the other frees both pipes, and the next
    poll or close of the first end is a use of freed memory. *)
Lemma shutdown_frees_early :
  ∃ w, run [MkPair 1 2 3 4; Shutdown 3 2; Close 4] boot = Some w ∧ is_Some (files w.1.1 !! 3) ∧ pipes w.1.1 = ∅ ∧ exec (Poll 3 0) w = None ∧ exec (Close 3) w = None.
Proof. eexists. split; [vm_compute; reflexivity|]. split; [by eexists|]. by vm_compute. Qed.

(** An open with both access bits leaves a pipe that nobody has open. *)
Lemma both_bits_leak : ∃ s, run [OpenFifo 9 3 5 6; Close 6] boot = Some (s, [5], []) ∧ files s = ∅ ∧ is_Some (pipes s !! 5).
Proof. eexists. split; [vm_compute; reflexivity|]. split; [done|by eexists]. Qed.

End PipeLife.
