(* ===== verification/Pcache.v ===== *)
(** * The page cache (src/src/core/pcache.c)

    File pages that address spaces share.  The cache holds one reference on every
    frame in it, each page table entry another.  Nodes are those of [Fs], frames
    those of [Pmm]; the list from [head] on is [order], a [pcn_t] is at its address
    in [cn], the field [pc] of a node is in [npc].  Every function holds the lock
    [pcl], so each is one step. *)

From S2P Require Import Prelude Refs Pmm Fs.

Module Pcache.
Import Pmm Fs.

Record pcn := Pcn { c_n : Z; c_fr : list Z; c_shared : bool }.

(** [dirty] lists the nodes [fs_dirty] was called for, the latest first. *)
Record pcs := Pcs {
  order : list Z; cn : gmap Z pcn; hand_n : Z; hand_i : Z; npages : Z; nshared : Z;
  npc : gmap Z Z; nodes : gmap Z fs_node; pm : pmm; dirty : list Z
}.

Definition cap (c : pcn) : Z := Z.of_nat (length (c_fr c)).

(** The frame of an entry, without the "seen" bit. *)
Definition fr_of (e : Z) : Z := Z.ldiff e 1.

Definition set_cn (s : pcs) (c : Z) (x : pcn) : pcs := {| s with cn := <[c := x]> (cn s) |}.

Definition pc_pages (s : pcs) : Z := npages s.

(** [for (i = 0; i < c->cap; i++) if (c->fr\[i\] && pmm_refcnt(...) == 1) r++] *)
Fixpoint idle (p : pmm) (fr : list Z) : option Z :=
  match fr with
  | [] => Some 0
  | e :: fr => k ← idle p fr; if nz e then r ← pmm_refcnt p (fr_of e); Some (b2z (r =? 1) + k) else Some k
  end.

Fixpoint pc_idle (s : pcs) (l : list Z) : option Z :=
  match l with [] => Some 0 | c :: l => x ← cn s !! c; a ← idle (pm s) (c_fr x); k ← pc_idle s l; Some (a + k) end.

Definition pc_idle_pages (s : pcs) : option Z := pc_idle s (order s).

Definition real (s : pcs) (n : Z) : option Z := x ← nodes s !! n; Some (if nz (n_hl x) then n_hl x else n).

(** ** Frames as bytes *)

Definition to_bytes (l : list Z) : list Z := l ≫= le_bytes 8.

Fixpoint to_words (n : nat) (b : list Z) : list Z :=
  match n with O => [] | S n => le_val (firstn 8 b) :: to_words n (skipn 8 b) end.

(** [memcpy] of [b] to the start of a frame. *)
Definition frame_write (p : pmm) (fr : Z) (b : list Z) : option pmm :=
  l ← ram p !! fr;
  Some {| p with ram := <[fr := to_words 512 (b ++ skipn (length b) (to_bytes l))]> (ram p) |}.

(** How many bytes of the file are in page [i]. *)
Definition span (x : fs_node) (i : Z) : Z :=
  let off := i * PAGE_SIZE in
  if n_size x <=? off then 0 else Z.min (n_size x - off) PAGE_SIZE.

Definition fill (x : fs_node) (p : pmm) (fr i : Z) : option pmm :=
  match n_data x with
  | None => Some p
  | Some d =>
      let off := i * PAGE_SIZE in
      if n_size x <=? off then Some p
      else if Z.of_nat (length d) <? off + span x i then None
      else frame_write p fr (firstn (Z.to_nat (span x i)) (skipn (Z.to_nat off) d))
  end.

(** ** Getting a page *)

(** The [pcn_t] of the node; [ca] is the address [kmalloc] gives for a new one. *)
Definition the_pcn (s : pcs) (n ca : Z) : option Z * pcs :=
  match npc s !! n with
  | Some c => (Some c, s)
  | None =>
      if ca =? 0 then (None, s)
      else (Some ca, {| s with cn := <[ca := Pcn n [] false]> (cn s); order := ca :: order s; npc := <[n := ca]> (npc s) |})
  end.

(** [room] says whether [kmalloc] finds the larger table. *)
Definition get_nl (s : pcs) (n i ca : Z) (room : bool) : option (Z * pcs) :=
  x ← nodes s !! n;
  let need := u32 ((n_size x + PAGE_SIZE - 1) / PAGE_SIZE) in
  if need <=? i then Some (0, s) else
  match the_pcn s n ca with
  | (None, s) => Some (0, s)
  | (Some c, s) =>
      y ← cn s !! c;
      let nc := if i + 1 <? need then need else i + 1 in
      if (cap y <=? i) && negb room then Some (0, s) else
      let y := if cap y <=? i then {| y with c_fr := c_fr y ++ replicate (Z.to_nat nc - length (c_fr y)) 0 |} else y in
      let s := set_cn s c y in
      e ← (c_fr y).[i];
      '(fr, s) ← (if fr_of e =? 0 then
                    '(fr, p) ← pmm_alloc (pm s);
                    if fr =? 0 then Some (0, {| s with pm := p |}) else
                    p ← fill x p fr i;
                    Some (fr, {| s with pm := p; npages := u64 (npages s + 1) |})
                  else Some (fr_of e, s));
      if fr =? 0 then Some (0, s) else
      l ← (c_fr y).[i <- Z.lor fr 1];
      p ← pmm_ref (pm s) fr;
      Some (fr, set_cn {| s with pm := p |} c {| y with c_fr := l |})
  end.

(** The part of [pc_map] under the lock: one page for a mapping, shared or not. *)
Definition get_page (s : pcs) (n i ca : Z) (room sh : bool) : option (Z * pcs) :=
  '(fr, s) ← get_nl s n i ca room;
  if (fr =? 0) || negb sh then Some (fr, s) else
  c ← npc s !! n;
  y ← cn s !! c;
  Some (fr, if c_shared y then s else set_cn {| s with nshared := u64 (nshared s + 1) |} c {| y with c_shared := true |}).

(** ** Dropping *)

Fixpoint unref_all (p : pmm) (np : Z) (fr : list Z) : option (pmm * Z) :=
  match fr with
  | [] => Some (p, np)
  | e :: fr => if nz e then p ← pmm_unref p (fr_of e); unref_all p (u64 (np - 1)) fr else unref_all p np fr
  end.

Definition drop_nl (s : pcs) (c : Z) : option pcs :=
  y ← cn s !! c;
  '(p, np) ← unref_all (pm s) (npages s) (c_fr y);
  Some {| s with
    pm := p; npages := np; nshared := if c_shared y then u64 (nshared s - 1) else nshared s;
    order := filter (λ c', c' ≠ c) (order s); hand_n := if hand_n s =? c then 0 else hand_n s;
    npc := delete (c_n y) (npc s); cn := delete c (cn s) |}.

(** The loop of [pc_changed] for a file that is mapped shared. *)
Fixpoint refill (x : fs_node) (p : pmm) (i : Z) (fr : list Z) : option pmm :=
  match fr with
  | [] => Some p
  | e :: fr =>
      p ← (if fr_of e =? 0 then Some p
           else _ ← ram p !! fr_of e; fill x {| p with ram := <[fr_of e := zero_page]> (ram p) |} (fr_of e) i);
      refill x p (i + 1) fr
  end.

Definition pc_changed (s : pcs) (n : Z) : option pcs :=
  n ← real s n;
  match npc s !! n with
  | None => Some s
  | Some c =>
      y ← cn s !! c;
      if c_shared y then x ← nodes s !! n; p ← refill x (pm s) 0 (c_fr y); Some {| s with pm := p |}
      else drop_nl s c
  end.

Definition pc_free (s : pcs) (n : Z) : option pcs :=
  match npc s !! n with None => Some s | Some c => drop_nl s c end.

(** ** Writing back *)

(** The pages of [ks]: the file's bytes, and whether something changed. *)
Fixpoint sync_pages (x : fs_node) (p : pmm) (fr : list Z) (ks : list Z) (d : list Z) : option (bool * list Z) :=
  match ks with
  | [] => Some (false, d)
  | i :: ks =>
      e ← fr.[i];
      let off := i * PAGE_SIZE in
      '(ch, d) ← (if (fr_of e =? 0) || (n_size x <=? off) then Some (false, d) else
                  l ← ram p !! fr_of e;
                  let b := firstn (Z.to_nat (span x i)) (to_bytes l) in
                  if Z.of_nat (length d) <? off + span x i then None else
                  if bool_decide (firstn (Z.to_nat (span x i)) (skipn (Z.to_nat off) d) = b) then Some (false, d)
                  else Some (true, firstn (Z.to_nat off) d ++ b ++ skipn (Z.to_nat (off + span x i)) d));
      '(ch', d) ← sync_pages x p fr ks d;
      Some (ch || ch', d)
  end.

Definition sync_nl (s : pcs) (c first e : Z) : option (bool * pcs) :=
  y ← cn s !! c;
  x ← nodes s !! c_n y;
  match n_data x with
  | None => Some (false, s)
  | Some d =>
      if n_cap x =? 0 then Some (false, s) else
      '(ch, d) ← sync_pages x (pm s) (c_fr y) (seqZ first (Z.min e (cap y) - first)) d;
      Some (ch, {| s with nodes := <[c_n y := {| x with n_data := Some d |}]> (nodes s) |})
  end.

Definition touched (s : pcs) (n now : Z) (ch : bool) : option pcs :=
  if ch then x ← nodes s !! n; Some {| s with nodes := <[n := {| x with n_mtime := now |}]> (nodes s); dirty := n :: dirty s |} else Some s.

Definition pc_sync_range (s : pcs) (n off len now : Z) : option pcs :=
  n ← real s n;
  x ← nodes s !! n;
  match npc s !! n with
  | None => Some s
  | Some c =>
      y ← cn s !! c;
      if negb (c_shared y) || (len =? 0) || (n_size x <=? off) then Some s else
      let len := if n_size x - off <? len then n_size x - off else len in
      '(ch, s) ← sync_nl s c (off / PAGE_SIZE) ((off + len + PAGE_SIZE - 1) / PAGE_SIZE);
      touched s n now ch
  end.

Definition pc_sync (s : pcs) (n now : Z) : option pcs :=
  r ← real s n; x ← nodes s !! r; pc_sync_range s n 0 (n_size x) now.

(** Does anybody else hold one of the pages? *)
Fixpoint in_use (p : pmm) (fr : list Z) : option bool :=
  match fr with
  | [] => Some false
  | e :: fr => if nz e then r ← pmm_refcnt p (fr_of e); if 1 <? r then Some true else in_use p fr else in_use p fr
  end.

Definition sync_one (now : Z) (c : Z) (s : pcs) : option pcs :=
  y ← cn s !! c;
  if negb (c_shared y) then Some s else
  '(ch, s) ← sync_nl s c 0 (cap y);
  s ← touched s (c_n y) now ch;
  used ← in_use (pm s) (c_fr y);
  Some (if used : bool then s else set_cn {| s with nshared := u64 (nshared s - 1) |} c {| y with c_shared := false |}).

Definition pc_sync_all (s : pcs) (now : Z) : option pcs :=
  if nshared s =? 0 then Some s else each (sync_one now) (order s) s.

(** ** Giving pages back *)

Fixpoint next_of (l : list Z) (c : Z) : Z :=
  match l with [] => 0 | a :: l => if a =? c then hd 0 l else next_of l c end.

Fixpoint reclaim (fuel : nat) (s : pcs) (want got steps : Z) : option (Z * pcs) :=
  if (got <? want) && nz (hand_n s) && (steps <? u64 (npages s * 2 + 64)) then
    match fuel with
    | O => None
    | S fuel =>
        let c := hand_n s in
        y ← cn s !! c;
        let steps := steps + 1 in
        if cap y <=? hand_i s then
          let nx := next_of (order s) c in
          let s := {| s with hand_n := if nx =? 0 then hd 0 (order s) else nx; hand_i := 0 |} in
          if (hand_n s =? c) && (cap y =? 0) then Some (got, s) else reclaim fuel s want got steps
        else
          let i := hand_i s in
          e ← (c_fr y).[i];
          let s := {| s with hand_i := u32 (i + 1) |} in
          if fr_of e =? 0 then reclaim fuel s want got steps else
          if Z.odd e then l ← (c_fr y).[i <- fr_of e]; reclaim fuel (set_cn s c {| y with c_fr := l |}) want got steps else
          r ← pmm_refcnt (pm s) (fr_of e);
          if negb (r =? 1) then reclaim fuel s want got steps else
          if c_shared y then reclaim fuel s want got steps else
          l ← (c_fr y).[i <- 0];
          p ← pmm_unref (pm s) (fr_of e);
          reclaim fuel (set_cn {| s with pm := p; npages := u64 (npages s - 1) |} c {| y with c_fr := l |}) want (got + 1) steps
    end
  else Some (got, s).

Definition pc_reclaim (s : pcs) (want : Z) : option (Z * pcs) :=
  let s := if hand_n s =? 0 then {| s with hand_n := hd 0 (order s); hand_i := 0 |} else s in
  reclaim (Z.to_nat (npages s * 2 + 64)) s want 0 0.

End Pcache.
