(* ===== verification/PcacheSpec.v ===== *)
(** * The page cache is safe

    References, counters and contents of the cache, in any interleaving with the
    rest of the kernel: the frames in the cache are held by it, the pages of a file
    that nobody maps shared are the bytes of the file, and giving pages back takes
    only frames that nobody else holds. *)

From S2P Require Import Prelude Refs Pmm Fs Pcache.

Module PcacheSpec.
Import Pmm Fs Pcache.

(** ** Bytes and words *)

Definition byte (b : Z) : Prop := 0 ≤ b < 256.

Lemma le_bytes_val l : Forall byte l → le_bytes (length l) (le_val l) = l.
Proof.
  induction 1 as [|b l Hb _ IH]; [done|]. cbn [length le_bytes le_val]. unfold byte in Hb. f_equal.
  - unfold u8. rewrite Z.mul_comm, Z.mod_add by lia. apply Z.mod_small. lia.
  - rewrite Z.shiftr_div_pow2 by lia. replace ((b + 256 * le_val l) / 2 ^ 8) with (le_val l); [done|]. change (2 ^ 8) with 256. rewrite Z.mul_comm, Z.div_add, (Z.div_small b) by lia. lia.
Qed.

Lemma to_bytes_length l : length (to_bytes l) = (8 * length l)%nat.
Proof. unfold to_bytes. induction l as [|x l IH]; [done|]. cbn [mbind list_bind length]. rewrite length_app, (proj1 (le_bytes_ok 8 x)). fold (mbind (le_bytes 8) l). rewrite IH. lia. Qed.

Lemma to_bytes_byte l : Forall byte (to_bytes l).
Proof. unfold to_bytes. induction l as [|x l IH]; [constructor|]. cbn [mbind list_bind]. apply Forall_app. split; [apply le_bytes_ok|done]. Qed.

Lemma to_words_length n b : length (to_words n b) = n.
Proof. revert b. induction n as [|n IH]; intros b; cbn; [done|]. by rewrite IH. Qed.

Lemma to_words_bytes n : ∀ b, length b = (8 * n)%nat → Forall byte b → to_bytes (to_words n b) = b.
Proof.
  induction n as [|n IH]; intros b Hl Hb. { destruct b; [done|cbn in Hl; lia]. } cbn [to_words]. unfold to_bytes. cbn [mbind list_bind]. fold (mbind (le_bytes 8) (to_words n (skipn 8 b))). fold (to_bytes (to_words n (skipn 8 b))).
  rewrite IH; [|rewrite length_skipn; lia|by apply Forall_drop]. pose proof (le_bytes_val (firstn 8 b)) as H. rewrite length_firstn in H. replace (8 `min` length b)%nat with 8%nat in H by lia.
  rewrite H by (by apply Forall_take). apply firstn_skipn.
Qed.

(** A page of memory. *)
Definition is_mem (l : list Z) : Prop := length l = 512%nat.

Lemma frame_write_spec p fr b l : ram p !! fr = Some l → is_mem l → (length b ≤ 4096)%nat → Forall byte b →
  ∃ l', frame_write p fr b = Some {| p with ram := <[fr := l']> (ram p) |} ∧ is_mem l' ∧ to_bytes l' = b ++ skipn (length b) (to_bytes l).
Proof.
  intros Hl Hm Hb Hbb. unfold frame_write. rewrite Hl. cbn [mbind option_bind]. eexists. split; [done|]. split; [apply to_words_length|]. unfold is_mem in Hm. apply to_words_bytes.
  - rewrite length_app, length_skipn, to_bytes_length. lia.
  - apply Forall_app. split; [done|]. apply Forall_drop, to_bytes_byte.
Qed.

Lemma zero_mem : is_mem zero_page.
Proof. done. Qed.

(** ** What the cache holds *)

Definition olist {A} (o : option A) : list A := match o with Some x => [x] | None => [] end.
Definition frame_of_entry (e : Z) : list Z := if fr_of e =? 0 then [] else [fr_of e].
Definition frames_in (x : pcn) : list Z := c_fr x ≫= frame_of_entry.

Definition cached (m : gmap Z pcn) : list Z := map_to_list m ≫= λ cx, frames_in cx.2.
Definition shared_of (m : gmap Z pcn) : list Z := map_to_list m ≫= λ cx, if c_shared cx.2 then [cx.1] else [].

Lemma bind_perm {A B} (f : A → list B) l k : l ≡ₚ k → l ≫= f ≡ₚ k ≫= f.
Proof. intros H. by apply bind_Permutation. Qed.

Lemma cached_split m c x : m !! c = Some x → cached m ≡ₚ frames_in x ++ cached (delete c m).
Proof. intros H. unfold cached. rewrite <- (insert_id m c x) at 1 by done. rewrite <- insert_delete_eq. rewrite map_to_list_insert by apply lookup_delete_eq. done. Qed.

Lemma cached_insert m c x : cached (<[c := x]> m) ≡ₚ frames_in x ++ cached (delete c m).
Proof. unfold cached. rewrite <- insert_delete_eq. rewrite map_to_list_insert by apply lookup_delete_eq. done. Qed.

Lemma shared_split m c x : m !! c = Some x → shared_of m ≡ₚ (if c_shared x then [c] else []) ++ shared_of (delete c m).
Proof. intros H. unfold shared_of. rewrite <- (insert_id m c x) at 1 by done. rewrite <- insert_delete_eq. rewrite map_to_list_insert by apply lookup_delete_eq. done. Qed.

Lemma shared_insert m c x : shared_of (<[c := x]> m) ≡ₚ (if c_shared x then [c] else []) ++ shared_of (delete c m).
Proof. unfold shared_of. rewrite <- insert_delete_eq. rewrite map_to_list_insert by apply lookup_delete_eq. done. Qed.

Lemma cached_elem m f : f ∈ cached m ↔ ∃ c x i e, m !! c = Some x ∧ c_fr x !! i = Some e ∧ fr_of e = f ∧ f ≠ 0.
Proof.
  unfold cached. rewrite list_elem_of_bind. split.
  - intros ([c x] & Hf & Hx%elem_of_map_to_list). cbn in Hf. unfold frames_in in Hf. apply list_elem_of_bind in Hf as (e & He & [i Hi]%list_elem_of_lookup). unfold frame_of_entry in He.
    destruct (Z.eqb_spec (fr_of e) 0); [by apply elem_of_nil in He|]. apply list_elem_of_singleton in He. subst f. by exists c, x, i, e.
  - intros (c & x & i & e & Hx & He & Hf & H0). exists (c, x). split; [|by apply elem_of_map_to_list]. cbn. unfold frames_in. apply list_elem_of_bind. exists e. split; [|by apply list_elem_of_lookup_2 in He].
    unfold frame_of_entry. subst f. rewrite (proj2 (Z.eqb_neq _ _) H0). apply list_elem_of_here.
Qed.

(** An entry is empty, or the address of a page with or without the "seen" bit. *)
Definition entry_ok (e : Z) : Prop := e = 0 ∨ (0 < fr_of e ∧ fr_of e mod PAGE_SIZE = 0 ∧ (e = fr_of e ∨ e = fr_of e + 1)).

Lemma entry_nz e : entry_ok e → nz e = negb (fr_of e =? 0).
Proof.
  unfold nz. intros [->|(H1 & _ & H3)]; [done|]. rewrite (proj2 (Z.eqb_neq (fr_of e) 0)) by lia. rewrite (proj2 (Z.eqb_neq e 0)) by lia. done.
Qed.

(** The bytes of page [i] of a file, as far as the file goes. *)
Definition file_page (x : fs_node) (d : list Z) (i : Z) : list Z := firstn (Z.to_nat (span x i)) (skipn (Z.to_nat (i * PAGE_SIZE)) d).

(** The first bytes of frame [f] are page [i] of [x], as far as the file goes. *)
Definition same (p : pmm) (x : fs_node) (i : Z) (f : Z) : Prop :=
  ∀ d l, n_data x = Some d → ram p !! f = Some l → firstn (Z.to_nat (span x i)) (to_bytes l) = file_page x d i.

(** The same, of a file that owns its bytes: those of a file borrowed from the boot
    image ([n_cap x = 0]) are never written back. *)
Definition shows (p : pmm) (x : fs_node) (i : Z) (f : Z) : Prop :=
  ∀ d l, n_data x = Some d → n_cap x ≠ 0 → ram p !! f = Some l → firstn (Z.to_nat (span x i)) (to_bytes l) = file_page x d i.

Definition node_fine (x : fs_node) : Prop := 0 ≤ n_size x ∧ ∀ d, n_data x = Some d → Forall byte d ∧ n_size x ≤ Z.of_nat (length d).

(** [h] is what the rest of the kernel holds. *)
Record ok (s : pcs) (h : list Z) : Prop := {
  p_link : linked (pm s) (cached (cn s) ++ h);
  p_mem : ∀ f, f ∈ cached (cn s) → ∃ l, ram (pm s) !! f = Some l ∧ is_mem l;
  p_once : NoDup (cached (cn s));
  p_entry : ∀ c x, cn s !! c = Some x → Forall entry_ok (c_fr x) ∧ 0 < c < 2 ^ 64;
  p_order : NoDup (order s) ∧ ∀ c, c ∈ order s ↔ is_Some (cn s !! c);
  p_npc : ∀ n c, npc s !! n = Some c ↔ ∃ x, cn s !! c = Some x ∧ c_n x = n;
  p_node : ∀ n, is_Some (npc s !! n) → is_Some (nodes s !! n);
  p_fine : ∀ n x, nodes s !! n = Some x → node_fine x;
  p_pages : npages s = Z.of_nat (length (cached (cn s)));
  p_shared : nshared s = Z.of_nat (length (shared_of (cn s)));
  p_hand : (hand_n s = 0 ∨ is_Some (cn s !! hand_n s)) ∧ 0 ≤ hand_i s;
  p_shows : ∀ c x i e y, cn s !! c = Some x → c_shared x = false → c_fr x !! i = Some e → fr_of e ≠ 0 →
    nodes s !! c_n x = Some y → shows (pm s) y (Z.of_nat i) (fr_of e)
}.

Lemma same_link r h h' : link r h → h ≡ₚ h' → link r h'.
Proof. intros H Hp t. rewrite <- (occ_perm t _ _ Hp). apply H. Qed.

Lemma linked_perm p h h' : linked p h → h ≡ₚ h' → linked p h'.
Proof. intros [H1 H2] Hp. split; [done|]. by apply (same_link _ h). Qed.

(** There are fewer pages in the cache than frames, and fewer files than addresses. *)
Lemma frames_bound p l : pool_inv p → NoDup l → (∀ f, f ∈ l → 0 < refs p f) → Z.of_nat (length l) ≤ 2 ^ 40.
Proof.
  intros Hp Hnd Hr. pose proof (pi_max _ Hp) as Hm.
  assert (NoDup ((λ f, Z.shiftr f 12) <$> l)) as Hn.
  { apply NoDup_fmap_2_strong; [|done]. intros a b Ha Hb E. destruct (frame_cell _ _ Hp (Hr a Ha)) as (_ & _ & _ & _ & Ea & _). destruct (frame_cell _ _ Hp (Hr b Hb)) as (_ & _ & _ & _ & Eb & _).
    by rewrite (frame_eta _ Ea), (frame_eta _ Eb), E. }
  assert ((λ f, Z.shiftr f 12) <$> l ⊆+ seqZ 0 (max_pfn p)) as Hs.
  { apply NoDup_submseteq; [done|]. intros k (f & -> & Hf)%list_elem_of_fmap. destruct (frame_cell _ _ Hp (Hr f Hf)) as (x & Hx & _). apply arr_get_range in Hx. rewrite (pi_length _ Hp) in Hx. apply elem_of_seqZ. lia. }
  apply submseteq_length in Hs. rewrite length_fmap, length_seqZ in Hs. lia.
Qed.

Lemma cached_refs s h f : ok s h → f ∈ cached (cn s) → 0 < refs (pm s) f.
Proof. intros Hok Hf. eapply link_held; [apply (p_link _ _ Hok)|]. set_solver. Qed.

Lemma pages_bound s h : ok s h → 0 ≤ npages s ≤ 2 ^ 40.
Proof.
  intros Hok. rewrite (p_pages _ _ Hok). split; [lia|]. apply (frames_bound (pm s)); [apply (p_link _ _ Hok)|apply (p_once _ _ Hok)|]. intros f Hf. by apply (cached_refs s h).
Qed.

Lemma shared_le m : (length (shared_of m) ≤ size m)%nat.
Proof.
  unfold shared_of. rewrite <- length_map_to_list. induction (map_to_list m) as [|[c x] l IH]; [done|]. cbn. rewrite length_app. destruct (c_shared x); cbn; lia.
Qed.

Lemma pcn_count (m : gmap Z pcn) : (∀ c x, m !! c = Some x → 0 < c < 2 ^ 64) → Z.of_nat (size m) < 2 ^ 64.
Proof.
  intros H. rewrite <- length_map_to_list. assert ((map_to_list m).*1 ⊆+ seqZ 1 (2 ^ 64 - 1)) as Hs.
  { apply NoDup_submseteq; [apply NoDup_fst_map_to_list|]. intros c ([c' x] & -> & Hc%elem_of_map_to_list)%list_elem_of_fmap. apply elem_of_seqZ. specialize (H _ _ Hc). cbn. lia. }
  apply submseteq_length in Hs. rewrite length_fmap, length_seqZ in Hs. lia.
Qed.

Lemma shared_bound s h : ok s h → 0 ≤ nshared s < 2 ^ 64.
Proof.
  intros Hok. rewrite (p_shared _ _ Hok). split; [lia|]. pose proof (shared_le (cn s)). pose proof (pcn_count (cn s) (λ c x Hx, proj2 (p_entry _ _ Hok c x Hx))). lia.
Qed.

(** One [pcn_t] changes, and the frames of no other. *)
Lemma ok_set s h c y y' p' np' ns' h' : ok s h → cn s !! c = Some y → c_n y' = c_n y → Forall entry_ok (c_fr y') →
  linked p' ((frames_in y' ++ cached (delete c (cn s))) ++ h') → NoDup (frames_in y' ++ cached (delete c (cn s))) →
  (∀ f, f ∈ cached (delete c (cn s)) → ram p' !! f = ram (pm s) !! f) →
  (∀ f, f ∈ frames_in y' → ∃ l, ram p' !! f = Some l ∧ is_mem l) →
  np' = Z.of_nat (length (frames_in y' ++ cached (delete c (cn s)))) →
  ns' = Z.of_nat (length ((if c_shared y' then [c] else []) ++ shared_of (delete c (cn s)))) →
  (c_shared y' = false → ∀ i e x, c_fr y' !! i = Some e → fr_of e ≠ 0 → nodes s !! c_n y = Some x → shows p' x (Z.of_nat i) (fr_of e)) →
  ok {| s with cn := <[c := y']> (cn s); pm := p'; npages := np'; nshared := ns' |} h'.
Proof.
  intros Hok Hc Hn He Hl Hnd Hram Hmem Hnp Hns Hsh. pose proof (cached_insert (cn s) c y') as Hp. destruct Hok as [O1 O2 O3 O4 O5 O6 O7 O8 O9 O10 O11 O12].
  assert (∀ f, f ∈ cached (delete c (cn s)) → f ∈ cached (cn s)) as Hsub. { intros f Hf. rewrite (cached_split _ _ _ Hc). set_solver. }
  split; cbn.
  - apply (linked_perm _ _ _ Hl). by rewrite Hp.
  - intros f. rewrite Hp. intros [Hf|Hf]%elem_of_app; [by apply Hmem|]. rewrite Hram by done. by apply O2, Hsub.
  - by rewrite Hp.
  - intros c' x. destruct (decide (c' = c)) as [->|]; [rewrite lookup_insert_eq; intros [= <-]; split; [done|apply (O4 c y Hc)]|]. rewrite lookup_insert_ne by done. apply O4.
  - destruct O5 as [O5 O5']. split; [done|]. intros c'. rewrite O5'. destruct (decide (c' = c)) as [->|]; [rewrite lookup_insert_eq, Hc; split; by eexists|by rewrite lookup_insert_ne].
  - intros n c'. rewrite O6. destruct (decide (c' = c)) as [->|]; [|by rewrite lookup_insert_ne]. rewrite lookup_insert_eq, Hc. split; intros (x & [= <-] & E); eexists; split; [done|congruence|done|congruence].
  - done.
  - done.
  - by rewrite Hp.
  - rewrite (shared_insert (cn s) c y'). done.
  - destruct O11 as [[O11|O11] O11']; (split; [|done]); [by left|]. right. destruct (decide (hand_n s = c)) as [->|]; [by rewrite lookup_insert_eq|by rewrite lookup_insert_ne].
  - intros c' x i e z Hx Hs' Hi H0 Hz. destruct (decide (c' = c)) as [->|Hcc].
    + rewrite lookup_insert_eq in Hx. injection Hx as <-. rewrite Hn in Hz. by apply (Hsh Hs' i e z).
    + rewrite lookup_insert_ne in Hx by done. pose proof (O12 c' x i e z Hx Hs' Hi H0 Hz) as Hd. intros d l E1 E2 E3. rewrite Hram in E3; [by apply (Hd d l)|].
      apply cached_elem. exists c', x, i, e. by rewrite lookup_delete_ne.
Qed.

Lemma frames_entry (l : list Z) i e v : l !! i = Some e → ∃ R, l ≫= frame_of_entry ≡ₚ frame_of_entry e ++ R ∧ <[i := v]> l ≫= frame_of_entry ≡ₚ frame_of_entry v ++ R.
Proof.
  intros Hi. exists ((firstn i l ≫= frame_of_entry) ++ (skipn (S i) l ≫= frame_of_entry)). assert (i < length l)%nat as Hlt by (by apply lookup_lt_Some in Hi). split.
  - rewrite <- (take_drop_middle l i e Hi) at 1. rewrite bind_app. cbn [mbind list_bind]. rewrite Permutation_app_swap_app. done.
  - rewrite insert_take_drop by done. rewrite bind_app. cbn [mbind list_bind]. rewrite Permutation_app_swap_app. done.
Qed.

(** ** The pool, by what is held *)

Lemma linked_ram p L m : linked p L → linked {| p with ram := m |} L.
Proof. intros [[H1 H2 H3 H4 H5 H6 H7] Hl]. split; [by split|]. exact Hl. Qed.

Lemma alloc_linked p L : linked p L → ∃ fr p', pmm_alloc p = Some (fr, p') ∧
  (fr = 0 ∧ p' = p ∨ 0 < fr ∧ fr mod PAGE_SIZE = 0 ∧ (fr ∉ L) ∧ linked p' (fr :: L) ∧ ram p' = <[fr := zero_page]> (ram p)).
Proof.
  intros [Hi Hl]. destruct (pmm_alloc_spec p Hi) as (fr & p' & E & Hi' & Hc). exists fr, p'. split; [done|]. destruct Hc as [(-> & -> & _)|(Hp & Hm & _ & Hz & _ & Hr & _ & _ & _ & _ & Ht)]; [by left|right].
  split; [done|]. split; [done|]. split; [by eapply link_free|]. split; [|done]. split; [done|]. eapply (effect_link _ _ L); [|done]. apply (Refs.take _ _ L [fr]); [apply NoDup_singleton|set_solver|].
  intros u. rewrite Ht. by do 2 case_decide; try set_solver.
Qed.

Lemma ref_linked p L fr : linked p L → fr ∈ L → ∃ p', pmm_ref p fr = Some p' ∧ linked p' (fr :: L) ∧ ram p' = ram p.
Proof.
  intros [Hi Hl] Hin. destruct (pmm_ref_spec p fr Hi) as (p' & E & Hi' & Hr & Ht); [by eapply link_held|]. exists p'. split; [done|]. split; [|done]. split; [done|]. eapply effect_link; [|exact Hl]. by apply dup.
Qed.

Lemma unref_linked p L fr L' : linked p L → L ≡ₚ fr :: L' → ∃ p', pmm_unref p fr = Some p' ∧ linked p' L' ∧ ram p' = ram p.
Proof.
  intros [Hi Hl] Hp. destruct (pmm_unref_spec p fr Hi) as (p' & E & Hi' & Hr & Ht); [eapply link_held; [done|]; rewrite Hp; set_solver|]. exists p'. split; [done|]. split; [|done]. split; [done|].
  eapply effect_link; [|exact Hl]. by eapply Refs.put.
Qed.

Lemma refcnt_linked p L fr : linked p L → fr ∈ L → ∃ r, pmm_refcnt p fr = Some r ∧ r = refs p fr ∧ (r = 254 ∨ r = occ fr L).
Proof.
  intros [Hi Hl] Hin. pose proof (link_held _ _ _ Hl Hin) as Hp. destruct (frame_cell _ _ Hi Hp) as (x & Hx & _ & Ex & _ & Ho). exists x. unfold pmm_refcnt. rewrite Ho. split; [done|]. split; [done|]. rewrite <- Ex. apply Hl.
Qed.

(** ** Filling a frame *)

Lemma span_range x i : 0 ≤ i → 0 ≤ span x i ≤ 4096 ∧ (span x i = 0 ∨ i * PAGE_SIZE + span x i ≤ n_size x).
Proof. intros Hi. unfold span, PAGE_SIZE. destruct (Z.leb_spec (n_size x) (i * 4096)); lia. Qed.

Lemma file_page_length x d i : 0 ≤ i → n_size x ≤ Z.of_nat (length d) → length (file_page x d i) = Z.to_nat (span x i).
Proof. intros Hi Hd. destruct (span_range x i Hi) as [H1 H2]. unfold file_page, PAGE_SIZE in *. rewrite length_firstn, length_skipn. lia. Qed.

Lemma page_fill_ok x p fr i l : node_fine x → ram p !! fr = Some l → is_mem l → 0 ≤ i →
  ∃ l', fill x p fr i = Some {| p with ram := <[fr := l']> (ram p) |} ∧ is_mem l' ∧ ∀ d, n_data x = Some d → firstn (Z.to_nat (span x i)) (to_bytes l') = file_page x d i.
Proof.
  intros [Hs Hd] Hl Hm Hi. unfold fill. assert ({| p with ram := <[fr := l]> (ram p) |} = p) as Ep by (rewrite insert_id by done; by destruct p).
  destruct (n_data x) as [d|] eqn:Ed; [|exists l; rewrite Ep; done]. destruct (Hd d eq_refl) as [Hb Hlen]. destruct (span_range x i Hi) as [Hsp Hsp'].
  destruct (Z.leb_spec (n_size x) (i * PAGE_SIZE)) as [Hle|Hle].
  { exists l. rewrite Ep. split; [done|]. split; [done|]. intros d' [= <-]. unfold file_page. replace (span x i) with 0; [done|]. unfold span. by rewrite (proj2 (Z.leb_le _ _)). }
  rewrite (proj2 (Z.ltb_ge _ _)) by (unfold PAGE_SIZE in *; lia). fold (file_page x d i). pose proof (file_page_length x d i Hi Hlen) as HL.
  destruct (frame_write_spec p fr (file_page x d i) l Hl Hm) as (l' & E & Hm' & Hb'); [rewrite HL; lia|apply Forall_take, Forall_drop, Hb|]. exists l'. split; [done|]. split; [done|].
  intros d' [= <-]. rewrite Hb'. apply take_app_length'. lia.
Qed.

(** ** Entries *)

Lemma fr_of_page f : f mod PAGE_SIZE = 0 → fr_of f = f ∧ fr_of (Z.lor f 1) = f ∧ Z.lor f 1 = f + 1.
Proof.
  unfold fr_of, PAGE_SIZE. intros Hf. assert (Z.testbit f 0 = false) as Hb. { rewrite Z.bit0_odd, <- Z.negb_even. apply negb_false_iff, Z.even_spec. exists (2048 * (f / 4096)). pose proof (Z.div_mod f 4096). lia. }
  assert (Z.land f 1 = 0) as H0. { apply Z.bits_inj'. intros k Hk. rewrite Z.land_spec, Z.bits_0. destruct (decide (k = 0)) as [->|]; [by rewrite Hb|]. rewrite (Z.bits_above_log2 1 k) by (cbn; lia). apply andb_false_r. }
  assert (Z.ldiff f 1 = f) as H1. { apply Z.bits_inj'. intros k Hk. rewrite Z.ldiff_spec. destruct (decide (k = 0)) as [->|]; [by rewrite Hb|]. rewrite (Z.bits_above_log2 1 k) by (cbn; lia). apply andb_true_r. }
  split; [done|]. split.
  - apply Z.bits_inj'. intros k Hk. rewrite Z.ldiff_spec, Z.lor_spec. destruct (decide (k = 0)) as [->|]; [by rewrite Hb|]. rewrite (Z.bits_above_log2 1 k) by (cbn; lia). rewrite orb_false_r. apply andb_true_r.
  - rewrite <- Z.add_lor_land, H0. lia.
Qed.

Lemma entry_seen f : 0 < f → f mod PAGE_SIZE = 0 → entry_ok (Z.lor f 1) ∧ entry_ok f ∧ frame_of_entry (Z.lor f 1) = [f] ∧ frame_of_entry f = [f].
Proof.
  intros Hf Hm. destruct (fr_of_page f Hm) as (E1 & E2 & E3). unfold entry_ok, frame_of_entry. rewrite E1, E2, (proj2 (Z.eqb_neq f 0)) by lia. split_and!; try done; right; split_and!; try done; auto.
Qed.

Lemma frames_zeros n : replicate n 0 ≫= frame_of_entry = [].
Proof. induction n as [|n IH]; [done|]. cbn. by rewrite IH. Qed.

(** ** Getting a page *)

Definition fresh (s : pcs) (ca : Z) : Prop := ca = 0 ∨ 0 < ca < 2 ^ 64 ∧ cn s !! ca = None.

Lemma the_pcn_ok s h n ca : ok s h → is_Some (nodes s !! n) → fresh s ca →
  the_pcn s n ca = (None, s) ∨ ∃ c s1 y, the_pcn s n ca = (Some c, s1) ∧ ok s1 h ∧ npc s1 !! n = Some c ∧ cn s1 !! c = Some y ∧ c_n y = n ∧ nodes s1 = nodes s ∧ cached (cn s1) ≡ₚ cached (cn s).
Proof.
  intros Hok Hn Hf. unfold the_pcn. destruct (npc s !! n) as [c|] eqn:Hc.
  { right. apply (p_npc _ _ Hok) in Hc as Hx. destruct Hx as (y & Hy & E). by exists c, s, y. }
  destruct Hf as [->|[Hr Hca]]; [by left|]. rewrite (proj2 (Z.eqb_neq ca 0)) by lia. right. eexists ca, _, _. split; [done|]. cbn. rewrite !lookup_insert_eq.
  assert (∀ y, cached (<[ca := Pcn n [] y]> (cn s)) ≡ₚ cached (cn s)) as Hp. { intros y. rewrite cached_insert, delete_id by done. done. }
  assert (shared_of (<[ca := Pcn n [] false]> (cn s)) ≡ₚ shared_of (cn s)) as Hp2. { rewrite shared_insert, delete_id by done. done. }
  split; [|by split_and!]. destruct Hok as [O1 O2 O3 O4 O5 O6 O7 O8 O9 O10 O11 O12]. split; cbn; rewrite ?Hp, ?Hp2; try done.
  - apply (linked_perm _ _ _ O1). by rewrite Hp.
  - intros f. rewrite Hp. apply O2.
  - intros c x. destruct (decide (c = ca)) as [->|]; [rewrite lookup_insert_eq; intros [= <-]; split; [constructor|done]|]. rewrite lookup_insert_ne by done. apply O4.
  - destruct O5 as [O5 O5']. split. { apply NoDup_cons. split; [|done]. rewrite O5', Hca. by intros [? ?]. }
    intros c. rewrite elem_of_cons, O5'. destruct (decide (c = ca)) as [->|]; [rewrite lookup_insert_eq; split; [by eexists|by left]|]. rewrite lookup_insert_ne by done. naive_solver.
  - intros m c. destruct (decide (m = n)) as [->|Hm].
    + rewrite lookup_insert_eq. split.
      * intros [= <-]. eexists. rewrite lookup_insert_eq. done.
      * intros (x & Hx & E). destruct (decide (c = ca)) as [->|]; [done|]. rewrite lookup_insert_ne in Hx by done. assert (npc s !! n = Some c) as E2 by (apply O6; by exists x). congruence.
    + rewrite lookup_insert_ne by done. rewrite O6. destruct (decide (c = ca)) as [->|]; [|by rewrite lookup_insert_ne]. rewrite lookup_insert_eq, Hca. split; [by intros (? & ? & _)|]. intros (x & [= <-] & E). done.
  - intros m. destruct (decide (m = n)) as [->|]; [done|]. rewrite lookup_insert_ne by done. apply O7.
  - destruct O11 as [[?|O11] ?]; (split; [|done]); [by left|right]. destruct (decide (hand_n s = ca)) as [->|]; [by rewrite lookup_insert_eq|by rewrite lookup_insert_ne].
  - intros c x i e y Hx Hs Hi. destruct (decide (c = ca)) as [->|]; [rewrite lookup_insert_eq in Hx; by injection Hx as <-|]. rewrite lookup_insert_ne in Hx by done. by apply (O12 c x i e y).
Qed.

(** The table, grown to [nc] entries if need be. *)
Definition grown (y : pcn) (i nc : Z) : pcn :=
  if cap y <=? i then {| y with c_fr := c_fr y ++ replicate (Z.to_nat nc - length (c_fr y)) 0 |} else y.

Lemma grown_ok y i nc : Forall entry_ok (c_fr y) → 0 ≤ i < nc → let y' := grown y i nc in
  c_n y' = c_n y ∧ c_shared y' = c_shared y ∧ Forall entry_ok (c_fr y') ∧ frames_in y' = frames_in y ∧ i < cap y' ∧
  (∀ j e, c_fr y' !! j = Some e → fr_of e ≠ 0 → c_fr y !! j = Some e).
Proof.
  intros He Hi. unfold grown. destruct (Z.leb_spec (cap y) i) as [H|H]; [|cbn; split_and!; done]. cbn. unfold frames_in, cap in *. cbn. rewrite bind_app, frames_zeros, app_nil_r.
  split_and!; try done.
  - apply Forall_app. split; [done|]. apply Forall_replicate. by left.
  - rewrite length_app, length_replicate. lia.
  - intros j e Hj H0. apply lookup_app_Some in Hj as [Hj|[_ Hj]]; [done|]. apply lookup_replicate in Hj as [-> _]. done.
Qed.

(** [get_nl] in the words of the proofs. *)
Lemma get_nl_eq s n i ca room x c s1 y : nodes s !! n = Some x → (u32 ((n_size x + PAGE_SIZE - 1) / PAGE_SIZE) <=? i) = false →
  the_pcn s n ca = (Some c, s1) → cn s1 !! c = Some y → (cap y <=? i) && negb room = false →
  get_nl s n i ca room =
    let need := u32 ((n_size x + PAGE_SIZE - 1) / PAGE_SIZE) in
    let y := grown y i (if i + 1 <? need then need else i + 1) in
    let s := set_cn s1 c y in
    e ← (c_fr y).[i];
    '(fr, s) ← (if fr_of e =? 0 then
                  '(fr, p) ← pmm_alloc (pm s);
                  if fr =? 0 then Some (0, {| s with pm := p |}) else
                  p ← fill x p fr i;
                  Some (fr, {| s with pm := p; npages := u64 (npages s + 1) |})
                else Some (fr_of e, s));
    if fr =? 0 then Some (0, s) else
    l ← (c_fr y).[i <- Z.lor fr 1];
    p ← pmm_ref (pm s) fr;
    Some (fr, set_cn {| s with pm := p |} c {| y with c_fr := l |}).
Proof. intros H1 H2 H3 H4 H5. unfold get_nl. rewrite H1. cbn [mbind option_bind]. cbv zeta. rewrite H2, H3, H4. cbn [mbind option_bind]. rewrite H5. reflexivity. Qed.

Lemma set_entry y i v e : c_fr y !! i = Some e → (c_fr y).[Z.of_nat i <- v] = Some (<[i := v]> (c_fr y)).
Proof. intros H%lookup_lt_Some. unfold arr_set. rewrite (proj2 (Z.leb_le _ _)), (proj2 (Z.ltb_lt _ _)) by lia. cbn [andb]. by rewrite Nat2Z.id. Qed.

Lemma get_entry y i : 0 ≤ i < cap y → ∃ e, (c_fr y).[i] = Some e ∧ c_fr y !! Z.to_nat i = Some e.
Proof. intros Hi. unfold arr_get. rewrite (proj2 (Z.leb_le _ _)) by lia. destruct (lookup_lt_is_Some_2 (c_fr y) (Z.to_nat i)) as [e He]; [unfold cap in Hi; lia|]. by exists e. Qed.

Lemma not_in_app_l (L h : list Z) f : f ∉ L ++ h → f ∉ L.
Proof. intros H Hf. apply H, elem_of_app. by left. Qed.

(** A page that is already there. *)
Lemma get_hit s h c y yg i e : ok s h → cn s !! c = Some y → Forall entry_ok (c_fr yg) → c_n yg = c_n y → c_shared yg = c_shared y → frames_in yg = frames_in y →
  (∀ j e, c_fr yg !! j = Some e → fr_of e ≠ 0 → c_fr y !! j = Some e) → c_fr yg !! i = Some e → fr_of e ≠ 0 →
  ∃ p', pmm_ref (pm s) (fr_of e) = Some p' ∧ let y2 := {| yg with c_fr := <[i := Z.lor (fr_of e) 1]> (c_fr yg) |} in
    ok {| s with cn := <[c := y2]> (cn s); pm := p' |} (fr_of e :: h) ∧ fr_of (Z.lor (fr_of e) 1) = fr_of e.
Proof.
  intros Hok Hc He Hn Hs Hf Hold Hi H0. assert (entry_ok e) as Hee by (by apply (Forall_lookup_1 _ _ i e He)). destruct Hee as [->|(Hp & Hm & _)]; [done|].
  destruct (entry_seen (fr_of e) Hp Hm) as (S1 & _ & S2 & _). destruct (fr_of_page _ Hm) as (_ & F2 & _).
  assert (fr_of e ∈ cached (cn s)) as Hin. { apply cached_elem. exists c, y, i, e. split_and!; auto. }
  destruct (ref_linked (pm s) (cached (cn s) ++ h) (fr_of e) (p_link _ _ Hok)) as (p' & E & Hl & Hram); [set_solver|]. exists p'. split; [done|]. cbv zeta.
  set (y2 := {| yg with c_fr := <[i := Z.lor (fr_of e) 1]> (c_fr yg) |}).
  assert (frames_in y2 ≡ₚ frames_in y) as Hfr. { rewrite <- Hf. unfold frames_in, y2. cbn. destruct (frames_entry (c_fr yg) i e (Z.lor (fr_of e) 1) Hi) as (R & R1 & R2). rewrite R1, R2, S2. unfold frame_of_entry. by rewrite (proj2 (Z.eqb_neq _ _) H0). }
  assert (frames_in y2 ++ cached (delete c (cn s)) ≡ₚ cached (cn s)) as Hall by (rewrite Hfr; symmetry; by apply cached_split).
  split; [|done].
  pose proof (ok_set s h c y y2 p' (npages s) (nshared s) (fr_of e :: h) Hok Hc) as HS. apply HS; clear HS; try done.
  - apply Forall_insert; done.
  - apply (linked_perm _ _ _ Hl). rewrite Hall. by rewrite Permutation_middle.
  - rewrite Hall. apply (p_once _ _ Hok).
  - intros f _. by rewrite Hram.
  - intros f Hff. rewrite Hram. apply (p_mem _ _ Hok). rewrite <- Hall. set_solver.
  - rewrite Hall. apply (p_pages _ _ Hok).
  - cbn. rewrite Hs, <- (shared_split _ _ _ Hc). apply (p_shared _ _ Hok).
  - cbn. rewrite Hs. intros Hsh j e' x Hj Hj0 Hx d l. rewrite Hram. destruct (decide (j = i)) as [->|Hji].
    + rewrite list_lookup_insert_eq in Hj by (by apply lookup_lt_Some in Hi). injection Hj as <-. rewrite F2 in *. by apply (p_shows _ _ Hok c y i e x); auto.
    + rewrite list_lookup_insert_ne in Hj by done. apply (p_shows _ _ Hok c y j e' x); auto.
Qed.

(** A page that has to be read in. *)
Lemma get_miss s h c y yg i e x p : ok s h → cn s !! c = Some y → Forall entry_ok (c_fr yg) → c_n yg = c_n y → c_shared yg = c_shared y → frames_in yg = frames_in y →
  (∀ j e, c_fr yg !! j = Some e → fr_of e ≠ 0 → c_fr y !! j = Some e) → c_fr yg !! i = Some e → fr_of e = 0 → nodes s !! c_n y = Some x → ∀ fr,
  0 < fr → fr mod PAGE_SIZE = 0 → (fr ∉ cached (cn s) ++ h) → linked p (fr :: cached (cn s) ++ h) → ram p = <[fr := zero_page]> (ram (pm s)) →
  ∃ p1 p2, fill x p fr (Z.of_nat i) = Some p1 ∧ pmm_ref p1 fr = Some p2 ∧ let y2 := {| yg with c_fr := <[i := Z.lor fr 1]> (c_fr yg) |} in
    ok {| s with cn := <[c := y2]> (cn s); pm := p2; npages := u64 (npages s + 1) |} (fr :: h) ∧ fr_of (Z.lor fr 1) = fr.
Proof.
  intros Hok Hc He Hn Hs Hf Hold Hi H0 Hx fr Hp Hm Hnew Hl Hram. assert (entry_ok e) as Hee by (by apply (Forall_lookup_1 _ _ i e He)). destruct Hee as [->|(? & _)]; [|lia].
  destruct (entry_seen fr Hp Hm) as (S1 & _ & S2 & _). destruct (fr_of_page _ Hm) as (_ & F2 & _).
  destruct (page_fill_ok x p fr (Z.of_nat i) zero_page) as (l' & E1 & Hm' & Hpage); [by apply (p_fine _ _ Hok (c_n y))|rewrite Hram; apply lookup_insert_eq|apply zero_mem|lia|].
  set (p1 := {| p with ram := <[fr := l']> (ram p) |}) in *. destruct (ref_linked p1 (fr :: cached (cn s) ++ h) fr) as (p2 & E2 & Hl2 & Hram2); [by apply linked_ram|apply list_elem_of_here|].
  exists p1, p2. split; [done|]. split; [done|]. cbv zeta. set (y2 := {| yg with c_fr := <[i := Z.lor fr 1]> (c_fr yg) |}).
  assert (frames_in y2 ≡ₚ fr :: frames_in y) as Hfr. { rewrite <- Hf. unfold frames_in, y2. cbn. destruct (frames_entry (c_fr yg) i 0 (Z.lor fr 1) Hi) as (R & R1 & R2). rewrite R1, R2, S2. done. }
  assert (frames_in y2 ++ cached (delete c (cn s)) ≡ₚ fr :: cached (cn s)) as Hall by (rewrite Hfr; cbn; by rewrite <- (cached_split _ _ _ Hc)).
  assert (∀ f, f ∈ cached (cn s) → ram p2 !! f = ram (pm s) !! f) as Hsame. { intros f Hfin. assert (f ≠ fr) by (intros ->; by apply Hnew, elem_of_app; left). rewrite Hram2. cbn. rewrite Hram. by rewrite !lookup_insert_ne. }
  assert (ram p2 !! fr = Some l') as Hfl by (rewrite Hram2; apply lookup_insert_eq).
  split; [|done].
  pose proof (ok_set s h c y y2 p2 (u64 (npages s + 1)) (nshared s) (fr :: h) Hok Hc) as HS. apply HS; clear HS; try done.
  - apply Forall_insert; done.
  - apply (linked_perm _ _ _ Hl2). rewrite Hall. cbn. by rewrite Permutation_middle.
  - rewrite Hall. apply NoDup_cons. split; [by eapply not_in_app_l|apply (p_once _ _ Hok)].
  - intros f Hff. apply Hsame. rewrite (cached_split _ _ _ Hc). set_solver.
  - intros f Hff. assert (f ∈ fr :: cached (cn s)) as [->|Hin]%elem_of_cons by (rewrite <- Hall; set_solver); [by exists l'|]. rewrite Hsame by done. by apply (p_mem _ _ Hok).
  - rewrite Hall. pose proof (pages_bound _ _ Hok). rewrite u64_small by lia. cbn. rewrite (p_pages _ _ Hok). lia.
  - cbn. rewrite Hs, <- (shared_split _ _ _ Hc). apply (p_shared _ _ Hok).
  - cbn. rewrite Hs. intros Hsh j e' x' Hj Hj0 Hx'. rewrite Hx in Hx'. injection Hx' as <-. destruct (decide (j = i)) as [->|Hji].
    + rewrite list_lookup_insert_eq in Hj by (by apply lookup_lt_Some in Hi). injection Hj as <-. rewrite F2 in *. intros d l Ed _ El. rewrite Hfl in El. injection El as <-. by apply Hpage.
    + rewrite list_lookup_insert_ne in Hj by done. intros d l Ed Ecap El. assert (c_fr y !! j = Some e') as Hj' by auto. rewrite Hsame in El; [by apply (p_shows _ _ Hok c y j e' x Hc Hsh Hj' Hj0 Hx)|].
      apply cached_elem. by exists c, y, j, e'.
Qed.

(** The state when there is no frame for the page. *)
Lemma get_grown s h c y yg : ok s h → cn s !! c = Some y → Forall entry_ok (c_fr yg) → c_n yg = c_n y → c_shared yg = c_shared y → frames_in yg = frames_in y →
  (∀ j e, c_fr yg !! j = Some e → fr_of e ≠ 0 → c_fr y !! j = Some e) → ok (set_cn s c yg) h.
Proof.
  intros Hok Hc He Hn Hs Hf Hold. pose proof (ok_set s h c y yg (pm s) (npages s) (nshared s) h Hok Hc) as HS. rewrite Hf, Hs in HS. destruct s. apply HS; clear HS; try done.
  - apply (linked_perm _ _ _ (p_link _ _ Hok)). cbn. by rewrite (cached_split _ _ _ Hc).
  - rewrite <- (cached_split _ _ _ Hc). apply (p_once _ _ Hok).
  - intros f Hff. apply (p_mem _ _ Hok). cbn. rewrite (cached_split _ _ _ Hc). set_solver.
  - rewrite <- (cached_split _ _ _ Hc). apply (p_pages _ _ Hok).
  - rewrite <- (shared_split _ _ _ Hc). apply (p_shared _ _ Hok).
  - intros Hsh j e x Hj H0 Hx. by apply (p_shows _ _ Hok c y j e x); auto.
Qed.

(** Frame [fr] is page [i] of node [n]. *)
Definition page_in (s : pcs) (n i fr : Z) : Prop := ∃ c y e, npc s !! n = Some c ∧ cn s !! c = Some y ∧ c_fr y !! Z.to_nat i = Some e ∧ fr_of e = fr.

Lemma get_nl_ok s h n x i ca room : ok s h → nodes s !! n = Some x → 0 ≤ i → fresh s ca →
  ∃ fr s', get_nl s n i ca room = Some (fr, s') ∧ nodes s' = nodes s ∧
    (fr = 0 ∧ ok s' h ∨ fr ≠ 0 ∧ ok s' (fr :: h) ∧ page_in s' n i fr).
Proof.
  intros Hok Hx Hi Hf. destruct (u32 ((n_size x + PAGE_SIZE - 1) / PAGE_SIZE) <=? i) eqn:En.
  { exists 0, s. unfold get_nl. rewrite Hx. cbn [mbind option_bind]. rewrite En. split_and!; auto. }
  destruct (the_pcn_ok s h n ca Hok (mk_is_Some _ _ Hx) Hf) as [E|(c & s1 & y & E & Hok1 & Hpc & Hy & Hyn & Hnod & _)].
  { exists 0, s. unfold get_nl. rewrite Hx. cbn [mbind option_bind]. rewrite En, E. split_and!; auto. }
  destruct ((cap y <=? i) && negb room) eqn:Er.
  { exists 0, s1. unfold get_nl. rewrite Hx. cbn [mbind option_bind]. rewrite En, E, Hy. cbn [mbind option_bind]. rewrite Er. split_and!; auto. }
  rewrite (get_nl_eq s n i ca room x c s1 y Hx En E Hy Er). cbv zeta. set (need := u32 _) in *. set (nc := if i + 1 <? need then need else i + 1). bools.
  destruct (grown_ok y i nc (proj1 (p_entry _ _ Hok1 c y Hy))) as (G1 & G2 & G3 & G4 & G5 & G6); [unfold nc; destruct (Z.ltb_spec (i + 1) need); lia|]. set (yg := grown y i nc) in *.
  destruct (get_entry yg i ltac:(lia)) as (e & Eg & Hi'). rewrite Eg. cbn [mbind option_bind]. replace i with (Z.of_nat (Z.to_nat i)) in * by lia. set (k := Z.to_nat i) in *. rewrite Nat2Z.id in *.
  unfold set_cn. cbn [pm npages cn]. destruct (Z.eqb_spec (fr_of e) 0) as [E0|E0].
  - destruct (alloc_linked (pm s1) (cached (cn s1) ++ h) (p_link _ _ Hok1)) as (fr & p & Ea & Hc). rewrite Ea. cbn [mbind option_bind]. destruct Hc as [[-> ->]|(Hp & Hm & Hnew & Hl & Hram)].
    + change (0 =? 0) with true. cbv iota. cbn [mbind option_bind]. exists 0. eexists. split; [done|]. cbn [nodes]. split; [done|]. left. split; [done|].
      pose proof (get_grown s1 h c y yg Hok1 Hy G3 G1 G2 G4 G6) as HG. unfold set_cn in HG. by destruct s1.
    + rewrite (proj2 (Z.eqb_neq fr 0)) by lia. rewrite <- Hyn, <- Hnod in Hx. rewrite <- Hyn.
      destruct (get_miss s1 h c y yg k e x p Hok1 Hy G3 G1 G2 G4 G6 Hi' E0 Hx fr Hp Hm Hnew Hl Hram) as (p1 & p2 & Ef & Er2 & Hok2 & Hin). rewrite Ef. cbn [mbind option_bind pm]. rewrite (proj2 (Z.eqb_neq fr 0)) by lia.
      rewrite (set_entry yg k _ e Hi'). cbn [mbind option_bind pm]. rewrite Er2. cbn [mbind option_bind cn]. eexists fr, _. split; [done|]. cbn [nodes cn npc]. split; [done|]. right. split; [lia|]. rewrite insert_insert_eq.
      split; [exact Hok2|]. eexists c, _, _. cbn [npc cn]. rewrite lookup_insert_eq, Nat2Z.id. split; [congruence|]. split; [done|]. cbn. split; [|exact Hin]. apply list_lookup_insert_eq. by apply lookup_lt_Some in Hi'.
  - cbn [mbind option_bind pm]. rewrite (proj2 (Z.eqb_neq _ 0) E0). rewrite (set_entry yg k _ e Hi'). cbn [mbind option_bind pm].
    destruct (get_hit s1 h c y yg k e Hok1 Hy G3 G1 G2 G4 G6 Hi' E0) as (p' & Ep & Hok2 & Hin). rewrite Ep. cbn [mbind option_bind cn]. eexists (fr_of e), _. split; [done|]. cbn [nodes cn npc]. split; [done|]. right. split; [done|].
    rewrite insert_insert_eq. split; [exact Hok2|]. eexists c, _, _. cbn [npc cn]. rewrite lookup_insert_eq, Nat2Z.id. split; [congruence|]. split; [done|]. cbn. split; [|exact Hin]. apply list_lookup_insert_eq. by apply lookup_lt_Some in Hi'.
Qed.

Lemma ok_shared_on s h c y : ok s h → cn s !! c = Some y → c_shared y = false → ok (set_cn {| s with nshared := u64 (nshared s + 1) |} c {| y with c_shared := true |}) h.
Proof.
  intros Hok Hc Hs. pose proof (ok_set s h c y {| y with c_shared := true |} (pm s) (npages s) (u64 (nshared s + 1)) h Hok Hc) as HS. unfold set_cn. destruct s. cbn in *. apply HS; clear HS; try done.
  - apply (p_entry _ _ Hok c y Hc).
  - apply (linked_perm _ _ _ (p_link _ _ Hok)). cbn. by rewrite (cached_split _ _ _ Hc).
  - change (frames_in _) with (frames_in y). rewrite <- (cached_split _ _ _ Hc). apply (p_once _ _ Hok).
  - intros f Hff. apply (p_mem _ _ Hok). cbn. rewrite (cached_split _ _ _ Hc). apply elem_of_app. by left.
  - change (frames_in _) with (frames_in y). rewrite <- (cached_split _ _ _ Hc). apply (p_pages _ _ Hok).
  - pose proof (shared_bound _ _ Hok) as Hb. cbn in Hb. pose proof (p_shared _ _ Hok) as Hn. cbn in Hn. rewrite (shared_split _ _ _ Hc), Hs in Hn. cbn in Hn. rewrite Hn. cbn [app length]. rewrite Hn in Hb.
    pose proof (shared_le (delete c cn0)) as Hle. rewrite map_size_delete, Hc in Hle. pose proof (pcn_count cn0 (λ a b Hx, proj2 (p_entry _ _ Hok a b Hx))) as Hsz. cbn in Hsz.
    assert (0 < size cn0)%nat by (apply Nat.neq_0_lt_0; intros E%map_size_empty_inv; by rewrite E, lookup_empty in Hc). rewrite u64_small by lia. lia.
Qed.

Definition is_shared (s : pcs) (n : Z) : Prop := ∃ c y, npc s !! n = Some c ∧ cn s !! c = Some y ∧ c_shared y = true.

Lemma get_page_ok s h n x i ca room sh : ok s h → nodes s !! n = Some x → 0 ≤ i → fresh s ca →
  ∃ fr s', get_page s n i ca room sh = Some (fr, s') ∧ nodes s' = nodes s ∧ (fr = 0 ∧ ok s' h ∨ fr ≠ 0 ∧ ok s' (fr :: h) ∧ page_in s' n i fr ∧ (sh = true → is_shared s' n)).
Proof.
  intros Hok Hx Hi Hf. destruct (get_nl_ok s h n x i ca room Hok Hx Hi Hf) as (fr & s1 & E & Hnod & Hc). unfold get_page. rewrite E. cbn [mbind option_bind].
  destruct Hc as [[-> Hok1]|(H0 & Hok1 & Hin)]; [exists 0, s1; split_and!; auto|]. rewrite (proj2 (Z.eqb_neq fr 0) H0). cbn [orb]. destruct sh; cbn [negb]; [|exists fr, s1; split_and!; auto; right; by split_and!].
  destruct Hin as (c & y & e & Hpc & Hy & He & Efr). rewrite Hpc. cbn [mbind option_bind]. rewrite Hy. cbn [mbind option_bind]. destruct (c_shared y) eqn:Hs; [exists fr, s1; split_and!; auto; right; split_and!; [done..|by exists c, y, e|by exists c, y]|].
  eexists fr, _. split; [done|]. split; [done|]. right. split; [done|]. split; [by apply ok_shared_on|]. split; [eexists c, _, e|intros _; eexists c, _]; unfold set_cn; cbn [npc cn]; rewrite lookup_insert_eq; done.
Qed.

(** ** Dropping a file *)

Lemma drop_frames_ok l : ∀ p np L, linked p ((l ≫= frame_of_entry) ++ L) → Forall entry_ok l → Z.of_nat (length (l ≫= frame_of_entry)) ≤ np < 2 ^ 64 →
  ∃ p', unref_all p np l = Some (p', np - Z.of_nat (length (l ≫= frame_of_entry))) ∧ linked p' L ∧ ram p' = ram p.
Proof.
  induction l as [|e l IH]; intros p np L Hl He Hn; [exists p; split_and!; try done; cbn; do 2 f_equal; lia|]. apply Forall_cons in He as [He Hes]. cbn [unref_all mbind list_bind] in *. rewrite (entry_nz e He).
  unfold frame_of_entry at 1 in Hl. unfold frame_of_entry at 1 in Hn. unfold frame_of_entry at 1. fold (mbind (M := list) frame_of_entry) in *. destruct (fr_of e =? 0) eqn:E; cbn [negb app] in *.
  - by apply IH.
  - destruct (unref_linked p _ (fr_of e) ((l ≫= frame_of_entry) ++ L) Hl) as (p1 & -> & Hl1 & Hr1); [done|]. cbn [mbind option_bind]. cbn [length] in Hn. rewrite u64_small by lia.
    destruct (IH p1 (np - 1) L Hl1 Hes ltac:(lia)) as (p2 & -> & Hl2 & Hr2). exists p2. split; [|split; [done|congruence]]. do 2 f_equal. cbn [length]. lia.
Qed.

Lemma drop_nl_ok s h c y : ok s h → cn s !! c = Some y → ∃ s', drop_nl s c = Some s' ∧ ok s' h ∧ nodes s' = nodes s ∧ cn s' = delete c (cn s) ∧ npc s' = delete (c_n y) (npc s).
Proof.
  intros Hok Hc. pose proof (pages_bound _ _ Hok) as Hb. pose proof (shared_bound _ _ Hok) as Hsb. pose proof (cached_split _ _ _ Hc) as Hp. pose proof (p_pages _ _ Hok) as Hnp. rewrite Hp, length_app in Hnp.
  destruct (drop_frames_ok (c_fr y) (pm s) (npages s) (cached (delete c (cn s)) ++ h)) as (p' & E & Hl & Hr).
  { apply (linked_perm _ _ _ (p_link _ _ Hok)). rewrite Hp. unfold frames_in. by rewrite app_assoc. } { apply (p_entry _ _ Hok c y Hc). } { fold (frames_in y). lia. }
  unfold drop_nl. rewrite Hc. cbn [mbind option_bind]. rewrite E. cbn [mbind option_bind]. eexists. split; [done|]. split; [|done]. fold (frames_in y) in *.
  pose proof (p_shared _ _ Hok) as Hns. rewrite (shared_split _ _ _ Hc), length_app in Hns. pose proof (p_once _ _ Hok) as Honce. rewrite Hp in Honce. apply NoDup_app in Honce as (_ & _ & Honce).
  destruct Hok as [O1 O2 O3 O4 O5 O6 O7 O8 O9 O10 O11 O12]. split; cbn; try done.
  - intros f Hf. rewrite Hr. apply O2. rewrite Hp. set_solver.
  - intros c' x [_ Hx]%lookup_delete_Some. by apply O4.
  - destruct O5 as [O5 O5']. split; [by apply NoDup_filter|]. intros c'. rewrite list_elem_of_filter, O5'. destruct (decide (c' = c)) as [->|]; [rewrite lookup_delete_eq; split; [by intros [? _]|by intros [? ?]]|]. rewrite lookup_delete_ne by done. naive_solver.
  - intros n c'. destruct (decide (n = c_n y)) as [->|Hn].
    + rewrite lookup_delete_eq. split; [done|]. intros (x & [Hcc Hx]%lookup_delete_Some & Ex). assert (npc s !! c_n y = Some c') as E1 by (apply O6; by exists x). assert (npc s !! c_n y = Some c) as E2 by (apply O6; by exists y). congruence.
    + rewrite lookup_delete_ne, O6 by done. split; intros (x & Hx & Ex).
      * exists x. rewrite lookup_delete_ne; [done|]. intros ->. rewrite Hc in Hx. injection Hx as ->. done.
      * apply lookup_delete_Some in Hx as [_ Hx]. by exists x.
  - intros n. destruct (decide (n = c_n y)) as [->|]; [rewrite lookup_delete_eq; by intros [? ?]|]. rewrite lookup_delete_ne by done. apply O7.
  - lia.
  - destruct (c_shared y); cbn in Hns; [rewrite u64_small by lia; lia|done].
  - destruct O11 as [[O11|O11] Hi]; (split; [|done]); destruct (Z.eqb_spec (hand_n s) c); auto. right. by rewrite lookup_delete_ne.
  - intros c' x i e z [_ Hx]%lookup_delete_Some. rewrite <- ?Hr in *. intros Hs Hi H0 Hz d l. rewrite Hr. by apply (O12 c' x i e z).
Qed.

(** ** A file changes *)

Lemma nodes_ok s h n x : ok s h → node_fine x → (∀ c y, cn s !! c = Some y → c_n y = n → c_shared y = true) → ok {| s with nodes := <[n := x]> (nodes s) |} h.
Proof.
  intros [O1 O2 O3 O4 O5 O6 O7 O8 O9 O10 O11 O12] Hx Hsh. split; cbn; try done.
  - intros m Hm. destruct (decide (m = n)) as [->|]; [rewrite lookup_insert_eq; by eexists|]. rewrite lookup_insert_ne by done. by apply O7.
  - intros m z. destruct (decide (m = n)) as [->|]; [rewrite lookup_insert_eq; by intros [= <-]|]. rewrite lookup_insert_ne by done. apply O8.
  - intros c y i e z Hc Hs Hi H0. assert (c_n y ≠ n) by (intros E; by rewrite (Hsh c y Hc E) in Hs). rewrite lookup_insert_ne by done. by apply (O12 c y i e z).
Qed.

Lemma frames_cons e l : (e :: l) ≫= frame_of_entry = frame_of_entry e ++ (l ≫= frame_of_entry).
Proof. done. Qed.

Lemma refill_ok x l : node_fine x → ∀ p i, 0 ≤ i → Forall entry_ok l → (∀ f, f ∈ l ≫= frame_of_entry → ∃ w, ram p !! f = Some w ∧ is_mem w) →
  ∃ m, refill x p i l = Some {| p with ram := m |} ∧ (∀ f, f ∉ l ≫= frame_of_entry → m !! f = ram p !! f) ∧ (∀ f, f ∈ l ≫= frame_of_entry → ∃ w, m !! f = Some w ∧ is_mem w) ∧
    (NoDup (l ≫= frame_of_entry) → ∀ j e, l !! j = Some e → fr_of e ≠ 0 → same {| p with ram := m |} x (i + Z.of_nat j) (fr_of e)).
Proof.
  intros Hx. induction l as [|e l IH]; intros p i Hi He Hm; [exists (ram p); split; [by destruct p|]; split_and!; [done| |done]; intros f Hf; by apply elem_of_nil in Hf|]. apply Forall_cons in He as [He Hes]. cbn [refill] in *. rewrite frames_cons in *.
  unfold frame_of_entry at 1 in Hm. unfold frame_of_entry at 1 3 5. destruct (Z.eqb_spec (fr_of e) 0) as [E|E]; cbn [app mbind option_bind] in *.
  { destruct (IH p (i + 1)) as (m & -> & M1 & M2 & M3); [lia|done..|]. exists m. split_and!; try done. intros Hnd [|j] e' Hj H0; [injection Hj as <-; done|]. replace (i + Z.of_nat (S j)) with (i + 1 + Z.of_nat j) by lia. by apply M3. }
  destruct (Hm (fr_of e)) as (w & Hw & Hwm); [apply list_elem_of_here|]. rewrite Hw. cbn [mbind option_bind].
  destruct (page_fill_ok x {| p with ram := <[fr_of e := zero_page]> (ram p) |} (fr_of e) i zero_page Hx) as (l' & -> & Hm' & Hpage); [apply lookup_insert_eq|apply zero_mem|done|]. cbn [mbind option_bind ram].
  match goal with |- context [refill x ?q _ l] => destruct (IH q (i + 1)) as (m & -> & Hout & Hin & Hsh); [lia|done| |] end; cbn [ram] in *.
  - intros f Hf. destruct (decide (f = fr_of e)) as [->|]; [rewrite lookup_insert_eq; by eexists|]. rewrite !lookup_insert_ne by done. apply Hm. by apply list_elem_of_further.
  - exists m. split; [done|]. split_and!.
    + intros f [Hf1 Hf2]%not_elem_of_cons. rewrite Hout by done. by rewrite !lookup_insert_ne.
    + intros f [->|Hf]%elem_of_cons; [|by apply Hin]. destruct (decide (fr_of e ∈ l ≫= frame_of_entry)) as [Hd|Hd]; [by apply Hin|]. rewrite Hout by done. rewrite lookup_insert_eq. by eexists.
    + intros [Hnew Hnd]%NoDup_cons [|j] e' Hj H0.
      * injection Hj as <-. rewrite Z.add_0_r. intros d w' Hd. cbn. rewrite Hout by done. rewrite lookup_insert_eq. intros [= <-]. by apply Hpage.
      * replace (i + Z.of_nat (S j)) with (i + 1 + Z.of_nat j) by lia. by apply Hsh.
Qed.

(** Every page of node [n] in the cache has the bytes of the file. *)
Definition current (s : pcs) (n : Z) : Prop := ∀ c y x i e, npc s !! n = Some c → cn s !! c = Some y → nodes s !! n = Some x →
  c_fr y !! i = Some e → fr_of e ≠ 0 → same (pm s) x (Z.of_nat i) (fr_of e).

(** The file system writes node [n] and tells the cache. *)
Lemma changed_ok s h n x : ok s h → node_fine x → n_hl x = 0 → ∃ s', pc_changed {| s with nodes := <[n := x]> (nodes s) |} n = Some s' ∧ ok s' h ∧ nodes s' = <[n := x]> (nodes s) ∧ current s' n.
Proof.
  intros Hok Hx Hh. unfold pc_changed, real. cbn [nodes]. rewrite lookup_insert_eq. cbn [mbind option_bind]. rewrite Hh. change (nz 0) with false. cbv iota. cbn [mbind option_bind npc cn nodes]. destruct (npc s !! n) as [c|] eqn:Hc.
  - apply (p_npc _ _ Hok) in Hc as Hy. destruct Hy as (y & Hy & Hyn). rewrite Hy. cbn [mbind option_bind]. destruct (c_shared y) eqn:Hs.
    + assert (ok {| s with nodes := <[n := x]> (nodes s) |} h) as Hok1.
      { apply nodes_ok; [done..|]. intros c' y' Hy' E. assert (npc s !! n = Some c') as Hc' by (apply (p_npc _ _ Hok); by exists y'). rewrite Hc in Hc'. injection Hc' as <-. congruence. }
      rewrite lookup_insert_eq. cbn [mbind option_bind pm].
      assert (∀ f, f ∈ c_fr y ≫= frame_of_entry → f ∈ cached (cn s)) as Hsub by (intros f Hf; rewrite (cached_split _ _ _ Hy); apply elem_of_app; by left).
      destruct (refill_ok x (c_fr y) Hx (pm s) 0) as (m & -> & Hout & Hin & Hcur); [lia|apply (p_entry _ _ Hok c y Hy)|intros f Hf; apply (p_mem _ _ Hok); auto|]. cbn [mbind option_bind]. eexists. split; [done|]. pose proof (p_once _ _ Hok) as Ho. rewrite (cached_split _ _ _ Hy) in Ho. apply NoDup_app in Ho as (Hnd & Ho & _).
      split; [|split; [done|]; intros c' y' x' i e Hc' Hy' Hx' Hi H0; cbn in *; rewrite Hc in Hc'; injection Hc' as <-; rewrite Hy in Hy'; injection Hy' as <-; rewrite lookup_insert_eq in Hx'; injection Hx' as <-; by apply Hcur].
      pose proof (ok_set _ h c y y (let p := pm s in {| p with ram := m |}) (npages s) (nshared s) h Hok1 Hy) as HS. cbn in HS. rewrite (insert_id (cn s) c y) in HS by done. apply HS; clear HS; try done.
      * apply (p_entry _ _ Hok c y Hy).
      * apply linked_ram. apply (linked_perm _ _ _ (p_link _ _ Hok)). by rewrite (cached_split _ _ _ Hy).
      * rewrite <- (cached_split _ _ _ Hy). apply (p_once _ _ Hok).
      * intros f Hf. apply Hout. intros Hf2. by apply (Ho f).
      * rewrite <- (cached_split _ _ _ Hy). apply (p_pages _ _ Hok).
      * rewrite <- (shared_split _ _ _ Hy). apply (p_shared _ _ Hok).
      * intros E. by rewrite E in Hs.
    + destruct (drop_nl_ok s h c y Hok Hy) as (s1 & E & Hok1 & Hn1 & Hcn1 & Hnpc1). assert (drop_nl {| s with nodes := <[n := x]> (nodes s) |} c = Some {| s1 with nodes := <[n := x]> (nodes s) |}) as E'.
      { unfold drop_nl in *. cbn [cn pm npages] in *. rewrite Hy in *. cbn [mbind option_bind] in *. destruct (unref_all (pm s) (npages s) (c_fr y)) as [[p np]|]; [|done]. cbn [mbind option_bind] in *. injection E as <-. reflexivity. }
      rewrite E'. eexists. split; [done|]. split; [|split; [done|]; intros c' y' x' i e Hc'; cbn in Hc'; by rewrite Hnpc1, Hyn, lookup_delete_eq in Hc']. rewrite <- Hn1. apply nodes_ok; [done..|]. rewrite Hcn1. intros c' y' [Hcc Hy']%lookup_delete_Some E2. assert (npc s !! n = Some c') as Hc' by (apply (p_npc _ _ Hok); by exists y'). congruence.
  - eexists. split; [done|]. split; [|split; [done|]; intros c' y' x' i e Hc'; cbn in Hc'; congruence]. apply nodes_ok; [done..|]. intros c y Hy E. assert (npc s !! n = Some c) as Hc' by (apply (p_npc _ _ Hok); by exists y). congruence.
Qed.

(** ** Writing back *)

Lemma page_lookup x d j k : 0 ≤ j → file_page x d j !! k = if decide (Z.of_nat k < span x j) then d !! (Z.to_nat (j * PAGE_SIZE) + k)%nat else None.
Proof.
  intros Hj. unfold file_page. rewrite lookup_take. case_decide as H1; case_decide as H2; try lia; [|done]. by rewrite lookup_drop.
Qed.

(** The bytes [b] at offset [off]. *)
Lemma patch_lookup (d b : list Z) (off : nat) k : (off + length b ≤ length d)%nat →
  (firstn off d ++ b ++ skipn (off + length b) d) !! k = if decide (off ≤ k < off + length b)%nat then b !! (k - off)%nat else d !! k.
Proof.
  intros Hl. assert (length (firstn off d) = off) as HL by (rewrite length_firstn; lia). destruct (decide (off ≤ k < off + length b)%nat) as [H|H].
  - rewrite lookup_app_r by lia. rewrite HL, lookup_app_l by lia. done.
  - destruct (decide (k < off)%nat); [rewrite lookup_app_l by lia; by rewrite lookup_take_lt|]. rewrite lookup_app_r, HL, lookup_app_r, lookup_drop by lia. f_equal. lia.
Qed.

Lemma sync_pages_ok x p fr : 0 ≤ n_size x → Forall entry_ok fr → (∀ f, f ∈ fr ≫= frame_of_entry → ∃ l, ram p !! f = Some l ∧ is_mem l) →
  ∀ ks d, NoDup ks → (∀ j, j ∈ ks → 0 ≤ j < Z.of_nat (length fr)) → Forall byte d → n_size x ≤ Z.of_nat (length d) →
  ∃ ch d', sync_pages x p fr ks d = Some (ch, d') ∧ length d' = length d ∧ Forall byte d' ∧
    (∀ j e l, j ∈ ks → fr !! Z.to_nat j = Some e → fr_of e ≠ 0 → ram p !! fr_of e = Some l → firstn (Z.to_nat (span x j)) (to_bytes l) = file_page x d' j) ∧
    (∀ j, 0 ≤ j → j ∉ ks → file_page x d' j = file_page x d j).
Proof.
  intros Hsz He Hm. induction ks as [|i ks IH]; intros d Hnd Hks Hb Hlen. { exists false, d. split_and!; try done. intros j e l Hj. by apply elem_of_nil in Hj. }
  apply NoDup_cons in Hnd as [Hik Hnd]. destruct (Hks i) as [Hi0 Hil]; [apply list_elem_of_here|]. cbn [sync_pages]. cbv zeta.
  destruct (lookup_lt_is_Some_2 fr (Z.to_nat i)) as [e Ei]; [lia|]. assert (fr.[i] = Some e) as Ee by (unfold arr_get; by rewrite (proj2 (Z.leb_le _ _)) by lia). rewrite Ee. cbn [mbind option_bind].
  destruct (span_range x i Hi0) as [Hs1 Hs2].
  assert (∃ ch d1, (if (fr_of e =? 0) || (n_size x <=? i * PAGE_SIZE) then Some (false, d) else
      l ← ram p !! fr_of e;
      if Z.of_nat (length d) <? i * PAGE_SIZE + span x i then None else
      if bool_decide (firstn (Z.to_nat (span x i)) (skipn (Z.to_nat (i * PAGE_SIZE)) d) = firstn (Z.to_nat (span x i)) (to_bytes l)) then Some (false, d)
      else Some (true, firstn (Z.to_nat (i * PAGE_SIZE)) d ++ firstn (Z.to_nat (span x i)) (to_bytes l) ++ skipn (Z.to_nat (i * PAGE_SIZE + span x i)) d)) = Some (ch, d1) ∧
    length d1 = length d ∧ Forall byte d1 ∧ (∀ l, fr_of e ≠ 0 → ram p !! fr_of e = Some l → firstn (Z.to_nat (span x i)) (to_bytes l) = file_page x d1 i) ∧
    (∀ j, 0 ≤ j → j ≠ i → file_page x d1 j = file_page x d j)) as (ch & d1 & E1 & L1 & B1 & P1 & Q1).
  { destruct (Z.eqb_spec (fr_of e) 0) as [E0|E0]; cbn [orb]; [exists false, d; split_and!; try done|]. destruct (Z.leb_spec (n_size x) (i * PAGE_SIZE)) as [Hle|Hle].
    { exists false, d. split_and!; try done. intros l _ _. unfold file_page. replace (span x i) with 0; [done|]. unfold span. by rewrite (proj2 (Z.leb_le _ _)). }
    destruct (Hm (fr_of e)) as (l & Hl & Hlm). { apply list_elem_of_bind. exists e. split; [unfold frame_of_entry; rewrite (proj2 (Z.eqb_neq _ _) E0); apply list_elem_of_here|by apply list_elem_of_lookup_2 in Ei]. }
    rewrite Hl. cbn [mbind option_bind]. cbv zeta. rewrite (proj2 (Z.ltb_ge _ _)) by (unfold PAGE_SIZE in *; lia). fold (file_page x d i). set (b := firstn (Z.to_nat (span x i)) (to_bytes l)).
    case_bool_decide as Eb. { exists false, d. split_and!; try done. intros l' _ Hl'. by injection Hl' as <-. }
    assert (length b = Z.to_nat (span x i)) as HbL. { unfold b. rewrite length_firstn, to_bytes_length. unfold is_mem in Hlm. lia. }
    eexists true, _. split; [done|]. replace (Z.to_nat (i * PAGE_SIZE + span x i)) with (Z.to_nat (i * PAGE_SIZE) + length b)%nat by (unfold PAGE_SIZE in *; lia).
    assert (Z.to_nat (i * PAGE_SIZE) + length b ≤ length d)%nat as Hroom by (unfold PAGE_SIZE in *; lia). split_and!.
    - rewrite !length_app, length_firstn, length_skipn. lia.
    - apply Forall_app. split; [by apply Forall_take|]. apply Forall_app. split; [apply Forall_take, to_bytes_byte|by apply Forall_drop].
    - intros l' _ Hl'. injection Hl' as <-. fold b. apply list_eq. intros k. rewrite page_lookup, patch_lookup by done. destruct (decide (Z.of_nat k < span x i)) as [Hk|Hk].
      + rewrite decide_True by lia. f_equal. lia.
      + apply lookup_ge_None_2. lia.
    - intros j Hj Hji. apply list_eq. intros k. rewrite !page_lookup, patch_lookup by done. case_decide as Hk; [|done]. rewrite decide_False; [done|]. destruct (span_range x j Hj). unfold PAGE_SIZE in *. lia. }
  rewrite E1. cbn [mbind option_bind]. destruct (IH d1 Hnd) as (ch' & d' & E2 & L2 & B2 & P2 & Q2); [intros j Hj; apply Hks; by apply list_elem_of_further|done|lia|]. rewrite E2. cbn [mbind option_bind].
  exists (ch || ch'), d'. split; [done|]. split; [lia|]. split; [done|]. split.
  - intros j e' l [->|Hj]%elem_of_cons Hj' H0 Hl'; [|by apply (P2 j e')]. rewrite Ei in Hj'. injection Hj' as <-. rewrite Q2 by done. by apply P1.
  - intros j Hj [Hji Hjk]%not_elem_of_cons. rewrite Q2, Q1 by done. done.
Qed.

(** A file that is mapped shared is written back, in part or as a whole. *)
Lemma sync_nl_ok s h c y first e : ok s h → cn s !! c = Some y → c_shared y = true → 0 ≤ first →
  ∃ ch s', sync_nl s c first e = Some (ch, s') ∧ ok s' h ∧ cn s' = cn s ∧ pm s' = pm s ∧ npc s' = npc s ∧ order s' = order s ∧ is_Some (nodes s' !! c_n y) ∧
    (∀ i e' x, first ≤ Z.of_nat i < e → c_fr y !! i = Some e' → fr_of e' ≠ 0 → nodes s' !! c_n y = Some x → shows (pm s) x (Z.of_nat i) (fr_of e')) ∧
    (∀ x', nodes s' !! c_n y = Some x' → ∃ x, nodes s !! c_n y = Some x ∧ n_size x' = n_size x).
Proof.
  intros Hok Hc Hs Hf. assert (npc s !! c_n y = Some c) as Hpc by (apply (p_npc _ _ Hok); by exists y). destruct (p_node _ _ Hok (c_n y)) as [x Hx]; [by exists c|].
  unfold sync_nl. rewrite Hc. cbn [mbind option_bind]. rewrite Hx. cbn [mbind option_bind]. destruct (n_data x) as [d|] eqn:Ed.
  2:{ exists false, s. do 7 (split; [done || by eexists|]). split; [|intros x' Hx'; rewrite Hx in Hx'; injection Hx' as <-; by exists x]. intros i e' x' _ _ _ Hx' d' l E. rewrite Hx in Hx'. injection Hx' as <-. congruence. }
  destruct (Z.eqb_spec (n_cap x) 0) as [Ec|Ec]. { exists false, s. do 7 (split; [done || by eexists|]). split; [|intros x' Hx'; rewrite Hx in Hx'; injection Hx' as <-; by exists x]. intros i e' x' _ _ _ Hx' d' l E1 E2. rewrite Hx in Hx'. injection Hx' as <-. congruence. }
  destruct (p_fine _ _ Hok _ x Hx) as [Hsz Hfd]. destruct (Hfd d Ed) as [Hb Hlen]. destruct (p_entry _ _ Hok c y Hc) as [Hent _].
  destruct (sync_pages_ok x (pm s) (c_fr y) Hsz Hent) with (ks := seqZ first (Z.min e (cap y) - first)) (d := d) as (ch & d' & E1 & L1 & B1 & P1 & _).
  { intros f Hff. apply (p_mem _ _ Hok). rewrite (cached_split _ _ _ Hc). apply elem_of_app. by left. } { apply NoDup_seqZ. } { intros j Hj%elem_of_seqZ. unfold cap in Hj. lia. } { done. } { done. }
  rewrite E1. cbn [mbind option_bind]. eexists ch, _. split; [done|]. split; [|cbn; split_and!; try done].
  - apply nodes_ok; [done| |].
    + split; [done|]. cbn. intros d0 [= <-]. split; [done|]. lia.
    + intros c' y' Hy' E. assert (npc s !! c_n y = Some c') as Hc' by (apply (p_npc _ _ Hok); by exists y'). rewrite Hpc in Hc'. injection Hc' as <-. congruence.
  - rewrite lookup_insert_eq. by eexists.
  - intros i e' x' Hr Hi H0. rewrite lookup_insert_eq. intros [= <-] d0 l. cbn. intros [= <-] _ Hl. change (span _ (Z.of_nat i)) with (span x (Z.of_nat i)). change (file_page _ d' (Z.of_nat i)) with (file_page x d' (Z.of_nat i)).
    apply (P1 (Z.of_nat i) e' l); [|by rewrite Nat2Z.id|done|done]. apply elem_of_seqZ. apply lookup_lt_Some in Hi. unfold cap in *. lia.
  - intros x'. rewrite lookup_insert_eq. intros [= <-]. by exists x.
Qed.

Lemma touched_ok s h n now ch : ok s h → is_Some (nodes s !! n) → (∀ c y, cn s !! c = Some y → c_n y = n → c_shared y = true) →
  ∃ s', touched s n now ch = Some s' ∧ ok s' h ∧ cn s' = cn s ∧ pm s' = pm s ∧ order s' = order s ∧ npc s' = npc s ∧
    ∀ x', nodes s' !! n = Some x' → ∃ x, nodes s !! n = Some x ∧ n_data x' = n_data x ∧ n_size x' = n_size x ∧ n_cap x' = n_cap x.
Proof.
  intros Hok [x Hx] Hsh. unfold touched. destruct ch; [|exists s; split_and!; try done; intros x' Hx'; by exists x']. rewrite Hx. cbn [mbind option_bind]. eexists. split; [done|]. cbn. split; [|split_and!; try done].
  - assert (ok {| s with nodes := <[n := {| x with n_mtime := now |}]> (nodes s) |} h) as Hok1. { apply nodes_ok; [done| |done]. destruct (p_fine _ _ Hok n x Hx) as [H1 H2]. by split. }
    destruct Hok1 as [O1 O2 O3 O4 O5 O6 O7 O8 O9 O10 O11 O12]. by split.
  - intros x'. rewrite lookup_insert_eq. intros [= <-]. exists x. done.
Qed.

Lemma in_use_ok p L l : linked p L → Forall entry_ok l → (∀ f, f ∈ l ≫= frame_of_entry → f ∈ L) → ∃ b, in_use p l = Some b.
Proof.
  intros Hl. induction l as [|e l IH]; intros He Hin; cbn; [by eexists|]. apply Forall_cons in He as [He Hes]. rewrite (entry_nz e He). cbn [mbind list_bind] in Hin. unfold frame_of_entry at 1 in Hin. fold (mbind (M := list) frame_of_entry) in Hin.
  destruct (fr_of e =? 0); cbn [negb app] in *; [by apply IH|]. destruct (refcnt_linked p L (fr_of e) Hl) as (r & -> & _); [apply Hin, list_elem_of_here|]. cbn. destruct (1 <? r); [by eexists|]. apply IH; [done|]. intros f Hf. apply Hin. by apply list_elem_of_further.
Qed.

End PcacheSpec.
