(* ===== verification/PcacheRun.v ===== *)
(** * Runs of the page cache

    Writing back and giving pages back keep the invariant of [PcacheSpec]; so does
    every sequence of the cache's operations and the rest of the kernel's. *)

From S2P Require Import Prelude Refs Pmm Fs Pcache PcacheSpec.

Module PcacheRun.
Import Pmm Fs Pcache PcacheSpec.

(** ** Writing everything back *)

Lemma one_pcn s h c y n : ok s h → cn s !! c = Some y → c_n y = n → ∀ c' y', cn s !! c' = Some y' → c_n y' = n → c' = c ∧ y' = y.
Proof.
  intros Hok Hc Hn c' y' Hc' Hn'. assert (npc s !! n = Some c) as E by (apply (p_npc _ _ Hok); by exists y). assert (npc s !! n = Some c') as E' by (apply (p_npc _ _ Hok); by exists y').
  rewrite E in E'. injection E' as <-. split; [done|congruence].
Qed.

Lemma ok_shared_off s h c y : ok s h → cn s !! c = Some y → c_shared y = true →
  (∀ i e x, c_fr y !! i = Some e → fr_of e ≠ 0 → nodes s !! c_n y = Some x → shows (pm s) x (Z.of_nat i) (fr_of e)) →
  ok (set_cn {| s with nshared := u64 (nshared s - 1) |} c {| y with c_shared := false |}) h.
Proof.
  intros Hok Hc Hs Hsh. pose proof (ok_set s h c y {| y with c_shared := false |} (pm s) (npages s) (u64 (nshared s - 1)) h Hok Hc) as HS. pose proof (shared_bound _ _ Hok) as Hb. pose proof (p_shared _ _ Hok) as Hn.
  rewrite (shared_split _ _ _ Hc), Hs in Hn. cbn [app length] in Hn. unfold set_cn. destruct s. cbn in *. apply HS; clear HS; try done.
  - apply (p_entry _ _ Hok c y Hc).
  - apply (linked_perm _ _ _ (p_link _ _ Hok)). cbn. by rewrite (cached_split _ _ _ Hc).
  - change (frames_in _) with (frames_in y). rewrite <- (cached_split _ _ _ Hc). apply (p_once _ _ Hok).
  - intros f Hff. apply (p_mem _ _ Hok). cbn. rewrite (cached_split _ _ _ Hc). apply elem_of_app. by left.
  - change (frames_in _) with (frames_in y). rewrite <- (cached_split _ _ _ Hc). apply (p_pages _ _ Hok).
  - rewrite u64_small by lia. cbn [app length]. lia.
Qed.

Lemma sync_one_ok now s h c y : ok s h → cn s !! c = Some y → ∃ s', sync_one now c s = Some s' ∧ ok s' h ∧ order s' = order s ∧ pm s' = pm s.
Proof.
  intros Hok Hc. unfold sync_one. rewrite Hc. cbn [mbind option_bind]. destruct (c_shared y) eqn:Hs; cbn [negb]; [|by exists s].
  destruct (sync_nl_ok s h c y 0 (cap y) Hok Hc Hs ltac:(lia)) as (ch & s1 & -> & Hok1 & C1 & P1 & _ & O1 & N1 & Sh1 & _). cbn [mbind option_bind].
  assert (cn s1 !! c = Some y) as Hc1 by (by rewrite C1).
  destruct (touched_ok s1 h (c_n y) now ch Hok1 N1) as (s2 & -> & Hok2 & C2 & P2 & O2 & NP2 & X2). { intros c' y' Hc' E. by destruct (one_pcn _ _ _ _ _ Hok1 Hc1 eq_refl c' y' Hc' E) as [_ ->]. }
  cbn [mbind option_bind]. assert (cn s2 !! c = Some y) as Hc2 by (by rewrite C2).
  destruct (in_use_ok (pm s2) _ (c_fr y) (p_link _ _ Hok2)) as [b ->]; [apply (p_entry _ _ Hok2 c y Hc2)|intros f Hf; apply elem_of_app; left; rewrite (cached_split _ _ _ Hc2); apply elem_of_app; by left|]. cbn [mbind option_bind].
  destruct b; [exists s2; split_and!; congruence|]. eexists. split; [done|]. split; [|split; unfold set_cn; cbn; congruence]. apply ok_shared_off; [done..|].
  intros i e x Hi H0 Hx. destruct (X2 x Hx) as (x0 & Hx0 & E1 & E2 & E3). assert (0 ≤ Z.of_nat i < cap y) as Hlt by (apply lookup_lt_Some in Hi; unfold cap; lia). pose proof (Sh1 i e x0 Hlt Hi H0 Hx0) as Hsh. unfold shows, file_page, span in *. rewrite E1, E2, E3, P2, P1. exact Hsh.
Qed.

Lemma sync_all_ok s h now : ok s h → ∃ s', pc_sync_all s now = Some s' ∧ ok s' h ∧ order s' = order s ∧ pm s' = pm s.
Proof.
  intros Hok. unfold pc_sync_all. destruct (nshared s =? 0); [by exists s|]. destruct (each_spec (sync_one now) (λ _ s', ok s' h ∧ order s' = order s ∧ pm s' = pm s) (order s) [] s) as (s' & E & H); [|done|by exists s'].
  intros don k s1 Hk (Hok1 & O1 & P1). destruct (proj1 (proj2 (p_order _ _ Hok1) k)) as [y Hy]; [by rewrite O1|]. destruct (sync_one_ok now s1 h k y Hok1 Hy) as (s2 & E & Hok2 & O2 & P2). exists s2. split_and!; try done; congruence.
Qed.

(** ** Writing one file back *)

(** The pages of node [n] with a byte from [off] to [off + len] are in the file. *)
Definition written (s : pcs) (n off len : Z) : Prop := ∀ c y x i e, npc s !! n = Some c → cn s !! c = Some y → nodes s !! n = Some x →
  (∃ k, off ≤ k < off + len ∧ Z.of_nat i * PAGE_SIZE ≤ k < Z.of_nat i * PAGE_SIZE + span x (Z.of_nat i)) → c_fr y !! i = Some e → fr_of e ≠ 0 → shows (pm s) x (Z.of_nat i) (fr_of e).

Lemma shows_past p x i f : n_size x ≤ i * PAGE_SIZE → shows p x i f.
Proof. intros H d l _ _ _. unfold file_page, span. by rewrite (proj2 (Z.leb_le _ _) H). Qed.

Lemma sync_range_ok s h n x off len now : ok s h → nodes s !! n = Some x → n_hl x = 0 → 0 ≤ off → 0 ≤ len →
  ∃ s', pc_sync_range s n off len now = Some s' ∧ ok s' h ∧ pm s' = pm s ∧ cn s' = cn s ∧ written s' n off len.
Proof.
  intros Hok Hx Hh Ho Hlen. unfold pc_sync_range, real. rewrite Hx. cbn [mbind option_bind]. rewrite Hh. change (nz 0) with false. cbv iota. rewrite Hx. cbn [mbind option_bind]. destruct (npc s !! n) as [c|] eqn:Hpc.
  2:{ exists s. split_and!; try done. intros c y x' i e E. congruence. }
  destruct (proj1 (p_npc _ _ Hok n c) Hpc) as (y & Hy & Hyn). rewrite Hy. cbn [mbind option_bind]. destruct (p_fine _ _ Hok n x Hx) as [Hsz Hfd]. destruct (c_shared y) eqn:Hs; cbn [negb orb].
  2:{ exists s. split_and!; try done. intros c' y' x' i e E Hy' Hx' _ Hi H0. rewrite Hpc in E. injection E as <-. rewrite Hy in Hy'. injection Hy' as <-. subst n. by apply (p_shows _ _ Hok c y i e x'). }
  destruct ((len =? 0) || (n_size x <=? off)) eqn:Eq.
  { exists s. split_and!; try done. intros c' y' x' i e _ _ Hx' (k & Hk1 & Hk2) _ _. rewrite Hx in Hx'. injection Hx' as <-. apply shows_past. destruct (span_range x (Z.of_nat i)); bools; lia. }
  set (len' := if n_size x - off <? len then n_size x - off else len). cbv zeta.
  destruct (sync_nl_ok s h c y (off / PAGE_SIZE) ((off + len' + PAGE_SIZE - 1) / PAGE_SIZE) Hok Hy Hs) as (ch & s1 & E & Hok1 & C1 & P1 & NP1 & O1 & N1 & Sh1 & X1); [apply Z.div_pos; unfold PAGE_SIZE; lia|]. rewrite E. cbn [mbind option_bind].
  assert (cn s1 !! c = Some y) as Hc1 by (by rewrite C1). rewrite Hyn in *.
  destruct (touched_ok s1 h n now ch Hok1 N1) as (s2 & E2 & Hok2 & C2 & P2 & O2 & NP2 & X2). { intros c' y' Hc' En. by destruct (one_pcn _ _ _ _ _ Hok1 Hc1 Hyn c' y' Hc' En) as [_ ->]. }
  exists s2. split_and!; try done; [congruence..|]. intros c' y' x2 i e Hc' Hy' Hx2 (k & Hk1 & Hk2) Hi H0. rewrite NP2, NP1, Hpc in Hc'. injection Hc' as <-. rewrite C2, Hc1 in Hy'. injection Hy' as <-.
  destruct (X2 x2 Hx2) as (x1 & Hx1 & D1 & D2 & D3). destruct (X1 x1 Hx1) as (x0 & Hx0 & D4). rewrite Hx in Hx0. injection Hx0 as <-.
  destruct (decide (n_size x ≤ Z.of_nat i * PAGE_SIZE)); [apply shows_past; lia|].
  assert (off / PAGE_SIZE ≤ Z.of_nat i < (off + len' + PAGE_SIZE - 1) / PAGE_SIZE) as Hr. { destruct (span_range x2 (Z.of_nat i)) as [Hs1 _]; [lia|]. split; [apply Z.div_lt_upper_bound in Hk1 || apply Z.lt_succ_r, Z.div_lt_upper_bound; unfold PAGE_SIZE in *; lia|]. apply Z.lt_le_trans with (Z.of_nat i + 1); [lia|]. apply Z.div_le_lower_bound; [done|]. unfold len', PAGE_SIZE in *. destruct (Z.ltb_spec (n_size x - off) len); lia. }
  pose proof (Sh1 i e x1 Hr Hi H0 Hx1) as Hsh. unfold shows, file_page, span in *. rewrite D1, D2, D3, P2, P1. exact Hsh.
Qed.

Lemma pc_free_ok s h n : ok s h → ∃ s', pc_free s n = Some s' ∧ ok s' h ∧ npc s' !! n = None ∧ nodes s' = nodes s.
Proof.
  intros Hok. unfold pc_free. destruct (npc s !! n) as [c|] eqn:Hc; [|by exists s]. destruct (proj1 (p_npc _ _ Hok n c) Hc) as (y & Hy & Hyn).
  destruct (drop_nl_ok s h c y Hok Hy) as (s' & E & Hok' & Hn & _ & Hp). exists s'. split_and!; try done. rewrite Hp, Hyn. apply lookup_delete_eq.
Qed.

(** A node that is not in the cache may go. *)
Lemma node_gone s h n : ok s h → npc s !! n = None → ok {| s with nodes := delete n (nodes s) |} h.
Proof.
  intros [O1 O2 O3 O4 O5 O6 O7 O8 O9 O10 O11 O12] Hn. split; cbn; try done.
  - intros m Hm. rewrite lookup_delete_ne; [by apply O7|]. intros ->. rewrite Hn in Hm. by destruct Hm.
  - intros m z [_ Hz]%lookup_delete_Some. by apply (O8 m).
  - intros c x i e y Hc Hs Hi H0 [_ Hy]%lookup_delete_Some. by apply (O12 c x i e y).
Qed.

(** ** Giving pages back *)

Lemma ok_hand s h n i : ok s h → n = 0 ∨ is_Some (cn s !! n) → 0 ≤ i → ok {| s with hand_n := n; hand_i := i |} h.
Proof. intros [O1 O2 O3 O4 O5 O6 O7 O8 O9 O10 O11 O12] Hn Hi. by split. Qed.

Lemma next_of_in l c : next_of l c = 0 ∨ next_of l c ∈ l.
Proof. induction l as [|a l IH]; cbn; [by left|]. destruct (a =? c); [destruct l; cbn; [by left|right; set_solver]|]. destruct IH as [?|?]; [by left|right; set_solver]. Qed.

(** What a pass over the cache may do: [s] becomes [s'], and [got] pages are gone. *)
Record gave (h : list Z) (s s' : pcs) (got : Z) : Prop := {
  g_ok : ok s' h;
  g_pages : npages s' = npages s - got;
  g_frames : ∃ out, cached (cn s) ≡ₚ out ++ cached (cn s') ∧ Z.of_nat (length out) = got ∧ ∀ f, f ∈ out → f ∉ h;
  g_shared : ∀ c y, cn s !! c = Some y → c_shared y = true → ∃ y', cn s' !! c = Some y' ∧ c_shared y' = true ∧ frames_in y' ≡ₚ frames_in y;
  g_same : nodes s' = nodes s ∧ order s' = order s ∧ npc s' = npc s
}.

Lemma gave_refl h s : ok s h → gave h s s 0.
Proof. intros Hok. split; [done|lia| |by intros c y Hc Hs; exists y|done]. exists []. split_and!; try done. intros f Hf. by apply elem_of_nil in Hf. Qed.

Lemma gave_trans h s1 s2 s3 a b : gave h s1 s2 a → gave h s2 s3 b → gave h s1 s3 (a + b).
Proof.
  intros [A1 A2 (o1 & A3 & A4 & A5) A6 (A7 & A8 & A9)] [B1 B2 (o2 & B3 & B4 & B5) B6 (B7 & B8 & B9)]. split; [done|lia| | |split_and!; congruence].
  - exists (o1 ++ o2). split; [by rewrite A3, B3, app_assoc|]. split; [rewrite length_app; lia|]. intros f [?|?]%elem_of_app; auto.
  - intros c y Hc Hs. destruct (A6 c y Hc Hs) as (y1 & Hc1 & S1 & P1). destruct (B6 c y1 Hc1 S1) as (y2 & Hc2 & S2 & P2). exists y2. split_and!; try done. by rewrite P2.
Qed.

Lemma gave_hand h s n i : ok s h → n = 0 ∨ is_Some (cn s !! n) → 0 ≤ i → gave h s {| s with hand_n := n; hand_i := i |} 0.
Proof. intros Hok Hn Hi. destruct (gave_refl h s Hok) as [G1 G2 G3 G4 G5]. split; [by apply ok_hand|done..]. Qed.

(** The "seen" bit goes. *)
Lemma gave_unseen h s c y i e : ok s h → cn s !! c = Some y → c_fr y !! i = Some e → fr_of e ≠ 0 →
  gave h s (set_cn s c {| y with c_fr := <[i := fr_of e]> (c_fr y) |}) 0.
Proof.
  intros Hok Hc Hi H0. destruct (p_entry _ _ Hok c y Hc) as [Hent _]. assert (entry_ok e) as Hee by (by apply (Forall_lookup_1 _ _ i e Hent)). destruct Hee as [->|(Hp & Hm & _)]; [done|].
  destruct (entry_seen (fr_of e) Hp Hm) as (_ & S1 & _ & S2). destruct (fr_of_page _ Hm) as (F1 & _ & _). set (y2 := {| y with c_fr := <[i := fr_of e]> (c_fr y) |}).
  assert (frames_in y2 ≡ₚ frames_in y) as Hfr. { unfold frames_in, y2. cbn. destruct (frames_entry (c_fr y) i e (fr_of e) Hi) as (R & R1 & R2). rewrite R1, R2, S2. unfold frame_of_entry. by rewrite (proj2 (Z.eqb_neq _ _) H0). }
  assert (frames_in y2 ++ cached (delete c (cn s)) ≡ₚ cached (cn s)) as Hall by (rewrite Hfr; symmetry; by apply cached_split). split.
  - pose proof (ok_set s h c y y2 (pm s) (npages s) (nshared s) h Hok Hc) as HS. unfold set_cn. destruct s as [so sc sh si sp sn snp sno spm sd]. cbn in *. apply HS; clear HS; try done.
    + by apply Forall_insert.
    + apply (linked_perm _ _ _ (p_link _ _ Hok)). cbn. by rewrite Hall.
    + rewrite Hall. apply (p_once _ _ Hok).
    + intros f Hf. apply (p_mem _ _ Hok). cbn. rewrite <- Hall. apply elem_of_app. by left.
    + rewrite Hall. apply (p_pages _ _ Hok).
    + rewrite <- (shared_split _ _ _ Hc). apply (p_shared _ _ Hok).
    + intros Hs j e' x Hj Hj0 Hx. destruct (decide (j = i)) as [->|Hji].
      * rewrite list_lookup_insert_eq in Hj by (by apply lookup_lt_Some in Hi). injection Hj as <-. rewrite F1 in *. by apply (p_shows _ _ Hok c y i e x).
      * rewrite list_lookup_insert_ne in Hj by done. by apply (p_shows _ _ Hok c y j e' x).
  - cbn. lia.
  - exists []. unfold set_cn. cbn. split_and!; try done; [by rewrite cached_insert, Hall|]. intros f Hf. by apply elem_of_nil in Hf.
  - intros c' y' Hc' Hs'. unfold set_cn. cbn. destruct (decide (c' = c)) as [->|]; [rewrite lookup_insert_eq|rewrite lookup_insert_ne by done; by exists y']. rewrite Hc in Hc'. injection Hc' as <-. by exists y2.
  - done.
Qed.

(** A page that only the cache holds goes. *)
Lemma gave_page h s c y i e : ok s h → cn s !! c = Some y → c_fr y !! i = Some e → fr_of e ≠ 0 → pmm_refcnt (pm s) (fr_of e) = Some 1 → c_shared y = false →
  ∃ p, pmm_unref (pm s) (fr_of e) = Some p ∧ gave h s (set_cn {| s with pm := p; npages := u64 (npages s - 1) |} c {| y with c_fr := <[i := 0]> (c_fr y) |}) 1.
Proof.
  intros Hok Hc Hi H0 Hr Hs. set (f := fr_of e) in *. set (y2 := {| y with c_fr := <[i := 0]> (c_fr y) |}).
  assert (frames_in y ≡ₚ f :: frames_in y2) as Hfr. { unfold frames_in, y2. cbn. destruct (frames_entry (c_fr y) i e 0 Hi) as (R & R1 & R2). rewrite R1, R2. unfold frame_of_entry. fold f. by rewrite (proj2 (Z.eqb_neq _ _) H0). }
  assert (cached (cn s) ≡ₚ f :: (frames_in y2 ++ cached (delete c (cn s)))) as Hall by (rewrite (cached_split _ _ _ Hc), Hfr; done).
  assert (f ∈ cached (cn s)) as Hin by (rewrite Hall; apply list_elem_of_here). destruct (p_entry _ _ Hok c y Hc) as [Hent _].
  pose proof (p_once _ _ Hok) as Ho. rewrite Hall in Ho. apply NoDup_cons in Ho as [Hf Ho].
  destruct (unref_linked (pm s) _ f ((frames_in y2 ++ cached (delete c (cn s))) ++ h) (p_link _ _ Hok)) as (p & E & Hl & Hram); [by rewrite Hall|]. exists p. split; [done|].
  assert (f ∉ h) as Hnh. { destruct (refcnt_linked (pm s) _ f (p_link _ _ Hok)) as (r & Er & _ & Hocc); [apply elem_of_app; by left|]. rewrite Hr in Er. injection Er as <-. destruct Hocc as [?|Hocc]; [lia|]. rewrite occ_app in Hocc. pose proof (occ_pos _ _ Hin). apply occ_zero. pose proof (countb_range (Z.eqb f) h). unfold occ in *. lia. }
  pose proof (p_pages _ _ Hok) as Hnp. rewrite Hall in Hnp. cbn [length] in Hnp. pose proof (pages_bound _ _ Hok) as Hb. rewrite u64_small by lia. split.
  - pose proof (ok_set s h c y y2 p (npages s - 1) (nshared s) h Hok Hc) as HS. unfold set_cn. destruct s as [so sc sh si sp sn snp sno spm sd]. cbn in *. apply HS; clear HS; try done.
    + apply Forall_insert; [done|by left].
    + intros f' _. by rewrite Hram.
    + intros f' Hf'. rewrite Hram. apply (p_mem _ _ Hok). cbn. rewrite Hall. apply elem_of_cons. right. apply elem_of_app. by left.
    + lia.
    + pose proof (p_shared _ _ Hok) as Hns. cbn in Hns. by rewrite (shared_split _ _ _ Hc) in Hns.
    + intros _ j e' x Hj Hj0 Hx. destruct (decide (j = i)) as [->|Hji]; [rewrite list_lookup_insert_eq in Hj by (by apply lookup_lt_Some in Hi); by injection Hj as <-|].
      rewrite list_lookup_insert_ne in Hj by done. intros d l. rewrite Hram. by apply (p_shows _ _ Hok c y j e' x).
  - done.
  - exists [f]. unfold set_cn. cbn. split_and!; try done; [by rewrite cached_insert, Hall|]. by intros f' ->%list_elem_of_singleton.
  - intros c' y' Hc' Hs'. unfold set_cn. cbn. rewrite lookup_insert_ne; [by exists y'|]. intros ->. congruence.
  - done.
Qed.

(** How the loop of [pc_reclaim] ends from [s]. *)
Definition ends (h : list Z) (s : pcs) (want got : Z) (r : option (Z * pcs)) : Prop :=
  ∃ got' s', r = Some (got', s') ∧ gave h s s' (got' - got) ∧ got ≤ got' ∧ (got' ≤ want ∨ got' = got).

Lemma ends_after h s s1 want got k r : gave h s s1 k → 0 ≤ k → got + k ≤ want ∨ k = 0 → ends h s1 want (got + k) r → ends h s want got r.
Proof.
  intros G Hk Hw (g & s' & -> & G' & H1 & H2). exists g, s'. split; [done|]. split; [|split; lia]. replace (g - got) with (k + (g - (got + k))) by lia. by apply (gave_trans _ _ s1).
Qed.

Lemma ends_turn h s s1 want got r : gave h s s1 0 → ends h s1 want got r → ends h s want got r.
Proof. intros G E. apply (ends_after h s s1 want got 0); [done|lia|by right|]. by rewrite Z.add_0_r. Qed.

Lemma hand_on h s c : ok s h → is_Some (cn s !! c) → let nx := next_of (order s) c in is_Some (cn s !! (if nx =? 0 then hd 0 (order s) else nx)).
Proof.
  intros Hok Hc. destruct (p_order _ _ Hok) as [_ Ho]. cbv zeta. apply Ho. destruct (Z.eqb_spec (next_of (order s) c) 0) as [E|E].
  - apply Ho in Hc. destruct (order s) as [|a l]; [by apply elem_of_nil in Hc|apply list_elem_of_here].
  - by destruct (next_of_in (order s) c) as [?|?].
Qed.

Lemma odd_entry e : entry_ok e → Z.odd e = false → fr_of e = e.
Proof.
  intros [->|(Hp & Hm & [E|E])] Ho; [done|done|]. exfalso. assert (Z.odd (fr_of e + 1) = true) as H; [|congruence]. rewrite Z.odd_add. unfold PAGE_SIZE in Hm.
  assert (Z.odd (fr_of e) = false) as ->; [|done]. rewrite <- Z.negb_even. apply negb_false_iff, Z.even_spec. exists (2048 * (fr_of e / 4096)). pose proof (Z.div_mod (fr_of e) 4096). lia.
Qed.

Lemma reclaim_ok h want fuel : ∀ s got steps, ok s h → 0 ≤ got → 0 ≤ steps → npages s * 2 + 64 - steps ≤ Z.of_nat fuel → ends h s want got (reclaim fuel s want got steps).
Proof.
  induction fuel as [|fuel IH]; intros s got steps Hok Hg Hst Hfuel; cbn [reclaim]; pose proof (pages_bound _ _ Hok) as Hb; rewrite (u64_small (npages s * 2 + 64)) by lia;
    (destruct ((got <? want) && nz (hand_n s) && (steps <? npages s * 2 + 64)) eqn:Econd; [|exists got, s; rewrite Z.sub_diag; split_and!; auto; [by apply gave_refl|lia]]).
  { bools. lia. }
  apply andb_true_iff in Econd as [Econd _]. apply andb_true_iff in Econd as [Egw Enz]. apply Z.ltb_lt in Egw. destruct (p_hand _ _ Hok) as [[Eh|[y Hy]] Hhi]; [by rewrite Eh in Enz|]. rewrite Hy. cbn [mbind option_bind]. cbv zeta.
  destruct (Z.leb_spec (cap y) (hand_i s)) as [Hcap|Hcap].
  { pose proof (hand_on h s (hand_n s) Hok (mk_is_Some _ _ Hy)) as Hnx. cbv zeta in Hnx. cbn [hand_n]. eapply ends_turn; [apply (gave_hand h s _ 0 Hok (or_intror Hnx)); lia|].
    pose proof (ok_hand s h _ 0 Hok (or_intror Hnx) ltac:(lia)) as Hok1. match goal with |- ends _ _ _ _ (if ?b then _ else _) => destruct b end; [|apply IH; [done|lia|lia|cbn; lia]].
    eexists got, _. split; [done|]. rewrite Z.sub_diag. split; [by apply gave_refl|]. lia. }
  destruct (get_entry y (hand_i s)) as (e & Eg & Hi); [lia|]. rewrite Eg. cbn [mbind option_bind]. set (i := hand_i s) in *.
  assert (∀ v, (c_fr y).[i <- v] = Some (<[Z.to_nat i := v]> (c_fr y))) as Hset by (intros v; rewrite <- (set_entry y (Z.to_nat i) v e Hi); f_equal; lia).
  assert (0 ≤ u32 (i + 1)) as Hu by (pose proof (u32_range (i + 1)); lia). pose proof (ok_hand s h (hand_n s) (u32 (i + 1)) Hok (or_intror (mk_is_Some _ _ Hy)) Hu) as Hok1.
  eapply ends_turn; [apply (gave_hand h s (hand_n s) (u32 (i + 1)) Hok (or_intror (mk_is_Some _ _ Hy)) Hu)|]. replace {| s with hand_n := hand_n s; hand_i := u32 (i + 1) |} with {| s with hand_i := u32 (i + 1) |} in * by (by destruct s). set (s1 := {| s with hand_i := u32 (i + 1) |}) in *.
  assert (ends h s1 want got (reclaim fuel s1 want got (steps + 1))) as Hskip by (apply IH; [done|lia|lia|cbn; lia]). assert (cn s1 !! hand_n s = Some y) as Hy1 by done.
  destruct (Z.eqb_spec (fr_of e) 0) as [E0|E0]; [done|]. destruct (Z.odd e) eqn:Eo.
  { rewrite Hset. cbn [mbind option_bind]. pose proof (gave_unseen h s1 (hand_n s) y (Z.to_nat i) e Hok1 Hy1 Hi E0) as G. eapply ends_turn; [exact G|]. apply IH; [apply (g_ok _ _ _ _ G)|lia|lia|cbn; lia]. }
  assert (fr_of e ∈ cached (cn s1)) as Hin by (apply cached_elem; by exists (hand_n s), y, (Z.to_nat i), e).
  destruct (refcnt_linked (pm s1) _ (fr_of e) (p_link _ _ Hok1)) as (r & Er & _ & _); [apply elem_of_app; by left|]. change (pm s1) with (pm s) in *. rewrite Er. cbn [mbind option_bind].
  destruct (Z.eqb_spec r 1) as [->|Hr]; cbn [negb]; [|done]. destruct (c_shared y) eqn:Esh; [done|]. rewrite Hset. cbn [mbind option_bind].
  destruct (gave_page h s1 (hand_n s) y (Z.to_nat i) e Hok1 Hy1 Hi E0 Er Esh) as (p & Ep & G). change (pm s1) with (pm s) in Ep. rewrite Ep. rewrite Esh in G. cbn [mbind option_bind].
  eapply (ends_after h s1 _ want got 1); [exact G|lia|lia|]. apply IH; [apply (g_ok _ _ _ _ G)|lia|lia|]. pose proof (g_pages _ _ _ _ G) as Hp. change (npages s1) with (npages s) in *. unfold set_cn in *. cbn [npages] in *. lia.
Qed.

Lemma pc_reclaim_ok s h want : ok s h → 0 ≤ want → ∃ got s', pc_reclaim s want = Some (got, s') ∧ gave h s s' got ∧ 0 ≤ got ≤ want.
Proof.
  intros Hok Hw. unfold pc_reclaim. assert (∃ s1, (if hand_n s =? 0 then {| s with hand_n := hd 0 (order s); hand_i := 0 |} else s) = s1 ∧ gave h s s1 0) as (s1 & -> & G).
  { destruct (Z.eqb_spec (hand_n s) 0); [|exists s; split; [done|by apply gave_refl]]. eexists. split; [done|]. apply gave_hand; [done| |lia]. destruct (p_order _ _ Hok) as [_ Ho]. destruct (order s) as [|a l]; [by left|right]. apply Ho, list_elem_of_here. }
  pose proof (g_ok _ _ _ _ G) as Hok1. pose proof (pages_bound _ _ Hok1). destruct (ends_turn h s s1 want 0 _ G (reclaim_ok h want (Z.to_nat (npages s1 * 2 + 64)) s1 0 0 Hok1 ltac:(lia) ltac:(lia) ltac:(lia))) as (got & s' & E & G' & H1 & H2).
  exists got, s'. rewrite Z.sub_0_r in G'. split_and!; [exact E|exact G'|lia|lia].
Qed.

(** ** The cache and the rest of the kernel *)

Inductive op :=
  | Page (n i ca : Z) (room sh : bool)   (** a page for a mapping, whose reference the caller keeps *)
  | Hold (f : Z) | Drop (f : Z) | Alloc  (** the rest of the kernel uses the pool *)
  | Store (f : Z) (l : list Z)           (** a store through a mapping *)
  | Write (n : Z) (x : fs_node)          (** the file system changes a file and calls [pc_changed] *)
  | Remove (n : Z)                       (** the file system calls [pc_free] and frees the node *)
  | SyncRange (n off len now : Z) | SyncAll (now : Z) | Reclaim (want : Z).

(** One reference on [f] less. *)
Fixpoint without (f : Z) (h : list Z) : list Z := match h with [] => [] | a :: h => if a =? f then h else a :: without f h end.

Definition exec (o : op) (s : pcs) (h : list Z) : option (pcs * list Z) :=
  match o with
  | Page n i ca room sh => '(fr, s) ← get_page s n i ca room sh; Some (s, if fr =? 0 then h else fr :: h)
  | Hold f => p ← pmm_ref (pm s) f; Some ({| s with pm := p |}, f :: h)
  | Drop f => p ← pmm_unref (pm s) f; Some ({| s with pm := p |}, without f h)
  | Alloc => '(fr, p) ← pmm_alloc (pm s); Some ({| s with pm := p |}, if fr =? 0 then h else fr :: h)
  | Store f l => let p := pm s in Some ({| s with pm := {| p with ram := <[f := l]> (ram p) |} |}, h)
  | Write n x => s ← pc_changed {| s with nodes := <[n := x]> (nodes s) |} n; Some (s, h)
  | Remove n => s ← pc_free s n; Some ({| s with nodes := delete n (nodes s) |}, h)
  | SyncRange n off len now => s ← pc_sync_range s n off len now; Some (s, h)
  | SyncAll now => s ← pc_sync_all s now; Some (s, h)
  | Reclaim want => '(_, s) ← pc_reclaim s want; Some (s, h)
  end.

Definition plain (s : pcs) (n : Z) : Prop := ∃ x, nodes s !! n = Some x ∧ n_hl x = 0.

(** Who may call what: references are used by their holders, [kmalloc] gives an
    address that is not in use, and a store goes to a frame that is not a page of
    a file without shared mappings (its mappings are read-only or copied on write). *)
Definition legal (o : op) (s : pcs) (h : list Z) : Prop :=
  match o with
  | Page n i ca _ _ => is_Some (nodes s !! n) ∧ 0 ≤ i ∧ fresh s ca
  | Hold f | Drop f => f ∈ h
  | Alloc | SyncAll _ => True
  | Store f l => f ∈ h ∧ is_mem l ∧ ∀ c y, cn s !! c = Some y → c_shared y = false → f ∉ frames_in y
  | Write n x => node_fine x ∧ n_hl x = 0
  | Remove n => True
  | SyncRange n off len _ => plain s n ∧ 0 ≤ off ∧ 0 ≤ len
  | Reclaim want => 0 ≤ want
  end.

(** What each operation of the cache promises. *)
Definition does (o : op) (s s' : pcs) (h h' : list Z) : Prop :=
  match o with
  | Page n i _ _ sh => nodes s' = nodes s ∧ (h' = h ∨ ∃ fr, h' = fr :: h ∧ page_in s' n i fr ∧ (sh = true → is_shared s' n))
  | Write n x => nodes s' = <[n := x]> (nodes s) ∧ current s' n
  | Remove n => npc s' !! n = None ∧ nodes s' = delete n (nodes s)
  | SyncRange n off len _ => pm s' = pm s ∧ written s' n off len
  | SyncAll _ => pm s' = pm s
  | Reclaim want => ∃ got, 0 ≤ got ≤ want ∧ gave h s s' got
  | _ => True
  end.

Lemma without_perm f h : f ∈ h → h ≡ₚ f :: without f h.
Proof.
  induction h as [|a h IH]; intros Hf; [by apply elem_of_nil in Hf|]. cbn. destruct (Z.eqb_spec a f) as [->|Ha]; [done|]. apply elem_of_cons in Hf as [->|Hf]; [done|]. rewrite (IH Hf) at 1. apply perm_swap.
Qed.

Lemma ok_pool s h h' p : ok s h → linked p (cached (cn s) ++ h') → (∀ f, f ∈ cached (cn s) → ram p !! f = ram (pm s) !! f) → ok {| s with pm := p |} h'.
Proof.
  intros [O1 O2 O3 O4 O5 O6 O7 O8 O9 O10 O11 O12] Hl Hr. split; cbn; try done.
  - intros f Hf. rewrite Hr by done. by apply O2.
  - intros c x i e y Hc Hs Hi H0 Hy d l Hd Hcap. rewrite Hr; [by apply (O12 c x i e y)|]. apply cached_elem. by exists c, x, i, e.
Qed.

Lemma pc_store_ok s h f l : ok s h → is_mem l → (∀ c y, cn s !! c = Some y → c_shared y = false → f ∉ frames_in y) →
  ok (let p := pm s in {| s with pm := {| p with ram := <[f := l]> (ram p) |} |}) h.
Proof.
  intros [O1 O2 O3 O4 O5 O6 O7 O8 O9 O10 O11 O12] Hm Hf. split; cbn; try done.
  - by apply linked_ram.
  - intros g Hg. destruct (decide (g = f)) as [->|]; [rewrite lookup_insert_eq; by exists l|]. rewrite lookup_insert_ne by done. by apply O2.
  - intros c x i e y Hc Hs Hi H0 Hy d w Hd Hcap. cbn. rewrite lookup_insert_ne; [by apply (O12 c x i e y)|]. intros ->. apply (Hf c x Hc Hs). apply list_elem_of_bind. exists e. split; [|by apply list_elem_of_lookup_2 in Hi].
    unfold frame_of_entry. rewrite (proj2 (Z.eqb_neq _ _) H0). apply list_elem_of_here.
Qed.

(** Every legal operation returns, keeps the invariant and does what it promises. *)
Lemma pc_exec_ok o s h : ok s h → legal o s h → ∃ s' h', exec o s h = Some (s', h') ∧ ok s' h' ∧ does o s s' h h'.
Proof.
  intros Hok Hleg. pose proof (p_link _ _ Hok) as Hlink. destruct o as [n i ca room sh|f|f| |f l|n x|n|n off len now|now|want]; cbn [exec legal does] in *.
  - destruct Hleg as ([x Hx] & Hi & Hf). destruct (get_page_ok s h n x i ca room sh Hok Hx Hi Hf) as (fr & s' & -> & Hn & [[-> Ho]|(H0 & Ho & Hp & Hs)]); cbn [mbind option_bind]; [by exists s', h; auto|].
    rewrite (proj2 (Z.eqb_neq fr 0) H0). exists s', (fr :: h). split_and!; try done. right. by exists fr.
  - destruct (ref_linked _ _ f Hlink) as (p & -> & Hl & Hr); [apply elem_of_app; by right|]. cbn [mbind option_bind]. eexists _, _. split_and!; [done| |done]. apply (ok_pool s h); [done| |intros g _; by rewrite Hr]. apply (linked_perm _ _ _ Hl). by rewrite Permutation_middle.
  - destruct (unref_linked _ _ f (cached (cn s) ++ without f h) Hlink) as (p & -> & Hl & Hr); [rewrite (without_perm f h) at 1 by done; by rewrite Permutation_middle|]. cbn [mbind option_bind]. eexists _, _. split_and!; [done| |done]. apply (ok_pool s h); [done|done|intros g _; by rewrite Hr].
  - destruct (alloc_linked _ _ Hlink) as (fr & p & -> & [[-> ->]|(Hp & _ & Hnew & Hl & Hr)]); cbn [mbind option_bind]; [eexists _, h; split_and!; [done|by destruct s|done]|]. rewrite (proj2 (Z.eqb_neq fr 0)) by lia.
    eexists _, _. split_and!; [done| |done]. apply (ok_pool s h); [done|apply (linked_perm _ _ _ Hl); by rewrite Permutation_middle|]. intros g Hg. rewrite Hr, lookup_insert_ne; [done|]. intros ->. apply Hnew, elem_of_app. by left.
  - destruct Hleg as (_ & Hm & Hf). eexists _, h. split_and!; [done| |done]. by apply pc_store_ok.
  - destruct Hleg as [Hx Hh]. destruct (changed_ok s h n x Hok Hx Hh) as (s' & -> & Ho & Hn & Hc). by exists s', h.
  - destruct (pc_free_ok s h n Hok) as (s' & -> & Ho & Hn & Hno). cbn [mbind option_bind]. eexists _, h. split; [done|]. split; [by apply node_gone|]. cbn. by rewrite Hno.
  - destruct Hleg as ((x & Hx & Hh) & Hoff & Hlen). destruct (sync_range_ok s h n x off len now Hok Hx Hh Hoff Hlen) as (s' & -> & Ho & Hp & _ & Hw). by exists s', h.
  - destruct (sync_all_ok s h now Hok) as (s' & -> & Ho & _ & Hp). by exists s', h.
  - destruct (pc_reclaim_ok s h want Hok Hleg) as (got & s' & -> & G & Hg). exists s', h. split_and!; [done|apply (g_ok _ _ _ _ G)|by exists got].
Qed.

Fixpoint run (os : list op) (s : pcs) (h : list Z) : option (pcs * list Z) :=
  match os with [] => Some (s, h) | o :: os => '(s, h) ← exec o s h; run os s h end.

Fixpoint legal_run (os : list op) (s : pcs) (h : list Z) : Prop :=
  match os with [] => True | o :: os => legal o s h ∧ ∀ s' h', exec o s h = Some (s', h') → legal_run os s' h' end.

Lemma pc_run_ok os : ∀ s h, ok s h → legal_run os s h → ∃ s' h', run os s h = Some (s', h') ∧ ok s' h'.
Proof.
  induction os as [|o os IH]; intros s h Hok Hleg; cbn in *; [by exists s, h|]. destruct Hleg as [Hl Hr]. destruct (pc_exec_ok o s h Hok Hl) as (s1 & h1 & E & Hok1 & _). rewrite E. cbn. apply IH; [done|]. by apply Hr.
Qed.

(** The cache at boot. *)
Definition empty (p : pmm) (ns : gmap Z fs_node) : pcs := Pcs [] ∅ 0 0 0 0 ∅ ns p [].

Lemma empty_ok p h ns : linked p h → (∀ n x, ns !! n = Some x → node_fine x) → ok (empty p ns) h.
Proof.
  intros Hl Hn. split; cbn; try done.
  - intros f Hf. by apply elem_of_nil in Hf.
  - constructor.
  - split; [constructor|]. intros c. rewrite lookup_empty. split; [intros Hc; by apply elem_of_nil in Hc|by intros [? ?]].
  - intros n c. rewrite lookup_empty. split; [done|]. intros (x & Hx & _). by rewrite lookup_empty in Hx.
  - intros n. rewrite lookup_empty. by intros [? ?].
  - split; [by left|done].
Qed.

(** C31: From boot on, in any sequence of the cache's operations and the rest of the
    kernel's, every operation returns and the cache stays in order: it holds one
    reference on each of its frames and no frame is in it twice, the counters of
    pages and of shared files are right, the list, the nodes and the hand agree. Each
    page of a file without the shared mark holds the bytes of the file, where the file
    is loaded and owns its bytes: nothing is said of the contents of a file borrowed
    from the boot image, whose pages are never written back, or of one whose bytes
    are not loaded. The steps are [op] with [legal]: a store through a mapping
    goes to no page of a file without the shared mark, the file system calls
    [pc_changed] after a change of a file, and [kmalloc] gives unused addresses. *)
Theorem pcache_safe p h ns os : linked p h → (∀ n x, ns !! n = Some x → node_fine x) → legal_run os (empty p ns) h →
  ∃ s' h', run os (empty p ns) h = Some (s', h') ∧ ok s' h'.
Proof. intros Hl Hn Hr. apply pc_run_ok; [by apply empty_ok|done]. Qed.

(** C32: Every legal operation on the cache does what it promises: a page handed out
    is the page of the file asked for, with a reference for the caller, and a shared
    mapping marks the file; after a change of a loaded file every cached page has its
    bytes; syncing a range puts the pages of the range into a file that owns its bytes
    (one borrowed from the boot image is left out, as is one that is not loaded);
    giving back [want] pages takes at most that many, only frames that nobody else
    holds and none of a file with the shared mark. *)
Theorem pcache_ops o s h : ok s h → legal o s h → ∃ s' h', exec o s h = Some (s', h') ∧ ok s' h' ∧ does o s s' h h'.
Proof. apply pc_exec_ok. Qed.

(** ** Examples *)

Definition a_file : fs_node := Node [102] FS_FILE 0 [] (Some [104; 105; 10]) 3 3 0x1A4 0 false 0 0 0 0 0 [] 0 false false 0.
Definition start : pcs := empty small_pool {[7 := a_file]}.

Lemma start_linked : linked small_pool [].
Proof.
  split; [apply small_pool_inv|]. intros t. right. unfold refs. destruct (_ =? 0); [|done]. cbn [small_pool refcnt]. unfold arr_get. destruct (0 <=? _); [|done].
  destruct (Z.to_nat _) as [|[|[|[|k]]]]; done.
Qed.

Lemma start_fine n x : ({[7 := a_file]} : gmap Z fs_node) !! n = Some x → node_fine x.
Proof. intros [_ <-]%lookup_singleton_Some. split; [cbn; lia|]. cbn. intros d [= <-]. split; [repeat constructor; unfold byte; lia|cbn; lia]. Qed.

Lemma pcache_safe_witness : ∃ s' h', run [Page 7 0 100 true true; SyncRange 7 0 3 5; Reclaim 1] start [] = Some (s', h') ∧ ok s' h'.
Proof.
  apply (pcache_safe small_pool [] {[7 := a_file]}); [apply start_linked|apply start_fine|].
  split; [split; [eexists; reflexivity|]; split; [lia|]; right; split; [lia|reflexivity]|]. intros s' h' E. vm_compute in E. injection E as <- <-.
  split; [split; [eexists; split; reflexivity|lia]|]. intros s' h' E. vm_compute in E. injection E as <- <-. split; [cbn; lia|done].
Defined.

Lemma pcache_ops_witness : ∃ s' h', exec (Page 7 0 100 true true) start [] = Some (s', h') ∧ h' = [4096] ∧ page_in s' 7 0 4096.
Proof.
  destruct (pcache_ops (Page 7 0 100 true true) start []) as (s' & h' & E & _ & _ & H).
  - apply empty_ok; [apply start_linked|apply start_fine].
  - split; [eexists; reflexivity|]. split; [lia|]. right. split; [lia|reflexivity].
  - assert (h' = [4096]) as Eh by (vm_compute in E; injection E as _ <-; reflexivity). exists s', h'. split; [exact E|]. split; [exact Eh|].
    rewrite Eh in H. destruct H as [H|(fr & H & Hp & _)]; [discriminate|]. injection H as <-. exact Hp.
Defined.

End PcacheRun.
