(* ===== verification/Str.v ===== *)
(** * Memory and strings (src/src/core/string.c)

    Memory is a map from addresses to bytes; an access to an address that is not in
    it is [None].  The string instructions of the processor are loops over elements
    of [w] bytes ([movsq], [movsb], [stosq], [stosb]); the loops over a string have a
    bound on the turns. *)

From S2P Require Import Prelude.

Module Str.

Abbreviation mem := (gmap Z Z).

Fixpoint load (k : nat) (m : mem) (a : Z) : option (list Z) :=
  match k with O => Some [] | S k => x ← m !! a; r ← load k m (a + 1); Some (x :: r) end.

Definition poke (m : mem) (a x : Z) : option mem := _ ← m !! a; Some (<[a := x]> m).

Fixpoint store (m : mem) (a : Z) (l : list Z) : option mem := match l with [] => Some m | x :: l => m ← poke m a x; store m (a + 1) l end.

(** ** Blocks *)

(** [rep movs] with elements of [w] bytes, up, and [std; rep movsb]. *)
Fixpoint rep_movs (w n : nat) (m : mem) (d s : Z) : option mem :=
  match n with O => Some m | S n => l ← load w m s; m ← store m d l; rep_movs w n m (d + Z.of_nat w) (s + Z.of_nat w) end.

Fixpoint rep_movsb_down (n : nat) (m : mem) (d s : Z) : option mem :=
  match n with O => Some m | S n => x ← m !! s; m ← poke m d x; rep_movsb_down n m (d - 1) (s - 1) end.

(** The [k] low bytes of a number, the lowest first. *)
Fixpoint le_bytes (k : nat) (v : Z) : list Z := match k with O => [] | S k => v mod 256 :: le_bytes k (v / 256) end.

Fixpoint rep_stos (w n : nat) (m : mem) (d v : Z) : option mem :=
  match n with O => Some m | S n => m ← store m d (le_bytes w v); rep_stos w n m (d + Z.of_nat w) v end.

Definition memset (m : mem) (dst v n : Z) : option mem :=
  let pat := u64 (u8 v * 0x0101010101010101) in
  let words := Z.shiftr n 3 in let tail := Z.land n 7 in
  m ← rep_stos 8 (Z.to_nat words) m dst pat;
  rep_stos 1 (Z.to_nat tail) m (dst + 8 * words) pat.

Definition memcpy (m : mem) (dst src n : Z) : option mem :=
  let words := Z.shiftr n 3 in let tail := Z.land n 7 in
  m ← rep_movs 8 (Z.to_nat words) m dst src;
  rep_movs 1 (Z.to_nat tail) m (dst + 8 * words) (src + 8 * words).

Definition memmove (m : mem) (dst src n : Z) : option mem :=
  if (dst =? src) || (n =? 0) then Some m else
  if (dst <? src) || (src + n <=? dst) then memcpy m dst src n else
  rep_movsb_down (Z.to_nat n) m (dst + (n - 1)) (src + (n - 1)).

(** Eight bytes at a time while they are equal; where that stops, and what is left. *)
Fixpoint cmp_words (k : nat) (m : mem) (x y n : Z) : option (Z * Z * Z) :=
  match k with
  | O => Some (x, y, n)
  | S k =>
      if n <? 8 then Some (x, y, n) else
      u ← load 8 m x; v ← load 8 m y;
      if bool_decide (u = v) then cmp_words k m (x + 8) (y + 8) (n - 8) else Some (x, y, n)
  end.

Fixpoint cmp_bytes (n : nat) (m : mem) (x y : Z) : option Z :=
  match n with O => Some 0 | S n => a ← m !! x; b ← m !! y; if a =? b then cmp_bytes n m (x + 1) (y + 1) else Some (a - b) end.

Definition memcmp (m : mem) (a b n : Z) : option Z :=
  '(x, y, n) ← cmp_words (Z.to_nat (n / 8)) m a b n; cmp_bytes (Z.to_nat n) m x y.

(** ** Strings *)

Fixpoint strlen (fuel : nat) (m : mem) (s : Z) : option Z :=
  match fuel with O => None | S fuel => c ← m !! s; if c =? 0 then Some 0 else n ← strlen fuel m (s + 1); Some (n + 1) end.

Fixpoint strcmp (fuel : nat) (m : mem) (a b : Z) : option Z :=
  match fuel with
  | O => None
  | S fuel => x ← m !! a; y ← m !! b; if nz x && (x =? y) then strcmp fuel m (a + 1) (b + 1) else Some (x - y)
  end.

Fixpoint strncmp (n : nat) (m : mem) (a b : Z) : option Z :=
  match n with
  | O => Some 0
  | S n => x ← m !! a; y ← m !! b; if nz x && (x =? y) then strncmp n m (a + 1) (b + 1) else Some (x - y)
  end.

Fixpoint strcpy (fuel : nat) (m : mem) (dst src : Z) : option mem :=
  match fuel with O => None | S fuel => c ← m !! src; m ← poke m dst c; if c =? 0 then Some m else strcpy fuel m (dst + 1) (src + 1) end.

(** [ended]: the end of the source was seen, zeros follow. *)
Fixpoint strncpy (n : nat) (ended : bool) (m : mem) (dst src : Z) : option mem :=
  match n with
  | O => Some m
  | S n => c ← (if ended then Some 0 else m !! src); m ← poke m dst c; strncpy n (c =? 0) m (dst + 1) (src + 1)
  end.

Definition strcat (fuel : nat) (m : mem) (dst src : Z) : option mem := n ← strlen fuel m dst; strcpy fuel m (dst + n) src.

(** Where [c] is first in the string; the end for 0; [None] inside is NULL. *)
Fixpoint strchr (fuel : nat) (m : mem) (s c : Z) : option (option Z) :=
  match fuel with
  | O => None
  | S fuel => x ← m !! s; if x =? 0 then Some (if c =? 0 then Some s else None) else if x =? u8 c then Some (Some s) else strchr fuel m (s + 1) c
  end.

(** Does the string at [h] start with the one at [n]? *)
Fixpoint prefix_at (fuel : nat) (m : mem) (h n : Z) : option bool :=
  match fuel with
  | O => None
  | S fuel => x ← m !! n; if x =? 0 then Some true else y ← m !! h; if nz y && (x =? y) then prefix_at fuel m (h + 1) (n + 1) else Some false
  end.

Fixpoint strstr_from (fuel : nat) (m : mem) (h n : Z) : option (option Z) :=
  match fuel with
  | O => None
  | S fuel' => x ← m !! h; if x =? 0 then Some None else b ← prefix_at fuel m h n; if b : bool then Some (Some h) else strstr_from fuel' m (h + 1) n
  end.

Definition strstr (fuel : nat) (m : mem) (hay needle : Z) : option (option Z) :=
  x ← m !! needle; if x =? 0 then Some (Some hay) else strstr_from fuel m hay needle.

(** ** Numbers *)

Fixpoint skip_blanks (fuel : nat) (m : mem) (s : Z) : option Z :=
  match fuel with O => None | S fuel => c ← m !! s; if (c =? 32) || (c =? 9) then skip_blanks fuel m (s + 1) else Some s end.

Fixpoint atoi_digits (fuel : nat) (m : mem) (s v : Z) : option Z :=
  match fuel with O => None | S fuel => c ← m !! s; if (48 <=? c) && (c <=? 57) then atoi_digits fuel m (s + 1) (i32 (v * 10 + (c - 48))) else Some v end.

Definition atoi (fuel : nat) (m : mem) (s : Z) : option Z :=
  s ← skip_blanks fuel m s;
  c ← m !! s;
  v ← atoi_digits fuel m (if (c =? 45) || (c =? 43) then s + 1 else s) 0;
  Some (i32 ((if c =? 45 then -1 else 1) * v)).

(** Swaps the ends of [i .. j] and goes inwards. *)
Fixpoint reverse (fuel : nat) (m : mem) (s i j : Z) : option mem :=
  if i <? j then
    match fuel with
    | O => None
    | S fuel => t ← m !! (s + i); u ← m !! (s + j); m ← poke m (s + i) u; m ← poke m (s + j) t; reverse fuel m s (i + 1) (j - 1)
    end
  else Some m.

Definition digit (d : Z) : Z := if d <? 10 then 48 + d else 87 + d.

(** The digits, the lowest first; how many there are. *)
Fixpoint utoa_digits (fuel : nat) (m : mem) (v buf n base : Z) : option (Z * mem) :=
  if v =? 0 then Some (n, m) else
  match fuel with
  | O => None
  | S fuel => m ← poke m (buf + n) (digit (v mod base)); utoa_digits fuel m (v / base) buf (n + 1) base
  end.

Definition utoa (m : mem) (v buf base : Z) : option mem :=
  if v =? 0 then m ← poke m buf 48; poke m (buf + 1) 0 else
  '(n, m) ← utoa_digits 64 m v buf 0 base;
  m ← poke m (buf + n) 0;
  reverse 64 m buf 0 (n - 1).

Definition itoa (m : mem) (v buf base : Z) : option mem :=
  if (v <? 0) && (base =? 10) then m ← poke m buf 45; utoa m (u32 (- v)) (buf + 1) base else utoa m (u32 v) buf base.

End Str.
