(* ===== verification/StrSpec.v ===== *)
(** * Memory and strings do what they are asked

    [memmove] of [Str] copies whatever overlaps, [memcmp] with its words compares as
    by bytes, and a number written by [itoa] is read by [atoi]. *)

From S2P Require Import Prelude Str.

Module StrSpec.
Import Str.

Definition mapped (m : mem) (a n : Z) : Prop := ∀ x, a ≤ x < a + n → is_Some (m !! x).

(** [m'] is [m] with the [n] bytes at [d] as they were at [s]. *)
Definition copied (m : mem) (d s n : Z) (m' : mem) : Prop := ∀ a, m' !! a = if decide (d ≤ a < d + n) then m !! (a - d + s) else m !! a.

Lemma mapped_sub m a n b k : mapped m a n → a ≤ b → b + k ≤ a + n → mapped m b k.
Proof. intros H H1 H2 x Hx. apply H. lia. Qed.

Lemma poke_ok m a x : is_Some (m !! a) → poke m a x = Some (<[a := x]> m).
Proof. unfold poke. by intros [y ->]. Qed.

Lemma poke_mapped m a x b n : mapped m b n → mapped (<[a := x]> m) b n.
Proof. intros H y Hy. destruct (decide (y = a)) as [->|]; [rewrite lookup_insert_eq; by eexists|]. rewrite lookup_insert_ne by done. by apply H. Qed.

Lemma load_ok k m : ∀ a, mapped m a (Z.of_nat k) → ∃ l, load k m a = Some l ∧ length l = k ∧ ∀ i, (i < k)%nat → l !! i = m !! (a + Z.of_nat i).
Proof.
  induction k as [|k IH]; intros a H; cbn [load]; [exists []; split_and!; try done; lia|]. destruct (H a ltac:(lia)) as [x Hx]. rewrite Hx, bind_some. destruct (IH (a + 1)) as (l & -> & Hl & Hi); [intros y Hy; apply H; lia|]. rewrite bind_some. exists (x :: l). split; [done|]. split; [cbn; lia|].
  intros [|i] Hlt; cbn; [by rewrite Z.add_0_r|]. rewrite Hi by lia. f_equal. lia.
Qed.

Lemma store_ok l : ∀ m a, mapped m a (Z.of_nat (length l)) → ∃ m', store m a l = Some m' ∧ ∀ x, m' !! x = if decide (a ≤ x < a + Z.of_nat (length l)) then l !! Z.to_nat (x - a) else m !! x.
Proof.
  induction l as [|c l IH]; intros m a H; cbn [store length] in *; [exists m; split; [done|]; intros x; rewrite decide_False by lia; done|]. rewrite poke_ok by (apply H; lia). rewrite bind_some. destruct (IH (<[a := c]> m) (a + 1)) as (m' & -> & Hm); [apply poke_mapped; intros y Hy; apply H; lia|]. exists m'. split; [done|].
  intros x. rewrite Hm. destruct (decide (x = a)) as [->|Hx]; [rewrite decide_False by lia; rewrite decide_True by lia; rewrite lookup_insert_eq, Z.sub_diag; done|]. rewrite lookup_insert_ne by done. case_decide; [rewrite decide_True by lia; replace (Z.to_nat (x - a)) with (S (Z.to_nat (x - (a + 1)))) by lia; done|rewrite decide_False by lia; done].
Qed.

Lemma copied_mapped m d s n m' b k : copied m d s n m' → mapped m s n → mapped m b k → mapped m' b k.
Proof. intros Hc Hs H x Hx. rewrite Hc. case_decide; [apply Hs; lia|by apply H]. Qed.

(** One element. *)
Lemma elem_move_ok w m d s : mapped m s (Z.of_nat w) → mapped m d (Z.of_nat w) → ∃ l m', load w m s = Some l ∧ store m d l = Some m' ∧ copied m d s (Z.of_nat w) m'.
Proof.
  intros Hs Hd. destruct (load_ok w m s Hs) as (l & El & Hl & Hi). rewrite <- Hl in Hd. destruct (store_ok l m d Hd) as (m' & Em & Hm). exists l, m'. split; [done|]. split; [done|]. intros a. rewrite Hm, Hl. case_decide; [|done]. rewrite Hi by lia. f_equal. lia.
Qed.

(** First one part, then the next, if the first does not touch the source of the next. *)
Lemma copied_next m m1 m2 d s n k : 0 ≤ n → 0 ≤ k → d ≤ s ∨ s + n + k ≤ d → copied m d s n m1 → copied m1 (d + n) (s + n) k m2 → copied m d s (n + k) m2.
Proof.
  intros Hn Hk Ho H1 H2 a. rewrite H2. case_decide.
  - rewrite H1, decide_False, decide_True by lia. f_equal. lia.
  - rewrite H1. case_decide; [rewrite decide_True by lia; done|rewrite decide_False by lia; done].
Qed.

Lemma rep_movs_ok w n : ∀ m d s, mapped m s (Z.of_nat (n * w)) → mapped m d (Z.of_nat (n * w)) → d ≤ s ∨ s + Z.of_nat (n * w) ≤ d → ∃ m', rep_movs w n m d s = Some m' ∧ copied m d s (Z.of_nat (n * w)) m'.
Proof.
  induction n as [|n IH]; intros m d s Hs Hd Ho; cbn [rep_movs]; [exists m; split; [done|]; intros a; rewrite decide_False by lia; done|]. assert (Z.of_nat (S n * w) = Z.of_nat w + Z.of_nat (n * w)) as En by lia. rewrite En in *.
  destruct (elem_move_ok w m d s) as (l & m1 & -> & E & H1); [by apply (mapped_sub _ _ _ _ _ Hs); lia|by apply (mapped_sub _ _ _ _ _ Hd); lia|]. rewrite bind_some, E, bind_some. assert (mapped m s (Z.of_nat w)) as Hw by (apply (mapped_sub _ _ _ _ _ Hs); lia).
  destruct (IH m1 (d + Z.of_nat w) (s + Z.of_nat w)) as (m2 & -> & H2); [apply (copied_mapped _ _ _ _ _ _ _ H1 Hw); apply (mapped_sub _ _ _ _ _ Hs); lia|apply (copied_mapped _ _ _ _ _ _ _ H1 Hw); apply (mapped_sub _ _ _ _ _ Hd); lia|lia|]. exists m2. split; [done|]. apply (copied_next m m1); (done || lia).
Qed.

Lemma split_n n : 0 ≤ n → Z.shiftr n 3 = n / 8 ∧ Z.land n 7 = n mod 8.
Proof. intros Hn. split; [by rewrite Z.shiftr_div_pow2|]. change 7 with (Z.ones 3). by rewrite Z.land_ones. Qed.

Lemma memcpy_ok m d s n : 0 ≤ n → mapped m s n → mapped m d n → d ≤ s ∨ s + n ≤ d → ∃ m', memcpy m d s n = Some m' ∧ copied m d s n m'.
Proof.
  intros Hn Hs Hd Ho. unfold memcpy. destruct (split_n n Hn) as [-> ->]. cbv zeta. pose proof (Z.div_mod n 8 ltac:(lia)) as Hdm. pose proof (Z.mod_pos_bound n 8 ltac:(lia)). set (q := n / 8) in *. set (r := n mod 8) in *. assert (Z.of_nat (Z.to_nat q * 8) = 8 * q) as E1 by lia. assert (Z.of_nat (Z.to_nat r * 1) = r) as E2 by lia.
  destruct (rep_movs_ok 8 (Z.to_nat q) m d s) as (m1 & -> & H1); [rewrite E1; apply (mapped_sub _ _ _ _ _ Hs); lia|rewrite E1; apply (mapped_sub _ _ _ _ _ Hd); lia|lia|]. rewrite bind_some, E1 in *. assert (mapped m s (8 * q)) as Hw by (apply (mapped_sub _ _ _ _ _ Hs); lia).
  destruct (rep_movs_ok 1 (Z.to_nat r) m1 (d + 8 * q) (s + 8 * q)) as (m2 & -> & H2); [rewrite E2; apply (copied_mapped _ _ _ _ _ _ _ H1 Hw); apply (mapped_sub _ _ _ _ _ Hs); lia|rewrite E2; apply (copied_mapped _ _ _ _ _ _ _ H1 Hw); apply (mapped_sub _ _ _ _ _ Hd); lia|lia|].
  exists m2. split; [done|]. rewrite Hdm, E2 in *. apply (copied_next m m1); (done || lia).
Qed.

Lemma down_ok n : ∀ m d s, mapped m s (Z.of_nat n) → mapped m d (Z.of_nat n) → s ≤ d → ∃ m', rep_movsb_down n m (d + (Z.of_nat n - 1)) (s + (Z.of_nat n - 1)) = Some m' ∧ copied m d s (Z.of_nat n) m'.
Proof.
  induction n as [|n IH]; intros m d s Hs Hd Ho; cbn [rep_movsb_down]; [exists m; split; [done|]; intros a; rewrite decide_False by lia; done|]. replace (d + (Z.of_nat (S n) - 1)) with (d + Z.of_nat n) by lia. replace (s + (Z.of_nat (S n) - 1)) with (s + Z.of_nat n) by lia.
  destruct (Hs (s + Z.of_nat n) ltac:(lia)) as [x Hx]. rewrite Hx, bind_some, poke_ok by (apply Hd; lia). rewrite bind_some. set (m1 := <[d + Z.of_nat n := x]> m). replace (d + Z.of_nat n - 1) with (d + (Z.of_nat n - 1)) by lia. replace (s + Z.of_nat n - 1) with (s + (Z.of_nat n - 1)) by lia.
  destruct (IH m1 d s) as (m' & -> & Hc); [apply poke_mapped; apply (mapped_sub _ _ _ _ _ Hs); lia|apply poke_mapped; apply (mapped_sub _ _ _ _ _ Hd); lia|done|]. exists m'. split; [done|]. intros a. rewrite Hc. unfold m1. case_decide.
  - rewrite lookup_insert_ne, decide_True by lia. done.
  - destruct (decide (a = d + Z.of_nat n)) as [->|Ha]; [rewrite lookup_insert_eq, decide_True by lia; rewrite <- Hx; f_equal; lia|]. rewrite lookup_insert_ne, decide_False by lia. done.
Qed.

Lemma memmove_ok m d s n : 0 ≤ n → mapped m s n → mapped m d n → ∃ m', memmove m d s n = Some m' ∧ copied m d s n m'.
Proof.
  intros Hn Hs Hd. unfold memmove. destruct (Z.eqb_spec d s) as [->|Hds]; [exists m; split; [done|]; intros a; case_decide; [f_equal; lia|done]|]. destruct (Z.eqb_spec n 0) as [->|Hn0]; cbn [orb]; [exists m; split; [done|]; intros a; by rewrite decide_False by lia|].
  destruct (Z.ltb_spec d s); cbn [orb]; [apply memcpy_ok; (done || lia)|]. destruct (Z.leb_spec (s + n) d); [apply memcpy_ok; (done || lia)|]. pose proof (down_ok (Z.to_nat n) m d s) as H'. rewrite Z2Nat.id in H' by lia. apply H'; (done || lia).
Qed.

(** ** Filling *)

Definition filled (m : mem) (d n b : Z) (m' : mem) : Prop := ∀ a, m' !! a = if decide (d ≤ a < d + n) then Some b else m !! a.

Lemma rep_stos_ok w b v : le_bytes w v = replicate w b → ∀ n m d, mapped m d (Z.of_nat (n * w)) → ∃ m', rep_stos w n m d v = Some m' ∧ filled m d (Z.of_nat (n * w)) b m'.
Proof.
  intros Hle. induction n as [|n IH]; intros m d Hm; cbn [rep_stos]; [exists m; split; [done|]; intros a; by rewrite decide_False by lia|]. assert (Z.of_nat (S n * w) = Z.of_nat w + Z.of_nat (n * w)) as En by lia. rewrite En in *. rewrite Hle.
  destruct (store_ok (replicate w b) m d) as (m1 & -> & H1); [rewrite length_replicate; apply (mapped_sub _ _ _ _ _ Hm); lia|]. rewrite bind_some. rewrite length_replicate in H1. assert (filled m d (Z.of_nat w) b m1) as F1 by (intros a; rewrite H1; case_decide; [apply lookup_replicate_2; lia|done]).
  destruct (IH m1 (d + Z.of_nat w)) as (m2 & -> & H2); [intros x Hx; rewrite F1; case_decide; [by eexists|apply Hm; lia]|]. exists m2. split; [done|]. intros a. rewrite H2. case_decide; [rewrite decide_True by lia; done|]. rewrite F1. case_decide; [rewrite decide_True by lia; done|rewrite decide_False by lia; done].
Qed.

(** The pattern has the byte eight times. *)
Lemma pattern_bytes v : le_bytes 8 (u64 (u8 v * 0x0101010101010101)) = replicate 8 (u8 v) ∧ le_bytes 1 (u64 (u8 v * 0x0101010101010101)) = replicate 1 (u8 v).
Proof.
  assert (0 ≤ u8 v < 256) as Hr by (unfold u8; apply Z.mod_pos_bound; lia). revert Hr. generalize (u8 v). intros b Hb. assert (forallb (λ b, bool_decide (le_bytes 8 (u64 (b * 0x0101010101010101)) = replicate 8 b) && bool_decide (le_bytes 1 (u64 (b * 0x0101010101010101)) = replicate 1 b)) (upto 256) = true) as H by (vm_compute; reflexivity).
  rewrite forallb_forall in H. specialize (H b ltac:(apply list_elem_of_In, elem_of_seqZ; lia)). apply andb_true_iff in H as [H1%bool_decide_eq_true H2%bool_decide_eq_true]. done.
Qed.

Lemma memset_ok m d v n : 0 ≤ n → mapped m d n → ∃ m', memset m d v n = Some m' ∧ filled m d n (u8 v) m'.
Proof.
  intros Hn Hm. unfold memset. destruct (split_n n Hn) as [-> ->]. cbv zeta. pose proof (Z.div_mod n 8 ltac:(lia)) as Hdm. pose proof (Z.mod_pos_bound n 8 ltac:(lia)). set (q := n / 8) in *. set (r := n mod 8) in *. assert (Z.of_nat (Z.to_nat q * 8) = 8 * q) as E1 by lia. assert (Z.of_nat (Z.to_nat r * 1) = r) as E2 by lia. destruct (pattern_bytes v) as [P8 P1].
  destruct (rep_stos_ok 8 _ _ P8 (Z.to_nat q) m d) as (m1 & -> & H1); [rewrite E1; apply (mapped_sub _ _ _ _ _ Hm); lia|]. rewrite bind_some, E1 in *. destruct (rep_stos_ok 1 _ _ P1 (Z.to_nat r) m1 (d + 8 * q)) as (m2 & -> & H2); [rewrite E2; intros x Hx; rewrite H1; case_decide; [by eexists|apply Hm; lia]|].
  exists m2. split; [done|]. rewrite E2 in H2. intros a. rewrite H2. case_decide; [rewrite decide_True by lia; done|]. rewrite H1. case_decide; [rewrite decide_True by lia; done|rewrite decide_False by lia; done].
Qed.

(** ** Comparing *)

Lemma cmp_skip m u : ∀ k n x y, load k m x = Some u → load k m y = Some u → cmp_bytes (k + n) m x y = cmp_bytes n m (x + Z.of_nat k) (y + Z.of_nat k).
Proof.
  induction u as [|a u IH]; intros k n x y; destruct k as [|k]; cbn [load cmp_bytes Nat.add]; try (destruct (m !! x); [|done]; destruct (load k m (x + 1)); done).
  - intros _ _. f_equal; lia.
  - done.
  - destruct (m !! x) as [b|]; [|done]. rewrite bind_some. destruct (load k m (x + 1)) as [r|] eqn:E1; [|done]. rewrite bind_some. intros [= -> ->]. destruct (m !! y) as [b|]; [|done]. rewrite bind_some. destruct (load k m (y + 1)) as [r|] eqn:E2; [|done]. rewrite bind_some. intros [= -> ->]. rewrite !bind_some, Z.eqb_refl. rewrite (IH k n (x + 1) (y + 1) E1 E2). f_equal; lia.
Qed.

Lemma cmp_words_ok m : ∀ k x y n, 0 ≤ n → mapped m x n → mapped m y n → ∃ x' y' n', cmp_words k m x y n = Some (x', y', n') ∧ 0 ≤ n' ∧ cmp_bytes (Z.to_nat n') m x' y' = cmp_bytes (Z.to_nat n) m x y.
Proof.
  induction k as [|k IH]; intros x y n Hn Hx Hy; cbn [cmp_words]; [by exists x, y, n|]. destruct (Z.ltb_spec n 8); [by exists x, y, n|]. destruct (load_ok 8 m x) as (u & Eu & _); [apply (mapped_sub _ _ _ _ _ Hx); lia|]. destruct (load_ok 8 m y) as (v & Ev & _); [apply (mapped_sub _ _ _ _ _ Hy); lia|]. rewrite Eu, bind_some, Ev, bind_some.
  case_bool_decide as Huv; [|by exists x, y, n]. subst v. destruct (IH (x + 8) (y + 8) (n - 8)) as (x' & y' & n' & -> & Hn' & Hc); [lia|apply (mapped_sub _ _ _ _ _ Hx); lia|apply (mapped_sub _ _ _ _ _ Hy); lia|]. exists x', y', n'. split; [done|]. split; [done|]. rewrite Hc. replace (Z.to_nat n) with (8 + Z.to_nat (n - 8))%nat by lia. by rewrite (cmp_skip m u 8 _ x y Eu Ev).
Qed.

(** [memcmp] is the comparison by bytes. *)
Lemma memcmp_ok m a b n : 0 ≤ n → mapped m a n → mapped m b n → memcmp m a b n = cmp_bytes (Z.to_nat n) m a b.
Proof. intros Hn Ha Hb. unfold memcmp. destruct (cmp_words_ok m (Z.to_nat (n / 8)) a b n Hn Ha Hb) as (x & y & n' & -> & _ & Hc). by rewrite bind_some. Qed.

(** ** Strings *)

(** The bytes [l], none of them 0, and a 0. *)
Definition cstr (m : mem) (a : Z) (l : list Z) : Prop := (∀ i, (i < length l)%nat → m !! (a + Z.of_nat i) = l !! i) ∧ m !! (a + Z.of_nat (length l)) = Some 0 ∧ Forall (λ c, 0 < c < 256) l.

Lemma cstr_nil m a : cstr m a [] → m !! a = Some 0.
Proof. intros (_ & H & _). by rewrite Z.add_0_r in H. Qed.

Lemma cstr_cons m a c l : cstr m a (c :: l) → m !! a = Some c ∧ 0 < c < 256 ∧ cstr m (a + 1) l.
Proof.
  intros (H1 & H2 & H3). apply Forall_cons in H3 as [Hc H3]. split; [rewrite <- (Z.add_0_r a); apply (H1 0%nat); cbn; lia|]. split; [done|]. split; [|split; [|done]].
  - intros i Hi. replace (a + 1 + Z.of_nat i) with (a + Z.of_nat (S i)) by lia. apply (H1 (S i)). cbn. lia.
  - rewrite <- H2. f_equal. cbn [length]. lia.
Qed.

Lemma strlen_ok m l : ∀ fuel a, cstr m a l → (length l < fuel)%nat → strlen fuel m a = Some (Z.of_nat (length l)).
Proof.
  induction l as [|c l IH]; intros [|fuel] a Hs Hf; cbn [length] in Hf; [lia| |lia|]; cbn [strlen].
  - by rewrite (cstr_nil _ _ Hs), bind_some.
  - destruct (cstr_cons _ _ _ _ Hs) as (-> & Hc & Hs'). rewrite bind_some, (proj2 (Z.eqb_neq c 0)) by lia. rewrite (IH fuel (a + 1) Hs') by lia. rewrite bind_some. f_equal. cbn [length]. lia.
Qed.

(** The order of strings by their first difference. *)
Fixpoint diff (l k : list Z) : Z :=
  match l, k with
  | [], [] => 0 | [], d :: _ => - d | c :: _, [] => c
  | c :: l, d :: k => if c =? d then diff l k else c - d
  end.

Lemma strcmp_ok m l : ∀ k fuel a b, cstr m a l → cstr m b k → (length l < fuel)%nat → strcmp fuel m a b = Some (diff l k).
Proof.
  induction l as [|c l IH]; intros k [|fuel] a b Ha Hb Hf; cbn [length] in Hf; [lia| |lia|]; cbn [strcmp].
  - rewrite (cstr_nil _ _ Ha), bind_some. destruct k as [|d k]; [by rewrite (cstr_nil _ _ Hb), bind_some|]. destruct (cstr_cons _ _ _ _ Hb) as (-> & _). by rewrite bind_some.
  - destruct (cstr_cons _ _ _ _ Ha) as (-> & Hc & Ha'). rewrite bind_some. destruct k as [|d k].
    + rewrite (cstr_nil _ _ Hb), bind_some, (proj2 (Z.eqb_neq c 0)), andb_false_r by lia. cbn. f_equal. lia.
    + destruct (cstr_cons _ _ _ _ Hb) as (-> & Hd & Hb'). rewrite bind_some. cbn [diff]. rewrite (proj2 (nz_true c)) by lia. cbn [andb]. destruct (c =? d); [|done]. apply IH; (done || lia).
Qed.

(** Strings are the same just when [strcmp] says 0. *)
Lemma diff_zero l : ∀ k, Forall (λ c, 0 < c < 256) l → Forall (λ c, 0 < c < 256) k → diff l k = 0 ↔ l = k.
Proof.
  induction l as [|c l IH]; intros [|d k] Hl Hk; cbn [diff]; [done| | |]; rewrite ?Forall_cons in *; [split; [lia|done]|split; [lia|done]|]. destruct (Z.eqb_spec c d) as [->|Hne]; [rewrite IH by naive_solver; naive_solver|]. split; [lia|naive_solver].
Qed.

(** ** Numbers *)

Lemma reverse_ok fuel : ∀ m s i j, j - i < 2 * Z.of_nat fuel + 1 → mapped m (s + i) (j - i + 1) → ∃ m', reverse fuel m s i j = Some m' ∧ ∀ x, m' !! x = if decide (s + i ≤ x ≤ s + j) then m !! (s + i + (s + j) - x) else m !! x.
Proof.
  induction fuel as [|fuel IH]; intros m s i j Hf Hm; cbn [reverse]; destruct (Z.ltb_spec i j) as [Hij|Hij]; try lia.
  1,3: exists m; split; [done|]; intros x; case_decide; [f_equal; lia|done].
  destruct (Hm (s + i) ltac:(lia)) as [t Ht], (Hm (s + j) ltac:(lia)) as [u Hu]. rewrite Ht, bind_some, Hu, bind_some, poke_ok, bind_some, poke_ok by (rewrite ?lookup_insert_ne by lia; by eexists). rewrite bind_some. set (m1 := <[s + j := t]> (<[s + i := u]> m)).
  destruct (IH m1 s (i + 1) (j - 1)) as (m' & -> & Hx); [lia|unfold m1; do 2 apply poke_mapped; apply (mapped_sub _ _ _ _ _ Hm); lia|]. exists m'. split; [done|]. intros x. rewrite Hx. unfold m1. destruct (decide (x = s + i)) as [->|H1]; [rewrite decide_False by lia; rewrite decide_True by lia; rewrite lookup_insert_ne, lookup_insert_eq by lia; rewrite <- Hu; f_equal; lia|].
  destruct (decide (x = s + j)) as [->|H2]; [rewrite decide_False by lia; rewrite decide_True by lia; rewrite lookup_insert_eq, <- Ht; f_equal; lia|]. case_decide; [rewrite decide_True by lia; rewrite !lookup_insert_ne by lia; f_equal; lia|rewrite decide_False by lia; rewrite !lookup_insert_ne by lia; done].
Qed.

(** The digits of a number, the lowest first. *)
Fixpoint digits (fuel : nat) (v base : Z) : list Z := match fuel with O => [] | S fuel => if v =? 0 then [] else v mod base :: digits fuel (v / base) base end.

Lemma digits_value fuel base : 2 ≤ base → ∀ v, 0 ≤ v < base ^ Z.of_nat fuel → foldr (λ d a, a * base + d) 0 (digits fuel v base) = v ∧ Forall (λ d, 0 ≤ d < base) (digits fuel v base).
Proof.
  intros Hb. induction fuel as [|fuel IH]; intros v Hv; cbn [digits]; [split; [cbn in *; lia|constructor]|]. destruct (Z.eqb_spec v 0) as [->|Hv0]; [split; [done|constructor]|]. rewrite Nat2Z.inj_succ, Z.pow_succ_r in Hv by lia. destruct (IH (v / base)) as [H1 H2]; [split; [apply Z.div_pos; lia|apply Z.div_lt_upper_bound; lia]|].
  cbn [foldr]. rewrite H1. split; [rewrite (Z.div_mod v base) at 3 by lia; lia|]. constructor; [apply Z.mod_pos_bound; lia|done].
Qed.

Lemma utoa_digits_ok base : 2 ≤ base → ∀ fuel m v buf n, 0 ≤ v < base ^ Z.of_nat fuel → mapped m (buf + n) (Z.of_nat (length (digits fuel v base))) → let l := digits fuel v base in
  ∃ m', utoa_digits fuel m v buf n base = Some (n + Z.of_nat (length l), m') ∧ ∀ x, m' !! x = if decide (buf + n ≤ x < buf + n + Z.of_nat (length l)) then digit <$> l !! Z.to_nat (x - (buf + n)) else m !! x.
Proof.
  intros Hb. induction fuel as [|fuel IH]; intros m v buf n Hv Hm; cbn [utoa_digits digits] in *; destruct (Z.eqb_spec v 0) as [->|Hv0]; [|cbn in Hv; lia| |].
  1,2: cbn [length]; rewrite Z.add_0_r; exists m; split; [done|]; intros x; by rewrite decide_False by lia.
  cbv zeta. cbn [length] in *. rewrite poke_ok by (apply Hm; lia). rewrite bind_some. rewrite Nat2Z.inj_succ, Z.pow_succ_r in Hv by lia. destruct (IH (<[buf + n := digit (v mod base)]> m) (v / base) buf (n + 1)) as (m' & -> & Hx); [split; [apply Z.div_pos; lia|apply Z.div_lt_upper_bound; lia]|apply poke_mapped; apply (mapped_sub _ _ _ _ _ Hm); lia|].
  exists m'. split; [f_equal; f_equal; lia|]. intros x. rewrite Hx. destruct (decide (x = buf + n)) as [->|Hne]; [rewrite decide_False, decide_True by lia; rewrite lookup_insert_eq, Z.sub_diag; done|]. case_decide; [rewrite decide_True by lia; replace (Z.to_nat (x - (buf + n))) with (S (Z.to_nat (x - (buf + (n + 1))))) by lia; done|rewrite decide_False, lookup_insert_ne by lia; done].
Qed.

(** The digits as they are written. *)
Definition numeral (v base : Z) : list Z := if v =? 0 then [48] else digit <$> rev (digits 64 v base).

Lemma rev_at {A} (l : list A) : ∀ i, (i < length l)%nat → rev l !! i = l !! (length l - S i)%nat.
Proof.
  induction l as [|x l IH]; intros i Hi; cbn [length rev] in *; [lia|]. destruct (decide (i < length l)%nat) as [H|H].
  - rewrite lookup_app_l by (rewrite length_rev; lia). rewrite IH by done. replace (S (length l) - S i)%nat with (S (length l - S i)) by lia. done.
  - rewrite lookup_app_r by (rewrite length_rev; lia). rewrite length_rev. replace (i - length l)%nat with 0%nat by lia. replace (S (length l) - S i)%nat with 0%nat by lia. done.
Qed.

Lemma digit_range d : 0 ≤ d < 16 → 0 < digit d < 256.
Proof. intros Hd. unfold digit. destruct (d <? 10); lia. Qed.

Lemma utoa_ok m v buf base : 2 ≤ base ≤ 16 → 0 ≤ v < 2 ^ 64 → mapped m buf (Z.of_nat (length (numeral v base)) + 1) →
  ∃ m', utoa m v buf base = Some m' ∧ cstr m' buf (numeral v base) ∧ ∀ x, x < buf → m' !! x = m !! x.
Proof.
  intros Hb Hv Hm. unfold utoa, numeral in *. destruct (Z.eqb_spec v 0) as [->|Hv0].
  { cbn [length] in Hm. rewrite poke_ok by (apply Hm; lia). rewrite bind_some, poke_ok by (rewrite lookup_insert_ne by lia; apply Hm; lia). eexists. split; [done|]. split; [|intros x Hx; by rewrite !lookup_insert_ne by lia]. split; [|split; [by rewrite lookup_insert_eq|repeat constructor]]. intros [|i] Hi; [|cbn in Hi; lia]. rewrite Z.add_0_r, lookup_insert_ne by lia. by rewrite lookup_insert_eq. }
  assert (0 ≤ v < base ^ Z.of_nat 64) as Hv' by (split; [lia|]; apply (Z.lt_le_trans _ (2 ^ 64)); [lia|]; apply Z.pow_le_mono_l; lia). set (l := digits 64 v base) in *. rewrite length_fmap, length_rev in Hm. destruct (digits_value 64 base ltac:(lia) v Hv') as [Hval Hr]. fold l in Hval, Hr.
  assert (l ≠ []) as Hl0 by (intros E; rewrite E in Hval; cbn in Hval; lia). assert (0 < length l)%nat as Hl by (destruct l; [done|cbn; lia]). assert (length l ≤ 64)%nat as Hl64. { unfold l. clear. generalize 64%nat v. induction n as [|n IH]; intros w; cbn; [lia|]. destruct (w =? 0); cbn; [lia|]. specialize (IH (w / base)). lia. }
  destruct (utoa_digits_ok base ltac:(lia) 64 m v buf 0 Hv') as (m1 & -> & H1); [fold l; rewrite Z.add_0_r; apply (mapped_sub _ _ _ _ _ Hm); lia|]. fold l in H1 |- *. rewrite Z.add_0_r in H1. rewrite bind_some, Z.add_0_l. assert (mapped m1 buf (Z.of_nat (length l) + 1)) as Hm1. { intros x Hx. rewrite H1. case_decide; [|apply Hm; lia]. destruct (lookup_lt_is_Some_2 l (Z.to_nat (x - buf)) ltac:(lia)) as [d ->]. by eexists. }
  rewrite poke_ok by (apply Hm1; lia). rewrite bind_some. set (m2 := <[buf + Z.of_nat (length l) := 0]> m1). destruct (reverse_ok 64 m2 buf 0 (Z.of_nat (length l) - 1) ltac:(lia)) as (m3 & E3 & H3); [unfold m2; apply poke_mapped; apply (mapped_sub _ _ _ _ _ Hm1); lia|]. exists m3. split; [done|]. split; [split; [|split]|].
  - intros i Hi. rewrite length_fmap, length_rev in Hi. rewrite H3, decide_True by lia. unfold m2. rewrite lookup_insert_ne, H1, decide_True by lia. rewrite list_lookup_fmap. f_equal. rewrite rev_at by lia. f_equal. lia.
  - rewrite length_fmap, length_rev, H3, decide_False by lia. unfold m2. apply lookup_insert_eq.
  - apply Forall_fmap, Forall_rev. eapply Forall_impl; [exact Hr|]. intros d [Hd1 Hd2]. apply digit_range. lia.
  - intros x Hx. rewrite H3, decide_False by lia. unfold m2. rewrite lookup_insert_ne, H1, decide_False by lia. done.
Qed.

Lemma i32_shift x k : i32 (x + k * 2 ^ 32) = i32 x.
Proof. unfold i32. replace (x + k * 2 ^ 32 + 2 ^ 31) with (x + 2 ^ 31 + k * 2 ^ 32) by lia. by rewrite Z.mod_add by lia. Qed.

Lemma i32_is x : ∃ k, i32 x = x + k * 2 ^ 32.
Proof. exists (- ((x + 2 ^ 31) / 2 ^ 32)). unfold i32. rewrite Z.mod_eq by lia. lia. Qed.

Definition dec (v : Z) (ds : list Z) : Z := foldl (λ v d, v * 10 + d) v ds.

Lemma dec_rev l : dec 0 (rev l) = foldr (λ d a, a * 10 + d) 0 l.
Proof. unfold dec. induction l as [|d l IH]; [done|]. cbn [rev foldr]. rewrite foldl_app, IH. done. Qed.

Lemma atoi_digits_ok m ds : ∀ fuel s v, Forall (λ d, 0 ≤ d < 10) ds → cstr m s (digit <$> ds) → (length ds < fuel)%nat → atoi_digits fuel m s (i32 v) = Some (i32 (dec v ds)).
Proof.
  induction ds as [|d ds IH]; intros [|fuel] s v Hd Hs Hf; cbn [length] in Hf; [lia| |lia|]; cbn [atoi_digits].
  - rewrite (cstr_nil _ _ Hs), bind_some. done.
  - apply Forall_cons in Hd as [[Hd1 Hd2] Hd]. cbn [fmap list_fmap] in Hs. destruct (cstr_cons _ _ _ _ Hs) as (-> & _ & Hs'). rewrite bind_some. assert (digit d = 48 + d) as -> by (unfold digit; by rewrite (proj2 (Z.ltb_lt d 10)) by lia). rewrite (proj2 (Z.leb_le 48 _)), (proj2 (Z.leb_le _ 57)) by lia. cbn [andb].
    assert (i32 (i32 v * 10 + (48 + d - 48)) = i32 (v * 10 + d)) as ->. { destruct (i32_is v) as [k ->]. replace ((v + k * 2 ^ 32) * 10 + (48 + d - 48)) with (v * 10 + d + k * 10 * 2 ^ 32) by lia. apply i32_shift. }
    rewrite (IH fuel (s + 1) (v * 10 + d)); (done || lia).
Qed.

Lemma digits_short base fuel : 2 ≤ base → ∀ k v, 0 ≤ v < base ^ Z.of_nat k → (length (digits fuel v base) ≤ k)%nat.
Proof.
  intros Hb. induction fuel as [|fuel IH]; intros k v Hv; cbn [digits]; [cbn; lia|]. destruct (Z.eqb_spec v 0) as [->|Hv0]; [cbn; lia|]. destruct k as [|k]; [cbn in Hv; lia|]. cbn [length]. rewrite Nat2Z.inj_succ, Z.pow_succ_r in Hv by lia. specialize (IH k (v / base)). assert (length (digits fuel (v / base) base) ≤ k)%nat; [|lia]. apply IH. split; [apply Z.div_pos; lia|apply Z.div_lt_upper_bound; lia].
Qed.

(** A decimal number as its digits. *)
Lemma numeral_dec v : 0 ≤ v < 2 ^ 64 → ∃ ds, numeral v 10 = digit <$> ds ∧ Forall (λ d, 0 ≤ d < 10) ds ∧ dec 0 ds = v ∧ ds ≠ [] ∧ (v < 2 ^ 32 → (length ds ≤ 10)%nat).
Proof.
  intros Hv. unfold numeral. destruct (Z.eqb_spec v 0) as [->|Hv0]; [exists [0]; split; [done|]; split; [repeat constructor; lia|]; split; [done|]; split; [done|cbn; lia]|]. destruct (digits_value 64 10 ltac:(lia) v) as [H1 H2]; [split; [lia|]; apply (Z.lt_le_trans _ (2 ^ 64)); [lia|]; by apply Z.pow_le_mono_l|].
  exists (rev (digits 64 v 10)). split; [done|]. split; [by apply Forall_rev|]. split; [by rewrite dec_rev|]. split; [|intros Hs; rewrite length_rev; apply digits_short; [lia|]; split; [lia|]; apply (Z.lt_trans _ (2 ^ 32)); [lia|done]].
  intros E. apply (f_equal (λ l, dec 0 l)) in E. rewrite dec_rev, H1 in E. cbn in E. lia.
Qed.

(** [atoi] of digits, with a sign before them or not. *)
Lemma atoi_ok m s ds (neg : bool) fuel : Forall (λ d, 0 ≤ d < 10) ds → ds ≠ [] → cstr m s ((if neg then [45] else []) ++ (digit <$> ds)) → (length ds < fuel)%nat → atoi fuel m s = Some (i32 ((if neg then -1 else 1) * dec 0 ds)).
Proof.
  intros Hd Hne Hs Hf. unfold atoi. destruct ds as [|d ds]; [done|]. pose proof Hd as [[Hd1 Hd2] _]%Forall_cons. assert (digit d = 48 + d) as Edig by (unfold digit; by rewrite (proj2 (Z.ltb_lt d 10)) by lia). destruct fuel as [|fuel]; [cbn in Hf; lia|].
  assert (∃ c, m !! s = Some c ∧ ((c =? 32) || (c =? 9)) = false ∧ (c =? 45) = neg ∧ ((c =? 45) || (c =? 43)) = neg ∧ cstr m (if neg then s + 1 else s) (digit <$> (d :: ds))) as (c & Hc & E1 & E2 & E3 & Hs').
  { destruct neg; cbn [app] in Hs; [destruct (cstr_cons _ _ _ _ Hs) as (-> & _ & Hs'); by exists 45|]. cbn [fmap list_fmap] in *. destruct (cstr_cons _ _ _ _ Hs) as (-> & _ & _). rewrite Edig. exists (48 + d). split; [done|]. rewrite !(proj2 (Z.eqb_neq (48 + d) _)) by lia. by rewrite <- Edig. }
  cbn [skip_blanks]. rewrite Hc, bind_some, E1, bind_some, Hc, bind_some, E3, E2. pose proof (atoi_digits_ok m (d :: ds) (S fuel) (if neg then s + 1 else s) 0 Hd Hs' Hf) as Ed. change (i32 0) with 0 in Ed. rewrite Ed, bind_some. f_equal. destruct (i32_is (dec 0 (d :: ds))) as [k ->]. rewrite Z.mul_add_distr_l. replace ((if neg then -1 else 1) * (k * 2 ^ 32)) with ((if neg then -1 else 1) * k * 2 ^ 32) by lia. apply i32_shift.
Qed.

Lemma atoi_itoa_ok m v buf fuel : - 2 ^ 31 ≤ v < 2 ^ 31 → mapped m buf 12 → (11 < fuel)%nat → ∃ m', itoa m v buf 10 = Some m' ∧ atoi fuel m' buf = Some v.
Proof.
  intros Hv Hm Hf. unfold itoa. change (10 =? 10) with true. rewrite andb_true_r. destruct (Z.ltb_spec v 0) as [Hneg|Hpos].
  - rewrite poke_ok by (apply Hm; lia). rewrite bind_some. assert (u32 (- v) = - v) as -> by (unfold u32; apply Z.mod_small; lia). destruct (numeral_dec (- v) ltac:(lia)) as (ds & En & Hd & Hval & Hne & Hlen). specialize (Hlen ltac:(lia)).
    destruct (utoa_ok (<[buf := 45]> m) (- v) (buf + 1) 10) as (m' & -> & Hs & Hx); [lia|lia|apply poke_mapped; rewrite En, length_fmap; apply (mapped_sub _ _ _ _ _ Hm); lia|]. exists m'. split; [done|]. rewrite En in Hs. rewrite (atoi_ok m' buf ds true fuel Hd Hne); [rewrite Hval, i32_small by lia; f_equal; lia| |lia].
    destruct Hs as (S1 & S2 & S3). split; [|split].
    + intros [|i] Hi; cbn in *; [rewrite Z.add_0_r, Hx, lookup_insert_eq by lia; done|]. replace (buf + Z.of_nat (S i)) with (buf + 1 + Z.of_nat i) by lia. apply S1. lia.
    + rewrite <- S2. f_equal. cbn [app length]. lia.
    + constructor; [lia|done].
  - assert (u32 v = v) as -> by (unfold u32; apply Z.mod_small; lia). destruct (numeral_dec v ltac:(lia)) as (ds & En & Hd & Hval & Hne & Hlen). specialize (Hlen ltac:(lia)). destruct (utoa_ok m v buf 10) as (m' & -> & Hs & _); [lia|lia|rewrite En, length_fmap; apply (mapped_sub _ _ _ _ _ Hm); lia|].
    exists m'. split; [done|]. rewrite En in Hs. rewrite (atoi_ok m' buf ds false fuel Hd Hne); [rewrite Hval, i32_small by lia; f_equal; lia|done|lia].
Qed.

(** ** Claims *)

(** C37: [memmove] copies [n] bytes whatever way source and destination overlap: it stays in the two ranges, the bytes of the destination are those the source had before, and no other byte changes; copying upwards by words of eight bytes, and downwards by bytes when the destination starts inside the source. *)
Theorem memmove_exact m d s n (Hn : 0 ≤ n) (Hs : mapped m s n) (Hd : mapped m d n) :
  ∃ m', memmove m d s n = Some m' ∧ ∀ a, m' !! a = if decide (d ≤ a < d + n) then m !! (a - d + s) else m !! a.
Proof. exact (memmove_ok m d s n Hn Hs Hd). Qed.

(** Twenty bytes 0, 1, ... at 100. *)
Definition ramp : mem := list_to_map ((λ i, (100 + i, i)) <$> upto 20).

Lemma memmove_exact_witness : ∃ m', memmove ramp 103 100 10 = Some m' ∧ load 13 m' 100 = Some [0; 1; 2; 0; 1; 2; 3; 4; 5; 6; 7; 8; 9] ∧ ∀ a, m' !! a = if decide (103 ≤ a < 103 + 10) then ramp !! (a - 103 + 100) else ramp !! a.
Proof.
  assert (∀ b n, 100 ≤ b → b + n ≤ 120 → mapped ramp b n) as Hm. { intros b n H1 H2 x Hx. assert (forallb (λ i, bool_decide (is_Some (ramp !! (100 + i)))) (upto 20) = true) as Hf by (vm_compute; reflexivity). rewrite forallb_forall in Hf. specialize (Hf (x - 100) ltac:(apply list_elem_of_In, elem_of_seqZ; lia)). apply bool_decide_eq_true_1 in Hf. by replace (100 + (x - 100)) with x in Hf by lia. }
  destruct (memmove_exact ramp 103 100 10 ltac:(lia) (Hm 100 10 ltac:(lia) ltac:(lia)) (Hm 103 10 ltac:(lia) ltac:(lia))) as (m' & E & H). exists m'. split; [exact E|]. split; [|exact H]. assert ((m' ← memmove ramp 103 100 10; load 13 m' 100) = Some [0; 1; 2; 0; 1; 2; 3; 4; 5; 6; 7; 8; 9]) as El by (vm_compute; reflexivity). rewrite E in El. exact El.
Defined.

(** Reading a number back: for every [int], the least one too, [itoa] in base 10 writes it inside twelve bytes, and [atoi] of what was written is the number. *)
Theorem atoi_itoa m v buf fuel (Hv : - 2 ^ 31 ≤ v < 2 ^ 31) (Hm : mapped m buf 12) (Hf : (11 < fuel)%nat) : ∃ m', itoa m v buf 10 = Some m' ∧ atoi fuel m' buf = Some v.
Proof. exact (atoi_itoa_ok m v buf fuel Hv Hm Hf). Qed.

Lemma atoi_itoa_witness : ∃ m', itoa ramp (- 2 ^ 31) 100 10 = Some m' ∧ atoi 12 m' 100 = Some (- 2 ^ 31).
Proof.
  apply (atoi_itoa ramp (- 2 ^ 31) 100 12); [lia| |lia]. intros x Hx. assert (forallb (λ i, bool_decide (is_Some (ramp !! (100 + i)))) (upto 20) = true) as Hf by (vm_compute; reflexivity). rewrite forallb_forall in Hf. specialize (Hf (x - 100) ltac:(apply list_elem_of_In, elem_of_seqZ; lia)). apply bool_decide_eq_true_1 in Hf. by replace (100 + (x - 100)) with x in Hf by lia.
Defined.

End StrSpec.
