(* ===== verification/Part.v ===== *)
(** * Partitions (src/src/fs/part.c, the partition table of src/src/drivers/ata.c)

    [part_scan] reads the partition table of a disk, MBR with a chain of extended
    boot records or GPT, and enters the partitions in the table [parts]; reads and
    writes of a partition go to its disk.  The driver is a parameter: the bytes of a
    sector, or a failed read.  The names of partitions are not modelled. *)

From S2P Require Import Prelude.

Module Part.

Definition DISK_PART_BASE : Z := 16.
Definition DISK_MAX : Z := 48.

Record part_t := Entry { used : bool; parent : Z; num : Z; start : Z; len : Z }.

Abbreviation table := (list part_t).

Definition ata_part_add (s : table) (par st ln nm : Z) : option (Z * table) :=
  match first_some (λ i, match s.[i] with Some p => if used p then None else Some i | None => None end) (upto (DISK_MAX - DISK_PART_BASE)) with
  | Some i => s ← s.[i <- Entry true par nm st ln]; Some (DISK_PART_BASE + i, s)
  | None => Some (-1, s)
  end.

Definition ata_part_clear (s : table) (par : Z) : table :=
  map (λ p, if used p && (parent p =? par) then {| p with used := false |} else p) s.

Definition ata_part_info (s : table) (idx : Z) : option (option (Z * Z * Z)) :=
  if (idx <? DISK_PART_BASE) || (DISK_MAX <=? idx) then Some None else
  p ← s.[idx - DISK_PART_BASE];
  Some (if used p then Some (parent p, start p, num p) else None).

(** Where a read or write of [count] sectors at [lba] of a partition goes; the code tests 32-bit sums. *)
Definition part_lba (s : table) (idx lba count : Z) : option (option (Z * Z)) :=
  p ← s.[idx - DISK_PART_BASE];
  Some (if negb (used p) || (len p <? u32 (lba + u32 count)) then None else Some (parent p, u32 (start p + lba))).

Section scan.
(** The sector of a disk at an address, if it can be read. *)
Context (dev : Z → Z → option (list Z)).

Definition r32 (b : list Z) (o : Z) : option Z :=
  a0 ← b.[o]; a1 ← b.[o + 1]; a2 ← b.[o + 2]; a3 ← b.[o + 3];
  Some (Z.lor (Z.lor (Z.lor a0 (Z.shiftl a1 8)) (Z.shiftl a2 16)) (Z.shiftl a3 24)).

(** Do the bytes at [o] equal [w]? ([memcmp]) *)
Fixpoint same_at (b : list Z) (o : Z) (w : list Z) : option bool :=
  match w with [] => Some true | c :: w => a ← b.[o]; if a =? c then same_at b (o + 1) w else Some false end.

Fixpoint zeros (k : nat) (b : list Z) (o : Z) : option bool :=
  match k with O => Some true | S k => a ← b.[o]; r ← zeros k b (o + 1); Some ((a =? 0) && r) end.

(** The entries from [i] on, [k] of them; [e] is the sector read last. *)
Fixpoint gpt_loop (k : nat) (d total lba sz i : Z) (e : list Z) (s : table) (n : Z) : option (Z * table) :=
  match k with
  | O => Some (n, s)
  | S k =>
      let off := u32 (i * sz) in
      let next_e := if (i =? 0) || (off mod 512 =? 0) then dev d (u32 (lba + off / 512)) else Some e in
      match next_e with
      | None => Some (n, s)
      | Some e =>
          let p := off mod 512 in
          z ← zeros 16 e p;
          if z : bool then gpt_loop k d total lba sz (i + 1) e s n else
          st ← r32 e (p + 32); en ← r32 e (p + 40); sh ← r32 e (p + 36);
          hi ← (if nz sh then Some 1 else r32 e (p + 44));
          if nz hi || (en <? st) || (total <=? en) then gpt_loop k d total lba sz (i + 1) e s n else
          '(r, s) ← ata_part_add s d st (u32 (u32 (en - st) + 1)) (i + 1);
          gpt_loop k d total lba sz (i + 1) e s (if 0 <=? r then n + 1 else n)
      end
  end.

(** "EFI PART" *)
Definition scan_gpt (s : table) (d total : Z) : option (Z * table) :=
  match dev d 1 with
  | None => Some (0, s)
  | Some h =>
      g ← same_at h 0 [69; 70; 73; 32; 80; 65; 82; 84];
      if negb g then Some (0, s) else
      lba ← r32 h 72; cnt ← r32 h 80; sz ← r32 h 84;
      if (sz <? 128) || (512 <? sz) || (256 <? cnt) then Some (0, s) else
      gpt_loop (Z.to_nat cnt) d total lba sz 0 (replicate 512 0) s 0
  end.

(** The chain of extended boot records from [cur] on, at most [k] more; [j] is the number of the next partition. *)
Fixpoint ebr_loop (k : nat) (d total eb cur j : Z) (s : table) (n : Z) : option (Z * table) :=
  match k with
  | O => Some (n, s)
  | S k =>
      match dev d cur with
      | None => Some (n, s)
      | Some b =>
          g ← same_at b 510 [0x55; 0xAA];
          if negb g then Some (n, s) else
          ls ← r32 b (446 + 8); ll ← r32 b (446 + 12); ty ← b.[446 + 4];
          '(n, s) ← (if nz ty && nz ll && (u32 (u32 (cur + ls) + ll) <=? total)
                     then '(r, s) ← ata_part_add s d (u32 (cur + ls)) ll j; Some (if 0 <=? r then n + 1 else n, s)
                     else Some (n, s));
          ns ← r32 b (462 + 8); ty ← b.[462 + 4];
          if (ty =? 0) || (ns =? 0) then Some (n, s) else ebr_loop k d total eb (u32 (eb + ns)) (j + 1) s n
      end
  end.

(** Is there a GPT behind the MBR?  [None] inside: this is no MBR. *)
Fixpoint mbr_kind (k : nat) (m : list Z) (i : Z) : option (option bool) :=
  match k with
  | O => Some (Some false)
  | S k =>
      a ← m.[i * 16];
      if nz (Z.land a 0x7f) then Some None else
      t ← m.[i * 16 + 4];
      if t =? 0xEE then Some (Some true) else mbr_kind k m (i + 1)
  end.

Definition extended (t : Z) : bool := (t =? 5) || (t =? 0x0f) || (t =? 0x85).

Fixpoint mbr_loop (k : nat) (d total : Z) (m : list Z) (i : Z) (s : table) (n : Z) : option (Z * table) :=
  match k with
  | O => Some (n, s)
  | S k =>
      let p := i * 16 in
      st ← r32 m (p + 8); ln ← r32 m (p + 12); t ← m.[p + 4];
      if (t =? 0) || (ln =? 0) || (total <? u32 (st + ln)) || (u32 (st + ln) <? st) then mbr_loop k d total m (i + 1) s n else
      '(n, s) ← (if extended t then ebr_loop 32 d total st st 5 s n
                 else '(r, s) ← ata_part_add s d st ln (i + 1); Some (if 0 <=? r then n + 1 else n, s));
      mbr_loop k d total m (i + 1) s n
  end.

(** "FAT" and "FAT32"; [total] is the size of the disk ([ata_drive_sectors]). *)
Definition part_scan (s : table) (d total : Z) : option (Z * table) :=
  match dev d 0 with
  | None => Some (0, s)
  | Some b =>
      g ← same_at b 510 [0x55; 0xAA];
      if negb g then Some (0, s) else
      f ← same_at b 54 [70; 65; 84];
      f ← (if f : bool then Some true else same_at b 82 [70; 65; 84; 51; 50]);
      if f : bool then Some (0, s) else
      let m := firstn 64 (skipn 446 b) in
      k ← mbr_kind 4 m 0;
      match k with
      | None => Some (0, s)
      | Some true => scan_gpt s d total
      | Some false => mbr_loop 4 d total m 0 s 0
      end
  end.

End scan.

End Part.
