(* ===== verification/PartSpec.v ===== *)
(** * What a scan of partitions makes

    Whatever is on a disk, the scan of [Part] ends and reads inside its sectors (if
    the entries of a GPT do not straddle sectors), the partitions it makes are on
    the disk, and it finds the ones there are; where it does not hold is shown on
    examples. *)

From S2P Require Import Prelude Part.

Module PartSpec.
Import Part.

Definition bytes (b : list Z) : Prop := Forall (λ x, 0 ≤ x < 2 ^ 8) b.
Definition sector (b : list Z) : Prop := length b = 512%nat ∧ bytes b.

Lemma sector_byte b o : bytes b → 0 ≤ o < Z.of_nat (length b) → ∃ a, b.[o] = Some a ∧ 0 ≤ a < 2 ^ 8.
Proof. intros Hb Ho. destruct (arr_get_is_Some b o Ho) as [a Ha]. exists a. split; [done|]. apply arr_get_elem in Ha. by apply (proj1 (Forall_forall _ _) Hb). Qed.

Lemma shift_range a n : 0 ≤ a < 2 ^ 8 → 0 ≤ n ≤ 24 → 0 ≤ Z.shiftl a n < 2 ^ 32.
Proof. intros Ha Hn. rewrite Z.shiftl_mul_pow2 by lia. assert (0 < 2 ^ n) by (apply Z.pow_pos_nonneg; lia). assert (2 ^ n ≤ 2 ^ 24) by (apply Z.pow_le_mono_r; lia). change (2 ^ 32) with (2 ^ 8 * 2 ^ 24). nia. Qed.

Lemma r32_ok b o : bytes b → 0 ≤ o → o + 4 ≤ Z.of_nat (length b) → ∃ v, r32 b o = Some v ∧ 0 ≤ v < 2 ^ 32.
Proof.
  intros Hb H1 H2. unfold r32. destruct (sector_byte b o Hb ltac:(lia)) as (a0 & -> & R0), (sector_byte b (o + 1) Hb ltac:(lia)) as (a1 & -> & R1), (sector_byte b (o + 2) Hb ltac:(lia)) as (a2 & -> & R2), (sector_byte b (o + 3) Hb ltac:(lia)) as (a3 & -> & R3).
  eexists. split; [reflexivity|]. repeat (apply lor_range; [lia| |apply shift_range; lia]). lia.
Qed.

Lemma same_at_ok b w : ∀ o, 0 ≤ o → o + Z.of_nat (length w) ≤ Z.of_nat (length b) → ∃ g, same_at b o w = Some g.
Proof.
  induction w as [|c w IH]; intros o H1 H2; cbn [same_at length] in *; [by eexists|]. destruct (arr_get_is_Some b o ltac:(lia)) as [a ->]. rewrite bind_some. destruct (a =? c); [|by eexists]. apply IH; lia.
Qed.

Lemma zeros_ok k b : ∀ o, 0 ≤ o → o + Z.of_nat k ≤ Z.of_nat (length b) → ∃ z, zeros k b o = Some z.
Proof.
  induction k as [|k IH]; intros o H1 H2; cbn [zeros]; [by eexists|]. destruct (arr_get_is_Some b o ltac:(lia)) as [a ->]. rewrite bind_some. destruct (IH (o + 1) ltac:(lia) ltac:(lia)) as [z ->]. by eexists.
Qed.

(** ** The table *)

Definition full (s : table) : Prop := ∀ i p, s.[i] = Some p → used p = true.

(** Entries in use stay; a new one is of disk [d] and has [Q]. *)
Record grew (d : Z) (Q : part_t → Prop) (s s' : table) (n : Z) : Prop := {
  g_len : length s' = length s;
  g_old : ∀ i p, s.[i] = Some p → used p = true → s'.[i] = Some p;
  g_new : ∀ i p, s'.[i] = Some p → used p = true → s.[i] = Some p ∨ parent p = d ∧ Q p;
  g_num : countb used s' = countb used s + n
}.

Lemma grew_refl d Q s : grew d Q s s 0.
Proof. split; auto with lia. Qed.

Lemma grew_trans d Q s1 s2 s3 n m : grew d Q s1 s2 n → grew d Q s2 s3 m → grew d Q s1 s3 (n + m).
Proof.
  intros [A1 A2 A3 A4] [B1 B2 B3 B4]. split; [congruence|auto| |lia]. intros i p Hp Hu. destruct (B3 i p Hp Hu) as [H|H]; auto.
Qed.

Lemma grew_full d Q s s' n : grew d Q s s' n → full s → full s'.
Proof.
  intros H Hf i p Hp. pose proof (arr_get_range _ _ _ Hp) as Hr. rewrite (g_len _ _ _ _ _ H) in Hr. destruct (arr_get_is_Some s i Hr) as [p0 Hp0]. pose proof (Hf i p0 Hp0) as Hu. pose proof (g_old _ _ _ _ _ H i p0 Hp0 Hu). congruence.
Qed.

Lemma ata_part_add_ok d Q s st ln nm : length s = 32%nat → Q (Entry true d nm st ln) →
  ∃ r s', ata_part_add s d st ln nm = Some (r, s') ∧ grew d Q s s' (if 0 <=? r then 1 else 0) ∧ ((∃ i, s'.[i] = Some (Entry true d nm st ln)) ∨ full s').
Proof.
  intros Hs HQ. unfold ata_part_add. match goal with |- context [first_some ?g _] => set (f := g) end. assert (∀ l i, first_some f l = Some i → ∃ p, s.[i] = Some p ∧ used p = false) as H1.
  { intros l i. induction l as [|x l IH]; cbn; [done|]. destruct (f x) as [j|] eqn:Ef; [|done]. intros [= <-]. unfold f in Ef. destruct (s.[x]) as [p|] eqn:Ep; [|done]. destruct (used p) eqn:Eu; [done|]. injection Ef as <-. by exists p. }
  assert (∀ l, first_some f l = None → ∀ i p, i ∈ l → s.[i] = Some p → used p = true) as H2.
  { induction l as [|x l IH]; cbn; intros H i p Hi Hp; [by apply elem_of_nil in Hi|]. destruct (f x) eqn:Ef; [done|]. apply elem_of_cons in Hi as [->|Hi]; [|by apply (IH H i)]. unfold f in Ef. rewrite Hp in Ef. by destruct (used p). }
  destruct (first_some f (upto (DISK_MAX - DISK_PART_BASE))) as [i|] eqn:E.
  - destruct (H1 _ _ E) as (p0 & Hp0 & Hu0). pose proof (arr_get_range _ _ _ Hp0) as Hr. set (q := Entry true d nm st ln) in *. assert (s.[i <- q] = Some (<[Z.to_nat i := q]> s)) as Es by (by apply arr_set_Some). rewrite Es, bind_some. eexists _, _. split; [reflexivity|]. rewrite (proj2 (Z.leb_le 0 (DISK_PART_BASE + i))) by (unfold DISK_PART_BASE; lia). split; [|left; exists i; by rewrite (arr_get_set _ _ _ _ _ Es), decide_True].
    split; [by rewrite length_insert| | |].
    + intros j p Hp Hu. rewrite (arr_get_set _ _ _ _ _ Es). case_decide as Hj; [subst j; congruence|done].
    + intros j p Hp Hu. rewrite (arr_get_set _ _ _ _ _ Es) in Hp. case_decide as Hj; [injection Hp as <-; by right|by left].
    + apply arr_get_Some in Hp0 as [_ Hl]. rewrite (countb_insert _ _ _ p0) by done. rewrite Hu0. cbn. lia.
  - exists (-1), s. split; [done|]. split; [apply grew_refl|right]. intros i p Hp. apply (H2 _ E i p); [|done]. pose proof (arr_get_range _ _ _ Hp). apply elem_of_seqZ. unfold DISK_MAX, DISK_PART_BASE. lia.
Qed.

(** ** Where partitions are *)

(** On the disk; on the disk if the sum is taken in 32 bits. *)
Definition fits (total : Z) (p : part_t) : Prop := 0 ≤ start p ∧ 1 ≤ len p ∧ start p + len p ≤ total.
Definition fits32 (total : Z) (p : part_t) : Prop := 0 ≤ start p < 2 ^ 32 ∧ 1 ≤ len p < 2 ^ 32 ∧ u32 (start p + len p) ≤ total.
Definition placed (total : Z) (p : part_t) : Prop := fits total p ∨ 5 ≤ num p ∧ fits32 total p.

Lemma u32_cases x : 0 ≤ x < 2 ^ 33 → u32 x = x ∧ x < 2 ^ 32 ∨ u32 x = x - 2 ^ 32 ∧ 2 ^ 32 ≤ x.
Proof.
  intros Hx. unfold u32. destruct (Z.lt_ge_cases x (2 ^ 32)); [left; rewrite Z.mod_small; lia|right]. split; [|done]. symmetry. apply (Z.mod_unique x (2 ^ 32) 1); lia.
Qed.

Lemma u32_bound x : 0 ≤ u32 x < 2 ^ 32.
Proof. unfold u32. apply Z.mod_pos_bound. lia. Qed.

Section scan.
Context (dev : Z → Z → option (list Z)) (d total : Z).
Hypothesis (Hdev : ∀ l b, dev d l = Some b → sector b) (Htotal : 0 ≤ total < 2 ^ 32).

Lemma step_of i sz : 0 ≤ i → sz = 128 ∨ sz = 256 ∨ sz = 512 → 0 ≤ u32 (i * sz) mod 512 ≤ 384.
Proof. clear. unfold u32. intros Hi [-> | [-> | ->]]; Z.to_euclidean_division_equations; lia. Qed.

Lemma gpt_loop_ok lba sz : sz = 128 ∨ sz = 256 ∨ sz = 512 → ∀ k i e s n, 0 ≤ i → length s = 32%nat → sector e → ∃ n' s', gpt_loop dev k d total lba sz i e s n = Some (n', s') ∧ grew d (placed total) s s' (n' - n).
Proof.
  intros Hsz. induction k as [|k IH]; intros i e s n Hi Hs He; cbn [gpt_loop]; [exists n, s; split; [done|]; rewrite Z.sub_diag; apply grew_refl|]. cbv zeta.
  match goal with |- context [if ?c then dev d ?q else Some e] => set (ne := if c then dev d q else Some e) end. assert (∀ e', ne = Some e' → sector e') as Hne by (unfold ne; intros e'; destruct (_ || _); [apply Hdev|by intros [= <-]]). destruct ne as [e'|]; [|exists n, s; split; [done|]; rewrite Z.sub_diag; apply grew_refl]. destruct (Hne e' eq_refl) as [Hlen Hby].
  pose proof (step_of i sz Hi Hsz) as Hp. set (p := u32 (i * sz) mod 512) in *. destruct (zeros_ok 16 e' p ltac:(lia) ltac:(lia)) as [z ->]. rewrite bind_some. destruct z; [apply IH; (done || lia)|].
  destruct (r32_ok e' (p + 32) Hby ltac:(lia) ltac:(lia)) as (st & -> & Rst). rewrite bind_some. destruct (r32_ok e' (p + 40) Hby ltac:(lia) ltac:(lia)) as (en & -> & Ren). rewrite bind_some. destruct (r32_ok e' (p + 36) Hby ltac:(lia) ltac:(lia)) as (sh & -> & _). rewrite bind_some.
  destruct (r32_ok e' (p + 44) Hby ltac:(lia) ltac:(lia)) as (eh & -> & _). assert (∃ hi, (if nz sh then Some 1 else Some eh) = Some hi) as [hi ->] by (destruct (nz sh); by eexists). rewrite bind_some. destruct (nz hi); cbn [orb]; [apply IH; (done || lia)|]. destruct (Z.ltb_spec en st); cbn [orb]; [apply IH; (done || lia)|]. destruct (Z.leb_spec total en); [apply IH; (done || lia)|].
  assert (u32 (u32 (en - st) + 1) = en - st + 1) as El by (unfold u32; rewrite (Z.mod_small (en - st)) by lia; apply Z.mod_small; lia). rewrite El. destruct (ata_part_add_ok d (placed total) s st (en - st + 1) (i + 1) Hs) as (r & s1 & -> & Hg & _); [left; unfold fits; cbn [start len num]; lia|]. rewrite bind_some.
  destruct (IH (i + 1) e' s1 (if 0 <=? r then n + 1 else n)) as (n' & s' & -> & Hg'); [lia|by rewrite (g_len _ _ _ _ _ Hg)|done|]. exists n', s'. split; [done|]. pose proof (grew_trans _ _ _ _ _ _ _ Hg Hg') as H2. destruct (0 <=? r); [replace (n' - n) with (1 + (n' - (n + 1))) by lia|replace (n' - n) with (0 + (n' - n)) by lia]; done.
Qed.

Lemma ebr_loop_ok eb : ∀ k cur j s n, 5 ≤ j → length s = 32%nat → ∃ n' s', ebr_loop dev k d total eb cur j s n = Some (n', s') ∧ grew d (placed total) s s' (n' - n).
Proof.
  assert (∀ s n, ∃ n' s', Some (n, s) = Some (n', s') ∧ grew d (placed total) s s' (n' - n)) as Hstop by (intros s n; exists n, s; split; [done|]; rewrite Z.sub_diag; apply grew_refl).
  induction k as [|k IH]; intros cur j s n Hj Hs; cbn [ebr_loop]; [apply Hstop|]. destruct (dev d cur) as [b|] eqn:Eb; [|apply Hstop]. destruct (Hdev _ _ Eb) as [Hlen Hby]. destruct (same_at_ok b [0x55; 0xAA] 510 ltac:(lia) ltac:(cbn; lia)) as [g ->]. rewrite bind_some. destruct g; cbn [negb]; [|apply Hstop].
  destruct (r32_ok b (446 + 8) Hby ltac:(lia) ltac:(lia)) as (ls & -> & Rls). rewrite bind_some. destruct (r32_ok b (446 + 12) Hby ltac:(lia) ltac:(lia)) as (ll & -> & Rll). rewrite bind_some. destruct (sector_byte b (446 + 4) Hby ltac:(lia)) as (ty & -> & _). rewrite bind_some.
  match goal with |- context [if ?c then '(r, s) ← ata_part_add s d _ _ _; _ else _] => set (cond := c) end.
  assert (∃ n1 s1, (if cond then '(r, s) ← ata_part_add s d (u32 (cur + ls)) ll j; Some (if 0 <=? r then n + 1 else n, s) else Some (n, s)) = Some (n1, s1) ∧ grew d (placed total) s s1 (n1 - n)) as (n1 & s1 & -> & Hg).
  { destruct cond eqn:Ec; [|apply Hstop]. unfold cond in Ec. apply andb_true_iff in Ec as [[_ Hll%nz_true]%andb_true_iff Hsum%Z.leb_le]. pose proof (u32_bound (cur + ls)). destruct (ata_part_add_ok d (placed total) s (u32 (cur + ls)) ll j Hs) as (r & s1 & -> & Hg & _); [right; unfold fits32; cbn [start len num]; lia|].
    rewrite bind_some. eexists _, s1. split; [reflexivity|]. destruct (0 <=? r); [by replace (n + 1 - n) with 1 by lia|by rewrite Z.sub_diag]. }
  rewrite bind_some. destruct (r32_ok b (462 + 8) Hby ltac:(lia) ltac:(lia)) as (ns & -> & _). rewrite bind_some. destruct (sector_byte b (462 + 4) Hby ltac:(lia)) as (t2 & -> & _). rewrite bind_some. destruct ((t2 =? 0) || (ns =? 0)); [by exists n1, s1|].
  destruct (IH (u32 (eb + ns)) (j + 1) s1 n1) as (n' & s' & -> & Hg'); [lia|by rewrite (g_len _ _ _ _ _ Hg)|]. exists n', s'. split; [done|]. replace (n' - n) with (n1 - n + (n' - n1)) by lia. by apply (grew_trans _ _ _ s1).
Qed.

(** An entry of the MBR for an ordinary partition on the disk. *)
Definition primary (m : list Z) (i st ln : Z) : Prop := ∃ t, r32 m (i * 16 + 8) = Some st ∧ r32 m (i * 16 + 12) = Some ln ∧ m.[i * 16 + 4] = Some t ∧ t ≠ 0 ∧ extended t = false ∧ ln ≠ 0 ∧ st + ln ≤ total.

Lemma mbr_loop_ok m : bytes m → length m = 64%nat → ∀ k i s n, 0 ≤ i → i + Z.of_nat k = 4 → length s = 32%nat →
  ∃ n' s', mbr_loop dev k d total m i s n = Some (n', s') ∧ grew d (placed total) s s' (n' - n) ∧ ∀ j st ln, i ≤ j < 4 → primary m j st ln → (∃ a, s'.[a] = Some (Entry true d (j + 1) st ln)) ∨ full s'.
Proof.
  intros Hby Hlen. induction k as [|k IH]; intros i s n Hi Hk Hs; cbn [mbr_loop]; [exists n, s; split; [done|]; rewrite Z.sub_diag; split; [apply grew_refl|lia]|]. cbv zeta.
  destruct (r32_ok m (i * 16 + 8) Hby ltac:(lia) ltac:(lia)) as (st & Est & Rst). rewrite Est, bind_some. destruct (r32_ok m (i * 16 + 12) Hby ltac:(lia) ltac:(lia)) as (ln & Eln & Rln). rewrite Eln, bind_some. destruct (sector_byte m (i * 16 + 4) Hby ltac:(lia)) as (t & Et & _). rewrite Et, bind_some.
  pose proof (u32_cases (st + ln) ltac:(lia)) as Hu. destruct (_ || _) eqn:Es at 1.
  - destruct (IH (i + 1) s n ltac:(lia) ltac:(lia) Hs) as (n' & s' & -> & Hg & Hf). exists n', s'. split; [done|]. split; [done|]. intros j st' ln' Hj Hpr. destruct (decide (j = i)) as [->|]; [|apply Hf; [lia|done]]. destruct Hpr as (t' & P1 & P2 & P3 & P4 & P5 & P6 & P7). exfalso.
    assert (st' = st ∧ ln' = ln ∧ t' = t) as (-> & -> & ->) by (split_and!; congruence). bools. lia.
  - bools. set (stp := if extended t then _ else _).
    assert (∃ n1 s1, stp = Some (n1, s1) ∧ grew d (placed total) s s1 (n1 - n) ∧ (extended t = false → (∃ a, s1.[a] = Some (Entry true d (i + 1) st ln)) ∨ full s1)) as (n1 & s1 & -> & Hg1 & Hf1).
    { unfold stp. destruct (extended t); [destruct (ebr_loop_ok st 32 st 5 s n ltac:(lia) Hs) as (n1 & s1 & -> & Hg); by exists n1, s1|]. destruct (ata_part_add_ok d (placed total) s st ln (i + 1) Hs) as (r & s1 & -> & Hg & Hf); [left; unfold fits; cbn [start len num]; lia|]. rewrite bind_some. eexists _, s1. split; [reflexivity|]. split; [|done]. destruct (0 <=? r); [by replace (n + 1 - n) with 1 by lia|by rewrite Z.sub_diag]. }
    rewrite bind_some. destruct (IH (i + 1) s1 n1 ltac:(lia) ltac:(lia) ltac:(by rewrite (g_len _ _ _ _ _ Hg1))) as (n' & s' & -> & Hg & Hf). exists n', s'. split; [done|]. split; [replace (n' - n) with (n1 - n + (n' - n1)) by lia; by apply (grew_trans _ _ _ s1)|].
    intros j st' ln' Hj Hpr. destruct (decide (j = i)) as [->|]; [|apply Hf; [lia|done]]. destruct Hpr as (t' & P1 & P2 & P3 & P4 & P5 & P6 & P7). assert (st' = st ∧ ln' = ln ∧ t' = t) as (-> & -> & ->) by (split_and!; congruence). destruct (Hf1 P5) as [[a Ha]|Hfu]; [left; exists a; by apply (g_old _ _ _ _ _ Hg)|right; by apply (grew_full _ _ _ _ _ Hg)].
Qed.

(** An entry of the GPT does not straddle sectors. *)
Definition gpt_aligned : Prop := ∀ h sz, dev d 1 = Some h → r32 h 84 = Some sz → 128 ≤ sz ≤ 512 → sz = 128 ∨ sz = 256 ∨ sz = 512.

Lemma scan_gpt_ok s : gpt_aligned → length s = 32%nat → ∃ n s', scan_gpt dev s d total = Some (n, s') ∧ grew d (placed total) s s' n.
Proof.
  intros Ha Hs. unfold scan_gpt. assert (∃ n s', Some (0, s) = Some (n, s') ∧ grew d (placed total) s s' n) as Hstop by (exists 0, s; split; [done|apply grew_refl]). destruct (dev d 1) as [h|] eqn:Eh; [|done]. destruct (Hdev _ _ Eh) as [Hlen Hby].
  destruct (same_at_ok h [69; 70; 73; 32; 80; 65; 82; 84] 0 ltac:(lia) ltac:(cbn; lia)) as [g ->]. rewrite bind_some. destruct g; cbn [negb]; [|done]. destruct (r32_ok h 72 Hby ltac:(lia) ltac:(lia)) as (lba & -> & _). rewrite bind_some. destruct (r32_ok h 80 Hby ltac:(lia) ltac:(lia)) as (cnt & -> & _). rewrite bind_some.
  destruct (r32_ok h 84 Hby ltac:(lia) ltac:(lia)) as (sz & Esz & _). rewrite Esz, bind_some. destruct (_ || _) eqn:Ec at 1; [done|]. bools. destruct (gpt_loop_ok lba sz (Ha h sz Eh Esz ltac:(lia)) (Z.to_nat cnt) 0 (replicate 512 0) s 0 ltac:(lia) Hs) as (n & s' & -> & Hg).
  { split; [apply length_replicate|]. apply Forall_replicate. lia. }
  exists n, s'. split; [done|]. by rewrite Z.sub_0_r in Hg.
Qed.

Lemma mbr_kind_ok m : length m = 64%nat → ∀ k i, 0 ≤ i → i + Z.of_nat k ≤ 4 → ∃ r, mbr_kind k m i = Some r.
Proof.
  intros Hm. induction k as [|k IH]; intros i Hi Hk; cbn [mbr_kind]; [by eexists|]. destruct (arr_get_is_Some m (i * 16) ltac:(lia)) as [a ->]. rewrite bind_some. destruct (nz _); [by eexists|]. destruct (arr_get_is_Some m (i * 16 + 4) ltac:(lia)) as [b ->]. rewrite bind_some. destruct (b =? 0xEE); [by eexists|]. apply IH; lia.
Qed.

(** The first sector is an MBR with the entries [m], without a GPT. *)
Definition plain_mbr (b m : list Z) : Prop :=
  same_at b 510 [0x55; 0xAA] = Some true ∧ same_at b 54 [70; 65; 84] = Some false ∧ same_at b 82 [70; 65; 84; 51; 50] = Some false ∧ m = firstn 64 (skipn 446 b) ∧ mbr_kind 4 m 0 = Some (Some false).

Lemma part_scan_ok s : gpt_aligned → length s = 32%nat → ∃ n s', part_scan dev s d total = Some (n, s') ∧ grew d (placed total) s s' n ∧
  ∀ b m j st ln, dev d 0 = Some b → plain_mbr b m → 0 ≤ j < 4 → primary m j st ln → (∃ a, s'.[a] = Some (Entry true d (j + 1) st ln)) ∨ full s'.
Proof.
  intros Ha Hs. unfold part_scan. destruct (dev d 0) as [b|] eqn:Eb; [|exists 0, s; split; [done|]; split; [apply grew_refl|done]]. destruct (Hdev _ _ Eb) as [Hlen Hby].
  assert ((∀ m, ¬ plain_mbr b m) → ∀ n s', Some (n, s') = Some (n, s') → grew d (placed total) s s' n → ∃ n0 s0, Some (n, s') = Some (n0, s0) ∧ grew d (placed total) s s0 n0 ∧ ∀ b0 m j st ln, Some b = Some b0 → plain_mbr b0 m → 0 ≤ j < 4 → primary m j st ln → (∃ a, s0.[a] = Some (Entry true d (j + 1) st ln)) ∨ full s0) as Hno.
  { intros Hn n s' _ Hg. exists n, s'. split; [done|]. split; [done|]. intros b0 m j st ln [= <-] Hp. by destruct (Hn m). }
  destruct (same_at_ok b [0x55; 0xAA] 510 ltac:(lia) ltac:(cbn; lia)) as [g Eg]. rewrite Eg, bind_some. destruct g; cbn [negb]; [|apply Hno; [intros m [? _]; congruence|done|apply grew_refl]].
  destruct (same_at_ok b [70; 65; 84] 54 ltac:(lia) ltac:(cbn; lia)) as [f1 Ef1]. rewrite Ef1, bind_some. destruct (same_at_ok b [70; 65; 84; 51; 50] 82 ltac:(lia) ltac:(cbn; lia)) as [f2 Ef2]. rewrite Ef2. destruct f1; [rewrite bind_some; apply Hno; [intros m (_ & ? & _); congruence|done|apply grew_refl]|]. rewrite bind_some. destruct f2; [apply Hno; [intros m (_ & _ & ? & _); congruence|done|apply grew_refl]|].
  cbv zeta. set (m := firstn 64 (skipn 446 b)). assert (length m = 64%nat) as Hm by (unfold m; rewrite length_firstn, length_skipn; lia). assert (bytes m) as Hmb by (unfold m; apply Forall_take, Forall_drop; done). destruct (mbr_kind_ok m Hm 4 0 ltac:(lia) ltac:(lia)) as [r Er]. rewrite Er, bind_some. destruct r as [[|]|].
  - destruct (scan_gpt_ok s Ha Hs) as (n & s' & -> & Hg). apply Hno; [|done..]. intros m' (_ & _ & _ & -> & H). fold m in H. congruence.
  - destruct (mbr_loop_ok m Hmb Hm 4 0 s 0 ltac:(lia) ltac:(lia) Hs) as (n & s' & -> & Hg & Hf). exists n, s'. split; [done|]. split; [by rewrite Z.sub_0_r in Hg|]. intros b0 m' j st ln [= <-] (_ & _ & _ & -> & _). by apply Hf.
  - apply Hno; [|done|apply grew_refl]. intros m' (_ & _ & _ & -> & H). fold m in H. congruence.
Qed.

End scan.

(** A read or write that does not wrap around stays in its partition. *)
Lemma part_lba_inside s i p lba count total par a : s.[i] = Some p → total < 2 ^ 32 → fits total p → 0 ≤ lba → 1 ≤ count → lba + count < 2 ^ 32 → part_lba s (DISK_PART_BASE + i) lba count = Some (Some (par, a)) → par = parent p ∧ start p ≤ a ∧ a + count ≤ start p + len p.
Proof.
  intros Hp Ht (F1 & F2 & F3) H1 H2 H3. unfold part_lba. replace (DISK_PART_BASE + i - DISK_PART_BASE) with i by lia. rewrite Hp, bind_some. assert (u32 (lba + u32 count) = lba + count) as -> by (unfold u32; rewrite (Z.mod_small count), Z.mod_small by lia; done).
  destruct (_ || _) eqn:E; [done|]. bools. intros [= <- <-]. unfold u32. rewrite Z.mod_small by lia. lia.
Qed.

(** ** Where it fails *)

(** A sector with some bytes set. *)
Definition image (l : list (Z * Z)) : list Z := map (λ i, default 0 (list_to_map (M := gmap Z Z) l !! i)) (upto 512).
Definition sign : list (Z * Z) := [(510, 0x55); (511, 0xAA)].

(** A disk of 1000 sectors; its extended partition at 100 has a logical one whose length wraps around 32 bits. *)
Definition wrap_disk (d l : Z) : option (list Z) :=
  if l =? 0 then Some (image ([(450, 5); (454, 100); (458, 100)] ++ sign))
  else if l =? 100 then Some (image ([(450, 0x83); (454, 1); (458, 0x9c); (459, 0xff); (460, 0xff); (461, 0xff)] ++ sign)) else None.

Definition no_parts : table := replicate 32 (Entry false 0 0 0 0).

(** A logical partition of four billion sectors on a disk of a thousand. *)
Lemma logical_outside : ∃ s p, part_scan wrap_disk no_parts 0 1000 = Some (1, s) ∧ s.[0] = Some p ∧ used p = true ∧ len p = 4294967196.
Proof. eexists _, _. split; [vm_compute; reflexivity|]. split; [reflexivity|]. split; reflexivity. Qed.

(** A GPT with two entries of 500 bytes: the second is read past the end of the sector. *)
Definition long_gpt (d l : Z) : option (list Z) :=
  if l =? 0 then Some (image ([(450, 0xEE)] ++ sign))
  else if l =? 1 then Some (image [(0, 69); (1, 70); (2, 73); (3, 32); (4, 80); (5, 65); (6, 82); (7, 84); (72, 2); (80, 2); (84, 0xf4); (85, 1)])
  else Some (image []).

Lemma gpt_overrun : part_scan long_gpt no_parts 0 1000 = None.
Proof. vm_compute. reflexivity. Qed.

(** A read at the highest sector number goes to the sector before the partition. *)
Lemma read_before : part_lba [Entry true 0 1 100 50] DISK_PART_BASE (2 ^ 32 - 1) 1 = Some (Some (0, 99)).
Proof. vm_compute. reflexivity. Qed.

(** C35: whatever the bytes of a disk (with the entries of a GPT, if there is one, not across sectors), a scan for partitions ends and reads inside its sectors; it leaves every partition in the table as it was, returns how many it added, and all those are on the disk, the logical ones by a sum in 32 bits.  An ordinary partition in the MBR is added with its number, start and length unless the table is full.  A read or write in a partition on the disk whose last sector is below 2^32 goes to the part of the disk that is the partition's. *)
Theorem part_scan_sound dev d total s (Hdev : ∀ l b, dev d l = Some b → sector b) (Htotal : 0 ≤ total < 2 ^ 32) (Hs : length s = 32%nat) (Ha : gpt_aligned dev d) :
  ∃ n s', part_scan dev s d total = Some (n, s') ∧ grew d (placed total) s s' n ∧
    (∀ b m j st ln, dev d 0 = Some b → plain_mbr b m → 0 ≤ j < 4 → primary total m j st ln → (∃ a, s'.[a] = Some (Entry true d (j + 1) st ln)) ∨ full s') ∧
    ∀ i p lba count par a, s'.[i] = Some p → fits total p → 0 ≤ lba → 1 ≤ count → lba + count < 2 ^ 32 → part_lba s' (DISK_PART_BASE + i) lba count = Some (Some (par, a)) → par = parent p ∧ start p ≤ a ∧ a + count ≤ start p + len p.
Proof.
  destruct (part_scan_ok dev d total Hdev Htotal s Ha Hs) as (n & s' & E & Hg & Hf). exists n, s'. split; [done|]. split; [done|]. split; [done|]. intros i p lba count par a Hp Hfit H1 H2 H3. apply (part_lba_inside s' i p lba count total par a); (done || lia).
Qed.

(** A disk with a single partition of 500 sectors at 100. *)
Definition one_disk (d l : Z) : option (list Z) := if l =? 0 then Some (image ([(450, 0x83); (454, 100); (458, 0xf4); (459, 1)] ++ sign)) else None.

Lemma part_scan_sound_witness : ∃ s', part_scan one_disk no_parts 0 1000 = Some (1, s') ∧ grew 0 (placed 1000) no_parts s' 1 ∧ s'.[0] = Some (Entry true 0 1 100 500).
Proof.
  destruct (part_scan_sound one_disk 0 1000 no_parts) as (n & s' & E & Hg & _).
  - intros l b H. unfold one_disk in H. destruct (l =? 0); [injection H as <-|discriminate]. split; [reflexivity|]. apply Forall_forall. intros x Hx. assert (forallb (λ x, (0 <=? x) && (x <? 2 ^ 8)) (image ([(450, 0x83); (454, 100); (458, 0xf4); (459, 1)] ++ sign)) = true) as H by (vm_compute; reflexivity). rewrite forallb_forall in H. apply list_elem_of_In in Hx. specialize (H x Hx). apply andb_true_iff in H as [H1%Z.leb_le H2%Z.ltb_lt]. lia.
  - lia.
  - reflexivity.
  - intros h sz H. discriminate H.
  - assert (option_map fst (part_scan one_disk no_parts 0 1000) = Some 1 ∧ (r ← part_scan one_disk no_parts 0 1000; r.2.[0]) = Some (Entry true 0 1 100 500)) as [E1 E2] by (split; vm_compute; reflexivity). rewrite E in E1, E2. cbn in E1. injection E1 as ->. exists s'. split; [exact E|]. split; [exact Hg|exact E2].
Defined.

End PartSpec.
