(* ===== verification/Fat.v ===== *)
(** * FAT volumes, read only (src/src/fs/fat.c)

    Finding the volume, the file allocation table with its one-sector cache, the
    root directory and reading a file.  The driver is a parameter: the bytes of a
    sector of a drive, or a failed read, which leaves the buffer alone.  The block
    that [kmalloc] returns, with the bytes that are in it, is a parameter too.  A
    loop over a chain of clusters has a bound on its turns. *)

From S2P Require Import Prelude.

Module Fat.

Record vol := Vol {
  g_mounted : bool; g_ata_idx : Z; g_part_lba_start : Z; g_bps : Z; g_spc : Z; g_reserved : Z; g_num_fats : Z; g_root_ents : Z;
  g_total_sec : Z; g_fat_size_sec : Z; g_is_fat32 : bool; g_root_dir_lba : Z; g_root_dir_sectors : Z; g_data_start_lba : Z;
  g_fat_start_lba : Z; g_fat32_root_cluster : Z; cached_lba : Z; fat_cache : list Z
}.

Definition rd_u16 (b : list Z) (o : Z) : option Z := a0 ← b.[o]; a1 ← b.[o + 1]; Some (Z.lor a0 (Z.shiftl a1 8)).

Definition rd_u32 (b : list Z) (o : Z) : option Z :=
  a0 ← b.[o]; a1 ← b.[o + 1]; a2 ← b.[o + 2]; a3 ← b.[o + 3];
  Some (Z.lor (Z.lor (Z.lor a0 (Z.shiftl a1 8)) (Z.shiftl a2 16)) (Z.shiftl a3 24)).

Definition looks_like_bpb (sec : list Z) : option bool :=
  a ← sec.[510]; b ← sec.[511];
  if negb (a =? 0x55) || negb (b =? 0xAA) then Some false else
  bps ← rd_u16 sec 0x0B; spc ← sec.[0x0D]; fats ← sec.[0x10];
  if negb (bps =? 512) && negb (bps =? 1024) && negb (bps =? 2048) && negb (bps =? 4096) then Some false else
  if (spc =? 0) || nz (Z.land spc (spc - 1)) || (128 <? spc) then Some false else
  Some (negb (negb (fats =? 1) && negb (fats =? 2))).

Definition fat_type (t : Z) : bool := (t =? 1) || (t =? 4) || (t =? 6) || (t =? 0x0E) || (t =? 0x0B) || (t =? 0x0C).

(** The first FAT partition of an MBR, 0 if there is none. *)
Fixpoint mbr_part (k : nat) (sec : list Z) (i : Z) : option Z :=
  match k with
  | O => Some 0
  | S k =>
      t ← sec.[0x1BE + i * 16 + 4]; lba ← rd_u32 sec (0x1BE + i * 16 + 8);
      if lba =? 0 then mbr_part k sec (i + 1) else if fat_type t then Some lba else mbr_part k sec (i + 1)
  end.

Section driver.
Context (present : Z → bool) (dev : Z → Z → option (list Z)).

Definition read_sector (v : vol) (lba : Z) : option (list Z) := dev (g_ata_idx v) lba.

(** The numbers of a boot sector. *)
Definition read_bpb (v : vol) (part_lba : Z) (bs : list Z) : option vol :=
  bps ← rd_u16 bs 0x0B; spc ← bs.[0x0D]; reserved ← rd_u16 bs 0x0E; fats ← bs.[0x10]; ents ← rd_u16 bs 0x11;
  t16 ← rd_u16 bs 0x13; t32 ← rd_u32 bs 0x20; f16 ← rd_u16 bs 0x16; f32 ← rd_u32 bs 0x24; rc ← rd_u32 bs 0x2C;
  let size := if nz f16 then f16 else f32 in
  let is32 := f16 =? 0 in
  let fat_lba := u32 (part_lba + reserved) in
  let secs := u32 (u32 (u32 (ents * 32) + bps) - 1) / bps in
  let behind := u32 (fat_lba + u32 (fats * size)) in
  Some {| v with g_part_lba_start := part_lba; g_bps := bps; g_spc := spc; g_reserved := reserved; g_num_fats := fats; g_root_ents := ents;
          g_total_sec := if nz t16 then t16 else t32; g_fat_size_sec := size; g_is_fat32 := is32; g_fat_start_lba := fat_lba; g_root_dir_sectors := secs;
          g_fat32_root_cluster := if is32 then rc else g_fat32_root_cluster v; g_root_dir_lba := if is32 then g_root_dir_lba v else behind;
          g_data_start_lba := if is32 then behind else u32 (behind + secs); g_mounted := true |}.

Definition fat_mount (v : vol) (idx : Z) : option (bool * vol) :=
  let v := {| v with g_mounted := false |} in
  if negb (present idx) then Some (false, v) else
  let v := {| v with g_ata_idx := idx |} in
  match read_sector v 0 with
  | None => Some (false, v)
  | Some sec0 =>
      b ← looks_like_bpb sec0;
      lba ← (if b : bool then Some (Some 0) else
             a ← sec0.[510]; c ← sec0.[511];
             if negb (a =? 0x55) || negb (c =? 0xAA) then Some None else
             l ← mbr_part 4 sec0 0; Some (if l =? 0 then None else Some l));
      match lba with
      | None => Some (false, v)
      | Some part_lba =>
          let v := {| v with g_part_lba_start := part_lba |} in
          match read_sector v part_lba with
          | None => Some (false, v)
          | Some bs =>
              b ← looks_like_bpb bs;
              if negb b then Some (false, v) else v ← read_bpb v part_lba bs; Some (true, v)
          end
      end
  end.

Definition cluster_to_lba (v : vol) (c : Z) : Z := u32 (g_data_start_lba v + u32 (u32 (c - 2) * g_spc v)).

(** The cluster after [c]. *)
Definition fat_next (v : vol) (c : Z) : option (Z * vol) :=
  let off := u32 (c * (if g_is_fat32 v then 4 else 2)) in
  let lba := u32 (g_fat_start_lba v + off / g_bps v) in
  match (if lba =? cached_lba v then Some v else b ← read_sector v lba; Some {| v with fat_cache := b; cached_lba := lba |}) with
  | None => Some (if g_is_fat32 v then 0x0FFFFFFF else 0xFFFF, v)
  | Some v =>
      n ← (if g_is_fat32 v then x ← rd_u32 (fat_cache v) (off mod g_bps v); Some (Z.land x 0x0FFFFFFF) else rd_u16 (fat_cache v) (off mod g_bps v));
      Some (n, v)
  end.

Definition is_eoc (v : vol) (c : Z) : bool := if g_is_fat32 v then 0x0FFFFFF8 <=? Z.land c 0x0FFFFFFF else 0xFFF8 <=? c.

(** ** The root directory *)

(** The bytes up to a blank. *)
Fixpoint upto_blank (l : list Z) : list Z := match l with c :: l => if c =? 32 then [] else c :: upto_blank l | [] => [] end.

(** A name with its dot; the C string ends at a byte 0. *)
Fixpoint cut0 (l : list Z) : list Z := match l with c :: l => if c =? 0 then [] else c :: cut0 l | [] => [] end.

Definition format_name (ent : list Z) : option (option (list Z)) :=
  a ← ent.[0]; attr ← ent.[11]; x ← ent.[8];
  Some (if (a =? 0) || (a =? 0xE5) || (attr =? 0x0F) || nz (Z.land attr 0x18) then None else
        Some (cut0 (upto_blank (firstn 8 ent) ++ (if x =? 32 then [] else 46 :: upto_blank (firstn 3 (skipn 8 ent)))))).

Definition up (c : Z) : Z := if (97 <=? c) && (c <=? 122) then c - 97 + 65 else c.

Fixpoint name_eq_ci (a b : list Z) : bool :=
  match a, b with [], [] => true | x :: a, y :: b => (up x =? up y) && name_eq_ci a b | _, _ => false end.

(** The entries of a sector from [e] on, [k] of them; was the end seen? *)
Fixpoint entries (k : nat) (sec : list Z) (e : Z) : option (list (list Z) * bool) :=
  match k with
  | O => Some ([], false)
  | S k =>
      c ← sec.[e];
      if c =? 0 then Some ([], true) else
      '(r, b) ← entries k sec (e + 32);
      Some (firstn 32 (skipn (Z.to_nat e) sec) :: r, b)
  end.

(** [k] sectors from [lba] on; does the walk stop here? *)
Fixpoint walk_sectors (k : nat) (v : vol) (lba : Z) : option (list (list Z) * bool) :=
  match k with
  | O => Some ([], false)
  | S k =>
      match read_sector v lba with
      | None => Some ([], true)
      | Some sec =>
          '(l, b) ← entries (Z.to_nat (g_bps v / 32)) sec 0;
          if b : bool then Some (l, true) else '(r, b) ← walk_sectors k v (u32 (lba + 1)); Some (l ++ r, b)
      end
  end.

Definition walk_root_fat16 (v : vol) : option (list (list Z)) := '(l, _) ← walk_sectors (Z.to_nat (g_root_dir_sectors v)) v (g_root_dir_lba v); Some l.

Fixpoint walk_root_fat32 (fuel : nat) (v : vol) (cl : Z) : option (list (list Z) * vol) :=
  if (2 <=? cl) && negb (is_eoc v cl) then
    match fuel with
    | O => None
    | S fuel =>
        '(l, b) ← walk_sectors (Z.to_nat (g_spc v)) v (cluster_to_lba v cl);
        if b : bool then Some (l, v) else '(cl, v) ← fat_next v cl; '(r, v) ← walk_root_fat32 fuel v cl; Some (l ++ r, v)
    end
  else Some ([], v).

Definition walk_root (fuel : nat) (v : vol) : option (list (list Z) * vol) :=
  if g_is_fat32 v then walk_root_fat32 fuel v (g_fat32_root_cluster v) else l ← walk_root_fat16 v; Some (l, v).

(** The names and sizes that [fat_list] reports. *)
Fixpoint list_visit (es : list (list Z)) : option (list (list Z * Z)) :=
  match es with
  | [] => Some []
  | ent :: es => f ← format_name ent; sz ← rd_u32 ent 28; r ← list_visit es; Some (match f with Some n => (n, sz) :: r | None => r end)
  end.

Definition fat_list (fuel : nat) (v : vol) : option (list (list Z * Z) * vol) :=
  if negb (g_mounted v) then Some ([], v) else '(es, v) ← walk_root fuel v; l ← list_visit es; Some (l, v).

(** The first cluster and the size of the first file with the name. *)
Fixpoint find_visit (es : list (list Z)) (want : list Z) : option (option (Z * Z)) :=
  match es with
  | [] => Some None
  | ent :: es =>
      f ← format_name ent;
      match f with
      | Some n =>
          if name_eq_ci n want then
            hi ← rd_u16 ent 20; lo ← rd_u16 ent 26; sz ← rd_u32 ent 28; Some (Some (Z.lor (Z.shiftl hi 16) lo, sz))
          else find_visit es want
      | None => find_visit es want
      end
  end.

(** ** Reading a file *)

(** The bytes [l] at [off] of a buffer. *)
Definition blit (buf : list Z) (off : Z) (l : list Z) : option (list Z) :=
  if (0 <=? off) && (off + Z.of_nat (length l) <=? Z.of_nat (length buf)) then Some (firstn (Z.to_nat off) buf ++ l ++ skipn (Z.to_nat off + length l) buf) else None.

(** [k] sectors of a cluster; [None] inside: a read failed. *)
Fixpoint read_cluster (k : nat) (v : vol) (lba off rest : Z) (buf : list Z) : option (option (Z * Z * list Z)) :=
  match k with
  | O => Some (Some (off, rest, buf))
  | S k =>
      if rest <=? 0 then Some (Some (off, rest, buf)) else
      match read_sector v lba with
      | None => Some None
      | Some sec =>
          let take := if rest <? g_bps v then rest else g_bps v in
          if Z.of_nat (length sec) <? take then None else
          buf ← blit buf off (firstn (Z.to_nat take) sec);
          read_cluster k v (u32 (lba + 1)) (off + take) (rest - take) buf
      end
  end.

Fixpoint read_chain (fuel : nat) (v : vol) (cl off rest : Z) (buf : list Z) : option (option (list Z) * vol) :=
  if (0 <? rest) && (2 <=? cl) && negb (is_eoc v cl) then
    match fuel with
    | O => None
    | S fuel =>
        r ← read_cluster (Z.to_nat (g_spc v)) v (cluster_to_lba v cl) off rest buf;
        match r with
        | None => Some (None, v)
        | Some (off, rest, buf) => '(cl, v) ← fat_next v cl; read_chain fuel v cl off rest buf
        end
    end
  else Some (Some buf, v).

(** The answer and the file; [alloc] is what [kmalloc] returns for a size. *)
Definition fat_read_file (alloc : Z → option (list Z)) (fuel : nat) (v : vol) (want : list Z) : option (Z * list Z * vol) :=
  if negb (g_mounted v) then Some (-1, [], v) else
  '(es, v) ← walk_root fuel v;
  f ← find_visit es want;
  match f with
  | None => Some (-2, [], v)
  | Some (fc, size) =>
      match alloc (if nz size then size else 1) with
      | None => Some (-3, [], v)
      | Some buf =>
          '(r, v) ← read_chain (Z.to_nat size) v fc 0 size buf;
          match r with None => Some (-4, [], v) | Some buf => Some (0, firstn (Z.to_nat size) buf, v) end
      end
  end.

End driver.

End Fat.
