(* ===== verification/FatSpec.v ===== *)
(** * Reading a file gives its bytes

    On a volume with sectors of 512 bytes the reader of [Fat] follows the chain of a
    file in the table, cache or not, and returns the bytes of its clusters; where the
    reader fails is shown below. *)

From S2P Require Import Prelude Part PartSpec Fat.

Module FatSpec.
Import Fat.

Section fat.
Context (dev : Z → Z → option (list Z)).

(** ** The table without its cache *)

Definition entry_lba (v : vol) (c : Z) : Z := u32 (g_fat_start_lba v + u32 (c * (if g_is_fat32 v then 4 else 2)) / g_bps v).

Definition fat_entry (v : vol) (c : Z) : option Z :=
  if entry_lba v c =? 2 ^ 32 - 1 then None else
  b ← dev (g_ata_idx v) (entry_lba v c);
  let o := u32 (c * (if g_is_fat32 v then 4 else 2)) mod g_bps v in
  if g_is_fat32 v then x ← rd_u32 b o; Some (Z.land x 0x0FFFFFFF) else rd_u16 b o.

(** The clusters of a chain, to its end. *)
Inductive chain (v : vol) : Z → list Z → Prop :=
| chain_end c : c < 2 ∨ is_eoc v c = true → chain v c []
| chain_next c n l : 2 ≤ c → is_eoc v c = false → fat_entry v c = Some n → chain v n l → chain v c (c :: l).

(** The cache holds the sector it says, or nothing yet. *)
Definition coherent (v : vol) : Prop := cached_lba v = 2 ^ 32 - 1 ∨ dev (g_ata_idx v) (cached_lba v) = Some (fat_cache v).

Definition recache (v : vol) (a : Z) (b : list Z) : vol := {| v with cached_lba := a; fat_cache := b |}.

Lemma chain_recache v a b c l : chain v c l → chain (recache v a b) c l.
Proof. induction 1 as [c H|c n l H1 H2 H3 _ IH]; [by constructor|]. by apply (chain_next _ c n). Qed.

(** The cache makes no difference. *)
Lemma fat_next_ok v c n : coherent v → fat_entry v c = Some n → ∃ a b, fat_next dev v c = Some (n, recache v a b) ∧ coherent (recache v a b).
Proof.
  intros Hc. unfold fat_entry. destruct (Z.eqb_spec (entry_lba v c) (2 ^ 32 - 1)) as [|Hne]; [done|]. destruct (dev (g_ata_idx v) (entry_lba v c)) as [b|] eqn:Eb; [|done]. rewrite bind_some. intros He. exists (entry_lba v c), b. split; [|by right]. unfold fat_next. cbv zeta. fold (entry_lba v c).
  assert ((if entry_lba v c =? cached_lba v then Some v else b ← read_sector dev v (entry_lba v c); Some {| v with fat_cache := b; cached_lba := entry_lba v c |}) = Some (recache v (entry_lba v c) b)) as ->.
  { unfold read_sector. rewrite Eb, bind_some. destruct (Z.eqb_spec (entry_lba v c) (cached_lba v)) as [E|E]; [|done]. destruct Hc as [Hc|Hc]; [congruence|]. rewrite <- E, Eb in Hc. injection Hc as ->. rewrite E. by destruct v. }
  cbn [g_is_fat32 recache fat_cache g_bps] in *. destruct (g_is_fat32 v); [destruct (rd_u32 b _) as [x|]; [|done]; rewrite bind_some in *; by injection He as <-|]. by rewrite He.
Qed.

(** ** The bytes of a file *)

Fixpoint cluster_sectors (k : nat) (v : vol) (lba : Z) : option (list Z) :=
  match k with O => Some [] | S k => b ← dev (g_ata_idx v) lba; r ← cluster_sectors k v (u32 (lba + 1)); Some (b ++ r) end.

Fixpoint file_data (v : vol) (l : list Z) : option (list Z) :=
  match l with [] => Some [] | c :: l => b ← cluster_sectors (Z.to_nat (g_spc v)) v (cluster_to_lba v c); r ← file_data v l; Some (b ++ r) end.

Record sound (v : vol) : Prop := {
  sd_bps : g_bps v = 512;
  sd_spc : 1 ≤ g_spc v ≤ 128;
  sd_dev : ∀ l b, dev (g_ata_idx v) l = Some b → PartSpec.sector b
}.

Lemma sound_recache v a b : sound v → sound (recache v a b).
Proof. intros [H1 H2 H3]. by split. Qed.

Lemma cluster_length v k : sound v → ∀ lba d, cluster_sectors k v lba = Some d → length d = (512 * k)%nat.
Proof.
  intros Hs. induction k as [|k IH]; intros lba d; cbn [cluster_sectors]; [by intros [= <-]|]. destruct (dev (g_ata_idx v) lba) as [b|] eqn:Eb; [|done]. rewrite bind_some. destruct (cluster_sectors k v (u32 (lba + 1))) as [r|] eqn:Er; [|done]. intros [= <-]. rewrite length_app, (IH _ _ Er). destruct (sd_dev _ Hs _ _ Eb) as [-> _]. lia.
Qed.

Lemma buf_blit_ok pre old l : (length l ≤ length old)%nat → blit (pre ++ old) (Z.of_nat (length pre)) l = Some ((pre ++ l) ++ skipn (length l) old).
Proof.
  intros Hl. unfold blit. rewrite length_app. rewrite (proj2 (Z.leb_le 0 _)), (proj2 (Z.leb_le _ (Z.of_nat (length pre + length old)))) by lia. cbn [andb]. rewrite Nat2Z.id, take_app_length. rewrite drop_app_ge by lia. replace (length pre + length l - length pre)%nat with (length l) by lia. by rewrite app_assoc.
Qed.

Lemma read_cluster_ok v : sound v → ∀ k lba d n pre old, cluster_sectors k v lba = Some d → (n ≤ length old)%nat → let t := Nat.min n (512 * k) in
  read_cluster dev k v lba (Z.of_nat (length pre)) (Z.of_nat n) (pre ++ old) = Some (Some (Z.of_nat (length pre + t), Z.of_nat (n - t), (pre ++ firstn t d) ++ skipn t old)).
Proof.
  intros Hs. induction k as [|k IH]; intros lba d n pre old Hd Hn; cbn [cluster_sectors read_cluster] in *.
  { injection Hd as <-. replace (Nat.min n (512 * 0)) with 0%nat by lia. cbn [firstn skipn]. rewrite app_nil_r, Nat.add_0_r, Nat.sub_0_r. done. }
  destruct (dev (g_ata_idx v) lba) as [b|] eqn:Eb; [|done]. rewrite bind_some in Hd. destruct (cluster_sectors k v (u32 (lba + 1))) as [r|] eqn:Er; [|done]. rewrite bind_some in Hd. injection Hd as <-. destruct (sd_dev _ Hs _ _ Eb) as [Hb _]. cbv zeta.
  destruct (Z.leb_spec (Z.of_nat n) 0) as [H0|H0]; [replace n with 0%nat in * by lia; change (Nat.min 0 (512 * S k)) with 0%nat; cbn [firstn skipn Nat.sub]; rewrite app_nil_r, Nat.add_0_r; reflexivity|]. unfold read_sector. rewrite Eb, (sd_bps _ Hs).
  set (t1 := Nat.min n 512). assert ((if Z.of_nat n <? 512 then Z.of_nat n else 512) = Z.of_nat t1) as -> by (unfold t1; destruct (Z.ltb_spec (Z.of_nat n) 512); lia). rewrite (proj2 (Z.ltb_ge _ _)) by lia. rewrite Nat2Z.id. assert (length (firstn t1 b) = t1) as Ht1 by (rewrite length_firstn; lia). rewrite buf_blit_ok by lia. rewrite bind_some, Ht1.
  replace (Z.of_nat (length pre) + Z.of_nat t1) with (Z.of_nat (length (pre ++ firstn t1 b))) by (rewrite length_app, Ht1; lia). replace (Z.of_nat n - Z.of_nat t1) with (Z.of_nat (n - t1)) by lia. rewrite (IH _ r (n - t1)%nat (pre ++ firstn t1 b) (skipn t1 old) Er) by (rewrite length_skipn; lia).
  set (t2 := Nat.min (n - t1) (512 * k)). replace (Nat.min n (512 * S k)) with (t1 + t2)%nat by lia. f_equal. f_equal. f_equal; [f_equal; [rewrite length_app, Ht1; lia|lia]|]. rewrite skipn_skipn. replace (t2 + t1)%nat with (t1 + t2)%nat by lia. f_equal. rewrite <- app_assoc. f_equal.
  destruct (decide (n ≤ 512)%nat) as [Hsm|Hbig]; [replace t2 with 0%nat by lia; rewrite Nat.add_0_r; cbn [firstn]; rewrite app_nil_r, firstn_app, Hb; replace (t1 - 512)%nat with 0%nat by lia; cbn [firstn]; by rewrite app_nil_r|].
  replace t1 with 512%nat by lia. rewrite firstn_app, Hb. replace (512 + t2 - 512)%nat with t2 by lia. assert (firstn 512 b = b ∧ firstn (512 + t2) b = b) as [-> ->] by (split; apply firstn_all2; lia). done.
Qed.

Lemma read_chain_ok : ∀ v c l, chain v c l → sound v → ∀ a b, coherent (recache v a b) → ∀ fuel d n pre old, file_data v l = Some d → (n ≤ length d)%nat → (n ≤ length old)%nat → (n ≤ fuel)%nat →
  ∃ a' b', read_chain dev fuel (recache v a b) c (Z.of_nat (length pre)) (Z.of_nat n) (pre ++ old) = Some (Some (pre ++ firstn n d ++ skipn n old), recache v a' b') ∧ coherent (recache v a' b').
Proof.
  intros v c l Hch Hs. induction Hch as [c Hend|c nx l H2 Heoc Hent Hch IH]; intros a b Hc fuel d n pre old Hd Hn Ho Hf; cbn [file_data] in Hd.
  { injection Hd as <-. cbn in Hn. replace n with 0%nat by lia. exists a, b. split; [|done]. by destruct fuel. }
  destruct (cluster_sectors _ v (cluster_to_lba v c)) as [cd|] eqn:Ec; [|done]. rewrite bind_some in Hd. destruct (file_data v l) as [r|] eqn:Er; [|done]. rewrite bind_some in Hd. injection Hd as <-. destruct n as [|n]; [exists a, b; split; [|done]; by destruct fuel|]. destruct fuel as [|fuel]; [lia|].
  cbn [read_chain]. change (is_eoc (recache v a b) c) with (is_eoc v c). rewrite Heoc, (proj2 (Z.leb_le 2 c)) by lia. rewrite (proj2 (Z.ltb_lt 0 (Z.of_nat (S n)))) by lia. cbn [andb negb]. change (g_spc (recache v a b)) with (g_spc v). change (cluster_to_lba (recache v a b) c) with (cluster_to_lba v c).
  pose proof (cluster_length v _ Hs _ _ Ec) as Hcl. pose proof (sd_spc _ Hs) as Hspc. set (k := Z.to_nat (g_spc v)) in *. assert (cluster_sectors k (recache v a b) (cluster_to_lba v c) = Some cd) as Ec'. { rewrite <- Ec. clear. generalize (cluster_to_lba v c). induction k as [|k IH]; intros z; cbn; [done|]. by rewrite IH. }
  rewrite (read_cluster_ok (recache v a b) (sound_recache _ _ _ Hs) k (cluster_to_lba v c) cd (S n) pre old Ec') by lia. rewrite bind_some. destruct (fat_next_ok (recache v a b) c nx Hc Hent) as (a1 & b1 & -> & Hc1). rewrite bind_some. change (recache (recache v a b) a1 b1) with (recache v a1 b1) in *.
  set (t := Nat.min (S n) (512 * k)). replace (length pre + t)%nat with (length (pre ++ firstn t cd)) by (rewrite length_app, length_firstn; lia). rewrite length_app in Hn.
  destruct (IH a1 b1 Hc1 fuel r (S n - t)%nat (pre ++ firstn t cd) (skipn t old) eq_refl) as (a2 & b2 & -> & Hc2); [lia|rewrite length_skipn; lia|lia|]. exists a2, b2. split; [|done]. f_equal. f_equal. f_equal. rewrite skipn_skipn, <- !app_assoc. f_equal. replace (S n - t + t)%nat with (S n) by lia. rewrite firstn_app, Hcl, <- app_assoc. f_equal; [|f_equal; f_equal; lia].
  destruct (decide (S n ≤ 512 * k)%nat); [by replace t with (S n) by lia|]. assert (firstn t cd = cd ∧ firstn (S n) cd = cd) as [-> ->] by (split; apply firstn_all2; lia). done.
Qed.

(** ** The directory *)

Definition entry_ok (e : list Z) : Prop := length e = 32%nat ∧ PartSpec.bytes e.

Lemma entries_ok sec : PartSpec.sector sec → ∀ k e, 0 ≤ e → e + 32 * Z.of_nat k ≤ 512 → ∃ l b, entries k sec e = Some (l, b) ∧ Forall entry_ok l.
Proof.
  intros [Hl Hb]. induction k as [|k IH]; intros e He Hk; cbn [entries]; [by exists [], false|]. destruct (arr_get_is_Some sec e ltac:(lia)) as [c ->]. rewrite bind_some. destruct (c =? 0); [by exists [], true|]. destruct (IH (e + 32) ltac:(lia) ltac:(lia)) as (l & b & -> & Hf). rewrite bind_some. eexists _, b. split; [reflexivity|]. constructor; [|done]. split; [rewrite length_firstn, length_skipn; lia|]. by apply Forall_take, Forall_drop.
Qed.

Lemma walk_sectors_ok v : sound v → ∀ k lba, ∃ l b, walk_sectors dev k v lba = Some (l, b) ∧ Forall entry_ok l.
Proof.
  intros Hs. induction k as [|k IH]; intros lba; cbn [walk_sectors]; [by exists [], false|]. unfold read_sector. destruct (dev (g_ata_idx v) lba) as [sec|] eqn:E; [|by exists [], true]. rewrite (sd_bps _ Hs). destruct (entries_ok sec (sd_dev _ Hs _ _ E) (Z.to_nat (512 / 32)) 0 ltac:(lia) ltac:(done)) as (l & b & -> & Hf). rewrite bind_some. destruct b; [by exists l, true|].
  destruct (IH (u32 (lba + 1))) as (r & b & -> & Hr). rewrite bind_some. eexists _, b. split; [reflexivity|]. by apply Forall_app.
Qed.

Lemma walk32_ok : ∀ v c l, chain v c l → sound v → ∀ a b fuel, coherent (recache v a b) → (length l ≤ fuel)%nat → ∃ es a' b', walk_root_fat32 dev fuel (recache v a b) c = Some (es, recache v a' b') ∧ coherent (recache v a' b') ∧ Forall entry_ok es.
Proof.
  intros v c l Hch Hs. induction Hch as [c Hend|c n l H2 Heoc Hent Hch IH]; intros a b fuel Hc Hf.
  - exists [], a, b. split_and!; try done. assert ((2 <=? c) && negb (is_eoc (recache v a b) c) = false) as E by (change (is_eoc (recache v a b) c) with (is_eoc v c); destruct Hend as [H| ->]; [by rewrite (proj2 (Z.leb_gt 2 c)) by lia|by rewrite andb_false_r]). destruct fuel; cbn [walk_root_fat32]; by rewrite E.
  - destruct fuel as [|fuel]; [cbn in Hf; lia|]. cbn [walk_root_fat32]. change (is_eoc (recache v a b) c) with (is_eoc v c). rewrite Heoc, (proj2 (Z.leb_le 2 c)) by lia. cbn [andb negb]. destruct (walk_sectors_ok (recache v a b) (sound_recache _ _ _ Hs) (Z.to_nat (g_spc (recache v a b))) (cluster_to_lba (recache v a b) c)) as (es & stop & -> & Hes). rewrite bind_some. destruct stop; [by exists es, a, b|].
    destruct (fat_next_ok (recache v a b) c n Hc Hent) as (a1 & b1 & -> & Hc1). rewrite bind_some. change (recache (recache v a b) a1 b1) with (recache v a1 b1) in *. destruct (IH a1 b1 fuel Hc1 ltac:(cbn in Hf; lia)) as (r & a2 & b2 & -> & Hc2 & Hr). rewrite bind_some. eexists _, a2, b2. split; [reflexivity|]. split; [done|]. by apply Forall_app.
Qed.

(** The root directory ends: on FAT32 its chain does, within the bound. *)
Definition root_ends (v : vol) (fuel : nat) : Prop := g_is_fat32 v = true → ∃ l, chain v (g_fat32_root_cluster v) l ∧ (length l ≤ fuel)%nat.

Lemma recache_self v : v = recache v (cached_lba v) (fat_cache v).
Proof. by destruct v. Qed.

Lemma walk_root_ok v fuel : sound v → coherent v → root_ends v fuel → ∃ es a b, walk_root dev fuel v = Some (es, recache v a b) ∧ coherent (recache v a b) ∧ Forall entry_ok es.
Proof.
  intros Hs Hc Hr. unfold walk_root. destruct (g_is_fat32 v) eqn:E.
  - destruct (Hr E) as (l & Hch & Hl). pose proof (walk32_ok v _ l Hch Hs (cached_lba v) (fat_cache v) fuel) as H. rewrite <- recache_self in H. by apply H.
  - unfold walk_root_fat16. destruct (walk_sectors_ok v Hs (Z.to_nat (g_root_dir_sectors v)) (g_root_dir_lba v)) as (es & b & -> & Hes). rewrite !bind_some. exists es, (cached_lba v), (fat_cache v). rewrite <- recache_self. done.
Qed.

Lemma rd_u16_ok b o : PartSpec.bytes b → 0 ≤ o → o + 2 ≤ Z.of_nat (length b) → ∃ x, rd_u16 b o = Some x.
Proof. intros Hb H1 H2. unfold rd_u16. destruct (arr_get_is_Some b o ltac:(lia)) as [a0 ->], (arr_get_is_Some b (o + 1) ltac:(lia)) as [a1 ->]. by eexists. Qed.

Lemma find_visit_ok want es : Forall entry_ok es → ∃ f, find_visit es want = Some f ∧ ∀ fc size, f = Some (fc, size) → 0 ≤ size < 2 ^ 32.
Proof.
  induction 1 as [|e es [Hl Hb] _ IH]; cbn [find_visit]; [by exists None|]. unfold format_name. destruct (arr_get_is_Some e 0 ltac:(lia)) as [a ->]. rewrite bind_some. destruct (arr_get_is_Some e 11 ltac:(lia)) as [at_ ->]. rewrite bind_some. destruct (arr_get_is_Some e 8 ltac:(lia)) as [x ->]. rewrite !bind_some. destruct (if _ : bool then None else Some _) as [nm|]; [|done]. destruct (name_eq_ci nm want); [|done].
  destruct (rd_u16_ok e 20 Hb ltac:(lia) ltac:(lia)) as [hi ->]. rewrite bind_some. destruct (rd_u16_ok e 26 Hb ltac:(lia) ltac:(lia)) as [lo ->]. rewrite bind_some. destruct (PartSpec.r32_ok e 28 Hb ltac:(lia) ltac:(lia)) as (sz & Esz & Hsz). change (rd_u32 e 28) with (Part.r32 e 28). rewrite Esz, bind_some. eexists. split; [reflexivity|]. intros fc size [= _ <-]. done.
Qed.

(** ** Where the reader fails *)

(** A root directory whose chain comes back to itself, without an end mark: the walk never ends. *)
Lemma cyclic_root_hangs v c es fuel : sound v → coherent v → 2 ≤ c → is_eoc v c = false → fat_entry v c = Some c → walk_sectors dev (Z.to_nat (g_spc v)) v (cluster_to_lba v c) = Some (es, false) → walk_root_fat32 dev fuel v c = None.
Proof.
  intros Hs Hc H2 He Hent Hw. rewrite (recache_self v) in Hc |- *. revert Hc. generalize (cached_lba v) (fat_cache v). induction fuel as [|fuel IH]; intros a b Hc; cbn [walk_root_fat32]; change (is_eoc (recache v a b) c) with (is_eoc v c); rewrite He, (proj2 (Z.leb_le 2 c)) by lia; cbn [andb negb]; [done|].
  assert (∀ k lba, walk_sectors dev k (recache v a b) lba = walk_sectors dev k v lba) as Hsame by (induction k as [|k IHk]; intros lba; cbn [walk_sectors]; [done|]; unfold read_sector; cbn [g_ata_idx recache g_bps]; destruct (dev (g_ata_idx v) lba); [|done]; destruct (entries _ _ _) as [[l0 b0]|]; [|done]; rewrite !bind_some; destruct b0; [done|]; by rewrite IHk).
  rewrite Hsame. change (g_spc (recache v a b)) with (g_spc v). change (cluster_to_lba (recache v a b) c) with (cluster_to_lba v c). rewrite Hw, bind_some. destruct (fat_next_ok (recache v a b) c c Hc Hent) as (a1 & b1 & -> & Hc1). rewrite bind_some. change (recache (recache v a b) a1 b1) with (recache v a1 b1) in *. by rewrite (IH a1 b1 Hc1).
Qed.

(** A file whose entry has no cluster but a size: the answer is success, with the bytes that were in the block of memory. *)
Lemma no_cluster_leaks v size buf : read_chain dev (Z.to_nat size) v 0 0 size buf = Some (Some buf, v).
Proof. destruct (Z.to_nat size); cbn [read_chain]; by rewrite andb_false_r. Qed.

Lemma read_bpb_cache v lba bs v' : read_bpb v lba bs = Some v' → cached_lba v' = cached_lba v ∧ fat_cache v' = fat_cache v.
Proof. unfold read_bpb. intros H. repeat (apply bind_Some in H as (? & _ & H)). by injection H as <-. Qed.

(** A mount keeps the cached sector of the table of the drive before. *)
Lemma mount_keeps_cache present v idx r v' : fat_mount present dev v idx = Some (r, v') → cached_lba v' = cached_lba v ∧ fat_cache v' = fat_cache v.
Proof.
  unfold fat_mount, read_sector. cbv zeta. destruct (negb (present idx)); [by intros [= <- <-]|]. destruct (dev _ 0) as [s0|]; [|by intros [= <- <-]]. destruct (looks_like_bpb s0) as [b|]; [|done]. rewrite bind_some. match goal with |- context [if b then Some (Some 0) else ?e] => destruct (if b then Some (Some 0) else e) as [[lba|]|] end; [|rewrite bind_some; by intros [= <- <-]|done].
  rewrite bind_some. destruct (dev _ lba) as [bs|]; [|by intros [= <- <-]]. destruct (looks_like_bpb bs) as [[|]|]; [| |done]; rewrite bind_some; cbn [negb]; [|by intros [= <- <-]]. match goal with |- context [read_bpb ?w lba bs] => destruct (read_bpb w lba bs) as [v2|] eqn:E; [|done] end. rewrite bind_some. intros [= <- <-]. apply read_bpb_cache in E. exact E.
Qed.

Lemma fat_read_ok alloc fuel v want : sound v → coherent v → g_mounted v = true → root_ends v fuel → (∀ n b, 0 ≤ n → alloc n = Some b → Z.of_nat (length b) = n) →
  ∃ es a b f, walk_root dev fuel v = Some (es, recache v a b) ∧ find_visit es want = Some f ∧
    match f with
    | None => fat_read_file dev alloc fuel v want = Some (-2, [], recache v a b)
    | Some (fc, size) => if alloc (if nz size then size else 1) is None then fat_read_file dev alloc fuel v want = Some (-3, [], recache v a b) else
        ∀ cl d, chain v fc cl → file_data v cl = Some d → size ≤ Z.of_nat (length d) → ∃ a' b', fat_read_file dev alloc fuel v want = Some (0, firstn (Z.to_nat size) d, recache v a' b') ∧ coherent (recache v a' b')
    end.
Proof.
  intros Hs Hc Hm Hr Hal. destruct (walk_root_ok v fuel Hs Hc Hr) as (es & a & b & Ew & Hc1 & Hes). destruct (find_visit_ok want es Hes) as (f & Ef & Hf). exists es, a, b, f. split; [done|]. split; [done|]. unfold fat_read_file. rewrite Hm, Ew, bind_some, Ef, bind_some. cbn [negb]. destruct f as [[fc size]|]; [|done].
  destruct (alloc (if nz size then size else 1)) as [buf|] eqn:Ebuf; [|done]. specialize (Hf fc size eq_refl). apply Hal in Ebuf as Hbuf; [|destruct (nz size); lia]. intros cl d Hch Hd Hsz. assert (Z.to_nat size ≤ length buf)%nat as Hle by (destruct (nz size) eqn:E; [lia|apply nz_false in E; lia]).
  destruct (read_chain_ok v fc cl Hch Hs a b Hc1 (Z.to_nat size) d (Z.to_nat size) [] buf Hd) as (a2 & b2 & E & Hc2); [lia|lia|lia|]. cbn [length app] in E. change (Z.of_nat 0) with 0 in E. rewrite Z2Nat.id in E by lia. rewrite E, bind_some. exists a2, b2. split; [|done]. f_equal. f_equal. f_equal. rewrite firstn_app, firstn_firstn, length_firstn. replace (Z.to_nat size - Nat.min (Z.to_nat size) (length d))%nat with 0%nat by lia. cbn [firstn]. rewrite app_nil_r. f_equal. lia.
Qed.

End fat.

(** C36: Reading a file gives its bytes.  For a mounted volume with sectors of 512
    bytes whose root directory ends ([root_ends]: it is the fixed one of FAT16, or its chain of
    clusters ends) and whose cached sector of the table is that of the drive
    ([coherent]): the walk of the root directory returns; a name that is not
    there is answered with -2, and -3 is the answer when there is no memory; for the first
    entry with the name, if its chain of clusters in the table ends, can be read and has room for
    the size, the answer is 0 and the file is the bytes of these clusters in the order of
    the chain, cut to its size, and the cache stays right. *)
Theorem fat_read_right dev alloc fuel v want (Hs : sound dev v) (Hc : coherent dev v) (Hm : g_mounted v = true) (Hr : root_ends dev v fuel) (Hal : ∀ n b, 0 ≤ n → alloc n = Some b → Z.of_nat (length b) = n) :
  ∃ es a b f, walk_root dev fuel v = Some (es, recache v a b) ∧ find_visit es want = Some f ∧
    match f with
    | None => fat_read_file dev alloc fuel v want = Some (-2, [], recache v a b)
    | Some (fc, size) => if alloc (if nz size then size else 1) is None then fat_read_file dev alloc fuel v want = Some (-3, [], recache v a b) else
        ∀ cl d, chain dev v fc cl → file_data dev v cl = Some d → size ≤ Z.of_nat (length d) → ∃ a' b', fat_read_file dev alloc fuel v want = Some (0, firstn (Z.to_nat size) d, recache v a' b') ∧ coherent dev (recache v a' b')
    end.
Proof. exact (fat_read_ok dev alloc fuel v want Hs Hc Hm Hr Hal). Qed.

(** A volume with the file A.TXT of 600 bytes in the clusters 2 and 3. *)
Definition floppy (d l : Z) : option (list Z) :=
  if l =? 0 then Some (PartSpec.image ([(12, 2); (13, 1); (14, 1); (16, 1); (17, 16); (19, 20); (22, 1)] ++ PartSpec.sign))
  else if l =? 1 then Some (PartSpec.image [(4, 3); (6, 255); (7, 255)])
  else if l =? 2 then Some (PartSpec.image [(0, 65); (1, 32); (8, 84); (9, 88); (10, 84); (11, 32); (26, 2); (28, 88); (29, 2)])
  else if l =? 3 then Some (PartSpec.image [(0, 7)]) else if l =? 4 then Some (PartSpec.image [(0, 9)]) else None.

Definition blank_vol : vol := Vol false (-1) 0 512 1 1 2 512 0 0 false 0 0 0 0 0 (2 ^ 32 - 1) (replicate 512 0).

Definition floppy_vol : vol := match fat_mount (λ _, true) floppy blank_vol 0 with Some (_, v) => v | None => blank_vol end.

Lemma floppy_sound : sound floppy floppy_vol.
Proof.
  split; [reflexivity|split; vm_compute; intros X; discriminate X|]. intros l b H. assert (b ∈ map (λ l, default [] (floppy 0 l)) [0; 1; 2; 3; 4]) as Hb.
  { cbn [map]. rewrite !elem_of_cons. unfold floppy at 1 in H. destruct (l =? 0); [left; by injection H|]. destruct (l =? 1); [right; left; by injection H|]. destruct (l =? 2); [do 2 right; left; by injection H|]. destruct (l =? 3); [do 3 right; left; by injection H|]. destruct (l =? 4); [do 4 right; left; by injection H|done]. }
  assert (forallb (λ b, Nat.eqb (length b) 512 && forallb (λ x, (0 <=? x) && (x <? 2 ^ 8)) b) (map (λ l, default [] (floppy 0 l)) [0; 1; 2; 3; 4]) = true) as Hf by (vm_compute; reflexivity). rewrite forallb_forall in Hf. apply list_elem_of_In in Hb. specialize (Hf b Hb). apply andb_true_iff in Hf as [H1%Nat.eqb_eq H2]. split; [done|]. apply Forall_forall. intros x Hx. rewrite forallb_forall in H2. apply list_elem_of_In in Hx. specialize (H2 x Hx). apply andb_true_iff in H2 as [H3%Z.leb_le H4%Z.ltb_lt]. lia.
Qed.

Lemma fat_read_right_witness : ∃ a b, fat_read_file floppy (λ n, Some (replicate (Z.to_nat n) 1)) 0 floppy_vol [97; 46; 116; 120; 116] = Some (0, 7 :: replicate 511 0 ++ 9 :: replicate 87 0, recache floppy_vol a b).
Proof.
  destruct (fat_read_right floppy (λ n, Some (replicate (Z.to_nat n) 1)) 0 floppy_vol [97; 46; 116; 120; 116] floppy_sound) as (es & a & b & f & Ew & Ef & H).
  - left. reflexivity.
  - reflexivity.
  - intros H. discriminate H.
  - intros n c Hn [= <-]. rewrite length_replicate. lia.
  - assert (f = Some (2, 600)) as ->. { assert ((r ← walk_root floppy 0 floppy_vol; find_visit r.1 [97; 46; 116; 120; 116]) = Some (Some (2, 600))) as E by (vm_compute; reflexivity). rewrite Ew in E. cbn [mbind option_bind fst] in E. rewrite Ef in E. by injection E. }
    destruct (H [2; 3] (7 :: replicate 511 0 ++ 9 :: replicate 511 0)) as (a' & b' & E & _); [|vm_compute; reflexivity|vm_compute; intros X; discriminate X|exists a', b'; rewrite E; vm_compute; reflexivity].
    apply (chain_next _ _ 2 3); [lia|reflexivity|vm_compute; reflexivity|]. apply (chain_next _ _ 3 65535); [lia|reflexivity|vm_compute; reflexivity|]. constructor. right. reflexivity.
Defined.

End FatSpec.
