(* ===== verification/Ns.v ===== *)
(** * Namespaces (src/src/proc/ns.c)

    Six kinds of namespaces, 32 of each; a process has the number of its namespace
    of every kind, 0 is the first one.  Namespaces are counted; those of users and
    of pids form trees, in which a child counts for its parent.  [nst] is the table
    of the entries \[t\]\[i\]; the process table is a list of slots.  What ns.c asks
    of the aliases of the file tree is logged; the contents of /etc/hostname are a
    parameter.  The counts [refs] are integers without a limit, where ns.c has an int:
    they stay below the processes and namespaces of the tables unless forks that
    fail have left references behind; the next pid of a namespace is an int here too. *)

From S2P Require Import Prelude.

Module Ns.

Definition EPERM : Z := 1.
Definition ENOENT : Z := 2.
Definition EAGAIN : Z := 11.
Definition ENOMEM : Z := 12.
Definition EINVAL : Z := 22.
Definition ENOSPC : Z := 28.
Definition NEWNS : Z := 0x00020000.
Definition NEWUTS : Z := 0x04000000.
Definition NEWIPC : Z := 0x08000000.
Definition NEWUSER : Z := 0x10000000.
Definition NEWPID : Z := 0x20000000.
Definition NEWNET : Z := 0x40000000.

Definition N_MNT : Z := 0.
Definition N_UTS : Z := 1.
Definition N_IPC : Z := 2.
Definition N_USER : Z := 3.
Definition N_NET : Z := 4.
Definition N_PID : Z := 5.
Definition N_MAX : Z := 6.
Definition NN : Z := 32.

Record ns_t := Entry { used : bool; refs : Z; ino : Z; parent : Z; level : Z; next : Z }.

(** A line of an id map, and what a user namespace keeps: the lines for users and
    for groups, and whether setgroups is denied. *)
Record imap_t := Imap { m_in : Z; m_out : Z; m_cnt : Z }.
Record um_t := Um { u_map : list imap_t; g_map : list imap_t; sg_deny : bool }.

Record proc := Proc {
  pid : Z; tgid : Z; is_thread : bool; alive : bool;
  mntns : Z; utsns : Z; ipcns : Z; userns : Z; netns : Z; pidns : Z; kidns : Z;
  vpid : list Z; nsfl : Z; capx : bool
}.

Inductive ev := EBindCopy (from to : Z) | EBindDrop (i : Z).

(** [uts] has the names of the namespaces whose flag [uset] is set. *)
Record st := St {
  nst : gmap (Z * Z) ns_t; next_ino : Z; uts : gmap Z (list Z * list Z); um : gmap Z um_t;
  done : bool; procs : list (option proc); log : list ev
}.

Definition has (fl bit : Z) : bool := nz (Z.land fl bit).
Definition tree (t : Z) : bool := (t =? N_USER) || (t =? N_PID).
Definition set_ns (s : st) (t i : Z) (x : ns_t) : st := {| s with nst := <[(t, i) := x]> (nst s) |}.
Definition add_log (s : st) (e : ev) : st := {| s with log := log s ++ [e] |}.
Definition get_proc (s : st) (p : nat) : option proc := mjoin (procs s !! p).
Definition set_proc (s : st) (p : nat) (x : proc) : st := {| s with procs := <[p := Some x]> (procs s) |}.

(** ** Entries *)

Definition base_ino (t : Z) : Z :=
  if t =? N_MNT then 4026531841 else if t =? N_UTS then 4026531838 else if t =? N_IPC then 4026531839
  else if t =? N_USER then 4026531837 else if t =? N_NET then 4026531840 else 4026531836.

Definition boot_row (m : gmap (Z * Z) ns_t) (t : Z) : gmap (Z * Z) ns_t :=
  match m !! (t, 0) with
  | Some x => <[(t, 0) := {| x with used := true; refs := 2 ^ 20; ino := base_ino t; next := 2 |}]> m
  | None => m
  end.

Definition ns_boot (s : st) : st :=
  if done s then s else
  {| s with done := true; nst := foldl boot_row (nst s) [0; 1; 2; 3; 4; 5];
     um := <[0 := Um [Imap 0 0 4294967295] [Imap 0 0 4294967295] (match um s !! 0 with Some u => sg_deny u | None => false end)]> (um s) |}.

Definition free_slot (s : st) (t i : Z) : bool :=
  match nst s !! (t, i) with Some x => negb (used x) | None => false end.

Definition ns_new (s : st) (t par : Z) : option (Z * st) :=
  let s := ns_boot s in
  match first_some (λ i, if free_slot s t i then Some i else None) (seqZ 1 31) with
  | None => Some (-1, s)
  | Some i =>
      p ← nst s !! (t, par);
      let s := set_ns s t i (Entry true 0 (next_ino s) par (if t =? N_PID then level p + 1 else 0) 1) in
      let s := {| s with next_ino := u32 (next_ino s + 1) |} in
      let s := if t =? N_USER then {| s with um := delete i (um s) |} else s in
      s ← (if tree t then p ← nst s !! (t, par); Some (set_ns s t par {| p with refs := refs p + 1 |}) else Some s);
      Some (i, s)
  end.

Definition ns_get (s : st) (t i : Z) : option st :=
  if i =? 0 then Some s else x ← nst s !! (t, i); Some (set_ns s t i {| x with refs := refs x + 1 |}).

(** It calls itself for the parent. *)
Fixpoint put (fuel : nat) (s : st) (t i : Z) : option st :=
  if i =? 0 then Some s else
  match fuel with
  | O => None
  | S fuel =>
      x ← nst s !! (t, i);
      let x := {| x with refs := refs x - 1 |} in
      let s := set_ns s t i x in
      if 0 <? refs x then Some s else
      let s := if t =? N_MNT then add_log s (EBindDrop i) else s in
      let s := set_ns s t i {| x with used := false |} in
      if tree t then put fuel s t (parent x) else Some s
  end.

Definition ns_put (s : st) (t i : Z) : option st := put 32 s t i.

Definition ns_idx (p : proc) (t : Z) : Z :=
  if t =? N_MNT then mntns p else if t =? N_UTS then utsns p else if t =? N_IPC then ipcns p
  else if t =? N_USER then userns p else if t =? N_NET then netns p else pidns p.

(** Asked about the current process, if there is one. *)
Definition proc_mntns (p : option proc) : Z := match p with Some p => mntns p | None => 0 end.
Definition ns_loopback_only (p : option proc) : bool := match p with Some p => nz (netns p) | None => false end.

(** ** Names of the machine *)

Section host.
(** The bytes of /etc/hostname, if there is one with contents. *)
Context (hostname : option (list Z)).

Fixpoint line (k : nat) (l : list Z) : list Z :=
  match k, l with S k, c :: l => if c =? 10 then [] else c :: line k l | _, _ => [] end.

(** "samara" and "(none)" *)
Definition host_of (s : st) (i : Z) : list Z * list Z :=
  match uts s !! i with
  | Some hd => hd
  | None =>
      (match hostname with
       | Some l => match line 64 l with [] => [115; 97; 109; 97; 114; 97] | h => h end
       | None => [115; 97; 109; 97; 114; 97]
       end, [40; 110; 111; 110; 101; 41])
  end.

Definition ns_uname (s : st) (p : nat) : option (option (list Z * list Z)) := x ← get_proc s p; Some (uts s !! utsns x).

Definition ns_sethost (s : st) (p : nat) (name : list Z) (n : Z) (dom : bool) : option (Z * st) :=
  if (n <? 0) || (64 <? n) then Some (- EINVAL, s) else
  x ← get_proc s p;
  let i := utsns x in
  let '(h, d) := host_of s i in
  if Z.of_nat (length name) <? n then None else
  let v := firstn (Z.to_nat n) name in
  Some (0, {| s with uts := <[i := if dom then (h, v) else (v, d)]> (uts s) |}).

(** ** Taking part *)

(** The part of [apply] for one kind but pids: the process moves to [n]. *)
Definition move (s : st) (p : nat) (t n : Z) : option st :=
  x ← get_proc s p;
  let s := if t =? N_MNT then add_log s (EBindCopy (mntns x) n) else s in
  let s := if t =? N_UTS then {| s with uts := <[n := host_of s (utsns x)]> (uts s) |} else s in
  s ← ns_put s t (ns_idx x t);
  let x := if t =? N_MNT then {| x with mntns := n |} else if t =? N_UTS then {| x with utsns := n |}
           else if t =? N_IPC then {| x with ipcns := n |} else if t =? N_USER then {| x with userns := n; capx := false |}
           else {| x with netns := n |} in
  ns_get (set_proc s p x) t n.

Definition move_if (s : st) (p : nat) (t n : Z) : option st := if 0 <=? n then move s p t n else Some s.

(** A new namespace if the flag asks for it: its number, -1 if it does not, [None] if there is no room. *)
Definition new_if (s : st) (fl bit t par : Z) : option (option Z * st) :=
  if has fl bit then '(n, s) ← ns_new s t par; Some (if n <? 0 then None else Some n, s) else Some (Some (-1), s).

Definition apply (s : st) (p : nat) (fl : Z) (fork : bool) : option (Z * st) :=
  let s := ns_boot s in
  x ← get_proc s p;
  '(a, s) ← new_if s fl NEWNS N_MNT 0; match a with None => Some (- ENOSPC, s) | Some n_mnt =>
  '(a, s) ← new_if s fl NEWUTS N_UTS 0; match a with None => Some (- ENOSPC, s) | Some n_uts =>
  '(a, s) ← new_if s fl NEWIPC N_IPC 0; match a with None => Some (- ENOSPC, s) | Some n_ipc =>
  '(a, s) ← new_if s fl NEWUSER N_USER (userns x); match a with None => Some (- ENOSPC, s) | Some n_user =>
  '(a, s) ← new_if s fl NEWNET N_NET 0; match a with None => Some (- ENOSPC, s) | Some n_net =>
  let cur := if nz (kidns x) then kidns x else pidns x in
  lv ← (if has fl NEWPID then e ← nst s !! (N_PID, cur); Some (level e) else Some 0);
  if 3 <=? lv then Some (- ENOSPC, s) else
  '(a, s) ← new_if s fl NEWPID N_PID cur; match a with None => Some (- ENOSPC, s) | Some n_pid =>
  s ← move_if s p N_MNT n_mnt;
  s ← move_if s p N_UTS n_uts;
  s ← move_if s p N_IPC n_ipc;
  s ← move_if s p N_USER n_user;
  s ← move_if s p N_NET n_net;
  s ← (if 0 <=? n_pid then
         x ← get_proc s p;
         if fork then ns_get (set_proc s p {| x with pidns := n_pid |}) N_PID n_pid
         else s ← ns_put s N_PID (kidns x); ns_get (set_proc s p {| x with kidns := n_pid |}) N_PID n_pid
       else Some s);
  Some (0, s)
  end end end end end end.

Definition UNSHARE_OK : Z := Z.lor 0x2000000 (Z.lor 0x80 (Z.lor 0x400 (Z.lor 0x200 (Z.lor 0x40000 (Z.lor 0x10000 0x800))))).
Definition ALL_NEW : Z := Z.lor NEWNS (Z.lor NEWUTS (Z.lor NEWIPC (Z.lor NEWUSER (Z.lor NEWPID NEWNET)))).

Definition ns_unshare (s : st) (p : nat) (fl : Z) : option (Z * st) :=
  if nz (Z.ldiff fl (Z.lor ALL_NEW UNSHARE_OK)) then Some (- EINVAL, s) else apply s p (Z.land fl ALL_NEW) false.

(** The pid namespaces of [a], innermost first, and the pids they hand out. *)
Fixpoint give_pids (k : nat) (s : st) (a : Z) (v : list Z) : option (list Z * st) :=
  if a =? 0 then Some (v, s) else
  match k with
  | O => Some (v, s)
  | S k =>
      e ← nst s !! (N_PID, a);
      v ← v.[level e <- next e];
      give_pids k (set_ns s N_PID a {| e with next := i32 (next e + 1) |}) (parent e) v
  end.

(** A new pid namespace for the child, if the parent asked for one. *)
Definition new_pid_ns (s : st) (c : nat) (fl : Z) : option st :=
  if has fl NEWPID then
    y ← get_proc s c;
    let cur := pidns y in
    e ← nst s !! (N_PID, cur);
    if level e <? 3 then
      '(n, s) ← ns_new s N_PID cur;
      if 0 <? n then s ← ns_get (set_proc s c {| y with pidns := n |}) N_PID n; ns_put s N_PID cur else Some s
    else Some s
  else Some s.

Definition ns_fork (s : st) (p c : nat) : option st :=
  let s := ns_boot s in
  x ← get_proc s p;
  let fl := nsfl x in
  let s := set_proc s p {| x with nsfl := 0 |} in
  y ← get_proc s c;
  let y := {| y with mntns := mntns x; utsns := utsns x; ipcns := ipcns x; userns := userns x; netns := netns x;
              pidns := if nz (kidns x) then kidns x else pidns x; kidns := 0 |} in
  let s := set_proc s c y in
  s ← (if is_thread y then Some s else
       s ← ns_get s N_MNT (mntns y); s ← ns_get s N_UTS (utsns y); s ← ns_get s N_IPC (ipcns y);
       s ← ns_get s N_USER (userns y); s ← ns_get s N_NET (netns y); s ← ns_get s N_PID (pidns y);
       s ← (if has fl (Z.lor NEWNS (Z.lor NEWUTS (Z.lor NEWIPC (Z.lor NEWUSER NEWNET)))) then
              '(_, s) ← apply s c (Z.ldiff fl NEWPID) true; Some s else Some s);
       new_pid_ns s c fl);
  y ← get_proc s c;
  v ← (vpid y).[0 <- pid y];
  '(v, s) ← give_pids 4 s (pidns y) v;
  Some (set_proc s c {| y with vpid := v |}).

(** What [alloc_proc] leaves in a free slot. *)
Definition fresh (g : Z) : proc := Proc g g false true 0 0 0 0 0 0 0 [g; 0; 0; 0] 0 false.

Definition alloc_proc (s : st) (g : Z) : option (nat * st) :=
  match first_some (λ i, match procs s !! i with Some None => Some i | _ => None end) (seq 0 (length (procs s))) with
  | Some i => Some (i, set_proc s i (fresh g))
  | None => None
  end.

Definition free_proc (s : st) (c : nat) : st := {| s with procs := <[c := None]> (procs s) |}.

(** What [do_fork] does for a new process that bears on namespaces; [g] is the next pid, [full] the answer of
    [nproc_full], [pd] whether there is an address space, [e] the answer of [start_task].  With the answer
    comes the child that was freed with its references still counted, if any. *)
Definition do_fork (s : st) (p : nat) (g : Z) (full pd : bool) (e : Z) : option (Z * option proc * st) :=
  if full then Some (- EAGAIN, None, s) else
  match alloc_proc s g with
  | None => Some (- EAGAIN, None, s)
  | Some (c, s) =>
      if negb pd then Some (- ENOMEM, None, free_proc s c) else
      s ← ns_fork s p c;
      x ← get_proc s p; y ← get_proc s c;
      let y := {| y with capx := capx x |} in
      let s := set_proc s c y in
      Some (if e <? 0 then (e, Some y, free_proc s c) else (g, None, s))
  end.

(** [proc_clone] without CLONE_THREAD. *)
Definition clone (s : st) (p : nat) (fl g : Z) (full pd : bool) (e : Z) : option (Z * option proc * st) :=
  x ← get_proc s p;
  do_fork (set_proc s p {| x with nsfl := Z.land fl 0x7E020000 |}) p g full pd e.

(** Is [q] in the namespace [n] or below it? *)
Fixpoint inside (k : nat) (s : st) (a n : Z) : option bool :=
  if a =? 0 then Some false else if a =? n then Some true else
  match k with O => None | S k => e ← nst s !! (N_PID, a); inside k s (parent e) n end.

(** The loop of [ns_exit] over the slots; [kill] sends a SIGKILL, and tells if it came back. *)
Fixpoint kill_all (kill : st → nat → option (bool * st)) (p : proc) (l : list nat) (s : st) : option (bool * st) :=
  match l with
  | [] => Some (true, s)
  | i :: l =>
      match get_proc s i with
      | None => kill_all kill p l s
      | Some q =>
          if (tgid q =? tgid p) || negb (alive q) then kill_all kill p l s else
          b ← inside 32 s (pidns q) (pidns p);
          if b : bool then '(back, s) ← kill s i; if back : bool then kill_all kill p l s else Some (false, s) else kill_all kill p l s
      end
  end.

(** Its last part. *)
Definition leave (s : st) (p : nat) : option st :=
  x ← get_proc s p;
  if is_thread x then Some s else
  s ← ns_put s N_MNT (mntns x); s ← ns_put s N_UTS (utsns x); s ← ns_put s N_IPC (ipcns x);
  s ← ns_put s N_USER (userns x); s ← ns_put s N_NET (netns x); s ← ns_put s N_PID (pidns x);
  s ← (if nz (kidns x) then ns_put s N_PID (kidns x) else Some s);
  Some (set_proc s p {| x with mntns := 0; utsns := 0; ipcns := 0; userns := 0; netns := 0; kidns := 0 |}).

Definition ns_exit (kill : st → nat → option (bool * st)) (s : st) (p : nat) : option (bool * st) :=
  x ← get_proc s p;
  '(back, s) ← (if nz (pidns x) then
                  e ← nst s !! (N_PID, pidns x);
                  v ← (vpid x).[level e];
                  if v =? 1 then kill_all kill x (seq 0 (length (procs s))) s else Some (true, s)
                else Some (true, s));
  if back : bool then s ← leave s p; Some (true, s) else Some (false, s).

(** What [teardown] does for namespaces and the state of a process; another process that a SIGKILL is sent to is torn
    down there and then.  If that is the current process [cur], it never comes back: [false]. *)
Fixpoint teardown (fuel : nat) (cur : option nat) (s : st) (p : nat) : option (bool * st) :=
  match fuel with
  | O => None
  | S fuel =>
      '(back, s) ← ns_exit (λ s q, '(back, s) ← teardown fuel cur s q; Some (back && negb (bool_decide (cur = Some q)), s)) s p;
      if back : bool then x ← get_proc s p; Some (true, set_proc s p {| x with alive := false |}) else Some (false, s)
  end.

Definition ns_join (s : st) (p : nat) (t idx : Z) : option (Z * st) :=
  let s := ns_boot s in
  x ← get_proc s p;
  if (idx <? 0) || (NN <=? idx) then Some (- ENOENT, s) else
  e ← nst s !! (t, idx);
  if negb (used e) then Some (- ENOENT, s) else
  s ← ns_get s t idx;
  s ← ns_put s t (if t =? N_PID then kidns x else ns_idx x t);
  Some (0, set_proc s p (
    if t =? N_MNT then {| x with mntns := idx |} else if t =? N_UTS then {| x with utsns := idx |}
    else if t =? N_IPC then {| x with ipcns := idx |} else if t =? N_USER then {| x with userns := idx |}
    else if t =? N_NET then {| x with netns := idx |} else {| x with kidns := idx |})).

End host.

(** ** Views of pids *)

Fixpoint view (k : nat) (s : st) (a target L : Z) : option bool :=
  if a =? target then Some true else
  match k with
  | O => None
  | S k => e ← nst s !! (N_PID, a); if level e <=? L then Some false else view k s (parent e) target L
  end.

Definition ns_pid_view (s : st) (v q : proc) : option Z :=
  e ← nst s !! (N_PID, pidns v);
  b ← view 32 s (pidns q) (pidns v) (level e);
  if b : bool then (vpid q).[level e] else Some 0.

Definition proc_by_pid (s : st) (g : Z) : option proc := first_some (λ o, q ← o; if pid q =? g then Some q else None) (procs s).

Definition ns_gpid (s : st) (v : proc) (g : Z) : option Z :=
  if pidns v =? 0 then Some g else match proc_by_pid s g with Some q => ns_pid_view s v q | None => Some 0 end.

Fixpoint lpid (s : st) (v : proc) (vp : Z) (l : list (option proc)) : option Z :=
  match l with
  | [] => Some 0
  | None :: l => lpid s v vp l
  | Some q :: l => k ← ns_pid_view s v q; if k =? vp then Some (pid q) else lpid s v vp l
  end.

Definition ns_lpid (s : st) (v : proc) (vp : Z) : option Z := if pidns v =? 0 then Some vp else lpid s v vp (procs s).

Definition ns_pid_find (s : st) (v : proc) (vp : Z) : option (option proc) :=
  g ← ns_lpid s v vp; Some (if nz g then proc_by_pid s g else None).

Definition ns_level (s : st) (p : proc) : option Z := e ← nst s !! (N_PID, pidns p); Some (level e).
Definition ns_ino (s : st) (p : proc) (t : Z) : option Z := e ← nst (ns_boot s) !! (t, ns_idx p t); Some (ino e).

(** ** Users *)

Definition maps (s : st) (i : Z) (g : bool) : list imap_t := match um s !! i with Some u => if g then g_map u else u_map u | None => [] end.

Fixpoint map_id (l : list imap_t) (o : Z) : Z :=
  match l with
  | [] => 65534
  | m :: l => if (m_out m <=? o) && (u32 (o - m_out m) <? m_cnt m) then u32 (m_in m + u32 (o - m_out m)) else map_id l o
  end.

Fixpoint id_in (fuel : nat) (s : st) (ns k : Z) (g : bool) : option Z :=
  if ns =? 0 then Some k else
  match fuel with O => None | S fuel => e ← nst s !! (N_USER, ns); o ← id_in fuel s (parent e) k g; Some (map_id (maps s ns g) o) end.

Definition ns_uid (s : st) (p : proc) (g : bool) : option Z := id_in 32 s (userns p) 0 g.

(** What a process writes to its uid_map, gid_map or setgroups (0, 1, 2). *)
Fixpoint blanks (l : list Z) : list Z := match l with c :: l' => if (c =? 32) || (c =? 9) then blanks l' else l | [] => [] end.

Fixpoint digits (v : Z) (l : list Z) : Z * list Z :=
  match l with c :: l' => if (48 <=? c) && (c <=? 57) then digits (u64 (u64 (v * 10) + (c - 48))) l' else (v, l) | [] => (v, []) end.

(** At most [k] numbers of a line. *)
Fixpoint fields (k : nat) (l : list Z) : list Z * list Z :=
  match k, l with
  | S k, c :: _ =>
      if c =? 10 then ([], l) else
      let '(v, l) := digits 0 (blanks l) in
      let '(vs, l) := fields k l in (v :: vs, l)
  | _, _ => ([], l)
  end.

Fixpoint line_end (l : list Z) : list Z := match l with c :: l' => if c =? 10 then l' else line_end l' | [] => [] end.

(** At most [k] lines. *)
Fixpoint id_lines (k : nat) (l : list Z) : option (list imap_t) :=
  match k, l with
  | S k, _ :: _ =>
      match fields 3 l with
      | ([a; b; c], l) => if c =? 0 then None else r ← id_lines k (line_end l); Some (Imap (u32 a) (u32 b) (u32 c) :: r)
      | _ => None
      end
  | _, _ => Some []
  end.

Fixpoint starts (w l : list Z) : bool := match w, l with [], _ => true | a :: w, b :: l => (a =? b) && starts w l | _ :: _, [] => false end.

Definition ns_idmap (s : st) (p : nat) (what : Z) (l : list Z) : option (Z * st) :=
  x ← get_proc s p;
  let i := userns x in
  let u := default (Um [] [] false) (um s !! i) in
  let put u := {| s with um := <[i := u]> (um s) |} in
  if what =? 2 then Some (0, put {| u with sg_deny := starts [100; 101; 110; 121] l |}) else
  if i =? 0 then Some (- EPERM, s) else
  if negb (nz (Z.of_nat (length (maps s i (what =? 1))))) then
    match id_lines 5 l with
    | None | Some [] => Some (- EINVAL, s)
    | Some r => Some (0, put (if what =? 1 then {| u with g_map := r |} else {| u with u_map := r |}))
    end
  else Some (- EPERM, s).

End Ns.
