(* ===== verification/NsSpec.v ===== *)
(** * Namespaces are counted right

    The counts of the namespaces of [Ns] are their users: processes, and in the
    trees of users and pids the namespaces below.  The users are first any function
    [U], since the entries and the process table change one after the other. *)

From S2P Require Import Prelude Ns.

Module NsSpec.
Import Ns.

Abbreviation table := (gmap (Z * Z) ns_t).

Definition child_of (m : table) (t i j : Z) : bool := match m !! (t, j) with Some e => used e && (parent e =? i) | None => false end.

(** The namespaces right below [i]. *)
Definition kids (m : table) (t i : Z) : Z := if tree t then countb (child_of m t i) (seqZ 1 31) else 0.

Definition in_use (m : table) (t j : Z) : bool := match m !! (t, j) with Some e => used e | None => false end.
Definition in_use_n (m : table) (t : Z) : Z := countb (in_use m t) (seqZ 1 31).

Record inv (m : table) (U : Z → Z → Z) : Prop := {
  v_dom : ∀ t i, 0 ≤ t < 6 → 0 ≤ i < 32 → is_Some (m !! (t, i));
  v_root : ∀ t e, 0 ≤ t < 6 → m !! (t, 0) = Some e → used e = true ∧ level e = 0;
  v_refs : ∀ t i e, 0 ≤ t < 6 → 1 ≤ i < 32 → m !! (t, i) = Some e → 0 ≤ U t i ∧ (if used e then refs e = U t i + kids m t i else U t i = 0 ∧ kids m t i = 0);
  v_par : ∀ t i e, 0 ≤ t < 6 → 1 ≤ i < 32 → m !! (t, i) = Some e → used e = true → 0 ≤ parent e < 32;
  v_level : ∀ i e, 1 ≤ i < 32 → m !! (N_PID, i) = Some e → used e = true → 1 ≤ level e ≤ 3 ∧ ∀ p, m !! (N_PID, parent e) = Some p → level e = level p + 1;
  v_next : ∀ i e, 1 ≤ i < 32 → m !! (N_PID, i) = Some e → used e = true → 1 ≤ next e;
  v_rank : ∃ rk : Z → Z → nat, ∀ t i e, 0 ≤ t < 6 → tree t = true → 1 ≤ i < 32 → m !! (t, i) = Some e → used e = true → (rk t (parent e) < rk t i)%nat
}.

Definition plus (U : Z → Z → Z) (t i k : Z) : Z → Z → Z := λ t' i', if (t' =? t) && (i' =? i) then U t' i' + k else U t' i'.

Lemma plus_eq U t i k : plus U t i k t i = U t i + k.
Proof. unfold plus. by rewrite !Z.eqb_refl. Qed.

Lemma plus_ne U t i k t' i' : (t', i') ≠ (t, i) → plus U t i k t' i' = U t' i'.
Proof. intros H. unfold plus. destruct (Z.eqb_spec t' t), (Z.eqb_spec i' i); cbn; try done. by subst. Qed.

Lemma inv_ext m U U' : inv m U → (∀ t i, 0 ≤ t < 6 → 1 ≤ i < 32 → U' t i = U t i) → inv m U'.
Proof. intros [H1 H2 H3 H4 H5 H6 H7] HU. split; try done. intros t i e Ht Hi He. rewrite HU by done. by apply H3. Qed.

Lemma countb_eq {A} (f g : A → bool) l : (∀ x, x ∈ l → f x = g x) → countb f l = countb g l.
Proof. induction l as [|x l IH]; intros H; [done|]. cbn. rewrite (H x) by apply list_elem_of_here. rewrite IH; [done|]. intros y Hy. apply H. by apply list_elem_of_further. Qed.

(** One entry of a sum changes. *)
Lemma countb_one (f g : Z → bool) l k : NoDup l → k ∈ l → (∀ x, x ≠ k → f x = g x) → countb f l = countb g l - b2z (g k) + b2z (f k).
Proof.
  induction l as [|x l IH]; intros Hnd Hk Hne; [by apply elem_of_nil in Hk|]. apply NoDup_cons in Hnd as [Hx Hnd]. cbn. destruct (decide (x = k)) as [->|Hxk].
  - rewrite (countb_eq f g l); [lia|]. intros y Hy. apply Hne. by intros ->.
  - apply elem_of_cons in Hk as [?|Hk]; [done|]. rewrite (IH Hnd Hk Hne), (Hne x) by done. lia.
Qed.

Lemma slots_in i : i ∈ seqZ 1 31 ↔ 1 ≤ i < 32.
Proof. rewrite elem_of_seqZ. lia. Qed.

Lemma child_ne m t i e t' j i' : (t', j) ≠ (t, i) → child_of (<[(t, i) := e]> m) t' i' j = child_of m t' i' j.
Proof. intros H. unfold child_of. by rewrite lookup_insert_ne. Qed.

Lemma child_eq m t i e i' : child_of (<[(t, i) := e]> m) t i' i = used e && (parent e =? i').
Proof. unfold child_of. by rewrite lookup_insert_eq. Qed.

(** The children when an entry changes. *)
Lemma kids_set m t i e0 e t' i' : 1 ≤ i < 32 → m !! (t, i) = Some e0 →
  kids (<[(t, i) := e]> m) t' i' = kids m t' i' + (if decide (t' = t ∧ tree t = true) then b2z (used e && (parent e =? i')) - b2z (used e0 && (parent e0 =? i')) else 0).
Proof.
  intros Hi Hm. unfold kids. destruct (decide (t' = t ∧ tree t = true)) as [[-> Ht]|Hn].
  - rewrite Ht. rewrite (countb_one _ (child_of m t i') _ i (NoDup_seqZ 1 31) (proj2 (slots_in i) Hi)).
    + rewrite child_eq. unfold child_of. rewrite Hm. lia.
    + intros x Hx. apply child_ne. congruence.
  - destruct (tree t') eqn:E; [|lia]. rewrite (countb_eq _ (child_of m t' i')); [lia|]. intros x _. apply child_ne. naive_solver.
Qed.

Lemma kids_keep m t i e0 e t' i' : 1 ≤ i < 32 → m !! (t, i) = Some e0 → used e = used e0 → parent e = parent e0 → kids (<[(t, i) := e]> m) t' i' = kids m t' i'.
Proof. intros Hi Hm H1 H2. rewrite (kids_set _ _ _ e0) by done. rewrite H1, H2. case_decide; lia. Qed.

Lemma kids_root m t e t' i' : kids (<[(t, 0) := e]> m) t' i' = kids m t' i'.
Proof. unfold kids. destruct (tree t'); [|done]. apply countb_eq. intros x Hx%slots_in. apply child_ne. intros [= _ ->]. lia. Qed.

Lemma kids_nonneg m t i : 0 ≤ kids m t i.
Proof. unfold kids. destruct (tree t); [|lia]. apply countb_range. Qed.

(** A used child keeps its parent's count up. *)
Lemma kids_pos m t j e : tree t = true → 1 ≤ j < 32 → m !! (t, j) = Some e → used e = true → 0 < kids m t (parent e).
Proof. intros Ht Hj Hm Hu. unfold kids. rewrite Ht. apply (countb_elem _ _ j); [by apply slots_in|]. unfold child_of. by rewrite Hm, Hu, Z.eqb_refl. Qed.

(** The count and the next pid of a used entry change. *)
Lemma entry_set_inv m U U' t i e e' : inv m U → 0 ≤ t < 6 → 0 ≤ i < 32 → m !! (t, i) = Some e → used e = true → used e' = true → parent e' = parent e → level e' = level e → next e ≤ next e' →
  (1 ≤ i → refs e' - refs e = U' t i - U t i ∧ 0 ≤ U' t i) → (∀ t' i', (t', i') ≠ (t, i) → U' t' i' = U t' i') → inv (<[(t, i) := e']> m) U'.
Proof.
  intros [V1 V2 V3 V4 V5 V7 [rk V6]] Ht Hi Hm Hu Hu' Hp Hl Hnx Hr HU. assert (∀ t' i', kids (<[(t, i) := e']> m) t' i' = kids m t' i') as Hk.
  { intros t' i'. destruct (decide (i = 0)) as [->|]; [apply kids_root|]. apply (kids_keep _ _ _ e); [lia|done|congruence|done]. }
  assert (∀ t' i' x, <[(t, i) := e']> m !! (t', i') = Some x → ∃ y, m !! (t', i') = Some y ∧ used x = used y ∧ parent x = parent y ∧ level x = level y ∧ ((t', i') = (t, i) ∧ x = e' ∧ y = e ∨ (t', i') ≠ (t, i) ∧ x = y)) as Hx.
  { intros t' i' x. destruct (decide ((t', i') = (t, i))) as [[= -> ->]|Hne]; [rewrite lookup_insert_eq; intros [= <-]; exists e; split_and!; auto; congruence|]. rewrite lookup_insert_ne by congruence. intros H. exists x. split_and!; auto. }
  split.
  - intros t' i' Ht' Hi'. destruct (decide ((t', i') = (t, i))) as [E|E]; [rewrite E, lookup_insert_eq; by eexists|]. rewrite lookup_insert_ne by congruence. by apply V1.
  - intros t' x Ht' (y & Hy & Eu & _ & El & _)%Hx. rewrite Eu, El. by apply (V2 t').
  - intros t' i' x Ht' Hi' (y & Hy & Eu & _ & _ & Hc)%Hx. rewrite Hk. destruct (V3 t' i' y Ht' Hi' Hy) as [W1 W2]. destruct Hc as [([= -> ->] & -> & ->)|[Hne ->]]; [|rewrite HU by done; done].
    rewrite Hu in W2. rewrite Hu'. destruct (Hr ltac:(lia)). split; [done|]. lia.
  - intros t' i' x Ht' Hi' (y & Hy & Eu & Ep & _)%Hx Hux. rewrite Ep. apply (V4 t' i'); [done..|congruence].
  - intros i' x Hi' (y & Hy & Eu & Ep & El & _)%Hx Hux. destruct (V5 i' y Hi' Hy ltac:(congruence)) as [W1 W2]. rewrite El, Ep. split; [done|]. intros p (q & Hq & _ & _ & Elq & _)%Hx. rewrite Elq. by apply W2.
  - intros i' x Hi' (y & Hy & Eu & _ & _ & Hc)%Hx Hux. pose proof (V7 i' y Hi' Hy ltac:(congruence)). destruct Hc as [(_ & -> & ->)|[_ ->]]; lia.
  - exists rk. intros t' i' x Ht' Htr Hi' (y & Hy & Eu & Ep & _)%Hx Hux. rewrite Ep. apply (V6 t' i' y); [done..|congruence].
Qed.

(** A namespace of a count goes: nobody uses it any more; its parent loses a child. *)
Lemma inv_free m U t i e : inv m U → 0 ≤ t < 6 → 1 ≤ i < 32 → m !! (t, i) = Some e → used e = true → U t i = 1 → kids m t i = 0 →
  inv (<[(t, i) := {| e with refs := 0; used := false |}]> m) (if tree t then plus (plus U t i (-1)) t (parent e) 1 else plus U t i (-1)).
Proof.
  intros Hinv Ht Hi Hm Hu HU Hk. destruct Hinv as [V1 V2 V3 V4 V5 V7 [rk V6]]. set (e' := {| e with refs := 0; used := false |}). set (U1 := plus U t i (-1)).
  assert (∀ t' i' x, <[(t, i) := e']> m !! (t', i') = Some x → used x = true → (t', i') ≠ (t, i) ∧ m !! (t', i') = Some x) as Hx. { intros t' i' x H Hux. apply lookup_insert_Some in H as [[_ <-]|[Hne H]]; [done|]. split; [congruence|done]. }
  assert (tree t = true → parent e ≠ i) as Hpi. { intros Htr E. pose proof (V6 t i e Ht Htr Hi Hm Hu). rewrite E in *. lia. }
  assert (∀ t' i', (t', i') ≠ (t, i) → (if tree t then plus U1 t (parent e) 1 else U1) t' i' + kids (<[(t, i) := e']> m) t' i' = U t' i' + kids m t' i') as Hsum.
  { intros t' i' Hne. rewrite (kids_set m t i e e' t' i' Hi Hm), Hu. cbn [used e' andb b2z]. assert (U1 t' i' = U t' i') as E1 by (by apply plus_ne). destruct (tree t) eqn:Htr; [|rewrite E1, decide_False by naive_solver; lia].
    unfold plus at 1. destruct (Z.eqb_spec t' t) as [->|]; cbn [andb]; [rewrite decide_True by done|rewrite decide_False by naive_solver; rewrite E1; lia]. rewrite (Z.eqb_sym (parent e)). destruct (i' =? parent e); cbn; rewrite E1; lia. }
  assert (∀ t' i', U t' i' ≤ (if tree t then plus U1 t (parent e) 1 else U1) t' i' ∨ (t', i') = (t, i)) as Hle. { intros t' i'. destruct (decide ((t', i') = (t, i))); [by right|left]. unfold U1. destruct (tree t); [|by rewrite plus_ne]. unfold plus at 1. destruct (_ && _); rewrite plus_ne by done; lia. }
  split.
  - intros t' i' Ht' Hi'. destruct (decide ((t', i') = (t, i))) as [E|E]; [rewrite E, lookup_insert_eq; by eexists|]. rewrite lookup_insert_ne by congruence. by apply V1.
  - intros t' x Ht'. rewrite lookup_insert_ne by (intros [= _ ?]; lia). by apply V2.
  - intros t' i' x Ht' Hi' Hxm. apply lookup_insert_Some in Hxm as [[[= <- <-] <-]|[Hne Hxm]].
    + cbn. assert ((if tree t then plus U1 t (parent e) 1 else U1) t i = 0) as ->. { assert (U1 t i = 0) as E1 by (unfold U1; rewrite plus_eq; lia). destruct (tree t) eqn:Htr; [|done]. rewrite plus_ne; [done|]. intros [= E]. by apply Hpi. }
      split; [lia|]. split; [done|]. rewrite (kids_set m t i e e' t i Hi Hm), Hk, Hu. case_decide as Hd; [|lia]. rewrite (proj2 (Z.eqb_neq (parent e) i)) by apply Hpi, Hd. done.
    + assert ((t', i') ≠ (t, i)) as Hne' by congruence. pose proof (Hsum t' i' Hne') as Hs. destruct (V3 t' i' x Ht' Hi' Hxm) as [W1 W2]. destruct (Hle t' i') as [Hge|?]; [|done]. split; [lia|]. destruct (used x) eqn:Hux; [lia|].
      pose proof (kids_nonneg (<[(t, i) := e']> m) t' i'). lia.
  - intros t' i' x Ht' Hi' Hxm Hux. destruct (Hx t' i' x Hxm Hux) as [_ Hxm']. by apply (V4 t' i').
  - intros i' x Hi' Hxm Hux. destruct (Hx _ i' x Hxm Hux) as [Hne Hxm']. destruct (V5 i' x Hi' Hxm' Hux) as [W1 W2]. split; [done|]. intros p Hp. apply lookup_insert_Some in Hp as [[[= E1 E2] <-]|[_ Hp]]; [|by apply W2]. cbn. apply W2. by rewrite <- E1, <- E2.
  - intros i' x Hi' Hxm Hux. destruct (Hx _ i' x Hxm Hux) as [_ Hxm']. by apply (V7 i').
  - exists rk. intros t' i' x Ht' Htr Hi' Hxm Hux. destruct (Hx t' i' x Hxm Hux) as [_ Hxm']. by apply (V6 t' i').
Qed.

(** How many entries of a kind are in use goes down. *)
Lemma used_less m t i e : 1 ≤ i < 32 → m !! (t, i) = Some e → used e = true → ∀ e', used e' = false → in_use_n (<[(t, i) := e']> m) t = in_use_n m t - 1.
Proof.
  intros Hi Hm Hu e' Hu'. unfold in_use_n. rewrite (countb_one _ (in_use m t) _ i (NoDup_seqZ 1 31) (proj2 (slots_in i) Hi)).
  - unfold in_use. rewrite Hm, lookup_insert_eq, Hu, Hu'. cbn. lia.
  - intros x Hx. unfold in_use. rewrite lookup_insert_ne by congruence. done.
Qed.

Lemma used_same m t i e e' : 0 ≤ i < 32 → m !! (t, i) = Some e → used e' = used e → in_use_n (<[(t, i) := e']> m) t = in_use_n m t.
Proof.
  intros Hi Hm Hu. unfold in_use_n. apply countb_eq. intros x _. unfold in_use. destruct (decide (x = i)) as [->|]; [by rewrite lookup_insert_eq, Hm|]. by rewrite lookup_insert_ne by congruence.
Qed.

(** The parts of a state that counting does not touch. *)
Definition rest_same (s s' : st) : Prop := next_ino s' = next_ino s ∧ uts s' = uts s ∧ um s' = um s ∧ done s' = done s ∧ procs s' = procs s.

(** What stays of an entry in use: where it is in the tree. *)
Definition entry_same (m m' : table) : Prop := ∀ t i e', m' !! (t, i) = Some e' → ∃ e, m !! (t, i) = Some e ∧ parent e' = parent e ∧ level e' = level e ∧ next e' = next e ∧ (used e' = true → used e = true).

Lemma entry_same_trans m1 m2 m3 : entry_same m1 m2 → entry_same m2 m3 → entry_same m1 m3.
Proof. intros H1 H2 t i e3 H. destruct (H2 t i e3 H) as (e2 & He2 & A1 & A2 & A3 & A4). destruct (H1 t i e2 He2) as (e1 & He1 & B1 & B2 & B3 & B4). exists e1. split_and!; try done; [congruence..|auto]. Qed.

Lemma entry_same_set m t i e e' : m !! (t, i) = Some e → parent e' = parent e → level e' = level e → next e' = next e → (used e' = true → used e = true) → entry_same m (<[(t, i) := e']> m).
Proof. intros Hm H1 H2 H3 H4 t' i' x. destruct (decide ((t', i') = (t, i))) as [[= -> ->]|]; [rewrite lookup_insert_eq; intros [= <-]; by exists e|]. rewrite lookup_insert_ne by congruence. intros Hx. by exists x. Qed.

(** Only entries of kind [t] change. *)
Definition only (m m' : table) (t : Z) : Prop := ∀ t' i, t' ≠ t → m' !! (t', i) = m !! (t', i).

(** A namespace that nobody uses yet. *)
Definition idle (m : table) (U : Z → Z → Z) (t i : Z) : Prop := U t i = 0 ∧ kids m t i = 0.

Lemma put_fuel_ok fuel : ∀ s U t i, inv (nst s) U → 0 ≤ t < 6 → 0 ≤ i < 32 → (i ≠ 0 → 1 ≤ U t i) → in_use_n (nst s) t < Z.of_nat fuel →
  ∃ s', put fuel s t i = Some s' ∧ inv (nst s') (plus U t i (-1)) ∧ rest_same s s' ∧ entry_same (nst s) (nst s') ∧ only (nst s) (nst s') t ∧ ∀ j, 1 ≤ j < 32 → idle (nst s) U t j → nst s' !! (t, j) = nst s !! (t, j).
Proof.
  induction fuel as [|fuel IH]; intros s U t i Hinv Ht Hi HU Hf; cbn [put].
  { pose proof (countb_range (in_use (nst s) t) (seqZ 1 31)). unfold in_use_n in Hf. lia. }
  destruct (Z.eqb_spec i 0) as [->|Hi0].
  { exists s. split; [done|]. split; [|split_and!; try done; intros t' i' e He; by exists e]. apply (inv_ext _ U); [done|]. intros t' i' _ Hi'. apply plus_ne. intros [= _ ->]. lia. }
  destruct (v_dom _ _ Hinv t i Ht Hi) as [e He]. rewrite He. cbn [mbind option_bind]. destruct (v_refs _ _ Hinv t i e Ht ltac:(lia) He) as [_ Hr]. specialize (HU Hi0). destruct (used e) eqn:Hu; [|lia]. pose proof (kids_nonneg (nst s) t i) as Hk.
  cbv zeta. cbn [refs]. destruct (Z.ltb_spec 0 (refs e - 1)) as [Hr1|Hr1].
  { eexists. split; [reflexivity|]. split; [|split; [done|]; split; [by apply (entry_same_set _ _ _ e)|]; cbn; split; [intros t' i' Hne; by rewrite lookup_insert_ne by congruence|]; intros j Hj [Hj1 _]; rewrite lookup_insert_ne; [done|intros [= <-]; lia]]. apply (entry_set_inv _ U _ t i e); try done; [|intros t' i' Hne; by apply plus_ne]. intros _. rewrite plus_eq. cbn. lia. }
  assert (U t i = 1 ∧ kids (nst s) t i = 0) as [HU1 Hk0] by lia. pose proof (inv_free (nst s) U t i e Hinv Ht ltac:(lia) He Hu HU1 Hk0) as Hfree.
  set (s1 := set_ns _ t i _). assert (nst s1 = <[(t, i) := {| e with refs := 0; used := false |}]> (nst s)) as En. { unfold s1, set_ns. destruct (t =? N_MNT); cbn; rewrite insert_insert_eq; repeat f_equal; lia. }
  assert (rest_same s s1) as Hsame by (unfold s1; by destruct (t =? N_MNT)). assert (entry_same (nst s) (nst s1)) as Hent by (rewrite En; by apply (entry_same_set _ _ _ e)).
  assert (only (nst s) (nst s1) t ∧ ∀ j, 1 ≤ j < 32 → idle (nst s) U t j → nst s1 !! (t, j) = nst s !! (t, j)) as [Honly Hidle]. { rewrite En. split; [intros t' i' Hne; by rewrite lookup_insert_ne by congruence|]. intros j Hj [Hj1 _]. rewrite lookup_insert_ne; [done|intros [= <-]; lia]. }
  destruct (tree t) eqn:Htr; [|exists s1; split; [done|]; split; [by rewrite En|done]]. pose proof (kids_pos (nst s) t i e Htr ltac:(lia) He Hu) as Hpos. rewrite <- En in Hfree. cbn [parent].
  destruct (IH s1 _ t (parent e) Hfree Ht) as (s' & Ep & Hi' & Hs' & He' & Ho' & Hd').
  - by apply (v_par _ _ Hinv t i e Ht ltac:(lia) He Hu).
  - intros Hp0. rewrite plus_eq. destruct (v_rank _ _ Hinv) as [rk Hrk]. specialize (Hrk t i e Ht Htr ltac:(lia) He Hu). rewrite plus_ne by (intros [= E]; rewrite E in Hrk; lia).
    destruct (v_par _ _ Hinv t i e Ht ltac:(lia) He Hu) as [P1 P2]. destruct (v_dom _ _ Hinv t (parent e) Ht ltac:(lia)) as [pe Hpe]. destruct (v_refs _ _ Hinv t (parent e) pe Ht ltac:(lia) Hpe). lia.
  - rewrite En, (used_less _ t i e) by (done || lia). lia.
  - exists s'. split; [done|]. split; [|split; [|split; [by apply (entry_same_trans _ (nst s1))|split]]].
    + apply (inv_ext _ _ _ Hi'). intros t' i' Ht' Hi1. destruct (decide ((t', i') = (t, parent e))) as [[= -> ->]|Hne]; [rewrite !plus_eq; lia|]. by rewrite !(plus_ne _ t (parent e)) by done.
    + destruct Hsame as (? & ? & ? & ? & ?), Hs' as (? & ? & ? & ? & ?). split_and!; congruence.
    + intros t' i' Hne. rewrite Ho' by done. by apply Honly.
    + intros j Hj [Hj1 Hj2]. rewrite <- (Hidle j Hj) by done. apply Hd'; [done|]. assert (j ≠ parent e) by (intros ->; lia). assert (j ≠ i) by (intros ->; lia). split; [by rewrite !plus_ne by congruence|]. pose proof (kids_nonneg (nst s1) t j). rewrite En, (kids_set _ t i e) in * by (done || lia). rewrite Hu in *. cbn in *. destruct (decide _), (parent e =? j); cbn in *; lia.
Qed.

Lemma used_bound m t : in_use_n m t < 32.
Proof. pose proof (countb_range (in_use m t) (seqZ 1 31)) as H. rewrite length_seqZ in H. unfold in_use_n. lia. Qed.

Lemma ns_put_ok s U t i : inv (nst s) U → 0 ≤ t < 6 → 0 ≤ i < 32 → (i ≠ 0 → 1 ≤ U t i) → ∃ s', ns_put s t i = Some s' ∧ inv (nst s') (plus U t i (-1)) ∧ rest_same s s' ∧ entry_same (nst s) (nst s') ∧ only (nst s) (nst s') t ∧ ∀ j, 1 ≤ j < 32 → idle (nst s) U t j → nst s' !! (t, j) = nst s !! (t, j).
Proof. intros H1 H2 H3 H4. apply put_fuel_ok; [done..|]. pose proof (used_bound (nst s) t). lia. Qed.

(** There to be taken: the first namespace, or one in use. *)
Definition there (m : table) (t i : Z) : Prop := 0 ≤ i < 32 ∧ (i ≠ 0 → in_use m t i = true).

Lemma there_entry m U t i : inv m U → 0 ≤ t < 6 → there m t i → ∃ e, m !! (t, i) = Some e ∧ used e = true.
Proof.
  intros Hinv Ht [Hi Hu]. destruct (v_dom _ _ Hinv t i Ht Hi) as [e He]. exists e. split; [done|]. destruct (decide (i = 0)) as [->|Hi0]; [by apply (v_root _ _ Hinv t)|]. specialize (Hu Hi0). unfold in_use in Hu. by rewrite He in Hu.
Qed.

(** Used namespaces are those with users. *)
Lemma user_there m U t i : inv m U → 0 ≤ t < 6 → 0 ≤ i < 32 → (i ≠ 0 → 1 ≤ U t i) → there m t i.
Proof.
  intros Hinv Ht Hi HU. split; [done|]. intros Hi0. destruct (v_dom _ _ Hinv t i Ht Hi) as [e He]. unfold in_use. rewrite He. destruct (v_refs _ _ Hinv t i e Ht ltac:(lia) He) as [_ Hr]. destruct (used e); [done|]. specialize (HU Hi0). lia.
Qed.

Lemma parent_there m U t i e : inv m U → 0 ≤ t < 6 → tree t = true → 1 ≤ i < 32 → m !! (t, i) = Some e → used e = true → there m t (parent e).
Proof.
  intros Hinv Ht Htr Hi He Hu. pose proof (v_par _ _ Hinv t i e Ht Hi He Hu) as Hp. split; [done|]. intros Hp0. destruct (v_dom _ _ Hinv t (parent e) Ht Hp) as [p Hpe]. unfold in_use. rewrite Hpe.
  destruct (v_refs _ _ Hinv t (parent e) p Ht ltac:(lia) Hpe) as [_ Hr]. destruct (used p); [done|]. pose proof (kids_pos m t i e Htr Hi He Hu). lia.
Qed.

Lemma ns_get_ok s U t i : inv (nst s) U → 0 ≤ t < 6 → there (nst s) t i → ∃ s', ns_get s t i = Some s' ∧ inv (nst s') (plus U t i 1) ∧ rest_same s s' ∧ log s' = log s ∧ only (nst s) (nst s') t ∧
  ∀ t' i' e', nst s' !! (t', i') = Some e' → ∃ e, nst s !! (t', i') = Some e ∧ parent e' = parent e ∧ level e' = level e ∧ next e' = next e ∧ used e' = used e.
Proof.
  intros Hinv Ht Hth. unfold ns_get. destruct (Z.eqb_spec i 0) as [->|Hi0].
  { exists s. split_and!; try done; [|intros t' i' e He; by exists e]. apply (inv_ext _ U); [done|]. intros t' i' _ Hi'. apply plus_ne. intros [= _ ->]. lia. }
  destruct (there_entry _ _ _ _ Hinv Ht Hth) as (e & He & Hu). destruct Hth as [Hi _]. rewrite He. cbn [mbind option_bind]. eexists. split; [reflexivity|]. split; [|split_and!; try done].
  - destruct (v_refs _ _ Hinv t i e Ht ltac:(lia) He) as [HU _]. apply (entry_set_inv _ U _ t i e); try done; [|intros t' i' Hne; by apply plus_ne]. intros _. rewrite plus_eq. cbn. lia.
  - intros t' i' Hne. cbn. by rewrite lookup_insert_ne by congruence.
  - intros t' i' x. cbn. destruct (decide ((t', i') = (t, i))) as [[= -> ->]|]; [rewrite lookup_insert_eq; intros [= <-]; by exists e|]. rewrite lookup_insert_ne by congruence. intros Hx. by exists x.
Qed.

(** A slot is taken for a new namespace below [par]. *)
Lemma inv_take m U t i e0 par pe k : inv m U → 0 ≤ t < 6 → 1 ≤ i < 32 → m !! (t, i) = Some e0 → used e0 = false → m !! (t, par) = Some pe → used pe = true → 0 ≤ par < 32 → (t = N_PID → level pe ≤ 2) →
  let m1 := <[(t, i) := Entry true 0 k par (if t =? N_PID then level pe + 1 else 0) 1]> m in
  inv (if tree t then <[(t, par) := {| pe with refs := refs pe + 1 |}]> m1 else m1) U.
Proof.
  intros Hinv Ht Hi Hm Hu Hp Hpu Hpar Hlev. cbv zeta. set (e := Entry true 0 k par _ 1). destruct Hinv as [V1 V2 V3 V4 V5 V7 [rk V6]]. assert (par ≠ i) as Hpi by (intros ->; congruence).
  destruct (V3 t i e0 Ht Hi Hm) as [_ Hz]. rewrite Hu in Hz. destruct Hz as [HU0 Hk0].
  set (m2 := if tree t then _ else _). assert (∀ t' i' x, m2 !! (t', i') = Some x → (t', i') = (t, i) ∧ x = e ∨ (t', i') ≠ (t, i) ∧ ∃ y, m !! (t', i') = Some y ∧ used x = used y ∧ parent x = parent y ∧ level x = level y ∧ refs x = refs y + b2z (tree t && (t' =? t) && (i' =? par)) ∧ next x = next y) as Hx.
  { intros t' i' x H. assert (m2 !! (t, i) = Some e) as He by (unfold m2; destruct (tree t); rewrite ?lookup_insert_ne by congruence; apply lookup_insert_eq). destruct (decide ((t', i') = (t, i))) as [[= -> ->]|Hne]; [left; split; [done|congruence]|]. right. split; [done|].
    unfold m2 in H. destruct (tree t); cbn [andb]; [|rewrite lookup_insert_ne in H by congruence; exists x; rewrite Z.add_0_r; done]. destruct (decide ((t', i') = (t, par))) as [[= -> ->]|Hnp]; [rewrite lookup_insert_eq in H; injection H as <-; exists pe; rewrite !Z.eqb_refl; done|].
    rewrite !lookup_insert_ne in H by congruence. exists x. split_and!; try done. destruct (Z.eqb_spec t' t), (Z.eqb_spec i' par); cbn; try lia. congruence. }
  assert (∀ t' i', kids m2 t' i' = kids m t' i' + b2z (tree t && (t' =? t) && (i' =? par))) as Hk.
  { intros t' i'. transitivity (kids (<[(t, i) := e]> m) t' i').
    - unfold m2. destruct (tree t); [|done]. destruct (decide (par = 0)) as [->|]; [apply kids_root|]. apply (kids_keep _ _ _ pe); [lia|rewrite lookup_insert_ne by congruence; done|done|done].
    - rewrite (kids_set m t i e0 e t' i' Hi Hm), Hu. cbn [used parent e andb b2z]. destruct (Z.eqb_spec t' t) as [->|]; [|rewrite decide_False by naive_solver; rewrite andb_false_r; cbn; lia]. destruct (tree t); [rewrite decide_True by done|rewrite decide_False by naive_solver; cbn; lia]. cbn [andb]. rewrite (Z.eqb_sym par). cbn. lia. }
  split.
  - intros t' i' Ht' Hi'. assert (is_Some (m !! (t', i'))) by (by apply V1). unfold m2. destruct (tree t), (decide ((t', i') = (t, i))) as [E|E], (decide ((t', i') = (t, par))) as [E'|E']; rewrite ?E, ?E', ?lookup_insert_eq by done; try (by eexists); rewrite ?lookup_insert_ne by congruence; rewrite ?lookup_insert_eq; try done; by eexists.
  - intros t' x Ht' [[[= -> ?] _]|[_ (y & Hy & Eu & _ & El & _)]]%Hx; [lia|]. rewrite Eu, El. by apply (V2 t').
  - intros t' i' x Ht' Hi' [[[= -> ->] ->]|[Hne (y & Hy & Eu & Ep & El & Er & _)]]%Hx; rewrite Hk.
    + rewrite (proj2 (Z.eqb_neq i par)) by congruence. rewrite andb_false_r. cbn. split; [lia|]. lia.
    + destruct (V3 t' i' y Ht' Hi' Hy) as [W1 W2]. split; [done|]. rewrite Eu. destruct (used y) eqn:Huy; [lia|]. destruct (Z.eqb_spec t' t) as [->|], (Z.eqb_spec i' par) as [->|]; rewrite ?andb_false_r; cbn; try (split; lia). congruence.
  - intros t' i' x Ht' Hi' [[[= -> ->] ->]|[Hne (y & Hy & Eu & Ep & El & Er & _)]]%Hx Hux; [done|]. rewrite Ep. apply (V4 t' i'); [done..|congruence].
  - intros i' x Hi' Hxm Hux. assert (∀ q p, m2 !! (N_PID, q) = Some p → (N_PID, q) ≠ (t, i) → ∃ p', m !! (N_PID, q) = Some p' ∧ level p = level p') as Hq. { intros q p [[? _]|[_ (p' & Hp' & _ & _ & El & _)]]%Hx Hne; [done|]. by exists p'. }
    apply Hx in Hxm as [[[= <- ->] ->]|[Hne (y & Hy & Eu & Ep & El & Er & _)]].
    + cbn [level parent e]. rewrite Z.eqb_refl. assert (N_PID = 5) as _ by done. assert (0 ≤ level pe) as Hl0. { destruct (decide (par = 0)) as [->|]; [destruct (V2 N_PID pe Ht Hp); lia|]. destruct (V5 par pe ltac:(lia) Hp Hpu). lia. } specialize (Hlev eq_refl). split; [lia|]. intros p Hpp. destruct (Hq par p Hpp) as (p' & Hp' & ->); [congruence|]. congruence.
    + destruct (V5 i' y Hi' Hy ltac:(congruence)) as [W1 W2]. rewrite El, Ep. split; [done|]. intros p Hpp. destruct (Hq (parent y) p Hpp) as (p' & Hp' & ->); [|by apply W2]. intros [= <- E]. pose proof (kids_pos m N_PID i' y eq_refl Hi' Hy ltac:(congruence)) as Hpos. rewrite E in Hpos. lia.
  - intros i' x Hi' [[_ ->]|[_ (y & Hy & Eu & _ & _ & _ & En)]]%Hx Hux; [cbn; lia|]. rewrite En. apply (V7 i'); [done..|congruence].
  - exists (λ t' i', if decide ((t', i') = (t, i)) then S (rk t par) else rk t' i'). intros t' i' x Ht' Htr Hi' [[[= -> ->] ->]|[Hne (y & Hy & Eu & Ep & El & Er & _)]]%Hx Hux.
    + cbn [parent e]. rewrite decide_False by congruence. rewrite decide_True by done. lia.
    + rewrite Ep. rewrite (decide_False (P := (t', i') = (t, i))) by done. rewrite decide_False; [apply (V6 t' i'); [done..|congruence]|]. intros [= -> E]. pose proof (kids_pos m t i' y Htr Hi' Hy ltac:(congruence)) as Hpos. rewrite E in Hpos. lia.
Qed.

(** ** Id maps *)

Lemma id_lines_bound k : ∀ l r, id_lines k l = Some r → (length r ≤ k)%nat.
Proof.
  induction k as [|k IH]; intros l r; cbn [id_lines]; [intros [= <-]; cbn; lia|]. destruct l as [|a l]; [intros [= <-]; cbn; lia|]. destruct (fields 3 (a :: l)) as [[|x [|y [|z [|]]]] l']; try done. destruct (z =? 0); [done|].
  destruct (id_lines k (line_end l')) as [r'|] eqn:E; [|done]. intros [= <-]. cbn. specialize (IH _ _ E). lia.
Qed.

(** The map of a user namespace is set once, to at most five lines; nothing but the map changes. *)
Lemma ns_idmap_once s p x what l s' : get_proc s p = Some x → what = 0 ∨ what = 1 → ns_idmap s p what l = Some (0, s') →
  maps s (userns x) (what =? 1) = [] ∧ 1 ≤ Z.of_nat (length (maps s' (userns x) (what =? 1))) ≤ 5 ∧ nst s' = nst s ∧ procs s' = procs s ∧
  (∀ j g, (j, g) ≠ (userns x, what =? 1) → maps s' j g = maps s j g) ∧ ∀ l', ns_idmap s' p what l' = Some (- EPERM, s').
Proof.
  intros Hp Hw. unfold ns_idmap at 1. rewrite Hp. cbn [mbind option_bind]. cbv zeta. destruct (Z.eqb_spec what 2) as [->|_]; [lia|]. destruct (Z.eqb_spec (userns x) 0) as [E0|E0]; [done|]. set (g := what =? 1). destruct (nz _) eqn:En; [done|]. cbn [negb]. apply nz_false in En. assert (maps s (userns x) g = []) as Hm by (by destruct (maps s (userns x) g)).
  destruct (id_lines 5 l) as [[|a r]|] eqn:El; [done| |done]. intros [= <-]. pose proof (id_lines_bound _ _ _ El) as Hb. set (u' := if g then _ else _).
  assert (∀ j h, maps {| s with um := <[userns x := u']> (um s) |} j h = if decide ((j, h) = (userns x, g)) then a :: r else maps s j h) as Hmaps.
  { intros j h. unfold maps. cbn [um]. destruct (decide (j = userns x)) as [->|Hj]; [|rewrite lookup_insert_ne, decide_False by congruence; done]. rewrite lookup_insert_eq. unfold u'. destruct g, h; cbn; first [rewrite decide_True by done; done|rewrite decide_False by congruence; by destruct (um s !! userns x)]. }
  split; [done|]. rewrite Hmaps, decide_True by done. split; [cbn in *; lia|]. split; [done|]. split; [done|]. split; [intros j h Hj; by rewrite Hmaps, decide_False|].
  intros l'. unfold ns_idmap. change (get_proc {| s with um := <[userns x := u']> (um s) |} p) with (get_proc s p). rewrite Hp. cbn [mbind option_bind]. cbv zeta. rewrite (proj2 (Z.eqb_neq what 2)) by lia. rewrite (proj2 (Z.eqb_neq _ _) E0). fold g. by rewrite Hmaps, decide_True.
Qed.

End NsSpec.
