(* ===== verification/NsRun.v ===== *)
(** * Processes and their namespaces

    Unsharing, forking, joining and leaving namespaces keep the counts of [NsSpec]
    equal to the processes in them; the pids a namespace hands out tell its
    processes apart. *)

From S2P Require Import Prelude Ns NsSpec.

Module NsRun.
Import Ns NsSpec.

(** ** A new namespace *)

Definition new_entry (m : table) (t par n : Z) : Prop :=
  ∃ e pe, m !! (t, n) = Some e ∧ used e = true ∧ parent e = par ∧ next e = 1 ∧ m !! (t, par) = Some pe ∧ (t = N_PID → level e = level pe + 1).

(** Every entry but [n] is as it was, up to its count. *)
Definition grown (m m' : table) (t n : Z) : Prop :=
  ∀ t' i e', (t', i) ≠ (t, n) → m' !! (t', i) = Some e' → ∃ e, m !! (t', i) = Some e ∧ parent e' = parent e ∧ level e' = level e ∧ next e' = next e ∧ used e' = used e.

Lemma find_slot s t i : first_some (λ i, if free_slot s t i then Some i else None) (seqZ 1 31) = Some i → 1 ≤ i < 32 ∧ ∃ e, nst s !! (t, i) = Some e ∧ used e = false.
Proof.
  intros H. assert (∀ l, first_some (λ i, if free_slot s t i then Some i else None) l = Some i → i ∈ l ∧ free_slot s t i = true) as Hf.
  { induction l as [|x l IH]; cbn; [done|]. destruct (free_slot s t x) eqn:E; [intros [= ->]; split; [apply list_elem_of_here|done]|]. intros [H1 H2]%IH. split; [by apply list_elem_of_further|done]. }
  destruct (Hf _ H) as [Hi%slots_in Hs]. split; [done|]. unfold free_slot in Hs. destruct (nst s !! (t, i)) as [e|]; [|done]. exists e. by destruct (used e).
Qed.

Lemma boot_id s : done s = true → ns_boot s = s.
Proof. unfold ns_boot. by intros ->. Qed.

Lemma ns_new_ok s U t par : inv (nst s) U → done s = true → 0 ≤ t < 6 → there (nst s) t par → (t = N_PID → ∀ pe, nst s !! (t, par) = Some pe → level pe ≤ 2) →
  ∃ n s', ns_new s t par = Some (n, s') ∧ inv (nst s') U ∧ done s' = true ∧ procs s' = procs s ∧ only (nst s) (nst s') t ∧
    (n = -1 ∧ s' = s ∨ 1 ≤ n < 32 ∧ in_use (nst s) t n = false ∧ idle (nst s') U t n ∧ new_entry (nst s') t par n ∧ grown (nst s) (nst s') t n).
Proof.
  intros Hinv Hd Ht Hth Hlev. unfold ns_new. rewrite (boot_id s Hd). cbv zeta. destruct (first_some _ (seqZ 1 31)) as [i|] eqn:Ef; [|exists (-1), s; split_and!; auto; done].
  destruct (find_slot s t i Ef) as (Hi & e0 & He0 & Hu0). destruct (there_entry _ _ _ _ Hinv Ht Hth) as (pe & Hpe & Hpu). destruct Hth as [Hpar _]. rewrite Hpe. cbn [mbind option_bind]. assert (par ≠ i) as Hpi by (intros ->; congruence).
  pose proof (inv_take (nst s) U t i e0 par pe (next_ino s) Hinv Ht Hi He0 Hu0 Hpe Hpu Hpar (λ E, Hlev E pe Hpe)) as Hinv2. cbv zeta in Hinv2. set (e := Entry true 0 (next_ino s) par _ 1) in *. set (m1 := <[(t, i) := e]> (nst s)) in *. set (m2 := if tree t then _ else m1) in *.
  assert (m1 !! (t, par) = Some pe) as Hp1 by (unfold m1; rewrite lookup_insert_ne by congruence; done).
  set (s1 := if t =? N_USER then _ else _). assert (nst s1 = m1 ∧ done s1 = true ∧ procs s1 = procs s) as (E1 & E2 & E3) by (unfold s1; by destruct (t =? N_USER)).
  assert (∃ s', (if tree t then p ← nst s1 !! (t, par); Some (set_ns s1 t par {| p with refs := refs p + 1 |}) else Some s1) = Some s' ∧ nst s' = m2 ∧ done s' = true ∧ procs s' = procs s) as (s' & -> & En & Ed & Ep).
  { unfold m2. destruct (tree t); [|by exists s1]. rewrite E1, Hp1. cbn [mbind option_bind]. eexists. split; [reflexivity|]. cbn. by rewrite E1. }
  cbn [mbind option_bind]. exists i, s'. split; [reflexivity|]. rewrite En. assert (m2 !! (t, i) = Some e) as He2 by (unfold m2, m1; destruct (tree t); rewrite ?lookup_insert_ne by congruence; apply lookup_insert_eq).
  split_and!; try done. { intros t' j Hne. unfold m2, m1. destruct (tree t); by rewrite !lookup_insert_ne by congruence. } right. split_and!; try lia.
  - unfold in_use. by rewrite He0.
  - destruct (v_refs _ _ Hinv t i e0 Ht Hi He0) as [_ Hz]. rewrite Hu0 in Hz. destruct Hz as [Hz1 Hz2]. destruct (v_refs _ _ Hinv2 t i e Ht Hi He2) as [_ Hz]. cbn in Hz. split; [done|]. lia.
  - assert (∃ pe', m2 !! (t, par) = Some pe' ∧ level pe' = level pe) as (pe' & Hpe' & El) by (unfold m2; destruct (tree t); [rewrite lookup_insert_eq; by eexists|by exists pe]). exists e, pe'. split_and!; try done. intros ->. rewrite El. done.
  - intros t' j x Hne Hx. unfold m2, m1 in Hx. destruct (tree t); [|rewrite lookup_insert_ne in Hx by congruence; by exists x]. destruct (decide ((t', j) = (t, par))) as [[= -> ->]|]; [rewrite lookup_insert_eq in Hx; injection Hx as <-; by exists pe|]. rewrite !lookup_insert_ne in Hx by congruence. by exists x.
Qed.

(** ** Users *)

Definition held (x : proc) : bool := alive x && negb (is_thread x).

Definition hold (t i : Z) (o : option proc) : Z :=
  match o with Some x => if held x then b2z (ns_idx x t =? i) + (if t =? N_PID then b2z (kidns x =? i) else 0) else 0 | None => 0 end.

(** References that no process has any more: those of the children of forks that failed late. *)
Class Lost := { lost : Z → Z → Z; lost_nonneg : ∀ t i, 0 ≤ lost t i }.

Section procs.
Context `{left : Lost}.

Definition users (l : list (option proc)) (t i : Z) : Z := foldr (λ o, Z.add (hold t i o)) (lost t i) l.

Lemma hold_nonneg t i o : 0 ≤ hold t i o.
Proof. unfold hold. destruct o as [x|]; [|lia]. destruct (held x); [|lia]. destruct (_ =? i), (t =? N_PID), (kidns x =? i); cbn; lia. Qed.

Lemma users_set l p o o' t i : l !! p = Some o → users (<[p := o']> l) t i = users l t i - hold t i o + hold t i o'.
Proof.
  revert p. induction l as [|a l IH]; intros [|p] H; [done..| |]; cbn in H.
  - injection H as ->. change (hold t i o' + users l t i = hold t i o + users l t i - hold t i o + hold t i o'). lia.
  - change (hold t i a + users (<[p := o']> l) t i = hold t i a + users l t i - hold t i o + hold t i o'). rewrite (IH p H). lia.
Qed.

Lemma users_ge l p o t i : l !! p = Some o → hold t i o ≤ users l t i.
Proof.
  unfold users. revert p. induction l as [|a l IH]; intros [|p] H; [done..| |]; cbn in *.
  - injection H as ->. clear. induction l as [|b l IH]; cbn; [pose proof (lost_nonneg t i); lia|]. pose proof (hold_nonneg t i b). lia.
  - pose proof (hold_nonneg t i a). specialize (IH p H). lia.
Qed.

(** The numbers of a process are in the table. *)
Definition idx_ok (x : proc) : Prop := (∀ t, 0 ≤ t < 6 → 0 ≤ ns_idx x t < 32) ∧ 0 ≤ kidns x < 32 ∧ length (vpid x) = 4%nat.

Record good (s : st) : Prop := {
  gd_inv : inv (nst s) (users (procs s));
  gd_done : done s = true;
  gd_idx : ∀ p x, get_proc s p = Some x → held x = true → idx_ok x
}.

Lemma get_proc_slot s p x : get_proc s p = Some x ↔ procs s !! p = Some (Some x).
Proof. unfold get_proc. destruct (procs s !! p) as [[y|]|]; cbn; naive_solver. Qed.

(** A process's namespaces are there. *)
Lemma idx_there s p x t : good s → get_proc s p = Some x → held x = true → 0 ≤ t < 6 → there (nst s) t (ns_idx x t) ∧ (ns_idx x t ≠ 0 → 1 ≤ users (procs s) t (ns_idx x t)).
Proof.
  intros Hg Hp Hh Ht. destruct (gd_idx _ Hg p x Hp Hh) as [Hi _]. assert (1 ≤ users (procs s) t (ns_idx x t)) as Hu.
  { apply get_proc_slot in Hp. pose proof (users_ge _ _ _ t (ns_idx x t) Hp) as H. unfold hold in H. rewrite Hh, Z.eqb_refl in H. destruct (t =? N_PID), (kidns x =? ns_idx x t); cbn in H; lia. }
  split; [|done]. apply (user_there _ _ _ _ (gd_inv _ Hg) Ht); auto.
Qed.

Lemma kid_there s p x : good s → get_proc s p = Some x → held x = true → there (nst s) N_PID (kidns x) ∧ (kidns x ≠ 0 → 1 ≤ users (procs s) N_PID (kidns x)).
Proof.
  intros Hg Hp Hh. destruct (gd_idx _ Hg p x Hp Hh) as (_ & Hi & _). assert (1 ≤ users (procs s) N_PID (kidns x)) as Hu.
  { apply get_proc_slot in Hp. pose proof (users_ge _ _ _ N_PID (kidns x) Hp) as H. unfold hold in H. rewrite Hh, !Z.eqb_refl in H. destruct (ns_idx x N_PID =? kidns x); cbn in H; lia. }
  split; [|done]. apply (user_there _ (users (procs s)) _ _ (gd_inv _ Hg)); [by unfold N_PID|done|auto].
Qed.

(** ** Moving to another namespace *)

(** What stays of a process that moves. *)
Definition same_proc (x x' : proc) : Prop :=
  pid x' = pid x ∧ tgid x' = tgid x ∧ is_thread x' = is_thread x ∧ alive x' = alive x ∧ pidns x' = pidns x ∧ kidns x' = kidns x ∧ vpid x' = vpid x ∧ nsfl x' = nsfl x.

(** One process changes, its references with it. *)
Lemma good_set s s' p x x' U : good s → get_proc s p = Some x → inv (nst s') U → done s' = true → procs s' = <[p := Some x']> (procs s) → (held x' = true → idx_ok x') →
  (∀ t i, 0 ≤ t < 6 → 1 ≤ i < 32 → U t i = users (procs s) t i - hold t i (Some x) + hold t i (Some x')) → good s'.
Proof.
  intros Hg Hp Hinv Hd Hps Hx HU. assert (procs s !! p = Some (Some x)) as Hp' by (by apply get_proc_slot). split; [|done|].
  - apply (inv_ext _ U); [done|]. intros t i Ht Hi. rewrite Hps, (users_set _ _ _ _ _ _ Hp'), HU by done. done.
  - intros q y Hq Hh. apply get_proc_slot in Hq. rewrite Hps in Hq. destruct (decide (q = p)) as [->|]; [rewrite list_lookup_insert_eq in Hq by (by apply lookup_lt_Some in Hp'); injection Hq as <-; auto|].
    rewrite list_lookup_insert_ne in Hq by done. apply (gd_idx _ Hg q); [by apply get_proc_slot|done].
Qed.

Lemma in_use_same m m' t i : m' !! (t, i) = m !! (t, i) → in_use m' t i = in_use m t i.
Proof. unfold in_use. by intros ->. Qed.

Definition with_idx (x : proc) (t n : Z) : proc :=
  if t =? N_MNT then {| x with mntns := n |} else if t =? N_UTS then {| x with utsns := n |}
  else if t =? N_IPC then {| x with ipcns := n |} else if t =? N_USER then {| x with userns := n; capx := false |}
  else {| x with netns := n |}.

Lemma with_idx_ok x t n : 0 ≤ t < 5 → same_proc x (with_idx x t n) ∧ held (with_idx x t n) = held x ∧ (t ≠ N_USER → userns (with_idx x t n) = userns x) ∧
  ∀ t', 0 ≤ t' < 6 → ns_idx (with_idx x t n) t' = if decide (t' = t) then n else ns_idx x t'.
Proof.
  intros Ht. assert (t = 0 ∨ t = 1 ∨ t = 2 ∨ t = 3 ∨ t = 4) as Hc by lia. destruct Hc as [-> | [-> | [-> | [-> | ->]]]]; cbn; (split; [done|]); (split; [done|]); (split; [by unfold N_USER|]).
  all: intros t' Ht'; assert (t' = 0 ∨ t' = 1 ∨ t' = 2 ∨ t' = 3 ∨ t' = 4 ∨ t' = 5) as Hc by lia; by destruct Hc as [-> | [-> | [-> | [-> | [-> | ->]]]]].
Qed.

Lemma hold_with x t n t' i : 0 ≤ t < 5 → 0 ≤ t' < 6 → held x = true → hold t' i (Some (with_idx x t n)) = hold t' i (Some x) + (if decide (t' = t) then b2z (n =? i) - b2z (ns_idx x t =? i) else 0).
Proof.
  intros Ht Ht' Hh. destruct (with_idx_ok x t n Ht) as ((_ & _ & _ & _ & _ & Hk & _) & Hh' & _ & Hi). unfold hold. rewrite Hh', Hh, Hk, Hi by done. destruct (decide (t' = t)) as [->|]; [|lia]. assert ((t =? N_PID) = false) as -> by (apply Z.eqb_neq; unfold N_PID; lia). lia.
Qed.

Lemma plus_two U t a b t' i : plus (plus U t a (-1)) t b 1 t' i = U t' i + (if decide (t' = t) then b2z (b =? i) - b2z (a =? i) else 0).
Proof.
  unfold plus. destruct (Z.eqb_spec t' t) as [->|]; [rewrite decide_True by done|rewrite decide_False by done; cbn; lia]. rewrite (Z.eqb_sym i b), (Z.eqb_sym i a). cbn [andb]. destruct (b =? i), (a =? i); cbn; lia.
Qed.

Lemma move_ok hn s p x t n : good s → get_proc s p = Some x → held x = true → 0 ≤ t < 5 → 1 ≤ n < 32 → in_use (nst s) t n = true → idle (nst s) (users (procs s)) t n →
  ∃ s', move hn s p t n = Some s' ∧ good s' ∧ procs s' = <[p := Some (with_idx x t n)]> (procs s) ∧ only (nst s) (nst s') t.
Proof.
  intros Hg Hp Hh Ht Hn Hu Hid. unfold move. rewrite Hp, bind_some. cbv zeta. match goal with |- context [ns_put ?q t _] => set (s1 := q) end. assert (nst s1 = nst s ∧ done s1 = true ∧ procs s1 = procs s) as (E1 & E2 & E3).
  { unfold s1. pose proof (gd_done _ Hg). destruct (t =? N_UTS), (t =? N_MNT); done. }
  destruct (idx_there s p x t Hg Hp Hh ltac:(lia)) as [Hth Hus]. pose proof (gd_inv _ Hg) as Hinv. rewrite <- E1 in Hinv.
  destruct (ns_put_ok s1 _ t (ns_idx x t) Hinv ltac:(lia)) as (s2 & Ep & Hinv2 & (_ & _ & _ & D2 & P2) & _ & O2 & I2); [apply Hth|done|]. rewrite Ep, bind_some. fold (with_idx x t n).
  assert (nst s2 !! (t, n) = nst s !! (t, n)) as En by (rewrite I2; [by rewrite E1|done|by rewrite E1]).
  destruct (ns_get_ok (set_proc s2 p (with_idx x t n)) _ t n Hinv2 ltac:(lia)) as (s3 & Eg & Hinv3 & (_ & _ & _ & D3 & P3) & _ & O3 & _); [split; [lia|]; intros _; cbn; by rewrite (in_use_same (nst s)) by done|].
  exists s3. split; [exact Eg|]. destruct (with_idx_ok x t n Ht) as ((_ & _ & _ & _ & _ & Hk & Hv & _) & Hh' & _ & Hi). assert (procs s3 = <[p := Some (with_idx x t n)]> (procs s)) as Hps by (rewrite P3; cbn; by rewrite P2, E3). split; [|split; [done|]].
  - eapply (good_set s s3 p x (with_idx x t n) _ Hg Hp Hinv3); [rewrite D3; cbn; congruence|done| |].
    + intros _. destruct (gd_idx _ Hg p x Hp Hh) as (I1 & I3 & I4). split; [|by rewrite Hk, Hv]. intros t' Ht'. rewrite Hi by done. case_decide; [lia|by apply I1].
    + intros t' i Ht' Hi'. rewrite plus_two, (hold_with x t n t' i) by done. lia.
  - intros t' i Hne. rewrite O3 by done. cbn. rewrite O2 by done. by rewrite E1.
Qed.

(** ** [apply]: all new namespaces first, then the moves *)

(** Pid namespaces that were there are what they were. *)
Definition keep (m m' : table) : Prop :=
  ∀ i e', there m N_PID i → m' !! (N_PID, i) = Some e' → ∃ e, m !! (N_PID, i) = Some e ∧ parent e' = parent e ∧ level e' = level e ∧ next e' = next e.

Lemma keep_refl m : keep m m.
Proof. intros i e _ He. by exists e. Qed.

Lemma keep_only m m' m'' t : keep m m' → only m' m'' t → t ≠ N_PID → keep m m''.
Proof. intros Hk Ho Ht i e Hth He. rewrite Ho in He by done. by apply Hk. Qed.

Lemma keep_same m m' m'' : keep m m' → entry_same m' m'' → keep m m''.
Proof. intros Hk Hs i e2 Hth He2. destruct (Hs _ _ _ He2) as (e1 & He1 & A1 & A2 & A3 & _). destruct (Hk i e1 Hth He1) as (e & He & B1 & B2 & B3). exists e. split_and!; congruence. Qed.

(** Asked for and got, or not asked for. *)
Definition pend (m : table) (U : Z → Z → Z) (t n : Z) : Prop := n = -1 ∨ 1 ≤ n < 32 ∧ in_use m t n = true ∧ idle m U t n.

Lemma kids_only m m' t t' i : only m m' t → t' ≠ t → kids m' t' i = kids m t' i.
Proof. intros Ho Ht. unfold kids. destruct (tree t'); [|done]. apply countb_eq. intros j _. unfold child_of. by rewrite Ho. Qed.

Lemma pend_only m m' U U' t t' n : only m m' t → t' ≠ t → (∀ i, U' t' i = U t' i) → pend m U t' n → pend m' U' t' n.
Proof.
  intros Ho Ht HU [->|(Hn & Hu & H1 & H2)]; [by left|right]. split; [done|]. split; [unfold in_use; rewrite Ho by done; exact Hu|]. split; [by rewrite HU|]. by rewrite (kids_only m m' t).
Qed.

Lemma new_if_ok s U fl bit t par : inv (nst s) U → done s = true → 0 ≤ t < 6 → there (nst s) t par → (has fl bit = true → t = N_PID → ∀ pe, nst s !! (t, par) = Some pe → level pe ≤ 2) →
  ∃ a s', new_if s fl bit t par = Some (a, s') ∧ inv (nst s') U ∧ done s' = true ∧ procs s' = procs s ∧ only (nst s) (nst s') t ∧ keep (nst s) (nst s') ∧
    match a with None => True | Some n => pend (nst s') U t n end ∧ (has fl bit = false → a = Some (-1) ∧ s' = s).
Proof.
  intros Hinv Hd Ht Hth Hlev. unfold new_if. destruct (has fl bit) eqn:Hb; [|exists (Some (-1)), s; split_and!; try done; first [apply keep_refl|by left|lia]].
  destruct (ns_new_ok s U t par Hinv Hd Ht Hth (Hlev eq_refl)) as (n & s' & -> & Hinv' & Hd' & Hp' & Ho & Hc). rewrite bind_some. destruct Hc as [[-> ->]|(Hn & Hnu & Hid & (e & pe & He & Hu & Hr) & Hgr)].
  - exists None, s. split_and!; try done. apply keep_refl.
  - rewrite (proj2 (Z.ltb_ge n 0)) by lia. exists (Some n), s'. split_and!; try done.
    + intros i x [Hi Hiu] Hx. destruct (Hgr N_PID i x) as (y & Hy & A1 & A2 & A3 & _); [|done|by exists y]. intros [= <- ->]. rewrite Hiu in Hnu by lia. done.
    + right. split; [done|]. split; [unfold in_use; by rewrite He|done].
Qed.

(** What a process at slot [p] goes on with. *)
Definition goes_on (s s' : st) (p : nat) (x x' : proc) : Prop :=
  good s' ∧ procs s' = <[p := Some x']> (procs s) ∧ get_proc s' p = Some x' ∧ same_proc x x' ∧ held x' = held x.

Lemma same_proc_trans x y z : same_proc x y → same_proc y z → same_proc x z.
Proof. intros (? & ? & ? & ? & ? & ? & ? & ?) (? & ? & ? & ? & ? & ? & ? & ?). split_and!; congruence. Qed.

Lemma goes_on_trans s1 s2 s3 p x y z : goes_on s1 s2 p x y → goes_on s2 s3 p y z → goes_on s1 s3 p x z.
Proof. intros (A1 & A2 & A3 & A4 & A5) (B1 & B2 & B3 & B4 & B5). split_and!; try done; [by rewrite B2, A2, list_insert_insert_eq|by apply (same_proc_trans _ y)|congruence]. Qed.

Lemma users_with l p x t n t' i : l !! p = Some (Some x) → held x = true → 0 ≤ t < 5 → 0 ≤ t' < 6 → t' ≠ t → users (<[p := Some (with_idx x t n)]> l) t' i = users l t' i.
Proof. intros Hp Hh Ht Ht' Hne. rewrite (users_set _ _ _ _ _ _ Hp), hold_with by done. rewrite decide_False by done. lia. Qed.

Lemma get_set_proc s s' p x x' : get_proc s p = Some x → procs s' = <[p := Some x']> (procs s) → get_proc s' p = Some x'.
Proof. intros H%get_proc_slot Hp. apply get_proc_slot. rewrite Hp. apply list_lookup_insert_eq. by apply lookup_lt_Some in H. Qed.

Lemma move_if_ok hn s p x t n : good s → get_proc s p = Some x → held x = true → 0 ≤ t < 5 → pend (nst s) (users (procs s)) t n →
  ∃ s' x', move_if hn s p t n = Some s' ∧ goes_on s s' p x x' ∧ only (nst s) (nst s') t ∧ ∀ t' k, 0 ≤ t' < 6 → t' ≠ t → pend (nst s) (users (procs s)) t' k → pend (nst s') (users (procs s')) t' k.
Proof.
  intros Hg Hp Hh Ht [->|(Hn & Hu & Hid)]; unfold move_if.
  - exists s, x. change (0 <=? -1) with false. cbv iota. apply get_proc_slot in Hp as Hp'. split; [done|]. split; [|done]. split_and!; try done. by rewrite list_insert_id.
  - rewrite (proj2 (Z.leb_le 0 n)) by lia. destruct (move_ok hn s p x t n Hg Hp Hh Ht Hn Hu Hid) as (s' & E & Hg' & Hps & Ho). exists s', (with_idx x t n). destruct (with_idx_ok x t n Ht) as (Hs & Hh' & _). split; [done|]. split; [|split; [done|]].
    + split_and!; try done; by apply (get_set_proc s _ p x).
    + intros t' k Ht' Hne. apply (pend_only _ _ _ _ t); [done|done|]. intros i. rewrite Hps. apply users_with; try done. by apply get_proc_slot.
Qed.

(** The process after a call on its namespaces: only its numbers changed, but not that of its pids. *)
Definition after (s s' : st) (p : nat) (x x' : proc) : Prop :=
  good s' ∧ procs s' = <[p := Some x']> (procs s) ∧ get_proc s' p = Some x' ∧ held x' = held x ∧ pid x' = pid x ∧ tgid x' = tgid x ∧ is_thread x' = is_thread x ∧ alive x' = alive x ∧ pidns x' = pidns x ∧ vpid x' = vpid x ∧ keep (nst s) (nst s').

Lemma after_none s s' p x : good s → get_proc s p = Some x → inv (nst s') (users (procs s)) → done s' = true → procs s' = procs s → keep (nst s) (nst s') → after s s' p x x.
Proof.
  intros Hg Hp Hinv Hd Hps Hk. apply get_proc_slot in Hp as Hp'. assert (get_proc s' p = Some x) by (unfold get_proc; by rewrite Hps). split_and!; try done; [|by rewrite Hps, list_insert_id]. split; [by rewrite Hps|done|]. intros q y Hq. apply (gd_idx _ Hg q). unfold get_proc in *. by rewrite Hps in Hq.
Qed.

Lemma there_only m m' t t' i : only m m' t → t' ≠ t → there m t' i → there m' t' i.
Proof. intros Ho Hne [Hi Hu]. split; [done|]. intros H0. unfold in_use. rewrite Ho by done. by apply Hu. Qed.

(** The five kinds that a process moves to by itself. *)
Lemma moves_ok hn s p x n0 n1 n2 n3 n4 n5 : good s → get_proc s p = Some x → held x = true →
  pend (nst s) (users (procs s)) N_MNT n0 → pend (nst s) (users (procs s)) N_UTS n1 → pend (nst s) (users (procs s)) N_IPC n2 → pend (nst s) (users (procs s)) N_USER n3 → pend (nst s) (users (procs s)) N_NET n4 → pend (nst s) (users (procs s)) N_PID n5 →
  ∃ s1 s2 s3 s4 s5 x', move_if hn s p N_MNT n0 = Some s1 ∧ move_if hn s1 p N_UTS n1 = Some s2 ∧ move_if hn s2 p N_IPC n2 = Some s3 ∧ move_if hn s3 p N_USER n3 = Some s4 ∧ move_if hn s4 p N_NET n4 = Some s5 ∧
    goes_on s s5 p x x' ∧ pend (nst s5) (users (procs s5)) N_PID n5 ∧ ∀ i, nst s5 !! (N_PID, i) = nst s !! (N_PID, i).
Proof.
  intros Hg Hp Hh P0 P1 P2 P3 P4 P5.
  destruct (move_if_ok hn s p x N_MNT n0 Hg Hp Hh ltac:(done) P0) as (s1 & x1 & E1 & G1 & O1 & K1). pose proof G1 as (Hg1 & _ & Hp1 & _ & Hh1).
  pose proof (move_if_ok hn s1 p x1 N_UTS n1 Hg1 Hp1 ltac:(congruence) ltac:(done) ltac:(by apply K1)) as (s2 & x2 & E2 & G2 & O2 & K2). pose proof G2 as (Hg2 & _ & Hp2 & _ & Hh2).
  pose proof (move_if_ok hn s2 p x2 N_IPC n2 Hg2 Hp2 ltac:(congruence) ltac:(done) ltac:(by apply K2, K1)) as (s3 & x3 & E3 & G3 & O3 & K3). pose proof G3 as (Hg3 & _ & Hp3 & _ & Hh3).
  pose proof (move_if_ok hn s3 p x3 N_USER n3 Hg3 Hp3 ltac:(congruence) ltac:(done) ltac:(by apply K3, K2, K1)) as (s4 & x4 & E4 & G4 & O4 & K4). pose proof G4 as (Hg4 & _ & Hp4 & _ & Hh4).
  pose proof (move_if_ok hn s4 p x4 N_NET n4 Hg4 Hp4 ltac:(congruence) ltac:(done) ltac:(by apply K4, K3, K2, K1)) as (s5 & x5 & E5 & G5 & O5 & K5).
  exists s1, s2, s3, s4, s5, x5. split_and!; try done.
  - eapply goes_on_trans; [|exact G5]. eapply goes_on_trans; [|exact G4]. eapply goes_on_trans; [|exact G3]. eapply goes_on_trans; [|exact G2]. exact G1.
  - by apply K5, K4, K3, K2, K1.
  - intros i. by rewrite O5, O4, O3, O2, O1 by done.
Qed.

(** Every pid namespace is where it was, and hands out the same pid next. *)
Definition same_pids (m m' : table) : Prop := ∀ i e', m' !! (N_PID, i) = Some e' → ∃ e, m !! (N_PID, i) = Some e ∧ parent e' = parent e ∧ level e' = level e ∧ next e' = next e.

(** The last part of [apply]: the namespace for the children. *)
Lemma kid_ok s p x n : good s → get_proc s p = Some x → held x = true → pend (nst s) (users (procs s)) N_PID n → 0 ≤ n →
  ∃ s1 s2, ns_put s N_PID (kidns x) = Some s1 ∧ ns_get (set_proc s1 p {| x with kidns := n |}) N_PID n = Some s2 ∧ good s2 ∧ procs s2 = <[p := Some {| x with kidns := n |}]> (procs s) ∧ same_pids (nst s) (nst s2).
Proof.
  intros Hg Hp Hh [->|(Hn & Hu & Hid)] Hn0; [lia|]. destruct (kid_there s p x Hg Hp Hh) as [Hth Hus]. destruct (gd_idx _ Hg p x Hp Hh) as (I1 & I2 & I3).
  destruct (ns_put_ok s _ N_PID (kidns x) (gd_inv _ Hg) ltac:(done) (proj1 Hth) Hus) as (s1 & E1 & Hinv1 & (_ & _ & _ & D1 & P1) & S1 & _ & J1). assert (nst s1 !! (N_PID, n) = nst s !! (N_PID, n)) as En by (by apply J1).
  set (x' := {| x with kidns := n |}). destruct (ns_get_ok (set_proc s1 p x') _ N_PID n Hinv1 ltac:(done)) as (s2 & E2 & Hinv2 & (_ & _ & _ & D2 & P2) & _ & _ & S2); [split; [lia|]; intros _; cbn; by rewrite (in_use_same (nst s))|].
  exists s1, s2. split; [done|]. split; [done|]. assert (procs s2 = <[p := Some x']> (procs s)) as Hps by (rewrite P2; cbn; by rewrite P1). assert (held x' = held x) as Hh' by done.
  split; [|split; [done|]].
  - refine (good_set s s2 p x x' _ Hg Hp Hinv2 _ Hps _ _); [rewrite D2; cbn; rewrite D1; apply (gd_done _ Hg)|intros _; split; [exact I1|split; [cbn; lia|done]]|]. intros t i Ht Hi. rewrite plus_two. unfold hold. rewrite Hh', Hh. change (ns_idx x' t) with (ns_idx x t). cbn [kidns x'].
    destruct (Z.eqb_spec t N_PID) as [->|]; [rewrite decide_True by done|rewrite decide_False by done]; lia.
  - intros i e He. destruct (S2 _ _ _ He) as (e1 & He1 & A1 & A2 & A3 & _). cbn in He1. destruct (S1 _ _ _ He1) as (e0 & He0 & B1 & B2 & B3 & _). exists e0. split_and!; congruence.
Qed.

Lemma after_goes s s0 s5 p x x5 : good s → get_proc s p = Some x → procs s0 = procs s → keep (nst s) (nst s0) → goes_on s0 s5 p x x5 → (∀ i, nst s5 !! (N_PID, i) = nst s0 !! (N_PID, i)) → after s s5 p x x5.
Proof.
  intros Hg Hp Hps Hk (G1 & G2 & G3 & (A1 & A2 & A3 & A4 & A5 & A6 & A7 & A8) & G5) HP. split_and!; try done; [by rewrite G2, Hps|]. intros i e Hi He. rewrite HP in He. by apply Hk.
Qed.

Lemma after_kid s s1 s2 p x y n : after s s1 p x y → good s2 → procs s2 = <[p := Some {| y with kidns := n |}]> (procs s1) → same_pids (nst s1) (nst s2) → after s s2 p x {| y with kidns := n |}.
Proof.
  intros (A1 & A2 & A3 & A4 & A5 & A6 & A7 & A8 & A9 & A10 & A11) Hg Hps Hsp. split; [done|]. split; [by rewrite Hps, A2, list_insert_insert_eq|]. split; [by apply (get_set_proc s1 _ p y)|]. do 7 (split; [done|]).
  intros i e2 Hi He2. destruct (Hsp i e2 He2) as (e1 & He1 & C1 & C2 & C3). destruct (A11 i e1 Hi He1) as (e & He & D1 & D2 & D3). exists e. split_and!; congruence.
Qed.

Lemma apply_ok hn s p x fl fork : good s → get_proc s p = Some x → held x = true → (fork = true → has fl NEWPID = false) →
  ∃ r s' x', apply hn s p fl fork = Some (r, s') ∧ after s s' p x x' ∧ (has fl NEWPID = false → kidns x' = kidns x ∧ ∀ i, nst s' !! (N_PID, i) = nst s !! (N_PID, i)).
Proof.
  intros Hg Hp Hh Hfork. unfold apply. cbv zeta. rewrite (boot_id s (gd_done _ Hg)), Hp, bind_some. pose proof (gd_inv _ Hg) as V0. pose proof (gd_done _ Hg) as D0. set (U := users (procs s)) in *.
  assert (∀ t, there (nst s) t 0) as T0 by (intros t; split; [lia|done]). destruct (idx_there s p x N_USER Hg Hp Hh ltac:(done)) as [TU _].
  set (cur := if nz (kidns x) then kidns x else pidns x). assert (there (nst s) N_PID cur) as TP. { unfold cur. destruct (nz (kidns x)); [by apply (kid_there s p x)|by apply (idx_there s p x N_PID)]. }
  destruct (new_if_ok s U fl NEWNS N_MNT 0 V0 D0 ltac:(done) (T0 _) ltac:(done)) as (a0 & s0 & -> & V1 & D1 & R1 & O1 & K1 & Q1). rewrite bind_some. destruct a0 as [n0|]; [|eexists _, s0, x; split; [reflexivity|]; split; [by apply after_none|]; intros _; split; [done|]; intros i; by rewrite O1].
  destruct (new_if_ok s0 U fl NEWUTS N_UTS 0 V1 D1 ltac:(done) ltac:(split; [lia|done]) ltac:(done)) as (a1 & s1 & -> & V2 & D2 & R2 & O2 & _ & Q2). rewrite bind_some. pose proof (keep_only _ _ _ _ K1 O2 ltac:(done)) as K2. rewrite R1 in R2. destruct a1 as [n1|]; [|eexists _, s1, x; split; [reflexivity|]; split; [by apply after_none|]; intros _; split; [done|]; intros i; by rewrite O2, O1].
  destruct (new_if_ok s1 U fl NEWIPC N_IPC 0 V2 D2 ltac:(done) ltac:(split; [lia|done]) ltac:(done)) as (a2 & s2 & -> & V3 & D3 & R3 & O3 & _ & Q3). rewrite bind_some. pose proof (keep_only _ _ _ _ K2 O3 ltac:(done)) as K3. rewrite R2 in R3. destruct a2 as [n2|]; [|eexists _, s2, x; split; [reflexivity|]; split; [by apply after_none|]; intros _; split; [done|]; intros i; by rewrite O3, O2, O1].
  assert (there (nst s2) N_USER (ns_idx x N_USER)) as TU3 by (by apply (there_only _ _ _ _ _ O3), (there_only _ _ _ _ _ O2), (there_only _ _ _ _ _ O1)). change (ns_idx x N_USER) with (userns x) in TU3.
  destruct (new_if_ok s2 U fl NEWUSER N_USER (userns x) V3 D3 ltac:(done) TU3 ltac:(done)) as (a3 & s3 & -> & V4 & D4 & R4 & O4 & _ & Q4). rewrite bind_some. pose proof (keep_only _ _ _ _ K3 O4 ltac:(done)) as K4. rewrite R3 in R4. destruct a3 as [n3|]; [|eexists _, s3, x; split; [reflexivity|]; split; [by apply after_none|]; intros _; split; [done|]; intros i; by rewrite O4, O3, O2, O1].
  destruct (new_if_ok s3 U fl NEWNET N_NET 0 V4 D4 ltac:(done) ltac:(split; [lia|done]) ltac:(done)) as (a4 & s4 & -> & V5 & D5 & R5 & O5 & _ & Q5). rewrite bind_some. pose proof (keep_only _ _ _ _ K4 O5 ltac:(done)) as K5. rewrite R4 in R5. destruct a4 as [n4|]; [|eexists _, s4, x; split; [reflexivity|]; split; [by apply after_none|]; intros _; split; [done|]; intros i; by rewrite O5, O4, O3, O2, O1].
  assert (∀ i, nst s4 !! (N_PID, i) = nst s !! (N_PID, i)) as Hpid by (intros i; by rewrite O5, O4, O3, O2, O1).
  assert (there (nst s4) N_PID cur) as TP4. { destruct TP as [H1 H2]. split; [done|]. intros H0. unfold in_use. rewrite Hpid. by apply H2. }
  destruct (there_entry _ _ N_PID _ V5 ltac:(done) TP4) as (ce & Hce & _). set (lv := if has fl NEWPID then _ else _). assert (lv = Some (if has fl NEWPID then level ce else 0)) as -> by (unfold lv; rewrite Hce; by destruct (has fl NEWPID)). rewrite bind_some.
  destruct (Z.leb_spec 3 (if has fl NEWPID then level ce else 0)) as [Hl|Hl]; [eexists _, s4, x; split; [reflexivity|]; split; [by apply after_none|done]|].
  destruct (new_if_ok s4 U fl NEWPID N_PID cur V5 D5 ltac:(done) TP4) as (a5 & s5 & -> & V6 & D6 & R6 & O6 & K6 & Q6). { intros Hf _ pe Hpe. rewrite Hf in Hl. rewrite Hce in Hpe. injection Hpe as <-. lia. }
  rewrite bind_some. assert (keep (nst s) (nst s5)) as K7. { intros i e Hi He. destruct (K6 i e) as (e1 & He1 & A); [|done|rewrite Hpid in He1; by exists e1]. destruct Hi as [H1 H2]. split; [done|]. intros H0. unfold in_use. rewrite Hpid. by apply H2. } rewrite R5 in R6. destruct a5 as [n5|]; [|eexists _, s5, x; split; [reflexivity|]; split; [by apply after_none|]; intros Hf; by destruct (proj2 Q6 Hf)].
  assert (good s5) as Hg5. { split; [by rewrite R6|done|]. intros q y Hq. apply (gd_idx _ Hg q). unfold get_proc in *. by rewrite R6 in Hq. } assert (get_proc s5 p = Some x) as Hp5 by (unfold get_proc; by rewrite R6).
  assert (∀ t n m m', pend m U t n → (∀ i, m' !! (t, i) = m !! (t, i)) → pend m' U t n) as Hmv. { intros t n m m' [->|(B1 & B2 & B3 & B4)] Hm; [by left|right]. split; [done|]. split; [unfold in_use; by rewrite Hm|]. split; [done|]. rewrite <- B4. unfold kids. destruct (tree t); [|done]. apply countb_eq. intros j _. unfold child_of. by rewrite Hm. }
  assert (pend (nst s5) U N_MNT n0 ∧ pend (nst s5) U N_UTS n1 ∧ pend (nst s5) U N_IPC n2 ∧ pend (nst s5) U N_USER n3 ∧ pend (nst s5) U N_NET n4 ∧ pend (nst s5) U N_PID n5) as (W0 & W1 & W2 & W3 & W4 & W5).
  { split_and!; [apply (Hmv _ _ (nst s0)); [apply Q1|intros i; by rewrite O6, O5, O4, O3, O2]|apply (Hmv _ _ (nst s1)); [apply Q2|intros i; by rewrite O6, O5, O4, O3]|apply (Hmv _ _ (nst s2)); [apply Q3|intros i; by rewrite O6, O5, O4]|apply (Hmv _ _ (nst s3)); [apply Q4|intros i; by rewrite O6, O5]|apply (Hmv _ _ (nst s4)); [apply Q5|intros i; by rewrite O6]|apply Q6]. }
  destruct (moves_ok hn s5 p x n0 n1 n2 n3 n4 n5 Hg5 Hp5 Hh) as (t1 & t2 & t3 & t4 & t5 & x' & E1 & E2 & E3 & E4 & E5 & G & PP & HP); [by rewrite R6..|]. rewrite E1, bind_some, E2, bind_some, E3, bind_some, E4, bind_some, E5, bind_some.
  pose proof (after_goes s s5 t5 p x x' Hg Hp R6 K7 G HP) as Haf. destruct G as (Hgt & _ & Hpt & Hsp & Hht). destruct (Z.leb_spec 0 n5) as [Hn5|Hn5]; [|eexists _, t5, x'; split; [reflexivity|]; split; [done|]; intros Hf; split; [apply Hsp|]; intros i; rewrite HP; destruct (proj2 Q6 Hf) as [_ ->]; apply Hpid].
  rewrite Hpt, bind_some. assert (has fl NEWPID = true) as Hfp. { destruct (has fl NEWPID) eqn:E; [done|]. destruct (proj2 Q6 eq_refl) as [[= ->] _]. lia. }
  destruct fork; [by rewrite Hfork in Hfp|]. destruct (kid_ok t5 p x' n5 Hgt Hpt ltac:(congruence) PP Hn5) as (u1 & u2 & F1 & F2 & G2 & Hps2 & Hsp2). rewrite F1, bind_some, F2, bind_some. eexists _, u2, _. split; [reflexivity|]. split; [by apply (after_kid s t5)|]. congruence.
Qed.

Lemma ns_unshare_ok hn s p x fl : good s → get_proc s p = Some x → held x = true → ∃ r s' x', ns_unshare hn s p fl = Some (r, s') ∧ after s s' p x x'.
Proof.
  intros Hg Hp Hh. unfold ns_unshare. destruct (nz _); [|destruct (apply_ok hn s p x (Z.land fl ALL_NEW) false Hg Hp Hh ltac:(done)) as (r & s' & x' & E & H & _); by exists r, s', x']. eexists _, s, x. split; [reflexivity|]. apply after_none; try done; [apply (gd_inv _ Hg)|apply (gd_done _ Hg)|apply keep_refl].
Qed.

(** ** Joining a namespace *)

Lemma same_pids_refl m : same_pids m m.
Proof. intros i e He. by exists e. Qed.

Lemma same_pids_trans m1 m2 m3 : same_pids m1 m2 → same_pids m2 m3 → same_pids m1 m3.
Proof. intros H1 H2 i e3 He3. destruct (H2 i e3 He3) as (e2 & He2 & A1 & A2 & A3). destruct (H1 i e2 He2) as (e1 & He1 & B1 & B2 & B3). exists e1. split_and!; congruence. Qed.

Lemma keep_same_pids m m' : same_pids m m' → keep m m'.
Proof. intros H i e _ He. by apply H. Qed.

(** Gets of a kind keep what is there of it. *)
Lemma get_there s s' U t i : inv (nst s') U → (∀ t' i' e', nst s' !! (t', i') = Some e' → ∃ e, nst s !! (t', i') = Some e ∧ parent e' = parent e ∧ level e' = level e ∧ next e' = next e ∧ used e' = used e) →
  0 ≤ t < 6 → there (nst s) t i → there (nst s') t i.
Proof.
  intros Hinv Hs Ht [Hi Hu]. split; [done|]. intros H0. specialize (Hu H0). destruct (v_dom _ _ Hinv t i Ht Hi) as [e' He']. destruct (Hs _ _ _ He') as (e & He & _ & _ & _ & Eu). unfold in_use in *. rewrite He in Hu. by rewrite He', Eu.
Qed.

(** The number of kind [t] that [setns] changes. *)
Definition join_idx (x : proc) (t : Z) : Z := if t =? N_PID then kidns x else ns_idx x t.

Definition with_join (x : proc) (t n : Z) : proc :=
  if t =? N_MNT then {| x with mntns := n |} else if t =? N_UTS then {| x with utsns := n |}
  else if t =? N_IPC then {| x with ipcns := n |} else if t =? N_USER then {| x with userns := n |}
  else if t =? N_NET then {| x with netns := n |} else {| x with kidns := n |}.

Lemma kind_cases t (P : Z → Prop) : 0 ≤ t < 6 → P 0 → P 1 → P 2 → P 3 → P 4 → P 5 → P t.
Proof. intros Ht. assert (t = 0 ∨ t = 1 ∨ t = 2 ∨ t = 3 ∨ t = 4 ∨ t = 5) as Hc by lia. by destruct Hc as [-> | [-> | [-> | [-> | [-> | ->]]]]]. Qed.

Lemma with_join_idx x t n t' : 0 ≤ t < 6 → 0 ≤ t' < 6 → ns_idx (with_join x t n) t' = (if decide (t' = t ∧ t ≠ N_PID) then n else ns_idx x t') ∧ kidns (with_join x t n) = if decide (t = N_PID) then n else kidns x.
Proof. intros Ht Ht'. apply (kind_cases t); try done; apply (kind_cases t'); done. Qed.

Lemma with_join_ok x t n : 0 ≤ t < 6 → 0 ≤ n < 32 → held x = true → idx_ok x →
  idx_ok (with_join x t n) ∧ held (with_join x t n) = true ∧ (pid (with_join x t n) = pid x ∧ tgid (with_join x t n) = tgid x ∧ is_thread (with_join x t n) = is_thread x ∧ alive (with_join x t n) = alive x ∧ pidns (with_join x t n) = pidns x ∧ vpid (with_join x t n) = vpid x) ∧
  ∀ t' i, 0 ≤ t' < 6 → hold t' i (Some (with_join x t n)) = hold t' i (Some x) + (if decide (t' = t) then b2z (n =? i) - b2z (join_idx x t =? i) else 0).
Proof.
  intros Ht Hn Hh (I1 & I2 & I3). assert (pid (with_join x t n) = pid x ∧ tgid (with_join x t n) = tgid x ∧ is_thread (with_join x t n) = is_thread x ∧ alive (with_join x t n) = alive x ∧ pidns (with_join x t n) = pidns x ∧ vpid (with_join x t n) = vpid x) as Hs by (apply (kind_cases t); done).
  assert (held (with_join x t n) = true) as Hh' by (unfold held in *; destruct Hs as (_ & _ & -> & -> & _); done). split; [split; [|split]|split; [done|split; [done|]]].
  - intros t' Ht'. destruct (with_join_idx x t n t' Ht Ht') as [-> _]. case_decide; [lia|by apply I1].
  - destruct (with_join_idx x t n 0 Ht ltac:(lia)) as [_ ->]. case_decide; lia.
  - destruct Hs as (_ & _ & _ & _ & _ & ->). done.
  - intros t' i Ht'. unfold hold. rewrite Hh, Hh'. destruct (with_join_idx x t n t' Ht Ht') as [-> ->]. unfold join_idx. destruct (decide (t' = t)) as [E|]; [rewrite E in *|]; destruct (Z.eqb_spec t N_PID) as [H1|H1], (Z.eqb_spec t' N_PID) as [H3|H3], (Z.eqb_spec t N_PID) as [H2|H2]; repeat case_decide; try lia; try (exfalso; intuition congruence).
Qed.

Lemma ns_join_ok s p x t idx : good s → get_proc s p = Some x → held x = true → 0 ≤ t < 6 → ∃ r s' x', ns_join s p t idx = Some (r, s') ∧ after s s' p x x'.
Proof.
  intros Hg Hp Hh Ht. unfold ns_join. cbv zeta. rewrite (boot_id s (gd_done _ Hg)), Hp, bind_some. pose proof (gd_inv _ Hg) as V. assert (after s s p x x) as Hno by (apply after_none; try done; [apply (gd_done _ Hg)|apply keep_refl]).
  destruct (Z.ltb_spec idx 0) as [Hi|Hi]; [cbn [orb]; eexists _, s, x; split; [reflexivity|done]|]. destruct (Z.leb_spec NN idx) as [Hi2|Hi2]; cbn [orb]; [eexists _, s, x; split; [reflexivity|done]|]. unfold NN in Hi2.
  destruct (v_dom _ _ V t idx Ht ltac:(lia)) as [e He]. rewrite He, bind_some. destruct (used e) eqn:Hu; cbn [negb]; [|eexists _, s, x; split; [reflexivity|done]].
  assert (there (nst s) t idx) as Hth by (split; [lia|]; intros _; unfold in_use; by rewrite He). destruct (ns_get_ok s _ t idx V Ht Hth) as (s1 & -> & V1 & (_ & _ & _ & D1 & P1) & _ & _ & S1). rewrite bind_some. fold (join_idx x t).
  assert (there (nst s) t (join_idx x t) ∧ (join_idx x t ≠ 0 → 1 ≤ users (procs s) t (join_idx x t))) as [Hj1 Hj2] by (unfold join_idx; destruct (Z.eqb_spec t N_PID) as [->|]; [by apply (kid_there s p x)|by apply (idx_there s p x)]).
  destruct (ns_put_ok s1 _ t (join_idx x t) V1 Ht (proj1 Hj1)) as (s2 & -> & V2 & (_ & _ & _ & D2 & P2) & S2 & _). { intros H0. specialize (Hj2 H0). unfold plus. destruct (_ && _); lia. }
  rewrite bind_some. eexists _, _, (with_join x t idx). split; [reflexivity|]. fold (with_join x t idx). destruct (with_join_ok x t idx Ht ltac:(lia) Hh (gd_idx _ Hg p x Hp Hh)) as (W1 & W2 & (W3 & W4 & W5 & W6 & W7 & W8) & W9).
  set (s3 := set_proc s2 p _). assert (procs s3 = <[p := Some (with_join x t idx)]> (procs s)) as Hps by (unfold s3; cbn; by rewrite P2, P1).
  split; [|split; [done|split; [by apply (get_set_proc s _ p x)|split; [congruence|do 6 (split; [done|])]]]].
  - refine (good_set s s3 p x _ _ Hg Hp V2 _ Hps (λ _, W1) _); [cbn; rewrite D2, D1; apply (gd_done _ Hg)|]. intros t' i Ht' Hi'. rewrite W9 by done. unfold plus. destruct (Z.eqb_spec t' t) as [->|]; cbn [andb]; [rewrite decide_True by done|rewrite decide_False by done; lia].
    rewrite (Z.eqb_sym i idx), (Z.eqb_sym i (join_idx x t)). destruct (idx =? i), (join_idx x t =? i); cbn; lia.
  - intros i e' _ He'. destruct (S2 _ _ _ He') as (e1 & He1 & A1 & A2 & A3 & _). destruct (S1 _ _ _ He1) as (e0 & He0 & B1 & B2 & B3 & _). exists e0. split_and!; congruence.
Qed.

End procs.

End NsRun.
