(* ===== verification/NsLife.v ===== *)
(** * Processes come and go in their namespaces

    Forking and exiting for the counts of [NsRun]: a child takes a reference of
    each kind, a process that exits drops its own; the end of the first process of
    a pid namespace kills what is inside. *)

From S2P Require Import Prelude Ns NsSpec NsRun.

Module NsLife.
Import Ns NsSpec NsRun.

Section procs.
Context `{left : Lost}.

(** ** The end of a process *)

Lemma plus_kind U t i k t' i' : t' ≠ t → plus U t i k t' i' = U t' i'.
Proof. intros H. apply plus_ne. congruence. Qed.

(** One namespace above or the same. *)
Inductive below (m : table) (n : Z) : Z → Prop :=
| below_self : below m n n
| below_up a e : a ≠ 0 → m !! (N_PID, a) = Some e → below m n (parent e) → below m n a.

Lemma parent_level m U a e : inv m U → 1 ≤ a < 32 → m !! (N_PID, a) = Some e → used e = true → there m N_PID (parent e) ∧ ∀ p, m !! (N_PID, parent e) = Some p → level e = level p + 1 ∧ (parent e ≠ 0 → 1 ≤ level p).
Proof.
  intros V Ha He Hu. pose proof (parent_there m U N_PID a e V ltac:(done) eq_refl Ha He Hu) as Hth. split; [done|]. intros p Hp. destruct (v_level _ _ V a e Ha He Hu) as [_ Hl]. split; [by apply Hl|]. intros H0.
  destruct (there_entry m U N_PID _ V ltac:(done) Hth) as (p' & Hp' & Hpu). rewrite Hp in Hp'. injection Hp' as <-. destruct Hth as [Hr _]. destruct (v_level _ _ V (parent e) p ltac:(lia) Hp Hpu). lia.
Qed.

Lemma inside_ok k s U n : ∀ a, inv (nst s) U → n ≠ 0 → there (nst s) N_PID a → (∀ e, nst s !! (N_PID, a) = Some e → a ≠ 0 → level e ≤ Z.of_nat k) → ∃ b : bool, inside k s a n = Some b ∧ (b = true ↔ below (nst s) n a).
Proof.
  induction k as [|k IH]; intros a V Hn Hth Hl; cbn [inside]; destruct (there_entry _ _ N_PID _ V ltac:(done) Hth) as (e & He & Hu); destruct (Z.eqb_spec a 0) as [->|Ha].
  1,3: exists false; split; [done|]; split; [done|]; by inversion 1.
  all: destruct (Z.eqb_spec a n) as [->|Han]; [exists true; split; [done|]; split; [intros _; constructor|done]|]; destruct Hth as [Hr Hth']; specialize (Hl e He Ha).
  - destruct (v_level _ _ V a e ltac:(lia) He Hu). lia.
  - rewrite He, bind_some. destruct (parent_level _ _ a e V ltac:(lia) He Hu) as [Hpt Hpl]. destruct (IH (parent e) V Hn Hpt) as (b & -> & Hb). { intros p Hp _. destruct (Hpl p Hp). lia. }
    exists b. split; [done|]. rewrite Hb. split; [by apply below_up|]. inversion 1 as [|? e' ? He' Hb']; [done|]. rewrite He in He'. by injection He' as <-.
Qed.

Lemma put_step s U t i : inv (nst s) U → 0 ≤ t < 6 → 0 ≤ i < 32 → (i ≠ 0 → 1 ≤ U t i) →
  ∃ s', ns_put s t i = Some s' ∧ inv (nst s') (plus U t i (-1)) ∧ (done s' = done s ∧ procs s' = procs s) ∧ same_pids (nst s) (nst s').
Proof.
  intros V Ht Hi HU. destruct (ns_put_ok s U t i V Ht Hi HU) as (s' & E & V' & (_ & _ & _ & D & P) & S & _). exists s'. split; [done|]. split; [done|]. split; [done|].
  intros j e He. destruct (S _ _ _ He) as (e0 & He0 & A1 & A2 & A3 & _). by exists e0.
Qed.

(** All references of a process are dropped. *)
Lemma puts_ok s p x : good s → get_proc s p = Some x → held x = true → ∃ s1 s2 s3 s4 s5 s6 s7,
  ns_put s N_MNT (mntns x) = Some s1 ∧ ns_put s1 N_UTS (utsns x) = Some s2 ∧ ns_put s2 N_IPC (ipcns x) = Some s3 ∧ ns_put s3 N_USER (userns x) = Some s4 ∧ ns_put s4 N_NET (netns x) = Some s5 ∧ ns_put s5 N_PID (pidns x) = Some s6 ∧
  (if nz (kidns x) then ns_put s6 N_PID (kidns x) else Some s6) = Some s7 ∧ inv (nst s7) (λ t i, users (procs s) t i - hold t i (Some x)) ∧ done s7 = true ∧ procs s7 = procs s ∧ same_pids (nst s) (nst s7).
Proof.
  intros Hg Hp Hh. set (U := users (procs s)). destruct (gd_idx _ Hg p x Hp Hh) as (I1 & I2 & _). assert (∀ t, 0 ≤ t < 6 → ns_idx x t ≠ 0 → 1 ≤ U t (ns_idx x t)) as HU by (intros t Ht; by apply (idx_there s p x t Hg Hp Hh Ht)).
  destruct (put_step s U N_MNT (mntns x) (gd_inv _ Hg) ltac:(done) (I1 N_MNT ltac:(done)) (HU N_MNT ltac:(done))) as (s1 & E1 & V1 & (D1 & P1) & S1).
  destruct (put_step s1 _ N_UTS (utsns x) V1 ltac:(done) (I1 N_UTS ltac:(done))) as (s2 & E2 & V2 & (D2 & P2) & S2); [rewrite !plus_kind by done; apply (HU N_UTS ltac:(done))|].
  destruct (put_step s2 _ N_IPC (ipcns x) V2 ltac:(done) (I1 N_IPC ltac:(done))) as (s3 & E3 & V3 & (D3 & P3) & S3); [rewrite !plus_kind by done; apply (HU N_IPC ltac:(done))|].
  destruct (put_step s3 _ N_USER (userns x) V3 ltac:(done) (I1 N_USER ltac:(done))) as (s4 & E4 & V4 & (D4 & P4) & S4); [rewrite !plus_kind by done; apply (HU N_USER ltac:(done))|].
  destruct (put_step s4 _ N_NET (netns x) V4 ltac:(done) (I1 N_NET ltac:(done))) as (s5 & E5 & V5 & (D5 & P5) & S5); [rewrite !plus_kind by done; apply (HU N_NET ltac:(done))|].
  destruct (put_step s5 _ N_PID (pidns x) V5 ltac:(done) (I1 N_PID ltac:(done))) as (s6 & E6 & V6 & (D6 & P6) & S6); [rewrite !plus_kind by done; apply (HU N_PID ltac:(done))|].
  set (U6 := plus _ N_PID (pidns x) (-1)) in V6. assert (∀ t i, 0 ≤ t < 6 → U6 t i = U t i - b2z (ns_idx x t =? i)) as HU6.
  { intros t i Ht. unfold U6. rewrite Z.eqb_sym. apply (kind_cases t); try done; unfold plus, ns_idx, N_MNT, N_UTS, N_IPC, N_USER, N_NET, N_PID; cbn [Z.eqb Pos.eqb andb]; match goal with |- context [i =? ?k] => destruct (i =? k) end; cbn [b2z]; lia. }
  assert (∃ s7, (if nz (kidns x) then ns_put s6 N_PID (kidns x) else Some s6) = Some s7 ∧ inv (nst s7) (plus U6 N_PID (kidns x) (-1)) ∧ (done s7 = done s6 ∧ procs s7 = procs s6) ∧ same_pids (nst s6) (nst s7)) as (s7 & E7 & V7 & (D7 & P7) & S7).
  { destruct (nz (kidns x)) eqn:Hk.
    - apply put_step; try done. intros _. rewrite HU6 by done. apply get_proc_slot in Hp. pose proof (users_ge _ _ _ N_PID (kidns x) Hp) as H. unfold hold in H. rewrite Hh, !Z.eqb_refl in H. fold U in H. cbn [b2z] in *. lia.
    - apply nz_false in Hk. exists s6. split_and!; try done; [|apply same_pids_refl]. apply (inv_ext _ U6); [done|]. intros t i _ Hi. apply plus_ne. rewrite Hk. intros [= _ ->]. lia. }
  exists s1, s2, s3, s4, s5, s6, s7. split_and!; try done.
  - apply (inv_ext _ _ _ V7). intros t i Ht Hi. unfold hold. rewrite Hh. unfold plus. rewrite HU6 by done. fold U. destruct (Z.eqb_spec t N_PID) as [->|]; cbn [andb]; [|lia]. rewrite (Z.eqb_sym i). destruct (kidns x =? i); cbn; lia.
  - rewrite D7, D6, D5, D4, D3, D2, D1. apply (gd_done _ Hg).
  - by rewrite P7, P6, P5, P4, P3, P2, P1.
  - do 6 (eapply same_pids_trans; [|eassumption]). done.
Qed.

(** Threads hold no references: they are not part of the runs below. *)
Definition no_threads (l : list (option proc)) : Prop := ∀ q y, l !! q = Some (Some y) → is_thread y = false.

(** The first process of a pid namespace. *)
Definition first_in (m : table) (x : proc) : Prop := pidns x ≠ 0 ∧ ∃ e, m !! (N_PID, pidns x) = Some e ∧ (vpid x).[level e] = Some 1.

Definition cleared (x : proc) : proc := {| x with mntns := 0; utsns := 0; ipcns := 0; userns := 0; netns := 0; kidns := 0 |}.

Lemma live_there s : good s → no_threads (procs s) → ∀ q, Some q ∈ procs s → alive q = true → there (nst s) N_PID (pidns q).
Proof. intros Hg Hnt q Hq Ha. apply list_elem_of_lookup in Hq as [k Hk]. apply (idx_there s k q N_PID); try done; [by apply get_proc_slot|]. unfold held. by rewrite Ha, (Hnt k q Hk). Qed.

Lemma pid_level s p x : good s → get_proc s p = Some x → held x = true → ∃ e v, nst s !! (N_PID, pidns x) = Some e ∧ used e = true ∧ 0 ≤ level e ≤ 3 ∧ (vpid x).[level e] = Some v.
Proof.
  intros Hg Hp Hh. destruct (idx_there s p x N_PID Hg Hp Hh ltac:(done)) as [Hth _]. change (ns_idx x N_PID) with (pidns x) in Hth. destruct (there_entry _ _ N_PID _ (gd_inv _ Hg) ltac:(done) Hth) as (e & He & Hu).
  assert (0 ≤ level e ≤ 3) as Hl. { destruct (decide (pidns x = 0)) as [E|E]; [rewrite E in He; destruct (v_root _ _ (gd_inv _ Hg) N_PID e ltac:(done) He); lia|]. destruct Hth as [Hr _]. destruct (v_level _ _ (gd_inv _ Hg) (pidns x) e ltac:(lia) He Hu). lia. }
  destruct (gd_idx _ Hg p x Hp Hh) as (_ & _ & H4). destruct (arr_get_is_Some (vpid x) (level e) ltac:(lia)) as [v Hv]. by exists e, v.
Qed.

Lemma leave_ok s p x : good s → get_proc s p = Some x → held x = true →
  ∃ s', leave s p = Some s' ∧ inv (nst s') (λ t i, users (procs s) t i - hold t i (Some x)) ∧ done s' = true ∧ procs s' = <[p := Some (cleared x)]> (procs s) ∧ same_pids (nst s) (nst s').
Proof.
  intros Hg Hp Hh. unfold leave. rewrite Hp, bind_some. assert (is_thread x = false) as Eth by (unfold held in Hh; by destruct (alive x), (is_thread x)). rewrite Eth.
  destruct (puts_ok s p x Hg Hp Hh) as (t1 & t2 & t3 & t4 & t5 & t6 & t7 & E1 & E2 & E3 & E4 & E5 & E6 & E7 & V7 & D7 & P7 & S7).
  rewrite E1, bind_some, E2, bind_some, E3, bind_some, E4, bind_some, E5, bind_some, E6, bind_some, E7, bind_some. eexists. split; [reflexivity|]. split; [exact V7|]. split; [exact D7|]. split; [|exact S7]. unfold set_proc, cleared. cbn [procs]. by rewrite P7, Eth.
Qed.

End procs.

End NsLife.
