(* ===== verification/NsFork.v ===== *)
(** * A child takes its place

    What [ns_fork] does: references of every kind for the child, new namespaces if
    they were asked for, a pid from every pid namespace above it. *)

From S2P Require Import Prelude Ns NsSpec NsRun NsLife.

Module NsFork.
Import Ns NsSpec NsRun NsLife.

Section procs.
Context `{left : Lost}.

(** ** Pids from all levels *)

Lemma below_there m U n a : inv m U → below m n a → n ≠ 0 → there m N_PID a → there m N_PID n ∧ a ≠ 0 ∧ ∀ e en, m !! (N_PID, a) = Some e → m !! (N_PID, n) = Some en → level en ≤ level e ∧ (a ≠ n → level en < level e).
Proof.
  intros V Hb Hn. induction Hb as [|a e Ha He Hb IH]; intros Hth; [split; [done|]; split; [done|]; intros e en He Hen; rewrite He in Hen; injection Hen as <-; lia|].
  destruct (there_entry _ _ N_PID _ V ltac:(done) Hth) as (e' & He' & Hu). rewrite He in He'. injection He' as <-. destruct (parent_level _ _ a e V ltac:(destruct Hth; lia) He Hu) as [Hpt Hpl]. destruct (IH Hpt) as (H1 & H2 & H3). split; [done|]. split; [done|].
  intros e' en He' Hen. rewrite He in He'. injection He' as <-. destruct (there_entry _ _ N_PID _ V ltac:(done) Hpt) as (pe & Hpe & _). destruct (Hpl pe Hpe) as [L1 _]. destruct (H3 pe en Hpe Hen). lia.
Qed.

Lemma below_mono m m' n a : (∀ i e, m !! (N_PID, i) = Some e → ∃ e', m' !! (N_PID, i) = Some e' ∧ parent e' = parent e) → below m n a → below m' n a.
Proof. intros Hm. induction 1 as [|a e Ha He Hb IH]; [constructor|]. destruct (Hm a e He) as (e' & He' & Hp). apply (below_up _ _ a e'); [done..|]. by rewrite Hp. Qed.

(** The namespaces above [a] handed out the pids [v]. *)
Definition given (m m' : table) (a : Z) (v : list Z) : Prop :=
  ∀ i e', m' !! (N_PID, i) = Some e' → ∃ e, m !! (N_PID, i) = Some e ∧ parent e' = parent e ∧ level e' = level e ∧
    (below m i a → i ≠ 0 → v.[level e] = Some (next e) ∧ next e' = next e + 1) ∧ (¬ below m i a → next e' = next e) ∧ next e ≤ next e'.

Lemma give_pids_ok k U : ∀ s a v, inv (nst s) U → there (nst s) N_PID a → (∀ e, nst s !! (N_PID, a) = Some e → a ≠ 0 → level e ≤ Z.of_nat k) → (∀ i e, i ≠ 0 → below (nst s) i a → nst s !! (N_PID, i) = Some e → next e < 2 ^ 31 - 1) → length v = 4%nat →
  ∃ v' s', give_pids k s a v = Some (v', s') ∧ inv (nst s') U ∧ (done s' = done s ∧ procs s' = procs s) ∧ length v' = 4%nat ∧ given (nst s) (nst s') a v' ∧ v'.[0] = v.[0] ∧ ∀ L, (∀ e, nst s !! (N_PID, a) = Some e → a ≠ 0 → level e < L) → v'.[L] = v.[L].
Proof.
  induction k as [|k IH]; intros s a v V Hth Hl Hsm Hv; cbn [give_pids]; destruct (there_entry _ _ N_PID _ V ltac:(done) Hth) as (e & He & Hu); destruct (Z.eqb_spec a 0) as [->|Ha].
  1,3: exists v, s; split_and!; try done; intros i e' He'; exists e'; split_and!; try done; intros Hb; inversion Hb; done.
  all: destruct Hth as [Hr Hth']; specialize (Hl e He Ha); destruct (v_level _ _ V a e ltac:(lia) He Hu) as [Hl1 _]; try (exfalso; lia).
  rewrite He, bind_some. destruct (v.[level e <- next e]) as [v1|] eqn:Ev; [|unfold arr_set in Ev; destruct (_ && _) eqn:Eb in Ev; [done|]; bools; lia]. rewrite bind_some. pose proof (arr_set_length _ _ _ _ Ev) as Hv1.
  assert (i32 (next e + 1) = next e + 1) as Enx. { pose proof (v_next _ _ V a e ltac:(lia) He Hu). specialize (Hsm a e Ha (below_self _ _) He). rewrite i32_small by lia. done. } rewrite Enx.
  set (s1 := set_ns _ N_PID a _). destruct (parent_level _ _ a e V ltac:(lia) He Hu) as [Hpt Hpl].
  assert (inv (nst s1) U) as V1. { apply (entry_set_inv _ U _ N_PID a e); try done; [cbn; lia|]. intros _. destruct (v_refs _ _ V N_PID a e ltac:(done) ltac:(lia) He). cbn. lia. }
  assert (∀ i, i ≠ a → nst s1 !! (N_PID, i) = nst s !! (N_PID, i)) as Hne by (intros i Hi; cbn; by rewrite lookup_insert_ne by congruence). assert (nst s1 !! (N_PID, a) = Some {| e with next := next e + 1 |}) as Hea by apply lookup_insert_eq.
  assert (∀ n b, below (nst s1) n b ↔ below (nst s) n b) as Hbel. { intros n b. split; apply below_mono; intros i x Hx; (destruct (decide (i = a)) as [->|Hi]; [|exists x; by rewrite ?Hne in * by done]); [rewrite Hea in Hx; injection Hx as <-; by exists e|rewrite He in Hx; injection Hx as <-; by eexists]. }
  assert (parent e ≠ a) as Hpa. { intros E. rewrite E in Hpl. destruct (Hpl e He). lia. }
  assert (¬ below (nst s) a (parent e)) as Hnb. { intros Hb. destruct (there_entry _ _ N_PID _ V ltac:(done) Hpt) as (pe & Hpe & _). destruct (below_there _ _ _ _ V Hb Ha Hpt) as (_ & _ & Hlt). destruct (Hlt pe e Hpe He), (Hpl pe Hpe). lia. }
  destruct (IH s1 (parent e) v1 V1) as (v' & s' & -> & V' & (D' & P') & Hv' & Hgv & Hz & Hlev); [destruct Hpt as [H1 H2]; split; [done|]; intros H0; rewrite (in_use_same (nst s)); [by apply H2|by apply Hne]| | |congruence|].
  { intros pe Hpe _. rewrite Hne in Hpe by done. destruct (Hpl pe Hpe). lia. }
  { intros i x Hi Hb%Hbel Hx. rewrite Hne in Hx by (intros ->; by destruct Hnb). apply (Hsm i x Hi); [by apply (below_up _ _ a e)|done]. }
  exists v', s'. split; [done|]. split; [done|]. split; [done|]. split; [done|]. assert (v'.[level e] = Some (next e)) as Hve. { rewrite Hlev, (arr_get_set _ _ _ _ _ Ev); [by rewrite decide_True|]. intros pe Hpe _. rewrite Hne in Hpe by done. destruct (Hpl pe Hpe). lia. }
  split; [|split; [rewrite Hz, (arr_get_set _ _ _ _ _ Ev), decide_False by lia; done|]].
  - intros i e' He'. destruct (Hgv i e' He') as (e1 & He1 & A1 & A2 & A3 & A4 & A5). rewrite Hbel in A3, A4. destruct (decide (i = a)) as [->|Hi].
    + rewrite Hea in He1. injection He1 as <-. exists e. cbn in *. split_and!; try done; [intros _ _; split; [done|by apply A4]| |lia]. intros Hn. destruct Hn. constructor.
    + rewrite Hne in He1 by done. exists e1. split_and!; try done.
      * intros Hb Hi0. apply A3; [|done]. inversion Hb as [|? e2 ? He2 Hb2]; [done|]. rewrite He in He2. by injection He2 as <-.
      * intros Hb. apply A4. intros Hb2. apply Hb. by apply (below_up _ _ a e).
  - intros L HL. specialize (HL e eq_refl Ha). rewrite Hlev; [rewrite (arr_get_set _ _ _ _ _ Ev), decide_False by lia; done|]. intros pe Hpe _. rewrite Hne in Hpe by done. destruct (Hpl pe Hpe). lia.
Qed.

(** ** The references of the child *)

Lemma get_step s U t i : inv (nst s) U → 0 ≤ t < 6 → there (nst s) t i → ∃ s', ns_get s t i = Some s' ∧ inv (nst s') (plus U t i 1) ∧ (done s' = done s ∧ procs s' = procs s) ∧ only (nst s) (nst s') t ∧ same_pids (nst s) (nst s') ∧ ∀ t' i', 0 ≤ t' < 6 → there (nst s) t' i' → there (nst s') t' i'.
Proof.
  intros V Ht Hth. destruct (ns_get_ok s U t i V Ht Hth) as (s' & E & V' & (_ & _ & _ & D & P) & _ & O & S). exists s'. split_and!; try done.
  - intros j e He. destruct (S _ _ _ He) as (e0 & He0 & A1 & A2 & A3 & _). by exists e0.
  - intros t' i' Ht'. by apply (get_there s s' (plus U t i 1)).
Qed.

Lemma gets_ok s U y : inv (nst s) U → (∀ t, 0 ≤ t < 6 → there (nst s) t (ns_idx y t)) → ∃ s1 s2 s3 s4 s5 s6,
  ns_get s N_MNT (mntns y) = Some s1 ∧ ns_get s1 N_UTS (utsns y) = Some s2 ∧ ns_get s2 N_IPC (ipcns y) = Some s3 ∧ ns_get s3 N_USER (userns y) = Some s4 ∧ ns_get s4 N_NET (netns y) = Some s5 ∧ ns_get s5 N_PID (pidns y) = Some s6 ∧
  inv (nst s6) (λ t i, U t i + b2z (ns_idx y t =? i)) ∧ (done s6 = done s ∧ procs s6 = procs s) ∧ same_pids (nst s) (nst s6) ∧ ∀ i, there (nst s) N_PID i → there (nst s6) N_PID i.
Proof.
  intros V Hth. destruct (get_step s U N_MNT (mntns y) V ltac:(done) (Hth N_MNT ltac:(done))) as (s1 & E1 & V1 & (D1 & P1) & O1 & S1 & T1).
  destruct (get_step s1 _ N_UTS (utsns y) V1 ltac:(done)) as (s2 & E2 & V2 & (D2 & P2) & O2 & S2 & T2); [apply T1; [done|apply (Hth N_UTS ltac:(done))]|].
  destruct (get_step s2 _ N_IPC (ipcns y) V2 ltac:(done)) as (s3 & E3 & V3 & (D3 & P3) & O3 & S3 & T3); [apply T2, T1; [done..|apply (Hth N_IPC ltac:(done))]|].
  destruct (get_step s3 _ N_USER (userns y) V3 ltac:(done)) as (s4 & E4 & V4 & (D4 & P4) & O4 & S4 & T4); [apply T3, T2, T1; [done..|apply (Hth N_USER ltac:(done))]|].
  destruct (get_step s4 _ N_NET (netns y) V4 ltac:(done)) as (s5 & E5 & V5 & (D5 & P5) & O5 & S5 & T5); [apply T4, T3, T2, T1; [done..|apply (Hth N_NET ltac:(done))]|].
  destruct (get_step s5 _ N_PID (pidns y) V5 ltac:(done)) as (s6 & E6 & V6 & (D6 & P6) & O6 & S6 & T6); [apply T5, T4, T3, T2, T1; [done..|apply (Hth N_PID ltac:(done))]|].
  exists s1, s2, s3, s4, s5, s6. split_and!; try done.
  - apply (inv_ext _ _ _ V6). intros t i Ht Hi. rewrite Z.eqb_sym. apply (kind_cases t); try done; unfold plus, ns_idx, N_MNT, N_UTS, N_IPC, N_USER, N_NET, N_PID; cbn [Z.eqb Pos.eqb andb]; match goal with |- context [i =? ?k] => destruct (i =? k) end; cbn [b2z]; lia.
  - congruence.
  - congruence.
  - do 5 (eapply same_pids_trans; [|eassumption]). done.
  - intros i Hi. apply T6, T5, T4, T3, T2, T1; done.
Qed.

(** No pid namespace is near the end of the pids. *)
Definition few (m : table) : Prop := ∀ i e, m !! (N_PID, i) = Some e → next e < 2 ^ 31 - 1.

Lemma few_same m m' : same_pids m m' → few m → few m'.
Proof. intros Hs Hf i e He. destruct (Hs i e He) as (e0 & He0 & _ & _ & ->). by apply (Hf i). Qed.

Lemma new_pid_ns_ok s c y fl : good s → get_proc s c = Some y → held y = true → kidns y = 0 →
  ∃ s' n, new_pid_ns s c fl = Some s' ∧ good s' ∧ procs s' = <[c := Some {| y with pidns := n |}]> (procs s) ∧ keep (nst s) (nst s') ∧ 0 ≤ n < 32 ∧ (few (nst s) → few (nst s')).
Proof.
  intros Hg Hc Hh Hk. pose proof (gd_inv _ Hg) as V. destruct (idx_there s c y N_PID Hg Hc Hh ltac:(done)) as [Hth Hus]. change (ns_idx y N_PID) with (pidns y) in *. apply get_proc_slot in Hc as Hc'.
  assert (procs s = <[c := Some {| y with pidns := pidns y |}]> (procs s)) as Hsame by (destruct y; cbn; by rewrite list_insert_id). assert (∃ s' n, Some s = Some s' ∧ good s' ∧ procs s' = <[c := Some {| y with pidns := n |}]> (procs s) ∧ keep (nst s) (nst s') ∧ 0 ≤ n < 32 ∧ (few (nst s) → few (nst s'))) as Hno.
  { exists s, (pidns y). split; [done|]. split; [done|]. split; [done|]. split; [apply keep_refl|]. split; [apply Hth|done]. }
  unfold new_pid_ns. destruct (has fl NEWPID); [|done]. rewrite Hc, bind_some. cbv zeta. destruct (there_entry _ _ N_PID _ V ltac:(done) Hth) as (e & He & Hu). rewrite He, bind_some. destruct (Z.ltb_spec (level e) 3) as [Hl|Hl]; [|done].
  destruct (ns_new_ok s _ N_PID (pidns y) V (gd_done _ Hg) ltac:(done) Hth) as (n & s1 & -> & V1 & D1 & P1 & _ & Hn). { intros _ pe Hpe. rewrite He in Hpe. injection Hpe as <-. lia. }
  rewrite bind_some. destruct Hn as [[-> ->]|(Hn & Hnu & Hid & Hne & Hgr)]; [done|]. rewrite (proj2 (Z.ltb_lt 0 n)) by lia. set (y' := {| y with pidns := n |}). destruct Hne as (en & pe & Hen & Hun & _ & Hnx & _).
  destruct (get_step (set_proc s1 c y') _ N_PID n V1 ltac:(done)) as (s2 & -> & V2 & (D2 & P2) & _ & S2 & _); [split; [lia|]; intros _; unfold in_use; cbn; by rewrite Hen|]. rewrite bind_some.
  destruct (put_step s2 _ N_PID (pidns y) V2 ltac:(done) (proj1 Hth)) as (s3 & -> & V3 & (D3 & P3) & S3); [intros H0; specialize (Hus H0); unfold plus; destruct (_ && _); lia|].
  assert (procs s3 = <[c := Some y']> (procs s)) as Hps by (rewrite P3, P2; cbn; by rewrite P1). assert (held y' = true) as Hh' by exact Hh. destruct (gd_idx _ Hg c y Hc Hh) as (I1 & I2 & I3). exists s3, n. split; [done|]. split; [|split; [done|split; [|split; [lia|]]]].
  - refine (good_set s s3 c y y' _ Hg Hc V3 _ Hps _ _).
    + rewrite D3, D2. exact D1.
    + intros _. split; [|done]. intros t Ht. pose proof (I1 t Ht) as H. revert H. apply (kind_cases t); try done; intros _. cbn. lia.
    + intros t i Ht Hi. unfold hold. rewrite Hh, Hh'. cbn [kidns y']. rewrite Hk, (proj2 (Z.eqb_neq 0 i)) by lia. unfold plus. apply (kind_cases t); try done; unfold ns_idx, N_MNT, N_UTS, N_IPC, N_USER, N_NET, N_PID; cbn [Z.eqb Pos.eqb andb y' mntns utsns ipcns userns netns pidns]; try (cbn [b2z]; lia). rewrite (Z.eqb_sym i n), (Z.eqb_sym i (pidns y)). destruct (n =? i), (pidns y =? i); cbn [b2z]; lia.
  - intros i x3 Hi Hx3. destruct (S3 i x3 Hx3) as (x2 & Hx2 & A1 & A2 & A3). destruct (S2 i x2 Hx2) as (x1 & Hx1 & B1 & B2 & B3). cbn in Hx1. destruct (Hgr N_PID i x1) as (x0 & Hx0 & C1 & C2 & C3 & _); [|done|exists x0; split_and!; congruence].
    intros [= ->]. destruct Hi as [_ Hi]. rewrite Hi in Hnu by lia. done.
  - intros Hf. apply (few_same _ _ S3), (few_same _ _ S2). intros i x1 Hx1. cbn in Hx1. destruct (decide (i = n)) as [->|Hi]; [rewrite Hen in Hx1; injection Hx1 as <-; lia|]. destruct (Hgr N_PID i x1) as (x0 & Hx0 & _ & _ & -> & _); [congruence|done|]. by apply (Hf i).
Qed.

(** ** The whole fork *)

Lemma hold_fresh t i g : 0 ≤ t < 6 → 1 ≤ i → hold t i (Some (fresh g)) = 0.
Proof.
  intros Ht Hi. unfold hold. change (held (fresh g)) with true. change (kidns (fresh g)) with 0. assert (ns_idx (fresh g) t = 0) as -> by (by apply (kind_cases t)). rewrite (proj2 (Z.eqb_neq 0 i)) by lia. by destruct (t =? N_PID).
Qed.

Lemma ldiff_has fl bit : has (Z.ldiff fl bit) bit = false.
Proof. unfold has. apply nz_false. apply Z.bits_inj'. intros n _. rewrite Z.land_spec, Z.ldiff_spec, Z.bits_0. destruct (Z.testbit fl n), (Z.testbit bit n); done. Qed.

(** What comes of [fork]: the child [y] and the pids it got. *)
Definition born (s s' : st) (p c : nat) (x : proc) (g : Z) (y : proc) : Prop :=
  good s' ∧ procs s' = <[c := Some y]> (<[p := Some {| x with nsfl := 0 |}]> (procs s)) ∧ held y = true ∧ is_thread y = false ∧ pid y = g ∧ tgid y = g ∧
  ∃ m, inv m (users (procs s')) ∧ keep (nst s) m ∧ there m N_PID (pidns y) ∧ given m (nst s') (pidns y) (vpid y) ∧ (vpid y).[0] = Some g.

Lemma ns_fork_ok hn s p c x g : good s → get_proc s p = Some x → held x = true → get_proc s c = Some (fresh g) → c ≠ p → few (nst s) → ∃ s' y, ns_fork hn s p c = Some s' ∧ born s s' p c x g y.
Proof.
  intros Hg Hp Hh Hc Hcp Hfew. unfold ns_fork. cbv zeta. rewrite (boot_id s (gd_done _ Hg)), Hp, bind_some. set (fl := nsfl x). set (x0 := {| x with nsfl := 0 |}). set (s1 := set_proc s p x0). apply get_proc_slot in Hp as Hp'. apply get_proc_slot in Hc as Hc'.
  assert (good s1) as Hg1. { refine (good_set s s1 p x x0 _ Hg Hp (gd_inv _ Hg) (gd_done _ Hg) eq_refl _ _); [intros _; exact (gd_idx _ Hg p x Hp Hh)|]. intros t i Ht Hi. change (hold t i (Some x0)) with (hold t i (Some x)). lia. }
  assert (get_proc s1 c = Some (fresh g)) as Hc1 by (apply get_proc_slot; cbn; by rewrite list_lookup_insert_ne). rewrite Hc1, bind_some. set (cur := if nz (kidns x) then kidns x else pidns x).
  match goal with |- context [set_proc s1 c ?q] => set (y := q) end. change (is_thread y) with false. cbv iota. set (s2 := set_proc s1 c y).
  assert (∀ t, 0 ≤ t < 6 → there (nst s) t (ns_idx y t)) as Hth. { intros t Ht. destruct (idx_there s p x t Hg Hp Hh Ht) as [H _]. revert H. apply (kind_cases t); try done. intros H. cbn. unfold cur. destruct (nz (kidns x)); [apply (kid_there s p x Hg Hp Hh)|exact H]. }
  destruct (gets_ok s2 _ y (gd_inv _ Hg1) Hth) as (t1 & t2 & t3 & t4 & t5 & t6 & E1 & E2 & E3 & E4 & E5 & E6 & V6 & (D6 & P6) & S6 & T6). rewrite E1, bind_some, E2, bind_some, E3, bind_some, E4, bind_some, E5, bind_some, E6, bind_some.
  assert (good t6) as Hg6. { refine (good_set s1 t6 c (fresh g) y _ Hg1 Hc1 V6 _ P6 _ _).
    - rewrite D6. exact (gd_done _ Hg).
    - intros _. split; [intros t Ht; apply (Hth t Ht)|]. split; [cbn; lia|done].
    - intros t i Ht Hi. rewrite hold_fresh by (done || lia). unfold hold. change (held y) with true. change (kidns y) with 0. rewrite (proj2 (Z.eqb_neq 0 i)) by lia. destruct (t =? N_PID); cbn [b2z]; lia. }
  assert (get_proc t6 c = Some y) as Hc6 by (apply (get_set_proc s1 _ c (fresh g)); [done|exact P6]). set (ask := Z.lor NEWNS _).
  assert (∃ t7 y7, (if has fl ask then '(_, s) ← apply hn t6 c (Z.ldiff fl NEWPID) true; Some s else Some t6) = Some t7 ∧ after t6 t7 c y y7 ∧ kidns y7 = 0 ∧ ∀ i, nst t7 !! (N_PID, i) = nst t6 !! (N_PID, i)) as (t7 & y7 & E7 & A7 & K7 & R7).
  { destruct (has fl ask).
    - destruct (apply_ok hn t6 c y (Z.ldiff fl NEWPID) true Hg6 Hc6 eq_refl) as (r & t7 & y7 & -> & A & B); [intros _; apply ldiff_has|]. rewrite bind_some. exists t7, y7. destruct (B (ldiff_has _ _)) as [B1 B2]. split; [done|]. split; [exact A|]. split; [by rewrite B1|exact B2].
    - exists t6, y. split; [done|]. split; [|done]. apply after_none; try done; [apply (gd_inv _ Hg6)|apply (gd_done _ Hg6)|apply keep_refl]. }
  rewrite E7, bind_some. destruct A7 as (Hg7 & P7 & Hc7 & H7 & B1 & B2 & B3 & B4 & B5 & B6 & _). destruct (new_pid_ns_ok t7 c y7 fl Hg7 Hc7 H7 K7) as (t8 & n & E8 & Hg8 & P8 & KK8 & Hn & Hf8). rewrite E8, bind_some. set (y8 := {| y7 with pidns := n |}) in *.
  assert (get_proc t8 c = Some y8) as Hc8 by (by apply (get_set_proc t7 _ c y7)). rewrite Hc8, bind_some. assert (held y8 = true) as Hh8 by (change (held y8) with (held y7); by rewrite H7). assert ((vpid y8).[0 <- pid y8] = Some [g; 0; 0; 0]) as -> by (change ((vpid y7).[0 <- pid y7] = Some [g; 0; 0; 0]); rewrite B6, B1; reflexivity).
  rewrite bind_some. change (pidns y8) with n. destruct (idx_there t8 c y8 N_PID Hg8 Hc8 Hh8 ltac:(done)) as [Hth8 _]. change (ns_idx y8 N_PID) with n in Hth8.
  destruct (give_pids_ok 4 _ t8 n [g; 0; 0; 0] (gd_inv _ Hg8) Hth8) as (v & t9 & -> & V9 & (D9 & P9) & Hv & Hgv & Hz & _); [| |done|]. { intros e He H0. destruct Hth8 as [Hr Hu8]. specialize (Hu8 H0). unfold in_use in Hu8. rewrite He in Hu8. destruct (v_level _ _ (gd_inv _ Hg8) n e ltac:(lia) He Hu8). lia. }
  { intros i e _ _ He. assert (few (nst t8)) as F by (apply Hf8; intros j e7 He7; rewrite R7 in He7; by apply (few_same _ _ S6 Hfew j)). by apply (F i). }
  rewrite bind_some. set (y9 := {| y8 with vpid := v |}). exists (set_proc t9 c y9), y9. split; [done|]. assert (procs t8 = <[c := Some y8]> (procs s1)) as Hps8 by (rewrite P8, P7, P6; cbn; by rewrite !list_insert_insert_eq).
  assert (procs (set_proc t9 c y9) = <[c := Some y9]> (procs t8)) as Hps9 by (cbn; by rewrite P9). destruct (gd_idx _ Hg8 c y8 Hc8 Hh8) as (I1 & I2 & _). split; [|split; [|split; [exact Hh8|split; [|split; [exact B1|split; [exact B2|]]]]]].
  - refine (good_set t8 (set_proc t9 c y9) c y8 y9 _ Hg8 Hc8 V9 _ Hps9 _ _); [cbn; rewrite D9; apply (gd_done _ Hg8)|intros _; split; [exact I1|split; [exact I2|exact Hv]]|]. intros t i Ht Hi. change (hold t i (Some y9)) with (hold t i (Some y8)). lia.
  - rewrite Hps9, Hps8, list_insert_insert_eq. done.
  - change (is_thread y9) with (is_thread y7). by rewrite B3.
  - exists (nst t8). split; [apply (inv_ext _ _ _ (gd_inv _ Hg8)); intros t i _ _; apply get_proc_slot in Hc8; rewrite Hps9, (users_set _ _ _ _ _ _ Hc8); change (hold t i (Some y9)) with (hold t i (Some y8)); lia|]. assert (∀ i, there (nst s) N_PID i → there (nst t7) N_PID i) as Hth7. { intros i Hi. destruct (T6 i Hi) as [H1 H2]. split; [done|]. intros H0. rewrite (in_use_same (nst t6)) by apply R7. by apply H2. }
    split; [|split; [exact Hth8|split; [exact Hgv|]]].
    + intros i e8 Hi He8. destruct (KK8 i e8 (Hth7 i Hi) He8) as (e7 & He7 & C1 & C2 & C3). rewrite R7 in He7. destruct (S6 i e7 He7) as (e & He & F1 & F2 & F3). exists e. split_and!; [exact He|congruence..].
    + exact Hz.
Qed.

End procs.

End NsFork.
