(* ===== verification/NsPids.v ===== *)
(** * Pids tell the processes of a namespace apart

    The invariant of runs: counts that are right, no threads, and in every pid
    namespace different pids for the processes in it and below; unshare, setns and
    clone keep it. *)

From S2P Require Import Prelude Ns NsSpec NsRun NsLife NsFork.

Module NsPids.
Import Ns NsSpec NsRun NsLife NsFork.

Section procs.
Context `{left : Lost}.

(** ** Pids tell processes apart *)

Lemma below_keep m m' U U' n a : inv m U → inv m' U' → (∀ i e', there m N_PID i → m' !! (N_PID, i) = Some e' → ∃ e, m !! (N_PID, i) = Some e ∧ parent e' = parent e) → there m N_PID a → below m n a ↔ below m' n a.
Proof.
  intros V V' Hk. split.
  - intros Hb. induction Hb as [|a e Ha He Hb IH]; [constructor|]. match goal with H : there m N_PID a |- _ => rename H into Hth end. destruct (v_dom _ _ V' N_PID a ltac:(done) (proj1 Hth)) as [e' He']. destruct (Hk a e' Hth He') as (e0 & He0 & Hp). rewrite He in He0. injection He0 as <-.
    apply (below_up _ _ a e'); [done..|]. rewrite Hp. apply IH. destruct (there_entry _ _ N_PID _ V ltac:(done) Hth) as (e0 & He0 & Hu). rewrite He in He0. injection He0 as <-. by apply (parent_there m U N_PID a e); try done; destruct Hth; lia.
  - intros Hb. induction Hb as [|a e' Ha He' Hb IH]; [constructor|]. match goal with H : there m N_PID a |- _ => rename H into Hth end. destruct (Hk a e' Hth He') as (e & He & Hp). apply (below_up _ _ a e); [done..|]. rewrite <- Hp. apply IH. rewrite Hp.
    destruct (there_entry _ _ N_PID _ V ltac:(done) Hth) as (e0 & He0 & Hu). rewrite He in He0. injection He0 as <-. by apply (parent_there m U N_PID a e); try done; destruct Hth; lia.
Qed.

(** The live process at a slot. *)
Definition live (l : list (option proc)) (q : nat) (x : proc) : Prop := l !! q = Some (Some x) ∧ alive x = true.

Record pids_ok (m : table) (l : list (option proc)) : Prop := {
  po_range : ∀ q x n e, live l q x → n ≠ 0 → below m n (pidns x) → m !! (N_PID, n) = Some e → ∃ k, (vpid x).[level e] = Some k ∧ 1 ≤ k < next e;
  po_diff : ∀ q q' x x' n e, live l q x → live l q' x' → q ≠ q' → n ≠ 0 → below m n (pidns x) → below m n (pidns x') → m !! (N_PID, n) = Some e → (vpid x).[level e] ≠ (vpid x').[level e]
}.

(** Processes may go, and change but for their pids. *)
Definition fewer (l l' : list (option proc)) : Prop := ∀ q x', live l' q x' → ∃ x, live l q x ∧ pidns x' = pidns x ∧ vpid x' = vpid x.

Lemma pids_keep m m' U U' l l' : inv m U → inv m' U' → keep m m' → (∀ q x, live l q x → there m N_PID (pidns x)) → fewer l l' → pids_ok m l → pids_ok m' l'.
Proof.
  intros V V' Hk Hth Hf [P1 P2]. assert (∀ q x n e', live l q x → n ≠ 0 → below m' n (pidns x) → m' !! (N_PID, n) = Some e' → below m n (pidns x) ∧ ∃ e, m !! (N_PID, n) = Some e ∧ level e' = level e ∧ next e' = next e) as Hx.
  { intros q x n e' Hl Hn Hb He'. apply (below_keep m m' U U') in Hb; [|done|done| |by apply (Hth q)]; [|intros i x0 Hi Hx0; destruct (Hk i x0 Hi Hx0) as (x1 & Hx1 & E & _); by exists x1]. split; [done|]. destruct (below_there m U n _ V Hb Hn (Hth q x Hl)) as (Htn & _). destruct (Hk n e' Htn He') as (e & He & _ & H2 & H3). by exists e. }
  split.
  - intros q x' n e' Hl Hn Hb He'. destruct (Hf q x' Hl) as (x & Hlx & E1 & E2). rewrite E1, E2 in *. destruct (Hx q x n e' Hlx Hn Hb He') as (Hb' & e & He & -> & ->). by apply (P1 q x n e).
  - intros q q' x' y' n e' Hl1 Hl2 Hne Hn Hb1 Hb2 He'. destruct (Hf q x' Hl1) as (x & Hlx & E1 & E2). destruct (Hf q' y' Hl2) as (y & Hly & F1 & F2). rewrite E1, E2, F1, F2 in *.
    destruct (Hx q x n e' Hlx Hn Hb1 He') as (Hb1' & e & He & -> & _). destruct (Hx q' y n e' Hly Hn Hb2 He') as (Hb2' & _). by apply (P2 q q' x y n e).
Qed.

(** A child is given its pids. *)
Lemma pids_given m m' U U' l c y : inv m U → inv m' U' → given m m' (pidns y) (vpid y) → there m N_PID (pidns y) → (∀ q x, live l q x → there m N_PID (pidns x)) → (∀ x, ¬ live l c x) → alive y = true → (c < length l)%nat →
  pids_ok m l → pids_ok m' (<[c := Some y]> l).
Proof.
  intros V V' Hgv Hty Hth Hc Ha Hlen [P1 P2]. assert (∀ n a, there m N_PID a → below m' n a → below m n a) as Hbel.
  { intros n a Ht Hb. apply (below_keep m m' U U'); try done. intros i e' _ He'. destruct (Hgv i e' He') as (e & He & Hp & _). by exists e. }
  assert (∀ q x, live (<[c := Some y]> l) q x → q = c ∧ x = y ∨ q ≠ c ∧ live l q x) as Hlv. { intros q x [Hl Hax]. destruct (decide (q = c)) as [->|Hq]; [rewrite list_lookup_insert_eq in Hl by done; injection Hl as <-; by left|]. rewrite list_lookup_insert_ne in Hl by done. by right. }
  assert (∀ q x, live (<[c := Some y]> l) q x → there m N_PID (pidns x)) as Hthx by (intros q x [[_ ->]|[_ H]]%Hlv; [done|by apply (Hth q)]).
  split.
  - intros q x n e' Hl Hn Hb He'. apply Hbel in Hb; [|by apply (Hthx q)]. destruct (Hgv n e' He') as (e & He & _ & -> & G1 & _ & G3). destruct (Hlv q x Hl) as [[-> ->]|[Hq Hlq]].
    + destruct (G1 Hb Hn) as [-> ->]. exists (next e). split; [done|]. destruct (below_there m U n _ V Hb Hn Hty) as (Htn & _). destruct (there_entry _ _ N_PID _ V ltac:(done) Htn) as (e0 & He0 & Hu). rewrite He in He0. injection He0 as <-. pose proof (v_next _ _ V n e ltac:(destruct Htn; lia) He Hu). lia.
    + destruct (P1 q x n e Hlq Hn Hb He) as (k & Hk & Hr). exists k. split; [done|lia].
  - intros q q' x x' n e' Hl Hl' Hne Hn Hb Hb' He'. apply Hbel in Hb; [|by apply (Hthx q)]. apply Hbel in Hb'; [|by apply (Hthx q')]. destruct (Hgv n e' He') as (e & He & _ & -> & G1 & _).
    assert (∀ q x, live l q x → below m n (pidns x) → (vpid x).[level e] ≠ Some (next e)) as Hold by (intros q0 x0 H0 Hb0; destruct (P1 q0 x0 n e H0 Hn Hb0 He) as (k & -> & Hr); intros [= ->]; lia).
    destruct (Hlv q x Hl) as [[-> ->]|[Hq Hlq]], (Hlv q' x' Hl') as [[-> ->]|[Hq' Hlq']]; [done| | |by apply (P2 q q' x x' n e)].
    + destruct (G1 Hb Hn) as [-> _]. intros E. by apply (Hold q' x').
    + destruct (G1 Hb' Hn) as [-> _]. by apply (Hold q x).
Qed.

(** ** The invariant *)

Definition distinct (l : list (option proc)) : Prop := ∀ q q' x x', l !! q = Some (Some x) → l !! q' = Some (Some x') → pid x = pid x' → q = q'.

Record ok (s : st) : Prop := { ok_good : good s; ok_thr : no_threads (procs s); ok_pids : pids_ok (nst s) (procs s); ok_pid : distinct (procs s); ok_tgid : ∀ q x, procs s !! q = Some (Some x) → tgid x = pid x }.

(** Every process was there before, with the pids it had. *)
Definition procs_like (l l' : list (option proc)) : Prop := ∀ q x', l' !! q = Some (Some x') → ∃ x, l !! q = Some (Some x) ∧ pid x' = pid x ∧ tgid x' = tgid x ∧ is_thread x' = is_thread x ∧ (alive x' = true → alive x = true ∧ pidns x' = pidns x ∧ vpid x' = vpid x).

Lemma like_fewer l l' : procs_like l l' → fewer l l'.
Proof. intros H q x' [Hl Ha]. destruct (H q x' Hl) as (x & Hx & _ & _ & _ & Hr). destruct (Hr Ha) as (A1 & A2 & A3). by exists x. Qed.

Lemma like_distinct l l' : procs_like l l' → distinct l → distinct l'.
Proof. intros H Hd q q' x x' H1 H2 E. destruct (H q x H1) as (y & Hy & E1 & _). destruct (H q' x' H2) as (y' & Hy' & E2 & _). apply (Hd q q' y y'); congruence. Qed.

Lemma like_threads l l' : procs_like l l' → no_threads l → no_threads l'.
Proof. intros H Hn q x Hx. destruct (H q x Hx) as (y & Hy & _ & _ & E & _). rewrite E. by apply (Hn q). Qed.

Lemma like_set l p x x' : l !! p = Some (Some x) → pid x' = pid x → tgid x' = tgid x → is_thread x' = is_thread x → (alive x' = true → alive x = true ∧ pidns x' = pidns x ∧ vpid x' = vpid x) → procs_like l (<[p := Some x']> l).
Proof. intros Hp H1 H2 H3 H4 q y Hy. apply list_lookup_insert_Some in Hy as [(<- & [= <-] & _)|[_ Hy]]; [by exists x|]. by exists y. Qed.

Lemma like_del l p : procs_like l (<[p := None]> l).
Proof. intros q y Hy. apply list_lookup_insert_Some in Hy as [(_ & ? & _)|[_ Hy]]; [done|]. by exists y. Qed.

Lemma ok_like s s' : ok s → good s' → keep (nst s) (nst s') → procs_like (procs s) (procs s') → ok s'.
Proof.
  intros [Hg Ht Hp Hd Htg] Hg' Hk Hl. split; [done|by apply (like_threads (procs s))| |by apply (like_distinct (procs s))|]; [|intros q x Hx; destruct (Hl q x Hx) as (y & Hy & -> & -> & _); by apply (Htg q)].
  apply (pids_keep (nst s) _ _ _ (procs s) _ (gd_inv _ Hg) (gd_inv _ Hg') Hk); [|by apply like_fewer|done]. intros q x [Hq Ha]. apply (live_there s Hg Ht); [by apply list_elem_of_lookup_2 in Hq|done].
Qed.

Lemma ok_after s s' p x x' : ok s → get_proc s p = Some x → after s s' p x x' → ok s'.
Proof.
  intros Hok Hp%get_proc_slot (Hg & Hps & _ & _ & E1 & E2 & E3 & E4 & E5 & E6 & Hk). apply (ok_like s); try done. rewrite Hps. apply (like_set _ _ x); try done. intros Ha. split_and!; try done. congruence.
Qed.

Lemma alloc_slot s g c s' : alloc_proc s g = Some (c, s') → procs s !! c = Some None ∧ s' = set_proc s c (fresh g).
Proof.
  unfold alloc_proc. destruct (first_some _ _) as [i|] eqn:E; [|done]. intros [= <- <-]. split; [|done]. revert E. generalize (seq 0 (length (procs s))). intros l. induction l as [|j l IH]; cbn; [done|]. destruct (procs s !! j) as [[y|]|] eqn:Ej; auto. by intros [= <-].
Qed.

Lemma good_fresh s c g : good s → procs s !! c = Some None → good (set_proc s c (fresh g)).
Proof.
  intros Hg Hc. split; [|apply (gd_done _ Hg)|].
  - apply (inv_ext _ _ _ (gd_inv _ Hg)). intros t i Ht Hi. change (users (<[c := Some (fresh g)]> (procs s)) t i = users (procs s) t i). rewrite (users_set _ _ _ _ _ _ Hc), hold_fresh by (done || lia). change (hold t i None) with 0. lia.
  - intros q y Hq Hh. apply get_proc_slot in Hq. cbn in Hq. apply list_lookup_insert_Some in Hq as [(<- & [= <-] & _)|[_ Hq]]; [|apply (gd_idx _ Hg q); [by apply get_proc_slot|done]]. split; [|split; [cbn; lia|done]]. intros t Ht. by apply (kind_cases t).
Qed.

(** The child of a fork, before it starts. *)
Lemma child_ok hn s1 p x1 c g : ok s1 → get_proc s1 p = Some x1 → held x1 = true → (∀ q y, get_proc s1 q = Some y → pid y ≠ g) → few (nst s1) → procs s1 !! c = Some None →
  ∃ s3 x y, ns_fork hn (set_proc s1 c (fresh g)) p c = Some s3 ∧ get_proc s3 p = Some x ∧ get_proc s3 c = Some y ∧ let y' := {| y with capx := capx x |} in held y' = true ∧ ok (set_proc s3 c y') ∧ procs (set_proc s3 c y') !! c = Some (Some y').
Proof.
  intros Hok Hp1 Hh Hnew Hfew Hc. set (s2 := set_proc s1 c (fresh g)). pose proof (ok_good _ Hok) as Hg1. apply get_proc_slot in Hp1 as Hp'.
  assert (c ≠ p) as Hcp by (intros ->; congruence). apply lookup_lt_Some in Hc as Hlc.
  assert (good s2) as Hg2 by (by apply good_fresh). assert (get_proc s2 p = Some x1) as Hp2 by (apply get_proc_slot; change (<[c := Some (fresh g)]> (procs s1) !! p = Some (Some x1)); by rewrite list_lookup_insert_ne). assert (get_proc s2 c = Some (fresh g)) as Hc2 by (apply get_proc_slot; change (<[c := Some (fresh g)]> (procs s1) !! c = Some (Some (fresh g))); by apply list_lookup_insert_eq).
  destruct (ns_fork_ok hn s2 p c x1 g Hg2 Hp2 Hh Hc2 Hcp Hfew) as (s3 & y & E3 & Hg3 & Hps3 & Hhy & Hty & Hpy & Hgy & m & Vm & Hkm & Htm & Hgv & _). set (x0 := {| x1 with nsfl := 0 |}) in *. set (l := <[p := Some x0]> (procs s1)).
  assert (procs s3 = <[c := Some y]> l) as Hps. { rewrite Hps3. unfold l. change (procs s2) with (<[c := Some (fresh g)]> (procs s1)). rewrite (list_insert_insert_ne _ c p) by done. rewrite list_insert_insert_eq. by apply list_insert_insert_ne. }
  assert (procs_like (procs s1) l) as Hlike by (unfold l; by apply (like_set _ _ x1)). assert ((c < length l)%nat) as Hcl by (unfold l; by rewrite length_insert). assert (l !! c = Some None) as Hlc' by (unfold l; by rewrite list_lookup_insert_ne).
  assert (get_proc s3 c = Some y) as Hc3 by (apply get_proc_slot; rewrite Hps; by apply list_lookup_insert_eq). assert (get_proc s3 p = Some x0) as Hp3. { apply get_proc_slot. rewrite Hps, list_lookup_insert_ne by done. apply list_lookup_insert_eq. by apply lookup_lt_Some in Hp'. }
  exists s3, x0, y. split; [done|]. split; [done|]. split; [done|]. set (y' := {| y with capx := _ |}). split; [exact Hhy|]. split; [|apply list_lookup_insert_eq; by rewrite Hps, length_insert]. assert (ok s3) as Hok3.
  { assert (no_threads (procs s3)) as Hn3. { rewrite Hps. intros q z Hz. apply list_lookup_insert_Some in Hz as [(_ & [= <-] & _)|[_ Hz]]; [done|]. by apply (like_threads _ _ Hlike (ok_thr _ Hok) q). }
    split; [done|done| | |].
    - rewrite Hps. apply (pids_given m _ (users (procs s3)) (users (procs s3)) l c y Vm (gd_inv _ Hg3) Hgv Htm); [|intros z [Hz _]; congruence|unfold held in Hhy; by destruct (alive y)|done|].
      + intros q z [Hq Ha]. assert (q ≠ c) as Hqc by (intros ->; congruence). assert (procs s3 !! q = Some (Some z)) as Hq3 by (by rewrite Hps, list_lookup_insert_ne). apply (user_there m (users (procs s3))); try done. { apply (gd_idx _ Hg3 q z) with (t := N_PID); [by apply get_proc_slot| |done]. unfold held. by rewrite Ha, (Hn3 q z Hq3). }
        intros _. pose proof (users_ge _ _ _ N_PID (pidns z) Hq3) as H. unfold hold in H. assert (held z = true) as Hhz by (unfold held; by rewrite Ha, (Hn3 q z Hq3)). rewrite Hhz in H. change (ns_idx z N_PID) with (pidns z) in H. rewrite !Z.eqb_refl in H. destruct (kidns z =? pidns z); cbn [b2z] in H; lia.
      + apply (pids_keep (nst s1) m _ _ (procs s1) l (gd_inv _ Hg1) Vm Hkm); [|by apply like_fewer|apply (ok_pids _ Hok)]. intros q z [Hq Ha]. apply (live_there s1 Hg1 (ok_thr _ Hok)); [by apply list_elem_of_lookup_2 in Hq|done].
    - rewrite Hps. assert (∀ q z, l !! q = Some (Some z) → pid z ≠ g) as Hng by (intros q z Hz; destruct (Hlike q z Hz) as (z0 & Hz0 & -> & _); apply (Hnew q z0); by apply get_proc_slot).
      intros q q' z z' Hz Hz' E. apply list_lookup_insert_Some in Hz, Hz'. destruct Hz as [(<- & [= <-] & _)|[Hq Hz]], Hz' as [(<- & [= <-] & _)|[Hq' Hz']]; [done|destruct (Hng q' z' Hz'); congruence|destruct (Hng q z Hz); congruence|]. by apply (like_distinct _ _ Hlike (ok_pid _ Hok) q q' z z').
    - rewrite Hps. intros q z Hz. apply list_lookup_insert_Some in Hz as [(_ & [= <-] & _)|[_ Hz]]; [congruence|]. destruct (Hlike q z Hz) as (z0 & Hz0 & -> & -> & _). by apply (ok_tgid _ Hok q). }
  apply (ok_like s3); [done| |apply keep_refl|cbn; apply (like_set _ _ y); try done; by apply get_proc_slot].
  refine (good_set s3 (set_proc s3 c y') c y y' _ Hg3 Hc3 (gd_inv _ Hg3) (gd_done _ Hg3) eq_refl _ _); [intros _; exact (gd_idx _ Hg3 c y Hc3 Hhy)|]. intros t i Ht Hi. change (hold t i (Some y')) with (hold t i (Some y)). lia.
Qed.

Lemma live_held s p x : ok s → get_proc s p = Some x → alive x = true → held x = true.
Proof. intros Hok Hp%get_proc_slot Ha. unfold held. by rewrite Ha, (ok_thr _ Hok p x Hp). Qed.

Lemma live_in s q x : ok s → live (procs s) q x → there (nst s) N_PID (pidns x).
Proof. intros Hok [Hq Ha]. apply (live_there s (ok_good _ Hok) (ok_thr _ Hok)); [by apply list_elem_of_lookup_2 in Hq|done]. Qed.

End procs.

(** ** A fork that fails *)

(** Its child leaves references behind. *)
Definition more (left : Lost) (o : option proc) : Lost :=
  {| lost := λ t i, lost t i + hold t i o; lost_nonneg := λ t i, Z.add_nonneg_nonneg _ _ (lost_nonneg t i) (hold_nonneg t i o) |}.

Lemma users_more (left : Lost) o l t i : @users (more left o) l t i = users l t i + hold t i o.
Proof. induction l as [|a l IH]; [done|]. change (hold t i a + @users (more left o) l t i = hold t i a + users l t i + hold t i o). lia. Qed.

(** The slot [c] is free, and what its process held is lost. *)
Lemma ok_lost (left : Lost) s c y : ok s → procs s !! c = Some (Some y) → @ok (more left (Some y)) (free_proc s c).
Proof.
  intros Hok Hc. pose proof (ok_good _ Hok) as Hg. assert (∀ t i, @users (more left (Some y)) (<[c := None]> (procs s)) t i = users (procs s) t i) as HU. { intros t i. rewrite users_more, (users_set _ _ _ _ _ _ Hc). change (hold t i None) with 0. lia. }
  assert (inv (nst s) (@users (more left (Some y)) (<[c := None]> (procs s)))) as V by (apply (inv_ext _ _ _ (gd_inv _ Hg)); intros t i _ _; apply HU). pose proof (like_del (procs s) c) as Hl. split; cbn.
  - split; [exact V|apply (gd_done _ Hg)|]. intros q z Hq. apply (gd_idx _ Hg q). apply get_proc_slot in Hq. apply get_proc_slot. by apply list_lookup_insert_Some in Hq as [(_ & ? & _)|[_ Hq]].
  - apply (like_threads (procs s)); [done|apply (ok_thr _ Hok)].
  - apply (pids_keep (nst s) _ _ _ (procs s) _ (gd_inv _ Hg) V (keep_refl _)); [intros q z Hz; by apply (live_in s q)|by apply like_fewer|apply (ok_pids _ Hok)].
  - apply (like_distinct (procs s)); [done|apply (ok_pid _ Hok)].
  - intros q z Hz. apply list_lookup_insert_Some in Hz as [(_ & ? & _)|[_ Hz]]; [done|]. by apply (ok_tgid _ Hok q).
Qed.

(** References of nobody are none. *)
Lemma ok_none (left : Lost) s : ok s → @ok (more left None) s.
Proof.
  intros [[G1 G2 G3] H2 H3 H4 H5]. split; [split|done..]; [|done|done]. apply (inv_ext _ _ _ G1). intros t i _ _. rewrite users_more. cbn. lia.
Qed.

Lemma clone_ok (left : Lost) hn s p x fl g full pd e : ok s → get_proc s p = Some x → held x = true → (∀ q y, get_proc s q = Some y → pid y ≠ g) → few (nst s) →
  ∃ r o s', clone hn s p fl g full pd e = Some (r, o, s') ∧ @ok (more left o) s'.
Proof.
  intros Hok Hp Hh Hnew Hfew. unfold clone. rewrite Hp, bind_some. set (x1 := {| x with nsfl := _ |}). set (s1 := set_proc s p x1). pose proof (ok_good _ Hok) as Hg. apply get_proc_slot in Hp as Hp'.
  assert (good s1) as Hg1. { refine (good_set s s1 p x x1 _ Hg Hp (gd_inv _ Hg) (gd_done _ Hg) eq_refl _ _); [intros _; exact (gd_idx _ Hg p x Hp Hh)|]. intros t i Ht Hi. change (hold t i (Some x1)) with (hold t i (Some x)). lia. }
  assert (procs_like (procs s) (procs s1)) as Hlike by (by apply (like_set _ _ x)). assert (ok s1) as Hok1 by (apply (ok_like s); [done..|apply keep_refl|done]). unfold do_fork. destruct full; [eexists _, _, s1; split; [reflexivity|by apply ok_none]|].
  destruct (alloc_proc s1 g) as [[c s2]|] eqn:Ea; [|eexists _, _, s1; split; [reflexivity|by apply ok_none]]. apply alloc_slot in Ea as [Hc ->]. destruct pd; cbn [negb].
  - destruct (child_ok hn s1 p x1 c g Hok1) as (s3 & x3 & y & -> & Hx3 & Hy & Hhy & Hok3 & Hc3); [apply (get_set_proc s _ p x); done|exact Hh| |done|done|].
    { intros q z Hq%get_proc_slot. destruct (Hlike q z Hq) as (z0 & Hz0 & -> & _). apply (Hnew q). by apply get_proc_slot. }
    rewrite bind_some, Hx3, bind_some, Hy, bind_some. destruct (e <? 0); [|eexists _, _, _; split; [reflexivity|by apply ok_none]]. eexists _, _, _. split; [reflexivity|]. by apply ok_lost.
  - eexists _, _, _. split; [reflexivity|]. apply ok_none. assert (free_proc (set_proc s1 c (fresh g)) c = s1) as ->; [|done]. unfold free_proc, set_proc. cbn [procs]. rewrite list_insert_insert_eq, (list_insert_id (procs s1) c None Hc). reflexivity.
Qed.

End NsPids.
