(* ===== verification/NsKill.v ===== *)
(** * The end of processes

    [teardown] of a process, with all that dies with it when it was the first of
    its pid namespace: it ends, keeps the invariant of [NsPids], and takes down
    exactly the processes inside, unless one of them is the current process. *)

From S2P Require Import Prelude Ns NsSpec NsRun NsLife NsFork NsPids.

Module NsKill.
Import Ns NsSpec NsRun NsLife NsFork NsPids.

Section procs.
Context `{left : Lost}.

Lemma below_trans m a b c : below m a b → below m b c → below m a c.
Proof. intros Hab. induction 1 as [|d e Hd He _ IH]; [done|]. by apply (below_up _ _ d e). Qed.

Lemma same_below s s' q x n : ok s → ok s' → same_pids (nst s) (nst s') → live (procs s) q x → below (nst s) n (pidns x) ↔ below (nst s') n (pidns x).
Proof.
  intros Hok Hok' Hs Hl. apply (below_keep _ _ _ _ _ _ (gd_inv _ (ok_good _ Hok)) (gd_inv _ (ok_good _ Hok'))); [|by apply (live_in s q)]. intros i e' _ He'. destruct (Hs i e' He') as (e & He & Hp & _). by exists e.
Qed.

Definition dead_at (l : list (option proc)) (q : nat) : Prop := ∃ y, l !! q = Some (Some y) ∧ alive y = false.

Lemma dead_live l q y : dead_at l q → ¬ live l q y.
Proof. intros (z & Hz & Ha) [Hy Ha']. congruence. Qed.

(** Only processes of [D] died between two states. *)
Record fell (s s' : st) (D : nat → proc → Prop) : Prop := {
  f_len : length (procs s') = length (procs s);
  f_slot : ∀ q, procs s' !! q = procs s !! q ∨ ∃ y, live (procs s) q y ∧ D q y ∧ dead_at (procs s') q;
  f_pids : same_pids (nst s) (nst s')
}.

Lemma fell_refl s D : fell s s D.
Proof. split; [done|by left|apply same_pids_refl]. Qed.

Lemma fell_live s s' D q y : fell s s' D → live (procs s') q y → live (procs s) q y.
Proof. intros H [Hl Ha]. destruct (f_slot _ _ _ H q) as [E|(z & _ & _ & Hd)]; [by rewrite E in Hl|]. by destruct (dead_live _ _ y Hd). Qed.

Lemma fell_dead s s' D q : fell s s' D → dead_at (procs s) q → dead_at (procs s') q.
Proof. intros H Hd. destruct (f_slot _ _ _ H q) as [E|(z & _ & _ & ?)]; [|done]. destruct Hd as (y & Hy & Ha). exists y. by rewrite E. Qed.

Lemma fell_trans s s1 s2 D D1 D' : fell s s1 D → fell s1 s2 D1 → (∀ q y, live (procs s) q y → D q y → D' q y) → (∀ q y, live (procs s1) q y → D1 q y → D' q y) → fell s s2 D'.
Proof.
  intros H H1 HD HD1. split; [rewrite (f_len _ _ _ H1); apply (f_len _ _ _ H)| |eapply same_pids_trans; [apply (f_pids _ _ _ H)|apply (f_pids _ _ _ H1)]].
  intros q. destruct (f_slot _ _ _ H1 q) as [E1|(y & Hy & Hd & Hq)].
  - rewrite E1. destruct (f_slot _ _ _ H q) as [E|(y & Hy & Hd & Hq)]; [by left|]. right. exists y. split; [done|]. split; [by apply HD|]. destruct Hq as (z & Hz & Ha). exists z. by rewrite E1.
  - right. exists y. pose proof (fell_live _ _ _ _ _ H Hy). split; [done|]. split; [by apply HD1|done].
Qed.

(** Who dies with [p]: itself, and if it was the first of its namespace everyone inside. *)
Definition doomed (m : table) (p : nat) (x : proc) (q : nat) (y : proc) : Prop := q = p ∨ first_in m x ∧ below m (pidns x) (pidns y).

(** Two processes cannot both be the first of a namespace. *)
Lemma first_one s p q x y : ok s → live (procs s) p x → live (procs s) q y → p ≠ q → first_in (nst s) x → first_in (nst s) y → pidns x ≠ pidns y.
Proof.
  intros Hok Hx Hy Hne (H0 & e & He & Hv) (_ & e' & He' & Hv') E. rewrite <- E, He in He'. injection He' as <-. apply (po_diff _ _ (ok_pids _ Hok) p q x y (pidns x) e); try done; [constructor|rewrite <- E; constructor|congruence].
Qed.

(** What is inside the namespace of a first process and is the first of its own is further down. *)
Lemma first_down s p q x y e e' : ok s → live (procs s) p x → live (procs s) q y → p ≠ q → first_in (nst s) x → first_in (nst s) y → below (nst s) (pidns x) (pidns y) →
  nst s !! (N_PID, pidns x) = Some e → nst s !! (N_PID, pidns y) = Some e' → level e < level e' ∧ ¬ below (nst s) (pidns y) (pidns x).
Proof.
  intros Hok Hx Hy Hne Fx Fy Hb He He'. pose proof (first_one s p q x y Hok Hx Hy Hne Fx Fy) as Hd. pose proof (gd_inv _ (ok_good _ Hok)) as V. destruct (below_there _ _ _ _ V Hb (proj1 Fx) (live_in s q y Hok Hy)) as (_ & _ & Hl). destruct (Hl e' e He' He) as [_ Hlt].
  split; [apply Hlt; congruence|]. intros Hb'. destruct (below_there _ _ _ _ V Hb' (proj1 Fy) (live_in s p x Hok Hx)) as (_ & _ & Hl'). destruct (Hl' e e' He He'). assert (pidns y ≠ pidns x) by congruence. lia.
Qed.

Lemma first_same s s' p x : ok s → ok s' → same_pids (nst s) (nst s') → live (procs s') p x → first_in (nst s) x → first_in (nst s') x.
Proof.
  intros Hok Hok' Hs Hl (H0 & e & He & Hv). destruct (v_dom _ _ (gd_inv _ (ok_good _ Hok')) N_PID (pidns x) ltac:(done) (proj1 (live_in s' p x Hok' Hl))) as [e' He']. destruct (Hs _ _ He') as (e0 & He0 & _ & El & _). split; [done|]. exists e'. split; [done|]. rewrite El. congruence.
Qed.

(** ** The loop *)
Section loop.
Context (cur : option nat) (kill : st → nat → option (bool * st)) (p : nat) (x : proc) (L : Z).
(** What a kill does, if the killed is not the first of a namespace as high as that of [x], which is of level [L]. *)
Hypothesis kill_ok : ∀ s q y, ok s → live (procs s) q y → (first_in (nst s) y → ∀ e, nst s !! (N_PID, pidns y) = Some e → L < level e) →
  ∃ back s', kill s q = Some (back, s') ∧ ok s' ∧ fell s s' (doomed (nst s) q y) ∧ if back : bool then dead_at (procs s') q else ∃ c z, cur = Some c ∧ live (procs s) c z ∧ doomed (nst s) q y c z ∧ dead_at (procs s') c.

(** Inside, but not [p] itself. *)
Definition within (m : table) (q : nat) (y : proc) : Prop := q ≠ p ∧ below m (pidns x) (pidns y).

Lemma kill_all_ok l : ∀ s, ok s → live (procs s) p x → first_in (nst s) x → (∀ e, nst s !! (N_PID, pidns x) = Some e → level e = L) →
  ∃ back s', kill_all kill x l s = Some (back, s') ∧ ok s' ∧ live (procs s') p x ∧ fell s s' (within (nst s)) ∧
    if back : bool then ∀ q y, q ∈ l → live (procs s') q y → ¬ within (nst s') q y else ∃ c z, cur = Some c ∧ live (procs s) c z ∧ within (nst s) c z ∧ dead_at (procs s') c.
Proof.
  induction l as [|i l IH]; intros s Hok Hp Hf HL; cbn [kill_all].
  { exists true, s. split_and!; try done; try apply Hp; [apply fell_refl|]. by intros q y ?%elem_of_nil. }
  assert ((∀ y s', live (procs s') i y → fell s s' (within (nst s)) → ok s' → ¬ within (nst s') i y) → ∃ back s', kill_all kill x l s = Some (back, s') ∧ ok s' ∧ live (procs s') p x ∧ fell s s' (within (nst s)) ∧
    if back : bool then ∀ q y, q ∈ i :: l → live (procs s') q y → ¬ within (nst s') q y else ∃ c z, cur = Some c ∧ live (procs s) c z ∧ within (nst s) c z ∧ dead_at (procs s') c) as Hskip.
  { intros Hi. destruct (IH s Hok Hp Hf HL) as (back & s' & E & Hok' & Hp' & Hfe & Hb). exists back, s'. split; [done|]. split; [done|]. split; [done|]. split; [done|]. destruct back; [|done]. intros q y [->|Hq]%elem_of_cons Hl; [by apply Hi|by apply Hb]. }
  destruct (get_proc s i) as [q|] eqn:Ei; [apply get_proc_slot in Ei|].
  2: { apply Hskip. intros y s' Hl Hfe _. apply (fell_live _ _ _ _ _ Hfe) in Hl as [Hl _]. apply get_proc_slot in Hl. congruence. }
  destruct ((tgid q =? tgid x) || negb (alive q)) eqn:Es.
  { apply Hskip. intros y s' Hl Hfe _ [Hne _]. apply (fell_live _ _ _ _ _ Hfe) in Hl as [Hl Ha]. assert (y = q) as -> by congruence. rewrite Ha, orb_false_r in Es. apply Z.eqb_eq in Es. apply Hne. destruct Hp as [Hp _]. apply (ok_pid _ Hok i p q x); try done. rewrite <- (ok_tgid _ Hok i q Ei), <- (ok_tgid _ Hok p x Hp). done. }
  apply orb_false_iff in Es as [Et%Z.eqb_neq Ea%negb_false_iff]. assert (live (procs s) i q) as Li by done. assert (p ≠ i) as Hpi. { intros <-. destruct Hp as [Hp _]. assert (q = x) by congruence. congruence. } pose proof (gd_inv _ (ok_good _ Hok)) as V. pose proof (live_in s i q Hok Li) as Hth.
  destruct (inside_ok 32 s _ (pidns x) (pidns q) V (proj1 Hf) Hth) as (b & -> & Hb). { intros e He H0. destruct (there_entry _ _ N_PID _ V ltac:(done) Hth) as (e2 & He2 & Hu). rewrite He in He2. injection He2 as <-. destruct (v_level _ _ V (pidns q) e ltac:(destruct Hth; lia) He Hu). lia. }
  rewrite bind_some. destruct b.
  2: { apply Hskip. intros y s' Hl Hfe Hok' [_ Hby]. pose proof (fell_live _ _ _ _ _ Hfe Hl) as Hl0. assert (y = q) as -> by (destruct Hl0; congruence). apply (same_below s s' i q (pidns x) Hok Hok' (f_pids _ _ _ Hfe) Hl0) in Hby. by apply Hb in Hby. }
  pose proof (proj1 Hb eq_refl) as Hbq. destruct (kill_ok s i q Hok Li) as (back & s1 & -> & Hok1 & Hf1 & Hk); [intros Fq e' He'; destruct (there_entry _ _ N_PID _ V ltac:(done) (live_in s p x Hok Hp)) as (e & He & _); rewrite <- (HL e He); by apply (first_down s p i x q e e')|]. rewrite bind_some.
  assert (∀ j z, live (procs s) j z → doomed (nst s) i q j z → within (nst s) j z) as Hdw.
  { intros j z Hz [->|[Fq Hbz]]; [split; [done|]; assert (z = q) as -> by (destruct Hz; congruence); done|]. split; [|by apply (below_trans _ _ (pidns q))]. intros ->. assert (z = x) as -> by (destruct Hz, Hp; congruence).
    destruct (there_entry _ _ N_PID _ V ltac:(done) (live_in s p x Hok Hp)) as (e & He & _). destruct (there_entry _ _ N_PID _ V ltac:(done) Hth) as (e' & He' & _). by apply (first_down s p i x q e e' Hok Hp Li Hpi Hf Fq Hbq He He'). }
  assert (live (procs s1) p x) as Hp1. { destruct (f_slot _ _ _ Hf1 p) as [E|(z & Hz & Hd & _)]; [split; [rewrite E; apply Hp|apply Hp]|]. by destruct (Hdw p z Hz Hd). }
  destruct back.
  - destruct (IH s1 Hok1 Hp1 (first_same s s1 p x Hok Hok1 (f_pids _ _ _ Hf1) Hp1 Hf)) as (back & s2 & -> & Hok2 & Hp2 & Hf2 & Hb2). { intros e1 He1. destruct (f_pids _ _ _ Hf1 _ _ He1) as (e & He & _ & -> & _). by apply HL. }
    exists back, s2. split; [done|]. split; [done|]. split; [done|].
    assert (∀ j z, live (procs s1) j z → within (nst s1) j z → within (nst s) j z) as Hw1. { intros j z Hz [Hj Hbz]. split; [done|]. by apply (same_below s s1 j z (pidns x) Hok Hok1 (f_pids _ _ _ Hf1) (fell_live _ _ _ _ _ Hf1 Hz)). }
    split; [by apply (fell_trans s s1 s2 _ _ _ Hf1 Hf2)|]. destruct back.
    + intros j z [->|Hj]%elem_of_cons Hz; [|by apply Hb2]. by destruct (dead_live _ _ z (fell_dead _ _ _ _ Hf2 Hk)).
    + destruct Hb2 as (c & z & Hc & Hz & Hwz & Hdz). exists c, z. split; [done|]. split; [by apply (fell_live _ _ _ _ _ Hf1)|]. split; [by apply Hw1|done].
  - exists false, s1. split; [done|]. split; [done|]. split; [done|]. split; [|destruct Hk as (c & z & Hc & Hz & Hd & Hdc); exists c, z; split; [done|]; split; [done|]; split; [by apply Hdw|done]].
    apply (fell_trans s s1 s1 _ (within (nst s)) _ Hf1 (fell_refl _ _)); [done|]. done.
Qed.

End loop.

(** ** The whole teardown *)

Lemma exit_step s p x : ok s → live (procs s) p x → ∃ s', leave s p = Some s' ∧ get_proc s' p = Some (cleared x) ∧ ok (set_proc s' p {| (cleared x) with alive := false |}) ∧
  fell s (set_proc s' p {| (cleared x) with alive := false |}) (λ q _, q = p) ∧ dead_at (procs (set_proc s' p {| (cleared x) with alive := false |})) p.
Proof.
  intros Hok Hl. pose proof Hl as [Hp' Ha]. pose proof (proj2 (get_proc_slot s p x) Hp') as Hp. pose proof (live_held s p x Hok Hp Ha) as Hh. pose proof (ok_good _ Hok) as Hg. destruct (leave_ok s p x Hg Hp Hh) as (s' & E & V & D & Hps & Hsp). exists s'. split; [done|]. split; [by apply (get_set_proc s _ p x)|]. set (z := {| (cleared x) with alive := false |}).
  assert (procs (set_proc s' p z) = <[p := Some z]> (procs s)) as Hz by (change (<[p := Some z]> (procs s') = <[p := Some z]> (procs s)); by rewrite Hps, list_insert_insert_eq). apply lookup_lt_Some in Hp' as Hlt. assert (dead_at (procs (set_proc s' p z)) p) as Hd by (exists z; rewrite Hz; split; [by apply list_lookup_insert_eq|done]). split; [|split; [|done]].
  - apply (ok_like s); [done| |by apply keep_same_pids|by rewrite Hz; apply (like_set _ _ x)]. refine (good_set s (set_proc s' p z) p x z _ Hg Hp V D Hz _ _); [done|]. intros t i _ _. change (hold t i (Some z)) with 0. lia.
  - split; [by rewrite Hz, length_insert| |exact Hsp]. intros q. destruct (decide (q = p)) as [->|Hq]; [right; by exists x|left]. rewrite Hz. by apply list_lookup_insert_ne.
Qed.

(** Deep enough: the end of the first process of a namespace ends those of the namespaces further down. *)
Definition deep (m : table) (x : proc) (fuel : nat) : Prop := (1 ≤ fuel)%nat ∧ (first_in m x → ∀ e, m !! (N_PID, pidns x) = Some e → 4 - level e < Z.of_nat fuel).

(** The outcome: all the doomed are dead, or the current process was one of them and [p] goes on. *)
Definition torn (cur : option nat) (s : st) (p : nat) (x : proc) (back : bool) (s' : st) : Prop :=
  ok s' ∧ fell s s' (doomed (nst s) p x) ∧
  if back then dead_at (procs s') p ∧ (first_in (nst s) x → ∀ q y, live (procs s') q y → ¬ below (nst s) (pidns x) (pidns y))
  else live (procs s') p x ∧ ∃ c z, cur = Some c ∧ c ≠ p ∧ live (procs s) c z ∧ doomed (nst s) p x c z ∧ dead_at (procs s') c.

(** Once the others are dead. *)
Lemma torn_end cur s s1 p x : ok s → ok s1 → live (procs s1) p x → fell s s1 (within p x (nst s)) → first_in (nst s) x ∨ s1 = s → (first_in (nst s) x → ∀ q y, live (procs s1) q y → ¬ within p x (nst s1) q y) →
  ∃ s2 x2, leave s1 p = Some s2 ∧ get_proc s2 p = Some x2 ∧ torn cur s p x true (set_proc s2 p {| x2 with alive := false |}).
Proof.
  intros Hok Hok1 Hl1 Hfe Hc Hno. destruct (exit_step s1 p x Hok1 Hl1) as (s2 & E & E2 & Hok2 & Hfe2 & Hd). exists s2, (cleared x). split; [done|]. split; [done|]. split; [done|]. split; [|split; [done|]].
  - destruct Hc as [Hfi| ->]; [|by apply (fell_trans s s _ _ _ _ (fell_refl s (λ q _, q = p)) Hfe2); intros q y _ ->; left]. apply (fell_trans s s1 _ _ _ _ Hfe Hfe2); [|intros q y _ ->; by left]. intros q y _ [_ Hb]. by right.
  - intros Hfi q y Hy Hb. pose proof (fell_live _ _ _ _ _ Hfe2 Hy) as Hy1. apply (Hno Hfi q y Hy1). split; [intros ->; by destruct (dead_live _ _ y Hd)|]. by apply (same_below s s1 q y (pidns x) Hok Hok1 (f_pids _ _ _ Hfe) (fell_live _ _ _ _ _ Hfe Hy1)).
Qed.

Lemma teardown_ok fuel cur : ∀ s p x, ok s → live (procs s) p x → deep (nst s) x fuel → ∃ back s', teardown fuel cur s p = Some (back, s') ∧ torn cur s p x back s'.
Proof.
  induction fuel as [|fuel IH]; intros s p x Hok Hl [Hf1 Hf]; [lia|]. cbn [teardown]. set (kill := λ s q, '(back, s) ← teardown fuel cur s q; _). pose proof (proj2 (get_proc_slot s p x) (proj1 Hl)) as Hp.
  destruct (pid_level s p x (ok_good _ Hok) Hp (live_held s p x Hok Hp (proj2 Hl))) as (e & v & He & Hu & Hlev & Hv). unfold ns_exit. rewrite Hp, bind_some.
  assert (¬ first_in (nst s) x → ∃ s2 x2, leave s p = Some s2 ∧ get_proc s2 p = Some x2 ∧ torn cur s p x true (set_proc s2 p {| x2 with alive := false |})) as Hnot by (intros Hn; apply torn_end; try done; [apply fell_refl|by right]).
  destruct (nz (pidns x)) eqn:En; [apply nz_true in En|apply nz_false in En; rewrite bind_some; destruct Hnot as (s2 & x2 & -> & E2 & Ht); [by intros [? _]|]; rewrite !bind_some, E2, bind_some; by eexists true, _].
  rewrite He, bind_some, Hv, bind_some. destruct (Z.eqb_spec v 1) as [->|Hv1].
  2: { destruct Hnot as (s2 & x2 & E & E2 & Ht); [|rewrite bind_some, E, !bind_some, E2, bind_some; by eexists true, _]. intros (_ & e' & He' & Hv'). rewrite He in He'. injection He' as <-. congruence. }
  assert (first_in (nst s) x) as Hfi by (split; [done|]; by exists e). specialize (Hf Hfi e He).
  destruct (kill_all_ok cur kill p x (level e)) with (l := seq 0 (length (procs s))) (s := s) as (back & s1 & -> & Hok1 & Hl1 & Hfe & Hb); [|done..|intros e' He'; congruence|].
  { intros s0 q y Hok0 Hq Hlv. destruct (IH s0 q y Hok0 Hq) as (back & s1 & E & Hok1 & Hfe & Hb); [split; [lia|]; intros Fy e' He'; specialize (Hlv Fy e' He'); lia|]. unfold kill. rewrite E, bind_some. eexists _, s1. split; [reflexivity|]. split; [done|]. split; [done|].
    destruct back; cbn [andb]; [|destruct Hb as (_ & c & z & A1 & _ & A2 & A3 & A4); by exists c, z]. destruct (bool_decide_reflect (cur = Some q)) as [Ec|_]; cbn [negb]; [|apply Hb]. exists q, y. split; [done|]. split; [done|]. split; [by left|apply Hb]. }
  rewrite bind_some. destruct back.
  - destruct (torn_end cur s s1 p x Hok Hok1 Hl1 Hfe (or_introl Hfi)) as (s2 & x2 & -> & E2 & Ht); [|rewrite !bind_some, E2, bind_some; by eexists true, _]. intros _ q y Hy. apply Hb; [|done]. destruct Hy as [Hy%lookup_lt_Some _]. rewrite (f_len _ _ _ Hfe) in Hy. apply elem_of_seq. lia.
  - rewrite bind_some. eexists false, s1. split; [done|]. split; [done|]. split.
    + apply (fell_trans s s1 s1 _ (within p x (nst s)) _ Hfe (fell_refl _ _)); intros q y _ [_ H]; by right.
    + split; [done|]. destruct Hb as (c & z & Hc & Hz & [Hne Hbz] & Hdc). exists c, z. split; [done|]. split; [done|]. split; [done|]. split; [by right|done].
Qed.

(** Five deep is enough, for there are three levels of pid namespaces below the first. *)
Lemma deep_five s p x : ok s → live (procs s) p x → deep (nst s) x 5.
Proof.
  intros Hok Hl. split; [lia|]. intros (H0 & _) e He. pose proof (gd_inv _ (ok_good _ Hok)) as V. pose proof (live_in s p x Hok Hl) as Hth. destruct (there_entry _ _ N_PID _ V ltac:(done) Hth) as (e' & He' & Hu). rewrite He in He'. injection He' as <-. destruct (v_level _ _ V (pidns x) e ltac:(destruct Hth; lia) He Hu). lia.
Qed.

End procs.

End NsKill.
