(* ===== verification/NsMain.v ===== *)
(** * Runs of processes in namespaces

    Any sequence of unshare, setns, clone, exit, kill and reaping from the start:
    the counts stay those of the processes, pids translate there and back, the end
    of a process ends exactly those it must. *)

From S2P Require Import Prelude Ns NsSpec NsRun NsLife NsFork NsPids NsKill.

Module NsMain.
Import Ns NsSpec NsRun NsLife NsFork NsPids NsKill.

(** The calls of a process; [OKill]: [c] sends a SIGKILL to [p]; what the kernel does when a dead process is waited for. *)
Inductive op := OUnshare (p : nat) (fl : Z) | OJoin (p : nat) (t idx : Z) | OSethost (p : nat) (name : list Z) (dom : bool) | OClone (p : nat) (fl g : Z) (full pd : bool) (e : Z) | OExit (p : nat) | OKill (c p : nat) | OReap (p : nat).

(** A call, with the child of a failed fork that leaves references behind, if any. *)
Definition call (hn : option (list Z)) (s : st) (o : op) : option (st * option proc) :=
  match o with
  | OUnshare p fl => '(_, s) ← ns_unshare hn s p fl; Some (s, None)
  | OJoin p t idx => '(_, s) ← ns_join s p t idx; Some (s, None)
  | OSethost p name dom => '(_, s) ← ns_sethost hn s p name (Z.of_nat (length name)) dom; Some (s, None)
  | OClone p fl g full pd e => '(_, k, s) ← clone hn s p fl g full pd e; Some (s, k)
  | OExit p => '(_, s) ← teardown 5 (Some p) s p; Some (s, None)
  | OKill c p => '(_, s) ← teardown 5 (Some c) s p; Some (s, None)
  | OReap p => Some (free_proc s p, None)
  end.

(** Live processes call; only kinds that exist can be joined; pids are not taken, and no pid namespace is at the end of its
    pids when a process is cloned; only the dead are waited for. *)
Definition legal (s : st) (o : op) : Prop :=
  match o with
  | OUnshare p _ | OSethost p _ _ | OExit p => ∃ x, get_proc s p = Some x ∧ alive x = true
  | OKill c p => (∃ z, get_proc s c = Some z ∧ alive z = true) ∧ ∃ x, get_proc s p = Some x ∧ alive x = true
  | OJoin p t _ => 0 ≤ t < 6 ∧ ∃ x, get_proc s p = Some x ∧ alive x = true
  | OClone p _ g _ _ _ => (∀ q y, get_proc s q = Some y → pid y ≠ g) ∧ few (nst s) ∧ ∃ x, get_proc s p = Some x ∧ alive x = true
  | OReap p => ∃ x, get_proc s p = Some x ∧ alive x = false
  end.

Definition table0 : table := list_to_map ((λ k, (k, Entry false 0 0 0 0 0)) <$> (t ← seqZ 0 6; (λ i, (t, i)) <$> seqZ 0 32)).

(** The first process, and [n] free slots. *)
Definition start (n : nat) : st := ns_boot (St table0 4026532000 ∅ ∅ false (Some (fresh 1) :: replicate n None) []).

(** The references of a list of processes to namespace [i] of kind [t]. *)
Definition holders (l : list (option proc)) (t i : Z) : Z := foldr (λ o, Z.add (hold t i o)) 0 l.

Lemma holders_nonneg l t i : 0 ≤ holders l t i.
Proof. unfold holders. induction l as [|o l IH]; cbn; [lia|]. pose proof (hold_nonneg t i o). lia. Qed.

(** The processes of [k] are gone, their references are not. *)
Definition lost_of (k : list (option proc)) : Lost := {| lost := holders k; lost_nonneg := holders_nonneg k |}.

Lemma users_holders k l t i : @users (lost_of k) l t i = holders l t i + holders k t i.
Proof. induction l as [|o l IH]; [cbn; lia|]. change (hold t i o + @users (lost_of k) l t i = hold t i o + holders l t i + holders k t i). lia. Qed.

(** [k]: the children whose references were left behind, an entry for each call. *)
Inductive reach (hn : option (list Z)) : st → list (option proc) → Prop :=
| reach_start n : reach hn (start n) []
| reach_call s k o s' c : reach hn s k → legal s o → call hn s o = Some (s', c) → reach hn s' (c :: k).

Lemma ok_lost_ext (L L' : Lost) s : (∀ t i, @lost L' t i = @lost L t i) → @ok L s → @ok L' s.
Proof.
  intros HL [[G1 G2 G3] H2 H3 H4 H5]. assert (∀ l t i, @users L' l t i = @users L l t i) as HU by (intros l t i; induction l as [|a l IH]; [apply HL|]; change (hold t i a + @users L' l t i = hold t i a + @users L l t i); lia).
  split; [split|done..]; [|done|done]. apply (inv_ext _ _ _ G1). intros t i _ _. apply HU.
Qed.

Lemma call_ok (left : Lost) hn s o : ok s → legal s o → ∃ s' c, call hn s o = Some (s', c) ∧ @ok (more left c) s'.
Proof.
  intros Hok. destruct o as [p fl|p t idx|p name dom|p fl g full pd e|p|c p|p]; cbn [legal call].
  - intros (x & Hp & Ha). pose proof (live_held s p x Hok Hp Ha) as Hh. destruct (ns_unshare_ok hn s p x fl (ok_good _ Hok) Hp Hh) as (r & s' & x' & -> & Haf). exists s', None. split; [done|]. apply ok_none. by apply (ok_after s s' p x x').
  - intros (Ht & x & Hp & Ha). pose proof (live_held s p x Hok Hp Ha) as Hh. destruct (ns_join_ok s p x t idx (ok_good _ Hok) Hp Hh Ht) as (r & s' & x' & -> & Haf). exists s', None. split; [done|]. apply ok_none. by apply (ok_after s s' p x x').
  - intros (x & Hp & Ha). unfold ns_sethost. destruct (_ || _); [exists s, None; split; [done|by apply ok_none]|]. rewrite Hp, bind_some. cbv zeta. destruct (host_of hn s (utsns x)) as [h d]. rewrite Z.ltb_irrefl, bind_some. eexists _, None. split; [reflexivity|]. apply ok_none. destruct Hok as [[G1 G2 G3] H2 H3 H4 H5]. split; [by split|done..].
  - intros (Hn & Hf & x & Hp & Ha). pose proof (live_held s p x Hok Hp Ha) as Hh. destruct (clone_ok left hn s p x fl g full pd e Hok Hp Hh Hn Hf) as (r & c & s' & -> & Hok'). by exists s', c.
  - intros (x & Hp%get_proc_slot & Ha). destruct (teardown_ok 5 (Some p) s p x Hok (conj Hp Ha) (deep_five s p x Hok (conj Hp Ha))) as (back & s' & -> & Hok' & _). exists s', None. split; [done|by apply ok_none].
  - intros (_ & x & Hp%get_proc_slot & Ha). destruct (teardown_ok 5 (Some c) s p x Hok (conj Hp Ha) (deep_five s p x Hok (conj Hp Ha))) as (back & s' & -> & Hok' & _). exists s', None. split; [done|by apply ok_none].
  - intros (x & Hp%get_proc_slot & Ha). eexists _, None. split; [reflexivity|]. apply (ok_lost_ext (more left (Some x))); [|by apply ok_lost]. intros t i. cbn. unfold held. by rewrite Ha.
Qed.

(** ** The start *)

Lemma start_rows n t i : 0 ≤ t < 6 → 0 ≤ i < 32 → ∃ e, nst (start n) !! (t, i) = Some e ∧ level e = 0 ∧ used e = (i =? 0).
Proof.
  intros Ht Hi. assert (forallb (λ t, forallb (λ i, match nst (start 0) !! (t, i) with Some e => (level e =? 0) && eqb (used e) (i =? 0) | None => false end) (seqZ 0 32)) (seqZ 0 6) = true) as H by (vm_compute; reflexivity).
  rewrite forallb_forall in H. specialize (H t). rewrite forallb_forall in H. specialize (H ltac:(apply list_elem_of_In, elem_of_seqZ; lia) i ltac:(apply list_elem_of_In, elem_of_seqZ; lia)). change (nst (start n)) with (nst (start 0)). destruct (nst (start 0) !! (t, i)) as [e|]; [|done]. exists e. split; [done|]. apply andb_true_iff in H as [H1%Z.eqb_eq H2%eqb_prop]. done.
Qed.

(** Only the first namespaces are in use. *)
Lemma inv_first m U : (∀ t i, 0 ≤ t < 6 → 0 ≤ i < 32 → ∃ e, m !! (t, i) = Some e ∧ level e = 0 ∧ used e = (i =? 0)) → (∀ t i, 0 ≤ t < 6 → 1 ≤ i → U t i = 0) → inv m U.
Proof.
  intros Hm HU. assert (∀ t i e, 0 ≤ t < 6 → 1 ≤ i < 32 → m !! (t, i) = Some e → used e = false) as Hno. { intros t i e Ht Hi He. destruct (Hm t i Ht ltac:(lia)) as (e' & He' & _ & Hu). rewrite He in He'. injection He' as <-. rewrite Hu. by apply Z.eqb_neq; lia. }
  assert (∀ t i e, 0 ≤ t < 6 → 1 ≤ i < 32 → m !! (t, i) = Some e → used e ≠ true) as Hnot by (intros t i e Ht Hi He; by rewrite (Hno t i e)).
  assert (∀ t i, 0 ≤ t < 6 → kids m t i = 0) as Hk. { intros t i Ht. unfold kids. destruct (tree t); [|done]. apply countb_none, Forall_forall. intros j Hj%slots_in. unfold child_of. destruct (m !! (t, j)) as [e|] eqn:He; [|done]. by rewrite (Hno t j e). }
  split.
  - intros t i Ht Hi. destruct (Hm t i Ht Hi) as (e & He & _). by exists e.
  - intros t e Ht He. destruct (Hm t 0 Ht ltac:(lia)) as (e' & He' & Hl & Hu). rewrite He in He'. by injection He' as <-.
  - intros t i e Ht Hi He. rewrite (Hno t i e), HU, Hk by (done || lia). done.
  - intros t i e Ht Hi He Hu. by destruct (Hnot t i e).
  - intros i e Hi He Hu. by destruct (Hnot N_PID i e).
  - intros i e Hi He Hu. by destruct (Hnot N_PID i e).
  - exists (λ _ _, 0%nat). intros t i e Ht _ Hi He Hu. by destruct (Hnot t i e).
Qed.

Lemma start_users n t i : 0 ≤ t < 6 → 1 ≤ i → @users (lost_of []) (procs (start n)) t i = 0.
Proof.
  intros Ht Hi. change (hold t i (Some (fresh 1)) + @users (lost_of []) (replicate n None) t i = 0). rewrite hold_fresh by done. assert (@users (lost_of []) (replicate n None) t i = 0) as ->; [|lia]. induction n as [|n IH]; [done|exact IH].
Qed.

Lemma start_slot n q x : procs (start n) !! q = Some (Some x) → q = 0%nat ∧ x = fresh 1.
Proof. change (procs (start n)) with (Some (fresh 1) :: replicate n None). destruct q as [|q]; cbn; [by intros [= <-]|]. intros H. apply lookup_replicate in H as [? _]. done. Qed.

Lemma below_zero m n a : below m n a → a = 0 → n = 0.
Proof. induction 1; auto. intros. contradiction. Qed.

Lemma start_ok n : @ok (lost_of []) (start n).
Proof.
  split; [split| | | |].
  - apply inv_first; [apply start_rows|apply start_users].
  - done.
  - intros p x [_ ->]%get_proc_slot%start_slot _. split; [|split; [cbn; lia|done]]. intros t Ht. by apply (kind_cases t).
  - by intros q x [_ ->]%start_slot.
  - split.
    + intros q x m e [[_ ->]%start_slot _] Hm Hb. destruct (Hm (below_zero _ _ _ Hb eq_refl)).
    + intros q q' x x' m e [[-> _]%start_slot _] [[-> _]%start_slot _] Hne. by destruct Hne.
  - intros q q' x x' [-> _]%start_slot [-> _]%start_slot _. reflexivity.
  - intros q x [_ ->]%start_slot. reflexivity.
Qed.

Lemma reach_ok hn s k : reach hn s k → @ok (lost_of k) s.
Proof.
  induction 1 as [n|s k o s' c _ IH Hl Hc]; [apply start_ok|]. destruct (call_ok (lost_of k) hn s o IH Hl) as (s'' & c' & Hc' & Hok). assert (s'' = s' ∧ c' = c) as [-> ->] by (split; congruence). apply (ok_lost_ext (more (lost_of k) c)); [|done]. intros t i. change (holders (c :: k) t i = holders k t i + hold t i c). unfold holders. cbn [foldr]. lia.
Qed.

(** ** What a process sees of the others *)

Section views.
Context `{left : Lost}.

Lemma view_ok k s U n en : ∀ a, inv (nst s) U → n ≠ 0 → nst s !! (N_PID, n) = Some en → 1 ≤ level en → there (nst s) N_PID a → (∀ e, nst s !! (N_PID, a) = Some e → a ≠ 0 → level e ≤ Z.of_nat k) → (0 < k)%nat →
  ∃ b : bool, view k s a n (level en) = Some b ∧ (b = true ↔ below (nst s) n a).
Proof.
  induction k as [|k IH]; intros a V Hn Hen Hln Hth Hl Hk; [lia|]. cbn [view]. destruct (Z.eqb_spec a n) as [->|Han]; [exists true; split; [done|]; split; [intros _; constructor|done]|].
  destruct (there_entry _ _ N_PID _ V ltac:(done) Hth) as (e & He & Hu). rewrite He, bind_some. destruct (Z.leb_spec (level e) (level en)) as [Hle|Hle].
  - exists false. split; [done|]. split; [done|]. intros Hb. destruct (below_there _ _ _ _ V Hb Hn Hth) as (_ & _ & Hlt). destruct (Hlt e en He Hen). lia.
  - assert (a ≠ 0) as Ha. { intros ->. destruct (v_root _ _ V N_PID e ltac:(done) He). lia. } specialize (Hl e He Ha). destruct (parent_level _ _ a e V ltac:(destruct Hth; lia) He Hu) as [Hpt Hpl].
    destruct (IH (parent e) V Hn Hen Hln Hpt) as (b & -> & Hb). { intros pe Hpe _. destruct (Hpl pe Hpe). lia. } { lia. }
    exists b. split; [done|]. rewrite Hb. split; [by apply below_up|]. inversion 1 as [|? e' ? He' Hb']; [done|]. rewrite He in He'. by injection He' as <-.
Qed.

Lemma ns_pid_view_ok s p v r q : ok s → live (procs s) p v → live (procs s) r q → pidns v ≠ 0 →
  ∃ k, ns_pid_view s v q = Some k ∧ (k ≠ 0 ↔ below (nst s) (pidns v) (pidns q)) ∧ (k ≠ 0 → ∃ e, nst s !! (N_PID, pidns v) = Some e ∧ (vpid q).[level e] = Some k).
Proof.
  intros Hok Hv Hq H0. pose proof (ok_good _ Hok) as Hg. pose proof (gd_inv _ Hg) as V. assert (∀ r q, live (procs s) r q → there (nst s) N_PID (pidns q)) as Hth by (intros r' q' [Hl Ha]; apply (live_there s Hg (ok_thr _ Hok)); [by apply list_elem_of_lookup_2 in Hl|done]).
  destruct (there_entry _ _ N_PID _ V ltac:(done) (Hth p v Hv)) as (e & He & Hu). assert (1 ≤ level e ≤ 3) as Hl by (apply (v_level _ _ V (pidns v) e); [destruct (Hth p v Hv); lia|done..]). unfold ns_pid_view. rewrite He, bind_some.
  destruct (view_ok 32 s _ (pidns v) e (pidns q) V H0 He ltac:(lia) (Hth r q Hq)) as (b & -> & Hb); [|lia|]. { intros e' He' Hq0. destruct (there_entry _ _ N_PID _ V ltac:(done) (Hth r q Hq)) as (e2 & He2 & Hu2). rewrite He' in He2. injection He2 as <-. destruct (v_level _ _ V (pidns q) e' ltac:(destruct (Hth r q Hq); lia) He' Hu2). lia. }
  rewrite bind_some. destruct b.
  - destruct (po_range _ _ (ok_pids _ Hok) r q (pidns v) e Hq H0 (proj1 Hb eq_refl) He) as (k & Hk & Hr). rewrite Hk. exists k. split; [done|]. split; [split; [intros _; by apply Hb|lia]|]. intros _. by exists e.
  - exists 0. split; [done|]. split; [|done]. split; [done|]. intros H%Hb. done.
Qed.

(** No process waits to be waited for. *)
Definition no_zombies (l : list (option proc)) : Prop := ∀ q x, l !! q = Some (Some x) → alive x = true.

Lemma by_pid_ok s q y : ok s → procs s !! q = Some (Some y) → proc_by_pid s (pid y) = Some y.
Proof.
  intros Hok Hq. unfold proc_by_pid. pose proof (ok_pid _ Hok) as Hd. revert q Hq Hd. generalize (procs s). intros l. induction l as [|o l IH]; intros q Hq Hd; [done|]. cbn [first_some]. destruct q as [|q]; cbn in Hq.
  - injection Hq as ->. rewrite bind_some, Z.eqb_refl. done.
  - assert (distinct l) as Hd' by (intros a b x x' Ha Hb E; specialize (Hd (S a) (S b) x x' Ha Hb E); lia). destruct o as [z|]; [|by apply (IH q)]. rewrite bind_some. destruct (Z.eqb_spec (pid z) (pid y)) as [E|E]; [specialize (Hd 0%nat (S q) z y eq_refl Hq E); lia|]. by apply (IH q).
Qed.

Lemma lpid_ok s p v r q k : ok s → no_zombies (procs s) → live (procs s) p v → pidns v ≠ 0 → procs s !! r = Some (Some q) → ns_pid_view s v q = Some k → k ≠ 0 → lpid s v k (procs s) = Some (pid q).
Proof.
  intros Hok Hnz Hv H0 Hr Hk Hk0. assert (∀ a x, procs s !! a = Some (Some x) → ∃ k', ns_pid_view s v x = Some k' ∧ (k' = k → a = r)) as Hx.
  { intros a x Ha. destruct (ns_pid_view_ok s p v a x Hok Hv (conj Ha (Hnz a x Ha)) H0) as (k' & Hk' & Hb & He). exists k'. split; [done|]. intros ->. destruct (decide (a = r)) as [|Hne]; [done|]. exfalso. destruct (ns_pid_view_ok s p v r q Hok Hv (conj Hr (Hnz r q Hr)) H0) as (k2 & Hk2 & Hb2 & He2). rewrite Hk in Hk2. injection Hk2 as <-.
    destruct (He Hk0) as (e & Hm & Hve). destruct (He2 Hk0) as (e2 & Hm2 & Hve2). rewrite Hm in Hm2. injection Hm2 as <-. apply (po_diff _ _ (ok_pids _ Hok) a r x q (pidns v) e); try done; [split; [done|by apply (Hnz a)]|split; [done|by apply (Hnz r)]|by apply Hb|by apply Hb2|congruence]. }
  revert r Hr Hx. generalize (procs s). intros l. induction l as [|o l IH]; intros r Hr Hx; [done|]. destruct r as [|r]; cbn in Hr.
  - injection Hr as ->. cbn [lpid]. rewrite Hk, bind_some, Z.eqb_refl. done.
  - assert (∀ a x, l !! a = Some (Some x) → ∃ k', ns_pid_view s v x = Some k' ∧ (k' = k → a = r)) as Hx' by (intros a x Ha; destruct (Hx (S a) x Ha) as (k' & E1 & E2); exists k'; split; [done|]; intros E; specialize (E2 E); lia).
    destruct o as [z|]; cbn [lpid]; [|by apply (IH r)]. destruct (Hx 0%nat z eq_refl) as (k' & -> & E). rewrite bind_some. destruct (Z.eqb_spec k' k) as [E'|]; [specialize (E E'); lia|]. by apply (IH r).
Qed.

End views.

(** ** A run *)

Definition alive_at (s : st) (p : nat) : bool := match get_proc s p with Some x => alive x | None => false end.

Definition legalb (s : st) (o : op) : bool :=
  match o with
  | OUnshare p _ | OSethost p _ _ | OExit p => alive_at s p
  | OKill c p => alive_at s c && alive_at s p
  | OJoin p t _ => (0 <=? t) && (t <? 6) && alive_at s p
  | OClone p _ g _ _ _ => forallb (λ o, match o with Some y => negb (pid y =? g) | None => true end) (procs s) && bool_decide (map_Forall (λ _ e, next e < 2 ^ 31 - 1) (nst s)) && alive_at s p
  | OReap p => match get_proc s p with Some x => negb (alive x) | None => false end
  end.

Fixpoint runs (hn : option (list Z)) (s : st) (k : list (option proc)) (l : list op) : option (st * list (option proc)) :=
  match l with [] => Some (s, k) | o :: l => if legalb s o then '(s, c) ← call hn s o; runs hn s (c :: k) l else None end.

Lemma alive_at_ok s p : alive_at s p = true → ∃ x, get_proc s p = Some x ∧ alive x = true.
Proof. unfold alive_at. destruct (get_proc s p) as [x|]; [|done]. by exists x. Qed.

Lemma legalb_ok s o : legalb s o = true → legal s o.
Proof.
  destruct o as [p fl|p t idx|p name dom|p fl g full pd e|p|c p|p]; cbn [legalb legal]; try apply alive_at_ok.
  - intros [[H1%Z.leb_le H2%Z.ltb_lt]%andb_true_iff H3%alive_at_ok]%andb_true_iff. split; [lia|done].
  - intros [[H1 H3%bool_decide_eq_true]%andb_true_iff H2%alive_at_ok]%andb_true_iff. split; [|split; [intros i e' He'; exact (H3 _ _ He')|done]]. intros q y Hq%get_proc_slot. rewrite forallb_forall in H1. specialize (H1 (Some y) ltac:(apply list_elem_of_In; by apply list_elem_of_lookup_2 in Hq)). by apply negb_true_iff, Z.eqb_neq in H1.
  - intros [H1%alive_at_ok H2%alive_at_ok]%andb_true_iff. done.
  - destruct (get_proc s p) as [x|]; [|done]. intros H%negb_true_iff. by exists x.
Qed.

Lemma runs_reach hn l : ∀ s k s' k', reach hn s k → runs hn s k l = Some (s', k') → reach hn s' k'.
Proof.
  induction l as [|o l IH]; intros s k s' k' Hr; cbn [runs]; [by intros [= <- <-]|]. destruct (legalb s o) eqn:El; [|done]. destruct (call hn s o) as [[s1 c]|] eqn:Ec; [|done]. rewrite bind_some. apply IH. apply (reach_call hn s k o); [done|by apply legalb_ok|done].
Qed.

(** A process asks for a pid namespace for its children; its child and its grandchild are the first and the second in it;
    the third child has no place on a processor. *)
Definition story : list op := [OUnshare 0 NEWPID; OClone 0 0 2 false true 0; OClone 1 0 3 false true 0; OClone 1 0 4 false true (- EAGAIN)].
Definition example : st := default (start 3) (fst <$> runs None (start 3) [] story).
Definition example_lost : list (option proc) := default [] (snd <$> runs None (start 3) [] story).

Lemma example_reach : reach None example example_lost.
Proof. apply (runs_reach None story (start 3) []); [constructor|]. vm_compute. reflexivity. Qed.

(** ** Claims *)

(** C38: Whatever processes without threads do with their namespaces (unshare, setns, sethostname, clone with new namespaces, successful or failing at any point, exit, killing each other, and being waited for), the count of every namespace is the number of the references of processes in it, of those that the children of forks that failed in [start_task] left behind ([k]), and of the namespaces right below it for users and pids; one that is free has none of them.  The namespaces of a live process are in use.  Every further call of a live process returns: no walk up a tree runs past the table, no index leaves it.  A namespace whose next pid is at the limit of an int takes no further process here ([legal]). *)
Theorem ns_counts hn s k (Hr : reach hn s k) :
  (∀ t i e, 0 ≤ t < N_MAX → 1 ≤ i < NN → nst s !! (t, i) = Some e →
     if used e then refs e = holders (procs s) t i + holders k t i + kids (nst s) t i else holders (procs s) t i = 0 ∧ holders k t i = 0 ∧ kids (nst s) t i = 0) ∧
  (∀ p x t, get_proc s p = Some x → alive x = true → 0 ≤ t < N_MAX → ∃ e, nst s !! (t, ns_idx x t) = Some e ∧ used e = true) ∧
  ∀ o, legal s o → is_Some (call hn s o).
Proof.
  pose proof (reach_ok hn s k Hr) as Hok. pose proof (ok_good _ Hok) as Hg. split; [|split].
  - intros t i e Ht Hi He. destruct (v_refs _ _ (gd_inv _ Hg) t i e Ht Hi He) as [_ H]. rewrite users_holders in H. pose proof (holders_nonneg (procs s) t i). pose proof (holders_nonneg k t i). destruct (used e); lia.
  - intros p x t Hp Ha Ht. destruct (idx_there s p x t Hg Hp (live_held s p x Hok Hp Ha) Ht) as [Hth _]. by apply (there_entry _ _ t _ (gd_inv _ Hg)).
  - intros o Hl. destruct (call_ok (lost_of k) hn s o Hok Hl) as (s' & c & -> & _). by eexists.
Qed.

(** Three references of processes, one that was left behind. *)
Lemma ns_counts_witness : (∃ e, nst example !! (N_PID, 1) = Some e ∧ refs e = 4 ∧ holders (procs example) N_PID 1 = 3 ∧ refs e = holders (procs example) N_PID 1 + holders example_lost N_PID 1 + kids (nst example) N_PID 1) ∧ is_Some (call None example (OExit 1)).
Proof.
  destruct (ns_counts None example example_lost example_reach) as (H & _ & Hc). split; [|apply Hc, legalb_ok; vm_compute; reflexivity].
  destruct (nst example !! (N_PID, 1)) as [e|] eqn:He; [|vm_compute in He; discriminate]. exists e. specialize (H N_PID 1 e ltac:(unfold N_PID, N_MAX; lia) ltac:(unfold NN; lia) He).
  assert (used e = true ∧ refs e = 4) as [Hu Hr] by (vm_compute in He; injection He as <-; split; reflexivity). rewrite Hu in H. split; [reflexivity|]. split; [exact Hr|]. split; [vm_compute; reflexivity|exact H].
Defined.

(** C39: Translating a pid into a pid namespace and back gives the pid.  In any state that processes without threads can reach ([reach], in which no process is cloned into a pid namespace whose next pid is at the limit of an int) and in which no dead process is left: for live processes [v], in a pid namespace of its own, and [q], [v] has a pid for [q] exactly if [q] is in the namespace of [v] or below it, and looking that pid up finds [q]. *)
Theorem pid_round_trip hn s k0 p r v q (Hr : reach hn s k0) (Hz : no_zombies (procs s)) (Hv : get_proc s p = Some v) (Hq : get_proc s r = Some q) (H0 : pidns v ≠ 0) :
  ∃ k, ns_gpid s v (pid q) = Some k ∧ (k ≠ 0 ↔ below (nst s) (pidns v) (pidns q)) ∧ (k ≠ 0 → ns_lpid s v k = Some (pid q)).
Proof.
  pose proof (reach_ok hn s k0 Hr) as Hok. apply get_proc_slot in Hv, Hq. assert (live (procs s) p v) as Lv by (split; [done|by apply (Hz p)]). assert (live (procs s) r q) as Lq by (split; [done|by apply (Hz r)]).
  destruct (ns_pid_view_ok s p v r q Hok Lv Lq H0) as (k & Hk & Hb & _). exists k. unfold ns_gpid, ns_lpid. rewrite (proj2 (Z.eqb_neq _ _) H0), (by_pid_ok (left := lost_of k0) s r q Hok Hq). split; [done|]. split; [done|]. by apply (lpid_ok (left := lost_of k0) s p v r q).
Qed.

Lemma pid_round_trip_witness : ∃ v q k, get_proc example 1 = Some v ∧ get_proc example 2 = Some q ∧ pid q = 3 ∧ ns_gpid example v (pid q) = Some 2 ∧ ns_gpid example v (pid q) = Some k ∧ (k ≠ 0 ↔ below (nst example) (pidns v) (pidns q)) ∧ (k ≠ 0 → ns_lpid example v k = Some (pid q)).
Proof.
  assert (no_zombies (procs example)) as Hz. { intros q x H. assert (forallb (λ o, match o with Some y => alive y | None => true end) (procs example) = true) as Hf by (vm_compute; reflexivity). rewrite forallb_forall in Hf. apply list_elem_of_lookup_2, list_elem_of_In in H. exact (Hf _ H). }
  destruct (get_proc example 1) as [v|] eqn:Ev; [|vm_compute in Ev; discriminate]. destruct (get_proc example 2) as [q|] eqn:Eq; [|vm_compute in Eq; discriminate].
  destruct (pid_round_trip None example example_lost 1 2 v q example_reach Hz Ev Eq) as (k & Hk); [vm_compute in Ev; injection Ev as <-; vm_compute; discriminate|]. exists v, q, k. split; [reflexivity|]. split; [reflexivity|]. split; [vm_compute in Eq; injection Eq as <-; reflexivity|]. split; [vm_compute in Ev, Eq; injection Ev as <-; injection Eq as <-; vm_compute; reflexivity|exact Hk].
Defined.

(** C40: The end of a process [p], by itself or by a SIGKILL, in any state that processes without threads can reach: it ends within five nested calls, and nobody else changes but those that are doomed, that is [p] itself and, if it was the first process of its pid namespace, every process in that namespace or below, however deep these are nested.  If it comes back, all of them are dead.  It does not come back only if the process on the processor ([cur]) is another one of them: that one is dead then, and [p] lives on. *)
Theorem exit_kills hn s k p x cur (Hr : reach hn s k) (Hp : get_proc s p = Some x) (Ha : alive x = true) :
  ∃ (back : bool) s', teardown 5 cur s p = Some (back, s') ∧ (∀ q y, get_proc s q = Some y → alive y = true → ¬ doomed (nst s) p x q y → get_proc s' q = Some y) ∧
    if back then ∀ q y, get_proc s q = Some y → alive y = true → doomed (nst s) p x q y → dead_at (procs s') q
    else get_proc s' p = Some x ∧ ∃ c z, cur = Some c ∧ c ≠ p ∧ get_proc s c = Some z ∧ alive z = true ∧ doomed (nst s) p x c z ∧ dead_at (procs s') c.
Proof.
  pose proof (reach_ok hn s k Hr) as Hok. assert (live (procs s) p x) as Hl by (split; [by apply get_proc_slot|done]). destruct (teardown_ok 5 cur s p x Hok Hl (deep_five s p x Hok Hl)) as (back & s' & E & Hok' & Hfe & Hb). exists back, s'. split; [done|]. split.
  - intros q y Hq%get_proc_slot Hay Hn. apply get_proc_slot. destruct (f_slot _ _ _ Hfe q) as [Eq|(z & [Hz _] & Hd & _)]; [congruence|]. assert (z = y) as -> by congruence. done.
  - destruct back; [|destruct Hb as ([Hp' _] & c & z & Hc & Hne & [Hz Haz] & Hd & Hdc); split; [by apply get_proc_slot|]; exists c, z; split_and!; try done; by apply get_proc_slot].
    destruct Hb as [Hdp Hno]. intros q y Hq%get_proc_slot Hay Hd. destruct (f_slot _ _ _ Hfe q) as [Eq|(z & _ & _ & Hdq)]; [|done]. destruct Hd as [->|[Hfi Hbq]]; [done|]. destruct (Hno Hfi q y); [|done]. split; [congruence|done].
Qed.

(** The first process of a namespace takes the other one with it; killed by that one, it lives on. *)
Lemma exit_kills_witness : ∃ x, get_proc example 1 = Some x ∧
  (∃ s', teardown 5 (Some 1%nat) example 1 = Some (true, s') ∧ (∀ q y, get_proc example q = Some y → alive y = true → doomed (nst example) 1 x q y → dead_at (procs s') q) ∧ alive_at s' 0 = true ∧ alive_at s' 2 = false) ∧
  ∃ s', teardown 5 (Some 2%nat) example 1 = Some (false, s') ∧ get_proc s' 1 = Some x.
Proof.
  destruct (get_proc example 1) as [x|] eqn:Ex; [|vm_compute in Ex; discriminate]. exists x. assert (alive x = true) as Ha by (vm_compute in Ex; injection Ex as <-; reflexivity). split; [reflexivity|]. split.
  - destruct (exit_kills None example example_lost 1 x (Some 1%nat) example_reach Ex Ha) as (back & s' & E & _ & H). assert (option_map (λ r, (r.1, alive_at r.2 0, alive_at r.2 2)) (teardown 5 (Some 1%nat) example 1) = Some (true, true, false)) as El by (vm_compute; reflexivity). rewrite E in El. cbn [option_map fst snd] in El. injection El as Eb E1 E2. rewrite Eb in E, H. exists s'. split; [exact E|]. split; [exact H|]. split; assumption.
  - destruct (exit_kills None example example_lost 1 x (Some 2%nat) example_reach Ex Ha) as (back & s' & E & _ & H). assert (option_map fst (teardown 5 (Some 2%nat) example 1) = Some false) as El by (vm_compute; reflexivity). rewrite E in El. cbn [option_map fst] in El. injection El as Eb. rewrite Eb in E, H. exists s'. split; [exact E|apply H].
Defined.

(** If the process on the processor is one of them, the kernel never comes back from its end: the process that was to be killed lives on. *)
Lemma killer_dies : ∃ s', teardown 5 (Some 2%nat) example 1 = Some (false, s') ∧ alive_at s' 2 = false ∧ alive_at s' 1 = true.
Proof.
  assert (option_map (λ r, (r.1, alive_at r.2 2, alive_at r.2 1)) (teardown 5 (Some 2%nat) example 1) = Some (false, false, true)) as El by (vm_compute; reflexivity). destruct (teardown 5 (Some 2%nat) example 1) as [[b s']|]; [|discriminate]. cbn [option_map fst snd] in El. injection El as Hb H2 H1. exists s'. rewrite Hb. split; [reflexivity|]. split; assumption.
Qed.

End NsMain.
